(* ===== verification/_CoqProject ===== *)
-Q . S2P
Prelude.v
Text.v
Runes.v
Parity.v
Types.v
Program.v
LoaderSafety.v
LoaderFormat.v
NumberText.v
AosText.v
AosFormat.v
ProgramWriter.v
Numeric.v
Syscalls.v
Vm.v
Lifecycle.v
Stack.v
Map.v
Blob.v
Memory.v
Control.v
ControlSafety.v
Step.v
Calls.v
Roots.v
Pairs.v
NodeGc.v
NodeMark.v
NodeMove.v
NodeCompact.v
Moves.v
Strings.v
StringText.v
StringIndex.v
StringLookup.v
StringGc.v
StringCompact.v
StringCopy.v
Bytes.v
BytesGc.v
NodeCreate.v
NodeTrees.v
NodeRoom.v
NodeBuild.v
Collector.v
CollectorSafety.v
TextOps.v
NodeOps.v
Operands.v
BytesCopy.v
TextSpec.v
NodeSpec.v
Tasks.v
AsyncCalls.v
WorkerTasks.v
CallSys.v
Machine.v
TaskFrame.v
BatchFrames.v
BoundaryCopy.v
TaskSafety.v
TaskSteps.v
ErrorSticks.v
SystemSafety.v
Debugger.v
Compiler.v
SourceFiles.v
CompilerSafety.v
CompilerSound.v
Build.v
BytecodeText.v
Embedding.v
Meaning.v
Scheduler.v
RemoteChannel.v
RemoteSession.v
WsFrame.v
Workers.v
ModuleCache.v
Invocations.v
