(* ===== verification/Prelude.v ===== *)
(** * AiVM verification library

    AiVM (src/src) is a virtual machine in C for AiLang bytecode, with a compiler from
    AiLang sources.  This library models the machine, its loader, its hosts' interfaces
    and the compiler, translated function by function, and proves what makes them correct.

    ** The program and where its parts are modelled

    The command line tool compiles source files to a program and writes it as a container
    of bytecode.  A host loads the container, initialises a VM for a runtime profile, and
    steps it until it halts or reports an error.  Instructions work on a value stack,
    call frames and locals; texts, byte views, nodes and pairs live in arenas owned by
    the VM, which collectors compact; system calls leave the VM through a checked gate;
    asynchronous calls run on worker VMs, each on a thread of its own, and on workers of
    the program's catalog; a remote peer talks to a host through framed messages.

    - Loading.  Program.v: aivm_program*.c and aivm_worker_catalog.c.  LoaderSafety.v
      and LoaderFormat.v: memory safety on every input, and the container format.
    - Building (ailang_cli/ailang.c).  AosText.v, AosFormat.v: the scanner of nodes and
      attributes, and the text it reads.  Compiler.v: simple_compile_*, from nodes to
      instructions.  SourceFiles.v: files, imports, packages and the SDK.  CompilerSafety.v,
      CompilerSound.v: the compiler keeps the program well-formed.  Build.v: the whole
      build.  ProgramWriter.v: write_program_as_aibc1.  BytecodeText.v: Bytecode# files.
    - Data.  Types.v: values, opcodes, error codes (aivm_types.c, include/).  Numeric.v,
      NumberText.v: arithmetic and the text of numbers.  Text.v, Runes.v: base64, UTF-8,
      rune-indexed text (aivm_vm_text.c, aivm_vm.c).
    - The VM.  Vm.v: the record [AivmVm] (include/aivm_vm.h) and the monad [M].
      Lifecycle.v: profiles, storage, reset.  Stack.v: stack, frames, locals, history.
      Map.v, Blob.v: the tables of maps and blobs.  Memory.v: reading through pointers.
    - The interpreter.  Control.v: the instructions on stack, frames and locals.
      TextOps.v, NodeOps.v: those that make texts, bytes, nodes, pairs and maps.
      Tasks.v, AsyncCalls.v, WorkerTasks.v, CallSys.v: those of tasks, threads, catalog
      workers and system calls.  Step.v: [aivm_step] and [aivm_run] for any instruction
      set.  Machine.v: the complete set, and the system of a VM with its threads.
    - The heap.  Strings.v, StringCopy.v: the string arena with its intern index.
      Bytes.v, BytesCopy.v: the bytes arena.  Pairs.v, NodeGc.v, NodeCreate.v: pairs and
      nodes.  Roots.v: the walks over the roots.  Collector.v: the whole collection.
    - System calls.  Syscalls.v: contracts, policies and dispatch (src/src/sys).
    - Workers.  Scheduler.v: aivm_worker_scheduler.c, a task table shared by threads.
      Workers.v: capabilities, capacity and program preparation.  Invocations.v:
      aivm_worker_invocation.c and aivm_worker_runtime.c, the runs on the scheduler.
    - Hosts.  Embedding.v: aivm_runtime.c and aivm_c_api.c.  Debugger.v: aivm_debugger.c.
      Parity.v: aivm_parity.c.
    - Remote.  RemoteChannel.v, RemoteSession.v, WsFrame.v: src/src/remote.
    - ModuleCache.v: aivm_module_cache.c.

    The other files hold the proofs about these (see the comment each opens with).

    ** How code becomes definitions

    Each C function is a definition of the same name; an instruction of [aivm_step] is
    [op_<name>].  Integers are [Z]; every place where the source wraps, casts or may
    overflow says so ([u8], [u32], [u64], [i64_of_u64], checked [int64_t] arithmetic).
    Doubles are [spec_float].  An array with a counter is the list of its live elements.
    A pointer into an arena names the generation of the block it was taken from; a
    compaction starts a new generation, so an older pointer dangles and reading it is
    undefined.  A computation of [M] succeeds, fails with the state the failure left
    behind (the source returns 0), or is undefined behaviour of C ([Undef]); an access
    outside an array, a dangling read and signed overflow are [Undef], never a default.
    The answers of the allocator and of the platform's memory snapshot come from the
    class [Host], indexed by the number of questions asked, so no theorem depends on
    a particular allocator.  Services outside the modelled code are classes too:
    [Clock], [WorkerRuntime], [Threads], the handlers bound to system calls,
    [Transport], [SafePoint] (discharged by Collector.v).

    ** What the theorems show

    - Safety: the loader never leaves its buffers; core instructions, the collector
      included, keep the counters and arenas in bounds; codecs stay inside their
      buffers; the probing loops of the hash maps end.
    - The heap: every compaction, and the whole collection, keeps the document (kind,
      ids, attributes, children, texts, bytes) that each root stands for; copying a text
      and creating a node give what was asked for whatever is compacted on the way; the
      indexed search for an interned text agrees with a scan of the arena (StringLookup.v).
    - Building: whatever the sources contain, the compiler stays inside its arrays, ends
      where imports are not circular, and gives a program whose jumps, calls, constants and
      locals exist; written, loaded and executed it is the program that was compiled.
    - Instructions: text, bytes, node and pair instructions refine functions on
      documents; calls, returns and tail calls keep the calling convention.
    - Tasks and threads: for every program, host and interleaving each VM of the system
      keeps its task table in order; copies across a worker boundary end; the frames of
      a batch are parsed exactly; the scheduler keeps its counts and drains; the result a
      host awaits from a worker is that of its own run, whatever else is interleaved.
    - Hosts: results reported through the C interface are consistent; a debugging session
      leaves the VM as ordinary steps do, and continuing stops at the first breakpoint.
    - Gates: a system call reaches the host only through contract, policy and binding;
      a prepared worker never exceeds its parent; a remote result needs a grant.
    - Formats: round trips for the bytecode container, the node text, base64, remote
      messages, worker batches and WebSocket frames.
    - Flaws of the code, as theorems about the model on concrete states: see the
      theorems whose statements end in a wrong or undefined result.

    ** Bounds and fuel

    Loops over an input carry its length, walks over an arena its size, probes the size
    of the table, growth loops the number of steps up to the capacity; the theorems
    show that the fuel is enough (the loader and the maps never return [None], the
    boundary copy never reaches its end, [aivm_step] needs none).  The compilers of a node
    get three calls for every byte of its text and three more, the resolution of fixups a
    round for each of the 2048 possible; the depth of imports is a parameter, as circular
    imports do not end.  [aivm_run] takes the number of steps, as a program need not halt.  Interleavings are sequences of steps
    of any length.

    ** Not modelled

    The counters of the debug build; platform code (threads, clocks and memory
    snapshots are the classes above); NaN payloads; the release of the memory of a VM.  The
    commands of the command line tool around the compiler (arguments, projects,
    publishing, its host system calls), the user-interface hosts, the package manager, the
    native bridge and the examples under src/src/ailang_cli, src/src/examples and
    src/src/ailang_*.c are glue over the file system, processes and windows. *)

From stdpp Require Export base list gmap strings sorting.
From Stdlib Require Export ZArith Lia.

Create HintDb aivm discriminated.
Create Rewrite HintDb aivm.

Declare Scope aivm_scope.
Delimit Scope aivm_scope with aivm.
Open Scope Z_scope.

(** ** Machine integers

    [size_t] and [uint64_t] are 64-bit, [int] values only carry truth values.
    Values are [Z] in range; wrap-around is written out with these functions. *)

Definition SIZE_MAX : Z := 2 ^ 64 - 1.
Definition INT64_MAX : Z := 2 ^ 63 - 1.
Definition INT64_MIN : Z := - 2 ^ 63.

Definition u8 (z : Z) : Z := z mod 2 ^ 8.
Definition u32 (z : Z) : Z := z mod 2 ^ 32.
Definition u64 (z : Z) : Z := z mod 2 ^ 64.

(** Conversion of a [uint64_t] to [int64_t] (two's complement). *)
Definition i64_of_u64 (z : Z) : Z := if z <? 2 ^ 63 then z else z - 2 ^ 64.

Definition is_size (z : Z) : Prop := 0 <= z <= SIZE_MAX.
Definition is_int64 (z : Z) : Prop := INT64_MIN <= z <= INT64_MAX.
Definition is_byte (z : Z) : Prop := 0 <= z < 256.

Definition int64_ok (z : Z) : bool := (INT64_MIN <=? z) && (z <=? INT64_MAX).

Global Instance is_size_dec z : Decision (is_size z).
Proof. unfold is_size; apply _. Defined.
Global Instance is_int64_dec z : Decision (is_int64 z).
Proof. unfold is_int64; apply _. Defined.
Global Instance is_byte_dec z : Decision (is_byte z).
Proof. unfold is_byte; apply _. Defined.

(** [aivm_size_add_checked] (aivm_vm_storage.c) and its static twin
    [size_add_checked] (aivm_program.c): addition that reports overflow. *)
Definition aivm_size_add_checked (a b : Z) : option Z :=
  if SIZE_MAX - b <? a then None else Some (a + b).

(** [size_mul_checked] (aivm_program.c). *)
Definition size_mul_checked (a b : Z) : option Z :=
  if negb (a =? 0) && (SIZE_MAX / a <? b) then None else Some (a * b).

(** [size_sub_checked] (aivm_vm.c). *)
Definition size_sub_checked (a b : Z) : option Z :=
  if a <? b then None else Some (a - b).

(** [aivm_counter_increment_saturating] (aivm_vm_storage.c). *)
Definition aivm_counter_increment_saturating (c : Z) : Z :=
  match aivm_size_add_checked c 1 with Some n => n | None => SIZE_MAX end.

(** ** Arrays and byte strings *)

Definition zlen {A} (l : list A) : Z := Z.of_nat (length l).

(** Array read at a [size_t]/[int64_t] index; [None] is an access outside. *)
Definition zget {A} (l : list A) (i : Z) : option A :=
  if i <? 0 then None else l !! Z.to_nat i.

(** Array write inside the array; outside it does nothing. *)
Definition zset {A} (l : list A) (i : Z) (x : A) : list A :=
  if i <? 0 then l else <[Z.to_nat i := x]> l.

Definition ztake {A} (n : Z) (l : list A) : list A := take (Z.to_nat n) l.
Definition zdrop {A} (n : Z) (l : list A) : list A := drop (Z.to_nat n) l.

(** The bytes of a C string literal. *)
Fixpoint bytes_of_string (s : string) : list Z :=
  match s with
  | EmptyString => []
  | String c s' => Z.of_N (Ascii.N_of_ascii c) :: bytes_of_string s'
  end.

(** The string of a text read from memory. *)
Fixpoint string_of_bytes (bs : list Z) : string :=
  match bs with
  | [] => EmptyString
  | b :: bs' => String (Ascii.ascii_of_N (Z.to_N b)) (string_of_bytes bs')
  end.

(** What a C string function sees of a byte buffer: everything before NUL. *)
Fixpoint cstr (bs : list Z) : list Z :=
  match bs with
  | [] => []
  | b :: bs' => if b =? 0 then [] else b :: cstr bs'
  end.

Definition bytes_ok (bs : list Z) : Prop := Forall is_byte bs.
(** A C string's content: bytes, none of them NUL. *)
Definition cstr_ok (bs : list Z) : Prop := Forall (fun b => 0 < b < 256) bs.

Notation "'byte_str' s" := (bytes_of_string s%string) (at level 10, only parsing) : aivm_scope.

(** ** Tactics *)

Ltac bdestruct_all :=
  repeat match goal with
  | H : context [?a <? ?b] |- _ => destruct (Z.ltb_spec a b); cbn [andb orb negb] in *
  | H : context [?a <=? ?b] |- _ => destruct (Z.leb_spec a b); cbn [andb orb negb] in *
  | H : context [?a =? ?b] |- _ => destruct (Z.eqb_spec a b); cbn [andb orb negb] in *
  | |- context [?a <? ?b] => destruct (Z.ltb_spec a b); cbn [andb orb negb] in *
  | |- context [?a <=? ?b] => destruct (Z.leb_spec a b); cbn [andb orb negb] in *
  | |- context [?a =? ?b] => destruct (Z.eqb_spec a b); cbn [andb orb negb] in *
  end.

(** [lia] with quotients and remainders by constants. *)
Ltac mlia := Z.to_euclidean_division_equations; lia.

Ltac case_matches :=
  repeat (case_match; simplify_eq/=; try done).

(** ** Shared lemmas *)

Lemma size_add_checked_Some a b c :
  aivm_size_add_checked a b = Some c <-> (a + b <= SIZE_MAX /\ c = a + b).
Proof.
  unfold aivm_size_add_checked. destruct (Z.ltb_spec (SIZE_MAX - b) a).
  - split; [done | lia].
  - split; [intros [= <-]; lia | intros [_ ->]; done].
Qed.

Lemma size_add_checked_None a b :
  aivm_size_add_checked a b = None <-> SIZE_MAX < a + b.
Proof.
  unfold aivm_size_add_checked. destruct (Z.ltb_spec (SIZE_MAX - b) a).
  - split; [lia | done].
  - split; [done | lia].
Qed.

Lemma size_mul_checked_Some a b c :
  0 <= a -> 0 <= b ->
  size_mul_checked a b = Some c <-> (a * b <= SIZE_MAX /\ c = a * b).
Proof.
  intros Ha Hb. unfold size_mul_checked.
  destruct (Z.eqb_spec a 0) as [->|Hne]; cbn [negb andb].
  - split; [intros [= <-]; unfold SIZE_MAX; lia | intros [_ ->]; done].
  - destruct (Z.ltb_spec (SIZE_MAX / a) b) as [Hlt|Hle].
    + split; [done | intros [Hm _]].
      assert (b <= SIZE_MAX / a) by (apply Z.div_le_lower_bound; lia). lia.
    + split; [intros [= <-] | intros [_ ->]; done].
      split; [|done].
      assert (a * (SIZE_MAX / a) <= SIZE_MAX) by (apply Z.mul_div_le; lia). nia.
Qed.

Lemma saturating_bounds c :
  is_size c -> is_size (aivm_counter_increment_saturating c).
Proof.
  unfold is_size, aivm_counter_increment_saturating. intros H.
  destruct (aivm_size_add_checked c 1) eqn:E; [|unfold SIZE_MAX; lia].
  apply size_add_checked_Some in E. lia.
Qed.

Lemma zlen_nonneg {A} (l : list A) : 0 <= zlen l.
Proof. unfold zlen. lia. Qed.

Lemma zlen_app {A} (l k : list A) : zlen (l ++ k) = zlen l + zlen k.
Proof. unfold zlen. rewrite length_app. lia. Qed.

Lemma zlen_cons {A} (x : A) l : zlen (x :: l) = zlen l + 1.
Proof. unfold zlen. cbn [length]. lia. Qed.

Lemma zlen_nil {A} : zlen (@nil A) = 0.
Proof. done. Qed.

Lemma zlen_map {A B} (f : A -> B) l : zlen (map f l) = zlen l.
Proof. unfold zlen. by rewrite length_map. Qed.

Lemma zlen_perm {A} (l k : list A) : Permutation l k -> zlen l = zlen k.
Proof. intros Hp. unfold zlen. by rewrite (Permutation_length Hp). Qed.

Global Instance zlen_proper {A} : Proper (Permutation ==> eq) (@zlen A).
Proof. intros l k Hp. by apply zlen_perm. Qed.

Lemma zget_lookup {A} (l : list A) (i : Z) : 0 <= i -> zget l i = l !! Z.to_nat i.
Proof. intros. unfold zget. destruct (Z.ltb_spec i 0); [lia | done]. Qed.

Lemma zget_Some_bounds {A} (l : list A) i x : zget l i = Some x -> 0 <= i < zlen l.
Proof.
  unfold zget, zlen. destruct (Z.ltb_spec i 0); [done|].
  intros Hl%lookup_lt_Some. lia.
Qed.

Lemma zget_is_Some {A} (l : list A) i : 0 <= i < zlen l -> exists x, zget l i = Some x.
Proof.
  unfold zlen. intros H. rewrite zget_lookup by lia.
  apply lookup_lt_is_Some. lia.
Qed.

Lemma zget_None {A} (l : list A) i : zget l i = None <-> i < 0 \/ zlen l <= i.
Proof.
  split.
  - intros H. destruct (decide (0 <= i < zlen l)) as [Hr|]; [|lia].
    destruct (zget_is_Some l i Hr). congruence.
  - intros H. destruct (zget l i) eqn:E; [|done].
    apply zget_Some_bounds in E. lia.
Qed.

Lemma zlen_zset {A} (l : list A) i x : zlen (zset l i x) = zlen l.
Proof.
  unfold zset. destruct (i <? 0); [done|]. unfold zlen. by rewrite length_insert.
Qed.

Lemma zget_zset_eq {A} (l : list A) i x : 0 <= i < zlen l -> zget (zset l i x) i = Some x.
Proof.
  unfold zlen. intros H. unfold zget, zset.
  destruct (Z.ltb_spec i 0); [lia|]. apply list_lookup_insert_eq. lia.
Qed.

Lemma zget_zset_ne {A} (l : list A) i j x : i <> j -> zget (zset l i x) j = zget l j.
Proof.
  intros H. unfold zget, zset.
  destruct (Z.ltb_spec j 0); [done|]. destruct (Z.ltb_spec i 0); [done|].
  apply list_lookup_insert_ne. lia.
Qed.

Lemma zlen_ztake {A} n (l : list A) : 0 <= n <= zlen l -> zlen (ztake n l) = n.
Proof. unfold zlen, ztake. intros. rewrite length_take. lia. Qed.

Lemma zlen_ztake_le {A} n (l : list A) : 0 <= n -> zlen (ztake n l) <= n.
Proof. unfold zlen, ztake. intros. rewrite length_take. lia. Qed.

Lemma zlen_zdrop {A} n (l : list A) : 0 <= n <= zlen l -> zlen (zdrop n l) = zlen l - n.
Proof. unfold zlen, zdrop. intros. rewrite length_drop. lia. Qed.

Lemma zdrop_zdrop {A} (l : list A) a b : 0 <= a -> 0 <= b -> zdrop a (zdrop b l) = zdrop (b + a) l.
Proof. intros Ha Hb. unfold zdrop. rewrite drop_drop. f_equal. lia. Qed.

Lemma zdrop_app {A} (l k : list A) : zdrop (zlen l) (l ++ k) = k.
Proof. unfold zdrop, zlen. rewrite Nat2Z.id. apply drop_app_length. Qed.

Lemma ztake_app {A} (l k : list A) : ztake (zlen l) (l ++ k) = l.
Proof. unfold ztake, zlen. rewrite Nat2Z.id. apply take_app_length. Qed.

(** A list around one of its elements. *)
Lemma zget_split {A} (l : list A) i x : zget l i = Some x ->
  l = ztake i l ++ x :: zdrop (i + 1) l /\ zlen (ztake i l) = i.
Proof.
  intros H. pose proof (zget_Some_bounds _ _ _ H) as Hb. rewrite zget_lookup in H by lia.
  split; [|by apply zlen_ztake; lia]. unfold ztake, zdrop.
  replace (Z.to_nat (i + 1)) with (S (Z.to_nat i)) by lia. symmetry. by apply take_drop_middle.
Qed.

Lemma zset_split {A} (l : list A) i x y : zget l i = Some x ->
  zset l i y = ztake i l ++ y :: zdrop (i + 1) l.
Proof.
  intros H. pose proof (zget_Some_bounds _ _ _ H) as Hb. unfold zset.
  destruct (Z.ltb_spec i 0); [lia|]. unfold ztake, zdrop.
  replace (Z.to_nat (i + 1)) with (S (Z.to_nat i)) by lia.
  rewrite insert_take_drop; [done|]. unfold zlen in Hb. lia.
Qed.

(** Sums over lists. *)
Fixpoint total {A} (f : A -> Z) (l : list A) : Z :=
  match l with [] => 0 | x :: rest => f x + total f rest end.

Lemma total_app {A} (f : A -> Z) l k : total f (l ++ k) = total f l + total f k.
Proof. induction l as [|x l IH]; cbn [total app]; lia. Qed.

Lemma total_nonneg {A} (f : A -> Z) l : Forall (fun x => 0 <= f x) l -> 0 <= total f l.
Proof. induction 1; cbn [total]; lia. Qed.

Lemma total_perm {A} (f : A -> Z) l k : Permutation l k -> total f l = total f k.
Proof. induction 1; cbn [total]; lia. Qed.

Lemma total_le_length {A} (f : A -> Z) l : (forall x, f x <= 1) -> total f l <= zlen l.
Proof. intros Hf. induction l as [|x l IH]; cbn [total]; [done|]. rewrite zlen_cons. specialize (Hf x). lia. Qed.

Lemma cstr_idem bs : Forall (fun b => b <> 0) bs -> cstr bs = bs.
Proof.
  induction 1 as [|b bs Hb _ IH]; [done|]. cbn [cstr].
  destruct (Z.eqb_spec b 0); [done|]. by rewrite IH.
Qed.

Lemma cstr_app_nul bs rest : Forall (fun b => b <> 0) bs -> cstr (bs ++ 0 :: rest) = bs.
Proof.
  induction 1 as [|b bs Hb _ IH]; [done|]. cbn [cstr app].
  destruct (Z.eqb_spec b 0); [done|]. by rewrite IH.
Qed.

Lemma cstr_ok_nonzero bs : cstr_ok bs -> Forall (fun b => b <> 0) bs.
Proof. intros H. eapply Forall_impl; [exact H|]. cbn. lia. Qed.

Lemma cstr_ok_bytes bs : cstr_ok bs -> bytes_ok bs.
Proof. intros H. eapply Forall_impl; [exact H|]. unfold is_byte. cbn. lia. Qed.

Lemma cstr_cstr_ok bs : bytes_ok bs -> cstr_ok (cstr bs).
Proof.
  induction 1 as [|b bs Hb _ IH]; [constructor|]. cbn [cstr].
  destruct (Z.eqb_spec b 0); [constructor|].
  constructor; [unfold is_byte in Hb; lia | done].
Qed.

#[export] Hint Resolve zlen_nonneg cstr_ok_bytes cstr_ok_nonzero cstr_cstr_ok : aivm.
#[export] Hint Rewrite @zlen_app @zlen_cons @zlen_nil @zlen_map @zlen_zset : aivm.

(** Checking a decidable property of every byte by evaluation. *)
Definition all_bytes : list Z := seqZ 0 256.

Lemma byte_exhaustive (f : Z -> bool) :
  forallb f all_bytes = true -> forall b, is_byte b -> f b = true.
Proof.
  intros H b Hb. rewrite forallb_forall in H. apply H.
  apply list_elem_of_In, elem_of_seqZ. unfold is_byte in Hb. lia.
Qed.

(** Bit operations on disjoint fields as arithmetic. *)
Lemma testbit_above b n i : 0 <= n -> 0 <= b < 2 ^ n -> n <= i -> Z.testbit b i = false.
Proof.
  intros Hn Hb Hi. apply Z.testbit_false; [lia|].
  rewrite Z.div_small; [done|]. split; [lia|].
  apply Z.lt_le_trans with (2 ^ n); [lia|]. apply Z.pow_le_mono_r; lia.
Qed.

Lemma land_shiftl_disjoint a b n :
  0 <= n -> 0 <= b < 2 ^ n -> Z.land (Z.shiftl a n) b = 0.
Proof.
  intros Hn Hb. apply Z.bits_inj'. intros i Hi. rewrite Z.land_spec, Z.bits_0.
  destruct (decide (i < n)).
  - by rewrite Z.shiftl_spec_low.
  - rewrite (testbit_above b n i) by lia. apply andb_false_r.
Qed.

Lemma lor_shiftl_add a b n :
  0 <= n -> 0 <= b < 2 ^ n -> Z.lor (Z.shiftl a n) b = a * 2 ^ n + b.
Proof.
  intros Hn Hb. pose proof (land_shiftl_disjoint a b n Hn Hb) as Hd.
  rewrite <- Z.lxor_lor, <- Z.add_nocarry_lxor by done.
  by rewrite Z.shiftl_mul_pow2.
Qed.

Lemma land_ones_mod a n : 0 <= n -> Z.land a (2 ^ n - 1) = a mod 2 ^ n.
Proof.
  intros. replace (2 ^ n - 1) with (Z.ones n) by (rewrite Z.ones_equiv; lia).
  by apply Z.land_ones.
Qed.

(** Induction on a list consumed three elements at a time. *)
Lemma list_ind3 {A} (P : list A -> Prop) :
  P [] -> (forall a, P [a]) -> (forall a b, P [a; b]) ->
  (forall a b c l, P l -> P (a :: b :: c :: l)) -> forall l, P l.
Proof.
  intros H0 H1 H2 H3.
  fix go 1. intros [|a [|b [|c l]]]; [done|apply H1|apply H2|apply H3, go].
Qed.
