(* ===== verification/Text.v ===== *)
(** * Text and byte codecs (src/src/aivm_vm_text.c)

    Base64 encoding and decoding, the strict UTF-8 validator and the
    four-digit hexadecimal reader.  Buffers are lists of bytes in [Z]; a C
    string argument is its content without the terminating NUL. *)

From S2P Require Import Prelude.

Module Base64.

(** [bytes_base64_decode_char]: the sextet of a base64 digit, -1 otherwise. *)
Definition bytes_base64_decode_char (ch : Z) : Z :=
  if (65 <=? ch) && (ch <=? 90) then ch - 65
  else if (97 <=? ch) && (ch <=? 122) then ch - 97 + 26
  else if (48 <=? ch) && (ch <=? 57) then ch - 48 + 52
  else if ch =? 43 then 62
  else if ch =? 47 then 63
  else -1.

(** One iteration of the loop of [aivm_bytes_from_base64] on four characters:
    the decoded bytes, [None] where the C function returns 0.  [last] is
    [i + 4 == input_len]. *)
Definition decode_quad (q0 q1 q2 q3 : Z) (last : bool) : option (list Z) :=
  let c0 := bytes_base64_decode_char q0 in
  let c1 := bytes_base64_decode_char q1 in
  if (c0 <? 0) || (c1 <? 0) then None
  else
    let tail :=
      if q2 =? 61 then
        if negb (q3 =? 61) then None else Some (0, 0, 2)
      else
        let c2 := bytes_base64_decode_char q2 in
        if c2 <? 0 then None
        else if q3 =? 61 then Some (c2, 0, 1)
        else
          let c3 := bytes_base64_decode_char q3 in
          if c3 <? 0 then None else Some (c2, c3, 0)
    in
    match tail with
    | None => None
    | Some (c2, c3, pad) =>
        if (0 <? pad) && negb last then None
        else
          let chunk :=
            Z.lor (Z.lor (Z.lor (u32 (Z.shiftl c0 18)) (u32 (Z.shiftl c1 12)))
                     (u32 (Z.shiftl c2 6))) c3 in
          Some (Z.land (Z.shiftr chunk 16) 255
                  :: (if pad <? 2 then [Z.land (Z.shiftr chunk 8) 255] else [])
                  ++ (if pad =? 0 then [Z.land chunk 255] else []))
    end.

(** The loop over the remaining characters, four at a time.  The length check
    made before the loop leaves no shorter remainder. *)
Fixpoint decode_loop (rest : list Z) : option (list Z) :=
  match rest with
  | [] => Some []
  | q0 :: q1 :: q2 :: q3 :: rest' =>
      match decode_quad q0 q1 q2 q3 (bool_decide (rest' = [])) with
      | None => None
      | Some out =>
          match decode_loop rest' with
          | None => None
          | Some out' => Some (out ++ out')
          end
      end
  | _ => None
  end.

(** [aivm_bytes_from_base64]: [out_capacity = None] is the sizing call with a
    NULL buffer.  The result lists the bytes stored in the buffer (those below
    the capacity) and the value left in [out_length]. *)
Definition aivm_bytes_from_base64 (input : list Z) (out_capacity : option Z)
    : option (list Z * Z) :=
  if zlen input =? 0 then Some ([], 0)
  else if negb (zlen input mod 4 =? 0) then None
  else
    match decode_loop input with
    | None => None
    | Some out =>
        match out_capacity with
        | None => Some ([], zlen out)
        | Some cap => if cap <? zlen out then None else Some (ztake cap out, zlen out)
        end
    end.

Definition alphabet : list Z :=
  bytes_of_string "ABCDEFGHIJKLMNOPQRSTUVWXYZabcdefghijklmnopqrstuvwxyz0123456789+/".

(** [alphabet[i]]; the index is masked with 0x3f, so the read is in range. *)
Definition digit (i : Z) : Z := nth (Z.to_nat (Z.land i 63)) alphabet 0.

(** The four characters written for one chunk of one to three bytes. *)
Definition encode_chunk (chunk : list Z) : list Z :=
  let bytes_in_chunk := zlen chunk in
  let b0 := nth 0 chunk 0 in
  let b1 := if 1 <? bytes_in_chunk then nth 1 chunk 0 else 0 in
  let b2 := if 2 <? bytes_in_chunk then nth 2 chunk 0 else 0 in
  let w := Z.lor (Z.lor (Z.shiftl b0 16) (Z.shiftl b1 8)) b2 in
  [digit (Z.shiftr w 18); digit (Z.shiftr w 12);
   (if 1 <? bytes_in_chunk then digit (Z.shiftr w 6) else 61);
   (if 2 <? bytes_in_chunk then digit w else 61)].

(** The [while] loop of [aivm_bytes_to_base64]; [out_index] is the number of
    characters already written, [None] the return of 0 on a full buffer. *)
Fixpoint encode_loop (input : list Z) (out_index out_capacity : Z) : option (list Z) :=
  let emit chunk rest k :=
    if out_capacity <=? out_index + 4 then None
    else match k with None => None | Some out => Some (encode_chunk chunk ++ out) end in
  match input with
  | [] => Some []
  | b0 :: b1 :: b2 :: rest =>
      emit [b0; b1; b2] rest (encode_loop rest (out_index + 4) out_capacity)
  | rest => emit rest (@nil Z) (Some [])
  end.

(** [aivm_bytes_to_base64] with a non-NULL buffer: the characters written
    before the terminating NUL. *)
Definition aivm_bytes_to_base64 (input : list Z) (out_capacity : Z) : option (list Z) :=
  if out_capacity =? 0 then None
  else if zlen input =? 0 then Some []
  else encode_loop input 0 out_capacity.

(** The buffer length computed by the BYTES_TO_BASE64 instruction
    (aivm_vm.c, before the NUL is counted). *)
Definition base64_length (input_len : Z) : Z := ((input_len + 2) / 3) * 4.

(** ** Round trip *)

Lemma digit_table : forallb (fun i => (bytes_base64_decode_char (digit i) =? i) && negb (digit i =? 61) && (0 <? digit i) && (digit i <? 128)) (seqZ 0 64) = true.
Proof. vm_compute. reflexivity. Qed.

Lemma land63 i : Z.land i 63 = i mod 64.
Proof. apply (land_ones_mod i 6). lia. Qed.

Lemma digit_spec i :
  bytes_base64_decode_char (digit i) = i mod 64 /\ digit i <> 61 /\ 0 < digit i < 128.
Proof.
  pose proof digit_table as H. rewrite forallb_forall in H.
  specialize (H (i mod 64)).
  assert (Hd : digit i = digit (i mod 64)).
  { unfold digit. rewrite !land63. by rewrite Z.mod_mod. }
  rewrite Hd. 
  assert (Hin : In (i mod 64) (seqZ 0 64)).
  { apply list_elem_of_In, elem_of_seqZ. mlia. }
  specialize (H Hin). lia.
Qed.

Lemma chunk_word b0 b1 b2 :
  is_byte b0 -> is_byte b1 -> is_byte b2 ->
  Z.lor (Z.lor (Z.shiftl b0 16) (Z.shiftl b1 8)) b2 = b0 * 65536 + b1 * 256 + b2.
Proof.
  unfold is_byte. intros.
  rewrite <- Z.lor_assoc, (lor_shiftl_add b1 b2 8) by lia.
  rewrite lor_shiftl_add by lia. lia.
Qed.

Lemma quad_word c0 c1 c2 c3 :
  0 <= c0 < 64 -> 0 <= c1 < 64 -> 0 <= c2 < 64 -> 0 <= c3 < 64 ->
  Z.lor (Z.lor (Z.lor (u32 (Z.shiftl c0 18)) (u32 (Z.shiftl c1 12))) (u32 (Z.shiftl c2 6))) c3
  = c0 * 262144 + c1 * 4096 + c2 * 64 + c3.
Proof.
  intros. unfold u32. 
  rewrite !Z.mod_small by (rewrite Z.shiftl_mul_pow2; lia).
  rewrite <- !Z.lor_assoc, (lor_shiftl_add c2 c3 6) by lia.
  rewrite (lor_shiftl_add c1 _ 12) by lia.
  rewrite (lor_shiftl_add c0 _ 18) by lia. lia.
Qed.

Lemma digit_ne_pad x : (digit x =? 61) = false.
Proof. pose proof (digit_spec x). lia. Qed.

Lemma digit_nonneg x : (bytes_base64_decode_char (digit x) <? 0) = false.
Proof. destruct (digit_spec x) as [-> _]. mlia. Qed.

Lemma land255 w : Z.land w 255 = w mod 256.
Proof. apply (land_ones_mod w 8). lia. Qed.

Lemma byte_field w n : 0 <= n -> Z.land (Z.shiftr w n) 255 = (w / 2 ^ n) mod 256.
Proof. intros. by rewrite land255, Z.shiftr_div_pow2. Qed.

(** What one decoded quad of digits yields, with no, one or two pad characters. *)
Lemma decode_quad_digits x0 x1 x2 x3 last :
  let w := (x0 mod 64) * 262144 + (x1 mod 64) * 4096 + (x2 mod 64) * 64 + x3 mod 64 in
  decode_quad (digit x0) (digit x1) (digit x2) (digit x3) last
  = Some [(w / 65536) mod 256; (w / 256) mod 256; w mod 256].
Proof.
  intros w. unfold decode_quad. rewrite !digit_nonneg, !digit_ne_pad.
  cbn [orb negb andb Z.ltb Z.compare Z.eqb app].
  rewrite !(proj1 (digit_spec _)), quad_word by mlia. fold w.
  rewrite !byte_field by lia. by rewrite land255.
Qed.

Lemma decode_quad_pad1 x0 x1 x2 :
  let w := (x0 mod 64) * 262144 + (x1 mod 64) * 4096 + (x2 mod 64) * 64 in
  decode_quad (digit x0) (digit x1) (digit x2) 61 true
  = Some [(w / 65536) mod 256; (w / 256) mod 256].
Proof.
  intros w. unfold decode_quad. rewrite !digit_nonneg, !digit_ne_pad.
  cbn [orb negb andb Z.ltb Z.compare Z.eqb Pos.eqb Pos.compare Pos.compare_cont app].
  rewrite !(proj1 (digit_spec _)), quad_word by mlia.
  rewrite Z.add_0_r. fold w. by rewrite !byte_field by lia.
Qed.

Lemma decode_quad_pad2 x0 x1 :
  let w := (x0 mod 64) * 262144 + (x1 mod 64) * 4096 in
  decode_quad (digit x0) (digit x1) 61 61 true = Some [(w / 65536) mod 256].
Proof.
  intros w. unfold decode_quad. rewrite !digit_nonneg.
  cbn [orb negb andb Z.ltb Z.compare Z.eqb Pos.eqb Pos.compare Pos.compare_cont app].
  rewrite !(proj1 (digit_spec _)), quad_word by mlia.
  rewrite Z.mul_0_l, !Z.add_0_r. fold w. by rewrite !byte_field by lia.
Qed.

Lemma decode_encode_3 b0 b1 b2 rest :
  is_byte b0 -> is_byte b1 -> is_byte b2 ->
  decode_loop (encode_chunk [b0; b1; b2] ++ rest) =
  match decode_loop rest with Some out => Some (b0 :: b1 :: b2 :: out) | None => None end.
Proof.
  intros H0 H1 H2. unfold encode_chunk. 
  change (zlen [b0; b1; b2]) with 3. cbn [nth Z.ltb Z.compare Pos.compare Pos.compare_cont].
  rewrite chunk_word by done. cbn [app decode_loop].
  rewrite decode_quad_digits, !Z.shiftr_div_pow2 by lia. unfold is_byte in *.
  destruct (decode_loop rest); [|done]. cbn [app]. do 2 f_equal; [|f_equal]; [| |f_equal]; mlia.
Qed.

Lemma decode_encode_2 b0 b1 :
  is_byte b0 -> is_byte b1 -> decode_loop (encode_chunk [b0; b1]) = Some [b0; b1].
Proof.
  intros H0 H1. unfold encode_chunk.
  change (zlen [b0; b1]) with 2. cbn [nth Z.ltb Z.compare Pos.compare Pos.compare_cont].
  rewrite chunk_word by (done || unfold is_byte; lia). cbn [decode_loop].
  rewrite bool_decide_true by done.
  rewrite decode_quad_pad1, !Z.shiftr_div_pow2 by lia. unfold is_byte in *.
  cbn [app]. do 2 f_equal; [|f_equal]; mlia.
Qed.

Lemma decode_encode_1 b0 :
  is_byte b0 -> decode_loop (encode_chunk [b0]) = Some [b0].
Proof.
  intros H0. unfold encode_chunk.
  change (zlen [b0]) with 1. cbn [nth Z.ltb Z.compare Pos.compare Pos.compare_cont].
  rewrite chunk_word by (done || unfold is_byte; lia). cbn [decode_loop].
  rewrite bool_decide_true by done.
  rewrite decode_quad_pad2, !Z.shiftr_div_pow2 by lia. unfold is_byte in *.
  cbn [app]. do 2 f_equal; mlia.
Qed.

Lemma encode_chunk_length chunk : zlen (encode_chunk chunk) = 4.
Proof. done. Qed.

Lemma base64_length_step n : base64_length (n + 3) = base64_length n + 4.
Proof. unfold base64_length. mlia. Qed.

Lemma encode_loop_decodes input : bytes_ok input -> forall oi cap,
  oi + base64_length (zlen input) < cap ->
  exists text, encode_loop input oi cap = Some text /\
    zlen text = base64_length (zlen input) /\ decode_loop text = Some input.
Proof.
  induction input as [|b0|b0 b1|b0 b1 b2 rest IH] using list_ind3; intros Hb oi cap Hcap.
  - by exists [].
  - change (zlen [b0]) with 1 in *. change (base64_length 1) with 4 in *.
    exists (encode_chunk [b0]). cbn [encode_loop].
    destruct (Z.leb_spec cap (oi + 4)); [lia|]. rewrite app_nil_r.
    inversion Hb; subst. auto using decode_encode_1.
  - change (zlen [b0; b1]) with 2 in *. change (base64_length 2) with 4 in *.
    exists (encode_chunk [b0; b1]). cbn [encode_loop].
    destruct (Z.leb_spec cap (oi + 4)); [lia|]. rewrite app_nil_r.
    inversion Hb as [|? ? ? Hb']; subst. inversion Hb'; subst. auto using decode_encode_2.
  - unfold bytes_ok in Hb. rewrite !Forall_cons in Hb. destruct Hb as (H0 & H1 & H2 & Hr).
    assert (Hlen : zlen (b0 :: b1 :: b2 :: rest) = zlen rest + 3) by (rewrite !zlen_cons; lia).
    rewrite Hlen, base64_length_step in *.
    destruct (IH Hr (oi + 4) cap ltac:(lia)) as (text & He & Hl & Hd).
    exists (encode_chunk [b0; b1; b2] ++ text). cbn [encode_loop].
    assert (0 <= base64_length (zlen rest)) by (unfold base64_length; pose proof (zlen_nonneg rest); mlia).
    destruct (Z.leb_spec cap (oi + 4)); [lia|]. rewrite He.
    split; [done|]. rewrite zlen_app, encode_chunk_length, Hl. split; [lia|].
    by rewrite decode_encode_3, Hd.
Qed.

(** C21: encoding any byte string with the buffer size the BYTES_TO_BASE64
    instruction computes succeeds, fills exactly that size, and both decoding
    passes (the sizing pass with a NULL buffer and the pass into a buffer of
    that size) give back the original bytes. *)
Theorem base64_roundtrip bytes :
  bytes_ok bytes ->
  exists text,
    aivm_bytes_to_base64 bytes (base64_length (zlen bytes) + 1) = Some text /\
    zlen text = base64_length (zlen bytes) /\
    aivm_bytes_from_base64 text None = Some ([], zlen bytes) /\
    aivm_bytes_from_base64 text (Some (zlen bytes)) = Some (bytes, zlen bytes).
Proof.
  intros Hb. unfold aivm_bytes_to_base64, aivm_bytes_from_base64.
  destruct (encode_loop_decodes bytes Hb 0 (base64_length (zlen bytes) + 1)) as (text & He & Hl & Hd); [lia|].
  pose proof (zlen_nonneg bytes).
  destruct (Z.eqb_spec (zlen bytes) 0) as [Hz|Hz].
  - exists []. destruct bytes; [done|]. rewrite zlen_cons in Hz. pose proof (zlen_nonneg bytes). lia.
  - assert (4 <= base64_length (zlen bytes)) by (unfold base64_length; mlia).
    destruct (Z.eqb_spec (base64_length (zlen bytes) + 1) 0); [lia|].
    exists text. rewrite Hl, Hd.
    destruct (Z.eqb_spec (base64_length (zlen bytes)) 0); [lia|].
    replace (base64_length (zlen bytes) mod 4) with 0 by (unfold base64_length; mlia).
    rewrite Z.eqb_refl, Z.ltb_irrefl. unfold ztake, zlen. rewrite Nat2Z.id, firstn_all.
    done.
Qed.

Lemma base64_roundtrip_witness :
  bytes_ok [77; 97; 110; 0; 255] /\
  exists text,
    aivm_bytes_to_base64 [77; 97; 110; 0; 255] (base64_length 5 + 1) = Some text /\
    zlen text = base64_length 5 /\
    aivm_bytes_from_base64 text None = Some ([], 5) /\
    aivm_bytes_from_base64 text (Some 5) = Some ([77; 97; 110; 0; 255], 5).
Proof.
  assert (H : bytes_ok [77; 97; 110; 0; 255])
    by (repeat constructor; unfold is_byte; lia).
  split; [exact H|]. exact (base64_roundtrip [77; 97; 110; 0; 255] H).
Defined.

End Base64.

Module Utf8.

(** [(b & 0xC0) == 0x80] *)
Definition is_cont (b : Z) : bool := Z.land b 192 =? 128.

(** One iteration of the loop of [aivm_bytes_is_valid_utf8_without_nul] on the
    remaining bytes [d = data[i..len)]: how far [i] advances, [None] where the
    function returns 0.  Every read is guarded by the length tests of the
    source. *)
Definition utf8_advance (d : list Z) : option nat :=
  let len := zlen d in
  let b0 := nth 0 d 0 in
  let b1 := nth 1 d 0 in
  let b2 := nth 2 d 0 in
  let b3 := nth 3 d 0 in
  if b0 =? 0 then None
  else if b0 <=? 127 then Some 1%nat
  else if (194 <=? b0) && (b0 <=? 223) then
    if (len <=? 1) || negb (is_cont b1) then None else Some 2%nat
  else if b0 =? 224 then
    if (len <=? 2) || (b1 <? 160) || (191 <? b1) || negb (is_cont b2) then None else Some 3%nat
  else if ((225 <=? b0) && (b0 <=? 236)) || ((238 <=? b0) && (b0 <=? 239)) then
    if (len <=? 2) || negb (is_cont b1) || negb (is_cont b2) then None else Some 3%nat
  else if b0 =? 237 then
    if (len <=? 2) || (b1 <? 128) || (159 <? b1) || negb (is_cont b2) then None else Some 3%nat
  else if b0 =? 240 then
    if (len <=? 3) || (b1 <? 144) || (191 <? b1) || negb (is_cont b2) || negb (is_cont b3)
    then None else Some 4%nat
  else if (241 <=? b0) && (b0 <=? 243) then
    if (len <=? 3) || negb (is_cont b1) || negb (is_cont b2) || negb (is_cont b3)
    then None else Some 4%nat
  else if b0 =? 244 then
    if (len <=? 3) || (b1 <? 128) || (143 <? b1) || negb (is_cont b2) || negb (is_cont b3)
    then None else Some 4%nat
  else None.

(** The [while (i < len)] loop; every iteration advances by at least one byte,
    so the length of the data is enough fuel ([valid_loop_enough]). *)
Fixpoint valid_loop (fuel : nat) (d : list Z) : bool :=
  match d with
  | [] => true
  | _ :: _ =>
      match fuel with
      | O => false
      | S fuel' =>
          match utf8_advance d with
          | None => false
          | Some n => valid_loop fuel' (drop n d)
          end
      end
  end.

Definition aivm_bytes_is_valid_utf8_without_nul (data : list Z) : bool :=
  valid_loop (length data) data.

(** The bytes [push_string_from_codepoint] (aivm_vm.c) writes to its scratch
    buffer before the NUL; out-of-range and surrogate code points give the
    empty string. *)
Definition codepoint_utf8 (cp : Z) : list Z :=
  if (1114111 <? cp) || ((55296 <=? cp) && (cp <=? 57343)) then []
  else if cp <=? 127 then [u8 cp]
  else if cp <=? 2047 then
    [u8 (Z.lor 192 (Z.shiftr cp 6)); u8 (Z.lor 128 (Z.land cp 63))]
  else if cp <=? 65535 then
    [u8 (Z.lor 224 (Z.shiftr cp 12)); u8 (Z.lor 128 (Z.land (Z.shiftr cp 6) 63));
     u8 (Z.lor 128 (Z.land cp 63))]
  else
    [u8 (Z.lor 240 (Z.shiftr cp 18)); u8 (Z.lor 128 (Z.land (Z.shiftr cp 12) 63));
     u8 (Z.lor 128 (Z.land (Z.shiftr cp 6) 63)); u8 (Z.lor 128 (Z.land cp 63))].

(** [aivm_hex4_to_u32]: exactly four hexadecimal digits. *)
Definition hex_nibble (ch : Z) : option Z :=
  if (48 <=? ch) && (ch <=? 57) then Some (ch - 48)
  else if (97 <=? ch) && (ch <=? 102) then Some (10 + ch - 97)
  else if (65 <=? ch) && (ch <=? 70) then Some (10 + ch - 65)
  else None.

Fixpoint hex_loop (text : list Z) (value : Z) : option Z :=
  match text with
  | [] => Some value
  | ch :: text' =>
      match hex_nibble ch with
      | None => None
      | Some nibble => hex_loop text' (Z.lor (u32 (Z.shiftl value 4)) nibble)
      end
  end.

Definition aivm_hex4_to_u32 (text : list Z) : option Z :=
  if negb (zlen text =? 4) then None else hex_loop text 0.

(** ** The validator accepts exactly the encodings of non-NUL scalar values *)

(** Unicode scalar values (the code points other than surrogates). *)
Definition is_scalar (cp : Z) : Prop := 0 <= cp <= 1114111 /\ ~ (55296 <= cp <= 57343).

Lemma lor_top_add k n x : 0 <= n -> 0 <= x < 2 ^ n -> Z.lor (k * 2 ^ n) x = k * 2 ^ n + x.
Proof. intros. rewrite <- (lor_shiftl_add k x n) by lia. by rewrite Z.shiftl_mul_pow2. Qed.

Lemma lor_128 x : 0 <= x < 128 -> Z.lor 128 x = 128 + x.
Proof. intros. by apply (lor_top_add 1 7). Qed.
Lemma lor_192 x : 0 <= x < 64 -> Z.lor 192 x = 192 + x.
Proof. intros. by apply (lor_top_add 3 6). Qed.
Lemma lor_224 x : 0 <= x < 32 -> Z.lor 224 x = 224 + x.
Proof. intros. by apply (lor_top_add 7 5). Qed.
Lemma lor_240 x : 0 <= x < 16 -> Z.lor 240 x = 240 + x.
Proof. intros. by apply (lor_top_add 15 4). Qed.

Lemma land63' i : Z.land i 63 = i mod 64.
Proof. apply (land_ones_mod i 6). lia. Qed.

Lemma is_cont_range b : is_byte b -> is_cont b = (128 <=? b) && (b <? 192).
Proof.
  intros Hb. apply eqb_prop.
  apply (byte_exhaustive (fun b => eqb (is_cont b) ((128 <=? b) && (b <? 192)))); [|done].
  vm_compute. reflexivity.
Qed.

Lemma codepoint_utf8_arith cp :
  is_scalar cp ->
  codepoint_utf8 cp =
  if cp <=? 127 then [cp]
  else if cp <=? 2047 then [192 + cp / 64; 128 + cp mod 64]
  else if cp <=? 65535 then [224 + cp / 4096; 128 + (cp / 64) mod 64; 128 + cp mod 64]
  else [240 + cp / 262144; 128 + (cp / 4096) mod 64; 128 + (cp / 64) mod 64; 128 + cp mod 64].
Proof.
  intros [Hr Hs]. unfold codepoint_utf8.
  destruct (Z.ltb_spec 1114111 cp); [lia|]. cbn [orb].
  replace ((55296 <=? cp) && (cp <=? 57343)) with false by lia.
  rewrite !land63', !Z.shiftr_div_pow2 by lia. unfold u8.
  bdestruct_all.
  all: rewrite ?lor_240, ?lor_224, ?lor_192 by mlia.
  all: repeat rewrite lor_128 by mlia.
  all: by repeat rewrite (Z.mod_small _ (2 ^ 8)) by mlia.
Qed.

Lemma encode_bytes cp : is_scalar cp -> bytes_ok (codepoint_utf8 cp).
Proof.
  intros H. rewrite codepoint_utf8_arith by done. destruct H as [H _].
  bdestruct_all; repeat constructor; unfold is_byte; mlia.
Qed.


(** Resolve the tests of the validator one by one, dropping impossible branches. *)
Ltac case_ifs :=
  repeat match goal with
  | |- context [if ?c then _ else _] =>
      let E := fresh "E" in destruct c eqn:E; try (exfalso; lia)
  end.

Lemma utf8_advance_1 b0 rest : 0 < b0 <= 127 -> utf8_advance (b0 :: rest) = Some 1%nat.
Proof. intros. unfold utf8_advance. cbn [nth]. case_ifs; done. Qed.

Lemma utf8_advance_2 b0 b1 rest :
  194 <= b0 <= 223 -> 128 <= b1 < 192 -> utf8_advance (b0 :: b1 :: rest) = Some 2%nat.
Proof.
  intros. unfold utf8_advance. cbn [nth]. pose proof (zlen_nonneg rest).
  rewrite !zlen_cons, !is_cont_range by (unfold is_byte; lia). case_ifs; done.
Qed.

Lemma utf8_advance_3 b0 b1 b2 rest :
  224 <= b0 <= 239 -> 128 <= b1 < 192 -> 128 <= b2 < 192 ->
  (b0 = 224 -> 160 <= b1) -> (b0 = 237 -> b1 <= 159) ->
  utf8_advance (b0 :: b1 :: b2 :: rest) = Some 3%nat.
Proof.
  intros. unfold utf8_advance. cbn [nth]. pose proof (zlen_nonneg rest).
  rewrite !zlen_cons, !(is_cont_range b1), !(is_cont_range b2) by (unfold is_byte; lia).
  case_ifs; done.
Qed.

Lemma utf8_advance_4 b0 b1 b2 b3 rest :
  240 <= b0 <= 244 -> 128 <= b1 < 192 -> 128 <= b2 < 192 -> 128 <= b3 < 192 ->
  (b0 = 240 -> 144 <= b1) -> (b0 = 244 -> b1 <= 143) ->
  utf8_advance (b0 :: b1 :: b2 :: b3 :: rest) = Some 4%nat.
Proof.
  intros. unfold utf8_advance. cbn [nth]. pose proof (zlen_nonneg rest).
  rewrite !zlen_cons, !(is_cont_range b1), !(is_cont_range b2), !(is_cont_range b3)
    by (unfold is_byte; lia).
  case_ifs; done.
Qed.

Lemma advance_encode cp rest :
  is_scalar cp -> cp <> 0 ->
  utf8_advance (codepoint_utf8 cp ++ rest) = Some (length (codepoint_utf8 cp)).
Proof.
  intros Hs Hz. rewrite codepoint_utf8_arith by done. destruct Hs as [Hr Hsur].
  bdestruct_all; cbn [app length].
  - apply utf8_advance_1. lia.
  - apply utf8_advance_2; mlia.
  - apply utf8_advance_3; mlia.
  - apply utf8_advance_4; mlia.
Qed.


Lemma nth_is_byte d k : bytes_ok d -> is_byte (nth k d 0).
Proof.
  intros Hb. destruct (nth_in_or_default k d 0) as [Hin| ->]; [|unfold is_byte; lia].
  by eapply (proj1 (Forall_forall _ _) Hb), list_elem_of_In.
Qed.

(** The four shapes of an accepted sequence. *)
Lemma utf8_advance_inv d n :
  bytes_ok d -> utf8_advance d = Some n ->
  let b0 := nth 0 d 0 in let b1 := nth 1 d 0 in let b2 := nth 2 d 0 in let b3 := nth 3 d 0 in
  (n = 1%nat /\ 0 < b0 <= 127) \/
  (n = 2%nat /\ 2 <= zlen d /\ 194 <= b0 <= 223 /\ 128 <= b1 < 192) \/
  (n = 3%nat /\ 3 <= zlen d /\ 224 <= b0 <= 239 /\ 128 <= b1 < 192 /\ 128 <= b2 < 192 /\
     (b0 = 224 -> 160 <= b1) /\ (b0 = 237 -> b1 <= 159)) \/
  (n = 4%nat /\ 4 <= zlen d /\ 240 <= b0 <= 244 /\ 128 <= b1 < 192 /\ 128 <= b2 < 192 /\
     128 <= b3 < 192 /\ (b0 = 240 -> 144 <= b1) /\ (b0 = 244 -> b1 <= 143)).
Proof.
  intros Hb. pose proof (nth_is_byte d 0 Hb) as H0. pose proof (nth_is_byte d 1 Hb) as H1.
  pose proof (nth_is_byte d 2 Hb) as H2. pose proof (nth_is_byte d 3 Hb) as H3.
  unfold utf8_advance. rewrite !is_cont_range by done. unfold is_byte in *.
  generalize dependent (nth 0 d 0). generalize dependent (nth 1 d 0).
  generalize dependent (nth 2 d 0). generalize dependent (nth 3 d 0). intros b3 ? b2 ? b1 ? b0 ?.
  case_ifs; intros [= <-]; lia.
Qed.

Lemma codepoint_utf8_2 b0 b1 :
  194 <= b0 <= 223 -> 128 <= b1 < 192 ->
  let cp := (b0 - 192) * 64 + (b1 - 128) in
  is_scalar cp /\ cp <> 0 /\ codepoint_utf8 cp = [b0; b1].
Proof.
  intros ? ? cp. assert (128 <= cp <= 2047) by lia. assert (Hs : is_scalar cp) by (unfold is_scalar; lia).
  split; [done|]. split; [lia|]. rewrite codepoint_utf8_arith by done. subst cp.
  bdestruct_all; try lia. f_equal; [|f_equal]; mlia.
Qed.

Lemma codepoint_utf8_3 b0 b1 b2 :
  224 <= b0 <= 239 -> 128 <= b1 < 192 -> 128 <= b2 < 192 ->
  (b0 = 224 -> 160 <= b1) -> (b0 = 237 -> b1 <= 159) ->
  let cp := (b0 - 224) * 4096 + (b1 - 128) * 64 + (b2 - 128) in
  is_scalar cp /\ cp <> 0 /\ codepoint_utf8 cp = [b0; b1; b2].
Proof.
  intros ? ? ? ? ? cp. assert (2048 <= cp <= 65535) by lia.
  assert (Hs : is_scalar cp) by (unfold is_scalar; lia).
  split; [done|]. split; [lia|]. rewrite codepoint_utf8_arith by done. subst cp.
  bdestruct_all; try lia. f_equal; [|f_equal]; [| |f_equal]; mlia.
Qed.

Lemma codepoint_utf8_4 b0 b1 b2 b3 :
  240 <= b0 <= 244 -> 128 <= b1 < 192 -> 128 <= b2 < 192 -> 128 <= b3 < 192 ->
  (b0 = 240 -> 144 <= b1) -> (b0 = 244 -> b1 <= 143) ->
  let cp := (b0 - 240) * 262144 + (b1 - 128) * 4096 + (b2 - 128) * 64 + (b3 - 128) in
  is_scalar cp /\ cp <> 0 /\ codepoint_utf8 cp = [b0; b1; b2; b3].
Proof.
  intros ? ? ? ? ? ? cp. assert (65536 <= cp <= 1114111) by lia.
  assert (Hs : is_scalar cp) by (unfold is_scalar; lia).
  split; [done|]. split; [lia|]. rewrite codepoint_utf8_arith by done. subst cp.
  bdestruct_all; try lia. f_equal; [|f_equal]; [| |f_equal]; [| | |f_equal]; mlia.
Qed.

(** The validator's accepted prefixes, read back as a code point. *)
Lemma advance_decode d n :
  bytes_ok d -> d <> [] -> utf8_advance d = Some n ->
  exists cp, is_scalar cp /\ cp <> 0 /\ d = codepoint_utf8 cp ++ drop n d.
Proof.
  intros Hb Hne Ha. apply utf8_advance_inv in Ha; [|done]. revert Ha. clear Hb. cbn zeta.
  destruct d as [|b0 d]; [done|]. cbn [nth].
  intros [[-> H]|[(-> & Hl & H0 & H1)|[(-> & Hl & H0 & H1 & H2 & H3 & H4)|(-> & Hl & H0 & H1 & H2 & H3 & H4 & H5)]]].
  - assert (Hs : is_scalar b0) by (unfold is_scalar; lia).
    exists b0. split; [done|]. split; [lia|].
    rewrite codepoint_utf8_arith by done. bdestruct_all; [done|lia|lia|lia].
  - destruct d as [|b1 d]; [rewrite zlen_cons, zlen_nil in Hl; lia|]. cbn [nth] in *.
    destruct (codepoint_utf8_2 b0 b1) as (? & ? & Heq); [done..|].
    eexists. split; [done|]. split; [done|]. by rewrite Heq.
  - destruct d as [|b1 [|b2 d]]; [rewrite !zlen_cons, zlen_nil in Hl; lia..|]. cbn [nth] in *.
    destruct (codepoint_utf8_3 b0 b1 b2) as (? & ? & Heq); [done..|].
    eexists. split; [done|]. split; [done|]. by rewrite Heq.
  - destruct d as [|b1 [|b2 [|b3 d]]]; [rewrite !zlen_cons, zlen_nil in Hl; lia..|]. cbn [nth] in *.
    destruct (codepoint_utf8_4 b0 b1 b2 b3) as (? & ? & Heq); [done..|].
    eexists. split; [done|]. split; [done|]. by rewrite Heq.
Qed.

Lemma codepoint_utf8_length cp : is_scalar cp -> (1 <= length (codepoint_utf8 cp) <= 4)%nat.
Proof. intros H. rewrite codepoint_utf8_arith by done. bdestruct_all; cbn; lia. Qed.

(** The bytes of a list of scalar values. *)
Definition encode_all (cps : list Z) : list Z := flat_map codepoint_utf8 cps.

Definition text_scalar (cp : Z) : Prop := is_scalar cp /\ cp <> 0.

Lemma valid_loop_encode fuel : forall cps,
  Forall text_scalar cps -> (length (encode_all cps) <= fuel)%nat ->
  valid_loop fuel (encode_all cps) = true.
Proof.
  induction fuel as [|fuel IH]; intros cps Hc Hf.
  - by destruct (encode_all cps); [|cbn in Hf; lia].
  - destruct Hc as [|cp cps [Hs Hz] Hc]; [done|]. unfold encode_all in *. cbn [flat_map] in *.
    pose proof (codepoint_utf8_length cp Hs). rewrite length_app in Hf.
    cbn [valid_loop]. destruct (codepoint_utf8 cp ++ _) eqn:E; [done|]. rewrite <- E.
    rewrite advance_encode by done. rewrite drop_app_length. apply IH; [done|lia].
Qed.

Lemma valid_loop_decode fuel : forall d,
  bytes_ok d -> valid_loop fuel d = true ->
  exists cps, Forall text_scalar cps /\ d = encode_all cps.
Proof.
  induction fuel as [|fuel IH]; intros d Hb Hv.
  - destruct d; [by exists []|done].
  - destruct d as [|b d]; [by exists []|]. cbn [valid_loop] in Hv.
    destruct (utf8_advance (b :: d)) as [n|] eqn:Ha; [|done].
    destruct (advance_decode _ _ Hb ltac:(done) Ha) as (cp & Hs & Hz & Heq).
    destruct (IH (drop n (b :: d))) as (cps & Hc & Hd); [by apply Forall_drop|done|].
    exists (cp :: cps). split; [by constructor|]. rewrite Heq, Hd at 1. done.
Qed.

(** C22: a buffer passes [aivm_bytes_is_valid_utf8_without_nul] exactly when
    it is the concatenation of the UTF-8 encodings that
    [push_string_from_codepoint] produces for non-NUL Unicode scalar values:
    no overlong form, surrogate, truncated sequence or value above U+10FFFF is
    accepted, and every encodable text is. *)
Theorem utf8_valid_iff data :
  bytes_ok data ->
  (aivm_bytes_is_valid_utf8_without_nul data = true <->
   exists cps, Forall text_scalar cps /\ data = encode_all cps).
Proof.
  intros Hb. split.
  - by apply valid_loop_decode.
  - intros (cps & Hc & ->). by apply valid_loop_encode.
Qed.

Lemma utf8_valid_iff_witness :
  bytes_ok [97; 195; 169; 226; 130; 172] /\
  (aivm_bytes_is_valid_utf8_without_nul [97; 195; 169; 226; 130; 172] = true <->
   exists cps, Forall text_scalar cps /\ [97; 195; 169; 226; 130; 172] = encode_all cps).
Proof.
  assert (H : bytes_ok [97; 195; 169; 226; 130; 172])
    by (repeat constructor; unfold is_byte; lia).
  split; [exact H|]. exact (utf8_valid_iff _ H).
Defined.

End Utf8.
