(* ===== verification/Runes.v ===== *)
(** * Rune-indexed string operations (src/src/aivm_vm.c)

    The UTF-8 walk behind STR_SUBSTRING, STR_REMOVE, STR_FIND,
    STR_SCALAR_LENGTH and STR_ESCAPE, on the content of a C string (the bytes
    before the NUL).  Indices and counters are [Z]; the loops carry the length
    of the text as fuel, which is enough because every iteration moves at least
    one byte forward. *)

From S2P Require Import Prelude Text.
Import Utf8.

(** [text[i]] of a NUL-terminated string; the NUL itself is readable. *)
Definition text_at (text : list Z) (i : Z) : Z := nth (Z.to_nat i) text 0.

Definition utf8_next_index (text : list Z) (index : Z) : Z :=
  let ch := text_at text index in
  if ch =? 0 then index
  else if Z.land ch 128 =? 0 then index + 1
  else if (Z.land ch 224 =? 192) && is_cont (text_at text (index + 1)) then index + 2
  else if (Z.land ch 240 =? 224) && is_cont (text_at text (index + 1))
          && is_cont (text_at text (index + 2)) then index + 3
  else if (Z.land ch 248 =? 240) && is_cont (text_at text (index + 1))
          && is_cont (text_at text (index + 2)) && is_cont (text_at text (index + 3))
       then index + 4
  else index + 1.

(** The loop of [utf8_rune_count]. *)
Fixpoint rune_count_loop (fuel : nat) (text : list Z) (byte_index count : Z) : Z :=
  match fuel with
  | O => count
  | S fuel' =>
      if text_at text byte_index =? 0 then count
      else rune_count_loop fuel' text (utf8_next_index text byte_index) (count + 1)
  end.

Definition utf8_rune_count (text : list Z) : Z := rune_count_loop (length text) text 0 0.

(** The loop shared by [utf8_byte_offset_for_rune] and the end search of
    [push_substring_by_runes]: advance until NUL or until [limit] runes are
    counted. *)
Fixpoint offset_loop (fuel : nat) (text : list Z) (byte_index current limit : Z) : Z * Z :=
  match fuel with
  | O => (byte_index, current)
  | S fuel' =>
      if negb (text_at text byte_index =? 0) && (current <? limit)
      then offset_loop fuel' text (utf8_next_index text byte_index) (current + 1) limit
      else (byte_index, current)
  end.

(** [utf8_byte_offset_for_rune]: [cache] is the (rune, byte) pair of the VM's
    traversal cache when its text pointer is this text, [None] otherwise.  The
    result is the byte offset and the pair stored back into the cache. *)
Definition utf8_byte_offset_for_rune (cache : option (Z * Z)) (text : list Z) (rune_index : Z)
    : Z * (Z * Z) :=
  let start :=
    match cache with
    | Some (rune, byte) => if rune <=? rune_index then (byte, rune) else (0, 0)
    | None => (0, 0)
    end in
  let '(byte_index, current) := offset_loop (length text) text start.1 start.2 rune_index in
  (byte_index, (current, byte_index)).

Definition clamp_rune_index (value max_value : Z) : Z :=
  if value <=? 0 then 0 else if max_value <=? value then max_value else value.


(** [push_remove_by_runes]: prefix and suffix handed to
    [aivm_vm_copy_string_splice_to_arena].  [start + length] is signed 64-bit
    arithmetic: [None] marks the inputs for which it overflows (undefined
    behaviour in C). *)
Definition remove_by_runes (cache : option (Z * Z)) (text : list Z) (start length_ : Z)
    : option (list Z * option (Z * Z)) :=
  if length_ <=? 0 then Some (text, cache)
  else
    let rune_count := utf8_rune_count text in
    let start_rune := clamp_rune_index start rune_count in
    if negb (int64_ok (start + length_)) then None
    else
      let end_rune0 := clamp_rune_index (start + length_) rune_count in
      let end_rune := if end_rune0 <? start_rune then start_rune else end_rune0 in
      let '(start_byte, cache1) := utf8_byte_offset_for_rune cache text start_rune in
      let '(end_byte, cache2) := utf8_byte_offset_for_rune (Some cache1) text end_rune in
      Some (ztake start_byte text ++ zdrop end_byte text, Some cache2).

(** The candidate loop of [push_find_by_runes]; the cache always holds the last
    candidate, so every step continues the previous walk. *)
Fixpoint find_loop (fuel : nat) (text pattern : list Z) (cache : Z * Z)
    (candidate_rune candidate_byte last_rune : Z) : Z * (Z * Z) :=
  match fuel with
  | O => (-1, cache)
  | S fuel' =>
      if zlen text <? candidate_byte + zlen pattern then (-1, cache)
      else if bool_decide (take (length pattern) (zdrop candidate_byte text) = pattern)
      then (candidate_rune, cache)
      else if last_rune <=? candidate_rune then (-1, cache)
      else
        let '(candidate_byte', cache') :=
          utf8_byte_offset_for_rune (Some cache) text (candidate_rune + 1) in
        find_loop fuel' text pattern cache' (candidate_rune + 1) candidate_byte' last_rune
  end.

(** [push_find_by_runes]: the rune index pushed. *)
Definition find_by_runes (cache : option (Z * Z)) (text pattern : list Z) (start : Z)
    : Z * option (Z * Z) :=
  let text_runes := utf8_rune_count text in
  let pattern_runes := utf8_rune_count pattern in
  let start_rune := clamp_rune_index start text_runes in
  if pattern_runes =? 0 then (start_rune, cache)
  else if (text_runes <? pattern_runes) || (text_runes - pattern_runes <? start_rune)
  then (-1, cache)
  else
    let '(candidate_byte, cache') := utf8_byte_offset_for_rune cache text start_rune in
    let '(r, cache'') :=
      find_loop (S (length text)) text pattern cache' start_rune candidate_byte
        (text_runes - pattern_runes) in
    (r, Some cache'').

(** The loop of STR_SCALAR_LENGTH: bytes that are not continuation bytes. *)
Fixpoint scalar_length (text : list Z) : Z :=
  match text with
  | [] => 0
  | ch :: text' =>
      if negb (is_cont ch) then scalar_length text' + 1 else scalar_length text'
  end.

(** [push_escaped_string]: the characters written for one input character. *)
Definition escape_char (ch : Z) : list Z :=
  if ch =? 92 then [92; 92]
  else if ch =? 34 then [92; 34]
  else if ch =? 10 then [92; 110]
  else if ch =? 13 then [92; 114]
  else if ch =? 9 then [92; 116]
  else [ch].

Definition escape_text (text : list Z) : list Z := flat_map escape_char text.

(** The size reserved in the string arena before the copy (first loop of
    [push_escaped_string], without the NUL). *)
Definition escaped_length (text : list Z) : Z :=
  fold_right (fun ch n =>
    (if (ch =? 92) || (ch =? 34) || (ch =? 10) || (ch =? 13) || (ch =? 9) then 2 else 1) + n)
    0 text.

(** ** Specifications *)

(** A traversal-cache entry that is consistent with the text. *)
Definition cache_ok (cps : list Z) (cache : Z * Z) : Prop :=
  0 <= cache.1 <= zlen cps /\ cache.2 = zlen (encode_all (ztake cache.1 cps)).

Definition opt_cache_ok (cps : list Z) (cache : option (Z * Z)) : Prop :=
  match cache with Some c => cache_ok cps c | None => True end.

(** The scalars of a pattern occur in the text at rune index [j]. *)
Definition occurs_at (pats cps : list Z) (j : Z) : Prop := pats `prefix_of` zdrop j cps.

(** What [push_find_by_runes] promises about its result. *)
Definition find_result (pats cps : list Z) (from r : Z) : Prop :=
  (r = -1 /\ forall j, from <= j -> ~ occurs_at pats cps j) \/
  (from <= r <= zlen cps /\ occurs_at pats cps r /\ forall j, from <= j < r -> ~ occurs_at pats cps j).

(** ** Proofs *)

Ltac solve_scalars := repeat constructor; unfold is_scalar; lia.

Lemma zlen_encode_all_app l k : encode_all (l ++ k) = encode_all l ++ encode_all k.
Proof. unfold encode_all. apply flat_map_app. Qed.

Lemma ztake_0 {A} (l : list A) : ztake 0 l = [].
Proof. done. Qed.

Lemma text_at_app pre d i :
  0 <= i -> text_at (pre ++ d) (zlen pre + i) = nth (Z.to_nat i) d 0.
Proof.
  intros. unfold text_at, zlen. rewrite app_nth2 by lia. f_equal. lia.
Qed.

Lemma text_at_mid pre d : text_at (pre ++ d) (zlen pre) = nth 0 d 0.
Proof. rewrite <- (Z.add_0_r (zlen pre)) at 1. by rewrite text_at_app. Qed.

Lemma text_at_end text : text_at text (zlen text) = 0.
Proof. unfold text_at, zlen. rewrite Nat2Z.id. by apply nth_overflow. Qed.

(** The lead-byte masks of [utf8_next_index] as ranges. *)
Lemma lead_masks b : is_byte b ->
  (Z.land b 128 =? 0) = (b <? 128) /\
  (Z.land b 224 =? 192) = (192 <=? b) && (b <? 224) /\
  (Z.land b 240 =? 224) = (224 <=? b) && (b <? 240) /\
  (Z.land b 248 =? 240) = (240 <=? b) && (b <? 248).
Proof.
  intros Hb.
  assert (H : (eqb (Z.land b 128 =? 0) (b <? 128) &&
    eqb (Z.land b 224 =? 192) ((192 <=? b) && (b <? 224)) &&
    eqb (Z.land b 240 =? 224) ((224 <=? b) && (b <? 240)) &&
    eqb (Z.land b 248 =? 240) ((240 <=? b) && (b <? 248))) = true).
  { revert b Hb. apply byte_exhaustive. vm_compute. reflexivity. }
  rewrite !andb_true_iff, !eqb_true_iff in H. tauto.
Qed.

Lemma cont_mod x : is_cont (128 + x mod 64) = true.
Proof. rewrite is_cont_range by (unfold is_byte; mlia). mlia. Qed.

(** At the start of an encoded scalar, [utf8_next_index] moves past it. *)
Lemma next_index_encoded pre cp post :
  text_scalar cp ->
  utf8_next_index (pre ++ codepoint_utf8 cp ++ post) (zlen pre)
  = zlen pre + zlen (codepoint_utf8 cp).
Proof.
  intros [Hs Hz]. unfold utf8_next_index. rewrite (text_at_app pre _ 1), (text_at_app pre _ 2), (text_at_app pre _ 3), text_at_mid by lia.
  rewrite codepoint_utf8_arith by done. destruct Hs as [Hr Hsur].
  change (Z.to_nat 1) with 1%nat. change (Z.to_nat 2) with 2%nat. change (Z.to_nat 3) with 3%nat.
  destruct (Z.leb_spec cp 127); [|destruct (Z.leb_spec cp 2047); [|destruct (Z.leb_spec cp 65535)]];
    cbn [app nth]; autorewrite with aivm.
  - destruct (lead_masks cp) as (-> & _); [unfold is_byte; lia|]. case_ifs; lia.
  - destruct (lead_masks (192 + cp / 64)) as (-> & -> & _); [unfold is_byte; mlia|].
    rewrite (cont_mod cp). case_ifs; mlia.
  - destruct (lead_masks (224 + cp / 4096)) as (-> & -> & -> & _); [unfold is_byte; mlia|].
    rewrite (cont_mod cp), (cont_mod (cp / 64)). case_ifs; mlia.
  - destruct (lead_masks (240 + cp / 262144)) as (-> & -> & -> & ->); [unfold is_byte; mlia|].
    rewrite (cont_mod cp), (cont_mod (cp / 64)), (cont_mod (cp / 4096)). case_ifs; mlia.
Qed.

Lemma encoded_head_nonzero cp rest :
  text_scalar cp -> nth 0 (codepoint_utf8 cp ++ rest) 0 <> 0.
Proof.
  intros [Hs Hz]. rewrite codepoint_utf8_arith by done. destruct Hs.
  bdestruct_all; cbn [app nth]; mlia.
Qed.

Lemma encode_all_cons cp cps : encode_all (cp :: cps) = codepoint_utf8 cp ++ encode_all cps.
Proof. done. Qed.

(** The walk from a rune boundary, stated once for all loops: after [m] steps
    the byte index stands before the [m]-th following scalar. *)
Lemma offset_loop_spec : forall cps pre fuel current limit,
  Forall text_scalar cps -> (length cps <= fuel)%nat ->
  offset_loop fuel (pre ++ encode_all cps) (zlen pre) current limit
  = let m := Z.max 0 (Z.min (limit - current) (zlen cps)) in
    (zlen pre + zlen (encode_all (ztake m cps)), current + m).
Proof.
  induction cps as [|cp cps IH]; intros pre fuel current limit Hc Hf.
  - cbn [encode_all flat_map]. rewrite app_nil_r. unfold ztake. rewrite take_nil.
    replace (Z.max 0 (Z.min (limit - current) (zlen []))) with 0 by (change (zlen (@nil Z)) with 0; lia).
    destruct fuel; cbn [offset_loop]; rewrite ?text_at_end; cbn [negb andb Z.eqb];
      cbn [encode_all flat_map]; rewrite zlen_nil; f_equal; lia.
  - destruct fuel as [|fuel]; [cbn in Hf; lia|]. inversion Hc as [|? ? Hs Hc']; subst.
    cbn [offset_loop]. rewrite encode_all_cons, text_at_mid.
    destruct (Z.eqb_spec (nth 0 (codepoint_utf8 cp ++ encode_all cps) 0) 0) as [E|_];
      [by apply encoded_head_nonzero in E|]. cbn [negb andb].
    pose proof (zlen_nonneg cps).
    destruct (Z.ltb_spec current limit) as [Hlt|Hge].
    + rewrite next_index_encoded by done. rewrite app_assoc, <- zlen_app.
      rewrite IH by (done || cbn in Hf; lia). cbn zeta. rewrite zlen_cons.
      replace (Z.max 0 (Z.min (limit - current) (zlen cps + 1)))
        with (Z.max 0 (Z.min (limit - (current + 1)) (zlen cps)) + 1) by lia.
      set (m := Z.max 0 (Z.min (limit - (current + 1)) (zlen cps))).
      assert (0 <= m) by lia. unfold ztake.
      replace (Z.to_nat (m + 1)) with (S (Z.to_nat m)) by lia. cbn [take].
      rewrite encode_all_cons, !zlen_app. f_equal; lia.
    + replace (Z.max 0 (Z.min (limit - current) (zlen (cp :: cps)))) with 0 by lia.
      cbn zeta. rewrite ztake_0. change (zlen (encode_all [])) with 0. f_equal; lia.
Qed.

Lemma rune_count_loop_spec : forall cps pre fuel count,
  Forall text_scalar cps -> (length cps <= fuel)%nat ->
  rune_count_loop fuel (pre ++ encode_all cps) (zlen pre) count = count + zlen cps.
Proof.
  induction cps as [|cp cps IH]; intros pre fuel count Hc Hf.
  - cbn [encode_all flat_map]. rewrite app_nil_r, zlen_nil.
    destruct fuel; cbn [rune_count_loop]; rewrite ?text_at_end; cbn [Z.eqb]; lia.
  - destruct fuel as [|fuel]; [cbn in Hf; lia|]. inversion Hc as [|? ? Hs Hc']; subst.
    cbn [rune_count_loop]. rewrite encode_all_cons, text_at_mid.
    destruct (Z.eqb_spec (nth 0 (codepoint_utf8 cp ++ encode_all cps) 0) 0) as [E|_];
      [by apply encoded_head_nonzero in E|].
    rewrite next_index_encoded by done. rewrite app_assoc, <- zlen_app.
    rewrite IH by (done || cbn in Hf; lia). rewrite zlen_cons. lia.
Qed.

Lemma encode_all_length cps : Forall text_scalar cps -> (length cps <= length (encode_all cps))%nat.
Proof.
  induction 1 as [|cp cps [Hs _] _ IH]; [done|]. rewrite encode_all_cons, length_app. cbn [length].
  pose proof (codepoint_utf8_length cp Hs). lia.
Qed.

Lemma rune_count_encoded cps :
  Forall text_scalar cps -> utf8_rune_count (encode_all cps) = zlen cps.
Proof.
  intros Hc. unfold utf8_rune_count.
  apply (rune_count_loop_spec cps [] (length (encode_all cps)) 0 Hc).
  by apply encode_all_length.
Qed.

Lemma encode_split n cps : encode_all cps = encode_all (ztake n cps) ++ encode_all (zdrop n cps).
Proof. rewrite <- zlen_encode_all_app. unfold ztake, zdrop. by rewrite take_drop. Qed.

Lemma ztake_ztake_drop {A} n m (l : list A) :
  0 <= n -> 0 <= m -> ztake n l ++ ztake m (zdrop n l) = ztake (n + m) l.
Proof.
  intros. unfold ztake, zdrop. rewrite Z2Nat.inj_add by lia. by rewrite take_take_drop.
Qed.

(** The byte offset of a rune: the cached walk agrees with the plain one. *)
Lemma byte_offset_encoded cps cache rune :
  Forall text_scalar cps -> 0 <= rune -> opt_cache_ok cps cache ->
  let r := Z.min rune (zlen cps) in
  utf8_byte_offset_for_rune cache (encode_all cps) rune
  = (zlen (encode_all (ztake r cps)), (r, zlen (encode_all (ztake r cps)))).
Proof.
  intros Hc Hr Hok r. pose proof (zlen_nonneg cps).
  assert (Hplain : forall n0, 0 <= n0 <= rune -> n0 <= zlen cps ->
    offset_loop (length (encode_all cps)) (encode_all cps)
      (zlen (encode_all (ztake n0 cps))) n0 rune = (zlen (encode_all (ztake r cps)), r)).
  { intros n0 H0 H1. rewrite (encode_split n0 cps) at 2.
    rewrite offset_loop_spec.
    - rewrite zlen_zdrop by lia.
      set (m := Z.max 0 (Z.min (rune - n0) (zlen cps - n0))). assert (n0 + m = r) as <- by lia.
      cbn zeta. rewrite <- zlen_app, <- zlen_encode_all_app, ztake_ztake_drop by lia. done.
    - by apply Forall_drop.
    - pose proof (encode_all_length cps Hc). unfold zdrop. rewrite length_drop. lia. }
  unfold utf8_byte_offset_for_rune. destruct cache as [[c b]|]; cbn [opt_cache_ok] in *.
  - destruct Hok as [Hb Hbyte]. cbn [fst snd] in *. subst b. destruct (Z.leb_spec c rune); cbn [fst snd].
    + by rewrite Hplain by lia.
    + pose proof (Hplain 0) as Hz. rewrite ztake_0 in Hz. change (zlen (encode_all [])) with 0 in Hz. by rewrite Hz by lia.
  - pose proof (Hplain 0) as Hz. rewrite ztake_0 in Hz. change (zlen (encode_all [])) with 0 in Hz. cbn [fst snd]. by rewrite Hz by lia.
Qed.

Lemma byte_offset_text cps cache rune :
  Forall text_scalar cps -> 0 <= rune -> opt_cache_ok cps cache ->
  exists cache', utf8_byte_offset_for_rune cache (encode_all cps) rune
    = (zlen (encode_all (ztake rune cps)), cache') /\ opt_cache_ok cps (Some cache').
Proof.
  intros Hc Hr Hok. rewrite byte_offset_encoded by done.
  pose proof (zlen_nonneg cps).
  assert (Heq : ztake (Z.min rune (zlen cps)) cps = ztake rune cps).
  { destruct (Z.le_ge_cases rune (zlen cps)); [by rewrite Z.min_l|]. rewrite Z.min_r by done.
    unfold ztake, zlen in *. rewrite !take_ge by lia. done. }
  eexists. split; [by rewrite Heq|]. split; cbn [fst snd]; [lia|]. by rewrite Heq.
Qed.

Lemma ztake_encode n cps :
  ztake (zlen (encode_all (ztake n cps))) (encode_all cps) = encode_all (ztake n cps).
Proof.
  rewrite (encode_split n cps) at 1. unfold ztake at 1, zlen. rewrite Nat2Z.id.
  apply take_app_length.
Qed.

Lemma zdrop_encode n cps :
  zdrop (zlen (encode_all (ztake n cps))) (encode_all cps) = encode_all (zdrop n cps).
Proof.
  rewrite (encode_split n cps) at 1. unfold zdrop at 1, zlen. rewrite Nat2Z.id.
  apply drop_app_length.
Qed.



Lemma clamp_spec v n : 0 <= n -> clamp_rune_index v n = Z.min n (Z.max 0 v).
Proof. intros. unfold clamp_rune_index. bdestruct_all; lia. Qed.

Lemma ztake_min {A} n (l : list A) : ztake (Z.min (zlen l) n) l = ztake n l.
Proof.
  pose proof (zlen_nonneg l). destruct (Z.le_ge_cases n (zlen l)); [by rewrite Z.min_r|].
  rewrite Z.min_l by done. unfold ztake, zlen in *. rewrite !take_ge by lia. done.
Qed.

Lemma zdrop_min {A} n (l : list A) : zdrop (Z.min (zlen l) n) l = zdrop n l.
Proof.
  pose proof (zlen_nonneg l). destruct (Z.le_ge_cases n (zlen l)); [by rewrite Z.min_r|].
  rewrite Z.min_l by done. unfold zdrop, zlen in *. rewrite !drop_ge by lia. done.
Qed.

(** On any well-formed text, STR_REMOVE deletes exactly the scalars
    [start, start + length), clipped to the text, from any consistent traversal
    cache; the only inputs on which the C code is undefined are those whose
    [start + length] leaves the 64-bit range. *)
Theorem remove_by_runes_spec cps cache start len :
  Forall text_scalar cps -> opt_cache_ok cps cache ->
  (remove_by_runes cache (encode_all cps) start len = None <->
     0 < len /\ ~ is_int64 (start + len)) /\
  forall out cache', remove_by_runes cache (encode_all cps) start len = Some (out, cache') ->
    opt_cache_ok cps cache' /\
    out = if len <=? 0 then encode_all cps
          else encode_all (ztake (Z.max 0 start) cps ++ zdrop (Z.max 0 (start + len)) cps).
Proof.
  intros Hc Hok. unfold remove_by_runes.
  destruct (Z.leb_spec len 0) as [Hl|Hl].
  { split; [split; [done|lia]|]. by intros ? ? [= <- <-]. }
  rewrite rune_count_encoded by done. pose proof (zlen_nonneg cps).
  rewrite !clamp_spec by done. unfold is_int64, int64_ok.
  destruct ((INT64_MIN <=? start + len) && (start + len <=? INT64_MAX)) eqn:E; cbn [negb].
  2: { split; [split; [lia|done]|done]. }
  set (s := Z.min (zlen cps) (Z.max 0 start)). set (e := Z.min (zlen cps) (Z.max 0 (start + len))).
  destruct (Z.ltb_spec e s); [lia|].
  destruct (byte_offset_text cps cache s Hc) as (c & -> & Hc'); [lia|done|].
  destruct (byte_offset_text cps (Some c) e Hc) as (c2 & -> & Hc2); [lia|done|].
  split; [split; [done|lia]|]. intros ? ? [= <- <-]. split; [done|].
  rewrite ztake_encode, zdrop_encode, <- zlen_encode_all_app. unfold s, e.
  by rewrite ztake_min, zdrop_min.
Qed.

Lemma remove_by_runes_spec_witness :
  Forall text_scalar [104; 233; 8364] /\
  (remove_by_runes None (encode_all [104; 233; 8364]) 1 INT64_MAX = None <->
     0 < INT64_MAX /\ ~ is_int64 (1 + INT64_MAX)) /\
  remove_by_runes None (encode_all [104; 233; 8364]) 1 1 =
    Some (encode_all [104; 8364], Some (2, 3)).
Proof.
  assert (H : Forall text_scalar [104; 233; 8364]) by solve_scalars.
  split; [exact H|]. split; [|reflexivity].
  exact (proj1 (remove_by_runes_spec [104; 233; 8364] None 1 INT64_MAX H I)).
Defined.

Lemma codepoint_utf8_inj c1 c2 :
  text_scalar c1 -> text_scalar c2 -> codepoint_utf8 c1 = codepoint_utf8 c2 -> c1 = c2.
Proof.
  intros [H1 _] [H2 _]. rewrite !codepoint_utf8_arith by done.
  destruct H1, H2. bdestruct_all; intros [=]; mlia.
Qed.

Lemma encode_prefix_cons c1 c2 x y z :
  text_scalar c1 -> text_scalar c2 ->
  (codepoint_utf8 c1 ++ x) ++ z = codepoint_utf8 c2 ++ y -> c1 = c2 /\ x ++ z = y.
Proof.
  intros H1 H2 E. rewrite <- app_assoc in E.
  assert (El : length (codepoint_utf8 c1) = length (codepoint_utf8 c2)).
  { pose proof (advance_encode c1 (x ++ z) (proj1 H1) (proj2 H1)) as A1. pose proof (advance_encode c2 y (proj1 H2) (proj2 H2)) as A2.
    congruence. }
  apply app_inj_1 in E; [|done]. destruct E as [E ->].
  split; [by apply codepoint_utf8_inj|done].
Qed.

Lemma encode_prefix_iff pats : forall cps,
  Forall text_scalar pats -> Forall text_scalar cps ->
  encode_all pats `prefix_of` encode_all cps <-> pats `prefix_of` cps.
Proof.
  induction pats as [|p pats IH]; intros cps Hp Hc.
  { split; intros _; apply prefix_nil. }
  inversion Hp as [|? ? Hp1 Hp2]; subst. destruct cps as [|c cps].
  { split.
    - intros [z Hz]. rewrite encode_all_cons in Hz. symmetry in Hz.
      apply app_eq_nil in Hz as [Hz _]. apply app_eq_nil in Hz as [Hz _].
      pose proof (codepoint_utf8_length p (proj1 Hp1)). rewrite Hz in *. cbn in *. lia.
    - by intros ?%prefix_nil_not. }
  inversion Hc as [|? ? Hc1 Hc2]; subst. rewrite !encode_all_cons. split.
  - intros [z Hz]. symmetry in Hz. apply encode_prefix_cons in Hz as [-> Hz]; [|done..].
    apply prefix_cons, IH; [done..|]. by exists z.
  - intros Hx. pose proof (prefix_cons_inv_1 _ _ _ _ Hx) as ->.
    apply prefix_cons_inv_2 in Hx. apply prefix_app, IH; done.
Qed.

Lemma take_eq_prefix {A} (p l : list A) : take (length p) l = p <-> p `prefix_of` l.
Proof.
  split.
  - intros <-. apply prefix_take.
  - intros [k ->]. apply take_app_length.
Qed.

Lemma occurs_at_bytes pats cps j :
  occurs_at pats cps j -> zlen (encode_all (ztake j cps)) + zlen (encode_all pats) <= zlen (encode_all cps).
Proof.
  intros [k Hk]. rewrite (encode_split j cps) , Hk, zlen_encode_all_app, !zlen_app.
  pose proof (zlen_nonneg (encode_all k)). lia.
Qed.

Lemma occurs_at_runes pats cps j :
  pats <> [] -> 0 <= j -> occurs_at pats cps j -> j + zlen pats <= zlen cps.
Proof.
  intros Hne Hj [k Hk]. assert (zlen pats + zlen k = zlen (zdrop j cps)) as Hz by (by rewrite Hk, zlen_app).
  assert (0 < zlen pats) by (destruct pats; [done|rewrite zlen_cons; pose proof (zlen_nonneg pats); lia]).
  pose proof (zlen_nonneg k). destruct (Z.le_gt_cases j (zlen cps)).
  - rewrite zlen_zdrop in Hz by lia. lia.
  - unfold zlen, zdrop in Hz. rewrite length_drop in Hz. unfold zlen in *. lia.
Qed.

Lemma encode_take_mono i j cps : i <= j ->
  zlen (encode_all (ztake i cps)) <= zlen (encode_all (ztake j cps)).
Proof.
  intros H. destruct (Z.le_gt_cases i 0) as [Hi|Hi].
  { unfold ztake at 1. rewrite Z2Nat.nonpos by done. apply zlen_nonneg. }
  replace j with (i + (j - i)) by lia. rewrite <- ztake_ztake_drop by lia.
  rewrite zlen_encode_all_app, zlen_app. pose proof (zlen_nonneg (encode_all (ztake (j - i) (zdrop i cps)))). lia.
Qed.

Lemma find_loop_spec pats cps from :
  Forall text_scalar pats -> Forall text_scalar cps -> pats <> [] -> 0 <= from ->
  forall fuel cache cand,
  from <= cand <= zlen cps - zlen pats ->
  opt_cache_ok cps (Some cache) ->
  (forall j, from <= j < cand -> ~ occurs_at pats cps j) ->
  zlen cps - zlen pats < cand + Z.of_nat fuel ->
  exists r cache',
    find_loop fuel (encode_all cps) (encode_all pats) cache cand (zlen (encode_all (ztake cand cps)))
      (zlen cps - zlen pats) = (r, cache') /\
    find_result pats cps from r /\ opt_cache_ok cps (Some cache').
Proof.
  intros Hp Hc Hne Hfrom fuel. induction fuel as [|fuel IH]; intros cache cand Hcand Hok Hno Hfuel; [lia|].
  cbn [find_loop].
  destruct (Z.ltb_spec (zlen (encode_all cps)) (zlen (encode_all (ztake cand cps)) + zlen (encode_all pats))) as [Hlt|Hge].
  { do 2 eexists. split; [done|]. split; [|done]. left. split; [done|]. intros j Hj Hocc.
    destruct (Z.lt_ge_cases j cand); [by apply (Hno j)|].
    apply occurs_at_bytes in Hocc. pose proof (encode_take_mono cand j cps). lia. }
  rewrite zdrop_encode. case_bool_decide as Hm.
  { rewrite take_eq_prefix, encode_prefix_iff in Hm by (done || by apply Forall_drop).
    do 2 eexists. split; [done|]. split; [|done]. right. pose proof (zlen_nonneg pats). split; [lia|done]. }
  assert (Hnc : forall j, from <= j < cand + 1 -> ~ occurs_at pats cps j).
  { intros j Hj Hocc. destruct (Z.eq_dec j cand) as [->|]; [|apply (Hno j); [lia|done]].
    apply Hm, take_eq_prefix, encode_prefix_iff; [done|by apply Forall_drop|done]. }
  destruct (Z.leb_spec (zlen cps - zlen pats) cand) as [Hlast|Hlast].
  { do 2 eexists. split; [done|]. split; [|done]. left. split; [done|]. intros j Hj Hocc.
    apply (Hnc j); [|done]. apply occurs_at_runes in Hocc; [lia|done|lia]. }
  destruct (byte_offset_text cps (Some cache) (cand + 1) Hc) as (c & -> & Hc'); [lia|done|].
  apply IH; [lia|done|done|lia].
Qed.

(** STR_FIND returns the first rune index at or after the clamped start
    at which the scalars of the pattern occur in the text, and -1 exactly when
    there is none; the byte comparison never matches inside a scalar. *)
Theorem find_by_runes_spec pats cps cache start :
  Forall text_scalar pats -> Forall text_scalar cps -> opt_cache_ok cps cache ->
  exists r cache',
    find_by_runes cache (encode_all cps) (encode_all pats) start = (r, cache') /\
    opt_cache_ok cps cache' /\
    find_result pats cps (Z.min (zlen cps) (Z.max 0 start)) r.
Proof.
  intros Hp Hc Hok. unfold find_by_runes. rewrite !rune_count_encoded by done.
  pose proof (zlen_nonneg cps). pose proof (zlen_nonneg pats). rewrite clamp_spec by done.
  set (from := Z.min (zlen cps) (Z.max 0 start)).
  destruct (Z.eqb_spec (zlen pats) 0) as [Hz|Hz].
  { do 2 eexists. split; [done|]. split; [done|]. right. split; [lia|]. split; [|lia].
    destruct pats; [apply prefix_nil|]. rewrite zlen_cons in Hz. pose proof (zlen_nonneg pats). lia. }
  assert (Hne : pats <> []) by (by intros ->).
  destruct ((zlen cps <? zlen pats) || (zlen cps - zlen pats <? from)) eqn:E.
  { do 2 eexists. split; [done|]. split; [done|]. left. split; [done|]. intros j Hj Hocc.
    apply occurs_at_runes in Hocc; [lia|done|lia]. }
  destruct (byte_offset_text cps cache from Hc) as (c & -> & Hc'); [lia|done|].
  pose proof (encode_all_length _ Hc).
  destruct (find_loop_spec pats cps from Hp Hc Hne ltac:(lia) (S (length (encode_all cps))) c from)
    as (r & c' & -> & Hr & Hc''); [lia|done|lia|unfold zlen in *; lia|].
  do 2 eexists. done.
Qed.

Lemma find_by_runes_spec_witness :
  Forall text_scalar [8364] /\ Forall text_scalar [104; 8364; 233; 8364] /\
  exists r cache',
    find_by_runes None (encode_all [104; 8364; 233; 8364]) (encode_all [8364]) 2 = (r, cache') /\
    opt_cache_ok [104; 8364; 233; 8364] cache' /\
    find_result [8364] [104; 8364; 233; 8364] 2 r.
Proof.
  assert (H : Forall text_scalar [8364]) by solve_scalars.
  assert (H' : Forall text_scalar [104; 8364; 233; 8364]) by solve_scalars.
  split; [exact H|]. split; [exact H'|].
  exact (find_by_runes_spec [8364] [104; 8364; 233; 8364] None 2 H H' I).
Defined.

(** STR_SCALAR_LENGTH (counting non-continuation bytes) and
    [utf8_rune_count] (walking the text) agree on well-formed text: both are the
    number of scalars. *)
Theorem scalar_length_encoded cps :
  Forall text_scalar cps ->
  scalar_length (encode_all cps) = zlen cps /\ utf8_rune_count (encode_all cps) = zlen cps.
Proof.
  intros Hc. split; [|by apply rune_count_encoded].
  assert (Happ : forall a b, scalar_length (a ++ b) = scalar_length a + scalar_length b).
  { induction a as [|x a IH]; intros b; [done|]. cbn [app scalar_length]. rewrite IH.
    destruct (negb (is_cont x)); lia. }
  induction Hc as [|cp cps [Hs Hz] _ IH]; [done|].
  rewrite encode_all_cons, Happ, IH, zlen_cons. rewrite codepoint_utf8_arith by done.
  destruct Hs. bdestruct_all; cbn [scalar_length]; rewrite ?cont_mod; cbn [negb];
    rewrite is_cont_range by (unfold is_byte; mlia); case_ifs; mlia.
Qed.

Lemma scalar_length_encoded_witness :
  Forall text_scalar [104; 233; 128512] /\
  scalar_length (encode_all [104; 233; 128512]) = 3 /\
  utf8_rune_count (encode_all [104; 233; 128512]) = 3.
Proof.
  assert (H : Forall text_scalar [104; 233; 128512]) by solve_scalars.
  split; [exact H|]. exact (scalar_length_encoded [104; 233; 128512] H).
Defined.

Lemma escape_char_inj_app x y a b :
  escape_char x ++ a = escape_char y ++ b -> x = y /\ a = b.
Proof.
  unfold escape_char. bdestruct_all; subst; cbn [app]; intros [=]; subst; done || lia.
Qed.

(** The number of bytes STR_ESCAPE reserves is exactly the number it
    writes, the result has no raw newline, carriage return or tab, and different
    texts have different escapes. *)
Theorem escape_text_correct text :
  escaped_length text = zlen (escape_text text) /\
  Forall (fun ch => ch <> 10 /\ ch <> 13 /\ ch <> 9) (escape_text text) /\
  (forall text', escape_text text = escape_text text' -> text = text').
Proof.
  split; [|split].
  - induction text as [|ch text IH]; [done|]. cbn [escaped_length fold_right escape_text flat_map].
    fold (escaped_length text). fold (escape_text text). rewrite IH, zlen_app. f_equal.
    unfold escape_char. bdestruct_all; done.
  - apply Forall_flat_map, Forall_forall. intros ch _. unfold escape_char.
    bdestruct_all; repeat constructor; lia.
  - induction text as [|ch text IH]; intros [|ch' text'] E; [done| | |].
    1,2: unfold escape_text, escape_char in E; cbn [flat_map] in E; revert E; bdestruct_all; done.
    cbn [escape_text flat_map] in E. apply escape_char_inj_app in E as [-> E].
    f_equal. by apply IH.
Qed.

