(* ===== verification/Parity.v ===== *)
(** * Comparing outputs (src/src/aivm_parity.c)

    Texts are compared after line ends are made uniform and trailing newlines dropped, in
    buffers of 4096 bytes.  A text is the content of a C string; [None] is NULL. *)

From S2P Require Import Prelude.

(** ** The code *)

Definition CR : Z := 13.
Definition LF : Z := 10.

(** The first loop; [room] is [output_capacity - out_index]. *)
Fixpoint normalize_loop (input : list Z) (room : Z) : list Z :=
  match input with
  | [] => []
  | b :: rest =>
      match rest with
      | b' :: rest' =>
          if (b =? CR) && (b' =? LF) then if room <=? 1 then [] else LF :: normalize_loop rest' (room - 1)
          else if room <=? 1 then [] else b :: normalize_loop rest (room - 1)
      | [] => if room <=? 1 then [] else b :: normalize_loop rest (room - 1)
      end
  end.

(** The second loop drops newlines from the end: [output] is reversed. *)
Fixpoint drop_newlines (output : list Z) : list Z :=
  match output with b :: rest => if b =? LF then drop_newlines rest else output | [] => [] end.

(** The text in the buffer, or [None] when nothing is written. *)
Definition aivm_parity_normalize_text (input : option (list Z)) (output_capacity : Z) : option (list Z) :=
  match input with
  | None => None
  | Some input =>
      if output_capacity =? 0 then None
      else Some (rev (drop_newlines (rev (normalize_loop input output_capacity))))
  end.

Definition PARITY_BUFFER : Z := 4096.

Definition aivm_parity_equal_normalized (left right : option (list Z)) : bool :=
  match aivm_parity_normalize_text left PARITY_BUFFER, aivm_parity_normalize_text right PARITY_BUFFER with
  | Some l, Some r => bool_decide (l = r)
  | _, _ => false
  end.

Fixpoint diff_loop (left right : list Z) (index : Z) : option Z :=
  match left, right with
  | a :: l, b :: r => if a =? b then diff_loop l r (index + 1) else Some index
  | [], [] => None
  | _, _ => Some index
  end.

(** The index of the first difference and the two lengths; [None] is a return of 0. *)
Definition aivm_parity_first_diff (left right : option (list Z)) : option (Z * Z * Z) :=
  match aivm_parity_normalize_text left PARITY_BUFFER, aivm_parity_normalize_text right PARITY_BUFFER with
  | Some l, Some r => (fun index => (index, zlen l, zlen r)) <$> diff_loop l r 0
  | _, _ => None
  end.

(** [left] is [index - i]. *)
Fixpoint line_col_loop (text : list Z) (left : nat) (line col : Z) : Z * Z :=
  match left, text with
  | S left', b :: rest => if b =? LF then line_col_loop rest left' (line + 1) 1 else line_col_loop rest left' line (col + 1)
  | _, _ => (line, col)
  end.

Definition aivm_parity_line_col_for_index (text : option (list Z)) (index : Z) : Z * Z :=
  match text with None => (0, 0) | Some text => line_col_loop text (Z.to_nat index) 1 1 end.

(** ** What it means *)

(** Uniform line ends. *)
Fixpoint unix (input : list Z) : list Z :=
  match input with
  | [] => []
  | b :: rest => if (b =? CR) && bool_decide (head rest = Some LF) then unix rest else b :: unix rest
  end.

(** No newline at the end. *)
Definition trimmed (t : list Z) : Prop := last t <> Some LF.

(** [t] is [l] up to newlines at the end. *)
Definition trims (l t : list Z) : Prop := trimmed t /\ exists n, l = t ++ replicate n LF.

Lemma trims_unique l t t' : trims l t -> trims l t' -> t = t'.
Proof.
  intros [Ht [n ->]] [Ht' [m E]]. revert m E. induction n as [|n IH]; intros m E.
  - rewrite app_nil_r in E. subst t. destruct m as [|m]; [by rewrite app_nil_r|]. rewrite replicate_S_end, app_assoc in Ht.
    unfold trimmed in Ht. by rewrite last_snoc in Ht.
  - destruct m as [|m].
    + rewrite app_nil_r in E. subst t'. rewrite replicate_S_end, app_assoc in Ht'. unfold trimmed in Ht'. by rewrite last_snoc in Ht'.
    + rewrite !replicate_S_end, !app_assoc in E. apply app_inj_tail in E as [E _]. by apply (IH m).
Qed.

Lemma drop_newlines_trims l : trims l (rev (drop_newlines (rev l))).
Proof.
  induction l as [|b l IH] using rev_ind; [split; [done|by exists 0%nat]|]. rewrite rev_app_distr. cbn [rev app drop_newlines].
  destruct (Z.eqb_spec b LF) as [->|Hb].
  - destruct IH as [Ht [n E]]. split; [done|]. exists (S n). rewrite replicate_S_end, app_assoc. by rewrite <- E.
  - cbn [rev]. rewrite rev_involutive. split; [unfold trimmed; rewrite last_snoc; congruence|]. exists 0%nat. by rewrite app_nil_r.
Qed.

Lemma normalize_loop_unix n : forall input room, (length input <= n)%nat -> 1 <= room ->
  normalize_loop input room = ztake (room - 1) (unix input).
Proof.
  induction n as [|n IH]; intros input room Hn Hr.
  { destruct input; [|cbn in Hn; lia]. cbn. unfold ztake. by rewrite take_nil. }
  destruct input as [|b rest]; [cbn; unfold ztake; by rewrite take_nil|].
  assert (Hone : forall x l, (length l <= n)%nat -> (if room <=? 1 then [] else x :: normalize_loop l (room - 1)) = ztake (room - 1) (x :: unix l)).
  { intros x l Hl. destruct (Z.leb_spec room 1).
    - unfold ztake. by replace (Z.to_nat (room - 1)) with 0%nat by lia.
    - rewrite IH by lia. unfold ztake. by replace (Z.to_nat (room - 1)) with (S (Z.to_nat (room - 1 - 1))) by lia. }
  cbn in Hn. destruct rest as [|b' rest']; cbn [normalize_loop unix head].
  - rewrite andb_false_r. apply (Hone b []). cbn. lia.
  - cbn in Hn. destruct (Z.eqb_spec b CR) as [->|Hb]; cbn [andb].
    + destruct (Z.eqb_spec b' LF) as [->|Hb'].
      * rewrite bool_decide_eq_true_2 by done. change (LF =? CR) with false. cbn [andb]. apply Hone. lia.
      * rewrite bool_decide_eq_false_2 by congruence. apply (Hone CR (b' :: rest')). cbn. lia.
    + apply (Hone b (b' :: rest')). cbn. lia.
Qed.

(** The buffer holds what fits of the uniform text, without newlines at its end. *)
Lemma normalize_spec input capacity : 0 < capacity ->
  exists t, aivm_parity_normalize_text (Some input) capacity = Some t /\ trims (ztake (capacity - 1) (unix input)) t /\ zlen t < capacity.
Proof.
  intros Hc. unfold aivm_parity_normalize_text. rewrite (proj2 (Z.eqb_neq _ _)) by lia. eexists. split; [done|].
  rewrite (normalize_loop_unix (length input)) by lia. pose proof (drop_newlines_trims (ztake (capacity - 1) (unix input))) as Ht.
  split; [done|]. destruct Ht as [_ [n E]]. apply (f_equal zlen) in E. rewrite zlen_app in E.
  assert (zlen (ztake (capacity - 1) (unix input)) <= capacity - 1) by (unfold ztake, zlen; rewrite length_take; lia).
  pose proof (zlen_nonneg (replicate n LF)). lia.
Qed.

Lemma diff_loop_spec l : forall r index, 
  match diff_loop l r index with
  | None => l = r
  | Some i => exists k, i = index + Z.of_nat k /\ take k l = take k r /\ l !! k <> r !! k
  end.
Proof.
  induction l as [|a l IH]; intros [|b r] index; cbn [diff_loop]; [done|exists 0%nat; by rewrite Z.add_0_r|exists 0%nat; by rewrite Z.add_0_r|].
  destruct (Z.eqb_spec a b) as [->|Hne].
  - specialize (IH r (index + 1)). destruct (diff_loop l r (index + 1)) as [i|]; [|by subst].
    destruct IH as (k & -> & E1 & E2). exists (S k). split; [lia|]. split; [cbn; by rewrite E1|done].
  - exists 0%nat. split; [lia|]. split; [done|]. cbn. congruence.
Qed.

(** Two texts that fit the buffers are reported equal exactly when they are the same up to
    the kind of their line ends and newlines at the end; otherwise the reported index is the
    first place where the normalised texts differ. *)
Theorem parity_compares left right l r : zlen (unix left) < PARITY_BUFFER -> zlen (unix right) < PARITY_BUFFER ->
  trims (unix left) l -> trims (unix right) r ->
  (aivm_parity_equal_normalized (Some left) (Some right) = true <-> l = r) /\
  match aivm_parity_first_diff (Some left) (Some right) with
  | None => l = r
  | Some (i, n, m) => n = zlen l /\ m = zlen r /\ exists k, i = Z.of_nat k /\ take k l = take k r /\ l !! k <> r !! k
  end.
Proof.
  intros Hl Hr Tl Tr.
  assert (G : forall input t, zlen (unix input) < PARITY_BUFFER -> trims (unix input) t ->
    aivm_parity_normalize_text (Some input) PARITY_BUFFER = Some t).
  { intros input t Hi Ht. destruct (normalize_spec input PARITY_BUFFER) as (t' & -> & Ht' & _); [done|]. f_equal.
    eapply trims_unique; [|exact Ht]. unfold ztake in Ht'. rewrite take_ge in Ht' by (unfold zlen in Hi; lia). done. }
  unfold aivm_parity_equal_normalized, aivm_parity_first_diff. rewrite (G left l), (G right r) by done. split.
  - by rewrite bool_decide_eq_true.
  - pose proof (diff_loop_spec l r 0) as Hd. destruct (diff_loop l r 0) as [i|]; [|done]. cbn. done.
Qed.

(** The comparison stops at the end of its buffers: texts that differ later are equal. *)
Lemma parity_prefix_only : exists left right, unix left = left /\ unix right = right /\ trimmed left /\ trimmed right /\ left <> right /\
  aivm_parity_equal_normalized (Some left) (Some right) = true /\ aivm_parity_first_diff (Some left) (Some right) = None.
Proof.
  exists (replicate 4095 65 ++ [66]), (replicate 4095 65 ++ [67]).
  split_and!; try (vm_compute; reflexivity); unfold trimmed; try (rewrite last_snoc; done).
  intros E. by apply app_inj_tail in E as [_ E].
Qed.

(** ** Line and column *)

(** The line is one more than the newlines before the index. *)
Lemma line_col_spec text : forall left line col,
  (line_col_loop text left line col).1 = line + Z.of_nat (length (filter (fun b => b = LF) (take left text))).
Proof.
  induction text as [|b text IH]; intros [|left] line col; cbn [line_col_loop take]; try (cbn; lia).
  rewrite filter_cons. destruct (Z.eqb_spec b LF) as [->|Hb]; rewrite IH.
  - rewrite decide_True by done. cbn [length]. lia.
  - rewrite decide_False by done. lia.
Qed.

(** "a", CR, LF, "b" and "a", LF, "b", LF, LF. *)
Lemma parity_compares_witness : aivm_parity_equal_normalized (Some [97; 13; 10; 98]) (Some [97; 10; 98; 10; 10]) = true.
Proof.
  destruct (parity_compares [97; 13; 10; 98] [97; 10; 98; 10; 10] [97; 10; 98] [97; 10; 98]) as [H _];
    [vm_compute; reflexivity|vm_compute; reflexivity|split; [done|by exists 0%nat]|split; [done|by exists 2%nat]|].
  by apply H.
Defined.
