(* ===== verification/Types.v ===== *)
(** * Values, opcodes and enumerations (src/src/aivm_types.c, src/src/include)

    The tagged union [AivmValue], the opcode enumeration and the status and
    error enumerations of the VM, with the value predicates of aivm_types.c and
    aivm_vm_value.c that need no VM state.  A [double] is a [spec_float]
    (binary64 without NaN payloads). *)

From S2P Require Import Prelude.
From Stdlib Require Import SpecFloat.

(** ** Pointers

    A [const char*] points to NUL-terminated text in the VM string arena (an
    offset in the arena of a given generation; compaction starts a new one), in
    the string storage of the loaded program, or to immutable text outside the
    VM (literals, host results), of which only the content matters. *)
Inductive str_ptr :=
  | SNull
  | SArena (gen off : Z)
  | SProgram (off : Z)
  | SExt (content : list Z).

(** A [const uint8_t*] of an [AivmBytesView]. *)
Inductive bytes_ptr :=
  | BNull
  | BArena (gen off : Z)
  | BProgram (off : Z)
  | BExt (content : list Z).

Global Instance str_ptr_eq_dec : EqDecision str_ptr.
Proof. solve_decision. Defined.
Global Instance bytes_ptr_eq_dec : EqDecision bytes_ptr.
Proof. solve_decision. Defined.

(** ** Values *)

Inductive AivmValueType :=
  | AIVM_VAL_VOID | AIVM_VAL_INT | AIVM_VAL_NUMBER | AIVM_VAL_BOOL | AIVM_VAL_NULL
  | AIVM_VAL_STRING | AIVM_VAL_BYTES | AIVM_VAL_NODE | AIVM_VAL_PAIR | AIVM_VAL_UNKNOWN
  | AIVM_VAL_NODE_BUILDER | AIVM_VAL_MAP_BUILDER | AIVM_VAL_MAP | AIVM_VAL_TASK
  | AIVM_VAL_WORKER_REF | AIVM_VAL_WORKER_TASKS.

Global Instance value_type_eq_dec : EqDecision AivmValueType.
Proof. solve_decision. Defined.

Inductive AivmValue :=
  | VVoid
  | VInt (i : Z)
  | VNumber (d : spec_float)
  | VBool (b : bool)
  | VNull
  | VString (p : str_ptr)
  | VBytes (p : bytes_ptr) (length : Z)
  | VNode (handle : Z)
  | VPair (handle : Z)
  | VUnknown
  | VNodeBuilder (handle : Z)
  | VMapBuilder (handle : Z)
  | VMap (handle : Z)
  | VTask (handle : Z)
  | VWorkerRef (handle : Z)
  | VWorkerTasks (handle : Z).

Global Instance spec_float_eq_dec : EqDecision spec_float.
Proof. solve_decision. Defined.
Global Instance value_eq_dec : EqDecision AivmValue.
Proof. solve_decision. Defined.

Definition value_type (v : AivmValue) : AivmValueType :=
  match v with
  | VVoid => AIVM_VAL_VOID | VInt _ => AIVM_VAL_INT | VNumber _ => AIVM_VAL_NUMBER
  | VBool _ => AIVM_VAL_BOOL | VNull => AIVM_VAL_NULL | VString _ => AIVM_VAL_STRING
  | VBytes _ _ => AIVM_VAL_BYTES | VNode _ => AIVM_VAL_NODE | VPair _ => AIVM_VAL_PAIR
  | VUnknown => AIVM_VAL_UNKNOWN | VNodeBuilder _ => AIVM_VAL_NODE_BUILDER
  | VMapBuilder _ => AIVM_VAL_MAP_BUILDER | VMap _ => AIVM_VAL_MAP | VTask _ => AIVM_VAL_TASK
  | VWorkerRef _ => AIVM_VAL_WORKER_REF | VWorkerTasks _ => AIVM_VAL_WORKER_TASKS
  end.

(** [aivm_vm_value_type_name]: VALUE_KIND and the error texts use it. *)
Definition aivm_vm_value_type_name (t : AivmValueType) : string :=
  match t with
  | AIVM_VAL_VOID => "void" | AIVM_VAL_INT => "int" | AIVM_VAL_NUMBER => "number"
  | AIVM_VAL_BOOL => "bool" | AIVM_VAL_NULL => "null" | AIVM_VAL_STRING => "string"
  | AIVM_VAL_BYTES => "bytes" | AIVM_VAL_NODE => "node" | AIVM_VAL_PAIR => "pair"
  | AIVM_VAL_NODE_BUILDER => "nodeBuilder" | AIVM_VAL_MAP_BUILDER => "mapBuilder"
  | AIVM_VAL_MAP => "map" | AIVM_VAL_TASK => "task" | AIVM_VAL_WORKER_REF => "workerRef"
  | AIVM_VAL_WORKER_TASKS => "workerTasks" | AIVM_VAL_UNKNOWN => "unknown"
  end.

Definition aivm_vm_value_is_numeric (v : AivmValue) : bool :=
  match v with VInt _ | VNumber _ => true | _ => false end.

(** ** Opcodes *)

Inductive AivmOpcode :=
  | AIVM_OP_NOP | AIVM_OP_HALT | AIVM_OP_STUB | AIVM_OP_PUSH_INT | AIVM_OP_POP
  | AIVM_OP_STORE_LOCAL | AIVM_OP_LOAD_LOCAL | AIVM_OP_ADD_INT | AIVM_OP_JUMP
  | AIVM_OP_JUMP_IF_FALSE | AIVM_OP_PUSH_BOOL | AIVM_OP_CALL | AIVM_OP_RET | AIVM_OP_EQ_INT
  | AIVM_OP_EQ | AIVM_OP_CONST | AIVM_OP_STR_CONCAT | AIVM_OP_TO_STRING | AIVM_OP_STR_ESCAPE
  | AIVM_OP_RETURN | AIVM_OP_STR_SUBSTRING | AIVM_OP_STR_REMOVE | AIVM_OP_CALL_SYS
  | AIVM_OP_ASYNC_CALL | AIVM_OP_ASYNC_CALL_SYS | AIVM_OP_AWAIT | AIVM_OP_PAR_BEGIN
  | AIVM_OP_PAR_FORK | AIVM_OP_PAR_JOIN | AIVM_OP_PAR_CANCEL | AIVM_OP_STR_UTF8_BYTE_COUNT
  | AIVM_OP_NODE_KIND | AIVM_OP_NODE_ID | AIVM_OP_ATTR_COUNT | AIVM_OP_ATTR_KEY
  | AIVM_OP_ATTR_VALUE_KIND | AIVM_OP_ATTR_VALUE_STRING | AIVM_OP_ATTR_VALUE_INT
  | AIVM_OP_ATTR_VALUE_BOOL | AIVM_OP_CHILD_COUNT | AIVM_OP_CHILD_AT | AIVM_OP_MAKE_BLOCK
  | AIVM_OP_APPEND_CHILD | AIVM_OP_MAKE_ERR | AIVM_OP_MAKE_LIT_STRING | AIVM_OP_MAKE_LIT_INT
  | AIVM_OP_MAKE_LIT_BOOL | AIVM_OP_MAKE_NODE | AIVM_OP_MAKE_FIELD_STRING | AIVM_OP_MAKE_MAP
  | AIVM_OP_MAKE_NODE_EMPTY | AIVM_OP_APPEND_ATTR | AIVM_OP_STR_FIND
  | AIVM_OP_STR_FROM_CODEPOINT | AIVM_OP_STR_DECODE_UNICODE_HEX4
  | AIVM_OP_STR_DECODE_UNICODE_SURROGATE_PAIR_HEX4 | AIVM_OP_BYTES_LENGTH | AIVM_OP_BYTES_AT
  | AIVM_OP_BYTES_SLICE | AIVM_OP_BYTES_CONCAT | AIVM_OP_BYTES_FROM_UTF8_STRING
  | AIVM_OP_BYTES_TO_UTF8_STRING | AIVM_OP_BYTES_FROM_BASE64 | AIVM_OP_BYTES_TO_BASE64
  | AIVM_OP_MAKE_PAIR | AIVM_OP_PAIR_FIRST | AIVM_OP_PAIR_SECOND | AIVM_OP_SUB_NUM
  | AIVM_OP_MUL_NUM | AIVM_OP_DIV_NUM | AIVM_OP_MOD_NUM | AIVM_OP_POW_NUM | AIVM_OP_LT_NUM
  | AIVM_OP_BYTES_FROM_BYTE | AIVM_OP_BYTES_U32_LE | AIVM_OP_BYTES_I64_LE
  | AIVM_OP_STR_SCALAR_LENGTH | AIVM_OP_VALUE_KIND | AIVM_OP_NODE_BUILDER_NEW
  | AIVM_OP_NODE_BUILDER_APPEND_CHILD | AIVM_OP_NODE_BUILDER_APPEND_ATTR
  | AIVM_OP_NODE_BUILDER_FINISH | AIVM_OP_MAP_BUILDER_NEW | AIVM_OP_MAP_BUILDER_PUT_STRING_INT
  | AIVM_OP_MAP_BUILDER_FINISH | AIVM_OP_MAP_COUNT | AIVM_OP_MAP_HAS_STRING
  | AIVM_OP_MAP_GET_STRING_INT_OR | AIVM_OP_WORKER_REF | AIVM_OP_WORKER_RUN
  | AIVM_OP_TASK_CANCEL | AIVM_OP_WORKER_RUN_ALL | AIVM_OP_WORKER_TASK_AT.

Global Instance opcode_eq_dec : EqDecision AivmOpcode.
Proof. solve_decision. Defined.

(** The enumeration in the order of its numeric values 0 .. AIVM_OP_MAX. *)
Definition all_opcodes : list AivmOpcode :=
  [AIVM_OP_NOP; AIVM_OP_HALT; AIVM_OP_STUB; AIVM_OP_PUSH_INT; AIVM_OP_POP; AIVM_OP_STORE_LOCAL;
   AIVM_OP_LOAD_LOCAL; AIVM_OP_ADD_INT; AIVM_OP_JUMP; AIVM_OP_JUMP_IF_FALSE; AIVM_OP_PUSH_BOOL;
   AIVM_OP_CALL; AIVM_OP_RET; AIVM_OP_EQ_INT; AIVM_OP_EQ; AIVM_OP_CONST; AIVM_OP_STR_CONCAT;
   AIVM_OP_TO_STRING; AIVM_OP_STR_ESCAPE; AIVM_OP_RETURN; AIVM_OP_STR_SUBSTRING;
   AIVM_OP_STR_REMOVE; AIVM_OP_CALL_SYS; AIVM_OP_ASYNC_CALL; AIVM_OP_ASYNC_CALL_SYS;
   AIVM_OP_AWAIT; AIVM_OP_PAR_BEGIN; AIVM_OP_PAR_FORK; AIVM_OP_PAR_JOIN; AIVM_OP_PAR_CANCEL;
   AIVM_OP_STR_UTF8_BYTE_COUNT; AIVM_OP_NODE_KIND; AIVM_OP_NODE_ID; AIVM_OP_ATTR_COUNT;
   AIVM_OP_ATTR_KEY; AIVM_OP_ATTR_VALUE_KIND; AIVM_OP_ATTR_VALUE_STRING; AIVM_OP_ATTR_VALUE_INT;
   AIVM_OP_ATTR_VALUE_BOOL; AIVM_OP_CHILD_COUNT; AIVM_OP_CHILD_AT; AIVM_OP_MAKE_BLOCK;
   AIVM_OP_APPEND_CHILD; AIVM_OP_MAKE_ERR; AIVM_OP_MAKE_LIT_STRING; AIVM_OP_MAKE_LIT_INT;
   AIVM_OP_MAKE_LIT_BOOL; AIVM_OP_MAKE_NODE; AIVM_OP_MAKE_FIELD_STRING; AIVM_OP_MAKE_MAP;
   AIVM_OP_MAKE_NODE_EMPTY; AIVM_OP_APPEND_ATTR; AIVM_OP_STR_FIND; AIVM_OP_STR_FROM_CODEPOINT;
   AIVM_OP_STR_DECODE_UNICODE_HEX4; AIVM_OP_STR_DECODE_UNICODE_SURROGATE_PAIR_HEX4;
   AIVM_OP_BYTES_LENGTH; AIVM_OP_BYTES_AT; AIVM_OP_BYTES_SLICE; AIVM_OP_BYTES_CONCAT;
   AIVM_OP_BYTES_FROM_UTF8_STRING; AIVM_OP_BYTES_TO_UTF8_STRING; AIVM_OP_BYTES_FROM_BASE64;
   AIVM_OP_BYTES_TO_BASE64; AIVM_OP_MAKE_PAIR; AIVM_OP_PAIR_FIRST; AIVM_OP_PAIR_SECOND;
   AIVM_OP_SUB_NUM; AIVM_OP_MUL_NUM; AIVM_OP_DIV_NUM; AIVM_OP_MOD_NUM; AIVM_OP_POW_NUM;
   AIVM_OP_LT_NUM; AIVM_OP_BYTES_FROM_BYTE; AIVM_OP_BYTES_U32_LE; AIVM_OP_BYTES_I64_LE;
   AIVM_OP_STR_SCALAR_LENGTH; AIVM_OP_VALUE_KIND; AIVM_OP_NODE_BUILDER_NEW;
   AIVM_OP_NODE_BUILDER_APPEND_CHILD; AIVM_OP_NODE_BUILDER_APPEND_ATTR;
   AIVM_OP_NODE_BUILDER_FINISH; AIVM_OP_MAP_BUILDER_NEW; AIVM_OP_MAP_BUILDER_PUT_STRING_INT;
   AIVM_OP_MAP_BUILDER_FINISH; AIVM_OP_MAP_COUNT; AIVM_OP_MAP_HAS_STRING;
   AIVM_OP_MAP_GET_STRING_INT_OR; AIVM_OP_WORKER_REF; AIVM_OP_WORKER_RUN; AIVM_OP_TASK_CANCEL;
   AIVM_OP_WORKER_RUN_ALL; AIVM_OP_WORKER_TASK_AT].

Definition AIVM_OP_MAX : Z := 92.

(** The cast [(AivmOpcode)raw_opcode]; [None] above [AIVM_OP_MAX]. *)
Definition opcode_of_Z (raw : Z) : option AivmOpcode := zget all_opcodes raw.

Definition Z_of_opcode (op : AivmOpcode) : Z :=
  match list_find (fun o => o = op) all_opcodes with Some (i, _) => Z.of_nat i | None => -1 end.

Record AivmInstruction := mk_instruction { opcode : AivmOpcode; operand_int : Z }.

(** ** Status and error codes *)

Inductive AivmVmStatus :=
  | AIVM_VM_STATUS_READY | AIVM_VM_STATUS_RUNNING | AIVM_VM_STATUS_HALTED | AIVM_VM_STATUS_ERROR.

Inductive AivmVmError :=
  | AIVM_VM_ERR_NONE | AIVM_VM_ERR_INVALID_OPCODE | AIVM_VM_ERR_STACK_OVERFLOW
  | AIVM_VM_ERR_STACK_UNDERFLOW | AIVM_VM_ERR_FRAME_OVERFLOW | AIVM_VM_ERR_FRAME_UNDERFLOW
  | AIVM_VM_ERR_LOCAL_OUT_OF_RANGE | AIVM_VM_ERR_TYPE_MISMATCH | AIVM_VM_ERR_INVALID_PROGRAM
  | AIVM_VM_ERR_STRING_OVERFLOW | AIVM_VM_ERR_SYSCALL | AIVM_VM_ERR_MEMORY_PRESSURE.

Inductive AivmRuntimeProfile :=
  | AIVM_RUNTIME_PROFILE_PRODUCTION | AIVM_RUNTIME_PROFILE_DEBUG | AIVM_RUNTIME_PROFILE_TOOLING.

Global Instance status_eq_dec : EqDecision AivmVmStatus.
Proof. solve_decision. Defined.
Global Instance error_eq_dec : EqDecision AivmVmError.
Proof. solve_decision. Defined.
Global Instance profile_eq_dec : EqDecision AivmRuntimeProfile.
Proof. solve_decision. Defined.

Definition aivm_vm_error_code (e : AivmVmError) : string :=
  match e with
  | AIVM_VM_ERR_NONE => "AIVM000" | AIVM_VM_ERR_INVALID_OPCODE => "AIVM001"
  | AIVM_VM_ERR_STACK_OVERFLOW => "AIVM002" | AIVM_VM_ERR_STACK_UNDERFLOW => "AIVM003"
  | AIVM_VM_ERR_FRAME_OVERFLOW => "AIVM004" | AIVM_VM_ERR_FRAME_UNDERFLOW => "AIVM005"
  | AIVM_VM_ERR_LOCAL_OUT_OF_RANGE => "AIVM006" | AIVM_VM_ERR_TYPE_MISMATCH => "AIVM007"
  | AIVM_VM_ERR_INVALID_PROGRAM => "AIVM008" | AIVM_VM_ERR_STRING_OVERFLOW => "AIVM009"
  | AIVM_VM_ERR_SYSCALL => "AIVM010" | AIVM_VM_ERR_MEMORY_PRESSURE => "AIVM011"
  end.

Lemma opcode_of_Z_range raw op : opcode_of_Z raw = Some op -> 0 <= raw <= AIVM_OP_MAX.
Proof.
  intros H. apply zget_Some_bounds in H. change (zlen all_opcodes) with 93 in H.
  unfold AIVM_OP_MAX. lia.
Qed.

Lemma opcode_of_Z_total raw : 0 <= raw <= AIVM_OP_MAX -> exists op, opcode_of_Z raw = Some op.
Proof.
  intros H. apply zget_is_Some. change (zlen all_opcodes) with 93. unfold AIVM_OP_MAX in H. lia.
Qed.

Lemma Z_of_opcode_roundtrip op : opcode_of_Z (Z_of_opcode op) = Some op.
Proof. destruct op; vm_compute; reflexivity. Qed.

Lemma Z_of_opcode_range op : 0 <= Z_of_opcode op <= AIVM_OP_MAX.
Proof. destruct op; vm_compute; split; discriminate. Qed.
