(* ===== verification/Program.v ===== *)
(** * Bytecode loader and worker catalog

    src/src/aivm_program.c, aivm_program_constants.c,
    aivm_program_instructions.c and aivm_worker_catalog.c: the AIBC container
    (header, sections of instructions, constants and embedded worker
    artifacts).  Every read of the input and every write to program storage is
    checked: [None] is an access outside its buffer or exhausted fuel, so that
    safety is the theorem that the loader never returns [None].

    The host allocator is the oracle [host_alloc]: its answer may depend on the
    number of earlier requests (the tick) and on the size. *)

From S2P Require Import Prelude Types.
From Stdlib Require Import SpecFloat.

(** ** Data *)

Inductive AivmProgramStatus :=
  | AIVM_PROGRAM_OK | AIVM_PROGRAM_ERR_NULL | AIVM_PROGRAM_ERR_TRUNCATED
  | AIVM_PROGRAM_ERR_BAD_MAGIC | AIVM_PROGRAM_ERR_UNSUPPORTED | AIVM_PROGRAM_ERR_SECTION_OOB
  | AIVM_PROGRAM_ERR_SECTION_LIMIT | AIVM_PROGRAM_ERR_INSTRUCTION_LIMIT
  | AIVM_PROGRAM_ERR_INVALID_SECTION | AIVM_PROGRAM_ERR_INVALID_OPCODE
  | AIVM_PROGRAM_ERR_CONSTANT_LIMIT | AIVM_PROGRAM_ERR_INVALID_CONSTANT
  | AIVM_PROGRAM_ERR_STRING_LIMIT | AIVM_PROGRAM_ERR_MEMORY | AIVM_PROGRAM_ERR_WORKER_CATALOG.

Inductive AivmWorkerCatalogStatus :=
  | AIVM_WORKER_CATALOG_OK | AIVM_WORKER_CATALOG_ERR_FORMAT | AIVM_WORKER_CATALOG_ERR_LIMIT
  | AIVM_WORKER_CATALOG_ERR_MEMORY | AIVM_WORKER_CATALOG_ERR_IDENTITY
  | AIVM_WORKER_CATALOG_ERR_ARTIFACT | AIVM_WORKER_CATALOG_ERR_FUNCTION
  | AIVM_WORKER_CATALOG_ERR_ABI | AIVM_WORKER_CATALOG_ERR_CAPABILITY.

Global Instance program_status_eq_dec : EqDecision AivmProgramStatus.
Proof. solve_decision. Defined.
Global Instance catalog_status_eq_dec : EqDecision AivmWorkerCatalogStatus.
Proof. solve_decision. Defined.

Definition AIVM_PROGRAM_MAX_SECTIONS : Z := 32.
Definition AIVM_PROGRAM_INLINE_INSTRUCTIONS : Z := 32768.
Definition AIVM_PROGRAM_INLINE_CONSTANTS : Z := 1024.
Definition AIVM_PROGRAM_MAX_STRING_BYTES : Z := 65536.
Definition AIVM_PROGRAM_MAX_BYTES_STORAGE : Z := 32768.
Definition AIVM_WORKER_CATALOG_MAX_ENTRIES : Z := 1024.
Definition SIZEOF_VALUE : Z := 24.
Definition SIZEOF_INSTRUCTION : Z := 16.
Definition SIZEOF_CATALOG_ENTRY : Z := 64.

Record AivmProgramSection :=
  mk_section { section_type : Z; section_size : Z; section_offset : Z }.

Record AivmWorkerCatalogEntry := mk_entry {
  function_target : Z; required_capabilities : Z; transport_abi : Z; bytecode_version : Z;
  identity : list Z; artifact : list Z }.

(** [AivmProgram].  The instruction, constant, string and byte stores are the
    prefixes written so far: [string_storage_used] and [bytes_storage_used] are
    their lengths; the rest of each array is zero. *)
Record AivmProgram := mk_program {
  instruction_store : list AivmInstruction; instruction_count : Z; instruction_capacity : Z;
  constant_store : list AivmValue; constant_count : Z; constant_capacity : Z;
  format_version : Z; format_flags : Z; section_count : Z;
  sections : list AivmProgramSection;
  string_storage : list Z; bytes_storage : list Z;
  worker_catalog : list AivmWorkerCatalogEntry }.

(** [aivm_program_clear] *)
Definition aivm_program_clear : AivmProgram :=
  mk_program [] 0 AIVM_PROGRAM_INLINE_INSTRUCTIONS [] 0 AIVM_PROGRAM_INLINE_CONSTANTS
    0 0 0 [] [] [] [].

(** [aivm_program_release]: instructions, constants and catalog are freed. *)
Definition aivm_program_release (p : AivmProgram) : AivmProgram :=
  mk_program [] 0 0 [] 0 0 (format_version p) (format_flags p) (section_count p)
    (sections p) (string_storage p) (bytes_storage p) [].

Definition set_header (v f c : Z) (p : AivmProgram) : AivmProgram :=
  mk_program (instruction_store p) (instruction_count p) (instruction_capacity p)
    (constant_store p) (constant_count p) (constant_capacity p) v f c
    (sections p) (string_storage p) (bytes_storage p) (worker_catalog p).

Definition set_instructions (l : list AivmInstruction) (n cap : Z) (p : AivmProgram) : AivmProgram :=
  mk_program l n cap (constant_store p) (constant_count p) (constant_capacity p)
    (format_version p) (format_flags p) (section_count p)
    (sections p) (string_storage p) (bytes_storage p) (worker_catalog p).

Definition set_constants (l : list AivmValue) (n cap : Z) (p : AivmProgram) : AivmProgram :=
  mk_program (instruction_store p) (instruction_count p) (instruction_capacity p) l n cap
    (format_version p) (format_flags p) (section_count p)
    (sections p) (string_storage p) (bytes_storage p) (worker_catalog p).

Definition set_storage (s b : list Z) (p : AivmProgram) : AivmProgram :=
  mk_program (instruction_store p) (instruction_count p) (instruction_capacity p)
    (constant_store p) (constant_count p) (constant_capacity p)
    (format_version p) (format_flags p) (section_count p) (sections p) s b (worker_catalog p).

Definition set_sections (l : list AivmProgramSection) (p : AivmProgram) : AivmProgram :=
  mk_program (instruction_store p) (instruction_count p) (instruction_capacity p)
    (constant_store p) (constant_count p) (constant_capacity p)
    (format_version p) (format_flags p) (section_count p) l
    (string_storage p) (bytes_storage p) (worker_catalog p).

Definition set_catalog (l : list AivmWorkerCatalogEntry) (p : AivmProgram) : AivmProgram :=
  mk_program (instruction_store p) (instruction_count p) (instruction_capacity p)
    (constant_store p) (constant_count p) (constant_capacity p)
    (format_version p) (format_flags p) (section_count p)
    (sections p) (string_storage p) (bytes_storage p) l.

(** ** Little-endian reads; [None] is a read outside the buffer *)

Definition read_u32_le (bytes : list Z) (offset : Z) : option Z :=
  b0 ← zget bytes offset; b1 ← zget bytes (offset + 1);
  b2 ← zget bytes (offset + 2); b3 ← zget bytes (offset + 3);
  Some (Z.lor (Z.lor (Z.lor b0 (u32 (Z.shiftl b1 8))) (u32 (Z.shiftl b2 16)))
          (u32 (Z.shiftl b3 24))).

Definition read_u64_le (bytes : list Z) (offset : Z) : option Z :=
  low ← read_u32_le bytes offset; high ← read_u32_le bytes (offset + 4);
  Some (Z.lor low (u64 (Z.shiftl high 32))).

Definition read_i64_le (bytes : list Z) (offset : Z) : option Z :=
  w ← read_u64_le bytes offset; Some (i64_of_u64 w).

(** The [memcpy] of a 64-bit word into a [double]. *)
Definition double_of_bits (w : Z) : spec_float :=
  let s := Z.testbit w 63 in
  let e := Z.land (Z.shiftr w 52) 2047 in
  let m := Z.land w (2 ^ 52 - 1) in
  if e =? 2047 then if m =? 0 then S754_infinity s else S754_nan
  else if e =? 0 then
    match m with Zpos q => S754_finite s q (-1074) | _ => S754_zero s end
  else match m + 2 ^ 52 with Zpos q => S754_finite s q (e - 1075) | _ => S754_zero s end.

(** The [memcpy] of a [double] into a 64-bit word; all NaNs are the default one. *)
Definition bits_of_double (d : spec_float) : Z :=
  let sign (s : bool) := if s then 2 ^ 63 else 0 in
  match d with
  | S754_zero s => sign s
  | S754_infinity s => sign s + 2047 * 2 ^ 52
  | S754_nan => 4095 * 2 ^ 51
  | S754_finite s m e => if Z.pos m <? 2 ^ 52 then sign s + Z.pos m else sign s + (e + 1075) * 2 ^ 52 + (Z.pos m - 2 ^ 52)
  end.

Definition read_f64_le (bytes : list Z) (offset : Z) : option spec_float :=
  w ← read_u64_le bytes offset; Some (double_of_bits w).

Definition slice (bytes : list Z) (offset length : Z) : list Z := ztake length (zdrop offset bytes).

(** A block read [bytes[offset..offset+length)]. *)
Definition read_block (bytes : list Z) (offset length : Z) : option (list Z) :=
  if (0 <=? offset) && (0 <=? length) && (offset + length <=? zlen bytes)
  then Some (slice bytes offset length) else None.

(** ** Storage writes; [None] is a write outside the storage *)

(** [instructions_mutable(program)[index] = i], in increasing order of index. *)
Definition write_instruction (p : AivmProgram) (index : Z) (i : AivmInstruction)
    : option AivmProgram :=
  if (index <? instruction_capacity p) && (index =? zlen (instruction_store p))
  then Some (set_instructions (instruction_store p ++ [i]) (instruction_count p)
               (instruction_capacity p) p)
  else None.

Definition write_constant (p : AivmProgram) (index : Z) (v : AivmValue) : option AivmProgram :=
  if (index <? constant_capacity p) && (index =? zlen (constant_store p))
  then Some (set_constants (constant_store p ++ [v]) (constant_count p) (constant_capacity p) p)
  else None.

(** [write_string_constant]: [Some None] is the return of 0. *)
Definition write_string_constant (p : AivmProgram) (index : Z) (data : list Z)
    : option (option AivmProgram) :=
  let base := zlen (string_storage p) in
  match aivm_size_add_checked base (zlen data) with
  | None => Some None
  | Some n0 =>
      match aivm_size_add_checked n0 1 with
      | None => Some None
      | Some needed =>
          if AIVM_PROGRAM_MAX_STRING_BYTES <? needed then Some None
          else
            p' ← write_constant (set_storage (string_storage p ++ data ++ [0]) (bytes_storage p) p)
                   index (VString (SProgram base));
            Some (Some p')
      end
  end.

(** [write_bytes_constant] *)
Definition write_bytes_constant (p : AivmProgram) (index : Z) (data : list Z)
    : option (option AivmProgram) :=
  let base := zlen (bytes_storage p) in
  match aivm_size_add_checked base (zlen data) with
  | None => Some None
  | Some needed =>
      if AIVM_PROGRAM_MAX_BYTES_STORAGE <? needed then Some None
      else
        p' ← write_constant (set_storage (string_storage p) (bytes_storage p ++ data) p)
               index (VBytes (BProgram base) (zlen data));
        Some (Some p')
  end.

(** ** Worker identity *)

Definition identity_seed : list Z :=
  [2166136261; 2246822519; 3266489917; 668265263; 374761393; 1274126177; 42595009; 2048419325].

(** One byte mixed into the eight lanes. *)
Definition identity_mix (state : list Z) (value : Z) : list Z :=
  imap (fun lane s => u32 (u32 (u32 (s * 16777619) + value) + Z.of_nat lane)) state.

Definition le32_bytes (w : Z) : list Z :=
  [u8 w; u8 (Z.shiftr w 8); u8 (Z.shiftr w 16); u8 (Z.shiftr w 24)].

Definition aivm_worker_identity (target caps abi version : Z) (artifact : list Z) : list Z :=
  let header := flat_map le32_bytes [target; caps; abi; version] in
  flat_map le32_bytes (foldl identity_mix identity_seed (header ++ artifact)).

(** ** The loader *)

(** The result of a load: the program structure left behind, status, offset. *)
Definition load_result : Type := AivmProgram * AivmProgramStatus * Z.

(** A part of the loader either goes on or returns from the function. *)
Inductive flow (A : Type) :=
  | Next (a : A) (tick : nat)
  | Return (r : load_result) (tick : nat).
Arguments Next {A} a tick.
Arguments Return {A} r tick.

(** [constant_load_error] *)
Definition constant_load_error (p : AivmProgram) (st : AivmProgramStatus) (offset : Z)
    : load_result := (aivm_program_release p, st, offset).

Section Loader.

Context (host_alloc : nat -> Z -> bool).

(** [aivm_program_instructions_reserve]; the answer of [calloc] is asked only
    above the inline capacity. *)
Definition aivm_program_instructions_reserve (p : AivmProgram) (count : Z) (tick : nat)
    : option AivmProgram * nat :=
  if count <=? AIVM_PROGRAM_INLINE_INSTRUCTIONS
  then (Some (set_instructions (instruction_store p) (instruction_count p)
                AIVM_PROGRAM_INLINE_INSTRUCTIONS p), tick)
  else if SIZE_MAX / SIZEOF_INSTRUCTION <? count then (None, tick)
  else if host_alloc tick (count * SIZEOF_INSTRUCTION)
  then (Some (set_instructions [] (instruction_count p) count p), S tick)
  else (None, S tick).

Definition aivm_program_constants_reserve (p : AivmProgram) (count : Z) (tick : nat)
    : option AivmProgram * nat :=
  if count <=? AIVM_PROGRAM_INLINE_CONSTANTS
  then (Some (set_constants (constant_store p) (constant_count p)
                AIVM_PROGRAM_INLINE_CONSTANTS p), tick)
  else if SIZE_MAX / SIZEOF_VALUE <? count then (None, tick)
  else if host_alloc tick (count * SIZEOF_VALUE)
  then (Some (set_constants [] (constant_count p) count p), S tick)
  else (None, S tick).

(** The instruction loop. *)
Fixpoint load_instructions (fuel : nat) (bytes : list Z) (count index cursor : Z)
    (p : AivmProgram) (tick : nat) : option (flow AivmProgram) :=
  match fuel with
  | O => None
  | S fuel' =>
      if count <=? index then Some (Next p tick)
      else
        raw_opcode ← read_u32_le bytes cursor;
        operand ← read_i64_le bytes (cursor + 4);
        match opcode_of_Z raw_opcode with
        | None => Some (Return (p, AIVM_PROGRAM_ERR_INVALID_OPCODE, cursor) tick)
        | Some op =>
            p' ← write_instruction p index (mk_instruction op operand);
            load_instructions fuel' bytes count (index + 1) (cursor + 12) p' tick
        end
  end.

Definition load_instruction_section (bytes : list Z) (start size : Z) (seen : bool)
    (p : AivmProgram) (tick : nat) : option (flow AivmProgram) :=
  if seen then Some (Return (p, AIVM_PROGRAM_ERR_INVALID_SECTION, start) tick)
  else if size <? 4 then Some (Return (p, AIVM_PROGRAM_ERR_INVALID_SECTION, start) tick)
  else
    count ← read_u32_le bytes start;
    let expected :=
      match size_mul_checked count 12 with
      | None => None
      | Some n => aivm_size_add_checked 4 n
      end in
    if negb (bool_decide (expected = Some size))
    then Some (Return (p, AIVM_PROGRAM_ERR_INVALID_SECTION, start) tick)
    else
      match aivm_program_instructions_reserve p count tick with
      | (None, tick') => Some (Return (constant_load_error p AIVM_PROGRAM_ERR_MEMORY start) tick')
      | (Some p1, tick') =>
          r ← load_instructions (S (length bytes)) bytes count 0 (start + 4) p1 tick';
          match r with
          | Return res tick'' => Some (Return res tick'')
          | Next p2 tick'' =>
              Some (Next (set_instructions (instruction_store p2) count
                            (instruction_capacity p2) p2) tick'')
          end
      end.

(** [size_add_checked(cursor, n, &next) && next <= section_end] *)
Definition fits (cursor n section_end : Z) : bool :=
  match aivm_size_add_checked cursor n with
  | None => false
  | Some next => next <=? section_end
  end.

(** One constant: the new program and the cursor behind the constant, or the
    status and offset of the [constant_load_error] it returns. *)
Definition load_constant (bytes : list Z) (section_end index cursor0 : Z) (p : AivmProgram)
    : option (AivmProgram * Z + AivmProgramStatus * Z) :=
  if section_end <=? cursor0 then Some (inr (AIVM_PROGRAM_ERR_INVALID_SECTION, cursor0))
  else
    kind ← zget bytes cursor0;
    let cursor := cursor0 + 1 in
    let invalid := Some (inr (AIVM_PROGRAM_ERR_INVALID_SECTION, cursor)) in
    if kind =? 1 then
      if negb (fits cursor 8 section_end) then invalid
      else i ← read_i64_le bytes cursor; p' ← write_constant p index (VInt i);
           Some (inl (p', cursor + 8))
    else if kind =? 7 then
      if negb (fits cursor 8 section_end) then invalid
      else d ← read_f64_le bytes cursor; p' ← write_constant p index (VNumber d);
           Some (inl (p', cursor + 8))
    else if kind =? 2 then
      if negb (fits cursor 1 section_end) then invalid
      else b ← zget bytes cursor; p' ← write_constant p index (VBool (negb (b =? 0)));
           Some (inl (p', cursor + 1))
    else if kind =? 6 then
      p' ← write_constant p index VNull; Some (inl (p', cursor))
    else if kind =? 3 then
      if negb (fits cursor 4 section_end) then invalid
      else
        length ← read_u32_le bytes cursor;
        let data_cursor := cursor + 4 in
        let limit := Some (inr (AIVM_PROGRAM_ERR_STRING_LIMIT, data_cursor)) in
        if negb (fits data_cursor length section_end)
        then Some (inr (AIVM_PROGRAM_ERR_INVALID_SECTION, data_cursor))
        else
          let needed := match aivm_size_add_checked (zlen (string_storage p)) length with
                        | None => None | Some n => aivm_size_add_checked n 1 end in
          match needed with
          | None => limit
          | Some n =>
              if AIVM_PROGRAM_MAX_STRING_BYTES <? n then limit
              else
                data ← read_block bytes data_cursor length;
                r ← write_string_constant p index data;
                match r with
                | None => limit
                | Some p' => Some (inl (p', data_cursor + length))
                end
          end
    else if kind =? 4 then
      p' ← write_constant p index VVoid; Some (inl (p', cursor))
    else if kind =? 5 then
      if negb (fits cursor 4 section_end) then invalid
      else
        length ← read_u32_le bytes cursor;
        let data_cursor := cursor + 4 in
        let limit := Some (inr (AIVM_PROGRAM_ERR_STRING_LIMIT, data_cursor)) in
        if negb (fits data_cursor length section_end)
        then Some (inr (AIVM_PROGRAM_ERR_INVALID_SECTION, data_cursor))
        else
          match aivm_size_add_checked (zlen (bytes_storage p)) length with
          | None => limit
          | Some n =>
              if AIVM_PROGRAM_MAX_BYTES_STORAGE <? n then limit
              else
                data ← read_block bytes data_cursor length;
                r ← write_bytes_constant p index data;
                match r with
                | None => limit
                | Some p' => Some (inl (p', data_cursor + length))
                end
          end
    else Some (inr (AIVM_PROGRAM_ERR_INVALID_CONSTANT, cursor - 1)).

(** The constant loop; the result carries the final cursor. *)
Fixpoint load_constants (fuel : nat) (bytes : list Z) (section_end count index cursor : Z)
    (p : AivmProgram) (tick : nat) : option (flow (AivmProgram * Z)) :=
  match fuel with
  | O => None
  | S fuel' =>
      if count <=? index then Some (Next (p, cursor) tick)
      else
        r ← load_constant bytes section_end index cursor p;
        match r with
        | inr (st, offset) => Some (Return (constant_load_error p st offset) tick)
        | inl (p', cursor') =>
            load_constants fuel' bytes section_end count (index + 1) cursor' p' tick
        end
  end.

Definition load_constant_section (bytes : list Z) (start size section_end : Z) (seen : bool)
    (p : AivmProgram) (tick : nat) : option (flow AivmProgram) :=
  if seen then Some (Return (p, AIVM_PROGRAM_ERR_INVALID_SECTION, start) tick)
  else if size <? 4 then Some (Return (p, AIVM_PROGRAM_ERR_INVALID_SECTION, start) tick)
  else
    count ← read_u32_le bytes start;
    match aivm_program_constants_reserve p count tick with
    | (None, tick') => Some (Return (p, AIVM_PROGRAM_ERR_MEMORY, start) tick')
    | (Some p1, tick') =>
        r ← load_constants (S (length bytes)) bytes section_end count 0 (start + 4) p1 tick';
        match r with
        | Return res tick'' => Some (Return res tick'')
        | Next (p2, cursor) tick'' =>
            if negb (cursor =? section_end)
            then Some (Return (constant_load_error p2 AIVM_PROGRAM_ERR_INVALID_SECTION cursor) tick'')
            else Some (Next (set_constants (constant_store p2) count (constant_capacity p2) p2) tick'')
        end
    end.

(** ** The worker catalog, given the loader of the embedded artifacts *)

Section Nested.

Context (load_nested : list Z -> nat -> option (load_result * nat)).

(** One entry of [aivm_worker_catalog_load]: the entry and the cursor behind
    its artifact, or the status returned after releasing the catalog. *)
Definition load_catalog_entry (bytes : list Z) (cursor0 : Z) (tick : nat)
    : option ((AivmWorkerCatalogEntry * Z + AivmWorkerCatalogStatus) * nat) :=
  let byte_count := zlen bytes in
  if (byte_count <? cursor0) || (byte_count - cursor0 <? 52)
  then Some (inr AIVM_WORKER_CATALOG_ERR_FORMAT, tick)
  else
    target ← read_u32_le bytes cursor0;
    caps ← read_u32_le bytes (cursor0 + 4);
    abi ← read_u32_le bytes (cursor0 + 8);
    version ← read_u32_le bytes (cursor0 + 12);
    length ← read_u32_le bytes (cursor0 + 16);
    ident ← read_block bytes (cursor0 + 20) 32;
    let cursor := cursor0 + 52 in
    if byte_count - cursor <? length then Some (inr AIVM_WORKER_CATALOG_ERR_FORMAT, tick)
    else if negb (abi =? 1) then Some (inr AIVM_WORKER_CATALOG_ERR_ABI, tick)
    else if negb (Z.land caps 4294901760 =? 0) then Some (inr AIVM_WORKER_CATALOG_ERR_CAPABILITY, tick)
    else
      data ← read_block bytes cursor length;
      if negb (bool_decide (aivm_worker_identity target caps abi version data = ident))
      then Some (inr AIVM_WORKER_CATALOG_ERR_IDENTITY, tick)
      else if negb (host_alloc tick (if length =? 0 then 1 else length))
      then Some (inr AIVM_WORKER_CATALOG_ERR_MEMORY, S tick)
      else
        r ← load_nested data (S tick);
        let '(worker_program, status, _, tick') := r in
        if negb (bool_decide (status = AIVM_PROGRAM_OK)) || negb (format_version worker_program =? version)
        then Some (inr AIVM_WORKER_CATALOG_ERR_ARTIFACT, tick')
        else if instruction_count worker_program <=? target
        then Some (inr AIVM_WORKER_CATALOG_ERR_FUNCTION, tick')
        else Some (inl (mk_entry target caps abi version ident data, cursor + length), tick').

Fixpoint load_catalog_entries (n : nat) (bytes : list Z) (cursor : Z) (tick : nat)
    : option ((list AivmWorkerCatalogEntry * Z + AivmWorkerCatalogStatus) * nat) :=
  match n with
  | O => Some (inl ([], cursor), tick)
  | S n' =>
      r ← load_catalog_entry bytes cursor tick;
      match r with
      | (inr st, tick') => Some (inr st, tick')
      | (inl (e, cursor'), tick') =>
          rest ← load_catalog_entries n' bytes cursor' tick';
          match rest with
          | (inr st, tick'') => Some (inr st, tick'')
          | (inl (es, cursor''), tick'') => Some (inl (e :: es, cursor''), tick'')
          end
      end
  end.

(** [aivm_worker_catalog_load]: the catalog left behind (empty on every error)
    and the status. *)
Definition aivm_worker_catalog_load (bytes : list Z) (tick : nat)
    : option (list AivmWorkerCatalogEntry * AivmWorkerCatalogStatus * nat) :=
  if zlen bytes <? 4 then Some ([], AIVM_WORKER_CATALOG_ERR_FORMAT, tick)
  else
    count ← read_u32_le bytes 0;
    if AIVM_WORKER_CATALOG_MAX_ENTRIES <? count then Some ([], AIVM_WORKER_CATALOG_ERR_LIMIT, tick)
    else if count =? 0 then
      Some ([], (if zlen bytes =? 4 then AIVM_WORKER_CATALOG_OK
                 else AIVM_WORKER_CATALOG_ERR_FORMAT), tick)
    else if negb (host_alloc tick (count * SIZEOF_CATALOG_ENTRY))
    then Some ([], AIVM_WORKER_CATALOG_ERR_MEMORY, S tick)
    else
      r ← load_catalog_entries (Z.to_nat count) bytes 4 (S tick);
      match r with
      | (inr st, tick') => Some ([], st, tick')
      | (inl (es, cursor), tick') =>
          if negb (cursor =? zlen bytes) then Some ([], AIVM_WORKER_CATALOG_ERR_FORMAT, tick')
          else Some (es, AIVM_WORKER_CATALOG_OK, tick')
      end.

Definition load_catalog_section (bytes : list Z) (start size : Z) (seen : bool)
    (p : AivmProgram) (tick : nat) : option (flow AivmProgram) :=
  if seen
  then Some (Return (constant_load_error p AIVM_PROGRAM_ERR_INVALID_SECTION start) tick)
  else
    payload ← read_block bytes start size;
    r ← aivm_worker_catalog_load payload tick;
    let '(catalog, status, tick') := r in
    if negb (bool_decide (status = AIVM_WORKER_CATALOG_OK))
    then Some (Return (constant_load_error (set_catalog catalog p)
                         AIVM_PROGRAM_ERR_WORKER_CATALOG start) tick')
    else Some (Next (set_catalog catalog p) tick').

(** [sections[section_index] = x]: the array has 32 elements. *)
Definition write_section (l : list AivmProgramSection) (x : AivmProgramSection) : option (list AivmProgramSection) :=
  if zlen l <? AIVM_PROGRAM_MAX_SECTIONS then Some (l ++ [x]) else None.

(** The section loop; [n] counts the sections left. *)
Fixpoint load_sections (n : nat) (bytes : list Z) (cursor0 : Z)
    (has_instruction has_constants has_catalog : bool) (p : AivmProgram) (tick : nat)
    : option (load_result * nat) :=
  match n with
  | O => Some (p, AIVM_PROGRAM_OK, 0, tick)
  | S n' =>
      if negb (fits cursor0 8 (zlen bytes))
      then Some (p, AIVM_PROGRAM_ERR_TRUNCATED, cursor0, tick)
      else
        type ← read_u32_le bytes cursor0;
        size ← read_u32_le bytes (cursor0 + 4);
        let start := cursor0 + 8 in
        if negb (fits start size (zlen bytes))
        then Some (p, AIVM_PROGRAM_ERR_SECTION_OOB, start, tick)
        else
          written ← write_section (sections p) (mk_section type size (u32 start));
          let p1 := set_sections written p in
          let section_end := start + size in
          r ← (if type =? 1 then load_instruction_section bytes start size has_instruction p1 tick
               else if type =? 2
               then load_constant_section bytes start size section_end has_constants p1 tick
               else if type =? 3 then load_catalog_section bytes start size has_catalog p1 tick
               else Some (Next p1 tick));
          match r with
          | Return res tick' => Some (res, tick')
          | Next p2 tick' =>
              load_sections n' bytes section_end (has_instruction || (type =? 1))
                (has_constants || (type =? 2)) (has_catalog || (type =? 3)) p2 tick'
          end
  end.

(** [aivm_program_load_aibc1] on a non-NULL buffer. *)
Definition load_body (bytes : list Z) (tick : nat) : option (load_result * nat) :=
  let p := aivm_program_clear in
  if zlen bytes <? 16 then Some (p, AIVM_PROGRAM_ERR_TRUNCATED, zlen bytes, tick)
  else
    b0 ← zget bytes 0; b1 ← zget bytes 1; b2 ← zget bytes 2; b3 ← zget bytes 3;
    if negb ((b0 =? 65) && (b1 =? 73) && (b2 =? 66) && (b3 =? 67))
    then Some (p, AIVM_PROGRAM_ERR_BAD_MAGIC, 0, tick)
    else
      version ← read_u32_le bytes 4;
      flags ← read_u32_le bytes 8;
      count ← read_u32_le bytes 12;
      let p1 := set_header version flags count p in
      if negb (version =? 2) then Some (p1, AIVM_PROGRAM_ERR_UNSUPPORTED, 4, tick)
      else if AIVM_PROGRAM_MAX_SECTIONS <? count
      then Some (p1, AIVM_PROGRAM_ERR_SECTION_LIMIT, 12, tick)
      else load_sections (Z.to_nat count) bytes 16 false false false p1 tick.

End Nested.

(** The nesting of artifacts inside artifacts: an artifact is shorter than the
    file that holds it, so the file length bounds the depth. *)
Fixpoint load_fuel (depth : nat) (bytes : list Z) (tick : nat) : option (load_result * nat) :=
  match depth with
  | O => None
  | S depth' => load_body (load_fuel depth') bytes tick
  end.

Definition aivm_program_load_aibc1 (bytes : option (list Z)) (tick : nat)
    : option (load_result * nat) :=
  match bytes with
  | None => Some (aivm_program_clear, AIVM_PROGRAM_ERR_NULL, 0, tick)
  | Some bytes => load_fuel (S (length bytes)) bytes tick
  end.

End Loader.

Definition aivm_program_status_code (st : AivmProgramStatus) : string :=
  match st with
  | AIVM_PROGRAM_OK => "AIVMP000" | AIVM_PROGRAM_ERR_NULL => "AIVMP001"
  | AIVM_PROGRAM_ERR_TRUNCATED => "AIVMP002" | AIVM_PROGRAM_ERR_BAD_MAGIC => "AIVMP003"
  | AIVM_PROGRAM_ERR_UNSUPPORTED => "AIVMP004" | AIVM_PROGRAM_ERR_SECTION_OOB => "AIVMP005"
  | AIVM_PROGRAM_ERR_SECTION_LIMIT => "AIVMP006" | AIVM_PROGRAM_ERR_INSTRUCTION_LIMIT => "AIVMP007"
  | AIVM_PROGRAM_ERR_INVALID_SECTION => "AIVMP008" | AIVM_PROGRAM_ERR_INVALID_OPCODE => "AIVMP009"
  | AIVM_PROGRAM_ERR_CONSTANT_LIMIT => "AIVMP010" | AIVM_PROGRAM_ERR_INVALID_CONSTANT => "AIVMP011"
  | AIVM_PROGRAM_ERR_STRING_LIMIT => "AIVMP012" | AIVM_PROGRAM_ERR_MEMORY => "AIVMP013"
  | AIVM_PROGRAM_ERR_WORKER_CATALOG => "AIVMP014"
  end.
