(* ===== verification/LoaderSafety.v ===== *)
(** * Safety of the bytecode loader

    Every read and write of the loader of Program.v is in bounds, the nesting
    depth is enough, and an accepted file satisfies the container's rules. *)

From S2P Require Import Prelude Types Program.
From Stdlib Require Import SpecFloat.

(** ** Reads *)

Lemma zget_byte bytes i b : bytes_ok bytes -> zget bytes i = Some b -> is_byte b.
Proof.
  intros Hb H. pose proof (zget_Some_bounds _ _ _ H). rewrite zget_lookup in H by lia.
  by apply (Forall_lookup_1 _ _ _ _ Hb H).
Qed.

Lemma read_byte_ok bytes o :
  bytes_ok bytes -> 0 <= o < zlen bytes -> exists b, zget bytes o = Some b /\ is_byte b.
Proof.
  intros Hb Ho. destruct (zget_is_Some bytes o Ho) as [b E]. exists b. eauto using zget_byte.
Qed.

Lemma le32_word b0 b1 b2 b3 :
  is_byte b0 -> is_byte b1 -> is_byte b2 -> is_byte b3 ->
  Z.lor (Z.lor (Z.lor b0 (u32 (Z.shiftl b1 8))) (u32 (Z.shiftl b2 16))) (u32 (Z.shiftl b3 24))
  = b0 + b1 * 256 + b2 * 65536 + b3 * 16777216.
Proof.
  unfold is_byte, u32. intros.
  rewrite !Z.mod_small by (rewrite Z.shiftl_mul_pow2; lia).
  rewrite (Z.lor_comm b0), (lor_shiftl_add b1 b0 8) by lia.
  rewrite Z.lor_comm, <- (Z.lor_comm (Z.shiftl b2 16)), (lor_shiftl_add b2 _ 16) by lia.
  rewrite lor_shiftl_add by lia. lia.
Qed.

Lemma read_u32_ok bytes o :
  bytes_ok bytes -> 0 <= o -> o + 4 <= zlen bytes ->
  exists w, read_u32_le bytes o = Some w /\ 0 <= w < 2 ^ 32.
Proof.
  intros Hb H0 H1. unfold read_u32_le.
  destruct (read_byte_ok bytes o Hb) as (b0 & -> & ?); [lia|].
  destruct (read_byte_ok bytes (o + 1) Hb) as (b1 & -> & ?); [lia|].
  destruct (read_byte_ok bytes (o + 2) Hb) as (b2 & -> & ?); [lia|].
  destruct (read_byte_ok bytes (o + 3) Hb) as (b3 & -> & ?); [lia|].
  cbn [mbind option_bind]. eexists. split; [reflexivity|].
  rewrite le32_word by done. unfold is_byte in *. lia.
Qed.

Lemma read_u64_ok bytes o :
  bytes_ok bytes -> 0 <= o -> o + 8 <= zlen bytes ->
  exists w, read_u64_le bytes o = Some w /\ 0 <= w < 2 ^ 64.
Proof.
  intros Hb H0 H1. unfold read_u64_le.
  destruct (read_u32_ok bytes o Hb) as (l & -> & ?); [lia..|].
  destruct (read_u32_ok bytes (o + 4) Hb) as (h & -> & ?); [lia..|].
  cbn [mbind option_bind]. eexists. split; [reflexivity|].
  unfold u64. rewrite Z.mod_small by (rewrite Z.shiftl_mul_pow2; lia).
  rewrite Z.lor_comm, lor_shiftl_add by lia. lia.
Qed.

Lemma read_i64_ok bytes o :
  bytes_ok bytes -> 0 <= o -> o + 8 <= zlen bytes ->
  exists i, read_i64_le bytes o = Some i /\ is_int64 i.
Proof.
  intros Hb H0 H1. unfold read_i64_le.
  destruct (read_u64_ok bytes o Hb) as (w & -> & ?); [lia..|]. cbn [mbind option_bind].
  eexists. split; [reflexivity|]. unfold i64_of_u64, is_int64, INT64_MIN, INT64_MAX.
  bdestruct_all; lia.
Qed.

Lemma digits2_pos_bound q n : (Zpos q < 2 ^ Z.pos n) -> (digits2_pos q <= n)%positive.
Proof.
  revert n. induction q as [q IH|q IH|]; intros n H; cbn [digits2_pos].
  - destruct (Pos.eq_dec n 1) as [->|Hn]; [lia|].
    assert (digits2_pos q <= Pos.pred n)%positive; [|lia]. apply IH.
    replace (Z.pos n) with (Z.pos (Pos.pred n) + 1) in H by lia.
    rewrite Z.pow_add_r in H by lia. lia.
  - destruct (Pos.eq_dec n 1) as [->|Hn]; [lia|].
    assert (digits2_pos q <= Pos.pred n)%positive; [|lia]. apply IH.
    replace (Z.pos n) with (Z.pos (Pos.pred n) + 1) in H by lia.
    rewrite Z.pow_add_r in H by lia. lia.
  - lia.
Qed.

Lemma digits2_pos_lower q n : (2 ^ Z.pos n <= Zpos q) -> (n < digits2_pos q)%positive.
Proof.
  revert n. induction q as [q IH|q IH|]; intros n H; cbn [digits2_pos].
  - destruct (Pos.eq_dec n 1) as [->|Hn]; [lia|].
    assert (Pos.pred n < digits2_pos q)%positive; [|lia]. apply IH.
    replace (Z.pos n) with (Z.pos (Pos.pred n) + 1) in H by lia.
    rewrite Z.pow_add_r in H by lia. lia.
  - destruct (Pos.eq_dec n 1) as [->|Hn]; [lia|].
    assert (Pos.pred n < digits2_pos q)%positive; [|lia]. apply IH.
    replace (Z.pos n) with (Z.pos (Pos.pred n) + 1) in H by lia.
    rewrite Z.pow_add_r in H by lia. lia.
  - assert (2 <= 2 ^ Z.pos n); [|lia]. apply (Z.pow_le_mono_r 2 1 (Z.pos n)); lia.
Qed.

(** Every 64-bit word reads as a well-formed binary64. *)
Lemma double_of_bits_valid w : valid_binary 53 1024 (double_of_bits w) = true.
Proof.
  unfold double_of_bits. set (e := Z.land (Z.shiftr w 52) 2047). set (m := Z.land w (2 ^ 52 - 1)).
  assert (He : 0 <= e < 2048) by (unfold e; change 2047 with (2 ^ 11 - 1); rewrite land_ones_mod by lia; mlia).
  assert (Hm : 0 <= m < 2 ^ 52) by (unfold m; rewrite land_ones_mod by lia; apply Z.mod_pos_bound; lia).
  clearbody e m. destruct (Z.eqb_spec e 2047); [by destruct (m =? 0)|].
  destruct (Z.eqb_spec e 0).
  - destruct m as [|q|q]; [done| |lia]. cbn [valid_binary]. unfold bounded, canonical_mantissa, fexp, emin.
    pose proof (digits2_pos_bound q 52). lia.
  - destruct (m + 2 ^ 52) as [|q|q] eqn:E; [lia| |lia]. cbn [valid_binary].
    unfold bounded, canonical_mantissa, fexp, emin.
    pose proof (digits2_pos_bound q 53). pose proof (digits2_pos_lower q 52).
    assert (digits2_pos q = 53%positive) as -> by lia. lia.
Qed.

Lemma read_f64_ok bytes o :
  bytes_ok bytes -> 0 <= o -> o + 8 <= zlen bytes ->
  exists d, read_f64_le bytes o = Some d /\ valid_binary 53 1024 d = true.
Proof.
  intros Hb H0 H1. unfold read_f64_le.
  destruct (read_u64_ok bytes o Hb) as (w & -> & ?); [lia..|]. cbn [mbind option_bind].
  eexists. split; [reflexivity|]. apply double_of_bits_valid.
Qed.

Lemma read_block_ok bytes o n :
  0 <= o -> 0 <= n -> o + n <= zlen bytes ->
  read_block bytes o n = Some (slice bytes o n) /\ zlen (slice bytes o n) = n.
Proof.
  intros. unfold read_block. replace (_ && _) with true by lia. split; [done|].
  unfold slice. apply zlen_ztake. rewrite zlen_zdrop by lia. lia.
Qed.

Lemma slice_bytes_ok bytes o n : bytes_ok bytes -> bytes_ok (slice bytes o n).
Proof. intros. by apply Forall_take, Forall_drop. Qed.

Lemma fits_true c n e : 0 <= c -> 0 <= n -> fits c n e = true -> c + n <= e.
Proof.
  intros ? ?. unfold fits. destruct (aivm_size_add_checked c n) eqn:E; [|done].
  apply size_add_checked_Some in E. lia.
Qed.

Lemma caps_mask caps : 0 <= caps < 2 ^ 32 -> Z.land caps 4294901760 = 0 -> 0 <= caps < 2 ^ 16.
Proof.
  intros Hr H. change 4294901760 with (Z.shiftl (2 ^ 16 - 1) 16) in H.
  assert (Hs : Z.shiftr (Z.land caps (Z.shiftl (2 ^ 16 - 1) 16)) 16 = 0) by (by rewrite H).
  rewrite Z.shiftr_land, Z.shiftr_shiftl_l, Z.sub_diag, Z.shiftl_0_r, land_ones_mod in Hs by lia.
  rewrite Z.shiftr_div_pow2 in Hs by lia. change (2 ^ 16) with 65536 in *. change (2 ^ 32) with 4294967296 in *.
  mlia.
Qed.

(** ** Well-formed programs *)

(** A constant refers to live program storage: strings are NUL-terminated
    inside it, byte views lie inside it. *)
Definition constant_ok (p : AivmProgram) (v : AivmValue) : Prop :=
  match v with
  | VInt i => is_int64 i
  | VNumber d => valid_binary 53 1024 d = true
  | VBool _ | VNull | VVoid => True
  | VString (SProgram off) => 0 <= off /\ 0 ∈ zdrop off (string_storage p)
  | VBytes (BProgram off) len => 0 <= off /\ 0 <= len /\ off + len <= zlen (bytes_storage p)
  | _ => False
  end.

Record program_inv (p : AivmProgram) : Prop := {
  inv_instr_cap : zlen (instruction_store p) <= instruction_capacity p;
  inv_instr_operands : Forall (fun i => is_int64 (operand_int i)) (instruction_store p);
  inv_const_cap : zlen (constant_store p) <= constant_capacity p;
  inv_constants : Forall (constant_ok p) (constant_store p);
  inv_strings : zlen (string_storage p) <= AIVM_PROGRAM_MAX_STRING_BYTES;
  inv_bytes : zlen (bytes_storage p) <= AIVM_PROGRAM_MAX_BYTES_STORAGE }.

(** What the instruction and the constant sections leave alone. *)
Definition outer (p : AivmProgram) :=
  (format_version p, section_count p, sections p, worker_catalog p).
Definition rest_c (p : AivmProgram) :=
  (instruction_store p, instruction_count p, instruction_capacity p, constant_count p, outer p).
Definition rest_i (p : AivmProgram) :=
  (constant_store p, constant_count p, constant_capacity p, instruction_count p, outer p).

Lemma program_inv_clear : program_inv aivm_program_clear.
Proof. by split; cbn. Qed.

Lemma program_inv_release p : program_inv p -> program_inv (aivm_program_release p).
Proof. intros []. by split; cbn. Qed.

(** The string and byte stores only grow, so constants stay well formed. *)
Lemma constant_ok_grow p p' s b v :
  string_storage p' = string_storage p ++ s -> bytes_storage p' = bytes_storage p ++ b ->
  constant_ok p v -> constant_ok p' v.
Proof.
  intros Hs Hb. destruct v as [| | | | |[]|[]| | | | | | | | |]; cbn; try done; rewrite ?Hs, ?Hb.
  - intros [H0 H1]. split; [done|]. unfold zdrop in *. 
    apply list_elem_of_lookup in H1 as [i Hi]. apply list_elem_of_lookup. exists i.
    rewrite lookup_drop in *. by apply lookup_app_l_Some.
  - rewrite zlen_app. pose proof (zlen_nonneg b). lia.
Qed.

Lemma write_constant_ok p index v :
  program_inv p -> index = zlen (constant_store p) -> index < constant_capacity p ->
  constant_ok p v ->
  exists p', write_constant p index v = Some p' /\ program_inv p' /\
    zlen (constant_store p') = index + 1 /\ constant_capacity p' = constant_capacity p /\
    rest_c p' = rest_c p.
Proof.
  intros [] -> Hcap Hv. unfold write_constant. replace (_ && _) with true by lia.
  eexists. split; [done|]. split; [|cbn; rewrite zlen_app; done].
  split; cbn; try done.
  - rewrite zlen_app. change (zlen [v]) with 1. lia.
  - apply Forall_app. split; [done|]. by constructor.
Qed.

(** ** Loader steps *)

Lemma write_string_constant_ok p index data :
  program_inv p -> index = zlen (constant_store p) -> index < constant_capacity p ->
  zlen (string_storage p) + zlen data + 1 <= AIVM_PROGRAM_MAX_STRING_BYTES ->
  exists p', write_string_constant p index data = Some (Some p') /\ program_inv p' /\
    zlen (constant_store p') = index + 1 /\ constant_capacity p' = constant_capacity p /\
    rest_c p' = rest_c p.
Proof.
  intros Hinv Hi Hcap Hlen. unfold write_string_constant, aivm_size_add_checked.
  pose proof (zlen_nonneg (string_storage p)). pose proof (zlen_nonneg data).
  assert (AIVM_PROGRAM_MAX_STRING_BYTES + 10 <= SIZE_MAX) by done.
  repeat match goal with |- context [?a <? ?b] => destruct (Z.ltb_spec a b); [lia|] end.
  set (p0 := set_storage _ _ p).
  assert (Hinv0 : program_inv p0).
  { destruct Hinv. split; try done; cbn.
    - eapply Forall_impl; [done|]. intros v. by apply (constant_ok_grow p p0 (data ++ [0]) []); rewrite ?app_nil_r.
    - rewrite !zlen_app. change (zlen [0]) with 1. lia. }
  destruct (write_constant_ok p0 index (VString (SProgram (zlen (string_storage p)))) Hinv0)
    as (p' & -> & Hp'); [done..| |by eauto].
  cbn. split; [lia|]. unfold zdrop, zlen. rewrite Nat2Z.id, drop_app_length.
  apply elem_of_app. right. by left.
Qed.

Lemma write_bytes_constant_ok p index data :
  program_inv p -> index = zlen (constant_store p) -> index < constant_capacity p ->
  zlen (bytes_storage p) + zlen data <= AIVM_PROGRAM_MAX_BYTES_STORAGE ->
  exists p', write_bytes_constant p index data = Some (Some p') /\ program_inv p' /\
    zlen (constant_store p') = index + 1 /\ constant_capacity p' = constant_capacity p /\
    rest_c p' = rest_c p.
Proof.
  intros Hinv Hi Hcap Hlen. unfold write_bytes_constant, aivm_size_add_checked.
  pose proof (zlen_nonneg (bytes_storage p)). pose proof (zlen_nonneg data).
  assert (AIVM_PROGRAM_MAX_BYTES_STORAGE + 10 <= SIZE_MAX) by done.
  repeat match goal with |- context [?a <? ?b] => destruct (Z.ltb_spec a b); [lia|] end.
  set (p0 := set_storage _ _ p).
  assert (Hinv0 : program_inv p0).
  { destruct Hinv. split; try done; cbn.
    - eapply Forall_impl; [done|]. intros v. by apply (constant_ok_grow p p0 [] data); rewrite ?app_nil_r.
    - rewrite !zlen_app. lia. }
  destruct (write_constant_ok p0 index (VBytes (BProgram (zlen (bytes_storage p))) (zlen data)) Hinv0)
    as (p' & -> & Hp'); [done..| |by eauto].
  cbn. rewrite zlen_app. lia.
Qed.

(** What one step of the constant loop guarantees. *)
Definition constant_step_ok (section_end index cursor : Z) (p : AivmProgram)
    (r : option (AivmProgram * Z + AivmProgramStatus * Z)) : Prop :=
  match r with
  | None => False
  | Some (inr (st, _)) => st <> AIVM_PROGRAM_OK
  | Some (inl (p', cursor')) =>
      program_inv p' /\ cursor < cursor' <= section_end /\
      zlen (constant_store p') = index + 1 /\ constant_capacity p' = constant_capacity p /\
      rest_c p' = rest_c p
  end.

Section Steps.

Context (bytes : list Z) (Hbytes : bytes_ok bytes).

Lemma load_constant_ok section_end index cursor p :
  program_inv p -> index = zlen (constant_store p) -> index < constant_capacity p ->
  0 <= cursor -> section_end <= zlen bytes ->
  constant_step_ok section_end index cursor p (load_constant bytes section_end index cursor p).
Proof.
  intros Hinv Hi Hcap Hcur Hend. unfold load_constant.
  destruct (Z.leb_spec section_end cursor); [done|].
  destruct (read_byte_ok bytes cursor Hbytes) as (kind & -> & _); [lia|]. cbn [mbind option_bind].
  assert (Hwrite : forall v k, constant_ok p v -> 0 <= k -> cursor + 1 + k <= section_end ->
    constant_step_ok section_end index cursor p
      (p' ← write_constant p index v; Some (inl (p', cursor + 1 + k)))).
  { intros v k Hv Hk Hfit. destruct (write_constant_ok p index v Hinv Hi Hcap Hv)
      as (p' & -> & ? & ? & ? & ?). cbn. split_and!; done || lia. }
  assert (Hwrite0 : forall v, constant_ok p v ->
    constant_step_ok section_end index cursor p
      (p' ← write_constant p index v; Some (inl (p', cursor + 1)))).
  { intros v Hv. destruct (write_constant_ok p index v Hinv Hi Hcap Hv)
      as (p' & -> & ? & ? & ? & ?). cbn. split_and!; done || lia. }
  destruct (Z.eqb_spec kind 1).
  { destruct (fits (cursor + 1) 8 section_end) eqn:E; [|done]. apply fits_true in E; [|lia..].
    destruct (read_i64_ok bytes (cursor + 1) Hbytes) as (i & -> & ?); [lia..|].
    by apply Hwrite. }
  destruct (Z.eqb_spec kind 7).
  { destruct (fits (cursor + 1) 8 section_end) eqn:E; [|done]. apply fits_true in E; [|lia..].
    destruct (read_f64_ok bytes (cursor + 1) Hbytes) as (i & -> & ?); [lia..|].
    by apply Hwrite. }
  destruct (Z.eqb_spec kind 2).
  { destruct (fits (cursor + 1) 1 section_end) eqn:E; [|done]. apply fits_true in E; [|lia..].
    destruct (read_byte_ok bytes (cursor + 1) Hbytes) as (i & -> & ?); [lia..|].
    by apply Hwrite. }
  destruct (Z.eqb_spec kind 6); [by apply Hwrite0|].
  destruct (Z.eqb_spec kind 3).
  { destruct (fits (cursor + 1) 4 section_end) eqn:E; [|done]. apply fits_true in E; [|lia..].
    destruct (read_u32_ok bytes (cursor + 1) Hbytes) as (len & -> & ?); [lia..|]. cbn [negb mbind option_bind].
    destruct (fits (cursor + 1 + 4) len section_end) eqn:E2; [|done]. apply fits_true in E2; [|lia..].
    cbn [negb]. destruct (aivm_size_add_checked (zlen (string_storage p)) len) as [m0|] eqn:En0; [|done].
    destruct (aivm_size_add_checked m0 1) as [m|] eqn:En; [|done].
    apply size_add_checked_Some in En0 as [_ ->], En as [_ ->].
    destruct (Z.ltb_spec AIVM_PROGRAM_MAX_STRING_BYTES (zlen (string_storage p) + len + 1)); [done|].
    destruct (read_block_ok bytes (cursor + 1 + 4) len) as [-> Hl]; [lia..|]. cbn [mbind option_bind].
    destruct (write_string_constant_ok p index (slice bytes (cursor + 1 + 4) len) Hinv Hi Hcap)
      as (p' & -> & ? & ? & ? & ?); [lia|]. cbn. split_and!; done || lia. }
  destruct (Z.eqb_spec kind 4); [by apply Hwrite0|].
  destruct (Z.eqb_spec kind 5); [|done].
  destruct (fits (cursor + 1) 4 section_end) eqn:E; [|done]. apply fits_true in E; [|lia..].
  destruct (read_u32_ok bytes (cursor + 1) Hbytes) as (len & -> & ?); [lia..|]. cbn [negb mbind option_bind].
  destruct (fits (cursor + 1 + 4) len section_end) eqn:E2; [|done]. apply fits_true in E2; [|lia..].
  cbn [negb]. destruct (aivm_size_add_checked (zlen (bytes_storage p)) len) as [m|] eqn:En; [|done].
  apply size_add_checked_Some in En as [_ ->].
  destruct (Z.ltb_spec AIVM_PROGRAM_MAX_BYTES_STORAGE (zlen (bytes_storage p) + len)); [done|].
  destruct (read_block_ok bytes (cursor + 1 + 4) len) as [-> Hl]; [lia..|]. cbn [mbind option_bind].
  destruct (write_bytes_constant_ok p index (slice bytes (cursor + 1 + 4) len) Hinv Hi Hcap)
    as (p' & -> & ? & ? & ? & ?); [lia|]. cbn. split_and!; done || lia.
Qed.

(** The result of a section: an early return is an error and leaves a sound
    program; otherwise the section was stored completely. *)
Definition flow_ok {A} (Q : A -> Prop) (r : option (flow A)) : Prop :=
  match r with
  | None => False
  | Some (Return (p, st, _) _) => program_inv p /\ st <> AIVM_PROGRAM_OK
  | Some (Next a _) => Q a
  end.

Lemma load_constants_ok section_end count : section_end <= zlen bytes ->
  forall fuel index cursor p tick,
  program_inv p -> index = zlen (constant_store p) -> index <= count <= constant_capacity p ->
  0 <= cursor <= section_end -> section_end < cursor + Z.of_nat fuel ->
  flow_ok (fun '(p', _) => program_inv p' /\ zlen (constant_store p') = count /\
             rest_c p' = rest_c p)
    (load_constants fuel bytes section_end count index cursor p tick).
Proof.
  intros Hend. induction fuel as [|fuel IH]; intros index cursor p tick Hinv Hi Hcount Hcur Hfuel; [lia|].
  cbn [load_constants]. destruct (Z.leb_spec count index).
  { cbn. split_and!; done || lia. }
  pose proof (load_constant_ok section_end index cursor p Hinv Hi ltac:(lia) ltac:(lia) Hend) as Hs.
  destruct (load_constant bytes section_end index cursor p) as [[[p' c']|[st off]]|]; cbn in Hs |- *; [| |done].
  - destruct Hs as (? & ? & ? & ? & Hst). rewrite <- Hst.
    apply IH; done || lia.
  - split; [by apply program_inv_release|done].
Qed.

Lemma load_instructions_ok count start : 
  start + 12 * count <= zlen bytes ->
  forall fuel index p tick, program_inv p ->
  index = zlen (instruction_store p) -> index <= count <= instruction_capacity p -> 0 <= start ->
  count < index + Z.of_nat fuel ->
  flow_ok (fun p' => program_inv p' /\ zlen (instruction_store p') = count /\
             rest_i p' = rest_i p)
    (load_instructions fuel bytes count index (start + 12 * index) p tick).
Proof.
  intros Hend. induction fuel as [|fuel IH]; intros index p tick Hinv Hi Hcount Hst Hfuel; [lia|].
  pose proof (zlen_nonneg (instruction_store p)).
  cbn [load_instructions]. destruct (Z.leb_spec count index); [cbn; split_and!; done || lia|].
  destruct (read_u32_ok bytes (start + 12 * index) Hbytes) as (raw & -> & _); [lia..|].
  destruct (read_i64_ok bytes (start + 12 * index + 4) Hbytes) as (operand & -> & Hop); [lia..|].
  cbn [mbind option_bind]. destruct (opcode_of_Z raw) as [op|]; [|done].
  unfold write_instruction. replace (_ && _) with true by lia. cbn [mbind option_bind].
  set (p' := set_instructions _ _ _ p).
  replace (start + 12 * index + 12) with (start + 12 * (index + 1)) by lia.
  assert (Hlen : zlen (instruction_store p') = index + 1) by (cbn; rewrite zlen_app, <- Hi; done).
  change (rest_i p) with (rest_i p').
  apply IH; try done; try (cbn; lia).
  destruct Hinv. split; try done.
  - cbn in Hlen |- *. lia.
  - cbn. apply Forall_app. split; [done|]. by constructor.
Qed.

Context (host_alloc : nat -> Z -> bool).

(** The state of the section loop. *)
Record loop_inv (seen_i seen_c : bool) (p : AivmProgram) : Prop := {
  li_inv : program_inv p;
  li_icount : instruction_count p = zlen (instruction_store p);
  li_ccount : constant_count p = zlen (constant_store p);
  li_i : seen_i = false -> instruction_store p = [];
  li_c : seen_c = false -> constant_store p = [] }.

Lemma load_instruction_section_ok start size seen seen_c p tick :
  loop_inv seen seen_c p -> 0 <= start -> start + size <= zlen bytes ->
  flow_ok (fun p' => loop_inv true seen_c p' /\ outer p' = outer p)
    (load_instruction_section host_alloc bytes start size seen p tick).
Proof.
  intros Hli Hst Hend. pose proof (li_inv _ _ _ Hli) as Hinv. unfold load_instruction_section.
  destruct seen; [done|]. destruct (Z.ltb_spec size 4); [done|].
  destruct (read_u32_ok bytes start Hbytes) as (count & -> & Hcount); [lia..|]. cbn [mbind option_bind].
  case_bool_decide as Hexp; [|done]. cbn [negb].
  assert (Hsize : size = 4 + count * 12).
  { destruct (size_mul_checked count 12) as [m|] eqn:Em; [|done].
    apply size_mul_checked_Some in Em as [_ ->]; [|lia..].
    apply size_add_checked_Some in Hexp. lia. }
  pose proof (li_i _ _ _ Hli eq_refl) as Hnil.
  assert (Hres : forall p1 t, program_inv p1 -> instruction_store p1 = [] -> count <= instruction_capacity p1 ->
    rest_i p1 = rest_i p ->
    flow_ok (fun p' => loop_inv true seen_c p' /\ outer p' = outer p)
     (r ← load_instructions (S (length bytes)) bytes count 0 (start + 4) p1 t;
          match r with
          | Return res tick'' => Some (Return res tick'')
          | Next p2 tick'' =>
              Some (Next (set_instructions (instruction_store p2) count
                            (instruction_capacity p2) p2) tick'')
          end)).
  { intros p1 t Hinv1 Hnil1 Hcap1 Hrest.
    pose proof (load_instructions_ok count (start + 4) ltac:(lia) (S (length bytes)) 0 p1 t) as Hl.
    rewrite Hnil1, Z.add_0_r in Hl. 
    unfold zlen in Hend. specialize (Hl Hinv1 eq_refl ltac:(lia) ltac:(lia) ltac:(lia)).
    destruct (load_instructions _ _ _ _ _ _ _) as [[p2 t2|[[p2 st] off] t2]|]; cbn in Hl |- *; [|done|done].
    destruct Hl as (Hinv2 & Hlen2 & Hrest2). rewrite Hrest in Hrest2. injection Hrest2 as E1 E2 E3 E4 E5 E6 E7 E8.
    destruct Hli. split; [split|]; try done; cbn.
    - destruct Hinv2. by split.
    - congruence.
    - rewrite E1. done. 
    - unfold outer; cbn; congruence. }
  unfold aivm_program_instructions_reserve.
  destruct (Z.leb_spec count AIVM_PROGRAM_INLINE_INSTRUCTIONS).
  { apply Hres; try done. destruct Hinv. split; cbn; try done. by rewrite Hnil. }
  destruct (SIZE_MAX / SIZEOF_INSTRUCTION <? count).
  { split; [by apply program_inv_release|done]. }
  destruct (host_alloc tick (count * SIZEOF_INSTRUCTION)).
  - apply Hres; try done. destruct Hinv. split; cbn; try done. change (0 <= count). lia.
  - split; [by apply program_inv_release|done].
Qed.

Lemma load_constant_section_ok start size seen seen_i p tick :
  loop_inv seen_i seen p -> 0 <= start -> start + size <= zlen bytes ->
  flow_ok (fun p' => loop_inv seen_i true p' /\ outer p' = outer p)
    (load_constant_section host_alloc bytes start size (start + size) seen p tick).
Proof.
  intros Hli Hst Hend. pose proof (li_inv _ _ _ Hli) as Hinv. unfold load_constant_section.
  destruct seen; [done|]. destruct (Z.ltb_spec size 4); [done|].
  destruct (read_u32_ok bytes start Hbytes) as (count & -> & Hcount); [lia..|]. cbn [mbind option_bind].
  pose proof (li_c _ _ _ Hli eq_refl) as Hnil.
  assert (Hres : forall p1 t, program_inv p1 -> constant_store p1 = [] -> count <= constant_capacity p1 ->
    rest_c p1 = rest_c p ->
    flow_ok (fun p' => loop_inv seen_i true p' /\ outer p' = outer p)
     (r ← load_constants (S (length bytes)) bytes (start + size) count 0 (start + 4) p1 t;
          match r with
          | Return res tick'' => Some (Return res tick'')
          | Next (p2, cursor) tick'' =>
            if negb (cursor =? start + size)
            then Some (Return (constant_load_error p2 AIVM_PROGRAM_ERR_INVALID_SECTION cursor) tick'')
            else Some (Next (set_constants (constant_store p2) count (constant_capacity p2) p2) tick'')
          end)).
  { intros p1 t Hinv1 Hnil1 Hcap1 Hrest.
    pose proof (load_constants_ok (start + size) count ltac:(lia) (S (length bytes)) 0 (start + 4) p1 t) as Hl.
    rewrite Hnil1 in Hl. unfold zlen in Hend.
    specialize (Hl Hinv1 eq_refl ltac:(lia) ltac:(lia) ltac:(lia)).
    destruct (load_constants _ _ _ _ _ _ _ _) as [[[p2 c2] t2|[[p2 st] off] t2]|]; cbn in Hl |- *; [|done|done].
    destruct Hl as (Hinv2 & Hlen2 & Hrest2).
    destruct (negb (c2 =? start + size)); cbn.
    { split; [by apply program_inv_release|done]. }
    rewrite Hrest in Hrest2. injection Hrest2 as E1 E2 E3 E4 E5 E6 E7 E8.
    destruct Hli. split; [split|]; try done; cbn.
    - destruct Hinv2. by split.
    - congruence.
    - by rewrite E1.
    - unfold outer; cbn; congruence. }
  unfold aivm_program_constants_reserve.
  destruct (Z.leb_spec count AIVM_PROGRAM_INLINE_CONSTANTS).
  { apply Hres; try done. destruct Hinv. split; cbn; try done. by rewrite Hnil. }
  destruct (SIZE_MAX / SIZEOF_VALUE <? count); [done|].
  destruct (host_alloc tick (count * SIZEOF_VALUE)); [|done].
  apply Hres; try done. destruct Hinv. split; cbn; try done. change (0 <= count). lia.
Qed.

(** ** The catalog *)

(** An accepted entry: the recorded identity is that of its fields and artifact,
    the artifact loads and the entry point is an instruction of it. *)
Definition entry_ok (nested : list Z -> nat -> option (load_result * nat))
    (e : AivmWorkerCatalogEntry) : Prop :=
  transport_abi e = 1 /\ 0 <= required_capabilities e < 2 ^ 16 /\
  identity e = aivm_worker_identity (function_target e) (required_capabilities e)
                 (transport_abi e) (bytecode_version e) (artifact e) /\
  exists t wp off t',
    nested (artifact e) t = Some (wp, AIVM_PROGRAM_OK, off, t') /\
    format_version wp = bytecode_version e /\ function_target e < instruction_count wp.

End Steps.

Section CatalogSafety.

Context (host_alloc : nat -> Z -> bool).

Definition nested_loader : Type := list Z -> nat -> option (load_result * nat).

(** Two artifact loaders that agree below a length. *)
Definition agree_below (n : nat) (f g : nested_loader) : Prop :=
  forall data t, bytes_ok data -> (length data < n)%nat -> f data t = g data t.

(** A loader that answers on every well-formed input below a length. *)
Definition answers_below (n : nat) (f : nested_loader) : Prop :=
  forall data t, bytes_ok data -> (length data < n)%nat -> exists r, f data t = Some r.

Lemma read_block_shorter bytes o n data :
  0 < o -> read_block bytes o n = Some data -> (length data < length bytes)%nat.
Proof.
  intros Ho. unfold read_block. destruct ((0 <=? o) && (0 <=? n) && (o + n <=? zlen bytes)) eqn:E; [|done].
  intros [= <-]. unfold slice, ztake, zdrop, zlen in *. rewrite length_take, length_drop. lia.
Qed.

Lemma read_block_bytes_ok bytes o n data :
  bytes_ok bytes -> read_block bytes o n = Some data -> bytes_ok data.
Proof.
  intros Hb. unfold read_block. case_match; [|done]. intros [= <-]. by apply slice_bytes_ok.
Qed.

Lemma load_catalog_entry_ext f g bytes cursor tick :
  bytes_ok bytes -> agree_below (length bytes) f g -> 0 <= cursor ->
  load_catalog_entry host_alloc f bytes cursor tick = load_catalog_entry host_alloc g bytes cursor tick.
Proof.
  intros Hb Hag Hc. unfold load_catalog_entry. case_match; [done|].
  repeat (apply option_bind_ext_fun; intros ?).
  repeat (case_match; [done|]). 
  destruct (read_block bytes (cursor + 52) _) as [data|] eqn:E; [|done]. cbn [mbind option_bind].
  pose proof (read_block_bytes_ok _ _ _ _ Hb E).
  apply read_block_shorter in E; [|lia].
  by rewrite (Hag data) by done.
Qed.

Ltac refuse := do 2 eexists; split; [reflexivity|discriminate].

(** One catalog entry: no access outside the payload, and what is accepted. *)
Lemma load_catalog_entry_ok f bytes cursor tick :
  bytes_ok bytes -> answers_below (length bytes) f -> 0 <= cursor ->
  exists r t, load_catalog_entry host_alloc f bytes cursor tick = Some (r, t) /\
    match r with
    | inr st => st <> AIVM_WORKER_CATALOG_OK
    | inl (e, cursor') => entry_ok f e /\ cursor <= cursor'
    end.
Proof.
  intros Hb Hans Hc. unfold load_catalog_entry.
  destruct ((zlen bytes <? cursor) || (zlen bytes - cursor <? 52)) eqn:Eg; [refuse|].
  destruct (read_u32_ok bytes cursor Hb) as (target & -> & ?); [lia..|].
  destruct (read_u32_ok bytes (cursor + 4) Hb) as (caps & -> & Hcaps); [lia..|].
  destruct (read_u32_ok bytes (cursor + 8) Hb) as (abi & -> & ?); [lia..|].
  destruct (read_u32_ok bytes (cursor + 12) Hb) as (version & -> & ?); [lia..|].
  destruct (read_u32_ok bytes (cursor + 16) Hb) as (len & -> & ?); [lia..|].
  destruct (read_block_ok bytes (cursor + 20) 32) as [-> _]; [lia..|]. cbn [mbind option_bind].
  destruct (Z.ltb_spec (zlen bytes - (cursor + 52)) len); [refuse|].
  destruct (Z.eqb_spec abi 1) as [->|]; [|refuse]. cbn [negb].
  destruct (Z.eqb_spec (Z.land caps 4294901760) 0) as [Hm|]; [|refuse]. cbn [negb].
  pose proof (caps_mask caps Hcaps Hm) as Hcaps16.
  destruct (read_block_ok bytes (cursor + 52) len) as [Hrd _]; [lia..|].
  pose proof (read_block_shorter bytes (cursor + 52) len _ ltac:(lia) Hrd) as Hshort. rewrite Hrd. cbn [mbind option_bind].
  set (data := slice bytes (cursor + 52) len) in *.
  case_bool_decide as Hid; [|refuse]. cbn [negb].
  destruct (host_alloc tick _); [|refuse]. cbn [negb].
  destruct (Hans data (S tick)) as ([[[wp st] off] t'] & Hload); [by apply slice_bytes_ok|done|].
  rewrite Hload. cbn [mbind option_bind].
  case_bool_decide as Hst; [subst st|refuse]. cbn [negb orb].
  destruct (Z.eqb_spec (format_version wp) version); [|refuse]. cbn [negb].
  destruct (Z.leb_spec (instruction_count wp) target); [refuse|].
  do 2 eexists. split; [done|]. split; [|lia]. unfold entry_ok. cbn [transport_abi required_capabilities identity function_target bytecode_version artifact].
  split_and!; [done|lia|lia|done|].
  by exists (S tick), wp, off, t'.
Qed.

Lemma load_catalog_entries_ok f bytes : bytes_ok bytes -> answers_below (length bytes) f ->
  forall n cursor tick, 0 <= cursor ->
  exists r t, load_catalog_entries host_alloc f n bytes cursor tick = Some (r, t) /\
    match r with
    | inr st => st <> AIVM_WORKER_CATALOG_OK
    | inl (es, _) => Forall (entry_ok f) es
    end.
Proof.
  intros Hb Hans. induction n as [|n IH]; intros cursor tick Hc; cbn [load_catalog_entries].
  { do 2 eexists. split; [reflexivity|constructor]. }
  destruct (load_catalog_entry_ok f bytes cursor tick Hb Hans Hc) as ([[e c']|st] & t & -> & Hr);
    cbn [mbind option_bind]; [|do 2 eexists; split; [reflexivity|exact Hr]].
  destruct Hr as [He Hcur].
  destruct (IH c' t ltac:(lia)) as ([[es c'']|st] & t' & -> & Hr'); cbn [mbind option_bind];
    do 2 eexists; (split; [reflexivity|]); [by constructor|exact Hr'].
Qed.

Lemma load_catalog_entries_ext f g bytes :
  bytes_ok bytes -> agree_below (length bytes) f g -> answers_below (length bytes) f ->
  forall n cursor tick, 0 <= cursor ->
  load_catalog_entries host_alloc f n bytes cursor tick = load_catalog_entries host_alloc g n bytes cursor tick.
Proof.
  intros Hb Hag Hans. induction n as [|n IH]; intros cursor tick Hc; [done|]. cbn [load_catalog_entries].
  rewrite <- (load_catalog_entry_ext f g) by done.
  destruct (load_catalog_entry_ok f bytes cursor tick Hb Hans Hc) as ([[e c']|st] & t & -> & Hr);
    cbn [mbind option_bind]; [|done].
  by rewrite IH by lia.
Qed.

Lemma aivm_worker_catalog_load_ok f bytes tick :
  bytes_ok bytes -> answers_below (length bytes) f ->
  exists es st t, aivm_worker_catalog_load host_alloc f bytes tick = Some (es, st, t) /\
    Forall (entry_ok f) es.
Proof.
  intros Hb Hans. unfold aivm_worker_catalog_load.
  destruct (Z.ltb_spec (zlen bytes) 4); [by do 3 eexists; split; [reflexivity|]|].
  destruct (read_u32_ok bytes 0 Hb) as (count & -> & ?); [lia..|]. cbn [mbind option_bind].
  do 3 (case_match; [by do 3 eexists; split; [reflexivity|]|]).
  destruct (load_catalog_entries_ok f bytes Hb Hans (Z.to_nat count) 4 (S tick) ltac:(lia))
    as ([[es c]|st] & t & -> & Hr); cbn [mbind option_bind]; [|by do 3 eexists; split; [reflexivity|]].
  case_match; by do 3 eexists; split; [reflexivity|].
Qed.

Lemma aivm_worker_catalog_load_ext f g bytes tick :
  bytes_ok bytes -> agree_below (length bytes) f g -> answers_below (length bytes) f ->
  aivm_worker_catalog_load host_alloc f bytes tick = aivm_worker_catalog_load host_alloc g bytes tick.
Proof.
  intros Hb Hag Hans. unfold aivm_worker_catalog_load.
  case_match; [done|]. apply option_bind_ext_fun. intros count.
  do 3 (case_match; [done|]). by rewrite (load_catalog_entries_ext f g) by (done || lia).
Qed.

Lemma read_block_length bytes o n data :
  read_block bytes o n = Some data -> (length data <= length bytes)%nat.
Proof.
  unfold read_block. case_match; [|done]. intros [= <-].
  unfold slice, ztake, zdrop. rewrite length_take, length_drop. lia.
Qed.

Lemma answers_below_le n m f : (m <= n)%nat -> answers_below n f -> answers_below m f.
Proof. intros Hle H data t Hb Hl. apply H; [done|lia]. Qed.

Lemma agree_below_le n m f g : (m <= n)%nat -> agree_below n f g -> agree_below m f g.
Proof. intros Hle H data t Hb Hl. apply H; [done|lia]. Qed.

(** A loaded catalog section. *)
Lemma load_catalog_section_ok f bytes start size seen si sc p tick :
  bytes_ok bytes -> answers_below (length bytes) f ->
  loop_inv si sc p -> 0 <= start -> 0 <= size -> start + size <= zlen bytes ->
  flow_ok (fun p' => loop_inv si sc p' /\ Forall (entry_ok f) (worker_catalog p') /\
             (format_version p', section_count p', sections p') = (format_version p, section_count p, sections p))
    (load_catalog_section host_alloc f bytes start size seen p tick).
Proof.
  intros Hb Hans Hli Hst Hsz Hend. pose proof (li_inv _ _ _ Hli) as Hinv. unfold load_catalog_section.
  destruct seen. { split; [by apply program_inv_release|done]. }
  destruct (read_block_ok bytes start size) as [Hrd _]; [done..|].
  rewrite Hrd. cbn [mbind option_bind]. apply read_block_length in Hrd.
  destruct (aivm_worker_catalog_load_ok f (slice bytes start size) tick) as (es & st & t & -> & Hes).
  { by apply slice_bytes_ok. } { by eapply answers_below_le. }
  cbn [mbind option_bind].
  assert (Hinv' : program_inv (set_catalog es p)) by (destruct Hinv; by split).
  case_bool_decide; cbn.
  - split; [|done]. by destruct Hli.
  - split; [by apply program_inv_release|done].
Qed.

Lemma load_catalog_section_ext f g bytes start size seen p tick :
  bytes_ok bytes -> agree_below (length bytes) f g -> answers_below (length bytes) f ->
  load_catalog_section host_alloc f bytes start size seen p tick =
  load_catalog_section host_alloc g bytes start size seen p tick.
Proof.
  intros Hb Hag Hans. unfold load_catalog_section. destruct seen; [done|].
  destruct (read_block bytes start size) as [data|] eqn:E; cbn [mbind option_bind]; [|reflexivity].
  pose proof (read_block_length _ _ _ _ E).
  rewrite (aivm_worker_catalog_load_ext f g); [done| |by eapply agree_below_le|by eapply answers_below_le].
  by eapply read_block_bytes_ok.
Qed.

(** ** The whole loader *)

(** A section entry describes a range of the file (its offset field is the
    32-bit truncation of the position). *)
Definition section_ok (bytes : list Z) (s : AivmProgramSection) : Prop :=
  0 <= section_size s /\
  exists start, section_offset s = u32 start /\ 24 <= start /\ start + section_size s <= zlen bytes.

Record program_complete (f : nested_loader) (bytes : list Z) (p : AivmProgram) : Prop := {
  pc_version : format_version p = 2;
  pc_icount : instruction_count p = zlen (instruction_store p);
  pc_ccount : constant_count p = zlen (constant_store p);
  pc_scount : section_count p = zlen (sections p) /\ section_count p <= AIVM_PROGRAM_MAX_SECTIONS;
  pc_sections : Forall (section_ok bytes) (sections p);
  pc_catalog : Forall (entry_ok f) (worker_catalog p) }.

Definition result_ok (f : nested_loader) (bytes : list Z) (r : option (load_result * nat)) : Prop :=
  match r with
  | None => False
  | Some (p, st, _, _) => program_inv p /\ (st = AIVM_PROGRAM_OK -> program_complete f bytes p)
  end.

Lemma result_ok_Return {A} f bytes (Q : A -> Prop) (r : flow A) :
  flow_ok Q (Some r) ->
  match r with Return res t => result_ok f bytes (Some (res, t)) | Next a _ => Q a end.
Proof. destruct r as [a t|[[p st] off] t]; cbn; [done|]. intros [H1 H2]. by split. Qed.

Lemma load_sections_ok f bytes : bytes_ok bytes -> answers_below (length bytes) f ->
  forall n cursor si sc sw p tick,
  loop_inv si sc p -> Forall (entry_ok f) (worker_catalog p) -> Forall (section_ok bytes) (sections p) ->
  format_version p = 2 -> section_count p <= AIVM_PROGRAM_MAX_SECTIONS ->
  zlen (sections p) + Z.of_nat n = section_count p -> 16 <= cursor ->
  result_ok f bytes (load_sections host_alloc f n bytes cursor si sc sw p tick).
Proof.
  intros Hb Hans. induction n as [|n IH]; intros cursor si sc sw p tick Hli Hcat Hsec Hv Hmax Hn Hc;
    cbn [load_sections].
  { destruct Hli. split; [done|]. intros _. split; try done. lia. }
  destruct (fits cursor 8 (zlen bytes)) eqn:E1; cbn [negb]; [|by destruct Hli].
  apply fits_true in E1; [|lia..].
  destruct (read_u32_ok bytes cursor Hb) as (type & -> & _); [lia..|].
  destruct (read_u32_ok bytes (cursor + 4) Hb) as (size & -> & Hsize); [lia..|]. cbn [mbind option_bind].
  destruct (fits (cursor + 8) size (zlen bytes)) eqn:E2; cbn [negb]; [|by destruct Hli].
  apply fits_true in E2; [|lia..].
  unfold write_section. rewrite (proj2 (Z.ltb_lt _ _)) by lia. cbn [mbind option_bind].
  set (p1 := set_sections _ p).
  assert (Hli1 : loop_inv si sc p1) by (destruct Hli as [[] ? ? ? ?]; by repeat split).
  assert (Hsec1 : Forall (section_ok bytes) (sections p1)).
  { cbn. apply Forall_app. split; [done|]. constructor; [|done]. split; cbn; [lia|].
    exists (cursor + 8). split; [done|]. lia. }
  assert (Hn1 : zlen (sections p1) + Z.of_nat n = section_count p1) by (cbn [p1 sections set_sections section_count]; rewrite zlen_app, zlen_cons, zlen_nil; lia).
  assert (Hnext : forall si' sc' sw' p2 t, loop_inv si' sc' p2 -> Forall (entry_ok f) (worker_catalog p2) ->
    (format_version p2, section_count p2, sections p2) = (format_version p1, section_count p1, sections p1) ->
    result_ok f bytes (load_sections host_alloc f n bytes (cursor + 8 + size) si' sc' sw' p2 t)).
  { intros si' sc' sw' p2 t ? ? [= Ea Eb Ec]. apply IH; try done; rewrite ?Ea, ?Eb, ?Ec; try done. lia. }
  destruct (Z.eqb_spec type 1) as [->|N1].
  { pose proof (load_instruction_section_ok bytes Hb host_alloc (cursor + 8) size si sc p1 tick Hli1) as H.
    destruct (load_instruction_section _ _ _ _ _ _ _) as [r|]; [|by apply H; lia].
    pose proof (result_ok_Return f bytes _ r (H ltac:(lia) ltac:(lia))) as Hr. cbn [mbind option_bind].
    destruct r as [p2 t|]; [|done]. destruct Hr as [Hl Ho].
    rewrite orb_true_r, !orb_false_r. apply Hnext; [done| |exact (f_equal fst Ho)].
    assert (worker_catalog p2 = worker_catalog p1) as -> by exact (f_equal snd Ho). done. }
  destruct (Z.eqb_spec type 2) as [->|N2].
  { pose proof (load_constant_section_ok bytes Hb host_alloc (cursor + 8) size sc si p1 tick Hli1) as H.
    destruct (load_constant_section _ _ _ _ _ _ _) as [r|]; [|by apply H; lia].
    pose proof (result_ok_Return f bytes _ r (H ltac:(lia) ltac:(lia))) as Hr. cbn [mbind option_bind].
    destruct r as [p2 t|]; [|done]. destruct Hr as [Hl Ho].
    rewrite orb_true_r, !orb_false_r. apply Hnext; [done| |exact (f_equal fst Ho)].
    assert (worker_catalog p2 = worker_catalog p1) as -> by exact (f_equal snd Ho). done. }
  rewrite !orb_false_r.
  destruct (Z.eqb_spec type 3) as [->|N3]; [|by apply Hnext].
  pose proof (load_catalog_section_ok f bytes (cursor + 8) size sw si sc p1 tick Hb Hans Hli1) as H.
  destruct (load_catalog_section _ _ _ _ _ _ _ _) as [r|]; [|by apply H; lia].
  pose proof (result_ok_Return f bytes _ r (H ltac:(lia) ltac:(lia) ltac:(lia))) as Hr. cbn [mbind option_bind].
  destruct r as [p2 t|]; [|done]. destruct Hr as (Hl & Hw & Ho). by apply Hnext.
Qed.

Lemma load_body_ok f bytes tick :
  bytes_ok bytes -> answers_below (length bytes) f ->
  result_ok f bytes (load_body host_alloc f bytes tick).
Proof.
  intros Hb Hans. unfold load_body. pose proof program_inv_clear.
  destruct (Z.ltb_spec (zlen bytes) 16); [done|].
  destruct (read_byte_ok bytes 0 Hb) as (b0 & -> & _); [lia|].
  destruct (read_byte_ok bytes 1 Hb) as (b1 & -> & _); [lia|].
  destruct (read_byte_ok bytes 2 Hb) as (b2 & -> & _); [lia|].
  destruct (read_byte_ok bytes 3 Hb) as (b3 & -> & _); [lia|]. cbn [mbind option_bind].
  case_match; [done|].
  destruct (read_u32_ok bytes 4 Hb) as (version & -> & _); [lia..|].
  destruct (read_u32_ok bytes 8 Hb) as (flags & -> & _); [lia..|].
  destruct (read_u32_ok bytes 12 Hb) as (count & -> & Hcount); [lia..|]. cbn [mbind option_bind].
  destruct (Z.eqb_spec version 2) as [->|]; cbn [negb]; [|done].
  destruct (Z.ltb_spec AIVM_PROGRAM_MAX_SECTIONS count); [done|].
  apply load_sections_ok; try done. cbn [sections section_count set_header aivm_program_clear].
  rewrite zlen_nil. lia.
Qed.

Lemma load_sections_ext f g bytes :
  bytes_ok bytes -> agree_below (length bytes) f g -> answers_below (length bytes) f ->
  forall n cursor si sc sw p tick,
  load_sections host_alloc f n bytes cursor si sc sw p tick =
  load_sections host_alloc g n bytes cursor si sc sw p tick.
Proof.
  intros Hb Hag Hans. induction n as [|n IH]; intros; [done|]. cbn [load_sections].
  case_match; [done|]. do 2 (apply option_bind_ext_fun; intros ?). case_match; [done|]. apply option_bind_ext_fun; intros ?.
  rewrite (load_catalog_section_ext f g) by done.
  apply option_bind_ext_fun. intros [p2 t|]; [apply IH|done].
Qed.

Lemma load_body_ext f g bytes tick :
  bytes_ok bytes -> agree_below (length bytes) f g -> answers_below (length bytes) f ->
  load_body host_alloc f bytes tick = load_body host_alloc g bytes tick.
Proof.
  intros Hb Hag Hans. unfold load_body. case_match; [done|].
  do 4 (apply option_bind_ext_fun; intros ?). case_match; [done|].
  do 3 (apply option_bind_ext_fun; intros ?). do 2 (case_match; [done|]).
  by apply load_sections_ext.
Qed.

End CatalogSafety.

Section Loading.

Context (host_alloc : nat -> Z -> bool).

Definition load_total (bytes : list Z) (tick : nat) : option (load_result * nat) :=
  aivm_program_load_aibc1 host_alloc (Some bytes) tick.

Lemma load_fuel_answers depth : answers_below depth (load_fuel host_alloc depth).
Proof.
  induction depth as [|depth IH]; intros bytes t Hb Hl; [lia|]. cbn [load_fuel].
  pose proof (load_body_ok host_alloc (load_fuel host_alloc depth) bytes t Hb) as H.
  destruct (load_body _ _ _ _) as [r|]; [by eexists|]. destruct H. eapply answers_below_le; [|done]. lia.
Qed.

Lemma load_fuel_agree d1 : forall d2, agree_below (min d1 d2) (load_fuel host_alloc d1) (load_fuel host_alloc d2).
Proof.
  induction d1 as [|d1 IH]; intros d2 bytes t Hb Hl; [lia|]. destruct d2 as [|d2]; [lia|].
  cbn [load_fuel]. apply load_body_ext; [done| |].
  - eapply agree_below_le; [|apply IH]. lia.
  - eapply answers_below_le; [|apply load_fuel_answers]. lia.
Qed.

(** The fuel is enough: the loader is the fixed point of its body. *)
Lemma load_total_unfold bytes tick :
  bytes_ok bytes -> load_total bytes tick = load_body host_alloc load_total bytes tick.
Proof.
  intros Hb. unfold load_total at 1, aivm_program_load_aibc1. cbn [load_fuel].
  apply load_body_ext; [done| |].
  - intros data t Hd Hl. unfold load_total, aivm_program_load_aibc1. apply load_fuel_agree; [done|]. lia.
  - apply load_fuel_answers.
Qed.

Lemma load_total_ok bytes tick : bytes_ok bytes -> result_ok load_total bytes (load_total bytes tick).
Proof.
  intros Hb. rewrite load_total_unfold by done. apply load_body_ok; [done|].
  intros data t Hd _. unfold load_total, aivm_program_load_aibc1.
  apply load_fuel_answers; [done|lia].
Qed.

End Loading.

(** C18: on every byte sequence and for every behaviour of the host
    allocator the loader returns: it never reads outside the file, never writes
    outside the section table or the instruction, constant, string or byte storage,
    never runs out of
    nesting depth, and the program it leaves keeps its stores within their
    capacities with every constant pointing into live storage. *)
Theorem program_load_safe host_alloc bytes tick :
  bytes_ok bytes ->
  exists p st offset tick',
    aivm_program_load_aibc1 host_alloc (Some bytes) tick = Some (p, st, offset, tick') /\
    program_inv p.
Proof.
  intros Hb. pose proof (load_total_ok host_alloc bytes tick Hb) as H. unfold load_total in H at 2.
  destruct (aivm_program_load_aibc1 _ _ _) as [[[[p st] off] t]|]; [|done].
  exists p, st, off, t. split; [done|apply H].
Qed.

Lemma program_load_safe_witness :
  bytes_ok [65; 73; 66; 67; 2; 0; 0; 0; 0; 0; 0; 0; 1; 0; 0; 0; 2] /\
  exists p st offset tick',
    aivm_program_load_aibc1 (fun _ _ => true)
      (Some [65; 73; 66; 67; 2; 0; 0; 0; 0; 0; 0; 0; 1; 0; 0; 0; 2]) 0 = Some (p, st, offset, tick') /\
    program_inv p.
Proof.
  assert (H : bytes_ok [65; 73; 66; 67; 2; 0; 0; 0; 0; 0; 0; 0; 1; 0; 0; 0; 2])
    by (repeat constructor; unfold is_byte; lia).
  split; [exact H|]. exact (program_load_safe _ _ 0%nat H).
Defined.

(** A file the loader accepts has format version 2, at most 32
    sections that all lie inside the file, counters that equal the number of
    loaded instructions and constants, and a worker catalog in which every entry
    has the bytes transport ABI, no reserved capability bit, the identity of its
    own content, and an artifact that the loader accepts, of the recorded version
    and with the entry point among its instructions. *)
Theorem program_load_complete host_alloc bytes tick p offset tick' :
  bytes_ok bytes ->
  aivm_program_load_aibc1 host_alloc (Some bytes) tick = Some (p, AIVM_PROGRAM_OK, offset, tick') ->
  program_complete (fun artifact => aivm_program_load_aibc1 host_alloc (Some artifact)) bytes p.
Proof.
  intros Hb Hl. pose proof (load_total_ok host_alloc bytes tick Hb) as H. unfold load_total in H at 2.
  rewrite Hl in H. by apply H.
Qed.

