(* ===== verification/LoaderFormat.v ===== *)
(** * The AIBC container format

    An encoder for the format the loader reads, and the round trip: what is
    encoded is what is loaded. *)

From S2P Require Import Prelude Types Program LoaderSafety.
From Stdlib Require Import SpecFloat.

(** ** The container format: an encoder and its round trip *)

Inductive const_spec :=
  | CInt (i : Z) | CNum (bits : Z) | CBool (b : bool) | CNull | CStr (data : list Z)
  | CVoid | CBytes (data : list Z).

Definition le64_bytes (w : Z) : list Z := le32_bytes (w mod 2 ^ 32) ++ le32_bytes (w / 2 ^ 32).

Definition encode_const (c : const_spec) : list Z :=
  match c with
  | CInt i => 1 :: le64_bytes (u64 i)
  | CNum w => 7 :: le64_bytes w
  | CBool b => [2; if b then 1 else 0]
  | CNull => [6]
  | CStr d => 3 :: le32_bytes (zlen d) ++ d
  | CVoid => [4]
  | CBytes d => 5 :: le32_bytes (zlen d) ++ d
  end.

Definition encode_instruction (i : AivmInstruction) : list Z :=
  le32_bytes (Z_of_opcode (opcode i)) ++ le64_bytes (u64 (operand_int i)).

Definition encode_section (type : Z) (payload : list Z) : list Z :=
  le32_bytes type ++ le32_bytes (zlen payload) ++ payload.

Definition encode_instructions (instrs : list AivmInstruction) : list Z :=
  le32_bytes (zlen instrs) ++ flat_map encode_instruction instrs.

Definition encode_constants (cs : list const_spec) : list Z :=
  le32_bytes (zlen cs) ++ flat_map encode_const cs.

Definition encode_program (flags : Z) (instrs : list AivmInstruction) (cs : list const_spec) : list Z :=
  [65; 73; 66; 67] ++ le32_bytes 2 ++ le32_bytes flags ++ le32_bytes 2
  ++ encode_section 1 (encode_instructions instrs) ++ encode_section 2 (encode_constants cs).

Definition const_spec_ok (c : const_spec) : Prop :=
  match c with
  | CInt i => is_int64 i
  | CNum w => 0 <= w < 2 ^ 64
  | CStr d | CBytes d => bytes_ok d
  | _ => True
  end.

Definition string_need (c : const_spec) : Z := match c with CStr d => zlen d + 1 | _ => 0 end.
Definition bytes_need (c : const_spec) : Z := match c with CBytes d => zlen d | _ => 0 end.

(** A loaded constant stands for a constant of the format. *)
Definition denotes (ss bs : list Z) (v : AivmValue) (c : const_spec) : Prop :=
  match c with
  | CInt i => v = VInt i
  | CNum w => v = VNumber (double_of_bits w)
  | CBool b => v = VBool b
  | CNull => v = VNull
  | CVoid => v = VVoid
  | CStr d => exists off, v = VString (SProgram off) /\ 0 <= off /\ slice ss off (zlen d + 1) = d ++ [0]
  | CBytes d => exists off, v = VBytes (BProgram off) (zlen d) /\ 0 <= off /\ slice bs off (zlen d) = d
  end.

Lemma zget_app_r {A} (pre d : list A) i : 0 <= i -> zget (pre ++ d) (zlen pre + i) = zget d i.
Proof.
  intros. pose proof (zlen_nonneg pre). rewrite !zget_lookup by lia. unfold zlen in *.
  rewrite lookup_app_r by lia. f_equal. lia.
Qed.

Lemma zget_at {A} (pre d : list A) : zget (pre ++ d) (zlen pre) = zget d 0.
Proof. rewrite <- (Z.add_0_r (zlen pre)) at 1. by apply zget_app_r. Qed.

Lemma le32_bytes_arith w : 0 <= w < 2 ^ 32 ->
  le32_bytes w = [w mod 256; (w / 256) mod 256; (w / 65536) mod 256; w / 16777216].
Proof.
  intros. unfold le32_bytes, u8. rewrite !Z.shiftr_div_pow2 by lia. 
  change (2 ^ 8) with 256. change (2 ^ 16) with 65536. change (2 ^ 24) with 16777216.
  do 3 f_equal. f_equal. apply Z.mod_small. mlia.
Qed.

Lemma le32_bytes_ok w : bytes_ok (le32_bytes w).
Proof. unfold le32_bytes, u8. repeat constructor; unfold is_byte; mlia. Qed.

Lemma zlen_le32 w : zlen (le32_bytes w) = 4.
Proof. done. Qed.

Lemma zlen_le64 w : zlen (le64_bytes w) = 8.
Proof. done. Qed.

Lemma le64_bytes_ok w : bytes_ok (le64_bytes w).
Proof. apply Forall_app. split; apply le32_bytes_ok. Qed.

Lemma read_u32_encoded pre w post :
  0 <= w < 2 ^ 32 -> read_u32_le (pre ++ le32_bytes w ++ post) (zlen pre) = Some w.
Proof.
  intros Hw. unfold read_u32_le. rewrite zget_at, !zget_app_r by lia.
  rewrite le32_bytes_arith by done. cbn [app].
  change (zget _ 0) with (Some (w mod 256)). change (zget _ 1) with (Some ((w / 256) mod 256)).
  change (zget _ 2) with (Some ((w / 65536) mod 256)). change (zget _ 3) with (Some (w / 16777216)).
  cbn [mbind option_bind]. rewrite le32_word by (unfold is_byte; mlia). f_equal. mlia.
Qed.

Lemma read_u64_encoded pre w post :
  0 <= w < 2 ^ 64 -> read_u64_le (pre ++ le64_bytes w ++ post) (zlen pre) = Some w.
Proof.
  intros Hw. unfold read_u64_le, le64_bytes. rewrite <- app_assoc.
  assert (0 <= w mod 2 ^ 32 < 2 ^ 32) by (apply Z.mod_pos_bound; lia).
  assert (0 <= w / 2 ^ 32 < 2 ^ 32) by (split; [apply Z.div_pos; lia|apply Z.div_lt_upper_bound; lia]).
  rewrite read_u32_encoded by done. cbn [mbind option_bind].
  rewrite app_assoc. replace (zlen pre + 4) with (zlen (pre ++ le32_bytes (w mod 2 ^ 32))) by (rewrite zlen_app; done).
  rewrite read_u32_encoded by done. cbn [mbind option_bind]. f_equal.
  unfold u64. rewrite (Z.mod_small (Z.shiftl _ _)) by (rewrite Z.shiftl_mul_pow2; lia).
  rewrite Z.lor_comm, lor_shiftl_add by lia. rewrite Z.mul_comm. symmetry. apply Z.div_mod. lia.
Qed.

Lemma i64_u64 i : is_int64 i -> i64_of_u64 (u64 i) = i.
Proof.
  unfold is_int64, INT64_MIN, INT64_MAX, i64_of_u64, u64. intros.
  destruct (Z.le_gt_cases 0 i).
  - rewrite Z.mod_small by lia. bdestruct_all; lia.
  - replace (i mod 2 ^ 64) with (i + 2 ^ 64); [bdestruct_all; lia|].
    rewrite <- (Z_mod_plus_full i 1), Z.mod_small by lia. lia.
Qed.

Lemma u64_range i : 0 <= u64 i < 2 ^ 64.
Proof. apply Z.mod_pos_bound. lia. Qed.

Lemma read_i64_encoded pre i post :
  is_int64 i -> read_i64_le (pre ++ le64_bytes (u64 i) ++ post) (zlen pre) = Some i.
Proof.
  intros Hi. unfold read_i64_le. rewrite read_u64_encoded by apply u64_range.
  cbn [mbind option_bind]. by rewrite i64_u64.
Qed.

Definition sdata (c : const_spec) : list Z := match c with CStr d => d ++ [0] | _ => [] end.
Definition bdata (c : const_spec) : list Z := match c with CBytes d => d | _ => [] end.

Lemma fits_intro c n e : c + n <= e -> e <= SIZE_MAX -> fits c n e = true.
Proof.
  intros. unfold fits, aivm_size_add_checked. bdestruct_all; lia.
Qed.

Lemma size_add_run a b : a + b <= SIZE_MAX -> aivm_size_add_checked a b = Some (a + b).
Proof. intros. by apply size_add_checked_Some. Qed.

Lemma write_constant_run p index v :
  index = zlen (constant_store p) -> index < constant_capacity p ->
  write_constant p index v =
    Some (set_constants (constant_store p ++ [v]) (constant_count p) (constant_capacity p) p).
Proof. intros -> H. unfold write_constant. by replace (_ && _) with true by lia. Qed.

Lemma read_block_encoded pre d post :
  read_block (pre ++ d ++ post) (zlen pre) (zlen d) = Some d.
Proof.
  pose proof (zlen_nonneg pre). pose proof (zlen_nonneg d). pose proof (zlen_nonneg post).
  destruct (read_block_ok (pre ++ d ++ post) (zlen pre) (zlen d)) as [-> _]; [lia..|rewrite !zlen_app; lia|].
  f_equal. unfold slice, ztake, zdrop, zlen. rewrite !Nat2Z.id, drop_app_length. apply take_app_length.
Qed.

Lemma slice_mid (a d b : list Z) : slice (a ++ d ++ b) (zlen a) (zlen d) = d.
Proof.
  unfold slice, ztake, zdrop, zlen. rewrite !Nat2Z.id, drop_app_length. apply take_app_length.
Qed.

(** Result of loading one encoded constant. *)
Definition const_loaded (p p' : AivmProgram) (c : const_spec) : Prop :=
  (exists v, constant_store p' = constant_store p ++ [v] /\
     denotes (string_storage p') (bytes_storage p') v c) /\
  string_storage p' = string_storage p ++ sdata c /\
  bytes_storage p' = bytes_storage p ++ bdata c /\
  rest_c p' = rest_c p /\ constant_capacity p' = constant_capacity p.

Lemma read_data_encoded pre d post :
  zlen d < 2 ^ 32 -> let bytes := pre ++ (le32_bytes (zlen d) ++ d) ++ post in
  read_u32_le bytes (zlen pre) = Some (zlen d) /\
  read_block bytes (zlen pre + 4) (zlen d) = Some d.
Proof.
  intros Hd bytes. pose proof (zlen_nonneg d). unfold bytes. rewrite <- app_assoc.
  rewrite read_u32_encoded by lia. split; [done|].
  replace (zlen pre + 4) with (zlen (pre ++ le32_bytes (zlen d))) by (rewrite zlen_app; done).
  rewrite app_assoc. apply read_block_encoded.
Qed.

Ltac same_cursor :=
  match goal with |- Some (inl (_, ?a)) = Some (inl (_, ?b)) => replace a with b by lia; reflexivity end.

Lemma load_constant_encoded pre c post section_end index p :
  let bytes := pre ++ encode_const c ++ post in
  const_spec_ok c -> index = zlen (constant_store p) -> index < constant_capacity p ->
  zlen pre + zlen (encode_const c) <= section_end -> section_end < 2 ^ 32 ->
  zlen (string_storage p) + string_need c <= AIVM_PROGRAM_MAX_STRING_BYTES ->
  zlen (bytes_storage p) + bytes_need c <= AIVM_PROGRAM_MAX_BYTES_STORAGE ->
  exists p', load_constant bytes section_end index (zlen pre) p
    = Some (inl (p', zlen pre + zlen (encode_const c))) /\ const_loaded p p' c.
Proof.
  intros bytes Hok Hi Hcap Hend Hmax Hs Hb. unfold load_constant.
  pose proof (zlen_nonneg pre). pose proof (zlen_nonneg (string_storage p)).
  pose proof (zlen_nonneg (bytes_storage p)).
  assert (AIVM_PROGRAM_MAX_STRING_BYTES + 10 <= SIZE_MAX) by done.
  assert (AIVM_PROGRAM_MAX_BYTES_STORAGE + 10 <= SIZE_MAX) by done.
  assert (2 ^ 32 <= SIZE_MAX) by done.
  assert (Hpos : 0 < zlen (encode_const c)).
  { destruct c; cbn [encode_const]; rewrite zlen_cons;
      match goal with |- 0 < zlen ?l + 1 => pose proof (zlen_nonneg l); lia end. }
  destruct (Z.leb_spec section_end (zlen pre)); [lia|].
  assert (Hsplit : forall k d, encode_const c = k :: d -> bytes = (pre ++ [k]) ++ d ++ post /\
     zget bytes (zlen pre) = Some k /\ zlen pre + 1 = zlen (pre ++ [k])).
  { intros k d E. unfold bytes. rewrite E. split; [by rewrite <- app_assoc|].
    split; [by rewrite zget_at|]. by rewrite zlen_app. }
  assert (Hload : forall v, denotes (string_storage p) (bytes_storage p) v c -> sdata c = [] -> bdata c = [] ->
    const_loaded p (set_constants (constant_store p ++ [v]) (constant_count p) (constant_capacity p) p) c).
  { intros v Hv Es Eb. split; [by exists v|]. cbn. by rewrite Es, Eb, !app_nil_r. }
  destruct c as [i|w|b| |d| |d]; cbn [encode_const] in *;
    destruct (Hsplit _ _ eq_refl) as (Eb & -> & El); cbn [mbind option_bind Z.eqb Pos.eqb]; clear Hsplit.
  - rewrite zlen_cons, zlen_le64 in *. rewrite fits_intro by lia. cbn [negb].
    rewrite Eb, El, read_i64_encoded by done. cbn [mbind option_bind]. rewrite write_constant_run by done.
    cbn [mbind option_bind]. eexists. split; [same_cursor|]. by apply Hload.
  - rewrite zlen_cons, zlen_le64 in *. rewrite fits_intro by lia. cbn [negb].
    unfold read_f64_le. rewrite Eb, El, read_u64_encoded by done. cbn [mbind option_bind].
    rewrite write_constant_run by done.
    cbn [mbind option_bind]. eexists. split; [same_cursor|]. by apply Hload.
  - rewrite zlen_cons in *. change (zlen [if b then 1 else 0]) with 1 in *. rewrite fits_intro by lia. cbn [negb].
    rewrite Eb, El, zget_at. change (zget ([?x] ++ post) 0) with (Some x). cbn [mbind option_bind].
    rewrite write_constant_run by done.
    cbn [mbind option_bind]. eexists. split; [same_cursor|]. apply Hload; [by destruct b|done..].
  - rewrite write_constant_run by done. cbn [mbind option_bind]. eexists. split; [done|]. by apply Hload.
  - rewrite zlen_cons, zlen_app, zlen_le32 in Hend |- *. cbn [string_need] in Hs. pose proof (zlen_nonneg d).
    rewrite fits_intro by lia. cbn [negb].
    destruct (read_data_encoded (pre ++ [3]) d post) as [R1 R2]; [lia|]. cbn zeta in R1, R2.
    rewrite <- Eb, <- El in R1, R2. rewrite R1. cbn [mbind option_bind]. rewrite fits_intro by lia. cbn [negb].
    rewrite R2. unfold write_string_constant.
    rewrite !size_add_run by lia. cbn [mbind option_bind]. rewrite !size_add_run by lia.
    repeat match goal with |- context [?a <? ?b] => destruct (Z.ltb_spec a b); [lia|] end.
    cbn [mbind option_bind]. rewrite write_constant_run by done. cbn [mbind option_bind].
    eexists. split; [same_cursor|]. split; [|by cbn; rewrite app_nil_r].
    eexists. split; [done|]. exists (zlen (string_storage p)). split; [done|]. split; [done|].
    cbn. rewrite <- (app_nil_r (d ++ [0])), app_nil_r at 1.
    pose proof (slice_mid (string_storage p) (d ++ [0]) []) as Hm. rewrite app_nil_r, zlen_app in Hm. done.
  - rewrite write_constant_run by done. cbn [mbind option_bind]. eexists. split; [done|]. by apply Hload.
  - rewrite zlen_cons, zlen_app, zlen_le32 in Hend |- *. cbn [bytes_need] in Hb. pose proof (zlen_nonneg d).
    rewrite fits_intro by lia. cbn [negb].
    destruct (read_data_encoded (pre ++ [5]) d post) as [R1 R2]; [lia|]. cbn zeta in R1, R2.
    rewrite <- Eb, <- El in R1, R2. rewrite R1. cbn [mbind option_bind]. rewrite fits_intro by lia. cbn [negb].
    rewrite R2. unfold write_bytes_constant.
    rewrite !size_add_run by lia. cbn [mbind option_bind]. rewrite ?size_add_run by lia.
    repeat match goal with |- context [?a <? ?b] => destruct (Z.ltb_spec a b); [lia|] end.
    cbn [mbind option_bind]. rewrite write_constant_run by done. cbn [mbind option_bind].
    eexists. split; [same_cursor|]. split; [|by cbn; rewrite app_nil_r].
    eexists. split; [done|]. exists (zlen (bytes_storage p)). split; [done|]. split; [done|].
    cbn. pose proof (slice_mid (bytes_storage p) d []) as Hm. by rewrite app_nil_r in Hm.
Qed.

Lemma denotes_grow ss bs ss' bs' v c :
  denotes ss bs v c -> denotes (ss ++ ss') (bs ++ bs') v c.
Proof.
  assert (Hsl : forall l l' off n d, slice l off n = d -> zlen d = n -> slice (l ++ l') off n = d).
  { intros l l' off n d <- Hn. unfold slice, ztake, zdrop, zlen in *.
    rewrite length_take, length_drop in Hn.
    destruct (decide (Z.to_nat off <= length l)%nat).
    - rewrite drop_app_le by lia. rewrite take_app_le; [done|]. rewrite length_drop. lia.
    - replace (Z.to_nat n) with 0%nat by lia. done. }
  destruct c; cbn; try done; intros (off & -> & Ho & Hd); exists off; (split; [done|]); (split; [done|]);
    apply Hsl; try done. by rewrite zlen_app.
Qed.

(** What the loops have loaded. *)
Definition consts_loaded (p p' : AivmProgram) (cs : list const_spec) : Prop :=
  (exists vs, constant_store p' = constant_store p ++ vs /\
     Forall2 (denotes (string_storage p') (bytes_storage p')) vs cs) /\
  (exists ss bs, string_storage p' = string_storage p ++ ss /\ bytes_storage p' = bytes_storage p ++ bs) /\
  rest_c p' = rest_c p /\ constant_capacity p' = constant_capacity p.

Lemma sdata_need c : zlen (sdata c) = string_need c.
Proof. destruct c; cbn [sdata string_need]; autorewrite with aivm; done || lia. Qed.
Lemma bdata_need c : zlen (bdata c) = bytes_need c.
Proof. by destruct c. Qed.
Lemma needs_nonneg cs : 0 <= total string_need cs /\ 0 <= total bytes_need cs.
Proof.
  split; apply total_nonneg, Forall_forall; intros c _; rewrite <- ?sdata_need, <- ?bdata_need; apply zlen_nonneg.
Qed.

Lemma load_constants_encoded cs : forall pre post fuel index p tick section_end,
  Forall const_spec_ok cs -> index = zlen (constant_store p) ->
  index + zlen cs <= constant_capacity p ->
  section_end = zlen pre + zlen (flat_map encode_const cs) -> section_end < 2 ^ 32 ->
  zlen (string_storage p) + total string_need cs <= AIVM_PROGRAM_MAX_STRING_BYTES ->
  zlen (bytes_storage p) + total bytes_need cs <= AIVM_PROGRAM_MAX_BYTES_STORAGE ->
  (length cs < fuel)%nat ->
  exists p', load_constants fuel (pre ++ flat_map encode_const cs ++ post) section_end
      (index + zlen cs) index (zlen pre) p tick = Some (Next (p', section_end) tick) /\
    consts_loaded p p' cs.
Proof.
  induction cs as [|c cs IH]; intros pre post fuel index p tick section_end Hok Hi Hcap Hend Hmax Hs Hb Hf;
    (destruct fuel as [|fuel]; [lia|]); cbn [load_constants].
  - rewrite zlen_nil, Z.add_0_r. destruct (Z.leb_spec index index); [|lia].
    cbn in Hend. rewrite zlen_nil, Z.add_0_r in Hend. subst. eexists. split; [done|].
    split; [exists []; by rewrite app_nil_r|]. split; [|done]. exists [], []. by rewrite !app_nil_r.
  - inversion Hok as [|? ? Hc Hcs]; subst x l. rewrite zlen_cons in *. pose proof (zlen_nonneg cs).
    destruct (Z.leb_spec (index + (zlen cs + 1)) index); [lia|].
    cbn [flat_map] in *. rewrite zlen_app in Hend. cbn [total] in Hs, Hb. pose proof (needs_nonneg cs).
    rewrite <- app_assoc. pose proof (zlen_nonneg (flat_map encode_const cs)).
    destruct (load_constant_encoded pre c (flat_map encode_const cs ++ post) section_end index p)
      as (p1 & -> & (v & Ev & Hv) & Es & Eb & Er & Ec); [done..|lia|lia|lia|lia|lia|].
    cbn [mbind option_bind].
    assert (Hl1 : zlen (constant_store p1) = index + 1) by (rewrite Ev, zlen_app, Hi; done).
    rewrite app_assoc, <- zlen_app. replace (index + (zlen cs + 1)) with ((index + 1) + zlen cs) by lia.
    destruct (IH (pre ++ encode_const c) post fuel (index + 1) p1 tick section_end)
      as (p2 & -> & (vs & Evs & Hvs) & (ss & bs & Ess & Ebs) & Er2 & Ec2); rewrite ?Ec, ?Es, ?Eb, ?zlen_app;
      rewrite ?sdata_need, ?bdata_need; try (done || lia).
    { cbn in Hf. lia. }
    eexists. split; [done|]. split; [|split; [|by rewrite Er2, Ec2]].
    + exists (v :: vs). split; [by rewrite Evs, Ev, <- app_assoc|]. constructor; [|done].
      rewrite Ess, Ebs. by apply denotes_grow.
    + exists (sdata c ++ ss), (bdata c ++ bs). by rewrite Ess, Ebs, Es, Eb, <- !app_assoc.
Qed.

Lemma zlen_encode_instruction i : zlen (encode_instruction i) = 12.
Proof. done. Qed.

Lemma load_instructions_encoded instrs : forall pre post fuel index p tick,
  Forall (fun i => is_int64 (operand_int i)) instrs -> index = zlen (instruction_store p) ->
  index + zlen instrs <= instruction_capacity p -> (length instrs < fuel)%nat ->
  load_instructions fuel (pre ++ flat_map encode_instruction instrs ++ post)
      (index + zlen instrs) index (zlen pre) p tick =
    Some (Next (set_instructions (instruction_store p ++ instrs) (instruction_count p)
                  (instruction_capacity p) p) tick).
Proof.
  induction instrs as [|i instrs IH]; intros pre post fuel index p tick Hok Hi Hcap Hf;
    (destruct fuel as [|fuel]; [lia|]); cbn [load_instructions].
  - rewrite zlen_nil, Z.add_0_r. destruct (Z.leb_spec index index); [|lia].
    rewrite app_nil_r. by destruct p.
  - inversion Hok as [|? ? Hc Hcs]; subst x l. rewrite zlen_cons in *. pose proof (zlen_nonneg instrs).
    destruct (Z.leb_spec (index + (zlen instrs + 1)) index); [lia|].
    set (a := le32_bytes (Z_of_opcode (opcode i))). set (b := le64_bytes (u64 (operand_int i))).
    assert (E1 : pre ++ flat_map encode_instruction (i :: instrs) ++ post
      = pre ++ a ++ b ++ flat_map encode_instruction instrs ++ post)
      by (cbn [flat_map]; unfold encode_instruction at 1; by rewrite <- !app_assoc).
    assert (E2 : pre ++ flat_map encode_instruction (i :: instrs) ++ post
      = ((pre ++ a) ++ b) ++ flat_map encode_instruction instrs ++ post) by (by rewrite E1, <- !app_assoc).
    assert (R1 : read_u32_le (pre ++ flat_map encode_instruction (i :: instrs) ++ post) (zlen pre)
      = Some (Z_of_opcode (opcode i))).
    { rewrite E1. apply read_u32_encoded. pose proof (Z_of_opcode_range (opcode i)). unfold AIVM_OP_MAX in *. lia. }
    assert (R2 : read_i64_le (pre ++ flat_map encode_instruction (i :: instrs) ++ post) (zlen pre + 4)
      = Some (operand_int i)).
    { rewrite E2, <- app_assoc. replace (zlen pre + 4) with (zlen (pre ++ a)) by (rewrite zlen_app; done).
      by apply read_i64_encoded. }
    rewrite R1, R2. cbn [mbind option_bind].
    rewrite Z_of_opcode_roundtrip. unfold write_instruction. replace (_ && _) with true by lia.
    cbn [mbind option_bind]. rewrite E2.
    replace (zlen pre + 12) with (zlen ((pre ++ a) ++ b))
      by (rewrite !zlen_app; change (zlen b) with 8; change (zlen a) with 4; lia).
    replace (index + (zlen instrs + 1)) with ((index + 1) + zlen instrs) by lia.
    rewrite IH; [|done|cbn; rewrite zlen_app, Hi; done|cbn [instruction_capacity set_instructions]; lia|cbn in Hf; lia].
    cbn. rewrite <- app_assoc. by destruct i.
Qed.

Section RoundTrip.

Context (host_alloc : nat -> Z -> bool) (Halloc : forall t n, host_alloc t n = true).

Lemma zlen_encode_instructions instrs : zlen (encode_instructions instrs) = 4 + zlen instrs * 12.
Proof.
  unfold encode_instructions. rewrite zlen_app, zlen_le32. f_equal.
  induction instrs as [|i l IH]; [done|]. cbn [flat_map]. rewrite zlen_app, IH, zlen_encode_instruction, zlen_cons. lia.
Qed.

Lemma encode_const_length cs : zlen cs <= zlen (flat_map encode_const cs).
Proof.
  induction cs as [|c cs IH]; [done|]. cbn [flat_map]. rewrite zlen_app, zlen_cons.
  assert (1 <= zlen (encode_const c)); [|lia].
  destruct c; cbn [encode_const]; rewrite zlen_cons;
    match goal with |- 1 <= zlen ?l + 1 => pose proof (zlen_nonneg l); lia end.
Qed.

Lemma instruction_section_run pre instrs post p tick :
  Forall (fun i => is_int64 (operand_int i)) instrs -> instruction_store p = [] ->
  zlen (encode_instructions instrs) < 2 ^ 32 ->
  exists cap t, load_instruction_section host_alloc (pre ++ encode_instructions instrs ++ post)
      (zlen pre) (zlen (encode_instructions instrs)) false p tick
    = Some (Next (set_instructions instrs (zlen instrs) cap p) t).
Proof.
  intros Hok Hnil Hlen. pose proof (zlen_nonneg instrs). unfold load_instruction_section.
  rewrite zlen_encode_instructions in *.
  destruct (Z.ltb_spec (4 + zlen instrs * 12) 4); [lia|].
  assert (E : pre ++ encode_instructions instrs ++ post
    = (pre ++ le32_bytes (zlen instrs)) ++ flat_map encode_instruction instrs ++ post)
    by (unfold encode_instructions; by rewrite <- !app_assoc).
  assert (R : read_u32_le (pre ++ encode_instructions instrs ++ post) (zlen pre) = Some (zlen instrs)).
  { rewrite E, <- app_assoc. apply read_u32_encoded. lia. }
  rewrite R. cbn [mbind option_bind].
  assert (2 ^ 32 <= SIZE_MAX) by done.
  assert (size_mul_checked (zlen instrs) 12 = Some (zlen instrs * 12)) as ->
    by (apply size_mul_checked_Some; lia).
  rewrite size_add_run, bool_decide_true by (done || lia). cbn [negb].
  assert (Hrun : forall cap t, zlen instrs <= cap ->
    (r ← load_instructions (S (length (pre ++ encode_instructions instrs ++ post)))
           (pre ++ encode_instructions instrs ++ post) (zlen instrs) 0 (zlen pre + 4)
           (set_instructions [] (instruction_count p) cap p) t;
     match r with
     | Next p2 tick'' => Some (Next (set_instructions (instruction_store p2) (zlen instrs) (instruction_capacity p2) p2) tick'')
     | Return res tick'' => Some (Return res tick'')
     end) = Some (Next (set_instructions instrs (zlen instrs) cap p) t)).
  { intros cap t Hcap. rewrite E.
    replace (zlen pre + 4) with (zlen (pre ++ le32_bytes (zlen instrs))) by (rewrite zlen_app; done).
    pose proof (load_instructions_encoded instrs (pre ++ le32_bytes (zlen instrs)) post
      (S (length ((pre ++ le32_bytes (zlen instrs)) ++ flat_map encode_instruction instrs ++ post))) 0
      (set_instructions [] (instruction_count p) cap p) t Hok eq_refl) as Hl.
    rewrite Z.add_0_l in Hl. rewrite Hl; [done|done|].
    pose proof (zlen_encode_instructions instrs) as Hz. unfold encode_instructions in Hz.
    rewrite zlen_app, zlen_le32 in Hz. rewrite !length_app. unfold zlen in *. lia. }
  unfold aivm_program_instructions_reserve. rewrite Hnil.
  destruct (Z.leb_spec (zlen instrs) AIVM_PROGRAM_INLINE_INSTRUCTIONS).
  { do 2 eexists. by apply Hrun. }
  assert (zlen instrs < SIZE_MAX / SIZEOF_INSTRUCTION).
  { apply Z.lt_le_trans with (2 ^ 32); [lia|done]. }
  destruct (Z.ltb_spec (SIZE_MAX / SIZEOF_INSTRUCTION) (zlen instrs)); [lia|].
  rewrite Halloc. do 2 eexists. apply Hrun. lia.
Qed.

Lemma constant_section_run pre cs post p tick :
  Forall const_spec_ok cs -> constant_store p = [] ->
  string_storage p = [] -> bytes_storage p = [] ->
  total string_need cs <= AIVM_PROGRAM_MAX_STRING_BYTES ->
  total bytes_need cs <= AIVM_PROGRAM_MAX_BYTES_STORAGE ->
  zlen pre + zlen (encode_constants cs) < 2 ^ 32 ->
  exists p' t, load_constant_section host_alloc (pre ++ encode_constants cs ++ post)
      (zlen pre) (zlen (encode_constants cs)) (zlen pre + zlen (encode_constants cs)) false p tick
    = Some (Next p' t) /\
    instruction_store p' = instruction_store p /\ instruction_count p' = instruction_count p /\
    constant_count p' = zlen cs /\ Forall2 (denotes (string_storage p') (bytes_storage p')) (constant_store p') cs.
Proof.
  intros Hok Hnil Hss Hbs Hs Hb Hlen. pose proof (zlen_nonneg cs). pose proof (zlen_nonneg pre).
  pose proof (encode_const_length cs) as Hcl. unfold load_constant_section.
  assert (Ez : zlen (encode_constants cs) = 4 + zlen (flat_map encode_const cs))
    by (unfold encode_constants; by rewrite zlen_app, zlen_le32).
  destruct (Z.ltb_spec (zlen (encode_constants cs)) 4); [lia|].
  assert (E : pre ++ encode_constants cs ++ post
    = (pre ++ le32_bytes (zlen cs)) ++ flat_map encode_const cs ++ post)
    by (unfold encode_constants; by rewrite <- !app_assoc).
  assert (R : read_u32_le (pre ++ encode_constants cs ++ post) (zlen pre) = Some (zlen cs)).
  { rewrite E, <- app_assoc. apply read_u32_encoded. lia. }
  rewrite R. cbn [mbind option_bind].
  assert (Hrun : forall cap t, zlen cs <= cap ->
    exists p' t', (r ← load_constants (S (length (pre ++ encode_constants cs ++ post)))
           (pre ++ encode_constants cs ++ post) (zlen pre + zlen (encode_constants cs)) (zlen cs) 0 (zlen pre + 4)
           (set_constants [] (constant_count p) cap p) t;
     match r with
     | Return res tick'' => Some (Return res tick'')
     | Next (p2, cursor) tick'' =>
         if negb (cursor =? zlen pre + zlen (encode_constants cs))
         then Some (Return (constant_load_error p2 AIVM_PROGRAM_ERR_INVALID_SECTION cursor) tick'')
         else Some (Next (set_constants (constant_store p2) (zlen cs) (constant_capacity p2) p2) tick'')
     end) = Some (Next p' t') /\
    instruction_store p' = instruction_store p /\ instruction_count p' = instruction_count p /\
    constant_count p' = zlen cs /\ Forall2 (denotes (string_storage p') (bytes_storage p')) (constant_store p') cs).
  { intros cap t Hcap. rewrite E.
    replace (zlen pre + 4) with (zlen (pre ++ le32_bytes (zlen cs))) by (rewrite zlen_app; done).
    destruct (load_constants_encoded cs (pre ++ le32_bytes (zlen cs)) post
      (S (length ((pre ++ le32_bytes (zlen cs)) ++ flat_map encode_const cs ++ post))) 0
      (set_constants [] (constant_count p) cap p) t (zlen pre + zlen (encode_constants cs)))
      as (p' & Hl & (vs & Ev & Hv) & _ & Er & _); try done; try (cbn; rewrite ?Hss, ?Hbs; done).
    { rewrite zlen_app, zlen_le32. lia. }
    { rewrite !length_app. unfold zlen in *. lia. }
    rewrite Z.add_0_l in Hl. rewrite Hl. cbn [mbind option_bind]. rewrite Z.eqb_refl. cbn [negb].
    do 2 eexists. split; [done|]. injection Er as ? ? ? ? ? ? ? ?. cbn in Ev. cbn. rewrite Ev. split_and!; done || congruence. }
  unfold aivm_program_constants_reserve. rewrite Hnil.
  destruct (Z.leb_spec (zlen cs) AIVM_PROGRAM_INLINE_CONSTANTS).
  { by apply Hrun. }
  assert (zlen cs < SIZE_MAX / SIZEOF_VALUE).
  { apply Z.lt_le_trans with (2 ^ 32); [lia|done]. }
  destruct (Z.ltb_spec (SIZE_MAX / SIZEOF_VALUE) (zlen cs)); [lia|].
  rewrite Halloc. apply Hrun. lia.
Qed.

Lemma section_header pre type payload post :
  0 <= type < 2 ^ 32 -> zlen (pre ++ encode_section type payload ++ post) < 2 ^ 32 ->
  let bytes := pre ++ encode_section type payload ++ post in
  fits (zlen pre) 8 (zlen bytes) = true /\ read_u32_le bytes (zlen pre) = Some type /\
  read_u32_le bytes (zlen pre + 4) = Some (zlen payload) /\
  fits (zlen pre + 8) (zlen payload) (zlen bytes) = true /\
  exists pre', bytes = pre' ++ payload ++ post /\ zlen pre' = zlen pre + 8.
Proof.
  intros Ht Hl bytes. pose proof (zlen_nonneg pre). pose proof (zlen_nonneg payload). pose proof (zlen_nonneg post).
  assert (El : zlen bytes = zlen pre + 8 + zlen payload + zlen post).
  { unfold bytes, encode_section. rewrite !zlen_app, !zlen_le32. lia. }
  fold bytes in Hl. assert (2 ^ 32 <= SIZE_MAX) by done.
  assert (E1 : bytes = pre ++ le32_bytes type ++ le32_bytes (zlen payload) ++ payload ++ post)
    by (unfold bytes, encode_section; by rewrite <- !app_assoc).
  assert (E2 : bytes = (pre ++ le32_bytes type) ++ le32_bytes (zlen payload) ++ payload ++ post)
    by (by rewrite E1, <- !app_assoc).
  split_and!.
  - apply fits_intro; lia.
  - rewrite E1. by apply read_u32_encoded.
  - rewrite E2. replace (zlen pre + 4) with (zlen (pre ++ le32_bytes type)) by (rewrite zlen_app; done).
    apply read_u32_encoded. lia.
  - apply fits_intro; lia.
  - exists ((pre ++ le32_bytes type) ++ le32_bytes (zlen payload)). split; [by rewrite E2, <- !app_assoc|].
    rewrite !zlen_app, !zlen_le32. lia.
Qed.

Definition encode_header (flags count : Z) : list Z :=
  [65; 73; 66; 67] ++ le32_bytes 2 ++ le32_bytes flags ++ le32_bytes count.

Lemma header_run nested tick flags count rest :
  0 <= flags < 2 ^ 32 -> 0 <= count <= AIVM_PROGRAM_MAX_SECTIONS ->
  load_body host_alloc nested (encode_header flags count ++ rest) tick =
    load_sections host_alloc nested (Z.to_nat count) (encode_header flags count ++ rest) 16 false false false
      (set_header 2 flags count aivm_program_clear) tick.
Proof.
  intros Hf Hc. unfold load_body. pose proof (zlen_nonneg rest). unfold AIVM_PROGRAM_MAX_SECTIONS in Hc.
  assert (El : zlen (encode_header flags count ++ rest) = 16 + zlen rest) by by rewrite zlen_app.
  destruct (Z.ltb_spec (zlen (encode_header flags count ++ rest)) 16); [lia|].
  change (zget _ 0) with (Some 65). change (zget _ 1) with (Some 73).
  change (zget _ 2) with (Some 66). change (zget _ 3) with (Some 67).
  cbn [mbind option_bind Z.eqb Pos.eqb andb negb].
  assert (R : read_u32_le (encode_header flags count ++ rest) 4 = Some 2 /\
    read_u32_le (encode_header flags count ++ rest) 8 = Some flags /\
    read_u32_le (encode_header flags count ++ rest) 12 = Some count).
  { unfold encode_header. rewrite <- !app_assoc. split_and!.
    - by apply (read_u32_encoded [65; 73; 66; 67]).
    - rewrite (app_assoc _ (le32_bytes 2)). by apply (read_u32_encoded ([65; 73; 66; 67] ++ le32_bytes 2)).
    - rewrite (app_assoc _ (le32_bytes 2)), (app_assoc _ (le32_bytes flags)).
      apply (read_u32_encoded (([65; 73; 66; 67] ++ le32_bytes 2) ++ le32_bytes flags)). lia. }
  destruct R as (-> & -> & ->). cbn [mbind option_bind Z.eqb Pos.eqb negb].
  unfold AIVM_PROGRAM_MAX_SECTIONS. by destruct (Z.ltb_spec 32 count); [lia|].
Qed.

Lemma instruction_step nested n pre instrs post p tick :
  Forall (fun i => is_int64 (operand_int i)) instrs -> instruction_store p = [] -> zlen (sections p) < AIVM_PROGRAM_MAX_SECTIONS ->
  zlen (pre ++ encode_section 1 (encode_instructions instrs) ++ post) < 2 ^ 32 ->
  exists secs cap t, zlen secs = zlen (sections p) + 1 /\
    load_sections host_alloc nested (S n) (pre ++ encode_section 1 (encode_instructions instrs) ++ post)
      (zlen pre) false false false p tick =
    load_sections host_alloc nested n (pre ++ encode_section 1 (encode_instructions instrs) ++ post)
      (zlen (pre ++ encode_section 1 (encode_instructions instrs))) true false false
      (set_instructions instrs (zlen instrs) cap (set_sections secs p)) t.
Proof.
  intros Hi Hnil Hroom Hlen. cbn [load_sections].
  destruct (section_header pre 1 (encode_instructions instrs) post) as (F & T & S & F' & pre' & E & Z');
    [lia|done|]. rewrite F, T, S. cbn [negb mbind option_bind]. rewrite F'. cbn [negb Z.eqb Pos.eqb orb].
  unfold write_section. rewrite (proj2 (Z.ltb_lt _ _)) by done. cbn [mbind option_bind]. rewrite E, <- Z'.
  destruct (instruction_section_run pre' instrs post
    (set_sections (sections p ++ [mk_section 1 (zlen (encode_instructions instrs)) (u32 (zlen pre'))]) p) tick Hi)
    as (cap & t & ->); [done| |].
  { rewrite E, !zlen_app in Hlen. pose proof (zlen_nonneg pre'). pose proof (zlen_nonneg post). lia. }
  cbn [mbind option_bind]. do 3 eexists. split; [|f_equal; unfold encode_section].
  { by rewrite zlen_app. } rewrite !zlen_app, !zlen_le32. lia.
Qed.

Lemma constant_step nested pre cs p tick :
  Forall const_spec_ok cs -> constant_store p = [] -> string_storage p = [] -> bytes_storage p = [] ->
  zlen (sections p) < AIVM_PROGRAM_MAX_SECTIONS -> total string_need cs <= AIVM_PROGRAM_MAX_STRING_BYTES ->
  total bytes_need cs <= AIVM_PROGRAM_MAX_BYTES_STORAGE ->
  zlen (pre ++ encode_section 2 (encode_constants cs)) < 2 ^ 32 ->
  exists p' t,
    load_sections host_alloc nested 1 (pre ++ encode_section 2 (encode_constants cs)) (zlen pre) true false false p tick
      = Some (p', AIVM_PROGRAM_OK, 0, t) /\
    instruction_store p' = instruction_store p /\ instruction_count p' = instruction_count p /\
    constant_count p' = zlen cs /\ Forall2 (denotes (string_storage p') (bytes_storage p')) (constant_store p') cs.
Proof.
  intros Hc H1 H2 H3 Hroom Hs Hb Hlen. cbn [load_sections].
  destruct (section_header pre 2 (encode_constants cs) []) as (F & T & S & F' & pre' & E & Z');
    [lia|by rewrite app_nil_r|]. rewrite app_nil_r in F, T, S, F', E.
  rewrite F, T, S. cbn [negb mbind option_bind]. rewrite F'. cbn [negb Z.eqb Pos.eqb orb].
  unfold write_section. rewrite (proj2 (Z.ltb_lt _ _)) by done. cbn [mbind option_bind]. rewrite E, <- Z'.
  destruct (constant_section_run pre' cs []
    (set_sections (sections p ++ [mk_section 2 (zlen (encode_constants cs)) (u32 (zlen pre'))]) p) tick Hc)
    as (p' & t & -> & Hp); try done.
  { rewrite E, !zlen_app, zlen_nil in Hlen. lia. }
  cbn [mbind option_bind]. by exists p', t.
Qed.

(** A container with instructions only. *)
Lemma load_instructions_only nested tick flags instrs :
  0 <= flags < 2 ^ 32 -> Forall (fun i => is_int64 (operand_int i)) instrs ->
  let bytes := encode_header flags 1 ++ encode_section 1 (encode_instructions instrs) in
  zlen bytes < 2 ^ 32 ->
  exists p t,
    load_body host_alloc nested bytes tick = Some (p, AIVM_PROGRAM_OK, 0, t) /\
    instruction_store p = instrs /\ instruction_count p = zlen instrs /\ constant_count p = 0 /\
    constant_store p = [].
Proof.
  intros Hfl Hi bytes Hlen. unfold bytes. rewrite header_run by done.
  destruct (instruction_step nested 0 (encode_header flags 1) instrs []
    (set_header 2 flags 1 aivm_program_clear) tick Hi) as (secs & cap & t & _ & Hr);
    [done|done|by rewrite app_nil_r|]. rewrite app_nil_r in Hr. change (Z.to_nat 1) with 1%nat.
  change (zlen (encode_header flags 1)) with 16 in Hr. rewrite Hr. cbn [load_sections].
  by do 2 eexists.
Qed.

Lemma load_roundtrip_body nested tick flags instrs cs :
  0 <= flags < 2 ^ 32 ->
  Forall (fun i => is_int64 (operand_int i)) instrs -> Forall const_spec_ok cs ->
  total string_need cs <= AIVM_PROGRAM_MAX_STRING_BYTES ->
  total bytes_need cs <= AIVM_PROGRAM_MAX_BYTES_STORAGE ->
  zlen (encode_program flags instrs cs) < 2 ^ 32 ->
  exists p t,
    load_body host_alloc nested (encode_program flags instrs cs) tick = Some (p, AIVM_PROGRAM_OK, 0, t) /\
    instruction_store p = instrs /\ instruction_count p = zlen instrs /\ constant_count p = zlen cs /\
    Forall2 (denotes (string_storage p) (bytes_storage p)) (constant_store p) cs.
Proof.
  intros Hfl Hi Hc Hs Hb Hlen.
  set (s1 := encode_section 1 (encode_instructions instrs)). set (s2 := encode_section 2 (encode_constants cs)).
  assert (E : encode_program flags instrs cs = encode_header flags 2 ++ s1 ++ s2)
    by (unfold encode_program, encode_header; by rewrite <- !app_assoc).
  rewrite E in Hlen |- *. rewrite header_run by done. change (Z.to_nat 2) with 2%nat.
  destruct (instruction_step nested 1 (encode_header flags 2) instrs s2
    (set_header 2 flags 2 aivm_program_clear) tick Hi) as (secs & cap & t & Hz & Hr); [done|done|done|].
  change (zlen (encode_header flags 2)) with 16 in Hr. fold s1 in Hr. rewrite Hr, app_assoc.
  set (p1 := set_instructions _ _ _ _).
  destruct (constant_step nested (encode_header flags 2 ++ s1) cs p1 t Hc) as (p2 & t2 & Hr2 & H1 & H2 & H3 & H4);
    try done; [cbn; by rewrite Hz|].
  change (encode_section 2 (encode_constants cs)) with s2 in Hr2. rewrite Hr2.
  exists p2, t2. by rewrite H1, H2.
Qed.

End RoundTrip.

(** A file with one worker artifact (itself a file with one HALT). *)
Definition halt_file : list Z := encode_program 0 [mk_instruction AIVM_OP_HALT 0] [].
Definition worker_file : list Z :=
  let payload := le32_bytes 1 ++ flat_map le32_bytes [0; 3; 1; 2; zlen halt_file]
    ++ aivm_worker_identity 0 3 1 2 halt_file ++ halt_file in
  [65; 73; 66; 67] ++ flat_map le32_bytes [2; 0; 1] ++ encode_section 3 payload.

Lemma program_load_complete_witness :
  exists p t, bytes_ok worker_file /\
    aivm_program_load_aibc1 (fun _ _ => true) (Some worker_file) 0 = Some (p, AIVM_PROGRAM_OK, 0, t) /\
    zlen (worker_catalog p) = 1 /\
    program_complete (fun artifact => aivm_program_load_aibc1 (fun _ _ => true) (Some artifact)) worker_file p.
Proof.
  destruct (aivm_program_load_aibc1 (fun _ _ => true) (Some worker_file) 0) as [[[[p st] off] t]|] eqn:E;
    [|vm_compute in E; discriminate].
  assert (Hb : bytes_ok worker_file)
    by (apply (bool_decide_unpack _); vm_compute; exact I).
  assert (st = AIVM_PROGRAM_OK /\ off = 0 /\ zlen (worker_catalog p) = 1) as (-> & -> & Hz)
    by (vm_compute in E; injection E as <- <- <- <-; done).
  exists p, t. split; [exact Hb|]. split; [reflexivity|]. split; [exact Hz|].
  exact (program_load_complete (fun _ _ => true) worker_file 0%nat p 0 t Hb E).
Defined.

(** An AIBC file that encodes a list of instructions and a list of
    constants (within the storage limits, and with an allocator that grants its
    requests) loads successfully and gives back exactly those instructions and
    constants, strings NUL-terminated in program storage. *)
Theorem program_load_roundtrip host_alloc tick flags instrs cs :
  (forall t n, host_alloc t n = true) -> 0 <= flags < 2 ^ 32 ->
  Forall (fun i => is_int64 (operand_int i)) instrs -> Forall const_spec_ok cs ->
  total string_need cs <= AIVM_PROGRAM_MAX_STRING_BYTES ->
  total bytes_need cs <= AIVM_PROGRAM_MAX_BYTES_STORAGE ->
  zlen (encode_program flags instrs cs) < 2 ^ 32 ->
  exists p tick',
    aivm_program_load_aibc1 host_alloc (Some (encode_program flags instrs cs)) tick
      = Some (p, AIVM_PROGRAM_OK, 0, tick') /\
    instruction_store p = instrs /\ instruction_count p = zlen instrs /\ constant_count p = zlen cs /\
    Forall2 (denotes (string_storage p) (bytes_storage p)) (constant_store p) cs.
Proof.
  intros Halloc. unfold aivm_program_load_aibc1. cbn [load_fuel]. by apply load_roundtrip_body.
Qed.

Lemma program_load_roundtrip_witness :
  exists p tick',
    aivm_program_load_aibc1 (fun _ _ => true)
      (Some (encode_program 5 [mk_instruction AIVM_OP_CONST 1; mk_instruction AIVM_OP_PUSH_INT (-1);
               mk_instruction AIVM_OP_HALT 0] [CInt (-7); CStr [104; 105]; CBool true; CBytes [0; 255]])) 0
      = Some (p, AIVM_PROGRAM_OK, 0, tick') /\
    instruction_store p = [mk_instruction AIVM_OP_CONST 1; mk_instruction AIVM_OP_PUSH_INT (-1);
               mk_instruction AIVM_OP_HALT 0] /\ instruction_count p = 3 /\ constant_count p = 4 /\
    Forall2 (denotes (string_storage p) (bytes_storage p)) (constant_store p)
      [CInt (-7); CStr [104; 105]; CBool true; CBytes [0; 255]].
Proof.
  apply (program_load_roundtrip (fun _ _ => true) 0%nat 5
    [mk_instruction AIVM_OP_CONST 1; mk_instruction AIVM_OP_PUSH_INT (-1); mk_instruction AIVM_OP_HALT 0]
    [CInt (-7); CStr [104; 105]; CBool true; CBytes [0; 255]]).
  - reflexivity.
  - lia.
  - repeat constructor; vm_compute; discriminate.
  - repeat constructor; vm_compute; discriminate.
  - vm_compute. discriminate.
  - vm_compute. discriminate.
  - reflexivity.
Defined.
