(* ===== verification/NumberText.v ===== *)
(** * Numbers as text (TO_STRING and runtime literals of src/src/aivm_vm.c)

    The decimal text of an [int64_t] as TO_STRING writes it, and of a [double] as
    the conversion "%.15g" of the C library prints it. *)

From S2P Require Import Prelude.
From Stdlib Require Import SpecFloat.

(** ** Integers *)

(** The [do ... while] loop of TO_STRING, from the last digit on; 20 digits hold every
    [uint64_t]. *)
Fixpoint digits_loop (fuel : nat) (magnitude : Z) (text : list Z) : list Z :=
  let text := 48 + magnitude mod 10 :: text in
  let magnitude := magnitude / 10 in
  match fuel with
  | O => text
  | S fuel' => if magnitude =? 0 then text else digits_loop fuel' magnitude text
  end.

Definition u64_text (magnitude : Z) : list Z := digits_loop 20 magnitude [].

(** [-(value + 1)] cannot overflow; the sum is taken as a [uint64_t]. *)
Definition int_text (value : Z) : list Z :=
  if value <? 0 then 45 :: u64_text (u64 (- (value + 1)) + 1) else u64_text value.

(** What a run of digits says. *)
Definition digits_value (text : list Z) : Z := fold_left (fun acc ch => acc * 10 + (ch - 48)) text 0.

Definition int_of_text (text : list Z) : Z :=
  match text with ch :: rest => if ch =? 45 then - digits_value rest else digits_value text | [] => 0 end.

Definition is_digit (ch : Z) : Prop := 48 <= ch <= 57.

Lemma digits_loop_spec fuel : forall m text, 0 <= m < 10 ^ Z.of_nat (S fuel) ->
  exists ds, digits_loop fuel m text = ds ++ text /\ ds <> [] /\ Forall is_digit ds /\
    (forall acc, fold_left (fun acc ch => acc * 10 + (ch - 48)) ds acc = acc * 10 ^ zlen ds + m) /\
    (m <> 0 -> exists d rest, ds = d :: rest /\ d <> 48).
Proof.
  induction fuel as [|fuel IH]; intros m text Hm.
  - change (10 ^ Z.of_nat 1) with 10 in Hm. cbn [digits_loop]. exists [48 + m mod 10]. rewrite Z.mod_small by lia.
    split_and!; [done|done|repeat constructor; lia| |intros; by exists (48 + m), []; split; [|lia]]. intros acc. cbn [fold_left].
    change (zlen [48 + m]) with 1. lia.
  - cbn [digits_loop]. pose proof (Z.mod_pos_bound m 10 ltac:(lia)). pose proof (Z.div_mod m 10 ltac:(lia)) as Ediv.
    destruct (Z.eqb_spec (m / 10) 0) as [E|E].
    + exists [48 + m mod 10]. split_and!; [done|done|repeat constructor; lia| |].
      * intros acc. cbn [fold_left]. change (zlen [48 + m mod 10]) with 1. lia.
      * intros Hz. exists (48 + m mod 10), []. split; [done|lia].
    + rewrite (Nat2Z.inj_succ (S fuel)), Z.pow_succ_r in Hm by lia.
      destruct (IH (m / 10) (48 + m mod 10 :: text)) as (ds & E1 & _ & E3 & E4 & E5).
      { split; [apply Z.div_pos; lia|]. apply Z.div_lt_upper_bound; lia. }
      exists (ds ++ [48 + m mod 10]). split_and!.
      * rewrite E1. by rewrite <- app_assoc.
      * by destruct ds.
      * apply Forall_app. split; [done|]. repeat constructor; lia.
      * intros acc. rewrite fold_left_app, E4. cbn [fold_left]. rewrite zlen_app. change (zlen [48 + m mod 10]) with 1.
        rewrite Z.pow_add_r by (pose proof (zlen_nonneg ds); lia). lia.
      * intros _. destruct (E5 E) as (d & rest & -> & Hd). by exists d, (rest ++ [48 + m mod 10]).
Qed.

Lemma u64_text_spec m : 0 <= m <= SIZE_MAX ->
  u64_text m <> [] /\ Forall is_digit (u64_text m) /\ digits_value (u64_text m) = m /\
  (m <> 0 -> exists d rest, u64_text m = d :: rest /\ d <> 48).
Proof.
  intros Hm. destruct (digits_loop_spec 20 m []) as (ds & E1 & E2 & E3 & E4 & E5); [unfold SIZE_MAX in Hm; lia|].
  unfold u64_text, digits_value. rewrite E1, app_nil_r, E4. by split_and!.
Qed.

(** The text of an integer reads back as the integer. *)
Lemma int_text_roundtrip value : int64_ok value = true -> int_of_text (int_text value) = value.
Proof.
  intros Hv. unfold int64_ok, INT64_MIN, INT64_MAX in Hv. unfold int_text. destruct (Z.ltb_spec value 0).
  - cbn [int_of_text Z.eqb Pos.eqb]. unfold u64. rewrite Z.mod_small by lia.
    destruct (u64_text_spec (- (value + 1) + 1)) as (_ & _ & -> & _); [unfold SIZE_MAX; lia|lia].
  - destruct (u64_text_spec value) as (Hne & Hd & Hv' & _); [unfold SIZE_MAX; lia|].
    destruct (u64_text value) as [|d rest] eqn:E; [done|]. apply Forall_cons in Hd as [[H1 H2] _].
    unfold int_of_text. destruct (Z.eqb_spec d 45); [lia|done].
Qed.

(** ** Doubles *)

(** The exact value of a finite double is a fraction. *)
Definition numerator (m : positive) (e : Z) : Z := if e <? 0 then Z.pos m else Z.pos m * 2 ^ e.
Definition denominator (e : Z) : Z := if e <? 0 then 2 ^ (- e) else 1.

(** The number of decimal digits of a positive integer, less one. *)
Fixpoint log10_loop (fuel : nat) (n k : Z) : Z :=
  match fuel with O => k | S fuel' => if n <? 10 then k else log10_loop fuel' (n / 10) (k + 1) end.

(** The least [k] from [k] on with [n * 10 ^ k >= d]. *)
Fixpoint scale_loop (fuel : nat) (n d k : Z) : Z :=
  match fuel with O => k | S fuel' => if d <=? n then k else scale_loop fuel' (n * 10) d (k + 1) end.

(** The decimal exponent of [n / d]; no double needs more than 324 steps. *)
Definition decimal_exponent (n d : Z) : Z :=
  if d <=? n then log10_loop 400 (n / d) 0 else - scale_loop 400 n d 0.

(** [n / d] rounded to an integer, halves to even. *)
Definition round_div (n d : Z) : Z :=
  let q := n / d in
  let r := 2 * (n mod d) in
  if (r <? d) || ((r =? d) && Z.even q) then q else q + 1.

(** The significand of 15 digits and its exponent, as the conversion "%e" rounds them. *)
Definition significand (n d : Z) : Z * Z :=
  let x := decimal_exponent n d in
  let q := if x <=? 14 then round_div (n * 10 ^ (14 - x)) d else round_div n (d * 10 ^ (x - 14)) in
  if q =? 10 ^ 15 then (10 ^ 14, x + 1) else (q, x).

Fixpoint strip_zeros (rev : list Z) : list Z :=
  match rev with ch :: rest => if ch =? 48 then strip_zeros rest else rev | [] => [] end.

(** Digits before and after the point, without trailing zeros. *)
Definition with_point (whole frac : list Z) : list Z :=
  match rev (strip_zeros (rev frac)) with [] => whole | frac => whole ++ 46 :: frac end.

(** At least two digits of the exponent. *)
Definition exponent_text (x : Z) : list Z :=
  let digits := u64_text (Z.abs x) in
  101 :: (if x <? 0 then 45 else 43) :: (if zlen digits <? 2 then 48 :: digits else digits).

Definition positive_text (n d : Z) : list Z :=
  let '(q, x) := significand n d in
  let digits := u64_text q in
  if (x <? -4) || (15 <=? x) then with_point (take 1 digits) (drop 1 digits) ++ exponent_text x
  else if x <? 0 then with_point [48] (replicate (Z.to_nat (- x - 1)) 48 ++ digits)
  else with_point (ztake (x + 1) digits) (zdrop (x + 1) digits).

(** "%.15g"; a NaN prints without its sign, which the model of doubles does not keep. *)
Definition number_text (f : spec_float) : list Z :=
  let signed (s : bool) (text : list Z) := if s then 45 :: text else text in
  match f with
  | S754_zero s => signed s [48]
  | S754_infinity s => signed s (bytes_of_string "inf")
  | S754_nan => bytes_of_string "nan"
  | S754_finite s m e => signed s (positive_text (numerator m e) (denominator e))
  end.

Example number_text_half : number_text (S754_finite true 1 (-1)) = bytes_of_string "-0.5".
Proof. vm_compute. reflexivity. Qed.

(** 0.1, the double nearest to a tenth. *)
Example number_text_tenth : number_text (S754_finite false 7205759403792794 (-56)) = bytes_of_string "0.1".
Proof. vm_compute. reflexivity. Qed.

(** 2^60 has more than 15 digits. *)
Example number_text_large : number_text (S754_finite false 1 60) = bytes_of_string "1.15292150460685e+18".
Proof. vm_compute. reflexivity. Qed.

(** The least positive double. *)
Example number_text_least : number_text (S754_finite false 1 (-1074)) = bytes_of_string "4.94065645841247e-324".
Proof. vm_compute. reflexivity. Qed.

(** ** The texts fit the buffers and are C strings *)

Definition printable (bound : nat) (text : list Z) : Prop := Forall (fun ch => ch <> 0) text /\ (length text <= bound)%nat.

Lemma digits_loop_printable fuel : forall m text n, printable n text -> printable (S fuel + n) (digits_loop fuel m text).
Proof.
  induction fuel as [|fuel IH]; intros m text n [H1 H2]; cbn [digits_loop].
  - split; [constructor; [pose proof (Z.mod_pos_bound m 10 eq_refl); lia|done]|cbn; lia].
  - assert (Hc : printable (S n) (48 + m mod 10 :: text)) by (split; [constructor; [pose proof (Z.mod_pos_bound m 10 eq_refl); lia|done]|cbn; lia]).
    destruct (m / 10 =? 0); [destruct Hc; split; [done|lia]|]. destruct (IH (m / 10) _ _ Hc). split; [done|lia].
Qed.

Lemma u64_text_printable m : printable 21 (u64_text m).
Proof. apply (digits_loop_printable 20 m [] 0). by split. Qed.

Lemma printable_app n k l l' : printable n l -> printable k l' -> printable (n + k) (l ++ l').
Proof. intros [H1 H2] [H3 H4]. split; [apply Forall_app; done|rewrite length_app; lia]. Qed.

Lemma printable_cons n ch l : ch <> 0 -> printable n l -> printable (S n) (ch :: l).
Proof. intros Hc [H1 H2]. split; [by constructor|cbn; lia]. Qed.

Lemma printable_le n k l : printable n l -> (n <= k)%nat -> printable k l.
Proof. intros [H1 H2] Hk. split; [done|lia]. Qed.

Lemma printable_take n k l : printable n l -> printable n (take k l).
Proof. intros [H1 H2]. split; [by apply Forall_take|rewrite length_take; lia]. Qed.

Lemma printable_drop n k l : printable n l -> printable n (drop k l).
Proof. intros [H1 H2]. split; [by apply Forall_drop|rewrite length_drop; lia]. Qed.

Lemma printable_rev n l : printable n l -> printable n (rev l).
Proof. intros [H1 H2]. split; [by apply Forall_rev|by rewrite length_rev]. Qed.

Lemma printable_strip n l : printable n l -> printable n (strip_zeros l).
Proof.
  induction l as [|ch l IH]; [done|]. intros [H1 H2]. cbn [strip_zeros]. destruct (ch =? 48); [|done]. apply IH.
  apply Forall_cons in H1 as [_ H1]. cbn in H2. split; [done|lia].
Qed.

Lemma with_point_printable n k whole frac : printable n whole -> printable k frac -> printable (n + S k) (with_point whole frac).
Proof.
  intros Hw Hf. unfold with_point. apply printable_rev, printable_strip, printable_rev in Hf.
  destruct (rev (strip_zeros (rev frac))); [apply (printable_le n); [done|lia]|]. apply printable_app; [done|by apply printable_cons].
Qed.

Lemma exponent_printable x : printable 24 (exponent_text x).
Proof.
  unfold exponent_text. cbv zeta. pose proof (u64_text_printable (Z.abs x)) as Hu.
  destruct (x <? 0); (destruct (_ <? 2); [|eapply printable_le with (n := 23%nat); [|lia]]); repeat (apply printable_cons; [done|]); done.
Qed.

Lemma positive_printable n d : printable 70 (positive_text n d).
Proof.
  unfold positive_text. destruct (significand n d) as [q x]. pose proof (u64_text_printable q) as Hu.
  destruct (Z.ltb_spec x (-4)), (Z.leb_spec 15 x); cbn [orb].
  1-3: apply (printable_le (21 + 22 + 24)); [apply printable_app; [apply (with_point_printable 21 21); [by apply printable_take|by apply printable_drop]|apply exponent_printable]|lia].
  destruct (Z.ltb_spec x 0).
  - apply (printable_le (1 + S (3 + 21))); [apply with_point_printable; [by split; [repeat constructor|cbn; lia]|apply printable_app; [|exact Hu]]|lia].
    split; [by apply Forall_replicate|rewrite length_replicate; lia].
  - apply (printable_le (21 + 22)); [apply (with_point_printable 21 21); [by apply printable_take|by apply printable_drop]|lia].
Qed.

Lemma int_text_printable i : printable 22 (int_text i).
Proof.
  unfold int_text. destruct (i <? 0); [apply printable_cons; [done|]; apply u64_text_printable|].
  apply (printable_le 21); [apply u64_text_printable|lia].
Qed.

Lemma number_text_printable f : printable 71 (number_text f).
Proof.
  destruct f as [[]|[]| |[] m e]; try (split; [repeat constructor; done|cbn; lia]); cbn [number_text].
  - apply printable_cons; [done|apply positive_printable].
  - apply (printable_le 70); [apply positive_printable|lia].
Qed.
