(* ===== verification/AosText.v ===== *)
(** * Reading AiLang source text (src/src/ailang_cli/ailang.c)

    The scanner of the command line tool: nodes of the form Kind#id(attrs) { body },
    attributes of the form key="value", escapes and numbers.  A range between two
    pointers into a source text is the list of its bytes; what the C library functions
    see of a text is its content without the terminator. *)

From S2P Require Import Prelude Types Program NumberText.
From Stdlib Require Import SpecFloat.

(** ** The C library *)

(** [isspace] in the "C" locale *)
Definition isspace (c : Z) : bool := (c =? 32) || ((9 <=? c) && (c <=? 13)).

Definition isdigit (c : Z) : bool := (48 <=? c) && (c <=? 57).

Fixpoint drop_while (f : Z -> bool) (l : list Z) : list Z :=
  match l with c :: l' => if f c then drop_while f l' else l | [] => [] end.

Fixpoint take_while (f : Z -> bool) (l : list Z) : list Z :=
  match l with c :: l' => if f c then c :: take_while f l' else [] | [] => [] end.

(** [strncmp(text, prefix, strlen(prefix)) == 0] *)
Fixpoint starts_with (text prefix : list Z) : bool :=
  match prefix, text with
  | [], _ => true
  | c :: prefix', d :: text' => (c =? d) && starts_with text' prefix'
  | _ :: _, [] => false
  end.

(** [strstr]: the rest of the text from the first occurrence on. *)
Fixpoint strstr (text needle : list Z) : option (list Z) :=
  if starts_with text needle then Some text
  else match text with [] => None | _ :: text' => strstr text' needle end.

(** [strchr] for a character other than NUL *)
Fixpoint strchr (text : list Z) (c : Z) : option (list Z) :=
  match text with [] => None | d :: text' => if d =? c then Some text else strchr text' c end.

(** The sign that [strtoll] and [strtod] skip. *)
Definition scan_sign (text : list Z) : bool * list Z :=
  match text with
  | c :: rest => if c =? 45 then (true, rest) else if c =? 43 then (false, rest) else (false, text)
  | [] => (false, [])
  end.

(** [strtoll(text, &end, 10)] with [end != text && *end == 0]: out of range values are
    clamped. *)
Definition strtoll (text : list Z) : option Z :=
  let '(negative, body) := scan_sign (drop_while isspace text) in
  let digits := take_while isdigit body in
  match digits, drop_while isdigit body with
  | _ :: _, [] =>
      let value := if negative then - digits_value digits else digits_value digits in
      Some (Z.max INT64_MIN (Z.min INT64_MAX value))
  | _, _ => None
  end.

(** The words of a [double] are 64 bits. *)
Definition as_double (d : spec_float) : spec_float := double_of_bits (bits_of_double d).

(** [m * 10 ^ e10] rounded to a [double]. *)
Definition decimal_double (negative : bool) (m e10 : Z) : spec_float :=
  match m with
  | Zpos _ =>
      if 0 <=? e10
      then as_double (binary_normalize 53 1024 (if negative then - (m * 10 ^ e10) else m * 10 ^ e10) 0 negative)
      else
        let '(q, e, loc) := SFdiv_core_binary 53 1024 m 0 (10 ^ (- e10)) 0 in
        as_double (binary_round_aux 53 1024 negative q e loc)
  | _ => S754_zero negative
  end.

Definition is_marker (c marker : Z) : bool := (c =? marker) || (c =? marker - 32).

(** An optional exponent: a marker in either case, a sign, and at least one digit.  The
    texts that are scanned have less than 4096 characters, so beyond 20000 the
    exponent does not matter any more. *)
Definition scan_exponent (marker : Z) (text : list Z) : Z * list Z :=
  match text with
  | c :: rest =>
      if is_marker c marker then
        let '(negative, body) := scan_sign rest in
        match take_while isdigit body with
        | [] => (0, text)
        | digits =>
            let e := Z.min 20000 (digits_value digits) in
            (if negative then - e else e, drop_while isdigit body)
        end
      else (0, text)
  | [] => (0, [])
  end.

(** Digits with an optional point: the digits, how many follow the point, the rest. *)
Definition scan_digits (digit : Z -> bool) (text : list Z) : list Z * Z * list Z :=
  let whole := take_while digit text in
  match drop_while digit text with
  | c :: rest =>
      if (c =? 46) && negb (bool_decide (whole = [] /\ take_while digit rest = []))
      then (whole ++ take_while digit rest, zlen (take_while digit rest), drop_while digit rest)
      else (whole, 0, c :: rest)
  | [] => (whole, 0, [])
  end.

Definition isxdigit (c : Z) : bool :=
  isdigit c || ((97 <=? c) && (c <=? 102)) || ((65 <=? c) && (c <=? 70)).

Definition xdigit_value (c : Z) : Z :=
  if isdigit c then c - 48 else if 97 <=? c then c - 87 else c - 55.

Definition lower (c : Z) : Z := if (65 <=? c) && (c <=? 90) then c + 32 else c.

(** "nan" with an optional sequence of characters in parentheses *)
Definition is_nan (word : list Z) : bool :=
  bool_decide (word = byte_str "nan")%aivm ||
  (starts_with word (byte_str "nan(")%aivm &&
   bool_decide (drop_while (fun c => isdigit c || ((97 <=? c) && (c <=? 122)) || (c =? 95)) (drop 4 word) = [41])).

(** [strtod(text, &end)] with [end != text && *end == 0] *)
Definition strtod (text : list Z) : option spec_float :=
  let '(negative, body) := scan_sign (drop_while isspace text) in
  let word := map lower body in
  if bool_decide (word = byte_str "inf" \/ word = byte_str "infinity")%aivm then Some (S754_infinity negative)
  else if is_nan word then Some S754_nan
  else
    match body with
    | a :: x :: hex =>
        match scan_digits isxdigit hex with
        | (digits, frac, rest) =>
            if (a =? 48) && is_marker x 120 && negb (bool_decide (digits = [])) then
              match scan_exponent 112 rest with
              | (e, []) =>
                  let m := fold_left (fun acc ch => acc * 16 + xdigit_value ch) digits 0 in
                  Some (if m =? 0 then S754_zero negative
                        else as_double (binary_normalize 53 1024 (if negative then - m else m) (e - 4 * frac) negative))
              | _ => None
              end
            else
              match scan_digits isdigit body with
              | (digits, frac, rest) =>
                  match digits, scan_exponent 101 rest with
                  | _ :: _, (e, []) => Some (decimal_double negative (digits_value digits) (e - frac))
                  | _, _ => None
                  end
              end
        end
    | _ =>
        match scan_digits isdigit body with
        | (digits, frac, []) =>
            match digits with _ :: _ => Some (decimal_double negative (digits_value digits) (- frac)) | [] => None end
        | _ => None
        end
    end.

Example strtod_tenth : strtod (byte_str "0.1")%aivm = Some (S754_finite false 7205759403792794 (-56)).
Proof. vm_compute. reflexivity. Qed.
Example strtod_small : strtod (byte_str " -4.9e-324")%aivm = Some (S754_finite true 1 (-1074)).
Proof. vm_compute. reflexivity. Qed.
Example strtod_hex : strtod (byte_str "0x1.8p1")%aivm = Some (S754_finite false 6755399441055744 (-51)).
Proof. vm_compute. reflexivity. Qed.

(** ** Nodes *)

(** The loop of [simple_find_matching_brace] and [simple_find_matching_paren]: the
    distance to the bracket that closes the first one. *)
Fixpoint matching_loop (op cl : Z) (range : list Z) (depth : Z) (in_string : bool) (q : Z) : option Z :=
  match range with
  | [] => None
  | c :: range' =>
      if c =? 0 then None
      else if in_string then
        match range' with
        | _ :: range'' =>
            if c =? 92 then matching_loop op cl range'' depth true (q + 2)
            else matching_loop op cl range' depth (negb (c =? 34)) (q + 1)
        | [] => None
        end
      else if c =? 34 then matching_loop op cl range' depth true (q + 1)
      else if c =? op then matching_loop op cl range' (depth + 1) false (q + 1)
      else if c =? cl then
        if depth - 1 =? 0 then Some q else matching_loop op cl range' (depth - 1) false (q + 1)
      else matching_loop op cl range' depth false (q + 1)
  end.

Definition find_matching (op cl : Z) (range : list Z) : option Z :=
  match range with
  | c :: _ => if c =? op then matching_loop op cl range 0 false 0 else None
  | [] => None
  end.

Definition simple_find_matching_brace : list Z -> option Z := find_matching 123 125.
Definition simple_find_matching_paren : list Z -> option Z := find_matching 40 41.

(** [SimpleNodeView]: the body is the range from [body_start] to [body_end], the rest
    the range from [next] to the end that was given. *)
Record SimpleNodeView := mk_view { kind : list Z; attrs : list Z; body : list Z; next : list Z }.

Definition kind_char (c : Z) : bool :=
  negb ((c =? 0) || isspace c || (c =? 40) || (c =? 123) || (c =? 35)).
Definition id_char (c : Z) : bool := negb ((c =? 0) || isspace c || (c =? 40) || (c =? 123)).
Definition blank (c : Z) : bool := negb (c =? 0) && isspace c.

Definition head_is (c : Z) (range : list Z) : bool :=
  match range with d :: _ => d =? c | [] => false end.

(** The attributes between parentheses, and what follows them. *)
Definition parse_attrs (kid_end : list Z) : option (list Z * list Z) :=
  if head_is 40 kid_end then
    rparen ← simple_find_matching_paren kid_end;
    if 512 <? (rparen - 1) + 1 then None
    else Some (ztake (rparen - 1) (zdrop 1 kid_end), zdrop (rparen + 1) kid_end)
  else Some ([], kid_end).

(** The body between braces, and what follows it. *)
Definition parse_body (open_brace : list Z) : option (list Z * list Z) :=
  if head_is 123 open_brace then
    close_brace ← simple_find_matching_brace open_brace;
    Some (ztake (close_brace - 1) (zdrop 1 open_brace), zdrop (close_brace + 1) open_brace)
  else Some ([], open_brace).

Definition simple_parse_next_node (range : list Z) : option SimpleNodeView :=
  let kstart := drop_while blank range in
  if bool_decide (kstart = []) || head_is 0 kstart then None
  else
    let k := take_while kind_char kstart in
    let kdelim := drop_while kind_char kstart in
    if bool_decide (k = []) || bool_decide (kdelim = []) then None
    else if 32 <? zlen k + 1 then None
    else
      let kid_end := if head_is 35 kdelim then drop_while id_char (zdrop 1 kdelim) else kdelim in
      a ← parse_attrs kid_end;
      b ← parse_body (drop_while blank a.2);
      Some (mk_view k a.1 b.1 b.2).

(** ** Attributes *)

Definition line_space (c : Z) : bool := (c =? 32) || (c =? 9) || (c =? 13) || (c =? 10).
Definition attr_separator (c : Z) : bool := line_space c || (c =? 44).

(** The rest of a token: up to a separator outside of quotes. *)
Fixpoint skip_token (quoted escaped : bool) (p : list Z) : list Z :=
  match p with
  | [] => []
  | c :: p' =>
      if quoted then
        if negb escaped && (c =? 34) then skip_token false false p'
        else skip_token true (negb escaped && (c =? 92)) p'
      else if attr_separator c then p
      else skip_token (c =? 34) false p'
  end.

(** The value if the attribute at [p] has the key. *)
Definition attr_value_at (p key : list Z) : option (list Z) :=
  if starts_with p key then
    match zdrop (zlen key) p with
    | c :: _ =>
        if (c =? 61) || line_space c then
          match drop_while line_space (zdrop (zlen key) p) with
          | e :: q => if e =? 61 then Some (drop_while line_space q) else None
          | [] => None
          end
        else None
    | [] => None
    end
  else None.

(** Every round reads at least one character. *)
Fixpoint attr_start_loop (fuel : nat) (p key : list Z) : option (list Z) :=
  match fuel with
  | O => None
  | S fuel' =>
      match p with
      | [] => None
      | _ =>
          let p1 := drop_while attr_separator p in
          match attr_value_at p1 key with
          | Some q => Some q
          | None => attr_start_loop fuel' (skip_token false false p1) key
          end
      end
  end.

Definition parse_attr_value_start (attrs key : list Z) : option (list Z) :=
  if zlen key =? 0 then None else attr_start_loop (S (length attrs)) attrs key.

(** A quoted value up to its closing quote. *)
Fixpoint quoted_value (escaped : bool) (p : list Z) : list Z :=
  match p with
  | [] => []
  | c :: p' => if negb escaped && (c =? 34) then [] else c :: quoted_value (negb escaped && (c =? 92)) p'
  end.

Definition parse_attr_span (attrs key : list Z) (out_len : Z) : option (list Z) :=
  vstart ← parse_attr_value_start attrs key;
  let value := if head_is 34 vstart then quoted_value false (zdrop 1 vstart)
               else take_while (fun c => negb (line_space c)) vstart in
  if out_len <? zlen value + 1 then None else Some value.

Definition parse_attr_value_is_quoted (attrs key : list Z) : bool :=
  match parse_attr_value_start attrs key with Some vstart => head_is 34 vstart | None => false end.

Definition has_attr_key (attrs key : list Z) : bool :=
  bool_decide (is_Some (parse_attr_value_start attrs key)).

Definition parse_attr_int64 (attrs key : list Z) : option Z :=
  text ← parse_attr_span attrs key 64; strtoll text.

Definition parse_attr_double (attrs key : list Z) : option spec_float :=
  text ← parse_attr_span attrs key 128; strtod text.

Definition parse_attr_bool (attrs key : list Z) : option bool :=
  text ← parse_attr_span attrs key 16;
  if bool_decide (text = byte_str "true")%aivm then Some true
  else if bool_decide (text = byte_str "false")%aivm then Some false else None.

(** [unescape_string]; [w] bytes have been written. *)
Fixpoint unescape_loop (input : list Z) (w out_len : Z) : option (list Z) :=
  match input with
  | [] => Some []
  | c :: input' =>
      if c =? 92 then
        match input' with
        | [] => None
        | e :: input'' =>
            if out_len <=? w + 1 then None
            else
              ch ← (if e =? 110 then Some 10 else if e =? 114 then Some 13 else if e =? 116 then Some 9
                    else if (e =? 34) || (e =? 92) then Some e else None);
              rest ← unescape_loop input'' (w + 1) out_len;
              Some (ch :: rest)
        end
      else if out_len <=? w + 1 then None
      else rest ← unescape_loop input' (w + 1) out_len; Some (c :: rest)
  end.

Definition unescape_string (input : list Z) (out_len : Z) : option (list Z) :=
  if out_len =? 0 then None else unescape_loop input 0 out_len.

(** ** The children of a node

    The loops [while (simple_parse_next_node(c, end, &child)) { ...; c = child.next; }].
    Every round reads a kind, so the rounds are at most the length of the range. *)
Fixpoint views_loop (fuel : nat) (range : list Z) : list SimpleNodeView :=
  match fuel with
  | O => []
  | S fuel' =>
      match simple_parse_next_node range with
      | Some v => v :: views_loop fuel' (next v)
      | None => []
      end
  end.

Definition views (range : list Z) : list SimpleNodeView := views_loop (length range) range.

Lemma drop_while_length f l : (length (drop_while f l) <= length l)%nat.
Proof. induction l as [|c l IH]; [done|]. cbn [drop_while]. destruct (f c); cbn; lia. Qed.

Lemma take_drop_while f l : take_while f l ++ drop_while f l = l.
Proof. induction l as [|c l IH]; [done|]. cbn. destruct (f c); [|done]. cbn. by rewrite IH. Qed.

Lemma matching_loop_bound op cl n : forall range depth s q r, (length range <= n)%nat ->
  matching_loop op cl range depth s q = Some r -> q <= r < q + zlen range.
Proof.
  induction n as [|n IH]; intros range depth s q r Hn; (destruct range as [|c range]; [done|]); [cbn in Hn; lia|].
  cbn [matching_loop]. rewrite zlen_cons. cbn in Hn.
  assert (Hstep : forall l d s' k, (length l <= length range)%nat -> 0 <= k -> zlen l + k <= zlen range + 1 ->
    matching_loop op cl l d s' (q + k) = Some r -> q <= r < q + (zlen range + 1)).
  { intros l d s' k Hl Hk Hz H. apply IH in H; [|lia]. lia. }
  destruct (c =? 0); [done|]. destruct s.
  { destruct range as [|c' range]; [done|]. rewrite zlen_cons in *. destruct (c =? 92); apply Hstep; rewrite ?zlen_cons; cbn; lia. }
  destruct (c =? 34); [apply Hstep; lia|]. destruct (c =? op); [apply Hstep; lia|].
  destruct (c =? cl); [|apply Hstep; lia]. destruct (depth - 1 =? 0); [|apply Hstep; lia].
  intros [= <-]. pose proof (zlen_nonneg range). lia.
Qed.

(** Where a bracket was opened it is closed further on. *)
Lemma find_matching_bound op cl range r : op <> cl -> find_matching op cl range = Some r -> 1 <= r < zlen range.
Proof.
  intros Hoc. unfold find_matching. destruct range as [|c range]; [done|].
  destruct (Z.eqb_spec c op) as [->|]; [|done]. cbn [matching_loop]. rewrite zlen_cons.
  destruct (op =? 0); [done|]. rewrite Z.eqb_refl. destruct (op =? 34); intros H;
    apply (matching_loop_bound op cl (length range)) in H; lia.
Qed.

Lemma parse_part_length {A} (l : list A) n : 1 <= n < zlen l ->
  (length (ztake (n - 1) (zdrop 1 l)) < length l)%nat /\ (length (zdrop (n + 1) l) < length l)%nat.
Proof. unfold ztake, zdrop, zlen. rewrite length_take, !length_drop. lia. Qed.

Lemma parse_attrs_length l a rest : parse_attrs l = Some (a, rest) -> (length rest <= length l)%nat.
Proof.
  unfold parse_attrs. destruct (head_is 40 l); [|by intros [= _ <-]].
  destruct (simple_find_matching_paren l) as [r|] eqn:E; [|done]. cbn [mbind option_bind].
  destruct (512 <? r - 1 + 1); [done|]. intros [= _ <-].
  apply find_matching_bound in E; [|done]. pose proof (parse_part_length l r E). lia.
Qed.

Lemma parse_body_length l b rest : parse_body l = Some (b, rest) ->
  (length rest <= length l)%nat /\ (length b <= length l)%nat.
Proof.
  unfold parse_body. destruct (head_is 123 l); [|intros [= <- <-]; cbn; lia].
  destruct (simple_find_matching_brace l) as [r|] eqn:E; [|done]. cbn [mbind option_bind]. intros [= <- <-].
  apply find_matching_bound in E; [|done]. pose proof (parse_part_length l r E). lia.
Qed.

(** A node takes at least its kind off the range: what follows and its body are shorter. *)
Lemma parse_node_shorter range v : simple_parse_next_node range = Some v ->
  (length (next v) < length range)%nat /\ (length (body v) < length range)%nat.
Proof.
  unfold simple_parse_next_node. set (ks := drop_while blank range).
  pose proof (drop_while_length blank range) as H0. fold ks in H0.
  destruct (bool_decide (ks = []) || head_is 0 ks); [done|].
  pose proof (take_drop_while kind_char ks) as Hs.
  destruct (take_while kind_char ks) as [|c k] eqn:Ek; [done|].
  set (kd := drop_while kind_char ks) in *. rewrite bool_decide_false by done. cbn [orb].
  destruct (bool_decide (kd = [])); [done|]. destruct (32 <? zlen (c :: k) + 1); [done|].
  assert (Hk : (S (length kd) <= length range)%nat) by (rewrite <- Hs in H0; cbn in H0; rewrite length_app in H0; lia).
  set (kid := if head_is 35 kd then _ else _).
  assert (Hkid : (length kid <= length kd)%nat).
  { unfold kid. destruct (head_is 35 kd); [|done]. etrans; [apply drop_while_length|]. unfold zdrop. rewrite length_drop. lia. }
  destruct (parse_attrs kid) as [[a rest]|] eqn:Ea; [|done]. cbn [mbind option_bind fst snd].
  apply parse_attrs_length in Ea. pose proof (drop_while_length blank rest).
  destruct (parse_body (drop_while blank rest)) as [[b nxt]|] eqn:Eb; [|done]. cbn [mbind option_bind fst snd].
  apply parse_body_length in Eb. intros [= <-]. cbn. lia.
Qed.

Lemma views_loop_enough n : forall m range, (length range <= n)%nat -> (n <= m)%nat ->
  views_loop n range = views_loop m range.
Proof.
  induction n as [|n IH]; intros m range Hn Hm.
  - destruct range; [|cbn in Hn; lia]. destruct m; reflexivity.
  - destruct m as [|m]; [lia|]. cbn [views_loop]. destruct (simple_parse_next_node range) as [v|] eqn:E; [|done].
    f_equal. apply parse_node_shorter in E. apply IH; lia.
Qed.

(** The views of a range: its first node and the views of what follows. *)
Lemma views_step range :
  views range = match simple_parse_next_node range with Some v => v :: views (next v) | None => [] end.
Proof.
  unfold views. rewrite (views_loop_enough _ (S (length range))) by lia. cbn [views_loop].
  destruct (simple_parse_next_node range) as [v|] eqn:E; [|done]. f_equal.
  apply parse_node_shorter in E. symmetry. apply views_loop_enough; lia.
Qed.

Lemma views_shorter n : forall range v, (length range <= n)%nat -> v ∈ views range -> (length (body v) < length range)%nat.
Proof.
  induction n as [|n IH]; intros range v Hn; rewrite views_step.
  { destruct range; [|cbn in Hn; lia]. by intros ?%not_elem_of_nil. }
  destruct (simple_parse_next_node range) as [w|] eqn:E; [|by intros ?%not_elem_of_nil].
  apply parse_node_shorter in E as [E1 E2]. intros [->|Hv]%elem_of_cons; [done|].
  apply IH in Hv; lia.
Qed.

(** A child has a shorter body than its parent. *)
Lemma view_body_shorter node v : v ∈ views (body node) -> (length (body v) < length (body node))%nat.
Proof. intros H. by apply (views_shorter _ _ _ (le_n _)) in H. Qed.
