(* ===== verification/AosFormat.v ===== *)
(** * The text format of nodes

    A printer for nodes whose attribute values are escaped by STR_ESCAPE, and the round
    trip: the scanner of AosText.v finds kind, attributes and children again. *)

From S2P Require Import Prelude Runes AosText.

(** ** Printing *)

Inductive aos := AosNode (k i : list Z) (pairs : list (list Z * list Z)) (children : list aos).

Definition print_attr (kv : list Z * list Z) : list Z := kv.1 ++ [61; 34] ++ escape_text kv.2 ++ [34].

Fixpoint print_attrs (pairs : list (list Z * list Z)) : list Z :=
  match pairs with
  | [] => []
  | [kv] => print_attr kv
  | kv :: rest => print_attr kv ++ 32 :: print_attrs rest
  end.

Fixpoint print_aos (t : aos) : list Z :=
  match t with
  | AosNode k i pairs children =>
      k ++ 35 :: i ++ 40 :: print_attrs pairs ++ 41 :: 32 :: 123 :: flat_map (fun c => 32 :: print_aos c) children ++ [125]
  end.

(** Characters without a meaning in the format. *)
Definition plain (c : Z) : bool :=
  negb ((c =? 0) || isspace c || (c =? 34) || (c =? 35) || (c =? 40) || (c =? 41) || (c =? 44) || (c =? 61)
        || (c =? 123) || (c =? 125)).

Definition name_ok (text : list Z) : Prop := Forall (fun c => plain c = true) text.

Inductive aos_ok : aos -> Prop :=
  | aos_ok_node k i pairs children :
      name_ok k -> 0 < zlen k <= 31 -> name_ok i ->
      Forall (fun kv => name_ok kv.1 /\ kv.1 <> [] /\ Forall (fun c => c <> 0) kv.2) pairs ->
      zlen (print_attrs pairs) <= 511 ->
      Forall aos_ok children -> aos_ok (AosNode k i pairs children).

(** ** Matching brackets *)

Section Matching.
Context (op cl : Z) (Hpair : (op = 123 /\ cl = 125) \/ (op = 40 /\ cl = 41)).

(** Passing over the text leaves the depth as it was. *)
Definition neutral (text : list Z) : Prop := forall rest depth q, 1 <= depth ->
  matching_loop op cl (text ++ rest) depth false q = matching_loop op cl rest depth false (q + zlen text).

Lemma neutral_nil : neutral [].
Proof. intros rest depth q _. by rewrite zlen_nil, Z.add_0_r. Qed.

Lemma neutral_app a b : neutral a -> neutral b -> neutral (a ++ b).
Proof.
  intros Ha Hb rest depth q Hd. rewrite <- app_assoc, Ha, Hb, zlen_app by done. f_equal. lia.
Qed.

Lemma neutral_char c : c <> 0 -> c <> 34 -> c <> op -> c <> cl -> neutral [c].
Proof. intros H0 H1 H2 H3 rest depth q Hd. cbn [app matching_loop]. bdestruct_all; try lia. done. Qed.

Lemma neutral_plain text : name_ok text -> neutral text.
Proof.
  induction 1 as [|c text Hc _ IH]; [apply neutral_nil|]. apply (neutral_app [c]); [|done].
  unfold plain in Hc. apply neutral_char; destruct Hpair as [[-> ->]|[-> ->]]; intros ->; done.
Qed.

Lemma escaped_stays v : Forall (fun c => c <> 0) v -> forall rest depth q, rest <> [] ->
  matching_loop op cl (escape_text v ++ rest) depth true q =
    matching_loop op cl rest depth true (q + zlen (escape_text v)).
Proof.
  induction 1 as [|c v Hc _ IH]; intros rest depth q Hr; [cbn; by rewrite zlen_nil, Z.add_0_r|].
  cbn [escape_text flat_map]. fold (escape_text v). rewrite <- app_assoc, zlen_app.
  assert (Hpairs : forall e, matching_loop op cl ([92; e] ++ escape_text v ++ rest) depth true q =
    matching_loop op cl rest depth true (q + (zlen [92; e] + zlen (escape_text v)))).
  { intros e. change (zlen [92; e]) with 2. cbn [app matching_loop Z.eqb Pos.eqb]. rewrite IH by done. f_equal. lia. }
  unfold escape_char. destruct (Z.eqb_spec c 92); [apply Hpairs|]. destruct (Z.eqb_spec c 34); [apply Hpairs|].
  do 3 (destruct (_ =? _); [apply Hpairs|]).
  cbn [app matching_loop]. destruct (escape_text v ++ rest) as [|d l] eqn:E.
  { apply app_eq_nil in E as [_ E]. done. }
  destruct (Z.eqb_spec c 0); [done|]. destruct (Z.eqb_spec c 92); [done|]. destruct (Z.eqb_spec c 34); [done|].
  cbn [negb]. rewrite <- E, IH by done. change (zlen [c]) with 1. f_equal. lia.
Qed.

Lemma neutral_quoted v : Forall (fun c => c <> 0) v -> neutral ([34] ++ escape_text v ++ [34]).
Proof.
  intros Hv rest depth q Hd. rewrite <- !app_assoc. cbn [app matching_loop Z.eqb Pos.eqb].
  rewrite escaped_stays by done. cbn [matching_loop Z.eqb Pos.eqb negb].
  rewrite zlen_cons, zlen_app. change (zlen [34]) with 1. 
  destruct rest as [|c rest]; [done|]. f_equal. lia.
Qed.

Lemma neutral_bracket text : neutral text -> neutral (op :: text ++ [cl]).
Proof.
  intros Ht rest depth q Hd. cbn [app matching_loop]. rewrite <- app_assoc.
  assert (op <> 0 /\ op <> 34 /\ cl <> 0 /\ cl <> 34 /\ op <> cl) as (? & ? & ? & ? & ?) by lia.
  destruct (Z.eqb_spec op 0); [done|]. destruct (Z.eqb_spec op 34); [done|]. rewrite Z.eqb_refl.
  rewrite Ht by lia. cbn [app matching_loop].
  destruct (Z.eqb_spec cl 0); [done|]. destruct (Z.eqb_spec cl 34); [done|]. destruct (Z.eqb_spec cl op); [lia|].
  rewrite Z.eqb_refl. destruct (Z.eqb_spec (depth + 1 - 1) 0); [lia|].
  rewrite zlen_cons, zlen_app. change (zlen [cl]) with 1. f_equal; lia.
Qed.

Lemma find_matching_neutral text rest : neutral text ->
  find_matching op cl (op :: text ++ cl :: rest) = Some (zlen text + 1).
Proof.
  intros Ht. unfold find_matching. rewrite Z.eqb_refl. cbn [matching_loop].
  assert (op <> 0 /\ op <> 34 /\ cl <> 0 /\ cl <> 34 /\ op <> cl) as (? & ? & ? & ? & ?) by lia.
  destruct (Z.eqb_spec op 0); [done|]. destruct (Z.eqb_spec op 34); [done|]. rewrite Z.eqb_refl.
  rewrite Ht by lia. cbn [matching_loop].
  destruct (Z.eqb_spec cl 0); [done|]. destruct (Z.eqb_spec cl 34); [done|]. destruct (Z.eqb_spec cl op); [lia|].
  rewrite Z.eqb_refl. cbn. f_equal. lia.
Qed.

Lemma neutral_attrs pairs :
  Forall (fun kv => name_ok kv.1 /\ kv.1 <> [] /\ Forall (fun c => c <> 0) kv.2) pairs -> neutral (print_attrs pairs).
Proof.
  assert (Hone : forall kv, name_ok kv.1 -> Forall (fun c => c <> 0) kv.2 -> neutral (print_attr kv)).
  { intros kv Hk Hv. unfold print_attr. apply neutral_app; [by apply neutral_plain|].
    change ([61; 34] ++ escape_text kv.2 ++ [34]) with ([61] ++ ([34] ++ escape_text kv.2 ++ [34])).
    apply neutral_app; [apply neutral_char; lia|]. by apply neutral_quoted. }
  induction 1 as [|kv pairs (Hk & _ & Hv) _ IH]; [apply neutral_nil|]. cbn [print_attrs].
  destruct pairs as [|kv' pairs]; [by apply Hone|]. apply neutral_app; [by apply Hone|].
  apply (neutral_app [32]); [apply neutral_char; lia|done].
Qed.

End Matching.

(** ** Attributes *)

(** The first value of a key. *)
Fixpoint attr_of (pairs : list (list Z * list Z)) (key : list Z) : option (list Z) :=
  match pairs with
  | [] => None
  | (k, v) :: rest => if bool_decide (k = key) then Some v else attr_of rest key
  end.

Lemma plain_facts c : plain c = true ->
  attr_separator c = false /\ line_space c = false /\ c <> 61 /\ c <> 34 /\ kind_char c = true /\ id_char c = true /\ blank c = false.
Proof.
  unfold plain, attr_separator, line_space, kind_char, id_char, blank, isspace. intros H.
  apply negb_true_iff in H. rewrite !orb_false_iff in H. destruct H as (((((((((H0 & H1) & H2) & H3) & H4) & H5) & H6) & H7) & H8) & H9).
  destruct H1 as [H1 H1']. rewrite H0, H1, H1', H3, H4, H6, H8. cbn. rewrite ?andb_false_r. split_and!; try done; lia.
Qed.

Lemma span_while f a b : Forall (fun c => f c = true) a -> (match b with [] => True | c :: _ => f c = false end) ->
  take_while f (a ++ b) = a /\ drop_while f (a ++ b) = b.
Proof.
  intros Ha Hb. induction Ha as [|c a Hc _ [IH1 IH2]]; cbn [app take_while drop_while].
  - destruct b as [|c b]; [done|]. cbn. by rewrite Hb.
  - by rewrite Hc, IH1, IH2.
Qed.

Lemma drop_while_none f l : (match l with [] => True | c :: _ => f c = false end) -> drop_while f l = l.
Proof. intros H. by destruct (span_while f [] l). Qed.

Lemma starts_with_name k key l : name_ok key -> starts_with (k ++ 61 :: l) key = true -> exists k2, k = key ++ k2.
Proof.
  intros Hk. revert k. induction Hk as [|c key Hc _ IH]; intros k; [by exists k|].
  destruct k as [|d k]; cbn [app starts_with].
  - destruct (Z.eqb_spec c 61) as [->|]; [by destruct (plain_facts 61 Hc) as (_ & _ & ? & _)|done].
  - destruct (Z.eqb_spec c d) as [->|]; [|done]. cbn. intros H. destruct (IH _ H) as [k2 ->]. by exists k2.
Qed.

Lemma starts_with_app key l : starts_with (key ++ l) key = true.
Proof. induction key as [|c key IH]; [by destruct l|]. cbn. by rewrite Z.eqb_refl. Qed.

Lemma attr_value_at_printed k v tail key : name_ok k -> name_ok key ->
  attr_value_at (print_attr (k, v) ++ tail) key =
    if bool_decide (k = key) then Some (34 :: escape_text v ++ 34 :: tail) else None.
Proof.
  intros Hk Hkey. unfold attr_value_at, print_attr. cbn [fst snd].
  replace ((k ++ [61; 34] ++ escape_text v ++ [34]) ++ tail) with (k ++ 61 :: 34 :: escape_text v ++ 34 :: tail)
    by (by rewrite <- !app_assoc).
  destruct (starts_with _ key) eqn:Es.
  - apply starts_with_name in Es as [k2 ->]; [|done]. rewrite <- app_assoc, zdrop_app. destruct k2 as [|c k2].
    + rewrite bool_decide_true by (by rewrite app_nil_r). done.
    + apply Forall_app in Hk as [_ Hk]. apply Forall_cons in Hk as [Hc _].
      destruct (plain_facts c Hc) as (_ & Hl & Hne & _). cbn [app]. destruct (Z.eqb_spec c 61); [done|].
      rewrite Hl. cbn [orb]. rewrite bool_decide_false; [done|]. intros E. rewrite <- (app_nil_r key) in E at 2. by simplify_list_eq.
  - rewrite bool_decide_false; [done|]. intros ->. by rewrite starts_with_app in Es.
Qed.

Lemma skip_escaped v tail : skip_token true false (escape_text v ++ 34 :: tail) = skip_token false false tail.
Proof.
  induction v as [|c v IH]; [done|]. cbn [escape_text flat_map]. fold (escape_text v). rewrite <- app_assoc.
  unfold escape_char. destruct (Z.eqb_spec c 92); [done|]. destruct (Z.eqb_spec c 34); [done|].
  do 3 (destruct (_ =? _); [done|]). cbn [app skip_token negb andb].
  destruct (Z.eqb_spec c 34); [done|]. by destruct (Z.eqb_spec c 92).
Qed.

Lemma skip_printed kv tail : name_ok kv.1 -> skip_token false false (print_attr kv ++ tail) = skip_token false false tail.
Proof.
  intros Hk. unfold print_attr. rewrite <- !app_assoc. induction Hk as [|c k Hc _ IH].
  - cbn [app skip_token attr_separator line_space Z.eqb Pos.eqb orb]. apply skip_escaped.
  - destruct (plain_facts c Hc) as (Hs & _ & _ & Hq & _). cbn [app skip_token]. rewrite Hs.
    by destruct (Z.eqb_spec c 34).
Qed.

Lemma quoted_escaped v tail : quoted_value false (escape_text v ++ 34 :: tail) = escape_text v.
Proof.
  induction v as [|c v IH]; [done|]. cbn [escape_text flat_map]. fold (escape_text v). rewrite <- app_assoc.
  unfold escape_char. destruct (Z.eqb_spec c 92); [cbn; by rewrite IH|]. destruct (Z.eqb_spec c 34); [cbn; by rewrite IH|].
  do 3 (destruct (_ =? _); [cbn; by rewrite IH|]). cbn [app quoted_value negb andb].
  destruct (Z.eqb_spec c 34); [done|]. destruct (Z.eqb_spec c 92); [done|]. by rewrite IH.
Qed.

(** STR_ESCAPE and [unescape_string] are inverse to each other. *)
Lemma unescape_escaped v : forall w out_len, w + zlen v < out_len ->
  unescape_loop (escape_text v) w out_len = Some v.
Proof.
  induction v as [|c v IH]; intros w out_len Hl; [done|]. rewrite zlen_cons in Hl. pose proof (zlen_nonneg v).
  cbn [escape_text flat_map]. fold (escape_text v). unfold escape_char.
  assert (Hstep : forall e, (e =? 110) || (e =? 114) || (e =? 116) || (e =? 34) || (e =? 92) = true ->
    unescape_loop ([92; e] ++ escape_text v) w out_len =
      Some ((if e =? 110 then 10 else if e =? 114 then 13 else if e =? 116 then 9 else e) :: v)).
  { intros e He. cbn [app unescape_loop Z.eqb Pos.eqb]. destruct (Z.leb_spec out_len (w + 1)); [lia|].
    rewrite (IH (w + 1) out_len) by lia.
    destruct (e =? 110); [done|]. destruct (e =? 114); [done|]. destruct (e =? 116); [done|]. cbn [orb] in He. by rewrite He. }
  destruct (Z.eqb_spec c 92) as [->|N1]; [by apply Hstep|]. destruct (Z.eqb_spec c 34) as [->|N2]; [by apply Hstep|].
  destruct (Z.eqb_spec c 10) as [->|N3]; [by apply Hstep|]. destruct (Z.eqb_spec c 13) as [->|N4]; [by apply Hstep|].
  destruct (Z.eqb_spec c 9) as [->|N5]; [by apply Hstep|].
  cbn [app unescape_loop]. destruct (Z.eqb_spec c 92); [done|]. destruct (Z.leb_spec out_len (w + 1)); [lia|].
  by rewrite IH by lia.
Qed.

Lemma attr_loop_printed key : name_ok key -> key <> [] -> forall pairs fuel sep,
  Forall (fun kv => name_ok kv.1 /\ kv.1 <> [] /\ Forall (fun c => c <> 0) kv.2) pairs ->
  (sep = [] \/ sep = [32]) -> (length pairs < fuel)%nat ->
  match attr_start_loop fuel (sep ++ print_attrs pairs) key with
  | None => attr_of pairs key = None
  | Some q => exists v tail, attr_of pairs key = Some v /\ q = 34 :: escape_text v ++ 34 :: tail
  end.
Proof.
  intros Hkey Hne. induction pairs as [|[k v] pairs IH]; intros fuel sep Hp Hsep Hf; (destruct fuel as [|fuel]; [cbn in Hf; lia|]).
  - cbn [print_attrs]. rewrite app_nil_r. assert (Hend : attr_start_loop fuel [] key = None) by (by destruct fuel).
    destruct Hsep as [-> | ->]; cbn [attr_start_loop]; [done|]. cbn [drop_while attr_separator line_space Z.eqb Pos.eqb orb].
    destruct key as [|c key]; [done|]. cbn [attr_value_at starts_with skip_token]. by rewrite Hend.
  - apply Forall_cons in Hp as [(Hk & Hkne & Hv) Hp]. cbn [fst snd] in *.
    assert (exists tail, print_attrs ((k, v) :: pairs) = print_attr (k, v) ++ tail /\
      (tail = [] /\ pairs = [] \/ tail = 32 :: print_attrs pairs)) as (tail & Et & Htail).
    { cbn [print_attrs]. destruct pairs; [exists []; rewrite app_nil_r; tauto|]. eexists. split; [done|]. by right. }
    rewrite Et. cbn [attr_start_loop].
    assert (Hd : drop_while attr_separator (sep ++ print_attr (k, v) ++ tail) = print_attr (k, v) ++ tail).
    { destruct k as [|c k]; [done|]. apply Forall_cons in Hk as [Hc _]. destruct (plain_facts c Hc) as (Hs & _).
      apply (span_while attr_separator sep); [destruct Hsep as [-> | ->]; repeat constructor|]. done. }
    rewrite Hd, attr_value_at_printed by done. cbn [attr_of].
    destruct (sep ++ print_attr (k, v) ++ tail) as [|c0 l0] eqn:E0.
    { apply app_eq_nil in E0 as [_ [E0 _]%app_eq_nil]. unfold print_attr in E0. by apply app_eq_nil in E0 as [_ E0]. }
    clear E0 Hd. case_bool_decide; [by exists v, tail|].
    rewrite skip_printed by done. cbn in Hf. destruct Htail as [[-> ->]| ->].
    + cbn [skip_token]. by destruct fuel.
    + cbn [skip_token attr_separator line_space Z.eqb Pos.eqb orb].
      apply (IH fuel [32]); [done|by right|lia].
Qed.

(** Looking up a printed attribute. *)
Lemma parse_span_printed pairs key out_len :
  Forall (fun kv => name_ok kv.1 /\ kv.1 <> [] /\ Forall (fun c => c <> 0) kv.2) pairs -> name_ok key -> key <> [] ->
  zlen (print_attrs pairs) < out_len ->
  parse_attr_span (print_attrs pairs) key out_len = escape_text <$> attr_of pairs key.
Proof.
  intros Hp Hkey Hne Hout. unfold parse_attr_span, parse_attr_value_start.
  destruct (Z.eqb_spec (zlen key) 0) as [E|_]; [by destruct key|].
  assert (Hlen : forall l : list (list Z * list Z), Forall (fun kv => kv.1 <> []) l -> (length l <= length (print_attrs l))%nat).
  { induction 1 as [|kv l Hkv _ IH]; [done|]. destruct l as [|kv' l].
    - cbn [print_attrs length]. unfold print_attr. rewrite !length_app. cbn. lia.
    - change (print_attrs (kv :: kv' :: l)) with (print_attr kv ++ 32 :: print_attrs (kv' :: l)).
      rewrite length_app. cbn [length] in *. lia. }
  pose proof (attr_loop_printed key Hkey Hne pairs (S (length (print_attrs pairs))) [] Hp (or_introl eq_refl)) as H.
  cbn [app] in H. 
  assert (Hf : (length pairs < S (length (print_attrs pairs)))%nat).
  { apply Nat.lt_succ_r, Hlen. eapply Forall_impl; [exact Hp|]. by intros kv (_ & ? & _). }
  specialize (H Hf). destruct (attr_start_loop _ _ _) as [q|] eqn:Eq; cbn [mbind option_bind]; [|by rewrite H].
  destruct H as (v & tail & Ev & ->). rewrite Ev. cbn [head_is Z.eqb Pos.eqb fmap option_fmap option_map].
  change (zdrop 1 (34 :: escape_text v ++ 34 :: tail)) with (escape_text v ++ 34 :: tail). rewrite quoted_escaped.
  assert (Hz : zlen (escape_text v) <= zlen (print_attrs pairs)).
  { clear -Ev. induction pairs as [|[k w] pairs IH]; [done|]. cbn [attr_of] in Ev. cbn [print_attrs].
    assert (H1 : zlen (escape_text w) <= zlen (print_attr (k, w))).
    { unfold print_attr. rewrite !zlen_app. cbn [fst snd]. pose proof (zlen_nonneg k). change (zlen [61; 34]) with 2. change (zlen [34]) with 1. lia. }
    case_bool_decide.
    - injection Ev as <-. destruct pairs as [|p pairs]; [done|]. rewrite zlen_app. pose proof (zlen_nonneg (32 :: print_attrs (p :: pairs))). lia.
    - specialize (IH Ev). destruct pairs; [by destruct v|]. rewrite zlen_app, zlen_cons. pose proof (zlen_nonneg (print_attr (k, w))). lia. }
  destruct (Z.ltb_spec out_len (zlen (escape_text v) + 1)); [lia|done].
Qed.

(** ** Nodes *)

Lemma aos_nested_ind (P : aos -> Prop) :
  (forall k i pairs children, Forall P children -> P (AosNode k i pairs children)) -> forall t, P t.
Proof.
  intros H. fix IH 1. intros [k i pairs children]. apply H.
  induction children as [|c children IHc]; constructor; [apply IH|apply IHc].
Qed.

Definition print_body (children : list aos) : list Z := flat_map (fun c => 32 :: print_aos c) children.

Lemma print_aos_parts k i pairs children : print_aos (AosNode k i pairs children) =
  k ++ 35 :: i ++ (40 :: print_attrs pairs ++ [41]) ++ [32] ++ (123 :: print_body children ++ [125]).
Proof. cbn [print_aos app]. by rewrite <- (app_assoc (print_attrs pairs) [41]). Qed.

Lemma neutral_body children : Forall (fun c => neutral 123 125 (print_aos c)) children -> neutral 123 125 (print_body children).
Proof.
  induction 1 as [|c children Hc _ IH]; [apply neutral_nil|]. cbn [print_body flat_map].
  apply (neutral_app _ _ (32 :: print_aos c)); [|done]. apply (neutral_app _ _ [32]); [apply neutral_char; lia|done].
Qed.

Lemma neutral_aos t : aos_ok t -> neutral 123 125 (print_aos t).
Proof.
  induction t as [k i pairs children IH] using aos_nested_ind. inversion 1 as [? ? ? ? Hk _ Hi Hp _ Hc]; subst.
  assert (Hpair : (123 = 123 /\ 125 = 125) \/ (123 = 40 /\ 125 = 41)) by (by left).
  assert (Hone : forall c, c <> 0 -> c <> 34 -> c <> 123 -> c <> 125 -> neutral 123 125 [c]) by (intros; apply neutral_char; lia).
  rewrite print_aos_parts. apply neutral_app; [by apply neutral_plain|]. apply (neutral_app _ _ [35]); [apply Hone; lia|].
  apply neutral_app; [by apply neutral_plain|]. apply neutral_app.
  { apply (neutral_app _ _ [40]); [apply Hone; lia|]. apply neutral_app; [by apply neutral_attrs|apply Hone; lia]. }
  apply neutral_app; [apply Hone; lia|]. apply neutral_bracket; [done|]. apply neutral_body.
  apply Forall_forall. intros c Hin. rewrite Forall_forall in IH, Hc. by apply IH, Hc.
Qed.

Lemma bracket_split {A} (text rest : list A) (a b : A) :
  ztake (zlen text + 1 - 1) (zdrop 1 (a :: text ++ b :: rest)) = text /\
  zdrop (zlen text + 1 + 1) (a :: text ++ b :: rest) = rest.
Proof.
  split.
  - change (zdrop 1 (a :: text ++ b :: rest)) with (text ++ b :: rest).
    replace (zlen text + 1 - 1) with (zlen text) by lia. apply ztake_app.
  - replace (a :: text ++ b :: rest) with ((a :: text ++ [b]) ++ rest) by (cbn; by rewrite <- app_assoc).
    replace (zlen text + 1 + 1) with (zlen (a :: text ++ [b])); [apply zdrop_app|].
    rewrite zlen_cons, zlen_app. done.
Qed.

Lemma parse_printed pre k i pairs children rest :
  aos_ok (AosNode k i pairs children) -> pre = [] \/ pre = [32] ->
  simple_parse_next_node (pre ++ print_aos (AosNode k i pairs children) ++ rest) =
    Some (mk_view k (print_attrs pairs) (print_body children) rest).
Proof.
  intros Ht Hpre. pose proof (neutral_aos _ Ht) as _. inversion Ht as [? ? ? ? Hk Hkl Hi Hp Hpl Hc]; subst.
  assert (Hpair : (40 = 123 /\ 41 = 125) \/ (40 = 40 /\ 41 = 41)) by (by right).
  rewrite print_aos_parts. set (tail := (40 :: print_attrs pairs ++ [41]) ++ [32] ++ (123 :: print_body children ++ [125]) ++ rest).
  replace ((k ++ 35 :: i ++ (40 :: print_attrs pairs ++ [41]) ++ [32] ++ (123 :: print_body children ++ [125])) ++ rest)
    with (k ++ 35 :: i ++ tail) by (unfold tail; do 4 (rewrite <- ?app_assoc; cbn [app]); done).
  unfold simple_parse_next_node. destruct k as [|c k]; [change (zlen (@nil Z)) with 0 in Hkl; lia|].
  assert (Hstart : drop_while blank (pre ++ (c :: k) ++ 35 :: i ++ tail) = (c :: k) ++ 35 :: i ++ tail).
  { apply (span_while blank pre); [destruct Hpre as [-> | ->]; repeat constructor|].
    apply Forall_cons in Hk as [Hc0 _]. by destruct (plain_facts c Hc0) as (_ & _ & _ & _ & _ & _ & ?). }
  rewrite Hstart. rewrite bool_decide_false by done.
  assert (c <> 0) as Hc0 by (apply Forall_cons in Hk as [Hc0 _]; intros ->; done).
  cbn [head_is app orb]. destruct (Z.eqb_spec c 0); [done|].
  destruct (span_while kind_char (c :: k) (35 :: i ++ tail)) as [Etk Edk].
  { eapply Forall_impl; [exact Hk|]. intros d Hd. by destruct (plain_facts d Hd) as (_ & _ & _ & _ & ? & _). }
  { done. }
  cbn [app] in Etk, Edk. rewrite Etk, Edk. rewrite !bool_decide_false by done. cbn [orb].
  destruct (Z.ltb_spec 32 (zlen (c :: k) + 1)); [lia|]. cbn [head_is Z.eqb Pos.eqb].
  change (zdrop 1 (35 :: i ++ tail)) with (i ++ tail).
  destruct (span_while id_char i tail) as [_ ->].
  { eapply Forall_impl; [exact Hi|]. intros d Hd. by destruct (plain_facts d Hd) as (_ & _ & _ & _ & _ & ? & _). }
  { done. }
  unfold tail. replace ((40 :: print_attrs pairs ++ [41]) ++ [32] ++ (123 :: print_body children ++ [125]) ++ rest)
    with (40 :: print_attrs pairs ++ 41 :: 32 :: 123 :: print_body children ++ 125 :: rest)
    by (do 4 (rewrite <- ?app_assoc; cbn [app]); done).
  unfold parse_attrs. cbn [head_is Z.eqb Pos.eqb]. unfold simple_find_matching_paren.
  rewrite find_matching_neutral by (done || by apply neutral_attrs). cbn [mbind option_bind].
  destruct (Z.ltb_spec 512 (zlen (print_attrs pairs) + 1 - 1 + 1)); [lia|].
  destruct (bracket_split (print_attrs pairs) (32 :: 123 :: print_body children ++ 125 :: rest) 40 41) as [-> ->].
  cbn [mbind option_bind fst snd].
  change (drop_while blank (32 :: 123 :: print_body children ++ 125 :: rest)) with (123 :: print_body children ++ 125 :: rest).
  unfold parse_body. cbn [head_is Z.eqb Pos.eqb]. unfold simple_find_matching_brace.
  rewrite (find_matching_neutral 123 125); [|by left|].
  - cbn [mbind option_bind]. by destruct (bracket_split (print_body children) rest 123 125) as [-> ->].
  - apply neutral_body. eapply Forall_impl; [exact Hc|]. apply neutral_aos.
Qed.

(** What a view shows of a node: its kind, the first value of every key, and the
    children in order. *)
Inductive shows : SimpleNodeView -> aos -> Prop :=
  | shows_node v k i pairs children :
      kind v = k ->
      (forall key out_len, name_ok key -> key <> [] -> 512 <= out_len ->
        (raw ← parse_attr_span (attrs v) key out_len; unescape_string raw out_len) = attr_of pairs key) ->
      Forall2 shows (views (body v)) children ->
      shows v (AosNode k i pairs children).

Lemma shows_attrs pairs key out_len :
  Forall (fun kv => name_ok kv.1 /\ kv.1 <> [] /\ Forall (fun c => c <> 0) kv.2) pairs ->
  zlen (print_attrs pairs) <= 511 -> name_ok key -> key <> [] -> 512 <= out_len ->
  (raw ← parse_attr_span (print_attrs pairs) key out_len; unescape_string raw out_len) = attr_of pairs key.
Proof.
  intros Hp Hl Hkey Hne Ho. rewrite parse_span_printed by (done || lia).
  destruct (attr_of pairs key) as [v|] eqn:Ev; [|done]. cbn [fmap option_fmap option_map mbind option_bind].
  unfold unescape_string. destruct (Z.eqb_spec out_len 0); [lia|]. apply unescape_escaped.
  pose proof (parse_span_printed pairs key 512 Hp Hkey Hne ltac:(lia)) as Hs. rewrite Ev in Hs.
  unfold parse_attr_span in Hs. destruct (parse_attr_value_start _ _); [|done]. cbn [mbind option_bind] in Hs.
  assert (He : zlen (escape_text v) + 1 <= 512).
  { revert Hs. cbn [fmap option_fmap option_map]. case_match; [done|]. intros [= <-]. lia. }
  assert (zlen v <= zlen (escape_text v)); [|lia].
  clear. induction v as [|c v IH]; [done|]. cbn [escape_text flat_map]. fold (escape_text v). rewrite zlen_app, zlen_cons.
  assert (1 <= zlen (escape_char c)); [|lia]. unfold escape_char. bdestruct_all; vm_compute; discriminate.
Qed.

Lemma views_printed children :
  Forall (fun t => aos_ok t -> forall pre rest, pre = [] \/ pre = [32] -> exists v,
    simple_parse_next_node (pre ++ print_aos t ++ rest) = Some v /\ shows v t /\ next v = rest) children ->
  Forall aos_ok children -> Forall2 shows (views (print_body children)) children.
Proof.
  induction 1 as [|t children Ht _ IH]; intros Hok; rewrite views_step.
  - cbn. constructor.
  - apply Forall_cons in Hok as [H1 H2]. cbn [print_body flat_map].
    destruct (Ht H1 [32] (print_body children)) as (v & Hv & Hs & Hn); [by right|].
    change ((32 :: print_aos t) ++ _) with ([32] ++ print_aos t ++ print_body children). rewrite Hv, Hn.
    constructor; [done|]. by apply IH.
Qed.

(** C23: the text of a node reads back as the node: for every tree of nodes whose values
    are written with the escapes of STR_ESCAPE, the scanner finds a node with its kind,
    the first value of every key (unescaped again) and the children, recursively, and
    goes on right after it. *)
Theorem aos_text_roundtrip t rest : aos_ok t ->
  exists v, simple_parse_next_node (print_aos t ++ rest) = Some v /\ shows v t /\ next v = rest.
Proof.
  enough (H : aos_ok t -> forall pre rest, pre = [] \/ pre = [32] -> exists v,
    simple_parse_next_node (pre ++ print_aos t ++ rest) = Some v /\ shows v t /\ next v = rest)
    by (intros Ht; apply (H Ht [] rest); by left).
  clear rest. induction t as [k i pairs children IH] using aos_nested_ind. intros Ht pre rest Hpre.
  exists (mk_view k (print_attrs pairs) (print_body children) rest). split; [by apply parse_printed|]. split; [|done].
  inversion Ht as [? ? ? ? Hk Hkl Hi Hp Hpl Hc]; subst. constructor; [done| |].
  - intros key out_len Hkey Hne Ho. by apply shows_attrs.
  - cbn [body]. by apply views_printed.
Qed.

(** Let#l(name="a") with a string literal that needs escapes. *)
Definition sample_node : aos :=
  AosNode (byte_str "Let")%aivm (byte_str "l1")%aivm [((byte_str "name")%aivm, (byte_str "a")%aivm)]
    [AosNode (byte_str "Lit")%aivm (byte_str "v")%aivm [((byte_str "value")%aivm, [123; 34; 10; 41; 92])] []].

Lemma aos_text_roundtrip_witness :
  exists v, simple_parse_next_node (print_aos sample_node ++ [125]) = Some v /\ shows v sample_node /\ next v = [125].
Proof.
  apply (aos_text_roundtrip sample_node [125]).
  assert (Hn : forall text, forallb plain text = true -> name_ok text).
  { intros text H. apply Forall_forall. intros c Hc. by eapply forallb_forall in H; [|apply list_elem_of_In]. }
  repeat first [constructor | apply Hn; vm_compute; reflexivity | vm_compute; congruence].
Defined.
