(* ===== verification/ProgramWriter.v ===== *)
(** * Writing bytecode files (src/src/ailang_cli/ailang.c)

    [write_program_as_aibc1], the counterpart of the loader: what is written is what is
    loaded.  A program of the command line tool keeps its instructions, constants and
    texts in the storage inside [AivmProgram]; cells that were never written read as
    they were cleared. *)

From S2P Require Import Prelude Types Program LoaderSafety LoaderFormat.
From Stdlib Require Import SpecFloat.

(** ** The writer *)

Definition write_u32_le (value : Z) : list Z :=
  [Z.land value 255; Z.land (Z.shiftr value 8) 255; Z.land (Z.shiftr value 16) 255; Z.land (Z.shiftr value 24) 255].

Definition write_i64_le (value : Z) : list Z :=
  let u := u64 value in
  map (fun k => Z.land (Z.shiftr u (8 * k)) 255) [0; 1; 2; 3; 4; 5; 6; 7].

Definition write_f64_le (value : spec_float) : list Z := write_i64_le (i64_of_u64 (bits_of_double value)).

(** [instruction_storage[i]] and [constant_storage[i]] *)
Definition stored_instruction (p : AivmProgram) (i : Z) : option AivmInstruction :=
  if i <? AIVM_PROGRAM_INLINE_INSTRUCTIONS
  then Some (default (mk_instruction AIVM_OP_NOP 0) (zget (instruction_store p) i)) else None.

Definition stored_constant (p : AivmProgram) (i : Z) : option AivmValue :=
  if i <? AIVM_PROGRAM_INLINE_CONSTANTS then Some (default VVoid (zget (constant_store p) i)) else None.

(** The text at a [string_value] and the bytes of a view; the texts of a program lie in
    its own storage. *)
Definition constant_text (p : AivmProgram) (s : str_ptr) : option (list Z) :=
  match s with
  | SNull => Some []
  | SProgram off => Some (cstr (zdrop off (string_storage p)))
  | SExt content => Some (cstr content)
  | SArena _ _ => None
  end.

Definition constant_bytes (p : AivmProgram) (b : bytes_ptr) (length : Z) : option (list Z) :=
  if length =? 0 then Some []
  else match b with
  | BNull => Some []
  | BProgram off => read_block (bytes_storage p) off length
  | BExt content => read_block content 0 length
  | BArena _ _ => None
  end.

(** One round of the first loop: [None] is the return of 0. *)
Definition constant_size (p : AivmProgram) (v : AivmValue) : option (option Z) :=
  match v with
  | VInt _ | VNumber _ => Some (Some (1 + 8))
  | VBool _ => Some (Some (1 + 1))
  | VNull => Some (Some 1)
  | VString s => text ← constant_text p s;
      if 4294967295 <? zlen text then Some None else Some (Some (u32 (1 + 4 + u32 (zlen text))))
  | VBytes _ length => if 4294967295 <? length then Some None else Some (Some (u32 (1 + 4 + u32 length)))
  | _ => Some (Some 1)
  end.

Fixpoint constants_size (p : AivmProgram) (vs : list AivmValue) (const_payload_size : Z) : option (option Z) :=
  match vs with
  | [] => Some (Some const_payload_size)
  | v :: vs' =>
      size ← constant_size p v;
      match size with
      | None => Some None
      | Some n => constants_size p vs' (u32 (const_payload_size + n))
      end
  end.

Definition write_constant_value (p : AivmProgram) (v : AivmValue) : option (list Z) :=
  match v with
  | VInt i => Some (1 :: write_i64_le i)
  | VNumber d => Some (7 :: write_f64_le d)
  | VBool b => Some [2; if b then 1 else 0]
  | VNull => Some [6]
  | VString s => text ← constant_text p s; Some (3 :: write_u32_le (u32 (zlen text)) ++ ztake (u32 (zlen text)) text)
  | VBytes b length => data ← constant_bytes p b (u32 length); Some (5 :: write_u32_le (u32 length) ++ data)
  | _ => Some [4]
  end.

Definition write_instruction_value (i : AivmInstruction) : list Z :=
  write_u32_le (u32 (Z_of_opcode (opcode i))) ++ write_i64_le (operand_int i).

(** [write_program_as_aibc1] up to the host: [Some (Some bytes)] is the content handed
    to the opened file, [Some None] the return of 0, [None] a read outside the storage. *)
Definition write_program_as_aibc1 (p : AivmProgram) : option (option (list Z)) :=
  if instruction_count p =? 0 then Some None
  else
    constants ← mapM (stored_constant p) (map Z.of_nat (seq 0 (Z.to_nat (constant_count p))));
    size ← constants_size p constants 4;
    match size with
    | None => Some None
    | Some const_payload_size =>
        let section_count := if 0 <? constant_count p then 2 else 1 in
        if (4294967295 - 4) / 12 <? instruction_count p then Some None
        else
          instructions ← mapM (stored_instruction p) (map Z.of_nat (seq 0 (Z.to_nat (instruction_count p))));
          encoded ← mapM (write_constant_value p) constants;
          let inst_payload_size := u32 (4 + u32 (instruction_count p * 12)) in
          Some (Some
            ([65; 73; 66; 67] ++ write_u32_le 2 ++ write_u32_le 0 ++ write_u32_le section_count
             ++ write_u32_le 1 ++ write_u32_le inst_payload_size ++ write_u32_le (u32 (instruction_count p))
             ++ flat_map write_instruction_value instructions
             ++ (if section_count =? 2
                 then write_u32_le 2 ++ write_u32_le const_payload_size ++ write_u32_le (u32 (constant_count p))
                      ++ concat encoded
                 else [])))
    end.

(** ** The writer writes the container format *)

Lemma byte_mask z : Z.land z 255 = u8 z.
Proof. change 255 with (Z.ones 8). by rewrite Z.land_ones. Qed.

Lemma write_u32_format w : write_u32_le w = le32_bytes w.
Proof. unfold write_u32_le, le32_bytes. by rewrite !byte_mask. Qed.

Lemma u8_shift_low w k : 0 <= k <= 24 -> u8 (Z.shiftr (w mod 2 ^ 32) k) = u8 (Z.shiftr w k).
Proof.
  intros Hk. unfold u8. rewrite <- !Z.land_ones by lia. apply Z.bits_inj'. intros n Hn.
  rewrite !Z.land_spec, !Z.shiftr_spec by lia. destruct (Z.ltb_spec n 8).
  - by rewrite (Z.land_spec _ _ (n + k)), (Z.ones_spec_low 32 (n + k)), andb_true_r by lia.
  - by rewrite (Z.ones_spec_high 8), !andb_false_r by lia.
Qed.

Lemma write_i64_format i : write_i64_le i = le64_bytes (u64 i).
Proof.
  unfold write_i64_le, le64_bytes, le32_bytes. set (w := u64 i). cbn [map app].
  rewrite !byte_mask, !u8_shift_low by lia.
  assert (E : forall k, 0 <= k -> Z.shiftr (w / 2 ^ 32) k = Z.shiftr w (32 + k)).
  { intros k Hk. by rewrite <- (Z.shiftr_div_pow2 w 32), Z.shiftr_shiftr by lia. }
  rewrite !E by lia. rewrite <- (Z.shiftr_div_pow2 w 32) by lia. rewrite Z.shiftr_0_r.
  unfold u8 at 9. rewrite <- Z.land_ones by lia. repeat f_equal; try done.
  unfold u8. rewrite <- !Z.land_ones, <- Z.land_assoc by lia. f_equal.
Qed.

Lemma bits_of_double_range d : valid_binary 53 1024 d = true -> 0 <= bits_of_double d < 2 ^ 64.
Proof.
  destruct d as [s|s| |s m e]; intros Hv; [by destruct s|by destruct s|done|].
  cbn [valid_binary] in Hv. unfold bounded, canonical_mantissa, fexp, emin in Hv. apply andb_true_iff in Hv as [H1 H2].
  pose proof (digits2_pos_bound m 53). cbn [bits_of_double].
  destruct (Z.ltb_spec (Z.pos m) (2 ^ 52)); [destruct s; lia|].
  assert (53 < digits2_pos m + 1)%positive by (pose proof (digits2_pos_lower m 52); lia).
  assert (Z.pos m < 2 ^ 53).
  { destruct (Z.lt_ge_cases (Z.pos m) (2 ^ 53)); [done|]. pose proof (digits2_pos_lower m 53). lia. }
  destruct s; lia.
Qed.

(** The fields of a packed word. *)
Lemma packed_fields (s : bool) e m : 0 <= e < 2048 -> 0 <= m < 2 ^ 52 ->
  let w := (if s then 2 ^ 63 else 0) + e * 2 ^ 52 + m in
  Z.testbit w 63 = s /\ Z.land (Z.shiftr w 52) 2047 = e /\ Z.land w (2 ^ 52 - 1) = m.
Proof.
  intros He Hm w.
  assert (Ew : w = ((if s then 2048 else 0) + e) * 2 ^ 52 + m) by (unfold w; destruct s; lia).
  split_and!.
  - rewrite Z.testbit_eqb by lia.
    replace (w / 2 ^ 63) with (if s then 1 else 0); [by destruct s|].
    apply (Z.div_unique_pos _ _ _ (e * 2 ^ 52 + m)); [lia|]. unfold w. destruct s; lia.
  - change 2047 with (2 ^ 11 - 1). rewrite land_ones_mod, Z.shiftr_div_pow2 by lia.
    replace (w / 2 ^ 52) with ((if s then 2048 else 0) + e).
    + change (2 ^ 11) with 2048. destruct s.
      * replace (2048 + e) with (e + 1 * 2048) by lia. rewrite Z_mod_plus_full. apply Z.mod_small. lia.
      * apply Z.mod_small. lia.
    + apply (Z.div_unique_pos _ _ _ m); [done|]. rewrite Ew. lia.
  - rewrite land_ones_mod by lia. symmetry.
    apply (Z.mod_unique_pos _ _ ((if s then 2048 else 0) + e)); [done|]. rewrite Ew. lia.
Qed.

(** Writing a double and reading it back. *)
Lemma double_bits_roundtrip d : valid_binary 53 1024 d = true -> double_of_bits (bits_of_double d) = d.
Proof.
  destruct d as [s|s| |s m e]; intros Hv; [by destruct s|by destruct s|done|].
  cbn [valid_binary] in Hv. unfold bounded, canonical_mantissa, fexp, emin in Hv. apply andb_true_iff in Hv as [H1 H2].
  cbn [bits_of_double]. destruct (Z.ltb_spec (Z.pos m) (2 ^ 52)) as [Hm|Hm].
  - pose proof (digits2_pos_bound m 52 Hm). assert (e = -1074) as -> by lia.
    destruct (packed_fields s 0 (Z.pos m)) as (F1 & F2 & F3); [lia..|].
    unfold double_of_bits. rewrite Z.mul_0_l, Z.add_0_r in F1, F2, F3. by rewrite F1, F2, F3.
  - pose proof (digits2_pos_lower m 52 Hm). assert (Hm' : Z.pos m < 2 ^ 53).
    { destruct (Z.lt_ge_cases (Z.pos m) (2 ^ 53)) as [|Hge]; [done|]. pose proof (digits2_pos_lower m 53 Hge). lia. }
    pose proof (digits2_pos_bound m 53 Hm').
    destruct (packed_fields s (e + 1075) (Z.pos m - 2 ^ 52)) as (F1 & F2 & F3); [lia..|].
    unfold double_of_bits. rewrite F1, F2, F3.
    destruct (Z.eqb_spec (e + 1075) 2047); [lia|]. destruct (Z.eqb_spec (e + 1075) 0); [lia|].
    replace (Z.pos m - 2 ^ 52 + 2 ^ 52) with (Z.pos m) by lia. f_equal. lia.
Qed.

(** ** What a program holds *)

(** The constant of the format a constant of the program stands for. *)
Definition spec_of (p : AivmProgram) (v : AivmValue) : const_spec :=
  match v with
  | VInt i => CInt i
  | VNumber d => CNum (bits_of_double d)
  | VBool b => CBool b
  | VNull => CNull
  | VString s => CStr (default [] (constant_text p s))
  | VBytes b len => CBytes (default [] (constant_bytes p b len))
  | _ => CVoid
  end.

(** What a program sees of a constant. *)
Inductive content := KValue (v : AivmValue) | KText (text : list Z) | KBytes (data : list Z).

Definition constant_content (p : AivmProgram) (v : AivmValue) : option content :=
  match v with
  | VString s => KText <$> constant_text p s
  | VBytes b len => KBytes <$> constant_bytes p b len
  | _ => Some (KValue v)
  end.

Record storable (p : AivmProgram) : Prop := {
  st_count : instruction_count p = zlen (instruction_store p);
  st_range : 0 < instruction_count p <= AIVM_PROGRAM_INLINE_INSTRUCTIONS;
  st_operands : Forall (fun i => is_int64 (operand_int i)) (instruction_store p);
  st_constants : constant_count p = zlen (constant_store p);
  st_few : constant_count p <= AIVM_PROGRAM_INLINE_CONSTANTS;
  st_valid : Forall (constant_ok p) (constant_store p);
  st_bytes : bytes_ok (string_storage p) /\ bytes_ok (bytes_storage p);
  st_texts : total string_need (map (spec_of p) (constant_store p)) <= AIVM_PROGRAM_MAX_STRING_BYTES;
  st_views : total bytes_need (map (spec_of p) (constant_store p)) <= AIVM_PROGRAM_MAX_BYTES_STORAGE }.

Lemma cstr_forall P l : Forall P l -> Forall P (cstr l).
Proof. induction 1 as [|b l Hb _ IH]; [constructor|]. cbn [cstr]. destruct (b =? 0); by constructor. Qed.

Lemma spec_of_ok p v : storable p -> constant_ok p v -> const_spec_ok (spec_of p v).
Proof.
  intros Hp Hv. destruct (st_bytes p Hp) as [Hs Hb].
  destruct v as [|i|d|b| |s|b len|h|h| |h|h|h|h|h|h]; cbn [spec_of const_spec_ok] in *; try done.
  - by apply bits_of_double_range.
  - destruct s; try done. cbn. by apply cstr_forall, Forall_drop.
  - destruct b as [| |off|]; try done. unfold constant_bytes. destruct (len =? 0); [constructor|].
    destruct Hv as (H1 & H2 & H3). destruct (read_block_ok (bytes_storage p) off len) as [-> _]; [lia..|].
    cbn. by apply Forall_take, Forall_drop.
Qed.

(** ** Writing and loading *)

Lemma mapM_indices {A} (f : Z -> option A) (l : list A) :
  (forall i x, l !! i = Some x -> f (Z.of_nat i) = Some x) ->
  mapM f (map Z.of_nat (seq 0 (length l))) = Some l.
Proof.
  intros Hf. apply mapM_Some. apply Forall2_same_length_lookup. split; [by rewrite length_map, length_seq|].
  intros i x y Hx Hy. apply list_lookup_fmap_Some in Hx as (n & -> & Hn).
  apply lookup_seq in Hn as [-> _]. by apply Hf.
Qed.

Lemma stored_instructions p : storable p ->
  mapM (stored_instruction p) (map Z.of_nat (seq 0 (Z.to_nat (instruction_count p)))) = Some (instruction_store p).
Proof.
  intros Hp. destruct (st_range p Hp) as [_ Hr]. rewrite (st_count p Hp) in *. unfold zlen in *. rewrite Nat2Z.id.
  apply mapM_indices. intros i x Hx. pose proof (lookup_lt_Some _ _ _ Hx). unfold stored_instruction.
  destruct (Z.ltb_spec (Z.of_nat i) AIVM_PROGRAM_INLINE_INSTRUCTIONS); [|lia].
  by rewrite zget_lookup, Nat2Z.id, Hx by lia.
Qed.

Lemma stored_constants p : storable p ->
  mapM (stored_constant p) (map Z.of_nat (seq 0 (Z.to_nat (constant_count p)))) = Some (constant_store p).
Proof.
  intros Hp. pose proof (st_few p Hp) as Hr. rewrite (st_constants p Hp) in *. unfold zlen in *. rewrite Nat2Z.id.
  apply mapM_indices. intros i x Hx. pose proof (lookup_lt_Some _ _ _ Hx). unfold stored_constant.
  destruct (Z.ltb_spec (Z.of_nat i) AIVM_PROGRAM_INLINE_CONSTANTS); [|lia].
  by rewrite zget_lookup, Nat2Z.id, Hx by lia.
Qed.

Lemma u32_small z : 0 <= z < 2 ^ 32 -> u32 z = z.
Proof. intros. by apply Z.mod_small. Qed.

(** A valid constant is small, its size is computed exactly, and it is written in the
    format. *)
Lemma constant_written p v : constant_ok p v ->
  string_need (spec_of p v) < 2 ^ 20 -> bytes_need (spec_of p v) < 2 ^ 20 ->
  constant_size p v = Some (Some (zlen (encode_const (spec_of p v)))) /\
  write_constant_value p v = Some (encode_const (spec_of p v)) /\
  zlen (encode_const (spec_of p v)) <= 9 + string_need (spec_of p v) + bytes_need (spec_of p v).
Proof.
  intros Hv. destruct v as [|i|d|b| |s|b len|h|h| |h|h|h|h|h|h]; cbn [constant_ok] in Hv; try done;
    cbn [spec_of string_need bytes_need constant_size write_constant_value encode_const]; intros Hs Hb;
    unfold write_f64_le; rewrite ?write_i64_format; try (split_and!; done).
  - split_and!; try done. do 3 f_equal.
    pose proof (bits_of_double_range d Hv). unfold i64_of_u64, u64. destruct (Z.ltb_spec (bits_of_double d) (2 ^ 63)).
    + apply Z.mod_small. lia.
    + replace (bits_of_double d - 2 ^ 64) with (bits_of_double d + (-1) * 2 ^ 64) by lia.
      rewrite Z_mod_plus_full. apply Z.mod_small. lia.
  - destruct s; try done. cbn [constant_text from_option id mbind option_bind] in *.
    set (text := cstr _) in *. pose proof (zlen_nonneg text).
    destruct (Z.ltb_spec 4294967295 (zlen text)); [lia|].
    rewrite !u32_small by (rewrite ?u32_small; lia). rewrite write_u32_format. unfold ztake.
    rewrite firstn_all2 by (unfold zlen; lia). rewrite zlen_cons, zlen_app, zlen_le32. split_and!; [do 2 f_equal; lia|done|lia].
  - destruct b as [| |off|]; try done. destruct Hv as (H1 & H2 & H3). unfold constant_bytes in *.
    destruct (Z.eqb_spec len 0) as [->|Hne]; [done|].
    destruct (read_block_ok (bytes_storage p) off len) as [E Ez]; [lia..|]. rewrite E in *. cbn [from_option id] in *.
    rewrite Ez in *. destruct (Z.ltb_spec 4294967295 len); [lia|].
    rewrite !u32_small by (rewrite ?u32_small; lia). destruct (Z.eqb_spec len 0); [done|]. rewrite E.
    cbn [mbind option_bind]. rewrite write_u32_format, zlen_cons, zlen_app, zlen_le32, Ez.
    split_and!; [do 2 f_equal; lia|done|lia].
Qed.

Lemma needs_le cs c : c ∈ cs -> string_need c <= total string_need cs /\ bytes_need c <= total bytes_need cs.
Proof.
  induction 1 as [c cs|c c' cs _ IH]; cbn [total]; pose proof (needs_nonneg cs); [lia|].
  pose proof (needs_nonneg [c']) as Hc. cbn [total] in Hc. lia.
Qed.

Lemma constants_written p vs : forall acc,
  Forall (fun v => constant_size p v = Some (Some (zlen (encode_const (spec_of p v)))) /\
    write_constant_value p v = Some (encode_const (spec_of p v))) vs -> 0 <= acc ->
  acc + zlen (flat_map encode_const (map (spec_of p) vs)) < 2 ^ 32 ->
  constants_size p vs acc = Some (Some (acc + zlen (flat_map encode_const (map (spec_of p) vs)))) /\
  mapM (write_constant_value p) vs = Some (map encode_const (map (spec_of p) vs)).
Proof.
  induction vs as [|v vs IH]; intros acc Hvs H0 Hlen; cbn [constants_size mapM map flat_map] in *.
  { by rewrite zlen_nil, Z.add_0_r. }
  apply Forall_cons in Hvs as [[Hz Hw] Hvs]. rewrite Hz, Hw. cbn [mbind option_bind].
  rewrite zlen_app in *. pose proof (zlen_nonneg (encode_const (spec_of p v))).
  pose proof (zlen_nonneg (flat_map encode_const (map (spec_of p) vs))).
  rewrite u32_small by lia. destruct (IH (acc + zlen (encode_const (spec_of p v))) Hvs) as [-> ->]; [lia..|].
  split; [|done]. do 2 f_equal. lia.
Qed.

Lemma encoded_bound p vs :
  Forall (fun v => zlen (encode_const (spec_of p v)) <= 9 + string_need (spec_of p v) + bytes_need (spec_of p v)) vs ->
  zlen (flat_map encode_const (map (spec_of p) vs)) <=
    9 * zlen vs + total string_need (map (spec_of p) vs) + total bytes_need (map (spec_of p) vs).
Proof.
  induction 1 as [|v vs Hv _ IH]; [done|]. cbn [map flat_map total]. rewrite zlen_app, zlen_cons. lia.
Qed.

Lemma storable_written p : storable p ->
  Forall (fun v => constant_size p v = Some (Some (zlen (encode_const (spec_of p v)))) /\
    write_constant_value p v = Some (encode_const (spec_of p v))) (constant_store p) /\
  zlen (flat_map encode_const (map (spec_of p) (constant_store p))) <= 2 ^ 20.
Proof.
  intros Hp. pose proof (st_texts p Hp) as Ht. pose proof (st_views p Hp) as Hb.
  unfold AIVM_PROGRAM_MAX_STRING_BYTES, AIVM_PROGRAM_MAX_BYTES_STORAGE in *.
  assert (Hall : Forall (fun v => constant_size p v = Some (Some (zlen (encode_const (spec_of p v)))) /\
    write_constant_value p v = Some (encode_const (spec_of p v)) /\
    zlen (encode_const (spec_of p v)) <= 9 + string_need (spec_of p v) + bytes_need (spec_of p v)) (constant_store p)).
  { apply Forall_forall. intros v Hv.
    destruct (needs_le (map (spec_of p) (constant_store p)) (spec_of p v)); [by apply list_elem_of_fmap_2|].
    apply constant_written; [|lia..]. by eapply Forall_forall; [apply (st_valid p Hp)|]. }
  split.
  - eapply Forall_impl; [exact Hall|]. by intros v (? & ? & _).
  - pose proof (st_few p Hp) as Hf. rewrite (st_constants p Hp) in Hf. unfold AIVM_PROGRAM_INLINE_CONSTANTS in Hf.
    pose proof (encoded_bound p (constant_store p)) as Hbound.
    assert (zlen (flat_map encode_const (map (spec_of p) (constant_store p))) <=
      9 * zlen (constant_store p) + total string_need (map (spec_of p) (constant_store p)) +
      total bytes_need (map (spec_of p) (constant_store p))); [|lia].
    apply Hbound. eapply Forall_impl; [exact Hall|]. by intros v (_ & _ & ?).
Qed.

Lemma instructions_written l : Forall (fun i => is_int64 (operand_int i)) l ->
  flat_map write_instruction_value l = flat_map encode_instruction l.
Proof.
  induction 1 as [|i l Hi _ IH]; [done|]. cbn [flat_map]. rewrite IH. f_equal.
  unfold write_instruction_value, encode_instruction. rewrite write_u32_format, write_i64_format.
  pose proof (Z_of_opcode_range (opcode i)). unfold AIVM_OP_MAX in *. by rewrite u32_small by lia.
Qed.

(** What is written for a storable program is the format of its contents: with one
    section, or two when there are constants. *)
Lemma writer_writes_format p : storable p ->
  write_program_as_aibc1 p = Some (Some
    (match constant_store p with
     | [] => encode_header 0 1 ++ encode_section 1 (encode_instructions (instruction_store p))
     | _ => encode_program 0 (instruction_store p) (map (spec_of p) (constant_store p))
     end)).
Proof.
  intros Hp. destruct (storable_written p Hp) as [Hall Hlen]. destruct (st_range p Hp) as [Hr0 Hr1].
  unfold AIVM_PROGRAM_INLINE_INSTRUCTIONS in Hr1. unfold write_program_as_aibc1.
  destruct (Z.eqb_spec (instruction_count p) 0); [lia|].
  rewrite stored_constants, stored_instructions by done. cbn [mbind option_bind].
  destruct (constants_written p (constant_store p) 4 Hall) as [-> Em]; [lia..|]. cbn [mbind option_bind].
  destruct (Z.ltb_spec ((4294967295 - 4) / 12) (instruction_count p)) as [Hbig|_].
  { change ((4294967295 - 4) / 12) with 357913940 in Hbig. lia. }
  rewrite Em. cbn [mbind option_bind]. rewrite instructions_written by apply (st_operands p Hp).
  assert (Ei : u32 (4 + u32 (instruction_count p * 12)) = zlen (encode_instructions (instruction_store p))).
  { rewrite zlen_encode_instructions, <- (st_count p Hp). rewrite !u32_small by (rewrite ?u32_small; lia). lia. }
  rewrite Ei, !write_u32_format, (u32_small (instruction_count p)) by lia. rewrite (st_count p Hp), (st_constants p Hp).
  do 2 f_equal. destruct (constant_store p) as [|v vs] eqn:E.
  - change (zlen []) with 0. cbn [Z.ltb Z.compare Z.eqb Pos.eqb]. rewrite app_nil_r.
    unfold encode_header, encode_section, encode_instructions. by rewrite <- !app_assoc.
  - rewrite <- E. pose proof (zlen_nonneg vs). pose proof (st_few p Hp) as Hf. rewrite (st_constants p Hp) in Hf.
    unfold AIVM_PROGRAM_INLINE_CONSTANTS in Hf.
    destruct (Z.ltb_spec 0 (zlen (constant_store p))); [|rewrite E, zlen_cons in *; lia].
    cbn [Z.eqb Pos.eqb]. rewrite u32_small by lia.
    unfold encode_program, encode_section, encode_instructions, encode_constants.
    rewrite (zlen_app (le32_bytes (zlen (map _ _)))), zlen_le32, zlen_map, <- flat_map_concat_map.
    by rewrite <- !app_assoc.
Qed.

Lemma denotes_content p q v v' : constant_ok p v ->
  denotes (string_storage q) (bytes_storage q) v' (spec_of p v) -> constant_content q v' = constant_content p v.
Proof.
  intros Hv. destruct v as [|i|d|b| |s|b len|h|h| |h|h|h|h|h|h]; cbn [constant_ok] in Hv; try done;
    cbn [spec_of denotes]; try (by intros ->).
  - intros ->. by rewrite double_bits_roundtrip.
  - destruct s as [| |off|]; try done. cbn [constant_text from_option id]. intros (off' & -> & H0 & Hs).
    cbn [constant_content constant_text fmap option_fmap option_map]. do 2 f_equal.
    set (text := cstr (zdrop off (string_storage p))) in *.
    assert (Hz : Forall (fun z => z <> 0) text).
    { unfold text. clear. induction (zdrop off (string_storage p)) as [|z l IH]; [constructor|]. cbn [cstr].
      destruct (Z.eqb_spec z 0); by constructor. }
    unfold slice in Hs. rewrite <- (take_drop (Z.to_nat (zlen text + 1)) (zdrop off' (string_storage q))).
    unfold ztake in Hs. rewrite Hs. clear Hs. generalize (drop (Z.to_nat (zlen text + 1)) (zdrop off' (string_storage q))).
    intros rest. clearbody text. induction Hz as [|z l Hz _ IH]; [done|].
    cbn [app cstr]. destruct (Z.eqb_spec z 0); [done|]. by rewrite IH.
  - destruct b as [| |off|]; try done. destruct Hv as (H1 & H2 & H3). intros (off' & -> & H0 & Hs).
    cbn [constant_content]. f_equal. revert Hs. unfold constant_bytes. destruct (Z.eqb_spec len 0) as [->|Hne].
    { by intros _. }
    destruct (read_block_ok (bytes_storage p) off len) as [-> Ez]; [lia..|]. cbn [from_option id]. rewrite Ez. intros Hs.
    destruct (Z.eqb_spec len 0); [done|]. unfold read_block. rewrite Hs.
    assert (zlen (slice (bytes_storage q) off' len) = len) as Hl by (by rewrite Hs).
    destruct (Z.le_gt_cases (off' + len) (zlen (bytes_storage q))) as [Hle|Hgt].
    { by replace (_ && _) with true by lia. }
    exfalso. unfold slice, ztake, zdrop, zlen in Hl, Hgt. rewrite length_take, length_drop in Hl. lia.
Qed.

(** [p'] holds the instructions of [p] and constants with the same contents. *)
Definition same_program (p p' : AivmProgram) : Prop :=
  instruction_store p' = instruction_store p /\ instruction_count p' = instruction_count p /\
  constant_count p' = constant_count p /\
  map (constant_content p') (constant_store p') = map (constant_content p) (constant_store p).

Lemma written_loads host_alloc tick p : (forall t n, host_alloc t n = true) -> storable p ->
  exists bytes p' tick', write_program_as_aibc1 p = Some (Some bytes) /\
    aivm_program_load_aibc1 host_alloc (Some bytes) tick = Some (p', AIVM_PROGRAM_OK, 0, tick') /\ same_program p p'.
Proof.
  intros Halloc Hp. rewrite writer_writes_format by done.
  set (bytes := match constant_store p with [] => _ | _ => _ end). exists bytes.
  enough (exists p' tick', aivm_program_load_aibc1 host_alloc (Some bytes) tick = Some (p', AIVM_PROGRAM_OK, 0, tick') /\
    instruction_store p' = instruction_store p /\ instruction_count p' = instruction_count p /\
    constant_count p' = constant_count p /\
    map (constant_content p') (constant_store p') = map (constant_content p) (constant_store p))
    as (p' & t & H) by (by exists p', t).
  destruct (storable_written p Hp) as [_ Hlen]. pose proof (st_range p Hp) as [_ Hr].
  pose proof (st_operands p Hp) as Ho. rewrite (st_count p Hp) in Hr. unfold AIVM_PROGRAM_INLINE_INSTRUCTIONS in Hr.
  unfold aivm_program_load_aibc1. cbn [load_fuel]. rewrite (st_count p Hp), (st_constants p Hp).
  generalize (load_fuel host_alloc (length bytes)). intros nested. subst bytes.
  assert (Hspec : Forall const_spec_ok (map (spec_of p) (constant_store p))).
  { apply Forall_map. eapply Forall_impl; [apply (st_valid p Hp)|]. intros v. by apply spec_of_ok. }
  pose proof (zlen_encode_instructions (instruction_store p)) as Hi.
  destruct (constant_store p) as [|v vs] eqn:E.
  - edestruct (load_instructions_only host_alloc Halloc nested tick 0 (instruction_store p))
      as (p' & t & Hl & H1 & H2 & H3 & H4); [done|exact Ho| |rewrite Hl; exists p', t].
    { unfold encode_section, encode_header. rewrite !zlen_app, !zlen_le32, Hi. change (zlen [65; 73; 66; 67]) with 4. lia. }
    rewrite H4. by split_and!.
  - rewrite <- E in *. edestruct (load_roundtrip_body host_alloc Halloc nested tick 0 (instruction_store p))
      as (p' & t & Hl & H1 & H2 & H3 & H4);
      [done|exact Ho|exact Hspec|apply (st_texts p Hp)|apply (st_views p Hp)| |rewrite Hl; exists p', t].
    { unfold encode_program, encode_section, encode_constants. rewrite !zlen_app, !zlen_le32, Hi.
      change (zlen [65; 73; 66; 67]) with 4. lia. }
    rewrite H1, H2, H3, zlen_map. split_and!; try done.
    apply (Forall2_fmap_r (spec_of p)) in H4. pose proof (st_valid p Hp) as Hv. clear -H4 Hv.
    revert H4 Hv. generalize (constant_store p') (constant_store p). intros l' l H4 Hv.
    induction H4 as [|v' v'' l' l'' H _ IH]; [done|]. apply Forall_cons in Hv as [Hv1 Hv2]. cbn [map]. f_equal; [|by apply IH].
    by eapply denotes_content.
Qed.

(** C17: what the command line tool writes for a program is what the loader reads: every
    program whose instructions and constants are within the storage of [AivmProgram] is
    written, the loader accepts the bytes (when the host grants its allocations), and the
    program it gives has the same instructions and constants, texts and bytes included. *)
Theorem write_load_roundtrip host_alloc tick p :
  (forall t n, host_alloc t n = true) -> storable p ->
  exists bytes p' tick',
    write_program_as_aibc1 p = Some (Some bytes) /\
    aivm_program_load_aibc1 host_alloc (Some bytes) tick = Some (p', AIVM_PROGRAM_OK, 0, tick') /\
    instruction_store p' = instruction_store p /\ instruction_count p' = instruction_count p /\
    constant_count p' = constant_count p /\
    map (constant_content p') (constant_store p') = map (constant_content p) (constant_store p).
Proof. apply written_loads. Qed.

(** Two texts, a double and a byte view. *)
Definition sample_program : AivmProgram :=
  mk_program [mk_instruction AIVM_OP_CONST 1; mk_instruction AIVM_OP_PUSH_INT (-5); mk_instruction AIVM_OP_HALT 0] 3 32768
    [VString (SProgram 0); VNumber (S754_finite true 4503599627370497 (-52)); VString (SProgram 3);
     VBytes (BProgram 1) 2; VBool true; VInt (-9); VNull; VVoid] 8 1024
    2 0 0 [] [104; 105; 0; 33; 0] [7; 0; 255] [].

Lemma write_load_roundtrip_witness :
  exists bytes p' tick',
    write_program_as_aibc1 sample_program = Some (Some bytes) /\
    aivm_program_load_aibc1 (fun _ _ => true) (Some bytes) 0 = Some (p', AIVM_PROGRAM_OK, 0, tick') /\
    instruction_store p' = instruction_store sample_program /\ instruction_count p' = 3 /\ constant_count p' = 8 /\
    map (constant_content p') (constant_store p') =
      map (constant_content sample_program) (constant_store sample_program).
Proof.
  apply (write_load_roundtrip (fun _ _ => true) 0%nat sample_program); [reflexivity|].
  constructor.
  - reflexivity.
  - vm_compute. split; congruence.
  - repeat constructor; vm_compute; discriminate.
  - reflexivity.
  - vm_compute. discriminate.
  - repeat constructor; vm_compute; try discriminate; repeat constructor; discriminate.
  - split; apply (bool_decide_unpack _); vm_compute; exact I.
  - vm_compute. discriminate.
  - vm_compute. discriminate.
Defined.
