(* ===== verification/Numeric.v ===== *)
(** * Numbers and value equality

    The floating-point helpers of src/src/aivm_vm_value.c, the arithmetic of
    ADD_INT, SUB_NUM, MUL_NUM, DIV_NUM, MOD_NUM, POW_NUM and LT_NUM, and
    [aivm_value_equals] of src/src/aivm_types.c.  Doubles are binary64
    ([spec_float] with 53-bit precision, rounding to nearest even).  [None]
    marks undefined behaviour: signed overflow, or the conversion to [int64_t]
    of a double outside its range. *)

From S2P Require Import Prelude Types Program LoaderSafety.
From Stdlib Require Import SpecFloat.

Definition prec : Z := 53.
Definition emax : Z := 1024.

(** [(double)i] *)
Definition double_of_int (i : Z) : spec_float := binary_normalize prec emax i 0 false.

Definition dadd : spec_float -> spec_float -> spec_float := SFadd prec emax.
Definition dsub : spec_float -> spec_float -> spec_float := SFsub prec emax.
Definition dmul : spec_float -> spec_float -> spec_float := SFmul prec emax.
Definition ddiv : spec_float -> spec_float -> spec_float := SFdiv prec emax.
Definition deq (a b : spec_float) : bool := SFeqb a b.
Definition dlt (a b : spec_float) : bool := SFltb a b.
Definition dzero : spec_float := S754_zero false.
Definition done_ : spec_float := S754_finite false 4503599627370496 (-52).

(** [(int64_t)d]: truncation; undefined for NaN, infinities and values outside
    the range of [int64_t]. *)
Definition double_truncate_to_i64 (d : spec_float) : option Z :=
  match d with
  | S754_zero _ => Some 0
  | S754_infinity _ | S754_nan => None
  | S754_finite s m e =>
      let a := if 0 <=? e then Zpos m * 2 ^ e else Zpos m / 2 ^ (- e) in
      let z := if s then - a else a in
      if int64_ok z then Some z else None
  end.

(** [double_is_i64_value]: the inner option is the out-parameter. *)
Definition double_is_i64_value (d : spec_float) : option (option Z) :=
  t ← double_truncate_to_i64 d;
  Some (if deq (double_of_int t) d then Some t else None).

Definition aivm_vm_numeric_result (d : spec_float) : option AivmValue :=
  r ← double_is_i64_value d;
  Some (match r with Some i => VInt i | None => VNumber d end).

Definition aivm_vm_value_as_number (v : AivmValue) : spec_float :=
  match v with VInt i => double_of_int i | VNumber d => d | _ => dzero end.

Definition aivm_vm_double_trunc_toward_zero (d : spec_float) : option spec_float :=
  t ← double_truncate_to_i64 d; Some (double_of_int t).

(** [aivm_vm_double_pow_whole]: [exp] multiplications; the negation of
    INT64_MIN overflows. *)
Definition aivm_vm_double_pow_whole (base exponent : spec_float) : option spec_float :=
  exp ← double_truncate_to_i64 exponent;
  if negb (deq (double_of_int exp) exponent) then Some dzero
  else if exp =? INT64_MIN then None
  else
    let result := Z.iter (Z.abs exp) (fun r => dmul r base) done_ in
    Some (if exp <? 0 then ddiv done_ result else result).

(** Signed 64-bit result; [None] on overflow. *)
Definition int64_result (z : Z) : option AivmValue :=
  if int64_ok z then Some (VInt z) else None.

Inductive numeric_op := NAdd | NSub | NMul | NDiv | NMod | NPow.

(** The value pushed by the arithmetic instructions on numeric operands, or
    [inr] for the error of a zero divisor. *)
Definition numeric_value (op : numeric_op) (left right : AivmValue)
    : option (AivmValue + string) :=
  let l := aivm_vm_value_as_number left in
  let r := aivm_vm_value_as_number right in
  let of_double d := v ← aivm_vm_numeric_result d; Some (inl v) in
  let of_int z := v ← int64_result z; Some (inl v) in
  match op, left, right with
  | NAdd, VInt a, VInt b => of_int (a + b)
  | NAdd, _, _ => of_double (dadd l r)
  | NSub, VInt a, VInt b => of_int (a - b)
  | NSub, _, _ => of_double (dsub l r)
  | NMul, VInt a, VInt b => of_int (a * b)
  | NMul, _, _ => of_double (dmul l r)
  | NDiv, _, _ =>
      if deq r dzero then Some (inr "DIV requires non-zero divisor."%string)
      else of_double (ddiv l r)
  | NMod, _, _ =>
      if deq r dzero then Some (inr "MOD requires non-zero divisor."%string)
      else
        match left, right with
        | VInt a, VInt b =>
            (* INT64_MIN % -1 overflows *)
            if (a =? INT64_MIN) && (b =? -1) then None
            else Some (inl (VInt (Z.rem a b)))
        | _, _ =>
            q ← aivm_vm_double_trunc_toward_zero (ddiv l r);
            of_double (dsub l (dmul q r))
        end
  | NPow, _, _ =>
      d ← aivm_vm_double_pow_whole l r; of_double d
  end.

(** ** Equality of values *)

Section Equality.

(** The content of a string pointer and of a byte view; [None] when the pointer
    is NULL.  Every pointer the VM holds is readable. *)
Context (text : str_ptr -> option (list Z)) (view : bytes_ptr -> Z -> option (list Z)).

Definition aivm_cstring_equals (a b : str_ptr) : bool :=
  if bool_decide (a = b) then true
  else
    match text a, text b with
    | Some x, Some y => bool_decide (x = y)
    | _, _ => false
    end.

Definition aivm_value_equals (left right : AivmValue) : bool :=
  if aivm_vm_value_is_numeric left && aivm_vm_value_is_numeric right
  then deq (aivm_vm_value_as_number left) (aivm_vm_value_as_number right)
  else
    match left, right with
    | VVoid, VVoid | VNull, VNull | VUnknown, VUnknown => true
    | VBool a, VBool b => Bool.eqb a b
    | VString a, VString b => aivm_cstring_equals a b
    | VBytes p n, VBytes q m =>
        if negb (n =? m) then false
        else if n =? 0 then true
        else
          match view p n, view q m with
          | Some x, Some y => bool_decide (x = y)
          | _, _ => false
          end
    | VNode a, VNode b | VPair a, VPair b | VNodeBuilder a, VNodeBuilder b
    | VMapBuilder a, VMapBuilder b | VMap a, VMap b => a =? b
    (* task, worker and group identities are never equal *)
    | _, _ => false
    end.

End Equality.

(** [aivm_value_is_immutable_message_payload] *)
Definition aivm_value_is_immutable_message_payload (v : AivmValue) : bool :=
  match v with
  | VVoid | VInt _ | VNumber _ | VBool _ | VNull => true
  | VString p => negb (bool_decide (p = SNull))
  | VBytes p n => (n =? 0) || negb (bool_decide (p = BNull))
  | _ => false
  end.

(** ** Integers as doubles *)

Lemma digits2_iter_xO m n : Zpos (digits2_pos (Pos.iter xO m n)) = Zpos (digits2_pos m) + Zpos n.
Proof.
  induction n as [|n IH] using Pos.peano_ind; [cbn; lia|].
  rewrite Pos.iter_succ. cbn [digits2_pos]. lia.
Qed.

Lemma iter_xO_mul m n : Zpos (Pos.iter xO m n) = Zpos m * 2 ^ Zpos n.
Proof.
  induction n as [|n IH] using Pos.peano_ind; [cbn; lia|].
  rewrite Pos.iter_succ, Pos2Z.inj_succ, Z.pow_succ_r by lia. lia.
Qed.

(** A 53-bit mantissa is already rounded. *)
Lemma round_aux_exact s m e :
  digits2_pos m = 53%positive -> -1074 <= e <= 971 ->
  binary_round_aux prec emax s (Zpos m) e loc_Exact = S754_finite s m e.
Proof.
  intros Hd He. unfold binary_round_aux, shr_fexp. cbn [Zdigits2]. rewrite Hd.
  replace (fexp prec emax (53 + e) - e) with 0
    by (unfold fexp, emin, prec, emax; lia).
  cbn [shr shr_record_of_loc shr_m loc_of_shr_record round_nearest_even Zdigits2]. rewrite Hd.
  replace (fexp prec emax (53 + e) - e) with 0
    by (unfold fexp, emin, prec, emax; lia).
  cbn [shr shr_record_of_loc shr_m]. unfold emax, prec. replace (e <=? 1024 - 53) with true by lia. done.
Qed.

Lemma binary_round_small s m :
  Zpos m < 2 ^ 53 ->
  exists q e, binary_round prec emax s m 0 = S754_finite s q e /\ -53 <= e <= 0 /\
    Zpos q = Zpos m * 2 ^ (- e).
Proof.
  intros Hm. pose proof (digits2_pos_bound m 53 Hm) as Hd.
  unfold binary_round, shl_align. rewrite Z.add_0_r, Z.sub_0_r.
  replace (fexp prec emax (Zpos (digits2_pos m))) with (Zpos (digits2_pos m) - 53)
    by (unfold fexp, emin, prec, emax; lia).
  destruct (Zpos (digits2_pos m) - 53) as [|d|d] eqn:E; [|lia|].
  - exists m, 0. split; [apply round_aux_exact; lia|]. split; lia.
  - exists (Pos.iter xO m d), (Zneg d). split; [|split; [lia|apply iter_xO_mul]].
    apply round_aux_exact; [|lia]. pose proof (digits2_iter_xO m d). lia.
Qed.

(** Integers below 2^53 in magnitude convert exactly, and back. *)
Lemma double_of_int_exact i :
  Z.abs i < 2 ^ 53 -> double_truncate_to_i64 (double_of_int i) = Some i.
Proof.
  intros Hi. unfold double_of_int. destruct i as [|m|m]; cbn [binary_normalize]; [done| |].
  - destruct (binary_round_small false m Hi) as (q & e & -> & He & Hq). cbn [double_truncate_to_i64].
    assert (Ha : (if 0 <=? e then Zpos q * 2 ^ e else Zpos q / 2 ^ (- e)) = Zpos m).
    { destruct (Z.leb_spec 0 e); [replace e with 0 in * by lia; lia|]. rewrite Hq. apply Z.div_mul. lia. }
    rewrite Ha. unfold int64_ok, INT64_MIN, INT64_MAX. bdestruct_all; lia || done.
  - destruct (binary_round_small true m Hi) as (q & e & -> & He & Hq). cbn [double_truncate_to_i64].
    assert (Ha : (if 0 <=? e then Zpos q * 2 ^ e else Zpos q / 2 ^ (- e)) = Zpos m).
    { destruct (Z.leb_spec 0 e); [replace e with 0 in * by lia; lia|]. rewrite Hq. apply Z.div_mul. lia. }
    rewrite Ha. unfold int64_ok, INT64_MIN, INT64_MAX. bdestruct_all; lia || done.
Qed.

Lemma deq_refl d : d <> S754_nan -> deq d d = true.
Proof.
  intros Hn. unfold deq, SFeqb. destruct d as [s|s| |s m e]; cbn; [done|by destruct s|done|].
  rewrite Z.compare_refl, Pos.compare_cont_refl. by destruct s.
Qed.

Lemma deq_true a b : deq a b = true ->
  a = b \/ (exists s s', a = S754_zero s /\ b = S754_zero s').
Proof.
  unfold deq, SFeqb. destruct a as [[]|[]| |[] m e], b as [[]|[]| |[] m' e']; cbn;
    try done; try (by intros _; left); try (by intros _; right; eauto);
    (destruct (Z.compare_spec e e') as [->|?|?]; try done);
    change (Pos.compare_cont Eq m m') with (Pos.compare m m');
    destruct (Pos.compare_spec m m') as [->|?|?]; try done; by left.
Qed.

Lemma double_of_int_nonnan i : Z.abs i < 2 ^ 53 -> double_of_int i <> S754_nan.
Proof. intros H E. pose proof (double_of_int_exact i H) as Hx. by rewrite E in Hx. Qed.

Lemma double_of_int_deq i j :
  Z.abs i < 2 ^ 53 -> Z.abs j < 2 ^ 53 -> deq (double_of_int i) (double_of_int j) = (i =? j).
Proof.
  intros Hi Hj. destruct (Z.eqb_spec i j) as [->|Hne]; [by apply deq_refl, double_of_int_nonnan|].
  destruct (deq (double_of_int i) (double_of_int j)) eqn:E; [|done].
  pose proof (double_of_int_exact i Hi) as Ei. pose proof (double_of_int_exact j Hj) as Ej.
  apply deq_true in E as [E|(s & s' & E1 & E2)].
  - rewrite E in Ei. congruence.
  - rewrite E1 in Ei. rewrite E2 in Ej. cbn in Ei, Ej. congruence.
Qed.

(** EQ decides equality of integers whose magnitude is below 2^53. *)
Theorem value_equals_int text view i j :
  Z.abs i < 2 ^ 53 -> Z.abs j < 2 ^ 53 ->
  aivm_value_equals text view (VInt i) (VInt j) = (i =? j).
Proof. intros. by apply double_of_int_deq. Qed.

Lemma value_equals_int_witness :
  Z.abs (-9007199254740991) < 2 ^ 53 /\ Z.abs 7 < 2 ^ 53 /\
  aivm_value_equals (fun _ => None) (fun _ _ => None) (VInt (-9007199254740991)) (VInt 7) = false.
Proof.
  split; [reflexivity|]. split; [reflexivity|].
  exact (value_equals_int (fun _ => None) (fun _ _ => None) (-9007199254740991) 7 eq_refl eq_refl).
Defined.

(** Beyond 2^53 it does not: EQ holds of two different integers, and
    LT_NUM orders neither before the other, because both instructions compare the
    integers after conversion to double. *)
Theorem value_equals_int_large text view :
  aivm_value_equals text view (VInt 9007199254740992) (VInt 9007199254740993) = true /\
  dlt (aivm_vm_value_as_number (VInt 9007199254740992))
      (aivm_vm_value_as_number (VInt 9007199254740993)) = false.
Proof. split; vm_compute; reflexivity. Qed.
