(* ===== verification/Syscalls.v ===== *)
(** * System calls

    src/src/sys/aivm_syscall_contracts.c and aivm_syscall.c: the table of contracts,
    the validation of a call against it, the capability policy, and the checked
    dispatch to the host's bindings.  A handler is host code: a function on the state
    of the host, the call and the result cell.  Where the code accepts NULL, the
    argument is an option. *)

From S2P Require Import Prelude Types.

(** ** Capability groups *)

Inductive AivmSyscallCapabilityGroup :=
  | AIVM_SYSCALL_CAPABILITY_NONE | AIVM_SYSCALL_CAPABILITY_CORE | AIVM_SYSCALL_CAPABILITY_CONSOLE
  | AIVM_SYSCALL_CAPABILITY_PROCESS | AIVM_SYSCALL_CAPABILITY_PLATFORM | AIVM_SYSCALL_CAPABILITY_TIME
  | AIVM_SYSCALL_CAPABILITY_FILESYSTEM | AIVM_SYSCALL_CAPABILITY_CRYPTO | AIVM_SYSCALL_CAPABILITY_NETWORK
  | AIVM_SYSCALL_CAPABILITY_UI | AIVM_SYSCALL_CAPABILITY_WORKER | AIVM_SYSCALL_CAPABILITY_REMOTE
  | AIVM_SYSCALL_CAPABILITY_HOST | AIVM_SYSCALL_CAPABILITY_IMAGE | AIVM_SYSCALL_CAPABILITY_STORAGE
  | AIVM_SYSCALL_CAPABILITY_DEBUG.

Global Instance capability_eq_dec : EqDecision AivmSyscallCapabilityGroup.
Proof. solve_decision. Defined.

Definition capability_code (g : AivmSyscallCapabilityGroup) : Z :=
  match g with
  | AIVM_SYSCALL_CAPABILITY_NONE => 0 | AIVM_SYSCALL_CAPABILITY_CORE => 1 | AIVM_SYSCALL_CAPABILITY_CONSOLE => 2
  | AIVM_SYSCALL_CAPABILITY_PROCESS => 3 | AIVM_SYSCALL_CAPABILITY_PLATFORM => 4 | AIVM_SYSCALL_CAPABILITY_TIME => 5
  | AIVM_SYSCALL_CAPABILITY_FILESYSTEM => 6 | AIVM_SYSCALL_CAPABILITY_CRYPTO => 7 | AIVM_SYSCALL_CAPABILITY_NETWORK => 8
  | AIVM_SYSCALL_CAPABILITY_UI => 9 | AIVM_SYSCALL_CAPABILITY_WORKER => 10 | AIVM_SYSCALL_CAPABILITY_REMOTE => 11
  | AIVM_SYSCALL_CAPABILITY_HOST => 12 | AIVM_SYSCALL_CAPABILITY_IMAGE => 13 | AIVM_SYSCALL_CAPABILITY_STORAGE => 14
  | AIVM_SYSCALL_CAPABILITY_DEBUG => 15
  end.

(** The groups a loop from CORE to DEBUG visits. *)
Definition capability_groups : list AivmSyscallCapabilityGroup :=
  [AIVM_SYSCALL_CAPABILITY_CORE; AIVM_SYSCALL_CAPABILITY_CONSOLE; AIVM_SYSCALL_CAPABILITY_PROCESS;
   AIVM_SYSCALL_CAPABILITY_PLATFORM; AIVM_SYSCALL_CAPABILITY_TIME; AIVM_SYSCALL_CAPABILITY_FILESYSTEM;
   AIVM_SYSCALL_CAPABILITY_CRYPTO; AIVM_SYSCALL_CAPABILITY_NETWORK; AIVM_SYSCALL_CAPABILITY_UI;
   AIVM_SYSCALL_CAPABILITY_WORKER; AIVM_SYSCALL_CAPABILITY_REMOTE; AIVM_SYSCALL_CAPABILITY_HOST;
   AIVM_SYSCALL_CAPABILITY_IMAGE; AIVM_SYSCALL_CAPABILITY_STORAGE; AIVM_SYSCALL_CAPABILITY_DEBUG].

Definition aivm_syscall_capability_name (g : AivmSyscallCapabilityGroup) : string :=
  match g with
  | AIVM_SYSCALL_CAPABILITY_NONE => "none" | AIVM_SYSCALL_CAPABILITY_CORE => "core"
  | AIVM_SYSCALL_CAPABILITY_CONSOLE => "console" | AIVM_SYSCALL_CAPABILITY_PROCESS => "process"
  | AIVM_SYSCALL_CAPABILITY_PLATFORM => "platform" | AIVM_SYSCALL_CAPABILITY_TIME => "time"
  | AIVM_SYSCALL_CAPABILITY_FILESYSTEM => "filesystem" | AIVM_SYSCALL_CAPABILITY_CRYPTO => "crypto"
  | AIVM_SYSCALL_CAPABILITY_NETWORK => "network" | AIVM_SYSCALL_CAPABILITY_UI => "ui"
  | AIVM_SYSCALL_CAPABILITY_WORKER => "worker" | AIVM_SYSCALL_CAPABILITY_REMOTE => "remote"
  | AIVM_SYSCALL_CAPABILITY_HOST => "host" | AIVM_SYSCALL_CAPABILITY_IMAGE => "image"
  | AIVM_SYSCALL_CAPABILITY_STORAGE => "storage" | AIVM_SYSCALL_CAPABILITY_DEBUG => "debug"
  end.

Definition aivm_syscall_capability_from_name (name : string) : option AivmSyscallCapabilityGroup :=
  List.find (fun g => bool_decide (name = aivm_syscall_capability_name g)) capability_groups.

(** ** Contracts *)

Inductive AivmContractStatus :=
  | AIVM_CONTRACT_OK | AIVM_CONTRACT_ERR_UNKNOWN_TARGET | AIVM_CONTRACT_ERR_ARG_COUNT
  | AIVM_CONTRACT_ERR_ARG_TYPE | AIVM_CONTRACT_ERR_UNKNOWN_ID.

Record AivmSyscallContract := mk_contract {
  contract_id : Z; contract_target : string; contract_arg_count : Z; arg_types : list AivmValueType;
  return_type : AivmValueType; capability : AivmSyscallCapabilityGroup }.

(** A row of the table: the unused argument types are AIVM_VAL_VOID. *)
Definition contract (id : Z) (target : string) (n : Z) (types : list AivmValueType) (ret : AivmValueType)
    (g : AivmSyscallCapabilityGroup) : AivmSyscallContract :=
  mk_contract id target n (types ++ repeat AIVM_VAL_VOID (8 - length types)) ret g.

Definition Contracts : list AivmSyscallContract := [
  contract 5 "sys.net.tcp.close" 1 [AIVM_VAL_INT] AIVM_VAL_VOID AIVM_SYSCALL_CAPABILITY_NETWORK;
  contract 6 "sys.console.write" 1 [AIVM_VAL_STRING] AIVM_VAL_VOID AIVM_SYSCALL_CAPABILITY_CONSOLE;
  contract 7 "sys.console.writeLine" 1 [AIVM_VAL_STRING] AIVM_VAL_VOID AIVM_SYSCALL_CAPABILITY_CONSOLE;
  contract 8 "sys.console.readLine" 0 [] AIVM_VAL_STRING AIVM_SYSCALL_CAPABILITY_CONSOLE;
  contract 9 "sys.console.readAllStdin" 0 [] AIVM_VAL_STRING AIVM_SYSCALL_CAPABILITY_CONSOLE;
  contract 10 "sys.console.writeErrLine" 1 [AIVM_VAL_STRING] AIVM_VAL_VOID AIVM_SYSCALL_CAPABILITY_CONSOLE;
  contract 16 "sys.stdout.writeLine" 1 [AIVM_VAL_STRING] AIVM_VAL_VOID AIVM_SYSCALL_CAPABILITY_CONSOLE;
  contract 11 "sys.process.cwd" 0 [] AIVM_VAL_STRING AIVM_SYSCALL_CAPABILITY_PROCESS;
  contract 12 "sys.process.env.get" 1 [AIVM_VAL_STRING] AIVM_VAL_STRING AIVM_SYSCALL_CAPABILITY_PROCESS;
  contract 18 "sys.process.args" 0 [] AIVM_VAL_NODE AIVM_SYSCALL_CAPABILITY_PROCESS;
  contract 105 "sys.process.spawn" 4 [AIVM_VAL_STRING; AIVM_VAL_NODE; AIVM_VAL_STRING; AIVM_VAL_NODE] AIVM_VAL_INT AIVM_SYSCALL_CAPABILITY_PROCESS;
  contract 106 "sys.process.wait" 1 [AIVM_VAL_INT] AIVM_VAL_INT AIVM_SYSCALL_CAPABILITY_PROCESS;
  contract 107 "sys.process.kill" 1 [AIVM_VAL_INT] AIVM_VAL_BOOL AIVM_SYSCALL_CAPABILITY_PROCESS;
  contract 108 "sys.process.stdout.read" 1 [AIVM_VAL_INT] AIVM_VAL_BYTES AIVM_SYSCALL_CAPABILITY_PROCESS;
  contract 109 "sys.process.stderr.read" 1 [AIVM_VAL_INT] AIVM_VAL_BYTES AIVM_SYSCALL_CAPABILITY_PROCESS;
  contract 110 "sys.process.poll" 1 [AIVM_VAL_INT] AIVM_VAL_INT AIVM_SYSCALL_CAPABILITY_PROCESS;
  contract 117 "sys.remote.call" 3 [AIVM_VAL_STRING; AIVM_VAL_STRING; AIVM_VAL_INT] AIVM_VAL_INT AIVM_SYSCALL_CAPABILITY_REMOTE;
  contract 120 "sys.host.openDefault" 1 [AIVM_VAL_STRING] AIVM_VAL_BOOL AIVM_SYSCALL_CAPABILITY_HOST;
  contract 121 "sys.image.decodeToRgbaBase64" 2 [AIVM_VAL_BYTES; AIVM_VAL_STRING] AIVM_VAL_STRING AIVM_SYSCALL_CAPABILITY_IMAGE;
  contract 28 "sys.platform" 0 [] AIVM_VAL_STRING AIVM_SYSCALL_CAPABILITY_PLATFORM;
  contract 29 "sys.arch" 0 [] AIVM_VAL_STRING AIVM_SYSCALL_CAPABILITY_PLATFORM;
  contract 30 "sys.os.version" 0 [] AIVM_VAL_STRING AIVM_SYSCALL_CAPABILITY_PLATFORM;
  contract 31 "sys.runtime" 0 [] AIVM_VAL_STRING AIVM_SYSCALL_CAPABILITY_PLATFORM;
  contract 13 "sys.time.nowUnixMs" 0 [] AIVM_VAL_INT AIVM_SYSCALL_CAPABILITY_TIME;
  contract 14 "sys.time.monotonicMs" 0 [] AIVM_VAL_INT AIVM_SYSCALL_CAPABILITY_TIME;
  contract 15 "sys.time.sleepMs" 1 [AIVM_VAL_INT] AIVM_VAL_VOID AIVM_SYSCALL_CAPABILITY_TIME;
  contract 122 "sys.time.timeZoneId" 0 [] AIVM_VAL_STRING AIVM_SYSCALL_CAPABILITY_TIME;
  contract 123 "sys.time.timeZoneOffsetMinutesAt" 1 [AIVM_VAL_INT] AIVM_VAL_INT AIVM_SYSCALL_CAPABILITY_TIME;
  contract 17 "sys.process.exit" 1 [AIVM_VAL_INT] AIVM_VAL_VOID AIVM_SYSCALL_CAPABILITY_PROCESS;
  contract 19 "sys.fs.file.read" 1 [AIVM_VAL_STRING] AIVM_VAL_BYTES AIVM_SYSCALL_CAPABILITY_FILESYSTEM;
  contract 20 "sys.fs.file.exists" 1 [AIVM_VAL_STRING] AIVM_VAL_BOOL AIVM_SYSCALL_CAPABILITY_FILESYSTEM;
  contract 21 "sys.fs.dir.list" 1 [AIVM_VAL_STRING] AIVM_VAL_NODE AIVM_SYSCALL_CAPABILITY_FILESYSTEM;
  contract 22 "sys.fs.path.stat" 1 [AIVM_VAL_STRING] AIVM_VAL_NODE AIVM_SYSCALL_CAPABILITY_FILESYSTEM;
  contract 23 "sys.fs.path.exists" 1 [AIVM_VAL_STRING] AIVM_VAL_BOOL AIVM_SYSCALL_CAPABILITY_FILESYSTEM;
  contract 24 "sys.fs.file.write" 2 [AIVM_VAL_STRING; AIVM_VAL_BYTES] AIVM_VAL_VOID AIVM_SYSCALL_CAPABILITY_FILESYSTEM;
  contract 25 "sys.fs.dir.create" 1 [AIVM_VAL_STRING] AIVM_VAL_VOID AIVM_SYSCALL_CAPABILITY_FILESYSTEM;
  contract 103 "sys.fs.file.delete" 1 [AIVM_VAL_STRING] AIVM_VAL_BOOL AIVM_SYSCALL_CAPABILITY_FILESYSTEM;
  contract 104 "sys.fs.dir.delete" 2 [AIVM_VAL_STRING; AIVM_VAL_BOOL] AIVM_VAL_BOOL AIVM_SYSCALL_CAPABILITY_FILESYSTEM;
  contract 124 "sys.fs.file.openRead" 1 [AIVM_VAL_STRING] AIVM_VAL_INT AIVM_SYSCALL_CAPABILITY_FILESYSTEM;
  contract 125 "sys.fs.file.readChunk" 2 [AIVM_VAL_INT; AIVM_VAL_INT] AIVM_VAL_BYTES AIVM_SYSCALL_CAPABILITY_FILESYSTEM;
  contract 126 "sys.fs.file.close" 1 [AIVM_VAL_INT] AIVM_VAL_BOOL AIVM_SYSCALL_CAPABILITY_FILESYSTEM;
  contract 127 "sys.fs.file.openWrite" 1 [AIVM_VAL_STRING] AIVM_VAL_INT AIVM_SYSCALL_CAPABILITY_FILESYSTEM;
  contract 128 "sys.fs.file.writeChunk" 2 [AIVM_VAL_INT; AIVM_VAL_BYTES] AIVM_VAL_INT AIVM_SYSCALL_CAPABILITY_FILESYSTEM;
  contract 42 "sys.crypto.randomBytes" 1 [AIVM_VAL_INT] AIVM_VAL_BYTES AIVM_SYSCALL_CAPABILITY_CRYPTO;
  contract 27 "sys.net.tcp.connect" 2 [AIVM_VAL_STRING; AIVM_VAL_INT] AIVM_VAL_INT AIVM_SYSCALL_CAPABILITY_NETWORK;
  contract 32 "sys.net.tcp.listen" 2 [AIVM_VAL_STRING; AIVM_VAL_INT] AIVM_VAL_INT AIVM_SYSCALL_CAPABILITY_NETWORK;
  contract 33 "sys.net.tcp.listenTls" 4 [AIVM_VAL_STRING; AIVM_VAL_INT; AIVM_VAL_STRING; AIVM_VAL_STRING] AIVM_VAL_INT AIVM_SYSCALL_CAPABILITY_NETWORK;
  contract 34 "sys.net.tcp.accept" 1 [AIVM_VAL_INT] AIVM_VAL_INT AIVM_SYSCALL_CAPABILITY_NETWORK;
  contract 35 "sys.net.tcp.read" 2 [AIVM_VAL_INT; AIVM_VAL_INT] AIVM_VAL_BYTES AIVM_SYSCALL_CAPABILITY_NETWORK;
  contract 36 "sys.net.tcp.write" 2 [AIVM_VAL_INT; AIVM_VAL_BYTES] AIVM_VAL_INT AIVM_SYSCALL_CAPABILITY_NETWORK;
  contract 61 "sys.net.tcp.connectTls" 2 [AIVM_VAL_STRING; AIVM_VAL_INT] AIVM_VAL_INT AIVM_SYSCALL_CAPABILITY_NETWORK;
  contract 62 "sys.net.tcp.connectStart" 2 [AIVM_VAL_STRING; AIVM_VAL_INT] AIVM_VAL_INT AIVM_SYSCALL_CAPABILITY_NETWORK;
  contract 63 "sys.net.tcp.connectTlsStart" 2 [AIVM_VAL_STRING; AIVM_VAL_INT] AIVM_VAL_INT AIVM_SYSCALL_CAPABILITY_NETWORK;
  contract 64 "sys.net.tcp.readStart" 2 [AIVM_VAL_INT; AIVM_VAL_INT] AIVM_VAL_INT AIVM_SYSCALL_CAPABILITY_NETWORK;
  contract 65 "sys.net.tcp.writeStart" 2 [AIVM_VAL_INT; AIVM_VAL_BYTES] AIVM_VAL_INT AIVM_SYSCALL_CAPABILITY_NETWORK;
  contract 66 "sys.net.async.poll" 1 [AIVM_VAL_INT] AIVM_VAL_INT AIVM_SYSCALL_CAPABILITY_NETWORK;
  contract 67 "sys.net.async.await" 1 [AIVM_VAL_INT] AIVM_VAL_INT AIVM_SYSCALL_CAPABILITY_NETWORK;
  contract 68 "sys.net.async.cancel" 1 [AIVM_VAL_INT] AIVM_VAL_BOOL AIVM_SYSCALL_CAPABILITY_NETWORK;
  contract 69 "sys.net.async.resultInt" 1 [AIVM_VAL_INT] AIVM_VAL_INT AIVM_SYSCALL_CAPABILITY_NETWORK;
  contract 70 "sys.net.async.resultBytes" 1 [AIVM_VAL_INT] AIVM_VAL_BYTES AIVM_SYSCALL_CAPABILITY_NETWORK;
  contract 71 "sys.net.async.error" 1 [AIVM_VAL_INT] AIVM_VAL_STRING AIVM_SYSCALL_CAPABILITY_NETWORK;
  contract 43 "sys.net.udp.bind" 2 [AIVM_VAL_STRING; AIVM_VAL_INT] AIVM_VAL_INT AIVM_SYSCALL_CAPABILITY_NETWORK;
  contract 44 "sys.net.udp.recv" 2 [AIVM_VAL_INT; AIVM_VAL_INT] AIVM_VAL_NODE AIVM_SYSCALL_CAPABILITY_NETWORK;
  contract 45 "sys.net.udp.send" 4 [AIVM_VAL_INT; AIVM_VAL_STRING; AIVM_VAL_INT; AIVM_VAL_BYTES] AIVM_VAL_INT AIVM_SYSCALL_CAPABILITY_NETWORK;
  contract 46 "sys.ui.createWindow" 3 [AIVM_VAL_STRING; AIVM_VAL_INT; AIVM_VAL_INT] AIVM_VAL_INT AIVM_SYSCALL_CAPABILITY_UI;
  contract 47 "sys.ui.beginFrame" 1 [AIVM_VAL_INT] AIVM_VAL_VOID AIVM_SYSCALL_CAPABILITY_UI;
  contract 48 "sys.ui.drawRect" 6 [AIVM_VAL_INT; AIVM_VAL_INT; AIVM_VAL_INT; AIVM_VAL_INT; AIVM_VAL_INT; AIVM_VAL_STRING] AIVM_VAL_VOID AIVM_SYSCALL_CAPABILITY_UI;
  contract 49 "sys.ui.drawText" 6 [AIVM_VAL_INT; AIVM_VAL_INT; AIVM_VAL_INT; AIVM_VAL_STRING; AIVM_VAL_STRING; AIVM_VAL_INT] AIVM_VAL_VOID AIVM_SYSCALL_CAPABILITY_UI;
  contract 50 "sys.ui.endFrame" 1 [AIVM_VAL_INT] AIVM_VAL_VOID AIVM_SYSCALL_CAPABILITY_UI;
  contract 51 "sys.ui.pollEvent" 1 [AIVM_VAL_INT] AIVM_VAL_NODE AIVM_SYSCALL_CAPABILITY_UI;
  contract 52 "sys.ui.present" 1 [AIVM_VAL_INT] AIVM_VAL_VOID AIVM_SYSCALL_CAPABILITY_UI;
  contract 53 "sys.ui.closeWindow" 1 [AIVM_VAL_INT] AIVM_VAL_VOID AIVM_SYSCALL_CAPABILITY_UI;
  contract 54 "sys.ui.drawLine" 7 [AIVM_VAL_INT; AIVM_VAL_INT; AIVM_VAL_INT; AIVM_VAL_INT; AIVM_VAL_INT; AIVM_VAL_STRING; AIVM_VAL_INT] AIVM_VAL_VOID AIVM_SYSCALL_CAPABILITY_UI;
  contract 55 "sys.ui.drawEllipse" 6 [AIVM_VAL_INT; AIVM_VAL_INT; AIVM_VAL_INT; AIVM_VAL_INT; AIVM_VAL_INT; AIVM_VAL_STRING] AIVM_VAL_VOID AIVM_SYSCALL_CAPABILITY_UI;
  contract 56 "sys.ui.drawPath" 5 [AIVM_VAL_INT; AIVM_VAL_STRING; AIVM_VAL_STRING; AIVM_VAL_STRING; AIVM_VAL_INT] AIVM_VAL_VOID AIVM_SYSCALL_CAPABILITY_UI;
  contract 57 "sys.ui.drawImage" 6 [AIVM_VAL_INT; AIVM_VAL_INT; AIVM_VAL_INT; AIVM_VAL_INT; AIVM_VAL_INT; AIVM_VAL_STRING] AIVM_VAL_VOID AIVM_SYSCALL_CAPABILITY_UI;
  contract 58 "sys.ui.getWindowSize" 1 [AIVM_VAL_INT] AIVM_VAL_NODE AIVM_SYSCALL_CAPABILITY_UI;
  contract 130 "sys.runtime.platform" 0 [] AIVM_VAL_STRING AIVM_SYSCALL_CAPABILITY_PLATFORM;
  contract 131 "sys.runtime.target" 0 [] AIVM_VAL_STRING AIVM_SYSCALL_CAPABILITY_PLATFORM;
  contract 132 "sys.storage.local.available" 0 [] AIVM_VAL_BOOL AIVM_SYSCALL_CAPABILITY_STORAGE;
  contract 133 "sys.storage.local.get" 2 [AIVM_VAL_STRING; AIVM_VAL_STRING] AIVM_VAL_STRING AIVM_SYSCALL_CAPABILITY_STORAGE;
  contract 134 "sys.storage.local.set" 3 [AIVM_VAL_STRING; AIVM_VAL_STRING; AIVM_VAL_STRING] AIVM_VAL_BOOL AIVM_SYSCALL_CAPABILITY_STORAGE;
  contract 135 "sys.storage.local.delete" 2 [AIVM_VAL_STRING; AIVM_VAL_STRING] AIVM_VAL_BOOL AIVM_SYSCALL_CAPABILITY_STORAGE;
  contract 136 "sys.storage.local.exists" 2 [AIVM_VAL_STRING; AIVM_VAL_STRING] AIVM_VAL_BOOL AIVM_SYSCALL_CAPABILITY_STORAGE;
  contract 137 "sys.storage.secure.available" 0 [] AIVM_VAL_BOOL AIVM_SYSCALL_CAPABILITY_STORAGE;
  contract 138 "sys.storage.secure.get" 2 [AIVM_VAL_STRING; AIVM_VAL_STRING] AIVM_VAL_STRING AIVM_SYSCALL_CAPABILITY_STORAGE;
  contract 139 "sys.storage.secure.set" 3 [AIVM_VAL_STRING; AIVM_VAL_STRING; AIVM_VAL_STRING] AIVM_VAL_BOOL AIVM_SYSCALL_CAPABILITY_STORAGE;
  contract 140 "sys.storage.secure.delete" 2 [AIVM_VAL_STRING; AIVM_VAL_STRING] AIVM_VAL_BOOL AIVM_SYSCALL_CAPABILITY_STORAGE;
  contract 141 "sys.storage.secure.exists" 2 [AIVM_VAL_STRING; AIVM_VAL_STRING] AIVM_VAL_BOOL AIVM_SYSCALL_CAPABILITY_STORAGE;
  contract 142 "sys.ui.pushClipPath" 2 [AIVM_VAL_INT; AIVM_VAL_STRING] AIVM_VAL_VOID AIVM_SYSCALL_CAPABILITY_UI;
  contract 143 "sys.ui.popClipPath" 1 [AIVM_VAL_INT] AIVM_VAL_VOID AIVM_SYSCALL_CAPABILITY_UI;
  contract 129 "sys.ui.measureText" 3 [AIVM_VAL_INT; AIVM_VAL_STRING; AIVM_VAL_INT] AIVM_VAL_INT AIVM_SYSCALL_CAPABILITY_UI;
  contract 72 "sys.ui.waitFrame" 1 [AIVM_VAL_INT] AIVM_VAL_VOID AIVM_SYSCALL_CAPABILITY_UI;
  contract 78 "sys.debug.emit" 2 [AIVM_VAL_STRING; AIVM_VAL_STRING] AIVM_VAL_VOID AIVM_SYSCALL_CAPABILITY_DEBUG;
  contract 79 "sys.debug.mode" 0 [] AIVM_VAL_STRING AIVM_SYSCALL_CAPABILITY_DEBUG;
  contract 80 "sys.debug.captureFrameBegin" 3 [AIVM_VAL_INT; AIVM_VAL_INT; AIVM_VAL_INT] AIVM_VAL_VOID AIVM_SYSCALL_CAPABILITY_DEBUG;
  contract 81 "sys.debug.captureFrameEnd" 1 [AIVM_VAL_INT] AIVM_VAL_VOID AIVM_SYSCALL_CAPABILITY_DEBUG;
  contract 82 "sys.debug.captureDraw" 2 [AIVM_VAL_STRING; AIVM_VAL_STRING] AIVM_VAL_VOID AIVM_SYSCALL_CAPABILITY_DEBUG;
  contract 83 "sys.debug.captureInput" 1 [AIVM_VAL_STRING] AIVM_VAL_VOID AIVM_SYSCALL_CAPABILITY_DEBUG;
  contract 84 "sys.debug.captureState" 2 [AIVM_VAL_STRING; AIVM_VAL_STRING] AIVM_VAL_VOID AIVM_SYSCALL_CAPABILITY_DEBUG;
  contract 85 "sys.debug.replayLoad" 1 [AIVM_VAL_STRING] AIVM_VAL_INT AIVM_SYSCALL_CAPABILITY_DEBUG;
  contract 86 "sys.debug.replayNext" 1 [AIVM_VAL_INT] AIVM_VAL_STRING AIVM_SYSCALL_CAPABILITY_DEBUG;
  contract 87 "sys.debug.assert" 3 [AIVM_VAL_BOOL; AIVM_VAL_STRING; AIVM_VAL_STRING] AIVM_VAL_VOID AIVM_SYSCALL_CAPABILITY_DEBUG;
  contract 88 "sys.debug.artifactWrite" 2 [AIVM_VAL_STRING; AIVM_VAL_STRING] AIVM_VAL_BOOL AIVM_SYSCALL_CAPABILITY_DEBUG;
  contract 89 "sys.debug.traceAsync" 3 [AIVM_VAL_INT; AIVM_VAL_STRING; AIVM_VAL_STRING] AIVM_VAL_VOID AIVM_SYSCALL_CAPABILITY_DEBUG;
  contract 115 "sys.debug.taskReclaimStats" 0 [] AIVM_VAL_NODE AIVM_SYSCALL_CAPABILITY_DEBUG].

(** The types of the values, from [arg_index] on.  The result of the validation is the
    status and the return type that is reported; [None] is a read outside [arg_types]. *)
Fixpoint check_types (c : AivmSyscallContract) (args : list AivmValue) (arg_index : Z) : option bool :=
  match args with
  | [] => Some true
  | v :: rest =>
      match zget (arg_types c) arg_index with
      | None => None
      | Some t => if bool_decide (value_type v = t) then check_types c rest (arg_index + 1) else Some false
      end
  end.

(** The arguments of a call: the [arg_count] values at [args], or NULL and a count. *)
Inductive call_args := ArgValues (values : list AivmValue) | ArgNull (arg_count : Z).
Definition arg_count_of (args : call_args) : Z := match args with ArgValues values => zlen values | ArgNull n => n end.

Definition validate_contract (c : AivmSyscallContract) (args : call_args) : option (AivmContractStatus * AivmValueType) :=
  if negb (contract_arg_count c =? arg_count_of args) then Some (AIVM_CONTRACT_ERR_ARG_COUNT, AIVM_VAL_VOID)
  else
    match (match args with ArgValues values => check_types c values 0 | ArgNull n => Some (n <=? 0) end) with
    | None => None
    | Some true => Some (AIVM_CONTRACT_OK, return_type c)
    | Some false => Some (AIVM_CONTRACT_ERR_ARG_TYPE, AIVM_VAL_VOID)
    end.

Definition aivm_syscall_contract_find_by_target (target : option string) : option AivmSyscallContract :=
  match target with
  | None => None
  | Some target => List.find (fun c => bool_decide (contract_target c = target)) Contracts
  end.

Definition aivm_syscall_contract_find_by_id (id : Z) : option AivmSyscallContract :=
  List.find (fun c => contract_id c =? id) Contracts.

Definition aivm_syscall_contract_capability (target : option string) : AivmSyscallCapabilityGroup :=
  match aivm_syscall_contract_find_by_target target with
  | None => AIVM_SYSCALL_CAPABILITY_NONE
  | Some c => capability c
  end.

Definition aivm_syscall_contract_is_debug_target (target : option string) : bool :=
  bool_decide (aivm_syscall_contract_capability target = AIVM_SYSCALL_CAPABILITY_DEBUG).

Definition aivm_syscall_contract_should_bind_in_production (target : option string) : bool :=
  let g := aivm_syscall_contract_capability target in
  negb (bool_decide (g = AIVM_SYSCALL_CAPABILITY_NONE)) && negb (bool_decide (g = AIVM_SYSCALL_CAPABILITY_DEBUG)).

(** [aivm_syscall_contract_validate] leaves the reported type alone for an unknown
    target; its caller has set it to VOID. *)
Definition aivm_syscall_contract_validate (target : option string) (args : call_args) :
    option (AivmContractStatus * AivmValueType) :=
  match aivm_syscall_contract_find_by_target target with
  | None => Some (AIVM_CONTRACT_ERR_UNKNOWN_TARGET, AIVM_VAL_VOID)
  | Some c => validate_contract c args
  end.

Definition aivm_syscall_contract_validate_id (id : Z) (args : call_args) : option (AivmContractStatus * AivmValueType) :=
  match aivm_syscall_contract_find_by_id id with
  | None => Some (AIVM_CONTRACT_ERR_UNKNOWN_ID, AIVM_VAL_VOID)
  | Some c => validate_contract c args
  end.

(** ** Policies *)

Definition aivm_syscall_capability_mask (g : AivmSyscallCapabilityGroup) : Z :=
  if (capability_code g <=? 0) || (15 <? capability_code g) then 0 else u64 (Z.shiftl 1 (capability_code g)).

Record AivmSyscallCapabilityPolicy := mk_policy { allowed_capability_mask : Z }.

Definition aivm_syscall_policy_allow_none : AivmSyscallCapabilityPolicy := mk_policy 0.
Definition aivm_syscall_policy_allow_group (p : AivmSyscallCapabilityPolicy) (g : AivmSyscallCapabilityGroup) :=
  mk_policy (Z.lor (allowed_capability_mask p) (aivm_syscall_capability_mask g)).
Definition aivm_syscall_policy_deny_group (p : AivmSyscallCapabilityPolicy) (g : AivmSyscallCapabilityGroup) :=
  mk_policy (Z.land (allowed_capability_mask p) (u64 (Z.lnot (aivm_syscall_capability_mask g)))).
Definition aivm_syscall_policy_allow_all : AivmSyscallCapabilityPolicy :=
  fold_left aivm_syscall_policy_allow_group capability_groups (mk_policy 0).
Definition aivm_syscall_policy_allow_production_default : AivmSyscallCapabilityPolicy :=
  aivm_syscall_policy_deny_group aivm_syscall_policy_allow_all AIVM_SYSCALL_CAPABILITY_DEBUG.

(** No policy allows every group but NONE. *)
Definition aivm_syscall_policy_allows (p : option AivmSyscallCapabilityPolicy) (g : AivmSyscallCapabilityGroup) : bool :=
  let mask := aivm_syscall_capability_mask g in
  if mask =? 0 then false
  else match p with
       | None => true
       | Some p => negb (Z.land (allowed_capability_mask p) mask =? 0)
       end.

(** ** Dispatch *)

Definition AIVM_SYSCALL_OK : Z := 0.
Definition AIVM_SYSCALL_ERR_INVALID : Z := -1.
Definition AIVM_SYSCALL_ERR_NULL_RESULT : Z := -2.
Definition AIVM_SYSCALL_ERR_NOT_FOUND : Z := -3.
Definition AIVM_SYSCALL_ERR_CONTRACT : Z := -4.
Definition AIVM_SYSCALL_ERR_RETURN_TYPE : Z := -5.
Definition AIVM_SYSCALL_ERR_UNBOUND : Z := -6.
Definition AIVM_SYSCALL_ERR_RESOURCE_LIMIT : Z := -7.
Definition AIVM_SYSCALL_ERR_CAPABILITY_DENIED : Z := -8.

Section Dispatch.

(** The state of the host. *)
Context {W : Type}.

(** A handler returns a status (any [int]) and writes the result cell. *)
Definition AivmSyscallHandler : Type := W -> string -> list AivmValue -> AivmValue -> W * Z * AivmValue.

Record AivmSyscallBinding := mk_binding { binding_target : option string; binding_handler : option AivmSyscallHandler }.

(** The state of the host, the status and the result cell, when there is one. *)
Definition outcome : Type := W * Z * option AivmValue.

Definition aivm_syscall_invoke (h : option AivmSyscallHandler) (target : option string) (args : list AivmValue)
    (result : option AivmValue) (w : W) : outcome :=
  match result with
  | None => (w, AIVM_SYSCALL_ERR_NULL_RESULT, None)
  | Some r =>
      match h, target with
      | Some h, Some target => let '(w', st, r') := h w target args r in (w', st, Some r')
      | _, _ => (w, AIVM_SYSCALL_ERR_INVALID, Some VVoid)
      end
  end.

Fixpoint dispatch_loop (bindings : list AivmSyscallBinding) (target : string) (args : list AivmValue)
    (r : AivmValue) (w : W) : outcome :=
  match bindings with
  | [] => (w, AIVM_SYSCALL_ERR_NOT_FOUND, Some VVoid)
  | b :: rest =>
      match binding_target b, binding_handler b with
      | Some t, Some h =>
          if bool_decide (t = target) then aivm_syscall_invoke (Some h) (Some target) args (Some r) w
          else dispatch_loop rest target args r w
      | _, _ => dispatch_loop rest target args r w
      end
  end.

Definition aivm_syscall_dispatch (bindings : option (list AivmSyscallBinding)) (target : option string)
    (args : list AivmValue) (result : option AivmValue) (w : W) : outcome :=
  match result with
  | None => (w, AIVM_SYSCALL_ERR_NULL_RESULT, None)
  | Some r =>
      match bindings, target with
      | Some bs, Some target => dispatch_loop bs target args r w
      | _, _ => (w, AIVM_SYSCALL_ERR_INVALID, Some VVoid)
      end
  end.

(** The outcome and the contract status; [None] is a read outside the table. *)
Definition aivm_syscall_dispatch_checked_with_policy (bindings : option (list AivmSyscallBinding))
    (policy : option AivmSyscallCapabilityPolicy) (target : option string) (args : list AivmValue)
    (result : option AivmValue) (w : W) : option (outcome * AivmContractStatus) :=
  match result with
  | None => Some ((w, AIVM_SYSCALL_ERR_NULL_RESULT, None), AIVM_CONTRACT_OK)
  | Some r =>
      match aivm_syscall_contract_validate target (ArgValues args) with
      | None => None
      | Some (AIVM_CONTRACT_OK, expected_return_type) =>
          Some (
            if negb (aivm_syscall_policy_allows policy (aivm_syscall_contract_capability target))
            then (w, AIVM_SYSCALL_ERR_CAPABILITY_DENIED, Some VVoid)
            else
              match bindings with
              | None | Some [] => (w, AIVM_SYSCALL_ERR_UNBOUND, Some VVoid)
              | Some bs =>
                  let '(w', st, result') := aivm_syscall_dispatch (Some bs) target args (Some r) w in
                  if st =? AIVM_SYSCALL_ERR_NOT_FOUND then (w', AIVM_SYSCALL_ERR_UNBOUND, result')
                  else if negb (st =? AIVM_SYSCALL_OK) then (w', st, result')
                  else if bool_decide (option_map value_type result' = Some expected_return_type)
                  then (w', AIVM_SYSCALL_OK, result')
                  else (w', AIVM_SYSCALL_ERR_RETURN_TYPE, Some VVoid)
              end, AIVM_CONTRACT_OK)
      | Some (status, _) => Some ((w, AIVM_SYSCALL_ERR_CONTRACT, Some VVoid), status)
      end
  end.

Definition aivm_syscall_dispatch_checked_with_contract (bindings : option (list AivmSyscallBinding)) :=
  aivm_syscall_dispatch_checked_with_policy bindings None.

Definition aivm_syscall_dispatch_checked (bindings : option (list AivmSyscallBinding)) (target : option string)
    (args : list AivmValue) (result : option AivmValue) (w : W) : option outcome :=
  option_map fst (aivm_syscall_dispatch_checked_with_contract bindings target args result w).

End Dispatch.

Arguments AivmSyscallBinding : clear implicits.
Arguments AivmSyscallHandler : clear implicits.

Definition aivm_syscall_status_code (st : Z) : string :=
  if st =? AIVM_SYSCALL_OK then "AIVMS000" else if st =? AIVM_SYSCALL_ERR_INVALID then "AIVMS001"
  else if st =? AIVM_SYSCALL_ERR_NULL_RESULT then "AIVMS002" else if st =? AIVM_SYSCALL_ERR_NOT_FOUND then "AIVMS003"
  else if st =? AIVM_SYSCALL_ERR_CONTRACT then "AIVMS004" else if st =? AIVM_SYSCALL_ERR_RETURN_TYPE then "AIVMS005"
  else if st =? AIVM_SYSCALL_ERR_UNBOUND then "AIVMS006" else if st =? AIVM_SYSCALL_ERR_RESOURCE_LIMIT then "AIVMS007"
  else if st =? AIVM_SYSCALL_ERR_CAPABILITY_DENIED then "AIVMS008" else "AIVMS999".

(** ** Policies are sets of groups *)

Definition grantable (g : AivmSyscallCapabilityGroup) : Prop := g <> AIVM_SYSCALL_CAPABILITY_NONE.

Lemma mask_pow g : grantable g -> aivm_syscall_capability_mask g = 2 ^ capability_code g.
Proof. by destruct g. Qed.

Lemma code_range g : grantable g -> 0 < capability_code g < 16.
Proof. by destruct g. Qed.

Lemma code_inj g h : capability_code g = capability_code h -> g = h.
Proof. destruct g, h; (done || discriminate). Qed.

Lemma land_pow2 m k : 0 <= k -> negb (Z.land m (2 ^ k) =? 0) = Z.testbit m k.
Proof.
  intros Hk. assert (E : Z.land m (2 ^ k) = if Z.testbit m k then 2 ^ k else 0).
  { apply Z.bits_inj'. intros i Hi. rewrite Z.land_spec, Z.pow2_bits_eqb by lia. destruct (Z.eqb_spec k i) as [->|Hne].
    - rewrite andb_true_r. destruct (Z.testbit m i); [by rewrite Z.pow2_bits_true by lia|by rewrite Z.bits_0].
    - rewrite andb_false_r. destruct (Z.testbit m k); [by rewrite Z.pow2_bits_false by lia|by rewrite Z.bits_0]. }
  rewrite E. destruct (Z.testbit m k); [|done]. destruct (Z.eqb_spec (2 ^ k) 0) as [E0|]; [|done].
  pose proof (Z.pow_pos_nonneg 2 k). lia.
Qed.

Lemma allows_bit p g : aivm_syscall_policy_allows (Some p) g = true <->
  grantable g /\ Z.testbit (allowed_capability_mask p) (capability_code g) = true.
Proof.
  unfold aivm_syscall_policy_allows. destruct (decide (g = AIVM_SYSCALL_CAPABILITY_NONE)) as [->|Hg].
  - split; [done|intros [H _]; by destruct (H eq_refl)].
  - pose proof (code_range g Hg). rewrite mask_pow, land_pow2 by (done || lia).
    destruct (Z.eqb_spec (2 ^ capability_code g) 0) as [E|_]; [pose proof (Z.pow_pos_nonneg 2 (capability_code g)); lia|].
    split; [intros ?; by split|by intros [_ ?]].
Qed.

Lemma allow_group_allows p g h : aivm_syscall_policy_allows (Some (aivm_syscall_policy_allow_group p g)) h = true <->
  aivm_syscall_policy_allows (Some p) h = true \/ (grantable h /\ h = g).
Proof.
  rewrite !allows_bit. unfold aivm_syscall_policy_allow_group. cbn [allowed_capability_mask]. rewrite Z.lor_spec, orb_true_iff.
  destruct (decide (g = AIVM_SYSCALL_CAPABILITY_NONE)) as [->|Hg].
  - change (aivm_syscall_capability_mask AIVM_SYSCALL_CAPABILITY_NONE) with 0. rewrite Z.bits_0. unfold grantable. intuition congruence.
  - pose proof (code_range g Hg). rewrite mask_pow, Z.pow2_bits_eqb, Z.eqb_eq by (done || lia). split.
    + intros [Hh [H1|H1]]; [by left|right]. split; [done|]. symmetry. by apply code_inj.
    + intros [[Hh H1]|[Hh ->]]; (split; [done|]); [by left|by right].
Qed.

Lemma deny_group_allows p g h : aivm_syscall_policy_allows (Some (aivm_syscall_policy_deny_group p g)) h = true <->
  aivm_syscall_policy_allows (Some p) h = true /\ h <> g.
Proof.
  rewrite !allows_bit. unfold aivm_syscall_policy_deny_group. cbn [allowed_capability_mask].
  destruct (decide (h = AIVM_SYSCALL_CAPABILITY_NONE)) as [->|Hh]; [unfold grantable; intuition congruence|].
  pose proof (code_range h Hh). rewrite Z.land_spec, andb_true_iff. unfold u64. rewrite Z.mod_pow2_bits_low by lia.
  rewrite Z.lnot_spec by lia. destruct (decide (g = AIVM_SYSCALL_CAPABILITY_NONE)) as [->|Hg].
  - change (aivm_syscall_capability_mask AIVM_SYSCALL_CAPABILITY_NONE) with 0. rewrite Z.bits_0. intuition congruence.
  - pose proof (code_range g Hg). rewrite mask_pow, Z.pow2_bits_eqb by (done || lia).
    destruct (Z.eqb_spec (capability_code g) (capability_code h)) as [E|E].
    + apply code_inj in E as ->. cbn [negb]. intuition congruence.
    + assert (h <> g) by congruence. tauto.
Qed.

(** ** The table *)

Definition row_ok (c : AivmSyscallContract) : bool :=
  (0 <=? contract_arg_count c) && (contract_arg_count c <=? 8) && (zlen (arg_types c) =? 8) &&
  negb (bool_decide (capability c = AIVM_SYSCALL_CAPABILITY_NONE)) &&
  forallb (fun t => bool_decide (t = AIVM_VAL_VOID)) (zdrop (contract_arg_count c) (arg_types c)).

Lemma table_rows : forallb row_ok Contracts = true.
Proof. by vm_compute. Qed.

Lemma table_targets : NoDup (map contract_target Contracts).
Proof. apply (bool_decide_eq_true_1 _). by vm_compute. Qed.

Lemma table_ids : NoDup (map contract_id Contracts).
Proof. apply (bool_decide_eq_true_1 _). by vm_compute. Qed.

Lemma find_unique {A B} `{EqDecision B} (key : A -> B) (test : A -> B -> bool) (l : list A) x :
  (forall a b, test a b = true <-> key a = b) -> NoDup (map key l) -> x ∈ l -> List.find (fun a => test a (key x)) l = Some x.
Proof.
  intros Ht. induction l as [|a l IH]; intros Hn Hx; [by apply elem_of_nil in Hx|]. cbn [map] in Hn. apply NoDup_cons in Hn as [Hna Hn].
  cbn [List.find]. destruct (test a (key x)) eqn:E.
  - apply Ht in E. apply elem_of_cons in Hx as [->|Hx]; [done|]. destruct Hna. rewrite E. by apply list_elem_of_fmap_2.
  - apply elem_of_cons in Hx as [->|Hx]; [|by apply IH]. assert (test a (key a) = true) by (by apply Ht). congruence.
Qed.

Lemma find_target c : c ∈ Contracts -> aivm_syscall_contract_find_by_target (Some (contract_target c)) = Some c.
Proof.
  intros Hc. assert (T : forall (a : AivmSyscallContract) (b : string), bool_decide (contract_target a = b) = true <-> contract_target a = b)
    by (intros a b; apply bool_decide_eq_true).
  exact (find_unique contract_target (fun a b => bool_decide (contract_target a = b)) Contracts c T table_targets Hc).
Qed.

Lemma find_id c : c ∈ Contracts -> aivm_syscall_contract_find_by_id (contract_id c) = Some c.
Proof.
  apply (find_unique contract_id (fun c t => contract_id c =? t) Contracts c); [|apply table_ids]. intros a b. apply Z.eqb_eq.
Qed.

Lemma find_target_Some target c : aivm_syscall_contract_find_by_target target = Some c ->
  target = Some (contract_target c) /\ c ∈ Contracts.
Proof.
  destruct target as [t|]; [|done]. intros H. apply find_some in H as [Hin Ht]. apply bool_decide_eq_true in Ht as <-.
  split; [done|]. by apply list_elem_of_In.
Qed.

Lemma row_facts c : c ∈ Contracts -> 0 <= contract_arg_count c <= 8 /\ zlen (arg_types c) = 8 /\ grantable (capability c).
Proof.
  intros Hc. pose proof table_rows as H. rewrite forallb_forall in H. specialize (H c). rewrite list_elem_of_In in Hc.
  specialize (H Hc). unfold row_ok in H. apply andb_prop in H as [H _]. apply andb_prop in H as [H Hcap].
  apply negb_true_iff, bool_decide_eq_false in Hcap. unfold grantable. repeat split; (done || lia).
Qed.

(** ** Validation *)

Lemma check_types_spec c args : forall i, 0 <= i -> i + zlen args <= zlen (arg_types c) ->
  exists b, check_types c args i = Some b /\
    (b = true <-> map value_type args = ztake (zlen args) (zdrop i (arg_types c))).
Proof.
  induction args as [|v args IH]; intros i Hi Hl; cbn [check_types map].
  - exists true. split; [done|]. by rewrite zlen_nil.
  - rewrite zlen_cons in *. pose proof (zlen_nonneg args). destruct (zget_is_Some (arg_types c) i) as [t E]; [lia|]. rewrite E.
    assert (Ez : ztake (zlen args + 1) (zdrop i (arg_types c)) = t :: ztake (zlen args) (zdrop (i + 1) (arg_types c))).
    { pose proof (zget_split _ _ _ E) as [Es El]. rewrite Es at 1. rewrite <- El at 1. rewrite zdrop_app. unfold ztake.
      by replace (Z.to_nat (zlen args + 1)) with (S (Z.to_nat (zlen args))) by lia. }
    rewrite Ez. case_bool_decide as Ev.
    + destruct (IH (i + 1)) as (b & Eb & Hb); [lia|lia|]. exists b. split; [done|]. rewrite Hb. split; intros H1; congruence.
    + exists false. split; [done|]. split; [done|]. congruence.
Qed.

(** The arguments have the number and the types the contract says. *)
Definition args_match (c : AivmSyscallContract) (args : list AivmValue) : Prop :=
  map value_type args = ztake (contract_arg_count c) (arg_types c).

Lemma validate_spec c args : c ∈ Contracts ->
  exists st t, validate_contract c (ArgValues args) = Some (st, t) /\
    (st = AIVM_CONTRACT_OK <-> args_match c args) /\ (st = AIVM_CONTRACT_OK -> t = return_type c).
Proof.
  intros Hc. destruct (row_facts c Hc) as (Hn & Hl & _). unfold validate_contract, args_match. cbn [arg_count_of].
  destruct (Z.eqb_spec (contract_arg_count c) (zlen args)) as [E|E]; cbn [negb].
  - destruct (check_types_spec c args 0) as (b & Eb & Hb); [lia|lia|]. rewrite Eb, E. change (zdrop 0 (arg_types c)) with (arg_types c) in Hb.
    destruct b; eexists _, _; (split; [done|]); split; [tauto|done| |done]. split; [done|]. intros H. by apply Hb in H.
  - eexists _, _. split; [done|]. split; [|done]. split; [done|]. intros H. apply (f_equal zlen) in H. rewrite zlen_map in H.
    rewrite zlen_ztake in H by lia. congruence.
Qed.

(** ** The gate *)

Section Gate.

Context {W : Type}.
Implicit Types (bs : list (AivmSyscallBinding W)) (h : AivmSyscallHandler W) (w : W).

(** The handler a target is bound to: the first complete binding wins. *)
Definition bound bs (target : string) : option (AivmSyscallHandler W) :=
  head (omap (fun b => match binding_target b, binding_handler b with
                       | Some t, Some h => if bool_decide (t = target) then Some h else None
                       | _, _ => None end) bs).

Lemma dispatch_loop_bound bs target args r w :
  dispatch_loop bs target args r w =
    match bound bs target with
    | None => (w, AIVM_SYSCALL_ERR_NOT_FOUND, Some VVoid)
    | Some h => let '(w', st, r') := h w target args r in (w', st, Some r')
    end.
Proof.
  unfold bound. induction bs as [|[[t|] [h|]] bs IH]; cbn; try done. by case_bool_decide.
Qed.

(** What the checked dispatch makes of a handler's answer. *)
Definition settled (c : AivmSyscallContract) (st : Z) (r : AivmValue) : Z * AivmValue :=
  if st =? AIVM_SYSCALL_ERR_NOT_FOUND then (AIVM_SYSCALL_ERR_UNBOUND, r)
  else if negb (st =? AIVM_SYSCALL_OK) then (st, r)
  else if bool_decide (value_type r = return_type c) then (AIVM_SYSCALL_OK, r)
  else (AIVM_SYSCALL_ERR_RETURN_TYPE, VVoid).

Definition admitted (policy : option AivmSyscallCapabilityPolicy) (target : option string) (args : list AivmValue)
    (c : AivmSyscallContract) : Prop :=
  c ∈ Contracts /\ target = Some (contract_target c) /\ args_match c args /\
  aivm_syscall_policy_allows policy (capability c) = true.

End Gate.

(** C36: the checked dispatch never reads outside the contract table, and the host
    is reached only through it: either no handler runs, the host is unchanged, the
    result is void and the call fails; or the target has a contract, the arguments
    have its number and types, the policy allows its capability group, and exactly
    the handler of the first complete binding runs, once, on the same arguments.
    Success means a result of the contract's type. *)
Theorem syscall_gate {W} (bindings : option (list (AivmSyscallBinding W))) policy target args r w :
  exists w' st r' cst,
    aivm_syscall_dispatch_checked_with_policy bindings policy target args (Some r) w = Some ((w', st, Some r'), cst) /\
    ((w' = w /\ r' = VVoid /\ st <> AIVM_SYSCALL_OK) \/
     exists c bs h st1 r1, admitted policy target args c /\ cst = AIVM_CONTRACT_OK /\ bindings = Some bs /\
       bound bs (contract_target c) = Some h /\ h w (contract_target c) args r = (w', st1, r1) /\ (st, r') = settled c st1 r1 /\
       (st = AIVM_SYSCALL_OK -> value_type r' = return_type c)).
Proof.
  unfold aivm_syscall_dispatch_checked_with_policy, aivm_syscall_contract_validate, aivm_syscall_contract_capability.
  destruct (aivm_syscall_contract_find_by_target target) as [c|] eqn:Ef; [|eexists _, _, _, _; split; [done|by left]].
  apply find_target_Some in Ef as [-> Hc]. destruct (validate_spec c args Hc) as (cs & t & -> & Hm & Ht).
  destruct cs; try (eexists _, _, _, _; split; [done|by left]). destruct Hm as [Hm _]. specialize (Hm eq_refl). rewrite (Ht eq_refl).
  destruct (aivm_syscall_policy_allows policy (capability c)) eqn:Ep; [|eexists _, _, _, _; split; [done|by left]]. cbn [negb].
  destruct bindings as [bs|]; [|eexists _, _, _, _; split; [done|by left]].
  destruct bs as [|b bs]; [eexists _, _, _, _; split; [done|by left]|]. cbn [aivm_syscall_dispatch]. rewrite dispatch_loop_bound.
  destruct (bound (b :: bs) (contract_target c)) as [h|] eqn:Eb; [|eexists _, _, _, _; split; [done|by left]].
  destruct (h w (contract_target c) args r) as [[w' st1] r1] eqn:Eh. exists w', (settled c st1 r1).1, (settled c st1 r1).2, AIVM_CONTRACT_OK.
  unfold settled. cbn [option_map]. split; [|right; exists c, (b :: bs), h, st1, r1; do 5 (split; [done|])].
  - destruct (_ =? AIVM_SYSCALL_ERR_NOT_FOUND); [done|]. destruct (negb _); [done|].
    rewrite (bool_decide_ext (Some (value_type r1) = Some (return_type c)) (value_type r1 = return_type c)); [by case_bool_decide|].
    split; [by intros [= ?]|by intros ->].
  - split; [symmetry; apply surjective_pairing|]. destruct (_ =? AIVM_SYSCALL_ERR_NOT_FOUND); [done|].
    destruct (Z.eqb_spec st1 AIVM_SYSCALL_OK) as [->|Hne]; cbn [negb]; [|done]. by case_bool_decide.
Qed.

(** The table is consistent: a contract is found again by its target and by
    its id, its arguments fit the type array, its group is a real one whose name
    reads back as that group; without a policy every contract is allowed, and the
    production policy allows exactly the contracts that bind in production, which are
    all but the debug ones. *)
Theorem contract_table c : c ∈ Contracts ->
  aivm_syscall_contract_find_by_target (Some (contract_target c)) = Some c /\
  aivm_syscall_contract_find_by_id (contract_id c) = Some c /\
  0 <= contract_arg_count c <= zlen (arg_types c) /\
  aivm_syscall_capability_from_name (aivm_syscall_capability_name (capability c)) = Some (capability c) /\
  aivm_syscall_policy_allows None (capability c) = true /\
  aivm_syscall_policy_allows (Some aivm_syscall_policy_allow_production_default) (capability c) =
    aivm_syscall_contract_should_bind_in_production (Some (contract_target c)) /\
  (aivm_syscall_contract_should_bind_in_production (Some (contract_target c)) = false <->
    capability c = AIVM_SYSCALL_CAPABILITY_DEBUG).
Proof.
  intros Hc. destruct (row_facts c Hc) as (Hn & Hl & Hg). split; [by apply find_target|]. split; [by apply find_id|]. split; [lia|].
  unfold aivm_syscall_contract_should_bind_in_production, aivm_syscall_contract_capability. rewrite find_target by done.
  destruct (capability c); try (by destruct Hg); do 3 (split; [done|]); (split; [intros H|intros H]); (done || discriminate H).
Qed.

(** A console call that succeeds on a host that counts its calls. *)
Definition counting_handler : AivmSyscallHandler nat := fun w _ _ _ => (S w, AIVM_SYSCALL_OK, VVoid).
Definition console_bindings : list (AivmSyscallBinding nat) :=
  [mk_binding None (Some counting_handler); mk_binding (Some "sys.console.write"%string) (Some counting_handler)].

Lemma contract_table_witness :
  aivm_syscall_contract_find_by_id 6 = aivm_syscall_contract_find_by_target (Some "sys.console.write"%string).
Proof.
  destruct (contract_table (contract 6 "sys.console.write" 1 [AIVM_VAL_STRING] AIVM_VAL_VOID AIVM_SYSCALL_CAPABILITY_CONSOLE)) as (H1 & H2 & _).
  - apply list_elem_of_In. right. left. done.
  - change (aivm_syscall_contract_find_by_id 6) with (aivm_syscall_contract_find_by_id (contract_id
      (contract 6 "sys.console.write" 1 [AIVM_VAL_STRING] AIVM_VAL_VOID AIVM_SYSCALL_CAPABILITY_CONSOLE))). rewrite H2. exact (eq_sym H1).
Defined.

Example gate_runs_once :
  aivm_syscall_dispatch_checked_with_policy (Some console_bindings) (Some aivm_syscall_policy_allow_production_default)
    (Some "sys.console.write"%string) [VString (SExt [104])] (Some VNull) 0%nat = Some ((1%nat, AIVM_SYSCALL_OK, Some VVoid), AIVM_CONTRACT_OK).
Proof. by vm_compute. Qed.
