(* ===== verification/Vm.v ===== *)
(** * The VM state and the execution monad (src/src/include/aivm_vm.h)

    [AivmVm] as a record.  Arrays with a separate counter are lists of their
    live elements: the value stack and the call frames have their top at the
    head, every other array is in index order; the counters are the lengths.
    The local storage keeps its stale part, because a store past the counter
    makes it visible again (see Stack.v).

    Functions of the source that return 0 on failure become computations of the
    monad [M]: [Ok] is a return of 1 (with the out-parameters as result), [Err]
    a return of 0, and [Undef] an operation the C standard leaves undefined (an
    access outside an array, a dangling pointer, signed overflow).  [tick]
    counts the questions put to the host (allocations and memory snapshots), so
    that the host's answers may change over time. *)

From S2P Require Import Prelude Types Program Syscalls.

(** ** Capacities *)

Definition AIVM_VM_STACK_CAPACITY : Z := 20000.
Definition AIVM_VM_STACK_INITIAL_CAPACITY : Z := 1024.
Definition AIVM_VM_STACK_GROWTH_STEP : Z := 512.
Definition AIVM_VM_CALLFRAME_CAPACITY : Z := 2048.
Definition AIVM_VM_CALLFRAME_INITIAL_CAPACITY : Z := 256.
Definition AIVM_VM_CALLFRAME_GROWTH_STEP : Z := 256.
Definition AIVM_VM_LOCALS_CAPACITY : Z := 16384.
Definition AIVM_VM_LOCALS_INITIAL_CAPACITY : Z := 2048.
Definition AIVM_VM_LOCALS_GROWTH_STEP : Z := 1024.
Definition AIVM_VM_STRING_ARENA_CAPACITY : Z := 2097152.
Definition AIVM_VM_STRING_ARENA_INITIAL_CAPACITY : Z := 8192.
Definition AIVM_VM_STRING_ARENA_GROWTH_STEP : Z := 16384.
Definition AIVM_VM_BYTES_ARENA_CAPACITY : Z := 131072.
Definition AIVM_VM_BYTES_ARENA_INITIAL_CAPACITY : Z := 32768.
Definition AIVM_VM_BYTES_ARENA_GROWTH_STEP : Z := 16384.
Definition AIVM_VM_NODE_CAPACITY : Z := 16384.
Definition AIVM_VM_NODE_ATTR_CAPACITY : Z := 65536.
Definition AIVM_VM_NODE_CHILD_CAPACITY : Z := 131072.
Definition AIVM_VM_NODE_BUILDER_CAPACITY : Z := 512.
Definition AIVM_VM_NODE_GC_INTERVAL_ALLOCATIONS : Z := 64.
Definition AIVM_VM_NODE_GC_RETURN_SAFEPOINT_ALLOCATIONS : Z := 512.
Definition AIVM_VM_MAP_CAPACITY : Z := 128.
Definition AIVM_VM_TASK_CAPACITY : Z := 256.
Definition AIVM_VM_PAR_CONTEXT_CAPACITY : Z := 64.
Definition AIVM_VM_PAR_VALUE_CAPACITY : Z := 1024.
Definition AIVM_VM_MAX_SYSCALL_ARGS : Z := 16.
Definition AIVM_VM_SCRATCH_PAIR_CAPACITY : Z := 32768.
Definition AIVM_VM_BLOB_CAPACITY : Z := 64.
Definition AIVM_VM_BLOB_BYTES : Z := 16777216.

(** ** Component records *)

(** [error_detail]: NULL, a literal, or a text formatted with [snprintf]
    (kept as format and arguments). *)
Inductive detail_arg := ANum (z : Z) | ADouble (d : SpecFloat.spec_float) | AText (s : list Z) | ADetail (d : detail)
with detail :=
  | DNull
  | DText (s : string)
  | DFormat (fmt : string) (args : list detail_arg).

Record AivmCallFrame := mk_frame {
  return_instruction_pointer : Z; frame_base : Z; locals_base : Z }.

Record AivmCallHistoryEntry := mk_call_entry {
  ch_instruction_pointer : Z; ch_target : Z; ch_arg_count : Z; ch_stack_count : Z }.

Record AivmReturnHistoryEntry := mk_return_entry {
  rh_instruction_pointer : Z; rh_stack_count : Z; rh_pre_restore_stack_count : Z;
  rh_frame_base : Z; rh_has_return_value : bool }.

Record AivmOpcodeHistoryEntry := mk_opcode_entry {
  oh_instruction_pointer : Z; oh_opcode : AivmOpcode; oh_stack_count : Z }.

Inductive AivmNodeAttrValue :=
  | NAIdentifier (p : str_ptr) | NAString (p : str_ptr) | NAInt (i : Z) | NABool (b : bool).

Record AivmNodeAttr := mk_attr { attr_key : str_ptr; attr_value : AivmNodeAttrValue }.

Record AivmNodeRecord := mk_node {
  node_kind : str_ptr; node_id : str_ptr;
  attr_start : Z; attr_count : Z; child_start : Z; child_count : Z }.

(** The texts of a builder are its own copies on the heap. *)
Record AivmNodeBuilderRecord := mk_builder {
  builder_kind : list Z; builder_id : list Z;
  builder_attrs : list AivmNodeAttr; builder_children : list Z }.

Inductive AivmTaskState :=
  | AIVM_TASK_STATE_PENDING | AIVM_TASK_STATE_COMPLETED | AIVM_TASK_STATE_FAILED
  | AIVM_TASK_STATE_CANCELED.

(** [worker_context]: the index of the thread context in [contexts]. *)
Record AivmCompletedTask := mk_task {
  task_state : AivmTaskState; task_handle : Z; task_result : AivmValue;
  worker_context : option Z; worker_catalog_index : Z; is_worker_task : bool }.

Record AivmParContext := mk_par { expected_count : Z; par_start : Z }.

(** A batch of worker tasks: the framed payloads and the handles of the tasks made so
    far (0 for those to come). *)
Record AivmWorkerTaskGroup := mk_group {
  group_handle : Z; group_catalog_index : Z; batch_bytes : list Z;
  payload_offsets : list Z; payload_lengths : list Z; group_task_handles : list Z;
  next_materialize_index : Z }.

(** What the VM has asked of its worker runtime, in order. *)
Inductive runtime_request :=
  | RSubmit (catalog_index submission_id : Z) (payload : list Z)
  | RAwait (submission_id : Z)
  | RCancel (submission_id : Z)
  | RRelease (submission_id : Z).

(** A call that reached the host; the state of the host is the history of these. *)
Record host_call := mk_host_call { called_target : string; called_args : list AivmValue }.

(** The system call settings. *)
Record SyscallSettings := mk_syscalls {
  syscall_bindings : option (list (AivmSyscallBinding (list host_call)));
  syscall_policy : AivmSyscallCapabilityPolicy;
  syscall_elapsed_limit_ms : Z;
  host_history : list host_call }.

(** The context of an ASYNC_CALL: a VM of its own; [ctx_done] when its thread has
    returned. *)
Record AivmBytecodeWorkerContext (VM : Type) := mk_context {
  ctx_worker : VM; ctx_target : Z; ctx_result : AivmValue;
  ctx_joined : bool; ctx_started : bool; ctx_done : bool }.

Arguments mk_context {VM}.
Arguments ctx_worker {VM}.
Arguments ctx_target {VM}.
Arguments ctx_result {VM}.
Arguments ctx_joined {VM}.
Arguments ctx_started {VM}.
Arguments ctx_done {VM}.

(** Tasks, parallel contexts and workers; [contexts] holds the thread contexts,
    [None] once they are freed, and the innermost parallel context is the head. *)
Record TaskTable (VM : Type) := mk_tasks {
  next_task_handle : Z;
  consumed_task_handles : list Z;
  task_reclaim_count : Z;
  task_reclaim_skip_pinned_count : Z;
  task_reclaim_exhausted_count : Z;
  contexts : list (option (AivmBytecodeWorkerContext VM));
  worker_runtime : option (list runtime_request);
  worker_task_groups : list AivmWorkerTaskGroup;
  worker_logical_task_count : Z;
  worker_logical_input_bytes : Z;
  worker_logical_task_limit : Z;
  worker_logical_input_limit : Z;
  next_worker_task_group_handle : Z;
  par_contexts : list AivmParContext;
  next_par_node_id : Z;
  syscalls : SyscallSettings }.

Arguments mk_tasks {VM}.
Arguments next_task_handle {VM}.
Arguments consumed_task_handles {VM}.
Arguments task_reclaim_count {VM}.
Arguments task_reclaim_skip_pinned_count {VM}.
Arguments task_reclaim_exhausted_count {VM}.
Arguments contexts {VM}.
Arguments worker_runtime {VM}.
Arguments worker_task_groups {VM}.
Arguments worker_logical_task_count {VM}.
Arguments worker_logical_input_bytes {VM}.
Arguments worker_logical_task_limit {VM}.
Arguments worker_logical_input_limit {VM}.
Arguments next_worker_task_group_handle {VM}.
Arguments par_contexts {VM}.
Arguments next_par_node_id {VM}.
Arguments syscalls {VM}.

Definition set_next_task_handle {VM} (x : Z) (t : TaskTable VM) : TaskTable VM :=
  mk_tasks x (consumed_task_handles t) (task_reclaim_count t) (task_reclaim_skip_pinned_count t)
    (task_reclaim_exhausted_count t) (contexts t) (worker_runtime t) (worker_task_groups t)
    (worker_logical_task_count t) (worker_logical_input_bytes t) (worker_logical_task_limit t)
    (worker_logical_input_limit t) (next_worker_task_group_handle t) (par_contexts t)
    (next_par_node_id t) (syscalls t).
Definition set_consumed_task_handles {VM} (x : list Z) (t : TaskTable VM) : TaskTable VM :=
  mk_tasks (next_task_handle t) x (task_reclaim_count t) (task_reclaim_skip_pinned_count t)
    (task_reclaim_exhausted_count t) (contexts t) (worker_runtime t) (worker_task_groups t)
    (worker_logical_task_count t) (worker_logical_input_bytes t) (worker_logical_task_limit t)
    (worker_logical_input_limit t) (next_worker_task_group_handle t) (par_contexts t)
    (next_par_node_id t) (syscalls t).
Definition set_task_reclaim_count {VM} (x : Z) (t : TaskTable VM) : TaskTable VM :=
  mk_tasks (next_task_handle t) (consumed_task_handles t) x (task_reclaim_skip_pinned_count t)
    (task_reclaim_exhausted_count t) (contexts t) (worker_runtime t) (worker_task_groups t)
    (worker_logical_task_count t) (worker_logical_input_bytes t) (worker_logical_task_limit t)
    (worker_logical_input_limit t) (next_worker_task_group_handle t) (par_contexts t)
    (next_par_node_id t) (syscalls t).
Definition set_task_reclaim_skip_pinned_count {VM} (x : Z) (t : TaskTable VM) : TaskTable VM :=
  mk_tasks (next_task_handle t) (consumed_task_handles t) (task_reclaim_count t) x
    (task_reclaim_exhausted_count t) (contexts t) (worker_runtime t) (worker_task_groups t)
    (worker_logical_task_count t) (worker_logical_input_bytes t) (worker_logical_task_limit t)
    (worker_logical_input_limit t) (next_worker_task_group_handle t) (par_contexts t)
    (next_par_node_id t) (syscalls t).
Definition set_task_reclaim_exhausted_count {VM} (x : Z) (t : TaskTable VM) : TaskTable VM :=
  mk_tasks (next_task_handle t) (consumed_task_handles t) (task_reclaim_count t)
    (task_reclaim_skip_pinned_count t) x (contexts t) (worker_runtime t) (worker_task_groups t)
    (worker_logical_task_count t) (worker_logical_input_bytes t) (worker_logical_task_limit t)
    (worker_logical_input_limit t) (next_worker_task_group_handle t) (par_contexts t)
    (next_par_node_id t) (syscalls t).
Definition set_contexts {VM} (x : list (option (AivmBytecodeWorkerContext VM))) (t : TaskTable VM) : TaskTable VM :=
  mk_tasks (next_task_handle t) (consumed_task_handles t) (task_reclaim_count t)
    (task_reclaim_skip_pinned_count t) (task_reclaim_exhausted_count t) x (worker_runtime t)
    (worker_task_groups t) (worker_logical_task_count t) (worker_logical_input_bytes t)
    (worker_logical_task_limit t) (worker_logical_input_limit t) (next_worker_task_group_handle t)
    (par_contexts t) (next_par_node_id t) (syscalls t).
Definition set_worker_runtime {VM} (x : option (list runtime_request)) (t : TaskTable VM) : TaskTable VM :=
  mk_tasks (next_task_handle t) (consumed_task_handles t) (task_reclaim_count t)
    (task_reclaim_skip_pinned_count t) (task_reclaim_exhausted_count t) (contexts t) x
    (worker_task_groups t) (worker_logical_task_count t) (worker_logical_input_bytes t)
    (worker_logical_task_limit t) (worker_logical_input_limit t) (next_worker_task_group_handle t)
    (par_contexts t) (next_par_node_id t) (syscalls t).
Definition set_worker_task_groups {VM} (x : list AivmWorkerTaskGroup) (t : TaskTable VM) : TaskTable VM :=
  mk_tasks (next_task_handle t) (consumed_task_handles t) (task_reclaim_count t)
    (task_reclaim_skip_pinned_count t) (task_reclaim_exhausted_count t) (contexts t)
    (worker_runtime t) x (worker_logical_task_count t) (worker_logical_input_bytes t)
    (worker_logical_task_limit t) (worker_logical_input_limit t) (next_worker_task_group_handle t)
    (par_contexts t) (next_par_node_id t) (syscalls t).
Definition set_worker_logical_task_count {VM} (x : Z) (t : TaskTable VM) : TaskTable VM :=
  mk_tasks (next_task_handle t) (consumed_task_handles t) (task_reclaim_count t)
    (task_reclaim_skip_pinned_count t) (task_reclaim_exhausted_count t) (contexts t)
    (worker_runtime t) (worker_task_groups t) x (worker_logical_input_bytes t)
    (worker_logical_task_limit t) (worker_logical_input_limit t) (next_worker_task_group_handle t)
    (par_contexts t) (next_par_node_id t) (syscalls t).
Definition set_worker_logical_input_bytes {VM} (x : Z) (t : TaskTable VM) : TaskTable VM :=
  mk_tasks (next_task_handle t) (consumed_task_handles t) (task_reclaim_count t)
    (task_reclaim_skip_pinned_count t) (task_reclaim_exhausted_count t) (contexts t)
    (worker_runtime t) (worker_task_groups t) (worker_logical_task_count t) x
    (worker_logical_task_limit t) (worker_logical_input_limit t) (next_worker_task_group_handle t)
    (par_contexts t) (next_par_node_id t) (syscalls t).
Definition set_worker_logical_task_limit {VM} (x : Z) (t : TaskTable VM) : TaskTable VM :=
  mk_tasks (next_task_handle t) (consumed_task_handles t) (task_reclaim_count t)
    (task_reclaim_skip_pinned_count t) (task_reclaim_exhausted_count t) (contexts t)
    (worker_runtime t) (worker_task_groups t) (worker_logical_task_count t)
    (worker_logical_input_bytes t) x (worker_logical_input_limit t) (next_worker_task_group_handle
    t) (par_contexts t) (next_par_node_id t) (syscalls t).
Definition set_worker_logical_input_limit {VM} (x : Z) (t : TaskTable VM) : TaskTable VM :=
  mk_tasks (next_task_handle t) (consumed_task_handles t) (task_reclaim_count t)
    (task_reclaim_skip_pinned_count t) (task_reclaim_exhausted_count t) (contexts t)
    (worker_runtime t) (worker_task_groups t) (worker_logical_task_count t)
    (worker_logical_input_bytes t) (worker_logical_task_limit t) x (next_worker_task_group_handle
    t) (par_contexts t) (next_par_node_id t) (syscalls t).
Definition set_next_worker_task_group_handle {VM} (x : Z) (t : TaskTable VM) : TaskTable VM :=
  mk_tasks (next_task_handle t) (consumed_task_handles t) (task_reclaim_count t)
    (task_reclaim_skip_pinned_count t) (task_reclaim_exhausted_count t) (contexts t)
    (worker_runtime t) (worker_task_groups t) (worker_logical_task_count t)
    (worker_logical_input_bytes t) (worker_logical_task_limit t) (worker_logical_input_limit t) x
    (par_contexts t) (next_par_node_id t) (syscalls t).
Definition set_par_contexts {VM} (x : list AivmParContext) (t : TaskTable VM) : TaskTable VM :=
  mk_tasks (next_task_handle t) (consumed_task_handles t) (task_reclaim_count t)
    (task_reclaim_skip_pinned_count t) (task_reclaim_exhausted_count t) (contexts t)
    (worker_runtime t) (worker_task_groups t) (worker_logical_task_count t)
    (worker_logical_input_bytes t) (worker_logical_task_limit t) (worker_logical_input_limit t)
    (next_worker_task_group_handle t) x (next_par_node_id t) (syscalls t).
Definition set_next_par_node_id {VM} (x : Z) (t : TaskTable VM) : TaskTable VM :=
  mk_tasks (next_task_handle t) (consumed_task_handles t) (task_reclaim_count t)
    (task_reclaim_skip_pinned_count t) (task_reclaim_exhausted_count t) (contexts t)
    (worker_runtime t) (worker_task_groups t) (worker_logical_task_count t)
    (worker_logical_input_bytes t) (worker_logical_task_limit t) (worker_logical_input_limit t)
    (next_worker_task_group_handle t) (par_contexts t) x (syscalls t).
Definition set_syscalls {VM} (x : SyscallSettings) (t : TaskTable VM) : TaskTable VM :=
  mk_tasks (next_task_handle t) (consumed_task_handles t) (task_reclaim_count t)
    (task_reclaim_skip_pinned_count t) (task_reclaim_exhausted_count t) (contexts t)
    (worker_runtime t) (worker_task_groups t) (worker_logical_task_count t)
    (worker_logical_input_bytes t) (worker_logical_task_limit t) (worker_logical_input_limit t)
    (next_worker_task_group_handle t) (par_contexts t) (next_par_node_id t) x.

Record AivmScratchPair := mk_pair { first : AivmValue; second : AivmValue }.

Record AivmStringInternEntry := mk_intern { ie_hash : Z; ie_offset : Z; ie_length : Z }.

(** A slot of a string-to-int map: [None] is an unoccupied slot. *)
Record AivmMapSlot := mk_slot { slot_hash : Z; slot_key : list Z; slot_value : Z }.

Record AivmMapRecord := mk_map {
  map_active : bool; map_frozen : bool; map_slots : list (option AivmMapSlot); map_count : Z }.

Record AivmBlobRecord := mk_blob {
  blob_handle : Z; blob_data : list Z; blob_active : bool }.

(** The string arena: [sa_text] holds the first [string_arena_used] bytes;
    [si_entries] is the intern index (hash 0 marks a free slot). *)
Record StringArena := mk_strings {
  sa_text : list Z;
  sa_gen : Z;
  sa_limit : Z;
  sa_capacity : Z;
  sa_high_water : Z;
  sa_pressure_count : Z;
  si_entries : list AivmStringInternEntry;
  si_count : Z;
  si_complete : bool }.

Definition set_sa_text (x : list Z) (s : StringArena) : StringArena :=
  mk_strings x (sa_gen s) (sa_limit s) (sa_capacity s) (sa_high_water s) (sa_pressure_count s)
    (si_entries s) (si_count s) (si_complete s).
Definition set_sa_gen (x : Z) (s : StringArena) : StringArena :=
  mk_strings (sa_text s) x (sa_limit s) (sa_capacity s) (sa_high_water s) (sa_pressure_count s)
    (si_entries s) (si_count s) (si_complete s).
Definition set_sa_limit (x : Z) (s : StringArena) : StringArena :=
  mk_strings (sa_text s) (sa_gen s) x (sa_capacity s) (sa_high_water s) (sa_pressure_count s)
    (si_entries s) (si_count s) (si_complete s).
Definition set_sa_capacity (x : Z) (s : StringArena) : StringArena :=
  mk_strings (sa_text s) (sa_gen s) (sa_limit s) x (sa_high_water s) (sa_pressure_count s)
    (si_entries s) (si_count s) (si_complete s).
Definition set_sa_high_water (x : Z) (s : StringArena) : StringArena :=
  mk_strings (sa_text s) (sa_gen s) (sa_limit s) (sa_capacity s) x (sa_pressure_count s)
    (si_entries s) (si_count s) (si_complete s).
Definition set_sa_pressure_count (x : Z) (s : StringArena) : StringArena :=
  mk_strings (sa_text s) (sa_gen s) (sa_limit s) (sa_capacity s) (sa_high_water s) x
    (si_entries s) (si_count s) (si_complete s).
Definition set_si_entries (x : list AivmStringInternEntry) (s : StringArena) : StringArena :=
  mk_strings (sa_text s) (sa_gen s) (sa_limit s) (sa_capacity s) (sa_high_water s)
    (sa_pressure_count s) x (si_count s) (si_complete s).
Definition set_si_count (x : Z) (s : StringArena) : StringArena :=
  mk_strings (sa_text s) (sa_gen s) (sa_limit s) (sa_capacity s) (sa_high_water s)
    (sa_pressure_count s) (si_entries s) x (si_complete s).
Definition set_si_complete (x : bool) (s : StringArena) : StringArena :=
  mk_strings (sa_text s) (sa_gen s) (sa_limit s) (sa_capacity s) (sa_high_water s)
    (sa_pressure_count s) (si_entries s) (si_count s) x.

(** The bytes arena. *)
Record BytesArena := mk_bytes_arena {
  ba_data : list Z;
  ba_gen : Z;
  ba_limit : Z;
  ba_capacity : Z;
  ba_gc_threshold : Z;
  ba_high_water : Z;
  ba_pressure_count : Z }.

Definition set_ba_data (x : list Z) (s : BytesArena) : BytesArena :=
  mk_bytes_arena x (ba_gen s) (ba_limit s) (ba_capacity s) (ba_gc_threshold s) (ba_high_water s)
    (ba_pressure_count s).
Definition set_ba_gen (x : Z) (s : BytesArena) : BytesArena :=
  mk_bytes_arena (ba_data s) x (ba_limit s) (ba_capacity s) (ba_gc_threshold s)
    (ba_high_water s) (ba_pressure_count s).
Definition set_ba_limit (x : Z) (s : BytesArena) : BytesArena :=
  mk_bytes_arena (ba_data s) (ba_gen s) x (ba_capacity s) (ba_gc_threshold s) (ba_high_water s)
    (ba_pressure_count s).
Definition set_ba_capacity (x : Z) (s : BytesArena) : BytesArena :=
  mk_bytes_arena (ba_data s) (ba_gen s) (ba_limit s) x (ba_gc_threshold s) (ba_high_water s)
    (ba_pressure_count s).
Definition set_ba_gc_threshold (x : Z) (s : BytesArena) : BytesArena :=
  mk_bytes_arena (ba_data s) (ba_gen s) (ba_limit s) (ba_capacity s) x (ba_high_water s)
    (ba_pressure_count s).
Definition set_ba_high_water (x : Z) (s : BytesArena) : BytesArena :=
  mk_bytes_arena (ba_data s) (ba_gen s) (ba_limit s) (ba_capacity s) (ba_gc_threshold s) x
    (ba_pressure_count s).
Definition set_ba_pressure_count (x : Z) (s : BytesArena) : BytesArena :=
  mk_bytes_arena (ba_data s) (ba_gen s) (ba_limit s) (ba_capacity s) (ba_gc_threshold s)
    (ba_high_water s) x.

(** Node, attribute and child arenas with the collector's counters. *)
Record NodeStore := mk_nodes {
  nodes : list AivmNodeRecord;
  node_capacity : Z;
  node_attrs : list AivmNodeAttr;
  node_attr_capacity : Z;
  node_children : list Z;
  node_child_capacity : Z;
  node_allocations_since_gc : Z;
  process_argv_node_handle : Z;
  ui_default_window_size_node_handle : Z;
  ui_empty_event_node_handle : Z;
  node_gc_attempt_count : Z;
  node_gc_compaction_count : Z;
  node_gc_reclaimed : Z * Z * Z;
  node_high_water : Z * Z * Z;
  node_arena_pressure_count : Z }.

Definition set_nodes (x : list AivmNodeRecord) (s : NodeStore) : NodeStore :=
  mk_nodes x (node_capacity s) (node_attrs s) (node_attr_capacity s) (node_children s)
    (node_child_capacity s) (node_allocations_since_gc s) (process_argv_node_handle s)
    (ui_default_window_size_node_handle s) (ui_empty_event_node_handle s)
    (node_gc_attempt_count s) (node_gc_compaction_count s) (node_gc_reclaimed s)
    (node_high_water s) (node_arena_pressure_count s).
Definition set_node_capacity (x : Z) (s : NodeStore) : NodeStore :=
  mk_nodes (nodes s) x (node_attrs s) (node_attr_capacity s) (node_children s)
    (node_child_capacity s) (node_allocations_since_gc s) (process_argv_node_handle s)
    (ui_default_window_size_node_handle s) (ui_empty_event_node_handle s)
    (node_gc_attempt_count s) (node_gc_compaction_count s) (node_gc_reclaimed s)
    (node_high_water s) (node_arena_pressure_count s).
Definition set_node_attrs (x : list AivmNodeAttr) (s : NodeStore) : NodeStore :=
  mk_nodes (nodes s) (node_capacity s) x (node_attr_capacity s) (node_children s)
    (node_child_capacity s) (node_allocations_since_gc s) (process_argv_node_handle s)
    (ui_default_window_size_node_handle s) (ui_empty_event_node_handle s)
    (node_gc_attempt_count s) (node_gc_compaction_count s) (node_gc_reclaimed s)
    (node_high_water s) (node_arena_pressure_count s).
Definition set_node_attr_capacity (x : Z) (s : NodeStore) : NodeStore :=
  mk_nodes (nodes s) (node_capacity s) (node_attrs s) x (node_children s)
    (node_child_capacity s) (node_allocations_since_gc s) (process_argv_node_handle s)
    (ui_default_window_size_node_handle s) (ui_empty_event_node_handle s)
    (node_gc_attempt_count s) (node_gc_compaction_count s) (node_gc_reclaimed s)
    (node_high_water s) (node_arena_pressure_count s).
Definition set_node_children (x : list Z) (s : NodeStore) : NodeStore :=
  mk_nodes (nodes s) (node_capacity s) (node_attrs s) (node_attr_capacity s) x
    (node_child_capacity s) (node_allocations_since_gc s) (process_argv_node_handle s)
    (ui_default_window_size_node_handle s) (ui_empty_event_node_handle s)
    (node_gc_attempt_count s) (node_gc_compaction_count s) (node_gc_reclaimed s)
    (node_high_water s) (node_arena_pressure_count s).
Definition set_node_child_capacity (x : Z) (s : NodeStore) : NodeStore :=
  mk_nodes (nodes s) (node_capacity s) (node_attrs s) (node_attr_capacity s) (node_children s) x
    (node_allocations_since_gc s) (process_argv_node_handle s)
    (ui_default_window_size_node_handle s) (ui_empty_event_node_handle s)
    (node_gc_attempt_count s) (node_gc_compaction_count s) (node_gc_reclaimed s)
    (node_high_water s) (node_arena_pressure_count s).
Definition set_node_allocations_since_gc (x : Z) (s : NodeStore) : NodeStore :=
  mk_nodes (nodes s) (node_capacity s) (node_attrs s) (node_attr_capacity s) (node_children s)
    (node_child_capacity s) x (process_argv_node_handle s)
    (ui_default_window_size_node_handle s) (ui_empty_event_node_handle s)
    (node_gc_attempt_count s) (node_gc_compaction_count s) (node_gc_reclaimed s)
    (node_high_water s) (node_arena_pressure_count s).
Definition set_process_argv_node_handle (x : Z) (s : NodeStore) : NodeStore :=
  mk_nodes (nodes s) (node_capacity s) (node_attrs s) (node_attr_capacity s) (node_children s)
    (node_child_capacity s) (node_allocations_since_gc s) x
    (ui_default_window_size_node_handle s) (ui_empty_event_node_handle s)
    (node_gc_attempt_count s) (node_gc_compaction_count s) (node_gc_reclaimed s)
    (node_high_water s) (node_arena_pressure_count s).
Definition set_ui_default_window_size_node_handle (x : Z) (s : NodeStore) : NodeStore :=
  mk_nodes (nodes s) (node_capacity s) (node_attrs s) (node_attr_capacity s) (node_children s)
    (node_child_capacity s) (node_allocations_since_gc s) (process_argv_node_handle s) x
    (ui_empty_event_node_handle s) (node_gc_attempt_count s) (node_gc_compaction_count s)
    (node_gc_reclaimed s) (node_high_water s) (node_arena_pressure_count s).
Definition set_ui_empty_event_node_handle (x : Z) (s : NodeStore) : NodeStore :=
  mk_nodes (nodes s) (node_capacity s) (node_attrs s) (node_attr_capacity s) (node_children s)
    (node_child_capacity s) (node_allocations_since_gc s) (process_argv_node_handle s)
    (ui_default_window_size_node_handle s) x (node_gc_attempt_count s)
    (node_gc_compaction_count s) (node_gc_reclaimed s) (node_high_water s)
    (node_arena_pressure_count s).
Definition set_node_gc_attempt_count (x : Z) (s : NodeStore) : NodeStore :=
  mk_nodes (nodes s) (node_capacity s) (node_attrs s) (node_attr_capacity s) (node_children s)
    (node_child_capacity s) (node_allocations_since_gc s) (process_argv_node_handle s)
    (ui_default_window_size_node_handle s) (ui_empty_event_node_handle s) x
    (node_gc_compaction_count s) (node_gc_reclaimed s) (node_high_water s)
    (node_arena_pressure_count s).
Definition set_node_gc_compaction_count (x : Z) (s : NodeStore) : NodeStore :=
  mk_nodes (nodes s) (node_capacity s) (node_attrs s) (node_attr_capacity s) (node_children s)
    (node_child_capacity s) (node_allocations_since_gc s) (process_argv_node_handle s)
    (ui_default_window_size_node_handle s) (ui_empty_event_node_handle s)
    (node_gc_attempt_count s) x (node_gc_reclaimed s) (node_high_water s)
    (node_arena_pressure_count s).
Definition set_node_gc_reclaimed (x : Z * Z * Z) (s : NodeStore) : NodeStore :=
  mk_nodes (nodes s) (node_capacity s) (node_attrs s) (node_attr_capacity s) (node_children s)
    (node_child_capacity s) (node_allocations_since_gc s) (process_argv_node_handle s)
    (ui_default_window_size_node_handle s) (ui_empty_event_node_handle s)
    (node_gc_attempt_count s) (node_gc_compaction_count s) x (node_high_water s)
    (node_arena_pressure_count s).
Definition set_node_high_water (x : Z * Z * Z) (s : NodeStore) : NodeStore :=
  mk_nodes (nodes s) (node_capacity s) (node_attrs s) (node_attr_capacity s) (node_children s)
    (node_child_capacity s) (node_allocations_since_gc s) (process_argv_node_handle s)
    (ui_default_window_size_node_handle s) (ui_empty_event_node_handle s)
    (node_gc_attempt_count s) (node_gc_compaction_count s) (node_gc_reclaimed s) x
    (node_arena_pressure_count s).
Definition set_node_arena_pressure_count (x : Z) (s : NodeStore) : NodeStore :=
  mk_nodes (nodes s) (node_capacity s) (node_attrs s) (node_attr_capacity s) (node_children s)
    (node_child_capacity s) (node_allocations_since_gc s) (process_argv_node_handle s)
    (ui_default_window_size_node_handle s) (ui_empty_event_node_handle s)
    (node_gc_attempt_count s) (node_gc_compaction_count s) (node_gc_reclaimed s)
    (node_high_water s) x.

(** The blob table. *)
Record BlobStore := mk_blobs {
  blobs : list AivmBlobRecord;
  blob_count : Z;
  blob_bytes_used : Z;
  blob_bytes_high_water : Z;
  blob_pressure_count : Z;
  next_blob_handle : Z }.

Definition set_blobs (x : list AivmBlobRecord) (s : BlobStore) : BlobStore :=
  mk_blobs x (blob_count s) (blob_bytes_used s) (blob_bytes_high_water s)
    (blob_pressure_count s) (next_blob_handle s).
Definition set_blob_count (x : Z) (s : BlobStore) : BlobStore :=
  mk_blobs (blobs s) x (blob_bytes_used s) (blob_bytes_high_water s) (blob_pressure_count s)
    (next_blob_handle s).
Definition set_blob_bytes_used (x : Z) (s : BlobStore) : BlobStore :=
  mk_blobs (blobs s) (blob_count s) x (blob_bytes_high_water s) (blob_pressure_count s)
    (next_blob_handle s).
Definition set_blob_bytes_high_water (x : Z) (s : BlobStore) : BlobStore :=
  mk_blobs (blobs s) (blob_count s) (blob_bytes_used s) x (blob_pressure_count s)
    (next_blob_handle s).
Definition set_blob_pressure_count (x : Z) (s : BlobStore) : BlobStore :=
  mk_blobs (blobs s) (blob_count s) (blob_bytes_used s) (blob_bytes_high_water s) x
    (next_blob_handle s).
Definition set_next_blob_handle (x : Z) (s : BlobStore) : BlobStore :=
  mk_blobs (blobs s) (blob_count s) (blob_bytes_used s) (blob_bytes_high_water s)
    (blob_pressure_count s) x.

(** ** The VM *)

(** A node builder is [None] while it is inactive. *)
Local Unset Elimination Schemes.
Inductive AivmVm := mk_vm {
  program : option AivmProgram;
  runtime_profile : AivmRuntimeProfile;
  instruction_pointer : Z;
  status : AivmVmStatus;
  error : AivmVmError;
  error_detail : detail;
  stack : list AivmValue;
  stack_limit : Z;
  call_frames : list AivmCallFrame;
  call_frame_limit : Z;
  recent_calls : list AivmCallHistoryEntry;
  recent_returns : list AivmReturnHistoryEntry;
  recent_opcodes : list AivmOpcodeHistoryEntry;
  locals : list AivmValue;
  locals_count : Z;
  locals_limit : Z;
  strings : StringArena;
  utf8_offset_cache : option (str_ptr * Z * Z);
  bytes_arena : BytesArena;
  completed_tasks : list AivmCompletedTask;
  par_values : list AivmValue;
  scratch_pairs : list AivmScratchPair;
  node_store : NodeStore;
  node_builders : list (option AivmNodeBuilderRecord);
  maps : list AivmMapRecord;
  blob_store : BlobStore;
  host_memory_growth_suspended : bool;
  tick : nat;
  task_table : TaskTable AivmVm }.
Local Set Elimination Schemes.

Definition set_program (x : option AivmProgram) (s : AivmVm) : AivmVm :=
  mk_vm x (runtime_profile s) (instruction_pointer s) (status s) (error s) (error_detail s)
    (stack s) (stack_limit s) (call_frames s) (call_frame_limit s) (recent_calls s)
    (recent_returns s) (recent_opcodes s) (locals s) (locals_count s) (locals_limit s)
    (strings s) (utf8_offset_cache s) (bytes_arena s) (completed_tasks s) (par_values s)
    (scratch_pairs s) (node_store s) (node_builders s) (maps s) (blob_store s)
    (host_memory_growth_suspended s) (tick s) (task_table s).
Definition set_runtime_profile (x : AivmRuntimeProfile) (s : AivmVm) : AivmVm :=
  mk_vm (program s) x (instruction_pointer s) (status s) (error s) (error_detail s) (stack s)
    (stack_limit s) (call_frames s) (call_frame_limit s) (recent_calls s) (recent_returns s)
    (recent_opcodes s) (locals s) (locals_count s) (locals_limit s) (strings s)
    (utf8_offset_cache s) (bytes_arena s) (completed_tasks s) (par_values s) (scratch_pairs s)
    (node_store s) (node_builders s) (maps s) (blob_store s) (host_memory_growth_suspended s)
    (tick s) (task_table s).
Definition set_instruction_pointer (x : Z) (s : AivmVm) : AivmVm :=
  mk_vm (program s) (runtime_profile s) x (status s) (error s) (error_detail s) (stack s)
    (stack_limit s) (call_frames s) (call_frame_limit s) (recent_calls s) (recent_returns s)
    (recent_opcodes s) (locals s) (locals_count s) (locals_limit s) (strings s)
    (utf8_offset_cache s) (bytes_arena s) (completed_tasks s) (par_values s) (scratch_pairs s)
    (node_store s) (node_builders s) (maps s) (blob_store s) (host_memory_growth_suspended s)
    (tick s) (task_table s).
Definition set_status (x : AivmVmStatus) (s : AivmVm) : AivmVm :=
  mk_vm (program s) (runtime_profile s) (instruction_pointer s) x (error s) (error_detail s)
    (stack s) (stack_limit s) (call_frames s) (call_frame_limit s) (recent_calls s)
    (recent_returns s) (recent_opcodes s) (locals s) (locals_count s) (locals_limit s)
    (strings s) (utf8_offset_cache s) (bytes_arena s) (completed_tasks s) (par_values s)
    (scratch_pairs s) (node_store s) (node_builders s) (maps s) (blob_store s)
    (host_memory_growth_suspended s) (tick s) (task_table s).
Definition set_error (x : AivmVmError) (s : AivmVm) : AivmVm :=
  mk_vm (program s) (runtime_profile s) (instruction_pointer s) (status s) x (error_detail s)
    (stack s) (stack_limit s) (call_frames s) (call_frame_limit s) (recent_calls s)
    (recent_returns s) (recent_opcodes s) (locals s) (locals_count s) (locals_limit s)
    (strings s) (utf8_offset_cache s) (bytes_arena s) (completed_tasks s) (par_values s)
    (scratch_pairs s) (node_store s) (node_builders s) (maps s) (blob_store s)
    (host_memory_growth_suspended s) (tick s) (task_table s).
Definition set_error_detail (x : detail) (s : AivmVm) : AivmVm :=
  mk_vm (program s) (runtime_profile s) (instruction_pointer s) (status s) (error s) x (stack s)
    (stack_limit s) (call_frames s) (call_frame_limit s) (recent_calls s) (recent_returns s)
    (recent_opcodes s) (locals s) (locals_count s) (locals_limit s) (strings s)
    (utf8_offset_cache s) (bytes_arena s) (completed_tasks s) (par_values s) (scratch_pairs s)
    (node_store s) (node_builders s) (maps s) (blob_store s) (host_memory_growth_suspended s)
    (tick s) (task_table s).
Definition set_stack (x : list AivmValue) (s : AivmVm) : AivmVm :=
  mk_vm (program s) (runtime_profile s) (instruction_pointer s) (status s) (error s)
    (error_detail s) x (stack_limit s) (call_frames s) (call_frame_limit s) (recent_calls s)
    (recent_returns s) (recent_opcodes s) (locals s) (locals_count s) (locals_limit s)
    (strings s) (utf8_offset_cache s) (bytes_arena s) (completed_tasks s) (par_values s)
    (scratch_pairs s) (node_store s) (node_builders s) (maps s) (blob_store s)
    (host_memory_growth_suspended s) (tick s) (task_table s).
Definition set_stack_limit (x : Z) (s : AivmVm) : AivmVm :=
  mk_vm (program s) (runtime_profile s) (instruction_pointer s) (status s) (error s)
    (error_detail s) (stack s) x (call_frames s) (call_frame_limit s) (recent_calls s)
    (recent_returns s) (recent_opcodes s) (locals s) (locals_count s) (locals_limit s)
    (strings s) (utf8_offset_cache s) (bytes_arena s) (completed_tasks s) (par_values s)
    (scratch_pairs s) (node_store s) (node_builders s) (maps s) (blob_store s)
    (host_memory_growth_suspended s) (tick s) (task_table s).
Definition set_call_frames (x : list AivmCallFrame) (s : AivmVm) : AivmVm :=
  mk_vm (program s) (runtime_profile s) (instruction_pointer s) (status s) (error s)
    (error_detail s) (stack s) (stack_limit s) x (call_frame_limit s) (recent_calls s)
    (recent_returns s) (recent_opcodes s) (locals s) (locals_count s) (locals_limit s)
    (strings s) (utf8_offset_cache s) (bytes_arena s) (completed_tasks s) (par_values s)
    (scratch_pairs s) (node_store s) (node_builders s) (maps s) (blob_store s)
    (host_memory_growth_suspended s) (tick s) (task_table s).
Definition set_call_frame_limit (x : Z) (s : AivmVm) : AivmVm :=
  mk_vm (program s) (runtime_profile s) (instruction_pointer s) (status s) (error s)
    (error_detail s) (stack s) (stack_limit s) (call_frames s) x (recent_calls s)
    (recent_returns s) (recent_opcodes s) (locals s) (locals_count s) (locals_limit s)
    (strings s) (utf8_offset_cache s) (bytes_arena s) (completed_tasks s) (par_values s)
    (scratch_pairs s) (node_store s) (node_builders s) (maps s) (blob_store s)
    (host_memory_growth_suspended s) (tick s) (task_table s).
Definition set_recent_calls (x : list AivmCallHistoryEntry) (s : AivmVm) : AivmVm :=
  mk_vm (program s) (runtime_profile s) (instruction_pointer s) (status s) (error s)
    (error_detail s) (stack s) (stack_limit s) (call_frames s) (call_frame_limit s) x
    (recent_returns s) (recent_opcodes s) (locals s) (locals_count s) (locals_limit s)
    (strings s) (utf8_offset_cache s) (bytes_arena s) (completed_tasks s) (par_values s)
    (scratch_pairs s) (node_store s) (node_builders s) (maps s) (blob_store s)
    (host_memory_growth_suspended s) (tick s) (task_table s).
Definition set_recent_returns (x : list AivmReturnHistoryEntry) (s : AivmVm) : AivmVm :=
  mk_vm (program s) (runtime_profile s) (instruction_pointer s) (status s) (error s)
    (error_detail s) (stack s) (stack_limit s) (call_frames s) (call_frame_limit s)
    (recent_calls s) x (recent_opcodes s) (locals s) (locals_count s) (locals_limit s)
    (strings s) (utf8_offset_cache s) (bytes_arena s) (completed_tasks s) (par_values s)
    (scratch_pairs s) (node_store s) (node_builders s) (maps s) (blob_store s)
    (host_memory_growth_suspended s) (tick s) (task_table s).
Definition set_recent_opcodes (x : list AivmOpcodeHistoryEntry) (s : AivmVm) : AivmVm :=
  mk_vm (program s) (runtime_profile s) (instruction_pointer s) (status s) (error s)
    (error_detail s) (stack s) (stack_limit s) (call_frames s) (call_frame_limit s)
    (recent_calls s) (recent_returns s) x (locals s) (locals_count s) (locals_limit s)
    (strings s) (utf8_offset_cache s) (bytes_arena s) (completed_tasks s) (par_values s)
    (scratch_pairs s) (node_store s) (node_builders s) (maps s) (blob_store s)
    (host_memory_growth_suspended s) (tick s) (task_table s).
Definition set_locals (x : list AivmValue) (s : AivmVm) : AivmVm :=
  mk_vm (program s) (runtime_profile s) (instruction_pointer s) (status s) (error s)
    (error_detail s) (stack s) (stack_limit s) (call_frames s) (call_frame_limit s)
    (recent_calls s) (recent_returns s) (recent_opcodes s) x (locals_count s) (locals_limit s)
    (strings s) (utf8_offset_cache s) (bytes_arena s) (completed_tasks s) (par_values s)
    (scratch_pairs s) (node_store s) (node_builders s) (maps s) (blob_store s)
    (host_memory_growth_suspended s) (tick s) (task_table s).
Definition set_locals_count (x : Z) (s : AivmVm) : AivmVm :=
  mk_vm (program s) (runtime_profile s) (instruction_pointer s) (status s) (error s)
    (error_detail s) (stack s) (stack_limit s) (call_frames s) (call_frame_limit s)
    (recent_calls s) (recent_returns s) (recent_opcodes s) (locals s) x (locals_limit s)
    (strings s) (utf8_offset_cache s) (bytes_arena s) (completed_tasks s) (par_values s)
    (scratch_pairs s) (node_store s) (node_builders s) (maps s) (blob_store s)
    (host_memory_growth_suspended s) (tick s) (task_table s).
Definition set_locals_limit (x : Z) (s : AivmVm) : AivmVm :=
  mk_vm (program s) (runtime_profile s) (instruction_pointer s) (status s) (error s)
    (error_detail s) (stack s) (stack_limit s) (call_frames s) (call_frame_limit s)
    (recent_calls s) (recent_returns s) (recent_opcodes s) (locals s) (locals_count s) x
    (strings s) (utf8_offset_cache s) (bytes_arena s) (completed_tasks s) (par_values s)
    (scratch_pairs s) (node_store s) (node_builders s) (maps s) (blob_store s)
    (host_memory_growth_suspended s) (tick s) (task_table s).
Definition set_strings (x : StringArena) (s : AivmVm) : AivmVm :=
  mk_vm (program s) (runtime_profile s) (instruction_pointer s) (status s) (error s)
    (error_detail s) (stack s) (stack_limit s) (call_frames s) (call_frame_limit s)
    (recent_calls s) (recent_returns s) (recent_opcodes s) (locals s) (locals_count s)
    (locals_limit s) x (utf8_offset_cache s) (bytes_arena s) (completed_tasks s) (par_values s)
    (scratch_pairs s) (node_store s) (node_builders s) (maps s) (blob_store s)
    (host_memory_growth_suspended s) (tick s) (task_table s).
Definition set_utf8_offset_cache (x : option (str_ptr * Z * Z)) (s : AivmVm) : AivmVm :=
  mk_vm (program s) (runtime_profile s) (instruction_pointer s) (status s) (error s)
    (error_detail s) (stack s) (stack_limit s) (call_frames s) (call_frame_limit s)
    (recent_calls s) (recent_returns s) (recent_opcodes s) (locals s) (locals_count s)
    (locals_limit s) (strings s) x (bytes_arena s) (completed_tasks s) (par_values s)
    (scratch_pairs s) (node_store s) (node_builders s) (maps s) (blob_store s)
    (host_memory_growth_suspended s) (tick s) (task_table s).
Definition set_bytes_arena (x : BytesArena) (s : AivmVm) : AivmVm :=
  mk_vm (program s) (runtime_profile s) (instruction_pointer s) (status s) (error s)
    (error_detail s) (stack s) (stack_limit s) (call_frames s) (call_frame_limit s)
    (recent_calls s) (recent_returns s) (recent_opcodes s) (locals s) (locals_count s)
    (locals_limit s) (strings s) (utf8_offset_cache s) x (completed_tasks s) (par_values s)
    (scratch_pairs s) (node_store s) (node_builders s) (maps s) (blob_store s)
    (host_memory_growth_suspended s) (tick s) (task_table s).
Definition set_completed_tasks (x : list AivmCompletedTask) (s : AivmVm) : AivmVm :=
  mk_vm (program s) (runtime_profile s) (instruction_pointer s) (status s) (error s)
    (error_detail s) (stack s) (stack_limit s) (call_frames s) (call_frame_limit s)
    (recent_calls s) (recent_returns s) (recent_opcodes s) (locals s) (locals_count s)
    (locals_limit s) (strings s) (utf8_offset_cache s) (bytes_arena s) x (par_values s)
    (scratch_pairs s) (node_store s) (node_builders s) (maps s) (blob_store s)
    (host_memory_growth_suspended s) (tick s) (task_table s).
Definition set_par_values (x : list AivmValue) (s : AivmVm) : AivmVm :=
  mk_vm (program s) (runtime_profile s) (instruction_pointer s) (status s) (error s)
    (error_detail s) (stack s) (stack_limit s) (call_frames s) (call_frame_limit s)
    (recent_calls s) (recent_returns s) (recent_opcodes s) (locals s) (locals_count s)
    (locals_limit s) (strings s) (utf8_offset_cache s) (bytes_arena s) (completed_tasks s) x
    (scratch_pairs s) (node_store s) (node_builders s) (maps s) (blob_store s)
    (host_memory_growth_suspended s) (tick s) (task_table s).
Definition set_scratch_pairs (x : list AivmScratchPair) (s : AivmVm) : AivmVm :=
  mk_vm (program s) (runtime_profile s) (instruction_pointer s) (status s) (error s)
    (error_detail s) (stack s) (stack_limit s) (call_frames s) (call_frame_limit s)
    (recent_calls s) (recent_returns s) (recent_opcodes s) (locals s) (locals_count s)
    (locals_limit s) (strings s) (utf8_offset_cache s) (bytes_arena s) (completed_tasks s)
    (par_values s) x (node_store s) (node_builders s) (maps s) (blob_store s)
    (host_memory_growth_suspended s) (tick s) (task_table s).
Definition set_node_store (x : NodeStore) (s : AivmVm) : AivmVm :=
  mk_vm (program s) (runtime_profile s) (instruction_pointer s) (status s) (error s)
    (error_detail s) (stack s) (stack_limit s) (call_frames s) (call_frame_limit s)
    (recent_calls s) (recent_returns s) (recent_opcodes s) (locals s) (locals_count s)
    (locals_limit s) (strings s) (utf8_offset_cache s) (bytes_arena s) (completed_tasks s)
    (par_values s) (scratch_pairs s) x (node_builders s) (maps s) (blob_store s)
    (host_memory_growth_suspended s) (tick s) (task_table s).
Definition set_node_builders (x : list (option AivmNodeBuilderRecord)) (s : AivmVm) : AivmVm :=
  mk_vm (program s) (runtime_profile s) (instruction_pointer s) (status s) (error s)
    (error_detail s) (stack s) (stack_limit s) (call_frames s) (call_frame_limit s)
    (recent_calls s) (recent_returns s) (recent_opcodes s) (locals s) (locals_count s)
    (locals_limit s) (strings s) (utf8_offset_cache s) (bytes_arena s) (completed_tasks s)
    (par_values s) (scratch_pairs s) (node_store s) x (maps s) (blob_store s)
    (host_memory_growth_suspended s) (tick s) (task_table s).
Definition set_maps (x : list AivmMapRecord) (s : AivmVm) : AivmVm :=
  mk_vm (program s) (runtime_profile s) (instruction_pointer s) (status s) (error s)
    (error_detail s) (stack s) (stack_limit s) (call_frames s) (call_frame_limit s)
    (recent_calls s) (recent_returns s) (recent_opcodes s) (locals s) (locals_count s)
    (locals_limit s) (strings s) (utf8_offset_cache s) (bytes_arena s) (completed_tasks s)
    (par_values s) (scratch_pairs s) (node_store s) (node_builders s) x (blob_store s)
    (host_memory_growth_suspended s) (tick s) (task_table s).
Definition set_blob_store (x : BlobStore) (s : AivmVm) : AivmVm :=
  mk_vm (program s) (runtime_profile s) (instruction_pointer s) (status s) (error s)
    (error_detail s) (stack s) (stack_limit s) (call_frames s) (call_frame_limit s)
    (recent_calls s) (recent_returns s) (recent_opcodes s) (locals s) (locals_count s)
    (locals_limit s) (strings s) (utf8_offset_cache s) (bytes_arena s) (completed_tasks s)
    (par_values s) (scratch_pairs s) (node_store s) (node_builders s) (maps s) x
    (host_memory_growth_suspended s) (tick s) (task_table s).
Definition set_host_memory_growth_suspended (x : bool) (s : AivmVm) : AivmVm :=
  mk_vm (program s) (runtime_profile s) (instruction_pointer s) (status s) (error s)
    (error_detail s) (stack s) (stack_limit s) (call_frames s) (call_frame_limit s)
    (recent_calls s) (recent_returns s) (recent_opcodes s) (locals s) (locals_count s)
    (locals_limit s) (strings s) (utf8_offset_cache s) (bytes_arena s) (completed_tasks s)
    (par_values s) (scratch_pairs s) (node_store s) (node_builders s) (maps s) (blob_store s) x
    (tick s) (task_table s).
Definition set_tick (x : nat) (s : AivmVm) : AivmVm :=
  mk_vm (program s) (runtime_profile s) (instruction_pointer s) (status s) (error s)
    (error_detail s) (stack s) (stack_limit s) (call_frames s) (call_frame_limit s)
    (recent_calls s) (recent_returns s) (recent_opcodes s) (locals s) (locals_count s)
    (locals_limit s) (strings s) (utf8_offset_cache s) (bytes_arena s) (completed_tasks s)
    (par_values s) (scratch_pairs s) (node_store s) (node_builders s) (maps s) (blob_store s)
    (host_memory_growth_suspended s) x (task_table s).

Definition set_task_table (x : TaskTable AivmVm) (s : AivmVm) : AivmVm :=
  mk_vm (program s) (runtime_profile s) (instruction_pointer s) (status s) (error s) (error_detail s)
    (stack s) (stack_limit s) (call_frames s) (call_frame_limit s) (recent_calls s) (recent_returns
    s) (recent_opcodes s) (locals s) (locals_count s) (locals_limit s) (strings s)
    (utf8_offset_cache s) (bytes_arena s) (completed_tasks s) (par_values s) (scratch_pairs s)
    (node_store s) (node_builders s) (maps s) (blob_store s) (host_memory_growth_suspended s) (tick
    s) x.

(** ** The monad *)

Inductive res (A : Type) : Type :=
  | Ok (a : A) (s : AivmVm)
  | Err (s : AivmVm)
  | Undef.
Arguments Ok {A} a s.
Arguments Err {A} s.
Arguments Undef {A}.

Definition M (A : Type) : Type := AivmVm -> res A.

Definition ret {A} (a : A) : M A := fun s => Ok a s.
Definition bind {A B} (m : M A) (f : A -> M B) : M B := fun s =>
  match m s with Ok a s' => f a s' | Err s' => Err s' | Undef => Undef end.

Notation "'let!' x := m 'in' k" := (bind m (fun x => k))
  (at level 10, x pattern, m at level 100, k at level 200, only parsing) : aivm_scope.
Notation "'do!' m 'in' k" := (bind m (fun _ => k))
  (at level 10, m at level 100, k at level 200, only parsing) : aivm_scope.
Open Scope aivm_scope.

Definition get : M AivmVm := fun s => Ok s s.
Definition gets {A} (f : AivmVm -> A) : M A := fun s => Ok (f s) s.
Definition modify (f : AivmVm -> AivmVm) : M unit := fun s => Ok tt (f s).
(** A return of 0. *)
Definition fail {A} : M A := fun s => Err s.
Definition undef {A} : M A := fun s => Undef.
(** An array or pointer access that must be inside its object. *)
Definition check {A} (o : option A) : M A := match o with Some a => ret a | None => undef end.
(** [if (!m) { h }]: run [h] when [m] returned 0. *)
Definition or_else {A} (m h : M A) : M A := fun s =>
  match m s with Err s' => h s' | r => r end.

(** [aivm_set_vm_error] *)
Definition aivm_set_vm_error (e : AivmVmError) (d : detail) (s : AivmVm) : AivmVm :=
  set_error_detail d (set_status AIVM_VM_STATUS_ERROR (set_error e s)).

(** Set the error and return 0. *)
Definition throw {A} (e : AivmVmError) (d : detail) : M A := fun s => Err (aivm_set_vm_error e d s).

(** Set the error unless one is already set, and return 0. *)
Definition throw_unless_error {A} (e : AivmVmError) (d : detail) : M A := fun s =>
  Err (if bool_decide (status s = AIVM_VM_STATUS_ERROR) then s else aivm_set_vm_error e d s).

Definition when (b : bool) (m : M unit) : M unit := if b then m else ret tt.

(** ** The host *)

(** What the VM asks of the machine it runs on: whether an allocation succeeds,
    and the physical memory snapshot ([None] where the platform has none). *)
Class Host := {
  host_alloc : nat -> Z -> bool;
  host_memory_snapshot : nat -> option (Z * Z) }.

Section HostMemory.

Context `{Host}.

(** [malloc]/[calloc]/[realloc] of so many bytes: does it succeed? *)
Definition alloc (size : Z) : M bool := fun s =>
  Ok (host_alloc (tick s) size) (set_tick (S (tick s)) s).

(** The host has refused an allocation at least once. *)
Definition starved : Prop := exists k size, host_alloc k size = false.

Definition snapshot : M (option (Z * Z)) := fun s =>
  Ok (host_memory_snapshot (tick s)) (set_tick (S (tick s)) s).

(** [aivm_host_memory_growth_allowed]: the verdict and the new suspended flag. *)
Definition aivm_host_memory_growth_allowed (total available growth : Z) (was_suspended : bool)
    : bool * bool :=
  let reserve0 := total / 100 * 10 in
  let reserve1 := if reserve0 <? 536870912 then 536870912 else reserve0 in
  let reserve := if (0 <? total) && (total / 2 <? reserve1) then total / 2 else reserve1 in
  let resume_margin := if was_suspended then total / 100 * 5 else 0 in
  match aivm_size_add_checked reserve resume_margin with
  | None => (false, true)
  | Some r0 =>
      match aivm_size_add_checked r0 growth with
      | None => (false, true)
      | Some required => if available <? required then (false, true) else (true, false)
      end
  end.

(** [aivm_vm_admit_host_memory_growth] *)
Definition aivm_vm_admit_host_memory_growth (growth : Z) : M unit :=
  let! s := get in
  if negb (bool_decide (runtime_profile s = AIVM_RUNTIME_PROFILE_TOOLING)) then ret tt
  else
    let! snap := snapshot in
    match snap with
    | None => ret tt
    | Some (total, available) =>
        let '(ok, suspended) :=
          aivm_host_memory_growth_allowed total available growth (host_memory_growth_suspended s) in
        do! modify (set_host_memory_growth_suspended suspended) in
        if ok then ret tt
        else throw AIVM_VM_ERR_MEMORY_PRESSURE
               (DText "AIVMM006: tooling arena growth denied to preserve host memory reserve.")
    end.

(** [aivm_vm_host_memory_growth_available]: no error is set. *)
Definition aivm_vm_host_memory_growth_available (growth : Z) : M unit :=
  let! s := get in
  if negb (bool_decide (runtime_profile s = AIVM_RUNTIME_PROFILE_TOOLING)) then fail
  else
    let! snap := snapshot in
    match snap with
    | None => ret tt
    | Some (total, available) =>
        let '(ok, suspended) :=
          aivm_host_memory_growth_allowed total available growth (host_memory_growth_suspended s) in
        do! modify (set_host_memory_growth_suspended suspended) in
        if ok then ret tt else fail
    end.

End HostMemory.

(** The refused allocation behind a test of several answers. *)
Ltac starved_by E :=
  repeat match type of E with context [host_alloc ?k ?n] => destruct (host_alloc k n) eqn:?; cbn [negb andb] in E end;
  first [discriminate E | eexists _, _; eassumption].
