(* ===== verification/Lifecycle.v ===== *)
(** * Profiles, storage and reset

    src/src/aivm_vm_profile.c, aivm_vm_storage.c and aivm_vm_lifecycle.c: the
    capacities of a runtime profile, the lazily allocated storage behind the
    arenas, and the state after a reset. *)

From S2P Require Import Prelude Types Program Syscalls Vm.

(** ** Profiles *)

Definition aivm_runtime_profile_name (p : AivmRuntimeProfile) : string :=
  match p with
  | AIVM_RUNTIME_PROFILE_PRODUCTION => "production"
  | AIVM_RUNTIME_PROFILE_DEBUG => "debug"
  | AIVM_RUNTIME_PROFILE_TOOLING => "tooling"
  end.

Definition aivm_runtime_profile_from_name (name : string) : option AivmRuntimeProfile :=
  if bool_decide (name = "production"%string) then Some AIVM_RUNTIME_PROFILE_PRODUCTION
  else if bool_decide (name = "debug"%string) then Some AIVM_RUNTIME_PROFILE_DEBUG
  else if bool_decide (name = "tooling"%string) then Some AIVM_RUNTIME_PROFILE_TOOLING
  else None.

(** The limits a VM takes from its profile ([aivm_runtime_profile_limits]). *)
Record AivmRuntimeProfileLimits := mk_limits {
  lim_string_arena : Z; lim_bytes_arena : Z; lim_node : Z; lim_node_attr : Z; lim_node_child : Z }.

Definition aivm_runtime_profile_limits (p : AivmRuntimeProfile) : AivmRuntimeProfileLimits :=
  match p with
  | AIVM_RUNTIME_PROFILE_TOOLING => mk_limits 16777216 16777216 65536 262144 524288
  | _ => mk_limits AIVM_VM_STRING_ARENA_CAPACITY AIVM_VM_BYTES_ARENA_CAPACITY
           AIVM_VM_NODE_CAPACITY AIVM_VM_NODE_ATTR_CAPACITY AIVM_VM_NODE_CHILD_CAPACITY
  end.

(** ** Storage blocks

    The sizes of the heap blocks behind the arrays ([None] is a NULL pointer)
    and the capacities the VM believes in. *)

Record Storage := mk_storage {
  blk_stack : option Z; blk_locals : option Z;
  blk_strings : option Z; cap_strings : Z; stored_strings : Z;
  blk_bytes : option Z; cap_bytes : Z; stored_bytes : Z;
  blk_nodes : option Z; cap_nodes : Z;
  blk_attrs : option Z; cap_attrs : Z;
  blk_children : option Z; cap_children : Z;
  blk_pairs : option Z }.

(** A VM structure of zeroes ([prepare_vm_for_init] on fresh memory). *)
Definition zeroed_storage : Storage :=
  mk_storage None None None 0 0 None 0 0 None 0 None 0 None 0 None.

(** The capacities set by [aivm_set_runtime_profile]. *)
Definition set_profile_capacities (p : AivmRuntimeProfile) (st : Storage) : Storage :=
  let l := aivm_runtime_profile_limits p in
  mk_storage (blk_stack st) (blk_locals st)
    (blk_strings st) (lim_string_arena l) (stored_strings st)
    (blk_bytes st) (lim_bytes_arena l) (stored_bytes st)
    (blk_nodes st) (lim_node l) (blk_attrs st) (lim_node_attr l)
    (blk_children st) (lim_node_child l) (blk_pairs st).

(** [if (p == NULL) p = calloc(n, size)], with the host's answer. *)
Definition ensure_block (granted : bool) (blk : option Z) (n : Z) : option Z :=
  match blk with Some b => Some b | None => if granted then Some n else None end.

(** [aivm_vm_ensure_storage]: [grant i] is the host's answer to the i-th
    allocation of the function.  The result is the storage and whether the
    function returns 1. *)
Definition aivm_vm_ensure_storage (grant : nat -> bool) (st : Storage) : Storage * bool :=
  let cs := if cap_strings st =? 0 then AIVM_VM_STRING_ARENA_CAPACITY else cap_strings st in
  let '(bs, ss) :=
    match blk_strings st with
    | None => if grant 2%nat then (Some cs, cs) else (None, stored_strings st)
    | Some b => if stored_strings st <? cs
                then if grant 2%nat then (Some cs, cs) else (Some b, stored_strings st)
                else (Some b, stored_strings st)
    end in
  let cb := if cap_bytes st =? 0 then AIVM_VM_BYTES_ARENA_CAPACITY else cap_bytes st in
  let '(bb, sb) :=
    match blk_bytes st with
    | None => if grant 3%nat then (Some cb, cb) else (None, stored_bytes st)
    | Some b => if stored_bytes st <? cb
                then if grant 3%nat then (Some cb, cb) else (Some b, stored_bytes st)
                else (Some b, stored_bytes st)
    end in
  let st' := mk_storage
    (ensure_block (grant 0%nat) (blk_stack st) AIVM_VM_STACK_CAPACITY)
    (ensure_block (grant 1%nat) (blk_locals st) AIVM_VM_LOCALS_CAPACITY)
    bs cs ss bb cb sb
    (ensure_block (grant 4%nat) (blk_nodes st) (cap_nodes st)) (cap_nodes st)
    (ensure_block (grant 5%nat) (blk_attrs st) (cap_attrs st)) (cap_attrs st)
    (ensure_block (grant 6%nat) (blk_children st) (cap_children st)) (cap_children st)
    (ensure_block (grant 7%nat) (blk_pairs st) AIVM_VM_SCRATCH_PAIR_CAPACITY) in
  let present (b : option Z) := bool_decide (is_Some b) in
  (st', present (blk_stack st') && present (blk_locals st') && present (blk_strings st')
        && negb (ss <? cs) && present (blk_bytes st') && negb (sb <? cb)
        && present (blk_nodes st') && present (blk_attrs st') && present (blk_children st')
        && present (blk_pairs st')).

(** Every array has at least the capacity the VM will use of it. *)
Definition block_covers (blk : option Z) (cap : Z) : Prop :=
  match blk with Some b => cap <= b | None => False end.

Definition storage_ok (st : Storage) : Prop :=
  block_covers (blk_stack st) AIVM_VM_STACK_CAPACITY /\
  block_covers (blk_locals st) AIVM_VM_LOCALS_CAPACITY /\
  block_covers (blk_strings st) (cap_strings st) /\ block_covers (blk_bytes st) (cap_bytes st) /\
  block_covers (blk_nodes st) (cap_nodes st) /\ block_covers (blk_attrs st) (cap_attrs st) /\
  block_covers (blk_children st) (cap_children st) /\
  block_covers (blk_pairs st) AIVM_VM_SCRATCH_PAIR_CAPACITY.

(** The storage part of [aivm_init_with_profile]. *)
Definition init_storage (grant : nat -> bool) (p : AivmRuntimeProfile) (st : Storage) : Storage * bool :=
  aivm_vm_ensure_storage grant (set_profile_capacities p st).

(** ** The state after a reset *)

Definition empty_map : AivmMapRecord := mk_map false false [] 0.
Definition empty_blob : AivmBlobRecord := mk_blob 0 [] false.

Definition AIVM_VM_SYSCALL_ELAPSED_MS : Z := 30000.

(** The tasks, groups and system call settings of a VM newly initialised for a
    profile.  The handles already consumed are not forgotten by a reset. *)
Definition reset_tasks (profile : AivmRuntimeProfile) (bindings : option (list (AivmSyscallBinding (list host_call)))) : TaskTable AivmVm :=
  let l := aivm_runtime_profile_limits profile in
  mk_tasks 1 [] 0 0 0 [] None [] 0 0 4096 (lim_bytes_arena l) 1 [] 1
    (mk_syscalls bindings
       (if bool_decide (profile = AIVM_RUNTIME_PROFILE_PRODUCTION) then aivm_syscall_policy_allow_production_default
        else aivm_syscall_policy_allow_all)
       AIVM_VM_SYSCALL_ELAPSED_MS []).

(** [aivm_reset_state] of a newly initialised VM, up to the creation of the
    argv node ([next_tick] host questions have been asked).  The local storage
    keeps what earlier runs stored in it. *)
Definition reset_vm (program : option AivmProgram) (profile : AivmRuntimeProfile)
    (stale_locals : list AivmValue) (next_tick : nat) : AivmVm :=
  let l := aivm_runtime_profile_limits profile in
  let slimit := if lim_string_arena l <? AIVM_VM_STRING_ARENA_INITIAL_CAPACITY
                then lim_string_arena l else AIVM_VM_STRING_ARENA_INITIAL_CAPACITY in
  let blimit := if lim_bytes_arena l <? AIVM_VM_BYTES_ARENA_INITIAL_CAPACITY
                then lim_bytes_arena l else AIVM_VM_BYTES_ARENA_INITIAL_CAPACITY in
  mk_vm program profile 0 AIVM_VM_STATUS_READY AIVM_VM_ERR_NONE DNull
    [] AIVM_VM_STACK_INITIAL_CAPACITY [] AIVM_VM_CALLFRAME_INITIAL_CAPACITY [] [] []
    stale_locals 0 AIVM_VM_LOCALS_INITIAL_CAPACITY
    (mk_strings [] 0 slimit (lim_string_arena l) 0 0 [] 0 true) None
    (mk_bytes_arena [] 0 blimit (lim_bytes_arena l) blimit 0 0)
    [] [] []
    (mk_nodes [] (lim_node l) [] (lim_node_attr l) [] (lim_node_child l) 0 0 0 0 0 0
       (0, 0, 0) (0, 0, 0) 0)
    (replicate (Z.to_nat AIVM_VM_NODE_BUILDER_CAPACITY) None)
    (replicate (Z.to_nat AIVM_VM_MAP_CAPACITY) empty_map)
    (mk_blobs (replicate (Z.to_nat AIVM_VM_BLOB_CAPACITY) empty_blob) 0 0 0 0 1)
    false next_tick (reset_tasks profile None).

(** A freshly reset VM and a host that grants every allocation, for the examples. *)
Definition example_vm : AivmVm := reset_vm None AIVM_RUNTIME_PROFILE_PRODUCTION [] 0.

Definition example_host : Host := {|
  host_alloc := fun _ _ => true;
  host_memory_snapshot := fun _ => None |}.

(** ** Proofs *)

Lemma profile_name_roundtrip p : aivm_runtime_profile_from_name (aivm_runtime_profile_name p) = Some p.
Proof. by destruct p. Qed.

Lemma ensure_block_covers granted blk n :
  is_Some (ensure_block granted blk n) -> (forall b, blk = Some b -> n <= b) ->
  block_covers (ensure_block granted blk n) n.
Proof.
  intros [b Hb] Hold. unfold ensure_block in *. destruct blk as [b'|]; [by apply Hold|].
  destruct granted; [|done]. cbn. lia.
Qed.

(** Initialising a VM on fresh memory, for any profile and any
    answers of the allocator: when it succeeds, every array of the VM is backed
    by a block at least as large as the capacity the VM uses. *)
Theorem init_storage_fresh grant p :
  (init_storage grant p zeroed_storage).2 = true -> storage_ok (init_storage grant p zeroed_storage).1.
Proof.
  unfold init_storage, aivm_vm_ensure_storage. intros H.
  destruct (grant 0%nat), (grant 1%nat), (grant 2%nat), (grant 3%nat), (grant 4%nat), (grant 5%nat),
    (grant 6%nat), (grant 7%nat); destruct p; cbn in H; try discriminate H;
    unfold storage_ok; cbn; lia.
Qed.

Lemma init_storage_fresh_witness :
  (init_storage (fun _ => true) AIVM_RUNTIME_PROFILE_TOOLING zeroed_storage).2 = true /\
  storage_ok (init_storage (fun _ => true) AIVM_RUNTIME_PROFILE_TOOLING zeroed_storage).1.
Proof.
  assert (H : (init_storage (fun _ => true) AIVM_RUNTIME_PROFILE_TOOLING zeroed_storage).2 = true)
    by reflexivity.
  split; [exact H|]. exact (init_storage_fresh (fun _ => true) AIVM_RUNTIME_PROFILE_TOOLING H).
Defined.

(** A VM that was initialised for the production profile and is
    initialised again for the tooling profile reports success, but its node,
    attribute and child arrays keep the production size while their capacities
    are four times larger: the node arena can be written past its block.  (The
    string and bytes arenas are replaced; the node arrays are only allocated when
    their pointer is NULL.) *)
Theorem reinit_overruns_node_arena :
  let st := (init_storage (fun _ => true) AIVM_RUNTIME_PROFILE_PRODUCTION zeroed_storage).1 in
  let r := init_storage (fun _ => true) AIVM_RUNTIME_PROFILE_TOOLING st in
  r.2 = true /\ blk_nodes r.1 = Some AIVM_VM_NODE_CAPACITY /\ cap_nodes r.1 = 4 * AIVM_VM_NODE_CAPACITY /\
  ~ storage_ok r.1.
Proof.
  cbn zeta. split; [reflexivity|]. split; [reflexivity|]. split; [reflexivity|].
  intros (_ & _ & _ & _ & H & _). vm_compute in H. by apply H.
Qed.
