(* ===== verification/Stack.v ===== *)
(** * Value stack, call frames, locals and execution history

    src/src/aivm_vm_stack.c, aivm_vm_history.c and the state validators of
    aivm_vm.c.  The logical limits grow in steps up to the fixed capacities. *)

From S2P Require Import Prelude Types Program Vm Lifecycle.

(** ** Growing limits *)

(** [stack_grow_limit] (and [arena_grow_limit], which is the same function). *)
Definition stack_grow_limit (current step max_value : Z) : Z :=
  if max_value <=? current then max_value
  else
    match aivm_size_add_checked current step with
    | None => max_value
    | Some next => if max_value <? next then max_value else next
    end.

(** [while (needed > limit && limit < max) limit = grow(limit)].  The limit
    grows by [step] per iteration, so [max / step + 1] iterations reach [max]. *)
Fixpoint grow_loop (fuel : nat) (needed limit step max_value : Z) : Z :=
  match fuel with
  | O => limit
  | S fuel' =>
      if (limit <? needed) && (limit <? max_value)
      then grow_loop fuel' needed (stack_grow_limit limit step max_value) step max_value
      else limit
  end.

Definition grow_fuel (step max_value : Z) : nat := S (Z.to_nat (max_value / step)).

Definition grown_limit (needed limit step max_value : Z) : Z :=
  grow_loop (grow_fuel step max_value) needed limit step max_value.

(** [ensure_stack_capacity], [ensure_call_frame_capacity] and
    [ensure_locals_capacity]: the new limit is kept even on failure. *)
Definition ensure_stack_capacity (needed : Z) : M bool :=
  let! s := get in
  let limit := grown_limit needed (stack_limit s) AIVM_VM_STACK_GROWTH_STEP AIVM_VM_STACK_CAPACITY in
  do! modify (set_stack_limit limit) in
  ret (needed <=? limit).

Definition ensure_call_frame_capacity (needed : Z) : M bool :=
  let! s := get in
  let limit := grown_limit needed (call_frame_limit s) AIVM_VM_CALLFRAME_GROWTH_STEP
                 AIVM_VM_CALLFRAME_CAPACITY in
  do! modify (set_call_frame_limit limit) in
  ret (needed <=? limit).

Definition ensure_locals_capacity (needed : Z) : M bool :=
  let! s := get in
  let limit := grown_limit needed (locals_limit s) AIVM_VM_LOCALS_GROWTH_STEP AIVM_VM_LOCALS_CAPACITY in
  do! modify (set_locals_limit limit) in
  ret (needed <=? limit).

Definition stack_count (s : AivmVm) : Z := zlen (stack s).
Definition call_frame_count (s : AivmVm) : Z := zlen (call_frames s).

(** ** The stack *)

Definition aivm_stack_push (v : AivmValue) : M unit :=
  let! s := get in
  match aivm_size_add_checked (stack_count s) 1 with
  | None => throw AIVM_VM_ERR_STACK_OVERFLOW (DText "Stack overflow.")
  | Some needed =>
      let! ok := ensure_stack_capacity needed in
      if ok then
        if needed <=? AIVM_VM_STACK_CAPACITY
        then modify (fun s => set_stack (v :: stack s) s) else undef
      else throw AIVM_VM_ERR_STACK_OVERFLOW (DText "Stack overflow.")
  end.

Definition aivm_stack_pop : M AivmValue :=
  let! s := get in
  match stack s with
  | [] => throw AIVM_VM_ERR_STACK_UNDERFLOW (DText "Stack underflow.")
  | v :: rest => do! modify (set_stack rest) in ret v
  end.

(** ** Validation *)

Definition op_text (op : string) : detail_arg := AText (bytes_of_string op).

(** The newest call, return and opcode as printed in the frame error. *)
Definition history_args (s : AivmVm) : list detail_arg :=
  match recent_calls s with
  | c :: _ => [ANum (ch_instruction_pointer c); ANum (ch_target c); ANum (ch_arg_count c);
               ANum (ch_stack_count c)]
  | [] => [ANum 0; ANum 0; ANum 0; ANum 0]
  end ++
  match recent_returns s with
  | r :: _ => [ANum (rh_instruction_pointer r); ANum (rh_stack_count r);
               ANum (rh_pre_restore_stack_count r); ANum (rh_frame_base r)]
  | [] => [ANum 0; ANum 0; ANum 0; ANum 0]
  end ++
  match recent_opcodes s with
  | o :: _ => [ANum (oh_instruction_pointer o); ANum (Z_of_opcode (oh_opcode o)); ANum (oh_stack_count o)]
  | [] => [ANum 0; ANum 0; ANum 0]
  end.

Definition limits_respected (s : AivmVm) : bool :=
  (stack_count s <=? stack_limit s) && (call_frame_count s <=? call_frame_limit s)
  && (locals_count s <=? locals_limit s).

(** [aivm_vm_validate_call_local_state] *)
Definition aivm_vm_validate_call_local_state (op : string) : M unit :=
  let! s := get in
  if negb (limits_respected s) then
    throw AIVM_VM_ERR_INVALID_PROGRAM (DFormat "VM state invariant failed. op=%s stackCount=%llu stackLimit=%llu frameCount=%llu frameLimit=%llu localsCount=%llu localsLimit=%llu"
      [op_text op; ANum (stack_count s); ANum (stack_limit s); ANum (call_frame_count s);
       ANum (call_frame_limit s); ANum (locals_count s); ANum (locals_limit s)])
  else
    match call_frames s with
    | [] =>
        (* the active base is 0, never above the counter *)
        ret tt
    | frame :: _ =>
        if (stack_count s <? frame_base frame) || (locals_count s <? locals_base frame) then
          throw AIVM_VM_ERR_INVALID_PROGRAM (DFormat
            "VM frame invariant failed. op=%s frameBase=%llu localsBase=%llu returnIp=%llu stackCount=%llu localsCount=%llu frameCount=%llu pc=%llu call0Ip=%llu call0Target=%llu call0ArgCount=%llu call0Stack=%llu return0Ip=%llu return0Stack=%llu return0PreRestore=%llu return0FrameBase=%llu op0Ip=%llu op0Opcode=%d op0Stack=%llu"
            ([op_text op; ANum (frame_base frame); ANum (locals_base frame);
              ANum (return_instruction_pointer frame); ANum (stack_count s); ANum (locals_count s);
              ANum (call_frame_count s); ANum (instruction_pointer s)] ++ history_args s))
        else ret tt
    end.

(** [aivm_vm_validate_frame_record] *)
Definition aivm_vm_validate_frame_record (frame : AivmCallFrame) (op : string) : M unit :=
  let! s := get in
  if (stack_count s <? frame_base frame) || (locals_count s <? locals_base frame) then
    throw AIVM_VM_ERR_INVALID_PROGRAM (DFormat "VM frame record invalid. op=%s frameBase=%llu localsBase=%llu stackCount=%llu localsCount=%llu frameCount=%llu"
      [op_text op; ANum (frame_base frame); ANum (locals_base frame); ANum (stack_count s);
       ANum (locals_count s); ANum (call_frame_count s)])
  else ret tt.

(** [aivm_vm_set_local_out_of_range_error] *)
Definition local_out_of_range {A} (op : string) (index base : Z) : M A := fun s =>
  throw AIVM_VM_ERR_LOCAL_OUT_OF_RANGE (DFormat
    "Invalid local slot. op=%s index=%llu base=%llu localsCount=%llu frameCount=%llu pc=%llu"
    [op_text op; ANum index; ANum base; ANum (locals_count s); ANum (call_frame_count s);
     ANum (instruction_pointer s)]) s.

(** ** Call frames *)

Definition aivm_frame_push (return_ip base : Z) : M unit :=
  do! aivm_vm_validate_call_local_state "frame-push" in
  let! s := get in
  if stack_count s <? base
  then throw AIVM_VM_ERR_INVALID_PROGRAM (DText "Call frame base exceeds stack depth.")
  else
    match aivm_size_add_checked (call_frame_count s) 1 with
    | None => throw AIVM_VM_ERR_FRAME_OVERFLOW (DText "Call-frame overflow.")
    | Some needed =>
        let! ok := ensure_call_frame_capacity needed in
        if ok then
          if needed <=? AIVM_VM_CALLFRAME_CAPACITY
          then modify (fun s => set_call_frames (mk_frame return_ip base (locals_count s) :: call_frames s) s)
          else undef
        else throw AIVM_VM_ERR_FRAME_OVERFLOW (DText "Call-frame overflow.")
    end.

Definition aivm_frame_pop : M AivmCallFrame :=
  do! aivm_vm_validate_call_local_state "frame-pop" in
  let! s := get in
  match call_frames s with
  | [] => throw AIVM_VM_ERR_FRAME_UNDERFLOW (DText "Call-frame underflow.")
  | frame :: rest =>
      do! modify (set_call_frames rest) in
      do! aivm_vm_validate_frame_record frame "frame-pop" in
      ret frame
  end.

(** ** Locals *)

(** The base of the active frame. *)
Definition active_locals_base (s : AivmVm) : Z :=
  match call_frames s with [] => 0 | frame :: _ => locals_base frame end.

(** The storage is zeroed when it is allocated ([VVoid]); [locals] holds the
    slots written at least once and everything below them. *)
Definition local_read (l : list AivmValue) (i : Z) : AivmValue :=
  match zget l i with Some v => v | None => VVoid end.

Definition local_write (l : list AivmValue) (i : Z) (v : AivmValue) : list AivmValue :=
  if i <? zlen l then zset l i v
  else l ++ replicate (Z.to_nat (i - zlen l)) VVoid ++ [v].

Definition aivm_local_set (index : Z) (v : AivmValue) : M unit :=
  do! aivm_vm_validate_call_local_state "local-set" in
  let! s := get in
  let base := active_locals_base s in
  if (AIVM_VM_LOCALS_CAPACITY <=? base) || (AIVM_VM_LOCALS_CAPACITY - base <=? index)
  then local_out_of_range "store" index base
  else
    match aivm_size_add_checked base index with
    | None => local_out_of_range "store" index base
    | Some absolute_index =>
        match aivm_size_add_checked absolute_index 1 with
        | None => local_out_of_range "store" index base
        | Some needed =>
            let! ok := ensure_locals_capacity needed in
            if negb ok then local_out_of_range "store" index base
            else if AIVM_VM_LOCALS_CAPACITY <=? absolute_index then undef
            else
              do! modify (fun s => set_locals (local_write (locals s) absolute_index v) s) in
              modify (fun s => if locals_count s <=? absolute_index
                               then set_locals_count needed s else s)
        end
    end.

(** [aivm_local_get]: a failed read sets no error. *)
Definition aivm_local_get (index : Z) : M AivmValue :=
  let! s := get in
  if negb (limits_respected s) then fail
  else
    let base := active_locals_base s in
    let frame_bad :=
      match call_frames s with
      | [] => false
      | frame :: _ => (stack_count s <? frame_base frame) || (locals_count s <? base)
      end in
    if frame_bad then fail
    else if (AIVM_VM_LOCALS_CAPACITY <=? base) || (AIVM_VM_LOCALS_CAPACITY - base <=? index) then fail
    else
      match aivm_size_add_checked base index with
      | None => fail
      | Some absolute_index =>
          if locals_count s <=? absolute_index then fail
          else if AIVM_VM_LOCALS_CAPACITY <=? absolute_index then undef
          else ret (local_read (locals s) absolute_index)
      end.

(** ** History: fixed-size shift registers, newest first *)

Definition aivm_vm_record_recent_call (ip target args count : Z) : M unit :=
  modify (fun s => set_recent_calls (take 4 (mk_call_entry ip target args count :: recent_calls s)) s).

Definition aivm_vm_record_recent_return (ip count pre base : Z) (has_value : bool) : M unit :=
  modify (fun s => set_recent_returns
    (take 4 (mk_return_entry ip count pre base has_value :: recent_returns s)) s).

Definition aivm_vm_record_recent_opcode (ip : Z) (op : AivmOpcode) (count : Z) : M unit :=
  modify (fun s => set_recent_opcodes (take 24 (mk_opcode_entry ip op count :: recent_opcodes s)) s).

(** ** Invariant *)

(** Frames from the newest to the oldest: bases never decrease towards the top. *)
Fixpoint frames_ordered (fs : list AivmCallFrame) : Prop :=
  match fs with
  | [] => True
  | f :: rest =>
      0 <= frame_base f /\ 0 <= locals_base f /\
      match rest with
      | [] => True
      | g :: _ => frame_base g <= frame_base f /\ locals_base g <= locals_base f
      end /\ frames_ordered rest
  end.

Record stack_inv (s : AivmVm) : Prop := {
  si_stack : stack_count s <= stack_limit s <= AIVM_VM_STACK_CAPACITY;
  si_frames : call_frame_count s <= call_frame_limit s <= AIVM_VM_CALLFRAME_CAPACITY;
  si_locals : 0 <= locals_count s <= locals_limit s /\ locals_limit s <= AIVM_VM_LOCALS_CAPACITY;
  si_storage : zlen (locals s) <= AIVM_VM_LOCALS_CAPACITY;
  si_ordered : frames_ordered (call_frames s);
  si_base : active_locals_base s <= locals_count s }.

(** The part of the state the stack component works on. *)
Definition stack_view (s : AivmVm) :=
  (stack s, stack_limit s, call_frames s, call_frame_limit s, locals s, locals_count s, locals_limit s).

Lemma stack_inv_view s s' : stack_view s' = stack_view s -> stack_inv s -> stack_inv s'.
Proof.
  unfold stack_view. intros E [].
  injection E as E1 E2 E3 E4 E5 E6 E7.
  split; unfold stack_count, call_frame_count, active_locals_base in *; rewrite ?E1, ?E2, ?E3, ?E4, ?E5, ?E6, ?E7; done.
Qed.

Lemma stack_grow_limit_spec current step max_value :
  0 < step -> current < max_value -> max_value <= SIZE_MAX ->
  stack_grow_limit current step max_value = Z.min (current + step) max_value.
Proof.
  intros. unfold stack_grow_limit, aivm_size_add_checked. bdestruct_all; lia.
Qed.

Lemma grow_loop_spec fuel : forall needed limit step max_value,
  0 < step -> max_value <= SIZE_MAX -> limit <= max_value -> max_value <= limit + step * Z.of_nat fuel ->
  limit <= grow_loop fuel needed limit step max_value <= max_value /\
  (grow_loop fuel needed limit step max_value < needed -> grow_loop fuel needed limit step max_value = max_value).
Proof.
  induction fuel as [|fuel IH]; intros needed limit step max_value Hs Hm Hl Hf; cbn [grow_loop]; [lia|].
  destruct (Z.ltb_spec limit needed), (Z.ltb_spec limit max_value); cbn [andb]; try lia.
  rewrite stack_grow_limit_spec by lia.
  destruct (IH needed (Z.min (limit + step) max_value) step max_value) as [H1 H2]; [lia|lia|lia|nia|].
  split; [lia|done].
Qed.

Lemma grown_limit_spec needed limit step max_value :
  0 < step -> max_value <= SIZE_MAX -> 0 <= limit <= max_value ->
  let l := grown_limit needed limit step max_value in
  limit <= l <= max_value /\ (needed <=? l) = ((needed <=? limit) || (needed <=? max_value)).
Proof.
  intros Hs Hm Hl l. destruct (grow_loop_spec (grow_fuel step max_value) needed limit step max_value) as [H1 H2]; try done; try lia.
  { unfold grow_fuel. rewrite Nat2Z.inj_succ, Z2Nat.id by (apply Z.div_pos; lia).
    pose proof (Z.mul_succ_div_gt max_value step Hs). lia. }
  fold (grown_limit needed limit step max_value) in H1, H2. fold l in H1, H2. split; [done|].
  destruct (Z.leb_spec needed l), (Z.leb_spec needed limit), (Z.leb_spec needed max_value); cbn [orb]; done || lia.
Qed.

(** [aivm_stack_push] succeeds exactly below the fixed capacity. *)
Lemma push_run v s :
  stack_inv s ->
  exists limit, stack_limit s <= limit <= AIVM_VM_STACK_CAPACITY /\
    (stack_count s < AIVM_VM_STACK_CAPACITY -> stack_count s < limit) /\
    aivm_stack_push v s =
      if stack_count s <? AIVM_VM_STACK_CAPACITY
      then Ok tt (set_stack (v :: stack s) (set_stack_limit limit s))
      else Err (aivm_set_vm_error AIVM_VM_ERR_STACK_OVERFLOW (DText "Stack overflow.") (set_stack_limit limit s)).
Proof.
  intros []. pose proof (zlen_nonneg (stack s)). unfold stack_count in *.
  destruct (grown_limit_spec (zlen (stack s) + 1) (stack_limit s) AIVM_VM_STACK_GROWTH_STEP AIVM_VM_STACK_CAPACITY)
    as [Hl Hb]; [done|done|lia|].
  exists (grown_limit (zlen (stack s) + 1) (stack_limit s) AIVM_VM_STACK_GROWTH_STEP AIVM_VM_STACK_CAPACITY).
  split; [done|]. split.
  { intros. destruct (Z.leb_spec (zlen (stack s) + 1) (grown_limit (zlen (stack s) + 1) (stack_limit s)
      AIVM_VM_STACK_GROWTH_STEP AIVM_VM_STACK_CAPACITY)); lia. }
  unfold aivm_stack_push, ensure_stack_capacity, bind, get, modify, ret, throw, stack_count.
  rewrite (proj2 (size_add_checked_Some _ _ _)) by (split; [|reflexivity]; unfold SIZE_MAX, AIVM_VM_STACK_CAPACITY in *; lia).
  cbv beta iota. rewrite Hb.
  destruct (Z.ltb_spec (zlen (stack s)) AIVM_VM_STACK_CAPACITY).
  - replace (_ || _) with true by lia. destruct (Z.leb_spec (zlen (stack s) + 1) AIVM_VM_STACK_CAPACITY); [done|lia].
  - replace (_ || _) with false by lia. done.
Qed.

(** The active frame starts within the stack: what a callee that pops its
    caller's values breaks, and what every validation checks. *)
Definition frame_on_stack (s : AivmVm) : bool :=
  match call_frames s with [] => true | f :: _ => frame_base f <=? stack_count s end.

Lemma limits_respected_inv s : stack_inv s -> limits_respected s = true.
Proof. intros []. unfold limits_respected. lia. Qed.

Lemma validate_run op s :
  stack_inv s ->
  (frame_on_stack s = true -> aivm_vm_validate_call_local_state op s = Ok tt s) /\
  (frame_on_stack s = false -> exists d,
     aivm_vm_validate_call_local_state op s = Err (aivm_set_vm_error AIVM_VM_ERR_INVALID_PROGRAM d s)).
Proof.
  intros Hinv. pose proof (limits_respected_inv s Hinv) as Hl. destruct Hinv.
  unfold aivm_vm_validate_call_local_state, frame_on_stack, active_locals_base, bind, get, ret, throw in *.
  rewrite Hl. cbn [negb]. destruct (call_frames s) as [|f rest]; [done|].
  split; intros Hf.
  - replace (_ || _) with false by lia. done.
  - replace (_ || _) with true by lia. by eexists.
Qed.

Lemma frames_ordered_push s ip base :
  stack_inv s -> 0 <= base ->
  match call_frames s with [] => True | f :: _ => frame_base f <= base end ->
  frames_ordered (mk_frame ip base (locals_count s) :: call_frames s).
Proof.
  intros [] Hb Hf. cbn. unfold active_locals_base in *. destruct (call_frames s); cbn in *; intuition lia.
Qed.

(** [aivm_frame_push] on a state whose active frame is sound. *)
Lemma frame_push_run ip base s :
  stack_inv s -> frame_on_stack s = true -> base <= stack_count s ->
  exists limit, call_frame_limit s <= limit <= AIVM_VM_CALLFRAME_CAPACITY /\
    (call_frame_count s < AIVM_VM_CALLFRAME_CAPACITY -> call_frame_count s < limit) /\
    aivm_frame_push ip base s =
      if call_frame_count s <? AIVM_VM_CALLFRAME_CAPACITY
      then Ok tt (set_call_frames (mk_frame ip base (locals_count s) :: call_frames s) (set_call_frame_limit limit s))
      else Err (aivm_set_vm_error AIVM_VM_ERR_FRAME_OVERFLOW (DText "Call-frame overflow.") (set_call_frame_limit limit s)).
Proof.
  intros Hinv Hfr Hb. destruct (validate_run "frame-push" s Hinv) as [Hv _]. specialize (Hv Hfr).
  destruct Hinv. pose proof (zlen_nonneg (call_frames s)). unfold call_frame_count in *.
  destruct (grown_limit_spec (zlen (call_frames s) + 1) (call_frame_limit s) AIVM_VM_CALLFRAME_GROWTH_STEP AIVM_VM_CALLFRAME_CAPACITY)
    as [Hl Hc]; [done|done|lia|].
  exists (grown_limit (zlen (call_frames s) + 1) (call_frame_limit s) AIVM_VM_CALLFRAME_GROWTH_STEP AIVM_VM_CALLFRAME_CAPACITY).
  split; [done|]. split.
  { intros. destruct (Z.leb_spec (zlen (call_frames s) + 1) (grown_limit (zlen (call_frames s) + 1) (call_frame_limit s)
      AIVM_VM_CALLFRAME_GROWTH_STEP AIVM_VM_CALLFRAME_CAPACITY)); lia. }
  unfold aivm_frame_push, bind. rewrite Hv. unfold get.
  destruct (Z.ltb_spec (stack_count s) base); [lia|].
  unfold call_frame_count.
  rewrite (proj2 (size_add_checked_Some _ _ _)) by (split; [|reflexivity]; unfold SIZE_MAX, AIVM_VM_CALLFRAME_CAPACITY in *; lia).
  unfold ensure_call_frame_capacity, bind, get, modify, ret, throw. cbv beta iota. rewrite Hc.
  destruct (Z.ltb_spec (zlen (call_frames s)) AIVM_VM_CALLFRAME_CAPACITY).
  - replace (_ || _) with true by lia. destruct (Z.leb_spec (zlen (call_frames s) + 1) AIVM_VM_CALLFRAME_CAPACITY); [done|lia].
  - replace (_ || _) with false by lia. done.
Qed.

Lemma frame_pop_run s f rest :
  stack_inv s -> call_frames s = f :: rest -> frame_base f <= stack_count s ->
  aivm_frame_pop s = Ok f (set_call_frames rest s).
Proof.
  intros Hinv Hf Hb. assert (Hfr : frame_on_stack s = true) by (unfold frame_on_stack; rewrite Hf; lia).
  destruct (validate_run "frame-pop" s Hinv) as [Hv _]. unfold aivm_frame_pop, bind. rewrite Hv by done.
  unfold get. rewrite Hf. unfold modify, aivm_vm_validate_frame_record, bind, get, ret.
  destruct Hinv. unfold active_locals_base in *. rewrite Hf in *.
  change (stack_count (set_call_frames rest s)) with (stack_count s).
  change (locals_count (set_call_frames rest s)) with (locals_count s).
  replace (_ || _) with false by lia. done.
Qed.

Lemma local_set_run index v s :
  stack_inv s -> frame_on_stack s = true -> 0 <= index ->
  let base := active_locals_base s in
  exists limit, locals_limit s <= limit <= AIVM_VM_LOCALS_CAPACITY /\
    if base + index <? AIVM_VM_LOCALS_CAPACITY
    then base + index < limit /\ aivm_local_set index v s =
      Ok tt (set_locals_count (Z.max (locals_count s) (base + index + 1))
        (set_locals (local_write (locals s) (base + index) v) (set_locals_limit limit s)))
    else exists d, aivm_local_set index v s = Err (aivm_set_vm_error AIVM_VM_ERR_LOCAL_OUT_OF_RANGE d s).
Proof.
  intros Hinv Hfr Hi base. destruct (validate_run "local-set" s Hinv) as [Hv _]. specialize (Hv Hfr).
  assert (Hbase : 0 <= base).
  { destruct Hinv. unfold base, active_locals_base. destruct (call_frames s); [lia|]. cbn in si_ordered0. lia. }
  destruct Hinv. unfold aivm_local_set, bind. rewrite Hv. unfold get. fold base.
  destruct (Z.ltb_spec (base + index) AIVM_VM_LOCALS_CAPACITY) as [Hc|Hc].
  2: { replace (_ || _) with true by lia. exists (locals_limit s). split; [lia|]. by eexists. }
  replace ((AIVM_VM_LOCALS_CAPACITY <=? base) || (AIVM_VM_LOCALS_CAPACITY - base <=? index)) with false by lia.
  assert (AIVM_VM_LOCALS_CAPACITY + 10 <= SIZE_MAX) by done.
  rewrite (proj2 (size_add_checked_Some base index _)) by (split; [lia|reflexivity]).
  rewrite (proj2 (size_add_checked_Some (base + index) 1 _)) by (split; [lia|reflexivity]).
  unfold ensure_locals_capacity, bind, get, modify, ret. cbv beta iota.
  destruct (grown_limit_spec (base + index + 1) (locals_limit s) AIVM_VM_LOCALS_GROWTH_STEP AIVM_VM_LOCALS_CAPACITY)
    as [Hl Hb]; [done|done|lia|].
  set (limit := grown_limit _ _ _ _) in *. exists limit. split; [done|].
  rewrite Hb. replace (_ || _) with true by lia. cbn [negb].
  destruct (Z.leb_spec AIVM_VM_LOCALS_CAPACITY (base + index)); [lia|].
  assert (base + index + 1 <= limit) by (destruct (Z.leb_spec (base + index + 1) limit); [done|lia]).
  split; [lia|]. cbn [locals_count set_locals set_locals_limit].
  destruct (Z.leb_spec (locals_count s) (base + index)).
  - by rewrite Z.max_r by lia.
  - rewrite Z.max_l by lia. by destruct s.
Qed.

Lemma local_get_run index s :
  stack_inv s -> frame_on_stack s = true -> 0 <= index ->
  aivm_local_get index s =
    if active_locals_base s + index <? locals_count s
    then Ok (local_read (locals s) (active_locals_base s + index)) s else Err s.
Proof.
  intros Hinv Hfr Hi. pose proof (limits_respected_inv s Hinv) as Hl.
  assert (Hbase : 0 <= active_locals_base s).
  { destruct Hinv. unfold active_locals_base. destruct (call_frames s); [lia|]. cbn in si_ordered0. lia. }
  destruct Hinv. unfold aivm_local_get, bind, get, ret, fail. rewrite Hl. cbn [negb].
  assert ((match call_frames s with
      | [] => false
      | frame :: _ => (stack_count s <? frame_base frame) || (locals_count s <? active_locals_base s)
      end) = false) as ->.
  { unfold frame_on_stack in Hfr. destruct (call_frames s); [done|]. lia. }
  assert (AIVM_VM_LOCALS_CAPACITY + 10 <= SIZE_MAX) by done.
  destruct (Z.ltb_spec (active_locals_base s + index) (locals_count s)).
  - replace (_ || _) with false by lia.
    rewrite (proj2 (size_add_checked_Some _ index _)) by (split; [lia|reflexivity]).
    destruct (Z.leb_spec (locals_count s) (active_locals_base s + index)); [lia|].
    destruct (Z.leb_spec AIVM_VM_LOCALS_CAPACITY (active_locals_base s + index)); [lia|done].
  - destruct ((AIVM_VM_LOCALS_CAPACITY <=? active_locals_base s) ||
      (AIVM_VM_LOCALS_CAPACITY - active_locals_base s <=? index)) eqn:E; [done|].
    rewrite (proj2 (size_add_checked_Some _ index _)) by (split; [lia|reflexivity]).
    destruct (Z.leb_spec (locals_count s) (active_locals_base s + index)); [done|lia].
Qed.

Lemma zlen_local_write l i v : 0 <= i -> zlen (local_write l i v) = Z.max (zlen l) (i + 1).
Proof.
  intros Hi. unfold local_write. destruct (Z.ltb_spec i (zlen l)).
  - rewrite zlen_zset. lia.
  - rewrite !zlen_app. change (zlen [v]) with 1. unfold zlen at 2. rewrite length_replicate. unfold zlen in *. lia.
Qed.

Lemma local_read_write_eq l i v : 0 <= i -> local_read (local_write l i v) i = v.
Proof.
  intros Hi. unfold local_read, local_write. destruct (Z.ltb_spec i (zlen l)).
  - by rewrite zget_zset_eq by lia.
  - rewrite zget_lookup by lia. unfold zlen in *. rewrite lookup_app_r by lia.
    rewrite lookup_app_r by (rewrite length_replicate; lia).
    rewrite length_replicate. replace (_ - _ - _)%nat with 0%nat by lia. done.
Qed.

Lemma local_read_write_ne l i j v : 0 <= i -> 0 <= j -> i <> j ->
  local_read (local_write l i v) j = local_read l j.
Proof.
  intros Hi Hj Hne. unfold local_read, local_write. destruct (Z.ltb_spec i (zlen l)).
  - by rewrite zget_zset_ne by lia.
  - rewrite !zget_lookup by lia. unfold zlen in *. destruct (decide (Z.to_nat j < length l)%nat).
    + by rewrite lookup_app_l by lia.
    + rewrite lookup_app_r, (lookup_ge_None_2 l) by lia.
      destruct (decide (Z.to_nat j - length l < Z.to_nat (i - Z.of_nat (length l)))%nat).
      * rewrite lookup_app_l by (rewrite length_replicate; lia). rewrite lookup_replicate_2 by lia. done.
      * rewrite lookup_app_r by (rewrite length_replicate; lia). rewrite length_replicate.
        destruct (_ - _ - _)%nat eqn:E; [lia|]. done.
Qed.

(** ** Preservation *)

(** [m] keeps the stack invariant and never does anything undefined. *)
Definition keeps {A} (m : M A) : Prop := forall s, stack_inv s ->
  match m s with Ok _ s' | Err s' => stack_inv s' | Undef => False end.

Lemma keeps_bind {A B} (m : M A) (f : A -> M B) : keeps m -> (forall a, keeps (f a)) -> keeps (bind m f).
Proof.
  intros Hm Hf s Hs. unfold bind. specialize (Hm s Hs). destruct (m s); [by apply Hf|done|done].
Qed.

Lemma keeps_ret {A} (a : A) : keeps (ret a).
Proof. by intros s Hs. Qed.

Lemma keeps_get : keeps get.
Proof. by intros s Hs. Qed.

Lemma keeps_fail {A} : keeps (@fail A).
Proof. by intros s Hs. Qed.

Lemma stack_inv_error e d s : stack_inv s -> stack_inv (aivm_set_vm_error e d s).
Proof. intros H. exact (stack_inv_view s (aivm_set_vm_error e d s) eq_refl H). Qed.

Lemma keeps_throw {A} e d : keeps (@throw A e d).
Proof. intros s Hs. by apply stack_inv_error. Qed.

(** Updates outside the stack component. *)
Lemma keeps_modify f : (forall s, stack_view (f s) = stack_view s) -> keeps (modify f).
Proof. intros Hf s Hs. exact (stack_inv_view s (f s) (Hf s) Hs). Qed.

Lemma stack_inv_stack_limit s l st :
  stack_inv s -> zlen st <= l <= AIVM_VM_STACK_CAPACITY -> stack_inv (set_stack st (set_stack_limit l s)).
Proof. intros [] Hl. by split. Qed.

Lemma stack_inv_pop s v rest : stack_inv s -> stack s = v :: rest -> stack_inv (set_stack rest s).
Proof.
  intros [] E. split; try done. unfold stack_count in *. cbn. rewrite E, zlen_cons in *. lia.
Qed.

Lemma keeps_push v : keeps (aivm_stack_push v).
Proof.
  intros s Hs. destruct (push_run v s Hs) as (limit & Hl & Hlt & ->). pose proof (si_stack s Hs).
  destruct (Z.ltb_spec (stack_count s) AIVM_VM_STACK_CAPACITY).
  - apply stack_inv_stack_limit; [done|]. unfold stack_count in *. rewrite zlen_cons. lia.
  - apply stack_inv_error. exact (stack_inv_stack_limit s limit (stack s) Hs ltac:(unfold stack_count in *; lia)).
Qed.

Lemma keeps_pop : keeps aivm_stack_pop.
Proof.
  intros s Hs. unfold aivm_stack_pop, bind, get, modify, ret.
  destruct (stack s) as [|v rest] eqn:E; [by apply stack_inv_error|by eapply stack_inv_pop].
Qed.

Lemma keeps_validate op : keeps (aivm_vm_validate_call_local_state op).
Proof.
  intros s Hs. destruct (validate_run op s Hs) as [H1 H2]. destruct (frame_on_stack s).
  - by rewrite H1.
  - destruct (H2 eq_refl) as [d ->]. by apply stack_inv_error.
Qed.

Lemma keeps_local_set index v : 0 <= index -> keeps (aivm_local_set index v).
Proof.
  intros Hi s Hs. destruct (frame_on_stack s) eqn:Hf.
  2: { unfold aivm_local_set, bind. destruct (validate_run "local-set" s Hs) as [_ H2].
       destruct (H2 Hf) as [d ->]. by apply stack_inv_error. }
  destruct (local_set_run index v s Hs Hf Hi) as (limit & Hl & Hr).
  destruct (Z.ltb_spec (active_locals_base s + index) AIVM_VM_LOCALS_CAPACITY) as [Hc|Hc].
  2: { destruct Hr as [d ->]. by apply stack_inv_error. }
  assert (Hb : 0 <= active_locals_base s).
  { destruct Hs. unfold active_locals_base. destruct (call_frames s); [lia|]. cbn in si_ordered0. lia. }
  destruct Hr as [Hlt ->]. destruct Hs. split; try done; cbn.
  - lia.
  - rewrite zlen_local_write by lia. lia.
  - change (active_locals_base s <= Z.max (locals_count s) (active_locals_base s + index + 1)). lia.
Qed.

Lemma keeps_local_get index : 0 <= index -> keeps (aivm_local_get index).
Proof.
  intros Hi s Hs. destruct (frame_on_stack s) eqn:Hf.
  - rewrite local_get_run by done. by destruct (_ <? _).
  - unfold aivm_local_get, bind, get, fail, ret. rewrite limits_respected_inv by done. cbn [negb].
    unfold frame_on_stack in Hf. destruct (call_frames s) as [|f rest] eqn:E; [done|].
    replace (_ || _) with true by lia. done.
Qed.

(** ** Laws *)

(** Under the stack invariant, a push succeeds exactly while the
    stack holds fewer than 20000 values; a pop then returns the pushed value and
    the state before the push, up to the grown logical limit.  A failed push
    leaves the stack as it was and reports a stack overflow. *)
Theorem push_pop v s :
  stack_inv s ->
  if stack_count s <? AIVM_VM_STACK_CAPACITY
  then exists s1 limit, aivm_stack_push v s = Ok tt s1 /\ stack_inv s1 /\
         stack_limit s <= limit <= AIVM_VM_STACK_CAPACITY /\
         aivm_stack_pop s1 = Ok v (set_stack_limit limit s)
  else exists s1, aivm_stack_push v s = Err s1 /\ stack_inv s1 /\ stack s1 = stack s /\
         status s1 = AIVM_VM_STATUS_ERROR /\ error s1 = AIVM_VM_ERR_STACK_OVERFLOW.
Proof.
  intros Hs. pose proof (keeps_push v s Hs) as Hk. destruct (push_run v s Hs) as (limit & Hl & _ & Hp).
  destruct (Z.ltb_spec (stack_count s) AIVM_VM_STACK_CAPACITY); rewrite Hp in *.
  - eexists _, limit. split; [done|]. split; [done|]. split; [done|]. by destruct s.
  - by eexists.
Qed.

Lemma example_vm_inv : stack_inv example_vm.
Proof. split; done. Qed.

Lemma push_pop_witness :
  stack_inv example_vm /\
  exists s1 limit, aivm_stack_push (VInt 7) example_vm = Ok tt s1 /\ stack_inv s1 /\
    stack_limit example_vm <= limit <= AIVM_VM_STACK_CAPACITY /\
    aivm_stack_pop s1 = Ok (VInt 7) (set_stack_limit limit example_vm).
Proof.
  split; [exact example_vm_inv|]. exact (push_pop (VInt 7) example_vm example_vm_inv).
Defined.

(** With a sound active frame, entering a function saves the return
    address, the argument base and the locals base, and leaving it gives the
    frame and the state before back (up to the grown limit); entering fails,
    with a call-frame overflow, exactly when 2048 frames are active. *)
Theorem frame_push_pop ip base s :
  stack_inv s -> frame_on_stack s = true -> 0 <= base <= stack_count s ->
  match call_frames s with [] => True | f :: _ => frame_base f <= base end ->
  if call_frame_count s <? AIVM_VM_CALLFRAME_CAPACITY
  then exists s1 limit, aivm_frame_push ip base s = Ok tt s1 /\ stack_inv s1 /\
         call_frame_limit s <= limit <= AIVM_VM_CALLFRAME_CAPACITY /\
         aivm_frame_pop s1 = Ok (mk_frame ip base (locals_count s)) (set_call_frame_limit limit s)
  else exists s1, aivm_frame_push ip base s = Err s1 /\ error s1 = AIVM_VM_ERR_FRAME_OVERFLOW /\
         call_frames s1 = call_frames s.
Proof.
  intros Hs Hf Hb Ho. destruct (frame_push_run ip base s Hs Hf (proj2 Hb)) as (limit & Hl & Hlt & Hp).
  destruct (Z.ltb_spec (call_frame_count s) AIVM_VM_CALLFRAME_CAPACITY); rewrite Hp; [|by eexists].
  eexists _, limit. split; [done|].
  assert (Hs1 : stack_inv (set_call_frames (mk_frame ip base (locals_count s) :: call_frames s)
      (set_call_frame_limit limit s))).
  { pose proof (frames_ordered_push s ip base Hs ltac:(lia) Ho) as Hord. destruct Hs.
    split; try done. unfold call_frame_count in *. cbn. rewrite zlen_cons. lia. }
  split; [done|]. split; [done|].
  rewrite (frame_pop_run _ _ _ Hs1 eq_refl) by (cbn; apply Hb). by destruct s.
Qed.

Lemma frame_push_pop_witness :
  exists s1 limit, aivm_frame_push 12 0 example_vm = Ok tt s1 /\ stack_inv s1 /\
    call_frame_limit example_vm <= limit <= AIVM_VM_CALLFRAME_CAPACITY /\
    aivm_frame_pop s1 = Ok (mk_frame 12 0 0) (set_call_frame_limit limit example_vm).
Proof.
  assert (Hb : 0 <= 0 <= stack_count example_vm) by (split; discriminate).
  exact (frame_push_pop 12 0 example_vm example_vm_inv eq_refl Hb I).
Defined.

(** A local of the active frame reads back as stored; the other
    locals of the frame keep their values, and so do the slots of every outer
    frame; a store fails exactly when the slot lies outside the 16384 slots. *)
Theorem local_set_get index v s :
  stack_inv s -> frame_on_stack s = true -> 0 <= index ->
  let base := active_locals_base s in
  if base + index <? AIVM_VM_LOCALS_CAPACITY
  then exists s1, aivm_local_set index v s = Ok tt s1 /\ stack_inv s1 /\
         aivm_local_get index s1 = Ok v s1 /\
         (forall j w, 0 <= j -> j <> index -> aivm_local_get j s = Ok w s -> aivm_local_get j s1 = Ok w s1) /\
         (forall k, 0 <= k < base -> local_read (locals s1) k = local_read (locals s) k)
  else exists s1, aivm_local_set index v s = Err s1 /\ error s1 = AIVM_VM_ERR_LOCAL_OUT_OF_RANGE /\
         locals s1 = locals s /\ locals_count s1 = locals_count s.
Proof.
  intros Hs Hf Hi base. pose proof (keeps_local_set index v Hi s Hs) as Hk.
  destruct (local_set_run index v s Hs Hf Hi) as (limit & Hl & Hr). fold base in Hr.
  assert (Hb : 0 <= base).
  { destruct Hs. unfold base, active_locals_base. destruct (call_frames s); [lia|]. cbn in si_ordered0. lia. }
  destruct (Z.ltb_spec (base + index) AIVM_VM_LOCALS_CAPACITY) as [Hc|Hc].
  2: { destruct Hr as [d ->]. by eexists. }
  destruct Hr as [Hlt Hr]. rewrite Hr in Hk. set (s1 := set_locals_count _ _) in *.
  exists s1. split; [done|]. split; [done|].
  assert (Hf1 : frame_on_stack s1 = true) by done.
  assert (Hb1 : active_locals_base s1 = base) by done.
  assert (Hc1 : locals_count s1 = Z.max (locals_count s) (base + index + 1)) by done.
  assert (Hl1 : locals s1 = local_write (locals s) (base + index) v) by done.
  split_and!.
  - rewrite local_get_run, Hb1, Hc1 by done. replace (_ <? _) with true by lia.
    by rewrite Hl1, local_read_write_eq by lia.
  - intros j w Hj Hne. rewrite !local_get_run, Hb1, Hc1 by done. fold base.
    destruct (Z.ltb_spec (base + j) (locals_count s)); [|done]. intros [= <-].
    replace (_ <? _) with true by lia. by rewrite Hl1, local_read_write_ne by lia.
  - intros k Hk'. by rewrite Hl1, local_read_write_ne by lia.
Qed.

Lemma local_set_get_witness :
  exists s1, aivm_local_set 3 (VInt 7) example_vm = Ok tt s1 /\ stack_inv s1 /\
    aivm_local_get 3 s1 = Ok (VInt 7) s1 /\
    (forall j w, 0 <= j -> j <> 3 -> aivm_local_get j example_vm = Ok w example_vm -> aivm_local_get j s1 = Ok w s1) /\
    (forall k, 0 <= k < 0 -> local_read (locals s1) k = local_read (locals example_vm) k).
Proof.
  assert (Hi : 0 <= 3) by discriminate.
  exact (local_set_get 3 (VInt 7) example_vm example_vm_inv eq_refl Hi).
Defined.

(** A store that skips slots makes the skipped slots readable, and they
    still hold what an earlier activation left there: here the reader of local 0,
    never written since the reset, gets an old value instead of an error. *)
Theorem local_gap_exposes_stale old :
  let s := reset_vm None AIVM_RUNTIME_PROFILE_PRODUCTION [old] 0 in
  aivm_local_get 0 s = Err s /\
  exists s1, aivm_local_set 1 VVoid s = Ok tt s1 /\ aivm_local_get 0 s1 = Ok old s1.
Proof. split; [reflexivity|]. eexists. split; [lazy; reflexivity|reflexivity]. Qed.

