(* ===== verification/Map.v ===== *)
(** * String-to-int maps (src/src/aivm_vm_map.c)

    Bulk construction of hash maps with open addressing and linear probing; a
    finished map is immutable.  The probing loop of the source has no bound: the
    model gives it the table size as fuel and returns [None] when that runs out,
    and the invariant (a free slot always exists) shows it never does. *)

From S2P Require Import Prelude Types Program Vm Lifecycle.

(** ** Operations *)

(** FNV-1a over the bytes of the key, 64 bits. *)
Definition map_hash_string (key : list Z) : Z :=
  fold_left (fun h b => u64 (Z.lxor h b * 1099511628211)) key 1469598103934665603.

(** [map_lookup]: the record of an active handle. *)
Definition map_lookup (s : AivmVm) (handle : Z) : option AivmMapRecord :=
  if (handle <=? 0) || (AIVM_VM_MAP_CAPACITY <? handle) then None
  else
    match zget (maps s) (handle - 1) with
    | Some m => if map_active m then Some m else None
    | None => None
    end.

Definition set_map (handle : Z) (m : AivmMapRecord) : M unit :=
  modify (fun s => set_maps (zset (maps s) (handle - 1) m) s).

Definition slot_matches (e : AivmMapSlot) (key : list Z) (hash : Z) : bool :=
  (slot_hash e =? hash) && bool_decide (slot_key e = key).

(** The [while] loop of [map_slot_for]. *)
Fixpoint probe (fuel : nat) (slots : list (option AivmMapSlot)) (key : list Z) (hash slot : Z)
    : option Z :=
  match fuel with
  | O => None
  | S fuel' =>
      match zget slots slot with
      | None => None
      | Some None => Some slot
      | Some (Some e) =>
          if slot_matches e key hash then Some slot
          else probe fuel' slots key hash ((slot + 1) mod zlen slots)
      end
  end.

Definition map_slot_for (slots : list (option AivmMapSlot)) (key : list Z) (hash : Z) : option Z :=
  probe (length slots) slots key hash (hash mod zlen slots).

Definition SIZEOF_SLOT : Z := 32.

(** The rehash loop of [map_resize]: every occupied slot is copied to the slot
    found for its key in the replacement table. *)
Fixpoint rehash (old replacement : list (option AivmMapSlot)) : option (list (option AivmMapSlot)) :=
  match old with
  | [] => Some replacement
  | None :: old' => rehash old' replacement
  | Some e :: old' =>
      slot ← map_slot_for replacement (slot_key e) (slot_hash e);
      rehash old' (zset replacement slot (Some e))
  end.

Section Host.

Context `{Host}.

(** [map_resize]: the record with the new table. *)
Definition map_resize (m : AivmMapRecord) (capacity : Z) : M AivmMapRecord :=
  if SIZE_MAX / SIZEOF_SLOT <? capacity then fail
  else
    let growth := capacity * SIZEOF_SLOT in
    let held := zlen (map_slots m) * SIZEOF_SLOT in
    do! (if held <? growth then aivm_vm_admit_host_memory_growth (growth - held) else ret tt) in
    let! ok := alloc growth in
    if negb ok then throw AIVM_VM_ERR_MEMORY_PRESSURE (DText "MAP_BUILDER growth failed.")
    else
      let! slots := check (rehash (map_slots m) (replicate (Z.to_nat capacity) None)) in
      ret (mk_map (map_active m) (map_frozen m) slots (map_count m)).

(** The index of the first inactive record. *)
Definition first_inactive (ms : list AivmMapRecord) : option Z :=
  match list_find (fun m => map_active m = false) ms with
  | Some (i, _) => Some (Z.of_nat i)
  | None => None
  end.

Definition aivm_vm_map_builder_new : M Z :=
  let! s := get in
  match first_inactive (maps s) with
  | None => throw AIVM_VM_ERR_MEMORY_PRESSURE (DText "MAP_BUILDER capacity exceeded.")
  | Some index =>
      let! m := check (zget (maps s) index) in
      (* a failed resize disposes of the record again *)
      let! m' := or_else
        (map_resize (mk_map true (map_frozen m) (map_slots m) (map_count m)) 16)
        (do! set_map (index + 1) empty_map in fail) in
      do! set_map (index + 1) m' in
      ret (index + 1)
  end.

(** [aivm_vm_map_builder_put_string_int]; [None] is a NULL key. *)
Definition aivm_vm_map_builder_put_string_int (handle : Z) (key : option (list Z)) (value : Z) : M unit :=
  let! s := get in
  match map_lookup s handle, key with
  | Some m, Some key =>
      if map_frozen m
      then throw AIVM_VM_ERR_TYPE_MISMATCH
             (DText "MAP_BUILDER_PUT requires an active builder and string key.")
      else
        let! m1 :=
          if zlen (map_slots m) * 7 <=? (map_count m + 1) * 10
          then let! grown := map_resize m (zlen (map_slots m) * 2) in
               do! set_map handle grown in ret grown
          else ret m in
        let hash := map_hash_string key in
        let! slot := check (map_slot_for (map_slots m1) key hash) in
        let! old := check (zget (map_slots m1) slot) in
        match old with
        | Some e =>
            set_map handle (mk_map (map_active m1) (map_frozen m1)
              (zset (map_slots m1) slot (Some (mk_slot (slot_hash e) (slot_key e) value))) (map_count m1))
        | None =>
            let! ok := alloc (zlen key + 1) in
            if negb ok
            then throw AIVM_VM_ERR_MEMORY_PRESSURE (DText "MAP_BUILDER key allocation failed.")
            else
              set_map handle (mk_map (map_active m1) (map_frozen m1)
                (zset (map_slots m1) slot (Some (mk_slot hash key value))) (map_count m1 + 1))
        end
  | _, _ =>
      throw AIVM_VM_ERR_TYPE_MISMATCH (DText "MAP_BUILDER_PUT requires an active builder and string key.")
  end.

End Host.

Definition aivm_vm_map_builder_finish (handle : Z) : M unit :=
  let! s := get in
  match map_lookup s handle with
  | Some m =>
      if map_frozen m
      then throw AIVM_VM_ERR_TYPE_MISMATCH (DText "MAP_BUILDER_FINISH requires an active builder.")
      else set_map handle (mk_map (map_active m) true (map_slots m) (map_count m))
  | None => throw AIVM_VM_ERR_TYPE_MISMATCH (DText "MAP_BUILDER_FINISH requires an active builder.")
  end.

Definition aivm_vm_map_count (handle : Z) : M Z :=
  let! s := get in
  match map_lookup s handle with
  | Some m => if map_frozen m then ret (map_count m) else fail
  | None => fail
  end.

(** [aivm_vm_map_get_string_int]: the value (or the fallback) and whether the
    key was found. *)
Definition aivm_vm_map_get_string_int (handle : Z) (key : option (list Z)) (fallback : Z) : M (Z * bool) :=
  let! s := get in
  match map_lookup s handle, key with
  | Some m, Some key =>
      if negb (map_frozen m) then fail
      else
        let! slot := check (map_slot_for (map_slots m) key (map_hash_string key)) in
        let! e := check (zget (map_slots m) slot) in
        match e with
        | None => ret (fallback, false)
        | Some e => ret (slot_value e, true)
        end
  | _, _ => fail
  end.

(** [aivm_vm_reset_maps] *)
Definition aivm_vm_reset_maps : M unit :=
  modify (fun s => set_maps (map (fun _ => empty_map) (maps s)) s).

(** ** The abstract map of a table *)

Definition entries (slots : list (option AivmMapSlot)) : list AivmMapSlot := omap (fun o => o) slots.

Definition slots_map (slots : list (option AivmMapSlot)) : gmap (list Z) Z :=
  list_to_map (map (fun e => (slot_key e, slot_value e)) (entries slots)).

(** The slot [d] steps from the home of a key. *)
Definition at_step (cap home : Z) (d : Z) : Z := (home + d) mod cap.

Record table_ok (slots : list (option AivmMapSlot)) : Prop := {
  tok_hash : forall i e, zget slots i = Some (Some e) -> slot_hash e = map_hash_string (slot_key e);
  tok_unique : NoDup (map slot_key (entries slots));
  (* nothing is free between the home of a key and its slot *)
  tok_path : forall i e, zget slots i = Some (Some e) ->
    exists d, 0 <= d < zlen slots /\
      i = at_step (zlen slots) (slot_hash e mod zlen slots) d /\
      forall d', 0 <= d' < d ->
        zget slots (at_step (zlen slots) (slot_hash e mod zlen slots) d') <> Some None }.

(** An active record: a sound table with a free slot. *)
Record map_ok (m : AivmMapRecord) : Prop := {
  mok_table : table_ok (map_slots m);
  mok_count : map_count m = zlen (entries (map_slots m));
  mok_load : map_count m * 10 < zlen (map_slots m) * 7;
  mok_cap : 16 <= zlen (map_slots m) }.

(** ** Tables *)

Lemma entries_app a b : entries (a ++ b) = entries a ++ entries b.
Proof. apply omap_app. Qed.

Lemma entries_add slots i e : zget slots i = Some None ->
  Permutation (entries (zset slots i (Some e))) (e :: entries slots).
Proof.
  intros H. rewrite (zset_split _ _ _ _ H). destruct (zget_split _ _ _ H) as [E _].
  rewrite E at 3. rewrite !entries_app. cbn. symmetry. apply Permutation_middle.
Qed.

Lemma entries_change slots i e e' : zget slots i = Some (Some e) ->
  exists rest, Permutation (entries slots) (e :: rest) /\
    Permutation (entries (zset slots i (Some e'))) (e' :: rest).
Proof.
  intros H. exists (entries (ztake i slots) ++ entries (zdrop (i + 1) slots)).
  rewrite (zset_split _ _ _ _ H). destruct (zget_split _ _ _ H) as [E _].
  split; [rewrite E at 1|]; rewrite !entries_app; cbn; symmetry; apply Permutation_middle.
Qed.

Lemma entries_elem slots e : e ∈ entries slots <-> exists i, zget slots i = Some (Some e).
Proof.
  unfold entries. rewrite list_elem_of_omap. split.
  - intros (o & Ho & ->). apply list_elem_of_lookup in Ho as [i Hi]. exists (Z.of_nat i).
    rewrite zget_lookup by lia. by rewrite Nat2Z.id.
  - intros [i Hi]. exists (Some e). split; [|done]. pose proof (zget_Some_bounds _ _ _ Hi).
    rewrite zget_lookup in Hi by lia. by eapply list_elem_of_lookup_2.
Qed.

Lemma entries_cons o slots :
  entries (o :: slots) = match o with Some e => e :: entries slots | None => entries slots end.
Proof. by destruct o. Qed.

(** A table that is not full has a free slot. *)
Lemma free_slot slots : zlen (entries slots) < zlen slots -> exists i, zget slots i = Some None.
Proof.
  induction slots as [|[e|] slots IH]; intros H.
  - unfold zlen in H. cbn in H. lia.
  - destruct IH as [i Hi]. { rewrite entries_cons, !zlen_cons in H. lia. }
    exists (i + 1). pose proof (zget_Some_bounds _ _ _ Hi). rewrite zget_lookup in * by lia.
    replace (Z.to_nat (i + 1)) with (S (Z.to_nat i)) by lia. done.
  - by exists 0.
Qed.

Lemma at_step_range cap home d : 0 < cap -> 0 <= at_step cap home d < cap.
Proof. intros. apply Z.mod_pos_bound. lia. Qed.

Lemma at_step_succ cap home d : 0 < cap -> (at_step cap home d + 1) mod cap = at_step cap home (d + 1).
Proof. intros. unfold at_step. rewrite Zplus_mod_idemp_l. f_equal. lia. Qed.

Lemma at_step_reach cap home i : 0 < cap -> 0 <= i < cap ->
  exists d, 0 <= d < cap /\ at_step cap home d = i.
Proof.
  intros Hc Hi. exists ((i - home) mod cap). split; [apply Z.mod_pos_bound; lia|].
  unfold at_step. rewrite Zplus_mod_idemp_r. replace (home + (i - home)) with i by lia. by apply Z.mod_small.
Qed.

(** Probing stops at the first step that is free or holds the key. *)
Definition stops (slots : list (option AivmMapSlot)) (key : list Z) (hash : Z) (i : Z) : Prop :=
  zget slots i = Some None \/ exists e, zget slots i = Some (Some e) /\ slot_matches e key hash = true.

Lemma probe_spec slots key hash home : 0 < zlen slots ->
  forall n fuel d, 0 <= d ->
  stops slots key hash (at_step (zlen slots) home (d + Z.of_nat n)) -> (n < fuel)%nat ->
  exists m, d <= m <= d + Z.of_nat n /\
    probe fuel slots key hash (at_step (zlen slots) home d) = Some (at_step (zlen slots) home m) /\
    stops slots key hash (at_step (zlen slots) home m) /\
    forall d', d <= d' < m -> ~ stops slots key hash (at_step (zlen slots) home d').
Proof.
  intros Hc. induction n as [|n IH]; intros fuel d Hd Hs Hf; (destruct fuel as [|fuel]; [lia|]); cbn [probe].
  - rewrite Z.add_0_r in Hs. exists d. split; [lia|]. destruct Hs as [E|(e & E & Em)]; rewrite E.
    + split; [done|]. split; [by left|]. lia.
    + rewrite Em. split; [done|]. split; [right; eauto|]. lia.
  - destruct (zget_is_Some slots (at_step (zlen slots) home d)) as [o E]; [by apply at_step_range|]. rewrite E.
    destruct o as [e|].
    2: { exists d. split; [lia|]. split; [done|]. split; [by left|]. lia. }
    destruct (slot_matches e key hash) eqn:Em.
    { exists d. split; [lia|]. split; [done|]. split; [right; eauto|]. lia. }
    rewrite at_step_succ by done.
    destruct (IH fuel (d + 1) ltac:(lia)) as (m & Hm & Hp & Hst & Hno); [|lia|].
    { replace (d + 1 + Z.of_nat n) with (d + Z.of_nat (S n)) by lia. done. }
    exists m. split; [lia|]. split; [done|]. split; [done|].
    intros d' Hd'. destruct (Z.eq_dec d' d) as [->|]; [|apply Hno; lia].
    intros [E'|(e' & E' & Em')]; rewrite E in E'; [done|]. injection E' as <-. congruence.
Qed.

(** What [map_slot_for] finds in a table with a free slot. *)
Lemma slot_for_spec slots key hash :
  zlen (entries slots) < zlen slots ->
  exists m, 0 <= m < zlen slots /\
    let r := at_step (zlen slots) (hash mod zlen slots) m in
    map_slot_for slots key hash = Some r /\ stops slots key hash r /\
    forall d', 0 <= d' < m -> ~ stops slots key hash (at_step (zlen slots) (hash mod zlen slots) d').
Proof.
  intros Hload. pose proof (zlen_nonneg (entries slots)). assert (Hc : 0 < zlen slots) by lia.
  destruct (free_slot slots Hload) as [i Hi]. pose proof (zget_Some_bounds _ _ _ Hi) as Hib.
  destruct (at_step_reach (zlen slots) (hash mod zlen slots) i Hc Hib) as (d & Hd & Ed).
  destruct (probe_spec slots key hash (hash mod zlen slots) Hc (Z.to_nat d) (length slots) 0)
    as (m & Hm & Hp & Hst & Hno); [lia| | |].
  { rewrite Z.add_0_l, Z2Nat.id, Ed by lia. by left. }
  { unfold zlen in *. lia. }
  exists m. split; [lia|]. cbn zeta. split; [|done]. unfold map_slot_for. rewrite <- Hp. f_equal.
  unfold at_step. rewrite Z.add_0_r, Zmod_mod. done.
Qed.

Definition entry_pair (e : AivmMapSlot) : list Z * Z := (slot_key e, slot_value e).

Lemma slots_map_perm slots l :
  NoDup (map slot_key (entries slots)) -> Permutation (entries slots) l ->
  slots_map slots = list_to_map (map entry_pair l).
Proof.
  intros Hnd Hp. unfold slots_map. apply list_to_map_proper; [|by apply (fmap_Permutation entry_pair)].
  rewrite <- list_fmap_compose. exact Hnd.
Qed.

Lemma slots_map_lookup slots key v :
  NoDup (map slot_key (entries slots)) ->
  slots_map slots !! key = Some v <->
  exists i e, zget slots i = Some (Some e) /\ slot_key e = key /\ slot_value e = v.
Proof.
  intros Hnd. unfold slots_map. rewrite <- elem_of_list_to_map by (rewrite <- list_fmap_compose; exact Hnd).
  rewrite list_elem_of_fmap. split.
  - intros (e & [= -> ->] & He). apply entries_elem in He as [i Hi]. eauto.
  - intros (i & e & Hi & <- & <-). exists e. split; [done|]. apply entries_elem. eauto.
Qed.

(** The slot found for a key tells whether the map has the key, and its value. *)
Lemma slot_for_lookup slots key :
  table_ok slots -> zlen (entries slots) < zlen slots ->
  exists m, 0 <= m < zlen slots /\
    let home := map_hash_string key mod zlen slots in
    let r := at_step (zlen slots) home m in
    map_slot_for slots key (map_hash_string key) = Some r /\
    (forall d', 0 <= d' < m -> zget slots (at_step (zlen slots) home d') <> Some None) /\
    ((zget slots r = Some None /\ slots_map slots !! key = None) \/
     (exists e, zget slots r = Some (Some e) /\ slot_key e = key /\
        slots_map slots !! key = Some (slot_value e))).
Proof.
  intros [Hhash Hnd Hpath] Hload.
  destruct (slot_for_spec slots key (map_hash_string key) Hload) as (m & Hm & Hr & Hst & Hno).
  exists m. split; [done|]. cbn zeta. split; [done|]. split.
  { intros d' Hd' E. apply (Hno d' Hd'). by left. }
  set (home := map_hash_string key mod zlen slots) in *.
  destruct Hst as [E|(e & E & Em)].
  - left. split; [done|]. destruct (slots_map slots !! key) as [v|] eqn:El; [|done].
    apply slots_map_lookup in El as (i & e & Hi & Hk & _); [|done].
    destruct (Hpath i e Hi) as (d & Hd & Hid & Hocc). rewrite (Hhash i e Hi), Hk in Hid, Hocc. fold home in Hid, Hocc.
    exfalso. destruct (Z.lt_trichotomy m d) as [Hlt|[->|Hgt]].
    + apply (Hocc m ltac:(lia)). done.
    + rewrite Hid in Hi. congruence.
    + apply (Hno d ltac:(lia)). right. exists e. rewrite <- Hid. split; [done|].
      unfold slot_matches. rewrite (Hhash i e Hi), Hk, Z.eqb_refl, bool_decide_true by done. done.
  - right. exists e. split; [done|]. unfold slot_matches in Em. apply andb_true_iff in Em as [_ Em].
    apply bool_decide_eq_true in Em. split; [done|]. apply slots_map_lookup; [done|]. eauto.
Qed.

(** Storing a new key in the free slot found for it. *)
Lemma table_add slots m e :
  let home := slot_hash e mod zlen slots in
  let r := at_step (zlen slots) home m in
  table_ok slots -> slot_hash e = map_hash_string (slot_key e) -> 0 <= m < zlen slots ->
  zget slots r = Some None -> slot_key e ∉ map slot_key (entries slots) ->
  (forall d', 0 <= d' < m -> zget slots (at_step (zlen slots) home d') <> Some None) ->
  table_ok (zset slots r (Some e)) /\ zlen (zset slots r (Some e)) = zlen slots /\
  Permutation (entries (zset slots r (Some e))) (e :: entries slots).
Proof.
  intros home r [Hhash Hnd Hpath] Hhe Hm Hr Hk Hocc.
  pose proof (zget_Some_bounds _ _ _ Hr) as Hrb. pose proof (entries_add slots r e Hr) as Hperm.
  split; [|split; [apply zlen_zset|done]]. split.
  - intros i e'. destruct (Z.eq_dec i r) as [->|Hne].
    + rewrite zget_zset_eq by done. by intros [= <-].
    + rewrite zget_zset_ne by done. apply Hhash.
  - rewrite Hperm. cbn. by constructor.
  - intros i e'. rewrite zlen_zset. destruct (Z.eq_dec i r) as [->|Hne].
    + rewrite zget_zset_eq by done. intros [= <-]. exists m. split; [done|]. split; [done|].
      intros d' Hd'. destruct (Z.eq_dec r (at_step (zlen slots) (slot_hash e mod zlen slots) d')) as [<-|Hn].
      * by rewrite zget_zset_eq.
      * rewrite zget_zset_ne by done. by apply Hocc.
    + rewrite zget_zset_ne by done. intros Hi. destruct (Hpath i e' Hi) as (d & Hd & Hid & Ho).
      exists d. split; [done|]. split; [done|]. intros d' Hd'.
      destruct (Z.eq_dec r (at_step (zlen slots) (slot_hash e' mod zlen slots) d')) as [<-|Hn].
      * by rewrite zget_zset_eq.
      * rewrite zget_zset_ne by done. by apply Ho.
Qed.

(** Overwriting the value of a present key. *)
Lemma table_update slots r e v :
  table_ok slots -> zget slots r = Some (Some e) ->
  let e' := mk_slot (slot_hash e) (slot_key e) v in
  table_ok (zset slots r (Some e')) /\
  zlen (entries (zset slots r (Some e'))) = zlen (entries slots) /\
  slots_map (zset slots r (Some e')) = <[slot_key e := v]> (slots_map slots).
Proof.
  intros [Hhash Hnd Hpath] Hr e'. pose proof (zget_Some_bounds _ _ _ Hr) as Hrb.
  destruct (entries_change slots r e e' Hr) as (rest & Hp & Hp').
  assert (Hnd' : NoDup (map slot_key (entries (zset slots r (Some e'))))).
  { rewrite Hp'. rewrite Hp in Hnd. exact Hnd. }
  split; [split; [|done|]|split].
  - intros i x. destruct (Z.eq_dec i r) as [->|Hne].
    + rewrite zget_zset_eq by done. intros [= <-]. apply (Hhash r e Hr).
    + rewrite zget_zset_ne by done. apply Hhash.
  - intros i x. rewrite zlen_zset.
    assert (Hfree : forall j, zget (zset slots r (Some e')) j = Some None -> zget slots j = Some None).
    { intros j. destruct (Z.eq_dec j r) as [->|]; [by rewrite zget_zset_eq|by rewrite zget_zset_ne]. }
    destruct (Z.eq_dec i r) as [->|Hne].
    + rewrite zget_zset_eq by done. intros [= <-]. destruct (Hpath r e Hr) as (d & Hd & Hid & Ho).
      exists d. split; [done|]. split; [done|]. intros d' Hd' E. by apply (Ho d' Hd'), Hfree.
    + rewrite zget_zset_ne by done. intros Hi. destruct (Hpath i x Hi) as (d & Hd & Hid & Ho).
      exists d. split; [done|]. split; [done|]. intros d' Hd' E. by apply (Ho d' Hd'), Hfree.
  - unfold zlen. by rewrite (Permutation_length Hp), (Permutation_length Hp').
  - rewrite (slots_map_perm _ _ Hnd' Hp'), (slots_map_perm _ _ Hnd Hp). cbn. by rewrite insert_insert_eq.
Qed.

Lemma table_empty n : table_ok (replicate n None) /\ entries (replicate n None) = [].
Proof.
  assert (Hz : forall i e, zget (replicate n (@None AivmMapSlot)) i <> Some (Some e)).
  { intros i e E. pose proof (zget_Some_bounds _ _ _ E). rewrite zget_lookup in E by lia.
    apply lookup_replicate in E as [E _]. done. }
  assert (He : entries (replicate n None) = []) by (clear Hz; induction n; [done|exact IHn]).
  split; [|done]. split; [|by rewrite He; constructor|]; intros i e E; by apply Hz in E.
Qed.

(** Rehashing keeps the entries. *)
Lemma rehash_spec old : forall repl,
  table_ok repl -> (forall e, e ∈ entries old -> slot_hash e = map_hash_string (slot_key e)) ->
  NoDup (map slot_key (entries old ++ entries repl)) ->
  zlen (entries old) + zlen (entries repl) < zlen repl ->
  exists slots, rehash old repl = Some slots /\ table_ok slots /\ zlen slots = zlen repl /\
    Permutation (entries slots) (entries old ++ entries repl).
Proof.
  induction old as [|[e|] old IH]; intros repl Hok Hhash Hnd Hload; cbn [rehash].
  - exists repl. by split_and!.
  - rewrite entries_cons in *. rewrite zlen_cons in Hload. pose proof (zlen_nonneg (entries old)).
    cbn [app map] in Hnd. apply NoDup_cons in Hnd as [Hk Hnd].
    assert (He : slot_hash e = map_hash_string (slot_key e)) by (apply Hhash; by left).
    destruct (slot_for_lookup repl (slot_key e) Hok ltac:(lia)) as (m & Hm & Hr & Hocc & Hcase).
    rewrite <- He in Hr, Hocc, Hcase. rewrite Hr. cbn [mbind option_bind].
    assert (Hnk : slot_key e ∉ map slot_key (entries repl)).
    { intros Hin. apply Hk. rewrite map_app. apply elem_of_app. by right. }
    destruct Hcase as [[Hfree _]|(e' & He' & Hk' & _)].
    2: { exfalso. apply Hnk. rewrite <- Hk'. apply (list_elem_of_fmap_2 slot_key), entries_elem. eauto. }
    destruct (table_add repl m e Hok He Hm Hfree Hnk Hocc) as (Hok' & Hz & Hp).
    destruct (IH (zset repl _ (Some e)) Hok') as (slots & Hre & Hs & Hzs & Hps).
    + intros x Hx. apply Hhash. by right.
    + rewrite Hp. rewrite <- Permutation_middle. cbn. apply NoDup_cons. by split.
    + rewrite Hz. unfold zlen at 2. rewrite (Permutation_length Hp). cbn [length]. unfold zlen in *. lia.
    + exists slots. split; [done|]. split; [done|]. split; [lia|]. rewrite Hps, Hp. by rewrite <- Permutation_middle.
  - rewrite entries_cons in *. by apply IH.
Qed.

(** ** The map table of the VM *)

Definition maps_ok (s : AivmVm) : Prop :=
  zlen (maps s) = AIVM_VM_MAP_CAPACITY /\
  forall i m, zget (maps s) i = Some m -> if map_active m then map_ok m else m = empty_map.

(** What a handle stands for: whether it is finished, and its contents. *)
Definition map_view (s : AivmVm) (handle : Z) : option (bool * gmap (list Z) Z) :=
  match map_lookup s handle with
  | Some m => Some (map_frozen m, slots_map (map_slots m))
  | None => None
  end.

Lemma map_lookup_ok s handle m :
  maps_ok s -> map_lookup s handle = Some m ->
  map_ok m /\ 0 <= handle - 1 < zlen (maps s) /\ zget (maps s) (handle - 1) = Some m /\ map_active m = true.
Proof.
  intros [Hl Hok]. unfold map_lookup. destruct ((handle <=? 0) || (AIVM_VM_MAP_CAPACITY <? handle)) eqn:E; [done|].
  destruct (zget (maps s) (handle - 1)) as [m'|] eqn:Eg; [|done]. destruct (map_active m') eqn:Ea; [|done].
  intros [= <-]. pose proof (Hok _ _ Eg) as Hm. rewrite Ea in Hm. split_and!; [done|lia|lia|done|done].
Qed.

(** Storing a record under a valid handle. *)
Lemma set_map_view s handle m :
  maps_ok s -> 0 <= handle - 1 < zlen (maps s) -> map_active m = true -> map_ok m ->
  exists s', set_map handle m s = Ok tt s' /\ maps_ok s' /\
    map_lookup s' handle = Some m /\
    (forall h, h <> handle -> map_lookup s' h = map_lookup s h).
Proof.
  intros [Hl Hok] Hh Ha Hm. eexists. split; [done|]. unfold set_map, modify, map_lookup, maps_ok.
  cbn [maps set_maps]. split_and!.
  - by rewrite zlen_zset.
  - intros i m'. destruct (Z.eq_dec (handle - 1) i) as [<-|Hne].
    + rewrite zget_zset_eq by done. intros [= <-]. by rewrite Ha.
    + rewrite zget_zset_ne by done. apply Hok.
  - replace (_ || _) with false by lia. rewrite zget_zset_eq by done. by rewrite Ha.
  - intros h Hne. by rewrite zget_zset_ne by lia.
Qed.

(** [m] leaves the map table alone, and fails only with an error set. *)
Definition maps_frame {A} (m : M A) : Prop := forall s,
  match m s with
  | Ok _ s' => maps s' = maps s
  | Err s' => maps s' = maps s /\ status s' = AIVM_VM_STATUS_ERROR /\ error s' = AIVM_VM_ERR_MEMORY_PRESSURE
  | Undef => False
  end.

Section HostProofs.

Context `{Host}.

Lemma admit_frame growth : maps_frame (aivm_vm_admit_host_memory_growth growth).
Proof.
  intros s. unfold aivm_vm_admit_host_memory_growth, bind, get, snapshot, modify, throw, ret.
  destruct (negb _); [done|]. destruct (host_memory_snapshot (tick s)) as [[t a]|]; [|done].
  by destruct (aivm_host_memory_growth_allowed _ _ _ _) as [[] b].
Qed.

(** Growing a table keeps its contents, or fails with an error. *)
Lemma map_resize_spec m capacity s :
  table_ok (map_slots m) -> zlen (entries (map_slots m)) < capacity -> capacity <= SIZE_MAX / SIZEOF_SLOT ->
  match map_resize m capacity s with
  | Ok m' s' => maps s' = maps s /\ table_ok (map_slots m') /\ zlen (map_slots m') = capacity /\
      zlen (entries (map_slots m')) = zlen (entries (map_slots m)) /\
      slots_map (map_slots m') = slots_map (map_slots m) /\
      (map_active m', map_frozen m', map_count m') = (map_active m, map_frozen m, map_count m)
  | Err s' => maps s' = maps s /\ status s' = AIVM_VM_STATUS_ERROR /\ error s' = AIVM_VM_ERR_MEMORY_PRESSURE
  | Undef => False
  end.
Proof.
  intros Hok Hlen Hcap. unfold map_resize. destruct (Z.ltb_spec (SIZE_MAX / SIZEOF_SLOT) capacity); [lia|].
  unfold bind at 1.
  set (adm := if _ <? _ then _ else _).
  assert (Hadm : maps_frame adm).
  { unfold adm. destruct (_ <? _); [apply admit_frame|]. by intros ?. }
  specialize (Hadm s). destruct (adm s) as [[] s1|s1|]; [|done|done].
  unfold bind, alloc. destruct (host_alloc (tick s1) (capacity * SIZEOF_SLOT)); cbn [negb]; [|done].
  destruct (table_empty (Z.to_nat capacity)) as [He Hn]. pose proof (zlen_nonneg (entries (map_slots m))).
  assert (Hzr : zlen (replicate (Z.to_nat capacity) (@None AivmMapSlot)) = capacity)
    by (unfold zlen; rewrite length_replicate; lia).
  destruct (rehash_spec (map_slots m) (replicate (Z.to_nat capacity) None) He) as (slots & -> & Hs & Hz & Hp).
  - intros e [i Hi]%entries_elem. by apply (tok_hash _ Hok) in Hi.
  - rewrite Hn, app_nil_r. apply Hok.
  - rewrite Hn, Hzr, zlen_nil. lia.
  - rewrite Hn, app_nil_r in Hp.
    assert (Hpl : zlen (entries slots) = zlen (entries (map_slots m)))
      by (unfold zlen; by rewrite (Permutation_length Hp)).
    pose proof (slots_map_perm slots _ (tok_unique _ Hs) Hp) as Hm.
    cbn [check ret map_slots map_active map_frozen map_count]. rewrite Hzr in Hz. by split_and!.
Qed.

(** Storing a key into a table with room for it. *)
Lemma table_put slots key v :
  table_ok slots -> zlen (entries slots) < zlen slots ->
  exists r o, map_slot_for slots key (map_hash_string key) = Some r /\ zget slots r = Some o /\
    match o with
    | Some e =>
        let slots' := zset slots r (Some (mk_slot (slot_hash e) (slot_key e) v)) in
        table_ok slots' /\ zlen slots' = zlen slots /\ zlen (entries slots') = zlen (entries slots) /\
        slots_map slots' = <[key := v]> (slots_map slots)
    | None =>
        let slots' := zset slots r (Some (mk_slot (map_hash_string key) key v)) in
        table_ok slots' /\ zlen slots' = zlen slots /\ zlen (entries slots') = zlen (entries slots) + 1 /\
        slots_map slots' = <[key := v]> (slots_map slots)
    end.
Proof.
  intros Hok Hload. destruct (slot_for_lookup slots key Hok Hload) as (m & Hm & Hr & Hocc & Hcase).
  destruct Hcase as [[Hfree Hnone]|(e & He & Hk & Hv)].
  - eexists _, None. split; [exact Hr|]. split; [exact Hfree|]. cbn zeta.
    assert (Hnk : key ∉ map slot_key (entries slots)).
    { intros Hin. apply (list_elem_of_fmap_1 slot_key) in Hin as (x & Hx & Hin). apply entries_elem in Hin as [i Hi].
      assert (slots_map slots !! key = Some (slot_value x)); [|congruence].
      apply slots_map_lookup; [apply Hok|]. eauto. }
    destruct (table_add slots m (mk_slot (map_hash_string key) key v) Hok eq_refl Hm Hfree Hnk Hocc) as (Hok' & Hz & Hp).
    cbn [slot_hash] in *. split; [done|]. split; [done|]. split.
    + by rewrite (zlen_perm _ _ Hp), zlen_cons.
    + by rewrite (slots_map_perm _ _ (tok_unique _ Hok') Hp).
  - eexists _, (Some e). split; [exact Hr|]. split; [exact He|]. cbn zeta. destruct (table_update slots _ e v Hok He) as (Hok' & Hz & Hmap).
    split; [done|]. split; [apply zlen_zset|]. split; [done|]. by rewrite Hmap, Hk.
Qed.

(** The growth step of a put. *)
Definition put_grow (handle : Z) (m : AivmMapRecord) : M AivmMapRecord :=
  if zlen (map_slots m) * 7 <=? (map_count m + 1) * 10
  then let! grown := map_resize m (zlen (map_slots m) * 2) in
       do! set_map handle grown in ret grown
  else ret m.

Definition same_table (s s' : AivmVm) : Prop :=
  maps_ok s' /\ forall h, map_view s' h = map_view s h.

Definition memory_error (s : AivmVm) : Prop :=
  status s = AIVM_VM_STATUS_ERROR /\ error s = AIVM_VM_ERR_MEMORY_PRESSURE.

Lemma same_maps_table s s' : maps_ok s -> maps s' = maps s -> same_table s s'.
Proof.
  intros Hok E. unfold same_table, maps_ok, map_view, map_lookup. rewrite E. by split; [|intros h].
Qed.

Lemma put_grow_spec s handle m :
  maps_ok s -> map_lookup s handle = Some m ->
  match put_grow handle m s with
  | Ok m1 s1 => same_table s s1 /\ map_lookup s1 handle = Some m1 /\ map_frozen m1 = map_frozen m /\
      slots_map (map_slots m1) = slots_map (map_slots m) /\
      (map_count m1 + 1) * 10 < zlen (map_slots m1) * 7
  | Err s1 => same_table s s1 /\ (zlen (map_slots m) * 2 <= SIZE_MAX / SIZEOF_SLOT -> memory_error s1)
  | Undef => False
  end.
Proof.
  intros Hok Hlook. destruct (map_lookup_ok s handle m Hok Hlook) as ([Ht Hcount Hload Hc16] & Hh & Hg & Hact).
  pose proof (zlen_nonneg (entries (map_slots m))) as Hnn. unfold put_grow.
  destruct (Z.leb_spec (zlen (map_slots m) * 7) ((map_count m + 1) * 10)).
  2: { cbn. split_and!; try done; lia. }
  destruct (Z.ltb_spec (SIZE_MAX / SIZEOF_SLOT) (zlen (map_slots m) * 2)) as [Hbig|Hcap].
  { unfold bind, map_resize. rewrite (proj2 (Z.ltb_lt _ _) Hbig). split; [done|]. lia. }
  unfold bind at 1. pose proof (map_resize_spec m (zlen (map_slots m) * 2) s Ht ltac:(lia) Hcap) as Hrs.
  destruct (map_resize m _ s) as [m1 s1|s1|]; [| |done].
  2: { destruct Hrs as (Hmaps & ? & ?). split; [by apply same_maps_table|done]. }
  destruct Hrs as (Hmaps & Ht1 & Hz1 & He1 & Hm1 & [= Ha1 Hf1 Hc1]).
  assert (Hok1 : maps_ok s1) by (unfold maps_ok; rewrite Hmaps; exact Hok).
  destruct (set_map_view s1 handle m1 Hok1) as (s2 & Hset & Hok2 & Hl2 & Hoth); [by rewrite Hmaps|congruence| |].
  { split; [done|lia|lia|lia]. }
  unfold bind. rewrite Hset. cbn [ret]. split_and!; try done; try lia. split; [done|].
  intros h. unfold map_view. destruct (Z.eq_dec h handle) as [->|Hne].
  - rewrite Hl2, Hlook. by rewrite Hf1, Hm1.
  - rewrite Hoth by done. unfold map_lookup. by rewrite Hmaps.
Qed.

(** Storing a sound record under the handle it was read from. *)
Lemma store_table s handle m slots count kv :
  maps_ok s -> map_lookup s handle = Some m -> table_ok slots -> zlen slots = zlen (map_slots m) ->
  zlen (entries slots) = count -> count * 10 < zlen (map_slots m) * 7 -> slots_map slots = kv ->
  match set_map handle (mk_map (map_active m) (map_frozen m) slots count) s with
  | Ok _ s' => maps_ok s' /\ map_view s' handle = Some (map_frozen m, kv) /\
      forall h, h <> handle -> map_view s' h = map_view s h
  | _ => False
  end.
Proof.
  intros Hok Hlook Ht Hz He Hload <-. destruct (map_lookup_ok s handle m Hok Hlook) as ([_ _ _ H16] & Hh & _ & Ha).
  destruct (set_map_view s handle (mk_map (map_active m) (map_frozen m) slots count) Hok Hh Ha)
    as (s' & -> & Hok' & Hl & Hoth).
  { split; cbn [map_slots map_count]; [done|by symmetry|lia|lia]. }
  split; [done|]. unfold map_view. rewrite Hl. split; [done|]. intros h Hne. by rewrite Hoth.
Qed.

Lemma put_refines s handle m key value :
  maps_ok s -> map_lookup s handle = Some m -> map_frozen m = false ->
  match aivm_vm_map_builder_put_string_int handle (Some key) value s with
  | Ok _ s' => maps_ok s' /\
      map_view s' handle = Some (false, <[key := value]> (slots_map (map_slots m))) /\
      forall h, h <> handle -> map_view s' h = map_view s h
  | Err s' => same_table s s' /\ (zlen (map_slots m) * 2 <= SIZE_MAX / SIZEOF_SLOT -> memory_error s')
  | Undef => False
  end.
Proof.
  intros Hok Hlook Hfr. pose proof (put_grow_spec s handle m Hok Hlook) as Hgrow.
  unfold aivm_vm_map_builder_put_string_int, bind at 1, get. rewrite Hlook, Hfr.
  unfold bind at 1. fold (put_grow handle m). destruct (put_grow handle m s) as [m1 s1|s1|]; [|done|done].
  destruct Hgrow as ([Hok1 Hview] & Hl1 & Hf1 & <- & Hld1). rewrite Hfr in Hf1.
  destruct (map_lookup_ok s1 handle m1 Hok1 Hl1) as ([Ht1 Hc1 _ _] & Hh1 & _ & _).
  pose proof (zlen_nonneg (entries (map_slots m1))).
  destruct (table_put (map_slots m1) key value Ht1 ltac:(lia)) as (r & o & Hr & Ho & Hput).
  unfold bind at 1. rewrite Hr. unfold bind at 1. cbn [check ret]. rewrite Ho. cbn [check ret].
  destruct o as [e|]; destruct Hput as (Ht2 & Hz2 & He2 & Hm2).
  - pose proof (store_table s1 handle m1 _ (map_count m1) _ Hok1 Hl1 Ht2 Hz2 ltac:(lia) ltac:(lia) Hm2) as Hst.
    destruct (set_map handle _ s1) as [[] s2| |]; [|done|done]. rewrite Hf1 in Hst.
    destruct Hst as (? & ? & Hoth). split_and!; try done. intros h Hne. by rewrite Hoth, Hview.
  - unfold bind, alloc. destruct (host_alloc (tick s1) (zlen key + 1)); cbn [negb].
    + pose proof (store_table (set_tick (S (tick s1)) s1) handle m1 _ (map_count m1 + 1) _ Hok1 Hl1 Ht2 Hz2 ltac:(lia) ltac:(lia) Hm2) as Hst.
      destruct (set_map handle _ _) as [[] s2| |]; [|done|done]. rewrite Hf1 in Hst.
      destruct Hst as (? & ? & Hoth). split_and!; try done. intros h Hne. rewrite Hoth by done. by rewrite <- Hview.
    + cbn. by split.
Qed.

(** ** Refinement of the abstract maps *)

(** C20: putting a key into an unfinished builder either makes the handle
    stand for the old contents with that key updated, or fails with the old
    contents (and a memory error, unless the table can no longer be doubled); no
    other handle changes, the probing loop terminates, and the table invariant is
    kept. *)
Theorem map_put_refines s handle m key value :
  maps_ok s -> map_lookup s handle = Some m -> map_frozen m = false ->
  match aivm_vm_map_builder_put_string_int handle (Some key) value s with
  | Ok _ s' => maps_ok s' /\
      map_view s' handle = Some (false, <[key := value]> (slots_map (map_slots m))) /\
      forall h, h <> handle -> map_view s' h = map_view s h
  | Err s' => same_table s s' /\ (zlen (map_slots m) * 2 <= SIZE_MAX / SIZEOF_SLOT -> memory_error s')
  | Undef => False
  end.
Proof. apply put_refines. Qed.

Lemma new_refines s :
  maps_ok s ->
  match aivm_vm_map_builder_new s with
  | Ok h s' => maps_ok s' /\ map_view s h = None /\ map_view s' h = Some (false, ∅) /\
      forall h', h' <> h -> map_view s' h' = map_view s h'
  | Err s' => same_table s s' /\ memory_error s'
  | Undef => False
  end.
Proof.
  intros Hok. pose proof Hok as [Hl Hrec]. unfold aivm_vm_map_builder_new, bind at 1, get, first_inactive.
  destruct (list_find _ (maps s)) as [[i m]|] eqn:Ef; [|done].
  apply list_find_Some in Ef as (Hi & Hina & _).
  assert (Hg : zget (maps s) (Z.of_nat i) = Some m) by (rewrite zget_lookup by lia; by rewrite Nat2Z.id).
  pose proof (zget_Some_bounds _ _ _ Hg) as Hb. pose proof (Hrec _ _ Hg) as Hm. rewrite Hina in Hm. subst m.
  unfold bind at 1. rewrite Hg. cbn [check ret map_frozen map_slots map_count empty_map].
  unfold bind at 1, or_else. destruct (table_empty 0) as [Hte _]. cbn [replicate] in Hte.
  pose proof (map_resize_spec (mk_map true false [] 0) 16 s Hte ltac:(done) ltac:(done)) as Hrs.
  assert (Hview : map_view s (Z.of_nat i + 1) = None).
  { unfold map_view, map_lookup. replace (Z.of_nat i + 1 - 1) with (Z.of_nat i) by lia. rewrite Hg, Hina.
    by destruct (_ || _). }
  destruct (map_resize _ 16 s) as [m1 s1|s1|]; [| |done].
  - destruct Hrs as (Hmaps & Ht1 & Hz1 & He1 & Hm1 & [= Ha1 Hf1 Hc1]).
    assert (Hok1 : maps_ok s1) by (unfold maps_ok; by rewrite Hmaps).
    destruct (set_map_view s1 (Z.of_nat i + 1) m1 Hok1) as (s2 & Hset & Hok2 & Hl2 & Hoth);
      [rewrite Hmaps; lia|done| |].
    { assert (He0 : zlen (entries (map_slots m1)) = 0) by exact He1. split; [done|lia|lia|lia]. }
    unfold bind. rewrite Hset. cbn [ret]. split; [done|]. split; [done|].
    unfold map_view. rewrite Hl2, Hf1, Hm1. split; [done|]. intros h' Hne. rewrite Hoth by done.
    unfold map_lookup. by rewrite Hmaps.
  - destruct Hrs as (Hmaps & Hmem). unfold bind, set_map, modify, fail. split; [|done].
    apply same_maps_table; [done|]. cbn [maps set_maps]. rewrite Hmaps.
    replace (Z.of_nat i + 1 - 1) with (Z.of_nat i) by lia.
    unfold zset. destruct (Z.ltb_spec (Z.of_nat i) 0); [done|]. rewrite Nat2Z.id. by apply list_insert_id.
Qed.

Lemma finish_refines s handle :
  maps_ok s ->
  match aivm_vm_map_builder_finish handle s, map_view s handle with
  | Ok _ s', Some (false, kv) => maps_ok s' /\ map_view s' handle = Some (true, kv) /\
      forall h, h <> handle -> map_view s' h = map_view s h
  | Err s', (None | Some (true, _)) => same_table s s' /\ error s' = AIVM_VM_ERR_TYPE_MISMATCH
  | _, _ => False
  end.
Proof.
  intros Hok. unfold aivm_vm_map_builder_finish, bind, get, map_view.
  destruct (map_lookup s handle) as [m|] eqn:El; [|done].
  destruct (map_frozen m) eqn:Hf; [done|].
  destruct (map_lookup_ok s handle m Hok El) as ([Ht Hc Hld H16] & Hh & _ & Ha).
  destruct (set_map_view s handle (mk_map (map_active m) true (map_slots m) (map_count m)) Hok Hh Ha)
    as (s' & -> & Hok' & Hl' & Hoth).
  { by split. }
  split; [done|]. rewrite Hl'. split; [done|]. intros h Hne. by rewrite Hoth.
Qed.

(** Reading a finished map returns the value of the key in its
    abstract contents and a found flag, or the fallback; its count is the number
    of its keys; neither read changes the state, and neither works on an
    unfinished builder. *)
Theorem map_get_refines s handle key fallback :
  maps_ok s ->
  match map_view s handle with
  | Some (true, kv) =>
      aivm_vm_map_get_string_int handle (Some key) fallback s =
        Ok (default fallback (kv !! key), bool_decide (is_Some (kv !! key))) s /\
      aivm_vm_map_count handle s = Ok (Z.of_nat (size kv)) s
  | _ => aivm_vm_map_get_string_int handle (Some key) fallback s = Err s /\ aivm_vm_map_count handle s = Err s
  end.
Proof.
  intros Hok. unfold aivm_vm_map_get_string_int, aivm_vm_map_count, bind, get, map_view.
  destruct (map_lookup s handle) as [m|] eqn:El; [|done].
  destruct (map_frozen m) eqn:Hf; [|done]. cbn [negb].
  destruct (map_lookup_ok s handle m Hok El) as ([Ht Hc Hld H16] & _ & _ & _).
  pose proof (zlen_nonneg (entries (map_slots m))). split.
  - destruct (slot_for_lookup (map_slots m) key Ht ltac:(lia)) as (d & Hd & Hr & _ & Hcase).
    rewrite Hr. cbn [check ret].
    destruct Hcase as [[Hfree Hn]|(e & He & Hk & Hv)].
    + rewrite Hfree, Hn. done.
    + rewrite He, Hv. done.
  - unfold ret. f_equal. rewrite Hc. symmetry. unfold slots_map, zlen. f_equal.
    pose proof (tok_unique _ Ht) as Hnd. rewrite <- size_dom, dom_list_to_map_L, <- list_fmap_compose.
    rewrite size_list_to_set by exact Hnd. apply length_fmap.
Qed.

(** ** Sequences of operations *)

Inductive map_op : Type :=
  | OpNew
  | OpPut (handle : Z) (key : option (list Z)) (value : Z)
  | OpFinish (handle : Z)
  | OpCount (handle : Z)
  | OpGet (handle : Z) (key : option (list Z)) (fallback : Z).

(** The state after an operation, whether it returned 0 or 1. *)
Definition state_of {A} (r : res A) : option AivmVm :=
  match r with Ok _ s => Some s | Err s => Some s | Undef => None end.

Definition run_map_op (op : map_op) (s : AivmVm) : option AivmVm :=
  match op with
  | OpNew => state_of (aivm_vm_map_builder_new s)
  | OpPut h k v => state_of (aivm_vm_map_builder_put_string_int h k v s)
  | OpFinish h => state_of (aivm_vm_map_builder_finish h s)
  | OpCount h => state_of (aivm_vm_map_count h s)
  | OpGet h k f => state_of (aivm_vm_map_get_string_int h k f s)
  end.

Fixpoint run_map_ops (ops : list map_op) (s : AivmVm) : option AivmVm :=
  match ops with
  | [] => Some s
  | op :: ops' => s' ← run_map_op op s; run_map_ops ops' s'
  end.

(** The contents of finished maps are kept. *)
Definition frozen_kept (s s' : AivmVm) : Prop :=
  forall h kv, map_view s h = Some (true, kv) -> map_view s' h = Some (true, kv).

Lemma same_table_kept s s' : same_table s s' -> maps_ok s' /\ frozen_kept s s'.
Proof. intros [Hok Hv]. split; [done|]. intros h kv. by rewrite Hv. Qed.

Lemma other_handles_kept s s' h :
  (forall kv, map_view s h <> Some (true, kv)) ->
  (forall h', h' <> h -> map_view s' h' = map_view s h') -> frozen_kept s s'.
Proof.
  intros Hh Ho h' kv E. destruct (Z.eq_dec h' h) as [->|]; [by apply Hh in E|by rewrite Ho].
Qed.

Lemma run_map_op_ok op s : maps_ok s ->
  exists s', run_map_op op s = Some s' /\ maps_ok s' /\ frozen_kept s s'.
Proof.
  intros Hok. assert (Hsame : maps_ok s /\ frozen_kept s s) by (split; [done|by intros ?]).
  destruct op as [|h k v|h|h|h k f]; cbn [run_map_op].
  - pose proof (new_refines s Hok) as Hn. destruct (aivm_vm_map_builder_new s) as [h s'|s'|]; [| |done]; exists s'.
    + destruct Hn as (Hok' & Hnone & _ & Ho). split_and!; [done..|].
      apply (other_handles_kept s s' h); [|done]. intros kv. by rewrite Hnone.
    + split; [done|]. apply same_table_kept, Hn.
  - destruct (map_lookup s h) as [m|] eqn:El.
    2: { unfold aivm_vm_map_builder_put_string_int, bind, get. rewrite El. eexists. by split. }
    destruct k as [key|].
    2: { unfold aivm_vm_map_builder_put_string_int, bind, get. rewrite El. eexists. by split. }
    destruct (map_frozen m) eqn:Hf.
    { unfold aivm_vm_map_builder_put_string_int, bind at 1, get. rewrite El, Hf. eexists. by split. }
    pose proof (put_refines s h m key v Hok El Hf) as Hp.
    destruct (aivm_vm_map_builder_put_string_int h (Some key) v s) as [[] s'|s'|]; [| |done]; exists s'.
    + destruct Hp as (Hok' & _ & Ho). split_and!; [done..|]. apply (other_handles_kept s s' h); [|done].
      intros kv. unfold map_view. rewrite El, Hf. done.
    + split; [done|]. apply same_table_kept, Hp.
  - pose proof (finish_refines s h Hok) as Hfin.
    destruct (aivm_vm_map_builder_finish h s) as [[] s'|s'|]; [| |done]; exists s'; split; try done;
      destruct (map_view s h) as [[[] kv]|] eqn:Ev; try done.
    + destruct Hfin as (Hok' & _ & Ho). split; [done|]. apply (other_handles_kept s s' h); [|done].
      intros kv'. by rewrite Ev.
    + apply same_table_kept, Hfin.
    + apply same_table_kept, Hfin.
  - exists s. split; [|done]. unfold aivm_vm_map_count, bind, get. destruct (map_lookup s h) as [m|]; [|done].
    by destruct (map_frozen m).
  - exists s. split; [|done]. unfold aivm_vm_map_get_string_int, bind at 1, get.
    destruct k as [key|]; [|by destruct (map_lookup s h)].
    destruct (map_lookup s h) as [m|] eqn:El; [|done]. destruct (map_frozen m) eqn:Hf; [|done]. cbn [negb].
    destruct (map_lookup_ok s h m Hok El) as ([Ht Hc Hld H16] & _ & _ & _).
    pose proof (zlen_nonneg (entries (map_slots m))).
    destruct (slot_for_lookup (map_slots m) key Ht ltac:(lia)) as (d & Hd & Hr & _ & Hcase).
    unfold bind. rewrite Hr. cbn [check ret]. by destruct Hcase as [[-> _]|(e & -> & _)].
Qed.

(** C19: from a sound map table, every sequence of map operations, valid
    or not, runs without an access outside its arrays or an endless probe, keeps
    the table sound, and never changes the contents of a finished map. *)
Theorem map_ops_sound ops : forall s, maps_ok s ->
  exists s', run_map_ops ops s = Some s' /\ maps_ok s' /\ frozen_kept s s'.
Proof.
  induction ops as [|op ops IH]; intros s Hok; cbn [run_map_ops].
  - exists s. split; [done|]. split; [done|by intros ?].
  - destruct (run_map_op_ok op s Hok) as (s1 & -> & Hok1 & Hk1). cbn [mbind option_bind].
    destruct (IH s1 Hok1) as (s2 & -> & Hok2 & Hk2). exists s2. split; [done|]. split; [done|].
    intros h kv Hv. by apply Hk2, Hk1.
Qed.

End HostProofs.

(** ** Examples *)

Lemma maps_ok_reset p profile stale t : maps_ok (reset_vm p profile stale t).
Proof.
  split; [by vm_compute|]. intros i m E. pose proof (zget_Some_bounds _ _ _ E).
  rewrite zget_lookup in E by lia. cbn [maps reset_vm] in E. apply lookup_replicate in E as [-> _]. done.
Qed.

(** A VM with one builder, holding [key "a" = 5]. *)
Definition example_new : AivmVm :=
  default example_vm (run_map_op (H := example_host) OpNew example_vm).
Definition example_put : AivmVm :=
  default example_vm (run_map_op (H := example_host) (OpPut 1 (Some [97]) 5) example_new).
Definition example_finished : AivmVm :=
  default example_vm (run_map_op (H := example_host) (OpFinish 1) example_put).

Lemma run_map_op_default op s : maps_ok s -> maps_ok (default example_vm (run_map_op (H := example_host) op s)).
Proof. intros Hok. by destruct (run_map_op_ok (H := example_host) op s Hok) as (s' & -> & Hok' & _). Qed.

Lemma map_put_refines_witness :
  exists m s', map_lookup example_new 1 = Some m /\
    aivm_vm_map_builder_put_string_int (H := example_host) 1 (Some [97]) 5 example_new = Ok tt s' /\
    map_view s' 1 = Some (false, <[[97] := 5]> (slots_map (map_slots m))).
Proof.
  destruct (map_lookup example_new 1) as [m|] eqn:El; [|by vm_compute in El].
  assert (Hf : map_frozen m = false) by (vm_compute in El; by injection El as <-).
  assert (Hok : maps_ok example_new) by apply run_map_op_default, maps_ok_reset.
  pose proof (map_put_refines (H := example_host) example_new 1 m [97] 5 Hok El Hf) as Hp.
  destruct (aivm_vm_map_builder_put_string_int 1 (Some [97]) 5 example_new) as [[] s'|s'|] eqn:E;
    [|vm_compute in E; discriminate E|done].
  exists m, s'. split; [done|]. split; [done|]. apply Hp.
Defined.

Lemma map_get_refines_witness :
  exists kv, map_view example_finished 1 = Some (true, kv) /\
    aivm_vm_map_get_string_int 1 (Some [98]) 7 example_finished =
      Ok (default 7 (kv !! [98]), bool_decide (is_Some (kv !! [98]))) example_finished.
Proof.
  assert (Hok : maps_ok example_finished) by apply run_map_op_default, run_map_op_default, run_map_op_default, maps_ok_reset.
  pose proof (map_get_refines example_finished 1 [98] 7 Hok) as Hg.
  assert (Ef : option_map map_frozen (map_lookup example_finished 1) = Some true) by (vm_compute; reflexivity).
  unfold map_view in *. destruct (map_lookup example_finished 1) as [m|]; [|done].
  injection Ef as Ef. rewrite Ef in *. exists (slots_map (map_slots m)). split; [done|]. apply Hg.
Defined.

Lemma map_ops_sound_witness :
  maps_ok example_vm /\
  exists s', run_map_ops (H := example_host) [OpNew; OpPut 1 (Some [97]) 5; OpFinish 1; OpPut 1 None 3] example_vm = Some s' /\
    maps_ok s' /\ frozen_kept example_vm s'.
Proof.
  assert (Hok : maps_ok example_vm) by apply maps_ok_reset. split; [exact Hok|].
  exact (map_ops_sound (H := example_host) _ example_vm Hok).
Defined.
