(* ===== verification/Blob.v ===== *)
(** * Binary blobs owned by a VM (src/src/aivm_vm_blob.c)

    A table of 64 records; a blob is named by a handle that is never given out
    twice between two resets.  The operations work on the blob table of the VM;
    the answers of [aivm_vm_ensure_storage] and of [malloc] are arguments. *)

From S2P Require Import Prelude Types Program Vm Lifecycle.

Inductive AivmBlobStatus : Type :=
  | AIVM_BLOB_OK
  | AIVM_BLOB_ERR_INVALID
  | AIVM_BLOB_ERR_LIMIT
  | AIVM_BLOB_ERR_NOT_FOUND
  | AIVM_BLOB_ERR_OOM.

Definition aivm_blob_status_code (st : AivmBlobStatus) : string :=
  match st with
  | AIVM_BLOB_OK => "AIVMB000"
  | AIVM_BLOB_ERR_INVALID => "AIVMB001"
  | AIVM_BLOB_ERR_LIMIT => "AIVMB002"
  | AIVM_BLOB_ERR_NOT_FOUND => "AIVMB003"
  | AIVM_BLOB_ERR_OOM => "AIVMB004"
  end.

(** ** Operations *)

Definition clear_blob_record (b : AivmBlobRecord) : AivmBlobRecord := empty_blob.

Definition aivm_release_all_blobs (b : BlobStore) : BlobStore :=
  set_blob_bytes_used 0 (set_blob_count 0 (set_blobs (map clear_blob_record (blobs b)) b)).

Definition blob_named (handle : Z) (r : AivmBlobRecord) : Prop :=
  blob_active r = true /\ blob_handle r = handle.

#[export] Instance blob_named_dec handle r : Decision (blob_named handle r).
Proof. unfold blob_named. apply _. Defined.

(** [find_blob] and [find_blob_const]: the index of the record and the record. *)
Definition find_blob (b : BlobStore) (handle : Z) : option (Z * AivmBlobRecord) :=
  if handle <=? 0 then None
  else match list_find (blob_named handle) (blobs b) with
       | Some (i, r) => Some (Z.of_nat i, r)
       | None => None
       end.

Definition first_free (b : BlobStore) : option Z :=
  match list_find (fun r => blob_active r = false) (blobs b) with
  | Some (i, _) => Some (Z.of_nat i)
  | None => None
  end.

Definition count_pressure (b : BlobStore) : BlobStore :=
  set_blob_pressure_count (aivm_counter_increment_saturating (blob_pressure_count b)) b.

(** [aivm_blob_create]: the status, [*out_handle] when it is written, and the new
    table; [None] is undefined behaviour ([next_blob_handle] past INT64_MAX, or a
    [data] shorter than [length]). *)
Definition aivm_blob_create (ensure_storage malloc : bool) (data : option (list Z)) (length : Z)
    (b : BlobStore) : option (AivmBlobStatus * option Z * BlobStore) :=
  if (0 <? length) && bool_decide (data = None) then Some (AIVM_BLOB_ERR_INVALID, None, b)
  else if negb ensure_storage then Some (AIVM_BLOB_ERR_OOM, None, count_pressure b)
  else
    match aivm_size_add_checked (blob_bytes_used b) length with
    | None => Some (AIVM_BLOB_ERR_LIMIT, None, count_pressure b)
    | Some needed =>
        if (AIVM_VM_BLOB_CAPACITY <=? blob_count b) || (AIVM_VM_BLOB_BYTES <? needed) ||
           (next_blob_handle b <=? 0)
        then Some (AIVM_BLOB_ERR_LIMIT, None, count_pressure b)
        else
          match first_free b with
          | None => Some (AIVM_BLOB_ERR_LIMIT, None, count_pressure b)
          | Some slot =>
              if (0 <? length) && negb malloc then Some (AIVM_BLOB_ERR_OOM, None, count_pressure b)
              else
                let bytes := default [] data in
                if zlen bytes <? length then None
                else if INT64_MAX <=? next_blob_handle b then None
                else
                  let handle := next_blob_handle b in
                  Some (AIVM_BLOB_OK, Some handle,
                    mk_blobs (zset (blobs b) slot (mk_blob handle (ztake length bytes) true))
                      (blob_count b + 1) needed (Z.max (blob_bytes_high_water b) needed)
                      (blob_pressure_count b) (next_blob_handle b + 1))
          end
    end.

(** [aivm_blob_read]: [out_data] tells whether the buffer is not NULL; the bytes
    copied to it, whose number is [*out_read]. *)
Definition aivm_blob_read (b : BlobStore) (handle offset : Z) (out_data : bool) (length : Z)
    : AivmBlobStatus * list Z :=
  if (0 <? length) && negb out_data then (AIVM_BLOB_ERR_INVALID, [])
  else
    match find_blob b handle with
    | None => (AIVM_BLOB_ERR_NOT_FOUND, [])
    | Some (_, r) =>
        if zlen (blob_data r) <=? offset then (AIVM_BLOB_OK, [])
        else
          let available := zlen (blob_data r) - offset in
          let read_length := if length <? available then length else available in
          (AIVM_BLOB_OK, ztake read_length (zdrop offset (blob_data r)))
    end.

Definition aivm_blob_release (b : BlobStore) (handle : Z) : AivmBlobStatus * BlobStore :=
  match find_blob b handle with
  | None => (AIVM_BLOB_ERR_NOT_FOUND, b)
  | Some (i, r) =>
      let length := zlen (blob_data r) in
      (AIVM_BLOB_OK,
       mk_blobs (zset (blobs b) i (clear_blob_record r))
         (if 0 <? blob_count b then blob_count b - 1 else blob_count b)
         (if length <=? blob_bytes_used b then blob_bytes_used b - length else 0)
         (blob_bytes_high_water b) (blob_pressure_count b) (next_blob_handle b))
  end.

Definition aivm_blob_active_count (b : BlobStore) : Z := blob_count b.

(** ** What the table promises *)

Definition live (r : AivmBlobRecord) : option (Z * list Z) :=
  if blob_active r then Some (blob_handle r, blob_data r) else None.

Definition actives (b : BlobStore) : list (Z * list Z) := omap live (blobs b).

(** The contents of every live handle. *)
Definition contents (b : BlobStore) : gmap Z (list Z) := list_to_map (actives b).

Definition sum_bytes (l : list (Z * list Z)) : Z := fold_right (fun p n => zlen p.2 + n) 0 l.

Record blob_inv (b : BlobStore) : Prop := {
  bi_size : zlen (blobs b) = AIVM_VM_BLOB_CAPACITY;
  bi_unique : NoDup (map fst (actives b));
  bi_handles : Forall (fun p => 0 < p.1 < next_blob_handle b) (actives b);
  bi_count : blob_count b = zlen (actives b);
  bi_used : blob_bytes_used b = sum_bytes (actives b);
  bi_limit : 0 <= blob_bytes_used b <= AIVM_VM_BLOB_BYTES;
  bi_next : 0 < next_blob_handle b }.

(** ** Lemmas *)

Lemma sum_bytes_nonneg l : 0 <= sum_bytes l.
Proof. unfold sum_bytes. induction l as [|p l IH]; cbn [fold_right]; [lia|]. pose proof (zlen_nonneg p.2). lia. Qed.

Lemma sum_bytes_perm l k : Permutation l k -> sum_bytes l = sum_bytes k.
Proof. unfold sum_bytes. induction 1 as [|x l k _ IH|x y l|l k m _ IH _ IH2]; cbn [fold_right]; [done|by rewrite IH|lia|congruence]. Qed.

Lemma actives_set b i r r' : zget (blobs b) i = Some r ->
  exists rest, Permutation (actives b) (option_list (live r) ++ rest) /\
    Permutation (omap live (zset (blobs b) i r')) (option_list (live r') ++ rest).
Proof.
  intros H. exists (omap live (ztake i (blobs b)) ++ omap live (zdrop (i + 1) (blobs b))).
  destruct (zget_split _ _ _ H) as [E _]. rewrite (zset_split _ _ _ _ H). unfold actives.
  split; [rewrite E at 1|]; rewrite omap_app; cbn [omap list_omap];
    [destruct (live r)|destruct (live r')]; cbn; try done; by rewrite Permutation_middle.
Qed.

Lemma actives_elem b h d : (h, d) ∈ actives b <->
  exists i r, zget (blobs b) i = Some r /\ blob_named h r /\ blob_data r = d.
Proof.
  unfold actives. rewrite list_elem_of_omap. split.
  - intros (r & Hr & E). unfold live in E. destruct (blob_active r) eqn:Ea; [|done]. injection E as <- <-.
    apply list_elem_of_lookup in Hr as [i Hi]. exists (Z.of_nat i), r. rewrite zget_lookup by lia. by rewrite Nat2Z.id.
  - intros (i & r & Hi & [Ha Hh] & Hd). exists r. unfold live. rewrite Ha, Hh, Hd. split; [|done].
    pose proof (zget_Some_bounds _ _ _ Hi). rewrite zget_lookup in Hi by lia. by eapply list_elem_of_lookup_2.
Qed.

Lemma contents_lookup b h d : blob_inv b -> contents b !! h = Some d <-> (h, d) ∈ actives b.
Proof. intros Hi. unfold contents. symmetry. apply elem_of_list_to_map, Hi. Qed.

(** [find_blob] finds exactly the live handles. *)
Lemma find_blob_spec b handle : blob_inv b ->
  match find_blob b handle with
  | Some (i, r) => zget (blobs b) i = Some r /\ blob_named handle r /\ contents b !! handle = Some (blob_data r)
  | None => contents b !! handle = None
  end.
Proof.
  intros Hb. unfold find_blob. destruct (Z.leb_spec handle 0).
  { destruct (contents b !! handle) as [d|] eqn:E; [|done]. apply contents_lookup in E; [|done].
    pose proof (bi_handles _ Hb) as Hh. rewrite Forall_forall in Hh. specialize (Hh _ E). cbn in Hh. lia. }
  destruct (list_find _ (blobs b)) as [[i r]|] eqn:E.
  - apply list_find_Some in E as (Hi & Hn & _).
    assert (Hz : zget (blobs b) (Z.of_nat i) = Some r) by (rewrite zget_lookup by lia; by rewrite Nat2Z.id).
    split; [done|]. split; [done|]. apply contents_lookup; [done|]. apply actives_elem. eauto.
  - destruct (contents b !! handle) as [d|] eqn:Ec; [|done]. exfalso. apply contents_lookup in Ec; [|done].
    apply actives_elem in Ec as (i & r & Hi & Hn & _). apply list_find_None in E.
    rewrite Forall_forall in E. pose proof (zget_Some_bounds _ _ _ Hi). rewrite zget_lookup in Hi by lia.
    apply (E r); [by eapply list_elem_of_lookup_2|done].
Qed.

(** A table with fewer live blobs than records has a free record. *)
Lemma omap_full {A B} (f : A -> option B) l : Forall (fun x => is_Some (f x)) l -> zlen (omap f l) = zlen l.
Proof.
  induction 1 as [|x l [y Hy] Hl IH]; [done|]. cbn [omap list_omap]. rewrite Hy, !zlen_cons. f_equal. exact IH.
Qed.

Lemma first_free_spec b : blob_inv b -> blob_count b < AIVM_VM_BLOB_CAPACITY ->
  exists i r, first_free b = Some i /\ zget (blobs b) i = Some r /\ live r = None.
Proof.
  intros Hb Hc. unfold first_free. destruct (list_find _ (blobs b)) as [[i r]|] eqn:E.
  - apply list_find_Some in E as (Hi & Hn & _). exists (Z.of_nat i), r. split; [done|].
    rewrite zget_lookup, Nat2Z.id by lia. split; [done|]. unfold live. by rewrite Hn.
  - exfalso. apply list_find_None in E.
    assert (zlen (actives b) = zlen (blobs b)).
    { apply omap_full. eapply Forall_impl; [exact E|]. intros r Hr. unfold live. cbn in Hr. destruct (blob_active r); [eauto|by destruct Hr]. }
    destruct Hb. lia.
Qed.

(** Storing a new blob in a free record, and clearing a record. *)
Lemma blob_add b i r data hw pc :
  blob_inv b -> zget (blobs b) i = Some r -> live r = None ->
  blob_bytes_used b + zlen data <= AIVM_VM_BLOB_BYTES ->
  let h := next_blob_handle b in
  let b' := mk_blobs (zset (blobs b) i (mk_blob h data true)) (blob_count b + 1)
              (blob_bytes_used b + zlen data) hw pc (h + 1) in
  blob_inv b' /\ contents b !! h = None /\ contents b' = <[h := data]> (contents b).
Proof.
  intros Hb Hi Hr Hfit h b'. pose proof (zlen_nonneg data).
  destruct (actives_set b i r (mk_blob h data true) Hi) as (rest & Hp & Hp').
  change (Permutation (actives b') ((h, data) :: rest)) in Hp'. rewrite Hr in Hp.
  change (Permutation (actives b) rest) in Hp. rewrite <- Hp in Hp'.
  pose proof Hb as [Hsize Huniq Hhand Hcount Hused Hlim Hn0].
  assert (Hnew : h ∉ map fst (actives b)).
  { intros Hin. apply (list_elem_of_fmap_1 fst) in Hin as (p & Hp1 & Hin). rewrite Forall_forall in Hhand.
    specialize (Hhand _ Hin). lia. }
  assert (Hnd : NoDup (map fst (actives b'))) by (rewrite Hp'; by apply NoDup_cons).
  split; [|split].
  - split; [by rewrite <- Hsize; apply zlen_zset|done| | | |cbn [blob_bytes_used b']; lia|cbn [next_blob_handle b']; lia].
    + rewrite Hp'. apply Forall_cons. split; [cbn; lia|]. eapply Forall_impl; [exact Hhand|]. cbn. lia.
    + rewrite (zlen_perm _ _ Hp'), zlen_cons. cbn [blob_count b']. lia.
    + rewrite (sum_bytes_perm _ _ Hp'). unfold sum_bytes. cbn [fold_right snd]. fold sum_bytes. cbn [blob_bytes_used b'].
      unfold sum_bytes in Hused. lia.
  - by apply not_elem_of_list_to_map.
  - unfold contents. by rewrite (list_to_map_proper _ _ Hnd Hp').
Qed.

Lemma blob_drop b i r h :
  blob_inv b -> zget (blobs b) i = Some r -> blob_named h r ->
  let b' := mk_blobs (zset (blobs b) i empty_blob) (blob_count b - 1)
              (blob_bytes_used b - zlen (blob_data r)) (blob_bytes_high_water b) (blob_pressure_count b)
              (next_blob_handle b) in
  blob_inv b' /\ 0 < blob_count b /\ zlen (blob_data r) <= blob_bytes_used b /\
  contents b' = delete h (contents b).
Proof.
  intros Hb Hi [Ha Hh] b'. destruct (actives_set b i r empty_blob Hi) as (rest & Hp & Hp').
  change (Permutation (actives b') rest) in Hp'. unfold live in Hp. rewrite Ha, Hh in Hp.
  change (Permutation (actives b) ((h, blob_data r) :: rest)) in Hp.
  rewrite <- Hp' in Hp. pose proof Hb as [Hsize Huniq Hhand Hcount Hused Hlim Hn0].
  pose proof (sum_bytes_nonneg (actives b')) as Hnn. pose proof (zlen_nonneg (actives b')).
  rewrite (sum_bytes_perm _ _ Hp) in Hused. rewrite (zlen_perm _ _ Hp), zlen_cons in Hcount.
  unfold sum_bytes in Hused, Hnn. cbn [fold_right snd] in Hused. pose proof (zlen_nonneg (blob_data r)).
  assert (Hu : NoDup (map fst ((h, blob_data r) :: actives b'))) by (by rewrite <- Hp).
  cbn [map fst] in Hu. apply NoDup_cons in Hu as [Hnot Hnd].
  split; [|split; [lia|split; [lia|]]].
  - split; [by rewrite <- Hsize; apply zlen_zset|done| | | | |done].
    + rewrite Hp in Hhand. by apply Forall_cons in Hhand as [_ ?].
    + cbn [blob_count b']. lia.
    + cbn [blob_bytes_used b']. unfold sum_bytes. lia.
    + cbn [blob_bytes_used b']. lia.
  - unfold contents. rewrite (list_to_map_proper _ _ Huniq Hp). cbn.
    rewrite delete_insert_id; [done|]. by apply not_elem_of_list_to_map.
Qed.

(** ** Laws *)

(** Creating a blob succeeds exactly when storage and memory are
    granted and both the 64-blob and the 16 MiB limits leave room; it then gives
    out a handle that names nothing yet, the handle reads as the given bytes, every
    other handle is unchanged and the table invariant is kept.  A refused creation
    changes no contents. *)
Theorem blob_create_spec ensure malloc data b :
  blob_inv b -> next_blob_handle b < INT64_MAX ->
  let length := zlen data in
  let fits := (blob_count b <? AIVM_VM_BLOB_CAPACITY) && (blob_bytes_used b + length <=? AIVM_VM_BLOB_BYTES) in
  exists st h b', aivm_blob_create ensure malloc (Some data) length b = Some (st, h, b') /\ blob_inv b' /\
    if ensure && fits && (malloc || (length =? 0))
    then st = AIVM_BLOB_OK /\ h = Some (next_blob_handle b) /\
         contents b !! next_blob_handle b = None /\
         contents b' = <[next_blob_handle b := data]> (contents b)
    else st = (if ensure && negb fits then AIVM_BLOB_ERR_LIMIT else AIVM_BLOB_ERR_OOM) /\ h = None /\
         contents b' = contents b.
Proof.
  intros Hb Hnext length fits. pose proof (zlen_nonneg data) as Hd.
  assert (Hp : blob_inv (count_pressure b)) by (by destruct Hb).
  unfold aivm_blob_create. fold length in Hd. rewrite andb_false_r.
  destruct ensure; cbn [negb andb]; [|by eexists _, _, _].
  pose proof Hb as [Hsize Huniq Hhand Hcount Hused Hlim Hn0].
  destruct (aivm_size_add_checked (blob_bytes_used b) length) as [needed|] eqn:En.
  2: { apply size_add_checked_None in En; [|lia..]. assert (fits = false) as -> by (unfold fits, SIZE_MAX, AIVM_VM_BLOB_BYTES in *; lia).
       by eexists _, _, _. }
  apply size_add_checked_Some in En; [|lia..]. destruct En as [_ ->].
  destruct (_ || _) eqn:Eg.
  { assert (fits = false) as -> by (unfold fits; lia). by eexists _, _, _. }
  assert (fits = true) as -> by (unfold fits; lia).
  destruct (first_free_spec b Hb ltac:(lia)) as (i & r & -> & Hi & Hr).
  replace (malloc || (length =? 0)) with (negb ((0 <? length) && negb malloc)) by (destruct malloc; lia).
  destruct ((0 <? length) && negb malloc); cbn [negb]; [by eexists _, _, _|].
  change (default [] (Some data)) with data. change (zlen data) with length. rewrite Z.ltb_irrefl. replace (INT64_MAX <=? _) with false by lia.
  eexists _, _, _. split; [reflexivity|].
  replace (ztake length data) with data by (unfold ztake, length, zlen; rewrite Nat2Z.id, firstn_all; done).
  destruct (blob_add b i r data (Z.max (blob_bytes_high_water b) (blob_bytes_used b + length))
    (blob_pressure_count b) Hb Hi Hr ltac:(lia)) as (Hinv & Hnone & Hcont). split; [exact Hinv|]. split; [done|]. split; [done|]. split; [exact Hnone|exact Hcont].
Qed.

(** Reading a live handle returns the bytes from the offset on, at
    most as many as asked for (none past the end); reading or releasing any other
    number fails with the not-found status; releasing a live handle forgets
    exactly that handle, and the count and byte accounting stay exact. *)
Theorem blob_read_release handle offset length b :
  blob_inv b -> 0 <= offset -> 0 <= length ->
  match contents b !! handle with
  | Some d => aivm_blob_read b handle offset true length = (AIVM_BLOB_OK, ztake length (zdrop offset d)) /\
      exists b', aivm_blob_release b handle = (AIVM_BLOB_OK, b') /\ blob_inv b' /\
        contents b' = delete handle (contents b)
  | None => aivm_blob_read b handle offset true length = (AIVM_BLOB_ERR_NOT_FOUND, []) /\
      aivm_blob_release b handle = (AIVM_BLOB_ERR_NOT_FOUND, b)
  end.
Proof.
  intros Hb Ho Hl. pose proof (find_blob_spec b handle Hb) as Hf.
  unfold aivm_blob_read, aivm_blob_release. rewrite andb_false_r.
  destruct (find_blob b handle) as [[i r]|]; [|rewrite Hf; by destruct (0 <? length)].
  destruct Hf as (Hi & Hn & ->). pose proof (zlen_nonneg (blob_data r)). split.
  - destruct (Z.leb_spec (zlen (blob_data r)) offset) as [Hoff|Hoff].
    + unfold zdrop. rewrite drop_ge by (unfold zlen in *; lia). unfold ztake. by rewrite take_nil.
    + destruct (Z.ltb_spec length (zlen (blob_data r) - offset)); [done|]. f_equal. unfold ztake.
      rewrite !take_ge; [done|..]; unfold zdrop; rewrite length_drop; unfold zlen in *; lia.
  - destruct (blob_drop b i r handle Hb Hi Hn) as (Hinv & Hc & Hu & Hcont).
    replace (0 <? blob_count b) with true by lia. replace (zlen (blob_data r) <=? _) with true by lia. eauto.
Qed.

(** The table of a freshly reset VM is sound, and so is one with all blobs
    released. *)
Lemma blob_inv_reset p profile stale t : blob_inv (blob_store (reset_vm p profile stale t)).
Proof. split; [reflexivity|constructor|constructor|reflexivity|reflexivity|done|done]. Qed.

Lemma blob_inv_release_all b : blob_inv b -> blob_inv (aivm_release_all_blobs b) /\
  contents (aivm_release_all_blobs b) = ∅.
Proof.
  intros Hb. assert (Ha : actives (aivm_release_all_blobs b) = []).
  { unfold actives. cbn. induction (blobs b) as [|r l IH]; [done|exact IH]. }
  unfold contents. rewrite Ha. split; [|done]. destruct Hb.
  split; rewrite ?Ha; cbn [map]; [by rewrite <- bi_size0; apply zlen_map|constructor|constructor|done|done|done|done].
Qed.

Definition example_store : BlobStore := blob_store example_vm.

Lemma blob_create_spec_witness :
  exists st h b', aivm_blob_create true true (Some [1; 2; 3]) 3 example_store = Some (st, h, b') /\ blob_inv b' /\
    contents b' = <[1 := [1; 2; 3]]> (contents example_store).
Proof.
  assert (Hb : blob_inv example_store) by apply blob_inv_reset.
  assert (Hn : next_blob_handle example_store < INT64_MAX) by reflexivity.
  destruct (blob_create_spec true true [1; 2; 3] example_store Hb Hn) as (st & h & b' & H1 & H2 & H3).
  exists st, h, b'. split; [exact H1|]. split; [exact H2|]. cbv zeta in H3.
  match type of H3 with (if ?c then _ else _) => replace c with true in H3 by (vm_compute; reflexivity) end.
  apply H3.
Defined.

Lemma blob_read_release_witness :
  exists b, blob_inv b /\ contents b !! 1 = Some [1; 2; 3] /\
    aivm_blob_read b 1 1 true 9 = (AIVM_BLOB_OK, [2; 3]) /\
    exists b', aivm_blob_release b 1 = (AIVM_BLOB_OK, b') /\ contents b' = delete 1 (contents b).
Proof.
  destruct (blob_add example_store 0 empty_blob [1; 2; 3] 0 0) as (Hb & _ & Hc);
    [apply blob_inv_reset|reflexivity|reflexivity|discriminate|].
  assert (Hl : 0 <= 9) by discriminate. assert (Ho : 0 <= 1) by discriminate.
  pose proof (blob_read_release 1 1 9 _ Hb Ho Hl) as Hr. rewrite Hc in Hr.
  change (next_blob_handle example_store) with 1 in *. rewrite lookup_insert_eq in Hr.
  destruct Hr as (H1 & b' & H2 & _ & H3). eexists. split; [exact Hb|]. split; [rewrite Hc; by rewrite lookup_insert_eq|].
  split; [exact H1|]. exists b'. split; [exact H2|]. by rewrite Hc.
Defined.
