(* ===== verification/Memory.v ===== *)
(** * Reading through pointers

    What a [const char*] or a byte view held by the VM reads as: the arenas and
    the program storage it may point into are part of the state.  A pointer into
    an arena names the generation of the arena block it was taken from; a
    compaction replaces the block, so an older pointer dangles. *)

From S2P Require Import Prelude Types Program Vm.

(** The NUL-terminated text at an offset of a block; [None] when no NUL follows
    inside the block. *)
Definition cstring_at (mem : list Z) (off : Z) : option (list Z) :=
  if off <? 0 then None
  else
    let tail := zdrop off mem in
    if existsb (Z.eqb 0) tail then Some (cstr tail) else None.

(** [None]: NULL or not readable. *)
Definition read_str (s : AivmVm) (p : str_ptr) : option (list Z) :=
  match p with
  | SNull => None
  | SArena gen off => if gen =? sa_gen (strings s) then cstring_at (sa_text (strings s)) off else None
  | SProgram off =>
      match program s with Some q => cstring_at (string_storage q) off | None => None end
  | SExt content => Some content
  end.

Definition read_bytes (s : AivmVm) (p : bytes_ptr) (length : Z) : option (list Z) :=
  match p with
  | BNull => None
  | BArena gen off =>
      if gen =? ba_gen (bytes_arena s) then read_block (ba_data (bytes_arena s)) off length else None
  | BProgram off =>
      match program s with Some q => read_block (bytes_storage q) off length | None => None end
  | BExt content => read_block content 0 length
  end.

(** A pointer that is NULL or readable. *)
Definition str_ok (s : AivmVm) (p : str_ptr) : bool :=
  bool_decide (p = SNull) || bool_decide (is_Some (read_str s p)).

Definition bytes_view_ok (s : AivmVm) (p : bytes_ptr) (length : Z) : bool :=
  (length =? 0) || bool_decide (p = BNull) || bool_decide (is_Some (read_bytes s p length)).

(** A value whose text or bytes can be read. *)
Definition value_readable (s : AivmVm) (v : AivmValue) : bool :=
  match v with
  | VString p => str_ok s p
  | VBytes p n => bytes_view_ok s p n
  | _ => true
  end.

(** The text of a pointer that must be readable. *)
Definition deref_str (p : str_ptr) : M (list Z) := let! s := get in check (read_str s p).

Definition deref_bytes (p : bytes_ptr) (length : Z) : M (list Z) :=
  let! s := get in if length =? 0 then ret [] else check (read_bytes s p length).
