(* ===== verification/Control.v ===== *)
(** * Core instructions: stack, locals, arithmetic, comparison, jumps, calls

    The cases of [aivm_step] (src/src/aivm_vm.c) that work on the stack, the
    frames and the locals only, and the helpers they use.  A handler is a
    computation of [M]: [Err] is the source's
    [instruction_pointer = instruction_count; break] after a failed helper or a
    reported error.  RETURN runs the collector's safe point, which is an
    interface here ([SafePoint]). *)

From S2P Require Import Prelude Types Program Numeric Vm Lifecycle Stack Memory.

(** ** The collector as seen from RETURN *)

(** The block at the end of RETURN that decides whether to collect and does it. *)
Class SafePoint := { return_safe_point : M unit }.

(** ** Helpers *)

Definition operand_to_index (operand : Z) : M Z :=
  if operand <? 0
  then throw AIVM_VM_ERR_INVALID_PROGRAM (DText "Negative operand is invalid.")
  else ret operand.

Definition advance : M unit := modify (fun s => set_instruction_pointer (instruction_pointer s + 1) s).
Definition goto (target : Z) : M unit := modify (set_instruction_pointer target).

Definition is_store_local (i : AivmInstruction) : bool :=
  bool_decide (opcode i = AIVM_OP_STORE_LOCAL).

Fixpoint count_store_locals (l : list AivmInstruction) : Z :=
  match l with
  | i :: rest => if is_store_local i then 1 + count_store_locals rest else 0
  | [] => 0
  end.

(** [infer_call_arg_count]: the STORE_LOCALs at the target (the counters stay
    below the instruction count, so the checked additions succeed). *)
Definition infer_call_arg_count (p : AivmProgram) (target : Z) : Z :=
  if instruction_count p <=? target then 0
  else count_store_locals (zdrop target (ztake (instruction_count p) (instruction_store p))).

(** The loop of [validate_call_target_layout] from argument [i] on. *)
Fixpoint layout_loop (n : nat) (p : AivmProgram) (target arg_count i : Z) (seen : list Z) : M unit :=
  match n with
  | O => ret tt
  | S n' =>
      let out_of_range := throw AIVM_VM_ERR_INVALID_PROGRAM
                            (DText "Call target layout exceeded instruction range.") in
      match aivm_size_add_checked target i with
      | None => out_of_range
      | Some instruction_index =>
          if instruction_count p <=? instruction_index then out_of_range
          else
            let! instruction := check (zget (instruction_store p) instruction_index) in
            if negb (is_store_local instruction) then
              throw AIVM_VM_ERR_INVALID_PROGRAM (DFormat
                "Call target layout invalid. target=%llu arg=%llu op=%d expected=STORE_LOCAL"
                [ANum target; ANum i; ANum (Z_of_opcode (opcode instruction))])
            else
              let! local_index := operand_to_index (operand_int instruction) in
              if bool_decide (local_index ∈ seen) then
                throw AIVM_VM_ERR_INVALID_PROGRAM (DFormat
                  "Call target local layout invalid. target=%llu arg=%llu duplicateLocal=%llu argCount=%llu"
                  [ANum target; ANum i; ANum local_index; ANum arg_count])
              else layout_loop n' p target arg_count (i + 1) (seen ++ [local_index])
      end
  end.

Definition validate_call_target_layout (p : AivmProgram) (target arg_count : Z) : M unit :=
  if 64 <? arg_count then
    throw AIVM_VM_ERR_INVALID_PROGRAM (DFormat
      "Call target layout invalid. target=%llu argCount=%llu exceeds checked layout window"
      [ANum target; ANum arg_count])
  else layout_loop (Z.to_nat arg_count) p target arg_count 0 [].

(** [set_vm_error_call_arg_depth]: the message lists the whole history. *)
Definition call_arg_depth_error (target arg_count : Z) : M unit := fun s =>
  throw AIVM_VM_ERR_INVALID_PROGRAM (DFormat
    "Call argument count exceeds stack depth. target=%llu argCount=%llu stackCount=%llu frameCount=%llu pc=%llu"
    ([ANum target; ANum arg_count; ANum (stack_count s); ANum (call_frame_count s);
      ANum (instruction_pointer s)] ++
     flat_map (fun e => [ANum (ch_instruction_pointer e); ANum (ch_target e); ANum (ch_arg_count e);
                         ANum (ch_stack_count e)]) (recent_calls s) ++
     flat_map (fun e => [ANum (rh_instruction_pointer e); ANum (rh_stack_count e);
                         ANum (rh_pre_restore_stack_count e); ANum (rh_frame_base e);
                         ANum (if rh_has_return_value e then 1 else 0)]) (recent_returns s) ++
     flat_map (fun e => [ANum (oh_instruction_pointer e); ANum (Z_of_opcode (oh_opcode e));
                         ANum (oh_stack_count e)]) (recent_opcodes s))) s.

Definition validate_vm_return_restore (frame : AivmCallFrame) (pre_restore_stack_count : Z) : M unit :=
  let! s := get in
  if negb (limits_respected s) then
    throw AIVM_VM_ERR_INVALID_PROGRAM (DFormat
      "VM state invariant failed. op=return-restore stackCount=%llu stackLimit=%llu frameCount=%llu frameLimit=%llu localsCount=%llu localsLimit=%llu"
      [ANum (stack_count s); ANum (stack_limit s); ANum (call_frame_count s);
       ANum (call_frame_limit s); ANum (locals_count s); ANum (locals_limit s)])
  else
    match aivm_size_add_checked (frame_base frame) 1 with
    | None => throw AIVM_VM_ERR_INVALID_PROGRAM (DText "Return restore size arithmetic overflow.")
    | Some max_stack_count =>
        if max_stack_count <? pre_restore_stack_count then
          throw AIVM_VM_ERR_INVALID_PROGRAM (DFormat
            "Return restore invalid. extraStackValues=%llu frameBase=%llu stackCount=%llu localsBase=%llu frameCount=%llu pc=%llu"
            [ANum (pre_restore_stack_count - max_stack_count); ANum (frame_base frame);
             ANum pre_restore_stack_count; ANum (locals_base frame); ANum (call_frame_count s);
             ANum (instruction_pointer s)])
        else ret tt
    end.

(** The text of an operand that [aivm_vm_set_add_numeric_type_error] prints: empty for
    NULL and for what is not a string; [None] where the pointer cannot be read. *)
Definition add_operand_text (s : AivmVm) (v : AivmValue) : option (list Z) :=
  match v with VString SNull => Some [] | VString p => take 40 <$> read_str s p | _ => Some [] end.

Definition add_numeric_type_error (left right : AivmValue) : M unit :=
  let! s := get in
  let! left_text := check (add_operand_text s left) in
  let! right_text := check (add_operand_text s right) in
  let return_ip (f : option AivmCallFrame) :=
    match f with Some f => return_instruction_pointer f | None => 0 end in
  throw AIVM_VM_ERR_TYPE_MISMATCH (DFormat
    "ADD_INT requires int operands. left=%s(\'%.40s\') right=%s(\'%.40s\') ip=%llu ret0=%llu ret1=%llu"
    [AText (bytes_of_string (aivm_vm_value_type_name (value_type left))); AText left_text;
     AText (bytes_of_string (aivm_vm_value_type_name (value_type right))); AText right_text;
     ANum (instruction_pointer s); ANum (return_ip (call_frames s !! 0%nat));
     ANum (return_ip (call_frames s !! 1%nat))]).

(** ** Handlers *)

Definition aivm_halt (p : AivmProgram) : M unit :=
  do! goto (instruction_count p) in modify (set_status AIVM_VM_STATUS_HALTED).

Definition op_stub : M unit :=
  modify (aivm_set_vm_error AIVM_VM_ERR_INVALID_OPCODE (DText "STUB opcode is invalid at runtime.")).

Definition op_push (v : AivmValue) : M unit := do! aivm_stack_push v in advance.

Definition op_pop : M unit := do! aivm_stack_pop in advance.

Definition op_store_local (operand : Z) : M unit :=
  let! local_index := operand_to_index operand in
  let! popped := aivm_stack_pop in
  do! aivm_local_set local_index popped in
  advance.

Definition op_load_local (operand : Z) : M unit :=
  let! local_index := operand_to_index operand in
  let! local_value := or_else (aivm_local_get local_index)
    (fun s => local_out_of_range "load" local_index (active_locals_base s) s) in
  op_push local_value.

(** The two operands: the right one is on top. *)
Definition pop_operands : M (AivmValue * AivmValue) :=
  let! rhs := aivm_stack_pop in
  let! lhs := aivm_stack_pop in
  ret (lhs, rhs).

Definition both_numeric (lhs rhs : AivmValue) : bool :=
  aivm_vm_value_is_numeric lhs && aivm_vm_value_is_numeric rhs.

(** ADD_INT and the SUB_NUM ... POW_NUM group. *)
Definition op_numeric (op : numeric_op) : M unit :=
  let! (lhs, rhs) := pop_operands in
  if negb (both_numeric lhs rhs) then
    match op with
    | NAdd => add_numeric_type_error lhs rhs
    | _ => throw AIVM_VM_ERR_TYPE_MISMATCH (DText "Numeric operation requires number operands.")
    end
  else
    let! r := check (numeric_value op lhs rhs) in
    match r with
    | inl v => op_push v
    | inr message => throw AIVM_VM_ERR_TYPE_MISMATCH (DText message)
    end.

Definition op_lt : M unit :=
  let! (lhs, rhs) := pop_operands in
  if negb (both_numeric lhs rhs)
  then throw AIVM_VM_ERR_TYPE_MISMATCH (DText "LT requires number operands.")
  else op_push (VBool (dlt (aivm_vm_value_as_number lhs) (aivm_vm_value_as_number rhs))).

Definition jump_to (p : AivmProgram) (target : Z) : M unit :=
  if instruction_count p <? target
  then throw AIVM_VM_ERR_INVALID_PROGRAM (DText "Jump target out of range.")
  else goto target.

Definition op_jump (p : AivmProgram) (operand : Z) : M unit :=
  let! target := operand_to_index operand in jump_to p target.

Definition op_jump_if_false (p : AivmProgram) (operand : Z) : M unit :=
  let! target := operand_to_index operand in
  let! condition := aivm_stack_pop in
  match condition with
  | VBool false => jump_to p target
  | VBool true => advance
  | _ => throw AIVM_VM_ERR_TYPE_MISMATCH (DText "JUMP_IF_FALSE requires bool.")
  end.

Definition is_return (i : AivmInstruction) : bool :=
  bool_decide (opcode i = AIVM_OP_RETURN) || bool_decide (opcode i = AIVM_OP_RET).

(** A call in a frame, directly followed by a return. *)
Definition is_tail_call (p : AivmProgram) (s : AivmVm) : M bool :=
  match call_frames s with
  | [] => ret false
  | _ :: _ =>
      if instruction_pointer s + 1 <? instruction_count p
      then let! next := check (zget (instruction_store p) (instruction_pointer s + 1)) in
           ret (is_return next)
      else ret false
  end.

(** The tail call: the arguments (the top [arg_count] values) slide down to the
    base of the current frame, whose locals are dropped. *)
Definition tail_call (target arg_count arg_base : Z) (frame : AivmCallFrame) : M unit :=
  let! s := get in
  if arg_base <? frame_base frame
  then throw AIVM_VM_ERR_INVALID_PROGRAM (DText "Tail-call frame base exceeds argument base.")
  else
    do! modify (set_stack (ztake arg_count (stack s) ++
                           zdrop (stack_count s - frame_base frame) (stack s))) in
    do! modify (set_locals_count (locals_base frame)) in
    goto target.

Definition op_call (p : AivmProgram) (operand : Z) : M unit :=
  let! target := operand_to_index operand in
  if instruction_count p <=? target
  then throw AIVM_VM_ERR_INVALID_PROGRAM (DText "Call target out of range.")
  else
    let arg_count := infer_call_arg_count p target in
    let! s := get in
    if stack_count s <? arg_count then call_arg_depth_error target arg_count
    else
      do! validate_call_target_layout p target arg_count in
      do! aivm_vm_record_recent_call (instruction_pointer s) target arg_count (stack_count s) in
      let arg_base := stack_count s - arg_count in
      let crosses := match call_frames s with
                     | frame :: _ => arg_base <? frame_base frame
                     | [] => false
                     end in
      if crosses then
        throw AIVM_VM_ERR_INVALID_PROGRAM (DFormat
          "Call argument frame crosses caller frame base. target=%llu argCount=%llu argBase=%llu callerFrameBase=%llu stackCount=%llu pc=%llu"
          [ANum target; ANum arg_count; ANum arg_base;
           ANum (match call_frames s with frame :: _ => frame_base frame | [] => 0 end);
           ANum (stack_count s); ANum (instruction_pointer s)])
      else
        let! is_tail := is_tail_call p s in
        match call_frames s, is_tail with
        | frame :: _, true => tail_call target arg_count arg_base frame
        | _, _ =>
            match aivm_size_add_checked (instruction_pointer s) 1 with
            | None => fail
            | Some return_ip => do! aivm_frame_push return_ip arg_base in goto target
            end
        end.

(** Drop the frame's values and locals, and put the return value back. *)
Definition restore_caller (frame : AivmCallFrame) : M unit :=
  let! s := get in
  let pre_restore_stack_count := stack_count s in
  let return_value :=
    if frame_base frame <? stack_count s then stack s !! 0%nat else None in
  do! validate_vm_return_restore frame pre_restore_stack_count in
  do! modify (fun s => set_stack (zdrop (stack_count s - frame_base frame) (stack s)) s) in
  do! modify (set_locals_count (locals_base frame)) in
  do! match return_value with Some v => aivm_stack_push v | None => ret tt end in
  let! s := get in
  aivm_vm_record_recent_return (return_instruction_pointer frame) (stack_count s)
    pre_restore_stack_count (frame_base frame) (bool_decide (is_Some return_value)).

Definition op_return `{SafePoint} (p : AivmProgram) : M unit :=
  let! s := get in
  match call_frames s with
  | [] => aivm_halt p
  | _ :: _ =>
      let! frame := aivm_frame_pop in
      if instruction_count p <? return_instruction_pointer frame
      then throw AIVM_VM_ERR_INVALID_PROGRAM (DText "Return instruction pointer out of range.")
      else
        let! s := get in
        if stack_count s <? frame_base frame
        then throw AIVM_VM_ERR_INVALID_PROGRAM (DText "Call frame base exceeds stack depth.")
        else
          do! restore_caller frame in
          do! return_safe_point in
          goto (return_instruction_pointer frame)
  end.

Definition op_eq_int : M unit :=
  let! (lhs, rhs) := pop_operands in
  match lhs, rhs with
  | VInt a, VInt b => op_push (VBool (a =? b))
  | _, _ => throw AIVM_VM_ERR_TYPE_MISMATCH (DText "EQ_INT requires int operands.")
  end.

(** EQ reads the text or bytes of its operands. *)
Definition op_eq : M unit :=
  let! (lhs, rhs) := pop_operands in
  let! s := get in
  if value_readable s lhs && value_readable s rhs
  then op_push (VBool (aivm_value_equals (read_str s) (read_bytes s) lhs rhs))
  else undef.

Definition op_const (p : AivmProgram) (operand : Z) : M unit :=
  let! constant_index := operand_to_index operand in
  if bool_decide (constant_store p = []) || (constant_count p <=? constant_index)
  then throw AIVM_VM_ERR_INVALID_PROGRAM (DText "Invalid CONST index.")
  else let! v := check (zget (constant_store p) constant_index) in op_push v.

(** The handler of an instruction of this group; [None] for the other opcodes. *)
Definition control_op `{SafePoint} (p : AivmProgram) (i : AivmInstruction) : option (M unit) :=
  match opcode i with
  | AIVM_OP_NOP => Some advance
  | AIVM_OP_HALT => Some (aivm_halt p)
  | AIVM_OP_STUB => Some op_stub
  | AIVM_OP_PUSH_INT => Some (op_push (VInt (operand_int i)))
  | AIVM_OP_POP => Some op_pop
  | AIVM_OP_STORE_LOCAL => Some (op_store_local (operand_int i))
  | AIVM_OP_LOAD_LOCAL => Some (op_load_local (operand_int i))
  | AIVM_OP_ADD_INT => Some (op_numeric NAdd)
  | AIVM_OP_SUB_NUM => Some (op_numeric NSub)
  | AIVM_OP_MUL_NUM => Some (op_numeric NMul)
  | AIVM_OP_DIV_NUM => Some (op_numeric NDiv)
  | AIVM_OP_MOD_NUM => Some (op_numeric NMod)
  | AIVM_OP_POW_NUM => Some (op_numeric NPow)
  | AIVM_OP_LT_NUM => Some op_lt
  | AIVM_OP_JUMP => Some (op_jump p (operand_int i))
  | AIVM_OP_JUMP_IF_FALSE => Some (op_jump_if_false p (operand_int i))
  | AIVM_OP_PUSH_BOOL => Some (op_push (VBool (negb (operand_int i =? 0))))
  | AIVM_OP_CALL => Some (op_call p (operand_int i))
  | AIVM_OP_RET | AIVM_OP_RETURN => Some (op_return p)
  | AIVM_OP_EQ_INT => Some op_eq_int
  | AIVM_OP_EQ => Some op_eq
  | AIVM_OP_CONST => Some (op_const p (operand_int i))
  | _ => None
  end.
