(* ===== verification/ControlSafety.v ===== *)
(** * Safety of the core instructions

    Every core instruction, run from a sound state, ends in a sound state: the
    stack, frame and local counters stay within their arrays, the instruction
    pointer and every saved return address stay within the program, and a failure
    always reports an error.  The only undefined behaviour left is that of signed
    arithmetic, of conversions of out-of-range doubles, and of EQ on dangling
    text.  The collector enters through the laws of [SafePointLaws]. *)

From S2P Require Import Prelude Types Program Numeric Vm Lifecycle Stack Memory Control.

(** ** The invariant *)

(** What the core instructions read of the program. *)
Record code_ok (p : AivmProgram) : Prop := {
  co_instructions : zlen (instruction_store p) = instruction_count p;
  co_constants : zlen (constant_store p) = constant_count p;
  co_size : instruction_count p < SIZE_MAX }.

(** What the collector may change nothing of. *)
Definition control_view (s : AivmVm) :=
  (program s, instruction_pointer s, zlen (stack s), stack_limit s, call_frames s, call_frame_limit s,
   zlen (locals s), locals_count s, locals_limit s).

(** What only the collector and the heap instructions change. *)
Definition heap_view (s : AivmVm) :=
  (runtime_profile s, strings s, bytes_arena s, completed_tasks s, par_values s, scratch_pairs s,
   node_store s, node_builders s, maps s, blob_store s).

(** What the collector promises to RETURN: it keeps its own heap invariant,
    moves nothing of the stack, frames and locals, and fails only with an error. *)
Class SafePointLaws `{SafePoint} (heap_ok : AivmVm -> Prop) : Prop := {
  heap_ok_frame : forall s s', heap_view s' = heap_view s -> heap_ok s -> heap_ok s';
  safe_point_spec : forall s, stack_inv s -> heap_ok s ->
    match return_safe_point s with
    | Ok _ s' => control_view s' = control_view s /\ heap_ok s' /\ status s' = status s
    | Err s' => control_view s' = control_view s /\ heap_ok s' /\ status s' = AIVM_VM_STATUS_ERROR
    | Undef => False
    end }.

Section Safety.

Context `{SP : SafePoint} (heap_ok : AivmVm -> Prop) `{!SafePointLaws heap_ok}.
Context (p : AivmProgram) (Hp : code_ok p).

Record vm_inv (s : AivmVm) : Prop := {
  vi_program : program s = Some p;
  vi_stack : stack_inv s;
  vi_ip : 0 <= instruction_pointer s <= instruction_count p;
  vi_frames : Forall (fun f => 0 <= return_instruction_pointer f <= instruction_count p) (call_frames s);
  vi_heap : heap_ok s }.

(** A state about to execute an instruction. *)
Definition running (s : AivmVm) : Prop := vm_inv s /\ instruction_pointer s < instruction_count p.

Definition failed (s : AivmVm) : Prop := vm_inv s /\ status s = AIVM_VM_STATUS_ERROR.

(** ** Triples *)

Definition triple {A} (P : AivmVm -> Prop) (m : M A) (Q : A -> AivmVm -> Prop) : Prop := forall s, P s ->
  match m s with Ok a s' => Q a s' | Err s' => failed s' | Undef => False end.

(** Helpers leave the state ready to go on; handlers end the instruction. *)
Definition helper {A} (m : M A) : Prop := triple running m (fun _ => running).
Definition handler (m : M unit) : Prop := triple running m (fun _ => vm_inv).

Lemma triple_bind {A B} P Q R (m : M A) (f : A -> M B) :
  triple P m Q -> (forall a, triple (Q a) (f a) R) -> triple P (bind m f) R.
Proof.
  intros Hm Hf s Hs. unfold bind. specialize (Hm s Hs). destruct (m s) as [a s'|s'|]; [by apply Hf|done|done].
Qed.

Lemma triple_post {A} P (Q R : A -> AivmVm -> Prop) (m : M A) :
  triple P m Q -> (forall a s, Q a s -> R a s) -> triple P m R.
Proof. intros Hm H s Hs. specialize (Hm s Hs). destruct (m s); [by apply H|done|done]. Qed.

Lemma triple_get {B} P R (f : AivmVm -> M B) : (forall s, P s -> triple (eq s) (f s) R) -> triple P (bind get f) R.
Proof. intros H s Hs. exact (H s Hs s eq_refl). Qed.

Lemma helper_bind {A B} (m : M A) (f : A -> M B) : helper m -> (forall a, helper (f a)) -> helper (bind m f).
Proof. apply triple_bind. Qed.

Lemma handler_bind {A} (m : M A) (f : A -> M unit) : helper m -> (forall a, handler (f a)) -> handler (bind m f).
Proof. apply triple_bind. Qed.

Lemma helper_ret {A} (a : A) : helper (ret a).
Proof. by intros s Hs. Qed.

Lemma helper_get : helper get.
Proof. by intros s Hs. Qed.

(** An update that leaves the stack component, the program, the instruction
    pointer and the heap alone. *)
Lemma vm_inv_frame s s' :
  stack_view s' = stack_view s -> program s' = program s -> instruction_pointer s' = instruction_pointer s ->
  heap_view s' = heap_view s -> vm_inv s -> vm_inv s'.
Proof.
  intros Hv Hpr Hip Hh []. pose proof Hv as E. unfold stack_view in E. injection E as _ _ E3 _ _ _ _.
  split; [congruence|by eapply stack_inv_view|by rewrite Hip|by rewrite E3|by eapply heap_ok_frame].
Qed.

Lemma vm_inv_error e d s : vm_inv s -> vm_inv (aivm_set_vm_error e d s).
Proof. by apply vm_inv_frame. Qed.

Lemma failed_error e d s : vm_inv s -> failed (aivm_set_vm_error e d s).
Proof. intros Hs. split; [by apply vm_inv_error|done]. Qed.

Lemma triple_throw {A} P (Q : A -> AivmVm -> Prop) e d : (forall s, P s -> vm_inv s) -> triple P (throw e d) Q.
Proof. intros HP s Hs. by apply failed_error, HP. Qed.

Lemma helper_throw {A} e d : helper (@throw A e d).
Proof. apply triple_throw. by intros s []. Qed.

Lemma handler_throw e d : handler (throw e d).
Proof. apply triple_throw. by intros s []. Qed.

(** The stack component's own lemmas say how it changes the stack; here, that
    nothing else changes. *)
Lemma running_stack s l st :
  running s -> zlen st <= l <= AIVM_VM_STACK_CAPACITY -> running (set_stack st (set_stack_limit l s)).
Proof.
  intros [[] Hip] Hl. split; [|done].
  split; [done|by apply stack_inv_stack_limit|done|done|by eapply heap_ok_frame; [|exact vi_heap0]].
Qed.

Lemma helper_push v : helper (aivm_stack_push v).
Proof.
  intros s Hs. pose proof (vi_stack _ (proj1 Hs)) as Hst. destruct (push_run v s Hst) as (limit & Hl & Hlt & ->).
  pose proof (si_stack s Hst). destruct (Z.ltb_spec (stack_count s) AIVM_VM_STACK_CAPACITY).
  - apply running_stack; [done|]. unfold stack_count in *. rewrite zlen_cons. lia.
  - apply failed_error. apply (running_stack s limit (stack s) Hs). unfold stack_count in *. lia.
Qed.

Lemma running_pop s v rest : running s -> stack s = v :: rest -> running (set_stack rest s).
Proof.
  intros [[] Hip] E. split; [|done]. split; [done|by eapply stack_inv_pop|done|done|].
  by eapply heap_ok_frame; [|exact vi_heap0].
Qed.

Lemma helper_pop : helper aivm_stack_pop.
Proof.
  intros s Hs. unfold aivm_stack_pop, bind, get, modify, ret.
  destruct (stack s) as [|v rest] eqn:E; [by apply failed_error, Hs|by eapply running_pop].
Qed.

Lemma helper_pop_operands : helper pop_operands.
Proof.
  apply helper_bind; [apply helper_pop|intros rhs]. apply helper_bind; [apply helper_pop|intros lhs]. apply helper_ret.
Qed.

Lemma handler_advance : handler advance.
Proof.
  intros s [[] Hip]. unfold advance, modify. set (s' := set_instruction_pointer _ s).
  split; [done|exact (stack_inv_view s s' eq_refl vi_stack0)|cbn; lia|done|exact (heap_ok_frame s s' eq_refl vi_heap0)].
Qed.

Lemma handler_goto target : 0 <= target <= instruction_count p -> handler (goto target).
Proof.
  intros Ht s [[] Hip]. unfold goto, modify. set (s' := set_instruction_pointer _ s).
  split; [done|exact (stack_inv_view s s' eq_refl vi_stack0)|done|done|exact (heap_ok_frame s s' eq_refl vi_heap0)].
Qed.

Lemma handler_op_push v : handler (op_push v).
Proof. apply handler_bind; [apply helper_push|intros _; apply handler_advance]. Qed.

(** An operand that is used as an index. *)
Lemma handler_operand operand (f : Z -> M unit) :
  (forall i, 0 <= i -> handler (f i)) -> handler (bind (operand_to_index operand) f).
Proof.
  intros Hf s Hs. unfold bind, operand_to_index. destruct (Z.ltb_spec operand 0).
  - by apply failed_error, Hs.
  - by apply Hf.
Qed.

(** ** Locals, arithmetic, jumps *)

(** The parts a stack operation leaves alone. *)
Definition rest_view (s : AivmVm) := (program s, instruction_pointer s, call_frames s, heap_view s).

Lemma vm_inv_rest s s' : stack_inv s' -> rest_view s' = rest_view s -> vm_inv s -> vm_inv s'.
Proof.
  unfold rest_view. intros Hs E []. pose proof (f_equal snd E) as Eh. injection E as E1 E2 E3 _.
  split; [congruence|done|by rewrite E2|by rewrite E3|by eapply heap_ok_frame].
Qed.

Lemma running_rest s s' : stack_inv s' -> rest_view s' = rest_view s -> running s -> running s'.
Proof.
  intros Hs E [Hv Hip]. split; [by eapply vm_inv_rest|]. unfold rest_view in E. by injection E as _ -> _ _.
Qed.

Lemma helper_local_set index v : 0 <= index -> helper (aivm_local_set index v).
Proof.
  intros Hi s Hr. pose proof (vi_stack _ (proj1 Hr)) as Hs. pose proof (keeps_local_set index v Hi s Hs) as Hk.
  destruct (frame_on_stack s) eqn:Hf.
  - destruct (local_set_run index v s Hs Hf Hi) as (limit & Hl & Hrun).
    destruct (_ <? _); [destruct Hrun as [_ E]|destruct Hrun as [d ->]]; [|by apply failed_error, Hr].
    rewrite E in *. by eapply running_rest; [exact Hk| |exact Hr].
  - destruct (validate_run "local-set" s Hs) as [_ H2]. destruct (H2 Hf) as [d Hd].
    unfold aivm_local_set, bind. rewrite Hd. by apply failed_error, Hr.
Qed.

Lemma helper_local_load index : 0 <= index ->
  helper (or_else (aivm_local_get index) (fun s => local_out_of_range "load" index (active_locals_base s) s)).
Proof.
  intros Hi s Hr. pose proof (vi_stack _ (proj1 Hr)) as Hs. unfold or_else.
  destruct (frame_on_stack s) eqn:Hf.
  - rewrite local_get_run by done. destruct (_ <? _); [done|]. by apply failed_error, Hr.
  - assert (aivm_local_get index s = Err s) as ->; [|by apply failed_error, Hr].
    unfold aivm_local_get, bind, get, fail, ret. rewrite limits_respected_inv by done. cbn [negb].
    unfold frame_on_stack in Hf. destruct (call_frames s) as [|f rest] eqn:E; [done|].
    replace (_ || _) with true by lia. done.
Qed.

Lemma handler_store_local operand : handler (op_store_local operand).
Proof.
  apply handler_operand. intros i Hi. apply handler_bind; [apply helper_pop|intros v].
  apply handler_bind; [by apply helper_local_set|intros _]. apply handler_advance.
Qed.

Lemma handler_load_local operand : handler (op_load_local operand).
Proof.
  apply handler_operand. intros i Hi. apply handler_bind; [by apply helper_local_load|intros v]. apply handler_op_push.
Qed.

Lemma handler_pop : handler op_pop.
Proof. apply handler_bind; [apply helper_pop|intros _; apply handler_advance]. Qed.

Lemma handler_lt : handler op_lt.
Proof.
  apply handler_bind; [apply helper_pop_operands|intros [lhs rhs]].
  destruct (negb _); [apply handler_throw|apply handler_op_push].
Qed.

Lemma handler_eq_int : handler op_eq_int.
Proof.
  apply handler_bind; [apply helper_pop_operands|intros [lhs rhs]].
  destruct lhs, rhs; first [apply handler_op_push | apply handler_throw].
Qed.

Lemma handler_jump_to target : 0 <= target -> handler (jump_to p target).
Proof.
  intros Ht. unfold jump_to. destruct (Z.ltb_spec (instruction_count p) target); [apply handler_throw|].
  apply handler_goto. lia.
Qed.

Lemma handler_jump operand : handler (op_jump p operand).
Proof. apply handler_operand. intros i Hi. by apply handler_jump_to. Qed.

Lemma handler_jump_if_false operand : handler (op_jump_if_false p operand).
Proof.
  apply handler_operand. intros i Hi. apply handler_bind; [apply helper_pop|intros v].
  destruct v; try apply handler_throw. destruct b; [apply handler_advance|by apply handler_jump_to].
Qed.

Lemma handler_const operand : handler (op_const p operand).
Proof.
  apply handler_operand. intros i Hi. destruct (_ || _) eqn:E; [apply handler_throw|].
  destruct (zget_is_Some (constant_store p) i) as [v Hv]; [pose proof (co_constants p Hp); lia|].
  rewrite Hv. apply handler_bind; [apply helper_ret|intros v']. apply handler_op_push.
Qed.

Lemma handler_status st : triple vm_inv (modify (set_status st)) (fun _ => vm_inv).
Proof. intros s Hs. by apply (vm_inv_frame s). Qed.

Lemma handler_halt : handler (aivm_halt p).
Proof.
  unfold aivm_halt. eapply triple_bind; [apply handler_goto|intros ?; apply handler_status].
  pose proof (co_instructions p Hp). pose proof (zlen_nonneg (instruction_store p)). lia.
Qed.

Lemma handler_stub : handler op_stub.
Proof. intros s Hs. by apply vm_inv_error, Hs. Qed.

(** Arithmetic and EQ may also be undefined. *)
Definition partial_handler (m : M unit) : Prop := forall s, running s ->
  match m s with Ok _ s' => vm_inv s' | Err s' => failed s' | Undef => True end.

Lemma handler_partial m : handler m -> partial_handler m.
Proof. intros Hm s Hs. specialize (Hm s Hs). by destruct (m s). Qed.

Lemma partial_bind {A} (m : M A) (f : A -> M unit) :
  helper m -> (forall a, partial_handler (f a)) -> partial_handler (bind m f).
Proof. intros Hm Hf s Hs. unfold bind. specialize (Hm s Hs). destruct (m s); [by apply Hf|done|done]. Qed.

Lemma partial_check {A} (o : option A) (f : A -> M unit) :
  (forall a, partial_handler (f a)) -> partial_handler (bind (check o) f).
Proof. intros Hf s Hs. unfold bind. destruct o; [by apply Hf|done]. Qed.

Lemma partial_numeric op : partial_handler (op_numeric op).
Proof.
  apply partial_bind; [apply helper_pop_operands|intros [lhs rhs]].
  destruct (negb _).
  { destruct op; try apply handler_partial, handler_throw. apply partial_bind; [apply helper_get|intros s].
    do 2 (apply partial_check; intros ?). apply handler_partial, handler_throw. }
  apply partial_check. intros [v|message]; apply handler_partial; [apply handler_op_push|apply handler_throw].
Qed.

Lemma partial_eq : partial_handler op_eq.
Proof.
  apply partial_bind; [apply helper_pop_operands|intros [lhs rhs]].
  apply partial_bind; [apply helper_get|intros s]. destruct (_ && _); [|done].
  apply handler_partial, handler_op_push.
Qed.

(** ** Calls *)

(** The locals named by the first [n] instructions from [i] on. *)
Definition store_targets (n : nat) (i : Z) (ls : list Z) : Prop :=
  length ls = n /\ Forall (fun l => 0 <= l) ls /\
  forall k l, ls !! k = Some l ->
    zget (instruction_store p) (i + Z.of_nat k) = Some (mk_instruction AIVM_OP_STORE_LOCAL l).

Lemma layout_loop_run n : forall target argc i seen s,
  0 <= target -> 0 <= i -> NoDup seen -> target + i + Z.of_nat n <= SIZE_MAX ->
  (exists ls, layout_loop n p target argc i seen s = Ok tt s /\
     store_targets n (target + i) ls /\ NoDup (seen ++ ls)) \/
  (exists d, layout_loop n p target argc i seen s = Err (aivm_set_vm_error AIVM_VM_ERR_INVALID_PROGRAM d s)).
Proof.
  induction n as [|n IH]; intros target argc i seen s Ht Hi Hnd Hmax; cbn [layout_loop].
  { left. exists []. rewrite app_nil_r. split; [done|]. split; [|done]. split; [done|]. split; [constructor|done]. }
  rewrite (proj2 (size_add_checked_Some target i _)) by (split; [lia|reflexivity]).
  destruct (Z.leb_spec (instruction_count p) (target + i)); [right; by eexists|].
  destruct (zget_is_Some (instruction_store p) (target + i)) as [[op operand] Hop];
    [pose proof (co_instructions p Hp); lia|].
  rewrite Hop. unfold bind. cbn [check ret]. unfold is_store_local. cbn [opcode operand_int].
  case_bool_decide as Eop; cbn [negb]; [|right; by eexists]. subst op.
  unfold operand_to_index. destruct (Z.ltb_spec operand 0); [right; by eexists|].
  cbn [ret]. case_bool_decide as Hin; [right; by eexists|].
  destruct (IH target argc (i + 1) (seen ++ [operand]) s) as [(ls & Hrun & (Hl & Hf & Hget) & Hnd')|[d Hd]];
    [done|lia| |lia| |].
  { apply NoDup_app. split; [done|]. split; [|apply NoDup_singleton]. intros x Hx Hx2. apply Hin. by apply list_elem_of_singleton in Hx2 as ->. }
  - left. exists (operand :: ls). split; [done|]. split.
    + split; [cbn; lia|]. split; [by constructor|]. intros [|k] l; cbn.
      * intros [= ->]. by rewrite Z.add_0_r.
      * intros Hk. rewrite <- (Hget k l Hk). f_equal. lia.
    + by rewrite <- app_assoc in Hnd'.
  - right. by exists d.
Qed.

Lemma count_store_locals_le l : 0 <= count_store_locals l <= zlen l.
Proof.
  induction l as [|i l IH]; cbn [count_store_locals]; [unfold zlen; cbn; lia|]. rewrite zlen_cons.
  destruct (is_store_local i); lia.
Qed.

Lemma infer_bounds target : 0 <= target < instruction_count p ->
  0 <= infer_call_arg_count p target <= instruction_count p - target.
Proof.
  intros Ht. unfold infer_call_arg_count. destruct (Z.leb_spec (instruction_count p) target); [lia|].
  pose proof (count_store_locals_le (zdrop target (ztake (instruction_count p) (instruction_store p)))) as Hc.
  pose proof (co_instructions p Hp). rewrite zlen_zdrop, zlen_ztake in Hc; rewrite ?zlen_ztake; lia.
Qed.

Lemma layout_run target s : 0 <= target < instruction_count p ->
  let argc := infer_call_arg_count p target in
  (exists ls, validate_call_target_layout p target argc s = Ok tt s /\
     store_targets (Z.to_nat argc) target ls /\ NoDup ls) \/
  (exists d, validate_call_target_layout p target argc s = Err (aivm_set_vm_error AIVM_VM_ERR_INVALID_PROGRAM d s)).
Proof.
  intros Ht argc. unfold validate_call_target_layout. destruct (64 <? argc); [right; by eexists|].
  pose proof (infer_bounds target Ht). fold argc in H. pose proof (co_size p Hp).
  destruct (layout_loop_run (Z.to_nat argc) target argc 0 [] s) as [(ls & Hrun & Hst & Hnd)|Hd];
    [lia|done|constructor|lia| |by right].
  rewrite Z.add_0_r in Hst. left. by exists ls.
Qed.

(** The state after the call is recorded. *)
Definition recorded (target argc : Z) (s : AivmVm) : AivmVm :=
  set_recent_calls
    (take 4 (mk_call_entry (instruction_pointer s) target argc (stack_count s) :: recent_calls s)) s.

(** The state after an ordinary call. *)
Definition entered (target argc limit : Z) (s : AivmVm) : AivmVm :=
  set_instruction_pointer target
    (set_call_frames (mk_frame (instruction_pointer s + 1) (stack_count s - argc) (locals_count s) :: call_frames s)
      (set_call_frame_limit limit (recorded target argc s))).

(** The state after a tail call in frame [f]. *)
Definition replaced (target argc : Z) (f : AivmCallFrame) (s : AivmVm) : AivmVm :=
  set_instruction_pointer target
    (set_locals_count (locals_base f)
      (set_stack (ztake argc (stack s) ++ zdrop (stack_count s - frame_base f) (stack s)) (recorded target argc s))).

Definition next_is_return (s : AivmVm) : Prop :=
  exists i, zget (instruction_store p) (instruction_pointer s + 1) = Some i /\ is_return i = true.

Definition call_outcome (target : Z) (s s' : AivmVm) : Prop :=
  let argc := infer_call_arg_count p target in
  0 <= target < instruction_count p /\ 0 <= argc <= stack_count s /\
  (exists ls, store_targets (Z.to_nat argc) target ls /\ NoDup ls) /\
  match call_frames s with
  | f :: _ => frame_base f <= stack_count s - argc /\
      ((next_is_return s /\ s' = replaced target argc f s) \/
       (~ next_is_return s /\ call_frame_count s < AIVM_VM_CALLFRAME_CAPACITY /\
        exists limit, call_frame_count s < limit <= AIVM_VM_CALLFRAME_CAPACITY /\ s' = entered target argc limit s))
  | [] => exists limit, 0 < limit <= AIVM_VM_CALLFRAME_CAPACITY /\ s' = entered target argc limit s
  end.

Lemma is_tail_call_run s f rest : running s -> call_frames s = f :: rest ->
  exists b, is_tail_call p s s = Ok b s /\ (b = true <-> next_is_return s).
Proof.
  intros [Hv Hip] Hf. pose proof (vi_ip _ Hv). pose proof (co_instructions p Hp). unfold is_tail_call, next_is_return. rewrite Hf.
  destruct (Z.ltb_spec (instruction_pointer s + 1) (instruction_count p)).
  - destruct (zget_is_Some (instruction_store p) (instruction_pointer s + 1)) as [i Hi].
    { lia. }
    rewrite Hi. unfold bind. cbn [check ret]. eexists. split; [done|]. split; [eauto|]. by intros (i' & [= <-] & ?).
  - exists false. split; [done|]. split; [done|]. intros (i & Hi & _). apply zget_Some_bounds in Hi.
    lia.
Qed.

(** [aivm_frame_push] in the middle of a call. *)
Lemma call_push_run target argc s :
  vm_inv s -> frame_on_stack s = true -> 0 <= argc <= stack_count s ->
  instruction_pointer s < instruction_count p ->
  match (do! aivm_frame_push (instruction_pointer s + 1) (stack_count s - argc) in goto target) (recorded target argc s) with
  | Ok _ s' => call_frame_count s < AIVM_VM_CALLFRAME_CAPACITY /\
      exists limit, call_frame_count s < limit <= AIVM_VM_CALLFRAME_CAPACITY /\ s' = entered target argc limit s
  | Err s' => failed s'
  | Undef => False
  end.
Proof.
  intros Hv Hf Ha Hip. set (s1 := recorded target argc s).
  assert (Hv1 : vm_inv s1) by (by apply (vm_inv_frame s)).
  destruct (frame_push_run (instruction_pointer s + 1) (stack_count s - argc) s1 (vi_stack _ Hv1) Hf) as (limit & Hl & Hlt & Hrun).
  { change (stack_count s1) with (stack_count s). lia. }
  unfold bind. rewrite Hrun. change (call_frame_count s1) with (call_frame_count s) in *.
  destruct (Z.ltb_spec (call_frame_count s) AIVM_VM_CALLFRAME_CAPACITY) as [Hc|Hc].
  - cbn [goto modify]. split; [done|]. exists limit. split; [split; [by apply Hlt|lia]|done].
  - apply failed_error. destruct Hv1 as [? Hst ? ? ?]. pose proof (si_frames s1 Hst).
    eapply (vm_inv_rest s1); [|done|by split]. destruct Hst. split; try done.
    change (call_frame_count s1) with (call_frame_count s) in *. change (call_frame_count (set_call_frame_limit limit s1)) with (call_frame_count s). cbn. lia.
Qed.

Lemma tail_call_run target argc f s :
  frame_base f <= stack_count s - argc ->
  tail_call target argc (stack_count s - argc) f (recorded target argc s) = Ok tt (replaced target argc f s).
Proof.
  intros Hb. unfold tail_call, bind, get. destruct (Z.ltb_spec (stack_count s - argc) (frame_base f)); [lia|done].
Qed.

(** What CALL does. *)
Lemma call_run operand s : running s ->
  match op_call p operand s with
  | Ok _ s' => call_outcome operand s s'
  | Err s' => failed s'
  | Undef => False
  end.
Proof.
  intros Hr. pose proof Hr as [Hv Hip]. unfold op_call, bind at 1, operand_to_index.
  destruct (Z.ltb_spec operand 0); [by apply failed_error|]. cbn [ret].
  destruct (Z.leb_spec (instruction_count p) operand); [by apply failed_error|].
  unfold bind at 1, get. pose proof (infer_bounds operand ltac:(lia)) as Hinf.
  set (argc := infer_call_arg_count p operand) in *.
  destruct (Z.ltb_spec (stack_count s) argc); [by apply failed_error|].
  pose proof (layout_run operand s ltac:(lia)) as Hlr. cbv zeta in Hlr. fold argc in Hlr.
  unfold bind at 1. destruct Hlr as [(ls & Hlay & Hst & Hnd)|[d Hd]].
  2: { rewrite Hd. by apply failed_error. }
  rewrite Hlay. unfold bind at 1. cbn [aivm_vm_record_recent_call modify].
  fold (recorded operand argc s). unfold call_outcome. fold argc.
  pose proof (vi_ip _ Hv) as Hipb. pose proof (co_size p Hp) as Hsz.
  assert (Hok1 : vm_inv (recorded operand argc s)) by (by apply (vm_inv_frame s)).
  destruct (call_frames s) as [|f rest] eqn:Ef.
  - unfold is_tail_call. rewrite Ef. unfold bind at 1. cbn [ret].
    rewrite (proj2 (size_add_checked_Some (instruction_pointer s) 1 _)) by (split; [lia|reflexivity]).
    pose proof (call_push_run operand argc s Hv ltac:(unfold frame_on_stack; by rewrite Ef) ltac:(lia) Hip) as Hpush.
    destruct ((do! aivm_frame_push _ _ in goto operand) _) as [[] s'|s'|]; [|done|done].
    destruct Hpush as (_ & limit & Hl & ->). split; [lia|]. split; [lia|]. split; [by exists ls|].
    exists limit. unfold call_frame_count in Hl. rewrite Ef in Hl. done.
  - destruct (Z.ltb_spec (stack_count s - argc) (frame_base f)); [by apply failed_error|].
    destruct (is_tail_call_run s f rest Hr Ef) as (b & Hb & Hiff).
    assert (is_tail_call p s (recorded operand argc s) = Ok b (recorded operand argc s)) as Hb1.
    { revert Hb. unfold is_tail_call, bind. rewrite Ef. destruct (_ <? _); [|by intros [= <-]].
      destruct (zget _ _); [|done]. by intros [= <-]. }
    unfold bind at 1. rewrite Hb1. destruct b.
    + rewrite tail_call_run by lia. split; [lia|]. split; [lia|]. split; [by exists ls|]. split; [lia|]. left.
      split; [by apply Hiff|done].
    + rewrite (proj2 (size_add_checked_Some (instruction_pointer s) 1 _)) by (split; [lia|reflexivity]).
      pose proof (call_push_run operand argc s Hv ltac:(unfold frame_on_stack; rewrite Ef; lia) ltac:(lia) Hip) as Hpush.
      destruct ((do! aivm_frame_push _ _ in goto operand) _) as [[] s'|s'|]; [|done|done].
      destruct Hpush as (? & limit & ? & ->). split; [lia|]. split; [lia|]. split; [by exists ls|]. split; [lia|].
      right. split; [by intros ?%Hiff|]. split; [done|]. by exists limit.
Qed.

Lemma entered_inv target argc limit s :
  vm_inv s -> instruction_pointer s < instruction_count p -> 0 <= target < instruction_count p ->
  0 <= argc <= stack_count s -> call_frame_count s < limit <= AIVM_VM_CALLFRAME_CAPACITY ->
  match call_frames s with f :: _ => frame_base f <= stack_count s - argc | [] => True end ->
  vm_inv (entered target argc limit s).
Proof.
  intros Hv Hip Ht Ha Hl Hf. pose proof Hv as [Hpr Hst Hipb Hfr Hh].
  pose proof (frames_ordered_push s (instruction_pointer s + 1) (stack_count s - argc) Hst ltac:(lia)) as Ho.
  split.
  - done.
  - destruct Hst. split; try done.
    + unfold call_frame_count in *. cbn [entered call_frames set_instruction_pointer set_call_frames call_frame_limit set_call_frame_limit].
      rewrite zlen_cons. lia.
    + apply Ho. by destruct (call_frames s).
  - cbn. lia.
  - apply Forall_cons. split; [cbn; lia|done].
  - by apply (heap_ok_frame s).
Qed.

Lemma replaced_inv target argc f rest s :
  vm_inv s -> 0 <= target < instruction_count p -> call_frames s = f :: rest ->
  0 <= argc <= stack_count s -> frame_base f <= stack_count s - argc -> vm_inv (replaced target argc f s).
Proof.
  intros Hv Ht Ef Ha Hf. pose proof Hv as [Hpr Hst Hipb Hfr Hh]. pose proof (si_ordered s Hst) as Hord.
  rewrite Ef in Hord. destruct Hord as (Hb0 & Hl0 & _).
  split; [done| |cbn; lia|done|by apply (heap_ok_frame s)].
  destruct Hst as [? ? ? ? ? Hbase]. unfold active_locals_base in Hbase. rewrite Ef in Hbase. split; try done.
  - change (zlen (ztake argc (stack s) ++ zdrop (stack_count s - frame_base f) (stack s)) <= stack_limit s
      <= AIVM_VM_STACK_CAPACITY).
    unfold stack_count in *. rewrite zlen_app, zlen_ztake, zlen_zdrop by lia. lia.
  - cbn. lia.
  - unfold active_locals_base. cbn. rewrite Ef. lia.
Qed.

Lemma handler_call operand : handler (op_call p operand).
Proof.
  intros s Hr. pose proof (call_run operand s Hr) as Hc. destruct (op_call p operand s) as [[] s'|s'|]; [|done|done].
  destruct Hr as [Hv Hip], Hc as (Ht & Ha & _ & Hc). destruct (call_frames s) as [|f rest] eqn:Ef.
  - destruct Hc as (limit & Hl & ->). apply entered_inv; try done; [|by rewrite Ef]. unfold call_frame_count. by rewrite Ef.
  - destruct Hc as (Hf & [[_ ->]|(_ & _ & limit & Hl & ->)]).
    + by eapply replaced_inv.
    + apply entered_inv; try done. by rewrite Ef.
Qed.

(** ** Returns *)

(** The state after the frame [f] is left. *)
Definition left_frame (f : AivmCallFrame) (rest : list AivmCallFrame) (limit : Z) (s : AivmVm) : AivmVm :=
  set_recent_returns
    (take 4 (mk_return_entry (return_instruction_pointer f) (stack_count s) (stack_count s) (frame_base f)
               (frame_base f <? stack_count s) :: recent_returns s))
    (set_stack_limit limit (set_locals_count (locals_base f) (set_call_frames rest s))).

Lemma stack_inv_frame_pop s f rest : stack_inv s -> call_frames s = f :: rest -> stack_inv (set_call_frames rest s).
Proof.
  intros [? ? ? ? Hord ?] Ef. rewrite Ef in Hord. destruct Hord as (H1 & H2 & H3 & H4).
  unfold call_frame_count, active_locals_base in *. rewrite Ef in *. rewrite zlen_cons in *.
  split; try done.
  - unfold call_frame_count. cbn [call_frames set_call_frames call_frame_limit]. lia.
  - unfold active_locals_base. cbn [call_frames set_call_frames locals_count]. destruct rest; [lia|]. lia.
Qed.

Lemma validate_return_run f s pre : stack_inv s -> 0 <= frame_base f <= AIVM_VM_STACK_CAPACITY ->
  if pre <=? frame_base f + 1 then validate_vm_return_restore f pre s = Ok tt s
  else exists d, validate_vm_return_restore f pre s = Err (aivm_set_vm_error AIVM_VM_ERR_INVALID_PROGRAM d s).
Proof.
  intros Hs Hb. unfold validate_vm_return_restore, bind, get. rewrite (limits_respected_inv s Hs). cbn [negb].
  rewrite (proj2 (size_add_checked_Some (frame_base f) 1 _))
    by (split; [unfold SIZE_MAX, AIVM_VM_STACK_CAPACITY in *; lia|reflexivity]).
  destruct (Z.leb_spec pre (frame_base f + 1)).
  - by rewrite (proj2 (Z.ltb_ge _ _)) by lia.
  - rewrite (proj2 (Z.ltb_lt _ _)) by lia. by eexists.
Qed.

(** The stack with its frame's values dropped and the return value put back is
    the stack itself: at most one value lies above the base. *)
Lemma stack_inv_left f rest s limit st :
  stack_inv s -> call_frames s = f :: rest -> frame_base f <= stack_count s ->
  zlen st <= limit <= AIVM_VM_STACK_CAPACITY ->
  stack_inv (set_stack st (set_stack_limit limit (set_locals_count (locals_base f) (set_call_frames rest s)))).
Proof.
  intros Hs Ef Hb Hl. pose proof (stack_inv_frame_pop s f rest Hs Ef) as [? ? [? ?] ? ? ?].
  destruct Hs as [? ? ? ? Hord Hbase]. rewrite Ef in Hord. destruct Hord as (H1 & H2 & H3 & H4).
  unfold active_locals_base in Hbase. rewrite Ef in Hbase.
  split; try done.
  - cbn. lia.
  - unfold active_locals_base. cbn. destruct rest; lia.
Qed.

Lemma restore_run f rest s :
  stack_inv s -> call_frames s = f :: rest -> frame_base f <= stack_count s ->
  if stack_count s <=? frame_base f + 1
  then exists limit, stack_count s <= limit <= AIVM_VM_STACK_CAPACITY /\
    restore_caller f (set_call_frames rest s) = Ok tt (left_frame f rest limit s)
  else exists d, restore_caller f (set_call_frames rest s) =
    Err (aivm_set_vm_error AIVM_VM_ERR_INVALID_PROGRAM d (set_call_frames rest s)).
Proof.
  intros Hst Ef Hb. pose proof (stack_inv_frame_pop s f rest Hst Ef) as Hst1.
  pose proof (si_ordered s Hst) as Hord. rewrite Ef in Hord. destruct Hord as (Hb0 & Hl0 & Hord).
  pose proof (si_stack s Hst) as Hcap. set (s1 := set_call_frames rest s) in *.
  pose proof (validate_return_run f s1 (stack_count s) Hst1 ltac:(lia)) as Hval.
  unfold restore_caller, bind, get, modify. change (stack_count s1) with (stack_count s). change (stack s1) with (stack s).
  destruct (Z.leb_spec (stack_count s) (frame_base f + 1)) as [Hle|Hgt].
  2: { destruct Hval as [d Hd]. rewrite Hd. by eexists. }
  rewrite Hval. change (stack_count s1) with (stack_count s). change (stack s1) with (stack s).
  destruct (Z.ltb_spec (frame_base f) (stack_count s)) as [Hlt|Hge].
  - destruct (stack s) as [|v below] eqn:Es; [unfold stack_count in *; rewrite Es in *; unfold zlen in *; cbn in *; lia|].
    assert (Hc : stack_count s = frame_base f + 1) by lia.
    replace (stack_count s - frame_base f) with 1 by lia. cbn [lookup list_lookup].
    change (zdrop 1 (v :: below)) with below.
    set (s2 := set_locals_count _ _).
    assert (Hcb : zlen below + 1 = stack_count s) by (unfold stack_count; rewrite Es, zlen_cons; lia).
    assert (Hst2 : stack_inv s2).
    { pose proof (stack_inv_left f rest s (stack_limit s) below Hst Ef Hb ltac:(lia)) as H. exact (stack_inv_view _ s2 eq_refl H). }
    destruct (push_run v s2 Hst2) as (limit & Hl & Hlt2 & ->).
    change (stack_count s2) with (zlen below) in *. rewrite (proj2 (Z.ltb_lt _ _)) in * by lia.
    exists limit. split; [specialize (Hlt2 ltac:(lia)); lia|]. unfold aivm_vm_record_recent_return, modify, left_frame.
    rewrite bool_decide_true by eauto. rewrite (proj2 (Z.ltb_lt _ _)) by lia.
    f_equal. subst s2 s1. clear -Es. destruct s. cbn in Es. subst. reflexivity.
  - replace (stack_count s - frame_base f) with 0 by lia. change (zdrop 0 (stack s)) with (stack s).
    exists (stack_limit s). split; [lia|]. unfold aivm_vm_record_recent_return, modify, left_frame.
    rewrite (proj2 (Z.ltb_ge _ _)) by lia. subst s1. by destruct s.
Qed.

Lemma left_frame_inv f rest limit s :
  running s -> call_frames s = f :: rest -> frame_base f <= stack_count s ->
  stack_count s <= limit <= AIVM_VM_STACK_CAPACITY -> running (left_frame f rest limit s).
Proof.
  intros [Hv Hip] Ef Hb Hl. pose proof Hv as [Hpr Hst Hipb Hfr Hh]. rewrite Ef in Hfr. apply Forall_cons in Hfr as [_ Hfr].
  split; [|done]. split; [done| |done|done|by apply (heap_ok_frame s)].
  pose proof (stack_inv_left f rest s limit (stack s) Hst Ef Hb Hl) as H.
  by refine (stack_inv_view _ (left_frame f rest limit s) _ H).
Qed.

(** The collector keeps the invariant. *)
Lemma safe_point_inv s : running s ->
  match return_safe_point s with
  | Ok _ s' => running s' /\ control_view s' = control_view s
  | Err s' => failed s'
  | Undef => False
  end.
Proof.
  intros [Hv Hip]. pose proof Hv as [Hpr Hst Hipb Hfr Hh]. pose proof (safe_point_spec s Hst Hh) as Hsp.
  assert (Hinv : forall s', control_view s' = control_view s -> heap_ok s' ->
            vm_inv s' /\ instruction_pointer s' = instruction_pointer s).
  { intros s' E Hh'. unfold control_view in E. injection E as E1 E2 E3 E4 E5 E6 E7 E8 E9. split; [|done].
    split; [congruence| |by rewrite E2|by rewrite E5|done].
    destruct Hst. split; unfold stack_count, call_frame_count, active_locals_base in *;
      rewrite ?E3, ?E4, ?E5, ?E6, ?E7, ?E8, ?E9; done. }
  destruct (return_safe_point s) as [[] s'|s'|]; [| |done].
  - destruct Hsp as (E & Hh' & _). destruct (Hinv s' E Hh') as [? Hip']. split; [|done]. split; [done|lia].
  - destruct Hsp as (E & Hh' & ?). split; [|done]. by destruct (Hinv s' E Hh').
Qed.

(** What RETURN does in a frame. *)
Lemma return_run f rest s : running s -> call_frames s = f :: rest ->
  match op_return p s with
  | Ok _ s' => frame_base f <= stack_count s <= frame_base f + 1 /\ vm_inv s' /\
      instruction_pointer s' = return_instruction_pointer f /\ call_frames s' = rest /\
      stack_count s' = stack_count s /\ locals_count s' = locals_base f /\
      exists limit r', return_safe_point (left_frame f rest limit s) = Ok tt r' /\
        s' = set_instruction_pointer (return_instruction_pointer f) r'
  | Err s' => failed s'
  | Undef => False
  end.
Proof.
  intros Hr Ef. pose proof Hr as [Hv Hip]. pose proof Hv as [Hpr Hst Hipb Hfr Hh].
  unfold op_return, bind at 1, get. rewrite Ef. unfold bind at 1.
  destruct (frame_on_stack s) eqn:Hon.
  2: { unfold aivm_frame_pop, bind. destruct (validate_run "frame-pop" s Hst) as [_ H2]. destruct (H2 Hon) as [d ->].
       by apply failed_error. }
  assert (Hb : frame_base f <= stack_count s) by (unfold frame_on_stack in Hon; rewrite Ef in Hon; lia).
  rewrite (frame_pop_run s f rest Hst Ef Hb). rewrite Ef in Hfr. apply Forall_cons in Hfr as [Hret Hfr].
  rewrite (proj2 (Z.ltb_ge _ _)) by lia. unfold bind at 1.
  change (stack_count (set_call_frames rest s)) with (stack_count s). rewrite (proj2 (Z.ltb_ge _ _)) by lia.
  pose proof (restore_run f rest s Hst Ef Hb) as Hres. unfold bind at 1.
  destruct (Z.leb_spec (stack_count s) (frame_base f + 1)) as [Hle|Hgt].
  2: { destruct Hres as [d ->]. apply failed_error. split; [done|by eapply stack_inv_frame_pop|done|done|by apply (heap_ok_frame s)]. }
  destruct Hres as (limit & Hl & ->). pose proof (left_frame_inv f rest limit s Hr Ef Hb Hl) as Hr2.
  pose proof (safe_point_inv _ Hr2) as Hsp. unfold bind.
  destruct (return_safe_point _) as [[] s3|s3|] eqn:Esp; [|done|done].
  destruct Hsp as [Hr3 E]. pose proof (handler_goto (return_instruction_pointer f) Hret s3 Hr3) as Hg.
  cbn [goto modify] in *. unfold control_view in E. injection E as E1 E2 E3 E4 E5 E6 E7 E8 E9.
  split; [lia|]. split; [done|]. split; [done|]. split; [by rewrite <- E5|]. split; [exact E3|]. split; [by rewrite <- E8|].
  by exists limit, s3.
Qed.

Lemma handler_return : handler (op_return p).
Proof.
  intros s Hr. destruct (call_frames s) as [|f rest] eqn:Ef.
  - unfold op_return, bind, get. rewrite Ef. by apply handler_halt.
  - pose proof (return_run f rest s Hr Ef) as Hrun. by destruct (op_return p s) as [[] s'|s'|]; [apply Hrun| |].
Qed.

(** The instructions whose C code can be undefined on a sound state. *)
Definition may_be_undefined (op : AivmOpcode) : bool :=
  match op with
  | AIVM_OP_ADD_INT | AIVM_OP_SUB_NUM | AIVM_OP_MUL_NUM | AIVM_OP_DIV_NUM | AIVM_OP_MOD_NUM
  | AIVM_OP_POW_NUM | AIVM_OP_EQ => true
  | _ => false
  end.

Lemma control_op_handler i m : control_op p i = Some m ->
  partial_handler m /\ (may_be_undefined (opcode i) = false -> handler m).
Proof.
  unfold control_op, may_be_undefined. destruct (opcode i); intros [= <-];
    split; try (intros Hu; discriminate Hu); try intros _; try apply partial_numeric; try apply partial_eq;
    try apply handler_partial;
    first [ apply handler_advance | apply handler_halt | apply handler_stub | apply handler_op_push
          | apply handler_pop | apply handler_store_local | apply handler_load_local | apply handler_lt
          | apply handler_jump | apply handler_jump_if_false | apply handler_call | apply handler_return
          | apply handler_eq_int | apply handler_const ].
Qed.

End Safety.
