(* ===== verification/Step.v ===== *)
(** * The interpreter loop ([aivm_step], [aivm_run] of src/src/aivm_vm.c)

    One step fetches an instruction, records it in the history, runs its handler
    and settles the status.  The instruction set is a parameter [exec] (the
    handler of an instruction, [None] where it is not modelled), so that the
    theorems about the core instructions hold for every set that contains them. *)

From S2P Require Import Prelude Types Program Numeric Vm Lifecycle Stack Memory Control ControlSafety.

(** ** Steps *)

Inductive outcome :=
  | Next (s : AivmVm)
  | Undefined
  | NotModelled.

(** The end of [aivm_step]. *)
Definition settle (p : AivmProgram) (s : AivmVm) : AivmVm :=
  if bool_decide (status s = AIVM_VM_STATUS_RUNNING) && (instruction_count p <=? instruction_pointer s)
  then set_status AIVM_VM_STATUS_HALTED s else s.

(** The state in which the handler starts. *)
Definition begin_instruction (i : AivmInstruction) (s : AivmVm) : AivmVm :=
  set_recent_opcodes
    (take 24 (mk_opcode_entry (instruction_pointer s) (opcode i) (stack_count s) :: recent_opcodes s))
    (set_error_detail DNull (set_status AIVM_VM_STATUS_RUNNING s)).

Definition finish_instruction (p : AivmProgram) (r : res unit) : outcome :=
  match r with
  | Ok _ s => Next (settle p s)
  | Err s => Next (settle p (set_instruction_pointer (instruction_count p) s))
  | Undef => Undefined
  end.

Definition stopped (s : AivmVm) : bool :=
  bool_decide (status s = AIVM_VM_STATUS_HALTED) || bool_decide (status s = AIVM_VM_STATUS_ERROR).

Section Machine.

Context (exec : AivmProgram -> AivmInstruction -> option (M unit)).

Definition aivm_step (s : AivmVm) : outcome :=
  match program s with
  | None => Next s
  | Some p =>
      if bool_decide (instruction_store p = []) then
        if instruction_count p =? 0 then Next (set_status AIVM_VM_STATUS_HALTED s)
        else Next (set_instruction_pointer (instruction_count p)
               (aivm_set_vm_error AIVM_VM_ERR_INVALID_PROGRAM (DText "Program instruction buffer is null.") s))
      else if stopped s then Next s
      else if instruction_count p <=? instruction_pointer s then Next (set_status AIVM_VM_STATUS_HALTED s)
      else
        match zget (instruction_store p) (instruction_pointer s) with
        | None => Undefined
        | Some i =>
            match exec p i with
            | None => NotModelled
            | Some m => finish_instruction p (m (begin_instruction i s))
            end
        end
  end.

(** [aivm_run]: the loop need not end; [None] when the fuel does. *)
Fixpoint run_loop (fuel : nat) (p : AivmProgram) (s : AivmVm) : option outcome :=
  if (instruction_pointer s <? instruction_count p) && negb (stopped s) then
    match fuel with
    | O => None
    | S fuel' => match aivm_step s with Next s' => run_loop fuel' p s' | o => Some o end
    end
  else Some (Next s).

Definition aivm_run (fuel : nat) (s : AivmVm) : option outcome :=
  match program s with
  | None => Some (Next s)
  | Some p =>
      if instruction_count p =? 0 then Some (Next (set_status AIVM_VM_STATUS_HALTED s))
      else run_loop fuel p s
  end.

(** Reachability by steps. *)
Inductive steps : AivmVm -> AivmVm -> Prop :=
  | steps_refl s : steps s s
  | steps_next s s1 s2 : aivm_step s = Next s1 -> steps s1 s2 -> steps s s2.

End Machine.

(** ** Safety of steps *)

Section StepSafety.

Context `{SP : SafePoint} (heap_ok : AivmVm -> Prop) `{!SafePointLaws heap_ok}.
Context (p : AivmProgram) (Hp : code_ok p).

Lemma begin_inv i s : vm_inv heap_ok p s -> vm_inv heap_ok p (begin_instruction i s).
Proof. by apply vm_inv_frame. Qed.

Lemma settle_inv s : vm_inv heap_ok p s -> vm_inv heap_ok p (settle p s).
Proof. intros Hs. unfold settle. destruct (_ && _); [by apply (vm_inv_frame heap_ok p s)|done]. Qed.

Lemma halt_ip_inv s : vm_inv heap_ok p s -> vm_inv heap_ok p (set_instruction_pointer (instruction_count p) s).
Proof.
  intros []. split; try done; [by eapply stack_inv_view; [|exact vi_stack]|cbn; lia|].
  by eapply heap_ok_frame; [|exact vi_heap].
Qed.

(** Programs of core instructions. *)
Definition is_core (i : AivmInstruction) : bool := bool_decide (is_Some (control_op p i)).

Context (exec : AivmProgram -> AivmInstruction -> option (M unit)).
Context (Hexec : forall i m, control_op p i = Some m -> exec p i = Some m).

(** The instruction about to run. *)
Definition current (s : AivmVm) : option AivmInstruction :=
  zget (instruction_store p) (instruction_pointer s).

Lemma handler_finish m s : partial_handler heap_ok p m -> running heap_ok p s ->
  match finish_instruction p (m s) with
  | Next s' => vm_inv heap_ok p s' /\
      (forall s1, m s = Err s1 -> status s' = AIVM_VM_STATUS_ERROR /\ instruction_pointer s' = instruction_count p)
  | Undefined => m s = Undef
  | NotModelled => False
  end.
Proof.
  intros Hm Hs. specialize (Hm s Hs). unfold finish_instruction. destruct (m s) as [[] s1|s1|]; [| |done].
  - split; [by apply settle_inv|done].
  - destruct Hm as [Hv He]. split; [by apply settle_inv, halt_ip_inv|]. intros s2 [= <-].
    unfold settle. cbn. rewrite He. done.
Qed.

Lemma step_core s :
  vm_inv heap_ok p s -> (forall i, current s = Some i -> is_core i = true) ->
  match aivm_step exec s with
  | Next s' => vm_inv heap_ok p s' /\
      (forall i m s1, stopped s = false -> current s = Some i -> control_op p i = Some m ->
         m (begin_instruction i s) = Err s1 ->
         status s' = AIVM_VM_STATUS_ERROR /\ instruction_pointer s' = instruction_count p)
  | Undefined => exists i, current s = Some i /\ may_be_undefined (opcode i) = true
  | NotModelled => False
  end.
Proof.
  intros Hv Hcore. pose proof Hv as [Hpr Hst Hip Hfr Hh]. unfold aivm_step. rewrite Hpr.
  pose proof (co_instructions p Hp) as Hlen.
  case_bool_decide as Enil.
  { assert (Hno : forall i, current s <> Some i).
    { intros i Hi. unfold current in Hi. rewrite Enil in Hi. apply zget_Some_bounds in Hi. unfold zlen in Hi. cbn in Hi. lia. }
    destruct (instruction_count p =? 0).
    - split; [by apply (vm_inv_frame heap_ok p s)|]. intros i m s1 _ Hi. by apply Hno in Hi.
    - split; [by apply halt_ip_inv, vm_inv_error|]. intros i m s1 _ Hi. by apply Hno in Hi. }
  destruct (stopped s) eqn:Est; [by split|].
  destruct (Z.leb_spec (instruction_count p) (instruction_pointer s)).
  { split; [by apply (vm_inv_frame heap_ok p s)|]. intros i m s1 _ Hi. unfold current in Hi. apply zget_Some_bounds in Hi. lia. }
  destruct (zget_is_Some (instruction_store p) (instruction_pointer s)) as [i Hi]; [lia|].
  fold (current s) in *. rewrite Hi. specialize (Hcore i Hi). apply bool_decide_eq_true in Hcore as [m Hm].
  rewrite (Hexec i m Hm). destruct (control_op_handler heap_ok p Hp i m Hm) as [Hpart Htot].
  assert (Hrun : running heap_ok p (begin_instruction i s)) by (split; [by apply begin_inv|done]).
  pose proof (handler_finish m (begin_instruction i s) Hpart Hrun) as Hfin.
  destruct (finish_instruction p (m (begin_instruction i s))); [| |done].
  - destruct Hfin as [Hv' He]. split; [done|]. intros i' m' s1 _ [= <-] Hm' Herr. rewrite Hm in Hm'. injection Hm' as <-.
    by eapply He.
  - exists i. split; [done|]. destruct (may_be_undefined (opcode i)) eqn:Eu; [done|].
    specialize (Htot eq_refl (begin_instruction i s) Hrun). by rewrite Hfin in Htot.
Qed.

End StepSafety.
