(* ===== verification/Calls.v ===== *)
(** * Calling convention

    Theorems about whole executions of core instructions: every reachable state
    is sound; a call followed by the STORE_LOCALs at its target binds the
    arguments to the callee's locals; a tail call reuses the frame; a return
    gives control, locals and stack back to the caller. *)

From S2P Require Import Prelude Types Program Numeric Vm Lifecycle Stack Memory Control ControlSafety Step.

Section Calls.

Context `{SP : SafePoint} (heap_ok : AivmVm -> Prop) `{!SafePointLaws heap_ok}.
Context (p : AivmProgram) (Hp : code_ok p).
Context (exec : AivmProgram -> AivmInstruction -> option (M unit)).
Context (Hexec : forall i m, control_op p i = Some m -> exec p i = Some m).

(** ** Single steps of known instructions *)

Definition at_instruction (s : AivmVm) (i : AivmInstruction) : Prop :=
  vm_inv heap_ok p s /\ stopped s = false /\ current p s = Some i.

Lemma step_at s i m : at_instruction s i -> control_op p i = Some m ->
  aivm_step exec s = finish_instruction p (m (begin_instruction i s)) /\
  running heap_ok p (begin_instruction i s).
Proof.
  intros (Hv & Hst & Hi) Hm. pose proof (zget_Some_bounds _ _ _ Hi) as Hb. rewrite (co_instructions p Hp) in Hb.
  unfold aivm_step. rewrite (vi_program heap_ok p s Hv), Hst.
  case_bool_decide as Enil; [unfold current in Hi; by rewrite Enil in Hi; apply zget_Some_bounds in Hi; unfold zlen in Hi; cbn in Hi; lia|].
  destruct (Z.leb_spec (instruction_count p) (instruction_pointer s)); [lia|].
  unfold current in Hi. rewrite Hi, (Hexec i m Hm). split; [done|].
  split; [by apply begin_inv|cbn; lia].
Qed.

(** STORE_LOCAL on a state with a value on the stack and room for the local. *)
Lemma store_step l v rest s :
  at_instruction s (mk_instruction AIVM_OP_STORE_LOCAL l) -> 0 <= l ->
  stack s = v :: rest -> frame_on_stack (set_stack rest s) = true ->
  active_locals_base s + l < AIVM_VM_LOCALS_CAPACITY ->
  exists s', aivm_step exec s = Next s' /\ vm_inv heap_ok p s' /\
    stack s' = rest /\ instruction_pointer s' = instruction_pointer s + 1 /\
    call_frames s' = call_frames s /\
    locals s' = local_write (locals s) (active_locals_base s + l) v /\
    locals_count s' = Z.max (locals_count s) (active_locals_base s + l + 1) /\
    (instruction_pointer s + 1 < instruction_count p -> stopped s' = false).
Proof.
  intros Hat Hl Es Hf Hcap. destruct (step_at s _ (op_store_local l) Hat eq_refl) as [-> Hrun].
  set (s0 := begin_instruction _ s) in *.
  pose proof (handler_finish heap_ok p (op_store_local l) s0 (handler_partial _ _ _ (handler_store_local _ _ l)) Hrun) as Hfin.
  assert (Hst0 : stack_inv (set_stack rest s0)).
  { eapply stack_inv_pop; [apply Hrun|exact Es]. }
  destruct (local_set_run l v (set_stack rest s0) Hst0 Hf Hl) as (limit & Hlim & Hset).
  change (active_locals_base (set_stack rest s0)) with (active_locals_base s) in Hset.
  rewrite (proj2 (Z.ltb_lt _ _)) in Hset by lia. destruct Hset as [_ Hset].
  assert (Hm : exists s1, op_store_local l s0 = Ok tt s1 /\ stack s1 = rest /\
    instruction_pointer s1 = instruction_pointer s + 1 /\ call_frames s1 = call_frames s /\
    locals s1 = local_write (locals s) (active_locals_base s + l) v /\
    locals_count s1 = Z.max (locals_count s) (active_locals_base s + l + 1) /\ status s1 = AIVM_VM_STATUS_RUNNING).
  { unfold op_store_local, operand_to_index, bind. rewrite (proj2 (Z.ltb_ge _ _)) by lia. cbn [ret].
    unfold aivm_stack_pop, bind, get. change (stack s0) with (stack s). rewrite Es. unfold modify at 1, ret.
    rewrite Hset. eexists. split; [reflexivity|]. by split_and!. }
  destruct Hm as (s1 & Hm & H1 & H2 & H3 & H4 & H5 & H6). rewrite Hm in *. cbn [finish_instruction] in *.
  exists (settle p s1). split; [done|]. split; [apply Hfin|].
  unfold settle. destruct (_ && _) eqn:E; cbn; split_and!; try done.
  - intros. lia.
  - intros _. unfold stopped. by rewrite H6.
Qed.

(** ** Argument binding *)

Lemma store_args_steps ls : forall args below s,
  store_targets p (length ls) (instruction_pointer s) ls -> NoDup ls ->
  vm_inv heap_ok p s -> stopped s = false -> stack s = args ++ below -> length args = length ls ->
  (forall f rest, call_frames s = f :: rest -> frame_base f <= zlen below) ->
  Forall (fun l => active_locals_base s + l < AIVM_VM_LOCALS_CAPACITY) ls ->
  exists s', steps exec s s' /\ vm_inv heap_ok p s' /\ stack s' = below /\
    instruction_pointer s' = instruction_pointer s + Z.of_nat (length ls) /\ call_frames s' = call_frames s /\
    locals_count s <= locals_count s' /\
    (forall k l v, ls !! k = Some l -> args !! k = Some v ->
       active_locals_base s + l < locals_count s' /\ local_read (locals s') (active_locals_base s + l) = v) /\
    (forall j, 0 <= j -> (forall l, l ∈ ls -> j <> active_locals_base s + l) ->
       local_read (locals s') j = local_read (locals s) j).
Proof.
  induction ls as [|l ls IH]; intros args below s Htg Hnd Hv Hst Es Hlen Hfr Hcap.
  { destruct args; [|done]. exists s. split; [constructor|]. rewrite Z.add_0_r. by split_and!. }
  destruct args as [|v args]; [done|]. destruct Htg as (_ & Hpos & Hget). apply Forall_cons in Hpos as [Hl Hpos].
  apply NoDup_cons in Hnd as [Hnin Hnd]. apply Forall_cons in Hcap as [Hc Hcap].
  assert (Hbase : 0 <= active_locals_base s).
  { pose proof (si_ordered s (vi_stack _ _ _ Hv)) as Ho. unfold active_locals_base. destruct (call_frames s); [lia|]. cbn in Ho. lia. }
  pose proof (Hget 0%nat l eq_refl) as Hi. rewrite Z.add_0_r in Hi.
  destruct (store_step l v (args ++ below) s) as (s1 & Hstep & Hv1 & Hs1 & Hip1 & Hf1 & Hl1 & Hc1 & Hrun1); try done.
  { unfold frame_on_stack. cbn. destruct (call_frames s) as [|f rest] eqn:Ef; [done|]. specialize (Hfr f rest eq_refl).
    unfold stack_count. cbn. rewrite zlen_app. pose proof (zlen_nonneg args). lia. }
  assert (Hb1 : active_locals_base s1 = active_locals_base s) by (unfold active_locals_base; by rewrite Hf1).
  destruct ls as [|l2 ls'].
  { destruct args; [|done]. exists s1. split; [eapply steps_next; [done|constructor]|]. cbn [length].
    split_and!; try done; try lia.
    - intros [|k] l' v'; [|done]. intros [= <-] [= <-]. rewrite Hl1, Hc1, local_read_write_eq by lia. split; [lia|done].
    - intros j Hj Hne. rewrite Hl1, local_read_write_ne; [done|lia|done|]. intros <-. by apply (Hne l); [left|]. }
  assert (Hlt : instruction_pointer s + 1 < instruction_count p).
  { pose proof (Hget 1%nat l2 eq_refl) as Hi2. apply zget_Some_bounds in Hi2. pose proof (co_instructions p Hp). lia. }
  set (tl := l2 :: ls') in *.
  destruct (IH args below s1) as (s2 & Hsteps & Hv2 & Hs2 & Hip2 & Hf2 & Hlc2 & Hread & Hkeep); try done.
  - split; [done|]. split; [done|]. intros k l' Hk. rewrite Hip1. rewrite <- (Hget (S k) l' Hk). f_equal. lia.
  - by apply Hrun1.
  - by injection Hlen.
  - by rewrite Hf1.
  - by rewrite Hb1.
  - rewrite Hb1 in *. exists s2. split; [by eapply steps_next|]. split; [done|]. split; [done|].
    cbn [length] in *. split; [lia|]. split; [congruence|]. split; [lia|]. split.
    + intros [|k] l' v'; cbn; [|by apply Hread]. intros [= <-] [= <-]. split; [lia|].
      rewrite Hkeep; [by rewrite Hl1, local_read_write_eq by lia|lia|]. intros l' Hin Heq.
      apply Hnin. by replace l with l' by lia.
    + intros j Hj Hne. rewrite Hkeep; [|done|intros l' Hin; apply Hne; by right].
      rewrite Hl1, local_read_write_ne; [done|lia|done|]. intros <-. by apply (Hne l); [left|].
Qed.

(** ** Theorems *)

(** A step on a core instruction from a sound state never gets outside
    the arrays of the VM: it ends in a sound state, or the instruction is one of
    arithmetic or EQ, whose C code can be undefined.  When the handler fails, the
    step ends with the error status and the instruction pointer at the end of the
    program: no failure is silent. *)
Theorem step_core_safe s :
  vm_inv heap_ok p s -> (forall i, current p s = Some i -> is_core p i = true) ->
  match aivm_step exec s with
  | Next s' => vm_inv heap_ok p s' /\
      (forall i m s1, stopped s = false -> current p s = Some i -> control_op p i = Some m ->
         m (begin_instruction i s) = Err s1 ->
         status s' = AIVM_VM_STATUS_ERROR /\ instruction_pointer s' = instruction_count p)
  | Undefined => exists i, current p s = Some i /\ may_be_undefined (opcode i) = true
  | NotModelled => False
  end.
Proof. by apply step_core. Qed.

(** The effect of a CALL step that does not fail. *)
Lemma call_step target s s1 :
  at_instruction s (mk_instruction AIVM_OP_CALL target) ->
  aivm_step exec s = Next s1 -> status s1 <> AIVM_VM_STATUS_ERROR ->
  vm_inv heap_ok p s1 /\ stopped s1 = false /\
  call_outcome p target (begin_instruction (mk_instruction AIVM_OP_CALL target) s) s1.
Proof.
  intros Hat Hstep Hne. destruct (step_at s _ (op_call p target) Hat eq_refl) as [E Hrun]. rewrite E in Hstep.
  set (s0 := begin_instruction _ s) in *.
  pose proof (handler_finish heap_ok p (op_call p target) s0 (handler_partial _ _ _ (handler_call _ _ Hp target)) Hrun) as Hfin.
  pose proof (call_run heap_ok p Hp target s0 Hrun) as Hc. rewrite Hstep in Hfin. destruct Hfin as [Hv Herr].
  destruct (op_call p target s0) as [[] s'|s'|]; [|by destruct (Herr s' eq_refl)|done].
  injection Hstep as Hs1.
  assert (Hset : settle p s' = s' /\ status s' = AIVM_VM_STATUS_RUNNING).
  { destruct Hc as (Ht & _ & _ & Hc). unfold settle.
    assert (instruction_pointer s' = target /\ status s' = AIVM_VM_STATUS_RUNNING) as [-> Hs'].
    { destruct (call_frames s0); [by destruct Hc as (limit & _ & ->)|].
      by destruct Hc as (_ & [[_ ->]|(_ & _ & limit & _ & ->)]). }
    split; [|done]. replace (instruction_count p <=? target) with false by lia. by rewrite andb_false_r. }
  destruct Hset as [Hid Hrunning]. rewrite Hid in Hs1. subst s1. split; [done|]. split; [|done].
  unfold stopped. by rewrite Hrunning.
Qed.

(** The top frame after a call starts right below the arguments. *)
Lemma call_outcome_stack target s s1 :
  stack_inv s -> call_outcome p target s s1 ->
  let argc := infer_call_arg_count p target in
  instruction_pointer s1 = target /\
  exists f rest below, call_frames s1 = f :: rest /\ stack s1 = ztake argc (stack s) ++ below /\
    zlen below = frame_base f.
Proof.
  intros Hst (Ht & Ha & _ & Hc) argc. fold argc in Ha, Hc. unfold stack_count in *.
  assert (Hent : forall limit, s1 = entered target argc limit s -> instruction_pointer s1 = target /\
    exists f rest below, call_frames s1 = f :: rest /\ stack s1 = ztake argc (stack s) ++ below /\ zlen below = frame_base f).
  { intros limit ->. split; [done|]. eexists _, _, (zdrop argc (stack s)). split; [done|]. split.
    - cbn. unfold ztake, zdrop. by rewrite take_drop.
    - rewrite zlen_zdrop by lia. done. }
  destruct (call_frames s) as [|f rest] eqn:Ef; [destruct Hc as (limit & _ & Hs); by eapply Hent|].
  destruct Hc as (Hb & [[_ ->]|(_ & _ & limit & _ & Hs)]); [|by eapply Hent].
  split; [done|]. exists f, rest, (zdrop (stack_count s - frame_base f) (stack s)). split; [done|]. split; [done|].
  pose proof (si_ordered s Hst) as Ho. rewrite Ef in Ho. destruct Ho as [Hb0 _].
  unfold stack_count. rewrite zlen_zdrop by lia. lia.
Qed.

(** C13: the calling convention.  After a CALL step, ordinary or tail, the
    STORE_LOCALs at the target run without an error and move the arguments, top of
    stack first, into the locals they name: each local of the callee then reads as
    its argument, and the stack is empty down to the base of the callee's frame.
    (The number of arguments is inferred from these STORE_LOCALs, and CALL has
    checked that they name distinct locals.) *)
Theorem call_binds_arguments target s s1 :
  at_instruction s (mk_instruction AIVM_OP_CALL target) ->
  aivm_step exec s = Next s1 -> status s1 <> AIVM_VM_STATUS_ERROR ->
  (forall i, i ∈ instruction_store p -> opcode i = AIVM_OP_STORE_LOCAL ->
     active_locals_base s1 + operand_int i < AIVM_VM_LOCALS_CAPACITY) ->
  exists ls s2 f rest,
    infer_call_arg_count p target = zlen ls /\ store_targets p (length ls) target ls /\
    steps exec s1 s2 /\ vm_inv heap_ok p s2 /\ instruction_pointer s2 = target + zlen ls /\
    call_frames s1 = f :: rest /\ call_frames s2 = f :: rest /\ stack_count s2 = frame_base f /\
    forall k l v, ls !! k = Some l -> stack s !! k = Some v -> aivm_local_get l s2 = Ok v s2.
Proof.
  intros Hat Hstep Hne Hcap. destruct (call_step target s s1 Hat Hstep Hne) as (Hv1 & Hst1 & Hout).
  set (s0 := begin_instruction _ s) in *. pose proof (proj1 Hat) as Hv.
  assert (Hst0 : stack_inv s0) by (apply (begin_inv heap_ok p (mk_instruction AIVM_OP_CALL target) s Hv)).
  destruct (call_outcome_stack target s0 s1 Hst0 Hout) as (Hip & f & rest & below & Hf & Hs1 & Hbelow).
  destruct Hout as (Ht & Ha & (ls & Htg & Hnd) & _).
  assert (Hlen : length ls = Z.to_nat (infer_call_arg_count p target)) by apply Htg.
  rewrite <- Hlen in Htg.
  destruct (store_args_steps ls (ztake (infer_call_arg_count p target) (stack s0)) below s1)
    as (s2 & Hsteps & Hv2 & Hs2 & Hip2 & Hf2 & Hlc & Hread & _); try done.
  - by rewrite Hip.
  - rewrite Hlen. unfold ztake. rewrite length_take. unfold stack_count, zlen in Ha. lia.
  - intros f' rest'. rewrite Hf. intros [= <- <-]. lia.
  - apply Forall_forall. intros l Hl. apply list_elem_of_lookup in Hl as [k Hk].
    destruct Htg as (_ & _ & Hget). specialize (Hget k l Hk). pose proof (zget_Some_bounds _ _ _ Hget).
    rewrite zget_lookup in Hget by lia. apply (Hcap (mk_instruction AIVM_OP_STORE_LOCAL l)); [|done].
    by eapply list_elem_of_lookup_2.
  - exists ls, s2, f, rest. split; [unfold zlen; lia|]. split; [done|]. split; [done|]. split; [done|].
    split; [unfold zlen; lia|]. split; [done|]. split; [congruence|]. split; [unfold stack_count; congruence|].
    intros k l v Hk Hkv.
    assert (Hk2 : ztake (infer_call_arg_count p target) (stack s0) !! k = Some v).
    { unfold ztake. rewrite lookup_take_lt; [done|]. apply lookup_lt_Some in Hk. lia. }
    destruct (Hread k l v Hk Hk2) as [Hlt Hval].
    assert (Hb2 : active_locals_base s2 = active_locals_base s1) by (unfold active_locals_base; by rewrite Hf2).
    assert (Hl0 : 0 <= l) by (destruct Htg as (_ & Hpos & _); rewrite Forall_forall in Hpos; apply Hpos; by eapply list_elem_of_lookup_2).
    rewrite local_get_run; [|apply Hv2| |done].
    + rewrite Hb2, Hval, (proj2 (Z.ltb_lt _ _)) by lia. done.
    + unfold frame_on_stack. rewrite Hf2, Hf. unfold stack_count. rewrite Hs2. lia.
Qed.

(** A call in a frame that is directly followed by a return is a tail
    call: it adds no frame, keeps the return address of the caller, leaves exactly
    the arguments above the base of the frame and drops the frame's locals, so a
    chain of tail calls runs in constant frame, stack and local space. *)
Theorem tail_call_reuses_frame target f rest s s1 :
  at_instruction s (mk_instruction AIVM_OP_CALL target) -> call_frames s = f :: rest ->
  next_is_return p s ->
  aivm_step exec s = Next s1 -> status s1 <> AIVM_VM_STATUS_ERROR ->
  instruction_pointer s1 = target /\ call_frames s1 = f :: rest /\ locals_count s1 = locals_base f /\
  stack_count s1 = frame_base f + infer_call_arg_count p target /\
  ztake (infer_call_arg_count p target) (stack s1) = ztake (infer_call_arg_count p target) (stack s).
Proof.
  intros Hat Hf Hret Hstep Hne. destruct (call_step target s s1 Hat Hstep Hne) as (_ & _ & Hout).
  pose proof (si_ordered s (vi_stack _ _ _ (proj1 Hat))) as Ho. rewrite Hf in Ho. destruct Ho as [Hb0 _].
  destruct Hout as (_ & Ha & _ & Hc). cbn [call_frames begin_instruction set_recent_opcodes set_error_detail set_status] in Hc.
  rewrite Hf in Hc. destruct Hc as (Hb & [[_ ->]|(Hnr & _)]); [|done].
  set (argc := infer_call_arg_count p target) in *. set (s0 := begin_instruction _ s) in *.
  change (stack_count s0) with (stack_count s) in *. unfold stack_count in Ha, Hb.
  split; [done|]. split; [done|]. split; [done|]. split.
  - change (zlen (ztake argc (stack s) ++ zdrop (stack_count s - frame_base f) (stack s)) = frame_base f + argc).
    unfold stack_count. rewrite zlen_app, zlen_ztake, zlen_zdrop by lia. lia.
  - change (ztake argc (ztake argc (stack s) ++ zdrop (stack_count s - frame_base f) (stack s)) = ztake argc (stack s)).
    unfold ztake. rewrite take_app_le by (rewrite length_take; unfold zlen in Ha; lia).
    by rewrite take_take, Nat.min_id.
Qed.

(** C14: matching calls and returns.  When an ordinary call is entered and
    later a RETURN (or RET) runs with the callee's frame on top, execution resumes
    right after the call with the caller's frames and number of locals; the arguments
    are gone from the stack and at most one value, the return value, is in their place.
    The return moves no value: when the safe point is reached ([r]) the stack, the
    contents of the locals and the heap are those the callee left, the return value on
    top; what follows is the safe point (a collection where one is due) and nothing
    else. *)
Theorem call_return_matches target op s s1 s2 s3 :
  at_instruction s (mk_instruction AIVM_OP_CALL target) ->
  call_frames s = [] \/ ~ next_is_return p s ->
  aivm_step exec s = Next s1 -> status s1 <> AIVM_VM_STATUS_ERROR ->
  at_instruction s2 op -> is_return op = true -> call_frames s2 = call_frames s1 ->
  aivm_step exec s2 = Next s3 -> status s3 <> AIVM_VM_STATUS_ERROR ->
  instruction_pointer s3 = instruction_pointer s + 1 /\ call_frames s3 = call_frames s /\
  locals_count s3 = locals_count s /\
  let base := stack_count s - infer_call_arg_count p target in
  base <= stack_count s3 <= base + 1 /\ stack_count s3 = stack_count s2 /\
  exists r r', stack r = stack s2 /\ locals r = locals s2 /\ heap_view r = heap_view s2 /\
    call_frames r = call_frames s /\ locals_count r = locals_count s /\
    return_safe_point r = Ok tt r' /\ s3 = settle p (set_instruction_pointer (instruction_pointer s + 1) r').
Proof.
  intros Hat Hord Hstep Hne Hat2 Hop Hfr Hstep2 Hne2.
  destruct (call_step target s s1 Hat Hstep Hne) as (_ & _ & _ & Ha & _ & Hc). set (s0 := begin_instruction _ s) in *.
  assert (Hent : exists limit, s1 = entered target (infer_call_arg_count p target) limit s0).
  { change (call_frames s0) with (call_frames s) in Hc. change (next_is_return p s0) with (next_is_return p s) in Hc.
    destruct (call_frames s) as [|f rest]; [destruct Hc as (limit & _ & ?); by exists limit|].
    destruct Hc as (_ & [[Hr _]|(_ & _ & limit & _ & ?)]); [|by exists limit]. by destruct Hord. }
  destruct Hent as (limit & Hs1). rewrite Hs1 in Hfr.
  set (f := mk_frame (instruction_pointer s + 1) (stack_count s - infer_call_arg_count p target) (locals_count s)).
  change (call_frames s2 = f :: call_frames s) in Hfr.
  destruct (step_at s2 op (op_return p) Hat2) as [E Hrun].
  { unfold is_return in Hop. unfold control_op. destruct (opcode op); first [done | reflexivity]. }
  rewrite E in Hstep2. set (s20 := begin_instruction op s2) in *.
  pose proof (handler_finish heap_ok p (op_return p) s20 (handler_partial _ _ _ (handler_return _ _ Hp)) Hrun) as Hfin.
  pose proof (return_run heap_ok p f (call_frames s) s20 Hrun Hfr) as Hr. rewrite Hstep2 in Hfin. destruct Hfin as [_ Herr].
  destruct (op_return p s20) as [[] s'|s'|]; [|by destruct (Herr s' eq_refl)|done].
  destruct Hr as (Hb & _ & Hip & Hf & Hsc & Hlc & limit' & r' & Hsp & Er). injection Hstep2 as <-.
  assert (Hsame : forall A (g : AivmVm -> A), (forall st x, g (set_status st x) = g x) -> g (settle p s') = g s').
  { intros A g Hg. unfold settle. by destruct (_ && _). }
  rewrite (Hsame _ instruction_pointer), (Hsame _ call_frames), (Hsame _ locals_count), (Hsame _ stack_count) by done.
  change (stack_count s20) with (stack_count s2) in *. rewrite Hip, Hf, Hlc, Hsc.
  split; [done|]. split; [done|]. split; [done|]. split; [exact Hb|]. split; [done|].
  exists (left_frame f (call_frames s) limit' s20), r'. by rewrite Er.
Qed.

End Calls.

(** ** Examples *)

(** A safe point at which nothing is due. *)
Definition idle_safe_point : SafePoint := {| return_safe_point := ret tt |}.

Lemma idle_laws : SafePointLaws (H := idle_safe_point) (fun _ => True).
Proof. split; [done|]. intros s _ _. by split. Qed.

(** [main] calls a function of one argument, which calls itself in tail position
    until the argument is false and then returns 7. *)
Definition example_code : list AivmInstruction :=
  [mk_instruction AIVM_OP_PUSH_BOOL 1; mk_instruction AIVM_OP_CALL 3; mk_instruction AIVM_OP_HALT 0;
   mk_instruction AIVM_OP_STORE_LOCAL 2; mk_instruction AIVM_OP_LOAD_LOCAL 2;
   mk_instruction AIVM_OP_JUMP_IF_FALSE 9; mk_instruction AIVM_OP_PUSH_BOOL 0;
   mk_instruction AIVM_OP_CALL 3; mk_instruction AIVM_OP_RETURN 0;
   mk_instruction AIVM_OP_PUSH_INT 7; mk_instruction AIVM_OP_RETURN 0].

Definition example_program : AivmProgram :=
  set_instructions example_code 11 AIVM_PROGRAM_INLINE_INSTRUCTIONS aivm_program_clear.

Definition example_exec : AivmProgram -> AivmInstruction -> option (M unit) :=
  fun p i => control_op (H := idle_safe_point) p i.

Definition example_start : AivmVm := set_program (Some example_program) example_vm.

Fixpoint example_states (n : nat) (s : AivmVm) : AivmVm :=
  match n with
  | O => s
  | S n' => match aivm_step example_exec s with Next s' => example_states n' s' | _ => s end
  end.

Lemma example_code_ok : code_ok example_program.
Proof. split; done. Qed.

Lemma example_core i : i ∈ instruction_store example_program -> is_core (SP := idle_safe_point) example_program i = true.
Proof.
  intros Hi. cbn in Hi. repeat (apply elem_of_cons in Hi as [->|Hi]; [by vm_compute|]). by apply elem_of_nil in Hi.
Qed.

Lemma example_start_inv : vm_inv (fun _ => True) example_program example_start.
Proof. by split. Qed.

Lemma example_states_inv n s :
  vm_inv (fun _ => True) example_program s -> vm_inv (fun _ => True) example_program (example_states n s).
Proof.
  revert s. induction n as [|n IH]; intros s Hv; [done|]. cbn [example_states].
  pose proof (step_core (SP := idle_safe_point) (SafePointLaws0 := idle_laws) (fun _ => True) example_program
    example_code_ok example_exec (fun i m H => H) s Hv) as Hs.
  destruct (aivm_step example_exec s); [|done|done]. apply IH, Hs.
  intros i Hi. apply example_core. unfold current in Hi. pose proof (zget_Some_bounds _ _ _ Hi).
  rewrite zget_lookup in Hi by lia. by eapply list_elem_of_lookup_2.
Qed.

Definition at_call : AivmVm := example_states 1 example_start.
Definition in_callee : AivmVm := example_states 2 example_start.
Definition at_tail_call : AivmVm := example_states 6 example_start.
Definition at_return : AivmVm := example_states 11 example_start.

Lemma at_call_instruction : at_instruction (fun _ => True) example_program at_call (mk_instruction AIVM_OP_CALL 3).
Proof. split; [apply example_states_inv, example_start_inv|]. split; by vm_compute. Qed.

Lemma step_core_safe_witness :
  vm_inv (fun _ => True) example_program at_call /\
  exists s', aivm_step example_exec at_call = Next s' /\ vm_inv (fun _ => True) example_program s'.
Proof.
  assert (Hv : vm_inv (fun _ => True) example_program at_call) by apply example_states_inv, example_start_inv.
  split; [exact Hv|].
  pose proof (step_core_safe (SP := idle_safe_point) (SafePointLaws0 := idle_laws) (fun _ => True) example_program
    example_code_ok example_exec (fun i m H => H) at_call Hv) as Hs.
  assert (Hc : forall i, current example_program at_call = Some i -> is_core (SP := idle_safe_point) example_program i = true).
  { intros i Hi. vm_compute in Hi. injection Hi as <-. by vm_compute. }
  specialize (Hs Hc). destruct (aivm_step example_exec at_call) as [s'| |] eqn:E;
    [|vm_compute in E; discriminate E|vm_compute in E; discriminate E].
  exists s'. split; [done|]. apply Hs.
Defined.

Lemma call_binds_arguments_witness :
  exists s1 ls s2, aivm_step example_exec at_call = Next s1 /\ zlen ls = 1 /\ steps example_exec s1 s2 /\
    forall k l v, ls !! k = Some l -> stack at_call !! k = Some v -> aivm_local_get l s2 = Ok v s2.
Proof.
  assert (Hst : aivm_step example_exec at_call = Next in_callee) by (vm_compute; reflexivity).
  assert (Hne : status in_callee <> AIVM_VM_STATUS_ERROR) by (vm_compute; discriminate).
  assert (Hcap : forall i, i ∈ instruction_store example_program -> opcode i = AIVM_OP_STORE_LOCAL ->
    active_locals_base in_callee + operand_int i < AIVM_VM_LOCALS_CAPACITY).
  { intros i Hi _. cbn in Hi. repeat (apply elem_of_cons in Hi as [->|Hi]; [by vm_compute|]). by apply elem_of_nil in Hi. }
  destruct (call_binds_arguments (SP := idle_safe_point) (SafePointLaws0 := idle_laws) (fun _ => True) example_program
    example_code_ok example_exec (fun i m H => H) 3 at_call in_callee at_call_instruction Hst Hne Hcap)
    as (ls & s2 & f & rest & Hn & _ & Hsteps & _ & _ & _ & _ & _ & Hread).
  exists in_callee, ls, s2. split; [exact Hst|]. split; [|split; [exact Hsteps|exact Hread]].
  rewrite <- Hn. vm_compute. reflexivity.
Defined.

Lemma tail_call_reuses_frame_witness :
  exists s1 f, aivm_step example_exec at_tail_call = Next s1 /\ call_frames at_tail_call = [f] /\
    instruction_pointer s1 = 3 /\ call_frames s1 = [f] /\ locals_count s1 = locals_base f.
Proof.
  assert (Hat : at_instruction (fun _ => True) example_program at_tail_call (mk_instruction AIVM_OP_CALL 3)).
  { split; [apply example_states_inv, example_start_inv|]. split; by vm_compute. }
  assert (Hret : next_is_return example_program at_tail_call).
  { eexists. split; [vm_compute; reflexivity|reflexivity]. }
  destruct (aivm_step example_exec at_tail_call) as [s1| |] eqn:Hst;
    [|vm_compute in Hst; discriminate Hst|vm_compute in Hst; discriminate Hst].
  assert (Hne : status s1 <> AIVM_VM_STATUS_ERROR).
  { vm_compute in Hst. injection Hst as <-. discriminate. }
  assert (Hf : call_frames at_tail_call = [mk_frame 2 0 0]) by (vm_compute; reflexivity).
  destruct (tail_call_reuses_frame (SP := idle_safe_point) (SafePointLaws0 := idle_laws) (fun _ => True) example_program
    example_code_ok example_exec (fun i m H => H) 3 (mk_frame 2 0 0) [] at_tail_call s1 Hat Hf Hret Hst Hne)
    as (H1 & H2 & H3 & _).
  exists s1, (mk_frame 2 0 0). split; [done|]. split; [exact Hf|]. split; [exact H1|]. split; [exact H2|exact H3].
Defined.

Lemma call_return_matches_witness :
  exists s3, aivm_step example_exec at_return = Next s3 /\ instruction_pointer s3 = 2 /\ call_frames s3 = [] /\
    locals_count s3 = 0 /\ stack s3 = [VInt 7].
Proof.
  assert (Hst : aivm_step example_exec at_call = Next in_callee) by (vm_compute; reflexivity).
  assert (Hne : status in_callee <> AIVM_VM_STATUS_ERROR) by (vm_compute; discriminate).
  assert (Hat2 : at_instruction (fun _ => True) example_program at_return (mk_instruction AIVM_OP_RETURN 0)).
  { split; [apply example_states_inv, example_start_inv|]. split; by vm_compute. }
  assert (Hfr : call_frames at_return = call_frames in_callee) by (vm_compute; reflexivity).
  destruct (aivm_step example_exec at_return) as [s3| |] eqn:Hst2;
    [|vm_compute in Hst2; discriminate Hst2|vm_compute in Hst2; discriminate Hst2].
  assert (Hne2 : status s3 <> AIVM_VM_STATUS_ERROR).
  { vm_compute in Hst2. injection Hst2 as <-. discriminate. }
  assert (Hnil : call_frames at_call = []) by (vm_compute; reflexivity).
  destruct (call_return_matches (SP := idle_safe_point) (SafePointLaws0 := idle_laws) (fun _ => True) example_program
    example_code_ok example_exec (fun i m H => H) 3 (mk_instruction AIVM_OP_RETURN 0) at_call in_callee at_return s3
    at_call_instruction (or_introl Hnil) Hst Hne Hat2 eq_refl Hfr Hst2 Hne2) as (H1 & H2 & H3 & _ & _ & r & r' & H4 & H5 & _ & _ & _ & H6 & H7).
  exists s3. split; [done|]. split; [exact H1|]. split; [exact H2|]. split; [exact H3|].
  injection H6 as <-. rewrite H7. transitivity (stack r); [unfold settle; by destruct (_ && _)|]. rewrite H4. vm_compute. reflexivity.
Defined.
