(* ===== verification/Roots.v ===== *)
(** * Roots of the collector

    The collectors of src/src/aivm_vm.c, aivm_vm_arena.c and aivm_vm_node_gc.c
    walk over the same roots (stack, locals, results of tasks, values of parallel
    contexts, then the live scratch pairs) and update each value in place.  A walk
    that fails stops there: the values before keep their new form. *)

From S2P Require Import Prelude Types Program Vm Lifecycle Stack ControlSafety.

(** ** Walks *)

(** The result of one visit. *)
Inductive visit (B : Type) :=
  | Visited (b : B)
  | Failed (e : AivmVmError) (d : detail)
  | Stuck.
Arguments Visited {B} b.
Arguments Failed {B} e d.
Arguments Stuck {B}.

(** A visitor returns the new form of the value and its own state. *)
Definition visitor (B A : Type) : Type := B -> A -> A * visit B.

(** The values of a walk and its result: what is not reached is unchanged. *)
Fixpoint visit_list {A B} (F : visitor B A) (acc : B) (l : list A) : list A * visit B :=
  match l with
  | [] => ([], Visited acc)
  | x :: rest =>
      match F acc x with
      | (x', Visited acc') => let '(rest', r) := visit_list F acc' rest in (x' :: rest', r)
      | (x', r) => (x' :: rest, r)
      end
  end.

(** A walk over a part of the state. *)
Definition walk {A B} (part : AivmVm -> list A) (update : list A -> AivmVm -> AivmVm)
    (F : visitor B A) (acc : B) : M B := fun s =>
  let '(l, r) := visit_list F acc (part s) in
  match r with
  | Visited b => Ok b (update l s)
  | Failed e d => Err (aivm_set_vm_error e d (update l s))
  | Stuck => Undef
  end.

(** The stack is walked from the bottom, the locals up to the counter. *)
Definition stack_part (s : AivmVm) : list AivmValue := rev (stack s).
Definition set_stack_part (l : list AivmValue) (s : AivmVm) : AivmVm := set_stack (rev l) s.

Definition locals_part (s : AivmVm) : list AivmValue := ztake (locals_count s) (locals s).
Definition set_locals_part (l : list AivmValue) (s : AivmVm) : AivmVm :=
  set_locals (l ++ zdrop (locals_count s) (locals s)) s.

Definition tasks_part (s : AivmVm) : list AivmValue := map task_result (completed_tasks s).
Definition set_result (t : AivmCompletedTask) (v : AivmValue) : AivmCompletedTask :=
  mk_task (task_state t) (task_handle t) v (worker_context t) (worker_catalog_index t) (is_worker_task t).
Definition set_tasks_part (l : list AivmValue) (s : AivmVm) : AivmVm :=
  set_completed_tasks (zip_with set_result (completed_tasks s) l) s.

(** The four groups of root values. *)
Definition walk_roots {B} (F : visitor B AivmValue) (acc : B) : M B :=
  let! acc := walk stack_part set_stack_part F acc in
  let! acc := walk locals_part set_locals_part F acc in
  let! acc := walk tasks_part set_tasks_part F acc in
  walk par_values set_par_values F acc.

Definition root_values (s : AivmVm) : list AivmValue :=
  stack_part s ++ locals_part s ++ tasks_part s ++ par_values s.

(** Both halves of a pair, when its flag is set. *)
Definition on_live_pair {B} (F : visitor B AivmValue) : visitor B (bool * AivmScratchPair) :=
  fun acc x =>
    let '(live, p) := x in
    if negb live then (x, Visited acc)
    else
      match F acc (first p) with
      | (v1, Visited acc1) =>
          let '(v2, r) := F acc1 (second p) in ((live, mk_pair v1 v2), r)
      | (v1, r) => ((live, mk_pair v1 (second p)), r)
      end.

Definition walk_live_pairs {B} (F : visitor B AivmValue) (live : list bool) (acc : B) : M B :=
  walk (fun s => zip live (scratch_pairs s)) (fun l s => set_scratch_pairs (map snd l) s)
    (on_live_pair F) acc.

(** ** Lemmas *)

(** A visitor that never fails on [l], as a relation between old and new values. *)
Lemma visit_list_length {A B} (F : visitor B A) l : forall acc, length (visit_list F acc l).1 = length l.
Proof.
  induction l as [|x l IH]; intros acc; [done|]. cbn [visit_list].
  destruct (F acc x) as [x' [acc'|e d|]]; cbn; [|done|done].
  specialize (IH acc'). destruct (visit_list F acc' l) as [l' r]. cbn in *. lia.
Qed.

(** An invariant of the visitor's state and a relation it establishes between a
    value and its new form; the relation must survive later visits. *)
Lemma visit_list_spec {A B} (F : visitor B A) (I : B -> Prop) (le : B -> B -> Prop) (R : B -> A -> A -> Prop) l :
  (forall b, le b b) -> (forall a b c, le a b -> le b c -> le a c) ->
  (forall a b x y, le a b -> R a x y -> R b x y) ->
  (forall acc x x' acc', I acc -> x ∈ l -> F acc x = (x', Visited acc') -> I acc' /\ le acc acc' /\ R acc' x x') ->
  forall acc l' acc', I acc -> visit_list F acc l = (l', Visited acc') ->
  I acc' /\ le acc acc' /\ Forall2 (R acc') l l'.
Proof.
  intros Hrefl Htrans Hmono. induction l as [|x l IH]; intros HF acc l' acc' Hacc.
  - intros [= <- <-]. split; [done|]. split; [done|constructor].
  - cbn [visit_list]. destruct (F acc x) as [x' [acc1|e d|]] eqn:E; [|done|done].
    destruct (visit_list F acc1 l) as [l1 r] eqn:El. intros [= <- ->].
    destruct (HF acc x x' acc1 Hacc ltac:(by left) E) as (Hi1 & Hle1 & HR1).
    destruct (IH ltac:(intros; eapply HF; eauto; by right) acc1 l1 acc' Hi1 El) as (Hi & Hle & Hall).
    split; [done|]. split; [by eapply Htrans|]. constructor; [by eapply Hmono|done].
Qed.

(** ** Walks keep the control state *)

(** [m] moves nothing of the control state and fails only with an error. *)
Definition calm {A} (m : M A) : Prop := forall s,
  match m s with
  | Ok _ s' => control_view s' = control_view s /\ status s' = status s
  | Err s' => control_view s' = control_view s /\ status s' = AIVM_VM_STATUS_ERROR
  | Undef => True
  end.

Lemma calm_ret {A} (a : A) : calm (ret a).
Proof. by intros s. Qed.

Lemma calm_get : calm get.
Proof. by intros s. Qed.

Lemma calm_check {A} (o : option A) : calm (check o).
Proof. intros s. by destruct o. Qed.

Lemma calm_throw {A} e d : calm (@throw A e d).
Proof. by intros s. Qed.

Lemma calm_bind {A B} (m : M A) (f : A -> M B) : calm m -> (forall a, calm (f a)) -> calm (bind m f).
Proof.
  intros Hm Hf s. unfold bind. specialize (Hm s). destruct (m s) as [a s1|s1|]; [|done|done].
  destruct Hm as [E1 E2]. specialize (Hf a s1). destruct (f a s1) as [b s2|s2|]; [| |done]; destruct Hf; split; congruence.
Qed.

Lemma calm_modify f : (forall s, control_view (f s) = control_view s /\ status (f s) = status s) -> calm (modify f).
Proof. intros Hf s. apply Hf. Qed.

Lemma calm_walk {A B} part update (F : visitor B A) acc :
  (forall l s, length l = length (part s) -> control_view (update l s) = control_view s /\ status (update l s) = status s) ->
  calm (walk part update F acc).
Proof.
  intros Hu s. unfold walk. pose proof (visit_list_length F (part s) acc) as Hl.
  destruct (visit_list F acc (part s)) as [l r]. cbn in Hl. destruct (Hu l s Hl) as [E1 E2].
  destruct r; [by split|split; [exact E1|done]|done].
Qed.

Lemma calm_walk_stack {B} (F : visitor B AivmValue) acc : calm (walk stack_part set_stack_part F acc).
Proof.
  apply calm_walk. intros l s Hl. unfold stack_part in Hl. rewrite length_rev in Hl.
  unfold control_view, set_stack_part. cbn. split; [|done]. unfold zlen. by rewrite length_rev, Hl.
Qed.

Lemma calm_walk_locals {B} (F : visitor B AivmValue) acc : calm (walk locals_part set_locals_part F acc).
Proof.
  apply calm_walk. intros l s Hl. unfold locals_part, ztake in Hl. rewrite length_take in Hl.
  unfold control_view, set_locals_part. cbn. split; [|done].
  assert (zlen (l ++ zdrop (locals_count s) (locals s)) = zlen (locals s)) as ->; [|done].
  unfold zlen, zdrop. rewrite length_app, length_drop, Hl. lia.
Qed.

Lemma calm_walk_roots {B} (F : visitor B AivmValue) acc : calm (walk_roots F acc).
Proof.
  apply calm_bind; [apply calm_walk_stack|intros a1]. apply calm_bind; [apply calm_walk_locals|intros a2].
  apply calm_bind; [by apply calm_walk|intros a3]. by apply calm_walk.
Qed.

Lemma calm_walk_live_pairs {B} (F : visitor B AivmValue) live acc : calm (walk_live_pairs F live acc).
Proof. by apply calm_walk. Qed.

Lemma calm_alloc `{Host} size : calm (alloc size).
Proof. by intros s. Qed.

(** ** What walks do to the roots *)

Lemma stack_part_set l s : stack_part (set_stack_part l s) = l.
Proof. unfold stack_part, set_stack_part. cbn. apply rev_involutive. Qed.

Lemma locals_part_set l s : length l = length (locals_part s) -> locals_part (set_locals_part l s) = l.
Proof.
  unfold locals_part, set_locals_part, ztake, zdrop. cbn. rewrite length_take. intros Hl.
  rewrite take_app. replace (take (Z.to_nat (locals_count s)) l) with l by (rewrite take_ge; [done|lia]).
  destruct (decide (Z.to_nat (locals_count s) <= length (locals s))%nat).
  - replace (Z.to_nat (locals_count s) - length l)%nat with 0%nat by lia. apply app_nil_r.
  - rewrite drop_ge by lia. rewrite take_nil. apply app_nil_r.
Qed.

Lemma tasks_part_set l s : length l = length (tasks_part s) -> tasks_part (set_tasks_part l s) = l.
Proof.
  unfold tasks_part, set_tasks_part. cbn. rewrite length_map. revert l.
  induction (completed_tasks s) as [|t ts IH]; intros [|v l] Hl; try done. cbn. f_equal. apply IH. by injection Hl.
Qed.

Definition set_roots (l1 l2 l3 l4 : list AivmValue) (s : AivmVm) : AivmVm :=
  set_par_values l4 (set_tasks_part l3 (set_locals_part l2 (set_stack_part l1 s))).

Lemma root_values_set l1 l2 l3 l4 s :
  length l2 = length (locals_part s) -> length l3 = length (tasks_part s) ->
  root_values (set_roots l1 l2 l3 l4 s) = l1 ++ l2 ++ l3 ++ l4.
Proof.
  intros Hl2 Hl3. unfold root_values. f_equal; [|f_equal; [|f_equal]].
  - exact (stack_part_set l1 s).
  - exact (locals_part_set l2 (set_stack_part l1 s) Hl2).
  - exact (tasks_part_set l3 (set_locals_part l2 (set_stack_part l1 s)) Hl3).
Qed.

(** A visitor that succeeds on every value of the part. *)
Lemma visit_list_map {A} (F : visitor unit A) (f : A -> A) l :
  Forall (fun x => F tt x = (f x, Visited tt)) l -> visit_list F tt l = (map f l, Visited tt).
Proof. induction 1 as [|x l Hx _ IH]; [done|]. cbn [visit_list]. by rewrite Hx, IH. Qed.

Lemma walk_map {A} (part : AivmVm -> list A) update (F : visitor unit A) f s :
  Forall (fun x => F tt x = (f x, Visited tt)) (part s) -> walk part update F tt s = Ok tt (update (map f (part s)) s).
Proof. intros HF. unfold walk. by rewrite (visit_list_map F f _ HF). Qed.

Section WalkSpec.

Context {B : Type} (F : visitor B AivmValue) (I : B -> Prop) (le : B -> B -> Prop) (R : B -> AivmValue -> AivmValue -> Prop).
Context (P : AivmValue -> Prop).
Context (le_refl : forall b, le b b) (le_trans : forall a b c, le a b -> le b c -> le a c).
Context (R_mono : forall a b x y, le a b -> R a x y -> R b x y).
Context (F_spec : forall acc x x' acc', I acc -> P x -> F acc x = (x', Visited acc') -> I acc' /\ le acc acc' /\ R acc' x x').

Lemma walk_values_spec part update acc s acc' s' :
  I acc -> Forall P (part s) -> walk part update F acc s = Ok acc' s' ->
  exists l, s' = update l s /\ length l = length (part s) /\ I acc' /\ le acc acc' /\ Forall2 (R acc') (part s) l.
Proof.
  intros Hacc HP. unfold walk. destruct (visit_list F acc (part s)) as [l r] eqn:E.
  pose proof (visit_list_length F (part s) acc) as Hl. rewrite E in Hl. cbn in Hl.
  destruct r as [b|e d|]; [|done|done]. intros [= <- <-]. exists l. split; [done|]. split; [done|].
  eapply (visit_list_spec F I le R (part s)); try done. rewrite Forall_forall in HP. intros. eapply F_spec; eauto.
Qed.

(** After a walk over the roots every root is related to its old value, and
    nothing but the roots has changed. *)
Lemma walk_roots_spec acc s acc' s' :
  I acc -> Forall P (root_values s) -> walk_roots F acc s = Ok acc' s' ->
  I acc' /\ le acc acc' /\ Forall2 (R acc') (root_values s) (root_values s') /\
  exists l1 l2 l3 l4, s' = set_roots l1 l2 l3 l4 s /\
    root_values s' = l1 ++ l2 ++ l3 ++ l4.
Proof.
  intros Hacc HP. unfold root_values in HP. apply Forall_app in HP as [P1 HP]. apply Forall_app in HP as [P2 HP].
  apply Forall_app in HP as [P3 P4]. unfold walk_roots, bind.
  destruct (walk stack_part set_stack_part F acc s) as [a1 s1|s1|] eqn:E1; [|done|done].
  destruct (walk_values_spec _ _ _ _ _ _ Hacc P1 E1) as (l1 & -> & Hl1 & I1 & Le1 & R1).
  destruct (walk locals_part set_locals_part F a1 _) as [a2 s2|s2|] eqn:E2; [|done|done].
  destruct (walk_values_spec locals_part _ a1 (set_stack_part l1 s) a2 s2 I1 P2 E2) as (l2 & -> & Hl2 & I2 & Le2 & R2).
  destruct (walk tasks_part set_tasks_part F a2 _) as [a3 s3|s3|] eqn:E3; [|done|done].
  destruct (walk_values_spec tasks_part _ a2 (set_locals_part l2 (set_stack_part l1 s)) a3 s3 I2 P3 E3) as (l3 & -> & Hl3 & I3 & Le3 & R3).
  intros E4. destruct (walk_values_spec par_values _ a3 (set_tasks_part l3 (set_locals_part l2 (set_stack_part l1 s))) acc' s' I3 P4 E4) as (l4 & -> & Hl4 & I4 & Le4 & R4).
  pose proof (root_values_set l1 l2 l3 l4 s Hl2 Hl3) as Hroots.
  split; [done|]. split; [eauto|]. split; [|by exists l1, l2, l3, l4].
  fold (set_roots l1 l2 l3 l4 s). rewrite Hroots. unfold root_values.
  assert (Hm : forall a l l', le a acc' -> Forall2 (R a) l l' -> Forall2 (R acc') l l').
  { intros a l l' Hle HR. eapply Forall2_impl; [exact HR|]. intros x y. by apply R_mono. }
  apply Forall2_app; [eapply (Hm a1); eauto|]. apply Forall2_app; [eapply (Hm a2); eauto|].
  apply Forall2_app; [eapply (Hm a3); eauto|done].
Qed.

End WalkSpec.
