(* ===== verification/Pairs.v ===== *)
(** * Scratch pairs and their collector

    src/src/aivm_vm_node.c (lookup and creation) and the pair marking and
    compaction of src/src/aivm_vm.c.  Pairs are numbered from 1; marking follows
    the pairs reachable from the roots with an explicit worklist; compaction moves
    the live pairs to the front and renumbers every root and every pair. *)

From S2P Require Import Prelude Types Program Vm Lifecycle Stack ControlSafety Roots.

(** ** Operations *)

Definition scratch_pair_count (s : AivmVm) : Z := zlen (scratch_pairs s).

Definition aivm_vm_lookup_scratch_pair (s : AivmVm) (handle : Z) : option AivmScratchPair :=
  if (handle <=? 0) || (scratch_pair_count s <? handle) then None
  else zget (scratch_pairs s) (handle - 1).

Definition aivm_vm_create_scratch_pair (v1 v2 : AivmValue) : M Z :=
  let! s := get in
  match aivm_size_add_checked (scratch_pair_count s) 1 with
  | Some next_count =>
      if AIVM_VM_SCRATCH_PAIR_CAPACITY <=? scratch_pair_count s
      then throw AIVM_VM_ERR_MEMORY_PRESSURE (DText "AIVMM005: scratch pair capacity exceeded.")
      else
        do! modify (fun s => set_scratch_pairs (scratch_pairs s ++ [mk_pair v1 v2]) s) in
        ret next_count
  | None => throw AIVM_VM_ERR_MEMORY_PRESSURE (DText "AIVMM005: scratch pair capacity exceeded.")
  end.

(** The marks and the worklist (last in, first out). *)
Record marking := mk_marking { live_pairs : list bool; pending_pairs : list Z }.

(** [mark_live_scratch_pair_value] for a VM with [count] pairs. *)
Definition mark_pair_value (count : Z) (m : marking) (v : AivmValue) : visit marking :=
  match v with
  | VPair handle =>
      if (handle <=? 0) || (count <? handle)
      then Failed AIVM_VM_ERR_INVALID_PROGRAM (DText "Invalid scratch-pair handle during pair mark.")
      else
        let index := handle - 1 in
        match zget (live_pairs m) index with
        | None => Stuck
        | Some true => Visited m
        | Some false =>
            if count <=? zlen (pending_pairs m)
            then Failed AIVM_VM_ERR_MEMORY_PRESSURE
                   (DText "AIVMM005: scratch-pair mark worklist exceeded capacity.")
            else Visited (mk_marking (zset (live_pairs m) index true) (index :: pending_pairs m))
        end
  | _ => Visited m
  end.

Fixpoint mark_pair_values (count : Z) (m : marking) (vs : list AivmValue) : visit marking :=
  match vs with
  | [] => Visited m
  | v :: rest =>
      match mark_pair_value count m v with
      | Visited m' => mark_pair_values count m' rest
      | r => r
      end
  end.

(** The [while (pending_count > 0)] loop: every pair enters the worklist at most
    once, so as many iterations as there are pairs are enough. *)
Fixpoint mark_pending (fuel : nat) (pairs : list AivmScratchPair) (m : marking) : visit marking :=
  match pending_pairs m with
  | [] => Visited m
  | index :: rest =>
      match fuel, zget pairs index with
      | S fuel', Some p =>
          match mark_pair_values (zlen pairs) (mk_marking (live_pairs m) rest) [first p; second p] with
          | Visited m' => mark_pending fuel' pairs m'
          | r => r
          end
      | _, _ => Stuck
      end
  end.

Definition mark_pairs (pairs : list AivmScratchPair) (roots : list AivmValue) : visit marking :=
  let start := mk_marking (replicate (length pairs) false) [] in
  match mark_pair_values (zlen pairs) start roots with
  | Visited m => mark_pending (length pairs) pairs m
  | r => r
  end.

Definition of_visit {B} (r : visit B) : M B :=
  match r with
  | Visited b => ret b
  | Failed e d => throw e d
  | Stuck => undef
  end.

(** [remap_value_scratch_pair_handle] *)
Definition remap_pair_handle (pair_map : list Z) : visitor unit AivmValue := fun _ v =>
  match v with
  | VPair old_handle =>
      let invalid := Failed AIVM_VM_ERR_INVALID_PROGRAM
                       (DText "Invalid scratch-pair handle during pair compaction.") in
      if (old_handle <=? 0) || (zlen pair_map - 1 <? old_handle) then (v, invalid)
      else
        match zget pair_map old_handle with
        | None => (v, Stuck)
        | Some new_handle => if new_handle <=? 0 then (v, invalid) else (VPair new_handle, Visited tt)
        end
  | _ => (v, Visited tt)
  end.

(** The new number of each live item, from [n + 1] on; 0 for the others. *)
Fixpoint ranks (live : list bool) (n : Z) : list Z :=
  match live with
  | [] => []
  | true :: rest => (n + 1) :: ranks rest (n + 1)
  | false :: rest => 0 :: ranks rest n
  end.

(** The live items, in order. *)
Fixpoint keep {A} (live : list bool) (l : list A) : list A :=
  match live, l with
  | true :: live', x :: l' => x :: keep live' l'
  | false :: live', _ :: l' => keep live' l'
  | _, _ => []
  end.

Section Host.

Context `{Host}.

Definition aivm_vm_mark_live_scratch_pair_handles : M (list bool) :=
  let! s := get in
  if scratch_pair_count s =? 0 then ret []
  else
    let! ok := alloc (scratch_pair_count s * 8) in
    if negb ok
    then throw AIVM_VM_ERR_MEMORY_PRESSURE (DText "AIVMM005: scratch-pair mark worklist allocation failed.")
    else
      let! m := of_visit (mark_pairs (scratch_pairs s) (root_values s)) in
      ret (live_pairs m).

(** Three workspace blocks are asked for before the results are looked at. *)
Definition aivm_vm_compact_scratch_pairs : M unit :=
  let! s := get in
  if scratch_pair_count s =? 0 then ret tt
  else
    let! ok1 := alloc (scratch_pair_count s) in
    let! ok2 := alloc ((scratch_pair_count s + 1) * 8) in
    let! ok3 := alloc (scratch_pair_count s * 48) in
    if negb (ok1 && ok2 && ok3)
    then throw AIVM_VM_ERR_MEMORY_PRESSURE (DText "AIVMM005: scratch-pair compaction allocation failed.")
    else
      let! live := aivm_vm_mark_live_scratch_pair_handles in
      let pair_map := 0 :: ranks live 0 in
      let compacted := map (fun p => (true, p)) (keep live (scratch_pairs s)) in
      let '(remapped, r) := visit_list (on_live_pair (remap_pair_handle pair_map)) tt compacted in
      do! of_visit r in
      do! walk_roots (remap_pair_handle pair_map) tt in
      modify (set_scratch_pairs (map snd remapped)).

End Host.

(** ** What a value stands for *)

(** A value unfolded through the pairs to a depth. *)
Inductive ptree :=
  | PLeaf (v : AivmValue)
  | PNode (l r : ptree)
  | PCut
  | PInvalid.

Definition pair_at (pairs : list AivmScratchPair) (handle : Z) : option AivmScratchPair :=
  if handle <=? 0 then None else zget pairs (handle - 1).

Fixpoint unfold_pairs (n : nat) (pairs : list AivmScratchPair) (v : AivmValue) : ptree :=
  match v with
  | VPair handle =>
      match n with
      | O => PCut
      | S n' =>
          match pair_at pairs handle with
          | Some p => PNode (unfold_pairs n' pairs (first p)) (unfold_pairs n' pairs (second p))
          | None => PInvalid
          end
      end
  | _ => PLeaf v
  end.

(** The pairs a value leads to. *)
Inductive reaches (pairs : list AivmScratchPair) : AivmValue -> Z -> Prop :=
  | reaches_here handle : 0 < handle <= zlen pairs -> reaches pairs (VPair handle) (handle - 1)
  | reaches_first handle p i :
      pair_at pairs handle = Some p -> reaches pairs (first p) i -> reaches pairs (VPair handle) i
  | reaches_second handle p i :
      pair_at pairs handle = Some p -> reaches pairs (second p) i -> reaches pairs (VPair handle) i.

(** ** Marking finds exactly the reachable pairs *)

Definition is_live (live : list bool) (i : Z) : Prop := zget live i = Some true.

Fixpoint count_false (l : list bool) : Z :=
  match l with [] => 0 | b :: l' => (if b then 0 else 1) + count_false l' end.

Lemma count_false_bounds l : 0 <= count_false l <= zlen l.
Proof.
  induction l as [|b l IH]; cbn [count_false]; [unfold zlen; cbn; lia|]. rewrite zlen_cons. destruct b; lia.
Qed.

Lemma count_false_app a b : count_false (a ++ b) = count_false a + count_false b.
Proof. induction a as [|x a IH]; cbn [count_false app]; lia. Qed.

Lemma count_false_set l i : zget l i = Some false -> count_false (zset l i true) = count_false l - 1.
Proof.
  intros Hi. rewrite (zset_split _ _ _ _ Hi). destruct (zget_split _ _ _ Hi) as [E _]. rewrite E at 3.
  rewrite !count_false_app. cbn [count_false]. lia.
Qed.

Lemma count_false_replicate n : count_false (replicate n false) = Z.of_nat n.
Proof. induction n as [|n IH]; [done|]. cbn [replicate count_false]. lia. Qed.

(** The true entries bound every list of distinct true indices. *)
Lemma distinct_live_bound l : forall js, NoDup js -> Forall (is_live l) js -> zlen js <= zlen l - count_false l.
Proof.
  induction l as [|b l IH] using rev_ind; intros js Hnd Hlive.
  - destruct js as [|j js]; [unfold zlen; cbn; lia|]. apply Forall_cons in Hlive as [H _].
    apply zget_Some_bounds in H. unfold zlen in H. cbn in H. lia.
  - set (n := zlen l). rewrite zlen_app, count_false_app. change (zlen [b]) with 1. cbn [count_false].
    assert (Hlow : forall j, is_live (l ++ [b]) j -> j <> n -> is_live l j).
    { intros j Hj Hne. unfold is_live in *. pose proof (zget_Some_bounds _ _ _ Hj) as Hb. rewrite zlen_app in Hb.
      change (zlen [b]) with 1 in Hb. rewrite zget_lookup in * by lia. rewrite lookup_app_l in Hj; [done|].
      unfold n, zlen in *. lia. }
    destruct (decide (n ∈ js)) as [Hin|Hin].
    + assert (Hb : b = true).
      { rewrite Forall_forall in Hlive. specialize (Hlive n Hin). unfold is_live in Hlive.
        rewrite zget_lookup in Hlive by (unfold n; apply zlen_nonneg). unfold n, zlen in Hlive. rewrite Nat2Z.id in Hlive.
        rewrite lookup_app_r in Hlive by lia. rewrite Nat.sub_diag in Hlive. by injection Hlive. }
      subst b. apply list_elem_of_split in Hin as (j1 & j2 & ->).
      assert (Hp : Permutation (j1 ++ n :: j2) (n :: j1 ++ j2)) by (by rewrite Permutation_middle).
      rewrite Hp in Hnd, Hlive. apply NoDup_cons in Hnd as [Hn Hnd]. apply Forall_cons in Hlive as [_ Hlive].
      assert (zlen (j1 ++ j2) <= zlen l - count_false l).
      { apply IH; [done|]. rewrite Forall_forall in Hlive |- *. intros j Hj. apply Hlow; [by apply Hlive|]. intros ->. done. }
      rewrite (zlen_perm _ _ Hp), zlen_cons. lia.
    + assert (zlen js <= zlen l - count_false l); [|destruct b; lia].
      apply IH; [done|]. rewrite Forall_forall in Hlive |- *. intros j Hj. apply Hlow; [by apply Hlive|]. intros ->. done.
Qed.

Section Marking.

Context (pairs : list AivmScratchPair) (roots : list AivmValue).

Definition valid_handle (h : Z) : Prop := 0 < h <= zlen pairs.

(** A value whose pair, if any, exists and is marked. *)
Definition value_live (live : list bool) (v : AivmValue) : Prop :=
  match v with VPair h => valid_handle h /\ is_live live (h - 1) | _ => True end.

Definition rooted (i : Z) : Prop := exists v, v ∈ roots /\ reaches pairs v i.

(** A value from which only rooted pairs are reached. *)
Definition value_rooted (v : AivmValue) : Prop := forall i, reaches pairs v i -> rooted i.

Record mark_ok (m : marking) : Prop := {
  mo_length : length (live_pairs m) = length pairs;
  mo_distinct : NoDup (pending_pairs m);
  mo_pending : Forall (is_live (live_pairs m)) (pending_pairs m);
  mo_rooted : forall i, is_live (live_pairs m) i -> rooted i }.

(** The marked pairs outside the worklist and [except] lead to marked pairs only. *)
Definition closed (m : marking) (except : Z -> Prop) : Prop := forall i p,
  is_live (live_pairs m) i -> zget pairs i = Some p -> i ∈ pending_pairs m \/ except i \/
    (value_live (live_pairs m) (first p) /\ value_live (live_pairs m) (second p)).

Definition grows (m m' : marking) : Prop :=
  (forall i, is_live (live_pairs m) i -> is_live (live_pairs m') i) /\
  (forall i, i ∈ pending_pairs m -> i ∈ pending_pairs m').

Definition potential (m : marking) : Z := count_false (live_pairs m) + zlen (pending_pairs m).

Lemma value_live_mono l l' v : (forall i, is_live l i -> is_live l' i) -> value_live l v -> value_live l' v.
Proof. intros H. destruct v; try done. intros [? ?]. split; [done|by apply H]. Qed.

Lemma mark_value_spec m v except :
  mark_ok m -> value_rooted v -> closed m except ->
  match mark_pair_value (zlen pairs) m v with
  | Visited m' => mark_ok m' /\ closed m' except /\ grows m m' /\ value_live (live_pairs m') v /\ potential m' = potential m
  | Failed e d => e = AIVM_VM_ERR_INVALID_PROGRAM /\ exists h, v = VPair h /\ ~ valid_handle h
  | Stuck => False
  end.
Proof.
  intros Hm Hv Hcl. pose proof Hm as [Hlen Hnd Hpend Hroot].
  assert (Hsame : mark_ok m /\ closed m except /\ grows m m) by (split; [done|]; split; [done|]; by split).
  destruct v as [| | | | | | | |h| | | | | | |]; cbn [mark_pair_value]; try (destruct Hsame as (? & ? & ?); by split_and!).
  destruct ((h <=? 0) || (zlen pairs <? h)) eqn:E; [split; [done|]; exists h; split; [done|]; unfold valid_handle; lia|].
  assert (Hvh : valid_handle h) by (unfold valid_handle; lia).
  destruct (zget_is_Some (live_pairs m) (h - 1)) as [b Hb]; [unfold zlen, valid_handle in *; lia|].
  rewrite Hb. destruct b; [destruct Hsame as (? & ? & ?); by split_and!|].
  pose proof (distinct_live_bound (live_pairs m) (pending_pairs m) Hnd Hpend) as Hcap.
  pose proof (count_false_set (live_pairs m) (h - 1) Hb) as Hcf.
  pose proof (count_false_bounds (zset (live_pairs m) (h - 1) true)) as Hcb.
  destruct (Z.leb_spec (zlen pairs) (zlen (pending_pairs m))); [unfold zlen in *; lia|].
  set (m' := mk_marking _ _).
  assert (Hb' : 0 <= h - 1 < zlen (live_pairs m)) by (by apply zget_Some_bounds in Hb).
  assert (Hgrow : forall i, is_live (live_pairs m) i -> is_live (live_pairs m') i).
  { intros i Hi. unfold is_live in *. cbn [live_pairs m'].
    destruct (Z.eq_dec (h - 1) i) as [<-|]; [by rewrite zget_zset_eq|by rewrite zget_zset_ne]. }
  assert (Hnew : is_live (live_pairs m') (h - 1)) by (unfold is_live; cbn [live_pairs m']; by rewrite zget_zset_eq).
  assert (Hold : forall i, is_live (live_pairs m') i -> i = h - 1 \/ is_live (live_pairs m) i).
  { intros i. unfold is_live. cbn [live_pairs m']. destruct (Z.eq_dec (h - 1) i) as [<-|]; [by left|].
    rewrite zget_zset_ne by done. by right. }
  split_and!.
  - split.
    + cbn [live_pairs m']. rewrite <- Hlen. pose proof (zlen_zset (live_pairs m) (h - 1) true). unfold zlen in *. lia.
    + cbn [pending_pairs m']. apply NoDup_cons. split; [|done]. intros Hin.
      rewrite Forall_forall in Hpend. specialize (Hpend _ Hin). unfold is_live in Hpend. congruence.
    + cbn [pending_pairs m']. apply Forall_cons. split; [done|]. eapply Forall_impl; [exact Hpend|apply Hgrow].
    + intros i Hi. destruct (Hold i Hi) as [->|]; [apply Hv; by apply reaches_here|by apply Hroot].
  - intros i p Hi Hp. destruct (Hold i Hi) as [->|Hi']; [left; by left|].
    destruct (Hcl i p Hi' Hp) as [?|[?|[? ?]]]; [left; by right|right; by left|].
    right. right. by split; eapply value_live_mono.
  - split; [done|]. intros i Hi. by right.
  - split; [done|exact Hnew].
  - unfold potential. cbn [live_pairs pending_pairs m']. rewrite Hcf, zlen_cons. lia.
Qed.

Lemma mark_values_spec vs except : forall m,
  mark_ok m -> Forall value_rooted vs -> closed m except ->
  match mark_pair_values (zlen pairs) m vs with
  | Visited m' => mark_ok m' /\ closed m' except /\ grows m m' /\ Forall (value_live (live_pairs m')) vs /\
      potential m' = potential m
  | Failed e d => e = AIVM_VM_ERR_INVALID_PROGRAM /\ exists h, VPair h ∈ vs /\ ~ valid_handle h
  | Stuck => False
  end.
Proof.
  induction vs as [|v vs IH]; intros m Hm Hroots Hcl; cbn [mark_pair_values].
  { by split_and!. }
  apply Forall_cons in Hroots as [Hv Hvs].
  pose proof (mark_value_spec m v except Hm Hv Hcl) as Hstep.
  destruct (mark_pair_value (zlen pairs) m v) as [m1|e d|]; [| |done].
  2: { destruct Hstep as (-> & h & -> & Hh). split; [done|]. exists h. split; [by left|done]. }
  destruct Hstep as (Hm1 & Hcl1 & Hg1 & Hv1 & Hpot1). specialize (IH m1 Hm1 Hvs Hcl1).
  destruct (mark_pair_values (zlen pairs) m1 vs) as [m2|e d|]; [| |done].
  2: { destruct IH as (-> & h & Hin & Hh). split; [done|]. exists h. split; [by right|done]. }
  destruct IH as (Hm2 & Hcl2 & Hg2 & Hvs2 & Hpot2). split_and!; try done.
  - split; intros i Hi; [apply Hg2, Hg1, Hi|apply Hg2, Hg1, Hi].
  - constructor; [|done]. eapply value_live_mono; [apply Hg2|done].
  - congruence.
Qed.

Lemma reaches_trans v i p j w :
  reaches pairs v i -> zget pairs i = Some p -> w = first p \/ w = second p -> reaches pairs w j -> reaches pairs v j.
Proof.
  induction 1 as [h Hh|h q i Hq _ IH|h q i Hq _ IH]; intros Hp Hw Hj.
  - assert (Hq : pair_at pairs h = Some p).
    { unfold pair_at. destruct (Z.leb_spec h 0); [lia|done]. }
    destruct Hw as [->| ->]; [by eapply reaches_first|by eapply reaches_second].
  - eapply reaches_first; [done|]. by apply IH.
  - eapply reaches_second; [done|]. by apply IH.
Qed.

(** A handle outside the pairs is within reach. *)
Definition invalid_reached : Prop := exists h, ~ valid_handle h /\
  (VPair h ∈ roots \/ exists i p, rooted i /\ zget pairs i = Some p /\ (first p = VPair h \/ second p = VPair h)).

Lemma mark_pending_spec fuel : forall m,
  mark_ok m -> closed m (fun _ => False) -> potential m <= Z.of_nat fuel ->
  match mark_pending fuel pairs m with
  | Visited m' => mark_ok m' /\ closed m' (fun _ => False) /\ pending_pairs m' = [] /\
      (forall i, is_live (live_pairs m) i -> is_live (live_pairs m') i)
  | Failed e d => e = AIVM_VM_ERR_INVALID_PROGRAM /\ invalid_reached
  | Stuck => False
  end.
Proof.
  induction fuel as [|fuel IH]; intros m Hm Hcl Hpot; cbn [mark_pending];
    (destruct (pending_pairs m) as [|i rest] eqn:Ep; [by split_and!|]).
  { unfold potential in Hpot. rewrite Ep, zlen_cons in Hpot. pose proof (count_false_bounds (live_pairs m)).
    pose proof (zlen_nonneg rest). lia. }
  pose proof Hm as [Hlen Hnd Hpend Hroot]. rewrite Ep in Hnd, Hpend. apply NoDup_cons in Hnd as [Hni Hnd].
  apply Forall_cons in Hpend as [Hi Hpend].
  assert (Hri : rooted i) by (by apply Hroot).
  destruct (zget_is_Some pairs i) as [p Hp].
  { unfold is_live in Hi. apply zget_Some_bounds in Hi. unfold zlen in *. lia. }
  rewrite Hp. set (m0 := mk_marking (live_pairs m) rest).
  assert (Hm0 : mark_ok m0) by (by split).
  assert (Hcl0 : closed m0 (fun j => j = i)).
  { intros j q Hj Hq. destruct (Hcl j q Hj Hq) as [Hin|[[]|?]]; [|by right; right].
    rewrite Ep in Hin. apply elem_of_cons in Hin as [->|?]; [right; by left|by left]. }
  assert (Hvr : Forall value_rooted [first p; second p]).
  { destruct Hri as (v & Hv & Hr). apply Forall_cons. split; [|apply Forall_singleton];
      intros j Hj; exists v; (split; [done|]); eapply (reaches_trans v i p j _ Hr Hp); try exact Hj; auto. }
  pose proof (mark_values_spec [first p; second p] _ m0 Hm0 Hvr Hcl0) as Hs.
  destruct (mark_pair_values (zlen pairs) m0 [first p; second p]) as [m1|e d|]; [| |done].
  2: { destruct Hs as (-> & h & Hin & Hh). split; [done|]. exists h. split; [done|]. right. exists i, p.
       split; [done|]. split; [done|]. apply elem_of_cons in Hin as [<-|Hin]; [by left|].
       apply elem_of_cons in Hin as [<-|Hin]; [by right|]. by apply elem_of_nil in Hin. }
  destruct Hs as (Hm1 & Hcl1 & Hg & Hvl & Hpot1).
  apply Forall_cons in Hvl as [Hl1 Hvl]. apply Forall_cons in Hvl as [Hl2 _].
  assert (Hcl1' : closed m1 (fun _ => False)).
  { intros j q Hj Hq. destruct (Hcl1 j q Hj Hq) as [?|[->|?]]; [by left| |by right; right].
    right. right. rewrite Hp in Hq. by injection Hq as <-. }
  assert (Hfuel : potential m1 <= Z.of_nat fuel).
  { rewrite Hpot1. unfold potential in *. cbn [live_pairs pending_pairs m0]. rewrite Ep, zlen_cons in Hpot. lia. }
  specialize (IH m1 Hm1 Hcl1' Hfuel). destruct (mark_pending fuel pairs m1) as [m2|e d|]; [|done|done].
  destruct IH as (? & ? & ? & Hmono). split_and!; try done. intros j Hj. by apply Hmono, Hg.
Qed.

Lemma mark_pairs_spec :
  match mark_pairs pairs roots with
  | Visited m => length (live_pairs m) = length pairs /\ Forall (value_live (live_pairs m)) roots /\
      (forall i p, is_live (live_pairs m) i -> zget pairs i = Some p ->
         value_live (live_pairs m) (first p) /\ value_live (live_pairs m) (second p)) /\
      (forall i, is_live (live_pairs m) i <-> rooted i)
  | Failed e d => e = AIVM_VM_ERR_INVALID_PROGRAM /\ invalid_reached
  | Stuck => False
  end.
Proof.
  unfold mark_pairs. set (m0 := mk_marking _ []).
  assert (Hno : forall i, ~ is_live (live_pairs m0) i).
  { intros i Hi. unfold is_live in Hi. pose proof (zget_Some_bounds _ _ _ Hi). rewrite zget_lookup in Hi by lia.
    apply lookup_replicate in Hi as [Hi _]. done. }
  assert (Hm0 : mark_ok m0).
  { split; [by cbn; rewrite length_replicate|constructor|constructor|]. intros i Hi. by apply Hno in Hi. }
  assert (Hcl0 : closed m0 (fun _ => False)) by (intros i p Hi; by apply Hno in Hi).
  assert (Hvr : Forall value_rooted roots).
  { apply Forall_forall. intros v Hv i Hi. by exists v. }
  pose proof (mark_values_spec roots _ m0 Hm0 Hvr Hcl0) as Hs.
  destruct (mark_pair_values (zlen pairs) m0 roots) as [m1|e d|]; [| |done].
  2: { destruct Hs as (-> & h & Hin & Hh). split; [done|]. exists h. split; [done|]. by left. }
  destruct Hs as (Hm1 & Hcl1 & _ & Hrl & Hpot).
  pose proof (mark_pending_spec (length pairs) m1 Hm1 Hcl1) as Hp.
  rewrite Hpot in Hp. unfold potential in Hp. cbn [live_pairs pending_pairs m0] in Hp.
  rewrite count_false_replicate, zlen_nil in Hp. specialize (Hp ltac:(lia)).
  destruct (mark_pending (length pairs) pairs m1) as [m2|e d|]; [|done|done].
  destruct Hp as (Hm2 & Hcl2 & Hnil & Hmono).
  assert (Hrl2 : Forall (value_live (live_pairs m2)) roots).
  { eapply Forall_impl; [exact Hrl|]. intros v Hv. by eapply value_live_mono. }
  assert (Hclosed : forall i p, is_live (live_pairs m2) i -> zget pairs i = Some p ->
    value_live (live_pairs m2) (first p) /\ value_live (live_pairs m2) (second p)).
  { intros i p Hi Hp. destruct (Hcl2 i p Hi Hp) as [Hin|[[]|?]]; [|done]. rewrite Hnil in Hin. by apply elem_of_nil in Hin. }
  split; [apply Hm2|]. split; [done|]. split; [done|]. intros i. split; [apply Hm2|].
  intros (v & Hv & Hr). rewrite Forall_forall in Hrl2. specialize (Hrl2 v Hv). clear Hv.
  induction Hr as [h Hh|h p i Hp _ IH|h p i Hp _ IH].
  - apply Hrl2.
  - apply IH. destruct Hrl2 as [Hh Hl]. unfold pair_at in Hp. destruct (h <=? 0); [done|]. by apply (Hclosed (h - 1) p).
  - apply IH. destruct Hrl2 as [Hh Hl]. unfold pair_at in Hp. destruct (h <=? 0); [done|]. by apply (Hclosed (h - 1) p).
Qed.

End Marking.

(** ** Renumbering *)

Lemma zget_cons {A} (x : A) l i : 0 < i -> zget (x :: l) i = zget l (i - 1).
Proof.
  intros Hi. rewrite !zget_lookup by lia. replace (Z.to_nat i) with (S (Z.to_nat (i - 1))) by lia. done.
Qed.

Lemma ranks_length live n : length (ranks live n) = length live.
Proof. revert n. induction live as [|[] live IH]; intros n; cbn; [done|by rewrite IH..]. Qed.

Lemma keep_length {A} live (l : list A) : length live = length l -> zlen (keep live l) = zlen live - count_false live.
Proof.
  revert l. induction live as [|b live IH]; intros [|x l] Hl; try done. injection Hl as Hl. specialize (IH l Hl).
  rewrite zlen_cons. destruct b; cbn [keep count_false]; rewrite ?zlen_cons; lia.
Qed.

(** A live item is found at its new number. *)
Lemma ranks_live {A} live : forall (l : list A) n i, length live = length l -> is_live live i -> 0 <= n ->
  exists r, zget (ranks live n) i = Some r /\ n < r /\ zget (keep live l) (r - n - 1) = zget l i.
Proof.
  induction live as [|b live IH]; intros l n i Hl Hi Hn; unfold is_live in Hi.
  { apply zget_Some_bounds in Hi. unfold zlen in Hi. cbn in Hi. lia. }
  destruct l as [|x l]; [done|]. injection Hl as Hl. pose proof (zget_Some_bounds _ _ _ Hi) as Hb. rewrite zlen_cons in Hb.
  destruct (Z.eq_dec i 0) as [->|Hne].
  - destruct b; [|done]. exists (n + 1). cbn [ranks keep]. replace (n + 1 - n - 1) with 0 by lia. split; [done|]. split; [lia|done].
  - rewrite zget_cons in Hi by lia. destruct b; cbn [ranks keep].
    + destruct (IH l (n + 1) (i - 1) Hl Hi ltac:(lia)) as (r & Hr & Hlt & Hk). exists r.
      rewrite zget_cons by lia. split; [done|]. split; [lia|].
      rewrite !zget_cons by lia. rewrite <- Hk. f_equal. lia.
    + destruct (IH l n (i - 1) Hl Hi Hn) as (r & Hr & Hlt & Hk). exists r.
      rewrite !zget_cons by lia. split; [done|]. split; [lia|]. done.
Qed.

Lemma keep_elem {A} (l : list A) : forall lv x, length lv = length l -> x ∈ keep lv l -> exists i, is_live lv i /\ zget l i = Some x.
Proof.
  induction l as [|y l IH]; intros [|b lv] x Hl Hx; try done; [by apply elem_of_nil in Hx|]. injection Hl as Hl.
  assert (Htail : x ∈ keep lv l -> exists i, is_live (b :: lv) i /\ zget (y :: l) i = Some x).
  { intros Hin. destruct (IH lv x Hl Hin) as (i & Hi & Hx'). exists (i + 1). pose proof (zget_Some_bounds _ _ _ Hx').
    unfold is_live in *. rewrite !zget_cons by lia. by replace (i + 1 - 1) with i by lia. }
  destruct b; cbn [keep] in Hx; [|by apply Htail]. apply elem_of_cons in Hx as [->|Hx]; [|by apply Htail]. by exists 0.
Qed.

Definition remap_value (pair_map : list Z) (v : AivmValue) : AivmValue :=
  match v with VPair h => VPair (default 0 (zget pair_map h)) | _ => v end.

Definition remap_pair (pair_map : list Z) (p : AivmScratchPair) : AivmScratchPair :=
  mk_pair (remap_value pair_map (first p)) (remap_value pair_map (second p)).

Section Renumber.

Context (pairs : list AivmScratchPair) (live : list bool) (Hlen : length live = length pairs).

Definition pair_map : list Z := 0 :: ranks live 0.

(** The marks are closed under the pairs. *)
Context (Hclosed : forall i p, is_live live i -> zget pairs i = Some p ->
  value_live pairs live (first p) /\ value_live pairs live (second p)).

Definition moved : list AivmScratchPair := map (remap_pair pair_map) (keep live pairs).

Lemma remap_live v : value_live pairs live v ->
  remap_pair_handle pair_map tt v = (remap_value pair_map v, Visited tt).
Proof.
  destruct v as [| | | | | | | |h| | | | | | |]; try done. intros [Hh Hl]. cbn [remap_pair_handle remap_value].
  unfold valid_handle in Hh. assert (Hz : zlen pair_map - 1 = zlen pairs).
  { unfold pair_map. rewrite zlen_cons. unfold zlen. rewrite ranks_length, Hlen. lia. }
  rewrite Hz. destruct ((h <=? 0) || (zlen pairs <? h)) eqn:E; [lia|].
  destruct (ranks_live live pairs 0 (h - 1) Hlen Hl ltac:(lia)) as (r & Hr & Hpos & _).
  assert (Hm : zget pair_map h = Some r) by (unfold pair_map; rewrite zget_cons by lia; done).
  rewrite Hm. destruct (Z.leb_spec r 0); [lia|done].
Qed.

Lemma visit_remap vs : Forall (value_live pairs live) vs ->
  visit_list (remap_pair_handle pair_map) tt vs = (map (remap_value pair_map) vs, Visited tt).
Proof.
  induction 1 as [|v vs Hv _ IH]; [done|]. cbn [visit_list]. rewrite (remap_live v Hv), IH. done.
Qed.

Lemma visit_remap_pairs ps : Forall (fun p => value_live pairs live (first p) /\ value_live pairs live (second p)) ps ->
  visit_list (on_live_pair (remap_pair_handle pair_map)) tt (map (fun p => (true, p)) ps) =
    (map (fun p => (true, p)) (map (remap_pair pair_map) ps), Visited tt).
Proof.
  induction 1 as [|p ps [H1 H2] _ IH]; [done|]. cbn [map visit_list on_live_pair negb].
  rewrite (remap_live _ H1), (remap_live _ H2), IH. done.
Qed.

Lemma visit_moved :
  visit_list (on_live_pair (remap_pair_handle pair_map)) tt (map (fun p => (true, p)) (keep live pairs)) =
    (map (fun p => (true, p)) moved, Visited tt).
Proof.
  apply visit_remap_pairs. apply Forall_forall. intros p Hp. apply keep_elem in Hp as (i & Hi & Hp); [|done].
  by apply (Hclosed i).
Qed.

(** Renumbering keeps what every live value stands for. *)
Lemma unfold_moved n : forall v, value_live pairs live v ->
  unfold_pairs n moved (remap_value pair_map v) = unfold_pairs n pairs v.
Proof.
  induction n as [|n IH]; intros v Hv; destruct v as [| | | | | | | |h| | | | | | |]; try done.
  destruct Hv as [Hh Hl]. unfold valid_handle in Hh.
  destruct (ranks_live live pairs 0 (h - 1) Hlen Hl ltac:(lia)) as (r & Hr & Hpos & Hk).
  assert (Hm : zget pair_map h = Some r) by (unfold pair_map; rewrite zget_cons by lia; done).
  cbn [remap_value unfold_pairs]. rewrite Hm. cbn [default from_option id].
  destruct (zget_is_Some pairs (h - 1)) as [p Hp]; [lia|].
  assert (E1 : pair_at pairs h = Some p) by (unfold pair_at; destruct (Z.leb_spec h 0); [lia|done]).
  assert (E2 : pair_at moved r = Some (remap_pair pair_map p)).
  { unfold pair_at. destruct (Z.leb_spec r 0); [lia|]. replace (r - 0 - 1) with (r - 1) in Hk by lia.
    rewrite Hp in Hk. unfold moved. rewrite zget_lookup in * by lia. rewrite list_lookup_fmap, Hk. done. }
  rewrite E1, E2. cbn [first second remap_pair]. destruct (Hclosed (h - 1) p Hl Hp) as [H1 H2].
  by rewrite (IH _ H1), (IH _ H2).
Qed.

Lemma unfold_moved_all vs : Forall (value_live pairs live) vs ->
  Forall2 (fun v v' => forall n, unfold_pairs n moved v' = unfold_pairs n pairs v) vs (map (remap_value pair_map) vs).
Proof. induction 1 as [|v vs Hv _ IH]; cbn [map]; constructor; [|done]. intros n. by apply unfold_moved. Qed.

End Renumber.

(** ** Compaction *)

(** The pairs reachable from the roots of a state. *)
Definition reachable_pair (s : AivmVm) (i : Z) : Prop := rooted (scratch_pairs s) (root_values s) i.

Section Compaction.

Context `{Host}.

Lemma remap_never_fails pairs live vs s :
  length live = length pairs -> Forall (value_live pairs live) vs ->
  forall part update, part s = vs ->
  walk part update (remap_pair_handle (pair_map live)) tt s = Ok tt (update (map (remap_value (pair_map live)) vs) s).
Proof. intros Hlen Hvs part update E. unfold walk. rewrite E, (visit_remap pairs live Hlen vs Hvs). done. Qed.

(** The walk over the roots succeeds when they are all live. *)
Lemma walk_roots_remap pairs live s :
  length live = length pairs -> Forall (value_live pairs live) (root_values s) ->
  exists s', walk_roots (remap_pair_handle (pair_map live)) tt s = Ok tt s' /\
    root_values s' = map (remap_value (pair_map live)) (root_values s) /\
    control_view s' = control_view s /\ status s' = status s.
Proof.
  intros Hlen Hall. pose proof (calm_walk_roots (remap_pair_handle (pair_map live)) tt s) as Hcalm.
  unfold root_values in Hall. rewrite !Forall_app in Hall. destruct Hall as (H1 & H2 & H3 & H4).
  assert (Hrun : exists s', walk_roots (remap_pair_handle (pair_map live)) tt s = Ok tt s').
  { unfold walk_roots, bind.
    rewrite (remap_never_fails pairs live (stack_part s) s Hlen H1) by done.
    rewrite (remap_never_fails pairs live (locals_part s) _ Hlen H2) by done.
    rewrite (remap_never_fails pairs live (tasks_part s) _ Hlen H3) by done.
    rewrite (remap_never_fails pairs live (par_values s) _ Hlen H4) by done. by eexists. }
  destruct Hrun as [s' Hs']. exists s'. rewrite Hs' in Hcalm. split; [done|]. split; [|done].
  destruct (walk_roots_spec (remap_pair_handle (pair_map live)) (fun _ => True) (fun _ _ => True)
    (fun _ v v' => v' = remap_value (pair_map live) v) (value_live pairs live)) with (acc := tt) (s := s) (acc' := tt) (s' := s')
    as (_ & _ & HR & _); try done.
  - intros [] v v' [] _ Hv. rewrite (remap_live pairs live Hlen v Hv). by intros [= <-].
  - unfold root_values. rewrite !Forall_app. done.
  - symmetry. clear -HR. induction HR as [|x y l l' -> _ IH]; [done|]. cbn. by f_equal.
Qed.

Lemma mark_handles_run s : scratch_pairs s <> [] ->
  match aivm_vm_mark_live_scratch_pair_handles s with
  | Ok live s' => (exists t, s' = set_tick t s) /\ length live = length (scratch_pairs s) /\
      Forall (value_live (scratch_pairs s) live) (root_values s) /\
      (forall i p, is_live live i -> zget (scratch_pairs s) i = Some p ->
         value_live (scratch_pairs s) live (first p) /\ value_live (scratch_pairs s) live (second p)) /\
      (forall i, is_live live i <-> reachable_pair s i)
  | Err s' => exists t e d, s' = aivm_set_vm_error e d (set_tick t s)
  | Undef => False
  end.
Proof.
  intros Hne. unfold aivm_vm_mark_live_scratch_pair_handles, bind at 1, get.
  assert (Hz : (scratch_pair_count s =? 0) = false).
  { unfold scratch_pair_count. destruct (scratch_pairs s); [done|]. rewrite zlen_cons. pose proof (zlen_nonneg l). lia. }
  rewrite Hz. unfold bind at 1, alloc. destruct (host_alloc _ _); cbn [negb]; [|by eexists _, _, _].
  pose proof (mark_pairs_spec (scratch_pairs s) (root_values s)) as Hspec.
  unfold bind. destruct (mark_pairs (scratch_pairs s) (root_values s)) as [m|e d|]; cbn [of_visit]; [| |done].
  - cbn [ret]. split; [by eexists|]. exact Hspec.
  - by eexists _, _, _.
Qed.

Lemma compact_pairs_run s :
  match aivm_vm_compact_scratch_pairs s with
  | Ok _ s' =>
      Forall2 (fun v v' => forall n, unfold_pairs n (scratch_pairs s') v' = unfold_pairs n (scratch_pairs s) v)
        (root_values s) (root_values s') /\
      control_view s' = control_view s /\ status s' = status s /\
      (scratch_pairs s = [] \/ exists live, (forall i, is_live live i <-> reachable_pair s i) /\
         zlen live = scratch_pair_count s /\ scratch_pair_count s' = zlen live - count_false live)
  | Err s' => status s' = AIVM_VM_STATUS_ERROR /\ scratch_pairs s' = scratch_pairs s /\ root_values s' = root_values s
  | Undef => False
  end.
Proof.
  unfold aivm_vm_compact_scratch_pairs, bind at 1, get.
  destruct (Z.eqb_spec (scratch_pair_count s) 0) as [Hz|Hnz].
  { cbn. split_and!; try done; [clear; by induction (root_values s); constructor|]. left. unfold scratch_pair_count, zlen in Hz.
    destruct (scratch_pairs s); [done|]. cbn in Hz. lia. }
  assert (Hne : scratch_pairs s <> []) by (intros E; unfold scratch_pair_count in Hnz; rewrite E in Hnz; done).
  unfold bind at 1 2 3, alloc. set (s1 := set_tick _ (set_tick _ (set_tick _ s))).
  destruct (negb _); [done|]. unfold bind at 1. pose proof (mark_handles_run s1 Hne) as Hmark.
  destruct (aivm_vm_mark_live_scratch_pair_handles s1) as [live s2|s2|]; [| |done].
  2: { destruct Hmark as (t & e & d & ->). done. }
  destruct Hmark as ([t ->] & Hlen & Hroots & Hclosed & Hiff). change (scratch_pairs s1) with (scratch_pairs s) in *.
  change (0 :: ranks live 0) with (pair_map live).
  rewrite (visit_moved (scratch_pairs s) live Hlen Hclosed). cbn [of_visit]. unfold bind at 1, ret.
  destruct (walk_roots_remap (scratch_pairs s) live (set_tick t s1) Hlen Hroots) as (s3 & Hw & Hrv & Hcv & Hst).
  unfold bind. rewrite Hw. unfold modify. split_and!.
  - change (root_values (set_scratch_pairs ?x s3)) with (root_values s3). cbn [scratch_pairs set_scratch_pairs].
    rewrite Hrv, map_map. cbn [snd]. rewrite map_id. change (root_values (set_tick t s1)) with (root_values s).
    exact (unfold_moved_all (scratch_pairs s) live Hlen Hclosed (root_values s) Hroots).
  - exact Hcv.
  - exact Hst.
  - right. exists live. split; [done|]. split; [unfold scratch_pair_count, zlen; by rewrite Hlen|].
    unfold scratch_pair_count. cbn [scratch_pairs set_scratch_pairs]. rewrite zlen_map. unfold moved. rewrite !zlen_map.
    by apply keep_length.
Qed.

Lemma calm_of_visit {B} (r : visit B) : calm (of_visit r).
Proof. intros s. by destruct r. Qed.

Lemma calm_mark_pairs : calm aivm_vm_mark_live_scratch_pair_handles.
Proof.
  apply calm_bind; [apply calm_get|intros s]. destruct (_ =? 0); [apply calm_ret|].
  apply calm_bind; [apply calm_alloc|intros ok]. destruct (negb ok); [apply calm_throw|].
  apply calm_bind; [apply calm_of_visit|intros m]. apply calm_ret.
Qed.

Lemma calm_compact_pairs : calm aivm_vm_compact_scratch_pairs.
Proof.
  apply calm_bind; [apply calm_get|intros s]. destruct (_ =? 0); [apply calm_ret|].
  do 3 (apply calm_bind; [apply calm_alloc|intros ?]). destruct (negb _); [apply calm_throw|].
  apply calm_bind; [apply calm_mark_pairs|intros live].
  cbv beta zeta. match goal with |- context [visit_list ?F ?acc ?l] => destruct (visit_list F acc l) as [remapped r] end.
  apply calm_bind; [apply calm_of_visit|intros _]. apply calm_bind; [apply calm_walk_roots|intros _].
  by apply calm_modify.
Qed.

(** Compacting the scratch pairs.  On success the pairs left are exactly
    as many as were reachable from the stack, the locals, the task results and the
    parallel values, and every such root stands for the same tree of values as
    before, at every depth, under the new numbering; the control state does not
    change.  A compaction that fails (a refused allocation, or a root or pair that
    names no pair) reports an error and leaves roots and pairs as they were.  The
    marking worklist never overflows and the loops end. *)
Theorem compact_pairs_preserves s :
  match aivm_vm_compact_scratch_pairs s with
  | Ok _ s' =>
      Forall2 (fun v v' => forall n, unfold_pairs n (scratch_pairs s') v' = unfold_pairs n (scratch_pairs s) v)
        (root_values s) (root_values s') /\
      control_view s' = control_view s /\ status s' = status s /\
      (scratch_pairs s = [] \/ exists live, (forall i, is_live live i <-> reachable_pair s i) /\
         zlen live = scratch_pair_count s /\ scratch_pair_count s' = zlen live - count_false live)
  | Err s' => status s' = AIVM_VM_STATUS_ERROR /\ scratch_pairs s' = scratch_pairs s /\ root_values s' = root_values s
  | Undef => False
  end.
Proof. apply compact_pairs_run. Qed.

End Compaction.

(** A new pair is found under its handle, and the older handles find what they
    found before. *)
Lemma create_pair_lookup v1 v2 s :
  scratch_pair_count s < AIVM_VM_SCRATCH_PAIR_CAPACITY ->
  exists h s', aivm_vm_create_scratch_pair v1 v2 s = Ok h s' /\
    aivm_vm_lookup_scratch_pair s' h = Some (mk_pair v1 v2) /\
    forall k p, aivm_vm_lookup_scratch_pair s k = Some p -> aivm_vm_lookup_scratch_pair s' k = Some p.
Proof.
  intros Hc. unfold aivm_vm_create_scratch_pair, bind, get. pose proof (zlen_nonneg (scratch_pairs s)) as Hn.
  unfold scratch_pair_count in *.
  rewrite (proj2 (size_add_checked_Some _ 1 _)) by (split; [unfold SIZE_MAX, AIVM_VM_SCRATCH_PAIR_CAPACITY in *; lia|reflexivity]).
  rewrite (proj2 (Z.leb_gt _ _)) by lia. eexists _, _. split; [reflexivity|].
  unfold aivm_vm_lookup_scratch_pair, scratch_pair_count. cbn [scratch_pairs set_scratch_pairs].
  rewrite zlen_app. change (zlen [mk_pair v1 v2]) with 1. split.
  - destruct (_ || _) eqn:E; [lia|]. rewrite zget_lookup by lia. rewrite lookup_app_r by (unfold zlen; lia).
    replace (_ - _)%nat with 0%nat by (unfold zlen; lia). done.
  - intros k p. destruct (_ || _) eqn:E; [done|]. intros Hp. replace (_ || _) with false by lia.
    rewrite zget_lookup in * by lia. by rewrite lookup_app_l_Some with (x := p).
Qed.
