(* ===== verification/NodeGc.v ===== *)
(** * Node arenas and their collector

    src/src/aivm_vm_node.c, aivm_vm_node_arena.c and aivm_vm_node_gc.c.  A node
    record names a range of the attribute arena and a range of the child arena;
    marking walks breadth first from the roots, compaction copies the live nodes
    with their ranges to fresh arenas and renumbers every handle. *)

From S2P Require Import Prelude Types Program Vm Lifecycle Stack ControlSafety Roots Pairs.

(** ** Lookup and growth *)

Definition node_count (n : NodeStore) : Z := zlen (nodes n).
Definition node_attr_count (n : NodeStore) : Z := zlen (node_attrs n).
Definition node_child_count (n : NodeStore) : Z := zlen (node_children n).

Definition aivm_vm_lookup_node (n : NodeStore) (handle : Z) : option AivmNodeRecord :=
  if (handle <=? 0) || (node_count n <? handle) then None else zget (nodes n) (handle - 1).

(** [next_capacity]: doubling until [needed]; 64 doublings pass every size. *)
Fixpoint double_until (fuel : nat) (next needed : Z) : Z :=
  match fuel with
  | O => next
  | S fuel' =>
      if next <? needed
      then if SIZE_MAX / 2 <? next then needed else double_until fuel' (next * 2) needed
      else next
  end.

Definition next_capacity (current needed : Z) : Z :=
  double_until 65 (if current =? 0 then 1 else current) needed.

Definition SIZEOF_NODE : Z := 48.
Definition SIZEOF_ATTR : Z := 24.
Definition SIZEOF_CHILD : Z := 8.

(** The bytes an arena grows by, added to those of the arenas before. *)
Definition growth_part (capacity old size growth : Z) : option Z :=
  if old <? capacity
  then if SIZE_MAX / size <? capacity - old then None
       else aivm_size_add_checked growth ((capacity - old) * size)
  else Some growth.

Section Host.

Context `{Host}.

Definition put_store (f : NodeStore -> NodeStore) : M unit :=
  modify (fun s => set_node_store (f (node_store s)) s).

(** Reallocate one arena; what was reallocated before stays. *)
Definition grow_arena (capacity old size : Z) (commit : NodeStore -> NodeStore) : M unit :=
  if old <? capacity then
    let! ok := alloc (capacity * size) in
    if ok then put_store commit else fail
  else ret tt.

Definition aivm_vm_try_grow_node_arenas (needed_nodes needed_attrs needed_children : Z) : M unit :=
  let! s := get in
  let n := node_store s in
  if negb (bool_decide (runtime_profile s = AIVM_RUNTIME_PROFILE_TOOLING)) then fail
  else
    let nc := next_capacity (node_capacity n) needed_nodes in
    let ac := next_capacity (node_attr_capacity n) needed_attrs in
    let cc := next_capacity (node_child_capacity n) needed_children in
    if (nc =? node_capacity n) && (ac =? node_attr_capacity n) && (cc =? node_child_capacity n)
    then ret tt
    else
      match (g1 ← growth_part nc (node_capacity n) SIZEOF_NODE 0;
             g2 ← growth_part ac (node_attr_capacity n) SIZEOF_ATTR g1;
             growth_part cc (node_child_capacity n) SIZEOF_CHILD g2) with
      | None => fail
      | Some growth_bytes =>
          do! aivm_vm_host_memory_growth_available growth_bytes in
          do! grow_arena nc (node_capacity n) SIZEOF_NODE (set_node_capacity nc) in
          do! grow_arena ac (node_attr_capacity n) SIZEOF_ATTR (set_node_attr_capacity ac) in
          grow_arena cc (node_child_capacity n) SIZEOF_CHILD (set_node_child_capacity cc)
      end.

(** What an arena needs under pressure (3/4 full): one more than its capacity. *)
Definition pressure_need (count capacity : Z) : Z :=
  if capacity / 4 * 3 <=? count then (if capacity =? SIZE_MAX then capacity else capacity + 1) else count.

Definition aivm_vm_try_grow_pressure_node_arenas : M unit :=
  let! s := get in
  let n := node_store s in
  if negb (bool_decide (runtime_profile s = AIVM_RUNTIME_PROFILE_TOOLING)) then fail
  else aivm_vm_try_grow_node_arenas
         (pressure_need (node_count n) (node_capacity n))
         (pressure_need (node_attr_count n) (node_attr_capacity n))
         (pressure_need (node_child_count n) (node_child_capacity n)).

(** ** Marking *)

(** The marks, the handles still to be walked (first in, first out), and how many
    have been written to the queue. *)
Record node_marking := mk_node_marking { nm_live : list bool; nm_todo : list Z; nm_written : Z }.

(** ENQUEUE_HANDLE: handles outside the nodes are skipped. *)
Definition enqueue_handle (n : NodeStore) (m : node_marking) (h : Z) : visit node_marking :=
  if (0 <? h) && (h <=? node_count n) then
    match zget (nm_live m) (h - 1) with
    | None => Stuck
    | Some true => Visited m
    | Some false =>
        if node_capacity n <=? nm_written m
        then Failed AIVM_VM_ERR_MEMORY_PRESSURE (DText "AIVMM003: node mark queue capacity exceeded.")
        else Visited (mk_node_marking (zset (nm_live m) (h - 1) true) (nm_todo m ++ [h]) (nm_written m + 1))
    end
  else Visited m.

Fixpoint enqueue_handles (n : NodeStore) (m : node_marking) (hs : list Z) : visit node_marking :=
  match hs with
  | [] => Visited m
  | h :: rest =>
      match enqueue_handle n m h with Visited m' => enqueue_handles n m' rest | r => r end
  end.

(** The node handles among values. *)
Definition node_handles (vs : list AivmValue) : list Z :=
  omap (fun v => match v with VNode h => Some h | _ => None end) vs.

Definition pair_values (p : AivmScratchPair) : list AivmValue := [first p; second p].

Definition builder_handles (s : AivmVm) : list Z :=
  flat_map (fun o => match o with Some b => builder_children b | None => [] end) (node_builders s).

(** All roots but the extra handles, in the order of the source. *)
Definition node_root_handles (s : AivmVm) (live_pairs : list bool) : list Z :=
  let n := node_store s in
  [process_argv_node_handle n; ui_default_window_size_node_handle n; ui_empty_event_node_handle n] ++
  node_handles (root_values s) ++
  node_handles (flat_map pair_values (keep live_pairs (scratch_pairs s))) ++
  builder_handles s.

(** The extra handles must name nodes, unless they are not positive. *)
Fixpoint enqueue_extra (n : NodeStore) (m : node_marking) (hs : list Z) : visit node_marking :=
  match hs with
  | [] => Visited m
  | h :: rest =>
      if h <=? 0 then enqueue_extra n m rest
      else if node_count n <? h
      then Failed AIVM_VM_ERR_INVALID_PROGRAM (DText "Invalid extra node handle during GC mark.")
      else match enqueue_handle n m h with Visited m' => enqueue_extra n m' rest | r => r end
  end.

(** The children of a node, each slot checked before it is read. *)
Fixpoint enqueue_children (k : nat) (n : NodeStore) (m : node_marking) (slot : Z) : visit node_marking :=
  match k with
  | O => Visited m
  | S k' =>
      if node_child_capacity n <=? slot
      then Failed AIVM_VM_ERR_INVALID_PROGRAM (DText "Invalid child slot during GC mark.")
      else
        match zget (node_children n) slot with
        | None => Stuck
        | Some h =>
            match enqueue_handle n m h with Visited m' => enqueue_children k' n m' (slot + 1) | r => r end
        end
  end.

(** The queue loop; every node is queued at most once. *)
Fixpoint mark_queue (fuel : nat) (n : NodeStore) (m : node_marking) : visit node_marking :=
  match nm_todo m with
  | [] => Visited m
  | h :: rest =>
      match fuel with
      | O => Stuck
      | S fuel' =>
          match aivm_vm_lookup_node n h with
          | None => Failed AIVM_VM_ERR_INVALID_PROGRAM (DText "Invalid node handle during GC mark.")
          | Some nd =>
              match enqueue_children (Z.to_nat (child_count nd)) n
                      (mk_node_marking (nm_live m) rest (nm_written m)) (child_start nd) with
              | Visited m' => mark_queue fuel' n m'
              | r => r
              end
          end
      end
  end.

Definition mark_nodes (n : NodeStore) (roots extra : list Z) : visit node_marking :=
  let start := mk_node_marking (replicate (length (nodes n)) false) [] 0 in
  match enqueue_handles n start roots with
  | Visited m1 =>
      match enqueue_extra n m1 extra with
      | Visited m2 => mark_queue (length (nodes n)) n m2
      | r => r
      end
  | r => r
  end.

Definition aivm_vm_mark_live_node_handles (extra : list Z) : M (list bool) :=
  let! s := get in
  let! ok1 := alloc (node_capacity (node_store s) * 8) in
  let! ok2 := alloc AIVM_VM_SCRATCH_PAIR_CAPACITY in
  if negb (ok1 && ok2)
  then throw AIVM_VM_ERR_MEMORY_PRESSURE (DText "AIVMM003: node mark workspace allocation failed.")
  else
    let! live_pairs := aivm_vm_mark_live_scratch_pair_handles in
    let! m := of_visit (mark_nodes (node_store s) (node_root_handles s live_pairs) extra) in
    ret (nm_live m).

(** ** Compaction *)

(** [handle_map[h]]: the map has an entry for every handle up to the capacity;
    those past the nodes are 0. *)
Definition map_at (handle_map : list Z) (h : Z) : Z := default 0 (zget handle_map h).

Definition remap_handle (n : NodeStore) (handle_map : list Z) (h : Z) : option Z :=
  if (h <=? 0) || (node_capacity n <? h) || (map_at handle_map h <=? 0) then None
  else Some (map_at handle_map h).

(** The arenas under construction. *)
Record new_arenas := mk_arenas {
  new_nodes : list AivmNodeRecord; new_attrs : list AivmNodeAttr; new_children : list Z }.

(** Copy [k] attributes from [slot] on. *)
Fixpoint copy_attrs (k : nat) (n : NodeStore) (slot : Z) (out : list AivmNodeAttr) : visit (list AivmNodeAttr) :=
  match k with
  | O => Visited out
  | S k' =>
      if (node_attr_capacity n <=? zlen out) || (node_attr_capacity n <=? slot)
      then Failed AIVM_VM_ERR_MEMORY_PRESSURE (DText "AIVMM004: node attr slot overflow during node GC.")
      else
        match zget (node_attrs n) slot with
        | None => Stuck
        | Some a => copy_attrs k' n (slot + 1) (out ++ [a])
        end
  end.

(** Copy and renumber [k] children from [slot] on. *)
Fixpoint copy_children (k : nat) (n : NodeStore) (handle_map : list Z) (slot : Z) (out : list Z)
    : visit (list Z) :=
  match k with
  | O => Visited out
  | S k' =>
      if (node_child_capacity n <=? slot) || (node_child_capacity n <=? zlen out)
      then Failed AIVM_VM_ERR_MEMORY_PRESSURE (DText "AIVMM004: node child slot overflow during node GC.")
      else
        match zget (node_children n) slot with
        | None => Stuck
        | Some old_child =>
            match remap_handle n handle_map old_child with
            | None => Failed AIVM_VM_ERR_INVALID_PROGRAM (DText "Dangling child handle during node GC.")
            | Some h => copy_children k' n handle_map (slot + 1) (out ++ [h])
            end
        end
  end.

Definition move_node (n : NodeStore) (handle_map : list Z) (nd : AivmNodeRecord) (out : new_arenas)
    : visit new_arenas :=
  let capacity_exceeded := Failed AIVM_VM_ERR_MEMORY_PRESSURE
                             (DText "AIVMM004: node compaction capacity exceeded.") in
  match aivm_size_add_checked (zlen (new_attrs out)) (attr_count nd),
        aivm_size_add_checked (zlen (new_children out)) (child_count nd) with
  | Some needed_attrs, Some needed_children =>
      if (node_attr_capacity n <? needed_attrs) || (node_child_capacity n <? needed_children)
      then capacity_exceeded
      else
        match copy_attrs (Z.to_nat (attr_count nd)) n (attr_start nd) (new_attrs out) with
        | Visited attrs =>
            match copy_children (Z.to_nat (child_count nd)) n handle_map (child_start nd) (new_children out) with
            | Visited children =>
                Visited (mk_arenas
                  (new_nodes out ++ [mk_node (node_kind nd) (node_id nd) (zlen (new_attrs out)) (attr_count nd)
                                       (zlen (new_children out)) (child_count nd)])
                  attrs children)
            | Failed e d => Failed e d
            | Stuck => Stuck
            end
        | Failed e d => Failed e d
        | Stuck => Stuck
        end
  | _, _ => capacity_exceeded
  end.

Fixpoint move_nodes (n : NodeStore) (handle_map : list Z) (nds : list AivmNodeRecord) (out : new_arenas)
    : visit new_arenas :=
  match nds with
  | [] => Visited out
  | nd :: rest =>
      match move_node n handle_map nd out with Visited out' => move_nodes n handle_map rest out' | r => r end
  end.

(** [add_counter_saturating] *)
Definition add_counter_saturating (counter delta : Z) : Z :=
  if SIZE_MAX - counter <? delta then SIZE_MAX else counter + delta.

(** The new arenas in place, with the counters. *)
Definition commit_arenas (out : new_arenas) (n : NodeStore) : NodeStore :=
  let '(rn, ra, rc) := node_gc_reclaimed n in
  set_node_gc_reclaimed
    (add_counter_saturating rn (node_count n - zlen (new_nodes out)),
     add_counter_saturating ra (node_attr_count n - zlen (new_attrs out)),
     add_counter_saturating rc (node_child_count n - zlen (new_children out)))
    (set_node_gc_compaction_count (aivm_counter_increment_saturating (node_gc_compaction_count n))
      (set_nodes (new_nodes out) (set_node_attrs (new_attrs out) (set_node_children (new_children out) n)))).

(** [remap_value_node_handle], with the error its caller reports. *)
Definition remap_node_value (n : NodeStore) (pair_count : Z) (handle_map : list Z) (message : string)
    : visitor unit AivmValue := fun _ v =>
  let invalid := Failed AIVM_VM_ERR_INVALID_PROGRAM (DText message) in
  match v with
  | VPair h => (v, if (0 <? h) && (h <=? pair_count) then Visited tt else invalid)
  | VNode h =>
      match remap_handle n handle_map h with
      | Some h' => (VNode h', Visited tt)
      | None => (v, invalid)
      end
  | _ => (v, Visited tt)
  end.

(** [aivm_vm_remap_child_handles_for_compaction] on an array updated in place. *)
Definition remap_child (n : NodeStore) (handle_map : list Z) (e : AivmVmError) (message : string)
    : visitor unit Z := fun _ h =>
  match remap_handle n handle_map h with
  | Some h' => (h', Visited tt)
  | None => (h, Failed e (DText message))
  end.

Definition remap_builder (n : NodeStore) (handle_map : list Z)
    : visitor unit (option AivmNodeBuilderRecord) := fun _ o =>
  match o with
  | None => (o, Visited tt)
  | Some b =>
      let '(children, r) := visit_list (remap_child n handle_map AIVM_VM_ERR_INVALID_PROGRAM
        "Invalid node-builder child handle during node GC.") tt (builder_children b) in
      (Some (mk_builder (builder_kind b) (builder_id b) (builder_attrs b) children), r)
  end.

(** A handle the VM keeps for the host; 0 when there is none. *)
Definition remap_kept (n : NodeStore) (handle_map : list Z) (kept : NodeStore -> Z)
    (store : Z -> NodeStore -> NodeStore) (message : string) : M unit :=
  let! s := get in
  let h := kept (node_store s) in
  if 0 <? h then
    match remap_handle n handle_map h with
    | Some h' => put_store (store h')
    | None => throw AIVM_VM_ERR_INVALID_PROGRAM (DText message)
    end
  else ret tt.

(** The second half of the compaction: every handle the VM holds, in place.  The
    state is the one with the new arenas; [n] has the capacity, which is the same. *)
Definition remap_node_roots (n : NodeStore) (pair_count : Z) (handle_map : list Z) (live_pairs : list bool) : M unit :=
  let remap := remap_node_value n pair_count handle_map in
  do! walk stack_part set_stack_part (remap "Invalid stack node handle during node GC.") tt in
  do! walk locals_part set_locals_part (remap "Invalid local node handle during node GC.") tt in
  do! walk tasks_part set_tasks_part (remap "Invalid completed-task node handle during node GC.") tt in
  do! walk par_values set_par_values (remap "Invalid parallel-value node handle during node GC.") tt in
  do! walk_live_pairs (remap "Invalid scratch-pair node handle during node GC.") live_pairs tt in
  do! walk node_builders set_node_builders (remap_builder n handle_map) tt in
  do! remap_kept n handle_map process_argv_node_handle set_process_argv_node_handle
        "Invalid process argv node handle during node GC." in
  do! remap_kept n handle_map ui_default_window_size_node_handle set_ui_default_window_size_node_handle
        "Invalid ui window size node handle during node GC." in
  remap_kept n handle_map ui_empty_event_node_handle set_ui_empty_event_node_handle
    "Invalid ui event node handle during node GC.".

Definition aivm_vm_compact_node_arenas_with_map (extra : list Z) : M (list Z) :=
  do! put_store (fun n => set_node_gc_attempt_count
        (aivm_counter_increment_saturating (node_gc_attempt_count n)) n) in
  let! s := get in
  let n := node_store s in
  if node_count n =? 0 then ret []
  else
    let! ok1 := alloc (node_capacity n) in
    let! ok2 := alloc ((node_capacity n + 1) * 8) in
    let! ok3 := alloc AIVM_VM_SCRATCH_PAIR_CAPACITY in
    let! ok4 := alloc (node_capacity n * SIZEOF_NODE) in
    let! ok5 := alloc (node_attr_capacity n * SIZEOF_ATTR) in
    let! ok6 := alloc (node_child_capacity n * SIZEOF_CHILD) in
    if negb (ok1 && ok2 && ok3 && ok4 && ok5 && ok6)
    then throw AIVM_VM_ERR_MEMORY_PRESSURE (DText "AIVMM004: node compaction allocation failed.")
    else
      let! live := aivm_vm_mark_live_node_handles extra in
      let! live_pairs := aivm_vm_mark_live_scratch_pair_handles in
      let handle_map := 0 :: ranks live 0 in
      let! out := of_visit (move_nodes n handle_map (keep live (nodes n)) (mk_arenas [] [] [])) in
      do! put_store (commit_arenas out) in
      do! remap_node_roots n (scratch_pair_count s) handle_map live_pairs in
      ret handle_map.

(** ** When to collect *)

Definition aivm_vm_should_attempt_proactive_node_gc (n : NodeStore) (attrs children : Z) : bool :=
  if node_allocations_since_gc n <? AIVM_VM_NODE_GC_INTERVAL_ALLOCATIONS then false
  else
    match aivm_size_add_checked (node_attr_count n) attrs, aivm_size_add_checked (node_child_count n) children with
    | Some needed_attrs, Some needed_children =>
        (node_capacity n <=? node_count n) || (node_attr_capacity n <=? needed_attrs) ||
        (node_child_capacity n <=? needed_children)
    | _, _ => true
    end.

Definition aivm_vm_should_attempt_return_safe_point (s : AivmVm) : bool :=
  let n := node_store s in
  if node_allocations_since_gc n <? AIVM_VM_NODE_GC_RETURN_SAFEPOINT_ALLOCATIONS then false
  else if negb (bool_decide (runtime_profile s = AIVM_RUNTIME_PROFILE_TOOLING)) then true
  else (node_capacity n / 4 * 3 <=? node_count n) || (node_attr_capacity n / 4 * 3 <=? node_attr_count n) ||
       (node_child_capacity n / 4 * 3 <=? node_child_count n).

Definition aivm_vm_should_attempt_bytes_return_safe_point (s : AivmVm) : bool :=
  let b := bytes_arena s in
  (ba_gc_threshold b <? ba_capacity b) && (ba_gc_threshold b <=? zlen (ba_data b)).

End Host.
