(* ===== verification/NodeMark.v ===== *)
(** * Well-formed node arenas and what marking finds

    The invariant node creation and compaction keep (src/src/aivm_vm_node_create.c,
    aivm_vm_node_gc.c): the records use the attribute and child arenas one after the
    other without gaps, and every child is a node.  Under it the
    marking of aivm_vm_mark_live_node_handles finds exactly the nodes reachable from
    the roots, within its queue. *)

From S2P Require Import Prelude Types Program Vm Lifecycle Stack ControlSafety Roots Pairs NodeGc.

(** ** The invariant *)

Definition slice {A} (l : list A) (start count : Z) : list A := ztake count (zdrop start l).

Definition attrs_of (n : NodeStore) (nd : AivmNodeRecord) : list AivmNodeAttr :=
  slice (node_attrs n) (attr_start nd) (attr_count nd).
Definition children_of (n : NodeStore) (nd : AivmNodeRecord) : list Z :=
  slice (node_children n) (child_start nd) (child_count nd).

(** The records with their ranges laid out from [a] and [c] on. *)
Fixpoint placed (nds : list AivmNodeRecord) (a c : Z) : list AivmNodeRecord :=
  match nds with
  | [] => []
  | nd :: rest =>
      mk_node (node_kind nd) (node_id nd) a (attr_count nd) c (child_count nd) ::
      placed rest (a + attr_count nd) (c + child_count nd)
  end.

Definition counts_ok (nd : AivmNodeRecord) : Prop := 0 <= attr_count nd /\ 0 <= child_count nd.

Record nodes_ok (n : NodeStore) : Prop := {
  no_placed : placed (nodes n) 0 0 = nodes n;
  no_counts : Forall counts_ok (nodes n);
  no_attrs : node_attr_count n = total attr_count (nodes n);
  no_children : node_child_count n = total child_count (nodes n);
  no_child : forall i nd c, zget (nodes n) i = Some nd -> c ∈ children_of n nd -> 0 < c <= node_count n;
  no_node_fit : node_count n <= node_capacity n <= SIZE_MAX;
  no_attr_fit : node_attr_count n <= node_attr_capacity n <= SIZE_MAX;
  no_child_fit : node_child_count n <= node_child_capacity n <= SIZE_MAX }.

Definition node_valid (n : NodeStore) (h : Z) : Prop := 0 < h <= node_count n.

(** ** Ranges *)

Lemma placed_app pre post a c :
  placed (pre ++ post) a c = placed pre a c ++ placed post (a + total attr_count pre) (c + total child_count pre).
Proof.
  revert a c. induction pre as [|nd pre IH]; intros a c; cbn [placed total app]; [by rewrite !Z.add_0_r|].
  rewrite IH. do 2 f_equal. f_equal; lia.
Qed.

Lemma placed_length nds a c : length (placed nds a c) = length nds.
Proof. revert a c. induction nds as [|nd nds IH]; intros a c; cbn; [done|by rewrite IH]. Qed.

Lemma placed_idem nds a c : placed (placed nds a c) a c = placed nds a c.
Proof. revert a c. induction nds as [|nd nds IH]; intros a c; cbn [placed]; [done|]. cbn. by rewrite IH. Qed.

Lemma placed_total nds a c :
  total attr_count (placed nds a c) = total attr_count nds /\ total child_count (placed nds a c) = total child_count nds.
Proof.
  revert a c. induction nds as [|nd nds IH]; intros a c; cbn [placed total]; [done|].
  destruct (IH (a + attr_count nd) (c + child_count nd)) as [-> ->]. done.
Qed.

(** The record at an index, with what comes before it. *)
Lemma placed_get nds a c i nd' : zget (placed nds a c) i = Some nd' ->
  exists pre nd post, nds = pre ++ nd :: post /\ zlen pre = i /\
    nd' = mk_node (node_kind nd) (node_id nd) (a + total attr_count pre) (attr_count nd)
            (c + total child_count pre) (child_count nd).
Proof.
  intros Hg. pose proof (zget_Some_bounds _ _ _ Hg) as Hb. unfold zlen in Hb. rewrite placed_length in Hb.
  destruct (zget_is_Some nds i) as [nd Hnd]; [done|]. destruct (zget_split _ _ _ Hnd) as [E Hpre].
  exists (ztake i nds), nd, (zdrop (i + 1) nds). split; [done|]. split; [done|].
  rewrite E, placed_app in Hg. rewrite zget_lookup in Hg by lia.
  rewrite lookup_app_r in Hg by (rewrite placed_length; unfold zlen in Hpre; lia).
  rewrite placed_length in Hg. replace (_ - _)%nat with 0%nat in Hg by (unfold zlen in Hpre; lia). by injection Hg as <-.
Qed.

Lemma slice_length {A} (l : list A) start count :
  0 <= start -> 0 <= count -> start + count <= zlen l -> zlen (slice l start count) = count.
Proof. intros. unfold slice. apply zlen_ztake. rewrite zlen_zdrop; lia. Qed.

(** The part of a concatenation that came from its middle. *)
Lemma slice_middle {A} (l1 l2 l3 : list A) : slice (l1 ++ l2 ++ l3) (zlen l1) (zlen l2) = l2.
Proof.
  unfold slice, ztake, zdrop, zlen. rewrite !Nat2Z.id. rewrite drop_app_length. apply take_app_length.
Qed.

Lemma slice_cons {A} (l : list A) start count x :
  0 <= start -> 0 < count -> zget l start = Some x -> slice l start count = x :: slice l (start + 1) (count - 1).
Proof.
  intros H0 H1 Hx. destruct (zget_split _ _ _ Hx) as [E Hlen]. unfold slice at 1.
  replace (zdrop start l) with (x :: zdrop (start + 1) l).
  - unfold slice, ztake. replace (Z.to_nat count) with (S (Z.to_nat (count - 1))) by lia. done.
  - unfold zdrop. replace (Z.to_nat (start + 1)) with (S (Z.to_nat start)) by lia.
    symmetry. apply drop_S. by rewrite <- zget_lookup.
Qed.

Section Ranges.

Context (n : NodeStore) (Hok : nodes_ok n).

(** The ranges of a record lie in the arenas. *)
Lemma record_ranges i nd : zget (nodes n) i = Some nd ->
  counts_ok nd /\ 0 <= attr_start nd /\ attr_start nd + attr_count nd <= node_attr_count n /\
  0 <= child_start nd /\ child_start nd + child_count nd <= node_child_count n.
Proof.
  intros Hnd. rewrite <- (no_placed n Hok) in Hnd. apply placed_get in Hnd as (pre & nd0 & post & E & _ & ->).
  cbn [attr_start attr_count child_start child_count]. rewrite (no_attrs n Hok), (no_children n Hok), E, !total_app.
  cbn [total]. pose proof (no_counts n Hok) as Hc. rewrite E in Hc. apply Forall_app in Hc as [H1 H2].
  apply Forall_cons in H2 as [H2 H3].
  assert (T : forall l, Forall counts_ok l -> 0 <= total attr_count l /\ 0 <= total child_count l).
  { intros l Hl. split; apply total_nonneg; (eapply Forall_impl; [exact Hl|by intros ? []]). }
  destruct (T pre H1), (T post H3), H2. split; [done|]. lia.
Qed.

Lemma lookup_valid h : node_valid n h -> exists nd, aivm_vm_lookup_node n h = Some nd /\ zget (nodes n) (h - 1) = Some nd.
Proof.
  intros Hh. unfold node_valid, aivm_vm_lookup_node in *. destruct (_ || _) eqn:E; [lia|].
  destruct (zget_is_Some (nodes n) (h - 1)) as [nd Hnd]; [unfold node_count in Hh; lia|]. by exists nd.
Qed.

Lemma lookup_Some h nd : aivm_vm_lookup_node n h = Some nd -> node_valid n h /\ zget (nodes n) (h - 1) = Some nd.
Proof. unfold aivm_vm_lookup_node, node_valid. destruct (_ || _) eqn:E; [done|]. split; [lia|done]. Qed.

Lemma child_valid h nd c : aivm_vm_lookup_node n h = Some nd -> c ∈ children_of n nd -> node_valid n c.
Proof.
  intros Hl Hc. apply lookup_Some in Hl as [Hv Hnd]. by apply (no_child n Hok (h - 1) nd c).
Qed.

End Ranges.

(** ** Marking *)

Definition child_of (n : NodeStore) (h c : Z) : Prop :=
  exists nd, aivm_vm_lookup_node n h = Some nd /\ c ∈ children_of n nd.

(** A node reached from one of the handles. *)
Definition node_rooted (n : NodeStore) (roots : list Z) (h : Z) : Prop :=
  exists r, r ∈ roots /\ node_valid n r /\ rtc (child_of n) r h.

(** [h] is marked. *)
Definition marked (live : list bool) (h : Z) : Prop := is_live live (h - 1).

Section Marking.

Context (n : NodeStore) (Hok : nodes_ok n) (roots : list Z).

Record nmark_ok (m : node_marking) : Prop := {
  nk_length : length (nm_live m) = length (nodes n);
  nk_distinct : NoDup (nm_todo m);
  nk_todo : Forall (fun h => node_valid n h /\ marked (nm_live m) h) (nm_todo m);
  nk_rooted : forall h, marked (nm_live m) h -> node_rooted n roots h;
  nk_written : nm_written m = node_count n - count_false (nm_live m) }.

(** The marked nodes that are neither queued nor in [except] have marked children. *)
Definition nclosed (except : Z -> Prop) (m : node_marking) : Prop := forall h nd,
  marked (nm_live m) h -> aivm_vm_lookup_node n h = Some nd ->
  h ∈ nm_todo m \/ except h \/ Forall (marked (nm_live m)) (children_of n nd).

Definition npotential (m : node_marking) : Z := count_false (nm_live m) + zlen (nm_todo m).

(** From [m] to [m'], after the handles [hs] were queued. *)
Record advance (except : Z -> Prop) (hs : list Z) (m m' : node_marking) : Prop := {
  ad_ok : nmark_ok m';
  ad_closed : nclosed except m';
  ad_live : forall h, marked (nm_live m) h -> marked (nm_live m') h;
  ad_marked : Forall (fun h => node_valid n h -> marked (nm_live m') h) hs;
  ad_potential : npotential m' = npotential m }.

Lemma marked_mono (P Q : Z -> Prop) l : (forall h, P h -> Q h) -> Forall P l -> Forall Q l.
Proof. intros HI HP. by eapply Forall_impl. Qed.

Lemma enqueue_spec except m h :
  nmark_ok m -> nclosed except m -> (node_valid n h -> node_rooted n roots h) ->
  exists m', enqueue_handle n m h = Visited m' /\ advance except [h] m m'.
Proof.
  intros Hm Hcl Hr. pose proof Hm as [Hlen Hnd Htodo Hroot Hw]. unfold enqueue_handle.
  assert (Hsame : (node_valid n h -> marked (nm_live m) h) -> advance except [h] m m).
  { intros Hv. split; try done. by apply Forall_singleton. }
  destruct ((0 <? h) && (h <=? node_count n)) eqn:E.
  2: { exists m. split; [done|]. apply Hsame. unfold node_valid. lia. }
  assert (Hv : node_valid n h) by (unfold node_valid; lia).
  destruct (zget_is_Some (nm_live m) (h - 1)) as [b Hb]; [unfold node_valid, node_count, zlen in *; lia|].
  rewrite Hb. destruct b; [exists m; split; [done|]; by apply Hsame|].
  pose proof (count_false_set _ _ Hb) as Hcf. pose proof (count_false_bounds (zset (nm_live m) (h - 1) true)) as Hcb.
  destruct (Z.leb_spec (node_capacity n) (nm_written m)) as [Hle|_].
  { pose proof (no_node_fit n Hok). lia. }
  eexists. split; [reflexivity|]. set (m' := mk_node_marking _ _ _).
  assert (Hb' : 0 <= h - 1 < zlen (nm_live m)) by (by apply zget_Some_bounds in Hb).
  assert (Hnew : marked (nm_live m') h) by (unfold marked, is_live; cbn [nm_live m']; by rewrite zget_zset_eq).
  assert (Hgrow : forall k, marked (nm_live m) k -> marked (nm_live m') k).
  { intros k Hk. destruct (Z.eq_dec h k) as [<-|]; [done|]. unfold marked, is_live in *. cbn [nm_live m'].
    rewrite zget_zset_ne by lia. done. }
  assert (Hold : forall k, marked (nm_live m') k -> k = h \/ marked (nm_live m) k).
  { intros k. destruct (Z.eq_dec h k) as [<-|]; [by left|]. unfold marked, is_live. cbn [nm_live m'].
    rewrite zget_zset_ne by lia. by right. }
  split; [split| | |by apply Forall_singleton|].
  - cbn [nm_live m']. rewrite <- Hlen. pose proof (zlen_zset (nm_live m) (h - 1) true). unfold zlen in *. lia.
  - cbn [nm_todo m']. apply NoDup_app. split; [done|]. split; [|apply NoDup_singleton]. intros k Hk Hin.
    apply list_elem_of_singleton in Hin as ->. rewrite Forall_forall in Htodo. destruct (Htodo h Hk) as [_ Hmk].
    unfold marked, is_live in Hmk. congruence.
  - cbn [nm_todo m']. apply Forall_app. split; [|by apply Forall_singleton].
    eapply Forall_impl; [exact Htodo|]. intros k [? ?]. split; [done|by apply Hgrow].
  - intros k Hk. destruct (Hold k Hk) as [->|]; [by apply Hr|by apply Hroot].
  - cbn [nm_live nm_written m']. lia.
  - intros k nd Hk Hl. cbn [nm_todo m']. rewrite elem_of_app. destruct (Hold k Hk) as [->|Hk']; [left; right; by left|].
    destruct (Hcl k nd Hk' Hl) as [?|[?|Hch]]; [by left; left|by right; left|].
    right. right. by apply (marked_mono _ _ _ Hgrow).
  - done.
  - unfold npotential. cbn [nm_live nm_todo m']. rewrite zlen_app, Hcf. change (zlen [h]) with 1. lia.
Qed.

Lemma advance_trans except hs hs' m m1 m2 :
  advance except hs m m1 -> advance except hs' m1 m2 -> advance except (hs ++ hs') m m2.
Proof.
  intros [A1 A2 A3 A4 A5] [B1 B2 B3 B4 B5]. split; [done|done| | |congruence].
  - intros h Hh. by apply B3, A3.
  - apply Forall_app. split; [|done]. eapply Forall_impl; [exact A4|]. intros h Hh Hv. by apply B3, Hh.
Qed.

Lemma enqueue_all_spec except hs : forall m,
  nmark_ok m -> nclosed except m -> Forall (fun h => node_valid n h -> node_rooted n roots h) hs ->
  exists m', enqueue_handles n m hs = Visited m' /\ advance except hs m m'.
Proof.
  induction hs as [|h hs IH]; intros m Hm Hcl Hr; cbn [enqueue_handles].
  { exists m. by split. }
  apply Forall_cons in Hr as [Hh Hr]. destruct (enqueue_spec except m h Hm Hcl Hh) as (m1 & -> & A).
  destruct (IH m1 (ad_ok _ _ _ _ A) (ad_closed _ _ _ _ A) Hr) as (m2 & -> & B). exists m2. split; [done|].
  exact (advance_trans _ [h] hs _ _ _ A B).
Qed.

(** The loops over extra handles and over the children are the plain one. *)
Lemma enqueue_extra_all hs : Forall (fun h => h <= node_count n) hs ->
  forall m, enqueue_extra n m hs = enqueue_handles n m hs.
Proof.
  induction 1 as [|h hs Hh _ IH]; intros m; cbn [enqueue_extra enqueue_handles]; [done|].
  destruct (Z.leb_spec h 0).
  - unfold enqueue_handle. rewrite (proj2 (Z.ltb_ge 0 h)) by done. apply IH.
  - rewrite (proj2 (Z.ltb_ge (node_count n) h)) by done. destruct (enqueue_handle n m h); [apply IH|done|done].
Qed.

Lemma enqueue_children_all k : forall slot m, 0 <= slot -> slot + Z.of_nat k <= node_child_count n ->
  enqueue_children k n m slot = enqueue_handles n m (slice (node_children n) slot (Z.of_nat k)).
Proof.
  pose proof (no_child_fit n Hok) as Hfit.
  induction k as [|k IH]; intros slot m H0 Hb; cbn [enqueue_children]; [done|].
  destruct (Z.leb_spec (node_child_capacity n) slot); [lia|].
  destruct (zget_is_Some (node_children n) slot) as [h Hh]; [unfold node_child_count in Hb; lia|].
  rewrite Hh, (slice_cons _ _ _ h) by (done || lia). cbn [enqueue_handles].
  destruct (enqueue_handle n m h) as [m'| |]; [|done|done]. rewrite IH by lia. do 2 f_equal. lia.
Qed.

Lemma rooted_child h nd c : node_rooted n roots h -> aivm_vm_lookup_node n h = Some nd -> c ∈ children_of n nd -> node_rooted n roots c.
Proof. intros (r & Hr & Hv & Hp) Hl Hc. exists r. split; [done|]. split; [done|]. eapply rtc_r; [done|]. by exists nd. Qed.

Lemma mark_queue_spec fuel : forall m,
  nmark_ok m -> nclosed (fun _ => False) m -> npotential m <= Z.of_nat fuel ->
  exists m', mark_queue fuel n m = Visited m' /\ nm_todo m' = [] /\ nmark_ok m' /\ nclosed (fun _ => False) m' /\
    (forall h, marked (nm_live m) h -> marked (nm_live m') h).
Proof.
  induction fuel as [|fuel IH]; intros m Hm Hcl Hpot; cbn [mark_queue];
    (destruct (nm_todo m) as [|h rest] eqn:Et; [by exists m|]).
  { unfold npotential in Hpot. rewrite Et, zlen_cons in Hpot. pose proof (count_false_bounds (nm_live m)).
    pose proof (zlen_nonneg rest). lia. }
  pose proof Hm as [Hlen Hnd Htodo Hroot Hw]. rewrite Et in Hnd, Htodo. apply NoDup_cons in Hnd as [Hnh Hnd].
  apply Forall_cons in Htodo as [[Hv Hmk] Htodo]. destruct (lookup_valid n h Hv) as (nd & Hl & Hnd').
  rewrite Hl. destruct (record_ranges n Hok _ _ Hnd') as ([_ Hcc] & _ & _ & Hs & He).
  set (m0 := mk_node_marking (nm_live m) rest (nm_written m)).
  rewrite enqueue_children_all by lia. rewrite Z2Nat.id by lia. fold (children_of n nd).
  assert (Hm0 : nmark_ok m0) by (by split).
  assert (Hcl0 : nclosed (fun k => k = h) m0).
  { intros k q Hk Hq. destruct (Hcl k q Hk Hq) as [Hin|[[]|?]]; [|by right; right].
    rewrite Et in Hin. apply elem_of_cons in Hin as [->|?]; [by right; left|by left]. }
  assert (Hrc : Forall (fun c => node_valid n c -> node_rooted n roots c) (children_of n nd)).
  { apply Forall_forall. intros c Hc _. eapply rooted_child; eauto. }
  destruct (enqueue_all_spec _ _ m0 Hm0 Hcl0 Hrc) as (m1 & -> & [A1 A2 A3 A4 A5]).
  assert (Hcl1 : nclosed (fun _ => False) m1).
  { intros k q Hk Hq. destruct (A2 k q Hk Hq) as [?|[->|?]]; [by left| |by right; right].
    right. right. rewrite Hl in Hq. injection Hq as <-. rewrite Forall_forall in A4 |- *.
    intros c Hc. apply A4; [done|]. by apply (child_valid n Hok h nd). }
  assert (Hfuel : npotential m1 <= Z.of_nat fuel).
  { rewrite A5. unfold npotential in *. cbn [nm_live nm_todo m0]. rewrite Et, zlen_cons in Hpot. lia. }
  destruct (IH m1 A1 Hcl1 Hfuel) as (m2 & -> & Hnil & Hm2 & Hcl2 & Hmono). exists m2. split_and!; try done.
  intros k Hk. by apply Hmono, A3.
Qed.

End Marking.

(** Marking from [roots] and the extra handles: the marks are exactly the nodes
    reachable from them, and are closed under children. *)
Lemma mark_nodes_spec n roots extra : nodes_ok n -> Forall (fun h => h <= node_count n) extra ->
  exists m, mark_nodes n roots extra = Visited m /\ length (nm_live m) = length (nodes n) /\
    (forall h nd c, marked (nm_live m) h -> aivm_vm_lookup_node n h = Some nd -> c ∈ children_of n nd -> marked (nm_live m) c) /\
    (forall h, marked (nm_live m) h <-> node_rooted n (roots ++ extra) h).
Proof.
  intros Hok Hex. unfold mark_nodes. set (m0 := mk_node_marking _ [] 0). set (all := roots ++ extra).
  assert (Hno : forall h, ~ marked (nm_live m0) h).
  { intros h Hh. unfold marked, is_live in Hh. pose proof (zget_Some_bounds _ _ _ Hh). rewrite zget_lookup in Hh by lia.
    apply lookup_replicate in Hh as [Hh _]. done. }
  assert (Hm0 : nmark_ok n all m0).
  { split; [cbn; by rewrite length_replicate|constructor|constructor| |].
    - intros h Hh. by apply Hno in Hh.
    - cbn [nm_written nm_live m0]. rewrite count_false_replicate. unfold node_count, zlen. lia. }
  assert (Hcl0 : nclosed n (fun _ => False) m0) by (intros h nd Hh; by apply Hno in Hh).
  assert (Hr : forall hs, (forall h, h ∈ hs -> h ∈ all) -> Forall (fun h => node_valid n h -> node_rooted n all h) hs).
  { intros hs Hin. apply Forall_forall. intros h Hh Hv. exists h. split; [by apply Hin|]. by split. }
  destruct (enqueue_all_spec n Hok all _ roots m0 Hm0 Hcl0) as (m1 & -> & A); [apply Hr; set_solver|].
  rewrite enqueue_extra_all by done. pose proof A as [A1 A2 _ _ _].
  destruct (enqueue_all_spec n Hok all _ extra m1 A1 A2) as (m2 & -> & B); [apply Hr; set_solver|].
  destruct (advance_trans n all _ _ _ _ _ _ A B) as [C1 C2 _ C4 C5]. fold all in C4.
  destruct (mark_queue_spec n Hok all (length (nodes n)) m2 C1 C2) as (m3 & -> & Hnil & D1 & D2 & D3).
  { rewrite C5. unfold npotential. cbn [nm_live nm_todo m0]. rewrite count_false_replicate, zlen_nil. lia. }
  assert (Hclosed : forall h nd c, marked (nm_live m3) h -> aivm_vm_lookup_node n h = Some nd ->
    c ∈ children_of n nd -> marked (nm_live m3) c).
  { intros h nd c Hh Hl Hc. destruct (D2 h nd Hh Hl) as [Hin|[[]|Hch]]; [rewrite Hnil in Hin; by apply elem_of_nil in Hin|].
    rewrite Forall_forall in Hch. by apply Hch. }
  exists m3. split; [done|]. split; [apply D1|]. split; [done|]. intros h. split; [apply D1|].
  intros (r & Hin & Hv & Hp). rewrite Forall_forall in C4. specialize (D3 r (C4 r Hin Hv)). clear Hin Hv.
  induction Hp as [|r c h (nd & Hl & Hc) _ IH]; [done|]. by apply IH, (Hclosed r nd c).
Qed.
