(* ===== verification/NodeMove.v ===== *)
(** * Compaction of the node arenas keeps what the roots stand for

    The copying half of aivm_vm_compact_node_arenas_with_map
    (src/src/aivm_vm_node_gc.c): the live nodes keep their order and their text,
    attributes and children, under new handles. *)

From S2P Require Import Prelude Types Program Vm Lifecycle Stack ControlSafety Roots Pairs NodeGc NodeMark.

Set Warnings "-register-all".

(** ** What a handle stands for *)

Inductive ntree :=
  | NTree (kind id : str_ptr) (attrs : list AivmNodeAttr) (children : list ntree)
  | NCut
  | NInvalid.

(** A node unfolded to a depth. *)
Fixpoint unfold_node (d : nat) (n : NodeStore) (h : Z) : ntree :=
  match d with
  | O => NCut
  | S d' =>
      match aivm_vm_lookup_node n h with
      | None => NInvalid
      | Some nd => NTree (node_kind nd) (node_id nd) (attrs_of n nd) (map (unfold_node d' n) (children_of n nd))
      end
  end.

(** ** Copying *)

Lemma copy_attrs_slice n : node_attr_count n <= node_attr_capacity n -> forall k slot out,
  0 <= slot -> slot + Z.of_nat k <= node_attr_count n -> zlen out + Z.of_nat k <= node_attr_capacity n ->
  copy_attrs k n slot out = Visited (out ++ slice (node_attrs n) slot (Z.of_nat k)).
Proof.
  intros Hfit. induction k as [|k IH]; intros slot out H0 Hb Hc; cbn [copy_attrs]; [by rewrite app_nil_r|].
  destruct ((_ <=? _) || _) eqn:E; [lia|].
  destruct (zget_is_Some (node_attrs n) slot) as [x Hx]; [unfold node_attr_count in Hb; lia|].
  rewrite Hx, (slice_cons _ _ _ x) by (done || lia). rewrite IH by (rewrite ?zlen_app; change (zlen [x]) with 1; lia).
  rewrite <- app_assoc. do 3 f_equal. f_equal. lia.
Qed.

Section Move.

Context (n : NodeStore) (Hok : nodes_ok n) (live : list bool) (Hlen : length live = length (nodes n)).

Definition handle_map : list Z := 0 :: ranks live 0.
Definition new_handle (h : Z) : Z := map_at handle_map h.

(** A marked node has a positive new handle, at which its record is kept. *)
Lemma new_handle_live h : node_valid n h -> marked live h ->
  0 < new_handle h /\ zget (keep live (nodes n)) (new_handle h - 1) = zget (nodes n) (h - 1) /\
  remap_handle n handle_map h = Some (new_handle h).
Proof.
  intros Hv Hl. pose proof (no_node_fit n Hok) as Hfit. unfold node_valid in Hv.
  destruct (ranks_live live (nodes n) 0 (h - 1) Hlen Hl ltac:(lia)) as (r & Hr & Hpos & Hk).
  assert (E : new_handle h = r) by (unfold new_handle, map_at, handle_map; rewrite zget_cons by lia; by rewrite Hr).
  rewrite E. split; [lia|]. split; [rewrite <- Hk; f_equal; lia|].
  unfold remap_handle. fold (new_handle h). rewrite E. destruct (_ || _) eqn:Eb; [lia|done].
Qed.

Lemma copy_children_slice : forall k slot out,
  0 <= slot -> slot + Z.of_nat k <= node_child_count n -> zlen out + Z.of_nat k <= node_child_capacity n ->
  Forall (fun c => node_valid n c /\ marked live c) (slice (node_children n) slot (Z.of_nat k)) ->
  copy_children k n handle_map slot out = Visited (out ++ map new_handle (slice (node_children n) slot (Z.of_nat k))).
Proof.
  pose proof (no_child_fit n Hok) as Hfit.
  induction k as [|k IH]; intros slot out H0 Hb Hc Hl; cbn [copy_children]; [by rewrite app_nil_r|].
  destruct ((_ <=? _) || _) eqn:E; [lia|].
  destruct (zget_is_Some (node_children n) slot) as [x Hx]; [unfold node_child_count in Hb; lia|].
  rewrite (slice_cons _ _ _ x) in * by (done || lia). apply Forall_cons in Hl as [[Hv Hm] Hl].
  replace (Z.of_nat (S k) - 1) with (Z.of_nat k) in * by lia.
  rewrite Hx. destruct (new_handle_live x Hv Hm) as (_ & _ & ->).
  rewrite IH by (rewrite ?zlen_app; change (zlen [new_handle x]) with 1; done || lia).
  rewrite <- app_assoc. done.
Qed.

(** A record whose ranges are in the arenas and whose children are marked. *)
Definition movable (nd : AivmNodeRecord) : Prop :=
  counts_ok nd /\ 0 <= attr_start nd /\ attr_start nd + attr_count nd <= node_attr_count n /\
  0 <= child_start nd /\ child_start nd + child_count nd <= node_child_count n /\
  Forall (fun c => node_valid n c /\ marked live c) (children_of n nd).

Definition moved_children (nd : AivmNodeRecord) : list Z := map new_handle (children_of n nd).

Lemma attrs_of_length nd : movable nd -> zlen (attrs_of n nd) = attr_count nd.
Proof. intros ((? & ?) & ? & ? & _). by apply slice_length. Qed.

Lemma moved_children_length nd : movable nd -> zlen (moved_children nd) = child_count nd.
Proof. intros ((? & ?) & ? & ? & ? & ? & _). unfold moved_children. rewrite zlen_map. by apply slice_length. Qed.

Lemma move_node_spec nd out : movable nd ->
  zlen (new_attrs out) + attr_count nd <= node_attr_capacity n ->
  zlen (new_children out) + child_count nd <= node_child_capacity n ->
  move_node n handle_map nd out = Visited (mk_arenas
    (new_nodes out ++ placed [nd] (zlen (new_attrs out)) (zlen (new_children out)))
    (new_attrs out ++ attrs_of n nd) (new_children out ++ moved_children nd)).
Proof.
  intros ((Ha & Hc) & Has & Hae & Hcs & Hce & Hl) Hfa Hfc.
  pose proof (no_attr_fit n Hok). pose proof (no_child_fit n Hok). unfold move_node.
  rewrite (proj2 (size_add_checked_Some (zlen (new_attrs out)) (attr_count nd) _)) by (split; [lia|reflexivity]).
  rewrite (proj2 (size_add_checked_Some (zlen (new_children out)) (child_count nd) _)) by (split; [lia|reflexivity]).
  destruct ((_ <? _) || _) eqn:E; [lia|].
  rewrite copy_attrs_slice by lia. rewrite Z2Nat.id by lia.
  rewrite copy_children_slice; rewrite ?Z2Nat.id by lia; try lia; [done|exact Hl].
Qed.

Lemma move_nodes_spec nds : forall out, Forall movable nds ->
  zlen (new_attrs out) + total attr_count nds <= node_attr_capacity n ->
  zlen (new_children out) + total child_count nds <= node_child_capacity n ->
  move_nodes n handle_map nds out = Visited (mk_arenas
    (new_nodes out ++ placed nds (zlen (new_attrs out)) (zlen (new_children out)))
    (new_attrs out ++ flat_map (attrs_of n) nds) (new_children out ++ flat_map moved_children nds)).
Proof.
  induction nds as [|nd nds IH]; intros out Hmv Hfa Hfc; cbn [move_nodes total placed flat_map] in *.
  { rewrite !app_nil_r. by destruct out. }
  apply Forall_cons in Hmv as [Hnd Hmv].
  assert (Hp : 0 <= total attr_count nds /\ 0 <= total child_count nds).
  { split; apply total_nonneg; (eapply Forall_impl; [exact Hmv|]); by intros x [[? ?] _]. }
  rewrite move_node_spec by (done || lia). rewrite IH; cbn [new_nodes new_attrs new_children]; try done;
    rewrite ?zlen_app, ?attrs_of_length, ?moved_children_length by done; try lia.
  cbn [placed]. by rewrite <- !app_assoc.
Qed.

(** ** The new arenas *)

(** The marks are closed under children. *)
Context (Hclosed : forall h nd c, marked live h -> aivm_vm_lookup_node n h = Some nd ->
  c ∈ children_of n nd -> marked live c).

Definition kept : list AivmNodeRecord := keep live (nodes n).

(** A record that is kept, where it was and where it goes. *)
Lemma keep_get {A} lv : forall (l : list A) k i x, length lv = length l -> zget (keep lv l) i = Some x ->
  exists j, is_live lv j /\ zget l j = Some x /\ zget (ranks lv k) j = Some (k + i + 1).
Proof.
  induction lv as [|b lv IH]; intros [|y l] k i x Hl Hx; try done; cbn [keep] in Hx.
  { apply zget_Some_bounds in Hx. unfold zlen in Hx. cbn in Hx. lia. }
  injection Hl as Hl.
  assert (Hnext : forall k' i', zget (keep lv l) i' = Some x ->
    exists j, is_live (b :: lv) (j + 1) /\ zget (y :: l) (j + 1) = Some x /\ zget (ranks lv k') j = Some (k' + i' + 1) /\ 0 <= j).
  { intros k' i' Hi. destruct (IH l k' i' x Hl Hi) as (j & Hj & Hx' & Hr). pose proof (zget_Some_bounds _ _ _ Hx').
    exists j. unfold is_live in *. rewrite !zget_cons by lia. replace (j + 1 - 1) with j by lia. by split_and!; try lia. }
  destruct b; cbn [ranks].
  - destruct (Z.eq_dec i 0) as [->|].
    + exists 0. split; [done|]. split; [done|]. by rewrite Z.add_0_r.
    + pose proof (zget_Some_bounds _ _ _ Hx). rewrite zget_cons in Hx by lia.
      destruct (Hnext (k + 1) (i - 1) Hx) as (j & H1 & H2 & H3 & Hj). exists (j + 1). split; [done|]. split; [done|].
      rewrite zget_cons by lia. replace (j + 1 - 1) with j by lia. rewrite H3. f_equal. lia.
  - destruct (Hnext k i Hx) as (j & H1 & H2 & H3 & Hj). exists (j + 1). split; [done|]. split; [done|].
    rewrite zget_cons by lia. by replace (j + 1 - 1) with j by lia.
Qed.

Lemma kept_get i nd : zget kept i = Some nd ->
  exists h, marked live h /\ aivm_vm_lookup_node n h = Some nd /\ new_handle h = i + 1.
Proof.
  intros Hi. destruct (keep_get live (nodes n) 0 i nd Hlen Hi) as (j & Hj & Hnd & Hr).
  pose proof (zget_Some_bounds _ _ _ Hnd) as Hb. exists (j + 1). unfold marked, aivm_vm_lookup_node.
  replace (j + 1 - 1) with j by lia. split; [done|]. split.
  - unfold node_count. destruct (_ || _) eqn:E; [lia|done].
  - unfold new_handle, map_at, handle_map. rewrite zget_cons by lia. replace (j + 1 - 1) with j by lia.
    rewrite Hr. cbn. lia.
Qed.

Lemma marked_movable h nd : marked live h -> aivm_vm_lookup_node n h = Some nd -> movable nd.
Proof.
  intros Hm Hl. pose proof (lookup_Some n h nd Hl) as [Hv Hnd].
  destruct (record_ranges n Hok _ _ Hnd) as (? & ? & ? & ? & ?). split_and!; try done.
  apply Forall_forall. intros c Hc. split; [by eapply child_valid|by eapply Hclosed].
Qed.

Lemma kept_movable : Forall movable kept.
Proof.
  apply Forall_forall. intros nd Hin. apply keep_elem in Hin as (i & Hi & Hnd); [|done].
  pose proof (zget_Some_bounds _ _ _ Hnd) as Hb. apply (marked_movable (i + 1)).
  - unfold marked. by replace (i + 1 - 1) with i by lia.
  - unfold aivm_vm_lookup_node, node_count. destruct (_ || _) eqn:E; [lia|]. by replace (i + 1 - 1) with i by lia.
Qed.

Lemma keep_total {A} (f : A -> Z) lv : forall l, Forall (fun x => 0 <= f x) l -> 0 <= total f (keep lv l) <= total f l.
Proof.
  induction lv as [|b lv IH]; intros l Hl; [cbn [keep total]; split; [done|by apply total_nonneg]|].
  destruct Hl as [|x l Hx Hl]; [by destruct b|]. specialize (IH l Hl). destruct b; cbn [keep total]; lia.
Qed.

(** The copy loop fills fresh arenas without running out of room. *)
Lemma move_all : move_nodes n handle_map kept (mk_arenas [] [] []) =
  Visited (mk_arenas (placed kept 0 0) (flat_map (attrs_of n) kept) (flat_map moved_children kept)).
Proof.
  assert (Hc : Forall (fun nd => 0 <= attr_count nd) (nodes n) /\ Forall (fun nd => 0 <= child_count nd) (nodes n)).
  { split; (eapply Forall_impl; [exact (no_counts n Hok)|by intros x []]). }
  destruct Hc as [Ha Hc]. apply (keep_total attr_count live) in Ha. apply (keep_total child_count live) in Hc.
  rewrite move_nodes_spec; [done|exact kept_movable| |]; cbn [new_attrs new_children]; rewrite zlen_nil.
  - pose proof (no_attrs n Hok). pose proof (no_attr_fit n Hok). fold kept in Ha. lia.
  - pose proof (no_children n Hok). pose proof (no_child_fit n Hok). fold kept in Hc. lia.
Qed.

Lemma flat_map_length {A B} (f : A -> list B) (g : A -> Z) l :
  Forall (fun x => zlen (f x) = g x) l -> zlen (flat_map f l) = total g l.
Proof. induction 1 as [|x l Hx _ IH]; cbn [flat_map total]; [done|]. rewrite zlen_app. lia. Qed.

(** A node store with these arenas. *)
Context (n' : NodeStore) (Hnodes : nodes n' = placed kept 0 0)
  (Hattrs : node_attrs n' = flat_map (attrs_of n) kept) (Hchildren : node_children n' = flat_map moved_children kept).

Lemma slice_flat_map {A B} (f : A -> list B) (g : A -> Z) pre x post :
  Forall (fun x => zlen (f x) = g x) (pre ++ x :: post) ->
  slice (flat_map f (pre ++ x :: post)) (total g pre) (g x) = f x.
Proof.
  intros Hl. apply Forall_app in Hl as [H1 H2]. apply Forall_cons in H2 as [H2 _].
  rewrite flat_map_app. cbn [flat_map]. rewrite <- (flat_map_length f g pre H1), <- H2. apply slice_middle.
Qed.

(** A kept record under its new number: same text and attributes, the same
    children under their new handles. *)
Lemma moved_record i nd : zget kept i = Some nd ->
  exists nd', zget (nodes n') i = Some nd' /\ node_kind nd' = node_kind nd /\ node_id nd' = node_id nd /\
    counts_ok nd' /\ attrs_of n' nd' = attrs_of n nd /\ children_of n' nd' = moved_children nd.
Proof.
  intros Hi. destruct (zget_split _ _ _ Hi) as [E Hpre]. set (pre := ztake i kept) in *. set (post := zdrop (i + 1) kept) in *.
  assert (Hall := kept_movable). pose proof Hall as Hmv. rewrite E in Hmv. apply Forall_app in Hmv as [_ Hmv].
  apply Forall_cons in Hmv as [Hmv _].
  exists (mk_node (node_kind nd) (node_id nd) (total attr_count pre) (attr_count nd) (total child_count pre) (child_count nd)).
  split; [|split; [done|]; split; [done|]; split; [apply Hmv|split]].
  - rewrite Hnodes, E, placed_app. pose proof (zget_Some_bounds _ _ _ Hi). rewrite zget_lookup by lia.
    rewrite lookup_app_r by (rewrite placed_length; unfold zlen in Hpre; lia). rewrite placed_length.
    replace (_ - _)%nat with 0%nat by (unfold zlen in Hpre; lia). done.
  - unfold attrs_of at 1. cbn [attr_start attr_count]. rewrite Hattrs, E. apply slice_flat_map. rewrite <- E.
    eapply Forall_impl; [exact Hall|apply attrs_of_length].
  - unfold children_of at 1. cbn [child_start child_count]. rewrite Hchildren, E. apply slice_flat_map. rewrite <- E.
    eapply Forall_impl; [exact Hall|apply moved_children_length].
Qed.

Lemma moved_lookup h : node_valid n h -> marked live h ->
  exists nd nd', aivm_vm_lookup_node n h = Some nd /\ aivm_vm_lookup_node n' (new_handle h) = Some nd' /\
    node_kind nd' = node_kind nd /\ node_id nd' = node_id nd /\
    attrs_of n' nd' = attrs_of n nd /\ children_of n' nd' = moved_children nd.
Proof.
  intros Hv Hm. destruct (lookup_valid n h Hv) as (nd & Hl & Hnd). destruct (new_handle_live h Hv Hm) as (Hpos & Hk & _).
  fold kept in Hk. rewrite Hnd in Hk. destruct (moved_record _ nd Hk) as (nd' & Hnd' & H1 & H2 & _ & H3 & H4).
  exists nd, nd'. split; [done|]. split; [|done]. unfold aivm_vm_lookup_node.
  pose proof (zget_Some_bounds _ _ _ Hnd'). unfold node_count. destruct (_ || _) eqn:E; [lia|done].
Qed.

(** The renumbered handle of a marked node stands for the same tree. *)
Lemma unfold_moved_node d : forall h, node_valid n h -> marked live h ->
  unfold_node d n' (new_handle h) = unfold_node d n h.
Proof.
  induction d as [|d IH]; intros h Hv Hm; [done|]. cbn [unfold_node].
  destruct (moved_lookup h Hv Hm) as (nd & nd' & Hl & -> & -> & -> & -> & ->). rewrite Hl. f_equal.
  unfold moved_children. rewrite map_map. apply map_ext_in. intros c Hc%list_elem_of_In.
  apply IH; [by eapply child_valid|by eapply Hclosed].
Qed.

Lemma moved_ok :
  node_capacity n' = node_capacity n -> node_attr_capacity n' = node_attr_capacity n ->
  node_child_capacity n' = node_child_capacity n -> nodes_ok n'.
Proof.
  intros C1 C2 C3.
  assert (Hc : Forall (fun nd => 0 <= attr_count nd) (nodes n) /\ Forall (fun nd => 0 <= child_count nd) (nodes n)).
  { split; (eapply Forall_impl; [exact (no_counts n Hok)|by intros x []]). }
  destruct Hc as [Ha Hc]. apply (keep_total attr_count live) in Ha. apply (keep_total child_count live) in Hc.
  fold kept in Ha, Hc. destruct (placed_total kept 0 0) as [T1 T2].
  assert (Ea : node_attr_count n' = total attr_count kept).
  { unfold node_attr_count. rewrite Hattrs. apply flat_map_length. eapply Forall_impl; [exact kept_movable|apply attrs_of_length]. }
  assert (Ec : node_child_count n' = total child_count kept).
  { unfold node_child_count. rewrite Hchildren. apply flat_map_length.
    eapply Forall_impl; [exact kept_movable|apply moved_children_length]. }
  assert (En : node_count n' = zlen live - count_false live).
  { unfold node_count. rewrite Hnodes. unfold zlen at 1. rewrite placed_length. by apply keep_length. }
  split.
  - rewrite Hnodes. apply placed_idem.
  - rewrite Hnodes. apply Forall_forall. intros x Hx. apply list_elem_of_lookup in Hx as [i Hi].
    assert (Hz : zget (placed kept 0 0) (Z.of_nat i) = Some x) by (rewrite zget_lookup, Nat2Z.id by lia; done).
    apply placed_get in Hz as (pre & nd & post & E & _ & ->). pose proof kept_movable as Hmv. rewrite E in Hmv.
    apply Forall_app in Hmv as [_ Hmv]. apply Forall_cons in Hmv as [[Hco _] _]. exact Hco.
  - rewrite Ea, Hnodes. done.
  - rewrite Ec, Hnodes. done.
  - intros i nd' c Hnd' Hin. pose proof (zget_Some_bounds _ _ _ Hnd') as Hb. rewrite Hnodes in Hb.
    unfold zlen in Hb. rewrite placed_length in Hb. destruct (zget_is_Some kept i Hb) as [nd Hk].
    destruct (moved_record i nd Hk) as (nd2 & E2 & _ & _ & _ & _ & Hch). rewrite Hnd' in E2. injection E2 as <-.
    rewrite Hch in Hin. unfold moved_children in Hin. apply list_elem_of_In, in_map_iff in Hin as (c0 & <- & Hc0%list_elem_of_In).
    destruct (kept_get i nd Hk) as (h & Hm & Hl & Hh). pose proof (child_valid n Hok h nd c0 Hl Hc0) as Hcv.
    pose proof (Hclosed h nd c0 Hm Hl Hc0) as Hcm. destruct (new_handle_live c0 Hcv Hcm) as (Hpos & Hkc & _).
    destruct (lookup_valid n c0 Hcv) as (ndc & _ & Hndc). fold kept in Hkc. rewrite Hndc in Hkc. apply zget_Some_bounds in Hkc.
    unfold node_count. rewrite Hnodes. unfold zlen in *. rewrite placed_length. lia.
  - rewrite C1, En. pose proof (no_node_fit n Hok). pose proof (count_false_bounds live). unfold node_count, zlen in *. lia.
  - rewrite C2, Ea. pose proof (no_attr_fit n Hok). pose proof (no_attrs n Hok). lia.
  - rewrite C3, Ec. pose proof (no_child_fit n Hok). pose proof (no_children n Hok). lia.
Qed.

End Move.
