(* ===== verification/NodeCompact.v ===== *)
(** * The node collector as a whole

    aivm_vm_compact_node_arenas_with_map of src/src/aivm_vm_node_gc.c: marking,
    copying and the renumbering of every handle the VM holds, composed. *)

From S2P Require Import Prelude Types Program Vm Lifecycle Stack ControlSafety Roots Pairs NodeGc NodeMark NodeMove.

(** ** What a value stands for *)

Inductive vtree :=
  | TLeaf (v : AivmValue)
  | TNode (t : ntree)
  | TPair (l r : vtree)
  | TCut
  | TInvalid.

(** A value unfolded through pairs and nodes to a depth. *)
Fixpoint unfold_value (d : nat) (pairs : list AivmScratchPair) (n : NodeStore) (v : AivmValue) : vtree :=
  match v with
  | VNode h => TNode (unfold_node d n h)
  | VPair h =>
      match d with
      | O => TCut
      | S d' =>
          match pair_at pairs h with
          | Some p => TPair (unfold_value d' pairs n (first p)) (unfold_value d' pairs n (second p))
          | None => TInvalid
          end
      end
  | _ => TLeaf v
  end.

Definition same_value (s s' : AivmVm) (v v' : AivmValue) : Prop := forall d,
  unfold_value d (scratch_pairs s') (node_store s') v' = unfold_value d (scratch_pairs s) (node_store s) v.

Definition same_node (s s' : AivmVm) (h h' : Z) : Prop := forall d,
  unfold_node d (node_store s') h' = unfold_node d (node_store s) h.

(** ** The handles the VM holds *)

Definition value_handle_ok (s : AivmVm) (v : AivmValue) : Prop :=
  match v with
  | VNode h => node_valid (node_store s) h
  | VPair h => valid_handle (scratch_pairs s) h
  | _ => True
  end.

Definition host_handles (s : AivmVm) : list Z :=
  let n := node_store s in
  [process_argv_node_handle n; ui_default_window_size_node_handle n; ui_empty_event_node_handle n].

Record handles_ok (s : AivmVm) : Prop := {
  ho_roots : Forall (value_handle_ok s) (root_values s);
  ho_pairs : forall i p, reachable_pair s i -> zget (scratch_pairs s) i = Some p ->
    value_handle_ok s (first p) /\ value_handle_ok s (second p);
  ho_builders : Forall (node_valid (node_store s)) (builder_handles s);
  ho_host : Forall (fun h => h <= node_count (node_store s)) (host_handles s) }.

(** ** Marking pairs whose handles are all good *)

Section Compact.

Context `{Host}.

Lemma mark_handles_valid s : handles_ok s ->
  match aivm_vm_mark_live_scratch_pair_handles s with
  | Ok live s' => (exists t, s' = set_tick t s) /\ length live = length (scratch_pairs s) /\
      (forall i, is_live live i <-> reachable_pair s i)
  | Err s' => starved /\ exists t d, s' = aivm_set_vm_error AIVM_VM_ERR_MEMORY_PRESSURE d (set_tick t s)
  | Undef => False
  end.
Proof.
  intros Hok. unfold aivm_vm_mark_live_scratch_pair_handles, bind at 1, get.
  destruct (Z.eqb_spec (scratch_pair_count s) 0) as [Hz|Hnz].
  { assert (E : scratch_pairs s = []).
    { unfold scratch_pair_count, zlen in Hz. destruct (scratch_pairs s); [done|]. cbn in Hz. lia. }
    cbn [ret]. split; [exists (tick s); by destruct s|]. rewrite E. split; [done|]. intros i. split.
    - intros Hi. apply zget_Some_bounds in Hi. unfold zlen in Hi. cbn in Hi. lia.
    - intros (v & _ & Hr). rewrite E in Hr. assert (Hb : 0 <= i < zlen (@nil AivmScratchPair)).
      { clear -Hr. induction Hr; [lia|done|done]. } unfold zlen in Hb. cbn in Hb. lia. }
  unfold bind at 1, alloc. destruct (host_alloc _ _) eqn:Ea; cbn [negb]; [|split; [by eexists _, _|by eexists _, _]].
  pose proof (mark_pairs_spec (scratch_pairs s) (root_values s)) as Hspec.
  unfold bind. destruct (mark_pairs (scratch_pairs s) (root_values s)) as [m|e d|]; cbn [of_visit]; [| |done].
  - cbn [ret]. split; [by eexists|]. destruct Hspec as (? & _ & _ & ?). done.
  - exfalso. destruct Hspec as (_ & h & Hbad & [Hin|(i & p & Hi & Hp & Hv)]).
    + pose proof (ho_roots s Hok) as Hr. rewrite Forall_forall in Hr. exact (Hbad (Hr _ Hin)).
    + destruct (ho_pairs s Hok i p Hi Hp) as [H1 H2]. destruct Hv as [E|E]; rewrite E in *; by apply Hbad.
Qed.

(** Marking nodes: exactly those reachable from the handles the VM holds, those in
    reachable pairs included, and from the extra ones. *)
Definition held_node (s : AivmVm) (extra : list Z) (h : Z) : Prop :=
  VNode h ∈ root_values s \/
  (exists i p, reachable_pair s i /\ zget (scratch_pairs s) i = Some p /\ VNode h ∈ pair_values p) \/
  h ∈ builder_handles s \/ h ∈ host_handles s \/ h ∈ extra.

Definition reachable_node (s : AivmVm) (extra : list Z) (h : Z) : Prop :=
  exists r, held_node s extra r /\ node_valid (node_store s) r /\ rtc (child_of (node_store s)) r h.

Lemma elem_of_node_handles vs h : h ∈ node_handles vs <-> VNode h ∈ vs.
Proof.
  unfold node_handles. rewrite list_elem_of_omap. split.
  - intros (v & Hv & E). destruct v; try done. by injection E as <-.
  - intros Hv. by exists (VNode h).
Qed.

Lemma live_pair_values s live v : length live = length (scratch_pairs s) -> (forall i, is_live live i <-> reachable_pair s i) ->
  v ∈ flat_map pair_values (keep live (scratch_pairs s)) <->
  exists i p, reachable_pair s i /\ zget (scratch_pairs s) i = Some p /\ v ∈ pair_values p.
Proof.
  intros Hl Hiff. rewrite list_elem_of_In, in_flat_map. split.
  - intros (p & Hp%list_elem_of_In & Hv%list_elem_of_In). apply keep_elem in Hp as (i & Hi & Hp); [|done].
    exists i, p. split; [by apply Hiff|done].
  - intros (i & p & Hi & Hp & Hv). exists p. split; [|by apply list_elem_of_In].
    apply Hiff in Hi. destruct (ranks_live live (scratch_pairs s) 0 i Hl Hi ltac:(lia)) as (r & _ & Hpos & Hk).
    rewrite Hp in Hk. pose proof (zget_Some_bounds _ _ _ Hk). rewrite zget_lookup in Hk by lia.
    apply list_elem_of_In. by eapply list_elem_of_lookup_2.
Qed.

Lemma held_roots s live extra h : length live = length (scratch_pairs s) -> (forall i, is_live live i <-> reachable_pair s i) ->
  h ∈ node_root_handles s live ++ extra <-> held_node s extra h.
Proof.
  intros Hl Hiff. unfold node_root_handles, held_node. fold (host_handles s). rewrite !elem_of_app, !elem_of_node_handles.
  rewrite (live_pair_values s live _ Hl Hiff). tauto.
Qed.

Lemma mark_node_handles_run s extra : nodes_ok (node_store s) -> handles_ok s ->
  Forall (fun h => h <= node_count (node_store s)) extra ->
  match aivm_vm_mark_live_node_handles extra s with
  | Ok live s' => (exists t, s' = set_tick t s) /\ length live = length (nodes (node_store s)) /\
      (forall h nd c, marked live h -> aivm_vm_lookup_node (node_store s) h = Some nd ->
         c ∈ children_of (node_store s) nd -> marked live c) /\
      (forall h, marked live h <-> reachable_node s extra h)
  | Err s' => starved /\ exists t d, s' = aivm_set_vm_error AIVM_VM_ERR_MEMORY_PRESSURE d (set_tick t s)
  | Undef => False
  end.
Proof.
  intros Hn Hok Hex. unfold aivm_vm_mark_live_node_handles, bind at 1 2 3, get, alloc.
  destruct (negb _) eqn:Ea; [split; [starved_by Ea|by eexists _, _]|]. set (s1 := set_tick _ (set_tick _ s)).
  pose proof (mark_handles_valid s1) as Hp. unfold bind at 1.
  destruct (aivm_vm_mark_live_scratch_pair_handles s1) as [lp s2|s2|].
  - destruct Hp as ([t ->] & Hl & Hiff); [by destruct Hok; split|].
    destruct (mark_nodes_spec (node_store s) (node_root_handles s lp) extra Hn Hex) as (m & -> & Hlen & Hcl & Hmk).
    cbn [of_visit]. unfold bind, ret. split; [by eexists|]. split; [done|]. split; [done|].
    intros h. rewrite Hmk. unfold node_rooted, reachable_node. split; intros (r & Hr & Hrest); exists r; (split; [|done]).
    + by apply (held_roots s lp extra r Hl Hiff).
    + by apply (held_roots s lp extra r Hl Hiff).
  - destruct Hp as (Hst & t & d & ->); [by destruct Hok; split|]. split; [done|]. by eexists _, _.
  - apply Hp. by destruct Hok; split.
Qed.

(** ** Renumbering every handle *)

Section Renumber.

Context (n : NodeStore) (Hn : nodes_ok n) (live : list bool) (Hlen : length live = length (nodes n)).

Definition renumber_value (v : AivmValue) : AivmValue :=
  match v with VNode h => VNode (new_handle live h) | _ => v end.
Definition renumber_pair (p : AivmScratchPair) : AivmScratchPair :=
  mk_pair (renumber_value (first p)) (renumber_value (second p)).
Definition renumber_live (x : bool * AivmScratchPair) : bool * AivmScratchPair :=
  (x.1, if x.1 then renumber_pair x.2 else x.2).
Definition renumber_builder (o : option AivmNodeBuilderRecord) : option AivmNodeBuilderRecord :=
  (fun b => mk_builder (builder_kind b) (builder_id b) (builder_attrs b) (map (new_handle live) (builder_children b))) <$> o.
Definition renumber_kept (h : Z) : Z := if 0 <? h then new_handle live h else h.
Definition renumber_host (n0 : NodeStore) : NodeStore :=
  let n1 := set_process_argv_node_handle (renumber_kept (process_argv_node_handle n0)) n0 in
  let n2 := set_ui_default_window_size_node_handle (renumber_kept (ui_default_window_size_node_handle n1)) n1 in
  set_ui_empty_event_node_handle (renumber_kept (ui_empty_event_node_handle n2)) n2.

Definition handle_marked (h : Z) : Prop := node_valid n h /\ marked live h.

Definition value_marked (pair_count : Z) (v : AivmValue) : Prop :=
  match v with VNode h => handle_marked h | VPair h => 0 < h <= pair_count | _ => True end.

Lemma remap_marked pc msg v : value_marked pc v ->
  remap_node_value n pc (handle_map live) msg tt v = (renumber_value v, Visited tt).
Proof.
  destruct v; try done; cbn [value_marked remap_node_value renumber_value].
  - intros [Hv Hm]. by destruct (new_handle_live n Hn live Hlen _ Hv Hm) as (_ & _ & ->).
  - intros Hb. destruct (_ && _) eqn:E; [done|lia].
Qed.

Lemma walk_marked part update pc msg s : Forall (value_marked pc) (part s) ->
  walk part update (remap_node_value n pc (handle_map live) msg) tt s = Ok tt (update (map renumber_value (part s)) s).
Proof. intros HP. apply walk_map. eapply Forall_impl; [exact HP|]. intros v. apply remap_marked. Qed.

Lemma walk_pairs_marked pc msg lp s :
  (forall i p, is_live lp i -> zget (scratch_pairs s) i = Some p -> value_marked pc (first p) /\ value_marked pc (second p)) ->
  walk_live_pairs (remap_node_value n pc (handle_map live) msg) lp tt s =
    Ok tt (set_scratch_pairs (map snd (map renumber_live (zip lp (scratch_pairs s)))) s).
Proof.
  intros HP. unfold walk_live_pairs. rewrite (walk_map _ _ _ renumber_live); [done|].
  apply Forall_forall. intros [b p] Hin. apply list_elem_of_lookup in Hin as [i Hi].
  apply lookup_zip_with_Some in Hi as (b' & p' & [= <- <-] & Hb & Hp).
  destruct b; cbn [on_live_pair negb renumber_live fst snd]; [|done].
  assert (Hz : forall A (l : list A) x, l !! i = Some x -> zget l (Z.of_nat i) = Some x).
  { intros A l x Hx. by rewrite zget_lookup, Nat2Z.id by lia. }
  destruct (HP (Z.of_nat i) p (Hz _ _ _ Hb) (Hz _ _ _ Hp)) as [H1 H2].
  by rewrite (remap_marked pc msg _ H1), (remap_marked pc msg _ H2).
Qed.

Lemma remap_children_marked e msg hs : Forall handle_marked hs ->
  visit_list (remap_child n (handle_map live) e msg) tt hs = (map (new_handle live) hs, Visited tt).
Proof.
  intros Hh. apply visit_list_map. eapply Forall_impl; [exact Hh|]. intros h [Hv Hm]. unfold remap_child.
  by destruct (new_handle_live n Hn live Hlen _ Hv Hm) as (_ & _ & ->).
Qed.

Lemma walk_builders_marked s : Forall handle_marked (builder_handles s) ->
  walk node_builders set_node_builders (remap_builder n (handle_map live)) tt s =
    Ok tt (set_node_builders (map renumber_builder (node_builders s)) s).
Proof.
  intros HP. apply walk_map. unfold builder_handles in HP. apply Forall_forall. intros [b|] Hin; [|done].
  unfold remap_builder. rewrite remap_children_marked; [done|]. rewrite Forall_forall in HP |- *. intros h Hh.
  apply HP, list_elem_of_In, in_flat_map. exists (Some b). split; by apply list_elem_of_In.
Qed.

Lemma remap_kept_marked (field : NodeStore -> Z) (store : Z -> NodeStore -> NodeStore) msg s :
  (forall m, store (field m) m = m) -> (0 < field (node_store s) -> handle_marked (field (node_store s))) ->
  remap_kept n (handle_map live) field store msg s =
    Ok tt (set_node_store (store (renumber_kept (field (node_store s))) (node_store s)) s).
Proof.
  intros Hlaw Hm. unfold remap_kept, bind, get, renumber_kept. destruct (Z.ltb_spec 0 (field (node_store s))) as [Hp|_].
  - destruct (Hm Hp) as [Hv Hmk]. by destruct (new_handle_live n Hn live Hlen _ Hv Hmk) as (_ & _ & ->).
  - rewrite Hlaw. by destruct s.
Qed.

Definition renumbered (lp : list bool) (s : AivmVm) : AivmVm :=
  set_node_store (renumber_host (node_store s))
    (set_node_builders (map renumber_builder (node_builders s))
      (set_scratch_pairs (map snd (map renumber_live (zip lp (scratch_pairs s))))
        (set_roots (map renumber_value (stack_part s)) (map renumber_value (locals_part s))
           (map renumber_value (tasks_part s)) (map renumber_value (par_values s)) s))).

(** When every handle is marked the renumbering succeeds. *)
Lemma remap_roots_run pc lp s :
  Forall (value_marked pc) (root_values s) ->
  (forall i p, is_live lp i -> zget (scratch_pairs s) i = Some p -> value_marked pc (first p) /\ value_marked pc (second p)) ->
  Forall handle_marked (builder_handles s) -> Forall (fun h => 0 < h -> handle_marked h) (host_handles s) ->
  remap_node_roots n pc (handle_map live) lp s = Ok tt (renumbered lp s).
Proof.
  unfold root_values. rewrite !Forall_app. intros (R1 & R2 & R3 & R4) HP HB HH.
  unfold host_handles in HH. rewrite !Forall_cons in HH. destruct HH as (H1 & H2 & H3 & _).
  unfold remap_node_roots, bind.
  rewrite (walk_marked stack_part _ pc _ s R1). rewrite walk_marked by exact R2. rewrite walk_marked by exact R3.
  rewrite walk_marked by exact R4. rewrite walk_pairs_marked by exact HP. rewrite walk_builders_marked by exact HB.
  rewrite remap_kept_marked; [|by intros []|exact H1]. rewrite remap_kept_marked; [|by intros []|exact H2].
  rewrite remap_kept_marked; [|by intros []|exact H3].
  destruct s. vm_compute. reflexivity.
Qed.

End Renumber.

(** ** The state after a successful compaction *)

Section Result.

Context (s : AivmVm) (extra : list Z).
Context (Hn : nodes_ok (node_store s)) (Hok : handles_ok s).
Context (live : list bool) (Hlen : length live = length (nodes (node_store s))).
Context (Hclosed : forall h nd c, marked live h -> aivm_vm_lookup_node (node_store s) h = Some nd ->
  c ∈ children_of (node_store s) nd -> marked live c).
Context (Hlive : forall h, marked live h <-> reachable_node s extra h).
Context (lp : list bool) (Hlp : length lp = length (scratch_pairs s)) (Hiff : forall i, is_live lp i <-> reachable_pair s i).

(** A value the VM holds: its node is marked, its pair exists and is marked. *)
Definition good (v : AivmValue) : Prop :=
  match v with
  | VNode h => handle_marked (node_store s) live h
  | VPair h => valid_handle (scratch_pairs s) h /\ is_live lp (h - 1)
  | _ => True
  end.

Lemma held_marked h : node_valid (node_store s) h -> held_node s extra h -> handle_marked (node_store s) live h.
Proof. intros Hv Hh. split; [done|]. apply Hlive. exists h. split; [done|]. by split. Qed.

Lemma roots_good : Forall good (root_values s).
Proof.
  apply Forall_forall. intros v Hv. pose proof (ho_roots s Hok) as Hr. rewrite Forall_forall in Hr. specialize (Hr v Hv).
  destruct v; try done; cbn [value_handle_ok good] in *.
  - apply held_marked; [done|]. by left.
  - split; [done|]. apply Hiff. eexists. split; [exact Hv|]. by apply reaches_here.
Qed.

Lemma pairs_good i p : is_live lp i -> zget (scratch_pairs s) i = Some p -> good (first p) /\ good (second p).
Proof.
  intros Hi Hp. apply Hiff in Hi. destruct (ho_pairs s Hok i p Hi Hp) as [H1 H2].
  assert (Hg : forall v, v = first p \/ v = second p -> value_handle_ok s v -> good v).
  { intros v Hv Hvo. destruct v; try done; cbn [value_handle_ok good] in *.
    - apply held_marked; [done|]. right. left. exists i, p. split; [done|]. split; [done|].
      unfold pair_values. rewrite !elem_of_cons. destruct Hv as [->| ->]; auto.
    - split; [done|]. apply Hiff. destruct Hi as (r & Hr & Hreach). exists r. split; [done|].
      eapply reaches_trans; eauto. by apply reaches_here. }
  split; apply Hg; auto.
Qed.

Lemma good_marked v : good v -> value_marked (node_store s) live (scratch_pair_count s) v.
Proof. destruct v; try done. by intros [? _]. Qed.

Lemma builders_marked : Forall (handle_marked (node_store s) live) (builder_handles s).
Proof.
  apply Forall_forall. intros h Hh. apply held_marked; [|by right; right; left].
  pose proof (ho_builders s Hok) as Hb. rewrite Forall_forall in Hb. by apply Hb.
Qed.

Lemma host_marked : Forall (fun h => 0 < h -> handle_marked (node_store s) live h) (host_handles s).
Proof.
  apply Forall_forall. intros h Hh Hp. apply held_marked; [|by right; right; right; left].
  pose proof (ho_host s Hok) as Hb. rewrite Forall_forall in Hb. specialize (Hb h Hh). unfold node_valid. lia.
Qed.

(** The state [s'] has the compacted arenas and renumbered handles. *)
Context (s' : AivmVm).
Context (Hnodes : nodes (node_store s') = placed (kept (node_store s) live) 0 0)
  (Hattrs : node_attrs (node_store s') = flat_map (attrs_of (node_store s)) (kept (node_store s) live))
  (Hchildren : node_children (node_store s') = flat_map (moved_children (node_store s) live) (kept (node_store s) live)).
Context (Hpairs : scratch_pairs s' = map snd (map (renumber_live live) (zip lp (scratch_pairs s))))
  (Hroots : root_values s' = map (renumber_value live) (root_values s))
  (Hbuilders : builder_handles s' = map (new_handle live) (builder_handles s))
  (Hhost : host_handles s' = map (renumber_kept live) (host_handles s)).

Lemma same_node_moved h : handle_marked (node_store s) live h -> same_node s s' h (new_handle live h).
Proof. intros [Hv Hm] d. by apply (unfold_moved_node (node_store s) Hn live Hlen Hclosed (node_store s')). Qed.

Lemma moved_valid h : handle_marked (node_store s) live h -> node_valid (node_store s') (new_handle live h).
Proof.
  intros [Hv Hm]. destruct (moved_lookup (node_store s) Hn live Hlen Hclosed (node_store s') Hnodes Hattrs Hchildren h Hv Hm)
    as (nd & nd' & _ & Hl & _). by apply lookup_Some in Hl as [? _].
Qed.

Lemma pair_moved i p : is_live lp i -> zget (scratch_pairs s) i = Some p -> zget (scratch_pairs s') i = Some (renumber_pair live p).
Proof.
  intros Hi Hp. unfold is_live in Hi. pose proof (zget_Some_bounds _ _ _ Hi).
  rewrite zget_lookup in Hi by lia. rewrite zget_lookup in Hp by lia. rewrite zget_lookup by lia.
  rewrite Hpairs, map_map, list_lookup_fmap, lookup_zip_with. rewrite Hi, Hp. done.
Qed.

Lemma pairs_length : zlen (scratch_pairs s') = zlen (scratch_pairs s).
Proof. rewrite Hpairs, !zlen_map. unfold zlen. rewrite length_zip. lia. Qed.

Lemma good_same v : good v -> same_value s s' v (renumber_value live v).
Proof.
  intros Hg d. revert v Hg. induction d as [|d IH]; intros v Hg; destruct v; try done; cbn [renumber_value unfold_value].
  - f_equal. by apply same_node_moved.
  - destruct Hg as [Hv Hl]. unfold valid_handle in Hv.
    destruct (zget_is_Some (scratch_pairs s) (handle - 1)) as [p Hp]; [lia|].
    unfold pair_at. destruct (Z.leb_spec handle 0); [lia|]. rewrite (pair_moved _ p Hl Hp), Hp.
    destruct (pairs_good _ p Hl Hp) as [H1 H2]. cbn [renumber_pair first second]. by rewrite (IH _ H1), (IH _ H2).
Qed.

Lemma good_handle_ok v : good v -> value_handle_ok s' (renumber_value live v).
Proof.
  destruct v; try done; cbn [good renumber_value value_handle_ok]; [apply moved_valid|].
  intros [Hv _]. unfold valid_handle in *. by rewrite pairs_length.
Qed.

Lemma reaches_moved v i : good v -> reaches (scratch_pairs s') (renumber_value live v) i -> reaches (scratch_pairs s) v i.
Proof.
  intros Hg Hr. remember (renumber_value live v) as w eqn:E. revert v Hg E.
  assert (Hstep : forall h v, good v -> VPair h = renumber_value live v -> v = VPair h).
  { intros h v _ E. destruct v; try done. }
  assert (Hat : forall h p', good (VPair h) -> pair_at (scratch_pairs s') h = Some p' ->
    exists p, pair_at (scratch_pairs s) h = Some p /\ p' = renumber_pair live p /\ good (first p) /\ good (second p)).
  { intros h p' [Hv Hl]. unfold valid_handle in Hv. destruct (zget_is_Some (scratch_pairs s) (h - 1)) as [p Hp]; [lia|].
    unfold pair_at. destruct (h <=? 0); [done|]. rewrite (pair_moved _ p Hl Hp). intros [= <-]. exists p.
    destruct (pairs_good _ p Hl Hp). by split_and!. }
  induction Hr as [h Hh|h p' i Hp _ IH|h p' i Hp _ IH]; intros v Hg E; apply (Hstep h v Hg) in E as ->.
  - apply reaches_here. by rewrite pairs_length in Hh.
  - destruct (Hat h p' Hg Hp) as (p & Hp0 & -> & H1 & H2). eapply reaches_first; [exact Hp0|]. by apply IH.
  - destruct (Hat h p' Hg Hp) as (p & Hp0 & -> & H1 & H2). eapply reaches_second; [exact Hp0|]. by apply IH.
Qed.

Lemma handles_ok_moved : handles_ok s'.
Proof.
  split.
  - rewrite Hroots. apply Forall_map. eapply Forall_impl; [exact roots_good|apply good_handle_ok].
  - intros i p' (w & Hw & Hr) Hp'. rewrite Hroots in Hw. apply list_elem_of_In, in_map_iff in Hw as (v & <- & Hv%list_elem_of_In).
    pose proof roots_good as Hg. rewrite Forall_forall in Hg. apply (reaches_moved v i (Hg v Hv)) in Hr.
    assert (Hi : is_live lp i) by (apply Hiff; by exists v).
    destruct (zget_is_Some (scratch_pairs s) i) as [p Hp]; [apply zget_Some_bounds in Hp'; by rewrite pairs_length in Hp'|].
    rewrite (pair_moved i p Hi Hp) in Hp'. injection Hp' as <-. destruct (pairs_good i p Hi Hp).
    split; by apply good_handle_ok.
  - rewrite Hbuilders. apply Forall_map. eapply Forall_impl; [exact builders_marked|apply moved_valid].
  - rewrite Hhost. apply Forall_map. eapply Forall_impl; [exact host_marked|]. intros h Hh. unfold renumber_kept. cbn.
    destruct (Z.ltb_spec 0 h) as [Hp|]; [apply (moved_valid h (Hh Hp))|]. unfold node_count. pose proof (zlen_nonneg (nodes (node_store s'))). lia.
Qed.

End Result.

(** ** The compaction *)

(** What the compaction does before it moves anything: it only counts the attempt. *)
Definition attempted (s : AivmVm) : AivmVm :=
  set_node_store (set_node_gc_attempt_count
    (aivm_counter_increment_saturating (node_gc_attempt_count (node_store s))) (node_store s)) s.

(** The arenas and handles are the same in both states. *)
Definition untouched (s s' : AivmVm) : Prop :=
  nodes (node_store s') = nodes (node_store s) /\ node_attrs (node_store s') = node_attrs (node_store s) /\
  node_children (node_store s') = node_children (node_store s) /\ root_values s' = root_values s /\
  scratch_pairs s' = scratch_pairs s /\ node_builders s' = node_builders s /\ host_handles s' = host_handles s.

(** A handle kept for the host: moved when there is one. *)
Definition host_moved (s s' : AivmVm) (h h' : Z) : Prop := if 0 <? h then 0 < h' /\ same_node s s' h h' else h' = h.

Definition compacted (s s' : AivmVm) (extra : list Z) (new : Z -> Z) : Prop :=
  nodes_ok (node_store s') /\ handles_ok s' /\
  Forall2 (same_value s s') (root_values s) (root_values s') /\
  Forall2 (same_node s s') (builder_handles s) (builder_handles s') /\
  Forall2 (host_moved s s') (host_handles s) (host_handles s') /\
  Forall (fun h => node_valid (node_store s') (new h) /\ same_node s s' h (new h)) extra.

Lemma Forall2_map_r {A B} (R : A -> B -> Prop) (f : A -> B) l : Forall (fun x => R x (f x)) l -> Forall2 R l (map f l).
Proof. induction 1; constructor; auto. Qed.

Lemma builder_handles_renumbered live lp s : builder_handles (renumbered live lp s) = map (new_handle live) (builder_handles s).
Proof.
  unfold builder_handles. change (node_builders (renumbered live lp s)) with (map (renumber_builder live) (node_builders s)).
  induction (node_builders s) as [|[b|] l IH]; cbn [map flat_map]; [done| |exact IH].
  rewrite map_app. f_equal. exact IH.
Qed.

Lemma root_values_renumbered live lp s : root_values (renumbered live lp s) = map (renumber_value live) (root_values s).
Proof.
  pose proof (root_values_set (map (renumber_value live) (stack_part s)) (map (renumber_value live) (locals_part s))
    (map (renumber_value live) (tasks_part s)) (map (renumber_value live) (par_values s)) s) as E.
  rewrite !length_map in E. specialize (E eq_refl eq_refl).
  change (root_values (renumbered live lp s)) with (root_values (set_roots (map (renumber_value live) (stack_part s))
    (map (renumber_value live) (locals_part s)) (map (renumber_value live) (tasks_part s)) (map (renumber_value live) (par_values s)) s)).
  rewrite E. unfold root_values. by rewrite !map_app.
Qed.

(** The copied arenas in place and every handle renumbered. *)
Lemma commit_compacted s extra live lp out :
  nodes_ok (node_store s) -> handles_ok s -> Forall (node_valid (node_store s)) extra ->
  length live = length (nodes (node_store s)) ->
  (forall h nd c, marked live h -> aivm_vm_lookup_node (node_store s) h = Some nd ->
     c ∈ children_of (node_store s) nd -> marked live c) ->
  (forall h, marked live h <-> reachable_node s extra h) ->
  length lp = length (scratch_pairs s) -> (forall i, is_live lp i <-> reachable_pair s i) ->
  out = mk_arenas (placed (kept (node_store s) live) 0 0) (flat_map (attrs_of (node_store s)) (kept (node_store s) live))
          (flat_map (moved_children (node_store s) live) (kept (node_store s) live)) ->
  let s1 := set_node_store (commit_arenas out (node_store s)) s in
  remap_node_roots (node_store s) (scratch_pair_count s) (handle_map live) lp s1 = Ok tt (renumbered live lp s1) /\
  compacted s (renumbered live lp s1) extra (new_handle live).
Proof.
  intros Hn Hok Hex Hlen Hcl Hlive Hlp Hiff -> s1.
  pose proof (roots_good s extra Hok live Hlive lp Hiff) as Hrg.
  pose proof (fun i p => pairs_good s extra Hok live Hlive lp Hiff i p) as Hpg.
  pose proof (builders_marked s extra Hok live Hlive) as Hb. 
  pose proof (host_marked s extra Hok live Hlen Hlive lp Hlp) as Hh.
  assert (Hhost1 : host_handles s1 = host_handles s).
  { unfold s1, host_handles, commit_arenas. cbn [node_store set_node_store]. by destruct (node_gc_reclaimed _) as [[? ?] ?]. }
  split.
  { apply remap_roots_run; [done|done| | |exact Hb|by rewrite Hhost1].
    - eapply Forall_impl; [exact Hrg|apply good_marked].
    - intros i p Hi Hp. destruct (Hpg i p Hi Hp). split; by eapply good_marked. }
  set (s' := renumbered live lp s1).
  assert (Hhost : host_handles s' = map (renumber_kept live) (host_handles s)) by (rewrite <- Hhost1; by destruct s).
  assert (Hst : forall A (f : NodeStore -> A), (forall x m, f (set_process_argv_node_handle x m) = f m) ->
    (forall x m, f (set_ui_default_window_size_node_handle x m) = f m) ->
    (forall x m, f (set_ui_empty_event_node_handle x m) = f m) -> (forall x m, f (set_node_gc_reclaimed x m) = f m) ->
    (forall x m, f (set_node_gc_compaction_count x m) = f m) ->
    f (node_store s') = f (set_nodes (placed (kept (node_store s) live) 0 0)
       (set_node_attrs (flat_map (attrs_of (node_store s)) (kept (node_store s) live))
          (set_node_children (flat_map (moved_children (node_store s) live) (kept (node_store s) live)) (node_store s))))).
  { intros A f F1 F2 F3 F4 F5. change (node_store s') with (renumber_host live (node_store s1)). unfold renumber_host.
    rewrite F3, F2, F1. cbn [node_store s1 set_node_store]. unfold commit_arenas.
    destruct (node_gc_reclaimed _) as [[? ?] ?]. by rewrite F4, F5. }
  assert (Hnodes := Hst _ nodes ltac:(done) ltac:(done) ltac:(done) ltac:(done) ltac:(done)).
  assert (Hattrs := Hst _ node_attrs ltac:(done) ltac:(done) ltac:(done) ltac:(done) ltac:(done)).
  assert (Hchildren := Hst _ node_children ltac:(done) ltac:(done) ltac:(done) ltac:(done) ltac:(done)).
  assert (Hpairs : scratch_pairs s' = map snd (map (renumber_live live) (zip lp (scratch_pairs s)))) by done.
  pose proof (root_values_renumbered live lp s1) as Hroots. fold s' in Hroots. change (root_values s1) with (root_values s) in Hroots.
  pose proof (builder_handles_renumbered live lp s1) as Hbuild. fold s' in Hbuild. change (builder_handles s1) with (builder_handles s) in Hbuild.
  pose proof (same_node_moved s Hn live Hlen Hcl s' Hnodes Hattrs Hchildren) as Hsame.
  split_and!.
  - apply (moved_ok (node_store s) Hn live Hlen Hcl (node_store s')); try done; by apply Hst.
  - eapply handles_ok_moved; eauto.
  - rewrite Hroots. apply Forall2_map_r. eapply Forall_impl; [exact Hrg|]. intros v Hv. eapply good_same; eauto.
  - rewrite Hbuild. apply Forall2_map_r. eapply Forall_impl; [exact Hb|exact Hsame].
  - rewrite Hhost. apply Forall2_map_r. eapply Forall_impl; [exact Hh|]. intros h Hm. unfold host_moved, renumber_kept.
    destruct (Z.ltb_spec 0 h) as [Hp|]; [|done]. split; [|by apply Hsame, Hm]. by eapply (moved_valid s Hn live Hlen Hcl s'), Hm.
  - eapply Forall_forall. intros h Hin. rewrite Forall_forall in Hex.
    assert (Hm : handle_marked (node_store s) live h) by (eapply held_marked; eauto; by repeat right).
    split; [|by apply Hsame]. eapply moved_valid; eauto.
Qed.

Lemma calm_put_store f : calm (put_store f).
Proof. by apply calm_modify. Qed.

Lemma calm_mark_nodes extra : calm (aivm_vm_mark_live_node_handles extra).
Proof.
  apply calm_bind; [apply calm_get|intros s]. do 2 (apply calm_bind; [apply calm_alloc|intros ?]).
  destruct (negb _); [apply calm_throw|]. apply calm_bind; [apply calm_mark_pairs|intros lp].
  apply calm_bind; [apply calm_of_visit|intros m]. apply calm_ret.
Qed.

Lemma calm_remap_kept n hm field store msg : calm (remap_kept n hm field store msg).
Proof.
  apply calm_bind; [apply calm_get|intros s]. cbv zeta. destruct (0 <? _); [|apply calm_ret].
  destruct (remap_handle _ _ _); [apply calm_put_store|apply calm_throw].
Qed.

Lemma calm_remap_roots n pc hm lp : calm (remap_node_roots n pc hm lp).
Proof.
  apply calm_bind; [apply calm_walk_stack|intros _]. apply calm_bind; [apply calm_walk_locals|intros _].
  do 2 (apply calm_bind; [by apply calm_walk|intros _]). apply calm_bind; [apply calm_walk_live_pairs|intros _].
  apply calm_bind; [by apply calm_walk|intros _]. do 2 (apply calm_bind; [apply calm_remap_kept|intros _]).
  apply calm_remap_kept.
Qed.

Lemma calm_compact_nodes extra : calm (aivm_vm_compact_node_arenas_with_map extra).
Proof.
  apply calm_bind; [apply calm_put_store|intros _]. apply calm_bind; [apply calm_get|intros s]. cbv zeta.
  destruct (_ =? 0); [apply calm_ret|]. do 6 (apply calm_bind; [apply calm_alloc|intros ?]).
  destruct (negb _); [apply calm_throw|]. apply calm_bind; [apply calm_mark_nodes|intros live].
  apply calm_bind; [apply calm_mark_pairs|intros lp]. apply calm_bind; [apply calm_of_visit|intros out].
  apply calm_bind; [apply calm_put_store|intros _]. apply calm_bind; [apply calm_remap_roots|intros _]. apply calm_ret.
Qed.

(** Counting the attempt and asking for memory concern no handle. *)
Definition counted (t : nat) (s : AivmVm) : AivmVm := set_tick t (attempted s).

Lemma nodes_ok_counted t s : nodes_ok (node_store s) -> nodes_ok (node_store (counted t s)).
Proof. by intros []. Qed.

Lemma handles_ok_counted t s : handles_ok s -> handles_ok (counted t s).
Proof. by intros []. Qed.

Lemma unfold_node_counted t s d : forall h, unfold_node d (node_store (counted t s)) h = unfold_node d (node_store s) h.
Proof.
  induction d as [|d IH]; intros h; [done|]. cbn [unfold_node].
  change (aivm_vm_lookup_node (node_store (counted t s)) h) with (aivm_vm_lookup_node (node_store s) h).
  destruct (aivm_vm_lookup_node (node_store s) h) as [nd|]; [|done].
  change (attrs_of (node_store (counted t s)) nd) with (attrs_of (node_store s) nd).
  change (children_of (node_store (counted t s)) nd) with (children_of (node_store s) nd). f_equal.
  apply map_ext. exact IH.
Qed.

Lemma same_node_counted t s s' h h' : same_node (counted t s) s' h h' -> same_node s s' h h'.
Proof. intros Hs d. rewrite Hs. apply unfold_node_counted. Qed.

Lemma same_value_counted t s s' v v' : same_value (counted t s) s' v v' -> same_value s s' v v'.
Proof.
  intros Hs d. rewrite Hs. clear Hs. change (scratch_pairs (counted t s)) with (scratch_pairs s).
  revert v. induction d as [|d IH]; intros v; destruct v; try done; cbn [unfold_value].
  - f_equal. apply unfold_node_counted.
  - destruct (pair_at _ _); [|done]. by rewrite !IH.
Qed.

Lemma compacted_counted t s s' extra new : compacted (counted t s) s' extra new -> compacted s s' extra new.
Proof.
  intros (H1 & H2 & H3 & H4 & H5 & H6). split_and!; try done.
  - eapply Forall2_impl; [exact H3|apply same_value_counted].
  - eapply Forall2_impl; [exact H4|apply same_node_counted].
  - eapply Forall2_impl; [exact H5|]. intros h h'. unfold host_moved.
    destruct (0 <? h); [|done]. intros [? ?]. split; [done|]. by eapply same_node_counted.
  - eapply Forall_impl; [exact H6|]. intros h [? ?]. split; [done|]. by eapply same_node_counted.
Qed.

(** With no nodes there is nothing to move. *)
Lemma compacted_empty t s extra new : nodes_ok (node_store s) -> handles_ok s -> Forall (node_valid (node_store s)) extra ->
  node_count (node_store s) = 0 -> compacted s (counted t s) extra new.
Proof.
  intros Hn Hok Hex Hz. apply (compacted_counted t). unfold compacted. split_and!.
  - by apply nodes_ok_counted.
  - by apply handles_ok_counted.
  - clear. induction (root_values (counted t s)); by constructor.
  - clear. induction (builder_handles (counted t s)); by constructor.
  - clear. induction (host_handles (counted t s)) as [|h l IH]; constructor; [|done]. unfold host_moved. by destruct (Z.ltb_spec 0 h).
  - destruct extra as [|h extra]; [done|]. apply Forall_cons in Hex as [Hv _]. unfold node_valid in Hv. lia.
Qed.

Lemma untouched_counted t s e d : untouched s (aivm_set_vm_error e d (counted t s)).
Proof. by split_and!. Qed.

Lemma count_kept n live : length live = length (nodes n) -> zlen (placed (kept n live) 0 0) = zlen live - count_false live.
Proof. intros Hl. unfold zlen at 1. rewrite placed_length. by apply keep_length. Qed.

Lemma set_tick_twice a b s : set_tick a (set_tick b s) = set_tick a s.
Proof. done. Qed.

Lemma counted_ticks a b c d e f s : set_tick a (set_tick b (set_tick c (set_tick d (set_tick e (set_tick f (attempted s)))))) = counted a s.
Proof. by rewrite !set_tick_twice. Qed.

Lemma counted_tick t u s : set_tick t (counted u s) = counted t s.
Proof. by apply set_tick_twice. Qed.

Lemma compact_nodes_run s extra :
  nodes_ok (node_store s) -> handles_ok s -> Forall (node_valid (node_store s)) extra ->
  match aivm_vm_compact_node_arenas_with_map extra s with
  | Ok hm s' =>
      compacted s s' extra (map_at hm) /\
      (node_count (node_store s) = 0 \/
       exists live, (forall h, marked live h <-> reachable_node s extra h) /\ zlen live = node_count (node_store s) /\
         node_count (node_store s') = zlen live - count_false live)
  | Err s' => error s' = AIVM_VM_ERR_MEMORY_PRESSURE /\ untouched s s' /\ starved
  | Undef => False
  end.
Proof.
  intros Hn Hok Hex.
  assert (Hex' : Forall (fun h => h <= node_count (node_store s)) extra).
  { eapply Forall_impl; [exact Hex|]. by intros h [_ Hh]. }
  unfold aivm_vm_compact_node_arenas_with_map. unfold bind at 1 2, put_store at 1, modify, get. fold (attempted s).
  change (node_count (node_store (attempted s))) with (node_count (node_store s)).
  destruct (Z.eqb_spec (node_count (node_store s)) 0) as [Hz|Hnz].
  { cbn [ret]. split; [|by left].
    pose proof (compacted_empty (tick s) s extra (map_at []) Hn Hok Hex Hz) as Hc.
    replace (counted (tick s) s) with (attempted s) in Hc by (by destruct s). exact Hc. }
  unfold bind at 1 2 3 4 5 6, alloc.
  match goal with |- context [set_tick ?a (set_tick ?b (set_tick ?c (set_tick ?d (set_tick ?e (set_tick ?f (attempted s))))))] =>
    rewrite (counted_ticks a b c d e f s); generalize a; intros t end.
  destruct (negb _) eqn:Ea; [split_and!; [done|by split_and!|starved_by Ea]|].
  pose proof (mark_node_handles_run (counted t s) extra (nodes_ok_counted t s Hn) (handles_ok_counted t s Hok)) as Hmark.
  unfold bind at 1. destruct (aivm_vm_mark_live_node_handles extra (counted t s)) as [live s2|s2|].
  2: { destruct Hmark as (Hst & t2 & d & ->); [exact Hex'|]. by split_and!. }
  2: { apply Hmark. exact Hex'. }
  destruct Hmark as ([t2 ->] & Hlen & Hcl & Hlive); [exact Hex'|].
  rewrite counted_tick.
  pose proof (mark_handles_valid (counted t2 s) (handles_ok_counted t2 s Hok)) as Hpm.
  unfold bind at 1. destruct (aivm_vm_mark_live_scratch_pair_handles (counted t2 s)) as [lp s3|s3|]; [| |done].
  2: { destruct Hpm as (Hst & t3 & d & ->). by split_and!. }
  destruct Hpm as ([t3 ->] & Hlp & Hiff). rewrite counted_tick.
  cbv zeta. change (0 :: ranks live 0) with (handle_map live).
  change (node_store (attempted s)) with (node_store (counted t3 s)).
  change (keep live (nodes (node_store (counted t3 s)))) with (kept (node_store (counted t3 s)) live).
  rewrite (move_all (node_store (counted t3 s)) (nodes_ok_counted t3 s Hn) live Hlen Hcl).
  cbn [of_visit]. unfold bind at 1, ret at 1. unfold bind at 1, put_store at 1, modify.
  destruct (commit_compacted (counted t3 s) extra live lp _ (nodes_ok_counted t3 s Hn) (handles_ok_counted t3 s Hok)
    Hex Hlen Hcl Hlive Hlp Hiff eq_refl) as [Hrun Hcomp].
  change (scratch_pair_count (attempted s)) with (scratch_pair_count (counted t3 s)).
  unfold bind. rewrite Hrun. cbn [ret].
  split; [by apply (compacted_counted t3)|]. right. exists live.
  split; [exact Hlive|]. split; [unfold node_count, zlen; by rewrite Hlen|].
  rewrite <- (count_kept (node_store s) live Hlen).
  unfold node_count. f_equal. unfold renumbered. cbn [node_store set_node_store]. unfold renumber_host.
  cbn [nodes set_ui_empty_event_node_handle set_ui_default_window_size_node_handle set_process_argv_node_handle].
  unfold commit_arenas. by destruct (node_gc_reclaimed _) as [[? ?] ?].
Qed.

(** C4: compacting the node arenas.  From well-formed arenas and handles
    that name nodes and pairs, a compaction either reports memory pressure and has
    moved nothing (and then the host has refused an allocation), or succeeds; it never reads or writes outside the arenas and its
    mark queue is never too short.  After success the arenas are well-formed again
    and hold exactly the nodes reachable from the stack, the locals, the task
    results, the parallel values, the live pairs, the builders, the host's handles
    and the handles [extra]; every one of those handles stands for the same tree of
    nodes and pairs as before, at every depth, the extra ones under the returned
    handle map; the control state has not changed. *)
Theorem compact_nodes_preserves s extra :
  nodes_ok (node_store s) -> handles_ok s -> Forall (node_valid (node_store s)) extra ->
  match aivm_vm_compact_node_arenas_with_map extra s with
  | Ok hm s' =>
      compacted s s' extra (map_at hm) /\ control_view s' = control_view s /\ status s' = status s /\
      (node_count (node_store s) = 0 \/
       exists live, (forall h, marked live h <-> reachable_node s extra h) /\ zlen live = node_count (node_store s) /\
         node_count (node_store s') = zlen live - count_false live)
  | Err s' => status s' = AIVM_VM_STATUS_ERROR /\ error s' = AIVM_VM_ERR_MEMORY_PRESSURE /\ untouched s s' /\ starved
  | Undef => False
  end.
Proof.
  intros Hn Hok Hex. pose proof (compact_nodes_run s extra Hn Hok Hex) as Hr. pose proof (calm_compact_nodes extra s) as Hc.
  destruct (aivm_vm_compact_node_arenas_with_map extra s); [by destruct Hr, Hc|by destruct Hr, Hc|done].
Qed.

End Compact.

(** ** Example *)

(** Three nodes: the first is garbage, the third has the second as its child; the
    stack holds the third and a pair with the second. *)
Definition example_nodes : AivmVm :=
  let text := SExt (bytes_of_string "n") in
  let n := node_store example_vm in
  set_stack [VNode 3; VPair 1] (set_scratch_pairs [mk_pair (VNode 2) VVoid]
    (set_node_store
       (set_nodes [mk_node text text 0 1 0 0; mk_node text text 1 1 0 0; mk_node text text 2 0 0 1]
         (set_node_attrs [mk_attr text (NAInt 1); mk_attr text (NAInt 2)] (set_node_children [2] n)))
       example_vm)).

Lemma compact_nodes_preserves_witness :
  match aivm_vm_compact_node_arenas_with_map (H := example_host) [2] example_nodes with
  | Ok hm s' => compacted example_nodes s' [2] (map_at hm) /\ node_count (node_store s') = 2
  | _ => False
  end.
Proof.
  assert (Hn : nodes_ok (node_store example_nodes)).
  { split; [vm_compute; reflexivity| |vm_compute; reflexivity|vm_compute; reflexivity| | | |];
      [repeat constructor; vm_compute; discriminate| |split; vm_compute; discriminate..].
    intros i nd c Hi Hc. pose proof (zget_Some_bounds _ _ _ Hi) as Hb. change (zlen _) with 3 in Hb.
    assert (i = 0 \/ i = 1 \/ i = 2) as [->|[->| ->]] by lia; injection Hi as <-; vm_compute in Hc;
      inversion Hc as [|? ? ? Hc']; subst; [by vm_compute|by inversion Hc']. }
  assert (Hok : handles_ok example_nodes).
  { assert (Hv : forall h, h = 2 \/ h = 3 -> node_valid (node_store example_nodes) h).
    { intros h [->| ->]; by vm_compute. }
    split; [repeat constructor; by vm_compute| |constructor|repeat constructor; by vm_compute].
    intros i p _ Hp. pose proof (zget_Some_bounds _ _ _ Hp) as Hb. change (zlen _) with 1 in Hb.
    assert (i = 0) as -> by lia. injection Hp as <-. split; [apply Hv; by left|done]. }
  assert (Hex : Forall (node_valid (node_store example_nodes)) [2]) by (repeat constructor; by vm_compute).
  pose proof (compact_nodes_preserves (H := example_host) example_nodes [2] Hn Hok Hex) as Hrun.
  assert (Hc : match aivm_vm_compact_node_arenas_with_map (H := example_host) [2] example_nodes with
    | Ok _ s' => node_count (node_store s') =? 2 | _ => false end = true) by (vm_compute; reflexivity).
  destruct (aivm_vm_compact_node_arenas_with_map (H := example_host) [2] example_nodes) as [hm s'|s'|]; [|done|done].
  destruct Hrun as [Hcomp _]. split; [exact Hcomp|]. by apply Z.eqb_eq.
Defined.
