(* ===== verification/Moves.v ===== *)
(** * Values that move and what they stand for

    The compactions of the strings (src/src/aivm_vm.c) and of the bytes
    (src/src/aivm_vm_arena.c) rewrite the values of the roots and of the live pairs.
    What such a walk keeps, whatever it does to a single value: the handles, what can
    be reached, and the documents the values stand for. *)

From S2P Require Import Prelude Types Program Vm Memory Lifecycle Stack ControlSafety Roots Pairs.
From S2P Require Import NodeGc NodeMark NodeMove NodeCompact.

(** ** Documents: what a value stands for, with its texts and bytes *)

Definition resolve_str (s : AivmVm) (p : str_ptr) : str_ptr :=
  match read_str s p with Some c => SExt c | None => SNull end.

Definition resolve_bytes (s : AivmVm) (p : bytes_ptr) (n : Z) : bytes_ptr :=
  match read_bytes s p n with Some c => BExt c | None => BNull end.

Definition resolve_value (s : AivmVm) (v : AivmValue) : AivmValue :=
  match v with
  | VString p => VString (resolve_str s p)
  | VBytes p n => VBytes (resolve_bytes s p n) n
  | _ => v
  end.

Definition resolve_attr (s : AivmVm) (x : AivmNodeAttr) : AivmNodeAttr :=
  mk_attr (resolve_str s (attr_key x))
    match attr_value x with
    | NAIdentifier p => NAIdentifier (resolve_str s p)
    | NAString p => NAString (resolve_str s p)
    | v => v
    end.

Fixpoint resolve_ntree (s : AivmVm) (t : ntree) : ntree :=
  match t with
  | NTree kind id attrs children =>
      NTree (resolve_str s kind) (resolve_str s id) (map (resolve_attr s) attrs) (map (resolve_ntree s) children)
  | _ => t
  end.

Fixpoint resolve_vtree (s : AivmVm) (t : vtree) : vtree :=
  match t with
  | TLeaf v => TLeaf (resolve_value s v)
  | TNode n => TNode (resolve_ntree s n)
  | TPair l r => TPair (resolve_vtree s l) (resolve_vtree s r)
  | _ => t
  end.

(** A value and a node of a state, to a depth, with every text read. *)
Definition document (d : nat) (s : AivmVm) (v : AivmValue) : vtree :=
  resolve_vtree s (unfold_value d (scratch_pairs s) (node_store s) v).
Definition node_document (d : nat) (s : AivmVm) (h : Z) : ntree := resolve_ntree s (unfold_node d (node_store s) h).

Definition same_document (s s' : AivmVm) (v v' : AivmValue) : Prop := forall d, document d s' v' = document d s v.

(** Every value of a root or of a reachable pair. *)
Definition everywhere (P : AivmValue -> Prop) (s : AivmVm) : Prop :=
  Forall P (root_values s) /\
  forall i p, reachable_pair s i -> zget (scratch_pairs s) i = Some p -> P (first p) /\ P (second p).

Lemma everywhere_same P s s' : root_values s' = root_values s -> scratch_pairs s' = scratch_pairs s -> everywhere P s -> everywhere P s'.
Proof. intros E1 E2. unfold everywhere, reachable_pair. by rewrite E1, E2. Qed.

(** Two states read every text and view alike. *)
Definition reads_alike (s s' : AivmVm) : Prop :=
  (forall p, read_str s' p = read_str s p) /\ forall p n, read_bytes s' p n = read_bytes s p n.

Lemma resolve_ntree_alike s s' : (forall p, read_str s' p = read_str s p) -> forall t, resolve_ntree s' t = resolve_ntree s t.
Proof.
  intros Hs. assert (E : forall p, resolve_str s' p = resolve_str s p) by (intros p; unfold resolve_str; by rewrite Hs).
  fix IH 1. intros [kind id attrs children| |]; [|done|done]. cbn. rewrite !E. f_equal.
  - apply map_ext. intros x. unfold resolve_attr. rewrite E. by destruct (attr_value x); rewrite ?E.
  - induction children as [|c cs IHc]; [done|]. cbn. by rewrite IH, IHc.
Qed.

Lemma resolve_vtree_alike s s' : reads_alike s s' -> forall t, resolve_vtree s' t = resolve_vtree s t.
Proof.
  intros Ha t. induction t as [v|n|l IHl r IHr| |]; cbn; [|by rewrite (resolve_ntree_alike s s' (proj1 Ha))|by rewrite IHl, IHr|done|done].
  destruct Ha as [Hs Hb]. f_equal. destruct v; cbn; try done; unfold resolve_str, resolve_bytes; by rewrite ?Hs, ?Hb.
Qed.

Lemma document_alike s s' d v : reads_alike s s' -> scratch_pairs s' = scratch_pairs s -> node_store s' = node_store s ->
  document d s' v = document d s v.
Proof. intros Ha E1 E2. unfold document. rewrite E1, E2. by apply resolve_vtree_alike. Qed.

Lemma node_document_alike s s' d h : (forall p, read_str s' p = read_str s p) -> node_store s' = node_store s -> node_document d s' h = node_document d s h.
Proof. intros Ha E. unfold node_document. rewrite E. by apply resolve_ntree_alike. Qed.

(** ** Visitors that always succeed *)

Section Visitors.

Context {B : Type} (I : B -> Prop) (le : B -> B -> Prop).
Context (le_refl : forall b, le b b) (le_trans : forall a b c, le a b -> le b c -> le a c).

(** A visitor that succeeds on every [P], keeps [I] and relates old and new by [R];
    the relation survives what comes later. *)
Definition copier {A} (F : visitor B A) (P : A -> Prop) (R : B -> A -> A -> Prop) : Prop :=
  (forall t t' x y, le t t' -> R t x y -> R t' x y) /\
  forall t x, P x -> I t -> exists x' t', F t x = (x', Visited t') /\ I t' /\ le t t' /\ R t' x x'.

Lemma copier_list {A} (F : visitor B A) P R : copier F P R -> copier (visit_list F) (Forall P) (fun t => Forall2 (R t)).
Proof.
  intros [Hm HF]. split.
  { intros t t' x y He HR. eapply Forall2_impl; [exact HR|]. intros. by eapply Hm. }
  intros t l Hl. revert t. induction Hl as [|x l Hx _ IH]; intros t Ht.
  { exists [], t. split; [done|]. split; [done|]. split; [apply le_refl|constructor]. }
  cbn [visit_list]. destruct (HF t x Hx Ht) as (x' & t1 & -> & H1 & H2 & H3). destruct (IH t1 H1) as (l' & t2 & -> & H4 & H5 & H6).
  exists (x' :: l'), t2. split; [done|]. split; [done|]. split; [by eapply le_trans|]. constructor; [by eapply Hm|done].
Qed.

Lemma copier_walk {A} (F : visitor B A) P R part update t s : copier F P R -> Forall P (part s) -> I t ->
  exists l t', walk part update F t s = Ok t' (update l s) /\ I t' /\ le t t' /\ Forall2 (R t') (part s) l.
Proof.
  intros HF HP Ht. destruct (copier_list F P R HF) as [_ HL]. destruct (HL t (part s) HP Ht) as (l & t' & E & H1 & H2 & H3).
  exists l, t'. unfold walk. by rewrite E.
Qed.

Lemma copier_roots (F : visitor B AivmValue) P R t s : copier F P R -> Forall P (root_values s) -> I t ->
  exists l1 l2 l3 l4 t', walk_roots F t s = Ok t' (set_roots l1 l2 l3 l4 s) /\ I t' /\ le t t' /\
    root_values (set_roots l1 l2 l3 l4 s) = l1 ++ l2 ++ l3 ++ l4 /\ Forall2 (R t') (root_values s) (l1 ++ l2 ++ l3 ++ l4) /\
    length l1 = length (stack_part s) /\ length l2 = length (locals_part s) /\ length l3 = length (tasks_part s).
Proof.
  intros HF HP Ht. unfold root_values in HP. apply Forall_app in HP as [P1 HP]. apply Forall_app in HP as [P2 HP].
  apply Forall_app in HP as [P3 P4]. pose proof (proj1 HF) as Hm. unfold walk_roots, bind.
  destruct (copier_walk F P R stack_part set_stack_part t s HF P1 Ht) as (l1 & t1 & -> & C1 & E1 & F1).
  destruct (copier_walk F P R locals_part set_locals_part t1 (set_stack_part l1 s) HF P2 C1) as (l2 & t2 & -> & C2 & E2 & F2).
  destruct (copier_walk F P R tasks_part set_tasks_part t2 (set_locals_part l2 (set_stack_part l1 s)) HF P3 C2) as (l3 & t3 & -> & C3 & E3 & F3).
  destruct (copier_walk F P R par_values set_par_values t3 (set_tasks_part l3 (set_locals_part l2 (set_stack_part l1 s))) HF P4 C3) as (l4 & t4 & -> & C4 & E4 & F4).
  pose proof (Forall2_length _ _ _ F1) as L1. pose proof (Forall2_length _ _ _ F2) as L2. pose proof (Forall2_length _ _ _ F3) as L3.
  exists l1, l2, l3, l4, t4. split; [done|]. split; [done|]. split; [by eauto 10 using le_trans|].
  split; [by apply root_values_set|]. split; [|done].
  assert (Mo : forall t l l', le t t4 -> Forall2 (R t) l l' -> Forall2 (R t4) l l').
  { intros t0 l l' He Hl. eapply Forall2_impl; [exact Hl|]. intros. by eapply Hm. }
  unfold root_values. repeat apply Forall2_app; [eapply (Mo t1)|eapply (Mo t2)|eapply (Mo t3)|]; eauto using le_trans.
Qed.

(** A pair with its flag: only a live one is visited. *)
Definition pair_all (P : AivmValue -> Prop) (x : bool * AivmScratchPair) : Prop := x.1 = true -> P (first x.2) /\ P (second x.2).

Definition pair_moved (R : AivmValue -> AivmValue -> Prop) (x y : bool * AivmScratchPair) : Prop :=
  y.1 = x.1 /\ if x.1 then R (first x.2) (first y.2) /\ R (second x.2) (second y.2) else y.2 = x.2.

Lemma copier_pair (F : visitor B AivmValue) P R : copier F P R ->
  copier (on_live_pair F) (pair_all P) (fun t => pair_moved (R t)).
Proof.
  intros [Hm Hv]. split.
  - intros t t' [[] p] [b q] He [E HR]; (split; [done|]); [|done]. destruct HR. split; by eapply Hm.
  - intros t [[] p] HP Ht; cbn [on_live_pair negb].
    + destruct (HP eq_refl) as [P1 P2]. cbn in P1, P2. destruct (Hv t _ P1 Ht) as (v1 & t1 & -> & H1 & H2 & H3).
      destruct (Hv t1 _ P2 H1) as (v2 & t2 & -> & H4 & H5 & H6). eexists _, t2. split; [done|]. split; [done|].
      split; [by eapply le_trans|]. split; [done|]. cbn. split; [by eapply Hm|done].
    + eexists _, t. split; [done|]. split; [done|]. split; [apply le_refl|done].
Qed.

End Visitors.

(** ** After a walk over the roots and the live pairs *)

Section Moved.

Context (s s' : AivmVm) (lp : list bool) (pl : list (bool * AivmScratchPair)).
Context (M : AivmValue -> AivmValue -> Prop).
(** Handles stay as they are, everything else stays a leaf. *)
Context (M_shape : forall v v', M v v' ->
  match v with
  | VNode _ | VPair _ => v' = v
  | _ => match v' with VNode _ | VPair _ => False | _ => True end
  end).
Context (Hlp : length lp = length (scratch_pairs s)) (Hlpiff : forall i, is_live lp i <-> reachable_pair s i).
Context (Hroots : Forall2 M (root_values s) (root_values s')).
Context (Hpairs : Forall2 (pair_moved M) (zip lp (scratch_pairs s)) pl) (Hpairs' : scratch_pairs s' = map snd pl).
Context (Hhost : host_handles s' = host_handles s) (Hbuild : node_builders s' = node_builders s).

Lemma M_handles v v' : M v v' -> (forall h, v' = VNode h <-> v = VNode h) /\ (forall h, v' = VPair h <-> v = VPair h).
Proof. intros Hm%M_shape. destruct v; destruct v'; try done; by injection Hm as ->. Qed.

Lemma pairs_zlen : zlen (scratch_pairs s') = zlen (scratch_pairs s).
Proof.
  rewrite Hpairs'. unfold zlen. rewrite length_map. rewrite <- (Forall2_length _ _ _ Hpairs). rewrite length_zip_with. lia.
Qed.

Lemma pair_moved_at i p : is_live lp i -> zget (scratch_pairs s) i = Some p ->
  exists p', zget (scratch_pairs s') i = Some p' /\ M (first p) (first p') /\ M (second p) (second p').
Proof.
  intros Hi Hp. pose proof (zget_Some_bounds _ _ _ Hp) as Hb. unfold is_live in Hi. rewrite zget_lookup in Hi by lia. rewrite zget_lookup in Hp by lia.
  assert (Hz : zip lp (scratch_pairs s) !! Z.to_nat i = Some (true, p)) by (apply lookup_zip_with_Some; eauto).
  destruct (Forall2_lookup_l _ _ _ _ _ Hpairs Hz) as ([b p'] & Hy & [E1 [E2 E3]]). exists p'. split; [|done].
  rewrite zget_lookup by lia. rewrite Hpairs'. by rewrite list_lookup_fmap, Hy.
Qed.

Lemma reaches_back v' i : reaches (scratch_pairs s') v' i -> forall v, M v v' ->
  (forall j, reaches (scratch_pairs s) v j -> is_live lp j) -> reaches (scratch_pairs s) v i.
Proof.
  assert (Hsub : forall handle q, pair_at (scratch_pairs s') handle = Some q ->
    (forall j, reaches (scratch_pairs s) (VPair handle) j -> is_live lp j) ->
    exists p, pair_at (scratch_pairs s) handle = Some p /\ M (first p) (first q) /\ M (second p) (second q)).
  { intros handle q Hq Hl. unfold pair_at in *. destruct (Z.leb_spec handle 0); [done|].
    pose proof (zget_Some_bounds _ _ _ Hq) as Hb. rewrite pairs_zlen in Hb.
    destruct (zget_is_Some (scratch_pairs s) (handle - 1)) as [p Hp]; [lia|].
    assert (Hi : is_live lp (handle - 1)) by (apply Hl; constructor; lia).
    destruct (pair_moved_at _ _ Hi Hp) as (p' & Hp' & H1 & H2). exists p. split; [done|]. assert (p' = q) as -> by congruence. done. }
  induction 1 as [handle Hh|handle q i Hq Hr IH|handle q i Hq Hr IH]; intros v Hm Hl;
    pose proof (proj1 (proj2 (M_handles _ _ Hm) handle) eq_refl) as ->.
  - constructor. by rewrite <- pairs_zlen.
  - destruct (Hsub handle q Hq Hl) as (p & Hp & H1 & H2). eapply reaches_first; [exact Hp|]. apply IH; [done|].
    intros j Hj. apply Hl. by eapply reaches_first.
  - destruct (Hsub handle q Hq Hl) as (p & Hp & H1 & H2). eapply reaches_second; [exact Hp|]. apply IH; [done|].
    intros j Hj. apply Hl. by eapply reaches_second.
Qed.

Lemma reachable_pair_back i : reachable_pair s' i -> reachable_pair s i.
Proof.
  intros (v' & Hv' & Hr). apply list_elem_of_lookup in Hv' as [k Hk].
  destruct (Forall2_lookup_r _ _ _ _ _ Hroots Hk) as (v & Hv & Hm). apply list_elem_of_lookup_2 in Hv.
  exists v. split; [done|]. apply (reaches_back v' i Hr v Hm). intros j Hj. apply Hlpiff. by exists v.
Qed.

(** Reachability forwards. *)
Lemma reaches_forth v i : reaches (scratch_pairs s) v i -> (forall j, reaches (scratch_pairs s) v j -> is_live lp j) ->
  forall v', M v v' -> reaches (scratch_pairs s') v' i.
Proof.
  assert (Hsub : forall handle p, pair_at (scratch_pairs s) handle = Some p ->
    (forall j, reaches (scratch_pairs s) (VPair handle) j -> is_live lp j) ->
    exists q, pair_at (scratch_pairs s') handle = Some q /\ M (first p) (first q) /\ M (second p) (second q)).
  { intros handle p Hp Hl. unfold pair_at in *. destruct (Z.leb_spec handle 0); [done|].
    pose proof (zget_Some_bounds _ _ _ Hp) as Hb.
    assert (Hi : is_live lp (handle - 1)) by (apply Hl; constructor; lia). by apply pair_moved_at. }
  induction 1 as [handle Hh|handle p i Hp Hr IH|handle p i Hp Hr IH]; intros Hl v' Hm; pose proof (proj2 (proj2 (M_handles _ _ Hm) handle) eq_refl) as ->.
  - constructor. by rewrite pairs_zlen.
  - destruct (Hsub handle p Hp Hl) as (q & Hq & H1 & H2). eapply reaches_first; [exact Hq|]. apply IH; [|done].
    intros j Hj. apply Hl. by eapply reaches_first.
  - destruct (Hsub handle p Hp Hl) as (q & Hq & H1 & H2). eapply reaches_second; [exact Hq|]. apply IH; [|done].
    intros j Hj. apply Hl. by eapply reaches_second.
Qed.

Lemma reachable_pair_forth i : reachable_pair s i -> reachable_pair s' i.
Proof.
  intros (v & Hv & Hr). pose proof Hv as Hv0. apply list_elem_of_lookup in Hv as [k Hk].
  destruct (Forall2_lookup_l _ _ _ _ _ Hroots Hk) as (v' & Hv' & Hm). apply list_elem_of_lookup_2 in Hv'.
  exists v'. split; [done|]. apply (reaches_forth v i Hr); [|done]. intros j Hj. apply Hlpiff. by exists v.
Qed.

Lemma held_forth h : held_node s [] h -> held_node s' [] h.
Proof.
  intros [Hr|[(i & p & Hi & Hp & Hv)|[Hb|[Hh|Hx]]]].
  - left. apply list_elem_of_lookup in Hr as [k Hk]. destruct (Forall2_lookup_l _ _ _ _ _ Hroots Hk) as (v & Hv & Hm).
    rewrite (proj2 (proj1 (M_handles _ _ Hm) h) eq_refl) in Hv. by apply list_elem_of_lookup_2 in Hv.
  - right. left. exists i. destruct (pair_moved_at i p (proj2 (Hlpiff i) Hi) Hp) as (q & Hq & M1 & M2).
    exists q. split; [by apply reachable_pair_forth|]. split; [done|]. unfold pair_values in *. apply elem_of_cons in Hv as [Hv|Hv].
    + rewrite (proj2 (proj1 (M_handles _ _ M1) h) (eq_sym Hv)). by left.
    + apply list_elem_of_singleton in Hv. rewrite (proj2 (proj1 (M_handles _ _ M2) h) (eq_sym Hv)). right. by left.
  - right. right. left. unfold builder_handles in *. by rewrite Hbuild.
  - do 3 right. left. by rewrite Hhost.
  - by apply not_elem_of_nil in Hx.
Qed.

Lemma held_back h : held_node s' [] h -> held_node s [] h.
Proof.
  intros [Hr|[(i & p' & Hi & Hp' & Hv)|[Hb|[Hh|Hx]]]].
  - left. apply list_elem_of_lookup in Hr as [k Hk]. destruct (Forall2_lookup_r _ _ _ _ _ Hroots Hk) as (v & Hv & Hm).
    apply list_elem_of_lookup_2 in Hv. destruct (M_handles _ _ Hm) as [E _]. by rewrite (proj1 (E h) eq_refl) in Hv.
  - right. left. apply reachable_pair_back in Hi. exists i. pose proof (zget_Some_bounds _ _ _ Hp') as Hb. rewrite pairs_zlen in Hb.
    destruct (zget_is_Some (scratch_pairs s) i Hb) as [p Hp]. exists p. split; [done|]. split; [done|].
    destruct (pair_moved_at i p (proj2 (Hlpiff i) Hi) Hp) as (q & Hq & M1 & M2). assert (q = p') as -> by congruence.
    destruct (M_handles _ _ M1) as [E1 _]. destruct (M_handles _ _ M2) as [E2 _]. unfold pair_values in *.
    apply elem_of_cons in Hv as [Hv|Hv].
    + rewrite (proj1 (E1 h) (eq_sym Hv)). by left.
    + apply list_elem_of_singleton in Hv. rewrite (proj1 (E2 h) (eq_sym Hv)). right. by left.
  - right. right. left. unfold builder_handles in *. by rewrite <- Hbuild.
  - do 3 right. left. by rewrite <- Hhost.
  - by apply not_elem_of_nil in Hx.
Qed.

(** What holds of every root and reachable pair before, after. *)
Lemma roots_back (P Q : AivmValue -> Prop) : (forall v v', M v v' -> P v -> Q v') ->
  Forall P (root_values s) -> Forall Q (root_values s').
Proof.
  intros HPQ HP. apply Forall_forall. intros v' Hv'. apply list_elem_of_lookup in Hv' as [k Hk].
  destruct (Forall2_lookup_r _ _ _ _ _ Hroots Hk) as (v & Hv & Hm). rewrite Forall_forall in HP. eapply HPQ; [exact Hm|].
  apply HP. by eapply list_elem_of_lookup_2.
Qed.

Lemma pairs_back (P Q : AivmValue -> Prop) : (forall v v', M v v' -> P v -> Q v') ->
  (forall i p, reachable_pair s i -> zget (scratch_pairs s) i = Some p -> P (first p) /\ P (second p)) ->
  forall i p, reachable_pair s' i -> zget (scratch_pairs s') i = Some p -> Q (first p) /\ Q (second p).
Proof.
  intros HPQ HP i p' Hi%reachable_pair_back Hp'. pose proof (zget_Some_bounds _ _ _ Hp') as Hb. rewrite pairs_zlen in Hb.
  destruct (zget_is_Some (scratch_pairs s) i Hb) as [p Hp]. destruct (HP i p Hi Hp) as [P1 P2].
  destruct (pair_moved_at i p (proj2 (Hlpiff i) Hi) Hp) as (q & Hq & M1 & M2). assert (q = p') as -> by congruence.
  split; eauto.
Qed.

(** Nodes, when their number and children are the same. *)
Context (Hcount : node_count (node_store s') = node_count (node_store s)).
Context (Hchild : forall h c, child_of (node_store s') h c <-> child_of (node_store s) h c).

Lemma reachable_same h : reachable_node s' [] h <-> reachable_node s [] h.
Proof.
  assert (Hr : forall x y, rtc (child_of (node_store s')) x y <-> rtc (child_of (node_store s)) x y).
  { intros x y. split; (induction 1 as [|a b c Hab _ IH]; [constructor|]; eapply rtc_l; [by apply Hchild|done]). }
  split; intros (r & H1 & H2 & H3); exists r.
  - split; [by apply held_back|]. split; [unfold node_valid in *; by rewrite <- Hcount|by apply Hr].
  - split; [by apply held_forth|]. split; [unfold node_valid in *; by rewrite Hcount|by apply Hr].
Qed.

Lemma handle_ok_moved v v' : M v v' -> value_handle_ok s v -> value_handle_ok s' v'.
Proof.
  intros Hm%M_shape. destruct v; try (by destruct v').
  - subst v'. cbn. unfold node_valid. by rewrite Hcount.
  - subst v'. cbn. unfold valid_handle. by rewrite pairs_zlen.
Qed.

Lemma handles_ok_kept : handles_ok s -> handles_ok s'.
Proof.
  intros [H1 H2 H3 H4]. split.
  - eapply roots_back; [exact handle_ok_moved|done].
  - eapply pairs_back; [exact handle_ok_moved|done].
  - unfold builder_handles. rewrite Hbuild. eapply Forall_impl; [exact H3|]. intros h. unfold node_valid. by rewrite Hcount.
  - rewrite Hhost. by rewrite Hcount.
Qed.

(** Documents, when the leaves and the nodes keep what they stand for. *)
Context (Hok : handles_ok s) (V : AivmValue -> Prop).
Context (M_resolve : forall v v', M v v' -> V v -> resolve_value s' v' = resolve_value s v).
Context (Vroots : Forall V (root_values s)).
Context (Vpairs : forall i p, reachable_pair s i -> zget (scratch_pairs s) i = Some p -> V (first p) /\ V (second p)).
Context (Hnodes : forall h, reachable_node s [] h -> forall d, node_document d s' h = node_document d s h).

Lemma document_leaf d s0 v : match v with VNode _ | VPair _ => False | _ => True end -> document d s0 v = TLeaf (resolve_value s0 v).
Proof. by destruct d, v. Qed.

(** A value whose pairs and nodes are all live. *)
Lemma document_kept d : forall v v', M v v' -> V v -> value_handle_ok s v ->
  (forall j, reaches (scratch_pairs s) v j -> is_live lp j) -> (forall h, v = VNode h -> reachable_node s [] h) ->
  document d s' v' = document d s v.
Proof.
  induction d as [|d IH]; intros v v' Hm Hv Hh Hl Hn.
  all: pose proof (M_resolve v v' Hm Hv) as Hres; pose proof (M_shape v v' Hm) as Hsh.
  all: assert (Hcase : (exists h, v = VNode h) \/ (exists h, v = VPair h) \/
    match v with VNode _ | VPair _ => False | _ => True end /\ match v' with VNode _ | VPair _ => False | _ => True end)
    by (destruct v; eauto).
  all: destruct Hcase as [[h ->]|[[h ->]|[L1 L2]]]; [subst v'|subst v'|by rewrite !document_leaf, Hres]; try done.
  - unfold document. cbn [unfold_value resolve_vtree]. f_equal. apply (Hnodes h (Hn h eq_refl) (S d)).
  - unfold document. cbn [unfold_value]. cbn in Hh. unfold valid_handle in Hh. unfold pair_at. destruct (Z.leb_spec h 0); [lia|].
    destruct (zget_is_Some (scratch_pairs s) (h - 1)) as [p Hp]; [lia|]. rewrite Hp.
    assert (Hi : is_live lp (h - 1)) by (apply Hl; constructor; lia).
    assert (Hat : pair_at (scratch_pairs s) h = Some p) by (unfold pair_at; destruct (Z.leb_spec h 0); [lia|done]).
    destruct (pair_moved_at _ _ Hi Hp) as (p' & -> & M1 & M2). apply Hlpiff in Hi as Hr.
    destruct (Vpairs _ p Hr Hp) as [V1 V2]. destruct (ho_pairs s Hok _ p Hr Hp) as [O1 O2].
    assert (Hnode : forall g, VNode g ∈ pair_values p -> node_valid (node_store s) g -> reachable_node s [] g).
    { intros g Hg Hgv. exists g. split; [right; left; by exists (h - 1), p|]. split; [done|constructor]. }
    cbn [resolve_vtree]. f_equal; (eapply IH; [done..| |]).
    + intros j Hj. apply Hl. by eapply reaches_first.
    + intros g Hg. apply Hnode; [rewrite <- Hg; by left|]. by rewrite Hg in O1.
    + intros j Hj. apply Hl. by eapply reaches_second.
    + intros g Hg. apply Hnode; [rewrite <- Hg; right; by left|]. by rewrite Hg in O2.
Qed.

Lemma roots_documents : Forall2 (same_document s s') (root_values s) (root_values s').
Proof.
  apply Forall2_same_length_lookup. split; [by eapply Forall2_length|]. intros i v v' Hi Hi'.
  destruct (Forall2_lookup_l _ _ _ _ _ Hroots Hi) as (w & Hw & Hm). assert (w = v') as -> by congruence.
  apply list_elem_of_lookup_2 in Hi. intros d. apply document_kept; [done| | | |].
  - rewrite Forall_forall in Vroots. by apply Vroots.
  - pose proof (ho_roots s Hok) as Hall. rewrite Forall_forall in Hall. by apply Hall.
  - intros j Hj. apply Hlpiff. by exists v.
  - intros h ->. exists h. split; [by left|]. split; [|constructor].
    pose proof (ho_roots s Hok) as Hall. rewrite Forall_forall in Hall. apply (Hall _ Hi).
Qed.

End Moved.

(** ** States with the same values *)

Lemma live_pairs_exist s : handles_ok s -> exists lp, length lp = length (scratch_pairs s) /\ forall i, is_live lp i <-> reachable_pair s i.
Proof.
  intros Hok. pose proof (mark_pairs_spec (scratch_pairs s) (root_values s)) as Hspec.
  destruct (mark_pairs (scratch_pairs s) (root_values s)) as [m|e d|]; [| |done].
  - destruct Hspec as (H1 & _ & _ & H2). by exists (live_pairs m).
  - exfalso. destruct Hspec as (_ & h & Hbad & [Hin|(i & p & Hi & Hp & Hv)]).
    + pose proof (ho_roots s Hok) as Hr. rewrite Forall_forall in Hr. exact (Hbad (Hr _ Hin)).
    + destruct (ho_pairs s Hok i p Hi Hp) as [H1 H2]. destruct Hv as [E|E]; rewrite E in *; by apply Hbad.
Qed.

(** The same values stand for the same documents when they read the same. *)
Lemma documents_unmoved s s' (V : AivmValue -> Prop) : handles_ok s ->
  root_values s' = root_values s -> scratch_pairs s' = scratch_pairs s -> node_store s' = node_store s -> node_builders s' = node_builders s ->
  (forall v, V v -> resolve_value s' v = resolve_value s v) -> Forall V (root_values s) ->
  (forall i p, reachable_pair s i -> zget (scratch_pairs s) i = Some p -> V (first p) /\ V (second p)) ->
  (forall h, reachable_node s [] h -> forall d, node_document d s' h = node_document d s h) ->
  Forall2 (same_document s s') (root_values s) (root_values s').
Proof.
  intros Hok E1 E2 E3 E4 HV V1 V2 Hn. destruct (live_pairs_exist s Hok) as (lp & Hlp & Hiff).
  eapply (roots_documents s s' lp (zip lp (scratch_pairs s)) (fun v v' => v' = v)) with (V := V); try done.
  - intros v v' ->. by destruct v.
  - rewrite E1. by apply Forall_Forall2_diag, Forall_forall.
  - apply Forall_Forall2_diag, Forall_forall. intros [l p] _. split; [done|]. by destruct l.
  - rewrite E2. clear -Hlp. revert lp Hlp. induction (scratch_pairs s) as [|p l IH]; intros [|x lp] Hl; try done. cbn. f_equal. apply IH. by injection Hl.
  - intros v v' ->. apply HV.
Qed.
