(* ===== verification/Strings.v ===== *)
(** * The string arena (src/src/aivm_vm_string_copy.c, aivm_vm_arena.c, aivm_vm.c)

    The intern index, the allocation of text, the copies into the arena and the
    compaction that moves the live text to a new block.  [string_arena_used] is the
    length of [sa_text]; a compaction starts the next generation of the arena.
    Bytes that have been allocated and not yet written read as 0: every caller
    writes the whole allocation before the text is looked at. *)

From S2P Require Import Prelude Types Program Vm Memory Lifecycle Stack Roots Pairs NodeGc.

Definition put_strings (f : StringArena -> StringArena) : M unit :=
  modify (fun s => set_strings (f (strings s)) s).

(** ** The intern index *)

Definition string_hash (input : list Z) : Z :=
  let hash := fold_left (fun hash b => u64 (Z.lxor hash b * 1099511628211)) input 1469598103934665603 in
  if hash =? 0 then 1 else hash.

Definition string_intern_slot (hash capacity : Z) : Z := Z.land hash (capacity - 1).

Definition free_entry : AivmStringInternEntry := mk_intern 0 0 0.
Definition SIZEOF_INTERN_ENTRY : Z := 24.

(** The probe loop of [string_intern_insert].  [None] is an access outside the
    table, [Some None] a return of 0. *)
Fixpoint intern_place (fuel : nat) (entries : list AivmStringInternEntry) (e : AivmStringInternEntry) (slot : Z)
    : option (option (list AivmStringInternEntry)) :=
  match fuel with
  | O => Some None
  | S fuel' =>
      match zget entries slot with
      | None => None
      | Some entry =>
          if ie_hash entry =? 0 then Some (Some (zset entries slot e))
          else intern_place fuel' entries e (Z.land (slot + 1) (zlen entries - 1))
      end
  end.

Definition string_intern_insert (entries : list AivmStringInternEntry) (hash offset length : Z)
    : option (option (list AivmStringInternEntry)) :=
  if zlen entries =? 0 then Some None
  else intern_place (List.length entries) entries (mk_intern hash offset length)
         (string_intern_slot hash (zlen entries)).

(** The [while] loop of [string_intern_resize]; 64 doublings exceed any size. *)
Fixpoint intern_capacity (fuel : nat) (capacity requested : Z) : option Z :=
  if capacity <? requested then
    if SIZE_MAX / 2 <? capacity then None
    else match fuel with O => None | S fuel' => intern_capacity fuel' (capacity * 2) requested end
  else Some capacity.

(** Moving the occupied entries to the new table. *)
Fixpoint intern_move (old entries : list AivmStringInternEntry) : option (option (list AivmStringInternEntry)) :=
  match old with
  | [] => Some (Some entries)
  | e :: rest =>
      if ie_hash e =? 0 then intern_move rest entries
      else
        match string_intern_insert entries (ie_hash e) (ie_offset e) (ie_length e) with
        | Some (Some entries') => intern_move rest entries'
        | r => r
        end
  end.

(** [Some None] is a return of 0. *)
Definition or_fail {A} (o : option (option A)) : M A :=
  let! r := check o in match r with Some a => ret a | None => fail end.

Definition aivm_vm_reset_string_intern_index : M unit :=
  put_strings (fun a => set_si_complete true (set_si_count 0
    (set_si_entries (replicate (length (si_entries a)) free_entry) a))).

(** [lookup_string_in_index]: the offset of the text, if the index has it. *)
Fixpoint index_probe (fuel : nat) (text : list Z) (entries : list AivmStringInternEntry) (input : list Z) (hash slot : Z)
    : option (option Z) :=
  match fuel with
  | O => Some None
  | S fuel' =>
      match zget entries slot with
      | None => None
      | Some entry =>
          if ie_hash entry =? 0 then Some None
          else if (ie_hash entry =? hash) && (ie_length entry =? zlen input) then
            match read_block text (ie_offset entry) (zlen input) with
            | None => None
            | Some found =>
                if bool_decide (found = input) then Some (Some (ie_offset entry))
                else index_probe fuel' text entries input hash (Z.land (slot + 1) (zlen entries - 1))
            end
          else index_probe fuel' text entries input hash (Z.land (slot + 1) (zlen entries - 1))
      end
  end.

Definition lookup_string_in_index (a : StringArena) (input : list Z) : option (option Z) :=
  if negb (si_complete a) || (zlen (si_entries a) =? 0) then Some None
  else
    let hash := string_hash input in
    index_probe (length (si_entries a)) (sa_text a) (si_entries a) input hash
      (string_intern_slot hash (zlen (si_entries a))).

(** ** Scanning the arena *)

(** The loop that walks from text to text until one matches.  [strlen] of a text
    that does not end inside the arena is [None]. *)
Fixpoint scan_arena (fuel : nat) (matches : list Z -> bool) (text : list Z) (offset : Z) : option (option Z) :=
  if zlen text <=? offset then Some None
  else
    match fuel with
    | O => None
    | S fuel' =>
        match cstring_at text offset with
        | None => None
        | Some candidate =>
            if matches candidate then Some (Some offset)
            else
              let next := offset + zlen candidate in
              scan_arena fuel' matches text (if next <? zlen text then next + 1 else next)
        end
    end.

Definition scan_text (input text : list Z) : option (option Z) :=
  scan_arena (length text) (fun candidate => bool_decide (candidate = input)) text 0.

(** [aivm_pointer_in_string_arena] *)
Definition aivm_pointer_in_string_arena (a : StringArena) (p : str_ptr) : bool :=
  match p with
  | SArena gen off => (gen =? sa_gen a) && (0 <=? off) && (off <? zlen (sa_text a))
  | _ => false
  end.

(** ** Compaction *)

(** [compact_lookup_or_copy_string]: the offset in the new arena and its text.
    [None] is an unreadable text, [Some None] a return of NULL. *)
Definition compact_lookup_or_copy_string (text new_text : list Z) (capacity : Z) : option (option (Z * list Z)) :=
  match scan_text text new_text with
  | None => None
  | Some (Some offset) => Some (Some (offset, new_text))
  | Some None =>
      match aivm_size_add_checked (zlen text) 1 with
      | None => Some None
      | Some length =>
          match aivm_size_add_checked (zlen new_text) length with
          | None => Some None
          | Some next => if capacity <? next then Some None else Some (Some (zlen new_text, new_text ++ text ++ [0]))
          end
      end
  end.

(** [compact_relocate_string_ptr]: the state of the walk is the new arena's text. *)
Definition compact_relocate_string_ptr (a : StringArena) : visitor (list Z) str_ptr := fun new_text p =>
  if aivm_pointer_in_string_arena a p then
    match p with
    | SArena _ off =>
        match cstring_at (sa_text a) off with
        | None => (p, Stuck)
        | Some text =>
            match compact_lookup_or_copy_string text new_text (sa_capacity a) with
            | None => (p, Stuck)
            | Some None => (p, Failed AIVM_VM_ERR_MEMORY_PRESSURE (DText "AIVMM001: string arena capacity exceeded."))
            | Some (Some (offset, new_text')) => (SArena (sa_gen a + 1) offset, Visited new_text')
            end
        end
    | _ => (p, Visited new_text)
    end
  else (p, Visited new_text).

Definition compact_relocate_value_string (a : StringArena) : visitor (list Z) AivmValue := fun new_text v =>
  match v with
  | VString p => let '(p', r) := compact_relocate_string_ptr a new_text p in (VString p', r)
  | _ => (v, Visited new_text)
  end.

(** The text of one attribute: its key, then its value if that is text. *)
Definition relocate_attr (a : StringArena) : visitor (list Z) AivmNodeAttr := fun new_text attr =>
  let '(key, r) := compact_relocate_string_ptr a new_text (attr_key attr) in
  match r with
  | Visited t1 =>
      match attr_value attr with
      | NAIdentifier p => let '(p', r') := compact_relocate_string_ptr a t1 p in (mk_attr key (NAIdentifier p'), r')
      | NAString p => let '(p', r') := compact_relocate_string_ptr a t1 p in (mk_attr key (NAString p'), r')
      | v => (mk_attr key v, r)
      end
  | _ => (mk_attr key (attr_value attr), r)
  end.

(** The attribute loop of a node: [k] attributes from a slot on, in place. *)
Fixpoint relocate_attrs (k : nat) (a : StringArena) (capacity slot : Z) (attrs : list AivmNodeAttr) (new_text : list Z)
    : list AivmNodeAttr * visit (list Z) :=
  match k with
  | O => (attrs, Visited new_text)
  | S k' =>
      if capacity <=? slot
      then (attrs, Failed AIVM_VM_ERR_MEMORY_PRESSURE (DText "AIVMM004: node attr slot overflow during string compaction."))
      else
        match zget attrs slot with
        | None => (attrs, Stuck)
        | Some attr =>
            let '(attr', r) := relocate_attr a new_text attr in
            match r with
            | Visited t => relocate_attrs k' a capacity (slot + 1) (zset attrs slot attr') t
            | _ => (zset attrs slot attr', r)
            end
        end
  end.

(** The text of one node: its kind, its id and its attributes. *)
Definition relocate_node (a : StringArena) (capacity : Z) (nd : AivmNodeRecord) (attrs : list AivmNodeAttr) (new_text : list Z)
    : AivmNodeRecord * list AivmNodeAttr * visit (list Z) :=
  let moved kind id := mk_node kind id (attr_start nd) (attr_count nd) (child_start nd) (child_count nd) in
  let '(kind, r1) := compact_relocate_string_ptr a new_text (node_kind nd) in
  match r1 with
  | Visited t1 =>
      let '(id, r2) := compact_relocate_string_ptr a t1 (node_id nd) in
      match r2 with
      | Visited t2 =>
          let '(attrs', r3) := relocate_attrs (Z.to_nat (attr_count nd)) a capacity (attr_start nd) attrs t2 in
          (moved kind id, attrs', r3)
      | _ => (moved kind id, attrs, r2)
      end
  | _ => (moved kind (node_id nd), attrs, r1)
  end.

(** The node loop: the live nodes in order. *)
Fixpoint relocate_nodes (a : StringArena) (capacity : Z) (live : list bool) (nds : list AivmNodeRecord)
    (attrs : list AivmNodeAttr) (new_text : list Z) : list AivmNodeRecord * list AivmNodeAttr * visit (list Z) :=
  match live, nds with
  | l :: live', nd :: rest =>
      if l then
        let '(nd', attrs', r) := relocate_node a capacity nd attrs new_text in
        match r with
        | Visited t =>
            let '(rest', attrs'', r') := relocate_nodes a capacity live' rest attrs' t in (nd' :: rest', attrs'', r')
        | _ => (nd' :: rest, attrs', r)
        end
      else
        let '(rest', attrs', r) := relocate_nodes a capacity live' rest attrs new_text in (nd :: rest', attrs', r)
  | _, _ => (nds, attrs, Visited new_text)
  end.

Definition walk_nodes (a : StringArena) (live : list bool) (new_text : list Z) : M (list Z) := fun s =>
  let n := node_store s in
  let '(nds, attrs, r) := relocate_nodes a (node_attr_capacity n) live (nodes n) (node_attrs n) new_text in
  let s' := set_node_store (set_node_attrs attrs (set_nodes nds n)) s in
  match r with
  | Visited t => Ok t s'
  | Failed e d => Err (aivm_set_vm_error e d s')
  | Stuck => Undef
  end.

(** Counting the texts: [Some None] when the last one does not end in the arena. *)
Fixpoint count_texts (fuel : nat) (text : list Z) (offset count : Z) : option (option Z) :=
  if zlen text <=? offset then Some (Some count)
  else
    match fuel with
    | O => None
    | S fuel' =>
        match cstring_at text offset with
        | None => Some None
        | Some c => count_texts fuel' text (offset + zlen c + 1) (count + 1)
        end
    end.

(** Entering every text into the index. *)
Fixpoint index_texts (fuel : nat) (text : list Z) (entries : list AivmStringInternEntry) (offset count : Z)
    : option (bool * list AivmStringInternEntry * Z) :=
  if zlen text <=? offset then Some (true, entries, count)
  else
    match fuel with
    | O => None
    | S fuel' =>
        match cstring_at text offset with
        | None => None
        | Some c =>
            match string_intern_insert entries (string_hash c) offset (zlen c) with
            | None => None
            | Some None => Some (false, entries, count)
            | Some (Some entries') => index_texts fuel' text entries' (offset + zlen c + 1) (count + 1)
            end
        end
    end.

Section Host.

Context `{Host}.

Definition string_intern_resize (requested : Z) : M unit :=
  match intern_capacity 64 1024 requested with
  | None => fail
  | Some capacity =>
      let! ok := alloc (capacity * SIZEOF_INTERN_ENTRY) in
      if negb ok then fail
      else
        let! s := get in
        let! entries := or_fail (intern_move (si_entries (strings s)) (replicate (Z.to_nat capacity) free_entry)) in
        put_strings (set_si_entries entries)
  end.

(** The index is given up: the arena is scanned from now on. *)
Definition give_up_index : M unit := put_strings (set_si_complete false).

Definition aivm_vm_rebuild_string_intern_index : M unit :=
  let! s := get in
  let text := sa_text (strings s) in
  let! counted := check (count_texts (length text) text 0 0) in
  match counted with
  | None => give_up_index
  | Some count =>
      do! aivm_vm_reset_string_intern_index in
      if count =? 0 then ret tt
      else
        or_else
          (do! string_intern_resize (count * 2) in
           let! s := get in
           let! filled := check (index_texts (length text) text (si_entries (strings s)) 0 (si_count (strings s))) in
           let '(done, entries, count) := filled in
           do! put_strings (fun a => set_si_count count (set_si_entries entries a)) in
           if done then ret tt else fail)
          give_up_index
  end.

(** Three workspace blocks are asked for before the results are looked at. *)
Definition aivm_compact_string_arena : M unit :=
  let! s := get in
  let a := strings s in
  if zlen (sa_text a) =? 0 then ret tt
  else
    let! ok1 := alloc (node_capacity (node_store s)) in
    let! ok2 := alloc AIVM_VM_SCRATCH_PAIR_CAPACITY in
    let! ok3 := alloc (sa_capacity a) in
    if negb (ok1 && ok2 && ok3)
    then throw AIVM_VM_ERR_MEMORY_PRESSURE (DText "AIVMM001: string arena compaction workspace allocation failed.")
    else
      let! live := aivm_vm_mark_live_node_handles [] in
      let! live_pairs := aivm_vm_mark_live_scratch_pair_handles in
      let! t := walk_roots (compact_relocate_value_string a) [] in
      let! t := walk_live_pairs (compact_relocate_value_string a) live_pairs t in
      let! t := walk_nodes a live t in
      do! put_strings (fun a => set_sa_text t (set_sa_gen (sa_gen a + 1) a)) in
      aivm_vm_rebuild_string_intern_index.

(** ** Allocation *)

Definition arena_grow_limit (current step max_value : Z) : Z :=
  if max_value <=? current then max_value
  else
    match aivm_size_add_checked current step with
    | None => max_value
    | Some next => if max_value <? next then max_value else next
    end.

(** The loop of [ensure_string_arena_capacity]: the limit moves step by step. *)
Fixpoint grow_string_limit (fuel : nat) (needed : Z) : M unit :=
  let! s := get in
  let a := strings s in
  if (sa_limit a <? needed) && (sa_limit a <? sa_capacity a) then
    match fuel with
    | O => undef
    | S fuel' =>
        let next := arena_grow_limit (sa_limit a) AIVM_VM_STRING_ARENA_GROWTH_STEP (sa_capacity a) in
        do! (if bool_decide (runtime_profile s = AIVM_RUNTIME_PROFILE_TOOLING)
             then aivm_vm_host_memory_growth_available (next - sa_limit a) else ret tt) in
        do! put_strings (set_sa_limit next) in
        grow_string_limit fuel' needed
    end
  else if needed <=? sa_limit a then ret tt else fail.

(** Every round but the last adds a whole step. *)
Definition grow_rounds (a : StringArena) : nat :=
  Z.to_nat ((sa_capacity a - sa_limit a) / AIVM_VM_STRING_ARENA_GROWTH_STEP + 1).

Definition ensure_string_arena_capacity (needed : Z) : M unit :=
  let! s := get in grow_string_limit (grow_rounds (strings s)) needed.

Definition string_pressure : M unit :=
  put_strings (fun a => set_sa_pressure_count (aivm_counter_increment_saturating (sa_pressure_count a)) a).

Definition capacity_exceeded : detail := DText "AIVMM001: string arena capacity exceeded.".

(** The end of an allocation of [size] bytes. *)
Definition string_needed (size : Z) : M Z :=
  let! s := get in
  match aivm_size_add_checked (zlen (sa_text (strings s))) size with
  | None => do! string_pressure in throw AIVM_VM_ERR_MEMORY_PRESSURE capacity_exceeded
  | Some needed => ret needed
  end.

Definition string_fits (needed : Z) : M unit :=
  let! s := get in
  if sa_limit (strings s) <? needed then ensure_string_arena_capacity needed else ret tt.

Definition string_exceeded {A} : M A :=
  do! string_pressure in throw_unless_error AIVM_VM_ERR_MEMORY_PRESSURE capacity_exceeded.

(** The end of the allocation once there is room for it, after a compaction if
    the limit cannot grow far enough.  Shared by [aivm_string_arena_alloc] and
    [aivm_string_arena_reserve]. *)
Definition string_room (size : Z) : M Z :=
  let! needed := string_needed size in
  let! needed :=
    or_else (do! string_fits needed in ret needed)
            (do! or_else aivm_compact_string_arena string_exceeded in string_needed size) in
  do! or_else (string_fits needed) string_exceeded in
  ret needed.

Definition aivm_string_arena_alloc (size : Z) : M str_ptr :=
  let! needed := string_room size in
  let! s := get in
  let a := strings s in
  do! put_strings (fun a => set_sa_high_water (Z.max (sa_high_water a) needed)
        (set_sa_text (sa_text a ++ replicate (Z.to_nat size) 0) a)) in
  ret (SArena (sa_gen a) (zlen (sa_text a))).

Definition aivm_string_arena_reserve (additional_size : Z) : M unit :=
  do! string_room additional_size in ret tt.

(** ** Copies into the arena *)

(** [remember_string_in_index]; a failure only gives the index up. *)
Definition remember_string_in_index (offset : Z) (input : list Z) : M unit :=
  let! s := get in
  let a := strings s in
  if negb (si_complete a) then ret tt
  else
    let capacity := zlen (si_entries a) in
    or_else
      (do! (if (capacity =? 0) || (capacity * 7 <=? (si_count a + 1) * 10)
            then string_intern_resize (if capacity =? 0 then 1024 else capacity * 2) else ret tt) in
       let! s := get in
       let! entries := or_fail (string_intern_insert (si_entries (strings s)) (string_hash input) offset (zlen input)) in
       put_strings (fun a => set_si_count (si_count a + 1) (set_si_entries entries a)))
      give_up_index.

(** Writing bytes to the arena from an offset on. *)
Definition write_text (offset : Z) (content : list Z) : M unit :=
  let! s := get in
  let text := sa_text (strings s) in
  if (0 <=? offset) && (offset + zlen content <=? zlen text)
  then put_strings (set_sa_text (ztake offset text ++ content ++ zdrop (offset + zlen content) text))
  else undef.

(** [length] bytes through a [const char*]; the terminator may be read too. *)
Definition read_range (s : AivmVm) (p : str_ptr) (length : Z) : option (list Z) :=
  match p with
  | SNull => None
  | SArena gen off => if gen =? sa_gen (strings s) then read_block (sa_text (strings s)) off length else None
  | SProgram off => match program s with Some q => read_block (string_storage q) off length | None => None end
  | SExt content => read_block (content ++ [0]) 0 length
  end.

(** [aivm_vm_snapshot_arena_backed_string]: a text in the arena is copied to the
    heap first.  The bytes are returned: a text elsewhere does not change. *)
Definition aivm_vm_snapshot_arena_backed_string (p : str_ptr) (length : Z) : M (list Z) :=
  let! s := get in
  let! content := check (read_range s p length) in
  if aivm_pointer_in_string_arena (strings s) p then
    match aivm_size_add_checked length 1 with
    | None => fail
    | Some bytes_needed => let! ok := alloc bytes_needed in if ok then ret content else fail
    end
  else ret content.

(** [lookup_string_in_arena]: a text of the arena stands for itself. *)
Definition lookup_string_in_arena (p : str_ptr) (input : list Z) : M (option str_ptr) :=
  let! s := get in
  let a := strings s in
  if aivm_pointer_in_string_arena a p then ret (Some p)
  else
    let! indexed := check (lookup_string_in_index a input) in
    match indexed with
    | Some offset => ret (Some (SArena (sa_gen a) offset))
    | None =>
        if si_complete a then ret None
        else
          let! found := check (scan_text input (sa_text a)) in
          ret (SArena (sa_gen a) <$> found)
    end.

(** [lookup_string_range_in_arena] *)
Definition lookup_string_range_in_arena (input : list Z) : M (option str_ptr) :=
  let! s := get in
  let a := strings s in
  let! indexed := check (lookup_string_in_index a input) in
  match indexed with
  | Some offset => ret (Some (SArena (sa_gen a) offset))
  | None =>
      if si_complete a then ret None
      else
        let! found := check (scan_text input (sa_text a)) in
        ret (SArena (sa_gen a) <$> found)
  end.

(** The end of every copy: room, the bytes, the terminator and the index. *)
Definition store_text (content : list Z) (bytes_needed : Z) : M str_ptr :=
  let! output := aivm_string_arena_alloc bytes_needed in
  match output with
  | SArena _ offset =>
      do! write_text offset (content ++ [0]) in
      do! remember_string_in_index offset content in
      ret output
  | _ => undef
  end.

Definition aivm_vm_copy_string_to_arena (p : str_ptr) : M str_ptr :=
  if bool_decide (p = SNull) then fail
  else
    let! input := deref_str p in
    let! output := lookup_string_in_arena p input in
    match output with
    | Some output => ret output
    | None =>
        match aivm_size_add_checked (zlen input) 1 with
        | None => fail
        | Some bytes_needed =>
            let! source := aivm_vm_snapshot_arena_backed_string p (zlen input) in
            store_text source bytes_needed
        end
    end.

Definition aivm_vm_copy_string_range_to_arena (p : str_ptr) (length : Z) : M str_ptr :=
  if bool_decide (p = SNull) then fail
  else
    let! s := get in
    let! input := check (read_range s p length) in
    let! output := lookup_string_range_in_arena input in
    match output with
    | Some output => ret output
    | None =>
        match aivm_size_add_checked length 1 with
        | None => fail
        | Some bytes_needed =>
            let! source := aivm_vm_snapshot_arena_backed_string p length in
            store_text source bytes_needed
        end
    end.

(** [aivm_vm_copy_string_splice_to_arena] scans the arena without the index. *)
Definition aivm_vm_copy_string_splice_to_arena (prefix : str_ptr) (prefix_length : Z) (suffix : str_ptr) (suffix_length : Z)
    : M str_ptr :=
  if bool_decide (prefix = SNull) || bool_decide (suffix = SNull) then fail
  else
    match aivm_size_add_checked prefix_length suffix_length with
    | None => fail
    | Some total_length =>
        match aivm_size_add_checked total_length 1 with
        | None => fail
        | Some bytes_needed =>
            let! s := get in
            let! pre := check (read_range s prefix prefix_length) in
            let! suf := check (read_range s suffix suffix_length) in
            let! found := check (scan_text (pre ++ suf) (sa_text (strings s))) in
            match found with
            | Some offset => ret (SArena (sa_gen (strings s)) offset)
            | None =>
                let! prefix_source := aivm_vm_snapshot_arena_backed_string prefix prefix_length in
                let! suffix_source := aivm_vm_snapshot_arena_backed_string suffix suffix_length in
                store_text (prefix_source ++ suffix_source) bytes_needed
            end
        end
    end.

End Host.
