(* ===== verification/StringText.v ===== *)
(** * The texts of the string arena

    The bytes in use are a sequence of NUL-terminated texts, and every pointer the
    VM holds into the arena is the start of one.  Scanning, the intern index and the
    copies of a compaction in these terms. *)

From S2P Require Import Prelude Types Program Vm Memory Lifecycle Stack Roots Pairs NodeGc NodeMark Strings.

(** ** Sequences of texts *)

Definition nul_free (c : list Z) : Prop := Forall (fun b => b <> 0) c.

(** The bytes of texts one after the other, each with its terminator. *)
Definition flat (texts : list (list Z)) : list Z := flat_map (fun c => c ++ [0]) texts.

Lemma flat_app l k : flat (l ++ k) = flat l ++ flat k.
Proof. apply flat_map_app. Qed.

Lemma flat_cons c l : flat (c :: l) = c ++ 0 :: flat l.
Proof. unfold flat. cbn [flat_map]. by rewrite <- app_assoc. Qed.

Lemma flat_zlen l : zlen (flat l) = total (fun c => zlen c + 1) l.
Proof. induction l as [|c l IH]; [done|]. rewrite flat_cons, zlen_app, zlen_cons, IH. cbn [total]. lia. Qed.

Lemma flat_snoc_zlen l c : zlen (flat (l ++ [c])) = zlen (flat l) + zlen c + 1.
Proof. rewrite !flat_zlen, total_app. cbn [total]. lia. Qed.

Lemma flat_length_ge l : (length l <= length (flat l))%nat.
Proof. induction l as [|c l IH]; [done|]. rewrite flat_cons, length_app. cbn [length]. lia. Qed.

(** The texts of a block that ends with a terminator. *)
Fixpoint split_nul (bs : list Z) : list (list Z) :=
  match bs with
  | [] => []
  | b :: rest =>
      if b =? 0 then [] :: split_nul rest
      else match split_nul rest with [] => [[b]] | c :: l => (b :: c) :: l end
  end.

Lemma split_nul_free bs : Forall nul_free (split_nul bs).
Proof.
  induction bs as [|b bs IH]; [constructor|]. cbn [split_nul]. destruct (Z.eqb_spec b 0).
  - constructor; [constructor|done].
  - destruct IH as [|c l Hc Hl]; (constructor; [|done]); constructor; [done|constructor|done|done].
Qed.

Lemma split_nul_flat bs : flat (split_nul (bs ++ [0])) = bs ++ [0].
Proof.
  induction bs as [|b bs IH]; [done|]. cbn [app split_nul]. destruct (Z.eqb_spec b 0) as [->|].
  - rewrite flat_cons, IH. done.
  - destruct (split_nul (bs ++ [0])) as [|c l] eqn:E; [by destruct bs|]. rewrite flat_cons in *. cbn [app]. by rewrite IH.
Qed.

Lemma split_nul_text c : nul_free c -> split_nul (c ++ [0]) = [c].
Proof.
  induction 1 as [|b c Hb _ IH]; [done|]. cbn [app split_nul]. rewrite (proj2 (Z.eqb_neq b 0)) by done. by rewrite IH.
Qed.

Lemma split_nul_flat_all l : Forall nul_free l -> split_nul (flat l) = l.
Proof.
  induction 1 as [|c l Hc _ IH]; [done|]. rewrite flat_cons. induction Hc as [|b c Hb _ IHc]; cbn [app split_nul]; [by rewrite IH|].
  rewrite (proj2 (Z.eqb_neq b 0)) by done. by rewrite IHc.
Qed.

Lemma flat_inj l k : Forall nul_free l -> Forall nul_free k -> flat l = flat k -> l = k.
Proof. intros Hl Hk E. rewrite <- (split_nul_flat_all l Hl), <- (split_nul_flat_all k Hk). by rewrite E. Qed.

(** The first text of a block is what a C function reads at its start. *)
Lemma split_nul_head bs : exists l, split_nul (bs ++ [0]) = cstr bs :: l.
Proof.
  induction bs as [|b bs [l IH]]; [by exists []|]. cbn [app split_nul cstr]. destruct (Z.eqb_spec b 0); [by eexists|].
  rewrite IH. by eexists.
Qed.

Lemma cstring_at_text pre c rest : nul_free c -> cstring_at (pre ++ c ++ 0 :: rest) (zlen pre) = Some c.
Proof.
  intros Hc. unfold cstring_at. pose proof (zlen_nonneg pre). destruct (Z.ltb_spec (zlen pre) 0); [lia|].
  rewrite zdrop_app. replace (existsb (Z.eqb 0) (c ++ 0 :: rest)) with true; [by rewrite cstr_app_nul|].
  symmetry. rewrite existsb_app. cbn. apply orb_true_r.
Qed.

(** [c] is one of the texts and starts at [off]. *)
Definition text_at (text : list Z) (off : Z) (c : list Z) : Prop := exists pre post,
  Forall nul_free (pre ++ c :: post) /\ text = flat (pre ++ c :: post) /\ off = zlen (flat pre).

Lemma text_at_reads text off c : text_at text off c -> cstring_at text off = Some c.
Proof.
  intros (pre & post & Hf & -> & ->). apply Forall_app in Hf as [_ Hf]. apply Forall_cons in Hf as [Hc _].
  rewrite flat_app, flat_cons. by apply cstring_at_text.
Qed.

Lemma text_at_bounds text off c : text_at text off c -> 0 <= off /\ off + zlen c < zlen text.
Proof.
  intros (pre & post & _ & -> & ->). rewrite flat_app, flat_cons, zlen_app, zlen_app, zlen_cons.
  pose proof (zlen_nonneg (flat pre)). pose proof (zlen_nonneg c). pose proof (zlen_nonneg (flat post)). lia.
Qed.

Lemma text_at_elem texts off c : Forall nul_free texts -> text_at (flat texts) off c -> c ∈ texts.
Proof.
  intros Hf (pre & post & Hp & E & _). apply flat_inj in E as ->; [|done|done]. apply elem_of_app. right. by left.
Qed.

Lemma text_at_free text off c : text_at text off c -> nul_free c.
Proof. intros (pre & post & Hf & _). apply Forall_app in Hf as [_ Hf]. by apply Forall_cons in Hf as [Hc _]. Qed.

Lemma text_at_longer text off c more : Forall nul_free more -> text_at text off c -> text_at (text ++ flat more) off c.
Proof.
  intros Hm (pre & post & Hf & -> & ->). exists pre, (post ++ more). split; [|split; [|done]].
  - change (c :: post ++ more) with ((c :: post) ++ more). rewrite app_assoc. by apply Forall_app.
  - rewrite <- flat_app, <- app_assoc. done.
Qed.

Lemma text_at_last texts c more : Forall nul_free texts -> nul_free c -> Forall nul_free more ->
  text_at (flat texts ++ flat (c :: more)) (zlen (flat texts)) c.
Proof.
  intros Ht Hc Hm. exists texts, more. split; [|split; [by rewrite flat_app|done]]. apply Forall_app; split; [done|by constructor].
Qed.

(** An offset at the beginning or after a terminator starts a text. *)
Lemma start_text texts off : Forall nul_free texts -> 0 <= off < zlen (flat texts) ->
  off = 0 \/ zget (flat texts) (off - 1) = Some 0 -> exists c, c ∈ texts /\ text_at (flat texts) off c.
Proof.
  intros Hf Hb Hs.
  assert (G : forall post pre, Forall nul_free (pre ++ post) -> zlen (flat pre) <= off < zlen (flat (pre ++ post)) ->
    off = zlen (flat pre) \/ zget (flat (pre ++ post)) (off - 1) = Some 0 ->
    exists c, c ∈ pre ++ post /\ text_at (flat (pre ++ post)) off c).
  { clear. induction post as [|c post IH]; intros pre Hf Hb Hs; [rewrite app_nil_r in Hb; lia|].
    destruct (decide (off = zlen (flat pre))) as [->|Hne].
    { exists c. split; [apply elem_of_app; right; by left|]. by exists pre, post. }
    destruct Hs as [|Hs]; [done|].
    assert (Hge : zlen (flat pre) + zlen c + 1 <= off).
    { destruct (decide (zlen (flat pre) + zlen c + 1 <= off)); [done|]. exfalso.
      rewrite flat_app, flat_cons in Hs. pose proof (zlen_nonneg (flat pre)). rewrite zget_lookup in Hs by lia.
      rewrite lookup_app_r in Hs by (unfold zlen in *; lia). rewrite lookup_app_l in Hs by (unfold zlen in *; lia).
      apply Forall_app in Hf as [_ Hf]. apply Forall_cons in Hf as [Hc _]. unfold nul_free in Hc. rewrite Forall_forall in Hc.
      apply list_elem_of_lookup_2 in Hs. by apply (Hc 0). }
    replace (pre ++ c :: post) with ((pre ++ [c]) ++ post) in * by (by rewrite <- app_assoc).
    apply IH; [done| |by right]. rewrite flat_snoc_zlen. lia. }
  apply (G texts []); [done|by unfold flat; cbn|]. by unfold flat at 1; cbn.
Qed.

(** ** Scanning *)

(** The scan finds the first text that matches. *)
Lemma scan_flat m post : forall fuel pre, Forall nul_free (pre ++ post) -> (length post <= fuel)%nat ->
  scan_arena fuel m (flat (pre ++ post)) (zlen (flat pre)) =
  Some (match list_find (fun c => m c = true) post with
        | Some (i, _) => Some (zlen (flat (pre ++ take i post))) | None => None end).
Proof.
  induction post as [|c post IH]; intros fuel pre Hf Hfuel.
  { rewrite app_nil_r. destruct fuel; cbn [scan_arena]; by rewrite Z.leb_refl. }
  destruct fuel as [|fuel]; [cbn in Hfuel; lia|]. cbn [scan_arena].
  assert (Hat : text_at (flat (pre ++ c :: post)) (zlen (flat pre)) c) by by exists pre, post.
  pose proof (text_at_bounds _ _ _ Hat) as Hb. pose proof (zlen_nonneg c). rewrite (proj2 (Z.leb_gt _ _)) by lia.
  rewrite (text_at_reads _ _ _ Hat). cbn [list_find]. destruct (decide (m c = true)) as [->|Hm].
  { cbn [take]. by rewrite app_nil_r. }
  apply not_true_is_false in Hm as ->. rewrite (proj2 (Z.ltb_lt _ _)) by lia.
  replace (pre ++ c :: post) with ((pre ++ [c]) ++ post) in * by (by rewrite <- app_assoc).
  rewrite <- flat_snoc_zlen.
  rewrite IH; [|done|cbn in Hfuel; lia]. do 2 f_equal. destruct (list_find _ post) as [[i x]|]; [|done]. cbn.
  by rewrite <- app_assoc.
Qed.

Lemma scan_text_found texts c : Forall nul_free texts ->
  (exists off, scan_text c (flat texts) = Some (Some off) /\ text_at (flat texts) off c) \/
  (scan_text c (flat texts) = Some None /\ c ∉ texts).
Proof.
  intros Hf. unfold scan_text. change 0 with (zlen (flat [])).
  rewrite (scan_flat _ texts _ []) by (done || apply flat_length_ge).
  destruct (list_find _ texts) as [[i x]|] eqn:E; cbn [app].
  - left. eexists. split; [done|]. apply list_find_Some in E as (Hi & Hx & _). apply bool_decide_eq_true in Hx as ->.
    exists (take i texts), (drop (S i) texts). rewrite take_drop_middle by done. done.
  - right. split; [done|]. apply list_find_None in E. intros Hin. rewrite Forall_forall in E. apply (E c Hin).
    by apply bool_decide_eq_true.
Qed.

(** ** Copies of a compaction *)

(** The new arena holds each of some of the old texts once. *)
Definition copies (texts : list (list Z)) (t : list Z) : Prop := exists new,
  t = flat new /\ NoDup new /\ forall c, c ∈ new -> c ∈ texts.

Definition extends (t t' : list Z) : Prop := exists more, Forall nul_free more /\ t' = t ++ flat more.

Lemma extends_refl t : extends t t.
Proof. exists []. split; [constructor|]. by rewrite app_nil_r. Qed.

Lemma extends_trans t1 t2 t3 : extends t1 t2 -> extends t2 t3 -> extends t1 t3.
Proof.
  intros (m1 & F1 & ->) (m2 & F2 & ->). exists (m1 ++ m2). split; [by apply Forall_app|]. by rewrite flat_app, app_assoc.
Qed.

Lemma text_at_extends t t' off c : extends t t' -> text_at t off c -> text_at t' off c.
Proof. intros (m & Hm & ->). by apply text_at_longer. Qed.

(** Distinct texts among others take no more room than those. *)
Lemma total_subset {A} (f : A -> Z) l k : (forall x, 0 <= f x) -> NoDup l -> (forall x, x ∈ l -> x ∈ k) -> total f l <= total f k.
Proof.
  intros Hf Hnd Hsub. assert (Hs : l ⊆+ k) by (by apply NoDup_submseteq). apply submseteq_Permutation in Hs as [r Hr].
  rewrite (total_perm f k (l ++ r)) by done. rewrite total_app.
  assert (0 <= total f r) by (apply total_nonneg, Forall_forall; intros; apply Hf). lia.
Qed.

Lemma copies_fit texts t : copies texts t -> zlen t <= zlen (flat texts).
Proof.
  intros (new & -> & Hnd & Hsub). rewrite !flat_zlen. apply total_subset; [|done|done].
  intros c. pose proof (zlen_nonneg c). lia.
Qed.

Section Relocate.

Context (a : StringArena) (texts : list (list Z)).
Context (Hfree : Forall nul_free texts) (Htext : sa_text a = flat texts).
Context (Hfit : zlen (sa_text a) <= sa_capacity a) (Hcap : sa_capacity a <= SIZE_MAX).

(** A pointer that is not into another generation, and into this one only at the
    start of a text. *)
Definition ptr_ok (p : str_ptr) : Prop :=
  match p with
  | SArena gen off => gen = sa_gen a /\ exists c, text_at (flat texts) off c
  | _ => True
  end.

(** The new pointer has the text of the old one; others are unchanged. *)
Definition moved_ptr (t : list Z) (p p' : str_ptr) : Prop :=
  match p with
  | SArena _ off => exists c off', text_at (flat texts) off c /\ p' = SArena (sa_gen a + 1) off' /\ text_at t off' c
  | _ => p' = p
  end.

Lemma moved_ptr_mono t t' p p' : extends t t' -> moved_ptr t p p' -> moved_ptr t' p p'.
Proof.
  intros He. destruct p; cbn; try done. intros (c & off' & H2 & -> & H3). exists c, off'.
  split_and!; try done. by eapply text_at_extends.
Qed.

Lemma copy_spec c t : c ∈ texts -> copies texts t -> exists off t',
  compact_lookup_or_copy_string c t (sa_capacity a) = Some (Some (off, t')) /\
  copies texts t' /\ extends t t' /\ text_at t' off c.
Proof.
  intros Hc (new & -> & Hnd & Hsub). unfold compact_lookup_or_copy_string.
  assert (Hnew : Forall nul_free new). { rewrite Forall_forall in *. auto. }
  assert (Hcf : nul_free c). { rewrite Forall_forall in Hfree. auto. }
  destruct (scan_text_found new c Hnew) as [(off & -> & Hat)|[-> Hni]].
  { exists off, (flat new). split; [done|]. split; [by exists new|]. split; [apply extends_refl|done]. }
  assert (Hcp : copies texts (flat (new ++ [c]))).
  { exists (new ++ [c]). split; [done|]. split.
    - apply NoDup_app. split; [done|]. split; [|apply NoDup_singleton]. intros x Hx ->%list_elem_of_singleton. done.
    - intros x [Hx|Hx]%elem_of_app; [auto|]. by apply list_elem_of_singleton in Hx as ->. }
  assert (Hz : zlen (flat (new ++ [c])) = zlen (flat new) + (zlen c + 1)).
  { rewrite flat_snoc_zlen. lia. }
  pose proof (copies_fit _ _ Hcp) as Hle. rewrite Hz in Hle. rewrite Htext in Hfit.
  pose proof (zlen_nonneg c). pose proof (zlen_nonneg (flat new)).
  rewrite (proj2 (size_add_checked_Some (zlen c) 1 _)) by (split; [lia|done]).
  rewrite (proj2 (size_add_checked_Some _ (zlen c + 1) _)) by (split; [lia|done]).
  rewrite (proj2 (Z.ltb_ge _ _)) by lia. eexists _, _. split; [done|].
  replace (flat new ++ c ++ [0]) with (flat (new ++ [c])) by (by rewrite flat_app, flat_cons).
  split; [done|]. split; [exists [c]; split; [by repeat constructor|by rewrite flat_app]|].
  rewrite flat_app. apply text_at_last; [done|done|constructor].
Qed.

Lemma relocate_ptr_spec t p : ptr_ok p -> copies texts t -> exists p' t',
  compact_relocate_string_ptr a t p = (p', Visited t') /\ copies texts t' /\ extends t t' /\ moved_ptr t' p p'.
Proof.
  intros Hp Ht. unfold compact_relocate_string_ptr.
  assert (Hsame : aivm_pointer_in_string_arena a p = false -> exists p' t', (p, Visited t) = (p', Visited t') /\
    copies texts t' /\ extends t t' /\ moved_ptr t' p p').
  { intros E. exists p, t. split; [done|]. split; [done|]. split; [apply extends_refl|]. destruct p as [|gen off| |]; try done.
    destruct Hp as [-> (c & Hat)]. pose proof (text_at_bounds _ _ _ Hat). pose proof (zlen_nonneg c).
    cbn in E. rewrite Z.eqb_refl, Htext in E. lia. }
  destruct p as [|gen off|off|c0]; try (apply Hsame; done). destruct Hp as [-> (c & Hat)]. pose proof (text_at_elem _ _ _ Hfree Hat) as Hc.
  pose proof (text_at_bounds _ _ _ Hat) as Hb. pose proof (zlen_nonneg c).
  replace (aivm_pointer_in_string_arena a _) with true by (cbn; rewrite Z.eqb_refl, Htext; lia).
  rewrite Htext, (text_at_reads _ _ _ Hat). destruct (copy_spec c t Hc Ht) as (off' & t' & -> & H1 & H2 & H3).
  eexists _, _. split; [done|]. split; [done|]. split; [done|]. by exists c, off'.
Qed.

End Relocate.
