(* ===== verification/StringIndex.v ===== *)
(** * The intern index of the string arena (src/src/aivm_vm_string_copy.c)

    The index never leads outside its table or the arena, and what it finds is the
    text asked for.  An index that could not be kept is given up, never wrong. *)

From S2P Require Import Prelude Types Program Vm Memory Lifecycle Stack Roots Pairs NodeGc NodeMark Strings StringText.

(** ** The invariant *)

(** The entry is free, or names bytes of the arena that start a text and are
    followed by a terminator. *)
Definition entry_ok (text : list Z) (e : AivmStringInternEntry) : Prop :=
  ie_hash e = 0 \/
  (0 <= ie_offset e /\ 0 <= ie_length e /\ zget text (ie_offset e + ie_length e) = Some 0 /\
   (ie_offset e = 0 \/ zget text (ie_offset e - 1) = Some 0)).

Definition table_size (n : Z) : Prop := n = 0 \/ exists k, 0 <= k /\ n = 2 ^ k.

Definition entries_ok (text : list Z) (entries : list AivmStringInternEntry) : Prop :=
  Forall (entry_ok text) entries /\ table_size (zlen entries).

Definition index_ok (a : StringArena) : Prop :=
  table_size (zlen (si_entries a)) /\ (si_complete a = true -> Forall (entry_ok (sa_text a)) (si_entries a)).

(** Only the index and the host's clock have moved. *)
Definition only_index (s s' : AivmVm) : Prop :=
  exists entries count complete t,
    (table_size (zlen (si_entries (strings s))) -> table_size (zlen entries)) /\
    s' = set_tick t (set_strings (set_si_complete complete (set_si_count count (set_si_entries entries (strings s)))) s).

Lemma only_index_intro s entries count complete t s' :
  (table_size (zlen (si_entries (strings s))) -> table_size (zlen entries)) ->
  s' = set_tick t (set_strings (set_si_complete complete (set_si_count count (set_si_entries entries (strings s)))) s) ->
  only_index s s'.
Proof. intros ? ->. by exists entries, count, complete, t. Qed.

Ltac index_moved := first
  [ reflexivity
  | match goal with s : AivmVm |- _ => destruct s as [? ? ? ? ? ? ? ? ? ? ? ? ? ? ? ? []]; reflexivity end ].

Lemma only_index_refl s : only_index s s.
Proof. apply (only_index_intro s (si_entries (strings s)) (si_count (strings s)) (si_complete (strings s)) (tick s)); [done|index_moved]. Qed.

Lemma only_index_trans s1 s2 s3 : only_index s1 s2 -> only_index s2 s3 -> only_index s1 s3.
Proof. intros (e1 & c1 & b1 & t1 & E1 & ->) (e2 & c2 & b2 & t2 & E2 & ->). exists e2, c2, b2, t2. cbn in E2. split; [auto|done]. Qed.

Lemma only_index_tick s t : only_index s (set_tick t s).
Proof. apply (only_index_intro s (si_entries (strings s)) (si_count (strings s)) (si_complete (strings s)) t); [done|index_moved]. Qed.

Lemma only_index_text s s' : only_index s s' -> sa_text (strings s') = sa_text (strings s) /\
  sa_gen (strings s') = sa_gen (strings s) /\ sa_limit (strings s') = sa_limit (strings s) /\
  sa_capacity (strings s') = sa_capacity (strings s).
Proof. by intros (e & c & b & t & _ & ->). Qed.

Lemma only_index_size s s' : only_index s s' -> table_size (zlen (si_entries (strings s))) -> table_size (zlen (si_entries (strings s'))).
Proof. by intros (e & c & b & t & Hs & ->). Qed.

(** ** Probing *)

Lemma table_slot n z : table_size n -> n <> 0 -> 0 <= Z.land z (n - 1) < n.
Proof. intros [->|(k & Hk & ->)] Hn; [done|]. rewrite land_ones_mod by done. apply Z.mod_pos_bound. lia. Qed.

Section Entries.

Context (text : list Z).

(** Placing an entry stays in the table and adds only that entry. *)
Lemma place_ok fuel e : entry_ok text e -> forall entries slot,
  entries_ok text entries -> 0 <= slot < zlen entries ->
  match intern_place fuel entries e slot with
  | Some (Some entries') => entries_ok text entries' /\ zlen entries' = zlen entries
  | Some None => True
  | None => False
  end.
Proof.
  intros He. induction fuel as [|fuel IH]; intros entries slot Hok Hs; [done|]. cbn [intern_place].
  destruct (zget_is_Some entries slot Hs) as [x Hx]. rewrite Hx. destruct (ie_hash x =? 0).
  - destruct Hok as [Hf Ht]. split; [|by rewrite zlen_zset]. split; [|by rewrite zlen_zset].
    rewrite (zset_split _ _ _ _ Hx). destruct (zget_split _ _ _ Hx) as [E _]. rewrite E in Hf.
    apply Forall_app in Hf as [H1 H2]. apply Forall_cons in H2 as [_ H2]. apply Forall_app. split; [done|by constructor].
  - apply IH; [done|]. apply table_slot; [apply Hok|lia].
Qed.

Lemma insert_ok entries hash off len : entries_ok text entries -> entry_ok text (mk_intern hash off len) ->
  match string_intern_insert entries hash off len with
  | Some (Some entries') => entries_ok text entries' /\ zlen entries' = zlen entries
  | Some None => True
  | None => False
  end.
Proof.
  intros Hok He. unfold string_intern_insert. destruct (Z.eqb_spec (zlen entries) 0); [done|].
  apply place_ok; [done|done|]. apply table_slot; [apply Hok|done].
Qed.

Lemma move_ok old : Forall (entry_ok text) old -> forall entries, entries_ok text entries ->
  match intern_move old entries with
  | Some (Some entries') => entries_ok text entries' /\ zlen entries' = zlen entries
  | Some None => True
  | None => False
  end.
Proof.
  induction 1 as [|e old He _ IH]; intros entries Hok; [done|]. cbn [intern_move].
  destruct (ie_hash e =? 0); [by apply IH|].
  pose proof (insert_ok entries (ie_hash e) (ie_offset e) (ie_length e) Hok) as Hi.
  destruct (string_intern_insert _ _ _ _) as [[entries'|]|]; [|done|by apply Hi; destruct e].
  destruct Hi as [H1 H2]; [by destruct e|]. rewrite <- H2. by apply IH.
Qed.

Lemma free_entries_ok n : Forall (entry_ok text) (replicate n free_entry).
Proof. apply Forall_replicate. by left. Qed.

End Entries.

Lemma intern_capacity_size fuel : forall k requested c, 0 <= k ->
  intern_capacity fuel (2 ^ k) requested = Some c -> requested <= c /\ exists j, k <= j /\ c = 2 ^ j.
Proof.
  induction fuel as [|fuel IH]; intros k requested c Hk; cbn [intern_capacity];
    (destruct (Z.ltb_spec (2 ^ k) requested); [|intros [= <-]; split; [done|by exists k]]).
  - by destruct (_ <? _).
  - destruct (_ <? _); [done|]. replace (2 ^ k * 2) with (2 ^ (k + 1)) by (rewrite Z.pow_add_r; lia).
    intros E. apply IH in E as (Hr & j & Hj & ->); [|lia]. split; [done|]. exists j. lia.
Qed.

(** ** Lookups are sound *)

Lemma cstr_app_any l rest : cstr (l ++ 0 :: rest) = cstr l.
Proof. induction l as [|b l IH]; cbn; [done|]. destruct (b =? 0); [done|by rewrite IH]. Qed.

Lemma cstr_nul_free l : nul_free (cstr l).
Proof. induction l as [|b l IH]; cbn; [constructor|]. destruct (Z.eqb_spec b 0); [constructor|by constructor]. Qed.

Lemma read_block_split text off n c : read_block text off n = Some c ->
  exists pre post, text = pre ++ c ++ post /\ off = zlen pre /\ n = zlen c.
Proof.
  unfold read_block. destruct (_ && _) eqn:E; [|done]. intros [= <-].
  exists (ztake off text), (zdrop n (zdrop off text)). split; [|split].
  - unfold Program.slice, ztake, zdrop. by rewrite !take_drop.
  - rewrite zlen_ztake; lia.
  - symmetry. apply zlen_ztake. rewrite zlen_zdrop; lia.
Qed.

(** What an index lookup returns starts a text of the arena, and reading there
    gives the text asked for (up to its first NUL). *)
Lemma probe_sound texts entries input hash fuel : Forall nul_free texts -> entries_ok (flat texts) entries ->
  forall slot, 0 <= slot < zlen entries ->
  match index_probe fuel (flat texts) entries input hash slot with
  | Some (Some off) => cstr input ∈ texts /\ text_at (flat texts) off (cstr input)
  | Some None => True
  | None => False
  end.
Proof.
  intros Hf Hok. induction fuel as [|fuel IH]; intros slot Hs; [done|]. cbn [index_probe].
  destruct (zget_is_Some entries slot Hs) as [e He]. rewrite He. destruct (Z.eqb_spec (ie_hash e) 0) as [|Hh]; [done|].
  assert (Hnext : 0 <= Z.land (slot + 1) (zlen entries - 1) < zlen entries) by (apply table_slot; [apply Hok|lia]).
  destruct (_ && _) eqn:Em; [|by apply IH].
  apply andb_true_iff in Em as [_ El%Z.eqb_eq].
  assert (Hent : entry_ok (flat texts) e).
  { destruct Hok as [Hall _]. rewrite Forall_forall in Hall. apply Hall. rewrite zget_lookup in He by lia. by eapply list_elem_of_lookup_2. }
  destruct Hent as [|(H1 & H2 & H3 & H4)]; [done|]. rewrite El in *.
  pose proof (zget_Some_bounds _ _ _ H3) as Hb.
  destruct (read_block (flat texts) (ie_offset e) (zlen input)) as [found|] eqn:Er.
  2: { unfold read_block in Er. destruct (_ && _) eqn:E; [done|]. lia. }
  case_bool_decide as Efound; [|by apply IH]. subst found.
  destruct (start_text texts (ie_offset e) Hf) as (c & Hc & Hat); [lia|done|].
  assert (c = cstr input) as ->; [|done].
  pose proof (text_at_reads _ _ _ Hat) as Hrd. apply read_block_split in Er as (pre & post & E & Eo & _).
  rewrite E, Eo in H3. rewrite zget_lookup in H3 by (pose proof (zlen_nonneg pre); pose proof (zlen_nonneg input); lia).
  rewrite lookup_app_r, lookup_app_r in H3 by (unfold zlen; lia).
  replace (_ - _ - _)%nat with 0%nat in H3 by (unfold zlen; lia). destruct post as [|b post]; [done|]. injection H3 as ->.
  unfold cstring_at in Hrd. destruct (_ <? _); [done|]. rewrite E, Eo, zdrop_app in Hrd. destruct (existsb _ _); [|done].
  injection Hrd as <-. by rewrite cstr_app_any.
Qed.

Lemma index_sound a texts input : Forall nul_free texts -> sa_text a = flat texts -> index_ok a ->
  match lookup_string_in_index a input with
  | Some (Some off) => cstr input ∈ texts /\ text_at (flat texts) off (cstr input)
  | Some None => True
  | None => False
  end.
Proof.
  intros Hf Ht Hok. unfold lookup_string_in_index. destruct (si_complete a) eqn:Ec; cbn [negb orb]; [|done].
  destruct (Z.eqb_spec (zlen (si_entries a)) 0) as [|Hn]; [done|]. destruct Hok as [Hs Hok]. specialize (Hok Ec). rewrite Ht in *.
  apply probe_sound; [done|by split|]. by apply table_slot.
Qed.

(** ** Keeping the index *)

(** An entry for bytes written at the end of an arena of texts. *)
Lemma block_entry_ok texts hash c rest :
  entry_ok (flat texts ++ c ++ 0 :: rest) (mk_intern hash (zlen (flat texts)) (zlen c)).
Proof.
  right. cbn. pose proof (zlen_nonneg (flat texts)). pose proof (zlen_nonneg c). split_and!; [done|done| |].
  - rewrite zget_lookup by lia. rewrite app_assoc, lookup_app_r by (rewrite length_app; unfold zlen; lia).
    rewrite length_app. by replace (_ - _)%nat with 0%nat by (unfold zlen; lia).
  - destruct texts as [|c0 l] using rev_ind; [by left|]. right. rewrite flat_snoc_zlen, flat_app, flat_cons.
    pose proof (zlen_nonneg (flat l)). pose proof (zlen_nonneg c0). rewrite zget_lookup by lia.
    rewrite <- !app_assoc. rewrite lookup_app_r, lookup_app_r by (unfold zlen; lia).
    by replace (_ - _ - _)%nat with 0%nat by (unfold zlen; lia).
Qed.

Lemma text_entry_ok text off c hash : text_at text off c -> entry_ok text (mk_intern hash off (zlen c)).
Proof. intros (pre & post & _ & -> & ->). rewrite flat_app, flat_cons. apply block_entry_ok. Qed.

Section Host.

Context `{Host}.

Lemma resize_ok s requested : Forall (entry_ok (sa_text (strings s))) (si_entries (strings s)) ->
  match string_intern_resize requested s with
  | Ok _ s' => only_index s s' /\ si_count (strings s') = si_count (strings s) /\ si_complete (strings s') = si_complete (strings s) /\
      entries_ok (sa_text (strings s)) (si_entries (strings s')) /\ requested <= zlen (si_entries (strings s')) /\ 0 < zlen (si_entries (strings s'))
  | Err s' => only_index s s'
  | Undef => False
  end.
Proof.
  intros Hold. unfold string_intern_resize. change 1024 with (2 ^ 10).
  destruct (intern_capacity 64 (2 ^ 10) requested) as [c|] eqn:Ec; [|apply only_index_refl].
  apply intern_capacity_size in Ec as (Hr & j & Hj & ->); [|lia].
  unfold bind at 1, alloc. destruct (host_alloc _ _); cbn [negb]; [|apply only_index_tick].
  unfold bind at 1, get. cbn [strings set_tick]. set (s1 := set_tick _ s).
  assert (Hz : zlen (replicate (Z.to_nat (2 ^ j)) free_entry) = 2 ^ j) by (unfold zlen; rewrite length_replicate; lia).
  pose proof (move_ok (sa_text (strings s)) _ Hold (replicate (Z.to_nat (2 ^ j)) free_entry)) as Hm.
  unfold or_fail, bind at 1 2. destruct (intern_move _ _) as [[entries|]|]; cbn [check ret].
  - destruct Hm as [H1 H2]; [split; [apply free_entries_ok|right; exists j; lia]|].
    cbn. rewrite Hz in H2. split; [|rewrite H2; split_and!; try done; lia].
    apply (only_index_intro s entries (si_count (strings s)) (si_complete (strings s)) (S (tick s))); [intros _; apply H1|index_moved].
  - apply only_index_tick.
  - apply Hm. split; [apply free_entries_ok|right; exists j; lia].
Qed.

Definition indexed_ok (s s' : AivmVm) : Prop := only_index s s' /\ index_ok (strings s').

Lemma give_up_ok s0 s : table_size (zlen (si_entries (strings s0))) -> only_index s0 s -> match give_up_index s with Ok _ s' => indexed_ok s0 s' | _ => False end.
Proof.
  intros Hs Ho. cbn. pose proof (only_index_size _ _ Ho Hs). split; [|by split]. eapply only_index_trans; [exact Ho|].
  apply (only_index_intro s (si_entries (strings s)) (si_count (strings s)) false (tick s)); [done|index_moved].
Qed.

Lemma or_give_up s0 s m : table_size (zlen (si_entries (strings s0))) ->
  match m s with Ok _ s' => indexed_ok s0 s' | Err s' => only_index s0 s' | Undef => False end ->
  match or_else m give_up_index s with Ok _ s' => indexed_ok s0 s' | _ => False end.
Proof. intros Hs Hm. unfold or_else. destruct (m s); [done|by apply give_up_ok|done]. Qed.

Lemma count_texts_total text : forall fuel off count, zlen text - off <= Z.of_nat fuel -> 0 <= off -> count_texts fuel text off count <> None.
Proof.
  induction fuel as [|fuel IH]; intros off count Hf Ho; cbn [count_texts]; (destruct (Z.leb_spec (zlen text) off); [done|]); [lia|].
  destruct (cstring_at text off) as [c|]; [|done]. pose proof (zlen_nonneg c). apply IH; lia.
Qed.

(** Entering all the texts. *)
Lemma index_texts_ok post : forall fuel pre entries count, Forall nul_free (pre ++ post) -> (length post <= fuel)%nat ->
  entries_ok (flat (pre ++ post)) entries ->
  match index_texts fuel (flat (pre ++ post)) entries (zlen (flat pre)) count with
  | Some (_, entries', _) => entries_ok (flat (pre ++ post)) entries'
  | None => False
  end.
Proof.
  induction post as [|c post IH]; intros fuel pre entries count Hf Hfuel Hok.
  { rewrite app_nil_r in *. destruct fuel; cbn [index_texts]; by rewrite Z.leb_refl. }
  destruct fuel as [|fuel]; [cbn in Hfuel; lia|]. cbn [index_texts].
  assert (Hat : text_at (flat (pre ++ c :: post)) (zlen (flat pre)) c) by by exists pre, post.
  pose proof (text_at_bounds _ _ _ Hat) as Hb. pose proof (zlen_nonneg c). rewrite (proj2 (Z.leb_gt _ _)) by lia.
  rewrite (text_at_reads _ _ _ Hat).
  pose proof (insert_ok (flat (pre ++ c :: post)) entries (string_hash c) (zlen (flat pre)) (zlen c) Hok) as Hi.
  destruct (string_intern_insert _ _ _ _) as [[entries'|]|].
  - destruct Hi as [Hi _]; [by apply text_entry_ok|].
    replace (pre ++ c :: post) with ((pre ++ [c]) ++ post) in * by (by rewrite <- app_assoc).
    rewrite <- flat_snoc_zlen. apply IH; [done|cbn in Hfuel; lia|done].
  - done.
  - by apply Hi, text_entry_ok.
Qed.

(** The last part of a rebuild. *)
Lemma fill_ok s s2 texts : Forall nul_free texts -> sa_text (strings s) = flat texts -> only_index s s2 ->
  entries_ok (flat texts) (si_entries (strings s2)) ->
  match (let! s' := get in
         let! filled := check (index_texts (length (flat texts)) (flat texts) (si_entries (strings s')) 0 (si_count (strings s'))) in
         let '(done, entries, count) := filled in
         do! put_strings (fun a => set_si_count count (set_si_entries entries a)) in
         if done then ret tt else fail) s2 with
  | Ok _ s' => indexed_ok s s' | Err s' => only_index s s' | Undef => False end.
Proof.
  intros Hf Ht Ho H2. unfold bind at 1, get.
  pose proof (index_texts_ok texts (length (flat texts)) [] (si_entries (strings s2)) (si_count (strings s2)) Hf (flat_length_ge texts) H2) as Hi.
  unfold bind at 1. change (zlen (flat [])) with 0 in Hi. cbn [app] in Hi.
  destruct (index_texts _ _ _ _ _) as [[[b entries] n]|]; [|done]. cbn [check ret]. unfold bind, put_strings, modify.
  assert (Ho2 : only_index s (set_strings (set_si_count n (set_si_entries entries (strings s2))) s2)).
  { eapply only_index_trans; [exact Ho|].
    apply (only_index_intro s2 entries n (si_complete (strings s2)) (tick s2)); [intros _; apply Hi|index_moved]. }
  destruct b; [|done]. split; [done|]. split; [apply Hi|]. intros _. cbn. destruct (only_index_text _ _ Ho) as (E & _).
  rewrite E, Ht. apply Hi.
Qed.

Lemma rebuild_ok s texts : Forall nul_free texts -> sa_text (strings s) = flat texts -> table_size (zlen (si_entries (strings s))) ->
  match aivm_vm_rebuild_string_intern_index s with Ok _ s' => indexed_ok s s' | _ => False end.
Proof.
  intros Hf Ht Hsz. unfold aivm_vm_rebuild_string_intern_index, bind at 1, get. rewrite Ht.
  pose proof (count_texts_total (flat texts) (length (flat texts)) 0 0) as Hc. unfold bind at 1.
  destruct (count_texts _ _ _ _) as [[count|]|]; cbn [check ret]; [| |exfalso; apply Hc; [unfold zlen; lia|done|done]].
  2: { apply give_up_ok; [done|apply only_index_refl]. }
  unfold bind at 1, aivm_vm_reset_string_intern_index, put_strings, modify. set (s1 := set_strings _ s).
  assert (Hlen : zlen (replicate (length (si_entries (strings s))) free_entry) = zlen (si_entries (strings s))).
  { unfold zlen. by rewrite length_replicate. }
  assert (Ho : only_index s s1).
  { apply (only_index_intro s (replicate (length (si_entries (strings s))) free_entry) 0 true (tick s)); [by rewrite Hlen|index_moved]. }
  destruct (count =? 0).
  { split; [done|]. split; [cbn; by rewrite Hlen|]. intros _. apply free_entries_ok. }
  apply or_give_up; [done|]. unfold bind at 1.
  pose proof (resize_ok s1 (count * 2)) as Hr. destruct (string_intern_resize _ s1) as [[] s2|s2|].
  - destruct Hr as (H1 & _ & _ & H2 & _); [apply free_entries_ok|]. apply (fill_ok s s2 texts Hf Ht); [by eapply only_index_trans|].
    change (sa_text (strings s1)) with (sa_text (strings s)) in H2. by rewrite Ht in H2.
  - by eapply only_index_trans; [|apply Hr, free_entries_ok].
  - apply Hr, free_entries_ok.
Qed.

Lemma remember_ok s texts c rest : index_ok (strings s) ->
  sa_text (strings s) = flat texts ++ c ++ 0 :: rest ->
  match remember_string_in_index (zlen (flat texts)) c s with Ok _ s' => indexed_ok s s' | _ => False end.
Proof.
  intros [Hsz Hok] Ht. unfold remember_string_in_index, bind at 1, get.
  destruct (si_complete (strings s)) eqn:Ec; cbn [negb]; [|split; [apply only_index_refl|split; congruence]].
  specialize (Hok eq_refl). apply or_give_up; [done|].
  match goal with |- context [if ?b then string_intern_resize ?r else _] => set (grow := b); set (req := r) end.
  assert (Hg : match (if grow then string_intern_resize req else ret tt) s with
    | Ok _ s' => only_index s s' /\ entries_ok (sa_text (strings s)) (si_entries (strings s'))
    | Err s' => only_index s s' | Undef => False end).
  { destruct grow; [|split; [apply only_index_refl|by split]]. pose proof (resize_ok s req Hok) as Hr.
    destruct (string_intern_resize req s); [by destruct Hr as (? & _ & _ & ? & _)|done|done]. }
  unfold bind at 1. destruct ((if grow then string_intern_resize req else ret tt) s) as [[] s1|s1|]; [|done|done].
  destruct Hg as [Ho He]. unfold bind at 1, get.
  pose proof (insert_ok (sa_text (strings s)) (si_entries (strings s1)) (string_hash c) (zlen (flat texts)) (zlen c) He) as Hi.
  unfold bind, or_fail, bind. destruct (string_intern_insert _ _ _ _) as [[entries|]|]; cbn [check ret]; [|done|].
  - destruct Hi as [[H1 H2] _]; [rewrite Ht; apply block_entry_ok|]. cbn. split.
    + eapply only_index_trans; [exact Ho|].
      apply (only_index_intro s1 entries (si_count (strings s1) + 1) (si_complete (strings s1)) (tick s1)); [done|index_moved].
    + split; [done|]. intros _. cbn. destruct (only_index_text _ _ Ho) as (E & _). by rewrite E.
  - apply Hi. rewrite Ht. apply block_entry_ok.
Qed.

End Host.
