(* ===== verification/StringLookup.v ===== *)
(** * The intern index finds what a scan of the arena finds

    The index is a hash table with linear probing: every text of the arena has an entry
    that probing from its hash reaches.  So as long as the index is complete, looking a
    text up in it and scanning the arena text by text (the reference, and the fallback of
    the code) give the same answer. *)

From S2P Require Import Prelude Types Program Vm Memory Lifecycle Stack Roots Pairs NodeGc NodeMark Strings StringText StringIndex.

(** ** Probing *)

(** The [d]-th slot of a probe. *)
Definition slot_of (n hash d : Z) : Z := Z.land (hash + d) (n - 1).

Definition taken (entries : list AivmStringInternEntry) (slot : Z) : Prop :=
  exists e, zget entries slot = Some e /\ ie_hash e <> 0.

(** Probing for the hash of [e] reaches it. *)
Definition entry_placed (entries : list AivmStringInternEntry) (e : AivmStringInternEntry) : Prop := exists d,
  0 <= d < zlen entries /\ zget entries (slot_of (zlen entries) (ie_hash e) d) = Some e /\
  forall d', 0 <= d' < d -> taken entries (slot_of (zlen entries) (ie_hash e) d').

Lemma slot_next n hash d : table_size n -> n <> 0 -> Z.land (slot_of n hash d + 1) (n - 1) = slot_of n hash (d + 1).
Proof.
  intros [->|(k & Hk & ->)] Hn; [done|]. unfold slot_of. rewrite !land_ones_mod by done.
  rewrite Zplus_mod_idemp_l. f_equal. lia.
Qed.

(** An entry is put into the first free slot of its probe. *)
Lemma place_placed fuel e : ie_hash e <> 0 -> forall entries d entries', table_size (zlen entries) -> zlen entries <> 0 ->
  0 <= d -> Z.of_nat fuel + d <= zlen entries ->
  (forall d', 0 <= d' < d -> taken entries (slot_of (zlen entries) (ie_hash e) d')) ->
  intern_place fuel entries e (slot_of (zlen entries) (ie_hash e) d) = Some (Some entries') ->
  entry_placed entries' e /\ zlen entries' = zlen entries /\ (forall x, ie_hash x <> 0 -> entry_placed entries x -> entry_placed entries' x) /\
  (forall x, x ∈ entries' -> ie_hash x = 0 \/ x = e \/ x ∈ entries).
Proof.
  intros He. induction fuel as [|fuel IH]; intros entries d entries' Hsz Hn Hd Hf Hbefore; [done|]. cbn [intern_place].
  set (slot := slot_of (zlen entries) (ie_hash e) d).
  assert (Hs : 0 <= slot < zlen entries) by (by apply table_slot).
  destruct (zget_is_Some entries slot Hs) as [x Hx]. rewrite Hx. destruct (Z.eqb_spec (ie_hash x) 0) as [Hfree|Htaken].
  - intros [= <-]. rewrite !zlen_zset.
    assert (Hkeep : forall s, taken entries s -> taken (zset entries slot e) s).
    { intros s (y & Hy & Hh). destruct (decide (slot = s)) as [->|Hne]; [exists e; by rewrite zget_zset_eq|].
      exists y. by rewrite zget_zset_ne. }
    split_and!; [|done| |].
    + exists d. rewrite zlen_zset. split; [lia|]. split; [by apply zget_zset_eq|]. intros d' Hd'. by apply Hkeep, Hbefore.
    + intros y Hy (d0 & Hd0 & Hz & Hb). exists d0. rewrite zlen_zset. split; [done|]. split; [|intros d' Hd'; by apply Hkeep, Hb].
      rewrite zget_zset_ne; [done|]. intros E. rewrite E, Hz in Hx. congruence.
    + intros y Hy. right. rewrite (zset_split _ _ _ _ Hx) in Hy. destruct (zget_split _ _ _ Hx) as [Es _].
      apply elem_of_app in Hy as [Hy|Hy]; [right; rewrite Es; apply elem_of_app; by left|].
      apply elem_of_cons in Hy as [->|Hy]; [by left|]. right. rewrite Es. apply elem_of_app. right. by right.
  - unfold slot. rewrite slot_next by done. apply IH; [done|done|lia|lia|]. intros d' Hd'.
    destruct (decide (d' = d)) as [->|Hne]; [by exists x|]. apply Hbefore. lia.
Qed.

Lemma insert_placed entries hash off len entries' : table_size (zlen entries) -> hash <> 0 ->
  string_intern_insert entries hash off len = Some (Some entries') ->
  entry_placed entries' (mk_intern hash off len) /\ zlen entries' = zlen entries /\
  (forall x, ie_hash x <> 0 -> entry_placed entries x -> entry_placed entries' x) /\
  (forall x, x ∈ entries' -> ie_hash x = 0 \/ x = mk_intern hash off len \/ x ∈ entries).
Proof.
  intros Hsz Hh. unfold string_intern_insert. destruct (Z.eqb_spec (zlen entries) 0) as [|Hn]; [done|].
  replace (string_intern_slot hash (zlen entries)) with (slot_of (zlen entries) (ie_hash (mk_intern hash off len)) 0)
    by (unfold slot_of, string_intern_slot; cbn; f_equal; lia).
  apply place_placed; [done|done|done|done|unfold zlen; lia|]. intros d' Hd'. lia.
Qed.

Lemma zget_elem {A} (l : list A) i x : zget l i = Some x -> x ∈ l.
Proof. intros Hz. pose proof (zget_Some_bounds _ _ _ Hz). rewrite zget_lookup in Hz by lia. by eapply list_elem_of_lookup_2. Qed.

Lemma zget_app_some {A} (l k : list A) i x : zget l i = Some x -> zget (l ++ k) i = Some x.
Proof. intros Hz. pose proof (zget_Some_bounds _ _ _ Hz). rewrite zget_lookup in * by lia. by apply lookup_app_l_Some. Qed.

Lemma placed_elem entries e : entry_placed entries e -> e ∈ entries.
Proof. intros (d & _ & Hz & _). by eapply zget_elem. Qed.

(** Every occupied entry of the old table is in the new one. *)
Lemma move_placed old : forall entries entries', table_size (zlen entries) -> intern_move old entries = Some (Some entries') ->
  zlen entries' = zlen entries /\ (forall x, ie_hash x <> 0 -> x ∈ old -> entry_placed entries' x) /\
  (forall x, ie_hash x <> 0 -> entry_placed entries x -> entry_placed entries' x).
Proof.
  induction old as [|e old IH]; intros entries entries' Hsz; cbn [intern_move].
  { intros [= <-]. split; [done|]. split; [|done]. intros x _ Hx. by apply not_elem_of_nil in Hx. }
  destruct (Z.eqb_spec (ie_hash e) 0) as [Hfree|Hocc].
  - intros Hm. destruct (IH _ _ Hsz Hm) as (Hl & Hin & Hk). split_and!; try done. intros x Hx Hel.
    apply elem_of_cons in Hel as [->|Hel]; [done|by apply Hin].
  - destruct (string_intern_insert entries _ _ _) as [[e1|]|] eqn:Ei; [|done|done]. intros Hm.
    apply insert_placed in Ei as (P1 & P2 & P3 & _); [|done|done]. rewrite <- P2 in Hsz. destruct (IH _ _ Hsz Hm) as (Hl & Hin & Hk).
    split; [congruence|]. split.
    + intros x Hx Hel. apply elem_of_cons in Hel as [->|Hel]; [|by apply Hin]. apply Hk; [done|]. by destruct e.
    + intros x Hx Hp. by apply Hk, P3.
Qed.

(** ** Lookups are complete *)

Lemma hash_nonzero input : string_hash input <> 0.
Proof. unfold string_hash. destruct (Z.eqb_spec (fold_left (fun hash b : Z => u64 (Z.lxor hash b * 1099511628211)) input 1469598103934665603) 0); lia. Qed.

Lemma probe_finds texts entries input off d : Forall nul_free texts -> entries_ok (flat texts) entries ->
  zget entries (slot_of (zlen entries) (string_hash input) d) = Some (mk_intern (string_hash input) off (zlen input)) ->
  read_block (flat texts) off (zlen input) = Some input -> 0 <= d < zlen entries ->
  (forall d', 0 <= d' < d -> taken entries (slot_of (zlen entries) (string_hash input) d')) ->
  forall fuel d0, 0 <= d0 <= d -> d < d0 + Z.of_nat fuel ->
  exists off', index_probe fuel (flat texts) entries input (string_hash input) (slot_of (zlen entries) (string_hash input) d0) = Some (Some off').
Proof.
  intros Hf Hok Hz Hread Hd Hbefore. induction fuel as [|fuel IH]; intros d0 Hd0 Hfuel; [lia|]. cbn [index_probe].
  assert (Hn : zlen entries <> 0) by lia. destruct Hok as [Hall Hsz]. destruct (decide (d0 = d)) as [->|Hne].
  - rewrite Hz. cbn [ie_hash ie_length ie_offset]. rewrite !Z.eqb_refl, Hread. pose proof (hash_nonzero input).
    destruct (Z.eqb_spec (string_hash input) 0); [done|]. cbn [andb]. rewrite bool_decide_eq_true_2 by done. by eexists.
  - destruct (Hbefore d0) as (e & He & Hh); [lia|]. rewrite He. destruct (Z.eqb_spec (ie_hash e) 0); [done|]. rewrite slot_next by done.
    destruct (IH (d0 + 1)) as [off' Hoff]; [lia|lia|]. destruct (_ && _) eqn:Em; [|by eexists].
    apply andb_true_iff in Em as [_ El%Z.eqb_eq]. rewrite Forall_forall in Hall.
    pose proof (zget_elem _ _ _ He) as Hent.
    destruct (Hall e Hent) as [|(H1 & H2 & H3 & _)]; [done|].
    apply zget_Some_bounds in H3. destruct (read_block (flat texts) (ie_offset e) (zlen input)) as [found|] eqn:Er.
    2: { unfold read_block in Er. destruct (_ && _) eqn:E; [done|]. lia. }
    case_bool_decide; by eexists.
Qed.

(** A text of an arena starts at one place, if no text is there twice. *)
Lemma text_at_unique texts off off' c : Forall nul_free texts -> NoDup texts ->
  text_at (flat texts) off c -> text_at (flat texts) off' c -> off = off'.
Proof.
  intros Hf Hnd (pre & post & Hp & E & ->) (pre' & post' & Hp' & E' & ->).
  apply flat_inj in E; [|done|done]. apply flat_inj in E'; [|done|done]. subst texts.
  assert (Hlen : length pre = length pre'); [|by apply app_inj_1 in E' as [-> _]].
  eapply NoDup_lookup; [exact Hnd|by apply list_lookup_middle|]. rewrite E'. by apply list_lookup_middle.
Qed.

Lemma text_at_block texts off c : Forall nul_free texts -> text_at (flat texts) off c -> read_block (flat texts) off (zlen c) = Some c.
Proof.
  intros Hf Hat. pose proof (text_at_bounds _ _ _ Hat). destruct Hat as (pre & post & _ & E & ->). pose proof (zlen_nonneg c).
  unfold read_block. replace (_ && _) with true by lia. f_equal. rewrite E, flat_app, flat_cons. unfold Program.slice.
  rewrite zdrop_app. unfold ztake, zlen. rewrite Nat2Z.id. by rewrite take_app_length.
Qed.

(** The arena holds each text once, and a complete index has them all. *)
Record index_exact (texts : list (list Z)) (a : StringArena) : Prop := {
  ix_text : sa_text a = flat texts;
  ix_free : Forall nul_free texts;
  ix_once : NoDup texts;
  ix_ok : index_ok a;
  ix_placed : si_complete a = true -> forall off c, text_at (flat texts) off c ->
    entry_placed (si_entries a) (mk_intern (string_hash c) off (zlen c)) }.

Lemma exact_lookup texts a input : index_exact texts a -> nul_free input -> si_complete a = true ->
  lookup_string_in_index a input = scan_text input (sa_text a).
Proof.
  intros [Ht Hf Hnd Hok Hp] Hin Hc. specialize (Hp Hc). pose proof (index_sound a texts input Hf Ht Hok) as Hs. rewrite Ht.
  destruct (scan_text_found texts input Hf) as [(off & -> & Hat)|[-> Hni]].
  - pose proof (Hp _ _ Hat) as (d & Hd & Hz & Hb). pose proof (text_at_block _ _ _ Hf Hat) as Hr. destruct Hok as [Hsz Hok].
    specialize (Hok Hc). rewrite Ht in Hok.
    destruct (probe_finds texts (si_entries a) input off d Hf (conj Hok Hsz) Hz Hr Hd Hb (length (si_entries a)) 0) as [off' Ho];
      [lia|unfold zlen in Hd; lia|].
    assert (E : lookup_string_in_index a input = Some (Some off')).
    { rewrite <- Ho. unfold lookup_string_in_index. rewrite Hc. cbn [negb orb]. rewrite (proj2 (Z.eqb_neq _ _)) by lia.
      rewrite Ht. f_equal. unfold slot_of, string_intern_slot. f_equal. lia. }
    rewrite E in *. rewrite cstr_idem in Hs by done. destruct Hs as [_ Hs]. f_equal. f_equal. symmetry. by apply (text_at_unique texts _ _ input).
  - destruct (lookup_string_in_index a input) as [[off|]|]; [|done|done]. rewrite cstr_idem in Hs by done. by destruct Hs.
Qed.

(** ** The index is kept *)

Definition all_placed (texts : list (list Z)) (entries : list AivmStringInternEntry) : Prop := forall pre c post,
  texts = pre ++ c :: post -> entry_placed entries (mk_intern (string_hash c) (zlen (flat pre)) (zlen c)).

Lemma all_placed_at texts entries off c : Forall nul_free texts -> all_placed texts entries -> text_at (flat texts) off c ->
  entry_placed entries (mk_intern (string_hash c) off (zlen c)).
Proof. intros Hf Ha (pre & post & Hp & E & ->). apply flat_inj in E; [|done|done]. by eapply Ha. Qed.

Lemma all_placed_snoc texts c entries entries' : table_size (zlen entries) -> all_placed texts entries ->
  string_intern_insert entries (string_hash c) (zlen (flat texts)) (zlen c) = Some (Some entries') ->
  all_placed (texts ++ [c]) entries' /\ zlen entries' = zlen entries.
Proof.
  intros Hsz Ha Hi. apply insert_placed in Hi as (P1 & P2 & P3 & _); [|done|apply hash_nonzero]. split; [|done].
  intros pre x post E. destruct post as [|y post _] using rev_ind.
  - apply app_inj_tail in E as [-> ->]. done.
  - rewrite app_comm_cons, app_assoc in E. apply app_inj_tail in E as [-> ->]. apply P3; [apply hash_nonzero|]. by eapply Ha.
Qed.

Lemma count_texts_flat post : forall fuel pre count, Forall nul_free (pre ++ post) -> (length post <= fuel)%nat ->
  count_texts fuel (flat (pre ++ post)) (zlen (flat pre)) count = Some (Some (count + zlen post)).
Proof.
  induction post as [|c post IH]; intros fuel pre count Hf Hfuel.
  { rewrite app_nil_r, Z.add_0_r. destruct fuel; cbn [count_texts]; by rewrite Z.leb_refl. }
  destruct fuel as [|fuel]; [cbn in Hfuel; lia|]. cbn [count_texts].
  assert (Hat : text_at (flat (pre ++ c :: post)) (zlen (flat pre)) c) by by exists pre, post.
  pose proof (text_at_bounds _ _ _ Hat) as Hb. pose proof (zlen_nonneg c). rewrite (proj2 (Z.leb_gt _ _)) by lia.
  rewrite (text_at_reads _ _ _ Hat). replace (pre ++ c :: post) with ((pre ++ [c]) ++ post) in * by (by rewrite <- app_assoc).
  rewrite <- flat_snoc_zlen, IH by (done || cbn in Hfuel; lia). rewrite zlen_cons. do 2 f_equal. lia.
Qed.

Lemma index_texts_placed post : forall fuel pre entries count entries' n, Forall nul_free (pre ++ post) ->
  table_size (zlen entries) -> all_placed pre entries ->
  index_texts fuel (flat (pre ++ post)) entries (zlen (flat pre)) count = Some (true, entries', n) ->
  all_placed (pre ++ post) entries'.
Proof.
  induction post as [|c post IH]; intros fuel pre entries count entries' n Hf Hsz Ha.
  { rewrite app_nil_r in *. destruct fuel; cbn [index_texts]; rewrite Z.leb_refl; by intros [= <- _]. }
  assert (Hat : text_at (flat (pre ++ c :: post)) (zlen (flat pre)) c) by by exists pre, post.
  pose proof (text_at_bounds _ _ _ Hat) as Hb. pose proof (zlen_nonneg c).
  destruct fuel as [|fuel]; cbn [index_texts]; rewrite (proj2 (Z.leb_gt _ _)) by lia; [done|]. rewrite (text_at_reads _ _ _ Hat).
  destruct (string_intern_insert _ _ _ _) as [[e1|]|] eqn:Ei; [|done|done].
  destruct (all_placed_snoc _ _ _ _ Hsz Ha Ei) as [Ha1 Hz1].
  replace (pre ++ c :: post) with ((pre ++ [c]) ++ post) in * by (by rewrite <- app_assoc).
  rewrite <- flat_snoc_zlen. apply IH; [done|by rewrite Hz1|done].
Qed.

Section Host.

Context `{Host}.

(** A larger table has every entry of the old one. *)
Lemma resize_placed requested s s' texts : string_intern_resize requested s = Ok tt s' ->
  table_size (zlen (si_entries (strings s'))) /\ si_complete (strings s') = si_complete (strings s) /\
  (all_placed texts (si_entries (strings s)) -> all_placed texts (si_entries (strings s'))).
Proof.
  unfold string_intern_resize. change 1024 with (2 ^ 10). destruct (intern_capacity 64 (2 ^ 10) requested) as [c|] eqn:Ec; [|done].
  apply intern_capacity_size in Ec as (_ & j & Hj & ->); [|lia]. unfold bind at 1, alloc.
  destruct (host_alloc _ _); cbn [negb]; [|done]. unfold bind at 1, get. cbn [strings set_tick].
  unfold or_fail, bind at 1 2. destruct (intern_move _ _) as [[entries|]|] eqn:Em; cbn [check ret]; [|done|done]. intros [= <-]. cbn.
  assert (Hz : zlen (replicate (Z.to_nat (2 ^ j)) free_entry) = 2 ^ j) by (unfold zlen; rewrite length_replicate; lia).
  apply move_placed in Em as (Hl & Hin & _); [|rewrite Hz; right; exists j; lia]. rewrite Hl, Hz.
  split; [right; exists j; lia|]. split; [done|]. intros Ha pre c post E. apply Hin; [apply hash_nonzero|]. by eapply placed_elem, Ha.
Qed.

Lemma rebuild_placed s s' texts : Forall nul_free texts -> sa_text (strings s) = flat texts ->
  aivm_vm_rebuild_string_intern_index s = Ok tt s' -> si_complete (strings s') = true -> all_placed texts (si_entries (strings s')).
Proof.
  intros Hf Ht. unfold aivm_vm_rebuild_string_intern_index, bind at 1, get. rewrite Ht.
  pose proof (count_texts_flat texts (length (flat texts)) [] 0 Hf (flat_length_ge texts)) as Hc. cbn [app] in Hc.
  change (zlen (flat [])) with 0 in Hc. rewrite Hc. unfold bind at 1. cbn [check ret].
  unfold bind at 1, aivm_vm_reset_string_intern_index, put_strings, modify. set (s1 := set_strings _ s).
  destruct (Z.eqb_spec (0 + zlen texts) 0) as [E|_].
  { intros _ _. destruct texts; [by intros [] ? ?|]. rewrite zlen_cons in E. pose proof (zlen_nonneg texts). lia. }
  unfold or_else, bind at 1. destruct (string_intern_resize _ s1) as [[] s2|s2|] eqn:Er; [|intros [= <-]; done|done].
  apply (resize_placed _ _ _ []) in Er as (Hsz & _ & Ha). unfold bind at 1, get, bind at 1.
  destruct (index_texts _ _ _ _ _) as [[[b entries] n]|] eqn:Ei; cbn [check ret]; [|done].
  unfold bind, put_strings, modify. destruct b; [|intros [= <-]; done]. intros [= <-] _. cbn.
  assert (H0 : all_placed [] (si_entries (strings s2))) by by intros [] ? ?.
  exact (index_texts_placed texts _ [] _ _ _ _ Hf Hsz H0 Ei).
Qed.

Lemma remember_placed s s' texts c : sa_text (strings s) = flat (texts ++ [c]) -> index_ok (strings s) ->
  (si_complete (strings s) = true -> all_placed texts (si_entries (strings s))) ->
  remember_string_in_index (zlen (flat texts)) c s = Ok tt s' -> si_complete (strings s') = true ->
  all_placed (texts ++ [c]) (si_entries (strings s')).
Proof.
  intros Ht [Hsz _] Ha. unfold remember_string_in_index, bind at 1, get.
  destruct (si_complete (strings s)) eqn:Ec; cbn [negb]; [|intros [= <-]; congruence]. specialize (Ha eq_refl).
  match goal with |- context [if ?b then string_intern_resize ?r else _] => set (grow := b); set (req := r) end.
  unfold or_else, bind at 1. destruct ((if grow then string_intern_resize req else ret tt) s) as [[] s1|s1|] eqn:Eg; [|intros [= <-]; done|done].
  assert (Hg : table_size (zlen (si_entries (strings s1))) /\ all_placed texts (si_entries (strings s1))).
  { destruct grow; [|by injection Eg as <-]. apply (resize_placed _ _ _ texts) in Eg as (? & _ & Hk). auto. }
  destruct Hg as [Hs1 Ha1]. unfold bind at 1, get, bind, or_fail, bind.
  destruct (string_intern_insert _ _ _ _) as [[entries|]|] eqn:Ei; cbn [check ret]; [|intros [= <-]; done|done].
  intros [= <-] _. cbn. by apply (all_placed_snoc _ _ _ _ Hs1 Ha1 Ei).
Qed.

(** ** Entering texts *)

(** For the statements below, not a function of the source: the steps that a copy of a text
    comes down to when there is room at the end of the arena. *)
Definition enter_text (c : list Z) : M unit :=
  let! found := lookup_string_range_in_arena c in
  match found with
  | Some _ => ret tt
  | None =>
      let! s := get in
      do! put_strings (set_sa_text (sa_text (strings s) ++ c ++ [0])) in
      remember_string_in_index (zlen (sa_text (strings s))) c
  end.

Fixpoint enter_texts (cs : list (list Z)) : M unit :=
  match cs with [] => ret tt | c :: rest => do! enter_text c in enter_texts rest end.

Lemma exact_intro s s' texts : Forall nul_free texts -> NoDup texts -> sa_text (strings s) = flat texts -> indexed_ok s s' ->
  (si_complete (strings s') = true -> all_placed texts (si_entries (strings s'))) -> index_exact texts (strings s').
Proof.
  intros Hf Hnd Ht [Ho Hok] Hp. destruct (only_index_text _ _ Ho) as [E _]. split; try done; [congruence|].
  intros Hc off c. by apply all_placed_at, Hp.
Qed.

Lemma rebuild_exact s texts : Forall nul_free texts -> NoDup texts -> sa_text (strings s) = flat texts ->
  table_size (zlen (si_entries (strings s))) ->
  exists s', aivm_vm_rebuild_string_intern_index s = Ok tt s' /\ index_exact texts (strings s').
Proof.
  intros Hf Hnd Ht Hsz. pose proof (rebuild_ok s texts Hf Ht Hsz) as Hr.
  destruct (aivm_vm_rebuild_string_intern_index s) as [[] s'|s'|] eqn:E; [|done|done]. exists s'. split; [done|].
  eapply exact_intro; try done. intros Hc. by apply (rebuild_placed s).
Qed.

Lemma exact_lookup_range s texts c : index_exact texts (strings s) -> nul_free c ->
  exists found, scan_text c (sa_text (strings s)) = Some found /\
    lookup_string_range_in_arena c s = Ok (SArena (sa_gen (strings s)) <$> found) s.
Proof.
  intros Hx Hc. unfold lookup_string_range_in_arena, bind at 1, get.
  assert (Hs : exists found, scan_text c (sa_text (strings s)) = Some found).
  { rewrite (ix_text _ _ Hx). destruct (scan_text_found texts c (ix_free _ _ Hx)) as [(off & -> & _)|[-> _]]; by eexists. }
  destruct Hs as [found Hs]. exists found. split; [done|]. destruct (si_complete (strings s)) eqn:Ec.
  - rewrite (exact_lookup texts) by done. rewrite Hs. unfold bind at 1. cbn [check ret]. by destruct found.
  - replace (lookup_string_in_index (strings s) c) with (Some (@None Z)) by (unfold lookup_string_in_index; by rewrite Ec).
    unfold bind at 1. cbn [check ret]. rewrite Hs. by destruct found.
Qed.

Lemma append_exact s texts c : index_exact texts (strings s) -> nul_free c -> c ∉ texts ->
  exists s', remember_string_in_index (zlen (flat texts)) c (set_strings (set_sa_text (flat texts ++ c ++ [0]) (strings s)) s) = Ok tt s' /\
    index_exact (texts ++ [c]) (strings s').
Proof.
  intros [Ht Hf Hnd Hok Hp] Hc Hni. set (s1 := set_strings _ s).
  assert (Ht1 : sa_text (strings s1) = flat (texts ++ [c])) by (unfold s1; cbn; by rewrite flat_app, flat_cons).
  assert (Hf1 : Forall nul_free (texts ++ [c])) by (apply Forall_app; split; [done|by constructor]).
  assert (Hok1 : index_ok (strings s1)).
  { destruct Hok as [Hsz Hall]. split; [done|]. intros Ec. specialize (Hall Ec). eapply Forall_impl; [exact Hall|].
    intros e [He|(H1 & H2 & H3 & H4)]; [by left|right]. rewrite Ht1, flat_app, <- Ht.
    split_and!; [done|done|by apply zget_app_some|destruct H4; [by left|right; by apply zget_app_some]]. }
  pose proof (remember_ok s1 texts c [] Hok1 eq_refl) as Hr.
  destruct (remember_string_in_index _ c s1) as [[] s'|s'|] eqn:E; [|done|done]. exists s'. split; [done|].
  eapply exact_intro; try done; [|intros Hc'; apply (remember_placed s1); try done].
  - apply NoDup_app. split_and!; [done| |apply NoDup_singleton]. intros x Hx ->%list_elem_of_singleton. done.
  - intros Ec pre x post Ex. apply Hp; [done|]. exists pre, post. by rewrite <- Ex.
Qed.

Lemma enter_text_exact s texts c : index_exact texts (strings s) -> nul_free c ->
  exists s', enter_text c s = Ok tt s' /\ index_exact (if decide (c ∈ texts) then texts else texts ++ [c]) (strings s').
Proof.
  intros Hx Hc. unfold enter_text. destruct (exact_lookup_range s texts c Hx Hc) as (found & Hs & Hl). unfold bind at 1. rewrite Hl.
  rewrite (ix_text _ _ Hx) in Hs.
  destruct (scan_text_found texts c (ix_free _ _ Hx)) as [(off & E & Hat)|[E Hni]]; rewrite E in Hs; injection Hs as <-; cbn [fmap option_fmap option_map].
  - exists s. split; [done|]. rewrite decide_True; [done|]. by eapply text_at_elem; [apply Hx|].
  - rewrite decide_False by done. destruct (append_exact s texts c Hx Hc Hni) as (s' & E1 & Hx').
    exists s'. split; [|done]. unfold bind, get, put_strings, modify. by rewrite (ix_text _ _ Hx).
Qed.

Lemma enter_texts_exact cs : Forall nul_free cs -> forall s texts, index_exact texts (strings s) ->
  exists s' texts', enter_texts cs s = Ok tt s' /\ index_exact texts' (strings s') /\
    forall c, c ∈ texts' <-> c ∈ texts \/ c ∈ cs.
Proof.
  induction 1 as [|c cs Hc _ IH]; intros s texts Hx.
  { exists s, texts. split_and!; [done|done|]. intros c. rewrite elem_of_nil. tauto. }
  destruct (enter_text_exact s texts c Hx Hc) as (s1 & E1 & Hx1). destruct (IH _ _ Hx1) as (s2 & texts2 & E2 & Hx2 & Hin).
  exists s2, texts2. split_and!; [|done|].
  - cbn [enter_texts]. unfold bind. by rewrite E1.
  - intros x. rewrite Hin. destruct (decide (c ∈ texts)).
    + rewrite elem_of_cons. split; [tauto|]. intros [?|[->|?]]; tauto.
    + rewrite elem_of_app, list_elem_of_singleton, elem_of_cons. tauto.
Qed.

End Host.

(** ** Equivalence *)

(** C11: the intern index of the string arena is an exact stand-in for scanning the
    arena.  After a rebuild of the index and any number of texts entered the way the copies
    enter them (looked up first, appended and remembered when absent, the table grown as it
    fills), every call succeeds, the arena holds each text once, the lookup of the code
    ([lookup_string_range_in_arena]) answers what walking the arena text by text answers,
    and so does the hash table alone as long as it has not been given up. *)
Theorem indexed_lookup_is_scan `{Host} s texts cs input :
  Forall nul_free texts -> NoDup texts -> sa_text (strings s) = flat texts ->
  table_size (zlen (si_entries (strings s))) -> Forall nul_free cs -> nul_free input ->
  exists s' texts' found,
    (do! aivm_vm_rebuild_string_intern_index in enter_texts cs) s = Ok tt s' /\
    sa_text (strings s') = flat texts' /\ NoDup texts' /\ (forall c, c ∈ texts' <-> c ∈ texts \/ c ∈ cs) /\
    scan_text input (sa_text (strings s')) = Some found /\
    (is_Some found <-> input ∈ texts \/ input ∈ cs) /\
    lookup_string_range_in_arena input s' = Ok (SArena (sa_gen (strings s')) <$> found) s' /\
    (si_complete (strings s') = true -> lookup_string_in_index (strings s') input = Some found).
Proof.
  intros Hf Hnd Ht Hsz Hcs Hin. destruct (rebuild_exact s texts Hf Hnd Ht Hsz) as (s1 & E1 & Hx1).
  destruct (enter_texts_exact cs Hcs s1 texts Hx1) as (s' & texts' & E2 & Hx & Hel).
  destruct (exact_lookup_range s' texts' input Hx Hin) as (found & Hs & Hl). exists s', texts', found.
  unfold bind at 1. rewrite E1. split_and!; try done; [apply Hx|apply Hx| |].
  - rewrite <- Hel. rewrite (ix_text _ _ Hx) in Hs.
    destruct (scan_text_found texts' input (ix_free _ _ Hx)) as [(off & E & Hat)|[E Hni]]; rewrite E in Hs; injection Hs as <-.
    + split; [intros _; eapply text_at_elem; [apply Hx|done]|by eexists].
    + split; [by intros [? ?]|done].
  - intros Hc. rewrite (exact_lookup texts') by done. done.
Qed.

(** ** Example *)

(** "dead" and "n" are in the arena; "hi" is entered, and entered again. *)
Definition example_arena : AivmVm :=
  set_strings (set_sa_text (flat [bytes_of_string "dead"; bytes_of_string "n"]) (strings example_vm)) example_vm.

Definition entered : res unit :=
  (do! aivm_vm_rebuild_string_intern_index (H := example_host) in
   enter_texts (H := example_host) [bytes_of_string "hi"; bytes_of_string "hi"]) example_arena.

Lemma indexed_lookup_is_scan_witness : exists s',
  entered = Ok tt s' /\ scan_text (bytes_of_string "hi") (sa_text (strings s')) = Some (Some 7) /\
  lookup_string_in_index (strings s') (bytes_of_string "hi") = Some (Some 7).
Proof.
  assert (Hrun : match entered with
    | Ok _ s' => si_complete (strings s') && bool_decide (scan_text (bytes_of_string "hi") (sa_text (strings s')) = Some (Some 7))
    | _ => false end = true) by (vm_compute; reflexivity).
  destruct (indexed_lookup_is_scan (H := example_host) example_arena [bytes_of_string "dead"; bytes_of_string "n"]
    [bytes_of_string "hi"; bytes_of_string "hi"] (bytes_of_string "hi")) as (s' & texts' & found & E & _ & _ & _ & Hs & _ & _ & Hl).
  - repeat constructor; done.
  - apply (bool_decide_unpack _); vm_compute; exact I.
  - done.
  - by left.
  - repeat constructor; done.
  - repeat constructor; done.
  - exists s'. unfold entered in *. rewrite E in Hrun. apply andb_true_iff in Hrun as [Hc Hb%bool_decide_eq_true].
    rewrite Hb in Hs. injection Hs as <-. split; [exact E|]. split; [exact Hb|]. exact (Hl Hc).
Defined.
