(* ===== verification/StringGc.v ===== *)
(** * Compaction of the string arena (src/src/aivm_vm.c)

    aivm_compact_string_arena copies each live text once to a new block and redirects
    every pointer of the roots, the live pairs and the live nodes.  What the values of
    the VM stand for, down to the bytes of their texts, does not change. *)

From S2P Require Import Prelude Types Program Vm Memory Lifecycle Stack ControlSafety Roots Pairs.
From S2P Require Import NodeGc NodeMark NodeMove NodeCompact Moves Strings StringText StringIndex.

(** ** The visitors of the string compaction *)

(** A node with its flag and its attributes. *)
Abbreviation node_entry := ((bool * AivmNodeRecord) * list AivmNodeAttr)%type.

Section Relocation.

Context (a : StringArena) (texts : list (list Z)).
Context (Hfree : Forall nul_free texts) (Htext : sa_text a = flat texts).
Context (Hfit : zlen (sa_text a) <= sa_capacity a) (Hcap : sa_capacity a <= SIZE_MAX).

Local Abbreviation copier := (copier (copies texts) extends).
Local Abbreviation ptr_ok := (ptr_ok a texts).
Local Abbreviation moved_ptr := (moved_ptr a texts).

Definition value_ptr_ok (v : AivmValue) : Prop := match v with VString p => ptr_ok p | _ => True end.
Definition moved_value (t : list Z) (v v' : AivmValue) : Prop :=
  match v with VString p => exists p', v' = VString p' /\ moved_ptr t p p' | _ => v' = v end.

Lemma copier_ptr : copier (compact_relocate_string_ptr a) ptr_ok moved_ptr.
Proof.
  split; [intros; by eapply moved_ptr_mono|]. intros t p Hp Ht. by apply relocate_ptr_spec.
Qed.

Lemma copier_value : copier (compact_relocate_value_string a) value_ptr_ok moved_value.
Proof.
  destruct copier_ptr as [Hm Hp]. split.
  - intros t t' x y He. destruct x; try done. intros (p' & -> & HR). exists p'. split; [done|]. by eapply Hm.
  - intros t v Hv Ht. destruct v; try (eexists _, t; split; [done|]; split; [done|]; split; [apply extends_refl|done]).
    cbn in Hv. destruct (Hp t p Hv Ht) as (p' & t' & E & H1 & H2 & H3). exists (VString p'), t'. cbn. rewrite E.
    split_and!; try done. by exists p'.
Qed.

Definition attr_ptr_ok (x : AivmNodeAttr) : Prop :=
  ptr_ok (attr_key x) /\ match attr_value x with NAIdentifier p | NAString p => ptr_ok p | _ => True end.
Definition moved_attr (t : list Z) (x y : AivmNodeAttr) : Prop :=
  moved_ptr t (attr_key x) (attr_key y) /\
  match attr_value x with
  | NAIdentifier p => exists p', attr_value y = NAIdentifier p' /\ moved_ptr t p p'
  | NAString p => exists p', attr_value y = NAString p' /\ moved_ptr t p p'
  | v => attr_value y = v
  end.

Lemma copier_attr : copier (relocate_attr a) attr_ptr_ok moved_attr.
Proof.
  destruct copier_ptr as [Hm Hp]. split.
  - intros t t' x y He [H1 H2]. split; [by eapply Hm|]. destruct (attr_value x); try done;
      destruct H2 as (p' & -> & H2); exists p'; (split; [done|by eapply Hm]).
  - intros t x [P1 P2] Ht. unfold relocate_attr. destruct (Hp t _ P1 Ht) as (k & t1 & -> & H1 & H2 & H3).
    destruct (attr_value x) as [p|p|i|b] eqn:E.
    3,4: eexists _, t1; split; [done|]; split; [done|]; split; [done|]; split; [done|cbn; by rewrite E].
    all: destruct (Hp t1 p P2 H1) as (p' & t2 & -> & H4 & H5 & H6); eexists _, t2; (split; [done|]); (split; [done|]);
      (split; [by eapply extends_trans|]); (split; [by eapply Hm|]); cbn; rewrite E; by exists p'.
Qed.

Definition entry_ptr_ok (x : node_entry) : Prop :=
  x.1.1 = true -> ptr_ok (node_kind x.1.2) /\ ptr_ok (node_id x.1.2) /\ Forall attr_ptr_ok x.2.

Definition same_shape (nd nd' : AivmNodeRecord) : Prop :=
  attr_start nd' = attr_start nd /\ attr_count nd' = attr_count nd /\
  child_start nd' = child_start nd /\ child_count nd' = child_count nd.

Definition moved_entry (t : list Z) (x y : node_entry) : Prop :=
  y.1.1 = x.1.1 /\ same_shape x.1.2 y.1.2 /\
  if x.1.1 then moved_ptr t (node_kind x.1.2) (node_kind y.1.2) /\ moved_ptr t (node_id x.1.2) (node_id y.1.2) /\
    Forall2 (moved_attr t) x.2 y.2
  else y.1.2 = x.1.2 /\ y.2 = x.2.

Definition relocate_entry : visitor (list Z) node_entry := fun t x =>
  let '((l, nd), g) := x in
  if l then
    let moved kind id := mk_node kind id (attr_start nd) (attr_count nd) (child_start nd) (child_count nd) in
    let '(kind, r1) := compact_relocate_string_ptr a t (node_kind nd) in
    match r1 with
    | Visited t1 =>
        let '(id, r2) := compact_relocate_string_ptr a t1 (node_id nd) in
        match r2 with
        | Visited t2 => let '(g', r3) := visit_list (relocate_attr a) t2 g in (((l, moved kind id), g'), r3)
        | _ => (((l, moved kind id), g), r2)
        end
    | _ => (((l, moved kind (node_id nd)), g), r1)
    end
  else (x, Visited t).

Lemma copier_entry : copier relocate_entry entry_ptr_ok moved_entry.
Proof.
  destruct copier_ptr as [Hm Hp]. destruct (copier_list _ _ extends_refl extends_trans _ _ _ copier_attr) as [Hma Ha]. split.
  - intros t t' [[[] nd] g] y He (H1 & H2 & H3); (split; [done|]); (split; [done|]); cbn in *; [|done].
    destruct H3 as (H3 & H4 & H5). split; [by eapply Hm|]. split; [by eapply Hm|]. by eapply Hma.
  - intros t [[[] nd] g] HP Ht; cbn [relocate_entry].
    + destruct (HP eq_refl) as (P1 & P2 & P3). cbn in P1, P2, P3.
      destruct (Hp t _ P1 Ht) as (k & t1 & -> & A1 & A2 & A3). destruct (Hp t1 _ P2 A1) as (i & t2 & -> & B1 & B2 & B3).
      destruct (Ha t2 _ P3 B1) as (g' & t3 & -> & C1 & C2 & C3). eexists _, t3. split; [done|]. split; [done|].
      split; [eauto using extends_trans|]. split; [done|]. split; [done|]. cbn. split; [eauto using extends_trans|].
      split; [eauto|done].
    + eexists _, t. split; [done|]. split; [done|]. split; [apply extends_refl|]. by repeat split.
Qed.

End Relocation.
