(* ===== verification/StringCompact.v ===== *)
(** * The string compaction as a whole

    aivm_compact_string_arena (src/src/aivm_vm.c) composed: marking, the walk over
    the roots, the live pairs and the live nodes, and the new index. *)

From S2P Require Import Prelude Types Program Vm Memory Lifecycle Stack ControlSafety Roots Pairs.
From S2P Require Import NodeGc NodeMark NodeMove NodeCompact Moves Strings StringText StringIndex StringLookup StringGc.

(** ** The walk over the nodes *)

Lemma relocate_attrs_visit a capacity : forall k pre g post t, length g = k -> zlen pre + zlen g <= capacity ->
  relocate_attrs k a capacity (zlen pre) (pre ++ g ++ post) t =
  let '(g', r) := visit_list (relocate_attr a) t g in (pre ++ g' ++ post, r).
Proof.
  induction k as [|k IH]; intros pre g post t Hl Hc.
  { destruct g; [done|]. cbn in Hl. lia. }
  destruct g as [|x g]; [done|]. cbn [relocate_attrs visit_list].
  rewrite zlen_cons in Hc. pose proof (zlen_nonneg g). rewrite (proj2 (Z.leb_gt _ _)) by lia.
  assert (Hx : zget (pre ++ (x :: g) ++ post) (zlen pre) = Some x).
  { rewrite zget_lookup by (apply zlen_nonneg). unfold zlen. rewrite Nat2Z.id. by rewrite lookup_app_r, Nat.sub_diag by lia. }
  rewrite Hx. destruct (relocate_attr a t x) as [x' r].
  assert (Hset : zset (pre ++ (x :: g) ++ post) (zlen pre) x' = pre ++ x' :: (g ++ post)).
  { unfold zset. pose proof (zlen_nonneg pre). rewrite (proj2 (Z.ltb_ge _ _)) by lia. unfold zlen. rewrite Nat2Z.id.
    rewrite insert_app_r_alt, Nat.sub_diag by lia. done. }
  rewrite Hset. destruct r as [t'|e d|]; [|done|done].
  replace (pre ++ x' :: g ++ post) with ((pre ++ [x']) ++ g ++ post) by (by rewrite <- app_assoc).
  replace (zlen pre + 1) with (zlen (pre ++ [x'])) by (by rewrite zlen_app).
  rewrite IH; [|by injection Hl|rewrite zlen_app; change (zlen [x']) with 1; lia].
  destruct (visit_list (relocate_attr a) t' g) as [g' r']. by rewrite <- app_assoc.
Qed.

(** Entries laid out one after the other. *)
Fixpoint laid_out (at_slot : Z) (es : list node_entry) : Prop :=
  match es with
  | [] => True
  | e :: rest => attr_start e.1.2 = at_slot /\ attr_count e.1.2 = zlen e.2 /\ laid_out (at_slot + zlen e.2) rest
  end.

Lemma relocate_nodes_visit a capacity es : forall pre post t, laid_out (zlen pre) es ->
  zlen pre + zlen (flat_map snd es) <= capacity ->
  relocate_nodes a capacity (map (fun e => e.1.1) es) (map (fun e => e.1.2) es) (pre ++ flat_map snd es ++ post) t =
  let '(es', r) := visit_list (relocate_entry a) t es in
  (map (fun e => e.1.2) es', pre ++ flat_map snd es' ++ post, r).
Proof.
  induction es as [|[[l nd] g] es IH]; intros pre post t Hlay Hc; [done|].
  cbn [map relocate_nodes visit_list fst snd flat_map]. cbn [laid_out fst snd] in Hlay. destruct Hlay as (Hs & Hn & Hlay).
  cbn [flat_map snd] in Hc. rewrite zlen_app in Hc. pose proof (zlen_nonneg (flat_map snd es)).
  assert (Hskip : forall g' t', zlen g' = zlen g ->
    relocate_nodes a capacity (map (fun e => e.1.1) es) (map (fun e => e.1.2) es) (pre ++ (g' ++ flat_map snd es) ++ post) t' =
    let '(es', r) := visit_list (relocate_entry a) t' es in
    (map (fun e => e.1.2) es', pre ++ (g' ++ flat_map snd es') ++ post, r)).
  { intros g' t' Hg. replace (pre ++ (g' ++ flat_map snd es) ++ post) with ((pre ++ g') ++ flat_map snd es ++ post) by (by rewrite <- !app_assoc).
    rewrite IH; [|rewrite zlen_app, Hg; done|rewrite zlen_app; lia]. destruct (visit_list _ t' es) as [es' r]. by rewrite <- !app_assoc. }
  destruct l; cbn [relocate_entry].
  2: { rewrite (Hskip g t eq_refl). destruct (visit_list _ t es) as [es' r]. done. }
  unfold relocate_node. destruct (compact_relocate_string_ptr a t (node_kind nd)) as [kind [t1|e d|]]; [|done|done].
  destruct (compact_relocate_string_ptr a t1 (node_id nd)) as [id [t2|e d|]]; [|done|done].
  rewrite Hs, <- !app_assoc. rewrite (relocate_attrs_visit a capacity); [|unfold zlen in Hn; lia|lia].
  pose proof (visit_list_length (relocate_attr a) g t2) as Hlen. destruct (visit_list (relocate_attr a) t2 g) as [g' r]. cbn in Hlen.
  destruct r as [t3|e d|]; [|by cbn; rewrite ?app_assoc|by cbn; rewrite ?app_assoc].
  rewrite !app_assoc. rewrite <- (app_assoc pre), <- (app_assoc pre), (Hskip g' t3) by (unfold zlen; by rewrite Hlen).
  destruct (visit_list _ t3 es) as [es' r']. done.
Qed.

(** ** Node stores of the same shape *)

Lemma shape_placed l l' : Forall2 same_shape l l' -> forall a c, placed l a c = l -> placed l' a c = l'.
Proof.
  induction 1 as [|nd nd' l l' (H1 & H2 & H3 & H4) _ IH]; intros a c; [done|]. cbn [placed]. intros [= E1 E2].
  f_equal; [|rewrite H2, H4; by apply IH].
  destruct nd, nd'. cbn in *. by simplify_eq.
Qed.

Lemma shape_totals l l' : Forall2 same_shape l l' ->
  total attr_count l' = total attr_count l /\ total child_count l' = total child_count l.
Proof.
  induction 1 as [|nd nd' l l' (H1 & H2 & H3 & H4) _ [IH1 IH2]]; [done|]. cbn [total]. rewrite H2, H4, IH1, IH2. done.
Qed.

(** A store with the same ranges is as well-formed. *)
Lemma nodes_ok_shape n n' : nodes_ok n -> Forall2 same_shape (nodes n) (nodes n') -> node_attr_count n' = node_attr_count n ->
  node_children n' = node_children n -> node_capacity n' = node_capacity n -> node_attr_capacity n' = node_attr_capacity n ->
  node_child_capacity n' = node_child_capacity n -> nodes_ok n'.
Proof.
  intros Hn Hsh Ea Ech C1 C2 C3. destruct (shape_totals _ _ Hsh) as [T1 T2].
  assert (Ec : node_child_count n' = node_child_count n) by (unfold node_child_count; by rewrite Ech).
  assert (En : node_count n' = node_count n) by (unfold node_count, zlen; by rewrite (Forall2_length _ _ _ Hsh)).
  split.
  - eapply shape_placed; [exact Hsh|apply Hn].
  - apply Forall_forall. intros nd' Hnd'. apply list_elem_of_lookup in Hnd' as [i Hi].
    destruct (Forall2_lookup_r _ _ _ _ _ Hsh Hi) as (nd & Hnd & (_ & E1 & _ & E2)). unfold counts_ok. rewrite E1, E2.
    pose proof (no_counts n Hn) as Hc. rewrite Forall_forall in Hc. apply Hc. by eapply list_elem_of_lookup_2.
  - by rewrite Ea, T1, (no_attrs n Hn).
  - by rewrite Ec, T2, (no_children n Hn).
  - intros i nd' c Hi Hc. pose proof (zget_Some_bounds _ _ _ Hi) as Hb. rewrite zget_lookup in Hi by lia.
    destruct (Forall2_lookup_r _ _ _ _ _ Hsh Hi) as (nd & Hnd & (_ & _ & E1 & E2)).
    rewrite En. apply (no_child n Hn i nd c); [by rewrite zget_lookup by lia|]. unfold children_of in *. by rewrite <- E1, <- E2, <- Ech.
  - rewrite En, C1. apply Hn.
  - rewrite Ea, C2. apply Hn.
  - rewrite Ec, C3. apply Hn.
Qed.

Lemma slice_join {A} (l : list A) i x y : 0 <= i -> 0 <= x -> 0 <= y -> slice l i x ++ slice l (i + x) y = slice l i (x + y).
Proof.
  intros Hi Hx Hy. unfold slice, ztake, zdrop. rewrite !Z2Nat.inj_add by lia. rewrite <- drop_drop.
  generalize (drop (Z.to_nat i) l). intros k. apply take_take_drop.
Qed.

(** The attribute arena is made of the ranges of the nodes. *)
Lemma attrs_joined n nds : forall a c, placed nds a c = nds -> Forall counts_ok nds -> 0 <= a ->
  flat_map (attrs_of n) nds = slice (node_attrs n) a (total attr_count nds).
Proof.
  induction nds as [|nd nds IH]; intros a c Hp Hc Ha; [done|]. cbn [placed] in Hp. injection Hp as E1 E2.
  apply Forall_cons in Hc as [[Hc1 Hc2] Hc]. cbn [flat_map total].
  assert (T : 0 <= total attr_count nds).
  { apply total_nonneg. eapply Forall_impl; [exact Hc|by intros ? []]. }
  rewrite (IH _ _ E2 Hc) by lia. unfold attrs_of. rewrite <- slice_join by lia. f_equal. by rewrite <- E1.
Qed.

Lemma attrs_all n : nodes_ok n -> flat_map (attrs_of n) (nodes n) = node_attrs n.
Proof.
  intros Hn. rewrite (attrs_joined n (nodes n) 0 0 (no_placed n Hn) (no_counts n Hn)) by lia.
  rewrite <- (no_attrs n Hn). unfold slice, ztake, zdrop, node_attr_count, zlen. rewrite Nat2Z.id. cbn. apply firstn_all.
Qed.

Definition node_entries (n : NodeStore) (live : list bool) : list node_entry :=
  zip (zip live (nodes n)) (map (attrs_of n) (nodes n)).

Lemma node_entries_parts n live : length live = length (nodes n) ->
  map (fun e => e.1.1) (node_entries n live) = live /\ map (fun e => e.1.2) (node_entries n live) = nodes n /\
  flat_map snd (node_entries n live) = flat_map (attrs_of n) (nodes n).
Proof.
  unfold node_entries. revert live. induction (nodes n) as [|nd nds IH]; intros [|l live] Hl; try done.
  cbn. destruct (IH live) as (H1 & H2 & H3); [by injection Hl|]. by rewrite H1, H2, H3.
Qed.

Lemma node_entries_laid_out n live : nodes_ok n -> length live = length (nodes n) -> laid_out 0 (node_entries n live).
Proof.
  intros Hn. unfold node_entries.
  assert (G : forall nds lv a c, placed nds a c = nds -> Forall (fun nd => zlen (attrs_of n nd) = attr_count nd) nds ->
    laid_out a (zip (zip lv nds) (map (attrs_of n) nds))).
  { induction nds as [|nd nds IH]; intros [|l lv] a c Hp Hc; try done. cbn [placed] in Hp. injection Hp as E1 E2.
    apply Forall_cons in Hc as [Hc1 Hc]. cbn. split; [by rewrite <- E1|]. split; [done|]. rewrite Hc1. by eapply IH. }
  intros _. apply (G (nodes n) live 0 0 (no_placed n Hn)). apply Forall_forall. intros nd Hin.
  apply list_elem_of_lookup in Hin as [i Hi].
  destruct (record_ranges n Hn (Z.of_nat i) nd) as ([? ?] & ? & ? & _); [rewrite zget_lookup, Nat2Z.id by lia; done|].
  apply slice_length; [lia..|]. unfold node_attr_count in *. lia.
Qed.

(** ** The invariant *)

Record strings_ok (a : StringArena) : Prop := {
  so_texts : exists texts, Forall nul_free texts /\ sa_text a = flat texts;
  so_used : zlen (sa_text a) <= sa_limit a;
  so_limit : sa_limit a <= sa_capacity a <= SIZE_MAX;
  so_index : index_ok a }.

(** A pointer is NULL or the start of a readable text. *)
Definition str_valid (s : AivmVm) (p : str_ptr) : Prop :=
  match p with
  | SNull => True
  | SArena gen off => gen = sa_gen (strings s) /\ exists c, text_at (sa_text (strings s)) off c
  | SProgram _ => exists c, read_str s p = Some c
  | SExt c => nul_free c
  end.

Definition value_valid (s : AivmVm) (v : AivmValue) : Prop := match v with VString p => str_valid s p | _ => True end.
Definition attr_valid (s : AivmVm) (x : AivmNodeAttr) : Prop :=
  str_valid s (attr_key x) /\ match attr_value x with NAIdentifier p | NAString p => str_valid s p | _ => True end.

(** The texts of everything that can still be reached. *)
Record texts_ok (s : AivmVm) : Prop := {
  to_roots : Forall (value_valid s) (root_values s);
  to_pairs : forall i p, reachable_pair s i -> zget (scratch_pairs s) i = Some p ->
    value_valid s (first p) /\ value_valid s (second p);
  to_nodes : forall h nd, reachable_node s [] h -> aivm_vm_lookup_node (node_store s) h = Some nd ->
    str_valid s (node_kind nd) /\ str_valid s (node_id nd) /\ Forall (attr_valid s) (attrs_of (node_store s) nd) }.

(** The heap of the VM: nodes, handles, the arena and the texts. *)
Record heap_ok (s : AivmVm) : Prop := {
  hp_nodes : nodes_ok (node_store s);
  hp_handles : handles_ok s;
  hp_strings : strings_ok (strings s);
  hp_texts : texts_ok s }.

(** ** After the walks *)

Section Result.

Context (s s' : AivmVm) (Hheap : heap_ok s).
Context (live lp : list bool) (texts : list (list Z)) (t : list Z) (pl : list (bool * AivmScratchPair)) (es : list node_entry).
Let n := node_store s.
Let n' := node_store s'.
Let a := strings s.
Context (Hfree : Forall nul_free texts) (Htext : sa_text a = flat texts).
Context (Hlp : length lp = length (scratch_pairs s)) (Hlpiff : forall i, is_live lp i <-> reachable_pair s i).
Context (Hlen : length live = length (nodes n)) (Hliff : forall h, marked live h <-> reachable_node s [] h).
Context (Hclosed : forall h nd c, marked live h -> aivm_vm_lookup_node n h = Some nd -> c ∈ children_of n nd -> marked live c).
Context (Hroots : Forall2 (moved_value a texts t) (root_values s) (root_values s')).
Context (Hpairs : Forall2 (pair_moved (moved_value a texts t)) (zip lp (scratch_pairs s)) pl) (Hpairs' : scratch_pairs s' = map snd pl).
Context (Hents : Forall2 (moved_entry a texts t) (node_entries n live) es).
Context (Hnodes' : nodes n' = map (fun e => e.1.2) es) (Hattrs' : node_attrs n' = flat_map snd es).
Context (Hchildren' : node_children n' = node_children n).
Context (Hcaps : node_capacity n' = node_capacity n /\ node_attr_capacity n' = node_attr_capacity n /\ node_child_capacity n' = node_child_capacity n).
Context (Hhost : host_handles s' = host_handles s) (Hbuild : node_builders s' = node_builders s).
Context (Hprog : program s' = program s) (Hbytes : bytes_arena s' = bytes_arena s).
Context (Ht : sa_text (strings s') = t) (Hgen : sa_gen (strings s') = sa_gen a + 1).

Lemma read_moved p p' : str_valid s p -> moved_ptr a texts t p p' -> str_valid s' p' /\ read_str s' p' = read_str s p.
Proof.
  destruct p as [|gen off|off|c]; cbn [moved_ptr]; intros Hv Hm.
  - by subst.
  - destruct Hv as [-> (c0 & Hat0)]. destruct Hm as (c & off' & Hat & -> & Hat').
    split; [cbn; rewrite Hgen, Ht; split; [done|by exists c]|].
    cbn. rewrite Hgen, Ht, Z.eqb_refl, Z.eqb_refl. rewrite (text_at_reads _ _ _ Hat'). symmetry. fold a. rewrite Htext.
    by apply text_at_reads.
  - subst p'. cbn in *. by rewrite Hprog.
  - by subst.
Qed.

Lemma value_moved v v' : value_valid s v -> moved_value a texts t v v' -> value_valid s' v' /\ resolve_value s' v' = resolve_value s v.
Proof.
  destruct v; cbn [moved_value]; intros Hv Hm; try (by subst).
  - destruct Hm as (p' & -> & Hm). destruct (read_moved _ _ Hv Hm) as [H1 H2]. split; [done|]. cbn. unfold resolve_str. by rewrite H2.
  - subst. split; [done|]. cbn. unfold resolve_bytes, read_bytes. by rewrite Hbytes, Hprog.
Qed.

Lemma attr_moved x y : attr_valid s x -> moved_attr a texts t x y -> attr_valid s' y /\ resolve_attr s' y = resolve_attr s x.
Proof.
  intros [V1 V2] [M1 M2]. destruct (read_moved _ _ V1 M1) as [H1 H2]. unfold attr_valid, resolve_attr, resolve_str. rewrite H2.
  destruct (attr_value x) as [p|p|i|b].
  1,2: destruct M2 as (p' & -> & M2); destruct (read_moved _ _ V2 M2) as [H3 H4]; by rewrite H4.
  all: rewrite M2; done.
Qed.

Lemma moved_shape v v' : moved_value a texts t v v' ->
  match v with
  | VNode _ | VPair _ => v' = v
  | _ => match v' with VNode _ | VPair _ => False | _ => True end
  end.
Proof. destruct v; cbn; try (by intros ->). by intros (p' & -> & _). Qed.

(** *** Nodes *)

Lemma entries_shape : Forall2 same_shape (nodes n) (nodes n').
Proof.
  destruct (node_entries_parts n live Hlen) as (_ & E & _). rewrite Hnodes', <- E. generalize Hents.
  generalize (node_entries n live), es. clear. intros l l' H. induction H as [|x y l l' (_ & H & _) _ IH]; cbn; by constructor.
Qed.

Lemma entries_group_length : Forall2 (fun x y : node_entry => zlen y.2 = zlen x.2) (node_entries n live) es.
Proof.
  eapply Forall2_impl; [exact Hents|]. intros x y (_ & _ & H). destruct x.1.1.
  - destruct H as (_ & _ & H). unfold zlen. by rewrite (Forall2_length _ _ _ H).
  - by destruct H as [_ ->].
Qed.

Lemma laid_out_moved : laid_out 0 es.
Proof.
  pose proof (node_entries_laid_out n live (hp_nodes s Hheap) Hlen) as Hl.
  assert (G : forall l l' k, Forall2 (moved_entry a texts t) l l' -> Forall2 (fun x y : node_entry => zlen y.2 = zlen x.2) l l' ->
    laid_out k l -> laid_out k l').
  { clear. intros l l' k H. revert k. induction H as [|x y l l' (_ & (H1 & H2 & _) & _) _ IH]; intros k Hg Hl; [done|].
    apply Forall2_cons_1 in Hg as [Hg1 Hg]. destruct Hl as (L1 & L2 & L3). cbn. rewrite H1, H2, Hg1. split; [done|]. split; [done|]. by apply IH. }
  apply (G _ _ 0 Hents entries_group_length Hl).
Qed.

Lemma laid_out_slice (l : list node_entry) : forall k (pre : list AivmNodeAttr) i e, laid_out k l -> zlen pre = k -> l !! i = Some e ->
  slice (pre ++ flat_map snd l) (attr_start e.1.2) (attr_count e.1.2) = e.2.
Proof.
  induction l as [|x l IH]; intros k pre i e Hl Hp Hi; [done|]. destruct Hl as (H1 & H2 & H3). destruct i as [|i].
  - injection Hi as ->. rewrite H1, H2, <- Hp. cbn [flat_map]. apply slice_middle.
  - cbn [flat_map]. rewrite app_assoc. eapply IH; [exact H3|by rewrite zlen_app, Hp|done].
Qed.

(** A record and its attributes after the walk. *)
Lemma node_moved h nd : aivm_vm_lookup_node n h = Some nd ->
  exists nd', aivm_vm_lookup_node n' h = Some nd' /\ same_shape nd nd' /\ children_of n' nd' = children_of n nd /\
    (marked live h -> moved_ptr a texts t (node_kind nd) (node_kind nd') /\ moved_ptr a texts t (node_id nd) (node_id nd') /\
       Forall2 (moved_attr a texts t) (attrs_of n nd) (attrs_of n' nd')).
Proof.
  intros Hl. destruct (lookup_Some n h nd Hl) as [Hv Hnd]. unfold node_valid in Hv.
  rewrite zget_lookup in Hnd by lia. set (i := Z.to_nat (h - 1)) in *.
  assert (Hlv : exists l, live !! i = Some l) by (apply lookup_lt_is_Some; rewrite Hlen; by eapply lookup_lt_Some). destruct Hlv as [l Hlv].
  assert (He : node_entries n live !! i = Some ((l, nd), attrs_of n nd)).
  { unfold node_entries. apply lookup_zip_with_Some. exists (l, nd), (attrs_of n nd). split; [done|]. split.
    - apply lookup_zip_with_Some. by exists l, nd.
    - by rewrite list_lookup_fmap, Hnd. }
  destruct (Forall2_lookup_l _ _ _ _ _ Hents He) as (e' & He' & HM). destruct e' as [[l' nd'] g'].
  assert (Hl' : aivm_vm_lookup_node n' h = Some nd').
  { unfold aivm_vm_lookup_node, node_count. rewrite Hnodes', zlen_map. pose proof (Forall2_length _ _ _ Hents) as L.
    destruct (node_entries_parts n live Hlen) as (_ & E & _). apply (f_equal length) in E. rewrite length_map in E.
    assert (E' : length es = length (nodes n)) by (etransitivity; [symmetry; exact L|exact E]).
    unfold node_count, zlen in *. destruct (_ || _) eqn:Eb; [lia|]. rewrite zget_lookup by lia. fold i. by rewrite list_lookup_fmap, He'. }
  destruct HM as (HM1 & HM2 & HM3). cbn in HM1, HM2, HM3. exists nd'. split; [done|]. split; [done|]. split.
  { unfold children_of. destruct HM2 as (_ & _ & -> & ->). by rewrite Hchildren'. }
  intros Hmk. unfold marked, is_live in Hmk. rewrite zget_lookup in Hmk by lia. assert (l = true) as -> by (unfold i in Hlv; congruence).
  destruct HM3 as (H1 & H2 & H3). split; [done|]. split; [done|]. unfold attrs_of at 2. rewrite Hattrs'.
  pose proof (laid_out_slice es 0 [] i _ laid_out_moved eq_refl He') as Hs. cbn in Hs. by rewrite Hs.
Qed.

Lemma node_unmoved h : aivm_vm_lookup_node n h = None -> aivm_vm_lookup_node n' h = None.
Proof.
  unfold aivm_vm_lookup_node, node_count. pose proof (Forall2_length _ _ _ entries_shape) as L. unfold zlen. rewrite <- L.
  destruct (_ || _) eqn:E; [done|]. rewrite zget_None. intros Hz. apply zget_None. unfold zlen in *. rewrite <- L. done.
Qed.

Lemma child_back h c : child_of n' h c -> child_of n h c.
Proof.
  unfold child_of. intros (nd' & Hl' & Hc). destruct (aivm_vm_lookup_node n h) as [nd|] eqn:E.
  - destruct (node_moved h nd E) as (nd2 & H1 & _ & H2 & _). assert (nd2 = nd') as -> by congruence. exists nd. split; [done|]. by rewrite <- H2.
  - apply node_unmoved in E. congruence.
Qed.

Lemma node_count_kept : node_count n' = node_count n.
Proof. unfold node_count, zlen. by rewrite (Forall2_length _ _ _ entries_shape). Qed.

Lemma child_same h c : child_of n' h c <-> child_of n h c.
Proof.
  split; [apply child_back|]. intros (nd & Hl & Hc). destruct (node_moved h nd Hl) as (nd' & Hl' & _ & Ec & _).
  exists nd'. split; [done|]. by rewrite Ec.
Qed.

Local Abbreviation reachable_same := (reachable_same s s' lp pl (moved_value a texts t) moved_shape Hlp Hlpiff Hroots Hpairs Hpairs'
  Hhost Hbuild node_count_kept child_same).

(** *** The invariant and the documents *)

Lemma attr_count_kept : node_attr_count n' = node_attr_count n.
Proof.
  destruct (node_entries_parts n live Hlen) as (_ & _ & Eg). unfold node_attr_count.
  rewrite Hattrs', <- (attrs_all n (hp_nodes s Hheap)), <- Eg. generalize entries_group_length. generalize (node_entries n live), es. clear.
  intros l l' H. induction H as [|x y l l' H _ IH]; [done|]. cbn [flat_map]. rewrite !zlen_app. lia.
Qed.

Lemma nodes_ok_moved : nodes_ok n'.
Proof.
  apply (nodes_ok_shape n n' (hp_nodes s Hheap) entries_shape attr_count_kept Hchildren'); apply Hcaps.
Qed.

Lemma node_back h nd' : reachable_node s' [] h -> aivm_vm_lookup_node n' h = Some nd' ->
  exists nd, marked live h /\ aivm_vm_lookup_node n h = Some nd /\
    str_valid s (node_kind nd) /\ str_valid s (node_id nd) /\ Forall (attr_valid s) (attrs_of n nd).
Proof.
  intros Hr%reachable_same Hl'. destruct (aivm_vm_lookup_node n h) as [nd|] eqn:E; [|apply node_unmoved in E; congruence].
  exists nd. split; [by apply Hliff|]. split; [done|]. by apply (to_nodes s (hp_texts s Hheap) h nd).
Qed.

Lemma attrs_moved l l' : Forall (attr_valid s) l -> Forall2 (moved_attr a texts t) l l' ->
  Forall (attr_valid s') l' /\ map (resolve_attr s') l' = map (resolve_attr s) l.
Proof.
  intros Hv HM. induction HM as [|x y l l' Hxy _ IH]; [done|]. apply Forall_cons in Hv as [Hx Hv].
  destruct (attr_moved x y Hx Hxy) as [H1 H2]. destruct (IH Hv) as [H3 H4]. split; [by constructor|]. cbn. by rewrite H2, H4.
Qed.

Lemma texts_ok_moved : texts_ok s'.
Proof.
  destruct (hp_texts s Hheap) as [H1 H2 _].
  assert (Hv : forall v v', moved_value a texts t v v' -> value_valid s v -> value_valid s' v') by (intros v v' Hm Hv; by apply (value_moved v v')).
  split; [by eapply roots_back|by eapply (pairs_back s s' lp pl (moved_value a texts t) moved_shape)|].
  intros h nd' Hr Hl'. destruct (node_back h nd' Hr Hl') as (nd & Hmk & Hl & V1 & V2 & V3).
  destruct (node_moved h nd Hl) as (nd2 & Hl2 & _ & _ & HM). assert (nd2 = nd') as ->. { fold n' in Hl'. congruence. }
  destruct (HM Hmk) as (M1 & M2 & M3). split; [by apply (read_moved _ _ V1 M1)|]. split; [by apply (read_moved _ _ V2 M2)|].
  by apply (attrs_moved _ _ V3).
Qed.

Lemma node_document_kept d : forall h, marked live h -> node_document d s' h = node_document d s h.
Proof.
  induction d as [|d IH]; intros h Hmk; [done|]. unfold node_document. cbn [unfold_node]. fold n n'.
  destruct (aivm_vm_lookup_node n h) as [nd|] eqn:E; [|by rewrite (node_unmoved h E)].
  destruct (node_moved h nd E) as (nd' & -> & _ & Hc & HM). destruct (HM Hmk) as (M1 & M2 & M3).
  destruct (to_nodes s (hp_texts s Hheap) h nd) as (V1 & V2 & V3); [by apply Hliff|done|].
  cbn [resolve_ntree]. unfold resolve_str. rewrite (proj2 (read_moved _ _ V1 M1)), (proj2 (read_moved _ _ V2 M2)).
  rewrite (proj2 (attrs_moved _ _ V3 M3)), Hc, !map_map. f_equal. apply map_ext_in. intros c Hc'%list_elem_of_In.
  apply IH. by eapply Hclosed.
Qed.

(** What does not depend on the texts of strings holds everywhere as before. *)
Lemma leaves_moved P : (forall p, P (VString p)) -> everywhere P s -> everywhere P s'.
Proof.
  intros Hstr [H1 H2]. assert (Hm : forall v v', moved_value a texts t v v' -> P v -> P v').
  { intros v v' Hm Hv. destruct v; cbn in Hm; try (by rewrite Hm). by destruct Hm as (p' & -> & _). }
  split; [by eapply roots_back|by eapply (pairs_back s s' lp pl (moved_value a texts t) moved_shape)].
Qed.

Lemma moved_heap : nodes_ok n' /\ handles_ok s' /\ texts_ok s' /\
  Forall2 (same_document s s') (root_values s) (root_values s') /\
  (forall h, reachable_node s [] h -> reachable_node s' [] h /\ forall d, node_document d s' h = node_document d s h) /\
  zlen (scratch_pairs s') = zlen (scratch_pairs s) /\
  node_count n' = node_count n /\ node_attr_count n' = node_attr_count n.
Proof.
  assert (Hdoc : forall h, reachable_node s [] h -> forall d, node_document d s' h = node_document d s h).
  { intros h Hr d. apply node_document_kept. by apply Hliff. }
  split; [exact nodes_ok_moved|].
  split; [eapply (handles_ok_kept s s' lp pl (moved_value a texts t) moved_shape); try done; [exact node_count_kept|apply Hheap]|].
  split; [exact texts_ok_moved|]. split.
  { eapply (roots_documents s s' lp pl (moved_value a texts t) moved_shape) with (V := value_valid s); try done; [apply Hheap| |apply Hheap|apply Hheap].
    intros v v' Hm Hv. by apply value_moved. }
  split; [|split; [by eapply (pairs_zlen s s' lp pl)|split; [exact node_count_kept|exact attr_count_kept]]].
  intros h Hr. split; [by apply reachable_same|]. by apply Hdoc.
Qed.

End Result.

(** ** The compaction *)

Section Compaction.

Context `{Host}.

(** What a compaction of the strings leaves: the same documents in a smaller arena. *)
Record strings_moved (s s' : AivmVm) : Prop := {
  sm_heap : heap_ok s';
  sm_roots : Forall2 (same_document s s') (root_values s) (root_values s');
  sm_nodes : forall h, reachable_node s [] h -> reachable_node s' [] h /\ forall d, node_document d s' h = node_document d s h;
  sm_shorter : zlen (sa_text (strings s')) <= zlen (sa_text (strings s));
  sm_room : sa_limit (strings s') = sa_limit (strings s) /\ sa_capacity (strings s') = sa_capacity (strings s);
  sm_control : control_view s' = control_view s /\ status s' = status s;
  sm_leaves : forall P, (forall p, P (VString p)) -> everywhere P s -> everywhere P s';
  sm_once : exists new, index_exact new (strings s') /\ forall c, c ∈ new -> exists off, text_at (sa_text (strings s)) off c;
  sm_rest : program s' = program s /\ bytes_arena s' = bytes_arena s /\ node_builders s' = node_builders s /\
    host_handles s' = host_handles s /\ zlen (scratch_pairs s') = zlen (scratch_pairs s) /\
    node_count (node_store s') = node_count (node_store s) /\ node_attr_count (node_store s') = node_attr_count (node_store s) /\
    node_child_count (node_store s') = node_child_count (node_store s) }.

(** A failure for lack of memory that changed nothing but the error. *)
Definition refused (s s' : AivmVm) : Prop :=
  starved /\ exists t d, s' = aivm_set_vm_error AIVM_VM_ERR_MEMORY_PRESSURE d (set_tick t s).

Lemma heap_ok_tick s t : heap_ok s -> heap_ok (set_tick t s).
Proof. intros [H1 [] H3 []]. constructor; [exact H1|by constructor|exact H3|by constructor]. Qed.

Lemma heap_ptrs s texts : heap_ok s -> Forall nul_free texts -> sa_text (strings s) = flat texts ->
  forall p, str_valid s p -> ptr_ok (strings s) texts p.
Proof. intros Hh Hf Ht p. destruct p; cbn; try done. by rewrite Ht. Qed.

Lemma heap_value_ptrs s texts : heap_ok s -> Forall nul_free texts -> sa_text (strings s) = flat texts ->
  forall v, value_valid s v -> value_ptr_ok (strings s) texts v.
Proof. intros Hh Hf Ht v Hv. destruct v; try done. by apply (heap_ptrs s texts Hh Hf Ht). Qed.

Lemma walk_nodes_run s live texts t : heap_ok s -> Forall nul_free texts -> sa_text (strings s) = flat texts ->
  length live = length (nodes (node_store s)) -> (forall h, marked live h <-> reachable_node s [] h) -> copies texts t ->
  forall s0, node_store s0 = node_store s ->
  exists es t', walk_nodes (strings s) live t s0 =
      Ok t' (set_node_store (set_node_attrs (flat_map snd es) (set_nodes (map (fun e => e.1.2) es) (node_store s0))) s0) /\
    copies texts t' /\ extends t t' /\ Forall2 (moved_entry (strings s) texts t') (node_entries (node_store s) live) es.
Proof.
  intros Hh Hf Ht Hlen Hiff Hc s0 E0. pose proof (hp_nodes s Hh) as Hn. destruct (hp_strings s Hh) as [_ Hu Hl _].
  assert (HP : Forall (entry_ptr_ok (strings s) texts) (node_entries (node_store s) live)).
  { apply Forall_forall. intros [[l nd] g] Hin Hl1. cbn in Hl1. subst l. apply list_elem_of_lookup in Hin as [i Hi].
    unfold node_entries in Hi. apply lookup_zip_with_Some in Hi as (x & g0 & E & Hi & Hg). injection E as <- <-.
    apply lookup_zip_with_Some in Hi as (l & nd0 & E & Hl1 & Hnd). injection E as <- <-.
    rewrite list_lookup_fmap, Hnd in Hg. injection Hg as <-. pose proof (lookup_lt_Some _ _ _ Hnd) as Hlt.
    assert (Hlk : aivm_vm_lookup_node (node_store s) (Z.of_nat i + 1) = Some nd).
    { unfold aivm_vm_lookup_node, node_count, zlen. destruct (_ || _) eqn:Eb; [lia|]. rewrite zget_lookup by lia.
      by replace (Z.to_nat _) with i by lia. }
    assert (Hmk : marked live (Z.of_nat i + 1)).
    { unfold marked, is_live. rewrite zget_lookup by lia. by replace (Z.to_nat _) with i by lia. }
    destruct (to_nodes s (hp_texts s Hh) _ nd (proj1 (Hiff _) Hmk) Hlk) as (V1 & V2 & V3).
    pose proof (heap_ptrs s texts Hh Hf Ht) as Hp. split; [by apply Hp|]. split; [by apply Hp|]. cbn.
    eapply Forall_impl; [exact V3|]. intros x [W1 W2]. split; [by apply Hp|]. destruct (attr_value x); try done; by apply Hp. }
  assert (Hcop := copier_entry (strings s) texts Hf Ht ltac:(lia) ltac:(lia)).
  destruct (copier_list _ _ extends_refl extends_trans _ _ _ Hcop) as [_ HL]. destruct (HL t _ HP Hc) as (es & t' & Ev & C1 & C2 & C3).
  exists es, t'. split; [|done]. unfold walk_nodes. rewrite E0.
  destruct (node_entries_parts (node_store s) live Hlen) as (P1 & P2 & P3).
  pose proof (relocate_nodes_visit (strings s) (node_attr_capacity (node_store s)) (node_entries (node_store s) live) [] [] t) as Hv.
  rewrite Ev, P1, P2, P3, (attrs_all _ Hn), !app_nil_r in Hv. cbn [app] in Hv. rewrite Hv; [done| |].
  - by apply node_entries_laid_out.
  - rewrite zlen_nil. pose proof (no_attr_fit _ Hn). unfold node_attr_count in *. lia.
Qed.

Lemma walk_pairs_run s lp texts t : heap_ok s -> Forall nul_free texts -> sa_text (strings s) = flat texts ->
  (forall i, is_live lp i <-> reachable_pair s i) -> copies texts t ->
  forall s0, scratch_pairs s0 = scratch_pairs s ->
  exists pl t', walk_live_pairs (compact_relocate_value_string (strings s)) lp t s0 = Ok t' (set_scratch_pairs (map snd pl) s0) /\
    copies texts t' /\ extends t t' /\ Forall2 (pair_moved (moved_value (strings s) texts t')) (zip lp (scratch_pairs s)) pl.
Proof.
  intros Hh Hf Ht Hiff Hc s0 E0. destruct (hp_strings s Hh) as [_ Hu Hl _].
  assert (Hcop := copier_pair _ _ extends_refl extends_trans _ _ _ (copier_value (strings s) texts Hf Ht ltac:(lia) ltac:(lia))).
  destruct (copier_walk _ _ extends_refl extends_trans _ _ _ (fun s => zip lp (scratch_pairs s)) (fun l s => set_scratch_pairs (map snd l) s) t s0 Hcop) as (pl & t' & E & C1 & C2 & C3).
  - rewrite E0. apply Forall_forall. intros [b p] Hin Hb. cbn in Hb. subst b. apply list_elem_of_lookup in Hin as [i Hi].
    apply lookup_zip_with_Some in Hi as (b & q & Ep & Hb & Hp). injection Ep as <- <-.
    assert (Hr : reachable_pair s (Z.of_nat i)) by (apply Hiff; unfold is_live; rewrite zget_lookup, Nat2Z.id by lia; done).
    destruct (to_pairs s (hp_texts s Hh) (Z.of_nat i) p Hr) as [V1 V2]; [rewrite zget_lookup, Nat2Z.id by lia; done|].
    split; by apply (heap_value_ptrs s texts Hh Hf Ht).
  - done.
  - exists pl, t'. split; [exact E|]. rewrite E0 in C3. done.
Qed.

(** The three walks one after the other. *)
Lemma compact_walks_run s live lp texts : heap_ok s -> Forall nul_free texts -> sa_text (strings s) = flat texts ->
  length lp = length (scratch_pairs s) -> (forall i, is_live lp i <-> reachable_pair s i) ->
  length live = length (nodes (node_store s)) -> (forall h, marked live h <-> reachable_node s [] h) ->
  exists l1 l2 l3 l4 pl es t,
    (let! t := walk_roots (compact_relocate_value_string (strings s)) [] in
     let! t := walk_live_pairs (compact_relocate_value_string (strings s)) lp t in
     walk_nodes (strings s) live t) s =
    Ok t (set_node_store (set_node_attrs (flat_map snd es) (set_nodes (map (fun e => e.1.2) es) (node_store s)))
           (set_scratch_pairs (map snd pl) (set_roots l1 l2 l3 l4 s))) /\
    copies texts t /\
    Forall2 (moved_value (strings s) texts t) (root_values s) (root_values (set_roots l1 l2 l3 l4 s)) /\
    Forall2 (pair_moved (moved_value (strings s) texts t)) (zip lp (scratch_pairs s)) pl /\
    Forall2 (moved_entry (strings s) texts t) (node_entries (node_store s) live) es /\
    length l1 = length (stack_part s) /\ length l2 = length (locals_part s) /\ length l3 = length (tasks_part s).
Proof.
  intros Hh Hf Ht Hlp Hiff Hlen Hliff. destruct (hp_strings s Hh) as [_ Hu Hl _].
  assert (Hcv := copier_value (strings s) texts Hf Ht ltac:(lia) ltac:(lia)).
  assert (Hcp := copier_pair _ _ extends_refl extends_trans _ _ _ Hcv).
  unfold bind. destruct (copier_roots _ _ extends_refl extends_trans _ _ _ [] s Hcv) as (l1 & l2 & l3 & l4 & t1 & -> & C1 & E1 & R1 & F1 & L1 & L2 & L3).
  - eapply Forall_impl; [exact (to_roots s (hp_texts s Hh))|]. by apply heap_value_ptrs.
  - exists []. split; [done|]. split; [constructor|]. intros c Hc. by apply not_elem_of_nil in Hc.
  - destruct (walk_pairs_run s lp texts t1 Hh Hf Ht Hiff C1 (set_roots l1 l2 l3 l4 s) eq_refl) as (pl & t2 & E & C2 & E2 & F2).
    rewrite E.
    destruct (walk_nodes_run s live texts t2 Hh Hf Ht Hlen Hliff C2 (set_scratch_pairs (map snd pl) (set_roots l1 l2 l3 l4 s)) eq_refl) as (es & t3 & -> & C3 & E3 & F3).
    exists l1, l2, l3, l4, pl, es, t3. split; [done|]. split; [done|]. rewrite R1. split_and!; try done.
    + eapply Forall2_impl; [exact F1|]. intros x y Hxy. eapply (proj1 Hcv); [|exact Hxy]. by eapply extends_trans.
    + eapply Forall2_impl; [exact F2|]. intros x y Hxy. eapply (proj1 Hcp); [|exact Hxy]. done.
Qed.

Lemma set_roots_control l1 l2 l3 l4 s :
  length l1 = length (stack_part s) -> length l2 = length (locals_part s) ->
  control_view (set_roots l1 l2 l3 l4 s) = control_view s.
Proof.
  intros L1 L2. unfold set_roots, control_view, set_stack_part, set_locals_part, set_tasks_part. cbn.
  unfold stack_part in L1. rewrite length_rev in L1. unfold locals_part, ztake in L2. rewrite length_take in L2.
  assert (E1 : zlen (rev l1) = zlen (stack s)) by (unfold zlen; by rewrite length_rev, L1).
  assert (E2 : zlen (l2 ++ zdrop (locals_count s) (locals s)) = zlen (locals s)).
  { unfold zlen, zdrop. rewrite length_app, length_drop, L2. lia. }
  by rewrite E1, E2.
Qed.

Lemma compact_strings_run s : heap_ok s ->
  match aivm_compact_string_arena s with
  | Ok _ s' => strings_moved s s'
  | Err s' => refused s s'
  | Undef => False
  end.
Proof.
  intros Hh. unfold aivm_compact_string_arena, bind at 1, get.
  destruct (Z.eqb_spec (zlen (sa_text (strings s))) 0) as [Hz|Hnz].
  { cbn. assert (He : sa_text (strings s) = []) by (destruct (sa_text (strings s)); [done|]; rewrite zlen_cons in Hz; pose proof (zlen_nonneg l); lia).
    split; try done; [by apply Forall_Forall2_diag, Forall_forall|]. exists []. split; [|intros c Hc; by apply not_elem_of_nil in Hc].
    split; [done|constructor|constructor|apply Hh|]. intros _ off c Hat%text_at_bounds. pose proof (zlen_nonneg c). change (zlen (flat [])) with 0 in Hat. lia. }
  unfold bind at 1 2 3, alloc. set (s1 := set_tick _ (set_tick _ (set_tick _ s))).
  destruct (negb _) eqn:Ea; [split; [starved_by Ea|by eexists _, _]|].
  assert (Hh1 : heap_ok s1) by (by do 3 apply heap_ok_tick).
  unfold bind at 1. pose proof (mark_node_handles_run s1 [] (hp_nodes _ Hh1) (hp_handles _ Hh1) (Forall_nil_2 _)) as Hmark.
  destruct (aivm_vm_mark_live_node_handles [] s1) as [live s2|s2|]; [| |done].
  2: { destruct Hmark as (Hsv & t & d & ->). split; [done|]. by eexists _, _. }
  destruct Hmark as ([t2 ->] & Hlen & Hclosed & Hliff). set (s2 := set_tick t2 s1) in *.
  assert (Hh2 : heap_ok s2) by (by apply heap_ok_tick).
  unfold bind at 1. pose proof (mark_handles_valid s2 (hp_handles _ Hh2)) as Hmark.
  destruct (aivm_vm_mark_live_scratch_pair_handles s2) as [lp s3|s3|]; [| |done].
  2: { destruct Hmark as (Hsv & t & d & ->). split; [done|]. by eexists _, _. }
  destruct Hmark as ([t3 ->] & Hlp & Hlpiff). set (s3 := set_tick t3 s2) in *.
  assert (Hh3 : heap_ok s3) by (by apply heap_ok_tick).
  destruct (so_texts _ (hp_strings s Hh)) as (texts & Hf & Ht).
  destruct (compact_walks_run s3 live lp texts Hh3 Hf Ht Hlp Hlpiff Hlen Hliff)
    as (l1 & l2 & l3 & l4 & pl & es & t & Hwalk & Hcp & F1 & F2 & F3 & L1 & L2 & L3).
  set (s4 := set_node_store _ _) in Hwalk. change (strings s) with (strings s3).
  (* the walks, then the new arena *)
  unfold bind in Hwalk. unfold bind at 1. destruct (walk_roots _ [] s3) as [ta sa|sa|]; [|done|done].
  unfold bind at 1. destruct (walk_live_pairs _ lp ta sa) as [tb sb|sb|]; [|done|done]. unfold bind at 1. rewrite Hwalk.
  unfold bind, put_strings, modify. set (s5 := set_strings _ s4).
  destruct Hcp as (new & Enew & Hnd & Hsub). assert (Hnf : Forall nul_free new) by (rewrite Forall_forall in *; auto).
  pose proof (rebuild_ok s5 new Hnf Enew (proj1 (so_index _ (hp_strings s Hh)))) as Hr.
  destruct (rebuild_exact s5 new Hnf Hnd Enew (proj1 (so_index _ (hp_strings s Hh)))) as (s6' & Er & Hexact).
  destruct (aivm_vm_rebuild_string_intern_index s5) as [[] s6|s6|]; [|done|done]. injection Er as <-.
  destruct Hr as [Ho Hidx]. destruct (only_index_text _ _ Ho) as (E1 & E2 & E3 & E4).
  assert (Hfit : zlen t <= zlen (sa_text (strings s))).
  { rewrite Ht. apply copies_fit. by exists new. }
  destruct Ho as (ents & cnt & cmpl & tk & _ & ->). clear Hwalk.
  set (s6 := set_tick tk _) in *.
  destruct (moved_heap s3 s6 Hh3 live lp texts t pl es) as (M1 & M2 & M3 & M4 & M5 & M6 & M7 & M8); try done.
  assert (Ha : reads_alike s s3) by done.
  constructor; [| | |exact Hfit|done| | | |done].
  - split; [done|done| |done]. split; [by exists new|cbn in *; pose proof (so_used _ (hp_strings s Hh)); lia|apply Hh|done].
  - eapply Forall2_impl; [exact M4|]. intros v v' Hv d. rewrite (Hv d). by apply document_alike.
  - intros h Hr. destruct (M5 h Hr) as [Hr' Hd]. split; [done|]. intros d. rewrite (Hd d). apply node_document_alike; [apply Ha|done].
  - cbn. split; [|done]. exact (set_roots_control l1 l2 l3 l4 s3 L1 L2).
  - intros P HP He. by eapply (leaves_moved s3 s6).
  - exists new. split; [done|]. intros c Hc%Hsub. rewrite Ht. apply list_elem_of_split in Hc as (pre & post & ->).
    exists (zlen (flat pre)). by exists pre, post.
Qed.

(** C5: compacting the string arena.  From a well-formed heap a compaction
    either reports memory pressure and has changed nothing, or succeeds: the copies
    of the live texts always fit the new block, no read leaves the arena, and the
    rebuilt index leads only to texts.  Afterwards every text is in the arena once, all of
    them were there before, and the index, unless it had to be given up, finds each of
    them and nothing else.  The heap is well-formed again and
    takes no more bytes than before, every value of the stack, the locals, the task
    results and the parallel contexts stands for the same document, at every depth
    and down to the bytes of its texts, and so does every node that can be reached;
    the control state has not changed. *)
Theorem compact_strings_preserves s : heap_ok s ->
  match aivm_compact_string_arena s with
  | Ok _ s' =>
      heap_ok s' /\ zlen (sa_text (strings s')) <= zlen (sa_text (strings s)) /\
      Forall2 (same_document s s') (root_values s) (root_values s') /\
      (forall h, reachable_node s [] h -> forall d, node_document d s' h = node_document d s h) /\
      control_view s' = control_view s /\ status s' = status s /\
      exists new, index_exact new (strings s') /\ forall c, c ∈ new -> exists off, text_at (sa_text (strings s)) off c
  | Err s' => refused s s'
  | Undef => False
  end.
Proof.
  intros Hh. pose proof (compact_strings_run s Hh) as Hr. destruct (aivm_compact_string_arena s); [|done|done].
  destruct Hr as [H1 H2 H3 H4 _ [H5 H6] _ H7 _]. split_and!; try done. intros h Hh'. by apply H3.
Qed.

End Compaction.

(** ** Example *)

(** The arena holds a dead text, then "n" and "hi"; the stack holds "hi" and a node
    of kind "n" whose id is "hi". *)
Definition example_strings : AivmVm :=
  let a := strings example_vm in
  let text := bytes_of_string "dead" ++ [0] ++ bytes_of_string "n" ++ [0] ++ bytes_of_string "hi" ++ [0] in
  set_stack [VString (SArena 0 7); VNode 1]
    (set_node_store (set_nodes [mk_node (SArena 0 5) (SArena 0 7) 0 0 0 0] (node_store example_vm))
       (set_strings (set_sa_text text a) example_vm)).

Lemma example_text_at off c : (off, c) ∈ [(5, bytes_of_string "n"); (7, bytes_of_string "hi")] ->
  text_at (sa_text (strings example_strings)) off c.
Proof.
  intros Hin. assert (Hf : Forall nul_free [bytes_of_string "dead"; bytes_of_string "n"; bytes_of_string "hi"]).
  { repeat constructor; done. }
  apply elem_of_cons in Hin as [E|Hin]; [injection E as -> ->|apply list_elem_of_singleton in Hin; injection Hin as -> ->].
  - by exists [bytes_of_string "dead"], [bytes_of_string "hi"].
  - by exists [bytes_of_string "dead"; bytes_of_string "n"], [].
Qed.

Lemma example_heap_ok : heap_ok example_strings.
Proof.
  assert (Hk : str_valid example_strings (SArena 0 5)).
  { split; [done|]. exists (bytes_of_string "n"). apply example_text_at. by left. }
  assert (Hi : str_valid example_strings (SArena 0 7)).
  { split; [done|]. exists (bytes_of_string "hi"). apply example_text_at. right. by left. }
  split.
  - split; [done|repeat constructor; done|done|done| |split; vm_compute; discriminate..].
    intros i nd c Hi' Hc. pose proof (zget_Some_bounds _ _ _ Hi') as Hb. change (zlen _) with 1 in Hb.
    assert (i = 0) as -> by lia. injection Hi' as <-. vm_compute in Hc. by inversion Hc.
  - split; [repeat constructor; by vm_compute| |constructor|repeat constructor; by vm_compute].
    intros i p _ Hp. pose proof (zget_Some_bounds _ _ _ Hp) as Hb. change (zlen _) with 0 in Hb. lia.
  - split; [|by vm_compute|by vm_compute|].
    + exists [bytes_of_string "dead"; bytes_of_string "n"; bytes_of_string "hi"]. split; [repeat constructor; done|done].
    + split; [by left|constructor].
  - split.
    + change (root_values example_strings) with [VNode 1; VString (SArena 0 7)].
      apply Forall_cons. split; [done|]. apply Forall_singleton. exact Hi.
    + intros i p _ Hp. pose proof (zget_Some_bounds _ _ _ Hp) as Hb. change (zlen _) with 0 in Hb. lia.
    + intros h nd _ Hl. unfold aivm_vm_lookup_node in Hl. change (node_count _) with 1 in Hl. destruct (_ || _) eqn:E; [done|].
      assert (h = 1) as -> by lia. injection Hl as <-. split; [done|]. split; [done|constructor].
Qed.

Lemma compact_strings_preserves_witness :
  match aivm_compact_string_arena (H := example_host) example_strings with
  | Ok _ s' => heap_ok s' /\ Forall2 (same_document example_strings s') (root_values example_strings) (root_values s') /\
      sa_text (strings s') = bytes_of_string "hi" ++ [0] ++ bytes_of_string "n" ++ [0]
  | _ => False
  end.
Proof.
  pose proof (compact_strings_preserves (H := example_host) example_strings example_heap_ok) as Hrun.
  assert (Hc : match aivm_compact_string_arena (H := example_host) example_strings with
    | Ok _ s' => bool_decide (sa_text (strings s') = bytes_of_string "hi" ++ [0] ++ bytes_of_string "n" ++ [0]) | _ => false end = true)
    by (vm_compute; reflexivity).
  destruct (aivm_compact_string_arena (H := example_host) example_strings) as [[] s'|s'|]; [|done|done].
  destruct Hrun as (H1 & _ & H2 & _). split; [exact H1|]. split; [exact H2|]. by apply bool_decide_eq_true in Hc.
Defined.
