(* ===== verification/StringCopy.v ===== *)
(** * Allocation and copies in the string arena

    aivm_string_arena_alloc and aivm_string_arena_reserve (src/src/aivm_vm_arena.c) and
    the three copies of src/src/aivm_vm_string_copy.c: whatever happens on the way
    (growth of the limit, a compaction, a lost index), a copy reads as its input and
    the values of the VM stand for the same documents. *)

From S2P Require Import Prelude Types Program Vm Memory Lifecycle Stack ControlSafety Roots Pairs.
From S2P Require Import NodeGc NodeMark NodeMove NodeCompact Moves Strings StringText StringIndex StringGc StringCompact.

(** ** What the operations keep *)

(** Everything outside the arena, the host's answers and the error. *)
Definition outside (s : AivmVm) :=
  (control_view s, program s, stack s, locals s, locals_count s, bytes_arena s, completed_tasks s, par_values s,
   scratch_pairs s, node_store s, node_builders s).

(** The heap is well-formed and stands for the same documents. *)
Record kept (s s' : AivmVm) : Prop := {
  kp_heap : heap_ok s';
  kp_roots : Forall2 (same_document s s') (root_values s) (root_values s');
  kp_nodes : forall h, reachable_node s [] h -> reachable_node s' [] h /\ forall d, node_document d s' h = node_document d s h;
  kp_control : control_view s' = control_view s;
  kp_leaves : forall P, (forall p, P (VString p)) -> everywhere P s -> everywhere P s';
  kp_rest : program s' = program s /\ bytes_arena s' = bytes_arena s /\ node_builders s' = node_builders s /\
    host_handles s' = host_handles s /\ zlen (scratch_pairs s') = zlen (scratch_pairs s) /\
    node_count (node_store s') = node_count (node_store s) /\ node_attr_count (node_store s') = node_attr_count (node_store s) /\
    node_child_count (node_store s') = node_child_count (node_store s) }.

Lemma same_document_trans s1 s2 s3 v1 v2 v3 : same_document s1 s2 v1 v2 -> same_document s2 s3 v2 v3 -> same_document s1 s3 v1 v3.
Proof. intros H1 H2 d. by rewrite (H2 d), (H1 d). Qed.

Lemma Forall2_compose {A} (P Q R : A -> A -> Prop) l1 l2 l3 : (forall x y z, P x y -> Q y z -> R x z) ->
  Forall2 P l1 l2 -> Forall2 Q l2 l3 -> Forall2 R l1 l3.
Proof.
  intros HR H12. revert l3. induction H12 as [|x y l l' Hxy _ IH]; intros l3 H23; inversion H23; subst; constructor; eauto.
Qed.

Lemma kept_trans s1 s2 s3 : kept s1 s2 -> kept s2 s3 -> kept s1 s3.
Proof.
  intros [A1 A2 A3 A4 A6 A5] [B1 B2 B3 B4 B6 B5]. split; [done| | |congruence|intros P HP He; by apply B6, A6|].
  - eapply Forall2_compose; [|exact A2|exact B2]. intros ? ? ?. apply same_document_trans.
  - intros h Hh. destruct (A3 h Hh) as [Hh2 E2]. destruct (B3 h Hh2) as [Hh3 E3]. split; [done|]. intros d. by rewrite E3, E2.
  - destruct A5 as (? & ? & ? & ? & ? & ? & ? & ?), B5 as (? & ? & ? & ? & ? & ? & ? & ?). split_and!; congruence.
Qed.

Lemma moved_kept s s' : strings_moved s s' -> kept s s'.
Proof. intros [H1 H2 H3 _ _ [H4 _] H5 H6]. by split. Qed.

(** The arena only grew: nothing else has changed. *)
Record grown (s s' : AivmVm) : Prop := {
  gr_outside : outside s' = outside s;
  gr_gen : sa_gen (strings s') = sa_gen (strings s);
  gr_text : extends (sa_text (strings s)) (sa_text (strings s'));
  gr_capacity : sa_capacity (strings s') = sa_capacity (strings s);
  gr_limit : sa_limit (strings s) <= sa_limit (strings s');
  gr_strings : strings_ok (strings s') }.

Lemma grown_refl s : strings_ok (strings s) -> grown s s.
Proof. intros. split; try done. apply extends_refl. Qed.

Lemma grown_trans s1 s2 s3 : grown s1 s2 -> grown s2 s3 -> grown s1 s3.
Proof. intros [] []. split; try congruence; [by eapply extends_trans|lia]. Qed.

Lemma outside_eq s s' : outside s' = outside s ->
  control_view s' = control_view s /\ program s' = program s /\ bytes_arena s' = bytes_arena s /\ scratch_pairs s' = scratch_pairs s /\
  node_store s' = node_store s /\ node_builders s' = node_builders s /\ root_values s' = root_values s.
Proof.
  unfold outside. intros [= E1 E2 E3 E4 E5 E6 E7 E8 E9 E10 E11]. split_and!; try done.
  - unfold control_view. congruence.
  - unfold root_values, stack_part, locals_part, tasks_part. congruence.
Qed.

(** A valid pointer stays valid and reads the same. *)
Lemma grown_valid s s' p : grown s s' -> str_valid s p -> str_valid s' p /\ read_str s' p = read_str s p.
Proof.
  intros [Ho Hg Ht _ _ _]. destruct (outside_eq _ _ Ho) as (_ & Hp & _). destruct p as [|gen off|off|c]; cbn; try done.
  - intros [-> (c & Hat)]. rewrite Hg, !Z.eqb_refl. pose proof (text_at_extends _ _ _ _ Ht Hat) as Hat'.
    split; [split; [done|by exists c]|]. by rewrite (text_at_reads _ _ _ Hat), (text_at_reads _ _ _ Hat').
  - intros (c & Hc). rewrite Hp. rewrite Hc. split; [by exists c|done].
Qed.

Lemma grown_attr s s' x : grown s s' -> attr_valid s x -> attr_valid s' x /\ resolve_attr s' x = resolve_attr s x.
Proof.
  intros Hg [H1 H2]. unfold attr_valid, resolve_attr, resolve_str. destruct (grown_valid s s' _ Hg H1) as [V1 ->].
  destruct (attr_value x) as [p|p|i|b]; try done; by destruct (grown_valid s s' _ Hg H2) as [V2 ->].
Qed.

Section Grown.

Context (s s' : AivmVm) (Hh : heap_ok s) (Hg : grown s s').

Lemma grown_reachable h : reachable_node s' [] h <-> reachable_node s [] h.
Proof.
  destruct (outside_eq _ _ (gr_outside _ _ Hg)) as (_ & _ & _ & E1 & E2 & E3 & E4).
  unfold reachable_node, held_node, reachable_pair, builder_handles, host_handles. by rewrite E1, E2, E3, E4.
Qed.

Lemma grown_node_document d : forall h, reachable_node s [] h -> node_document d s' h = node_document d s h.
Proof.
  destruct (outside_eq _ _ (gr_outside _ _ Hg)) as (_ & _ & _ & _ & E & _).
  induction d as [|d IH]; intros h Hr; [done|]. unfold node_document. cbn [unfold_node]. rewrite E.
  destruct (aivm_vm_lookup_node (node_store s) h) as [nd|] eqn:El; [|done].
  destruct (to_nodes s (hp_texts s Hh) h nd Hr El) as (V1 & V2 & V3). cbn [resolve_ntree]. unfold resolve_str.
  rewrite (proj2 (grown_valid s s' _ Hg V1)), (proj2 (grown_valid s s' _ Hg V2)), !map_map. f_equal.
  - apply map_ext_in. intros x Hx%list_elem_of_In. rewrite Forall_forall in V3. apply (grown_attr s s' x Hg), V3, Hx.
  - apply map_ext_in. intros c Hc%list_elem_of_In. specialize (IH c). unfold node_document in IH. rewrite E in IH. apply IH.
    destruct Hr as (r & H1 & H2 & H3). exists r. split; [done|]. split; [done|]. eapply rtc_r; [done|]. by exists nd.
Qed.

Lemma grown_value v : value_valid s v -> value_valid s' v /\ resolve_value s' v = resolve_value s v.
Proof.
  destruct (outside_eq _ _ (gr_outside _ _ Hg)) as (_ & E1 & E2 & _).
  destruct v; try done; intros Hv; cbn.
  - destruct (grown_valid s s' p Hg Hv) as [V E]. split; [done|]. unfold resolve_str. by rewrite E.
  - split; [done|]. unfold resolve_bytes, read_bytes. by rewrite E1, E2.
Qed.

Lemma grown_heap_ok : heap_ok s'.
Proof.
  destruct (outside_eq _ _ (gr_outside _ _ Hg)) as (_ & _ & _ & E1 & E2 & E3 & E4). destruct Hh as [H1 [A1 A2 A3 A4] H3 [B1 B2 B3]].
  split.
  - by rewrite E2.
  - split; unfold value_handle_ok, reachable_pair, builder_handles, host_handles in *; by rewrite ?E1, ?E2, ?E3, ?E4.
  - apply Hg.
  - split.
    + rewrite E4. eapply Forall_impl; [exact B1|]. intros v Hv. by apply grown_value.
    + intros i p. unfold reachable_pair. rewrite E1, E4. intros Hi Hp. destruct (B2 i p Hi Hp). split; by apply grown_value.
    + intros h nd Hr. rewrite E2. intros Hl. apply grown_reachable in Hr. destruct (B3 h nd Hr Hl) as (V1 & V2 & V3).
      split; [by apply (grown_valid s s')|]. split; [by apply (grown_valid s s')|]. eapply Forall_impl; [exact V3|].
      intros x Hx. by apply (grown_attr s s').
Qed.

Lemma grown_kept : kept s s'.
Proof.
  destruct (outside_eq _ _ (gr_outside _ _ Hg)) as (E0 & E1 & E2 & E3 & E4 & E5 & E6). split; [exact grown_heap_ok| | |done|intros P _; by apply everywhere_same|].
  - apply (documents_unmoved s s' (value_valid s)); try done; try apply Hh; [intros v Hv; by apply grown_value|].
    intros h Hr d. by apply grown_node_document.
  - intros h Hr. split; [by apply grown_reachable|]. intros d. by apply grown_node_document.
  - unfold host_handles. rewrite E1, E2, E3, E4, E5. done.
Qed.

End Grown.

(** ** Room *)

Lemma arena_grow_limit_bounds current step max_value : 0 < step -> current <= max_value ->
  current <= arena_grow_limit current step max_value <= max_value /\
  (current < max_value -> max_value - arena_grow_limit current step max_value <= Z.max 0 (max_value - current - step)).
Proof.
  intros Hs Hc. unfold arena_grow_limit. destruct (Z.leb_spec max_value current); [lia|].
  destruct (aivm_size_add_checked current step) as [next|] eqn:E; [|lia].
  apply size_add_checked_Some in E as [_ ->]. destruct (Z.ltb_spec max_value (current + step)); lia.
Qed.

Lemma strings_ok_limit a limit : strings_ok a -> sa_limit a <= limit <= sa_capacity a -> strings_ok (set_sa_limit limit a).
Proof. intros [H1 H2 H3 H4] Hl. split; cbn; [done|lia|lia|exact H4]. Qed.

Lemma strings_ok_pressure a n : strings_ok a -> strings_ok (set_sa_pressure_count n a).
Proof. by intros [H1 H2 H3 H4]. Qed.

Section Host.

Context `{Host}.

Lemma growth_available_run growth s : strings_ok (strings s) ->
  match aivm_vm_host_memory_growth_available growth s with
  | Ok _ s' | Err s' => grown s s' /\ strings s' = strings s /\ status s' = status s
  | Undef => False
  end.
Proof.
  intros Hs. unfold aivm_vm_host_memory_growth_available, bind at 1, get. destruct (negb _); [by split; [apply grown_refl|]|].
  unfold bind at 1, snapshot. destruct (host_memory_snapshot _) as [[total available]|].
  - destruct (aivm_host_memory_growth_allowed _ _ _ _) as [[] susp]; (split; [split; try done; apply extends_refl|done]).
  - split; [split; try done; apply extends_refl|done].
Qed.

Lemma grow_limit_run fuel needed : forall s, strings_ok (strings s) ->
  sa_capacity (strings s) - sa_limit (strings s) <= Z.of_nat fuel * AIVM_VM_STRING_ARENA_GROWTH_STEP ->
  match grow_string_limit fuel needed s with
  | Ok _ s' => grown s s' /\ sa_text (strings s') = sa_text (strings s) /\ status s' = status s /\ needed <= sa_limit (strings s')
  | Err s' => grown s s' /\ sa_text (strings s') = sa_text (strings s) /\ status s' = status s
  | Undef => False
  end.
Proof.
  induction fuel as [|fuel IH]; intros s Hs Hf; cbn [grow_string_limit]; unfold bind at 1, get.
  all: destruct (Z.ltb_spec (sa_limit (strings s)) needed) as [Hn|Hn]; destruct (Z.ltb_spec (sa_limit (strings s)) (sa_capacity (strings s))) as [Hc|Hc]; cbn [andb].
  all: try (destruct (Z.leb_spec needed (sa_limit (strings s))); cbn; split_and!; try done; try lia; by apply grown_refl).
  { lia. }
  set (next := arena_grow_limit _ _ _).
  pose proof (arena_grow_limit_bounds (sa_limit (strings s)) AIVM_VM_STRING_ARENA_GROWTH_STEP (sa_capacity (strings s)) ltac:(done) ltac:(lia)) as [Hb Hr].
  fold next in Hb, Hr. specialize (Hr Hc).
  set (permit := if bool_decide (runtime_profile s = AIVM_RUNTIME_PROFILE_TOOLING)
      then aivm_vm_host_memory_growth_available (next - sa_limit (strings s)) else ret tt).
  assert (Hm : match permit s with
    | Ok _ s' | Err s' => grown s s' /\ strings s' = strings s /\ status s' = status s | Undef => False end).
  { unfold permit. case_bool_decide; [by apply growth_available_run|by split; [apply grown_refl|]]. }
  unfold bind at 1. destruct (permit s) as [[] s1|s1|]; [| |done].
  2: { destruct Hm as (G & E & St). split; [done|]. by rewrite E. }
  destruct Hm as (G1 & E1 & St1). unfold bind at 1, put_strings, modify. set (s2 := set_strings _ s1).
  assert (Hs2 : strings_ok (strings s2)) by (cbn; rewrite E1; by apply strings_ok_limit).
  assert (G2 : grown s s2).
  { split; [apply (gr_outside _ _ G1)|cbn; by rewrite E1|cbn; rewrite E1; apply extends_refl|cbn; by rewrite E1|cbn; lia|done]. }
  assert (Hf2 : sa_capacity (strings s2) - sa_limit (strings s2) <= Z.of_nat fuel * AIVM_VM_STRING_ARENA_GROWTH_STEP).
  { cbn [strings set_strings s2 sa_capacity set_sa_limit sa_limit]. rewrite E1. unfold AIVM_VM_STRING_ARENA_GROWTH_STEP in *. lia. }
  specialize (IH s2 Hs2 Hf2).
  assert (Et : sa_text (strings s2) = sa_text (strings s)) by (cbn; by rewrite E1).
  assert (Est : status s2 = status s) by exact St1.
  destruct (grow_string_limit fuel needed s2) as [[] s3|s3|]; [| |done].
  - destruct IH as (G & E & St & Hle). split; [by eapply grown_trans|]. split; [congruence|]. split; [congruence|done].
  - destruct IH as (G & E & St). split; [by eapply grown_trans|]. split; congruence.
Qed.

(** The limit grows in steps of 16 KiB up to the capacity: the rounds are enough. *)
Lemma string_fits_run needed s : strings_ok (strings s) ->
  match string_fits needed s with
  | Ok _ s' => grown s s' /\ sa_text (strings s') = sa_text (strings s) /\ status s' = status s /\ needed <= sa_limit (strings s')
  | Err s' => grown s s' /\ sa_text (strings s') = sa_text (strings s) /\ status s' = status s
  | Undef => False
  end.
Proof.
  intros Hs. unfold string_fits, bind at 1, get. destruct (Z.ltb_spec (sa_limit (strings s)) needed).
  - unfold ensure_string_arena_capacity, bind at 1, get. apply grow_limit_run; [done|]. unfold grow_rounds.
    destruct Hs as [_ _ [Hl _] _]. unfold AIVM_VM_STRING_ARENA_GROWTH_STEP. rewrite Z2Nat.id by mlia. mlia.
  - cbn. split; [by apply grown_refl|done].
Qed.

(** Whatever fails, the heap is kept and an error is set. *)
Definition failed (s s' : AivmVm) : Prop := kept s s' /\ status s' = AIVM_VM_STATUS_ERROR.

Lemma kept_refl s : heap_ok s -> kept s s.
Proof. intros Hh. apply grown_kept; [done|]. apply grown_refl, Hh. Qed.

Lemma pressure_run s : heap_ok s -> exists s1, string_pressure s = Ok tt s1 /\ grown s s1 /\ status s1 = status s.
Proof.
  intros Hh. eexists. split; [done|]. split; [|done]. split; try done; [apply extends_refl|]. by apply strings_ok_pressure, Hh.
Qed.

Lemma heap_ok_error s e d : heap_ok s -> heap_ok (aivm_set_vm_error e d s).
Proof. intros Hh. apply (grown_heap_ok s); [done|]. split; try done; [apply extends_refl|apply Hh]. Qed.

Lemma error_failed s0 s e d : kept s0 s -> failed s0 (aivm_set_vm_error e d s).
Proof.
  intros Hk. split; [|done]. eapply kept_trans; [exact Hk|]. apply grown_kept; [apply Hk|].
  split; try done; [apply extends_refl|apply Hk].
Qed.

Lemma exceeded_run {A} s0 s : kept s0 s -> exists s', @string_exceeded A s = Err s' /\ failed s0 s'.
Proof.
  intros Hk. unfold string_exceeded, bind. destruct (pressure_run s (kp_heap _ _ Hk)) as (s1 & -> & G & _).
  eexists. split; [done|]. assert (Hk1 : kept s0 s1) by (eapply kept_trans; [exact Hk|apply grown_kept; [apply Hk|done]]).
  case_bool_decide; [by split|by apply error_failed].
Qed.

Lemma needed_run size s0 s : kept s0 s ->
  match string_needed size s with
  | Ok needed s' => s' = s /\ needed = zlen (sa_text (strings s)) + size
  | Err s' => failed s0 s'
  | Undef => False
  end.
Proof.
  intros Hk. unfold string_needed, bind at 1, get. destruct (aivm_size_add_checked _ _) as [n|] eqn:E.
  - apply size_add_checked_Some in E as [_ ->]. done.
  - unfold bind. destruct (pressure_run s (kp_heap _ _ Hk)) as (s1 & -> & G & _). cbn. apply error_failed.
    eapply kept_trans; [exact Hk|]. apply grown_kept; [apply Hk|done].
Qed.

(** Room for [size] more bytes: the heap is kept, and untouched when there was room. *)
Lemma string_room_run size s : heap_ok s ->
  match string_room size s with
  | Ok needed s' => kept s s' /\ status s' = status s /\ needed = zlen (sa_text (strings s')) + size /\ needed <= sa_limit (strings s') /\
      (zlen (sa_text (strings s)) + size <= sa_limit (strings s) -> s' = s)
  | Err s' => failed s s'
  | Undef => False
  end.
Proof.
  intros Hh. pose proof (kept_refl s Hh) as Hk0. unfold string_room, bind at 1. pose proof (needed_run size s s Hk0) as Hn.
  destruct (string_needed size s) as [n s0|s0|]; [|done|done]. destruct Hn as [-> ->].
  unfold bind at 1, or_else at 1, bind at 1. pose proof (string_fits_run (zlen (sa_text (strings s)) + size) s (hp_strings s Hh)) as Hf.
  assert (Hsecond : forall s1, kept s s1 -> status s1 = status s ->
    (zlen (sa_text (strings s)) + size <= sa_limit (strings s) -> s1 = s) ->
    match (do! or_else (string_fits (zlen (sa_text (strings s1)) + size)) string_exceeded in
           ret (zlen (sa_text (strings s1)) + size)) s1 with
    | Ok needed s' => kept s s' /\ status s' = status s /\ needed = zlen (sa_text (strings s')) + size /\ needed <= sa_limit (strings s') /\
        (zlen (sa_text (strings s)) + size <= sa_limit (strings s) -> s' = s)
    | Err s' => failed s s'
    | Undef => False
    end).
  { intros s1 Hk1 St1 Hs1. unfold bind, or_else. pose proof (string_fits_run (zlen (sa_text (strings s1)) + size) s1 (hp_strings _ (kp_heap _ _ Hk1))) as Hf1.
    destruct (string_fits _ s1) as [[] s2|s2|] eqn:Efit; [| |done].
    - destruct Hf1 as (G & E & St & Hle). cbn. rewrite E. split; [eapply kept_trans; [exact Hk1|apply grown_kept; [apply Hk1|done]]|].
      split; [congruence|]. split; [done|]. split; [done|]. intros Hroom. specialize (Hs1 Hroom). subst s1.
      unfold string_fits, bind, get in Efit. rewrite (proj2 (Z.ltb_ge _ _)) in Efit by lia. by injection Efit.
    - destruct Hf1 as (G & E & St).
      destruct (exceeded_run (A := unit) s s2) as (s3 & -> & Hfl); [|done].
      eapply kept_trans; [exact Hk1|apply grown_kept; [apply Hk1|done]]. }
  destruct (string_fits _ s) as [[] s1|s1|] eqn:Efit; [| |done]; cbn [ret].
  - destruct Hf as (G & E & St & Hle). assert (Hsame : zlen (sa_text (strings s)) + size <= sa_limit (strings s) -> s1 = s).
    { intros Hroom. unfold string_fits, bind, get in Efit. rewrite (proj2 (Z.ltb_ge _ _)) in Efit by lia. by injection Efit. }
    pose proof (Hsecond s1 (grown_kept s s1 Hh G) St Hsame) as Hrun. by rewrite E in Hrun.
  - destruct Hf as (G & E & St). assert (Hk1 : kept s s1) by by apply grown_kept.
    unfold bind at 1, or_else at 1. pose proof (compact_strings_run s1 (kp_heap _ _ Hk1)) as Hc.
    assert (Hnoroom : zlen (sa_text (strings s)) + size <= sa_limit (strings s) -> False).
    { intros Hroom. unfold string_fits, bind, get in Efit. by rewrite (proj2 (Z.ltb_ge _ _)) in Efit by lia. }
    destruct (aivm_compact_string_arena s1) as [[] s2|s2|]; [| |done].
    + assert (Hk2 : kept s s2) by (eapply kept_trans; [exact Hk1|by apply moved_kept]).
      pose proof (needed_run size s s2 Hk2) as Hn2. destruct (string_needed size s2) as [n s3|s3|]; [|done|done].
      destruct Hn2 as [-> ->]. apply Hsecond; [done| |by intros ?%Hnoroom]. destruct (sm_control _ _ Hc) as [_ Sc]. congruence.
    + destruct Hc as (_ & t & d & ->). destruct (exceeded_run (A := unit) s (aivm_set_vm_error AIVM_VM_ERR_MEMORY_PRESSURE d (set_tick t s1))) as (s3 & -> & Hfl); [|done].
      apply error_failed. eapply kept_trans; [exact Hk1|]. apply grown_kept; [apply Hk1|]. split; try done; [apply extends_refl|apply Hk1].
Qed.

(** ** Writing a text *)

Lemma entry_ok_app text more e : entry_ok text e -> entry_ok (text ++ more) e.
Proof.
  assert (Hg : forall i x, zget text i = Some x -> zget (text ++ more) i = Some x).
  { intros i x Hx. pose proof (zget_Some_bounds _ _ _ Hx). rewrite zget_lookup in * by lia. by apply lookup_app_l_Some. }
  intros [|(H1 & H2 & H3 & H4)]; [by left|]. right. split; [done|]. split; [done|]. split; [by apply Hg|].
  destruct H4; [by left|right; by apply Hg].
Qed.

Lemma extends_block text content : extends text (text ++ content ++ [0]).
Proof. exists (split_nul (content ++ [0])). split; [apply split_nul_free|]. by rewrite split_nul_flat. Qed.

(** The bytes at the end of the arena after the allocation and the write. *)
Lemma write_text_run s text content : sa_text (strings s) = text ++ replicate (length content) 0 ->
  exists s', write_text (zlen text) content s = Ok tt s' /\ s' = set_strings (set_sa_text (text ++ content) (strings s)) s.
Proof.
  intros Ht. unfold write_text, bind, get. rewrite Ht. pose proof (zlen_nonneg text).
  assert (Hz : zlen (text ++ replicate (length content) 0) = zlen text + zlen content) by (rewrite zlen_app; unfold zlen; by rewrite length_replicate).
  rewrite Hz. replace (_ && _) with true by lia.
  eexists. split; [done|]. f_equal. cbn. f_equal. rewrite ztake_app. f_equal.
  rewrite <- zdrop_zdrop by (apply zlen_nonneg || done). rewrite zdrop_app. unfold zdrop, zlen. rewrite Nat2Z.id.
  rewrite drop_ge by (by rewrite length_replicate). apply app_nil_r.
Qed.

Lemma string_room_fits s size : zlen (sa_text (strings s)) + size <= sa_limit (strings s) -> sa_limit (strings s) <= SIZE_MAX ->
  string_room size s = Ok (zlen (sa_text (strings s)) + size) s.
Proof.
  intros Hroom Hl. unfold string_room, string_needed, string_fits, bind, or_else, get, ret.
  rewrite (proj2 (size_add_checked_Some _ _ _)) by (split; [lia|reflexivity]).
  rewrite (proj2 (Z.ltb_ge (sa_limit (strings s)) (zlen (sa_text (strings s)) + size))) by lia.
  by rewrite (proj2 (Z.ltb_ge (sa_limit (strings s)) (zlen (sa_text (strings s)) + size))) by lia.
Qed.

(** A stored text, once there is room: the arena grows by it and it reads back. *)
Lemma store_room_run s content : strings_ok (strings s) -> zlen (sa_text (strings s)) + (zlen content + 1) <= sa_limit (strings s) ->
  exists q s', store_text content (zlen content + 1) s = Ok q s' /\ grown s s' /\ status s' = status s /\
    str_valid s' q /\ read_str s' q = Some (cstr content) /\
    sa_text (strings s') = sa_text (strings s) ++ content ++ [0].
Proof.
  intros Hs Hroom. destruct (so_texts _ Hs) as (texts & Hf & Ht). pose proof (zlen_nonneg content) as Hc0.
  set (text := sa_text (strings s)) in *. pose proof (so_limit _ Hs) as Hl.
  unfold store_text, aivm_string_arena_alloc, bind at 1 2. rewrite string_room_fits by (fold text; lia). fold text.
  unfold bind at 1 2, get, put_strings, modify, ret at 1. fold text.
  set (s1 := set_strings _ s).
  assert (Ht1 : sa_text (strings s1) = text ++ replicate (length (content ++ [0])) 0).
  { cbn. fold text. f_equal. f_equal. rewrite length_app. cbn [length]. unfold zlen. lia. }
  destruct (write_text_run s1 text (content ++ [0]) Ht1) as (s2 & E2 & Es2). unfold bind at 1. rewrite E2.
  assert (Hok2 : index_ok (strings s2)).
  { rewrite Es2. destruct (so_index _ Hs) as [I1 I2]. split; [done|]. cbn. intros Hcm. eapply Forall_impl; [exact (I2 Hcm)|].
    intros e He. by apply entry_ok_app. }
  unfold bind at 1. pose proof (remember_ok s2 texts content [] Hok2) as Hr. rewrite <- Ht in Hr. fold text in Hr.
  destruct (remember_string_in_index (zlen text) content s2) as [[] s3|s3|]; [|exfalso; apply Hr; by rewrite Es2|exfalso; apply Hr; by rewrite Es2].
  destruct Hr as [Ho Hi]; [by rewrite Es2|]. destruct (only_index_text _ _ Ho) as (T1 & T2 & T3 & T4).
  assert (Ht2 : sa_text (strings s2) = text ++ content ++ [0]) by (by rewrite Es2).
  assert (Hsok : strings_ok (strings s3)).
  { split; [| | |done].
    - exists (texts ++ split_nul (content ++ [0])). split; [apply Forall_app; split; [done|apply split_nul_free]|].
      rewrite T1, Ht2, flat_app, split_nul_flat. by rewrite <- Ht.
    - rewrite T1, T3, Ht2, Es2, !zlen_app. change (zlen [0]) with 1. cbn. lia.
    - rewrite T3, T4, Es2. cbn. lia. }
  assert (Hat : text_at (sa_text (strings s3)) (zlen text) (cstr content)).
  { rewrite T1, Ht2. destruct (split_nul_head content) as (l & El). pose proof (split_nul_free (content ++ [0])) as Hfr. rewrite El in Hfr.
    apply Forall_cons in Hfr as [F1 F2]. rewrite <- (split_nul_flat content), El, Ht. by apply text_at_last. }
  assert (Hgen : sa_gen (strings s3) = sa_gen (strings s)) by (rewrite T2, Es2; done).
  exists (SArena (sa_gen (strings s)) (zlen text)), s3. split; [done|]. split_and!.
  - destruct Ho as (? & ? & ? & ? & _ & ->). split; [by rewrite Es2|done| | | |done].
    + rewrite T1, Ht2. apply extends_block.
    + by rewrite T4, Es2.
    + by rewrite T3, Es2.
  - destruct Ho as (? & ? & ? & ? & _ & ->). by rewrite Es2.
  - split; [by rewrite Hgen|]. by eexists.
  - cbn. rewrite Hgen, Z.eqb_refl. by apply text_at_reads.
  - by rewrite T1.
Qed.

Lemma store_text_run s content : heap_ok s ->
  match store_text content (zlen content + 1) s with
  | Ok q s' => kept s s' /\ status s' = status s /\ str_valid s' q /\ read_str s' q = Some (cstr content)
  | Err s' => failed s s'
  | Undef => False
  end.
Proof.
  intros Hh. pose proof (string_room_run (zlen content + 1) s Hh) as Hr.
  destruct (string_room (zlen content + 1) s) as [n s1|s1|] eqn:Er; [| |done].
  - destruct Hr as (Hk & St & -> & Hle & _).
    destruct (store_room_run s1 content (hp_strings _ (kp_heap _ _ Hk)) Hle) as (q & s' & E & G & St' & V & R & _).
    assert (Heq : store_text content (zlen content + 1) s = store_text content (zlen content + 1) s1).
    { unfold store_text, aivm_string_arena_alloc, bind. rewrite Er, (string_room_fits s1); [done|done|].
      pose proof (so_limit _ (hp_strings _ (kp_heap _ _ Hk))). lia. }
    rewrite Heq, E. split; [eapply kept_trans; [exact Hk|apply grown_kept; [apply Hk|done]]|]. split; [congruence|done].
  - unfold store_text, aivm_string_arena_alloc, bind. by rewrite Er.
Qed.

(** ** The copies *)

(** Bytes of a pointer that is not into the arena are the same as long as the program is. *)
Lemma snapshot_run s p n c : heap_ok s -> read_range s p n = Some c ->
  match aivm_vm_snapshot_arena_backed_string p n s with
  | Ok c' s' => c' = c /\ grown s s' /\ status s' = status s /\ (exists t, s' = set_tick t s)
  | Err s' => kept s s'
  | Undef => False
  end.
Proof.
  intros Hh Hr. unfold aivm_vm_snapshot_arena_backed_string, bind at 1, get. rewrite Hr. unfold bind at 1, check, ret at 1.
  assert (Ht : forall t, grown s (set_tick t s)) by (intros t; split; try done; [apply extends_refl|apply Hh]).
  destruct (aivm_pointer_in_string_arena _ _).
  - destruct (aivm_size_add_checked n 1); [|by apply kept_refl]. unfold bind, alloc. destruct (host_alloc _ _); cbn.
    + split; [done|]. split; [apply Ht|]. split; [done|by eexists].
    + by apply grown_kept.
  - cbn. split; [done|]. split; [by apply grown_refl, Hh|]. split; [done|]. exists (tick s). by destruct s.
Qed.

Definition copy_of (s : AivmVm) (c : list Z) (q : str_ptr) (s' : AivmVm) : Prop :=
  kept s s' /\ status s' = status s /\ str_valid s' q /\ read_str s' q = Some c.

Lemma text_found s off c : heap_ok s -> text_at (sa_text (strings s)) off c -> copy_of s c (SArena (sa_gen (strings s)) off) s.
Proof.
  intros Hh Hat. split; [by apply kept_refl|]. split; [done|]. split; [split; [done|by exists c]|].
  cbn. rewrite Z.eqb_refl. by apply text_at_reads.
Qed.

Lemma lookup_range_run s input : heap_ok s ->
  match lookup_string_range_in_arena input s with
  | Ok (Some q) s' => s' = s /\ copy_of s (cstr input) q s
  | Ok None s' => s' = s
  | _ => False
  end.
Proof.
  intros Hh. destruct (so_texts _ (hp_strings s Hh)) as (texts & Hf & Ht).
  unfold lookup_string_range_in_arena, bind at 1, get.
  pose proof (index_sound (strings s) texts input Hf Ht (so_index _ (hp_strings s Hh))) as Hi. unfold bind at 1.
  destruct (lookup_string_in_index (strings s) input) as [[off|]|]; [| |done]; cbn [check ret].
  - split; [done|]. apply text_found; [done|]. rewrite Ht. apply Hi.
  - destruct (si_complete (strings s)); [done|]. unfold bind. rewrite Ht.
    destruct (scan_text_found texts input Hf) as [(off & -> & Hat)|[-> _]]; cbn; [|done].
    split; [done|]. apply text_found; [done|]. rewrite Ht. by rewrite (cstr_idem input (text_at_free _ _ _ Hat)).
Qed.

Lemma read_range_zlen s p n c : read_range s p n = Some c -> zlen c = n.
Proof.
  assert (Hb : forall b o, read_block b o n = Some c -> zlen c = n) by (intros b o Hr; by apply read_block_split in Hr as (? & ? & _ & _ & ->)).
  destruct p; cbn; [done| | |]; repeat case_match; try done; apply Hb.
Qed.

Lemma cstr_prefix l : exists rest, l = cstr l ++ rest.
Proof. induction l as [|b l [r IH]]; [by exists []|]. cbn. destruct (b =? 0); [by exists (b :: l)|]. exists r. cbn. by rewrite <- IH. Qed.

Lemma cstring_block mem off c : cstring_at mem off = Some c -> read_block mem off (zlen c) = Some c.
Proof.
  unfold cstring_at. destruct (Z.ltb_spec off 0); [done|]. destruct (existsb _ _) eqn:Ex; [|done]. intros [= <-].
  destruct (cstr_prefix (zdrop off mem)) as [r Er]. unfold read_block, Program.slice.
  assert (Hz : zlen (zdrop off mem) = zlen (cstr (zdrop off mem)) + zlen r) by (rewrite Er at 1; apply zlen_app).
  pose proof (zlen_nonneg r). pose proof (zlen_nonneg (cstr (zdrop off mem))).
  assert (Hle : off <= zlen mem).
  { destruct (Z.le_gt_cases off (zlen mem)); [done|]. unfold zdrop in Ex. rewrite drop_ge in Ex by (unfold zlen in *; lia). done. }
  rewrite zlen_zdrop in Hz by lia. replace (_ && _) with true by lia. f_equal. rewrite Er at 2. apply ztake_app.
Qed.

Lemma read_str_range s p c : read_str s p = Some c -> read_range s p (zlen c) = Some c.
Proof.
  destruct p as [|gen off|off|content]; cbn; [done| | |].
  - destruct (gen =? _); [apply cstring_block|done].
  - destruct (program s); [apply cstring_block|done].
  - intros [= ->]. unfold read_block, Program.slice. pose proof (zlen_nonneg c). rewrite zlen_app. change (zlen [0]) with 1.
    replace (_ && _) with true by lia. f_equal. unfold zdrop. cbn. apply ztake_app.
Qed.

Lemma valid_reads s p : str_valid s p -> p <> SNull -> exists c, read_str s p = Some c /\ nul_free c.
Proof.
  destruct p as [|gen off|off|c]; cbn; [done| | |].
  - intros [-> (c & Hat)] _. exists c. rewrite Z.eqb_refl. split; [by apply text_at_reads|by eapply text_at_free].
  - intros (c & Hc) _. exists c. split; [done|]. destruct (program s); [|done]. unfold cstring_at in Hc. destruct (_ <? 0); [done|].
    destruct (existsb _ _); [|done]. injection Hc as <-. apply cstr_nul_free.
  - intros Hc _. by exists c.
Qed.

(** The copy of a range: the text up to the first NUL. *)
Lemma copy_range_run s p n c : heap_ok s -> p <> SNull -> read_range s p n = Some c ->
  match aivm_vm_copy_string_range_to_arena p n s with
  | Ok q s' => copy_of s (cstr c) q s'
  | Err s' => kept s s'
  | Undef => False
  end.
Proof.
  intros Hh Hp Hr. unfold aivm_vm_copy_string_range_to_arena. rewrite bool_decide_eq_false_2 by done.
  unfold bind at 1, get. rewrite Hr. unfold bind at 1, check, ret at 1. unfold bind at 1.
  pose proof (lookup_range_run s c Hh) as Hl.
  destruct (lookup_string_range_in_arena c s) as [[q|] s0|s0|]; [|subst s0|done|done]; [by destruct Hl as [-> Hl]|].
  destruct (aivm_size_add_checked n 1) as [bn|] eqn:En; [|by apply kept_refl]. apply size_add_checked_Some in En as [_ ->].
  unfold bind. pose proof (snapshot_run s p n c Hh Hr) as Hs.
  destruct (aivm_vm_snapshot_arena_backed_string p n s) as [c' s1|s1|]; [|done|done]. destruct Hs as (-> & G & St & _).
  rewrite <- (read_range_zlen _ _ _ _ Hr). pose proof (store_text_run s1 c (grown_heap_ok s s1 Hh G)) as Hst.
  destruct (store_text c (zlen c + 1) s1) as [q s2|s2|]; [| |done].
  - destruct Hst as (K & St' & V & R). split; [eapply kept_trans; [by apply grown_kept|done]|]. split; [congruence|done].
  - destruct Hst as [K _]. eapply kept_trans; [by apply grown_kept|done].
Qed.

Lemma copy_splice_run s p n c p2 n2 c2 : heap_ok s -> p <> SNull -> p2 <> SNull -> read_range s p n = Some c -> read_range s p2 n2 = Some c2 ->
  match aivm_vm_copy_string_splice_to_arena p n p2 n2 s with
  | Ok q s' => copy_of s (cstr (c ++ c2)) q s'
  | Err s' => kept s s'
  | Undef => False
  end.
Proof.
  intros Hh Hp Hp2 Hr Hr2. unfold aivm_vm_copy_string_splice_to_arena. rewrite !bool_decide_eq_false_2 by done. cbn [orb].
  destruct (aivm_size_add_checked n n2) as [total|] eqn:E1; [|by apply kept_refl]. apply size_add_checked_Some in E1 as [_ ->].
  destruct (aivm_size_add_checked (n + n2) 1) as [bn|] eqn:E2; [|by apply kept_refl]. apply size_add_checked_Some in E2 as [_ ->].
  unfold bind at 1, get. rewrite Hr, Hr2. unfold bind at 1 2, check, ret at 1 2.
  destruct (so_texts _ (hp_strings s Hh)) as (texts & Hf & Ht). rewrite Ht. unfold bind at 1.
  destruct (scan_text_found texts (c ++ c2) Hf) as [(off & -> & Hat)|[-> _]]; cbn [ret].
  { rewrite (cstr_idem _ (text_at_free _ _ _ Hat)). apply text_found; [done|]. by rewrite Ht. }
  unfold bind at 1. pose proof (snapshot_run s p n c Hh Hr) as Hs.
  destruct (aivm_vm_snapshot_arena_backed_string p n s) as [c' s1|s1|]; [|done|done]. destruct Hs as (-> & G & St & t & ->).
  assert (Hh1 : heap_ok (set_tick t s)) by (by apply heap_ok_tick).
  unfold bind. pose proof (snapshot_run (set_tick t s) p2 n2 c2 Hh1 Hr2) as Hs.
  destruct (aivm_vm_snapshot_arena_backed_string p2 n2 (set_tick t s)) as [c' s2|s2|]; [| |done].
  2: { eapply kept_trans; [by apply grown_kept|done]. }
  destruct Hs as (-> & G2 & St2 & _). assert (G3 : grown s s2) by (by eapply grown_trans).
  assert (Hn : n + n2 + 1 = zlen (c ++ c2) + 1).
  { rewrite zlen_app, (read_range_zlen _ _ _ _ Hr), (read_range_zlen _ _ _ _ Hr2). done. }
  rewrite Hn. pose proof (store_text_run s2 (c ++ c2) (grown_heap_ok s s2 Hh G3)) as Hst.
  destruct (store_text (c ++ c2) _ s2) as [q s3|s3|]; [| |done].
  - destruct Hst as (K & St' & V & R). split; [eapply kept_trans; [by apply grown_kept|done]|]. split; [congruence|done].
  - destruct Hst as [K _]. eapply kept_trans; [by apply grown_kept|done].
Qed.

Lemma lookup_string_run s p c : heap_ok s -> str_valid s p -> read_str s p = Some c -> nul_free c ->
  match lookup_string_in_arena p c s with
  | Ok (Some q) s' => s' = s /\ copy_of s c q s
  | Ok None s' => s' = s /\ aivm_pointer_in_string_arena (strings s) p = false
  | _ => False
  end.
Proof.
  intros Hh Hv Hr Hc. unfold lookup_string_in_arena, bind at 1, get. destruct (aivm_pointer_in_string_arena (strings s) p) eqn:E.
  { cbn. split; [done|]. split; [by apply kept_refl|]. done. }
  pose proof (lookup_range_run s c Hh) as Hl. unfold lookup_string_range_in_arena, bind at 1, get in Hl.
  rewrite (cstr_idem c Hc) in Hl.
  match goal with |- match ?r with _ => _ end => destruct r as [[q|] s0|s0|] end; try done.
Qed.

Lemma copy_string_run s p c : heap_ok s -> str_valid s p -> p <> SNull -> read_str s p = Some c ->
  match aivm_vm_copy_string_to_arena p s with
  | Ok q s' => copy_of s c q s'
  | Err s' => kept s s' /\ (status s' = AIVM_VM_STATUS_ERROR \/ SIZE_MAX <= zlen c)
  | Undef => False
  end.
Proof.
  intros Hh Hv Hp Hr. unfold aivm_vm_copy_string_to_arena. rewrite bool_decide_eq_false_2 by done.
  destruct (valid_reads s p Hv Hp) as (c0 & E & Hc). assert (c0 = c) as -> by congruence.
  unfold bind at 1, deref_str, bind at 1, get. rewrite Hr. cbn [check]. unfold ret at 1. unfold bind at 1.
  pose proof (lookup_string_run s p c Hh Hv Hr Hc) as Hl.
  destruct (lookup_string_in_arena p c s) as [[q|] s0|s0|]; [|destruct Hl as [-> Hl]|done|done]; [by destruct Hl as [-> Hl]|].
  destruct (aivm_size_add_checked (zlen c) 1) as [bn|] eqn:En.
  2: { split; [by apply kept_refl|]. right. apply size_add_checked_None in En. lia. }
  apply size_add_checked_Some in En as [_ ->]. unfold bind, aivm_vm_snapshot_arena_backed_string, bind, get.
  rewrite (read_str_range _ _ _ Hr). cbn [check ret]. rewrite Hl. cbn [ret].
  pose proof (store_text_run s c Hh) as Hst. destruct (store_text c (zlen c + 1) s) as [q s2|s2|]; [| |done].
  - destruct Hst as (K & St & V & R). rewrite (cstr_idem c Hc) in R. done.
  - destruct Hst as [K St]. split; [done|by left].
Qed.

(** C10: copying a text to the string arena.  From a well-formed heap the copy
    either returns a pointer that reads as its input, after growing the limit, a
    compaction or neither, or returns NULL with an error set (a text of nearly 2^64
    bytes apart).  In both cases the heap is well-formed and every value of the VM
    stands for the same document; an intern index that is full or could not be
    allocated is given up and never makes a copy wrong. *)
Theorem copy_string_spec s p c : heap_ok s -> str_valid s p -> p <> SNull -> read_str s p = Some c ->
  match aivm_vm_copy_string_to_arena p s with
  | Ok q s' => read_str s' q = Some c /\ str_valid s' q /\ kept s s' /\ status s' = status s
  | Err s' => kept s s' /\ (status s' = AIVM_VM_STATUS_ERROR \/ SIZE_MAX <= zlen c)
  | Undef => False
  end.
Proof.
  intros Hh Hv Hp Hr. pose proof (copy_string_run s p c Hh Hv Hp Hr) as Hrun.
  destruct (aivm_vm_copy_string_to_arena p s); [|done|done]. by destruct Hrun as (? & ? & ? & ?).
Qed.

(** Copies of part of a text and of two parts joined.  The result reads
    as the requested bytes up to the first NUL, wherever the sources are, the arena
    itself included: they are copied out before the arena may move.  A copy that
    fails (memory, or a length that overflows) keeps the heap and its documents. *)
Theorem copy_ranges_spec s p n c p2 n2 c2 :
  heap_ok s -> p <> SNull -> p2 <> SNull -> read_range s p n = Some c -> read_range s p2 n2 = Some c2 ->
  match aivm_vm_copy_string_range_to_arena p n s with
  | Ok q s' => read_str s' q = Some (cstr c) /\ kept s s' /\ status s' = status s
  | Err s' => kept s s'
  | Undef => False
  end /\
  match aivm_vm_copy_string_splice_to_arena p n p2 n2 s with
  | Ok q s' => read_str s' q = Some (cstr (c ++ c2)) /\ kept s s' /\ status s' = status s
  | Err s' => kept s s'
  | Undef => False
  end.
Proof.
  intros Hh Hp Hp2 Hr Hr2. split.
  - pose proof (copy_range_run s p n c Hh Hp Hr) as Hrun. destruct (aivm_vm_copy_string_range_to_arena p n s); [|done|done].
    by destruct Hrun as (? & ? & ? & ?).
  - pose proof (copy_splice_run s p n c p2 n2 c2 Hh Hp Hp2 Hr Hr2) as Hrun.
    destruct (aivm_vm_copy_string_splice_to_arena p n p2 n2 s); [|done|done]. by destruct Hrun as (? & ? & ? & ?).
Qed.

End Host.

(** ** Examples *)

Lemma copy_string_spec_witness :
  match aivm_vm_copy_string_to_arena (H := example_host) (SExt (bytes_of_string "new")) example_strings with
  | Ok q s' => read_str s' q = Some (bytes_of_string "new") /\ kept example_strings s' /\ q = SArena 0 10
  | _ => False
  end.
Proof.
  pose proof (copy_string_spec (H := example_host) example_strings (SExt (bytes_of_string "new")) (bytes_of_string "new")
    example_heap_ok) as Hrun.
  assert (Hc : match aivm_vm_copy_string_to_arena (H := example_host) (SExt (bytes_of_string "new")) example_strings with
    | Ok q _ => bool_decide (q = SArena 0 10) | _ => false end = true) by (vm_compute; reflexivity).
  destruct (aivm_vm_copy_string_to_arena (H := example_host) (SExt (bytes_of_string "new")) example_strings) as [q s'|s'|]; [|done|done].
  destruct Hrun as (H1 & _ & H2 & _); [repeat constructor; done|done|done|]. split; [exact H1|]. split; [exact H2|].
  by apply bool_decide_eq_true in Hc.
Defined.

(** The first letter of "dead" and "hi", both in the arena. *)
Lemma copy_ranges_spec_witness :
  match aivm_vm_copy_string_splice_to_arena (H := example_host) (SArena 0 0) 1 (SArena 0 7) 2 example_strings with
  | Ok q s' => read_str s' q = Some (bytes_of_string "dhi") /\ kept example_strings s'
  | _ => False
  end.
Proof.
  destruct (copy_ranges_spec (H := example_host) example_strings (SArena 0 0) 1 (bytes_of_string "d") (SArena 0 7) 2 (bytes_of_string "hi")
    example_heap_ok) as [_ Hrun]; [done..|].
  assert (Hc : match aivm_vm_copy_string_splice_to_arena (H := example_host) (SArena 0 0) 1 (SArena 0 7) 2 example_strings with
    | Ok q _ => true | _ => false end = true) by (vm_compute; reflexivity).
  destruct (aivm_vm_copy_string_splice_to_arena (H := example_host) (SArena 0 0) 1 (SArena 0 7) 2 example_strings) as [q s'|s'|]; [|done|done].
  destruct Hrun as (H1 & H2 & _). split; [exact H1|exact H2].
Defined.
