(* ===== verification/Bytes.v ===== *)
(** * The bytes arena (src/src/aivm_vm_arena.c, src/src/aivm_vm.c)

    Allocation, copies of byte views and the compaction that moves the live views to
    a new block.  [bytes_arena_used] is the length of [ba_data]; a compaction starts the
    next generation.  An allocation never moves the arena: a growing limit only
    admits more of the block. *)

From S2P Require Import Prelude Types Program Vm Memory Lifecycle Stack ControlSafety Roots Pairs.
From S2P Require Import NodeGc NodeMark NodeMove NodeCompact Moves Strings.

Definition put_bytes (f : BytesArena -> BytesArena) : M unit :=
  modify (fun s => set_bytes_arena (f (bytes_arena s)) s).

(** ** Relocation *)

(** [AivmBytesRelocation]: a view of the old arena and where it is in the new one. *)
Record AivmBytesRelocation := mk_relocation { old_data : Z; relocation_length : Z; new_data : Z }.

(** The new arena and the relocations so far. *)
Record relocating := mk_relocating { new_arena : list Z; relocations : list AivmBytesRelocation }.

Definition pointer_in_bytes_arena (b : BytesArena) (p : bytes_ptr) (length : Z) : bool :=
  match p with
  | BArena gen off =>
      negb (zlen (ba_data b) =? 0) && (gen =? ba_gen b) && (0 <=? off) && (off <=? zlen (ba_data b)) &&
      (length <=? zlen (ba_data b) - off)
  | _ => false
  end.

Definition find_relocation (l : list AivmBytesRelocation) (off length : Z) : option Z :=
  match list_find (fun r => old_data r = off /\ relocation_length r = length) l with
  | Some (_, r) => Some (new_data r)
  | None => None
  end.

Definition compact_relocate_value_bytes (b : BytesArena) (relocation_capacity : Z) : visitor relocating AivmValue :=
  fun acc v =>
    match v with
    | VBytes (BArena gen off) length =>
        if pointer_in_bytes_arena b (BArena gen off) length then
          match find_relocation (relocations acc) off length with
          | Some new => (VBytes (BArena (ba_gen b + 1) new) length, Visited acc)
          | None =>
              match (if relocation_capacity <=? zlen (relocations acc) then None
                     else aivm_size_add_checked (zlen (new_arena acc)) length) with
              | None => (v, Failed AIVM_VM_ERR_MEMORY_PRESSURE (DText "AIVMM002: bytes arena capacity exceeded during compaction."))
              | Some next_used =>
                  if ba_capacity b <? next_used
                  then (v, Failed AIVM_VM_ERR_MEMORY_PRESSURE (DText "AIVMM002: bytes arena capacity exceeded during compaction."))
                  else
                    match (if 0 <? length then read_block (ba_data b) off length else Some []) with
                    | None => (v, Stuck)
                    | Some content =>
                        (VBytes (BArena (ba_gen b + 1) (zlen (new_arena acc))) length,
                         Visited (mk_relocating (new_arena acc ++ content)
                           (relocations acc ++ [mk_relocation off length (zlen (new_arena acc))])))
                    end
              end
          end
        else (v, Visited acc)
    | _ => (v, Visited acc)
    end.

(** The number of values a compaction may relocate. *)
Definition root_capacity (s : AivmVm) : option Z :=
  c ← aivm_size_add_checked (zlen (stack s)) (locals_count s);
  c ← aivm_size_add_checked c (zlen (completed_tasks s));
  c ← aivm_size_add_checked c (zlen (par_values s));
  p ← aivm_size_add_checked (scratch_pair_count s) (scratch_pair_count s);
  aivm_size_add_checked c p.

Definition SIZEOF_RELOCATION : Z := 24.

Section Host.

Context `{Host}.

Definition aivm_compact_bytes_arena : M unit :=
  let! s := get in
  let b := bytes_arena s in
  if zlen (ba_data b) =? 0 then ret tt
  else
    match root_capacity s with
    | None => throw AIVM_VM_ERR_MEMORY_PRESSURE (DText "AIVMM002: bytes compaction root count overflow.")
    | Some relocation_capacity =>
        if relocation_capacity =? 0 then
          put_bytes (fun b => set_ba_gc_threshold
            (if ba_capacity b <? AIVM_VM_BYTES_ARENA_INITIAL_CAPACITY then ba_capacity b else AIVM_VM_BYTES_ARENA_INITIAL_CAPACITY)
            (set_ba_data [] b))
        else
          let! ok1 := alloc AIVM_VM_SCRATCH_PAIR_CAPACITY in
          let! ok2 := alloc (ba_capacity b) in
          let! ok3 := alloc (relocation_capacity * SIZEOF_RELOCATION) in
          if negb (ok1 && ok2 && ok3)
          then throw AIVM_VM_ERR_MEMORY_PRESSURE (DText "AIVMM002: bytes arena compaction workspace allocation failed.")
          else
            let! live_pairs := aivm_vm_mark_live_scratch_pair_handles in
            let! acc := walk_roots (compact_relocate_value_bytes b relocation_capacity) (mk_relocating [] []) in
            let! acc := walk_live_pairs (compact_relocate_value_bytes b relocation_capacity) live_pairs acc in
            put_bytes (fun b => set_ba_gc_threshold
              (arena_grow_limit (zlen (new_arena acc)) AIVM_VM_BYTES_ARENA_INITIAL_CAPACITY (ba_capacity b))
              (set_ba_data (new_arena acc) (set_ba_gen (ba_gen b + 1) b)))
    end.

(** ** Allocation *)

Fixpoint grow_bytes_limit (fuel : nat) (needed : Z) : M unit :=
  let! s := get in
  let b := bytes_arena s in
  if (ba_limit b <? needed) && (ba_limit b <? ba_capacity b) then
    match fuel with
    | O => undef
    | S fuel' =>
        let next := arena_grow_limit (ba_limit b) AIVM_VM_BYTES_ARENA_GROWTH_STEP (ba_capacity b) in
        do! aivm_vm_admit_host_memory_growth (next - ba_limit b) in
        do! put_bytes (set_ba_limit next) in
        grow_bytes_limit fuel' needed
    end
  else if needed <=? ba_limit b then ret tt else fail.

Definition ensure_bytes_arena_capacity (needed : Z) : M unit :=
  let! s := get in
  let b := bytes_arena s in
  grow_bytes_limit (Z.to_nat ((ba_capacity b - ba_limit b) / AIVM_VM_BYTES_ARENA_GROWTH_STEP + 1)) needed.

Definition bytes_pressure : M unit :=
  put_bytes (fun b => set_ba_pressure_count (aivm_counter_increment_saturating (ba_pressure_count b)) b).

Definition bytes_exceeded : detail := DText "AIVMM002: bytes arena capacity exceeded.".

(** The fresh bytes read as 0 until they are written. *)
Definition aivm_bytes_arena_alloc (size : Z) : M bytes_ptr :=
  let! s := get in
  match aivm_size_add_checked (zlen (ba_data (bytes_arena s))) size with
  | None => do! bytes_pressure in throw AIVM_VM_ERR_MEMORY_PRESSURE bytes_exceeded
  | Some needed =>
      do! (if ba_limit (bytes_arena s) <? needed
           then or_else (ensure_bytes_arena_capacity needed)
                        (do! bytes_pressure in throw_unless_error AIVM_VM_ERR_MEMORY_PRESSURE bytes_exceeded)
           else ret tt) in
      let! s := get in
      let b := bytes_arena s in
      do! put_bytes (fun b => set_ba_high_water (Z.max (ba_high_water b) needed)
            (set_ba_data (ba_data b ++ replicate (Z.to_nat size) 0) b)) in
      ret (BArena (ba_gen b) (zlen (ba_data b)))
  end.

(** Writing bytes to the arena from an offset on. *)
Definition write_bytes (offset : Z) (content : list Z) : M unit :=
  let! s := get in
  let data := ba_data (bytes_arena s) in
  if (0 <=? offset) && (offset + zlen content <=? zlen data)
  then put_bytes (set_ba_data (ztake offset data ++ content ++ zdrop (offset + zlen content) data))
  else undef.

(** [copy_bytes_to_arena]; the input may be in the arena, which does not move. *)
Definition copy_bytes_to_arena (input : bytes_ptr) (length : Z) : M bytes_ptr :=
  if length =? 0 then aivm_bytes_arena_alloc 0
  else if bool_decide (input = BNull) then fail
  else
    let! content := deref_bytes input length in
    let! output := aivm_bytes_arena_alloc length in
    match output with
    | BArena _ offset => do! write_bytes offset content in ret output
    | _ => undef
    end.

End Host.
