(* ===== verification/BytesGc.v ===== *)
(** * Compaction of the bytes arena and copies into it

    Every view into the arena is a whole block of an earlier allocation, so the live
    views always fit the new arena and their number the relocation table.  What the
    values stand for does not change. *)

From S2P Require Import Prelude Types Program Vm Memory Lifecycle Stack ControlSafety Roots Pairs.
From S2P Require Import NodeGc NodeMark NodeMove NodeCompact Moves Strings StringText StringIndex StringCompact StringCopy Bytes.

(** ** Blocks *)

(** Blocks of the given lengths one after the other: offset and length. *)
Fixpoint blocks (lens : list Z) (at_offset : Z) : list (Z * Z) :=
  match lens with [] => [] | l :: rest => (at_offset, l) :: blocks rest (at_offset + l) end.

Definition sum (lens : list Z) : Z := total (fun l => l) lens.

Lemma blocks_app l k o : blocks (l ++ k) o = blocks l o ++ blocks k (o + sum l).
Proof.
  revert o. induction l as [|x l IH]; intros o; cbn; [by rewrite Z.add_0_r|]. rewrite IH. unfold sum. cbn [total].
  by rewrite Z.add_assoc.
Qed.

Lemma blocks_total lens o : total snd (blocks lens o) = sum lens.
Proof. revert o. induction lens as [|x l IH]; intros o; [done|]. cbn [blocks total snd]. rewrite IH. done. Qed.

Lemma blocks_bounds lens o off len : Forall (fun l => 0 <= l) lens -> (off, len) ∈ blocks lens o ->
  o <= off /\ 0 <= len /\ off + len <= o + sum lens.
Proof.
  intros Hl. revert o. induction Hl as [|x l Hx Hl IH]; intros o Hin; [by apply not_elem_of_nil in Hin|].
  assert (0 <= sum l) by (by apply total_nonneg). unfold sum in *. cbn [blocks] in Hin. cbn [total].
  apply elem_of_cons in Hin as [[= -> ->]|Hin]; [lia|]. specialize (IH _ Hin). lia.
Qed.

Lemma total_same {A} (l : list A) (f g : A -> Z) : Forall (fun x => f x = g x) l -> total f l = total g l.
Proof. induction 1 as [|x l E _ IH]; [done|]. cbn [total]. by rewrite E, IH. Qed.

(** ** The invariant *)

Definition view_ok (b : BytesArena) (lens : list Z) (v : AivmValue) : Prop :=
  match v with VBytes (BArena gen off) len => gen = ba_gen b /\ (off, len) ∈ blocks lens 0 | _ => True end.

Record bytes_ok (s : AivmVm) (lens : list Z) : Prop := {
  bo_lens : Forall (fun l => 0 <= l) lens /\ sum lens = zlen (ba_data (bytes_arena s));
  bo_fit : zlen (ba_data (bytes_arena s)) <= ba_limit (bytes_arena s) /\
    ba_limit (bytes_arena s) <= ba_capacity (bytes_arena s) <= SIZE_MAX;
  bo_roots : Forall (view_ok (bytes_arena s) lens) (root_values s);
  bo_pairs : forall i p, reachable_pair s i -> zget (scratch_pairs s) i = Some p ->
    view_ok (bytes_arena s) lens (first p) /\ view_ok (bytes_arena s) lens (second p) }.

(** ** Relocating *)

Section Relocate.

Context (b : BytesArena) (lens : list Z) (cap : Z) (views : list (Z * Z)).
Context (Hlens : Forall (fun l => 0 <= l) lens) (Hsum : sum lens = zlen (ba_data b)).
Context (Hfit : zlen (ba_data b) <= ba_capacity b <= SIZE_MAX) (Hviews : zlen views <= cap).

Definition key (r : AivmBytesRelocation) : Z * Z := (old_data r, relocation_length r).

(** The relocated blocks fill the new arena, each view once. *)
Record relocated (acc : relocating) : Prop := {
  re_keys : NoDup (map key (relocations acc));
  re_blocks : forall k, k ∈ map key (relocations acc) -> k ∈ blocks lens 0 /\ k ∈ views;
  re_new : map (fun r => (new_data r, relocation_length r)) (relocations acc) = blocks (map relocation_length (relocations acc)) 0;
  re_used : zlen (new_arena acc) = sum (map relocation_length (relocations acc));
  re_content : Forall (fun r => exists c, read_block (ba_data b) (old_data r) (relocation_length r) = Some c /\
    read_block (new_arena acc) (new_data r) (relocation_length r) = Some c) (relocations acc) }.

Definition later (a a' : relocating) : Prop :=
  (exists more, new_arena a' = new_arena a ++ more) /\ exists more, relocations a' = relocations a ++ more.

Lemma later_refl a : later a a.
Proof. split; exists []; by rewrite app_nil_r. Qed.

Lemma later_trans a1 a2 a3 : later a1 a2 -> later a2 a3 -> later a1 a3.
Proof.
  intros [[m1 E1] [r1 F1]] [[m2 E2] [r2 F2]]. split; [exists (m1 ++ m2)|exists (r1 ++ r2)]; [by rewrite E2, E1, app_assoc|by rewrite F2, F1, app_assoc].
Qed.

Definition movable_view (v : AivmValue) : Prop :=
  match v with VBytes (BArena gen off) len => gen = ba_gen b /\ (off, len) ∈ blocks lens 0 /\ (off, len) ∈ views | _ => True end.

Definition moved_bytes (acc : relocating) (v v' : AivmValue) : Prop :=
  match v with
  | VBytes (BArena gen off) len =>
      (zlen (ba_data b) = 0 /\ v' = v) \/
      exists r c, r ∈ relocations acc /\ key r = (off, len) /\ v' = VBytes (BArena (ba_gen b + 1) (new_data r)) len /\
        read_block (ba_data b) off len = Some c /\ read_block (new_arena acc) (new_data r) len = Some c
  | _ => v' = v
  end.

Lemma read_block_app l k o n c : read_block l o n = Some c -> read_block (l ++ k) o n = Some c.
Proof.
  intros Hr. apply read_block_split in Hr as (pre & post & -> & -> & ->).
  pose proof (zlen_nonneg pre). pose proof (zlen_nonneg c). pose proof (zlen_nonneg (post ++ k)).
  unfold read_block. rewrite <- !app_assoc. rewrite zlen_app, zlen_app. replace (_ && _) with true by lia.
  f_equal. unfold Program.slice. rewrite zdrop_app. apply ztake_app.
Qed.

Lemma moved_bytes_mono a a' v v' : later a a' -> moved_bytes a v v' -> moved_bytes a' v v'.
Proof.
  intros [[m E] [r F]]. destruct v as [| | | | | |[] len| | | | | | | | |]; cbn; try done.
  intros [|(x & c & H1 & H2 & -> & H3 & H4)]; [by left|]. right. exists x, c. split; [rewrite F; apply elem_of_app; by left|].
  split_and!; try done. rewrite E. by apply read_block_app.
Qed.

Lemma block_reads off len : (off, len) ∈ blocks lens 0 -> exists c, read_block (ba_data b) off len = Some c /\ zlen c = len.
Proof.
  intros Hin. pose proof (blocks_bounds _ _ _ _ Hlens Hin) as (H1 & H2 & H3). unfold read_block.
  replace (_ && _) with true by lia. eexists. split; [done|]. apply zlen_ztake. rewrite zlen_zdrop; lia.
Qed.

(** A new key leaves room in the table and in the arena. *)
Lemma new_key_fits acc k : relocated acc -> k ∈ blocks lens 0 -> k ∈ views -> k ∉ map key (relocations acc) ->
  zlen (relocations acc) < cap /\ zlen (new_arena acc) + k.2 <= zlen (ba_data b).
Proof.
  intros [H1 H2 _ H4 _] Hk1 Hk2 Hni.
  assert (Hnd : NoDup (k :: map key (relocations acc))) by (by constructor).
  assert (Hsub : forall P : Z * Z -> Prop, (forall x, x ∈ map key (relocations acc) -> P x) -> P k -> forall x, x ∈ k :: map key (relocations acc) -> P x).
  { intros P HP HPk x [->|Hx]%elem_of_cons; auto. }
  split.
  - assert (Hs : k :: map key (relocations acc) ⊆+ views).
    { apply NoDup_submseteq; [done|]. apply Hsub; [|done]. intros x Hx. by apply H2. }
    apply submseteq_length in Hs. cbn in Hs. rewrite length_map in Hs. unfold zlen in *. lia.
  - assert (Ht : total snd (k :: map key (relocations acc)) <= total snd (blocks lens 0)).
    { rewrite (total_same _ snd (fun x => Z.max 0 x.2)), (total_same _ snd (fun x => Z.max 0 x.2)).
      - apply total_subset; [intros; lia|done|]. apply Hsub; [|done]. intros x Hx. by apply H2.
      - apply Forall_forall. intros [o l] Hx. apply (blocks_bounds _ _ _ _ Hlens) in Hx. cbn. lia.
      - apply Forall_forall. apply Hsub; [intros [o l] Hx|destruct k as [o l]].
        + apply H2 in Hx as [Hx _]. apply (blocks_bounds _ _ _ _ Hlens) in Hx. cbn. lia.
        + apply (blocks_bounds _ _ _ _ Hlens) in Hk1. cbn. lia. }
    rewrite blocks_total in Ht. cbn [total] in Ht.
    assert (E : total snd (map key (relocations acc)) = sum (map relocation_length (relocations acc))).
    { clear. unfold sum. induction (relocations acc) as [|r l IH]; [done|]. cbn [map total]. by rewrite IH. }
    lia.
Qed.

Lemma find_relocation_found l off len new : find_relocation l off len = Some new ->
  exists r, r ∈ l /\ key r = (off, len) /\ new_data r = new.
Proof.
  unfold find_relocation. destruct (list_find _ l) as [[i r]|] eqn:E; [|done]. intros [= <-].
  apply list_find_Some in E as (Hi & [<- <-] & _). exists r. split; [by eapply list_elem_of_lookup_2|done].
Qed.

Lemma find_relocation_none l off len : find_relocation l off len = None -> (off, len) ∉ map key l.
Proof.
  unfold find_relocation. destruct (list_find _ l) as [[i r]|] eqn:E; [done|]. intros _ Hin.
  apply list_find_None in E. apply list_elem_of_In, in_map_iff in Hin as (r & Hk & Hr%list_elem_of_In).
  rewrite Forall_forall in E. apply (E r Hr). unfold key in Hk. by injection Hk as -> ->.
Qed.

Lemma relocated_add acc off len c : relocated acc -> (off, len) ∈ blocks lens 0 -> (off, len) ∈ views ->
  (off, len) ∉ map key (relocations acc) -> read_block (ba_data b) off len = Some c -> zlen c = len ->
  let acc' := mk_relocating (new_arena acc ++ c) (relocations acc ++ [mk_relocation off len (zlen (new_arena acc))]) in
  relocated acc' /\ later acc acc' /\
  read_block (new_arena acc') (zlen (new_arena acc)) len = Some c.
Proof.
  intros [R1 R2 R3 R4 R5] Hb Hv Hni Hc Hlen acc'.
  assert (Hnew : read_block (new_arena acc') (zlen (new_arena acc)) len = Some c).
  { unfold acc'. cbn [new_arena]. unfold read_block. pose proof (zlen_nonneg (new_arena acc)). pose proof (zlen_nonneg c).
    rewrite zlen_app. replace (_ && _) with true by lia. f_equal. unfold Program.slice. rewrite zdrop_app, <- Hlen.
    rewrite <- (app_nil_r c) at 2. apply ztake_app. }
  split; [|split; [split; by eexists|done]]. unfold acc'. split; cbn [relocations new_arena]; rewrite ?map_app; cbn [map].
  - apply NoDup_app. split; [done|]. split; [|apply NoDup_singleton]. intros x Hx ->%list_elem_of_singleton. done.
  - intros k [Hk|Hk]%elem_of_app; [by apply R2|]. by apply list_elem_of_singleton in Hk as ->.
  - rewrite blocks_app, R3. cbn. do 3 f_equal. by rewrite R4.
  - rewrite zlen_app, R4, Hlen. unfold sum. rewrite total_app. cbn. lia.
  - apply Forall_app. split; [|apply Forall_singleton; by exists c].
    eapply Forall_impl; [exact R5|]. intros r (c0 & E1 & E2). exists c0. split; [done|]. by apply read_block_app.
Qed.

Lemma copier_bytes : copier relocated later (compact_relocate_value_bytes b cap) movable_view moved_bytes.
Proof.
  split; [apply moved_bytes_mono|]. intros acc v Hv Hacc.
  destruct v as [| | | | | |[|gen off|off|c] len| | | | | | | | |];
    try (by eexists _, acc; split; [done|]; split; [done|]; split; [apply later_refl|]).
  destruct Hv as (-> & Hblk & Hview). cbn [compact_relocate_value_bytes].
  destruct (block_reads off len Hblk) as (c & Hc & Hlen). pose proof (blocks_bounds _ _ _ _ Hlens Hblk) as (B1 & B2 & B3).
  destruct (pointer_in_bytes_arena b (BArena (ba_gen b) off) len) eqn:Ein.
  2: { eexists _, acc. split; [done|]. split; [done|]. split; [apply later_refl|]. left. split; [|done].
       cbn in Ein. rewrite Z.eqb_refl in Ein. pose proof (zlen_nonneg (ba_data b)). lia. }
  destruct (find_relocation (relocations acc) off len) as [new|] eqn:Ef.
  - apply find_relocation_found in Ef as (r & Hr & Hk & <-). eexists _, acc. split; [done|]. split; [done|]. split; [apply later_refl|].
    right. pose proof (re_content acc Hacc) as Hall. rewrite Forall_forall in Hall. destruct (Hall r Hr) as (c0 & E1 & E2).
    unfold key in Hk. injection Hk as <- <-. exists r, c0. done.
  - apply find_relocation_none in Ef. destruct (new_key_fits acc (off, len) Hacc Hblk Hview Ef) as [F1 F2]. cbn in F2.
    rewrite (proj2 (Z.leb_gt _ _)) by lia. rewrite (proj2 (size_add_checked_Some _ _ _)) by (split; [lia|reflexivity]).
    rewrite (proj2 (Z.ltb_ge _ _)) by lia.
    assert ((if 0 <? len then read_block (ba_data b) off len else Some []) = Some c) as ->.
    { destruct (Z.ltb_spec 0 len); [done|]. destruct c; [done|]. rewrite zlen_cons in Hlen. pose proof (zlen_nonneg c). lia. }
    destruct (relocated_add acc off len c Hacc Hblk Hview Ef Hc Hlen) as (H1 & H2 & H3).
    eexists _, _. split; [done|]. split; [done|]. split; [done|]. right.
    exists (mk_relocation off len (zlen (new_arena acc))), c. split; [cbn; apply elem_of_app; right; by left|]. done.
Qed.

End Relocate.

(** ** The compaction *)

Section Compaction.

Context `{Host}.

Definition value_views (vs : list AivmValue) : list (Z * Z) :=
  omap (fun v => match v with VBytes (BArena _ off) len => Some (off, len) | _ => None end) vs.

Definition all_values (s : AivmVm) : list AivmValue := root_values s ++ flat_map pair_values (scratch_pairs s).

(** The arena holds one copy of every view (offset and length) of some values of [s], and
    nothing more: values with the same view share it. *)
Definition copied_once (s s' : AivmVm) : Prop := exists views, NoDup views /\
  (forall k, k ∈ views -> k ∈ value_views (all_values s)) /\ zlen (ba_data (bytes_arena s')) = total snd views.

Lemma value_views_elem vs gen off len : VBytes (BArena gen off) len ∈ vs -> (off, len) ∈ value_views vs.
Proof. intros Hin. apply list_elem_of_omap. by exists (VBytes (BArena gen off) len). Qed.

Lemma value_views_length vs : zlen (value_views vs) <= zlen vs.
Proof.
  unfold value_views, zlen. induction vs as [|v vs IH]; [done|]. cbn. destruct v as [| | | | | |[] ?| | | | | | | | |]; cbn; lia.
Qed.

Lemma root_capacity_enough s cap : 0 <= locals_count s -> root_capacity s = Some cap -> zlen (all_values s) <= cap.
Proof.
  intros Hl. unfold root_capacity. intros Hc.
  destruct (aivm_size_add_checked (zlen (stack s)) (locals_count s)) as [c1|] eqn:E1; [|done]. cbn in Hc.
  destruct (aivm_size_add_checked c1 _) as [c2|] eqn:E2; [|done]. cbn in Hc.
  destruct (aivm_size_add_checked c2 _) as [c3|] eqn:E3; [|done]. cbn in Hc.
  destruct (aivm_size_add_checked (scratch_pair_count s) _) as [p|] eqn:E4; [|done]. cbn in Hc.
  apply size_add_checked_Some in E1 as [_ ->], E2 as [_ ->], E3 as [_ ->], E4 as [_ ->], Hc as [_ ->].
  unfold all_values, root_values. rewrite !zlen_app.
  assert (L1 : zlen (stack_part s) = zlen (stack s)) by (unfold zlen, stack_part; by rewrite length_rev).
  assert (L2 : zlen (locals_part s) <= locals_count s) by (by apply zlen_ztake_le).
  assert (L3 : zlen (tasks_part s) = zlen (completed_tasks s)) by (apply zlen_map).
  assert (L4 : zlen (flat_map pair_values (scratch_pairs s)) = scratch_pair_count s + scratch_pair_count s).
  { unfold scratch_pair_count. clear. induction (scratch_pairs s) as [|q l IH]; [done|]. cbn [flat_map]. rewrite zlen_app, IH, zlen_cons.
    change (zlen (pair_values q)) with 2. lia. }
  lia.
Qed.

Lemma heap_ok_bytes s b : heap_ok s -> heap_ok (set_bytes_arena b s).
Proof. intros [H1 [] H3 []]. constructor; [exact H1|by constructor|exact H3|by constructor]. Qed.

Section Result.

Context (s s' : AivmVm) (Hh : heap_ok s) (lens : list Z) (Hb : bytes_ok s lens).
Context (lp : list bool) (pl : list (bool * AivmScratchPair)) (acc : relocating) (cap : Z).
Let b := bytes_arena s.
Let M := moved_bytes b acc.
Context (Hne : zlen (ba_data b) <> 0).
Context (Hacc : relocated b lens (value_views (all_values s)) acc) (Hcap : zlen (value_views (all_values s)) <= cap).
Context (Hlp : length lp = length (scratch_pairs s)) (Hlpiff : forall i, is_live lp i <-> reachable_pair s i).
Context (Hroots : Forall2 M (root_values s) (root_values s')).
Context (Hpairs : Forall2 (pair_moved M) (zip lp (scratch_pairs s)) pl) (Hpairs' : scratch_pairs s' = map snd pl).
Context (Hstore : node_store s' = node_store s) (Hbuild : node_builders s' = node_builders s).
Context (Hstr : strings s' = strings s) (Hprog : program s' = program s).
Context (Hdata : ba_data (bytes_arena s') = new_arena acc) (Hgen : ba_gen (bytes_arena s') = ba_gen b + 1).
Context (Hlim : ba_limit (bytes_arena s') = ba_limit b) (Hbcap : ba_capacity (bytes_arena s') = ba_capacity b).

Lemma bytes_shape v v' : M v v' ->
  match v with
  | VNode _ | VPair _ => v' = v
  | _ => match v' with VNode _ | VPair _ => False | _ => True end
  end.
Proof.
  unfold M. destruct v as [| | | | | |[|gen off|off|c] len| | | | | | | | |]; cbn; try (by intros ->).
  intros [[? _]|(r & c & _ & _ & -> & _)]; done.
Qed.

Lemma bytes_resolve v v' : M v v' -> view_ok b lens v -> resolve_value s' v' = resolve_value s v.
Proof.
  unfold M. destruct v as [| | | | |p|[|gen off|off|c] len| | | | | | | | |]; cbn; try (by intros ->).
  - intros -> _. cbn. unfold resolve_str, read_str. by rewrite Hstr, Hprog.
  - intros [[? _]|(r & c & _ & _ & -> & E1 & E2)] [-> _]; [done|]. cbn. unfold resolve_bytes, read_bytes. fold b.
    by rewrite Hgen, !Z.eqb_refl, Hdata, E1, E2.
  - intros -> _. cbn. unfold resolve_bytes, read_bytes. by rewrite Hprog.
Qed.

Lemma new_views v v' : M v v' -> view_ok b lens v -> view_ok (bytes_arena s') (map relocation_length (relocations acc)) v'.
Proof.
  unfold M. destruct v as [| | | | |p|[|gen off|off|c] len| | | | | | | | |]; cbn; try (by intros ->).
  intros [[? _]|(r & c & Hr & Hk & -> & E1 & E2)] [-> _]; [done|]. cbn. split; [by rewrite Hgen|].
  rewrite <- (re_new _ _ _ _ Hacc). apply list_elem_of_In, in_map_iff. exists r. split; [|by apply list_elem_of_In].
  unfold key in Hk. by injection Hk as _ <-.
Qed.

Lemma bytes_ok_moved : bytes_ok s' (map relocation_length (relocations acc)).
Proof.
  assert (Hnn : Forall (fun l => 0 <= l) (map relocation_length (relocations acc))).
  { apply Forall_map. apply Forall_forall. intros r Hr. destruct (re_blocks _ _ _ _ Hacc (key r)) as [Hk _].
    - apply list_elem_of_In, in_map. by apply list_elem_of_In.
    - apply (blocks_bounds _ _ _ _ (proj1 (bo_lens _ _ Hb))) in Hk. lia. }
  destruct (bo_fit _ _ Hb) as [F1 F2]. split.
  - split; [done|]. rewrite Hdata. symmetry. apply Hacc.
  - rewrite Hdata, Hlim, Hbcap. split; [|exact F2]. etransitivity; [|exact F1]. rewrite (re_used _ _ _ _ Hacc), <- (proj2 (bo_lens _ _ Hb)).
    rewrite <- (blocks_total lens 0). unfold sum.
    assert (E : total (fun l => l) (map relocation_length (relocations acc)) = total snd (map key (relocations acc))).
    { clear. induction (relocations acc) as [|r l IH]; [done|]. cbn [map total]. by rewrite IH. }
    rewrite E. rewrite (total_same _ snd (fun x => Z.max 0 x.2)), (total_same (blocks lens 0) snd (fun x => Z.max 0 x.2)).
    + apply total_subset; [intros; lia|apply Hacc|]. intros x Hx. by apply Hacc in Hx as [Hx _].
    + apply Forall_forall. intros [o l] Hx. apply (blocks_bounds _ _ _ _ (proj1 (bo_lens _ _ Hb))) in Hx. cbn. lia.
    + apply Forall_forall. intros [o l] Hx. apply Hacc in Hx as [Hx _]. apply (blocks_bounds _ _ _ _ (proj1 (bo_lens _ _ Hb))) in Hx. cbn. lia.
  - eapply (roots_back s s' M Hroots); [exact new_views|apply Hb].
  - eapply (pairs_back s s' lp pl M bytes_shape Hlp Hlpiff Hroots Hpairs Hpairs'); [exact new_views|apply Hb].
Qed.

Lemma read_str_same p : read_str s' p = read_str s p.
Proof. destruct p; cbn; by rewrite ?Hstr, ?Hprog. Qed.

Lemma str_valid_same p : str_valid s p -> str_valid s' p.
Proof. destruct p; cbn; try done; by rewrite ?Hstr, ?Hprog. Qed.

Lemma value_valid_moved v v' : M v v' -> value_valid s v -> value_valid s' v'.
Proof.
  unfold M. destruct v as [| | | | |p|[|gen off|off|c] len| | | | | | | | |]; cbn; try (by intros ->).
  - intros ->. apply str_valid_same.
  - intros [[_ ->]|(r & c & _ & _ & -> & _)]; done.
Qed.

Lemma bytes_moved_heap : heap_ok s' /\ Forall2 (same_document s s') (root_values s) (root_values s').
Proof.
  assert (Hhost : host_handles s' = host_handles s) by (unfold host_handles; by rewrite Hstore).
  assert (Hcount : node_count (node_store s') = node_count (node_store s)) by (by rewrite Hstore).
  assert (Hchild : forall h c, child_of (node_store s') h c <-> child_of (node_store s) h c) by (intros; by rewrite Hstore).
  split; [split|].
  - rewrite Hstore. apply Hh.
  - eapply (handles_ok_kept s s' lp pl M bytes_shape); try done. apply Hh.
  - rewrite Hstr. apply Hh.
  - split.
    + eapply (roots_back s s' M Hroots); [exact value_valid_moved|apply Hh].
    + eapply (pairs_back s s' lp pl M bytes_shape Hlp Hlpiff Hroots Hpairs Hpairs'); [exact value_valid_moved|apply Hh].
    + intros h nd Hr Hl. apply (reachable_same s s' lp pl M bytes_shape Hlp Hlpiff Hroots Hpairs Hpairs' Hhost Hbuild Hcount Hchild) in Hr.
      rewrite Hstore in *. destruct (to_nodes s (hp_texts s Hh) h nd Hr Hl) as (V1 & V2 & V3).
      split; [by apply str_valid_same|]. split; [by apply str_valid_same|]. eapply Forall_impl; [exact V3|].
      intros x [W1 W2]. split; [by apply str_valid_same|]. destruct (attr_value x); try done; by apply str_valid_same.
  - eapply (roots_documents s s' lp pl M bytes_shape) with (V := view_ok b lens); try done; [apply Hh|exact bytes_resolve|apply Hb|apply Hb|].
    intros h _ d. apply node_document_alike; [exact read_str_same|done].
Qed.

End Result.

Lemma views_movable s lens v : bytes_ok s lens -> view_ok (bytes_arena s) lens v -> v ∈ all_values s ->
  movable_view (bytes_arena s) lens (value_views (all_values s)) v.
Proof.
  intros Hb Hv Hin. destruct v as [| | | | | |[|gen off|off|c] len| | | | | | | | |]; try done. destruct Hv as [-> Hv].
  split; [done|]. split; [done|]. by eapply value_views_elem.
Qed.

Lemma relocated_once s s' lens acc : relocated (bytes_arena s) lens (value_views (all_values s)) acc -> ba_data (bytes_arena s') = new_arena acc ->
  copied_once s s'.
Proof.
  intros Hacc E. exists (map key (relocations acc)). split; [apply Hacc|]. split; [intros k Hk; by apply Hacc in Hk as [_ ?]|].
  rewrite E, (re_used _ _ _ _ Hacc). unfold sum. clear. induction (relocations acc) as [|r l IH]; [done|]. cbn [map total]. by rewrite IH.
Qed.

(** Without any value there is nothing to move. *)
Lemma compact_nothing s lens threshold : heap_ok s -> bytes_ok s lens -> zlen (all_values s) <= 0 ->
  let s' := set_bytes_arena (set_ba_gc_threshold threshold (set_ba_data [] (bytes_arena s))) s in
  heap_ok s' /\ (exists lens', bytes_ok s' lens') /\
  Forall2 (same_document s s') (root_values s) (root_values s') /\ control_view s' = control_view s /\ status s' = status s /\ copied_once s s'.
Proof.
  intros Hh Hb Hz s'. assert (Hn : all_values s = []) by (destruct (all_values s); [done|]; rewrite zlen_cons in Hz; pose proof (zlen_nonneg l); lia).
  unfold all_values in Hn. apply app_nil in Hn as [Hr Hp].
  assert (Hr' : root_values s' = []) by exact Hr.
  split; [by apply heap_ok_bytes|]. split; [exists []; split|].
  - done.
  - cbn. destruct (bo_fit _ _ Hb). pose proof (zlen_nonneg (ba_data (bytes_arena s))). rewrite zlen_nil. lia.
  - rewrite Hr'. constructor.
  - intros i p (v & Hv & _). rewrite Hr' in Hv. by apply not_elem_of_nil in Hv.
  - rewrite Hr, Hr'. split; [constructor|]. split; [done|]. split; [done|]. exists []. split; [constructor|]. split; [|done].
    intros k Hk. by apply not_elem_of_nil in Hk.
Qed.

Lemma compact_bytes_run s lens : heap_ok s -> bytes_ok s lens -> 0 <= locals_count s ->
  match aivm_compact_bytes_arena s with
  | Ok _ s' => heap_ok s' /\ (exists lens', bytes_ok s' lens') /\
      Forall2 (same_document s s') (root_values s) (root_values s') /\ control_view s' = control_view s /\ status s' = status s /\
      copied_once s s'
  | Err s' => refused s s' \/ root_capacity s = None /\ exists d, s' = aivm_set_vm_error AIVM_VM_ERR_MEMORY_PRESSURE d s
  | Undef => False
  end.
Proof.
  intros Hh Hb Hlc. unfold aivm_compact_bytes_arena, bind at 1, get.
  destruct (Z.eqb_spec (zlen (ba_data (bytes_arena s))) 0) as [Hz|Hnz].
  { cbn. split; [done|]. split; [by exists lens|]. split; [by apply Forall_Forall2_diag, Forall_forall|]. split; [done|]. split; [done|].
    exists []. split; [constructor|]. split; [intros k Hk; by apply not_elem_of_nil in Hk|done]. }
  destruct (root_capacity s) as [cap|] eqn:Ecap; [|right; split; [done|]; by eexists].
  pose proof (root_capacity_enough s cap Hlc Ecap) as Hall0. pose proof (value_views_length (all_values s)) as Hcap1.
  assert (Hcap : zlen (value_views (all_values s)) <= cap) by lia. clear Hcap1.
  destruct (Z.eqb_spec cap 0) as [->|Hcap0]; [by apply (compact_nothing s lens)|].
  unfold bind at 1 2 3, alloc. set (s1 := set_tick _ (set_tick _ (set_tick _ s))).
  destruct (negb _) eqn:Ea; [left; split; [starved_by Ea|by eexists _, _]|].
  assert (Hh1 : heap_ok s1) by (by do 3 apply heap_ok_tick).
  unfold bind at 1. pose proof (mark_handles_valid s1 (hp_handles _ Hh1)) as Hmark.
  destruct (aivm_vm_mark_live_scratch_pair_handles s1) as [lp s2|s2|]; [| |done].
  2: { destruct Hmark as (Hsv & t & d & ->). left. split; [done|]. by eexists _, _. }
  destruct Hmark as ([t ->] & Hlp & Hlpiff). set (s2 := set_tick t s1) in *.
  assert (Hh2 : heap_ok s2) by (by apply heap_ok_tick).
  destruct (bo_lens _ _ Hb) as [L1 L2]. destruct (bo_fit _ _ Hb) as [F1 F2].
  assert (Hcop := copier_bytes (bytes_arena s) lens cap (value_views (all_values s)) L1 L2 ltac:(lia) Hcap).
  unfold bind at 1.
  destruct (copier_roots _ _ later_refl later_trans _ _ _ (mk_relocating [] []) s2 Hcop) as (l1 & l2 & l3 & l4 & a1 & -> & C1 & E1 & R1 & G1 & N1 & N2 & N3).
  { apply Forall_forall. intros v Hv. eapply views_movable; [exact Hb| |by apply elem_of_app; left].
    pose proof (bo_roots _ _ Hb) as Hr. rewrite Forall_forall in Hr. by apply Hr. }
  { split; try done; [constructor|]. intros k Hk. by apply not_elem_of_nil in Hk. }
  unfold bind at 1, walk_live_pairs.
  destruct (copier_walk _ _ later_refl later_trans _ _ _ (fun s => zip lp (scratch_pairs s)) (fun l s => set_scratch_pairs (map snd l) s) a1
    (set_roots l1 l2 l3 l4 s2) (copier_pair _ _ later_refl later_trans _ _ _ Hcop)) as (pl & a2 & -> & C2 & E2 & G2); [|done|].
  { apply Forall_forall. intros [x p] Hin Hx. cbn in Hx. subst x. apply list_elem_of_lookup in Hin as [i Hi].
    apply lookup_zip_with_Some in Hi as (x & q & Ep & Hx & Hq). injection Ep as <- <-.
    change (scratch_pairs (set_roots l1 l2 l3 l4 s2)) with (scratch_pairs s) in Hq.
    assert (Hr : reachable_pair s (Z.of_nat i)) by (apply Hlpiff; unfold is_live; rewrite zget_lookup, Nat2Z.id by lia; done).
    destruct (bo_pairs _ _ Hb (Z.of_nat i) p Hr) as [V1 V2]; [rewrite zget_lookup, Nat2Z.id by lia; done|].
    apply list_elem_of_lookup_2 in Hq.
    assert (Hall : forall v, v ∈ pair_values p -> v ∈ all_values s).
    { intros v Hv. apply elem_of_app. right. apply list_elem_of_In, in_flat_map. exists p. split; by apply list_elem_of_In. }
    split; (eapply views_movable; [exact Hb|done|]); apply Hall; [by left|right; by left]. }
  unfold put_bytes, modify. set (s5 := set_bytes_arena _ _).
  assert (Hm : Forall2 (moved_bytes (bytes_arena s2) a2) (root_values s2) (root_values s5)).
  { change (root_values s5) with (root_values (set_roots l1 l2 l3 l4 s2)). rewrite R1. eapply Forall2_impl; [exact G1|].
    intros x y Hxy. by eapply moved_bytes_mono. }
  assert (Hb2 : bytes_ok s2 lens) by (destruct Hb; by constructor).
  destruct (bytes_moved_heap s2 s5 Hh2 lens Hb2 lp pl a2) as [K1 K2]; try done.
  split; [done|]. split; [exists (map relocation_length (relocations a2)); by eapply (bytes_ok_moved s2 s5)|].
  split; [|split; [exact (set_roots_control l1 l2 l3 l4 s2 N1 N2)|]; split; [done|]; by apply (relocated_once s s5 lens a2)].
  eapply Forall2_impl; [exact K2|]. intros v v' Hv d. rewrite (Hv d). by apply document_alike.
Qed.

(** C12: compacting the bytes arena.  From a well-formed heap whose byte views are
    whole blocks of the arena a compaction either reports memory pressure and has
    changed nothing, the host having refused an allocation or the number of values
    being no size_t, or succeeds: neither the relocation table nor the new arena is
    ever too small.  Afterwards the arena holds one copy of each view that was in use, so
    equal views share it; the views are again whole blocks of the arena, the
    heap is well-formed, and every value of the stack, the locals, the task results
    and the parallel contexts stands for the same document with the same bytes. *)
Theorem compact_bytes_preserves s lens : heap_ok s -> bytes_ok s lens -> 0 <= locals_count s ->
  match aivm_compact_bytes_arena s with
  | Ok _ s' => heap_ok s' /\ (exists lens', bytes_ok s' lens') /\
      Forall2 (same_document s s') (root_values s) (root_values s') /\ control_view s' = control_view s /\ status s' = status s /\
      copied_once s s'
  | Err s' => refused s s' \/ root_capacity s = None /\ exists d, s' = aivm_set_vm_error AIVM_VM_ERR_MEMORY_PRESSURE d s
  | Undef => False
  end.
Proof. apply compact_bytes_run. Qed.

End Compaction.

(** ** Example *)

(** Three bytes of garbage, then two that are held by the stack and by a pair. *)
Definition example_bytes : AivmVm :=
  set_stack [VBytes (BArena 0 3) 2; VPair 1] (set_scratch_pairs [mk_pair (VBytes (BArena 0 3) 2) VVoid]
    (set_bytes_arena (set_ba_data [1; 2; 3; 4; 5] (bytes_arena example_vm)) example_vm)).

Lemma compact_bytes_preserves_witness :
  match aivm_compact_bytes_arena (H := example_host) example_bytes with
  | Ok _ s' => heap_ok s' /\ Forall2 (same_document example_bytes s') (root_values example_bytes) (root_values s') /\
      ba_data (bytes_arena s') = [4; 5]
  | _ => False
  end.
Proof.
  assert (Hp : forall i p, zget (scratch_pairs example_bytes) i = Some p -> p = mk_pair (VBytes (BArena 0 3) 2) VVoid).
  { intros i p Hi. pose proof (zget_Some_bounds _ _ _ Hi) as Hb. change (zlen _) with 1 in Hb. assert (i = 0) as -> by lia. by injection Hi. }
  assert (Hh : heap_ok example_bytes).
  { split.
    - split; [done|constructor|done|done| |split; vm_compute; discriminate..].
      intros i nd c Hi. pose proof (zget_Some_bounds _ _ _ Hi) as Hb. change (zlen _) with 0 in Hb. lia.
    - split; [repeat constructor; by vm_compute|intros i p _ ->%Hp; done|constructor|repeat constructor; by vm_compute].
    - split; [by exists []|by vm_compute|by vm_compute|split; [by left|constructor]].
    - split; [change (root_values example_bytes) with [VPair 1; VBytes (BArena 0 3) 2]; by repeat constructor|intros i p _ ->%Hp; done|].
      intros h nd _ Hl. unfold aivm_vm_lookup_node in Hl. change (node_count _) with 0 in Hl. destruct (_ || _) eqn:E; [done|lia]. }
  assert (Hb : bytes_ok example_bytes [3; 2]).
  { split; [split; [repeat constructor; lia|done]|by vm_compute| |].
    - change (root_values example_bytes) with [VPair 1; VBytes (BArena 0 3) 2]. apply Forall_cons. split; [done|]. apply Forall_singleton.
      split; [done|]. right. by left.
    - intros i p _ ->%Hp. split; [|done]. split; [done|]. right. by left. }
  pose proof (compact_bytes_preserves (H := example_host) example_bytes [3; 2] Hh Hb ltac:(by vm_compute)) as Hrun.
  assert (Hc : match aivm_compact_bytes_arena (H := example_host) example_bytes with
    | Ok _ s' => bool_decide (ba_data (bytes_arena s') = [4; 5]) | _ => false end = true) by (vm_compute; reflexivity).
  destruct (aivm_compact_bytes_arena (H := example_host) example_bytes) as [[] s'|s'|]; [|done|done].
  destruct Hrun as (H1 & _ & H2 & _). split; [exact H1|]. split; [exact H2|]. by apply bool_decide_eq_true in Hc.
Defined.
