(* ===== verification/NodeCreate.v ===== *)
(** * Creating nodes (src/src/aivm_vm_node_create.c, aivm_vm_node_builder.c, aivm_vm.c)

    aivm_vm_create_node_record: the texts are secured, room is reserved in the string
    arena, the node arenas are grown or compacted if they are full, and only then the
    record is written.  The children are read again after each compaction, from
    wherever the caller keeps them: an array of its own, or the array of a node
    builder, which the compaction itself updates. *)

From S2P Require Import Prelude Types Program Vm Memory Lifecycle Stack Roots Pairs NodeGc Strings NumberText.

(** Where the children of the new node are. *)
Inductive child_source :=
  | OwnArray (children : list Z)
  | BuilderArray (index : Z).

Definition builder_at (s : AivmVm) (index : Z) : option AivmNodeBuilderRecord :=
  match zget (node_builders s) index with Some (Some b) => Some b | _ => None end.

Definition read_children (src : child_source) : M (list Z) :=
  match src with
  | OwnArray l => ret l
  | BuilderArray i => let! s := get in check (builder_children <$> builder_at s i)
  end.

(** The text of a pointer, with NULL as the empty text. *)
Definition or_empty (p : str_ptr) : str_ptr := if bool_decide (p = SNull) then SExt [] else p.

Definition attr_text (v : AivmNodeAttrValue) : option str_ptr :=
  match v with NAIdentifier p | NAString p => Some p | _ => None end.

Definition set_attr_text (v : AivmNodeAttrValue) (p : str_ptr) : AivmNodeAttrValue :=
  match v with NAIdentifier _ => NAIdentifier p | NAString _ => NAString p | _ => v end.

(** [aivm_vm_remap_child_handles_for_compaction] into an array of its own. *)
Fixpoint remap_children (n : NodeStore) (handle_map : list Z) (hs : list Z) : option (list Z) :=
  match hs with
  | [] => Some []
  | h :: rest => h' ← remap_handle n handle_map h; rest' ← remap_children n handle_map rest; Some (h' :: rest')
  end.

Definition node_pressure {A} : M A :=
  do! put_store (fun n => set_node_arena_pressure_count (aivm_counter_increment_saturating (node_arena_pressure_count n)) n) in
  throw AIVM_VM_ERR_MEMORY_PRESSURE (DText "AIVMM005: node arena capacity exceeded.").

(** [string_reserve]: every text with its terminator. *)
Fixpoint add_sizes (total : Z) (texts : list (list Z)) : option Z :=
  match texts with
  | [] => Some total
  | c :: rest => b ← aivm_size_add_checked (zlen c) 1; t ← aivm_size_add_checked total b; add_sizes t rest
  end.

(** A call that returns NULL on failure. *)
Definition or_null {A} (m : M A) : M (option A) := or_else (let! a := m in ret (Some a)) (ret None).

Section Host.

Context `{Host}.

(** [snapshot_node_input_string]: a text of the arena is copied to the heap. *)
Definition snapshot_node_input_string (p : str_ptr) : M str_ptr :=
  if bool_decide (p = SNull) then fail
  else
    let! text := deref_str p in
    let! s := get in
    if aivm_pointer_in_string_arena (strings s) p then
      match aivm_size_add_checked (zlen text) 1 with
      | None => throw AIVM_VM_ERR_MEMORY_PRESSURE (DText "AIVMM001: string snapshot allocation failed.")
      | Some size =>
          let! ok := alloc size in
          if ok then ret (SExt text)
          else throw AIVM_VM_ERR_MEMORY_PRESSURE (DText "AIVMM001: string snapshot allocation failed.")
      end
    else ret p.

Definition snapshot_attr (x : AivmNodeAttr) : M AivmNodeAttr :=
  let! key := snapshot_node_input_string (or_empty (attr_key x)) in
  match attr_text (attr_value x) with
  | Some p =>
      let! value := snapshot_node_input_string (or_empty p) in
      ret (mk_attr key (set_attr_text (attr_value x) value))
  | None => ret (mk_attr key (attr_value x))
  end.

Fixpoint snapshot_attrs (xs : list AivmNodeAttr) : M (list AivmNodeAttr) :=
  match xs with
  | [] => ret []
  | x :: rest => let! x' := snapshot_attr x in let! rest' := snapshot_attrs rest in ret (x' :: rest')
  end.

(** The texts of the node, in the order their sizes are added up. *)
Fixpoint attr_texts (xs : list AivmNodeAttr) : M (list (list Z)) :=
  match xs with
  | [] => ret []
  | x :: rest =>
      let! key := deref_str (attr_key x) in
      let! value := match attr_text (attr_value x) with Some p => let! c := deref_str p in ret [c] | None => ret [] end in
      let! more := attr_texts rest in
      ret (key :: value ++ more)
  end.

(** [prepare_compaction_scratch]; [first] is whether the blocks are still missing. *)
Definition prepare_compaction_scratch (first : bool) (child_count : Z) : M unit :=
  if first then
    let! s := get in
    let! ok1 := alloc ((node_capacity (node_store s) + 1) * 8) in
    let! ok2 := if 0 <? child_count then alloc (child_count * 8) else ret true in
    if ok1 && ok2 then ret tt
    else throw AIVM_VM_ERR_MEMORY_PRESSURE (DText "AIVMM005: node compaction scratch allocation failed.")
  else ret tt.

(** A compaction during the creation: the children are roots, and their new handles
    are looked up from where the children are then. *)
Definition compact_for_node (first : bool) (src : child_source) (message : string) : M child_source :=
  let! children := read_children src in
  do! prepare_compaction_scratch first (zlen children) in
  let! handle_map := aivm_vm_compact_node_arenas_with_map children in
  let! children := read_children src in
  let! s := get in
  match remap_children (node_store s) handle_map children with
  | None => throw AIVM_VM_ERR_INVALID_PROGRAM (DText message)
  | Some remapped =>
      do! put_store (set_node_allocations_since_gc 0) in
      ret (if zlen children =? 0 then src else OwnArray remapped)
  end.

(** The attributes copied into the arenas, each slot checked first. *)
Fixpoint store_attrs (slot : Z) (xs : list AivmNodeAttr) : M (list AivmNodeAttr) :=
  match xs with
  | [] => ret []
  | x :: rest =>
      let! s := get in
      if node_attr_capacity (node_store s) <=? slot then node_pressure
      else
        let! key := aivm_vm_copy_string_to_arena (attr_key x) in
        let! value :=
          match attr_text (attr_value x) with
          | Some p => let! q := aivm_vm_copy_string_to_arena (or_empty p) in ret (set_attr_text (attr_value x) q)
          | None => ret (attr_value x)
          end in
        let! rest' := store_attrs (slot + 1) rest in
        ret (mk_attr key value :: rest')
  end.

Fixpoint check_child_slots (slot : Z) (hs : list Z) : M unit :=
  match hs with
  | [] => ret tt
  | _ :: rest =>
      let! s := get in
      if node_child_capacity (node_store s) <=? slot then node_pressure else check_child_slots (slot + 1) rest
  end.

Definition raise_high_water (n : NodeStore) : NodeStore :=
  let '(hn, ha, hc) := node_high_water n in
  set_node_high_water (Z.max hn (node_count n), Z.max ha (node_attr_count n), Z.max hc (node_child_count n)) n.

Definition count_allocation (n : NodeStore) : NodeStore :=
  match aivm_size_add_checked (node_allocations_since_gc n) 1 with
  | Some k => set_node_allocations_since_gc k n
  | None => n
  end.

Definition commit_node (nd : AivmNodeRecord) (attrs : list AivmNodeAttr) (children : list Z) (n : NodeStore) : NodeStore :=
  count_allocation (raise_high_water
    (set_nodes (nodes n ++ [nd]) (set_node_attrs (node_attrs n ++ attrs) (set_node_children (node_children n ++ children) n)))).

(** Do the counts fit the capacities? [None] is an overflow. *)
Definition node_needs (n : NodeStore) (attrs children : Z) : option bool :=
  a ← aivm_size_add_checked (node_attr_count n) attrs;
  c ← aivm_size_add_checked (node_child_count n) children;
  k ← aivm_size_add_checked (node_count n) 1;
  Some ((k <=? node_capacity n) && (a <=? node_attr_capacity n) && (c <=? node_child_capacity n)).

(** The arenas are compacted when the node does not fit. *)
Definition node_room_end (first : bool) (attr_count child_count : Z) (src : child_source) : M child_source :=
  let! s := get in
  match node_needs (node_store s) attr_count child_count with
  | None => node_pressure
  | Some true => ret src
  | Some false =>
      let! src := compact_for_node first src "Invalid child handle remap during node GC." in
      let! s := get in
      match node_needs (node_store s) attr_count child_count with
      | Some true => ret src
      | _ => node_pressure
      end
  end.

(** Room in the node arenas: growth where the profile allows it, compaction where it
    does not, and a second compaction when the arenas are still full. *)
Definition node_room (attr_count child_count : Z) (src : child_source) : M child_source :=
  let! s := get in
  let n := node_store s in
  let! (first, src) :=
    if aivm_vm_should_attempt_proactive_node_gc n attr_count child_count then
      or_else
        (do! aivm_vm_try_grow_node_arenas (u64 (node_count n + 1)) (u64 (node_attr_count n + attr_count)) (u64 (node_child_count n + child_count)) in
         ret (true, src))
        (let! src := compact_for_node true src "Invalid child handle remap during proactive node GC." in ret (false, src))
    else ret (true, src) in
  node_room_end first attr_count child_count src.

(** The record itself.  Nothing of it is visible before the counts move. *)
Definition write_node (kind id : str_ptr) (attrs : list AivmNodeAttr) (src : child_source) : M Z :=
  let! k := or_null (aivm_vm_copy_string_to_arena kind) in
  let! i := or_null (aivm_vm_copy_string_to_arena id) in
  match k, i with
  | Some k, Some i =>
      let! s := get in
      let n := node_store s in
      let! stored := store_attrs (node_attr_count n) attrs in
      let! children := read_children src in
      do! check_child_slots (node_child_count n) children in
      do! put_store (commit_node
            (mk_node k i (node_attr_count n) (zlen attrs) (node_child_count n) (zlen children)) stored children) in
      ret (node_count n + 1)
  | _, _ => fail
  end.

(** The three arrays for the secured attributes. *)
Definition scratch_blocks (count : Z) : M unit :=
  if count =? 0 then ret tt
  else
    let! ok1 := alloc (count * SIZEOF_ATTR) in
    let! ok2 := alloc (count * 8) in
    let! ok3 := alloc (count * 8) in
    if ok1 && ok2 && ok3 then ret tt
    else throw AIVM_VM_ERR_MEMORY_PRESSURE (DText "AIVMM005: node allocation scratch allocation failed.").

(** [aivm_vm_create_node_record] *)
Definition aivm_vm_create_node_record (kind id : str_ptr) (attrs : list AivmNodeAttr) (src : child_source) : M Z :=
  if bool_decide (kind = SNull) || bool_decide (id = SNull) then fail
  else
    do! scratch_blocks (zlen attrs) in
    let! kind := snapshot_node_input_string kind in
    let! id := snapshot_node_input_string id in
    let! attrs := snapshot_attrs attrs in
    let! kind_text := deref_str kind in
    let! id_text := deref_str id in
    let! texts := attr_texts attrs in
    match add_sizes 0 (kind_text :: id_text :: texts) with
    | None => throw AIVM_VM_ERR_MEMORY_PRESSURE (DText "AIVMM001: node string reservation overflow.")
    | Some string_reserve =>
        do! aivm_string_arena_reserve string_reserve in
        let! children := read_children src in
        let! src := node_room (zlen attrs) (zlen children) src in
        write_node kind id attrs src
    end.

(** ** Node builders *)

(** [copy_text]: the text on the heap; [None] when the block is refused. *)
Definition copy_text (p : str_ptr) : M (option (list Z)) :=
  if bool_decide (p = SNull) then ret None
  else
    let! text := deref_str p in
    let! ok := alloc (zlen text + 1) in
    ret (if ok then Some text else None).

Definition set_builder (index : Z) (b : option AivmNodeBuilderRecord) : M unit :=
  modify (fun s => set_node_builders (zset (node_builders s) index b) s).

(** The index of the first inactive builder. *)
Definition first_free_builder (bs : list (option AivmNodeBuilderRecord)) : option Z :=
  match list_find (fun o => o = None) bs with Some (i, _) => Some (Z.of_nat i) | None => None end.

(** [lookup_builder]: handles count from 1. *)
Definition lookup_builder (s : AivmVm) (handle : Z) : option (Z * AivmNodeBuilderRecord) :=
  if (handle <=? 0) || (AIVM_VM_NODE_BUILDER_CAPACITY <? handle) then None
  else match builder_at s (handle - 1) with Some b => Some (handle - 1, b) | None => None end.

Definition aivm_vm_node_builder_new (kind id : str_ptr) : M Z :=
  if bool_decide (kind = SNull) || bool_decide (id = SNull) then fail
  else
    let! s := get in
    match first_free_builder (node_builders s) with
    | None => throw AIVM_VM_ERR_MEMORY_PRESSURE (DText "NODE_BUILDER_NEW capacity exceeded.")
    | Some i =>
        let! k := copy_text kind in
        let! d := copy_text id in
        match k, d with
        | Some k, Some d => do! set_builder i (Some (mk_builder k d [] [])) in ret (i + 1)
        | _, _ => throw AIVM_VM_ERR_MEMORY_PRESSURE (DText "NODE_BUILDER_NEW allocation failed.")
        end
    end.

(** [grow_array] asks for a block when the array is full: its capacity is 4 doubled
    as often as the count needs. *)
Definition array_full (count : Z) : bool := (count =? 0) || ((4 <=? count) && (2 ^ Z.log2 count =? count)).

Definition aivm_vm_node_builder_append_child (builder_handle child_handle : Z) : M unit :=
  let! s := get in
  match lookup_builder s builder_handle, aivm_vm_lookup_node (node_store s) child_handle with
  | Some (i, b), Some _ =>
      let count := zlen (builder_children b) in
      let! ok := if array_full count then alloc (Z.max 4 (2 * count) * 8) else ret true in
      if ok then
        set_builder i (Some (mk_builder (builder_kind b) (builder_id b) (builder_attrs b) (builder_children b ++ [child_handle])))
      else throw AIVM_VM_ERR_MEMORY_PRESSURE (DText "NODE_BUILDER_APPEND_CHILD allocation failed.")
  | _, _ => throw AIVM_VM_ERR_TYPE_MISMATCH (DText "NODE_BUILDER_APPEND_CHILD requires (builder,node).")
  end.

(** When the key cannot be copied [value.string_value] is released: for a string that
    is its own copy, for every other kind whatever the union holds.  Only NULL may be
    passed to [free] then; the bytes of a bool next to its own are indeterminate. *)
Definition releasable (v : AivmNodeAttrValue) : bool :=
  match v with
  | NAString _ => true
  | NAIdentifier p => bool_decide (p = SNull)
  | NAInt i => i =? 0
  | NABool _ => false
  end.

(** The key is the id of the attribute node.  Only the text of a string value is
    copied to the heap; an identifier keeps its pointer into the arena. *)
Definition aivm_vm_node_builder_append_attr (builder_handle attr_handle : Z) : M unit :=
  let! s := get in
  let n := node_store s in
  match lookup_builder s builder_handle, aivm_vm_lookup_node n attr_handle with
  | Some (i, b), Some nd =>
      if negb (attr_count nd =? 1) || (node_attr_count n <=? attr_start nd)
      then throw AIVM_VM_ERR_TYPE_MISMATCH (DText "NODE_BUILDER_APPEND_ATTR requires (builder,single-attr-node).")
      else
        let! x := check (zget (node_attrs n) (attr_start nd)) in
        let! key := copy_text (node_id nd) in
        let! value :=
          match attr_value x with
          | NAString p => let! t := copy_text p in ret ((fun c => NAString (SExt c)) <$> t)
          | v => ret (Some v)
          end in
        match key, value with
        | Some key, Some value =>
            let count := zlen (builder_attrs b) in
            let! ok := if array_full count then alloc (Z.max 4 (2 * count) * SIZEOF_ATTR) else ret true in
            if ok then
              set_builder i (Some (mk_builder (builder_kind b) (builder_id b) (builder_attrs b ++ [mk_attr (SExt key) value]) (builder_children b)))
            else throw AIVM_VM_ERR_MEMORY_PRESSURE (DText "NODE_BUILDER_APPEND_ATTR allocation failed.")
        | None, _ =>
            if releasable (attr_value x)
            then throw AIVM_VM_ERR_MEMORY_PRESSURE (DText "NODE_BUILDER_APPEND_ATTR allocation failed.")
            else undef
        | Some _, None => throw AIVM_VM_ERR_MEMORY_PRESSURE (DText "NODE_BUILDER_APPEND_ATTR allocation failed.")
        end
  | _, _ => throw AIVM_VM_ERR_TYPE_MISMATCH (DText "NODE_BUILDER_APPEND_ATTR requires (builder,single-attr-node).")
  end.

(** The children are passed as the builder's own array. *)
Definition aivm_vm_node_builder_finish (builder_handle : Z) : M Z :=
  let! s := get in
  match lookup_builder s builder_handle with
  | None => throw AIVM_VM_ERR_TYPE_MISMATCH (DText "NODE_BUILDER_FINISH requires builder operand.")
  | Some (i, b) =>
      let! h := aivm_vm_create_node_record (SExt (builder_kind b)) (SExt (builder_id b)) (builder_attrs b) (BuilderArray i) in
      do! set_builder i None in
      ret h
  end.

Definition aivm_vm_reset_node_builders : M unit :=
  modify (fun s => set_node_builders (map (fun _ => None) (node_builders s)) s).

(** ** Nodes for runtime values *)

Definition lit (s : string) : str_ptr := SExt (bytes_of_string s).

(** [create_runtime_node_from_value] *)
Definition create_runtime_node_from_value (v : AivmValue) : M Z :=
  let make kind id attrs := aivm_vm_create_node_record (lit kind) (lit id) attrs (OwnArray []) in
  match v with
  | VNode h => ret h
  | VString p =>
      if bool_decide (p = SNull) then throw AIVM_VM_ERR_TYPE_MISMATCH (DText "Runtime string value must be non-null.")
      else make "Lit" "runtime_string" [mk_attr (lit "value") (NAString p)]
  | VInt i => make "Lit" "runtime_int" [mk_attr (lit "value") (NAInt i)]
  | VNumber d =>
      let! text := or_else (aivm_vm_copy_string_to_arena (SExt (number_text d)))
                     (throw AIVM_VM_ERR_MEMORY_PRESSURE (DText "Runtime number string allocation failed.")) in
      make "Lit" "runtime_number" [mk_attr (lit "value") (NAString text)]
  | VBool b => make "Lit" "runtime_bool" [mk_attr (lit "value") (NABool b)]
  | VNull => make "Null" "runtime_null" []
  | VBytes _ len => make "Lit" "runtime_bytes" [mk_attr (lit "byteLength") (NAInt (i64_of_u64 (u64 len)))]
  | VVoid => make "Block" "void" []
  | _ => make "Err" "runtime_err"
           [mk_attr (lit "code") (NAIdentifier (lit "RUN030"));
            mk_attr (lit "message") (NAString (lit "Unsupported runtime value."));
            mk_attr (lit "nodeId") (NAIdentifier (lit "runtime"))]
  end.

End Host.
