(* ===== verification/NodeTrees.v ===== *)
(** * The trees the VM holds

    Whether every text of the trees that the roots, the node builders and the host's
    handles stand for can be read, and what it means that a step of the VM carries
    all of them along. *)

From S2P Require Import Prelude Types Program Vm Memory Lifecycle Stack ControlSafety Roots Pairs.
From S2P Require Import NodeGc NodeMark NodeMove NodeCompact Moves.
From S2P Require Import Strings StringText StringIndex StringGc StringCompact StringCopy.

(** ** Trees whose texts can be read *)

Fixpoint ntree_valid (s : AivmVm) (t : ntree) : Prop :=
  match t with
  | NTree kind id attrs children =>
      str_valid s kind /\ str_valid s id /\ Forall (attr_valid s) attrs /\
      (fix all (l : list ntree) : Prop := match l with [] => True | c :: rest => ntree_valid s c /\ all rest end) children
  | _ => True
  end.

Fixpoint vtree_valid (s : AivmVm) (t : vtree) : Prop :=
  match t with
  | TLeaf v => value_valid s v
  | TNode n => ntree_valid s n
  | TPair l r => vtree_valid s l /\ vtree_valid s r
  | _ => True
  end.

Lemma children_valid s l :
  (fix all (l : list ntree) : Prop := match l with [] => True | c :: rest => ntree_valid s c /\ all rest end) l <-> Forall (ntree_valid s) l.
Proof.
  split; induction l as [|c l IH]; [constructor| |done|].
  - intros [H1 H2]. constructor; [done|by apply IH].
  - intros Hf. apply Forall_cons in Hf as [H1 H2]. split; [done|by apply IH].
Qed.

Definition value_tree_ok (s : AivmVm) (v : AivmValue) : Prop := forall d, vtree_valid s (unfold_value d (scratch_pairs s) (node_store s) v).
Definition node_tree_ok (s : AivmVm) (h : Z) : Prop := forall d, ntree_valid s (unfold_node d (node_store s) h).

Lemma node_tree_child s h nd c : node_tree_ok s h -> aivm_vm_lookup_node (node_store s) h = Some nd -> c ∈ children_of (node_store s) nd ->
  node_tree_ok s c.
Proof.
  intros Hok Hl Hc d. specialize (Hok (S d)). cbn [unfold_node] in Hok. rewrite Hl in Hok. destruct Hok as (_ & _ & _ & Hall).
  apply children_valid in Hall. rewrite Forall_forall in Hall. apply Hall. apply list_elem_of_In, in_map. by apply list_elem_of_In.
Qed.

Lemma node_tree_texts s h nd : node_tree_ok s h -> aivm_vm_lookup_node (node_store s) h = Some nd ->
  str_valid s (node_kind nd) /\ str_valid s (node_id nd) /\ Forall (attr_valid s) (attrs_of (node_store s) nd).
Proof. intros Hok Hl. specialize (Hok 1%nat). cbn [unfold_node] in Hok. rewrite Hl in Hok. by destruct Hok as (? & ? & ? & _). Qed.

(** The texts of the reachable nodes and pairs are those of the trees. *)
Lemma reachable_tree s h : texts_ok s -> reachable_node s [] h -> node_tree_ok s h.
Proof.
  intros Ht Hr d. revert h Hr. induction d as [|d IH]; intros h Hr; [done|]. cbn [unfold_node].
  destruct (aivm_vm_lookup_node (node_store s) h) as [nd|] eqn:El; [|done].
  destruct (to_nodes s Ht h nd Hr El) as (V1 & V2 & V3). split; [done|]. split; [done|]. split; [done|].
  apply children_valid, Forall_map, Forall_forall. intros c Hc. apply IH. destruct Hr as (r & H1 & H2 & H3).
  exists r. split; [done|]. split; [done|]. eapply rtc_r; [done|]. by exists nd.
Qed.

Lemma value_trees s v : handles_ok s -> texts_ok s -> value_valid s v -> (forall i, reaches (scratch_pairs s) v i -> reachable_pair s i) ->
  (forall h, v = VNode h -> reachable_node s [] h) -> value_tree_ok s v.
Proof.
  intros Hh Ht Hv Hr Hn d. revert v Hv Hr Hn. induction d as [|d IH]; intros v Hv Hr Hn; destruct v; try done; cbn [unfold_value vtree_valid].
  - apply (reachable_tree s handle Ht (Hn _ eq_refl) (S d)).
  - destruct (pair_at (scratch_pairs s) handle) as [p|] eqn:Ep; [|done].
    assert (Hp : zget (scratch_pairs s) (handle - 1) = Some p /\ 0 < handle <= zlen (scratch_pairs s)).
    { unfold pair_at in Ep. destruct (Z.leb_spec handle 0); [done|]. split; [done|]. apply zget_Some_bounds in Ep. lia. }
    destruct Hp as [Hp Hb]. assert (Hpr : reachable_pair s (handle - 1)) by (apply Hr; by constructor).
    destruct (to_pairs s Ht _ p Hpr Hp) as [V1 V2]. destruct (ho_pairs s Hh _ p Hpr Hp) as [O1 O2].
    assert (Hnode : forall g, VNode g ∈ pair_values p -> node_valid (node_store s) g -> reachable_node s [] g).
    { intros g Hg Hgv. exists g. split; [right; left; by exists (handle - 1), p|]. split; [done|constructor]. }
    split; (apply IH; [done| |]).
    + intros i Hi. apply Hr. by eapply reaches_first.
    + intros g Hg. apply Hnode; [rewrite <- Hg; by left|]. by rewrite Hg in O1.
    + intros i Hi. apply Hr. by eapply reaches_second.
    + intros g Hg. apply Hnode; [rewrite <- Hg; right; by left|]. by rewrite Hg in O2.
Qed.

(** The handles the VM holds, with their trees. *)
Definition trees_ok (s : AivmVm) : Prop :=
  Forall (value_tree_ok s) (root_values s) /\ Forall (node_tree_ok s) (builder_handles s) /\
  Forall (fun h => 0 < h -> node_tree_ok s h) (host_handles s).

Lemma trees_of_texts s : handles_ok s -> texts_ok s -> trees_ok s.
Proof.
  intros Hh Ht. split; [|split].
  - apply Forall_forall. intros v Hv. apply value_trees; try done.
    + pose proof (to_roots s Ht) as Hr. rewrite Forall_forall in Hr. by apply Hr.
    + intros i Hi. by exists v.
    + intros h ->. exists h. split; [by left|]. split; [|constructor]. pose proof (ho_roots s Hh) as Hr. rewrite Forall_forall in Hr. apply (Hr _ Hv).
  - apply Forall_forall. intros h Hin. apply reachable_tree; [done|]. exists h. split; [do 2 right; by left|]. split; [|constructor].
    pose proof (ho_builders s Hh) as Hb. rewrite Forall_forall in Hb. by apply Hb.
  - apply Forall_forall. intros h Hin Hpos. apply reachable_tree; [done|]. exists h. split; [do 3 right; by left|]. split; [|constructor].
    pose proof (ho_host s Hh) as Hb. rewrite Forall_forall in Hb. specialize (Hb h Hin). unfold node_valid. lia.
Qed.

Lemma pair_tree s h p : value_tree_ok s (VPair h) -> pair_at (scratch_pairs s) h = Some p -> value_tree_ok s (first p) /\ value_tree_ok s (second p).
Proof.
  intros Hok Hp. split; intros d; specialize (Hok (S d)); cbn [unfold_value] in Hok; rewrite Hp in Hok; apply Hok.
Qed.

Lemma reaches_trees s v i : reaches (scratch_pairs s) v i -> value_tree_ok s v -> forall p, zget (scratch_pairs s) i = Some p ->
  value_tree_ok s (first p) /\ value_tree_ok s (second p).
Proof.
  induction 1 as [h Hh|h q i Hq Hr IH|h q i Hq Hr IH]; intros Hok p Hp.
  - apply (pair_tree s h p Hok). unfold pair_at. destruct (Z.leb_spec h 0); [lia|done].
  - apply IH; [|done]. by apply (pair_tree s h q Hok).
  - apply IH; [|done]. by apply (pair_tree s h q Hok).
Qed.

Lemma value_tree_valid s v : value_tree_ok s v -> value_valid s v.
Proof. intros Hok. specialize (Hok 0%nat). by destruct v. Qed.

Lemma texts_of_trees s : trees_ok s -> texts_ok s.
Proof.
  intros (T1 & T2 & T3). rewrite Forall_forall in T1. rewrite Forall_forall in T2. rewrite Forall_forall in T3.
  assert (Hpairs : forall i p, reachable_pair s i -> zget (scratch_pairs s) i = Some p -> value_tree_ok s (first p) /\ value_tree_ok s (second p)).
  { intros i p (v & Hv & Hr) Hp. by eapply (reaches_trees s v i Hr (T1 v Hv)). }
  split.
  - apply Forall_forall. intros v Hv. by apply value_tree_valid, T1.
  - intros i p Hi Hp. destruct (Hpairs i p Hi Hp). split; by apply value_tree_valid.
  - intros h nd (r & Hr & Hv & Hrtc) Hl. apply (node_tree_texts s h nd); [|done].
    assert (Hroot : node_tree_ok s r).
    { destruct Hr as [Hr|[(i & p & Hi & Hp & Hr)|[Hr|[Hr|Hr]]]].
      - intros d. specialize (T1 _ Hr d). by destruct d.
      - destruct (Hpairs i p Hi Hp) as [P1 P2]. unfold pair_values in Hr. apply elem_of_cons in Hr as [E|E].
        + intros d. specialize (P1 d). rewrite <- E in P1. by destruct d.
        + apply list_elem_of_singleton in E. intros d. specialize (P2 d). rewrite <- E in P2. by destruct d.
      - by apply T2.
      - apply T3; [done|]. unfold node_valid in Hv. lia.
      - by apply not_elem_of_nil in Hr. }
    clear Hr Hv Hl. induction Hrtc as [|x y z (ndx & Hlx & Hc) _ IH]; [done|]. apply IH. by eapply node_tree_child.
Qed.

(** ** Leaves *)

(** A property of values that only bytes can fail to have. *)
Record of_bytes (P : AivmValue -> Prop) : Prop := {
  ob_string : forall p, P (VString p);
  ob_node : forall h, P (VNode h);
  ob_pair : forall h, P (VPair h) }.

Fixpoint leaves (P : AivmValue -> Prop) (t : vtree) : Prop :=
  match t with TLeaf v => P v | TPair l r => leaves P l /\ leaves P r | _ => True end.

Lemma leaves_of_everywhere P s : everywhere P s -> forall d v, P v -> (forall i, reaches (scratch_pairs s) v i -> reachable_pair s i) ->
  leaves P (unfold_value d (scratch_pairs s) (node_store s) v).
Proof.
  intros [_ H2]. induction d as [|d IH]; intros v Hv Hr; destruct v; try done. cbn [unfold_value].
  destruct (pair_at (scratch_pairs s) handle) as [p|] eqn:Ep; [|done].
  assert (Hp : zget (scratch_pairs s) (handle - 1) = Some p /\ 0 < handle <= zlen (scratch_pairs s)).
  { unfold pair_at in Ep. destruct (Z.leb_spec handle 0); [done|]. split; [done|]. apply zget_Some_bounds in Ep. lia. }
  destruct Hp as [Hp Hb]. destruct (H2 _ p (Hr _ (reaches_here _ _ Hb)) Hp) as [P1 P2].
  split; apply IH; try done; intros i Hi; apply Hr; [by eapply reaches_first|by eapply reaches_second].
Qed.

Lemma leaf_value P pairs n v : of_bytes P -> leaves P (unfold_value 0 pairs n v) -> P v.
Proof. intros [H1 H2 H3] Hl. by destruct v. Qed.

Lemma reaches_leaves P s v i : of_bytes P -> reaches (scratch_pairs s) v i ->
  (forall d, leaves P (unfold_value d (scratch_pairs s) (node_store s) v)) ->
  forall p, zget (scratch_pairs s) i = Some p -> P (first p) /\ P (second p).
Proof.
  intros Hf. induction 1 as [h Hh|h q i Hq Hr IH|h q i Hq Hr IH]; intros Hok p Hp.
  - specialize (Hok 1%nat). cbn [unfold_value] in Hok. unfold pair_at in Hok. destruct (Z.leb_spec h 0); [lia|]. rewrite Hp in Hok.
    destruct Hok as [L1 L2]. split; [exact (leaf_value P (scratch_pairs s) (node_store s) _ Hf L1)|exact (leaf_value P (scratch_pairs s) (node_store s) _ Hf L2)].
  - apply IH; [|done]. intros d. specialize (Hok (S d)). cbn [unfold_value] in Hok. rewrite Hq in Hok. apply Hok.
  - apply IH; [|done]. intros d. specialize (Hok (S d)). cbn [unfold_value] in Hok. rewrite Hq in Hok. apply Hok.
Qed.

Lemma everywhere_of_leaves P s : of_bytes P ->
  Forall (fun v => forall d, leaves P (unfold_value d (scratch_pairs s) (node_store s) v)) (root_values s) -> everywhere P s.
Proof.
  intros Hf Hl. split.
  - eapply Forall_impl; [exact Hl|]. intros v Hv. exact (leaf_value _ _ _ _ Hf (Hv 0%nat)).
  - intros i p (v & Hv & Hr) Hp. rewrite Forall_forall in Hl. by eapply reaches_leaves; [| |apply Hl|].
Qed.

(** ** Steps that carry every tree along *)

Definition same_node_document (s s' : AivmVm) (h h' : Z) : Prop := forall d, node_document d s' h' = node_document d s h.

(** The handles [hs] of the caller are [hs'] afterwards. *)
Record carried (s s' : AivmVm) (hs hs' : list Z) : Prop := {
  ca_heap : heap_ok s';
  ca_roots : Forall2 (same_document s s') (root_values s) (root_values s');
  ca_builders : Forall2 (same_node_document s s') (builder_handles s) (builder_handles s');
  ca_host : Forall2 (fun h h' => 0 < h -> 0 < h' /\ same_node_document s s' h h') (host_handles s) (host_handles s');
  ca_extra : Forall2 (same_node_document s s') hs hs';
  ca_valid : Forall (node_valid (node_store s')) hs';
  ca_trees : Forall (node_tree_ok s') hs';
  ca_leaves : forall P, of_bytes P -> everywhere P s -> everywhere P s';
  ca_bytes : bytes_arena s' = bytes_arena s;
  ca_control : control_view s' = control_view s }.

Lemma same_node_document_trans s1 s2 s3 h1 h2 h3 :
  same_node_document s1 s2 h1 h2 -> same_node_document s2 s3 h2 h3 -> same_node_document s1 s3 h1 h3.
Proof. intros H1 H2 d. by rewrite (H2 d), (H1 d). Qed.

Lemma carried_trans s1 s2 s3 hs1 hs2 hs3 : carried s1 s2 hs1 hs2 -> carried s2 s3 hs2 hs3 -> carried s1 s3 hs1 hs3.
Proof.
  intros [] []. split; try done; [| | | |auto|congruence|congruence].
  - eapply Forall2_compose; [apply same_document_trans|done|done].
  - eapply Forall2_compose; [apply same_node_document_trans|done|done].
  - eapply Forall2_compose; [|done|done]. intros x y z Hxy Hyz Hx. destruct (Hxy Hx) as [Hy Sxy]. destruct (Hyz Hy).
    split; [done|by eapply same_node_document_trans].
  - eapply Forall2_compose; [apply same_node_document_trans|done|done].
Qed.

Lemma Forall2_self {A} (R : A -> A -> Prop) l : (forall x, x ∈ l -> R x x) -> Forall2 R l l.
Proof. induction l as [|x l IH]; intros HR; constructor; [apply HR; by left|]. apply IH. intros y Hy. apply HR. by right. Qed.

(** The handles that the VM holds by itself are reachable. *)
Lemma builder_reachable s h : handles_ok s -> h ∈ builder_handles s -> reachable_node s [] h.
Proof.
  intros Hh Hin. exists h. split; [do 2 right; by left|]. split; [|constructor].
  pose proof (ho_builders s Hh) as Hb. rewrite Forall_forall in Hb. by apply Hb.
Qed.

Lemma host_reachable s h : handles_ok s -> h ∈ host_handles s -> 0 < h -> reachable_node s [] h.
Proof.
  intros Hh Hin Hpos. exists h. split; [do 3 right; by left|]. split; [|constructor].
  pose proof (ho_host s Hh) as Hb. rewrite Forall_forall in Hb. specialize (Hb h Hin). unfold node_valid. lia.
Qed.

Lemma reachable_valid s h : nodes_ok (node_store s) -> reachable_node s [] h -> node_valid (node_store s) h.
Proof.
  intros Hn (r & _ & Hv & Hrtc). induction Hrtc as [|x y z (nd & Hl & Hc) _ IH]; [done|]. apply IH. clear IH Hv.
  unfold aivm_vm_lookup_node in Hl. destruct (_ || _); [done|]. by eapply no_child.
Qed.

(** What keeps the texts of reachable nodes carries reachable handles along. *)
Lemma kept_carried s s' hs : heap_ok s -> kept s s' -> Forall (reachable_node s []) hs -> carried s s' hs hs.
Proof.
  intros Hh [K1 K2 K3 K4 K5 (E1 & E2 & E3 & E4 & _)] Hr. rewrite Forall_forall in Hr.
  assert (Hk : forall h, reachable_node s [] h -> same_node_document s s' h h) by (intros h Hx d; by apply K3).
  assert (Eb : builder_handles s' = builder_handles s) by (unfold builder_handles; by rewrite E3).
  split; try done.
  - rewrite Eb. apply Forall2_self. intros h Hin. by apply Hk, builder_reachable; [apply Hh|].
  - rewrite E4. apply Forall2_self. intros h Hin Hpos. split; [done|]. by apply Hk, host_reachable; [apply Hh| |].
  - apply Forall2_self. intros h Hin. by apply Hk, Hr.
  - apply Forall_forall. intros h Hin. apply reachable_valid; [apply K1|]. by apply K3, Hr.
  - apply Forall_forall. intros h Hin. apply reachable_tree; [apply K1|]. by apply K3, Hr.
  - intros P Hf. apply K5, Hf.
Qed.

(** ** Steps that touch no text *)

Definition texts_view (s : AivmVm) := (strings s, program s, bytes_arena s).

Lemma texts_view_reads s s' : texts_view s' = texts_view s -> reads_alike s s'.
Proof.
  unfold texts_view. intros [= E1 E2 E3]. split; intros p.
  - unfold read_str. by rewrite E1, E2.
  - intros k. unfold read_bytes. by rewrite E2, E3.
Qed.

Section TextsView.

Context (s s' : AivmVm) (Hview : texts_view s' = texts_view s).

Lemma view_str p : str_valid s p -> str_valid s' p.
Proof.
  destruct (texts_view_reads s s' Hview) as [Hr _]. destruct p; cbn [str_valid]; rewrite ?Hr; try done.
  unfold texts_view in Hview. injection Hview as E1 _ _. by rewrite E1.
Qed.

Lemma view_attr x : attr_valid s x -> attr_valid s' x.
Proof. intros [H1 H2]. split; [by apply view_str|]. destruct (attr_value x); try done; by apply view_str. Qed.

Lemma view_ntree : forall t, ntree_valid s t -> ntree_valid s' t.
Proof.
  fix IH 1. intros [kind id attrs children| |]; try done. intros (V1 & V2 & V3 & V4).
  split; [by apply view_str|]. split; [by apply view_str|]. split; [eapply Forall_impl; [exact V3|apply view_attr]|].
  induction children as [|c cs IHc]; [done|]. destruct V4 as [V4 V5]. split; [by apply IH|by apply IHc].
Qed.

Lemma view_vtree t : vtree_valid s t -> vtree_valid s' t.
Proof.
  induction t as [v|n|l IHl r IHr| |]; try done; cbn.
  - destruct v; try done. by apply view_str.
  - apply view_ntree.
  - intros [H1 H2]. split; [by apply IHl|by apply IHr].
Qed.

Lemma view_document v v' : same_value s s' v v' -> same_document s s' v v'.
Proof. intros Hs d. unfold document. rewrite (Hs d). by apply resolve_vtree_alike, texts_view_reads. Qed.

Lemma view_node_document h h' : same_node s s' h h' -> same_node_document s s' h h'.
Proof. intros Hs d. unfold node_document. rewrite (Hs d). by apply resolve_ntree_alike, texts_view_reads. Qed.

Lemma view_node_tree h h' : same_node s s' h h' -> node_tree_ok s h -> node_tree_ok s' h'.
Proof. intros Hs Hok d. rewrite (Hs d). by apply view_ntree. Qed.

Lemma view_value_tree v v' : same_value s s' v v' -> value_tree_ok s v -> value_tree_ok s' v'.
Proof. intros Hs Hok d. rewrite (Hs d). by apply view_vtree. Qed.

Lemma Forall2_forall_r {A B} (R : A -> B -> Prop) (P : A -> Prop) (Q : B -> Prop) l l' :
  Forall2 R l l' -> Forall P l -> (forall x y, R x y -> P x -> Q y) -> Forall Q l'.
Proof. induction 1; intros HP Hi; constructor; apply Forall_cons in HP as [HP1 HP2]; [by eapply Hi|by apply IHForall2]. Qed.

(** Where the shapes stay, so do the trees with their texts. *)
Lemma view_carried hs hs' : heap_ok s -> nodes_ok (node_store s') -> handles_ok s' -> control_view s' = control_view s ->
  Forall2 (same_value s s') (root_values s) (root_values s') ->
  Forall2 (same_node s s') (builder_handles s) (builder_handles s') ->
  Forall2 (host_moved s s') (host_handles s) (host_handles s') ->
  Forall2 (same_node s s') hs hs' -> Forall (node_valid (node_store s')) hs' -> Forall (node_tree_ok s) hs ->
  carried s s' hs hs'.
Proof.
  intros Hh Hn Hok Hcv R1 R2 R3 R4 Hv Ht. destruct (trees_of_texts s (hp_handles s Hh) (hp_texts s Hh)) as (T1 & T2 & T3).
  assert (Hheap : heap_ok s').
  { split; [done|done| |].
    - unfold texts_view in Hview. injection Hview as E1 _ _. rewrite E1. apply Hh.
    - apply texts_of_trees. split; [|split].
      + eapply Forall2_forall_r; [exact R1|exact T1|]. intros x y. apply view_value_tree.
      + eapply Forall2_forall_r; [exact R2|exact T2|]. intros x y. apply view_node_tree.
      + eapply Forall2_forall_r; [exact R3|exact T3|]. intros x y. unfold host_moved. destruct (Z.ltb_spec 0 x) as [Hx|]; [|lia].
        intros [_ Hs] Htx _. by eapply view_node_tree; [exact Hs|apply Htx]. }
  split; try done.
  - eapply Forall2_impl; [exact R1|apply view_document].
  - eapply Forall2_impl; [exact R2|apply view_node_document].
  - eapply Forall2_impl; [exact R3|]. intros x y. unfold host_moved. destruct (Z.ltb_spec 0 x); [|lia].
    intros [? ?] _. split; [done|by apply view_node_document].
  - eapply Forall2_impl; [exact R4|apply view_node_document].
  - eapply Forall2_forall_r; [exact R4|exact Ht|]. intros x y. apply view_node_tree.
  - intros P Hf He. apply everywhere_of_leaves; [done|].
    eapply (Forall2_forall_r (same_value s s')); [exact R1|apply Forall_forall; intros v Hin; exact Hin|].
    intros v v' Hs Hin d. rewrite (Hs d). apply leaves_of_everywhere; [done| |intros i Hi; by exists v].
    destruct He as [He _]. rewrite Forall_forall in He. by apply He.
  - unfold texts_view in Hview. by injection Hview.
Qed.

End TextsView.
