(* ===== verification/NodeRoom.v ===== *)
(** * Room for a node

    The growth and the compactions that aivm_vm_create_node_record
    (src/src/aivm_vm_node_create.c) starts carry every tree along, the children of the
    node to be created included. *)

From S2P Require Import Prelude Types Program Vm Memory Lifecycle Stack ControlSafety Roots Pairs.
From S2P Require Import NodeGc NodeMark NodeMove NodeCompact Moves.
From S2P Require Import Strings StringText StringIndex StringGc StringCompact StringCopy NodeCreate NodeTrees.

(** ** What a computation leaves alone *)

Definition stays {A B} (f : AivmVm -> B) (m : M A) : Prop := forall s,
  match m s with Ok _ s' | Err s' => f s' = f s | Undef => True end.

Section Stays.

Context {B : Type} (f : AivmVm -> B).

Lemma stays_ret {A} (a : A) : stays f (ret a).
Proof. by intros s. Qed.

Lemma stays_get : stays f get.
Proof. by intros s. Qed.

Lemma stays_of_visit {A} (r : visit A) : (forall e d s, f (aivm_set_vm_error e d s) = f s) -> stays f (of_visit r).
Proof. intros Hf s. destruct r; [done|apply Hf|done]. Qed.

Lemma stays_throw {A} e d : (forall s, f (aivm_set_vm_error e d s) = f s) -> stays f (@throw A e d).
Proof. intros Hf s. apply Hf. Qed.

Lemma stays_modify g : (forall s, f (g s) = f s) -> stays f (modify g).
Proof. intros Hf s. apply Hf. Qed.

Lemma stays_alloc `{Host} size : (forall t s, f (set_tick t s) = f s) -> stays f (alloc size).
Proof. intros Hf s. apply Hf. Qed.

Lemma stays_bind {A C} (m : M A) (g : A -> M C) : stays f m -> (forall a, stays f (g a)) -> stays f (bind m g).
Proof.
  intros Hm Hg s. unfold bind. specialize (Hm s). destruct (m s) as [a s1|s1|]; [|done|done].
  specialize (Hg a s1). destruct (g a s1); congruence.
Qed.

Lemma stays_walk {A C} part update (F : visitor C A) acc : (forall l s, f (update l s) = f s) ->
  (forall e d s, f (aivm_set_vm_error e d s) = f s) -> stays f (walk part update F acc).
Proof. intros Hu He s. unfold walk. destruct (visit_list F acc (part s)) as [l [a|e d|]]; [apply Hu| |done]. by rewrite He. Qed.

End Stays.

Create HintDb stays.
#[export] Hint Resolve stays_ret stays_get stays_of_visit stays_throw stays_modify stays_alloc stays_walk : stays.

Ltac stays_steps :=
  repeat first
    [ apply stays_bind; [solve [eauto with stays] | intros ?]
    | progress cbv beta zeta
    | match goal with |- stays _ (if ?b then _ else _) => destruct b end
    | match goal with |- stays _ (match ?x with _ => _ end) => destruct x end
    | solve [eauto with stays] ].

(** The texts and the capacities of the node arenas. *)
Definition room_view (s : AivmVm) :=
  let n := node_store s in (texts_view s, (node_capacity n, node_attr_capacity n, node_child_capacity n)).

(** ** Steps that keep the shape of everything *)

Lemma unfold_node_ext n n' d : nodes n' = nodes n -> node_attrs n' = node_attrs n -> node_children n' = node_children n ->
  forall h, unfold_node d n' h = unfold_node d n h.
Proof.
  intros E1 E2 E3. induction d as [|d IH]; intros h; [done|]. cbn [unfold_node].
  unfold aivm_vm_lookup_node, node_count, attrs_of, children_of. rewrite E1, E2, E3.
  destruct (_ || _); [done|]. destruct (zget _ _) as [nd|]; [|done]. f_equal. apply map_ext. exact IH.
Qed.

Lemma unfold_value_ext n n' pairs d : nodes n' = nodes n -> node_attrs n' = node_attrs n -> node_children n' = node_children n ->
  forall v, unfold_value d pairs n' v = unfold_value d pairs n v.
Proof.
  intros E1 E2 E3. induction d as [|d IH]; intros v; destruct v; try done; cbn [unfold_value].
  - by rewrite (unfold_node_ext n n' (S d) E1 E2 E3).
  - destruct (pair_at pairs handle) as [p|]; [|done]. by rewrite !IH.
Qed.

Definition wider (c c' : Z) : Prop := c <= c' /\ (c <= SIZE_MAX -> c' <= SIZE_MAX).

(** Only the room, the counters and the error change. *)
Record idle (s s' : AivmVm) : Prop := {
  id_same : untouched s s';
  id_view : texts_view s' = texts_view s;
  id_control : control_view s' = control_view s;
  id_nodes : wider (node_capacity (node_store s)) (node_capacity (node_store s'));
  id_attrs : wider (node_attr_capacity (node_store s)) (node_attr_capacity (node_store s'));
  id_children : wider (node_child_capacity (node_store s)) (node_child_capacity (node_store s')) }.

Lemma wider_refl c : wider c c.
Proof. by split. Qed.

Lemma idle_refl s : idle s s.
Proof. split; try done; apply wider_refl. Qed.

Lemma wider_trans a b c : wider a b -> wider b c -> wider a c.
Proof. unfold wider. lia. Qed.

Lemma idle_trans s1 s2 s3 : idle s1 s2 -> idle s2 s3 -> idle s1 s3.
Proof.
  intros [(U1 & U2 & U3 & U4 & U5 & U6 & U7) V1 C1 N1 A1 H1] [(U1' & U2' & U3' & U4' & U5' & U6' & U7') V2 C2 N2 A2 H2].
  split; [|congruence|congruence|by eapply wider_trans|by eapply wider_trans|by eapply wider_trans].
  unfold untouched. split_and!; congruence.
Qed.

Lemma idle_nodes_ok s s' : idle s s' -> nodes_ok (node_store s) -> nodes_ok (node_store s').
Proof.
  intros [(E1 & E2 & E3 & _) _ _ [N1 N1'] [A1 A1'] [C1 C1']] [P1 P2 P3 P4 P5 P6 P7 P8].
  split; unfold node_count, node_attr_count, node_child_count, children_of in *; rewrite ?E1, ?E2, ?E3; try done; lia.
Qed.

Lemma idle_handles_ok s s' : idle s s' -> handles_ok s -> handles_ok s'.
Proof.
  intros [(E1 & E2 & E3 & E4 & E5 & E6 & E7) _ _ _ _ _] [H1 H2 H3 H4].
  assert (Eh : forall v, value_handle_ok s v -> value_handle_ok s' v).
  { intros v. unfold value_handle_ok, node_valid, node_count. by rewrite E1, E5. }
  assert (En : forall h, node_valid (node_store s) h -> node_valid (node_store s') h).
  { intros h. unfold node_valid, node_count. by rewrite E1. }
  split.
  - rewrite E4. eapply Forall_impl; [exact H1|exact Eh].
  - intros i p Hi. rewrite E5. intros Hp. unfold reachable_pair in Hi. rewrite E4, E5 in Hi. destruct (H2 i p Hi Hp). split; by apply Eh.
  - unfold builder_handles. rewrite E6. eapply Forall_impl; [exact H3|exact En].
  - rewrite E7. eapply Forall_impl; [exact H4|]. intros h. unfold node_count. by rewrite E1.
Qed.

Lemma idle_same s s' : idle s s' -> (forall v, same_value s s' v v) /\ (forall h, same_node s s' h h).
Proof.
  intros [(E1 & E2 & E3 & _ & E5 & _) _ _ _ _ _]. split; [intros v d|intros h d].
  - rewrite E5. by apply unfold_value_ext.
  - by apply unfold_node_ext.
Qed.

Lemma idle_carried s s' hs : heap_ok s -> idle s s' -> Forall (node_valid (node_store s)) hs -> Forall (node_tree_ok s) hs ->
  carried s s' hs hs.
Proof.
  intros Hh Hi Hv Ht. destruct (idle_same s s' Hi) as [Sv Sn]. pose proof (idle_nodes_ok s s' Hi (hp_nodes s Hh)) as Hn.
  pose proof (idle_handles_ok s s' Hi (hp_handles s Hh)) as Hok. destruct Hi as [(E1 & E2 & E3 & E4 & E5 & E6 & E7) Hview Hcv _ _ _].
  apply view_carried; try done.
  - rewrite E4. by apply Forall2_self.
  - unfold builder_handles. rewrite E6. by apply Forall2_self.
  - rewrite E7. apply Forall2_self. intros h _. unfold host_moved. by destruct (Z.ltb_spec 0 h).
  - by apply Forall2_self.
  - eapply Forall_impl; [exact Hv|]. intros h. unfold node_valid, node_count. by rewrite E1.
Qed.

Section Host.

Context `{Host}.

Lemma room_mark_pairs : stays room_view aivm_vm_mark_live_scratch_pair_handles.
Proof. unfold aivm_vm_mark_live_scratch_pair_handles. stays_steps. Qed.

Lemma room_mark_nodes extra : stays room_view (aivm_vm_mark_live_node_handles extra).
Proof. pose proof room_mark_pairs. unfold aivm_vm_mark_live_node_handles. stays_steps. Qed.

Lemma room_remap_kept n hm field store msg : (forall x m, node_capacity (store x m) = node_capacity m) ->
  (forall x m, node_attr_capacity (store x m) = node_attr_capacity m) -> (forall x m, node_child_capacity (store x m) = node_child_capacity m) ->
  stays room_view (remap_kept n hm field store msg).
Proof.
  intros E1 E2 E3. unfold remap_kept. stays_steps. apply stays_modify. intros s. unfold room_view. cbn. by rewrite E1, E2, E3.
Qed.

Lemma room_remap_roots n pc hm lp : stays room_view (remap_node_roots n pc hm lp).
Proof.
  unfold remap_node_roots, walk_live_pairs. do 6 (apply stays_bind; [by apply stays_walk|intros _]).
  do 2 (apply stays_bind; [by apply room_remap_kept|intros _]). by apply room_remap_kept.
Qed.

Lemma room_commit out : stays room_view (put_store (commit_arenas out)).
Proof.
  apply stays_modify. intros s. unfold room_view, texts_view, commit_arenas. destruct (node_gc_reclaimed _) as [[? ?] ?]. by cbn.
Qed.

Lemma room_compact extra : stays room_view (aivm_vm_compact_node_arenas_with_map extra).
Proof.
  pose proof room_mark_pairs. pose proof room_mark_nodes. pose proof room_remap_roots. pose proof room_commit.
  unfold aivm_vm_compact_node_arenas_with_map. apply stays_bind; [by apply stays_modify|intros _]. stays_steps.
Qed.

(** ** Growth *)

Lemma double_until_bounds needed fuel : needed <= SIZE_MAX -> forall next, 0 <= next <= SIZE_MAX ->
  next <= double_until fuel next needed <= SIZE_MAX.
Proof.
  intros Hn. induction fuel as [|fuel IH]; intros next Hx; cbn [double_until]; [lia|].
  destruct (Z.ltb_spec next needed); [|lia]. destruct (Z.ltb_spec (SIZE_MAX / 2) next); [lia|].
  assert (next * 2 <= SIZE_MAX) by (pose proof (Z.mul_div_le SIZE_MAX 2); lia). specialize (IH (next * 2)). lia.
Qed.

Lemma next_capacity_wider current needed : 0 <= current -> needed <= SIZE_MAX -> wider current (next_capacity current needed).
Proof.
  intros Hc Hn. unfold next_capacity, wider. assert (1 <= SIZE_MAX) by done.
  destruct (decide (current <= SIZE_MAX)) as [Hle|Hgt].
  - destruct (Z.eqb_spec current 0) as [->|]; [pose proof (double_until_bounds needed 65 Hn 1)|pose proof (double_until_bounds needed 65 Hn current)]; lia.
  - destruct (Z.eqb_spec current 0); [lia|]. change 65%nat with (S 64). cbn [double_until].
    destruct (Z.ltb_spec current needed); lia.
Qed.

Lemma idle_tick s t : idle s (set_tick t s).
Proof. split; try done; apply wider_refl. Qed.

Definition idles {A} (s0 : AivmVm) (m : M A) : Prop := forall s, idle s0 s ->
  match m s with Ok _ s' | Err s' => idle s0 s' /\ status s' = status s | Undef => False end.

Lemma idles_bind {A B} s0 (m : M A) (f : A -> M B) : idles s0 m -> (forall a, idles s0 (f a)) -> idles s0 (bind m f).
Proof.
  intros Hm Hf s Hs. unfold bind. specialize (Hm s Hs). destruct (m s) as [a s1|s1|]; [|done|done].
  destruct Hm as [H1 E1]. specialize (Hf a s1 H1). destruct (f a s1); [| |done]; destruct Hf; split; congruence.
Qed.

Lemma idles_grow_arena s0 capacity old size commit :
  (old < capacity -> forall s, idle s0 s -> idle s0 (set_node_store (commit (node_store s)) s)) ->
  idles s0 (grow_arena capacity old size commit).
Proof.
  intros Hc s Hs. unfold grow_arena. destruct (Z.ltb_spec old capacity) as [Hlt|]; [|done].
  assert (Ht : idle s0 (set_tick (S (tick s)) s)) by (eapply idle_trans; [exact Hs|apply idle_tick]).
  unfold bind, alloc. destruct (host_alloc _ _); cbn; split; try done. exact (Hc Hlt _ Ht).
Qed.

Lemma idles_growth_available s0 growth : idles s0 (aivm_vm_host_memory_growth_available growth).
Proof.
  intros s Hs. unfold aivm_vm_host_memory_growth_available, bind, get, snapshot.
  assert (Ht : idle s (set_tick (S (tick s)) s)) by apply idle_tick.
  destruct (negb _); [done|]. destruct (host_memory_snapshot _) as [[total available]|]; [|by split; [eapply idle_trans|]].
  destruct (aivm_host_memory_growth_allowed _ _ _ _) as [[] suspended]; cbn; (split; [|done]);
    (eapply idle_trans; [exact Hs|]); (eapply idle_trans; [exact Ht|]); split; try done; apply wider_refl.
Qed.

Lemma try_grow_run s a b c : nodes_ok (node_store s) -> a <= SIZE_MAX -> b <= SIZE_MAX -> c <= SIZE_MAX ->
  match aivm_vm_try_grow_node_arenas a b c s with
  | Ok _ s' | Err s' => idle s s' /\ status s' = status s
  | Undef => False
  end.
Proof.
  intros Hn Ha Hb Hc. set (n := node_store s) in *.
  pose proof (no_node_fit n Hn). pose proof (no_attr_fit n Hn). pose proof (no_child_fit n Hn).
  assert (0 <= node_count n /\ 0 <= node_attr_count n /\ 0 <= node_child_count n) as (? & ? & ?) by (unfold node_count, node_attr_count, node_child_count, zlen; lia).
  assert (W1 := next_capacity_wider (node_capacity n) a ltac:(lia) Ha).
  assert (W2 := next_capacity_wider (node_attr_capacity n) b ltac:(lia) Hb).
  assert (W3 := next_capacity_wider (node_child_capacity n) c ltac:(lia) Hc).
  unfold aivm_vm_try_grow_node_arenas, bind at 1, get. fold n. destruct (negb _); [by split; [apply idle_refl|]|]. cbv zeta.
  destruct (_ && _); [by split; [apply idle_refl|]|]. destruct (_ ≫= _) as [growth|]; [|by split; [apply idle_refl|]].
  apply (fun P => idles_bind s _ _ (idles_growth_available s growth) P s (idle_refl s)). intros _.
  apply idles_bind; [|intros _; apply idles_bind; [|intros _]]; apply idles_grow_arena; intros _ s1 [I1 I2 I3 I4 I5 I6]; by split.
Qed.

(** ** Compaction *)

Lemma carried_forget s s' hs hs' : carried s s' hs hs' -> carried s s' [] [].
Proof. intros []. by split. Qed.

Lemma idle_error s e d : idle s (aivm_set_vm_error e d s).
Proof. split; try done; apply wider_refl. Qed.

(** How a step ends that may move the handles [hs] of the caller. *)
Definition settles (s : AivmVm) (hs : list Z) (r : res child_source) : Prop :=
  match r with
  | Ok src s' => exists hs', src = OwnArray hs' /\ carried s s' hs hs' /\ texts_view s' = texts_view s /\ status s' = status s
  | Err s' => carried s s' [] [] /\ status s' = AIVM_VM_STATUS_ERROR
  | Undef => False
  end.

Definition held_ok (s : AivmVm) (hs : list Z) : Prop := heap_ok s /\ Forall (node_valid (node_store s)) hs /\ Forall (node_tree_ok s) hs.

Lemma carried_held s s' hs hs' : carried s s' hs hs' -> held_ok s' hs'.
Proof. by intros []. Qed.

Lemma idle_refused s s1 hs e d : held_ok s hs -> idle s s1 -> settles s hs (throw e d s1).
Proof.
  intros (Hh & _) Hi. split; [|done]. apply idle_carried; try done. eapply idle_trans; [exact Hi|apply idle_error].
Qed.

Lemma compact_carried s hs : held_ok s hs ->
  match aivm_vm_compact_node_arenas_with_map hs s with
  | Ok hm s' => carried s s' hs (map (map_at hm) hs) /\ room_view s' = room_view s /\ status s' = status s
  | Err s' => idle s s' /\ status s' = AIVM_VM_STATUS_ERROR /\ starved
  | Undef => False
  end.
Proof.
  intros (Hh & Hv & Ht). pose proof (room_compact hs s) as Hview. pose proof (calm_compact_nodes hs s) as Hcalm.
  pose proof (compact_nodes_run s hs (hp_nodes s Hh) (hp_handles s Hh) Hv) as Hrun.
  destruct (aivm_vm_compact_node_arenas_with_map hs s) as [hm s'|s'|]; [| |done].
  - destruct Hrun as ((N & K & R1 & R2 & R3 & R4) & _). destruct Hcalm as [Hcv Hst].
    split; [|done].
    apply view_carried; try done.
    + exact (f_equal fst Hview).
    + clear -R4. induction R4 as [|h hs [_ ?]]; by constructor.
    + clear -R4. apply Forall_map. eapply Forall_impl; [exact R4|]. by intros h [? _].
  - destruct Hrun as (_ & Hu & Hsv). destruct Hcalm as [Hcv Hst]. split; [|done]. unfold room_view in Hview. injection Hview as E1 E2 E3 E4 E5 E6.
    split; try done; [unfold texts_view; by rewrite E1, E2, E3|rewrite E4|rewrite E5|rewrite E6]; apply wider_refl.
Qed.

Lemma remap_children_valid n hm hs : Forall (fun h => 0 < h <= node_capacity n) hs -> Forall (fun h => 0 < map_at hm h) hs ->
  remap_children n hm hs = Some (map (map_at hm) hs).
Proof.
  induction 1 as [|h hs Hh _ IH]; intros Hm; [done|]. apply Forall_cons in Hm as [Hm1 Hm2]. cbn [remap_children].
  unfold remap_handle. destruct (Z.leb_spec h 0); [lia|]. destruct (Z.ltb_spec (node_capacity n) h); [lia|].
  destruct (Z.leb_spec (map_at hm h) 0); [lia|]. cbn. rewrite (IH Hm2). done.
Qed.

Lemma prepare_run first k s : match prepare_compaction_scratch first k s with
  | Ok _ s' => idle s s' /\ status s' = status s
  | Err s' => exists s1 e d, idle s s1 /\ s' = aivm_set_vm_error e d s1
  | Undef => False
  end.
Proof.
  unfold prepare_compaction_scratch. destruct first; [|by split; [apply idle_refl|]]. unfold bind at 1 2 3, get, alloc.
  assert (Ht : forall t, idle s (set_tick t s)) by apply idle_tick.
  destruct (0 <? k); cbn; destruct (_ && _); cbn; try (split; [apply (Ht _)|done]); eexists _, _, _; (split; [|reflexivity]); apply (Ht _).
Qed.

Lemma compact_for_node_run first hs msg s : held_ok s hs -> settles s hs (compact_for_node first (OwnArray hs) msg s).
Proof.
  intros Hok. unfold compact_for_node. cbn [read_children]. unfold bind at 1, ret.
  pose proof (prepare_run first (zlen hs) s) as Hp. unfold bind at 1. destruct (prepare_compaction_scratch first (zlen hs) s) as [[] s1|s1|]; [| |done].
  2: { destruct Hp as (s2 & e & d & Hi & ->). by apply (idle_refused s s2 hs e d). }
  destruct Hp as [Hi Hst]. assert (C1 : carried s s1 hs hs) by (apply idle_carried; [apply Hok|done|apply Hok|apply Hok]).
  pose proof (compact_carried s1 hs (carried_held _ _ _ _ C1)) as Hc. unfold bind at 1.
  destruct (aivm_vm_compact_node_arenas_with_map hs s1) as [hm s2|s2|]; [| |done].
  2: { destruct Hc as (Hi2 & Hst2 & _). split; [|done]. apply idle_carried; [apply Hok| |done|done]. by eapply idle_trans. }
  destruct Hc as (C2 & Hview & Hst2). unfold bind at 1, bind at 1, get.
  assert (Hcap : node_capacity (node_store s2) = node_capacity (node_store s1)) by (unfold room_view in Hview; by injection Hview).
  rewrite (remap_children_valid (node_store s2) hm hs).
  2: { rewrite Hcap. pose proof (ca_valid _ _ _ _ C1) as Hv. eapply Forall_impl; [exact Hv|]. intros h Hh. unfold node_valid in Hh.
       pose proof (no_node_fit _ (hp_nodes _ (ca_heap _ _ _ _ C1))). lia. }
  2: { pose proof (ca_valid _ _ _ _ C2) as Hv. rewrite Forall_map in Hv. eapply Forall_impl; [exact Hv|]. intros h Hh. apply Hh. }
  unfold bind, put_store, modify, ret. set (s3 := set_node_store _ s2). exists (map (map_at hm) hs).
  assert (C3 : carried s2 s3 (map (map_at hm) hs) (map (map_at hm) hs)).
  { apply idle_carried; [apply C2| |apply C2|apply C2]. split; try done; apply wider_refl. }
  split; [by destruct hs|]. split; [eapply carried_trans; [exact C1|]; by eapply carried_trans|].
  split; [|by rewrite <- Hst, <- Hst2]. change (texts_view s3) with (texts_view s2). rewrite <- (id_view _ _ Hi). exact (f_equal fst Hview).
Qed.

(** ** Room in the node arenas *)

Definition roomy (s : AivmVm) (attr_count child_count : Z) : Prop := node_needs (node_store s) attr_count child_count = Some true.

Lemma settles_trans s s1 hs hs1 r : carried s s1 hs hs1 -> texts_view s1 = texts_view s -> status s1 = status s ->
  settles s1 hs1 r -> settles s hs r.
Proof.
  intros C V E. destruct r as [src s'|s'|]; cbn [settles]; [| |done].
  - intros (hs' & -> & C' & V' & E'). exists hs'. split; [done|]. split; [by eapply carried_trans|]. split; congruence.
  - intros [C' E']. split; [|done]. eapply carried_trans; [by eapply carried_forget|done].
Qed.

Lemma pressure_settles s hs : held_ok s hs -> settles s hs (node_pressure s).
Proof.
  intros Hok. unfold node_pressure, bind, put_store, modify. apply idle_refused; [done|]. split; try done; apply wider_refl.
Qed.

Definition settles_roomy (s : AivmVm) (hs : list Z) (attr_count child_count : Z) (r : res child_source) : Prop :=
  settles s hs r /\ match r with Ok _ s' => roomy s' attr_count child_count | _ => True end.

Lemma carried_refl s hs : held_ok s hs -> carried s s hs hs.
Proof. intros (H1 & H2 & H3). by apply idle_carried; [|apply idle_refl| |]. Qed.

Lemma node_room_end_run first a c hs s : held_ok s hs -> settles_roomy s hs a c (node_room_end first a c (OwnArray hs) s).
Proof.
  intros Hok. unfold node_room_end, bind at 1, get. destruct (node_needs (node_store s) a c) as [[]|] eqn:En.
  - split; [|exact En]. exists hs. split; [done|]. split; [by apply carried_refl|done].
  - unfold bind at 1. pose proof (compact_for_node_run first hs "Invalid child handle remap during node GC." s Hok) as Hc.
    destruct (compact_for_node _ _ _ s) as [src s1|s1|]; [|done|done].
    destruct Hc as (hs1 & -> & C & V & E). unfold bind at 1, get. destruct (node_needs (node_store s1) a c) as [[]|] eqn:En1.
    + split; [|exact En1]. by exists hs1.
    + split; [|done]. eapply settles_trans; [done..|]. apply pressure_settles. by eapply carried_held.
    + split; [|done]. eapply settles_trans; [done..|]. apply pressure_settles. by eapply carried_held.
  - split; [|done]. by apply pressure_settles.
Qed.

Lemma u64_size z : u64 z <= SIZE_MAX.
Proof. unfold u64. pose proof (Z.mod_pos_bound z (2 ^ 64)). change SIZE_MAX with (2 ^ 64 - 1). lia. Qed.

Lemma node_room_run a c hs s : held_ok s hs -> settles_roomy s hs a c (node_room a c (OwnArray hs) s).
Proof.
  intros Hok. unfold node_room.
  unfold bind at 1, get. cbv zeta. unfold bind at 1. destruct (aivm_vm_should_attempt_proactive_node_gc _ _ _); [|by apply node_room_end_run].
  unfold or_else, bind at 1.
  pose proof (try_grow_run s _ _ _ (hp_nodes s (proj1 Hok)) (u64_size (node_count (node_store s) + 1))
    (u64_size (node_attr_count (node_store s) + a)) (u64_size (node_child_count (node_store s) + c))) as Hg.
  destruct (aivm_vm_try_grow_node_arenas _ _ _ s) as [[] s1|s1|]; [| |done]; destruct Hg as [Hi Hst];
    (assert (C1 : carried s s1 hs hs) by (apply idle_carried; [apply Hok|done|apply Hok|apply Hok])); pose proof (id_view _ _ Hi) as V1.
  - cbn. destruct (node_room_end_run true a c hs s1 (carried_held _ _ _ _ C1)) as [H1 H2]. split; [|exact H2]. by eapply settles_trans.
  - unfold bind at 1. pose proof (compact_for_node_run true hs "Invalid child handle remap during proactive node GC." s1 (carried_held _ _ _ _ C1)) as Hc.
    destruct (compact_for_node _ _ _ s1) as [src s2|s2|]; [| |done].
    + destruct Hc as (hs1 & -> & C2 & V2 & E2). cbn.
      destruct (node_room_end_run false a c hs1 s2 (carried_held _ _ _ _ C2)) as [H1 H2]. split; [|exact H2].
      eapply settles_trans; [eapply carried_trans; [exact C1|exact C2]|congruence|congruence|exact H1].
    + split; [|done]. by apply (settles_trans s s1 hs hs (Err s2)).
Qed.

End Host.
