(* ===== verification/NodeBuild.v ===== *)
(** * What creating a node gives

    aivm_vm_create_node_record (src/src/aivm_vm_node_create.c) from a well-formed heap:
    the new handle stands for the requested node, and everything the VM held before
    still stands for the same document. *)

From S2P Require Import Prelude Types Program Vm Memory Lifecycle Stack ControlSafety Roots Pairs.
From S2P Require Import NodeGc NodeMark NodeMove NodeCompact Moves.
From S2P Require Import Strings StringText StringIndex StringGc StringCompact StringCopy NodeCreate NodeTrees NodeRoom.

(** ** Appending a record to the arenas *)

Lemma slice_app_l {A} (l l2 : list A) i k : 0 <= i -> 0 <= k -> i + k <= zlen l -> slice (l ++ l2) i k = slice l i k.
Proof.
  intros H1 H2 H3. unfold slice, ztake, zdrop, zlen in *. rewrite drop_app_le by lia. rewrite take_app_le; [done|].
  rewrite length_drop. lia.
Qed.

Section Appended.

Context (s s' : AivmVm) (nd : AivmNodeRecord) (attrs : list AivmNodeAttr) (children : list Z).
Context (Hh : heap_ok s) (Hs' : s' = set_node_store (commit_node nd attrs children (node_store s)) s).
Context (Hnd : nd = mk_node (node_kind nd) (node_id nd) (node_attr_count (node_store s)) (zlen attrs)
                      (node_child_count (node_store s)) (zlen children)).
Context (Hroom : roomy s (zlen attrs) (zlen children)).
Context (Hvalid : Forall (node_valid (node_store s)) children).

Abbreviation n := (node_store s).
Abbreviation n' := (node_store s').

Lemma appended_store : nodes n' = nodes n ++ [nd] /\ node_attrs n' = node_attrs n ++ attrs /\ node_children n' = node_children n ++ children /\
  node_capacity n' = node_capacity n /\ node_attr_capacity n' = node_attr_capacity n /\ node_child_capacity n' = node_child_capacity n /\
  host_handles s' = host_handles s.
Proof.
  rewrite Hs'. unfold host_handles. cbn [node_store set_node_store]. unfold commit_node, count_allocation, raise_high_water.
  cbn [node_high_water set_nodes set_node_attrs set_node_children]. destruct (node_high_water n) as [[? ?] ?].
  destruct (aivm_size_add_checked _ _); by cbn.
Qed.

Lemma appended_count : node_count n' = node_count n + 1.
Proof. destruct appended_store as (E & _). unfold node_count. by rewrite E, zlen_app. Qed.

Lemma appended_lookup h : node_valid n h -> aivm_vm_lookup_node n' h = aivm_vm_lookup_node n h.
Proof.
  intros Hv. unfold node_valid in Hv. destruct appended_store as (E & _). unfold aivm_vm_lookup_node. rewrite appended_count.
  destruct (Z.leb_spec h 0); [lia|]. destruct (Z.ltb_spec (node_count n + 1) h); [lia|]. destruct (Z.ltb_spec (node_count n) h); [lia|].
  cbn. rewrite E. unfold zget. destruct (Z.ltb_spec (h - 1) 0); [lia|]. apply lookup_app_l. unfold node_count, zlen in Hv. lia.
Qed.

Lemma appended_new : aivm_vm_lookup_node n' (node_count n + 1) = Some nd.
Proof.
  destruct appended_store as (E & _). pose proof (zlen_nonneg (nodes n)). unfold aivm_vm_lookup_node. rewrite appended_count.
  destruct (Z.leb_spec (node_count n + 1) 0); [unfold node_count in *; lia|]. destruct (Z.ltb_spec (node_count n + 1) (node_count n + 1)); [lia|].
  cbn. rewrite E. unfold zget. destruct (Z.ltb_spec (node_count n + 1 - 1) 0); [unfold node_count in *; lia|].
  replace (Z.to_nat (node_count n + 1 - 1)) with (length (nodes n)) by (unfold node_count, zlen; lia).
  by rewrite lookup_app_r, Nat.sub_diag by done.
Qed.

Lemma appended_ranges i nd0 : zget (nodes n) i = Some nd0 -> attrs_of n' nd0 = attrs_of n nd0 /\ children_of n' nd0 = children_of n nd0.
Proof.
  intros Hi. destruct appended_store as (_ & E2 & E3 & _). destruct (record_ranges n (hp_nodes s Hh) i nd0 Hi) as ([? ?] & ? & ? & ? & ?).
  unfold attrs_of, children_of. rewrite E2, E3. split; apply slice_app_l; unfold node_attr_count, node_child_count in *; lia.
Qed.

Lemma appended_new_ranges : attrs_of n' nd = attrs /\ children_of n' nd = children.
Proof.
  destruct appended_store as (_ & E2 & E3 & _). unfold attrs_of, children_of. rewrite E2, E3, Hnd. cbn.
  unfold node_attr_count, node_child_count.
  rewrite <- (app_nil_r (node_attrs n ++ attrs)), <- (app_nil_r (node_children n ++ children)), <- !app_assoc. split; apply slice_middle.
Qed.

Lemma appended_unfold d : forall h, node_valid n h -> unfold_node d n' h = unfold_node d n h.
Proof.
  induction d as [|d IH]; intros h Hv; [done|]. cbn [unfold_node]. rewrite (appended_lookup h Hv).
  destruct (aivm_vm_lookup_node n h) as [nd0|] eqn:El; [|done]. apply lookup_Some in El as [_ Hz].
  destruct (appended_ranges _ _ Hz) as [-> ->]. f_equal. apply map_ext_in. intros c Hc. apply IH.
  apply (no_child n (hp_nodes s Hh) _ _ _ Hz). by apply list_elem_of_In.
Qed.

Lemma appended_value d : forall v, value_handle_ok s v -> (forall i, reaches (scratch_pairs s) v i -> reachable_pair s i) ->
  unfold_value d (scratch_pairs s) n' v = unfold_value d (scratch_pairs s) n v.
Proof.
  induction d as [|d IH]; intros v Hv Hr; destruct v; try done; cbn [unfold_value]; f_equal.
  - by apply appended_unfold.
  - destruct (pair_at (scratch_pairs s) handle) as [p|] eqn:Ep; [|done].
    assert (Hp : zget (scratch_pairs s) (handle - 1) = Some p /\ 0 < handle <= zlen (scratch_pairs s)).
    { unfold pair_at in Ep. destruct (Z.leb_spec handle 0); [done|]. split; [done|]. apply zget_Some_bounds in Ep. lia. }
    destruct Hp as [Hp Hb]. destruct (ho_pairs s (hp_handles s Hh) _ p (Hr _ (reaches_here _ _ Hb)) Hp) as [O1 O2].
    f_equal; apply IH; try done; intros i Hi; apply Hr; [by eapply reaches_first|by eapply reaches_second].
Qed.

Lemma appended_nodes_ok : nodes_ok n'.
Proof.
  destruct appended_store as (E1 & E2 & E3 & E4 & E5 & E6 & _). destruct (hp_nodes s Hh) as [P1 P2 P3 P4 P5 P6 P7 P8].
  pose proof (zlen_nonneg attrs). pose proof (zlen_nonneg children).
  assert (Ha : attr_count nd = zlen attrs) by (by rewrite Hnd). assert (Hc : child_count nd = zlen children) by (by rewrite Hnd).
  assert (T : forall f, total f (nodes n') = total f (nodes n) + f nd) by (intros f; rewrite E1, total_app; cbn; lia).
  assert (Na : node_attr_count n' = node_attr_count n + zlen attrs) by (unfold node_attr_count; by rewrite E2, zlen_app).
  assert (Nc : node_child_count n' = node_child_count n + zlen children) by (unfold node_child_count; by rewrite E3, zlen_app).
  unfold roomy, node_needs in Hroom.
  destruct (aivm_size_add_checked (node_attr_count n) (zlen attrs)) as [a|] eqn:Ea; [|done].
  destruct (aivm_size_add_checked (node_child_count n) (zlen children)) as [c|] eqn:Ec; [|done].
  destruct (aivm_size_add_checked (node_count n) 1) as [k|] eqn:Ek; [|done]. cbn in Hroom.
  apply size_add_checked_Some in Ea as [_ ->], Ec as [_ ->], Ek as [_ ->]. injection Hroom as Hroom.
  split.
  - rewrite E1, placed_app, P1. f_equal. cbn. rewrite <- P3, <- P4, Ha, Hc. by rewrite Hnd at 3.
  - rewrite E1. apply Forall_app. split; [done|]. apply Forall_singleton. split; lia.
  - by rewrite Na, T, P3, Ha.
  - by rewrite Nc, T, P4, Hc.
  - intros i nd0 c Hi Hin. rewrite appended_count. rewrite E1 in Hi. unfold zget in Hi. destruct (i <? 0) eqn:Ei; [done|].
    apply lookup_app_Some in Hi as [Hi|[Hge Hi]].
    + assert (Hz : zget (nodes n) i = Some nd0) by (unfold zget; by rewrite Ei).
      destruct (appended_ranges i nd0 Hz) as [_ E]. rewrite E in Hin. specialize (P5 i nd0 c Hz Hin). lia.
    + apply list_lookup_singleton_Some in Hi as [_ <-]. destruct appended_new_ranges as [_ E]. rewrite E in Hin.
      rewrite Forall_forall in Hvalid. specialize (Hvalid c Hin). unfold node_valid in Hvalid. lia.
  - rewrite appended_count, E4. lia.
  - rewrite Na, E5. lia.
  - rewrite Nc, E6. lia.
Qed.

Lemma appended_valid h : node_valid n h -> node_valid n' h.
Proof. unfold node_valid. rewrite appended_count. lia. Qed.

Lemma appended_handles_ok : handles_ok s'.
Proof.
  destruct (hp_handles s Hh) as [H1 H2 H3 H4]. destruct appended_store as (_ & _ & _ & _ & _ & _ & E).
  assert (Hv : forall v, value_handle_ok s v -> value_handle_ok s' v).
  { intros v. destruct v; try done; [apply appended_valid|]. by rewrite Hs'. }
  assert (Er : root_values s' = root_values s) by (by rewrite Hs'). assert (Ep : scratch_pairs s' = scratch_pairs s) by (by rewrite Hs').
  split.
  - rewrite Er. by eapply Forall_impl.
  - intros i p. unfold reachable_pair. rewrite Er, Ep. intros Hi Hp. destruct (H2 i p Hi Hp). split; by apply Hv.
  - assert (builder_handles s' = builder_handles s) as -> by (by rewrite Hs'). eapply Forall_impl; [exact H3|apply appended_valid].
  - rewrite E. eapply Forall_impl; [exact H4|]. intros h. cbn. rewrite appended_count. lia.
Qed.

Lemma appended_carried hs : held_ok s hs -> carried s s' hs hs.
Proof.
  intros (_ & Hv & Ht). destruct appended_store as (_ & _ & _ & _ & _ & _ & E). pose proof (hp_handles s Hh) as Hok.
  assert (Sn : forall h, node_valid n h -> same_node s s' h h) by (intros h Hx d; by apply appended_unfold).
  apply view_carried; try done; [by rewrite Hs'|apply appended_nodes_ok|apply appended_handles_ok|by rewrite Hs'| | | | |].
  - assert (root_values s' = root_values s) as -> by (by rewrite Hs'). apply Forall2_self. intros v Hin d.
    assert (scratch_pairs s' = scratch_pairs s) as -> by (by rewrite Hs').
    apply appended_value; [|intros i Hi; by exists v]. pose proof (ho_roots s Hok) as Hr. rewrite Forall_forall in Hr. by apply Hr.
  - assert (builder_handles s' = builder_handles s) as -> by (by rewrite Hs'). apply Forall2_self. intros h Hin. apply Sn.
    pose proof (ho_builders s Hok) as Hr. rewrite Forall_forall in Hr. by apply Hr.
  - rewrite E. apply Forall2_self. intros h Hin. unfold host_moved. destruct (Z.ltb_spec 0 h); [|done]. split; [done|]. apply Sn.
    pose proof (ho_host s Hok) as Hr. rewrite Forall_forall in Hr. specialize (Hr h Hin). unfold node_valid. lia.
  - apply Forall2_self. rewrite Forall_forall in Hv. intros h Hin. by apply Sn, Hv.
  - eapply Forall_impl; [exact Hv|apply appended_valid].
Qed.

(** What the new handle stands for. *)
Lemma appended_document d : node_document (S d) s' (node_count n + 1) =
  NTree (resolve_str s (node_kind nd)) (resolve_str s (node_id nd)) (map (resolve_attr s) attrs) (map (node_document d s) children).
Proof.
  unfold node_document. cbn [unfold_node]. rewrite appended_new. destruct appended_new_ranges as [-> ->].
  rewrite (resolve_ntree_alike s s'); [|by rewrite Hs']. cbn. f_equal. rewrite map_map. apply map_ext_in. intros c Hc.
  rewrite appended_unfold; [done|]. rewrite Forall_forall in Hvalid. by apply Hvalid, list_elem_of_In.
Qed.

Lemma appended_tree : str_valid s (node_kind nd) -> str_valid s (node_id nd) -> Forall (attr_valid s) attrs ->
  Forall (node_tree_ok s) children -> node_tree_ok s' (node_count n + 1).
Proof.
  intros V1 V2 V3 V4 d. assert (Hview : texts_view s' = texts_view s) by (by rewrite Hs'). apply (view_ntree s s' Hview).
  destruct d as [|d]; [done|]. cbn [unfold_node]. rewrite appended_new. destruct appended_new_ranges as [-> ->].
  split; [done|]. split; [done|]. split; [done|]. apply children_valid, Forall_map, Forall_forall. intros c Hc.
  rewrite Forall_forall in V4, Hvalid. rewrite appended_unfold by (by apply Hvalid). by apply V4.
Qed.

End Appended.

(** ** Copies into reserved room *)

Section Grown.

Context (s s' : AivmVm) (Hg : grown s s').

Lemma grown_ntree : forall t, ntree_valid s t -> ntree_valid s' t /\ resolve_ntree s' t = resolve_ntree s t.
Proof.
  fix IH 1. intros [kind id attrs children| |]; [|done|done]. intros (V1 & V2 & V3 & V4). cbn [ntree_valid resolve_ntree]. unfold resolve_str.
  destruct (grown_valid s s' _ Hg V1) as [V1' ->]. destruct (grown_valid s s' _ Hg V2) as [V2' ->].
  assert (Ha : Forall (attr_valid s') attrs /\ map (resolve_attr s') attrs = map (resolve_attr s) attrs).
  { clear -Hg V3. induction V3 as [|x l Hx _ [IH1 IH2]]; [done|]. destruct (grown_attr s s' x Hg Hx) as [? E]. cbn. rewrite E, IH2. by split; [constructor|]. }
  destruct Ha as [Ha ->]. enough ((fix all (l : list ntree) : Prop := match l with [] => True | c :: rest => ntree_valid s' c /\ all rest end) children /\
    map (resolve_ntree s') children = map (resolve_ntree s) children) as [Hc ->] by done.
  induction children as [|c cs IHc]; [done|]. destruct V4 as [V4 V5]. destruct (IH c V4) as [W E]. destruct (IHc V5) as [W' E'].
  cbn. by rewrite E, E'.
Qed.

Lemma grown_node_tree h : node_tree_ok s h -> node_tree_ok s' h /\ same_node_document s s' h h.
Proof.
  destruct (outside_eq s s' (gr_outside _ _ Hg)) as (_ & _ & _ & _ & En & _ & _). intros Ht.
  split; intros d; [|unfold node_document]; rewrite En; by apply grown_ntree.
Qed.

Lemma grown_carried hs : held_ok s hs -> carried s s' hs hs.
Proof.
  intros (Hh & Hv & Ht). pose proof (kept_carried s s' [] Hh (grown_kept s s' Hh Hg) ltac:(constructor)) as [].
  destruct (outside_eq s s' (gr_outside _ _ Hg)) as (_ & _ & _ & _ & En & _ & _).
  split; try done; [| |].
  - apply Forall2_self. rewrite Forall_forall in Ht. intros h Hin. by apply grown_node_tree, Ht.
  - by rewrite En.
  - eapply Forall_impl; [exact Ht|]. intros h Hx. by apply grown_node_tree.
Qed.

End Grown.

(** A text that no compaction moves. *)
Record secure (s : AivmVm) (p : str_ptr) (c : list Z) : Prop := {
  se_null : p <> SNull;
  se_outside : forall gen off, p <> SArena gen off;
  se_valid : str_valid s p;
  se_reads : read_str s p = Some c;
  se_free : nul_free c }.

Lemma secure_program s s' p c : program s' = program s -> secure s p c -> secure s' p c.
Proof.
  intros E [H1 H2 H3 H4 H5]. destruct p as [|gen off|off|c0]; [done|by destruct (H2 gen off)| |by split].
  cbn in *. split; try done; cbn; by rewrite E.
Qed.

Section Host.

Context `{Host}.

Lemma copy_room_run s p c : heap_ok s -> secure s p c -> zlen (sa_text (strings s)) + (zlen c + 1) <= sa_limit (strings s) ->
  exists q s', aivm_vm_copy_string_to_arena p s = Ok q s' /\ grown s s' /\ status s' = status s /\ str_valid s' q /\
    read_str s' q = Some c /\ zlen (sa_text (strings s')) <= zlen (sa_text (strings s)) + (zlen c + 1).
Proof.
  intros Hh [Hp Ho Hv Hr Hc] Hroom. pose proof (zlen_nonneg c). pose proof (zlen_nonneg (sa_text (strings s))).
  unfold aivm_vm_copy_string_to_arena. rewrite bool_decide_eq_false_2 by done.
  unfold bind at 1, deref_str, bind at 1, get. rewrite Hr. cbn [check]. unfold ret at 1. unfold bind at 1.
  pose proof (lookup_string_run s p c Hh Hv Hr Hc) as Hl.
  destruct (lookup_string_in_arena p c s) as [[q|] s0|s0|]; [| |done|done].
  { destruct Hl as [-> (K & E & V & R)]. exists q, s. split_and!; try done; [apply grown_refl, Hh|lia]. }
  destruct Hl as [-> Hl]. pose proof (so_limit _ (hp_strings s Hh)).
  destruct (aivm_size_add_checked (zlen c) 1) as [bn|] eqn:En; [|apply size_add_checked_None in En; lia].
  apply size_add_checked_Some in En as [_ ->]. unfold bind, aivm_vm_snapshot_arena_backed_string, bind, get.
  rewrite (read_str_range _ _ _ Hr). cbn [check ret]. rewrite Hl. cbn [ret].
  destruct (store_room_run s c (hp_strings s Hh) Hroom) as (q & s' & E & G & St & V & R & T).
  rewrite (cstr_idem c Hc) in R. exists q, s'. split_and!; try done. rewrite T, !zlen_app. change (zlen [0]) with 1. lia.
Qed.

(** ** The texts of the node *)

Definition content (s : AivmVm) (p : str_ptr) : list Z := default [] (read_str s p).
Definition attr_contents (s : AivmVm) (x : AivmNodeAttr) : list (list Z) :=
  content s (attr_key x) :: match attr_text (attr_value x) with Some p => [content s p] | None => [] end.

Definition attr_secure (s : AivmVm) (x : AivmNodeAttr) : Prop :=
  secure s (attr_key x) (content s (attr_key x)) /\
  match attr_text (attr_value x) with Some p => secure s p (content s p) | None => True end.

(** A missing text reads as the empty one. *)
Definition normal_attr (x : AivmNodeAttr) : AivmNodeAttr :=
  mk_attr (or_empty (attr_key x)) match attr_text (attr_value x) with Some p => set_attr_text (attr_value x) (or_empty p) | None => attr_value x end.

Lemma snapshot_input_run s p : heap_ok s -> str_valid s p -> p <> SNull ->
  match snapshot_node_input_string p s with
  | Ok q s' => (exists t, s' = set_tick t s) /\ secure s q (content s p) /\ content s q = content s p /\ resolve_str s q = resolve_str s p
  | Err s' => idle s s' /\ status s' = AIVM_VM_STATUS_ERROR
  | Undef => False
  end.
Proof.
  intros Hh Hv Hp. destruct (valid_reads s p Hv Hp) as (c & Hr & Hc). unfold snapshot_node_input_string, content.
  rewrite bool_decide_eq_false_2 by done. unfold bind at 1, deref_str, bind at 1, get at 1. rewrite Hr. cbn [check]. unfold ret at 1.
  unfold bind at 1, get. cbn [default].
  assert (Hid : forall t e d, idle s (aivm_set_vm_error e d (set_tick t s))) by (intros; eapply idle_trans; [apply idle_tick|apply idle_error]).
  destruct (aivm_pointer_in_string_arena (strings s) p) eqn:Ein.
  - destruct (aivm_size_add_checked (zlen c) 1); [|by split; [apply idle_error|]]. unfold bind, alloc. destruct (host_alloc _ _).
    + cbn. split; [by eexists|]. split; [by split|]. split; [done|]. unfold resolve_str. by rewrite Hr.
    + split; [apply (Hid _)|done].
  - split; [exists (tick s); by destruct s|]. rewrite Hr. split; [|done]. split; try done. intros gen off ->. destruct Hv as [-> [c' Hat]].
    apply text_at_bounds in Hat. cbn in Ein. rewrite Z.eqb_refl in Ein. cbn in Ein. pose proof (zlen_nonneg c'). lia.
Qed.

Lemma or_empty_valid s p : str_valid s p -> str_valid s (or_empty p) /\ or_empty p <> SNull.
Proof. intros Hv. unfold or_empty. destruct (bool_decide_reflect (p = SNull)); [|done]. split; [constructor|done]. Qed.

Lemma idle_of_tick s t s' : idle (set_tick t s) s' -> idle s s'.
Proof. apply idle_trans, idle_tick. Qed.

Lemma snapshot_attr_run s x : heap_ok s -> attr_valid s x ->
  match snapshot_attr x s with
  | Ok y s' => (exists t, s' = set_tick t s) /\ attr_secure s y /\ resolve_attr s y = resolve_attr s (normal_attr x)
  | Err s' => idle s s' /\ status s' = AIVM_VM_STATUS_ERROR
  | Undef => False
  end.
Proof.
  intros Hh [Vk Vv]. destruct (or_empty_valid s _ Vk) as [Wk Nk]. unfold snapshot_attr, bind at 1.
  pose proof (snapshot_input_run s _ Hh Wk Nk) as Hk. destruct (snapshot_node_input_string (or_empty (attr_key x)) s) as [k s1|s1|]; [|done|done].
  destruct Hk as ([t ->] & Sk & Ck & Rk). rewrite <- Ck in Sk.
  destruct (attr_text (attr_value x)) as [p|] eqn:Et.
  - assert (Vp : str_valid s p) by (destruct (attr_value x); try done; cbn in Et; congruence).
    destruct (or_empty_valid s p Vp) as [Wp Np]. unfold bind at 1.
    pose proof (snapshot_input_run (set_tick t s) _ (heap_ok_tick s t Hh) Wp Np) as Hp.
    destruct (snapshot_node_input_string (or_empty p) (set_tick t s)) as [q s2|s2|]; [| |done].
    2: { destruct Hp as [Hi E]. split; [by eapply idle_of_tick|done]. }
    destruct Hp as ([t' ->] & Sp & Cp & Rp). apply (secure_program _ s) in Sp; [|done]. rewrite <- Cp in Sp.
    split; [by exists t'|]. split; [split; [done|]; by destruct (attr_value x)|].
    unfold resolve_attr, normal_attr. cbn. rewrite Rk, Et. f_equal. destruct (attr_value x); try done; cbn; cbn in Et; injection Et as ->; f_equal; exact Rp.
  - split; [by exists t|]. split; [split; [done|]; cbn; by rewrite Et|]. unfold resolve_attr, normal_attr. cbn. by rewrite Rk, Et.
Qed.

Lemma snapshot_attrs_run xs : forall s, heap_ok s -> Forall (attr_valid s) xs ->
  match snapshot_attrs xs s with
  | Ok ys s' => (exists t, s' = set_tick t s) /\ Forall (attr_secure s) ys /\ map (resolve_attr s) ys = map (resolve_attr s) (map normal_attr xs)
  | Err s' => idle s s' /\ status s' = AIVM_VM_STATUS_ERROR
  | Undef => False
  end.
Proof.
  induction xs as [|x xs IH]; intros s Hh Hv; cbn [snapshot_attrs].
  { split; [exists (tick s); by destruct s|]. by split; [constructor|]. }
  apply Forall_cons in Hv as [V1 V2]. unfold bind at 1. pose proof (snapshot_attr_run s x Hh V1) as Hx.
  destruct (snapshot_attr x s) as [y s1|s1|]; [|done|done]. destruct Hx as ([t ->] & Sy & Ry). unfold bind.
  specialize (IH (set_tick t s) (heap_ok_tick s t Hh) V2). destruct (snapshot_attrs xs (set_tick t s)) as [ys s2|s2|]; [| |done].
  - destruct IH as ([t' ->] & Sys & Rys). split; [by exists t'|]. split.
    + constructor; [done|]. eapply Forall_impl; [exact Sys|]. intros z [Z1 Z2]. split; [exact (secure_program (set_tick t s) s _ _ eq_refl Z1)|].
      destruct (attr_text (attr_value z)); [exact (secure_program (set_tick t s) s _ _ eq_refl Z2)|done].
    + cbn. by f_equal.
  - destruct IH as [Hi E]. split; [by eapply idle_of_tick|done].
Qed.

Lemma attr_texts_run xs : forall s, Forall (attr_secure s) xs -> attr_texts xs s = Ok (flat_map (attr_contents s) xs) s.
Proof.
  assert (Hd : forall s p, secure s p (content s p) -> deref_str p s = Ok (content s p) s).
  { intros s p Hs. unfold deref_str, bind, get. by rewrite (se_reads _ _ _ Hs). }
  induction xs as [|x xs IH]; intros s Hs; [done|]. apply Forall_cons in Hs as [[S1 S2] Hs]. cbn [attr_texts flat_map].
  unfold bind at 1. rewrite (Hd _ _ S1). unfold attr_contents at 1. destruct (attr_text (attr_value x)) as [p|].
  - unfold bind. rewrite (Hd _ _ S2). cbn [ret]. by rewrite (IH s Hs).
  - unfold bind. cbn [ret]. by rewrite (IH s Hs).
Qed.

Lemma add_sizes_flat l : forall t r, add_sizes t l = Some r -> r = t + zlen (flat l).
Proof.
  induction l as [|c l IH]; intros t r; cbn [add_sizes flat flat_map]; [intros [= ->]; change (zlen []) with 0; lia|].
  destruct (aivm_size_add_checked (zlen c) 1) as [b|] eqn:Eb; [|done]. cbn. destruct (aivm_size_add_checked t b) as [t'|] eqn:Et; [|done].
  cbn. apply size_add_checked_Some in Eb as [_ ->], Et as [_ ->]. intros Hr. apply IH in Hr. fold (flat l).
  rewrite !zlen_app. change (zlen [0]) with 1. lia.
Qed.

(** Room for texts in the arena. *)
Definition fits_texts (s : AivmVm) (l : list (list Z)) : Prop := zlen (sa_text (strings s)) + zlen (flat l) <= sa_limit (strings s).

Lemma zlen_flat_cons c l : zlen (flat (c :: l)) = zlen c + 1 + zlen (flat l).
Proof. unfold flat. cbn [flat_map]. rewrite !zlen_app. change (zlen [0]) with 1. lia. Qed.

(** One of the texts is stored, and there is still room for the others. *)
Lemma copy_next s p l : heap_ok s -> secure s p (content s p) -> fits_texts s (content s p :: l) ->
  exists q s', aivm_vm_copy_string_to_arena p s = Ok q s' /\ grown s s' /\ status s' = status s /\ str_valid s' q /\
    resolve_str s' q = resolve_str s p /\ fits_texts s' l.
Proof.
  intros Hh Hs Hf. unfold fits_texts in *. rewrite zlen_flat_cons in Hf. pose proof (zlen_nonneg (flat l)).
  destruct (copy_room_run s p _ Hh Hs) as (q & s' & E & G & St & V & R & T); [lia|].
  exists q, s'. split_and!; try done; [|pose proof (gr_limit _ _ G); lia].
  unfold resolve_str. rewrite R. by rewrite (se_reads _ _ _ Hs).
Qed.

Lemma attr_secure_valid s x : attr_secure s x -> attr_valid s x.
Proof. intros [S1 S2]. split; [apply S1|]. destruct (attr_value x); try done; apply S2. Qed.

(** Secured texts depend on the program only. *)
Lemma secure_kept s s' p : program s' = program s -> secure s p (content s p) ->
  secure s' p (content s' p) /\ content s' p = content s p /\ resolve_str s' p = resolve_str s p.
Proof.
  intros Ep Hs. pose proof (secure_program s s' p _ Ep Hs) as Hs'.
  assert (E : read_str s' p = read_str s p) by (by rewrite (se_reads _ _ _ Hs), (se_reads _ _ _ Hs')).
  assert (Ec : content s' p = content s p) by (unfold content; by rewrite E). rewrite Ec. split; [done|]. split; [done|].
  unfold resolve_str. by rewrite E.
Qed.

Lemma attrs_secure_kept s s' xs : program s' = program s -> Forall (attr_secure s) xs ->
  Forall (attr_secure s') xs /\ flat_map (attr_contents s') xs = flat_map (attr_contents s) xs /\ map (resolve_attr s') xs = map (resolve_attr s) xs.
Proof.
  intros Ep. induction 1 as [|x xs [S1 S2] _ (I1 & I2 & I3)]; [done|]. cbn [flat_map map]. rewrite I2, I3.
  enough (attr_secure s' x /\ attr_contents s' x = attr_contents s x /\ resolve_attr s' x = resolve_attr s x) as (Hx & -> & ->)
    by (by split; [constructor|]).
  unfold attr_secure, attr_contents, resolve_attr. destruct (secure_kept s s' _ Ep S1) as (W1 & C1 & ->). rewrite C1. rewrite C1 in W1.
  destruct (attr_value x) as [p|p|k|b]; cbn [attr_text] in *; try done; destruct (secure_kept s s' p Ep S2) as (W2 & C2 & ->); rewrite C2;
    rewrite C2 in W2; done.
Qed.

Lemma grown_program s s' : grown s s' -> program s' = program s.
Proof. intros G. by destruct (outside_eq s s' (gr_outside _ _ G)) as (_ & ? & _). Qed.

Lemma store_attrs_run xs : forall slot s l, heap_ok s -> Forall (attr_secure s) xs -> fits_texts s (flat_map (attr_contents s) xs ++ l) ->
  slot + zlen xs <= node_attr_capacity (node_store s) ->
  exists ys s', store_attrs slot xs s = Ok ys s' /\ grown s s' /\ status s' = status s /\ Forall (attr_valid s') ys /\
    map (resolve_attr s') ys = map (resolve_attr s) xs.
Proof.
  induction xs as [|x xs IH]; intros slot s l Hh Hs Hf Hcap.
  { exists [], s. split_and!; try done. apply grown_refl, Hh. }
  apply Forall_cons in Hs as [Hx Hxs]. cbn [store_attrs flat_map] in *. unfold bind at 1, get.
  assert (Hlen : zlen (x :: xs) = 1 + zlen xs) by (unfold zlen; cbn [length]; lia). pose proof (zlen_nonneg xs).
  destruct (Z.leb_spec (node_attr_capacity (node_store s)) slot); [lia|].
  unfold attr_contents at 1 in Hf. rewrite <- app_assoc in Hf. cbn [app] in Hf. pose proof Hx as [S1 S2].
  destruct (copy_next s _ _ Hh S1 Hf) as (k & s1 & E1 & G1 & St1 & V1 & R1 & F1). unfold bind at 1. rewrite E1.
  pose proof (grown_heap_ok s s1 Hh G1) as Hh1.
  assert (Hval : exists v s2, (match attr_text (attr_value x) with
      | Some p => let! q := aivm_vm_copy_string_to_arena (or_empty p) in ret (set_attr_text (attr_value x) q)
      | None => ret (attr_value x) end) s1 = Ok v s2 /\ grown s s2 /\ status s2 = status s /\ attr_valid s2 (mk_attr k v) /\
      resolve_attr s2 (mk_attr k v) = resolve_attr s x /\ fits_texts s2 (flat_map (attr_contents s) xs ++ l)).
  { destruct (attr_text (attr_value x)) as [p|] eqn:Et.
    - destruct (secure_kept s s1 p (grown_program _ _ G1) S2) as (W & C & Rp1). cbn [app] in F1. rewrite <- C in F1.
      destruct (copy_next s1 p _ Hh1 W F1) as (q & s2 & E2 & G2 & St2 & V2 & R2 & F2).
      assert (or_empty p = p) as -> by (unfold or_empty; rewrite bool_decide_eq_false_2; [done|apply S2]).
      eexists _, s2. split; [unfold bind; by rewrite E2|]. split; [by eapply grown_trans|]. split; [congruence|].
      destruct (grown_valid s1 s2 k G2 V1) as [V1' E1']. split; [split; [done|]; by destruct (attr_value x)|]. split; [|done].
      assert (Rp : resolve_str s2 q = resolve_str s p) by (by rewrite R2).
      unfold resolve_attr. cbn. f_equal; [unfold resolve_str at 1; by rewrite E1'|]. destruct (attr_value x); try done; cbn in *; injection Et as ->; by rewrite Rp.
    - exists (attr_value x), s1. split; [done|]. split; [done|]. split; [done|]. split; [split; [done|]; by destruct (attr_value x)|].
      split; [|done]. unfold resolve_attr. cbn. rewrite R1. f_equal. by destruct (attr_value x). }
  destruct Hval as (v & s2 & E2 & G2 & St2 & V2 & R2 & F2). unfold bind at 1. rewrite E2.
  destruct (attrs_secure_kept s s2 xs (grown_program _ _ G2) Hxs) as (Hxs2 & C2 & Rxs). rewrite <- C2 in F2.
  pose proof (grown_heap_ok s s2 Hh G2) as Hh2.
  destruct (IH (slot + 1) s2 l Hh2 Hxs2 F2) as (ys & s3 & E3 & G3 & St3 & V3 & R3).
  { destruct (outside_eq s s2 (gr_outside _ _ G2)) as (_ & _ & _ & _ & -> & _). lia. }
  exists (mk_attr k v :: ys), s3. unfold bind. rewrite E3. split; [done|]. split; [by eapply grown_trans|]. split; [congruence|].
  destruct (grown_attr s2 s3 _ G3 V2) as [V2' R2']. split; [by constructor|]. cbn [map]. by rewrite R2', R2, R3, Rxs.
Qed.

Lemma check_child_slots_run hs : forall slot s, slot + zlen hs <= node_child_capacity (node_store s) -> check_child_slots slot hs s = Ok tt s.
Proof.
  induction hs as [|h hs IH]; intros slot s Hc; [done|]. cbn [check_child_slots]. unfold bind, get.
  assert (Hlen : zlen (h :: hs) = 1 + zlen hs) by (unfold zlen; cbn [length]; lia). pose proof (zlen_nonneg hs).
  destruct (Z.leb_spec (node_child_capacity (node_store s)) slot); [lia|]. apply IH. lia.
Qed.

(** ** The record *)

Definition new_document (s : AivmVm) (kind id : str_ptr) (attrs : list AivmNodeAttr) (children : list Z) (d : nat) : ntree :=
  NTree (resolve_str s kind) (resolve_str s id) (map (resolve_attr s) attrs) (map (node_document d s) children).

(** A handle [h] of [s'] for a node with these parts of [s]. *)
Definition created (s s' : AivmVm) (kind id : str_ptr) (attrs : list AivmNodeAttr) (children : list Z) (h : Z) : Prop :=
  node_valid (node_store s') h /\ node_tree_ok s' h /\ forall d, node_document (S d) s' h = new_document s kind id attrs children d.

Lemma roomy_bounds s a c : roomy s a c -> node_attr_count (node_store s) + a <= node_attr_capacity (node_store s) /\
  node_child_count (node_store s) + c <= node_child_capacity (node_store s).
Proof.
  unfold roomy, node_needs. destruct (aivm_size_add_checked (node_attr_count _) a) as [x|] eqn:Ea; [|done].
  destruct (aivm_size_add_checked (node_child_count _) c) as [y|] eqn:Ec; [|done]. destruct (aivm_size_add_checked (node_count _) 1); [|done].
  apply size_add_checked_Some in Ea as [_ ->], Ec as [_ ->]. cbn. intros [=]. lia.
Qed.

Lemma write_node_run s kind id attrs hs : held_ok s hs -> secure s kind (content s kind) -> secure s id (content s id) ->
  Forall (attr_secure s) attrs -> fits_texts s (content s kind :: content s id :: flat_map (attr_contents s) attrs) ->
  roomy s (zlen attrs) (zlen hs) ->
  exists h s', write_node kind id attrs (OwnArray hs) s = Ok h s' /\ carried s s' hs hs /\ status s' = status s /\
    created s s' kind id attrs hs h.
Proof.
  intros Hok Sk Si Sa Hf Hroom. pose proof Hok as (Hh & Hv & Ht). unfold write_node, or_null, or_else.
  destruct (copy_next s kind _ Hh Sk Hf) as (k & s1 & E1 & G1 & St1 & V1 & R1 & F1). unfold bind at 1 2. rewrite E1. cbn [ret].
  pose proof (grown_heap_ok s s1 Hh G1) as Hh1. destruct (secure_kept s s1 id (grown_program _ _ G1) Si) as (Si1 & Ci & Ri). rewrite <- Ci in F1.
  destruct (copy_next s1 id _ Hh1 Si1 F1) as (i & s2 & E2 & G2 & St2 & V2 & R2 & F2). unfold bind at 1 2. rewrite E2. cbn [ret].
  assert (G12 : grown s s2) by (by eapply grown_trans). pose proof (grown_heap_ok s s2 Hh G12) as Hh2.
  destruct (attrs_secure_kept s s2 attrs (grown_program _ _ G12) Sa) as (Sa2 & Ca & Ra). rewrite <- Ca, <- (app_nil_r (flat_map _ _)) in F2.
  destruct (roomy_bounds s _ _ Hroom) as [Ba Bc]. destruct (outside_eq s s2 (gr_outside _ _ G12)) as (_ & _ & _ & _ & En2 & _).
  unfold bind at 1, get. cbv zeta.
  destruct (store_attrs_run attrs (node_attr_count (node_store s2)) s2 [] Hh2 Sa2 F2) as (ys & s3 & E3 & G3 & St3 & V3 & R3); [by rewrite En2|].
  assert (G13 : grown s s3) by (by eapply grown_trans). destruct (outside_eq s s3 (gr_outside _ _ G13)) as (_ & _ & _ & _ & En3 & _).
  unfold bind at 1. rewrite E3. cbn [read_children]. unfold bind at 1, ret at 1. unfold bind at 1.
  rewrite check_child_slots_run by (by rewrite En2, En3). unfold bind, put_store, modify, ret.
  assert (Hlen : zlen ys = zlen attrs) by (rewrite <- (zlen_map (resolve_attr s3) ys), R3; apply zlen_map).
  pose proof (grown_carried s s3 G13 hs Hok) as C3. pose proof (carried_held _ _ _ _ C3) as Hok3.
  rewrite En2, <- En3, <- Hlen. eexists _, _. split; [reflexivity|].
  set (nd := mk_node _ _ _ _ _ _). set (s4 := set_node_store _ s3).
  assert (Hroom3 : roomy s3 (zlen ys) (zlen hs)) by (unfold roomy; by rewrite En3, Hlen).
  split; [eapply carried_trans; [exact C3|]; by apply (appended_carried s3 s4 nd ys hs (proj1 Hok3) eq_refl eq_refl Hroom3 (proj1 (proj2 Hok3)))|].
  split; [change (status s4) with (status s3); congruence|]. split; [split; [pose proof (zlen_nonneg (nodes (node_store s3))); unfold node_count; lia|];
    rewrite (appended_count s3 s4 nd ys hs eq_refl); lia|].
  destruct (grown_valid s1 s3 k) as [Vk Ek]; [by eapply grown_trans|done|]. destruct (grown_valid s2 s3 i G3 V2) as [Vi Ei]. split.
  - by apply (appended_tree s3 s4 nd ys hs (proj1 Hok3) eq_refl eq_refl (proj1 (proj2 Hok3))); [| | |apply Hok3].
  - intros d. rewrite (appended_document s3 s4 nd ys hs (proj1 Hok3) eq_refl eq_refl (proj1 (proj2 Hok3))).
    unfold new_document. cbn. rewrite R3, Ra. f_equal.
    + unfold resolve_str at 1. rewrite Ek. exact R1.
    + unfold resolve_str at 1. rewrite Ei, <- Ri. exact R2.
    + apply map_ext_in. intros h Hin. rewrite Forall_forall in Ht. by apply (grown_node_tree s s3 G13 h (Ht h ltac:(by apply list_elem_of_In))).
Qed.

(** ** Creating a node *)

Lemma scratch_blocks_run k s : match scratch_blocks k s with
  | Ok _ s' => exists t, s' = set_tick t s
  | Err s' => idle s s' /\ status s' = AIVM_VM_STATUS_ERROR
  | Undef => False
  end.
Proof.
  unfold scratch_blocks. destruct (k =? 0); [exists (tick s); by destruct s|]. unfold bind, alloc. destruct (_ && _); [by eexists|]. unfold throw.
  split; [|done]. eapply idle_trans; [|apply idle_error]. apply (idle_tick s).
Qed.

Lemma carried_documents s s' hs hs' d : carried s s' hs hs' -> map (node_document d s') hs' = map (node_document d s) hs.
Proof. intros [_ _ _ _ F _ _ _]. induction F as [|h h' hs0 hs0' Hx _ IH]; [done|]. cbn. rewrite IH. f_equal. apply Hx. Qed.

Lemma carried_program s s' hs hs' : carried s s' hs hs' -> program s' = program s.
Proof. intros C. pose proof (ca_control _ _ _ _ C) as E. unfold control_view in E. by injection E. Qed.

(** The creation once the texts are secured. *)
Lemma create_secured_run s kind id attrs hs reserve : heap_ok s -> Forall (reachable_node s []) hs ->
  secure s kind (content s kind) -> secure s id (content s id) -> Forall (attr_secure s) attrs ->
  reserve = zlen (flat (content s kind :: content s id :: flat_map (attr_contents s) attrs)) ->
  match (do! aivm_string_arena_reserve reserve in
         let! src := node_room (zlen attrs) (zlen hs) (OwnArray hs) in
         write_node kind id attrs src) s with
  | Ok h s' => created s s' kind id attrs hs h /\ carried s s' [] [] /\ status s' = status s
  | Err s' => carried s s' [] [] /\ status s' = AIVM_VM_STATUS_ERROR
  | Undef => False
  end.
Proof.
  intros Hh Hr Sk Si Sa ->. unfold bind at 1, aivm_string_arena_reserve, bind at 1.
  set (texts := content s kind :: _). pose proof (string_room_run (zlen (flat texts)) s Hh) as Hs.
  destruct (string_room (zlen (flat texts)) s) as [needed s1|s1|]; [unfold ret at 1| |done].
  2: { destruct Hs as [K E]. split; [|done]. by apply kept_carried. }
  destruct Hs as (K & St1 & -> & Hfit & _). pose proof (kept_carried s s1 hs Hh K Hr) as C1. unfold bind at 1.
  pose proof (node_room_run (zlen attrs) (zlen hs) hs s1 (carried_held _ _ _ _ C1)) as [Hset Hroom].
  destruct (node_room (zlen attrs) (zlen hs) (OwnArray hs) s1) as [src s2|s2|]; [| |done].
  2: { destruct Hset as [C2 E]. split; [|done]. eapply carried_trans; [by eapply carried_forget|done]. }
  destruct Hset as (hs2 & -> & C2 & Hview & St2).
  assert (Hp : program s2 = program s) by (by rewrite (carried_program _ _ _ _ C2), (carried_program _ _ _ _ C1)).
  destruct (secure_kept s s2 kind Hp Sk) as (Sk2 & Ck & Rk). destruct (secure_kept s s2 id Hp Si) as (Si2 & Ci & Ri).
  destruct (attrs_secure_kept s s2 attrs Hp Sa) as (Sa2 & Ca & Ra).
  assert (Hlen : zlen hs2 = zlen hs) by (pose proof (Forall2_length _ _ _ (ca_extra _ _ _ _ C2)); unfold zlen; lia). rewrite <- Hlen in Hroom.
  destruct (write_node_run s2 kind id attrs hs2 (carried_held _ _ _ _ C2) Sk2 Si2 Sa2) as (h & s3 & E & C3 & St3 & N1 & N2 & N3); [|done|].
  { unfold fits_texts. rewrite Ck, Ci, Ca. unfold texts_view in Hview. injection Hview as -> _ _. exact Hfit. }
  rewrite E. split; [|split; [|congruence]].
  - split; [done|]. split; [done|]. intros d. rewrite (N3 d). unfold new_document. rewrite Rk, Ri, Ra.
    by rewrite (carried_documents _ _ _ _ d C2), (carried_documents _ _ _ _ d C1).
  - eapply carried_forget. eapply carried_trans; [exact C1|]. by eapply carried_trans.
Qed.

Lemma create_node_run s kind id attrs children :
  heap_ok s -> kind <> SNull -> id <> SNull -> str_valid s kind -> str_valid s id -> Forall (attr_valid s) attrs ->
  Forall (reachable_node s []) children ->
  match aivm_vm_create_node_record kind id attrs (OwnArray children) s with
  | Ok h s' => created s s' kind id (map normal_attr attrs) children h /\ carried s s' [] [] /\ status s' = status s
  | Err s' => carried s s' [] [] /\ status s' = AIVM_VM_STATUS_ERROR
  | Undef => False
  end.
Proof.
  intros Hh Nk Ni Vk Vi Va Hr. unfold aivm_vm_create_node_record. rewrite !bool_decide_eq_false_2 by done. cbn [orb].
  assert (Hidle : forall t s', idle (set_tick t s) s' -> carried s s' [] [])
    by (intros t s' Hi; apply idle_carried; try done; by eapply idle_of_tick).
  unfold bind at 1. pose proof (scratch_blocks_run (zlen attrs) s) as H0.
  destruct (scratch_blocks (zlen attrs) s) as [[] s0|s0|]; [destruct H0 as [t ->]| |done].
  2: { destruct H0 as [Hi E]. split; [by apply idle_carried|done]. }
  unfold bind at 1. pose proof (snapshot_input_run (set_tick t s) kind (heap_ok_tick s t Hh) Vk Nk) as Hk.
  destruct (snapshot_node_input_string kind (set_tick t s)) as [k s1|s1|]; [| |done].
  2: { destruct Hk as [Hi E]. split; [by eapply Hidle|done]. }
  destruct Hk as ([t1 ->] & Sk & Ck & Rk). rewrite <- Ck in Sk.
  unfold bind at 1. pose proof (snapshot_input_run (set_tick t1 s) id (heap_ok_tick s t1 Hh) Vi Ni) as Hi.
  change (set_tick t1 (set_tick t s)) with (set_tick t1 s) in *.
  destruct (snapshot_node_input_string id (set_tick t1 s)) as [i s2|s2|]; [| |done].
  2: { destruct Hi as [Hi E]. split; [by eapply Hidle|done]. }
  destruct Hi as ([t2 ->] & Si & Ci & Ri). rewrite <- Ci in Si. change (set_tick t2 (set_tick t1 s)) with (set_tick t2 s) in *.
  unfold bind at 1. pose proof (snapshot_attrs_run attrs (set_tick t2 s) (heap_ok_tick s t2 Hh) Va) as Ha.
  destruct (snapshot_attrs attrs (set_tick t2 s)) as [xs s3|s3|]; [| |done].
  2: { destruct Ha as [Hi E]. split; [by eapply Hidle|done]. }
  destruct Ha as ([t3 ->] & Sa & Ra). change (set_tick t3 (set_tick t2 s)) with (set_tick t3 s) in *. set (s3 := set_tick t3 s).
  assert (Sk3 : secure s3 k (content s3 k)) by (exact (secure_program (set_tick t s) s3 _ _ eq_refl Sk)).
  assert (Si3 : secure s3 i (content s3 i)) by (exact (secure_program (set_tick t1 s) s3 _ _ eq_refl Si)).
  destruct (attrs_secure_kept (set_tick t2 s) s3 xs eq_refl Sa) as (Sa3 & _ & _).
  unfold bind at 1, deref_str at 1, bind at 1, get at 1. rewrite (se_reads _ _ _ Sk3). cbn [check]. unfold ret at 1.
  unfold bind at 1, deref_str at 1, bind at 1, get at 1. rewrite (se_reads _ _ _ Si3). cbn [check]. unfold ret at 1.
  unfold bind at 1. rewrite (attr_texts_run xs s3 Sa3).
  destruct (add_sizes 0 _) as [reserve|] eqn:Er.
  2: { split; [|done]. by eapply (Hidle t3), idle_error. }
  apply add_sizes_flat in Er. assert (C0 : carried s s3 [] []) by (by eapply (Hidle t3), idle_refl).
  pose proof (create_secured_run s3 k i xs children reserve (heap_ok_tick s t3 Hh) Hr Sk3 Si3 Sa3 Er) as Hrun.
  change (bind (read_children (OwnArray children)) ?f) with (f children). cbv beta in Hrun |- *.
  match goal with |- match ?m with _ => _ end => destruct m as [h s4|s4|] end; [| |done].
  - destruct Hrun as ((N1 & N2 & N3) & C & E). split; [|split; [by eapply carried_trans|done]].
    split; [done|]. split; [done|]. intros d. rewrite (N3 d). unfold new_document. f_equal; [exact Rk|exact Ri|exact Ra|]. apply map_ext. intros c. by apply node_document_alike.
  - destruct Hrun as [C E]. split; [by eapply carried_trans|done].
Qed.

(** C9: creating a node from readable, non-NULL kind and id, readable attributes and
    children that are passed in an array of the caller and can be reached from what the VM
    holds without the call (children held only by the caller are not protected: the
    collections on the way free them, see create_loses_child_text).
    The call returns a handle for exactly the requested node: its kind, id and
    attributes read as they were given, a missing attribute text as the empty one, and
    its children stand for the documents their handles stood for, however the arenas
    were grown or compacted on the way.  Everything else the VM holds still stands for
    the same document, the heap is well-formed, and the handle may be kept.  When memory
    is refused the error is reported and nothing the VM holds has changed its meaning. *)
Theorem create_node_spec s kind id attrs children :
  heap_ok s -> kind <> SNull -> id <> SNull -> str_valid s kind -> str_valid s id -> Forall (attr_valid s) attrs ->
  Forall (reachable_node s []) children ->
  match aivm_vm_create_node_record kind id attrs (OwnArray children) s with
  | Ok h s' => created s s' kind id (map normal_attr attrs) children h /\ carried s s' [] [] /\ status s' = status s
  | Err s' => carried s s' [] [] /\ status s' = AIVM_VM_STATUS_ERROR
  | Undef => False
  end.
Proof. apply create_node_run. Qed.

End Host.

(** ** Examples *)

Lemma create_node_spec_witness :
  match aivm_vm_create_node_record (H := example_host) (SArena 0 5) (SExt (bytes_of_string "x"))
          [mk_attr (SArena 0 7) (NAString SNull); mk_attr (SArena 0 5) (NAInt 3)] (OwnArray [1]) example_strings with
  | Ok h s' =>
      h = 2 /\
      created example_strings s' (SArena 0 5) (SExt (bytes_of_string "x"))
        [mk_attr (SArena 0 7) (NAString (SExt [])); mk_attr (SArena 0 5) (NAInt 3)] [1] 2 /\
      carried example_strings s' [] []
  | _ => False
  end.
Proof.
  assert (Hk : str_valid example_strings (SArena 0 5)).
  { split; [done|]. exists (bytes_of_string "n"). apply example_text_at. by left. }
  assert (Hi : str_valid example_strings (SArena 0 7)).
  { split; [done|]. exists (bytes_of_string "hi"). apply example_text_at. right. by left. }
  assert (Hr : reachable_node example_strings [] 1).
  { exists 1. split; [left; change (root_values example_strings) with [VNode 1; VString (SArena 0 7)]; by left|].
    split; [done|constructor]. }
  assert (Hx : str_valid example_strings (SExt (bytes_of_string "x"))) by (repeat constructor; done).
  assert (Ha : Forall (attr_valid example_strings) [mk_attr (SArena 0 7) (NAString SNull); mk_attr (SArena 0 5) (NAInt 3)]).
  { constructor; [split; [exact Hi|exact I]|]. constructor; [split; [exact Hk|exact I]|constructor]. }
  assert (Hc1 : Forall (reachable_node example_strings []) [1]) by (constructor; [exact Hr|constructor]).
  pose proof (create_node_spec (H := example_host) example_strings (SArena 0 5) (SExt (bytes_of_string "x"))
    [mk_attr (SArena 0 7) (NAString SNull); mk_attr (SArena 0 5) (NAInt 3)] [1] example_heap_ok ltac:(done) ltac:(done) Hk
    Hx Ha Hc1) as Hrun.
  assert (Hc : match aivm_vm_create_node_record (H := example_host) (SArena 0 5) (SExt (bytes_of_string "x"))
          [mk_attr (SArena 0 7) (NAString SNull); mk_attr (SArena 0 5) (NAInt 3)] (OwnArray [1]) example_strings with Ok h _ => bool_decide (h = 2) | _ => false end = true) by (vm_compute; reflexivity).
  destruct (aivm_vm_create_node_record (H := example_host) (SArena 0 5) (SExt (bytes_of_string "x"))
          [mk_attr (SArena 0 7) (NAString SNull); mk_attr (SArena 0 5) (NAInt 3)] (OwnArray [1]) example_strings) as [h s'|s'|]; [|done|done]. apply bool_decide_eq_true in Hc as ->. destruct Hrun as (C & K & _). done.
Defined.

(** ** Where the guarantee ends *)

Definition text (s : string) : str_ptr := SExt (bytes_of_string s).

(** A node that only the caller holds, and a string arena without room. *)
Definition example_popped : AivmVm :=
  let a := set_sa_limit 8 (set_sa_capacity 8 (strings example_vm)) in
  set_node_store (set_nodes [mk_node (SArena 0 0) (SArena 0 0) 0 0 0 0] (node_store example_vm))
    (set_strings (set_sa_text (bytes_of_string "n" ++ [0] ++ bytes_of_string "dead" ++ [0]) a) example_vm).

Lemma popped_valid : str_valid example_popped (SArena 0 0).
Proof.
  split; [done|]. exists (bytes_of_string "n"). apply (text_at_last [] (bytes_of_string "n") [bytes_of_string "dead"]); repeat constructor; done.
Qed.

Lemma popped_ok : heap_ok example_popped.
Proof.
  split.
  - split; [done|repeat constructor; done|done|done| |split; vm_compute; discriminate..].
    intros i nd c Hi' Hc. pose proof (zget_Some_bounds _ _ _ Hi') as Hb. change (zlen _) with 1 in Hb.
    assert (i = 0) as -> by lia. injection Hi' as <-. vm_compute in Hc. by inversion Hc.
  - split; [constructor| |constructor|repeat constructor; by vm_compute].
    intros i p _ Hp. pose proof (zget_Some_bounds _ _ _ Hp) as Hb. change (zlen _) with 0 in Hb. lia.
  - split; [|by vm_compute|by vm_compute|split; [by left|constructor]].
    exists [bytes_of_string "n"; bytes_of_string "dead"]. split; [repeat constructor; done|done].
  - split; [constructor| |].
    + intros i p _ Hp. pose proof (zget_Some_bounds _ _ _ Hp) as Hb. change (zlen _) with 0 in Hb. lia.
    + intros h nd _ Hl. unfold aivm_vm_lookup_node in Hl. change (node_count _) with 1 in Hl. destruct (_ || _) eqn:E; [done|].
      assert (h = 1) as -> by lia. injection Hl as <-. split; [apply popped_valid|]. split; [apply popped_valid|constructor].
Qed.

(** A child that only the caller of aivm_vm_create_node_record holds, as after
    APPEND_CHILD, MAKE_NODE and MAKE_MAP have popped it, is not a root of the string
    compaction that the reservation may start.  From a well-formed heap with a readable
    child the creation succeeds, and the texts of the child are gone. *)
Theorem create_loses_child_text :
  heap_ok example_popped /\ node_document 1 example_popped 1 = NTree (text "n") (text "n") [] [] /\
  match aivm_vm_create_node_record (H := example_host) (text "k") (text "i") [] (OwnArray [1]) example_popped with
  | Ok h s' => h = 2 /\ node_document 2 s' h = NTree (text "k") (text "i") [] [NTree SNull SNull [] []]
  | _ => False
  end.
Proof. split; [exact popped_ok|]. split; [by vm_compute|]. by vm_compute. Qed.

(** A builder with one child, and node arenas that are full. *)
Definition example_builder : AivmVm :=
  let n := node_store example_vm in
  let node id := mk_node (text "n") (text id) 0 0 0 0 in
  set_stack [VNode 2]
    (set_node_builders [Some (mk_builder (bytes_of_string "k") (bytes_of_string "i") [] [3])]
      (set_node_store (set_nodes [node "a"; node "b"; node "c"] (set_node_capacity 3 n)) example_vm)).

Lemma builder_ok : heap_ok example_builder.
Proof.
  assert (Hnodes : forall i nd, zget (nodes (node_store example_builder)) i = Some nd ->
    children_of (node_store example_builder) nd = [] /\ attrs_of (node_store example_builder) nd = [] /\
    str_valid example_builder (node_kind nd) /\ str_valid example_builder (node_id nd)).
  { intros i nd Hi. pose proof (zget_Some_bounds _ _ _ Hi) as Hb. change (zlen _) with 3 in Hb.
    assert (i = 0 \/ i = 1 \/ i = 2) as [-> | [-> | ->]] by lia; injection Hi as <-; (split; [done|]); (split; [done|]); split; repeat constructor; done. }
  split.
  - split; [done|repeat constructor; done|done|done| |split; vm_compute; discriminate..].
    intros i nd c Hi' Hc. destruct (Hnodes i nd Hi') as [E _]. rewrite E in Hc. by inversion Hc.
  - split; [repeat constructor; by vm_compute| |repeat constructor; by vm_compute|repeat constructor; by vm_compute].
    intros i p _ Hp. pose proof (zget_Some_bounds _ _ _ Hp) as Hb. change (zlen _) with 0 in Hb. lia.
  - split; [by exists []|by vm_compute|by vm_compute|split; [by left|constructor]].
  - split; [repeat constructor| |].
    + intros i p _ Hp. pose proof (zget_Some_bounds _ _ _ Hp) as Hb. change (zlen _) with 0 in Hb. lia.
    + intros h nd _ Hl. apply lookup_Some in Hl as [_ Hz]. destruct (Hnodes _ _ Hz) as (_ & Ea & V1 & V2).
      split; [done|]. split; [done|]. rewrite Ea. constructor.
Qed.

(** NODE_BUILDER_FINISH passes the children of the builder itself.  When the
    node arenas are full, the compaction renumbers that array as a root of its own,
    and aivm_vm_create_node_record renumbers what it then finds there once more: the
    builder was given the node "c", and the node that is returned has the child "b". *)
Theorem finish_wrong_child :
  heap_ok example_builder /\ builder_handles example_builder = [3] /\
  node_document 1 example_builder 3 = NTree (text "n") (text "c") [] [] /\
  match aivm_vm_node_builder_finish (H := example_host) 1 example_builder with
  | Ok h s' => h = 3 /\ node_document 2 s' h = NTree (text "k") (text "i") [] [NTree (text "n") (text "b") [] []]
  | _ => False
  end.
Proof. split; [exact builder_ok|]. split; [done|]. split; [by vm_compute|]. by vm_compute. Qed.
