(* ===== verification/Collector.v ===== *)
(** * The collector (src/src/aivm_vm.c)

    collect_safe_point_internal composes the compactions of the nodes, the pairs, the
    strings and the bytes; RETURN calls it when the arenas are under pressure.  From a
    well-formed heap the whole collection leaves a well-formed heap in which
    everything the VM holds stands for the same document. *)

From S2P Require Import Prelude Types Program Vm Memory Lifecycle Stack ControlSafety Roots Pairs.
From S2P Require Import NodeGc NodeMark NodeMove NodeCompact Moves.
From S2P Require Import Strings StringText StringIndex StringGc StringCompact StringCopy Bytes BytesGc NodeCreate NodeTrees NodeRoom.

Section Host.

Context `{Host}.

(** [collect_safe_point_internal] *)
Definition collect_nodes : M unit :=
  let! s := get in
  if 0 <? node_count (node_store s) then
    do! aivm_vm_compact_node_arenas_with_map [] in
    put_store (set_node_allocations_since_gc 0)
  else ret tt.

Definition collect_pairs : M unit :=
  let! s := get in if 0 <? scratch_pair_count s then aivm_vm_compact_scratch_pairs else ret tt.

Definition collect_strings : M unit :=
  let! s := get in if 0 <? zlen (sa_text (strings s)) then aivm_compact_string_arena else ret tt.

Definition collect_bytes : M unit :=
  let! s := get in if 0 <? zlen (ba_data (bytes_arena s)) then aivm_compact_bytes_arena else ret tt.

Definition collect_safe_point_internal (nodes bytes : bool) : M unit :=
  do! (if nodes then collect_nodes else ret tt) in
  do! (if nodes then collect_pairs else ret tt) in
  do! (if nodes then collect_strings else ret tt) in
  if bytes then collect_bytes else ret tt.

Definition aivm_collect_safe_point : M unit := collect_safe_point_internal true true.

(** The block at the end of RETURN: growth instead of collection where it works. *)
Definition vm_return_safe_point : M unit :=
  let! s := get in
  let collect_nodes := aivm_vm_should_attempt_return_safe_point s in
  let collect_bytes := aivm_vm_should_attempt_bytes_return_safe_point s in
  let! collect_nodes :=
    if collect_nodes then or_else (do! aivm_vm_try_grow_pressure_node_arenas in ret false) (ret true) else ret false in
  if collect_nodes || collect_bytes then collect_safe_point_internal collect_nodes collect_bytes else ret tt.

(** ** Pairs *)

(** What a pair tree with its node handles unfolds to. *)
Fixpoint graft (n : NodeStore) (d : nat) (t : ptree) : vtree :=
  match t with
  | PLeaf (VNode h) => TNode (unfold_node d n h)
  | PLeaf v => TLeaf v
  | PNode l r => match d with O => TCut | S d' => TPair (graft n d' l) (graft n d' r) end
  | PCut => TCut
  | PInvalid => TInvalid
  end.

Lemma graft_unfold n pairs d : forall v, unfold_value d pairs n v = graft n d (unfold_pairs d pairs v).
Proof.
  induction d as [|d IH]; intros v; destruct v; try done. cbn [unfold_value unfold_pairs].
  destruct (pair_at pairs handle) as [p|]; [|done]. cbn [graft]. by rewrite !IH.
Qed.

(** Every leaf has a property, and no handle is invalid. *)
Fixpoint sound_tree (P : AivmValue -> Prop) (t : ptree) : Prop :=
  match t with PLeaf v => P v | PNode l r => sound_tree P l /\ sound_tree P r | PCut => True | PInvalid => False end.

Definition handle_of (n : NodeStore) (v : AivmValue) : Prop := match v with VNode h => node_valid n h | _ => True end.

Lemma sound_of_handles s : handles_ok s -> forall d v, value_handle_ok s v -> (forall i, reaches (scratch_pairs s) v i -> reachable_pair s i) ->
  sound_tree (handle_of (node_store s)) (unfold_pairs d (scratch_pairs s) v).
Proof.
  intros Hok. induction d as [|d IH]; intros v Hv Hr; destruct v; try done. cbn [unfold_pairs]. cbn in Hv.
  destruct (zget_is_Some (scratch_pairs s) (handle - 1)) as [p Hp]; [unfold valid_handle in Hv; lia|].
  assert (Ep : pair_at (scratch_pairs s) handle = Some p) by (unfold pair_at; unfold valid_handle in Hv; destruct (Z.leb_spec handle 0); [lia|done]).
  rewrite Ep. assert (Hb : 0 < handle <= zlen (scratch_pairs s)) by (unfold valid_handle in Hv; lia).
  destruct (ho_pairs s Hok _ p (Hr _ (reaches_here _ _ Hb)) Hp) as [O1 O2].
  split; apply IH; try done; intros i Hi; apply Hr; [by eapply reaches_first|by eapply reaches_second].
Qed.

Lemma handle_of_sound s v : (forall d, sound_tree (handle_of (node_store s)) (unfold_pairs d (scratch_pairs s) v)) -> value_handle_ok s v.
Proof.
  intros Hs. destruct v; try done; [exact (Hs 0%nat)|]. specialize (Hs 1%nat). cbn [unfold_pairs] in Hs.
  destruct (pair_at (scratch_pairs s) handle) as [p|] eqn:Ep; [|done].
  unfold pair_at in Ep. cbn. unfold valid_handle. destruct (Z.leb_spec handle 0); [done|]. apply zget_Some_bounds in Ep. lia.
Qed.

Lemma reaches_sound P s v i : reaches (scratch_pairs s) v i -> (forall d, sound_tree P (unfold_pairs d (scratch_pairs s) v)) ->
  forall p, zget (scratch_pairs s) i = Some p ->
  (forall d, sound_tree P (unfold_pairs d (scratch_pairs s) (first p))) /\ (forall d, sound_tree P (unfold_pairs d (scratch_pairs s) (second p))).
Proof.
  induction 1 as [h Hh|h q i Hq Hr IH|h q i Hq Hr IH]; intros Hok p Hp.
  - split; intros d; specialize (Hok (S d)); cbn [unfold_pairs] in Hok; unfold pair_at in Hok; (destruct (Z.leb_spec h 0); [lia|]);
      rewrite Hp in Hok; apply Hok.
  - apply IH; [|done]. intros d. specialize (Hok (S d)). cbn [unfold_pairs] in Hok. rewrite Hq in Hok. apply Hok.
  - apply IH; [|done]. intros d. specialize (Hok (S d)). cbn [unfold_pairs] in Hok. rewrite Hq in Hok. apply Hok.
Qed.

(** The nodes, the builders and the texts. *)
Definition store_view (s : AivmVm) := (texts_view s, node_store s, node_builders s).

Lemma store_mark_pairs : stays store_view aivm_vm_mark_live_scratch_pair_handles.
Proof. unfold aivm_vm_mark_live_scratch_pair_handles. stays_steps. Qed.

Lemma store_walk_roots {B} (F : visitor B AivmValue) acc : stays store_view (walk_roots F acc).
Proof. unfold walk_roots. stays_steps. Qed.

Lemma store_compact_pairs : stays store_view aivm_vm_compact_scratch_pairs.
Proof.
  pose proof store_mark_pairs. pose proof (@store_walk_roots unit). unfold aivm_vm_compact_scratch_pairs.
  apply stays_bind; [apply stays_get|intros s]. destruct (_ =? 0); [apply stays_ret|].
  do 3 (apply stays_bind; [by apply stays_alloc|intros ?]). destruct (negb _); [by apply stays_throw|].
  apply stays_bind; [done|intros live]. cbv beta zeta.
  match goal with |- context [visit_list ?F ?acc ?l] => destruct (visit_list F acc l) as [remapped r] end.
  apply stays_bind; [by apply stays_of_visit|intros _]. apply stays_bind; [done|intros _]. by apply stays_modify.
Qed.

Lemma handles_ok_pairs s s' : handles_ok s -> node_store s' = node_store s -> node_builders s' = node_builders s ->
  Forall2 (fun v v' => forall n, unfold_pairs n (scratch_pairs s') v' = unfold_pairs n (scratch_pairs s) v) (root_values s) (root_values s') ->
  handles_ok s'.
Proof.
  intros Hok En Eb HR.
  assert (Hs' : Forall (fun v => forall d, sound_tree (handle_of (node_store s')) (unfold_pairs d (scratch_pairs s') v)) (root_values s')).
  { eapply Forall2_forall_r; [exact HR|apply (Forall_forall (fun v => v ∈ root_values s)); by intros v|]. intros v v' E Hin d. rewrite (E d), En.
    apply sound_of_handles; [done| |intros i Hi; by exists v]. pose proof (ho_roots s Hok) as Hr. rewrite Forall_forall in Hr. by apply Hr. }
  split.
  - eapply Forall_impl; [exact Hs'|]. apply handle_of_sound.
  - intros i p (v & Hv & Hr) Hp. rewrite Forall_forall in Hs'. destruct (reaches_sound _ s' v i Hr (Hs' v Hv) p Hp).
    split; by apply handle_of_sound.
  - unfold builder_handles. rewrite Eb, En. apply Hok.
  - unfold host_handles. rewrite En. apply Hok.
Qed.

(** With handles that name pairs only memory can fail it. *)
Lemma compact_pairs_starved s s' : handles_ok s -> aivm_vm_compact_scratch_pairs s = Err s' -> starved.
Proof.
  intros Hok. unfold aivm_vm_compact_scratch_pairs, bind at 1, get. destruct (Z.eqb_spec (scratch_pair_count s) 0) as [|Hnz]; [done|].
  assert (Hne : scratch_pairs s <> []) by (intros E; unfold scratch_pair_count in Hnz; rewrite E in Hnz; done).
  unfold bind at 1 2 3, alloc. set (s1 := set_tick _ (set_tick _ (set_tick _ s))).
  destruct (negb _) eqn:Ea; [intros _; starved_by Ea|]. unfold bind at 1.
  pose proof (mark_handles_run s1 Hne) as Hmark. pose proof (mark_handles_valid s1) as Hvalid.
  destruct (aivm_vm_mark_live_scratch_pair_handles s1) as [live s2|s2|]; [| |done].
  2: { intros _. apply Hvalid. by destruct Hok; split. }
  destruct Hmark as ([t ->] & Hlen & Hroots & Hclosed & _). change (scratch_pairs s1) with (scratch_pairs s) in *.
  change (0 :: ranks live 0) with (pair_map live).
  rewrite (visit_moved (scratch_pairs s) live Hlen Hclosed). cbn [of_visit]. unfold bind at 1, ret.
  destruct (walk_roots_remap (scratch_pairs s) live (set_tick t s1) Hlen Hroots) as (s3 & Hw & _). unfold bind. by rewrite Hw.
Qed.

Lemma compact_pairs_carried s : heap_ok s ->
  match aivm_vm_compact_scratch_pairs s with
  | Ok _ s' => carried s s' [] [] /\ status s' = status s
  | Err s' => carried s s' [] [] /\ status s' = AIVM_VM_STATUS_ERROR /\ starved
  | Undef => False
  end.
Proof.
  intros Hh. pose proof (compact_pairs_starved s) as Hstarved. pose proof (store_compact_pairs s) as Hview. pose proof (calm_compact_pairs s) as Hcalm. pose proof (compact_pairs_run s) as Hrun.
  destruct (aivm_vm_compact_scratch_pairs s) as [[] s'|s'|]; [| |done]; destruct Hcalm as [Hcv Hst];
    unfold store_view in Hview; injection Hview as E1 E2 E3 En Eb;
    (assert (Htv : texts_view s' = texts_view s) by (unfold texts_view; congruence)).
  - destruct Hrun as (HR & _ & _ & _). split; [|done].
    apply view_carried; try done; [by rewrite En; apply Hh|eapply handles_ok_pairs; [apply Hh|done..]| | | ].
    + eapply Forall2_impl; [exact HR|]. intros v v' E d. by rewrite !graft_unfold, E, En.
    + unfold builder_handles. rewrite Eb. apply Forall2_self. intros h _ d. by rewrite En.
    + unfold host_handles. rewrite En. apply Forall2_self. intros h _. unfold host_moved. destruct (Z.ltb_spec 0 h); [|done].
      split; [done|]. intros d. by rewrite En.
  - destruct Hrun as (_ & Ep & Er). split; [|split; [done|eapply Hstarved; [apply Hh|done]]]. apply idle_carried; try done.
    split; try done; [|by rewrite En; apply wider_refl..]. unfold untouched, host_handles. by rewrite En, Er, Ep, Eb.
Qed.

(** ** What a collection keeps *)

Definition full_heap (s : AivmVm) : Prop := heap_ok s /\ exists lens, bytes_ok s lens.

(** Every root, builder and handle of the host stands for the same document. *)
Record preserved (s s' : AivmVm) : Prop := {
  pr_heap : full_heap s';
  pr_roots : Forall2 (same_document s s') (root_values s) (root_values s');
  pr_builders : Forall2 (same_node_document s s') (builder_handles s) (builder_handles s');
  pr_host : Forall2 (fun h h' => 0 < h -> 0 < h' /\ same_node_document s s' h h') (host_handles s) (host_handles s');
  pr_control : control_view s' = control_view s }.

Lemma view_ok_of_bytes b lens : of_bytes (view_ok b lens).
Proof. by split. Qed.

Lemma bytes_ok_everywhere s lens : bytes_ok s lens -> everywhere (view_ok (bytes_arena s) lens) s.
Proof. by intros [_ _ H1 H2]. Qed.

Lemma carried_bytes_ok s s' hs hs' lens : carried s s' hs hs' -> bytes_ok s lens -> bytes_ok s' lens.
Proof.
  intros C Hb. destruct (ca_leaves _ _ _ _ C _ (view_ok_of_bytes (bytes_arena s) lens) (bytes_ok_everywhere s lens Hb)) as [R1 R2].
  pose proof (ca_bytes _ _ _ _ C) as E. destruct Hb as [B1 B2 _ _]. split; rewrite E; done.
Qed.

Lemma carried_preserved s s' hs hs' : full_heap s -> carried s s' hs hs' -> preserved s s'.
Proof. intros [_ [lens Hb]] C. pose proof (carried_bytes_ok _ _ _ _ _ C Hb). destruct C. split; try done. split; [done|by exists lens]. Qed.

Lemma preserved_trans s1 s2 s3 : preserved s1 s2 -> preserved s2 s3 -> preserved s1 s3.
Proof.
  intros [A1 A2 A3 A4 A5] [B1 B2 B3 B4 B5]. split; [done| | | |congruence].
  - eapply Forall2_compose; [apply same_document_trans|done|done].
  - eapply Forall2_compose; [apply same_node_document_trans|done|done].
  - eapply Forall2_compose; [|done|done]. intros x y z Hxy Hyz Hx. destruct (Hxy Hx) as [Hy Sxy]. destruct (Hyz Hy).
    split; [done|by eapply same_node_document_trans].
Qed.

Lemma idle_preserved s s' : full_heap s -> idle s s' -> preserved s s'.
Proof. intros Hf Hi. eapply (carried_preserved s s' [] []); [done|]. by apply idle_carried; [apply Hf| | |]. Qed.

(** Why a collection can fail: the host has refused memory, or the values the VM holds on
    the way are more than a size_t counts. *)
Definition failure_cause (s : AivmVm) : Prop := starved \/ exists s1, preserved s s1 /\ root_capacity s1 = None.

Lemma cause_trans s1 s2 : preserved s1 s2 -> failure_cause s2 -> failure_cause s1.
Proof. intros P [?|(s3 & P3 & ?)]; [by left|]. right. exists s3. split; [by eapply preserved_trans|done]. Qed.

(** A computation that keeps every document, and reports its failures. *)
Definition keeps {A} (m : M A) : Prop := forall s, full_heap s -> 0 <= locals_count s ->
  match m s with
  | Ok _ s' => preserved s s' /\ status s' = status s
  | Err s' => preserved s s' /\ status s' = AIVM_VM_STATUS_ERROR /\ failure_cause s
  | Undef => False
  end.

Lemma control_locals s s' : control_view s' = control_view s -> locals_count s' = locals_count s.
Proof. unfold control_view. congruence. Qed.

Lemma collect_keeps_bind {A B} (m : M A) (f : A -> M B) : keeps m -> (forall a, keeps (f a)) -> keeps (bind m f).
Proof.
  intros Hm Hf s Hs Hl. unfold bind. specialize (Hm s Hs Hl). destruct (m s) as [a s1|s1|]; [|done|done]. destruct Hm as [P1 E1].
  specialize (Hf a s1 (pr_heap _ _ P1)). rewrite (control_locals s s1 (pr_control _ _ P1)) in Hf. specialize (Hf Hl).
  destruct (f a s1) as [b s2|s2|]; [| |done]; [destruct Hf as [P2 E2]|destruct Hf as (P2 & E2 & C2)];
    (split; [by eapply preserved_trans|]); [congruence|]. split; [done|by eapply cause_trans].
Qed.

Lemma keeps_idle {A} (m : M A) : (forall s, match m s with Ok _ s' => idle s s' /\ status s' = status s | _ => False end) -> keeps m.
Proof. intros Hm s Hs _. specialize (Hm s). destruct (m s); [|done|done]. destruct Hm as [Hi E]. split; [by apply idle_preserved|done]. Qed.

Lemma collect_keeps_ret {A} (a : A) : keeps (ret a).
Proof. apply keeps_idle. intros s. by split; [apply idle_refl|]. Qed.

Lemma collect_keeps_get : keeps get.
Proof. apply keeps_idle. intros s. by split; [apply idle_refl|]. Qed.

Lemma keeps_nodes : keeps (aivm_vm_compact_node_arenas_with_map []).
Proof.
  intros s Hf _. assert (Hok : held_ok s []) by (by split; [apply Hf|]). pose proof (compact_carried s [] Hok) as Hc.
  destruct (aivm_vm_compact_node_arenas_with_map [] s); [| |done].
  - destruct Hc as (C & _ & E). split; [by eapply carried_preserved|done].
  - destruct Hc as (C & E & Hsv). split; [by apply idle_preserved|]. split; [done|by left].
Qed.

Lemma keeps_pairs : keeps aivm_vm_compact_scratch_pairs.
Proof.
  intros s Hf _. pose proof (compact_pairs_carried s (proj1 Hf)) as Hc.
  destruct (aivm_vm_compact_scratch_pairs s); [| |done]; [destruct Hc as [C E]|destruct Hc as (C & E & Hsv)]; (split; [by eapply carried_preserved|]);
    [done|split; [done|by left]].
Qed.

Lemma refused_idle s s' : refused s s' -> idle s s' /\ status s' = AIVM_VM_STATUS_ERROR /\ starved.
Proof. intros (Hsv & t & d & ->). split; [|done]. eapply idle_trans; [apply idle_tick|apply idle_error]. Qed.

Lemma keeps_strings : keeps aivm_compact_string_arena.
Proof.
  intros s Hf _. pose proof (compact_strings_run s (proj1 Hf)) as Hc. destruct (aivm_compact_string_arena s) as [u s'|s'|]; [| |done].
  - split; [|apply Hc]. eapply (carried_preserved s s' [] []); [done|]. apply kept_carried; [apply Hf|by apply moved_kept|constructor].
  - apply refused_idle in Hc as (Hi & E & Hsv). split; [by apply idle_preserved|]. split; [done|by left].
Qed.

(** The bytes are in no node. *)
Definition node_view (s : AivmVm) := (strings s, program s, node_store s, node_builders s).

Lemma node_compact_bytes : stays node_view aivm_compact_bytes_arena.
Proof.
  assert (Hm : stays node_view aivm_vm_mark_live_scratch_pair_handles) by (unfold aivm_vm_mark_live_scratch_pair_handles; stays_steps).
  assert (Hw : forall B (F : visitor B AivmValue) acc, stays node_view (walk_roots F acc)) by (intros; unfold walk_roots; stays_steps).
  unfold aivm_compact_bytes_arena, walk_live_pairs. stays_steps.
Qed.

Lemma keeps_bytes : keeps aivm_compact_bytes_arena.
Proof.
  intros s Hf Hl. destruct Hf as [Hh [lens Hb]]. pose proof (compact_bytes_run s lens Hh Hb Hl) as Hc. pose proof (node_compact_bytes s) as Hv.
  destruct (aivm_compact_bytes_arena s) as [u s'|s'|]; [| |done].
  - destruct Hc as (H1 & H2 & H3 & H4 & H5 & _). split; [|done]. unfold node_view in Hv. injection Hv as E1 E2 E3 E4.
    assert (Hd : forall h, same_node_document s s' h h).
    { intros h d. apply node_document_alike; [|done]. intros p. unfold read_str. by rewrite E1, E2. }
    split; try done.
    + unfold builder_handles. rewrite E4. by apply Forall2_self.
    + unfold host_handles. rewrite E3. by apply Forall2_self.
  - assert (Hfull : full_heap s) by (split; [done|by exists lens]).
    destruct Hc as [(Hi & E & Hsv)%refused_idle|(Hn & d & ->)]; (split; [by apply idle_preserved; [|try apply idle_error]|]); (split; [done|]).
    + by left.
    + right. exists s. split; [|done]. by apply idle_preserved; [|apply idle_refl].
Qed.

Lemma keeps_collect nodes bytes : keeps (collect_safe_point_internal nodes bytes).
Proof.
  unfold collect_safe_point_internal. apply collect_keeps_bind; [|intros _; apply collect_keeps_bind; [|intros _; apply collect_keeps_bind; [|intros _]]].
  - destruct nodes; [|apply collect_keeps_ret]. apply collect_keeps_bind; [apply collect_keeps_get|intros s]. destruct (0 <? _); [|apply collect_keeps_ret].
    apply collect_keeps_bind; [apply keeps_nodes|intros _]. apply keeps_idle. intros s'. cbn. split; [|done]. split; try done; apply wider_refl.
  - destruct nodes; [|apply collect_keeps_ret]. apply collect_keeps_bind; [apply collect_keeps_get|intros s]. destruct (0 <? _); [apply keeps_pairs|apply collect_keeps_ret].
  - destruct nodes; [|apply collect_keeps_ret]. apply collect_keeps_bind; [apply collect_keeps_get|intros s]. destruct (0 <? _); [apply keeps_strings|apply collect_keeps_ret].
  - destruct bytes; [|apply collect_keeps_ret]. apply collect_keeps_bind; [apply collect_keeps_get|intros s]. destruct (0 <? _); [apply keeps_bytes|apply collect_keeps_ret].
Qed.

Lemma pressure_need_size count capacity : count <= SIZE_MAX -> capacity <= SIZE_MAX -> pressure_need count capacity <= SIZE_MAX.
Proof. intros. unfold pressure_need. destruct (_ <=? _); [|done]. destruct (Z.eqb_spec capacity SIZE_MAX); lia. Qed.

Lemma try_grow_pressure_run s : nodes_ok (node_store s) ->
  match aivm_vm_try_grow_pressure_node_arenas s with
  | Ok _ s' | Err s' => idle s s' /\ status s' = status s
  | Undef => False
  end.
Proof.
  intros Hn. unfold aivm_vm_try_grow_pressure_node_arenas, bind, get. destruct (negb _); [by split; [apply idle_refl|]|].
  pose proof (no_node_fit _ Hn). pose proof (no_attr_fit _ Hn). pose proof (no_child_fit _ Hn).
  apply try_grow_run; [done|apply pressure_need_size; lia..].
Qed.

Lemma keeps_return_safe_point : keeps vm_return_safe_point.
Proof.
  intros s Hf Hl. unfold vm_return_safe_point, bind at 1, get. cbv zeta. revert s Hf Hl.
  enough (Hk : forall nodes bytes, keeps (let! c := if nodes : bool then or_else (do! aivm_vm_try_grow_pressure_node_arenas in ret false) (ret true) else ret false in
    if c || bytes then collect_safe_point_internal c bytes else ret tt)) by (intros s; apply Hk).
  intros nodes bytes. apply collect_keeps_bind; [|intros c; destruct (c || bytes); [apply keeps_collect|apply collect_keeps_ret]].
  destruct nodes; [|apply collect_keeps_ret]. intros s Hf _. unfold or_else, bind.
  pose proof (try_grow_pressure_run s (hp_nodes s (proj1 Hf))) as Hg.
  destruct (aivm_vm_try_grow_pressure_node_arenas s) as [u s'|s'|]; [| |done]; destruct Hg as [Hi E]; cbn; (split; [by apply idle_preserved|done]).
Qed.

(** C6: a whole collection, at a return or on request.  From a well-formed heap it
    succeeds or reports an error, and it fails only if the host has refused an allocation
    or the VM holds more values than a size_t counts; either way the heap is
    well-formed afterwards, and every value on the stack, in the locals, of a task or
    of a parallel context, every child of a node builder and every node kept for the
    host stands for the same document as before, down to its texts and bytes. *)
Theorem collect_preserves s nodes bytes : full_heap s -> 0 <= locals_count s ->
  match collect_safe_point_internal nodes bytes s with
  | Ok _ s' => preserved s s' /\ status s' = status s
  | Err s' => preserved s s' /\ status s' = AIVM_VM_STATUS_ERROR /\ failure_cause s
  | Undef => False
  end /\
  match vm_return_safe_point s with
  | Ok _ s' => preserved s s' /\ status s' = status s
  | Err s' => preserved s s' /\ status s' = AIVM_VM_STATUS_ERROR /\ failure_cause s
  | Undef => False
  end.
Proof. intros Hf Hl. split; [by apply keeps_collect|by apply keeps_return_safe_point]. Qed.

End Host.

Lemma example_full : full_heap example_strings.
Proof.
  split; [apply example_heap_ok|]. exists []. split; [by split; [constructor|]|by vm_compute| |].
  - change (root_values example_strings) with [VNode 1; VString (SArena 0 7)]. by repeat constructor.
  - intros i p _ Hp. pose proof (zget_Some_bounds _ _ _ Hp) as Hb. change (zlen _) with 0 in Hb. lia.
Qed.

Lemma collect_preserves_witness :
  match collect_safe_point_internal (H := example_host) true true example_strings with
  | Ok _ s' => preserved example_strings s' /\ sa_text (strings s') = bytes_of_string "hi" ++ [0] ++ bytes_of_string "n" ++ [0]
  | _ => False
  end.
Proof.
  pose proof (collect_preserves (H := example_host) example_strings true true example_full ltac:(by vm_compute)) as [Hrun _].
  assert (Hc : match collect_safe_point_internal (H := example_host) true true example_strings with
    | Ok _ s' => bool_decide (sa_text (strings s') = bytes_of_string "hi" ++ [0] ++ bytes_of_string "n" ++ [0]) | _ => false end = true)
    by (vm_compute; reflexivity).
  destruct (collect_safe_point_internal (H := example_host) true true example_strings) as [u s'|s'|]; [|done|done].
  destruct Hrun as [P _]. split; [exact P|]. by apply bool_decide_eq_true in Hc.
Defined.
