(* ===== verification/CollectorSafety.v ===== *)
(** * The collector never goes wrong

    Whatever the roots hold (stale locals, handles of nodes that are gone), the
    compactions of src/src/aivm_vm_node_gc.c, aivm_vm.c and aivm_vm_arena.c stay within
    the arenas: they succeed or report an error, and the arenas are well-formed
    afterwards.  This is what RETURN relies on, so the theorems about the core
    instructions hold with the real collector. *)

From S2P Require Import Prelude Types Program Vm Memory Lifecycle Stack Control ControlSafety Step Calls Roots Pairs.
From S2P Require Import NodeGc NodeMark NodeMove NodeCompact Moves.
From S2P Require Import Strings StringText StringIndex StringGc StringCompact StringCopy Bytes BytesGc NodeCreate NodeTrees NodeRoom Collector.

(** ** The invariant of the arenas, without the roots *)

Definition bytes_fit (b : BytesArena) : Prop := zlen (ba_data b) <= ba_capacity b.

(** With arbitrary pointers the texts of a compaction are bounded by the capacity only. *)
Record text_arena_ok (a : StringArena) : Prop := {
  ta_texts : exists texts, Forall nul_free texts /\ sa_text a = flat texts;
  ta_used : zlen (sa_text a) <= sa_capacity a;
  ta_index : index_ok a }.

Record arenas_ok (s : AivmVm) : Prop := {
  ao_nodes : nodes_ok (node_store s);
  ao_strings : text_arena_ok (strings s);
  ao_bytes : bytes_fit (bytes_arena s) }.

Definition arena_view (s : AivmVm) := (node_store s, strings s, bytes_arena s).

Lemma arenas_same s s' : arena_view s' = arena_view s -> arenas_ok s -> arenas_ok s'.
Proof. unfold arena_view. intros [= E1 E2 E3] [H1 H2 H3]. split; by rewrite ?E1, ?E2, ?E3. Qed.

Definition sturdy {A} (m : M A) : Prop := forall s, arenas_ok s ->
  match m s with Ok _ s' | Err s' => arenas_ok s' | Undef => False end.

Lemma sturdy_bind {A B} (m : M A) (f : A -> M B) : sturdy m -> (forall a, sturdy (f a)) -> sturdy (bind m f).
Proof.
  intros Hm Hf s Hs. unfold bind. specialize (Hm s Hs). destruct (m s) as [a s1|s1|]; [|done|done]. by apply Hf.
Qed.

(** What returns and leaves the arenas alone. *)
Lemma sturdy_stays {A} (m : M A) : stays arena_view m -> (forall s, m s <> Undef) -> sturdy m.
Proof. intros Hm Hu s Hs. specialize (Hm s). specialize (Hu s). destruct (m s); [by eapply arenas_same|by eapply arenas_same|done]. Qed.

Lemma sturdy_ret {A} (a : A) : sturdy (ret a).
Proof. by intros s. Qed.

Lemma sturdy_get : sturdy get.
Proof. by intros s. Qed.

Lemma sturdy_throw {A} e d : sturdy (@throw A e d).
Proof. intros s [H1 H2 H3]. by split. Qed.

Lemma sturdy_alloc `{Host} size : sturdy (alloc size).
Proof. intros s [H1 H2 H3]. by split. Qed.

(** ** Visitors that never get stuck *)

Definition steady {A B} (I : B -> Prop) (F : visitor B A) : Prop := forall acc x, I acc ->
  match (F acc x).2 with Visited acc' => I acc' | Failed _ _ => True | Stuck => False end.

Lemma steady_list {A B} (I : B -> Prop) (F : visitor B A) : steady I F -> steady I (visit_list F).
Proof.
  intros HF acc l. revert acc. induction l as [|x l IH]; intros acc Ha; [done|]. cbn [visit_list]. specialize (HF acc x Ha).
  destruct (F acc x) as [x' [acc'|e d|]]; cbn in HF; [|done|done]. specialize (IH acc' HF). by destruct (visit_list F acc' l).
Qed.

Lemma steady_pair {B} (I : B -> Prop) (F : visitor B AivmValue) : steady I F -> steady I (on_live_pair F).
Proof.
  intros HF acc [live p] Ha. cbn [on_live_pair]. destruct (negb live); [done|]. pose proof (HF acc (first p) Ha) as H1.
  destruct (F acc (first p)) as [v1 [acc1|e d|]]; cbn in H1; [|done|done]. pose proof (HF acc1 (second p) H1) as H2. by destruct (F acc1 (second p)).
Qed.

(** A computation that keeps the arenas and establishes a property of its result. *)
Definition gives {A} (I : A -> Prop) (m : M A) : Prop := forall s, arenas_ok s ->
  match m s with Ok a s' => I a /\ arenas_ok s' | Err s' => arenas_ok s' | Undef => False end.

Lemma gives_sturdy {A} (I : A -> Prop) (m : M A) : gives I m -> sturdy m.
Proof. intros Hm s Hs. specialize (Hm s Hs). destruct (m s); [by destruct Hm|done|done]. Qed.

Lemma gives_bind {A B} (I : A -> Prop) (J : B -> Prop) (m : M A) (f : A -> M B) :
  gives I m -> (forall a, I a -> gives J (f a)) -> gives J (bind m f).
Proof.
  intros Hm Hf s Hs. unfold bind. specialize (Hm s Hs). destruct (m s) as [a s1|s1|]; [|done|done]. destruct Hm. by apply Hf.
Qed.

Lemma sturdy_gives {A B} (I : A -> Prop) (m : M A) (f : A -> M B) : gives I m -> (forall a, I a -> sturdy (f a)) -> sturdy (bind m f).
Proof.
  intros Hm Hf s Hs. unfold bind. specialize (Hm s Hs). destruct (m s) as [a s1|s1|]; [|done|done]. destruct Hm. by apply Hf.
Qed.

Lemma gives_walk {A B} (I : B -> Prop) (F : visitor B A) part update acc : steady I F -> I acc ->
  (forall l s, arena_view (update l s) = arena_view s) -> gives I (walk part update F acc).
Proof.
  intros HF Ha Hu s Hs. unfold walk. pose proof (steady_list I F HF acc (part s) Ha) as Hl.
  assert (He : forall l, arenas_ok (update l s)) by (intros l; by apply (arenas_same s)).
  destruct (visit_list F acc (part s)) as [l [acc'|e d|]]; cbn in Hl; [done| |done]. by destruct (He l); split.
Qed.

Lemma gives_walk_roots {B} (I : B -> Prop) (F : visitor B AivmValue) acc : steady I F -> I acc -> gives I (walk_roots F acc).
Proof.
  intros HF Ha. unfold walk_roots. do 3 (eapply gives_bind; [by apply gives_walk|intros ? ?]). by apply gives_walk.
Qed.

Lemma gives_walk_pairs {B} (I : B -> Prop) (F : visitor B AivmValue) live acc : steady I F -> I acc -> gives I (walk_live_pairs F live acc).
Proof. intros HF Ha. apply gives_walk; [by apply steady_pair|done|done]. Qed.

Section Host.

Context `{Host}.

(** ** Marking *)

Lemma view_mark_pairs : stays arena_view aivm_vm_mark_live_scratch_pair_handles.
Proof. unfold aivm_vm_mark_live_scratch_pair_handles. stays_steps. Qed.

Lemma sturdy_mark_pairs : sturdy aivm_vm_mark_live_scratch_pair_handles.
Proof.
  intros s Hs. destruct (scratch_pairs s) as [|p l] eqn:E.
  - unfold aivm_vm_mark_live_scratch_pair_handles, bind at 1, get, scratch_pair_count. rewrite E. done.
  - pose proof (mark_handles_run s) as Hm. rewrite E in Hm. specialize (Hm ltac:(done)).
    destruct (aivm_vm_mark_live_scratch_pair_handles s) as [live s'|s'|]; [|destruct Hm as (t & e & d & ->)|done].
    + destruct Hm as ([t ->] & _). by apply (arenas_same s).
    + by apply (arenas_same s).
Qed.

(** The marks of the nodes cover the nodes and are closed under children. *)
Definition closed_marks (n : NodeStore) (live : list bool) : Prop :=
  length live = length (nodes n) /\
  forall h nd c, marked live h -> aivm_vm_lookup_node n h = Some nd -> c ∈ children_of n nd -> marked live c.

Lemma mark_nodes_run s : arenas_ok s ->
  match aivm_vm_mark_live_node_handles [] s with
  | Ok live s' => closed_marks (node_store s) live /\ arena_view s' = arena_view s
  | Err s' => arena_view s' = arena_view s
  | Undef => False
  end.
Proof.
  intros Hs. unfold aivm_vm_mark_live_node_handles, bind at 1 2 3, get, alloc. destruct (negb _); [done|]. set (s1 := set_tick _ (set_tick _ s)).
  pose proof (sturdy_mark_pairs s1 ltac:(by apply (arenas_same s))) as Hp. unfold bind at 1.
  pose proof (view_mark_pairs s1) as Hv. destruct (aivm_vm_mark_live_scratch_pair_handles s1) as [lp s2|s2|]; [|done|done].
  destruct (mark_nodes_spec (node_store s) (node_root_handles s lp) [] (ao_nodes s Hs) (Forall_nil_2 _)) as (m & -> & Hlen & Hcl & _).
  cbn [of_visit]. unfold bind, ret. done.
Qed.

(** ** Nodes *)

Lemma remap_steady n pc hm msg : steady (fun _ => True) (remap_node_value n pc hm msg).
Proof. intros acc v _. destruct v; cbn; try done; [destruct (remap_handle n hm handle)|destruct (_ && _)]; done. Qed.

Lemma remap_builder_steady n hm : steady (fun _ => True) (remap_builder n hm).
Proof.
  intros acc [b|] _; [|done]. cbn [remap_builder].
  assert (Hc : forall e msg, steady (fun _ => True) (remap_child n hm e msg)) by (intros e msg u h _; cbn; unfold remap_child; by destruct (remap_handle n hm h)).
  pose proof (steady_list _ _ (Hc AIVM_VM_ERR_INVALID_PROGRAM "Invalid node-builder child handle during node GC."%string) tt (builder_children b) I) as Hl.
  by destruct (visit_list _ tt (builder_children b)).
Qed.

(** The records and ranges of a store, without the handles kept for the host. *)
Definition ranges_view (n : NodeStore) :=
  (nodes n, node_attrs n, node_children n, (node_capacity n, node_attr_capacity n, node_child_capacity n)).

Lemma nodes_ok_ranges n n' : ranges_view n' = ranges_view n -> nodes_ok n -> nodes_ok n'.
Proof.
  unfold ranges_view. intros [= E1 E2 E3 E4 E5 E6] [P1 P2 P3 P4 P5 P6 P7 P8].
  split; unfold node_count, node_attr_count, node_child_count, children_of in *; by rewrite ?E1, ?E2, ?E3, ?E4, ?E5, ?E6.
Qed.

Lemma sturdy_put_store f : (forall n, ranges_view (f n) = ranges_view n) -> sturdy (put_store f).
Proof. intros Hf s [H1 H2 H3]. cbn. split; [|done|done]. cbn. by apply (nodes_ok_ranges (node_store s)). Qed.

Lemma sturdy_remap_kept n hm field store msg : (forall x m, ranges_view (store x m) = ranges_view m) -> sturdy (remap_kept n hm field store msg).
Proof.
  intros Hst. apply sturdy_bind; [apply sturdy_get|intros s]. cbv zeta. destruct (0 <? _); [|apply sturdy_ret].
  destruct (remap_handle _ _ _); [by apply sturdy_put_store|apply sturdy_throw].
Qed.

Lemma sturdy_remap_roots n pc hm lp : sturdy (remap_node_roots n pc hm lp).
Proof.
  assert (Hw : forall msg part update, (forall l s, arena_view (update l s) = arena_view s) -> sturdy (walk part update (remap_node_value n pc hm msg) tt))
    by (intros; eapply gives_sturdy, gives_walk; [apply remap_steady|exact I|done]).
  unfold remap_node_roots. do 4 (apply sturdy_bind; [by apply Hw|intros _]).
  apply sturdy_bind; [eapply gives_sturdy, gives_walk_pairs; [apply remap_steady|exact I]|intros _].
  apply sturdy_bind; [eapply gives_sturdy, gives_walk; [apply remap_builder_steady|exact I|done]|intros _].
  do 2 (apply sturdy_bind; [by apply sturdy_remap_kept|intros _]). by apply sturdy_remap_kept.
Qed.

Lemma sturdy_compact_nodes : sturdy (aivm_vm_compact_node_arenas_with_map []).
Proof.
  apply sturdy_bind; [by apply sturdy_put_store|intros _]. intros s Hs. unfold bind at 1, get. cbv zeta. destruct (_ =? 0); [done|].
  unfold bind at 1 2 3 4 5 6, alloc. destruct (negb _); [by apply (arenas_same s)|]. unfold bind at 1.
  match goal with |- context [aivm_vm_mark_live_node_handles [] ?x] => set (s1 := x) end.
  assert (Hs1 : arenas_ok s1) by (by apply (arenas_same s)). pose proof (mark_nodes_run s1 Hs1) as Hm. destruct (aivm_vm_mark_live_node_handles [] s1) as [live s2|s2|]; [| |done].
  2: by apply (arenas_same s).
  destruct Hm as [[Hlen Hcl] Hv2]. assert (Hs2 : arenas_ok s2) by (by apply (arenas_same s)).
  unfold bind at 1. pose proof (sturdy_mark_pairs s2 Hs2) as Hp.
  pose proof (view_mark_pairs s2) as Hv. destruct (aivm_vm_mark_live_scratch_pair_handles s2) as [lp s3|s3|]; [|done|done].
  rewrite Hv2 in Hv. change (0 :: ranks live 0) with (handle_map live). change (keep live (nodes (node_store s))) with (NodeMove.kept (node_store s) live).
  change (node_store s1) with (node_store s) in *.
  rewrite (move_all (node_store s) (ao_nodes s Hs) live Hlen Hcl). cbn [of_visit]. unfold bind at 1, ret at 1. unfold bind at 1, put_store at 1, modify.
  apply (sturdy_bind _ _ (sturdy_remap_roots _ _ _ _) (fun _ => sturdy_ret _)).
  unfold arena_view in Hv. injection Hv as E1 E2 E3. destruct Hs as [N S B]. split; [|by cbn; rewrite E2|by cbn; rewrite E3].
  cbn [node_store set_node_store]. rewrite E1.
  eapply (moved_ok (node_store s) N live Hlen Hcl); unfold commit_arenas; destruct (node_gc_reclaimed _) as [[? ?] ?]; by cbn.
Qed.

Lemma sturdy_compact_pairs : sturdy aivm_vm_compact_scratch_pairs.
Proof.
  apply sturdy_stays; [|intros s E; pose proof (compact_pairs_run s) as Hc; by rewrite E in Hc].
  intros s. pose proof (store_compact_pairs s) as Hv. unfold store_view, texts_view, arena_view in *.
  destruct (aivm_vm_compact_scratch_pairs s); [| |done]; by injection Hv as -> _ -> -> _.
Qed.

(** ** Strings *)

(** The text of an arena under construction. *)
Definition new_text_ok (capacity : Z) (t : list Z) : Prop := (exists new, Forall nul_free new /\ t = flat new) /\ zlen t <= capacity.

Lemma nul_free_cstr l : nul_free (cstr l).
Proof. induction l as [|b l IH]; [constructor|]. cbn. destruct (Z.eqb_spec b 0); [constructor|]. by constructor. Qed.

Lemma flat_ends texts off : Forall nul_free texts -> 0 <= off < zlen (flat texts) -> exists c, cstring_at (flat texts) off = Some c.
Proof.
  intros Hf Hoff. unfold cstring_at. destruct (Z.ltb_spec off 0); [lia|].
  assert (Hin : existsb (Z.eqb 0) (zdrop off (flat texts)) = true); [|rewrite Hin; by eexists].
  apply existsb_exists. exists 0. split; [|done]. destruct texts as [|c l] using rev_ind; [unfold zlen in Hoff; cbn in Hoff; lia|].
  rewrite flat_app in *. unfold zdrop. clear IHl. cbn [flat flat_map] in *. rewrite app_nil_r in *. rewrite app_assoc in *.
  rewrite drop_app_le; [apply in_or_app; right; by left|]. unfold zlen in Hoff. rewrite length_app in Hoff. cbn [length] in Hoff. lia.
Qed.

Section Relocating.

Context (a : StringArena) (Ha : text_arena_ok a).

Lemma relocate_ptr_steady : steady (new_text_ok (sa_capacity a)) (compact_relocate_string_ptr a).
Proof.
  intros t p [(new & Hf & ->) Hfit]. unfold compact_relocate_string_ptr. destruct (aivm_pointer_in_string_arena a p) eqn:E; [|by split; [exists new|]].
  destruct p as [|gen off|off|c0]; try (by split; [exists new|]). cbn in E.
  destruct (ta_texts a Ha) as (texts & Hft & Ht). destruct (flat_ends texts off Hft) as [c Hc]; [rewrite <- Ht; lia|]. rewrite Ht, Hc.
  assert (Hnc : nul_free c). { unfold cstring_at in Hc. destruct (off <? 0); [done|]. destruct (existsb _ _); [|done]. injection Hc as <-. apply nul_free_cstr. }
  unfold compact_lookup_or_copy_string. destruct (scan_text_found new c Hf) as [(o & -> & _)|[-> _]]; [by split; [exists new|]|].
  destruct (aivm_size_add_checked (zlen c) 1) as [len|] eqn:El; [|done]. destruct (aivm_size_add_checked _ len) as [next|] eqn:En; [|done].
  apply size_add_checked_Some in El as [_ ->], En as [_ ->]. destruct (Z.ltb_spec (sa_capacity a) (zlen (flat new) + (zlen c + 1))); [done|].
  cbn. split.
  - exists (new ++ [c]). split; [apply Forall_app; split; [done|by repeat constructor]|]. rewrite flat_app. cbn. by rewrite app_nil_r.
  - rewrite !zlen_app. change (zlen [0]) with 1. lia.
Qed.

Lemma relocate_value_steady : steady (new_text_ok (sa_capacity a)) (compact_relocate_value_string a).
Proof.
  intros t v Ht. destruct v; try done. cbn. pose proof (relocate_ptr_steady t p Ht) as Hp. by destruct (compact_relocate_string_ptr a t p).
Qed.

Lemma relocate_attr_steady : steady (new_text_ok (sa_capacity a)) (relocate_attr a).
Proof.
  intros t x Ht. unfold relocate_attr. pose proof (relocate_ptr_steady t (attr_key x) Ht) as Hk.
  destruct (compact_relocate_string_ptr a t (attr_key x)) as [k [t1|e d|]]; cbn in Hk; [|done|done].
  destruct (attr_value x) as [p|p|i|b]; [| |done|done]; pose proof (relocate_ptr_steady t1 p Hk) as Hp; by destruct (compact_relocate_string_ptr a t1 p).
Qed.

Lemma relocate_entry_steady : steady (new_text_ok (sa_capacity a)) (relocate_entry a).
Proof.
  intros t [[l nd] g] Ht. cbn [relocate_entry]. destruct l; [|done].
  pose proof (relocate_ptr_steady t (node_kind nd) Ht) as H1. destruct (compact_relocate_string_ptr a t (node_kind nd)) as [k [t1|e d|]]; cbn in H1; [|done|done].
  pose proof (relocate_ptr_steady t1 (node_id nd) H1) as H2. destruct (compact_relocate_string_ptr a t1 (node_id nd)) as [i [t2|e d|]]; cbn in H2; [|done|done].
  pose proof (steady_list _ _ relocate_attr_steady t2 g H2) as H3. by destruct (visit_list (relocate_attr a) t2 g).
Qed.

(** Whatever happens to the texts, the ranges stay. *)
Definition entry_shape (x y : node_entry) : Prop := same_shape x.1.2 y.1.2 /\ length y.2 = length x.2.

Lemma relocate_entry_shape t x : entry_shape x (relocate_entry a t x).1.
Proof.
  destruct x as [[l nd] g]. cbn [relocate_entry]. destruct l; [|by repeat split].
  destruct (compact_relocate_string_ptr a t (node_kind nd)) as [k [t1|e d|]]; [|by repeat split|by repeat split].
  destruct (compact_relocate_string_ptr a t1 (node_id nd)) as [i [t2|e d|]]; [|by repeat split|by repeat split].
  pose proof (visit_list_length (relocate_attr a) g t2) as Hl. destruct (visit_list (relocate_attr a) t2 g) as [g' r]. by repeat split.
Qed.

Lemma relocate_entries_shape t l : Forall2 entry_shape l (visit_list (relocate_entry a) t l).1.
Proof.
  revert t. induction l as [|x l IH]; intros t; [constructor|]. cbn [visit_list]. pose proof (relocate_entry_shape t x) as Hx.
  assert (Hr : forall k, Forall2 entry_shape k k) by (intros k; apply Forall2_self; by repeat split).
  destruct (relocate_entry a t x) as [x' [t'|e d|]]; cbn in Hx; [|by constructor|by constructor].
  specialize (IH t'). destruct (visit_list (relocate_entry a) t' l). by constructor.
Qed.

End Relocating.

Lemma walk_nodes_gives s live t : arenas_ok s -> length live = length (nodes (node_store s)) -> new_text_ok (sa_capacity (strings s)) t ->
  match walk_nodes (strings s) live t s with
  | Ok t' s' => new_text_ok (sa_capacity (strings s)) t' /\ arenas_ok s' /\ strings s' = strings s
  | Err s' => arenas_ok s'
  | Undef => False
  end.
Proof.
  intros [Hn Hst Hb] Hlen Ht. unfold walk_nodes. set (n := node_store s) in *.
  destruct (node_entries_parts n live Hlen) as (P1 & P2 & P3).
  pose proof (relocate_nodes_visit (strings s) (node_attr_capacity n) (node_entries n live) [] [] t) as Hv.
  pose proof (steady_list _ _ (relocate_entry_steady (strings s) Hst) t (node_entries n live) Ht) as Hsteady.
  pose proof (relocate_entries_shape (strings s) t (node_entries n live)) as Hshape.
  destruct (visit_list (relocate_entry (strings s)) t (node_entries n live)) as [es r]. cbn in Hshape, Hsteady.
  rewrite P1, P2, P3, (attrs_all _ Hn), !app_nil_r in Hv. cbn [app] in Hv. rewrite Hv; [| by apply node_entries_laid_out|].
  2: { rewrite zlen_nil. pose proof (no_attr_fit _ Hn). unfold node_attr_count in *. lia. }
  assert (Hok : nodes_ok (set_node_attrs (flat_map snd es) (set_nodes (map (fun e => e.1.2) es) n))).
  { apply (nodes_ok_shape n); try done.
    - cbn. rewrite <- P2. clear -Hshape. induction Hshape as [|x y l l' [? _] _ IH]; cbn; by constructor.
    - unfold node_attr_count. cbn. rewrite <- (attrs_all n Hn), <- P3. clear -Hshape.
      induction Hshape as [|x y l l' [_ E] _ IH]; [done|]. cbn [flat_map]. rewrite !zlen_app, IH. unfold zlen. by rewrite E. }
  destruct r as [t'|e d|]; [| |done]; [split; [done|]; split; [by split|done]|by split].
Qed.

Lemma sturdy_compact_strings : sturdy aivm_compact_string_arena.
Proof.
  intros s Hs. unfold aivm_compact_string_arena, bind at 1, get. cbv zeta. destruct (_ =? 0); [done|].
  unfold bind at 1 2 3, alloc. destruct (negb _); [by apply (arenas_same s)|]. unfold bind at 1.
  match goal with |- context [aivm_vm_mark_live_node_handles [] ?x] => set (s1 := x) end.
  assert (Hs1 : arenas_ok s1) by (by apply (arenas_same s)). pose proof (mark_nodes_run s1 Hs1) as Hm.
  destruct (aivm_vm_mark_live_node_handles [] s1) as [live s2|s2|]; [| |done]; [|by apply (arenas_same s1)].
  destruct Hm as [[Hlen _] Hv2]. assert (Hs2 : arenas_ok s2) by (by apply (arenas_same s1)).
  unfold bind at 1. pose proof (sturdy_mark_pairs s2 Hs2) as Hp. pose proof (view_mark_pairs s2) as Hv.
  destruct (aivm_vm_mark_live_scratch_pair_handles s2) as [lp s3|s3|]; [|done|done]. rewrite Hv2 in Hv.
  pose proof (ao_strings s Hs) as Hst. pose proof (relocate_value_steady (strings s) Hst) as Hsteady.
  assert (Ht0 : new_text_ok (sa_capacity (strings s)) []).
  { split; [by exists []|]. pose proof (ta_used _ Hst). pose proof (zlen_nonneg (sa_text (strings s))). change (zlen []) with 0. lia. }
  assert (Hw : forall B (F : visitor B AivmValue) acc, stays arena_view (walk_roots F acc)) by (intros; unfold walk_roots; stays_steps).
  assert (Hwp : forall B (F : visitor B AivmValue) l acc, stays arena_view (walk_live_pairs F l acc)) by (intros; by apply stays_walk).
  unfold bind at 1. pose proof (gives_walk_roots _ _ [] Hsteady Ht0 s3 Hp) as H4. specialize (Hw _ (compact_relocate_value_string (strings s)) [] s3).
  destruct (walk_roots _ [] s3) as [t4 s4|s4|]; [|done|done]. destruct H4 as [Ht4 Hs4].
  unfold bind at 1. pose proof (gives_walk_pairs _ _ lp t4 Hsteady Ht4 s4 Hs4) as H5. specialize (Hwp _ (compact_relocate_value_string (strings s)) lp t4 s4).
  destruct (walk_live_pairs _ lp t4 s4) as [t5 s5|s5|]; [|done|done]. destruct H5 as [Ht5 Hs5]. rewrite Hw, Hv in Hwp.
  unfold arena_view in Hwp. injection Hwp as E1 E2 E3. unfold bind at 1. change (strings s) with (strings s1) in *. rewrite <- E2 in *.
  change (node_store s1) with (node_store s) in *. rewrite <- E1 in Hlen.
  pose proof (walk_nodes_gives s5 live t5 Hs5 Hlen Ht5) as H6. destruct (walk_nodes (strings s5) live t5 s5) as [t6 s6|s6|]; [|done|done].
  destruct H6 as (((new & Hnew & ->) & Hfit) & Hs6 & E6). unfold bind, put_strings, modify. set (s7 := set_strings _ s6).
  pose proof (ao_strings s6 Hs6) as Hst6. rewrite <- E6 in Hfit.
  pose proof (rebuild_ok s7 new Hnew eq_refl (proj1 (ta_index _ Hst6))) as Hr.
  destruct (aivm_vm_rebuild_string_intern_index s7) as [u s8|s8|]; [|done|done]. destruct Hr as [Ho Hidx].
  destruct (only_index_text _ _ Ho) as (T1 & T2 & T3 & T4). destruct Ho as (ents & cnt & cmpl & tk & _ & ->). destruct Hs6 as [N6 _ B6].
  split; [exact N6| |exact B6]. split; [by exists new|by rewrite T1, T4|done].
Qed.

(** ** Bytes *)

Lemma relocate_bytes_steady b cap : steady (fun acc => zlen (new_arena acc) <= ba_capacity b) (compact_relocate_value_bytes b cap).
Proof.
  intros acc v Ha. destruct v; try done. destruct p as [|gen off|off|c0]; try done. cbn [compact_relocate_value_bytes].
  destruct (pointer_in_bytes_arena b (BArena gen off) length) eqn:E; [|done]. destruct (find_relocation _ off length); [done|].
  destruct (cap <=? _); [done|]. destruct (aivm_size_add_checked _ length) as [next|] eqn:En; [|done].
  apply size_add_checked_Some in En as [_ ->]. destruct (Z.ltb_spec (ba_capacity b) (zlen (new_arena acc) + length)); [done|].
  destruct (Z.ltb_spec 0 length) as [Hl|]; [|cbn; by rewrite app_nil_r]. unfold pointer_in_bytes_arena in E.
  unfold read_block. replace (_ && _) with true by lia. cbn. unfold Program.slice. rewrite zlen_app, zlen_ztake; [lia|]. rewrite zlen_zdrop; lia.
Qed.

Lemma sturdy_compact_bytes : sturdy aivm_compact_bytes_arena.
Proof.
  intros s Hs. unfold aivm_compact_bytes_arena, bind at 1, get. cbv zeta. destruct (_ =? 0); [done|].
  destruct (root_capacity s) as [cap|]; [|by apply (arenas_same s)].
  assert (H0 : 0 <= ba_capacity (bytes_arena s)) by (pose proof (ao_bytes s Hs) as Hb; pose proof (zlen_nonneg (ba_data (bytes_arena s))); unfold bytes_fit in Hb; lia).
  destruct (cap =? 0); [destruct Hs as [N S B]; by split|].
  unfold bind at 1 2 3, alloc. destruct (negb _); [by apply (arenas_same s)|]. unfold bind at 1.
  match goal with |- context [aivm_vm_mark_live_scratch_pair_handles ?x] => set (s1 := x) end.
  pose proof (sturdy_mark_pairs s1 ltac:(by apply (arenas_same s))) as Hs2. pose proof (view_mark_pairs s1) as Hv.
  destruct (aivm_vm_mark_live_scratch_pair_handles s1) as [lp s2|s2|]; [|done|done].
  pose proof (relocate_bytes_steady (bytes_arena s) cap) as Hsteady.
  unfold bind at 1. pose proof (gives_walk_roots _ _ (mk_relocating [] []) Hsteady H0 s2 Hs2) as H3.
  assert (Hw : forall B (F : visitor B AivmValue) acc, stays arena_view (walk_roots F acc)) by (intros; unfold walk_roots; stays_steps).
  specialize (Hw _ (compact_relocate_value_bytes (bytes_arena s) cap) (mk_relocating [] []) s2).
  destruct (walk_roots _ _ s2) as [a3 s3|s3|]; [|done|done]. destruct H3 as [Ha3 Hs3].
  unfold bind. pose proof (gives_walk_pairs _ _ lp a3 Hsteady Ha3 s3 Hs3) as H4.
  assert (Hwp : stays arena_view (walk_live_pairs (compact_relocate_value_bytes (bytes_arena s) cap) lp a3)) by (by apply stays_walk). specialize (Hwp s3).
  destruct (walk_live_pairs _ lp a3 s3) as [a4 s4|s4|]; [|done|done]. destruct H4 as [Ha4 [N S B]]. split; [done|done|].
  unfold bytes_fit. cbn. rewrite Hw, Hv in Hwp. unfold arena_view in Hwp. injection Hwp as _ _ E. rewrite E. exact Ha4.
Qed.

(** ** The collector *)

Lemma sturdy_collect nodes bytes : sturdy (collect_safe_point_internal nodes bytes).
Proof.
  unfold collect_safe_point_internal. apply sturdy_bind; [|intros _; apply sturdy_bind; [|intros _; apply sturdy_bind; [|intros _]]].
  - destruct nodes; [|apply sturdy_ret]. apply sturdy_bind; [apply sturdy_get|intros s]. destruct (0 <? _); [|apply sturdy_ret].
    apply sturdy_bind; [apply sturdy_compact_nodes|intros _]. by apply sturdy_put_store.
  - destruct nodes; [|apply sturdy_ret]. apply sturdy_bind; [apply sturdy_get|intros s]. destruct (0 <? _); [apply sturdy_compact_pairs|apply sturdy_ret].
  - destruct nodes; [|apply sturdy_ret]. apply sturdy_bind; [apply sturdy_get|intros s]. destruct (0 <? _); [apply sturdy_compact_strings|apply sturdy_ret].
  - destruct bytes; [|apply sturdy_ret]. apply sturdy_bind; [apply sturdy_get|intros s]. destruct (0 <? _); [apply sturdy_compact_bytes|apply sturdy_ret].
Qed.

(** Growing asks for memory and reports nothing. *)
Lemma pressure_growth : sturdy aivm_vm_try_grow_pressure_node_arenas.
Proof.
  intros s [N S B]. pose proof (try_grow_pressure_run s N) as Hg. pose proof (idle_nodes_ok s) as Hn.
  destruct (aivm_vm_try_grow_pressure_node_arenas s) as [u s'|s'|]; [| |done]; destruct Hg as [Hi _]; pose proof (id_view _ _ Hi) as V;
    unfold texts_view in V; injection V as E1 _ E3; (split; [by apply Hn|by rewrite E1|by rewrite E3]).
Qed.

Lemma sturdy_or_else {A} (m h : M A) : sturdy m -> sturdy h -> sturdy (or_else m h).
Proof. intros Hm Hh s Hs. unfold or_else. specialize (Hm s Hs). destruct (m s); [done|by apply Hh|done]. Qed.

Lemma sturdy_return_safe_point : sturdy vm_return_safe_point.
Proof.
  apply sturdy_bind; [apply sturdy_get|intros s]. cbv zeta. apply sturdy_bind.
  - destruct (aivm_vm_should_attempt_return_safe_point s); [|apply sturdy_ret].
    apply sturdy_or_else; [apply sturdy_bind; [apply pressure_growth|intros _; apply sturdy_ret]|apply sturdy_ret].
  - intros c. destruct (c || _); [apply sturdy_collect|apply sturdy_ret].
Qed.

(** *** The control state *)

Lemma calm_walk_nodes a live t : calm (walk_nodes a live t).
Proof. intros s. unfold walk_nodes. destruct (relocate_nodes _ _ _ _ _ _) as [[nds attrs] [t'|e d|]]; done. Qed.

Definition quiet {A} (m : M A) : Prop := stays (fun s => (control_view s, status s)) m.

Lemma calm_quiet_or {A} (m h : M A) : quiet m -> calm h -> calm (or_else m h).
Proof.
  intros Hm Hh s. unfold or_else. specialize (Hm s). destruct (m s) as [a s1|s1|]; [| |done].
  - exact (conj (f_equal fst Hm) (f_equal snd Hm)).
  - specialize (Hh s1). pose proof (f_equal fst Hm) as E1. pose proof (f_equal snd Hm) as E2. cbn [fst snd] in E1, E2.
    destruct (h s1) as [a s2|s2|]; [| |done]; destruct Hh as [H1 H2]; (split; [by rewrite H1|]); [by rewrite H2|done].
Qed.

Lemma quiet_check {A} (o : option A) : quiet (check o).
Proof. intros s. by destruct o. Qed.

Lemma calm_rebuild : calm aivm_vm_rebuild_string_intern_index.
Proof.
  apply calm_bind; [apply calm_get|intros s]. cbv zeta. apply calm_bind; [apply calm_check|intros [count|]]; [|by apply calm_modify].
  apply calm_bind; [by apply calm_modify|intros _]. destruct (count =? 0); [apply calm_ret|]. apply calm_quiet_or; [|by apply calm_modify].
  apply stays_bind.
  - unfold string_intern_resize. destruct (intern_capacity _ _ _); [|by intros ?]. apply stays_bind; [by apply stays_alloc|intros ok].
    destruct (negb ok); [by intros ?|]. apply stays_bind; [apply stays_get|intros s1].
    apply stays_bind; [|intros e; by apply stays_modify]. intros s2. unfold or_fail. by destruct (intern_move _ _) as [[]|].
  - intros _. apply stays_bind; [apply stays_get|intros s1]. apply stays_bind; [apply (quiet_check (A := _))|intros [[done entries] k]].
    apply stays_bind; [by apply stays_modify|intros _]. destruct done; [apply stays_ret|by intros ?].
Qed.

Lemma calm_compact_strings : calm aivm_compact_string_arena.
Proof.
  apply calm_bind; [apply calm_get|intros s]. cbv zeta. destruct (_ =? 0); [apply calm_ret|].
  do 3 (apply calm_bind; [apply calm_alloc|intros ?]). destruct (negb _); [apply calm_throw|].
  apply calm_bind; [apply calm_mark_nodes|intros live]. apply calm_bind; [apply calm_mark_pairs|intros lp].
  apply calm_bind; [apply calm_walk_roots|intros t1]. apply calm_bind; [apply calm_walk_live_pairs|intros t2].
  apply calm_bind; [apply calm_walk_nodes|intros t3]. apply calm_bind; [by apply calm_modify|intros _]. apply calm_rebuild.
Qed.

Lemma calm_compact_bytes : calm aivm_compact_bytes_arena.
Proof.
  apply calm_bind; [apply calm_get|intros s]. cbv zeta. destruct (_ =? 0); [apply calm_ret|]. destruct (root_capacity s); [|apply calm_throw].
  destruct (_ =? 0); [by apply calm_modify|]. do 3 (apply calm_bind; [apply calm_alloc|intros ?]). destruct (negb _); [apply calm_throw|].
  apply calm_bind; [apply calm_mark_pairs|intros lp]. apply calm_bind; [apply calm_walk_roots|intros t1].
  apply calm_bind; [apply calm_walk_live_pairs|intros t2]. by apply calm_modify.
Qed.

Lemma calm_collect nodes bytes : calm (collect_safe_point_internal nodes bytes).
Proof.
  unfold collect_safe_point_internal. apply calm_bind; [|intros _; apply calm_bind; [|intros _; apply calm_bind; [|intros _]]].
  - destruct nodes; [|apply calm_ret]. apply calm_bind; [apply calm_get|intros s]. destruct (0 <? _); [|apply calm_ret].
    apply calm_bind; [apply calm_compact_nodes|intros _]. apply calm_put_store.
  - destruct nodes; [|apply calm_ret]. apply calm_bind; [apply calm_get|intros s]. destruct (0 <? _); [apply calm_compact_pairs|apply calm_ret].
  - destruct nodes; [|apply calm_ret]. apply calm_bind; [apply calm_get|intros s]. destruct (0 <? _); [apply calm_compact_strings|apply calm_ret].
  - destruct bytes; [|apply calm_ret]. apply calm_bind; [apply calm_get|intros s]. destruct (0 <? _); [apply calm_compact_bytes|apply calm_ret].
Qed.

Lemma calm_return_safe_point s : arenas_ok s ->
  match vm_return_safe_point s with
  | Ok _ s' => control_view s' = control_view s /\ status s' = status s
  | Err s' => control_view s' = control_view s /\ status s' = AIVM_VM_STATUS_ERROR
  | Undef => True
  end.
Proof.
  intros Hs. unfold vm_return_safe_point, bind at 1, get. cbv zeta. unfold bind at 1.
  destruct (aivm_vm_should_attempt_return_safe_point s); cbn [ret orb].
  - pose proof (try_grow_pressure_run s (ao_nodes s Hs)) as Hg. unfold or_else, bind.
    destruct (aivm_vm_try_grow_pressure_node_arenas s) as [u s1|s1|]; [| |done]; destruct Hg as [Hi E]; pose proof (id_control _ _ Hi) as Ec; cbn [ret orb].
    + destruct (aivm_vm_should_attempt_bytes_return_safe_point s); [|done].
      pose proof (calm_collect false true s1) as Hc. rewrite Ec, E in Hc. exact Hc.
    + pose proof (calm_collect true (aivm_vm_should_attempt_bytes_return_safe_point s) s1) as Hc. rewrite Ec, E in Hc. exact Hc.
  - destruct (aivm_vm_should_attempt_bytes_return_safe_point s); [apply calm_collect|done].
Qed.

(** ** The collector keeps its promise to RETURN *)

#[export] Instance vm_safe_point : SafePoint := {| return_safe_point := vm_return_safe_point |}.

#[export] Instance vm_safe_point_laws : SafePointLaws arenas_ok.
Proof.
  split.
  - intros s s' E. apply arenas_same. unfold heap_view in E. injection E as E1 E2 E3 E4 E5 E6 E7 E8 E9 E10. unfold arena_view. congruence.
  - intros s _ Hs. cbn [return_safe_point vm_safe_point]. pose proof (sturdy_return_safe_point s Hs) as H1. pose proof (calm_return_safe_point s Hs) as H2.
    destruct (vm_return_safe_point s) as [u s'|s'|]; [| |done]; destruct H2; by split_and!.
Qed.

(** *** Programs of core instructions *)

Context (p : AivmProgram) (Hp : code_ok p).
Context (exec : AivmProgram -> AivmInstruction -> option (M unit)).
Context (Hexec : forall i m, control_op p i = Some m -> exec p i = Some m).

(** C3: with the real collector in RETURN, a run of a program of core
    instructions keeps the stack, the frames, the locals and the arenas of the heap
    within their capacities and well-formed, however often it collects and whatever
    the roots hold, and no reachable state leaves an array: the step from it is
    defined unless its instruction is one of arithmetic or EQ. *)
Theorem core_safe_with_collector s s' :
  (forall i, i ∈ instruction_store p -> is_core p i = true) ->
  vm_inv arenas_ok p s -> steps exec s s' ->
  vm_inv arenas_ok p s' /\
  match aivm_step exec s' with
  | Next _ => True
  | Undefined => exists i, current p s' = Some i /\ may_be_undefined (opcode i) = true
  | NotModelled => False
  end.
Proof.
  intros Hcore Hv Hsteps.
  assert (Hcur : forall t i, current p t = Some i -> is_core p i = true).
  { intros t i Hi. apply Hcore. unfold current in Hi. pose proof (zget_Some_bounds _ _ _ Hi).
    rewrite zget_lookup in Hi by lia. by eapply list_elem_of_lookup_2. }
  induction Hsteps as [s|s s1 s2 Hstep _ IH];
    pose proof (step_core arenas_ok p Hp exec Hexec s Hv (Hcur s)) as Hs; [|apply IH; rewrite Hstep in Hs; apply Hs].
  split; [done|]. by destruct (aivm_step exec s).
Qed.

End Host.

(** A VM whose first RETURN collects, with a callee. *)
Definition collecting_program : AivmProgram :=
  set_instructions [mk_instruction AIVM_OP_CALL 2; mk_instruction AIVM_OP_HALT 0; mk_instruction AIVM_OP_RETURN 0] 3
    AIVM_PROGRAM_INLINE_INSTRUCTIONS aivm_program_clear.

Definition collecting_start : AivmVm :=
  set_program (Some collecting_program)
    (set_bytes_arena (set_ba_gc_threshold 3 (set_ba_data [7; 8; 9; 10] (bytes_arena example_vm))) example_vm).

Definition collecting_exec : AivmProgram -> AivmInstruction -> option (M unit) :=
  fun p i => control_op (H := vm_safe_point (H := example_host)) p i.

Lemma core_safe_with_collector_witness :
  exists s', steps collecting_exec collecting_start s' /\ vm_inv arenas_ok collecting_program s' /\ ba_data (bytes_arena s') = [].
Proof.
  assert (Hsteps : exists s', steps collecting_exec collecting_start s' /\ bool_decide (ba_data (bytes_arena s') = []) = true).
  { eexists. split; [do 2 (eapply steps_next; [vm_compute; reflexivity|]); apply steps_refl|vm_compute; reflexivity]. }
  destruct Hsteps as (s' & Hs & E). exists s'. split; [exact Hs|]. split; [|by apply bool_decide_eq_true in E].
  refine (proj1 (core_safe_with_collector (H := example_host) collecting_program _ collecting_exec (fun i m H => H) collecting_start s' _ _ Hs)).
  - split; done.
  - intros i Hi. cbn in Hi. repeat (apply elem_of_cons in Hi as [->|Hi]; [by vm_compute|]). by apply elem_of_nil in Hi.
  - split; [done..|]. split; [split; try done|split; [by exists []|done|]|done].
    + intros i nd c Hz. apply zget_Some_bounds in Hz. vm_compute in Hz. by destruct Hz as [Hz1 Hz2]; destruct i.
    + split; [left; done|by intros _].
Defined.
