(* ===== verification/TextOps.v ===== *)
(** * Text and bytes instructions (src/src/aivm_vm.c)

    The handlers of [aivm_step] that make strings and byte views: STR_*, TO_STRING,
    BYTES_* and VALUE_KIND, with the push_* helpers they share.  The text functions
    proper are those of Text.v and Runes.v; here they meet the stack, the arenas and
    the traversal cache of the VM. *)

From S2P Require Import Prelude Text Runes Types Program Vm Memory Lifecycle Stack Control Strings Bytes NumberText.
Import Utf8 Base64.

(** ** Pointer arithmetic *)

Definition str_add (p : str_ptr) (k : Z) : str_ptr :=
  match p with
  | SNull => SNull
  | SArena gen off => SArena gen (off + k)
  | SProgram off => SProgram (off + k)
  | SExt content => SExt (zdrop k content)
  end.

Definition bytes_add (p : bytes_ptr) (k : Z) : bytes_ptr :=
  match p with
  | BNull => BNull
  | BArena gen off => BArena gen (off + k)
  | BProgram off => BProgram (off + k)
  | BExt content => BExt (zdrop k content)
  end.

(** Where the allocator puts the string arena of each generation: the cache compares
    addresses, and an arena may be given the block of one that was freed. *)
Class Addresses := { arena_address : Z -> Z }.

Definition same_address `{Addresses} (p q : str_ptr) : bool :=
  match p, q with
  | SArena gen1 off1, SArena gen2 off2 => arena_address gen1 + off1 =? arena_address gen2 + off2
  | SProgram off1, SProgram off2 => off1 =? off2
  | SExt content1, SExt content2 => bool_decide (content1 = content2)
  | _, _ => false
  end.

(** The text of a buffer that is used as a [const char*]. *)
Definition scratch_text (content : list Z) : str_ptr := SExt (cstr content).

Section Host.

Context `{Host} `{Addresses}.

(** ** Helpers that push *)

Definition push_string_copy (input : str_ptr) : M unit :=
  let! output := aivm_vm_copy_string_to_arena input in
  aivm_stack_push (VString output).

Definition push_bytes_copy (input : bytes_ptr) (length : Z) : M unit :=
  let! output := or_else (copy_bytes_to_arena input length) (if 0 <? length then fail else ret BNull) in
  aivm_stack_push (VBytes output length).

(** A fresh block of the string arena filled with a text and its NUL. *)
Definition put_text (size : Z) (content : list Z) : M str_ptr :=
  let! output := aivm_string_arena_alloc size in
  match output with
  | SArena _ offset => do! write_text offset (content ++ [0]) in ret output
  | _ => undef
  end.

Definition push_written (size : Z) (content : list Z) : M unit :=
  let! output := put_text size content in
  aivm_stack_push (VString output).

Definition push_string_bytes_copy (input : bytes_ptr) (length : Z) : M unit :=
  match aivm_size_add_checked length 1 with
  | None => fail
  | Some size =>
      let! content := deref_bytes input length in
      push_written size content
  end.

(** The sums of the first loop fail exactly when the whole sum does. *)
Definition push_escaped_string (input : str_ptr) : M unit :=
  let! text := deref_str input in
  match aivm_size_add_checked (escaped_length text) 1 with
  | None => fail
  | Some size =>
      let! source := or_else (aivm_vm_snapshot_arena_backed_string input (zlen text))
        (throw AIVM_VM_ERR_MEMORY_PRESSURE (DText "String escape operand snapshot failed.")) in
      push_written size (escape_text source)
  end.

Definition push_string_from_codepoint (cp : Z) : M unit := push_string_copy (scratch_text (codepoint_utf8 cp)).

(** ** Strings by runes *)

(** The cached position when the cache is for this address. *)
Definition cached_offset (s : AivmVm) (p : str_ptr) : option (Z * Z) :=
  match utf8_offset_cache s with
  | Some (q, rune, byte) => if same_address q p then Some (rune, byte) else None
  | None => None
  end.

(** A cached offset past the terminator would be read outside the text. *)
Definition offset_inside (cache : option (Z * Z)) (text : list Z) : bool :=
  match cache with Some (_, byte) => byte <=? zlen text | None => true end.

Definition remember_offset (p : str_ptr) (cache : Z * Z) : M unit :=
  modify (set_utf8_offset_cache (Some (p, cache.1, cache.2))).

(** [utf8_byte_offset_for_rune] on the cache of the VM. *)
Definition byte_offset_for_rune (p : str_ptr) (text : list Z) (rune_index : Z) : M Z :=
  let! s := get in
  let cache := cached_offset s p in
  if negb (offset_inside cache text) then undef
  else
    let '(byte, cache) := utf8_byte_offset_for_rune cache text rune_index in
    do! remember_offset p cache in
    ret byte.

Definition push_substring_by_runes (p : str_ptr) (start length_ : Z) : M unit :=
  if bool_decide (p = SNull) || (length_ <=? 0) then push_string_copy (SExt [])
  else
    let! text := deref_str p in
    let start_rune := if start <=? 0 then 0 else start in
    let! start_byte := byte_offset_for_rune p text start_rune in
    let '(end_byte, _) := offset_loop (length text) text start_byte 0 length_ in
    let! output := aivm_vm_copy_string_range_to_arena (str_add p start_byte) (end_byte - start_byte) in
    aivm_stack_push (VString output).

(** [start + length] is signed; its overflow is undefined. *)
Definition push_remove_by_runes (p : str_ptr) (start length_ : Z) : M unit :=
  if bool_decide (p = SNull) then push_string_copy (SExt [])
  else if length_ <=? 0 then push_string_copy p
  else
    let! text := deref_str p in
    if SIZE_MAX <? zlen text then throw AIVM_VM_ERR_MEMORY_PRESSURE (DText "substring input length overflow.")
    else
      let rune_count := utf8_rune_count text in
      let start_rune := clamp_rune_index start rune_count in
      if negb (int64_ok (start + length_)) then undef
      else
        let end_rune := Z.max start_rune (clamp_rune_index (start + length_) rune_count) in
        let! start_byte := byte_offset_for_rune p text start_rune in
        let! end_byte := byte_offset_for_rune p text end_rune in
        let! output := aivm_vm_copy_string_splice_to_arena p start_byte (str_add p end_byte) (zlen text - end_byte) in
        aivm_stack_push (VString output).

(** The result and the cache afterwards are those of [find_by_runes]; only a search
    that looks for a candidate touches the cache. *)
Definition push_find_by_runes (p pattern : str_ptr) (start : Z) : M unit :=
  let! text := deref_str p in
  let! pattern_text := deref_str pattern in
  let! s := get in
  let cache := cached_offset s p in
  if negb (offset_inside cache text) then undef
  else
    let '(r, cache') := find_by_runes cache text pattern_text start in
    do! (match cache' with Some c => remember_offset p c | None => ret tt end) in
    aivm_stack_push (VInt r).

(** ** String instructions *)

Definition mismatch {A} (message : string) : M A := throw AIVM_VM_ERR_TYPE_MISMATCH (DText message).

(** A length counted byte by byte with a checked sum. *)
Definition text_within (p : str_ptr) (limit : Z) (message : string) : M (list Z) :=
  let! text := deref_str p in
  if limit <? zlen text then throw AIVM_VM_ERR_MEMORY_PRESSURE (DText message) else ret text.

Definition op_str_concat : M unit :=
  let! (lhs, rhs) := pop_operands in
  match lhs, rhs with
  | VString p, VString q =>
      if bool_decide (p = SNull) || bool_decide (q = SNull) then mismatch "STR_CONCAT requires string operands."
      else
        let! ltext := text_within p SIZE_MAX "String concat left length overflow." in
        let! rtext := text_within q SIZE_MAX "String concat right length overflow." in
        match aivm_size_add_checked (zlen ltext) (zlen rtext) with
        | None => throw AIVM_VM_ERR_MEMORY_PRESSURE (DText "String concat size arithmetic overflow.")
        | Some _ =>
            let! output := or_else (aivm_vm_copy_string_splice_to_arena p (zlen ltext) q (zlen rtext))
              (throw_unless_error AIVM_VM_ERR_MEMORY_PRESSURE (DText "String concat allocation failed.")) in
            op_push (VString output)
        end
  | _, _ => mismatch "STR_CONCAT requires string operands."
  end.

(** [hex[(b >> 4) & 0xf]] and [hex[b & 0xf]]. *)
Definition hex_digit (n : Z) : Z := nth (Z.to_nat (Z.land n 15)) (bytes_of_string "0123456789abcdef") 0.

Definition hex_text (data : list Z) : list Z :=
  bytes_of_string "0x" ++ flat_map (fun b => [hex_digit (Z.shiftr b 4); hex_digit b]) data.

(** The two digits of every byte and the prefix fit the length computed before. *)
Definition to_string_bytes (p : bytes_ptr) (length : Z) : M unit :=
  if (0 <? length) && bool_decide (p = BNull) then mismatch "TO_STRING bytes data must be non-null."
  else
    let overflow := throw AIVM_VM_ERR_MEMORY_PRESSURE (DText "TO_STRING bytes size arithmetic overflow.") in
    match aivm_size_add_checked length length with
    | None => overflow
    | Some body_len =>
        match aivm_size_add_checked 2 body_len with
        | None => overflow
        | Some out_len =>
            match aivm_size_add_checked out_len 1 with
            | None => overflow
            | Some bytes_needed =>
                let! data := deref_bytes p length in
                push_written bytes_needed (hex_text data)
            end
        end
    end.

Definition op_to_string : M unit :=
  let! value := aivm_stack_pop in
  let copy (text : list Z) := push_string_copy (SExt text) in
  do! match value with
      | VString p =>
          or_else (if bool_decide (p = SNull) then fail else push_string_copy p)
            (mismatch "TO_STRING input string must be non-null.")
      | VBool b => copy (bytes_of_string (if b then "true" else "false"))
      | VVoid | VNull => copy (bytes_of_string "null")
      | VInt i => copy (int_text i)
      | VNumber d => copy (number_text d)
      | VBytes p length => to_string_bytes p length
      | _ => mismatch "TO_STRING unsupported value kind."
      end in
  advance.

(** The operand of the instructions on one string. *)
Definition pop_string (message : string) : M str_ptr :=
  let! value := aivm_stack_pop in
  match value with
  | VString p => if bool_decide (p = SNull) then mismatch message else ret p
  | _ => mismatch message
  end.

Definition op_str_escape : M unit :=
  let! p := pop_string "STR_ESCAPE requires string operand." in
  do! push_escaped_string p in advance.

Definition op_str_range (push : str_ptr -> Z -> Z -> M unit) (message : string) : M unit :=
  let! length_value := aivm_stack_pop in
  let! start_value := aivm_stack_pop in
  let! text_value := aivm_stack_pop in
  match text_value, start_value, length_value with
  | VString p, VInt start, VInt length_ => do! push p start length_ in advance
  | _, _, _ => mismatch message
  end.

Definition op_str_substring : M unit := op_str_range push_substring_by_runes "STR_SUBSTRING requires (string,int,int).".
Definition op_str_remove : M unit := op_str_range push_remove_by_runes "STR_REMOVE requires (string,int,int).".

Definition op_str_find : M unit :=
  let! start_value := aivm_stack_pop in
  let! pattern_value := aivm_stack_pop in
  let! text_value := aivm_stack_pop in
  match text_value, pattern_value, start_value with
  | VString p, VString q, VInt start =>
      if bool_decide (p = SNull) || bool_decide (q = SNull) then mismatch "STR_FIND requires (string,string,int)."
      else do! push_find_by_runes p q start in advance
  | _, _, _ => mismatch "STR_FIND requires (string,string,int)."
  end.

Definition op_str_from_codepoint : M unit :=
  let! value := aivm_stack_pop in
  match value with
  | VInt i => do! (if i <? 0 then push_string_copy (SExt []) else push_string_from_codepoint (u32 i)) in advance
  | _ => mismatch "STR_FROM_CODEPOINT requires int operand."
  end.

Definition op_str_decode_unicode_hex4 : M unit :=
  let! p := pop_string "STR_DECODE_UNICODE_HEX4 requires string operand." in
  let! text := deref_str p in
  do! match aivm_hex4_to_u32 text with
      | None => push_string_copy (SExt [])
      | Some cp => push_string_from_codepoint cp
      end in
  advance.

(** The scalar value of a surrogate pair. *)
Definition surrogate_pair (high low : list Z) : option Z :=
  match aivm_hex4_to_u32 high, aivm_hex4_to_u32 low with
  | Some h, Some l =>
      if (h <? 55296) || (56319 <? h) || (l <? 56320) || (57343 <? l) then None
      else Some (65536 + Z.shiftl (h - 55296) 10 + (l - 56320))
  | _, _ => None
  end.

Definition op_str_decode_surrogate_pair : M unit :=
  let! (high_value, low_value) := pop_operands in
  match high_value, low_value with
  | VString p, VString q =>
      if bool_decide (p = SNull) || bool_decide (q = SNull)
      then mismatch "STR_DECODE_UNICODE_SURROGATE_PAIR_HEX4 requires (string,string)."
      else
        let! high := deref_str p in
        let! low := deref_str q in
        do! match surrogate_pair high low with
            | None => push_string_copy (SExt [])
            | Some cp => push_string_from_codepoint cp
            end in
        advance
  | _, _ => mismatch "STR_DECODE_UNICODE_SURROGATE_PAIR_HEX4 requires (string,string)."
  end.

Definition op_str_utf8_byte_count : M unit :=
  let! p := pop_string "STR_UTF8_BYTE_COUNT requires string operand." in
  let! text := text_within p INT64_MAX "STR_UTF8_BYTE_COUNT overflow." in
  op_push (VInt (zlen text)).

(** The count is at most the index, so the index reaches its bound first, except on a
    text of more than 2^63 - 1 characters without continuation bytes. *)
Definition op_str_scalar_length : M unit :=
  let! p := pop_string "STR_SCALAR_LENGTH requires string operand." in
  let! text := deref_str p in
  if zlen text <=? INT64_MAX then op_push (VInt (scalar_length text))
  else if INT64_MAX <? scalar_length (ztake (INT64_MAX + 1) text)
  then throw AIVM_VM_ERR_MEMORY_PRESSURE (DText "STR_SCALAR_LENGTH overflow.")
  else throw AIVM_VM_ERR_MEMORY_PRESSURE (DText "STR_SCALAR_LENGTH input overflow.").

(** ** Bytes instructions *)

Definition op_bytes_length : M unit :=
  let! value := aivm_stack_pop in
  match value with
  | VBytes _ length => op_push (VInt (i64_of_u64 (u64 length)))
  | _ => mismatch "BYTES_LENGTH requires bytes operand."
  end.

Definition op_bytes_at : M unit :=
  let! (bytes_value, index_value) := pop_operands in
  match bytes_value, index_value with
  | VBytes p length, VInt index =>
      if (index <? 0) || (length <=? index) || bool_decide (p = BNull) then op_push (VInt (-1))
      else
        let! data := deref_bytes (bytes_add p index) 1 in
        let! byte := check (zget data 0) in
        op_push (VInt byte)
  | _, _ => mismatch "BYTES_AT requires (bytes,int)."
  end.

(** The range of a slice; the end wraps around before it is clamped. *)
Definition slice_range (length start_value length_value : Z) : Z * Z :=
  let start := if start_value <=? 0 then 0 else if length <=? start_value then length else start_value in
  let count := if length_value <=? 0 then 0 else length_value in
  let stop := u64 (start + count) in
  (start, if (stop <? start) || (length <? stop) then length else stop).

Definition op_bytes_slice : M unit :=
  let! length_value := aivm_stack_pop in
  let! start_value := aivm_stack_pop in
  let! bytes_value := aivm_stack_pop in
  match bytes_value, start_value, length_value with
  | VBytes p length, VInt start_value, VInt length_value =>
      let '(start, stop) := slice_range length start_value length_value in
      do! (if (stop <=? start) || bool_decide (p = BNull) then push_bytes_copy BNull 0
           else push_bytes_copy (bytes_add p start) (stop - start)) in
      advance
  | _, _, _ => mismatch "BYTES_SLICE requires (bytes,int,int)."
  end.

(** One operand of BYTES_CONCAT into the block that was allocated for both. *)
Definition concat_part (p : bytes_ptr) (length offset : Z) (message : string) : M unit :=
  if 0 <? length then
    if bool_decide (p = BNull) then mismatch message
    else let! data := deref_bytes p length in write_bytes offset data
  else ret tt.

Definition op_bytes_concat : M unit :=
  let! (lhs, rhs) := pop_operands in
  match lhs, rhs with
  | VBytes p length1, VBytes q length2 =>
      match aivm_size_add_checked length1 length2 with
      | None => throw AIVM_VM_ERR_MEMORY_PRESSURE bytes_exceeded
      | Some total_length =>
          let! output := aivm_bytes_arena_alloc total_length in
          match output with
          | BArena _ offset =>
              do! concat_part p length1 offset "BYTES_CONCAT requires non-null left bytes data." in
              do! concat_part q length2 (offset + length1) "BYTES_CONCAT requires non-null right bytes data." in
              op_push (VBytes output total_length)
          | _ => undef
          end
      end
  | _, _ => mismatch "BYTES_CONCAT requires (bytes,bytes)."
  end.

Definition op_bytes_from_utf8_string : M unit :=
  let! p := pop_string "BYTES_FROM_UTF8_STRING requires string operand." in
  let! text := deref_str p in
  do! push_bytes_copy (BExt text) (zlen text) in advance.

Definition op_bytes_to_utf8_string : M unit :=
  let! value := aivm_stack_pop in
  match value with
  | VBytes p length =>
      if length =? 0 then do! push_string_copy (SExt []) in advance
      else if bool_decide (p = BNull) then mismatch "BYTES_TO_UTF8_STRING requires non-null bytes data."
      else
        let! data := deref_bytes p length in
        do! (if aivm_bytes_is_valid_utf8_without_nul data then push_string_bytes_copy p length
             else push_string_copy (SExt [])) in
        advance
  | _ => mismatch "BYTES_TO_UTF8_STRING requires bytes operand."
  end.

(** Two passes: the first counts, the second decodes into the fresh block. *)
Definition op_bytes_from_base64 : M unit :=
  let! p := pop_string "BYTES_FROM_BASE64 requires string operand." in
  let! text := deref_str p in
  let invalid := throw AIVM_VM_ERR_INVALID_PROGRAM (DText "BYTES_FROM_BASE64 invalid base64 input.") in
  match aivm_bytes_from_base64 text None with
  | None => invalid
  | Some (_, output_length) =>
      let! output := aivm_bytes_arena_alloc output_length in
      match output with
      | BArena _ offset =>
          match aivm_bytes_from_base64 text (Some output_length) with
          | None => invalid
          | Some (data, output_length) =>
              do! write_bytes offset data in
              op_push (VBytes output output_length)
          end
      | _ => undef
      end
  end.

Definition op_bytes_to_base64 : M unit :=
  let! value := aivm_stack_pop in
  match value with
  | VBytes p length =>
      let exceeded := throw AIVM_VM_ERR_MEMORY_PRESSURE capacity_exceeded in
      if (0 <? length) && bool_decide (p = BNull) then mismatch "BYTES_TO_BASE64 requires non-null bytes data."
      else if (SIZE_MAX - 2) / 3 <? length then exceeded
      else
        match aivm_size_add_checked (u64 (base64_length length)) 1 with
        | None => exceeded
        | Some output_capacity =>
            let! output := aivm_string_arena_alloc output_capacity in
            match output with
            | SArena _ offset =>
                let! data := deref_bytes p length in
                match aivm_bytes_to_base64 data output_capacity with
                | None => throw AIVM_VM_ERR_INVALID_PROGRAM (DText "BYTES_TO_BASE64 failed.")
                | Some text =>
                    do! write_text offset (text ++ [0]) in
                    op_push (VString output)
                end
            | _ => undef
            end
        end
  | _ => mismatch "BYTES_TO_BASE64 requires bytes operand."
  end.

(** [count] bytes of a [uint64_t], the low one first. *)
Definition int_le (count : nat) (value : Z) : list Z :=
  map (fun i => Z.land (Z.shiftr value (8 * Z.of_nat i)) 255) (seq 0 count).

(** BYTES_FROM_BYTE, BYTES_U32_LE and BYTES_I64_LE: the range of the operand and the
    number of bytes. *)
Definition op_bytes_of_int (low high : Z) (count : nat) (message : string) : M unit :=
  let! value := aivm_stack_pop in
  match value with
  | VInt i =>
      if (i <? low) || (high <? i) then mismatch message
      else do! push_bytes_copy (BExt (int_le count (u64 i))) (Z.of_nat count) in advance
  | _ => mismatch message
  end.

Definition op_bytes_from_byte : M unit := op_bytes_of_int 0 255 1 "BYTES_FROM_BYTE requires int in range 0..255.".
Definition op_bytes_u32_le : M unit := op_bytes_of_int 0 4294967295 4 "BYTES_U32_LE requires int in range 0..4294967295.".
Definition op_bytes_i64_le : M unit := op_bytes_of_int INT64_MIN INT64_MAX 8 "BYTES_I64_LE requires int operand.".

(** VALUE_KIND has no name for tasks and workers. *)
Definition value_kind_name (v : AivmValue) : option string :=
  match v with
  | VTask _ | VWorkerRef _ | VWorkerTasks _ => None
  | _ => Some (aivm_vm_value_type_name (value_type v))
  end.

Definition op_value_kind : M unit :=
  let! value := aivm_stack_pop in
  match value_kind_name value with
  | None => mismatch "VALUE_KIND received invalid value type."
  | Some kind => do! push_string_copy (SExt (bytes_of_string kind)) in advance
  end.

(** ** The group *)

Definition text_op (i : AivmInstruction) : option (M unit) :=
  match opcode i with
  | AIVM_OP_STR_CONCAT => Some op_str_concat
  | AIVM_OP_TO_STRING => Some op_to_string
  | AIVM_OP_STR_ESCAPE => Some op_str_escape
  | AIVM_OP_STR_SUBSTRING => Some op_str_substring
  | AIVM_OP_STR_REMOVE => Some op_str_remove
  | AIVM_OP_STR_FIND => Some op_str_find
  | AIVM_OP_STR_FROM_CODEPOINT => Some op_str_from_codepoint
  | AIVM_OP_STR_DECODE_UNICODE_HEX4 => Some op_str_decode_unicode_hex4
  | AIVM_OP_STR_DECODE_UNICODE_SURROGATE_PAIR_HEX4 => Some op_str_decode_surrogate_pair
  | AIVM_OP_STR_UTF8_BYTE_COUNT => Some op_str_utf8_byte_count
  | AIVM_OP_STR_SCALAR_LENGTH => Some op_str_scalar_length
  | AIVM_OP_BYTES_LENGTH => Some op_bytes_length
  | AIVM_OP_BYTES_AT => Some op_bytes_at
  | AIVM_OP_BYTES_SLICE => Some op_bytes_slice
  | AIVM_OP_BYTES_CONCAT => Some op_bytes_concat
  | AIVM_OP_BYTES_FROM_UTF8_STRING => Some op_bytes_from_utf8_string
  | AIVM_OP_BYTES_TO_UTF8_STRING => Some op_bytes_to_utf8_string
  | AIVM_OP_BYTES_FROM_BASE64 => Some op_bytes_from_base64
  | AIVM_OP_BYTES_TO_BASE64 => Some op_bytes_to_base64
  | AIVM_OP_BYTES_FROM_BYTE => Some op_bytes_from_byte
  | AIVM_OP_BYTES_U32_LE => Some op_bytes_u32_le
  | AIVM_OP_BYTES_I64_LE => Some op_bytes_i64_le
  | AIVM_OP_VALUE_KIND => Some op_value_kind
  | _ => None
  end.

End Host.
