(* ===== verification/NodeOps.v ===== *)
(** * Node, pair and map instructions (src/src/aivm_vm.c)

    The handlers of [aivm_step] that read and make nodes, pairs and maps. *)

From S2P Require Import Prelude Types Program Vm Memory Lifecycle Stack Control Map Pairs NodeGc Strings NumberText NodeCreate Collector TextOps.

Section Host.

Context `{Host} `{Addresses}.

(** ** Pairs *)

(** The operands are on the stack, so they are roots of the collection. *)
Definition op_make_pair : M unit :=
  let! s := get in
  do! (if AIVM_VM_SCRATCH_PAIR_CAPACITY <=? scratch_pair_count s then aivm_collect_safe_point else ret tt) in
  let! (v1, v2) := pop_operands in
  let! handle := aivm_vm_create_scratch_pair v1 v2 in
  op_push (VPair handle).

(** The handle of the union as the error text prints it: the member is read whatever
    the type is, and prints as 0 here for the other types. *)
Definition pair_handle_of (v : AivmValue) : Z := match v with VPair h => h | _ => 0 end.

Definition pair_error (op : string) (v : AivmValue) : M unit := fun s =>
  let return_ip (f : option AivmCallFrame) := match f with Some f => return_instruction_pointer f | None => 0 end in
  throw AIVM_VM_ERR_TYPE_MISMATCH (DFormat
    "%s requires pair operand. actual=%s handle=%lld pairCount=%llu ip=%llu ret0=%llu ret1=%llu"
    [op_text op; op_text (aivm_vm_value_type_name (value_type v)); ANum (pair_handle_of v); ANum (scratch_pair_count s);
     ANum (instruction_pointer s); ANum (return_ip (call_frames s !! 0%nat)); ANum (return_ip (call_frames s !! 1%nat))]) s.

Definition op_pair_part (op : string) (part : AivmScratchPair -> AivmValue) : M unit :=
  let! value := aivm_stack_pop in
  let! s := get in
  match value with
  | VPair handle =>
      match aivm_vm_lookup_scratch_pair s handle with
      | Some p => op_push (part p)
      | None => pair_error op value
      end
  | _ => pair_error op value
  end.

(** ** Reading nodes *)

Definition lookup_value (s : AivmVm) (v : AivmValue) : option AivmNodeRecord :=
  match v with VNode h => aivm_vm_lookup_node (node_store s) h | _ => None end.

(** The operand of the instructions on one node. *)
Definition pop_node (message : string) : M AivmNodeRecord :=
  let! value := aivm_stack_pop in
  let! s := get in
  match lookup_value s value with Some node => ret node | None => mismatch message end.

Definition op_node_kind : M unit :=
  let! node := pop_node "NODE_KIND requires node operand." in
  do! push_string_copy (node_kind node) in advance.

Definition op_node_id : M unit :=
  let! node := pop_node "NODE_ID requires node operand." in
  do! push_string_copy (node_id node) in advance.

Definition op_attr_count : M unit :=
  let! node := pop_node "ATTR_COUNT requires node operand." in
  op_push (VInt (i64_of_u64 (u64 (attr_count node)))).

Definition op_child_count : M unit :=
  let! value := aivm_stack_pop in
  let! s := get in
  match lookup_value s value with
  | Some node => op_push (VInt (i64_of_u64 (u64 (child_count node))))
  | None =>
      throw AIVM_VM_ERR_TYPE_MISMATCH (DFormat "CHILD_COUNT requires node operand; actual=%s handle=%lld nodeCount=%llu."
        [op_text (aivm_vm_value_type_name (value_type value)); ANum (match value with VNode h => h | _ => 0 end);
         ANum (node_count (node_store s))])
  end.

(** (node, int) operands. *)
Definition pop_node_index (message : string) : M (AivmNodeRecord * Z) :=
  let! (node_value, index_value) := pop_operands in
  let! s := get in
  match lookup_value s node_value, index_value with
  | Some node, VInt index => ret (node, index)
  | _, _ => mismatch message
  end.

(** [None] for an index outside the attributes of the node. *)
Definition attr_at (node : AivmNodeRecord) (index : Z) : M (option AivmNodeAttr) :=
  if (0 <=? index) && (index <? attr_count node) then
    let! s := get in
    let! attr := check (zget (node_attrs (node_store s)) (attr_start node + index)) in
    ret (Some attr)
  else ret None.

Definition attr_kind_name (v : AivmNodeAttrValue) : string :=
  match v with NAIdentifier _ => "identifier" | NAString _ => "string" | NAInt _ => "int" | NABool _ => "bool" end.

Definition op_attr (message : string) (push : option AivmNodeAttr -> M unit) : M unit :=
  let! (node, index) := pop_node_index message in
  let! attr := attr_at node index in
  do! push attr in advance.

Definition op_attr_key : M unit :=
  op_attr "ATTR_KEY requires (node,int)."
    (fun attr => push_string_copy (match attr with Some a => attr_key a | None => SExt [] end)).

Definition op_attr_value_kind : M unit :=
  op_attr "ATTR_VALUE_KIND requires (node,int)."
    (fun attr => push_string_copy (SExt (match attr with Some a => bytes_of_string (attr_kind_name (attr_value a)) | None => [] end))).

Definition op_attr_value_string : M unit :=
  op_attr "ATTR_VALUE_STRING requires (node,int)."
    (fun attr => push_string_copy
       match attr with
       | Some a => match attr_value a with NAIdentifier p | NAString p => or_empty p | _ => SExt [] end
       | None => SExt []
       end).

Definition op_attr_value_int : M unit :=
  op_attr "ATTR_VALUE_INT requires (node,int)."
    (fun attr => aivm_stack_push (VInt match attr with Some a => match attr_value a with NAInt i => i | _ => 0 end | None => 0 end)).

Definition op_attr_value_bool : M unit :=
  op_attr "ATTR_VALUE_BOOL requires (node,int)."
    (fun attr => aivm_stack_push (VBool match attr with Some a => match attr_value a with NABool b => b | _ => false end | None => false end)).

Definition op_child_at : M unit :=
  let! (node, index) := pop_node_index "CHILD_AT requires (node,int)." in
  if (index <? 0) || (child_count node <=? index)
  then throw AIVM_VM_ERR_INVALID_PROGRAM (DText "CHILD_AT index out of range.")
  else
    let! s := get in
    let! child := check (zget (node_children (node_store s)) (child_start node + index)) in
    op_push (VNode child).

(** ** Making nodes *)

(** A string operand of a (string, ..., string) tuple. *)
Definition non_null (v : AivmValue) : option str_ptr :=
  match v with VString p => if bool_decide (p = SNull) then None else Some p | _ => None end.

Definition push_node (kind id : str_ptr) (attrs : list AivmNodeAttr) (children : list Z) : M unit :=
  let! handle := aivm_vm_create_node_record kind id attrs (OwnArray children) in
  op_push (VNode handle).

Definition op_make_block : M unit :=
  let! p := pop_string "MAKE_BLOCK requires string id." in
  push_node (lit "Block") p [] [].

(** The records [start .. start + count) of an array, each slot checked against the
    capacity before it is read. *)
Fixpoint copy_slots {A} (count : nat) (slots : list A) (start i capacity : Z) (message : string) : M (list A) :=
  match count with
  | O => ret []
  | S count' =>
      let invalid := throw AIVM_VM_ERR_INVALID_PROGRAM (DText message) in
      match aivm_size_add_checked start i with
      | None => invalid
      | Some slot =>
          if capacity <=? slot then invalid
          else
            let! x := check (zget slots slot) in
            let! rest := copy_slots count' slots start (i + 1) capacity message in
            ret (x :: rest)
      end
  end.

Definition base_attrs (node : AivmNodeRecord) (message : string) : M (list AivmNodeAttr) :=
  let! s := get in
  copy_slots (Z.to_nat (attr_count node)) (node_attrs (node_store s)) (attr_start node) 0 (node_attr_capacity (node_store s)) message.

Definition base_children (node : AivmNodeRecord) (message : string) : M (list Z) :=
  let! s := get in
  copy_slots (Z.to_nat (child_count node)) (node_children (node_store s)) (child_start node) 0 (node_child_capacity (node_store s)) message.

(** The two scratch arrays of APPEND_CHILD and APPEND_ATTR; both are asked for. *)
Definition append_scratch (size1 size2 : Z) (message : string) : M unit :=
  let! ok1 := alloc size1 in
  let! ok2 := alloc size2 in
  if ok1 && ok2 then ret tt else throw AIVM_VM_ERR_MEMORY_PRESSURE (DText message).

Definition one_or (n : Z) : Z := if n =? 0 then 1 else n.

Definition op_append_child : M unit :=
  let! (node_value, child_value) := pop_operands in
  let! s := get in
  let n := node_store s in
  match lookup_value s node_value, child_value with
  | Some base, VNode child_handle =>
      match aivm_vm_lookup_node n child_handle with
      | None => mismatch "APPEND_CHILD child node handle was invalid."
      | Some _ =>
          let exceeded := throw AIVM_VM_ERR_INVALID_PROGRAM (DText "APPEND_CHILD exceeded VM node capacity.") in
          if node_attr_capacity n <? attr_count base then exceeded
          else
            match aivm_size_add_checked (child_count base) 1 with
            | None => exceeded
            | Some needed =>
                if node_child_capacity n <? needed then exceeded
                else
                  do! append_scratch (needed * 8) (one_or (attr_count base) * SIZEOF_ATTR) "APPEND_CHILD scratch allocation failed." in
                  let! attrs := base_attrs base "APPEND_CHILD attr slot was invalid." in
                  let! children := base_children base "APPEND_CHILD child slot was invalid." in
                  push_node (node_kind base) (node_id base) attrs (children ++ [child_handle])
            end
      end
  | _, _ => mismatch "APPEND_CHILD requires (node,node)."
  end.

(** The attribute of the second node under the id of that node. *)
Definition op_append_attr : M unit :=
  let! (node_value, attr_value_) := pop_operands in
  let! s := get in
  let n := node_store s in
  match lookup_value s node_value, lookup_value s attr_value_ with
  | Some base, Some attr_node =>
      let exceeded := throw AIVM_VM_ERR_INVALID_PROGRAM (DText "APPEND_ATTR requires single-attr node and capacity.") in
      if negb (attr_count attr_node =? 1) then exceeded
      else
        match aivm_size_add_checked (attr_count base) 1 with
        | None => exceeded
        | Some needed =>
            if (node_attr_capacity n <? needed) || (node_child_capacity n <? child_count base) then exceeded
            else
              do! append_scratch (needed * SIZEOF_ATTR) (one_or (child_count base) * 8) "APPEND_ATTR scratch allocation failed." in
              let! attrs := base_attrs base "APPEND_ATTR attr slot was invalid." in
              let! last := check (zget (node_attrs n) (attr_start attr_node)) in
              let! children := base_children base "APPEND_ATTR child slot was invalid." in
              push_node (node_kind base) (node_id base) (attrs ++ [mk_attr (node_id attr_node) (attr_value last)]) children
        end
  | _, _ => mismatch "APPEND_ATTR requires (node,node)."
  end.

Definition op_make_err : M unit :=
  let! node_id_value := aivm_stack_pop in
  let! message_value := aivm_stack_pop in
  let! code_value := aivm_stack_pop in
  let! id_value := aivm_stack_pop in
  match non_null node_id_value, non_null message_value, non_null code_value, non_null id_value with
  | Some node_id, Some message, Some code, Some id =>
      push_node (lit "Err") id
        [mk_attr (lit "code") (NAIdentifier code); mk_attr (lit "message") (NAString message);
         mk_attr (lit "nodeId") (NAIdentifier node_id)] []
  | _, _, _, _ => mismatch "MAKE_ERR requires (string,string,string,string)."
  end.

Definition op_make_lit (attr_of : AivmValue -> option AivmNodeAttrValue) (message : string) : M unit :=
  let! (id_value, value) := pop_operands in
  match non_null id_value, attr_of value with
  | Some id, Some v => push_node (lit "Lit") id [mk_attr (lit "value") v] []
  | _, _ => mismatch message
  end.

Definition op_make_lit_string : M unit := op_make_lit (fun v => NAString <$> non_null v) "MAKE_LIT_STRING requires (string,string).".
Definition op_make_lit_int : M unit :=
  op_make_lit (fun v => match v with VInt i => Some (NAInt i) | _ => None end) "MAKE_LIT_INT requires (string,int).".
Definition op_make_lit_bool : M unit :=
  op_make_lit (fun v => match v with VBool b => Some (NABool b) | _ => None end) "MAKE_LIT_BOOL requires (string,bool).".

Definition op_make_node_empty : M unit :=
  let! (kind_value, id_value) := pop_operands in
  match non_null kind_value, non_null id_value with
  | Some kind, Some id => push_node kind id [] []
  | _, _ => mismatch "MAKE_NODE_EMPTY requires (string,string)."
  end.

(** [argc] values from the stack as nodes, the last one first.  When one fails
    without an error the children are used although they were not all written. *)
Fixpoint pop_children (argc : nat) (children : list Z) : M (list Z) :=
  match argc with
  | O => ret children
  | S argc' =>
      let! value := aivm_stack_pop in
      let! child := create_runtime_node_from_value value in
      pop_children argc' (child :: children)
  end.

Definition runtime_children (argc : Z) : M (list Z) :=
  or_else (pop_children (Z.to_nat argc) [])
    (fun s => if bool_decide (status s = AIVM_VM_STATUS_ERROR) then Err s else Undef).

(** The record at an address taken when the array had [capacity] slots: growing the
    array may move it, and a slot past the count is no record of the store. *)
Definition record_at (capacity handle : Z) : M AivmNodeRecord :=
  let! s := get in
  if node_capacity (node_store s) =? capacity then check (aivm_vm_lookup_node (node_store s) handle) else undef.

Definition op_make_node : M unit :=
  let! (template_value, argc_value) := pop_operands in
  let! s := get in
  match argc_value, template_value with
  | VInt argc, VNode handle =>
      match (if argc <? 0 then None else aivm_vm_lookup_node (node_store s) handle) with
      | None => mismatch "MAKE_NODE requires (node,int>=0)."
      | Some template =>
          if (AIVM_VM_NODE_CHILD_CAPACITY <? argc) || (AIVM_VM_NODE_ATTR_CAPACITY <? attr_count template) || (stack_count s <? argc)
          then throw AIVM_VM_ERR_INVALID_PROGRAM (DText "MAKE_NODE arguments exceeded VM limits.")
          else
            let! attrs := copy_slots (Z.to_nat (attr_count template)) (node_attrs (node_store s)) (attr_start template) 0
                            AIVM_VM_NODE_ATTR_CAPACITY "MAKE_NODE attr slot was invalid." in
            let! children := runtime_children argc in
            let! template := record_at (node_capacity (node_store s)) handle in
            if attr_count template <=? zlen attrs
            then push_node (node_kind template) (node_id template) (ztake (attr_count template) attrs) children
            else undef
      end
  | _, _ => mismatch "MAKE_NODE requires (node,int>=0)."
  end.

Definition op_make_field_string : M unit :=
  let! (key_value, value) := pop_operands in
  match non_null key_value with
  | None => mismatch "MAKE_FIELD_STRING requires (string,any)."
  | Some key =>
      let! child := create_runtime_node_from_value value in
      push_node (lit "Field") (lit "field") [mk_attr (lit "key") (NAString key)] [child]
  end.

Definition op_make_map : M unit :=
  let! count_value := aivm_stack_pop in
  match count_value with
  | VInt count =>
      if count <? 0 then mismatch "MAKE_MAP requires int child count."
      else
        let! s := get in
        if (AIVM_VM_NODE_CHILD_CAPACITY <? count) || (stack_count s <? count)
        then throw AIVM_VM_ERR_INVALID_PROGRAM (DText "MAKE_MAP count exceeded VM limits.")
        else
          let! children := runtime_children count in
          push_node (lit "Map") (lit "map") [] children
  | _ => mismatch "MAKE_MAP requires int child count."
  end.

(** ** Builders and maps

    One condition with every step; on failure the instruction sets its error unless
    there is one. *)

Definition guarded (message : string) (m : M unit) : M unit :=
  do! or_else m (throw_unless_error AIVM_VM_ERR_TYPE_MISMATCH (DText message)) in advance.

Definition op_node_builder_new : M unit :=
  let! (kind_value, id_value) := pop_operands in
  guarded "NODE_BUILDER_NEW requires (string,string)."
    match non_null kind_value, non_null id_value with
    | Some kind, Some id => let! handle := aivm_vm_node_builder_new kind id in aivm_stack_push (VNodeBuilder handle)
    | _, _ => fail
    end.

(** The message names the types of the operands; those that were not popped are void. *)
Definition append_child_error (builder_value child_value : AivmValue) : M unit :=
  throw_unless_error AIVM_VM_ERR_TYPE_MISMATCH (DFormat "NODE_BUILDER_APPEND_CHILD requires (builder,node). actual=(%s,%s)"
    [op_text (aivm_vm_value_type_name (value_type builder_value)); op_text (aivm_vm_value_type_name (value_type child_value))]).

Definition op_node_builder_append_child : M unit :=
  let! (builder_value, child_value) := pop_operands in
  do! or_else
        match builder_value, child_value with
        | VNodeBuilder b, VNode c => do! aivm_vm_node_builder_append_child b c in aivm_stack_push builder_value
        | _, _ => fail
        end
        (append_child_error builder_value child_value) in
  advance.

Definition op_node_builder_append_attr : M unit :=
  guarded "NODE_BUILDER_APPEND_ATTR requires (builder,node)."
    (let! (builder_value, attr_value_) := pop_operands in
     match builder_value, attr_value_ with
     | VNodeBuilder b, VNode a => do! aivm_vm_node_builder_append_attr b a in aivm_stack_push builder_value
     | _, _ => fail
     end).

Definition op_node_builder_finish : M unit :=
  guarded "NODE_BUILDER_FINISH requires builder operand."
    (let! builder_value := aivm_stack_pop in
     match builder_value with
     | VNodeBuilder b => let! handle := aivm_vm_node_builder_finish b in aivm_stack_push (VNode handle)
     | _ => fail
     end).

Definition op_map_builder_new : M unit :=
  let! handle := aivm_vm_map_builder_new in
  op_push (VMapBuilder handle).

Definition op_map_builder_put : M unit :=
  guarded "MAP_BUILDER_PUT_STRING_INT requires (mapBuilder,string,int)."
    (let! value := aivm_stack_pop in
     let! key := aivm_stack_pop in
     let! builder := aivm_stack_pop in
     match builder, non_null key, value with
     | VMapBuilder b, Some p, VInt i =>
         let! text := deref_str p in
         do! aivm_vm_map_builder_put_string_int b (Some text) i in
         aivm_stack_push builder
     | _, _, _ => fail
     end).

Definition op_map_builder_finish : M unit :=
  guarded "MAP_BUILDER_FINISH requires mapBuilder operand."
    (let! builder := aivm_stack_pop in
     match builder with
     | VMapBuilder b => do! aivm_vm_map_builder_finish b in aivm_stack_push (VMap b)
     | _ => fail
     end).

Definition op_map_count : M unit :=
  guarded "MAP_COUNT requires map operand."
    (let! map := aivm_stack_pop in
     match map with
     | VMap m => let! count := aivm_vm_map_count m in aivm_stack_push (VInt (i64_of_u64 (u64 count)))
     | _ => fail
     end).

(** The lookup shared by MAP_HAS_STRING and MAP_GET_STRING_INT_OR. *)
Definition map_lookup_string (fallback : Z) (result : Z * bool -> AivmValue) : M unit :=
  guarded "Map lookup requires (map,string)."
    (let! key := aivm_stack_pop in
     let! map := aivm_stack_pop in
     match map, non_null key with
     | VMap m, Some p =>
         let! text := deref_str p in
         let! found := aivm_vm_map_get_string_int m (Some text) fallback in
         aivm_stack_push (result found)
     | _, _ => fail
     end).

Definition op_map_has_string : M unit := map_lookup_string 0 (fun r => VBool r.2).

(** A fallback that cannot be popped is reported as a type error too. *)
Definition op_map_get_string_int_or : M unit :=
  let message := "MAP_GET_STRING_INT_OR requires integer fallback." in
  let! fallback := or_else aivm_stack_pop (mismatch message) in
  match fallback with
  | VInt i => map_lookup_string i (fun r => VInt r.1)
  | _ => mismatch message
  end.

(** ** The group *)

Definition node_op (i : AivmInstruction) : option (M unit) :=
  match opcode i with
  | AIVM_OP_MAKE_PAIR => Some op_make_pair
  | AIVM_OP_PAIR_FIRST => Some (op_pair_part "PAIR_FIRST" first)
  | AIVM_OP_PAIR_SECOND => Some (op_pair_part "PAIR_SECOND" second)
  | AIVM_OP_NODE_KIND => Some op_node_kind
  | AIVM_OP_NODE_ID => Some op_node_id
  | AIVM_OP_ATTR_COUNT => Some op_attr_count
  | AIVM_OP_ATTR_KEY => Some op_attr_key
  | AIVM_OP_ATTR_VALUE_KIND => Some op_attr_value_kind
  | AIVM_OP_ATTR_VALUE_STRING => Some op_attr_value_string
  | AIVM_OP_ATTR_VALUE_INT => Some op_attr_value_int
  | AIVM_OP_ATTR_VALUE_BOOL => Some op_attr_value_bool
  | AIVM_OP_CHILD_COUNT => Some op_child_count
  | AIVM_OP_CHILD_AT => Some op_child_at
  | AIVM_OP_MAKE_BLOCK => Some op_make_block
  | AIVM_OP_APPEND_CHILD => Some op_append_child
  | AIVM_OP_APPEND_ATTR => Some op_append_attr
  | AIVM_OP_MAKE_ERR => Some op_make_err
  | AIVM_OP_MAKE_LIT_STRING => Some op_make_lit_string
  | AIVM_OP_MAKE_LIT_INT => Some op_make_lit_int
  | AIVM_OP_MAKE_LIT_BOOL => Some op_make_lit_bool
  | AIVM_OP_MAKE_NODE => Some op_make_node
  | AIVM_OP_MAKE_NODE_EMPTY => Some op_make_node_empty
  | AIVM_OP_MAKE_FIELD_STRING => Some op_make_field_string
  | AIVM_OP_MAKE_MAP => Some op_make_map
  | AIVM_OP_NODE_BUILDER_NEW => Some op_node_builder_new
  | AIVM_OP_NODE_BUILDER_APPEND_CHILD => Some op_node_builder_append_child
  | AIVM_OP_NODE_BUILDER_APPEND_ATTR => Some op_node_builder_append_attr
  | AIVM_OP_NODE_BUILDER_FINISH => Some op_node_builder_finish
  | AIVM_OP_MAP_BUILDER_NEW => Some op_map_builder_new
  | AIVM_OP_MAP_BUILDER_PUT_STRING_INT => Some op_map_builder_put
  | AIVM_OP_MAP_BUILDER_FINISH => Some op_map_builder_finish
  | AIVM_OP_MAP_COUNT => Some op_map_count
  | AIVM_OP_MAP_HAS_STRING => Some op_map_has_string
  | AIVM_OP_MAP_GET_STRING_INT_OR => Some op_map_get_string_int_or
  | _ => None
  end.

End Host.
