(* ===== verification/Operands.v ===== *)
(** * Operands and results of instructions

    What the instructions share: operands leave the stack, an operation works on the
    heap, and a result is pushed.  A value is usable when its handles, texts and bytes
    are those of the heap; the roots of a well-formed heap are usable, and a heap stays
    well-formed when its roots are replaced by usable values. *)

From S2P Require Import Prelude Types Program Vm Memory Lifecycle Stack Control ControlSafety Roots Pairs.
From S2P Require Import NodeGc NodeMark NodeMove NodeCompact Moves.
From S2P Require Import Strings StringText StringIndex StringGc StringCompact StringCopy Bytes BytesGc NodeCreate NodeTrees NodeRoom NodeBuild Collector.

(** ** Usable values *)

Record usable (lens : list Z) (s : AivmVm) (v : AivmValue) : Prop := {
  us_handles : forall d, sound_tree (handle_of (node_store s)) (unfold_pairs d (scratch_pairs s) v);
  us_texts : value_tree_ok s v;
  us_bytes : forall d, leaves (view_ok (bytes_arena s) lens) (unfold_value d (scratch_pairs s) (node_store s) v) }.

(** A value that is neither a node nor a pair. *)
Definition is_leaf (v : AivmValue) : bool := match v with VNode _ | VPair _ => false | _ => true end.

Lemma unfold_leaf d pairs n v : is_leaf v = true -> unfold_value d pairs n v = TLeaf v.
Proof. by destruct d, v. Qed.

Lemma usable_leaf lens s v : is_leaf v = true -> value_valid s v -> view_ok (bytes_arena s) lens v -> usable lens s v.
Proof.
  intros Hl Hv Hb. split; [|intros d; by rewrite unfold_leaf|intros d; by rewrite unfold_leaf].
  intros d. destruct v; try done; by destruct d.
Qed.

Lemma usable_string lens s p : str_valid s p -> usable lens s (VString p).
Proof. intros Hp. by apply usable_leaf. Qed.

Lemma usable_bytes lens s gen off len : gen = ba_gen (bytes_arena s) -> (off, len) ∈ blocks lens 0 -> usable lens s (VBytes (BArena gen off) len).
Proof. intros. by apply usable_leaf. Qed.

Lemma usable_node lens s h : node_valid (node_store s) h -> node_tree_ok s h -> usable lens s (VNode h).
Proof.
  intros Hv Ht. split; [intros d; by destruct d| |intros d; by destruct d]. intros d. specialize (Ht d). by destruct d.
Qed.

Lemma usable_node_inv lens s h : usable lens s (VNode h) -> node_valid (node_store s) h /\ node_tree_ok s h.
Proof.
  intros [H1 H2 _]. split; [exact (H1 0%nat)|]. intros d. specialize (H2 d). by destruct d.
Qed.

Lemma usable_valid lens s v : usable lens s v -> value_valid s v.
Proof. intros [_ H2 _]. by apply value_tree_valid. Qed.

Lemma usable_view lens s v : usable lens s v -> view_ok (bytes_arena s) lens v.
Proof. intros [_ _ H3]. exact (leaf_value _ _ _ _ (view_ok_of_bytes _ _) (H3 0%nat)). Qed.

(** The halves of a usable pair. *)
Lemma usable_pair lens s h : usable lens s (VPair h) ->
  exists p, pair_at (scratch_pairs s) h = Some p /\ usable lens s (first p) /\ usable lens s (second p).
Proof.
  intros [H1 H2 H3]. pose proof (H1 1%nat) as Hp. cbn [unfold_pairs] in Hp. destruct (pair_at (scratch_pairs s) h) as [p|] eqn:Ep; [|done].
  exists p. split; [done|]. destruct (pair_tree s h p H2 Ep).
  split; (split; [intros d; specialize (H1 (S d)); cbn [unfold_pairs] in H1; rewrite Ep in H1; apply H1|done|]);
    intros d; specialize (H3 (S d)); cbn [unfold_value] in H3; rewrite Ep in H3; apply H3.
Qed.

(** ** Well-formed heaps and their roots *)

Definition heap_with (lens : list Z) (s : AivmVm) : Prop := heap_ok s /\ bytes_ok s lens.

Lemma heap_with_full lens s : heap_with lens s -> full_heap s.
Proof. intros [H1 H2]. split; [done|by exists lens]. Qed.

Lemma usable_roots lens s : heap_with lens s -> Forall (usable lens s) (root_values s).
Proof.
  intros [[N Hh S T] B]. destruct (trees_of_texts s Hh T) as (T1 & _ & _). pose proof (bytes_ok_everywhere s lens B) as E.
  apply Forall_forall. intros v Hv. rewrite Forall_forall in T1.
  pose proof (ho_roots s Hh) as R. rewrite Forall_forall in R. pose proof (proj1 E) as E1. rewrite Forall_forall in E1.
  split; [|by apply T1|].
  - intros d. apply sound_of_handles; [done|by apply R|]. intros i Hi. by exists v.
  - intros d. apply leaves_of_everywhere; [done|by apply E1|]. intros i Hi. by exists v.
Qed.

(** The parts of the state that hold the heap. *)
Definition heap_parts (s : AivmVm) := (strings s, program s, bytes_arena s, scratch_pairs s, node_store s, node_builders s).

Lemma heap_parts_eq s s' : heap_parts s' = heap_parts s ->
  texts_view s' = texts_view s /\ scratch_pairs s' = scratch_pairs s /\ node_store s' = node_store s /\ node_builders s' = node_builders s.
Proof. unfold heap_parts, texts_view. intros [= -> -> -> -> -> ->]. done. Qed.

Lemma usable_parts lens s s' v : heap_parts s' = heap_parts s -> usable lens s v -> usable lens s' v.
Proof.
  intros E [H1 H2 H3]. destruct (heap_parts_eq s s' E) as (E1 & E2 & E3 & _). split.
  - intros d. rewrite E2, E3. apply H1.
  - intros d. rewrite E2, E3. by apply (view_vtree s s' E1).
  - intros d. rewrite E2, E3. replace (bytes_arena s') with (bytes_arena s) by (unfold texts_view in E1; congruence). apply H3.
Qed.

Lemma document_parts s s' d v : heap_parts s' = heap_parts s -> document d s' v = document d s v.
Proof. intros E. destruct (heap_parts_eq s s' E) as (E1 & E2 & E3 & _). apply document_alike; [by apply texts_view_reads|done|done]. Qed.

Lemma node_document_parts s s' d h : heap_parts s' = heap_parts s -> node_document d s' h = node_document d s h.
Proof. intros E. destruct (heap_parts_eq s s' E) as (E1 & E2 & E3 & _). apply node_document_alike; [by apply texts_view_reads|done]. Qed.

Lemma handles_of_roots lens s s' : heap_parts s' = heap_parts s -> handles_ok s -> Forall (usable lens s') (root_values s') -> handles_ok s'.
Proof.
  intros E Hh Hu. destruct (heap_parts_eq s s' E) as (_ & E2 & E3 & E4). split.
  - eapply Forall_impl; [exact Hu|]. intros v Hv. apply handle_of_sound, Hv.
  - intros i p (v & Hv & Hr) Hp. rewrite Forall_forall in Hu. destruct (reaches_sound _ s' v i Hr (us_handles _ _ _ (Hu v Hv)) p Hp).
    split; by apply handle_of_sound.
  - unfold builder_handles. rewrite E3, E4. apply Hh.
  - unfold host_handles. rewrite E3. apply Hh.
Qed.

(** Any usable values may take the place of the roots. *)
Lemma reroot lens s s' : heap_with lens s -> heap_parts s' = heap_parts s -> Forall (usable lens s) (root_values s') -> heap_with lens s'.
Proof.
  intros [[N Hh S T] B] E Hu. destruct (heap_parts_eq s s' E) as (E1 & E2 & E3 & E4).
  assert (Hu' : Forall (usable lens s') (root_values s')) by (eapply Forall_impl; [exact Hu|intros v Hv; by apply (usable_parts lens s)]).
  destruct (trees_of_texts s Hh T) as (_ & T2 & T3). unfold texts_view in E1. injection E1 as F1 F2 F3. split.
  - split; [by rewrite E3|by eapply handles_of_roots|by rewrite F1|]. apply texts_of_trees. split; [|split].
    + eapply Forall_impl; [exact Hu'|]. intros v Hv. apply Hv.
    + unfold builder_handles. rewrite E4. eapply Forall_impl; [exact T2|]. intros h Hn d. rewrite E3.
      apply (view_ntree s s'); [unfold texts_view; congruence|apply Hn].
    + unfold host_handles. rewrite E3. eapply Forall_impl; [exact T3|]. intros h Hn Hp d. rewrite E3.
      apply (view_ntree s s'); [unfold texts_view; congruence|by apply Hn].
  - destruct B as [B1 B2 _ _]. destruct (everywhere_of_leaves (view_ok (bytes_arena s') lens) s' (view_ok_of_bytes _ _)) as [P1 P2].
    { eapply Forall_impl; [exact Hu'|]. intros v Hv. apply Hv. }
    split; [by rewrite F3|by rewrite F3|done|done].
Qed.

(** ** Taking operands and pushing a result *)

Definition other_roots (s : AivmVm) : list AivmValue := locals_part s ++ tasks_part s ++ par_values s.

Lemma root_values_others s : root_values s = rev (stack s) ++ other_roots s.
Proof. done. Qed.

Lemma Forall2_rev {A} (R : A -> A -> Prop) l k : Forall2 R l k -> Forall2 R (rev l) (rev k).
Proof. rewrite !rev_alt. apply Forall2_reverse. Qed.

Lemma preserved_split s s' : preserved s s' ->
  Forall2 (same_document s s') (stack s) (stack s') /\ Forall2 (same_document s s') (other_roots s) (other_roots s').
Proof.
  intros [_ R _ _ C]. rewrite !root_values_others in R. unfold control_view in C. injection C as _ _ Ez _ _ _ _ _ _.
  apply Forall2_app_inv in R; [|rewrite !length_rev; unfold zlen in Ez; lia]. destruct R as [R1 R2]. split; [|done].
  apply Forall2_rev in R1. by rewrite !rev_involutive in R1.
Qed.

Lemma stack_inv_control s s' : control_view s' = control_view s -> stack_inv s -> stack_inv s'.
Proof.
  unfold control_view. intros [= _ _ E1 E2 E3 E4 E5 E6 E7] []. split; unfold stack_count, call_frame_count, active_locals_base in *;
    rewrite ?E1, ?E2, ?E3, ?E4, ?E5, ?E6, ?E7; done.
Qed.

(** A state an instruction can start from. *)
Record ready (lens : list Z) (s : AivmVm) : Prop := {
  rd_heap : heap_with lens s;
  rd_stack : stack_inv s }.

(** The state after operands have been taken. *)
Lemma ready_drop lens s ops rest : ready lens s -> stack s = ops ++ rest ->
  ready lens (set_stack rest s) /\ Forall (usable lens (set_stack rest s)) ops.
Proof.
  intros [Hh Hs] E. pose proof (usable_roots lens s Hh) as Hu. rewrite root_values_others, E, rev_app_distr in Hu.
  rewrite !Forall_app in Hu. destruct Hu as [[Hr Ho] Hl]. split; [split|].
  - apply (reroot lens s); [done|done|]. rewrite root_values_others. apply Forall_app. split; [done|]. apply Hl.
  - destruct Hs as [S1 S2 S3 S4 S5 S6]. split; try done. unfold stack_count in *. cbn [stack set_stack stack_limit] in *. rewrite E, zlen_app in S1.
    pose proof (zlen_nonneg ops). lia.
  - apply Forall_rev in Ho. rewrite rev_involutive in Ho. eapply Forall_impl; [exact Ho|]. intros v Hv. by apply (usable_parts lens s).
Qed.

(** [k] operands gave way to one result; nothing else has changed its meaning. *)
Record produced (k : nat) (s s' : AivmVm) (doc : nat -> vtree) : Prop := {
  pd_ready : exists lens, ready lens s';
  pd_stack : exists v rest, stack s' = v :: rest /\ (forall d, document d s' v = doc d) /\
    Forall2 (same_document s s') (drop k (stack s)) rest;
  pd_others : Forall2 (same_document s s') (other_roots s) (other_roots s');
  pd_builders : Forall2 (same_node_document s s') (builder_handles s) (builder_handles s');
  pd_host : Forall2 (fun h h' => 0 < h -> 0 < h' /\ same_node_document s s' h h') (host_handles s) (host_handles s');
  pd_control : program s' = program s /\ call_frames s' = call_frames s /\ locals_count s' = locals_count s /\
    instruction_pointer s' = instruction_pointer s + 1;
  pd_status : status s' = status s }.

(** A failure is reported and leaves a well-formed heap. *)
Definition reported (s' : AivmVm) : Prop := full_heap s' /\ status s' = AIVM_VM_STATUS_ERROR.

(** An operation on the heap: its result is usable and has a given meaning. *)
Definition yields {A} (f : A -> AivmValue) (s : AivmVm) (r : res A) (doc : nat -> vtree) : Prop :=
  match r with
  | Ok a s' => (exists lens, heap_with lens s' /\ usable lens s' (f a)) /\ preserved s s' /\ status s' = status s /\ forall d, document d s' (f a) = doc d
  | Err s' => reported s'
  | Undef => False
  end.

(** The outcome of an instruction. *)
Definition outcome_of (k : nat) (s : AivmVm) (r : res unit) (doc : nat -> vtree) : Prop :=
  match r with Ok _ s' => produced k s s' doc | Err s' => reported s' | Undef => False end.

Lemma document_drop rest s d v : document d (set_stack rest s) v = document d s v.
Proof. by apply document_parts. Qed.

(** Where an operand was taken there is room for the result. *)
Lemma push_after lens s v rest : stack_inv s -> heap_with lens s -> usable lens s v -> stack s = rest -> zlen rest < AIVM_VM_STACK_CAPACITY ->
  exists s', op_push v s = Ok tt s' /\ ready lens s' /\ heap_parts s' = heap_parts s /\ stack s' = v :: rest /\ other_roots s' = other_roots s /\
    program s' = program s /\ call_frames s' = call_frames s /\ locals_count s' = locals_count s /\
    instruction_pointer s' = instruction_pointer s + 1 /\ status s' = status s.
Proof.
  intros Hs Hh Hv E Hlt. unfold op_push, bind. destruct (push_run v s Hs) as (limit & Hl & Hb & ->). unfold stack_count in *. rewrite E in *.
  destruct (Z.ltb_spec (zlen rest) AIVM_VM_STACK_CAPACITY); [|lia]. specialize (Hb Hlt). unfold Control.advance, modify.
  eexists. split; [reflexivity|]. split; [split|done].
  - apply (reroot lens s); [done|done|]. rewrite root_values_others. cbn [rev stack set_stack set_instruction_pointer]. rewrite !Forall_app.
    pose proof (usable_roots lens s Hh) as Hu. rewrite root_values_others, E, Forall_app in Hu. destruct Hu. split; [split; [done|by constructor]|done].
  - pose proof (stack_inv_stack_limit s limit (v :: rest) Hs) as Hi. apply (stack_inv_view (set_stack (v :: rest) (set_stack_limit limit s))); [done|].
    apply Hi. rewrite zlen_cons. lia.
Qed.

Lemma produce {A} (f : A -> AivmValue) (m : M A) doc lens s ops rest : ready lens s -> stack s = ops ++ rest -> (0 < length ops)%nat ->
  yields f (set_stack rest s) (m (set_stack rest s)) doc ->
  outcome_of (length ops) s (bind m (fun a => op_push (f a)) (set_stack rest s)) doc.
Proof.
  intros Hr E Hk Hm. destruct (ready_drop lens s ops rest Hr E) as [[_ Hs1] _]. unfold bind, outcome_of.
  destruct (m (set_stack rest s)) as [a s2|s2|]; [|done|done]. destruct Hm as ((lens2 & Hh2 & Hu2) & P & E2 & D).
  destruct (preserved_split _ _ P) as [R1 R2]. cbn [stack set_stack] in R1. pose proof (Forall2_length _ _ _ R1) as L.
  pose proof (pr_control _ _ P) as C. pose proof (stack_inv_control _ _ C Hs1) as Hs2.
  assert (Hlt : zlen (stack s2) < AIVM_VM_STACK_CAPACITY).
  { pose proof (si_stack s (rd_stack _ _ Hr)) as Hb. unfold stack_count in Hb. rewrite E, zlen_app in Hb. unfold zlen in *. lia. }
  destruct (push_after lens2 s2 (f a) (stack s2) Hs2 Hh2 Hu2 eq_refl Hlt) as (s3 & -> & R3 & P3 & K3 & O3 & C1 & C2 & C3 & C4 & C5).
  assert (Tr : forall v w, same_document (set_stack rest s) s2 v w -> same_document s s3 v w)
    by (intros v w Hvw d; rewrite (document_parts s2 s3 d w P3), Hvw; apply document_drop).
  assert (Tn : forall h h', same_node_document (set_stack rest s) s2 h h' -> same_node_document s s3 h h')
    by (intros h h' Hh d; rewrite (node_document_parts s2 s3 d h' P3); rewrite Hh; by apply node_document_parts).
  unfold control_view in C. injection C as D1 D2 _ _ D5 _ _ D8 _. cbn in D1, D2, D5, D8.
  destruct (heap_parts_eq s2 s3 P3) as (_ & _ & N3 & B3). split.
  - by exists lens2.
  - exists (f a), (stack s2). split; [done|]. split; [intros d; by rewrite (document_parts s2 s3 d (f a) P3)|].
    rewrite E, drop_app_length. eapply Forall2_impl; [exact R1|exact Tr].
  - rewrite O3. eapply Forall2_impl; [exact R2|exact Tr].
  - unfold builder_handles in *. rewrite B3. eapply Forall2_impl; [exact (pr_builders _ _ P)|exact Tn].
  - unfold host_handles in *. rewrite N3. eapply Forall2_impl; [exact (pr_host _ _ P)|]. intros h h' Hh Hp. destruct (Hh Hp) as [? ?]. split; [done|by apply Tn].
  - split_and!; [congruence|congruence|congruence|]. rewrite C4. congruence.
  - rewrite C5. exact E2.
Qed.

(** ** Operations that carry the heap along *)

Lemma carried_with lens s s' hs hs' : heap_with lens s -> carried s s' hs hs' -> heap_with lens s' /\ preserved s s'.
Proof.
  intros Hh C. split; [|by eapply carried_preserved; [by eapply heap_with_full|]].
  split; [by apply C|]. eapply carried_bytes_ok; [done|apply Hh].
Qed.

Lemma kept_with lens s s' : heap_with lens s -> kept s s' -> heap_with lens s' /\ preserved s s'.
Proof. intros Hh K. apply (carried_with lens s s' [] []); [done|]. apply kept_carried; [apply Hh|done|done]. Qed.

Lemma kept_reported lens s s' : heap_with lens s -> kept s s' -> status s' = AIVM_VM_STATUS_ERROR -> reported s'.
Proof. intros Hh K E. split; [|done]. eapply heap_with_full. by apply (kept_with lens s). Qed.

Lemma throw_reported lens s e d : heap_with lens s -> reported (aivm_set_vm_error e d s).
Proof.
  intros Hh. split; [|done]. apply (heap_with_full lens), (reroot lens s); [done|done|]. exact (usable_roots lens s Hh).
Qed.

Lemma preserved_same lens s : heap_with lens s -> preserved s s.
Proof. intros Hh. apply idle_preserved; [by eapply heap_with_full|apply idle_refl]. Qed.

(** The document of a string with a text. *)
Definition text_doc (c : list Z) : nat -> vtree := fun _ => TLeaf (VString (SExt c)).

Lemma string_document s p c d : read_str s p = Some c -> document d s (VString p) = text_doc c d.
Proof. intros E. unfold document. rewrite unfold_leaf by done. cbn. unfold resolve_str. by rewrite E. Qed.

Lemma leaf_document s v d : match v with VString _ | VBytes _ _ | VNode _ | VPair _ => false | _ => true end = true ->
  document d s v = TLeaf v.
Proof. intros Hv. unfold document. rewrite unfold_leaf by (by destruct v). by destruct v. Qed.

(** A copy as [copy_string_run] and its kin describe it. *)
Lemma copy_yields lens s q s' c : heap_with lens s -> kept s s' -> status s' = status s -> str_valid s' q -> read_str s' q = Some c ->
  yields VString s (Ok q s') (text_doc c).
Proof.
  intros Hh K E V R. destruct (kept_with lens s s' Hh K) as [Hh' P]. split_and!; [|done|done|].
  - exists lens. split; [done|by apply usable_string].
  - intros d. by apply string_document.
Qed.
