(* ===== verification/BytesCopy.v ===== *)
(** * Copies into the bytes arena keep every document (src/src/aivm_vm_arena.c, aivm_vm.c)

    The bytes arena only grows between collections: a fresh block is appended, the
    blocks before it stay where they are, and every value stands for the same bytes. *)

From S2P Require Import Prelude Types Program Vm Memory Lifecycle Stack Control ControlSafety Roots Pairs.
From S2P Require Import NodeGc NodeMark NodeMove NodeCompact Moves.
From S2P Require Import Strings StringText StringIndex StringGc StringCompact StringCopy Bytes BytesGc NodeCreate NodeTrees NodeRoom NodeBuild Collector Operands.

(** ** Appended blocks *)

Definition apart (s : AivmVm) := (strings s, program s, scratch_pairs s, node_store s, node_builders s, root_values s, control_view s).

Record filled (s s' : AivmVm) (more : list Z) : Prop := {
  fi_apart : apart s' = apart s;
  fi_gen : ba_gen (bytes_arena s') = ba_gen (bytes_arena s);
  fi_data : ba_data (bytes_arena s') = ba_data (bytes_arena s) ++ more;
  fi_limit : ba_limit (bytes_arena s) <= ba_limit (bytes_arena s') <= ba_capacity (bytes_arena s);
  fi_capacity : ba_capacity (bytes_arena s') = ba_capacity (bytes_arena s);
  fi_fit : zlen (ba_data (bytes_arena s')) <= ba_limit (bytes_arena s') }.

Lemma apart_eq s s' : apart s' = apart s -> strings s' = strings s /\ program s' = program s /\ scratch_pairs s' = scratch_pairs s /\
  node_store s' = node_store s /\ node_builders s' = node_builders s /\ root_values s' = root_values s /\ control_view s' = control_view s.
Proof.
  unfold apart. intros E. pose proof (f_equal snd E) as E7. apply (f_equal fst) in E. pose proof (f_equal snd E) as E6. apply (f_equal fst) in E.
  cbn [fst snd] in *. injection E as E1 E2 E3 E4 E5. done.
Qed.

Lemma sum_snoc lens l : sum (lens ++ [l]) = sum lens + l.
Proof. unfold sum. rewrite total_app. cbn. lia. Qed.

Lemma last_block lens l : (sum lens, l) ∈ blocks (lens ++ [l]) 0.
Proof. rewrite blocks_app. apply elem_of_app. right. cbn. rewrite Z.add_0_l. by left. Qed.

Section Filled.

Context (lens : list Z) (s s' : AivmVm) (more : list Z) (Hheap : heap_with lens s) (Hfilled : filled s s' more).

Lemma filled_view v : view_ok (bytes_arena s) lens v -> view_ok (bytes_arena s') (lens ++ [zlen more]) v.
Proof.
  destruct v; try done. destruct p; try done. cbn. rewrite (fi_gen _ _ _ Hfilled). intros [-> Hb]. split; [done|].
  rewrite blocks_app. apply elem_of_app. by left.
Qed.

Lemma filled_reads p n c : read_bytes s p n = Some c -> read_bytes s' p n = Some c.
Proof.
  destruct (apart_eq _ _ (fi_apart _ _ _ Hfilled)) as (_ & Ep & _). destruct p as [|gen off|off|c0]; cbn; [done| |by rewrite Ep|done].
  rewrite (fi_gen _ _ _ Hfilled), (fi_data _ _ _ Hfilled). destruct (gen =? _); [|done]. apply read_block_app.
Qed.

Lemma filled_resolve v : view_ok (bytes_arena s) lens v -> resolve_value s' v = resolve_value s v.
Proof.
  destruct (apart_eq _ _ (fi_apart _ _ _ Hfilled)) as (Es & Ep & _).
  intros Hv. destruct v; try done; cbn; f_equal; [unfold resolve_str; by destruct p; cbn; rewrite ?Es, ?Ep|].
  unfold resolve_bytes. destruct (read_bytes s p length) as [c|] eqn:E; [by rewrite (filled_reads _ _ _ E)|].
  destruct p as [|gen off|off|c0]; cbn in E |- *; [done| |by rewrite Ep, E|by rewrite E].
  destruct Hv as [-> Hb]. destruct (block_reads (bytes_arena s) lens (proj1 (bo_lens _ _ (proj2 Hheap))) (proj2 (bo_lens _ _ (proj2 Hheap))) _ _ Hb) as (c & Ec & _).
  rewrite Z.eqb_refl, Ec in E. done.
Qed.

Lemma filled_vtree : forall t, leaves (view_ok (bytes_arena s) lens) t -> resolve_vtree s' t = resolve_vtree s t.
Proof.
  destruct (apart_eq _ _ (fi_apart _ _ _ Hfilled)) as (Es & Ep & _).
  induction t as [v|n|l IHl r IHr| |]; cbn; intros Hl; [|f_equal|destruct Hl; by rewrite IHl, IHr|done|done].
  - by rewrite filled_resolve.
  - apply resolve_ntree_alike. intros p. destruct p; cbn; by rewrite ?Es, ?Ep.
Qed.

Lemma filled_document d v : usable lens s v -> document d s' v = document d s v.
Proof.
  destruct (apart_eq _ _ (fi_apart _ _ _ Hfilled)) as (_ & _ & E3 & E4 & _). intros Hv. unfold document. rewrite E3, E4. apply filled_vtree, Hv.
Qed.

Lemma filled_node_document d h : node_document d s' h = node_document d s h.
Proof.
  destruct (apart_eq _ _ (fi_apart _ _ _ Hfilled)) as (Es & Ep & _ & E4 & _). apply node_document_alike; [|done].
  intros p. destruct p; cbn; by rewrite ?Es, ?Ep.
Qed.

Lemma filled_heap : heap_with (lens ++ [zlen more]) s'.
Proof.
  destruct Hheap as [Hh [B1 B2 B3 B4]]. destruct Hfilled as [F1 F2 F3 F4 F5 F6].
  destruct (apart_eq _ _ F1) as (E1 & E2 & E3 & E4 & E5 & E6 & E7). pose proof (zlen_nonneg more).
  set (s1 := set_bytes_arena (bytes_arena s') s).
  assert (H1 : heap_with (lens ++ [zlen more]) s1).
  { split; [by apply heap_ok_bytes|]. split; cbn [bytes_arena set_bytes_arena s1].
    - split; [apply Forall_app; split; [apply B1|by repeat constructor]|]. rewrite sum_snoc, F3, zlen_app, (proj2 B1). done.
    - rewrite F5. lia.
    - eapply Forall_impl; [exact B3|exact filled_view].
    - intros i p Hi Hp. destruct (B4 i p Hi Hp). split; by apply filled_view. }
  apply (reroot _ s1); [done|unfold heap_parts; cbn; congruence|]. rewrite E6. exact (usable_roots _ s1 H1).
Qed.

Lemma filled_preserved : preserved s s'.
Proof.
  destruct (apart_eq _ _ (fi_apart _ _ _ Hfilled)) as (E1 & E2 & E3 & E4 & E5 & E6 & E7). split.
  - by eapply heap_with_full, filled_heap.
  - rewrite E6. apply Forall2_self. intros v Hv d. apply filled_document. pose proof (usable_roots lens s Hheap) as Hu.
    rewrite Forall_forall in Hu. by apply Hu.
  - unfold builder_handles. rewrite E5. apply Forall2_self. intros h _ d. apply filled_node_document.
  - unfold host_handles. rewrite E4. apply Forall2_self. intros h _ Hp. split; [done|]. intros d. apply filled_node_document.
  - done.
Qed.

End Filled.

(** ** Allocation *)

Section Host.

Context `{Host}.

Lemma filled_refl lens s : heap_with lens s -> filled s s [].
Proof. intros [_ [_ B _ _]]. split; try done; [by rewrite app_nil_r|lia|lia]. Qed.

Lemma filled_tick s s' t more : filled s s' more -> filled s (set_tick t s') more.
Proof. intros [F1 F2 F3 F4 F5 F6]. by split. Qed.

Lemma filled_error s s' e d more : filled s s' more -> filled s (aivm_set_vm_error e d s') more.
Proof. intros [F1 F2 F3 F4 F5 F6]. by split. Qed.

(** Growth asks the host and keeps everything. *)
Lemma admit_run growth s s0 : filled s0 s [] ->
  match aivm_vm_admit_host_memory_growth growth s with
  | Ok _ s' => filled s0 s' [] /\ bytes_arena s' = bytes_arena s /\ status s' = status s
  | Err s' => filled s0 s' [] /\ status s' = AIVM_VM_STATUS_ERROR
  | Undef => False
  end.
Proof.
  intros F. unfold aivm_vm_admit_host_memory_growth, bind at 1, get. destruct (negb _); [done|].
  unfold bind at 1, snapshot. destruct (host_memory_snapshot _) as [[total available]|]; [|by split; [apply filled_tick|]].
  destruct F as [F1 F2 F3 F4 F5 F6]. destruct (aivm_host_memory_growth_allowed _ _ _ _) as [[] susp]; by split.
Qed.

Lemma grow_bytes_run s0 fuel needed : forall s, filled s0 s [] ->
  ba_capacity (bytes_arena s) - ba_limit (bytes_arena s) <= Z.of_nat fuel * AIVM_VM_BYTES_ARENA_GROWTH_STEP ->
  match grow_bytes_limit fuel needed s with
  | Ok _ s' => filled s0 s' [] /\ status s' = status s /\ needed <= ba_limit (bytes_arena s')
  | Err s' => filled s0 s' [] /\ (status s' = status s \/ status s' = AIVM_VM_STATUS_ERROR)
  | Undef => False
  end.
Proof.
  induction fuel as [|fuel IH]; intros s F Hf; cbn [grow_bytes_limit]; unfold bind at 1, get.
  all: destruct (Z.ltb_spec (ba_limit (bytes_arena s)) needed) as [Hn|Hn]; destruct (Z.ltb_spec (ba_limit (bytes_arena s)) (ba_capacity (bytes_arena s))) as [Hc|Hc]; cbn [andb].
  all: try (destruct (Z.leb_spec needed (ba_limit (bytes_arena s))); cbn; split_and!; try done; try lia; by left).
  { lia. }
  set (next := arena_grow_limit _ _ _).
  pose proof (arena_grow_limit_bounds (ba_limit (bytes_arena s)) AIVM_VM_BYTES_ARENA_GROWTH_STEP (ba_capacity (bytes_arena s)) ltac:(done) ltac:(lia)) as [Hb Hr].
  fold next in Hb, Hr. specialize (Hr Hc). unfold bind at 1. pose proof (admit_run (next - ba_limit (bytes_arena s)) s s0 F) as Ha.
  destruct (aivm_vm_admit_host_memory_growth _ s) as [[] s1|s1|]; [| |done].
  2: { destruct Ha as [Ha E]. split; [done|by right]. }
  destruct Ha as (F1 & E1 & St1). unfold bind, put_bytes, modify. set (s2 := set_bytes_arena _ s1).
  assert (F2 : filled s0 s2 []).
  { destruct F1 as [A1 A2 A3 A4 A5 A6]. split; [exact A1|exact A2|exact A3| |exact A5|]; cbn; rewrite <- ?E1 in *; [rewrite A5 in *; lia|lia]. }
  specialize (IH s2 F2). cbn [bytes_arena set_bytes_arena s2 ba_capacity set_ba_limit ba_limit] in IH. rewrite E1 in IH.
  specialize (IH ltac:(unfold AIVM_VM_BYTES_ARENA_GROWTH_STEP in *; lia)). change (status s2) with (status s1) in IH. rewrite St1 in IH. exact IH.
Qed.

Lemma bytes_alloc_run lens size s : heap_with lens s -> 0 <= size ->
  match aivm_bytes_arena_alloc size s with
  | Ok p s' => filled s s' (replicate (Z.to_nat size) 0) /\ status s' = status s /\ p = BArena (ba_gen (bytes_arena s)) (zlen (ba_data (bytes_arena s)))
  | Err s' => filled s s' [] /\ status s' = AIVM_VM_STATUS_ERROR
  | Undef => False
  end.
Proof.
  intros Hh Hz. pose proof (filled_refl lens s Hh) as F0. destruct Hh as [_ [_ B _ _]].
  assert (Hpress : forall s1, filled s s1 [] -> filled s (set_bytes_arena (set_ba_pressure_count (aivm_counter_increment_saturating (ba_pressure_count (bytes_arena s1))) (bytes_arena s1)) s1) [])
    by (intros s1 [A1 A2 A3 A4 A5 A6]; by split).
  unfold aivm_bytes_arena_alloc, bind at 1, get. destruct (aivm_size_add_checked _ size) as [needed|] eqn:En.
  2: { unfold bind, bytes_pressure, put_bytes, modify, throw. split; [|done]. by apply filled_error, Hpress. }
  apply size_add_checked_Some in En as [Hmax ->]. set (needed := _ + size) in *.
  assert (Hgrow : match (if ba_limit (bytes_arena s) <? needed then or_else (ensure_bytes_arena_capacity needed)
      (do! bytes_pressure in throw_unless_error AIVM_VM_ERR_MEMORY_PRESSURE bytes_exceeded) else ret tt) s with
    | Ok _ s' => filled s s' [] /\ status s' = status s /\ needed <= ba_limit (bytes_arena s')
    | Err s' => filled s s' [] /\ status s' = AIVM_VM_STATUS_ERROR | Undef => False end).
  { destruct (Z.ltb_spec (ba_limit (bytes_arena s)) needed); [|done]. unfold or_else, ensure_bytes_arena_capacity, bind at 1, get.
    match goal with |- context [grow_bytes_limit ?fuel needed s] => pose proof (grow_bytes_run s fuel needed s F0) as Hg end.
    specialize (Hg ltac:(unfold AIVM_VM_BYTES_ARENA_GROWTH_STEP; rewrite Z2Nat.id by mlia; mlia)).
    destruct (grow_bytes_limit _ needed s) as [u s1|s1|]; [exact Hg| |done]. destruct Hg as [Hf E].
    unfold bind, bytes_pressure, put_bytes, modify, throw_unless_error. case_bool_decide as Es; [split; [by apply Hpress|done]|].
    split; [by apply filled_error, Hpress|done]. }
  unfold bind at 1. match type of Hgrow with match ?m with _ => _ end => destruct m as [u s1|s1|] end; [|exact Hgrow|done].
  destruct Hgrow as ([A1 A2 A3 A4 A5 A6] & St & Hfit). rewrite app_nil_r in A3. unfold bind, get, put_bytes, modify, ret. split_and!; [|done|by rewrite A2, A3].
  split; cbn; [exact A1|done|by rewrite A3|lia|done|]. rewrite A3, zlen_app. unfold zlen at 2. rewrite length_replicate, Z2Nat.id by lia. fold needed. lia.
Qed.

(** Writing into the fresh block. *)
Lemma write_bytes_run s s1 size a content b : filled s s1 (a ++ replicate (length content) 0 ++ b) -> size = zlen (ba_data (bytes_arena s) ++ a) ->
  exists s2, write_bytes size content s1 = Ok tt s2 /\ filled s s2 (a ++ content ++ b) /\ status s2 = status s1.
Proof.
  intros [A1 A2 A3 A4 A5 A6] ->. unfold write_bytes, bind, get. rewrite A3. pose proof (zlen_nonneg (ba_data (bytes_arena s) ++ a)). pose proof (zlen_nonneg b).
  assert (Hl : zlen (replicate (length content) 0) = zlen content) by (unfold zlen; by rewrite length_replicate).
  rewrite (app_assoc (ba_data _) a), !zlen_app, Hl. pose proof (zlen_nonneg content). rewrite !zlen_app in *.
  replace (_ && _) with true by lia. eexists. split; [reflexivity|]. split; [|done]. split; [exact A1|done| |done|done|].
  - cbn. rewrite <- zlen_app. rewrite ztake_app. rewrite <- !app_assoc. do 3 f_equal.
    rewrite app_assoc, <- zdrop_zdrop, zdrop_app by (apply zlen_nonneg). rewrite <- Hl. apply zdrop_app.
  - cbn. rewrite A3, (app_assoc (ba_data _) a), !zlen_app, Hl in A6. rewrite <- zlen_app, ztake_app.
    rewrite <- zdrop_zdrop, zdrop_app by (apply zlen_nonneg). rewrite <- Hl at 1. rewrite zdrop_app, !zlen_app. lia.
Qed.

(** *** Results *)

Definition bytes_doc (c : list Z) : nat -> vtree := fun _ => TLeaf (VBytes (BExt c) (zlen c)).

Lemma block_yields lens s s' c : heap_with lens s -> filled s s' c -> status s' = status s ->
  yields (fun p => VBytes p (zlen c)) s (Ok (BArena (ba_gen (bytes_arena s)) (zlen (ba_data (bytes_arena s)))) s') (bytes_doc c).
Proof.
  intros Hh F St. pose proof (filled_heap lens s s' c Hh F) as Hh'. split_and!; [|by eapply filled_preserved|done|].
  - exists (lens ++ [zlen c]). split; [done|]. apply usable_bytes; [by rewrite (fi_gen _ _ _ F)|].
    destruct Hh as [_ [[_ <-] _ _ _]]. apply last_block.
  - intros d. unfold document. rewrite unfold_leaf by done. cbn. unfold resolve_bytes. cbn. rewrite (fi_gen _ _ _ F), Z.eqb_refl, (fi_data _ _ _ F).
    unfold read_block, Program.slice. pose proof (zlen_nonneg c). pose proof (zlen_nonneg (ba_data (bytes_arena s))). rewrite zlen_app.
    replace (_ && _) with true by lia. rewrite zdrop_app. unfold ztake, zlen. by rewrite Nat2Z.id, take_ge.
Qed.

Lemma filled_reported lens s s' more : heap_with lens s -> filled s s' more -> status s' = AIVM_VM_STATUS_ERROR -> reported s'.
Proof. intros Hh F E. split; [|done]. by eapply heap_with_full, filled_heap. Qed.

(** A copy of bytes that can be read; the arena does not move. *)
Lemma copy_bytes_yields lens s p c : heap_with lens s -> (0 < zlen c -> p <> BNull /\ read_bytes s p (zlen c) = Some c) ->
  yields (fun q => VBytes q (zlen c)) s (copy_bytes_to_arena p (zlen c) s) (bytes_doc c).
Proof.
  intros Hh Hp. pose proof (zlen_nonneg c) as H0. unfold copy_bytes_to_arena. destruct (Z.eqb_spec (zlen c) 0) as [Ez|Ez].
  - assert (c = []) as -> by (destruct c; [done|rewrite zlen_cons in Ez; pose proof (zlen_nonneg c); lia]).
    pose proof (bytes_alloc_run lens 0 s Hh ltac:(lia)) as Ha. destruct (aivm_bytes_arena_alloc 0 s) as [q s'|s'|]; [| |done].
    + destruct Ha as (F & St & ->). by apply (block_yields lens).
    + destruct Ha. by apply (filled_reported lens s s' []).
  - destruct (Hp ltac:(lia)) as [Hn Hr]. rewrite bool_decide_eq_false_2 by done. unfold bind at 1, deref_bytes, bind at 1, get.
    rewrite (proj2 (Z.eqb_neq _ _) Ez), Hr. cbn [check]. unfold ret at 1, bind.
    pose proof (bytes_alloc_run lens (zlen c) s Hh ltac:(lia)) as Ha. destruct (aivm_bytes_arena_alloc (zlen c) s) as [q s1|s1|]; [| |done].
    + destruct Ha as (F & St & ->). replace (Z.to_nat (zlen c)) with (length c) in F by (unfold zlen; lia).
      destruct (write_bytes_run s s1 (zlen (ba_data (bytes_arena s))) [] c []) as (s2 & -> & F2 & St2);
        [by rewrite app_nil_r|by rewrite app_nil_r|]. cbn in F2. rewrite app_nil_r in F2. apply (block_yields lens); [done|done|congruence].
    + destruct Ha. by apply (filled_reported lens s s1 []).
Qed.

(** An empty block always fits. *)
Lemma copy_nothing lens s p : heap_with lens s -> exists q s', copy_bytes_to_arena p 0 s = Ok q s'.
Proof.
  intros [_ [_ B _ _]]. unfold copy_bytes_to_arena, aivm_bytes_arena_alloc, bind, get, ret. cbn [Z.eqb].
  rewrite (proj2 (size_add_checked_Some _ 0 (zlen (ba_data (bytes_arena s)) + 0))) by (split; [lia|done]).
  destruct (Z.ltb_spec (ba_limit (bytes_arena s)) (zlen (ba_data (bytes_arena s)) + 0)); [lia|]. by eexists _, _.
Qed.

End Host.
