(* ===== verification/TextSpec.v ===== *)
(** * The text and bytes instructions refine functions on documents

    Each handler of TextOps.v, run from a well-formed heap, replaces its operands by the
    value a function on their contents gives, whatever the arenas do on the way:
    grow, compact, or find the text already there. *)

From S2P Require Import Prelude Text Runes Types Program Vm Memory Lifecycle Stack Control ControlSafety Roots Pairs NumberText.
From S2P Require Import NodeGc NodeMark NodeMove NodeCompact Moves.
From S2P Require Import Strings StringText StringIndex StringGc StringCompact StringCopy Bytes BytesGc NodeCreate NodeTrees NodeRoom NodeBuild Collector.
From S2P Require Import TextOps Operands BytesCopy.
Import Utf8 Base64.

(** ** The specification: functions on contents

    Operands and results are values whose text is an [SExt] and whose bytes are a
    [BExt]: what [resolve_value] makes of a value of the VM. *)

Definition text_of (v : AivmValue) : option (list Z) := match v with VString (SExt c) => Some c | _ => None end.
Definition data_of (v : AivmValue) : option (list Z) :=
  match v with VBytes (BExt c) _ => Some c | VBytes BNull _ => Some [] | _ => None end.
Definition int_of (v : AivmValue) : option Z := match v with VInt i => Some i | _ => None end.

Definition text_value (c : list Z) : AivmValue := VString (SExt c).
Definition data_value (c : list Z) : AivmValue := VBytes (BExt c) (zlen c).

(** What TO_STRING shows. *)
Definition shown (v : AivmValue) : option (list Z) :=
  match v with
  | VString _ => text_of v
  | VBool b => Some (bytes_of_string (if b then "true" else "false"))
  | VVoid | VNull => Some (bytes_of_string "null")
  | VInt i => Some (int_text i)
  | VNumber d => Some (number_text d)
  | VBytes _ _ => hex_text <$> data_of v
  | _ => None
  end.

(** The scalar with a code point, as text; none for a surrogate. *)
Definition codepoint_text (cp : Z) : list Z := cstr (codepoint_utf8 cp).

(** The byte at an index, -1 outside. *)
Definition byte_or_minus_one (d : list Z) (i : Z) : Z := if (0 <=? i) && (i <? zlen d) then default (-1) (zget d i) else -1.

(** The bytes from [start] on, at most [count] of them; both may be out of range. *)
Definition data_slice (d : list Z) (start count : Z) : list Z := ztake (Z.max 0 count) (zdrop (Z.max 0 start) d).

(** An integer in a range as [count] bytes. *)
Definition int_data (low high : Z) (count : nat) (i : Z) : option AivmValue :=
  if (low <=? i) && (i <=? high) then Some (data_value (int_le count (u64 i))) else None.

(** Operands in the order they were pushed. *)
Definition text_result (op : AivmOpcode) (args : list AivmValue) : option AivmValue :=
  match op, args with
  | AIVM_OP_STR_CONCAT, [a; b] => a ← text_of a; b ← text_of b; Some (text_value (a ++ b))
  | AIVM_OP_TO_STRING, [v] => text_value <$> shown v
  | AIVM_OP_STR_ESCAPE, [a] => (fun a => text_value (escape_text a)) <$> text_of a
  | AIVM_OP_STR_FROM_CODEPOINT, [i] => (fun i => text_value (if i <? 0 then [] else codepoint_text (u32 i))) <$> int_of i
  | AIVM_OP_STR_DECODE_UNICODE_HEX4, [a] =>
      (fun a => text_value (match aivm_hex4_to_u32 a with Some cp => codepoint_text cp | None => [] end)) <$> text_of a
  | AIVM_OP_STR_DECODE_UNICODE_SURROGATE_PAIR_HEX4, [a; b] =>
      a ← text_of a; b ← text_of b;
      Some (text_value (match surrogate_pair a b with Some cp => codepoint_text cp | None => [] end))
  | AIVM_OP_STR_UTF8_BYTE_COUNT, [a] => (fun a => VInt (zlen a)) <$> text_of a
  | AIVM_OP_STR_SCALAR_LENGTH, [a] => (fun a => VInt (scalar_length a)) <$> text_of a
  | AIVM_OP_BYTES_LENGTH, [d] => (fun d => VInt (i64_of_u64 (u64 (zlen d)))) <$> data_of d
  | AIVM_OP_BYTES_AT, [d; i] => d ← data_of d; i ← int_of i; Some (VInt (byte_or_minus_one d i))
  | AIVM_OP_BYTES_SLICE, [d; i; n] => d ← data_of d; i ← int_of i; n ← int_of n; Some (data_value (data_slice d i n))
  | AIVM_OP_BYTES_CONCAT, [d; e] => d ← data_of d; e ← data_of e; Some (data_value (d ++ e))
  | AIVM_OP_BYTES_FROM_UTF8_STRING, [a] => data_value <$> text_of a
  | AIVM_OP_BYTES_TO_UTF8_STRING, [d] => (fun d => text_value (if aivm_bytes_is_valid_utf8_without_nul d then d else [])) <$> data_of d
  | AIVM_OP_BYTES_FROM_BASE64, [a] => 
      a ← text_of a; '(_, n) ← aivm_bytes_from_base64 a None; '(d, _) ← aivm_bytes_from_base64 a (Some n); Some (data_value d)
  | AIVM_OP_BYTES_TO_BASE64, [d] => d ← data_of d; a ← aivm_bytes_to_base64 d (base64_length (zlen d) + 1); Some (text_value a)
  | AIVM_OP_BYTES_FROM_BYTE, [i] => i ← int_of i; int_data 0 255 1 i
  | AIVM_OP_BYTES_U32_LE, [i] => i ← int_of i; int_data 0 4294967295 4 i
  | AIVM_OP_BYTES_I64_LE, [i] => i ← int_of i; int_data INT64_MIN INT64_MAX 8 i
  | AIVM_OP_VALUE_KIND, [v] => (fun name => text_value (bytes_of_string name)) <$> value_kind_name v
  | _, _ => None
  end.

(** How many operands; none for the opcodes of other groups and for the three
    instructions that count in runes, which depend on the traversal cache. *)
Definition text_arity (op : AivmOpcode) : option nat :=
  match op with
  | AIVM_OP_TO_STRING | AIVM_OP_STR_ESCAPE | AIVM_OP_STR_FROM_CODEPOINT | AIVM_OP_STR_DECODE_UNICODE_HEX4
  | AIVM_OP_STR_UTF8_BYTE_COUNT | AIVM_OP_STR_SCALAR_LENGTH | AIVM_OP_BYTES_LENGTH | AIVM_OP_BYTES_FROM_UTF8_STRING
  | AIVM_OP_BYTES_TO_UTF8_STRING | AIVM_OP_BYTES_FROM_BASE64 | AIVM_OP_BYTES_TO_BASE64 | AIVM_OP_BYTES_FROM_BYTE
  | AIVM_OP_BYTES_U32_LE | AIVM_OP_BYTES_I64_LE | AIVM_OP_VALUE_KIND => Some 1%nat
  | AIVM_OP_STR_CONCAT | AIVM_OP_STR_DECODE_UNICODE_SURROGATE_PAIR_HEX4 | AIVM_OP_BYTES_AT | AIVM_OP_BYTES_CONCAT => Some 2%nat
  | AIVM_OP_BYTES_SLICE => Some 3%nat
  | _ => None
  end.

(** A value the C code can read: its pointer is not NULL (an empty view may be), the
    text or the view is inside its object, and an object has less than 2^64 bytes, each
    of 8 bits. *)
Definition legible (s : AivmVm) (v : AivmValue) : Prop :=
  match v with
  | VString p => p <> SNull /\ exists c, read_str s p = Some c /\ zlen c < SIZE_MAX
  | VBytes p n => 0 <= n < SIZE_MAX /\ ((p = BNull /\ n = 0) \/ exists c, read_bytes s p n = Some c /\ Forall is_byte c)
  | VInt i => int64_ok i = true
  | _ => True
  end.

(** The outcome agrees with the specification: the expected result, or a reported
    failure; an error is certain where the specification has no result. *)
Definition agrees (k : nat) (s : AivmVm) (r : res unit) (expected : option AivmValue) : Prop :=
  match expected with
  | Some v => outcome_of k s r (fun _ => TLeaf v)
  | None => exists s', r = Err s' /\ reported s'
  end.

Section Host.

Context `{Host} `{Addresses}.

(** ** Results in the string arena *)

(** A block of the string arena and a text written to it. *)
Lemma string_alloc_run s size : heap_ok s -> 0 <= size ->
  match aivm_string_arena_alloc size s with
  | Ok p s1 => exists gen off, p = SArena gen off /\ texts_view s1 = (strings s1, program s, bytes_arena s) /\
      forall content, nul_free content -> size = zlen content + 1 ->
        exists s2, write_text off (content ++ [0]) s1 = Ok tt s2 /\ kept s s2 /\ status s2 = status s /\ str_valid s2 p /\ read_str s2 p = Some content
  | Err s' => StringCopy.failed s s'
  | Undef => False
  end.
Proof.
  intros Hh Hsz. pose proof (string_room_run size s Hh) as Hr. unfold aivm_string_arena_alloc, bind at 1.
  destruct (string_room size s) as [n s0|s0|]; [|done|done]. destruct Hr as (K & St & -> & Hfit & _). unfold bind, get, put_strings, modify, ret.
  set (text := sa_text (strings s0)) in *. eexists _, _. split; [reflexivity|]. destruct (kp_rest _ _ K) as (Ep & Eb & _).
  split; [unfold texts_view; cbn; by rewrite Ep, Eb|]. intros content Hc ->. set (s1 := set_strings _ s0).
  pose proof (kp_heap _ _ K) as Hh0. destruct (hp_strings _ Hh0) as [(texts & Hf & Ht) Hu Hl Hi]. fold text in Ht, Hu.
  assert (Ht1 : sa_text (strings s1) = text ++ replicate (length (content ++ [0])) 0).
  { cbn. fold text. f_equal. f_equal. rewrite length_app. cbn [length]. unfold zlen. lia. }
  destruct (write_text_run s1 text (content ++ [0]) Ht1) as (s2 & E2 & Es2). exists s2. split; [done|].
  assert (Hat : text_at (sa_text (strings s2)) (zlen text) content).
  { rewrite Es2. cbn. replace (content ++ [0]) with (flat [content]) by (cbn; by rewrite app_nil_r). rewrite Ht. by apply text_at_last. }
  assert (G : grown s0 s2).
  { rewrite Es2. split; try done; cbn.
    - exists [content]. split; [by repeat constructor|]. cbn. by rewrite app_nil_r.
    - split; cbn; [|rewrite !zlen_app; change (zlen [0]) with 1; lia|lia|].
      + exists (texts ++ [content]). split; [apply Forall_app; by repeat constructor|]. rewrite flat_app, Ht. cbn. by rewrite app_nil_r.
      + destruct Hi as [I1 I2]. split; [done|]. cbn. intros Hcm. eapply Forall_impl; [exact (I2 Hcm)|]. intros e He. by apply entry_ok_app. }
  split_and!; [eapply kept_trans; [exact K|by apply grown_kept]|by rewrite Es2| |].
  - split; [by rewrite Es2|by eexists].
  - cbn. rewrite Es2. cbn. rewrite Z.eqb_refl. rewrite Es2 in Hat. by apply text_at_reads.
Qed.

Lemma put_text_yields lens s content : heap_with lens s -> nul_free content ->
  yields VString s (put_text (zlen content + 1) content s) (text_doc content).
Proof.
  intros Hh Hc. pose proof (zlen_nonneg content). pose proof (string_alloc_run s (zlen content + 1) (proj1 Hh) ltac:(lia)) as Ha.
  unfold put_text, bind at 1. destruct (aivm_string_arena_alloc _ s) as [p s1|s1|]; [| |done].
  - destruct Ha as (gen & off & -> & _ & Hw). destruct (Hw content Hc eq_refl) as (s2 & E & K & St & V & R). unfold bind. rewrite E.
    by apply (copy_yields lens).
  - destruct Ha. by apply (kept_reported lens s).
Qed.

(** A text that can be read and is copied to the arena, or found there. *)
Lemma copy_ptr_yields lens s p c : heap_with lens s -> str_valid s p -> p <> SNull -> read_str s p = Some c -> zlen c < SIZE_MAX ->
  yields VString s (aivm_vm_copy_string_to_arena p s) (text_doc c).
Proof.
  intros Hh V N R Hz. pose proof (copy_string_run s p c (proj1 Hh) V N R) as Hc. destruct (aivm_vm_copy_string_to_arena p s) as [q s'|s'|]; [| |done].
  - destruct Hc as (K & St & V' & R'). by apply (copy_yields lens).
  - destruct Hc as [K [E|E]]; [|lia]. by apply (kept_reported lens s).
Qed.

Lemma copy_text_yields lens s c : heap_with lens s -> nul_free c -> zlen c < SIZE_MAX ->
  yields VString s (aivm_vm_copy_string_to_arena (SExt c) s) (text_doc c).
Proof. intros. by apply (copy_ptr_yields lens). Qed.

(** ** From operations to instructions *)

Lemma yields_trans {A} (f : A -> AivmValue) s s2 r doc : preserved s s2 -> status s2 = status s -> yields f s2 r doc -> yields f s r doc.
Proof.
  intros P St. destruct r as [a s3|s3|]; [|done|done]. intros (Hu & P2 & St2 & D). split_and!; [done|by eapply preserved_trans|congruence|done].
Qed.

Lemma pop_run s v rest : stack s = v :: rest -> aivm_stack_pop s = Ok v (set_stack rest s).
Proof. intros E. unfold aivm_stack_pop, bind, get. by rewrite E. Qed.

Lemma pop_operands_run s a b rest : stack s = b :: a :: rest -> pop_operands s = Ok (a, b) (set_stack rest s).
Proof. intros E. unfold pop_operands, bind at 1. rewrite (pop_run s b (a :: rest) E). unfold bind. by rewrite (pop_run _ a rest). Qed.

Lemma bind_assoc {A B C} (m : M A) (f : A -> M B) (g : B -> M C) s : bind (bind m f) g s = bind m (fun a => bind (f a) g) s.
Proof. unfold bind. by destruct (m s). Qed.

Lemma bind_ext {A B} (m : M A) (f g : A -> M B) s : (forall a s, f a s = g a s) -> bind m f s = bind m g s.
Proof. intros E. unfold bind. destruct (m s); [apply E|done|done]. Qed.

Section Instruction.

Context (lens : list Z) (s : AivmVm) (ops rest : list AivmValue).
Context (Hready : ready lens s) (Hstack : stack s = ops ++ rest) (Hops : (0 < length ops)%nat).
Local Abbreviation s1 := (set_stack rest s).

Lemma dropped : heap_with lens s1 /\ Forall (usable lens s1) ops.
Proof. destruct (ready_drop lens s ops rest Hready Hstack) as [[Hh _] Hu]. done. Qed.

(** A result that is neither text, bytes, node nor pair. *)
Lemma push_plain v : match v with VString _ | VBytes _ _ | VNode _ | VPair _ => false | _ => true end = true ->
  outcome_of (length ops) s (op_push v s1) (fun _ => TLeaf v).
Proof.
  intros Hv. pose proof (proj1 dropped) as Hh.
  apply (produce (fun _ : unit => v) (ret tt) (fun _ => TLeaf v) lens s ops rest Hready Hstack Hops). split_and!; [|by eapply preserved_same|done|].
  - exists lens. split; [done|]. by apply usable_leaf; destruct v.
  - intros d. by apply leaf_document.
Qed.

Lemma push_copied p doc : yields VString s1 (aivm_vm_copy_string_to_arena p s1) doc ->
  outcome_of (length ops) s ((do! push_string_copy p in Control.advance) s1) doc.
Proof. intros Hy. unfold push_string_copy. rewrite bind_assoc. by apply (produce VString _ doc lens s ops rest Hready Hstack Hops). Qed.

(** A constant text, or one computed from scalars. *)
Lemma push_text c : nul_free c -> zlen c < SIZE_MAX -> outcome_of (length ops) s ((do! push_string_copy (SExt c) in Control.advance) s1) (text_doc c).
Proof. intros Hn Hz. apply push_copied. apply (copy_text_yields lens); [apply dropped|done|done]. Qed.

Lemma push_fresh c : nul_free c -> outcome_of (length ops) s ((do! push_written (zlen c + 1) c in Control.advance) s1) (text_doc c).
Proof.
  intros Hn. unfold push_written. rewrite bind_assoc. apply (produce VString (put_text (zlen c + 1) c) (text_doc c) lens s ops rest Hready Hstack Hops).
  apply (put_text_yields lens); [apply dropped|done].
Qed.

Lemma push_bytes p c : (0 < zlen c -> p <> BNull /\ read_bytes s1 p (zlen c) = Some c) ->
  outcome_of (length ops) s ((do! push_bytes_copy p (zlen c) in Control.advance) s1) (bytes_doc c).
Proof.
  intros Hp. pose proof (proj1 dropped) as Hh. unfold push_bytes_copy. rewrite bind_assoc.
  pose proof (copy_bytes_yields lens s1 p c Hh Hp) as Hy.
  assert (Hy' : yields (fun q => VBytes q (zlen c)) s1 (or_else (copy_bytes_to_arena p (zlen c)) (if 0 <? zlen c then fail else ret BNull) s1) (bytes_doc c)).
  { unfold or_else. destruct (copy_bytes_to_arena p (zlen c) s1) as [q s2|s2|] eqn:E; [done| |done].
    destruct (Z.ltb_spec 0 (zlen c)); [done|]. pose proof (zlen_nonneg c). replace (zlen c) with 0 in E by lia.
    destruct (copy_nothing lens s1 p Hh) as (q & s3 & E'). congruence. }
  exact (produce (fun q => VBytes q (zlen c)) _ (bytes_doc c) lens s ops rest Hready Hstack Hops Hy').
Qed.

Lemma mismatch_reported {A} message : exists s', @mismatch A message s1 = Err s' /\ reported s'.
Proof. eexists. split; [reflexivity|]. apply (throw_reported lens). apply dropped. Qed.

End Instruction.

Lemma read_block_all c : read_block c 0 (zlen c) = Some c.
Proof.
  unfold read_block, Program.slice. pose proof (zlen_nonneg c). replace (_ && _) with true by lia. unfold ztake, zdrop, zlen. rewrite Nat2Z.id.
  change (drop (Z.to_nat 0) c) with c. by rewrite take_ge.
Qed.

Lemma valid_free c : Forall is_byte c -> aivm_bytes_is_valid_utf8_without_nul c = true -> nul_free c.
Proof.
  intros Hb Hv. destruct (valid_loop_decode (length c) c Hb Hv) as (cps & Hc & ->). apply Forall_flat_map.
  eapply Forall_impl; [exact Hc|]. intros cp [Hs Hz]. rewrite codepoint_utf8_arith by done. destruct Hs.
  bdestruct_all; repeat constructor; mlia.
Qed.

Lemma base64_free c : forall oi cap text, encode_loop c oi cap = Some text -> nul_free text.
Proof.
  assert (Hch : forall l, nul_free (encode_chunk l)).
  { assert (Hd : forall n, digit n <> 0).
    { intros n. pose proof digit_table as Ht. rewrite forallb_forall in Ht. specialize (Ht (Z.land n 63)).
      assert (Hb : 0 <= Z.land n 63 < 64) by (change 63 with (Z.ones 6); rewrite Z.land_ones by lia; apply Z.mod_pos_bound; lia).
      specialize (Ht ltac:(apply list_elem_of_In, elem_of_seqZ; lia)). apply andb_true_iff in Ht as [Ht _]. apply andb_true_iff in Ht as [_ Ht].
      apply Z.ltb_lt in Ht. intros E. unfold digit in *. rewrite <- Z.land_assoc, Z.land_diag in Ht. lia. }
    intros l. unfold encode_chunk. repeat case_match; repeat constructor; try done; apply Hd. }
  assert (Hlast : forall l oi cap text, (if cap <=? oi + 4 then None else Some (encode_chunk l ++ [])) = Some text -> nul_free text).
  { intros l oi cap text. destruct (_ <=? _); [done|]. intros E%Some_inj. subst text. rewrite app_nil_r. apply Hch. }
  induction c as [|b0|b0 b1|b0 b1 b2 rest IH] using list_ind3; intros oi cap text.
  - intros [= <-]. constructor.
  - exact (Hlast [b0] oi cap text).
  - exact (Hlast [b0; b1] oi cap text).
  - change (encode_loop (b0 :: b1 :: b2 :: rest) oi cap) with
      (if cap <=? oi + 4 then None else match encode_loop rest (oi + 4) cap with None => None | Some out => Some (encode_chunk [b0; b1; b2] ++ out) end).
    destruct (_ <=? _); [done|]. destruct (encode_loop rest _ _) as [out|] eqn:E; [|done]. intros E'%Some_inj. subst text.
    apply Forall_app. split; [apply Hch|by eapply IH].
Qed.

(** The encoder fills the buffer BYTES_TO_BASE64 allocates. *)
Lemma base64_writes c : Forall is_byte c ->
  exists text, aivm_bytes_to_base64 c (base64_length (zlen c) + 1) = Some text /\ zlen text = base64_length (zlen c) /\ nul_free text.
Proof.
  intros Hb. unfold aivm_bytes_to_base64. pose proof (zlen_nonneg c).
  assert (Hp : 0 <= base64_length (zlen c)) by (unfold base64_length; mlia). destruct (Z.eqb_spec (base64_length (zlen c) + 1) 0); [lia|].
  destruct (Z.eqb_spec (zlen c) 0) as [Ez|Ez].
  - exists []. rewrite Ez. split; [done|]. split; [done|constructor].
  - destruct (encode_loop_decodes c Hb 0 (base64_length (zlen c) + 1) ltac:(lia)) as (text & E & Hl & _). exists text. split; [done|]. split; [done|].
    by eapply base64_free.
Qed.

(** ** Operands *)

Lemma legible_text s v c : legible s v -> text_of (resolve_value s v) = Some c ->
  exists p, v = VString p /\ p <> SNull /\ read_str s p = Some c /\ zlen c < SIZE_MAX.
Proof.
  destruct v; try done. cbn. intros [Hn (c0 & E & Hz)]. unfold resolve_str. rewrite E. intros [= <-]. by exists p.
Qed.

Lemma legible_data s v c : legible s v -> data_of (resolve_value s v) = Some c ->
  exists p, v = VBytes p (zlen c) /\ zlen c < SIZE_MAX /\ (0 < zlen c -> p <> BNull /\ read_bytes s p (zlen c) = Some c) /\ (p = BNull -> c = []) /\ Forall is_byte c.
Proof.
  destruct v; try done. cbn. unfold resolve_bytes. intros [Hb [[-> ->]|(c0 & E & Hby)]].
  - cbn. intros [= <-]. exists BNull. split; [done|]. split; [done|]. split; [|done]. change (zlen []) with 0. lia.
  - rewrite E. intros [= <-].
    assert (Hz : zlen c0 = length).
    { assert (Hrb : forall b o, read_block b o length = Some c0 -> zlen c0 = length) by (intros b o Hr; by apply read_block_split in Hr as (? & ? & _ & _ & ->)).
      destruct p; cbn in E; [done| | |]; repeat case_match; try done; by eapply Hrb. }
    rewrite Hz. exists p. split; [done|]. split; [lia|]. split; [by destruct p|]. split; [by intros ->|done].
Qed.

Lemma legible_int s v i : legible s v -> int_of (resolve_value s v) = Some i -> v = VInt i /\ int64_ok i = true.
Proof. destruct v; try done. cbn. intros Hi [= <-]. done. Qed.

(** Operands of another kind. *)
Lemma no_text s v : legible s v -> text_of (resolve_value s v) = None -> match v with VString _ => False | _ => True end.
Proof. destruct v; try done. cbn. intros [_ (c & E & _)]. unfold resolve_str. by rewrite E. Qed.

Lemma no_data s v : legible s v -> data_of (resolve_value s v) = None -> match v with VBytes _ _ => False | _ => True end.
Proof. destruct v; try done. cbn. unfold resolve_bytes. intros [_ [[-> ->]|(c & E & _)]]; [done|by rewrite E]. Qed.

Lemma no_int s v : int_of (resolve_value s v) = None -> match v with VInt _ => False | _ => True end.
Proof. by destruct v. Qed.

(** Operands that are usable and legible can be read without an error. *)
Lemma operand_text lens s p : usable lens s (VString p) -> str_valid s p.
Proof. intros Hu. exact (usable_valid _ _ _ Hu). Qed.

Lemma operand_free lens s p c : usable lens s (VString p) -> read_str s p = Some c -> nul_free c.
Proof.
  intros Hu Hr. pose proof (operand_text _ _ _ Hu) as Hv. destruct (decide (p = SNull)) as [->|Hn]; [done|].
  destruct (valid_reads s p Hv Hn) as (c0 & E & Hc). by assert (c0 = c) as -> by congruence.
Qed.

(** ** Each instruction *)

Lemma str_concat_agrees lens s a b rest : ready lens s -> stack s = b :: a :: rest -> legible s a -> legible s b ->
  agrees 2 s (op_str_concat s) (text_result AIVM_OP_STR_CONCAT [resolve_value s a; resolve_value s b]).
Proof.
  intros Hr Hs La Lb. pose proof (dropped lens s [b; a] rest Hr Hs) as [Hh Hu]. apply Forall_cons in Hu as [Ub Ua]. apply Forall_cons in Ua as [Ua _].
  unfold op_str_concat, bind at 1. rewrite (pop_operands_run _ _ _ _ Hs). cbn [text_result].
  destruct (text_of (resolve_value s a)) as [ca|] eqn:Ea; cbn [mbind option_bind].
  2: { pose proof (no_text s a La Ea). destruct a; try done; apply (mismatch_reported lens s [b; _] rest Hr Hs). }
  destruct (text_of (resolve_value s b)) as [cb|] eqn:Eb; cbn [mbind option_bind].
  2: { pose proof (no_text s b Lb Eb). destruct a; try (apply (mismatch_reported lens s [b; _] rest Hr Hs)). destruct b; try done; apply (mismatch_reported lens s [_; _] rest Hr Hs). }
  destruct (legible_text s a ca La Ea) as (p & -> & Np & Rp & Zp). destruct (legible_text s b cb Lb Eb) as (q & -> & Nq & Rq & Zq).
  rewrite !bool_decide_eq_false_2 by done. cbn [orb]. set (s1 := set_stack rest s) in *.
  assert (Hw : forall r c msg, read_str s1 r = Some c -> zlen c < SIZE_MAX -> text_within r SIZE_MAX msg s1 = Ok c s1).
  { intros r c msg Hc Hz. unfold text_within, bind, deref_str, bind, get. rewrite Hc. cbn [check ret]. destruct (Z.ltb_spec SIZE_MAX (zlen c)); [lia|done]. }
  unfold bind at 1. rewrite (Hw p ca) by done. unfold bind at 1. rewrite (Hw q cb) by done.
  destruct (aivm_size_add_checked (zlen ca) (zlen cb)) as [total|]; [|by apply (throw_reported lens)].
  match goal with |- agrees _ _ (bind ?m _ _) _ => apply (produce VString m (text_doc (ca ++ cb)) lens s [VString q; VString p] rest Hr Hs) end; [cbn; lia|].
  change (set_stack rest s) with s1. unfold or_else. pose proof (copy_splice_run s1 p (zlen ca) ca q (zlen cb) cb (proj1 Hh) Np Nq (read_str_range _ _ _ Rp) (read_str_range _ _ _ Rq)) as Hc.
  destruct (aivm_vm_copy_string_splice_to_arena _ _ _ _ s1) as [o s2|s2|]; [| |done].
  - destruct Hc as (K & St & V & R). rewrite cstr_idem in R by (apply Forall_app; split; [exact (operand_free _ _ _ _ Ua Rp)|exact (operand_free _ _ _ _ Ub Rq)]).
    by apply (copy_yields lens).
  - unfold throw_unless_error. destruct (kept_with lens s1 s2 Hh Hc) as [Hh2 _]. case_bool_decide; [|by apply (throw_reported lens)].
    split; [by eapply heap_with_full|done].
Qed.

(** One string operand. *)
Lemma pop_string_run lens s a rest message : ready lens s -> stack s = a :: rest -> legible s a ->
  match text_of (resolve_value s a) with
  | Some c => exists p, pop_string message s = Ok p (set_stack rest s) /\ p <> SNull /\ read_str (set_stack rest s) p = Some c /\
      zlen c < SIZE_MAX /\ str_valid (set_stack rest s) p /\ nul_free c
  | None => exists s', pop_string message s = Err s' /\ reported s'
  end.
Proof.
  intros Hr Hs La. pose proof (dropped lens s [a] rest Hr Hs) as [Hh Hu]. apply Forall_cons in Hu as [Ua _].
  unfold pop_string, bind. rewrite (pop_run _ _ _ Hs). destruct (text_of (resolve_value s a)) as [c|] eqn:Ea.
  - destruct (legible_text s a c La Ea) as (p & -> & Np & Rp & Zp). rewrite bool_decide_eq_false_2 by done. exists p. split_and!; try done.
    + by eapply operand_text.
    + exact (operand_free _ _ _ _ Ua Rp).
  - pose proof (no_text s a La Ea). destruct a; try done; apply (mismatch_reported lens s [_] rest Hr Hs).
Qed.

Ltac one_string Hr Hs La :=
  match goal with |- context [bind (pop_string ?m) _ ?s] =>
    pose proof (pop_string_run _ _ _ _ m Hr Hs La) as Hpop; unfold bind at 1; cbn [text_result];
    destruct (text_of (resolve_value _ _)) as [c|]; cbn [fmap option_fmap option_map mbind option_bind];
    [destruct Hpop as (p & -> & Np & Rp & Zp & Vp & Fp)|destruct Hpop as (s' & -> & Hrep); by exists s']
  end.

Lemma deref_run s p c : read_str s p = Some c -> deref_str p s = Ok c s.
Proof. intros E. unfold deref_str, bind, get. by rewrite E. Qed.

Lemma escape_free c : nul_free c -> nul_free (escape_text c).
Proof.
  induction 1 as [|b c Hb _ IH]; [constructor|]. unfold escape_text. cbn [flat_map]. apply Forall_app. split; [|exact IH].
  unfold escape_char. bdestruct_all; repeat constructor; lia.
Qed.

Lemma escaped_zlen c : escaped_length c = zlen (escape_text c).
Proof.
  induction c as [|b c IH]; [done|]. cbn [escaped_length fold_right escape_text flat_map]. rewrite zlen_app.
  fold (escaped_length c) (escape_text c). rewrite IH. f_equal. unfold escape_char. bdestruct_all; done.
Qed.

Lemma str_escape_agrees lens s a rest : ready lens s -> stack s = a :: rest -> legible s a -> zlen (escape_text (default [] (text_of (resolve_value s a)))) < SIZE_MAX ->
  agrees 1 s (op_str_escape s) (text_result AIVM_OP_STR_ESCAPE [resolve_value s a]).
Proof.
  intros Hr Hs La Hz. pose proof (dropped lens s [a] rest Hr Hs) as [Hh _]. unfold op_str_escape. one_string Hr Hs La. cbn [default from_option id] in Hz.
  unfold push_escaped_string. rewrite bind_assoc. unfold bind at 1. rewrite (deref_run _ _ _ Rp), escaped_zlen.
  rewrite (proj2 (size_add_checked_Some _ 1 (zlen (escape_text c) + 1))) by (split; [lia|done]).
  rewrite bind_assoc. unfold push_written.
  rewrite (bind_ext _ _ (fun src => bind (put_text (zlen (escape_text c) + 1) (escape_text src)) (fun o => op_push (VString o)))) by (intros; apply bind_assoc).
  rewrite <- bind_assoc. apply (produce VString _ (text_doc (escape_text c)) lens s [a] rest Hr Hs); [cbn; lia|]. unfold bind, or_else.
  pose proof (snapshot_run (set_stack rest s) p (zlen c) c (proj1 Hh) (read_str_range _ _ _ Rp)) as Hsn.
  destruct (aivm_vm_snapshot_arena_backed_string p (zlen c) (set_stack rest s)) as [c' s2|s2|]; [| |done].
  - destruct Hsn as (-> & G & St & _). destruct (kept_with lens _ s2 Hh (grown_kept _ _ (proj1 Hh) G)) as [Hh2 P2].
    apply (yields_trans VString _ s2); [done|done|]. apply (put_text_yields lens); [done|by apply escape_free].
  - destruct (kept_with lens _ s2 Hh Hsn) as [Hh2 _]. by apply (throw_reported lens).
Qed.

Lemma codepoint_short cp : zlen (codepoint_text cp) < SIZE_MAX /\ nul_free (codepoint_text cp).
Proof.
  split; [|apply cstr_nul_free]. unfold codepoint_text. destruct (cstr_prefix (codepoint_utf8 cp)) as [r E].
  assert (Hl : zlen (codepoint_utf8 cp) <= 4) by (unfold codepoint_utf8, zlen; bdestruct_all; cbn [length]; lia).
  rewrite E, zlen_app in Hl. pose proof (zlen_nonneg r). unfold SIZE_MAX. lia.
Qed.

Lemma push_codepoint lens s ops rest cp : ready lens s -> stack s = ops ++ rest -> (0 < length ops)%nat ->
  outcome_of (length ops) s ((do! push_string_from_codepoint cp in Control.advance) (set_stack rest s)) (text_doc (codepoint_text cp)).
Proof. intros Hr Hs Hk. destruct (codepoint_short cp). by apply (push_text lens). Qed.

Lemma push_empty lens s ops rest : ready lens s -> stack s = ops ++ rest -> (0 < length ops)%nat ->
  outcome_of (length ops) s ((do! push_string_copy (SExt []) in Control.advance) (set_stack rest s)) (text_doc []).
Proof. intros Hr Hs Hk. apply (push_text lens); [done|done|done|constructor|done]. Qed.

Lemma from_codepoint_agrees lens s a rest : ready lens s -> stack s = a :: rest -> legible s a ->
  agrees 1 s (op_str_from_codepoint s) (text_result AIVM_OP_STR_FROM_CODEPOINT [resolve_value s a]).
Proof.
  intros Hr Hs La. unfold op_str_from_codepoint, bind at 1. rewrite (pop_run _ _ _ Hs). cbn [text_result].
  destruct (int_of (resolve_value s a)) as [i|] eqn:Ei; cbn [fmap option_fmap option_map].
  - destruct (legible_int s a i La Ei) as [-> _]. destruct (i <? 0); [apply (push_empty lens s [VInt i] rest Hr Hs)|apply (push_codepoint lens s [VInt i] rest _ Hr Hs)]; cbn; lia.
  - pose proof (no_int s a Ei). destruct a; try done; apply (mismatch_reported lens s [_] rest Hr Hs).
Qed.

Lemma decode_hex4_agrees lens s a rest : ready lens s -> stack s = a :: rest -> legible s a ->
  agrees 1 s (op_str_decode_unicode_hex4 s) (text_result AIVM_OP_STR_DECODE_UNICODE_HEX4 [resolve_value s a]).
Proof.
  intros Hr Hs La. unfold op_str_decode_unicode_hex4. one_string Hr Hs La. unfold bind at 1. rewrite (deref_run _ _ _ Rp).
  destruct (aivm_hex4_to_u32 c) as [cp|]; [apply (push_codepoint lens s [a] rest _ Hr Hs)|apply (push_empty lens s [a] rest Hr Hs)]; cbn; lia.
Qed.

Lemma byte_count_agrees lens s a rest : ready lens s -> stack s = a :: rest -> legible s a ->
  agrees 1 s (op_str_utf8_byte_count s) (text_result AIVM_OP_STR_UTF8_BYTE_COUNT [resolve_value s a]).
Proof.
  intros Hr Hs La. pose proof (dropped lens s [a] rest Hr Hs) as [Hh _]. unfold op_str_utf8_byte_count. one_string Hr Hs La.
  unfold bind at 1, text_within, bind at 1. rewrite (deref_run _ _ _ Rp). destruct (INT64_MAX <? zlen c); [by apply (throw_reported lens)|].
  cbn [ret]. apply (push_plain lens s [a] rest Hr Hs); [cbn; lia|done].
Qed.

Lemma scalar_length_agrees lens s a rest : ready lens s -> stack s = a :: rest -> legible s a ->
  agrees 1 s (op_str_scalar_length s) (text_result AIVM_OP_STR_SCALAR_LENGTH [resolve_value s a]).
Proof.
  intros Hr Hs La. pose proof (dropped lens s [a] rest Hr Hs) as [Hh _]. unfold op_str_scalar_length. one_string Hr Hs La.
  unfold bind at 1. rewrite (deref_run _ _ _ Rp). destruct (zlen c <=? INT64_MAX).
  - apply (push_plain lens s [a] rest Hr Hs); [cbn; lia|done].
  - destruct (INT64_MAX <? _); by apply (throw_reported lens).
Qed.

Lemma from_utf8_agrees lens s a rest : ready lens s -> stack s = a :: rest -> legible s a ->
  agrees 1 s (op_bytes_from_utf8_string s) (text_result AIVM_OP_BYTES_FROM_UTF8_STRING [resolve_value s a]).
Proof.
  intros Hr Hs La. unfold op_bytes_from_utf8_string. one_string Hr Hs La. unfold bind at 1. rewrite (deref_run _ _ _ Rp).
  apply (push_bytes lens s [a] rest Hr Hs); [cbn; lia|]. intros _. split; [done|]. cbn. by apply read_block_all.
Qed.

(** Two string operands. *)
Lemma surrogate_agrees lens s a b rest : ready lens s -> stack s = b :: a :: rest -> legible s a -> legible s b ->
  agrees 2 s (op_str_decode_surrogate_pair s) (text_result AIVM_OP_STR_DECODE_UNICODE_SURROGATE_PAIR_HEX4 [resolve_value s a; resolve_value s b]).
Proof.
  intros Hr Hs La Lb. unfold op_str_decode_surrogate_pair, bind at 1. rewrite (pop_operands_run _ _ _ _ Hs). cbn [text_result].
  destruct (text_of (resolve_value s a)) as [ca|] eqn:Ea; cbn [mbind option_bind].
  2: { pose proof (no_text s a La Ea). destruct a; try done; apply (mismatch_reported lens s [b; _] rest Hr Hs). }
  destruct (text_of (resolve_value s b)) as [cb|] eqn:Eb; cbn [mbind option_bind].
  2: { pose proof (no_text s b Lb Eb). destruct a; try (apply (mismatch_reported lens s [b; _] rest Hr Hs)). destruct b; try done; apply (mismatch_reported lens s [_; _] rest Hr Hs). }
  destruct (legible_text s a ca La Ea) as (p & -> & Np & Rp & Zp). destruct (legible_text s b cb Lb Eb) as (q & -> & Nq & Rq & Zq).
  rewrite !bool_decide_eq_false_2 by done. cbn [orb]. unfold bind at 1. rewrite (deref_run _ p ca) by done. unfold bind at 1. rewrite (deref_run _ q cb) by done.
  destruct (surrogate_pair ca cb) as [cp|]; [apply (push_codepoint lens s [VString q; VString p] rest _ Hr Hs)|apply (push_empty lens s [VString q; VString p] rest Hr Hs)]; cbn; lia.
Qed.

(** *** TO_STRING and VALUE_KIND *)

Lemma full_reported s e d : full_heap s -> reported (aivm_set_vm_error e d s).
Proof. intros [Hh [lens Hb]]. by apply (throw_reported lens). Qed.

(** An error that replaces another one. *)
Lemma or_mismatch k s (m : M unit) s1 message doc : outcome_of k s ((do! m in Control.advance) s1) doc ->
  outcome_of k s ((do! or_else m (mismatch message) in Control.advance) s1) doc.
Proof.
  unfold bind, or_else. destruct (m s1) as [u s2|s2|]; [done| |done]. intros [Hf _]. by apply full_reported.
Qed.

Lemma push_printable lens s ops rest n c : ready lens s -> stack s = ops ++ rest -> (0 < length ops)%nat -> printable n c -> Z.of_nat n < SIZE_MAX ->
  outcome_of (length ops) s ((do! push_string_copy (SExt c) in Control.advance) (set_stack rest s)) (text_doc c).
Proof. intros Hr Hs Hk [H1 H2] Hn. apply (push_text lens); try done. unfold zlen. lia. Qed.

Lemma hex_digit_free n : hex_digit n <> 0.
Proof.
  unfold hex_digit. assert (Ht : forallb (fun k => negb (nth (Z.to_nat k) (bytes_of_string "0123456789abcdef") 0 =? 0)) (seqZ 0 16) = true) by reflexivity.
  rewrite forallb_forall in Ht. specialize (Ht (Z.land n 15)).
  assert (Hb : 0 <= Z.land n 15 < 16) by (change 15 with (Z.ones 4); rewrite Z.land_ones by lia; apply Z.mod_pos_bound; lia).
  specialize (Ht ltac:(apply list_elem_of_In, elem_of_seqZ; lia)). apply negb_true_iff, Z.eqb_neq in Ht. done.
Qed.

Lemma hex_text_spec c : nul_free (hex_text c) /\ zlen (hex_text c) = 2 + (zlen c + zlen c).
Proof.
  unfold hex_text. split.
  - apply Forall_app. split; [by repeat constructor|]. apply Forall_flat_map, Forall_forall. intros b _. repeat constructor; apply hex_digit_free.
  - rewrite zlen_app. change (zlen (bytes_of_string "0x")) with 2. f_equal. induction c as [|b c IH]; [done|]. cbn [flat_map]. rewrite zlen_app, IH, !zlen_cons, zlen_nil. lia.
Qed.

Lemma deref_bytes_run s p c : (0 < zlen c -> p <> BNull /\ read_bytes s p (zlen c) = Some c) -> deref_bytes p (zlen c) s = Ok c s.
Proof.
  intros Hp. unfold deref_bytes, bind, get. destruct (Z.eqb_spec (zlen c) 0) as [E|E].
  - destruct c; [done|]. rewrite zlen_cons in E. pose proof (zlen_nonneg c). lia.
  - pose proof (zlen_nonneg c). destruct Hp as [_ ->]; [lia|done].
Qed.

Lemma null_test (c : list Z) p : (0 < zlen c -> p <> BNull /\ True) -> ((0 <? zlen c) && bool_decide (p = BNull)) = false.
Proof. intros Hp. destruct (Z.ltb_spec 0 (zlen c)); [|done]. rewrite bool_decide_eq_false_2; [done|]. by apply Hp. Qed.

Lemma show_bytes lens s p c rest : ready lens s -> stack s = VBytes p (zlen c) :: rest ->
  (0 < zlen c -> p <> BNull /\ read_bytes s p (zlen c) = Some c) ->
  outcome_of 1 s ((do! to_string_bytes p (zlen c) in Control.advance) (set_stack rest s)) (text_doc (hex_text c)).
Proof.
  intros Hr Hs Hp. pose proof (dropped lens s [VBytes p (zlen c)] rest Hr Hs) as [Hh _]. unfold to_string_bytes.
  rewrite null_test by (intros Hz; by destruct (Hp Hz)). cbv zeta. destruct (hex_text_spec c) as [Hf Hz].
  destruct (aivm_size_add_checked (zlen c) (zlen c)) as [body|] eqn:E1; [|by apply (throw_reported lens)]. apply size_add_checked_Some in E1 as [_ ->].
  destruct (aivm_size_add_checked 2 _) as [out|] eqn:E2; [|by apply (throw_reported lens)]. apply size_add_checked_Some in E2 as [_ ->].
  destruct (aivm_size_add_checked _ 1) as [need|] eqn:E3; [|by apply (throw_reported lens)]. apply size_add_checked_Some in E3 as [_ ->].
  rewrite bind_assoc. unfold bind at 1. rewrite (deref_bytes_run (set_stack rest s) p c Hp). rewrite <- Hz.
  apply (push_fresh lens s [VBytes p (zlen c)] rest Hr Hs); [cbn; lia|done].
Qed.

Lemma to_string_agrees lens s a rest : ready lens s -> stack s = a :: rest -> legible s a ->
  agrees 1 s (op_to_string s) (text_result AIVM_OP_TO_STRING [resolve_value s a]).
Proof.
  intros Hr Hs La. pose proof (dropped lens s [a] rest Hr Hs) as [Hh Hu]. apply Forall_cons in Hu as [Ua _].
  unfold op_to_string, bind at 1. rewrite (pop_run _ _ _ Hs). cbn [text_result].
  assert (Hbad : exists s', (do! @mismatch unit "TO_STRING unsupported value kind." in Control.advance) (set_stack rest s) = Err s' /\ reported s')
    by (eexists; split; [reflexivity|by apply (throw_reported lens)]).
  assert (Hshow : forall n c, printable n c -> Z.of_nat n < SIZE_MAX -> agrees 1 s ((do! push_string_copy (SExt c) in Control.advance) (set_stack rest s)) (Some (text_value c)))
    by (intros n c Hc Hn; apply (push_printable lens s [a] rest n c Hr Hs); [cbn; lia|done|done]).
  destruct a; cbn [resolve_value shown fmap option_fmap option_map]; try exact Hbad.
  - apply (Hshow 4%nat); [by split; [repeat constructor|cbn; lia]|done].
  - apply (Hshow 22%nat); [apply int_text_printable|done].
  - apply (Hshow 71%nat); [apply number_text_printable|done].
  - apply (Hshow 5%nat); [destruct b; (split; [by repeat constructor|cbn; lia])|done].
  - apply (Hshow 4%nat); [by split; [repeat constructor|cbn; lia]|done].
  - destruct La as [Np (c & Rp & Zp)]. unfold resolve_str. rewrite Rp. cbn [text_of]. rewrite bool_decide_eq_false_2 by done.
    apply or_mismatch. apply (push_copied lens s [VString p] rest Hr Hs); [cbn; lia|]. apply (copy_ptr_yields lens); try done. by eapply operand_text.
  - destruct (data_of (VBytes (resolve_bytes s p length) length)) as [c|] eqn:Ed.
    + destruct (legible_data s _ c La Ed) as (q & [= -> ->] & _ & Hq & _). by apply (show_bytes lens).
    + by pose proof (no_data s _ La Ed).
Qed.

Lemma value_kind_agrees lens s a rest : ready lens s -> stack s = a :: rest ->
  agrees 1 s (op_value_kind s) (text_result AIVM_OP_VALUE_KIND [resolve_value s a]).
Proof.
  intros Hr Hs. pose proof (dropped lens s [a] rest Hr Hs) as [Hh _]. unfold op_value_kind, bind at 1. rewrite (pop_run _ _ _ Hs). cbn [text_result].
  assert (E : value_kind_name (resolve_value s a) = value_kind_name a) by (by destruct a). rewrite E.
  destruct (value_kind_name a) as [name|] eqn:En; cbn [fmap option_fmap option_map].
  - apply (push_printable lens s [a] rest 20 _ Hr Hs); [cbn; lia| |done]. destruct a; try done; injection En as <-; (split; [by repeat constructor|cbn; lia]).
  - eexists. split; [reflexivity|]. by apply (throw_reported lens).
Qed.

(** *** Bytes *)

(** One bytes operand. *)
Lemma pop_data s a rest : stack s = a :: rest -> legible s a ->
  match data_of (resolve_value s a) with
  | Some c => exists p, a = VBytes p (zlen c) /\ zlen c < SIZE_MAX /\ (0 < zlen c -> p <> BNull /\ read_bytes s p (zlen c) = Some c) /\ (p = BNull -> c = []) /\ Forall is_byte c
  | None => match a with VBytes _ _ => False | _ => True end
  end.
Proof. intros Hs La. destruct (data_of _) as [c|] eqn:E; [by apply legible_data|by apply (no_data s)]. Qed.

Ltac one_data lens Hr Hs La :=
  pose proof (pop_data _ _ _ Hs La) as Hpop; unfold bind at 1; rewrite (pop_run _ _ _ Hs); cbn [text_result];
  match goal with |- context [data_of ?v] => destruct (data_of v) as [c|] end; cbn [fmap option_fmap option_map mbind option_bind];
  [destruct Hpop as (p & -> & Zp & Rp & Np & Bp)
  |match goal with a : AivmValue |- _ => destruct a; try done; apply (mismatch_reported lens _ [_] _ Hr Hs) end].

Lemma bytes_length_agrees lens s a rest : ready lens s -> stack s = a :: rest -> legible s a ->
  agrees 1 s (op_bytes_length s) (text_result AIVM_OP_BYTES_LENGTH [resolve_value s a]).
Proof.
  intros Hr Hs La. unfold op_bytes_length. one_data lens Hr Hs La. apply (push_plain lens s [_] rest Hr Hs); [cbn; lia|done].
Qed.

Lemma to_utf8_agrees lens s a rest : ready lens s -> stack s = a :: rest -> legible s a ->
  agrees 1 s (op_bytes_to_utf8_string s) (text_result AIVM_OP_BYTES_TO_UTF8_STRING [resolve_value s a]).
Proof.
  intros Hr Hs La. unfold op_bytes_to_utf8_string. one_data lens Hr Hs La. pose proof (zlen_nonneg c). destruct (Z.eqb_spec (zlen c) 0) as [Ez|Ez].
  { assert (c = []) as -> by (destruct c; [done|rewrite zlen_cons in Ez; pose proof (zlen_nonneg c); lia]).
    apply (push_empty lens s [_] rest Hr Hs). cbn; lia. }
  destruct (Rp ltac:(lia)) as [Np' Rd]. rewrite bool_decide_eq_false_2 by done. unfold bind at 1. rewrite (deref_bytes_run (set_stack rest s) p c Rp).
  destruct (aivm_bytes_is_valid_utf8_without_nul c) eqn:Ev; [|apply (push_empty lens s [_] rest Hr Hs); cbn; lia].
  unfold push_string_bytes_copy. rewrite (proj2 (size_add_checked_Some _ 1 (zlen c + 1))) by (split; [lia|done]).
  rewrite bind_assoc. unfold bind at 1. rewrite (deref_bytes_run (set_stack rest s) p c Rp).
  apply (push_fresh lens s [_] rest Hr Hs); [cbn; lia|]. by apply valid_free.
Qed.

Lemma int_bytes_agrees lens s a rest low high n (message : string) op : ready lens s -> stack s = a :: rest -> legible s a ->
  text_result op [resolve_value s a] = (i ← int_of (resolve_value s a); int_data low high n i) ->
  agrees 1 s (op_bytes_of_int low high n message s) (text_result op [resolve_value s a]).
Proof.
  intros Hr Hs La ->. unfold op_bytes_of_int, bind at 1. rewrite (pop_run _ _ _ Hs).
  destruct (int_of (resolve_value s a)) as [i|] eqn:Ei; cbn [mbind option_bind].
  - destruct (legible_int s a i La Ei) as [-> _]. unfold int_data.
    destruct (Z.ltb_spec i low), (Z.ltb_spec high i), (Z.leb_spec low i), (Z.leb_spec i high); cbn [orb andb]; try lia;
      try (apply (mismatch_reported lens s [_] rest Hr Hs)).
    assert (Hn : Z.of_nat n = zlen (int_le n (u64 i))) by (unfold int_le, zlen; by rewrite length_map, length_seq).
    rewrite Hn. apply (push_bytes lens s [_] rest Hr Hs); [cbn; lia|]. intros _. split; [done|]. apply read_block_all.
  - pose proof (no_int s a Ei). destruct a; try done; apply (mismatch_reported lens s [_] rest Hr Hs).
Qed.

Lemma read_bytes_sub s p c k n : read_bytes s p (zlen c) = Some c -> 0 <= k -> 0 <= n -> k + n <= zlen c ->
  read_bytes s (bytes_add p k) n = Some (ztake n (zdrop k c)).
Proof.
  assert (Hb : forall b o, read_block b o (zlen c) = Some c -> 0 <= k -> 0 <= n -> k + n <= zlen c -> read_block b (o + k) n = Some (ztake n (zdrop k c))).
  { intros b o Hr Hk Hn Hle. apply read_block_split in Hr as (pre & post & -> & -> & _). unfold read_block, Program.slice. rewrite !zlen_app.
    pose proof (zlen_nonneg pre). pose proof (zlen_nonneg post). replace (_ && _) with true by lia. f_equal.
    rewrite <- zdrop_zdrop, zdrop_app by lia. unfold ztake, zdrop. rewrite drop_app_le by (unfold zlen in *; lia).
    rewrite take_app_le by (rewrite length_drop; unfold zlen in *; lia). done. }
  intros Hr Hk Hn Hle. destruct p as [|gen off|off|content]; cbn in Hr |- *; [done| | |].
  - destruct (gen =? _); [by apply Hb|done].
  - destruct (program s); [by apply Hb|done].
  - apply read_block_split in Hr as (pre & post & E & Ez & _). assert (pre = []) as -> by (destruct pre; [done|rewrite zlen_cons in Ez; pose proof (zlen_nonneg pre); lia]).
    cbn in E. subst content. unfold read_block, Program.slice. pose proof (zlen_nonneg post). rewrite zlen_zdrop, zlen_app by (rewrite zlen_app; lia).
    replace (_ && _) with true by lia. f_equal. unfold ztake, zdrop. cbn [drop Z.to_nat]. rewrite drop_0, drop_app_le by (unfold zlen in *; lia).
    by rewrite take_app_le by (rewrite length_drop; unfold zlen in *; lia).
Qed.

(** Two operands, bytes and an integer. *)
Lemma bytes_at_agrees lens s a b rest : ready lens s -> stack s = b :: a :: rest -> legible s a -> legible s b ->
  agrees 2 s (op_bytes_at s) (text_result AIVM_OP_BYTES_AT [resolve_value s a; resolve_value s b]).
Proof.
  intros Hr Hs La Lb. unfold op_bytes_at, bind at 1. rewrite (pop_operands_run _ _ _ _ Hs). cbn [text_result].
  destruct (data_of (resolve_value s a)) as [c|] eqn:Ea; cbn [mbind option_bind].
  2: { pose proof (no_data s a La Ea). destruct a; try done; apply (mismatch_reported lens s [b; _] rest Hr Hs). }
  destruct (legible_data s a c La Ea) as (p & -> & Zp & Rp & Np & _).
  destruct (int_of (resolve_value s b)) as [i|] eqn:Ei; cbn [mbind option_bind].
  2: { pose proof (no_int s b Ei). destruct b; try done; apply (mismatch_reported lens s [_; _] rest Hr Hs). }
  destruct (legible_int s b i Lb Ei) as [-> _]. unfold byte_or_minus_one.
  destruct (Z.ltb_spec i 0), (Z.leb_spec (zlen c) i), (Z.leb_spec 0 i), (Z.ltb_spec i (zlen c)); cbn [orb andb]; try lia;
    try (apply (push_plain lens s [_; _] rest Hr Hs); [cbn; lia|done]).
  destruct (Rp ltac:(lia)) as [Np' Rd]. rewrite bool_decide_eq_false_2 by done.
  pose proof (read_bytes_sub (set_stack rest s) p c i 1 Rd ltac:(lia) ltac:(lia) ltac:(lia)) as Hrd.
  destruct (zget_is_Some c i ltac:(lia)) as [x Hx].
  assert (Ex : ztake 1 (zdrop i c) = [x]).
  { rewrite zget_lookup in Hx by lia. unfold ztake, zdrop. change (Z.to_nat 1) with 1%nat. by rewrite (drop_S _ _ _ Hx). }
  rewrite Ex in Hrd. unfold bind at 1. change 1 with (zlen [x]) in Hrd |- *. rewrite (deref_bytes_run (set_stack rest s) (bytes_add p i) [x]) by (intros _; split; [by destruct p|done]).
  cbn [zget check]. unfold bind, ret. rewrite Hx. apply (push_plain lens s [_; _] rest Hr Hs); [cbn; lia|done].
Qed.

(** The range of a slice is the clamped one, however the end wraps around. *)
Lemma slice_range_spec (c : list Z) i n : zlen c < SIZE_MAX -> int64_ok i = true -> int64_ok n = true ->
  let '(start, stop) := slice_range (zlen c) i n in
  0 <= start <= zlen c /\ stop <= zlen c /\
  data_slice c i n = if stop <=? start then [] else ztake (stop - start) (zdrop start c).
Proof.
  intros Hz Hi Hn. unfold int64_ok, INT64_MIN, INT64_MAX in Hi, Hn. pose proof (zlen_nonneg c) as Hc0. unfold slice_range.
  set (start := if i <=? 0 then 0 else if zlen c <=? i then zlen c else i). set (count := if n <=? 0 then 0 else n).
  assert (Hstart : 0 <= start <= zlen c /\ (start = Z.max 0 i \/ start = zlen c /\ zlen c <= Z.max 0 i)) by (unfold start; bdestruct_all; lia).
  assert (Hcount : count = Z.max 0 n) by (unfold count; bdestruct_all; lia).
  assert (Hstop : (if (u64 (start + count) <? start) || (zlen c <? u64 (start + count)) then zlen c else u64 (start + count)) = Z.min (zlen c) (start + count)).
  { unfold u64, SIZE_MAX in *. destruct (Z.lt_ge_cases (start + count) (2 ^ 64)).
    - rewrite Z.mod_small by lia. bdestruct_all; lia.
    - assert (E : (start + count) mod 2 ^ 64 = start + count - 2 ^ 64) by (rewrite <- (Z.mod_small (start + count - 2 ^ 64) (2 ^ 64)) by lia; rewrite Zminus_mod, Z_mod_same_full, Z.sub_0_r, Zmod_mod; done).
      rewrite E. bdestruct_all; lia. }
  cbv zeta. rewrite Hstop. split; [lia|]. split; [lia|]. unfold data_slice. rewrite <- Hcount.
  destruct Hstart as [Hb [E|[E Hge]]].
  - rewrite <- E. destruct (Z.leb_spec (Z.min (zlen c) (start + count)) start).
    + unfold ztake, zdrop. destruct (Z.le_gt_cases count 0); [by replace (Z.to_nat count) with 0%nat by lia|]. rewrite drop_ge by (unfold zlen in *; lia). apply take_nil.
    + destruct (Z.le_gt_cases (start + count) (zlen c)); [f_equal; lia|]. rewrite Z.min_l by lia. unfold ztake, zdrop. rewrite !take_ge; [done|rewrite length_drop; unfold zlen in *; lia..].
  - rewrite E in *. rewrite Z.min_l by lia. rewrite Z.leb_refl. unfold ztake, zdrop. rewrite drop_ge by (unfold zlen in *; lia). apply take_nil.
Qed.

Lemma pop_three_run {A} s a b c rest (f : AivmValue -> AivmValue -> AivmValue -> M A) : stack s = c :: b :: a :: rest ->
  (let! z := aivm_stack_pop in let! y := aivm_stack_pop in let! x := aivm_stack_pop in f x y z) s = f a b c (set_stack rest s).
Proof.
  intros E. unfold bind at 1. rewrite (pop_run _ _ _ E). unfold bind at 1. rewrite (pop_run _ b (a :: rest)) by done. unfold bind. by rewrite (pop_run _ a rest).
Qed.

Lemma bytes_slice_agrees lens s a b d rest : ready lens s -> stack s = d :: b :: a :: rest -> legible s a -> legible s b -> legible s d ->
  agrees 3 s (op_bytes_slice s) (text_result AIVM_OP_BYTES_SLICE [resolve_value s a; resolve_value s b; resolve_value s d]).
Proof.
  intros Hr Hs La Lb Ld. unfold op_bytes_slice. rewrite (pop_three_run s a b d rest _ Hs). cbn [text_result].
  destruct (data_of (resolve_value s a)) as [c|] eqn:Ea; cbn [mbind option_bind].
  2: { pose proof (no_data s a La Ea). destruct a; try done; apply (mismatch_reported lens s [d; b; _] rest Hr Hs). }
  destruct (legible_data s a c La Ea) as (p & -> & Zp & Rp & Np & _).
  destruct (int_of (resolve_value s b)) as [i|] eqn:Ei; cbn [mbind option_bind].
  2: { pose proof (no_int s b Ei). destruct b; try done; apply (mismatch_reported lens s [d; _; _] rest Hr Hs). }
  destruct (legible_int s b i Lb Ei) as [-> Oi].
  destruct (int_of (resolve_value s d)) as [n|] eqn:En; cbn [mbind option_bind].
  2: { pose proof (no_int s d En). destruct d; try done; apply (mismatch_reported lens s [_; _; _] rest Hr Hs). }
  destruct (legible_int s d n Ld En) as [-> On]. pose proof (slice_range_spec c i n Zp Oi On) as Hsl.
  destruct (slice_range (zlen c) i n) as [start stop]. destruct Hsl as (H1 & H2 & ->).
  destruct (Z.leb_spec stop start); cbn [orb].
  { apply (push_bytes lens s [_; _; _] rest Hr Hs ltac:(cbn; lia) BNull []). change (zlen []) with 0. lia. }
  destruct (Rp ltac:(lia)) as [Np' Rd]. rewrite bool_decide_eq_false_2 by done.
  pose proof (read_bytes_sub (set_stack rest s) p c start (stop - start) Rd ltac:(lia) ltac:(lia) ltac:(lia)) as Hrd.
  assert (Hl : zlen (ztake (stop - start) (zdrop start c)) = stop - start) by (apply zlen_ztake; rewrite zlen_zdrop; lia).
  pose proof (push_bytes lens s [VInt n; VInt i; VBytes p (zlen c)] rest Hr Hs ltac:(cbn; lia) (bytes_add p start) (ztake (stop - start) (zdrop start c))) as Hp.
  rewrite Hl in Hp. apply Hp. intros _. split; [by destruct p|done].
Qed.

(** One operand of a concatenation into its place in the block. *)
Lemma concat_part_run s s1 p c a b message : filled s s1 (a ++ replicate (length c) 0 ++ b) -> (0 < zlen c -> p <> BNull /\ read_bytes s p (zlen c) = Some c) ->
  exists s2, concat_part p (zlen c) (zlen (ba_data (bytes_arena s) ++ a)) message s1 = Ok tt s2 /\ filled s s2 (a ++ c ++ b) /\ status s2 = status s1.
Proof.
  intros F Hp. unfold concat_part. pose proof (zlen_nonneg c). destruct (Z.ltb_spec 0 (zlen c)) as [Hz|Hz].
  - destruct (Hp Hz) as [Np Rd]. rewrite bool_decide_eq_false_2 by done. unfold bind.
    rewrite (deref_bytes_run s1 p c) by (intros _; split; [done|by eapply filled_reads]). by apply write_bytes_run.
  - assert (c = []) as -> by (destruct c; [done|rewrite zlen_cons in *; pose proof (zlen_nonneg c); lia]). by exists s1.
Qed.

Lemma bytes_concat_agrees lens s a b rest : ready lens s -> stack s = b :: a :: rest -> legible s a -> legible s b ->
  agrees 2 s (op_bytes_concat s) (text_result AIVM_OP_BYTES_CONCAT [resolve_value s a; resolve_value s b]).
Proof.
  intros Hr Hs La Lb. pose proof (dropped lens s [b; a] rest Hr Hs) as [Hh _]. unfold op_bytes_concat, bind at 1. rewrite (pop_operands_run _ _ _ _ Hs). cbn [text_result].
  destruct (data_of (resolve_value s a)) as [c|] eqn:Ea; cbn [mbind option_bind].
  2: { pose proof (no_data s a La Ea). destruct a; try done; apply (mismatch_reported lens s [b; _] rest Hr Hs). }
  destruct (legible_data s a c La Ea) as (p & -> & Zp & Rp & Np & _).
  destruct (data_of (resolve_value s b)) as [e|] eqn:Eb; cbn [mbind option_bind].
  2: { pose proof (no_data s b Lb Eb). destruct b; try done; apply (mismatch_reported lens s [_; _] rest Hr Hs). }
  destruct (legible_data s b e Lb Eb) as (q & -> & Zq & Rq & Nq & _).
  destruct (aivm_size_add_checked (zlen c) (zlen e)) as [total|] eqn:Et; [|by apply (throw_reported lens)]. apply size_add_checked_Some in Et as [_ ->].
  set (s1 := set_stack rest s) in *. pose proof (zlen_nonneg c). pose proof (zlen_nonneg e).
  set (m := let! output := aivm_bytes_arena_alloc (zlen c + zlen e) in
            match output with
            | BArena _ offset =>
                do! concat_part p (zlen c) offset "BYTES_CONCAT requires non-null left bytes data." in
                do! concat_part q (zlen e) (offset + zlen c) "BYTES_CONCAT requires non-null right bytes data." in
                ret output
            | _ => undef
            end).
  assert (Em : forall t, (let! output := aivm_bytes_arena_alloc (zlen c + zlen e) in
            match output with
            | BArena _ offset =>
                do! concat_part p (zlen c) offset "BYTES_CONCAT requires non-null left bytes data." in
                do! concat_part q (zlen e) (offset + zlen c) "BYTES_CONCAT requires non-null right bytes data." in
                op_push (VBytes output (zlen c + zlen e))
            | _ => undef
            end) t = bind m (fun o => op_push (VBytes o (zlen (c ++ e)))) t).
  { intros t. unfold m. rewrite bind_assoc. apply bind_ext. intros o t'. rewrite zlen_app. destruct o as [|g off|?|?]; try done.
    rewrite bind_assoc. apply bind_ext. intros ? t2. rewrite bind_assoc. by apply bind_ext. }
  rewrite Em. apply (produce (fun o => VBytes o (zlen (c ++ e))) m (bytes_doc (c ++ e)) lens s [_; _] rest Hr Hs); [cbn; lia|].
  change (set_stack rest s) with s1. unfold m, bind at 1. pose proof (bytes_alloc_run lens (zlen c + zlen e) s1 Hh ltac:(lia)) as Ha.
  destruct (aivm_bytes_arena_alloc _ s1) as [o s2|s2|]; [| |done].
  2: { destruct Ha. by apply (filled_reported lens s1 s2 []). }
  destruct Ha as (F & St & ->). replace (Z.to_nat (zlen c + zlen e)) with (length c + length e)%nat in F by (unfold zlen; lia). rewrite replicate_add in F.
  destruct (concat_part_run s1 s2 p c [] (replicate (length e) 0) "BYTES_CONCAT requires non-null left bytes data." F Rp) as (s3 & E3 & F3 & St3).
  rewrite app_nil_r in E3. unfold bind at 1. rewrite E3. cbn [app] in F3. rewrite <- (app_nil_r (replicate _ _)) in F3.
  destruct (concat_part_run s1 s3 q e c [] "BYTES_CONCAT requires non-null right bytes data." F3 Rq) as (s4 & E4 & F4 & St4).
  rewrite zlen_app in E4. unfold bind. rewrite E4. rewrite app_nil_r in F4. apply (block_yields lens); [done|done|congruence].
Qed.

(** The two passes of the decoder agree on the length. *)
Lemma base64_passes c x n : aivm_bytes_from_base64 c None = Some (x, n) -> exists d, aivm_bytes_from_base64 c (Some n) = Some (d, n) /\ zlen d = n.
Proof.
  unfold aivm_bytes_from_base64. destruct (zlen c =? 0); [intros [= <- <-]; by exists []|]. destruct (negb _); [done|].
  destruct (decode_loop c) as [out|]; [|done]. intros [= <- <-]. exists out. rewrite Z.ltb_irrefl. unfold ztake. rewrite take_ge by (unfold zlen; lia). done.
Qed.

Lemma from_base64_agrees lens s a rest : ready lens s -> stack s = a :: rest -> legible s a ->
  agrees 1 s (op_bytes_from_base64 s) (text_result AIVM_OP_BYTES_FROM_BASE64 [resolve_value s a]).
Proof.
  intros Hr Hs La. pose proof (dropped lens s [a] rest Hr Hs) as [Hh _]. unfold op_bytes_from_base64. one_string Hr Hs La.
  unfold bind at 1. rewrite (deref_run _ _ _ Rp). cbv zeta.
  destruct (aivm_bytes_from_base64 c None) as [[x n]|] eqn:E1; cbn [mbind option_bind];
    [|eexists; split; [reflexivity|by apply (throw_reported lens)]].
  destruct (base64_passes c x n E1) as (d & E2 & Hd). rewrite E2. cbn [mbind option_bind]. subst n.
  set (m := let! output := aivm_bytes_arena_alloc (zlen d) in
            match output with BArena _ offset => do! write_bytes offset d in ret output | _ => undef end).
  assert (Em : forall t, (let! output := aivm_bytes_arena_alloc (zlen d) in
            match output with BArena _ offset => do! write_bytes offset d in op_push (VBytes output (zlen d)) | _ => undef end) t =
            bind m (fun o => op_push (VBytes o (zlen d))) t).
  { intros t. unfold m. rewrite bind_assoc. apply bind_ext. intros o t'. destruct o as [|g off|?|?]; try done. rewrite bind_assoc. by apply bind_ext. }
  rewrite Em. apply (produce (fun o => VBytes o (zlen d)) m (bytes_doc d) lens s [a] rest Hr Hs); [cbn; lia|].
  unfold m, bind. pose proof (bytes_alloc_run lens (zlen d) (set_stack rest s) Hh (zlen_nonneg d)) as Ha.
  destruct (aivm_bytes_arena_alloc (zlen d) (set_stack rest s)) as [q s1|s1|]; [| |done].
  - destruct Ha as (F & St & ->). replace (Z.to_nat (zlen d)) with (length d) in F by (unfold zlen; lia).
    destruct (write_bytes_run (set_stack rest s) s1 (zlen (ba_data (bytes_arena (set_stack rest s)))) [] d []) as (s2 & E & F2 & St2);
      [by rewrite app_nil_r|by rewrite app_nil_r|]. rewrite E. cbn [app] in F2. rewrite app_nil_r in F2. apply (block_yields lens); [done|done|congruence].
  - destruct Ha. by apply (filled_reported lens (set_stack rest s) s1 []).
Qed.

Lemma to_base64_agrees lens s a rest : ready lens s -> stack s = a :: rest -> legible s a ->
  agrees 1 s (op_bytes_to_base64 s) (text_result AIVM_OP_BYTES_TO_BASE64 [resolve_value s a]).
Proof.
  intros Hr Hs La. pose proof (dropped lens s [a] rest Hr Hs) as [Hh _]. unfold op_bytes_to_base64. one_data lens Hr Hs La. cbv zeta.
  rewrite null_test by (intros Hz; by destruct (Rp Hz)). pose proof (zlen_nonneg c) as Hc0.
  destruct (base64_writes c Bp) as (text & Et & Hl & Hf). rewrite Et. cbn [mbind option_bind].
  destruct (Z.ltb_spec ((SIZE_MAX - 2) / 3) (zlen c)) as [Hbig|Hsmall]; [by apply (throw_reported lens)|].
  assert (Hb : 0 <= base64_length (zlen c) < SIZE_MAX) by (unfold base64_length, SIZE_MAX in *; mlia).
  unfold u64. rewrite Z.mod_small by (unfold SIZE_MAX in Hb; lia). rewrite (proj2 (size_add_checked_Some _ 1 (base64_length (zlen c) + 1))) by (split; [lia|done]).
  set (m := let! output := aivm_string_arena_alloc (base64_length (zlen c) + 1) in
            match output with
            | SArena _ offset =>
                let! data := deref_bytes p (zlen c) in
                match aivm_bytes_to_base64 data (base64_length (zlen c) + 1) with
                | None => throw AIVM_VM_ERR_INVALID_PROGRAM (DText "BYTES_TO_BASE64 failed.")
                | Some text => do! write_text offset (text ++ [0]) in ret output
                end
            | _ => undef
            end).
  match goal with |- agrees _ _ (?r _) _ => assert (Em : forall t, r t = bind m (fun o => op_push (VString o)) t) end.
  { intros t. unfold m. rewrite bind_assoc. apply bind_ext. intros o t'. destruct o as [|g off|?|?]; try done. rewrite bind_assoc. apply bind_ext.
    intros data t2. destruct (aivm_bytes_to_base64 data _); [|done]. rewrite bind_assoc. by apply bind_ext. }
  rewrite Em. apply (produce VString m (text_doc text) lens s [VBytes p (zlen c)] rest Hr Hs); [cbn; lia|].
  unfold m, bind at 1. pose proof (string_alloc_run (set_stack rest s) (base64_length (zlen c) + 1) (proj1 Hh) ltac:(lia)) as Ha.
  destruct (aivm_string_arena_alloc _ (set_stack rest s)) as [o s1|s1|]; [| |done].
  - destruct Ha as (gen & off & -> & V & Hw). destruct (Hw text Hf ltac:(by rewrite Hl)) as (s2 & E & K & St & Vo & Ro).
    assert (Rd : 0 < zlen c -> p <> BNull /\ read_bytes s1 p (zlen c) = Some c).
    { intros Hz. destruct (Rp Hz) as [Np' Rd]. split; [done|]. rewrite <- Rd. unfold texts_view in V. injection V as E1 E2. destruct p; cbn; by rewrite ?E1, ?E2. }
    unfold bind at 1. rewrite (deref_bytes_run s1 p c Rd), Et. unfold bind. rewrite E. by apply (copy_yields lens).
  - destruct Ha. by apply (kept_reported lens (set_stack rest s)).
Qed.

(** ** All of them *)

(** STR_ESCAPE adds up the escaped length without a check. *)
Definition escape_fits (op : AivmOpcode) (args : list AivmValue) : Prop :=
  match op, args with
  | AIVM_OP_STR_ESCAPE, [a] => zlen (escape_text (default [] (text_of a))) < SIZE_MAX
  | _, _ => True
  end.

(** C7: every text and bytes instruction but the three that count in runes
    (STR_SUBSTRING, STR_REMOVE, STR_FIND: [text_arity] has no entry for them), run
    from a well-formed heap on operands that can be read ([legible]: no NULL text, objects
    of less than 2^64 bytes, integers of 64 bits) and, for STR_ESCAPE, where the escaped
    length is below 2^64, either replaces them by the
    value the specification computes from their contents (leaving the meaning of all
    other roots, the frames and the program as they are, although the arenas may have
    grown or been compacted) or reports an error with the heap still well-formed; it
    always reports an error where the specification has no result, and it never reads
    or writes outside an object. *)
Theorem text_op_refines lens s i m k ops rest :
  ready lens s -> text_op i = Some m -> text_arity (opcode i) = Some k ->
  stack s = ops ++ rest -> length ops = k -> Forall (legible s) ops ->
  escape_fits (opcode i) (rev (map (resolve_value s) ops)) ->
  agrees k s (m s) (text_result (opcode i) (rev (map (resolve_value s) ops))).
Proof.
  intros Hr Hm Hk Hs Hlen Hleg Hfit. unfold text_op in Hm.
  destruct (opcode i); try discriminate Hk; injection Hm as <-; injection Hk as <-;
    destruct ops as [|a [|b [|d [|]]]]; try discriminate Hlen; decompose_Forall; cbn [rev map app] in *.
  all: first [by eapply str_concat_agrees|by eapply to_string_agrees|by eapply str_escape_agrees|by eapply from_codepoint_agrees
    |by eapply decode_hex4_agrees|by eapply surrogate_agrees|by eapply bytes_length_agrees|by eapply bytes_at_agrees|by eapply bytes_slice_agrees
    |by eapply bytes_concat_agrees|by eapply from_utf8_agrees|by eapply to_utf8_agrees|by eapply from_base64_agrees|by eapply to_base64_agrees
    |by eapply byte_count_agrees|by eapply scalar_length_agrees|by eapply value_kind_agrees
    |by eapply (int_bytes_agrees lens s a rest 0 255 1 _ AIVM_OP_BYTES_FROM_BYTE)
    |by eapply (int_bytes_agrees lens s a rest 0 4294967295 4 _ AIVM_OP_BYTES_U32_LE)
    |by eapply (int_bytes_agrees lens s a rest INT64_MIN INT64_MAX 8 _ AIVM_OP_BYTES_I64_LE)].
Qed.

End Host.

(** ** Example *)

Definition fixed_addresses : Addresses := {| arena_address := fun _ => 0 |}.

(** "n" and "hi", which are in the arena, on the stack above a node. *)
Definition text_start : AivmVm := set_stack [VString (SArena 0 7); VString (SArena 0 5); VNode 1] example_strings.

Lemma text_start_ready : ready [] text_start.
Proof.
  assert (Hf : heap_with [] example_strings).
  { split; [apply example_heap_ok|]. split; [by split; [constructor|]|by vm_compute| |].
    - change (root_values example_strings) with [VNode 1; VString (SArena 0 7)]. by repeat constructor.
    - intros i p _ Hp. pose proof (zget_Some_bounds _ _ _ Hp) as Hb. change (zlen _) with 0 in Hb. lia. }
  split; [|split; try done; by vm_compute]. apply (reroot [] example_strings); [exact Hf|done|]. pose proof (usable_roots _ _ Hf) as Hu.
  change (root_values example_strings) with [VNode 1; VString (SArena 0 7)] in Hu. apply Forall_cons in Hu as [Hn Hu]. apply Forall_cons in Hu as [Hi _].
  change (root_values text_start) with [VNode 1; VString (SArena 0 5); VString (SArena 0 7)].
  apply Forall_cons. split; [exact Hn|]. apply Forall_cons. split; [|apply Forall_cons; by split].
  apply usable_string. split; [done|]. exists (bytes_of_string "n"). apply example_text_at. by left.
Qed.

Lemma text_op_refines_witness :
  agrees 2 text_start (op_str_concat (H := example_host) text_start) (Some (text_value (bytes_of_string "nhi"))) /\
  match op_str_concat (H := example_host) text_start with
  | Ok _ s' => option_map (resolve_value s') (hd_error (stack s')) = Some (text_value (bytes_of_string "nhi"))
  | _ => False
  end.
Proof.
  split; [|by vm_compute].
  refine (text_op_refines (H := example_host) (H0 := fixed_addresses) [] text_start (mk_instruction AIVM_OP_STR_CONCAT 0) op_str_concat 2
    [VString (SArena 0 7); VString (SArena 0 5)] [VNode 1] text_start_ready eq_refl eq_refl eq_refl eq_refl _ _); [|done].
  constructor; [|constructor; [|constructor]]; (split; [done|eexists; split; [vm_compute; reflexivity|by vm_compute]]).
Defined.
