(* ===== verification/NodeSpec.v ===== *)
(** * The node instructions refine functions on documents

    What a program sees of a node is its document: kind, id, attributes and children
    as trees of texts.  The handlers of NodeOps.v that read nodes and pairs show parts
    of the documents of their operands, those that make nodes return a handle whose
    document is put together from them. *)

From S2P Require Import Prelude Text Types Program Vm Memory Lifecycle Stack Control ControlSafety Roots Pairs.
From S2P Require Import NodeGc NodeMark NodeMove NodeCompact Moves.
From S2P Require Import Strings StringText StringIndex StringGc StringCompact StringCopy Bytes BytesGc NodeCreate NodeTrees NodeRoom NodeBuild Collector.
From S2P Require Import TextOps NodeOps Operands BytesCopy TextSpec.

(** ** The specification *)

(** [docs d] are the documents of the operands to depth [d], in the order they were
    pushed; a result is given as its document at every depth. *)
Definition leaf_doc (v : AivmValue) : nat -> vtree := fun _ => TLeaf v.
Definition string_doc (p : str_ptr) : nat -> vtree := leaf_doc (VString p).
Definition count_doc (n : Z) : nat -> vtree := leaf_doc (VInt (i64_of_u64 (u64 n))).

(** A node of given parts; its children are known one level less deep. *)
Definition node_doc (kind id : str_ptr) (attrs : list AivmNodeAttr) (children : nat -> list ntree) : nat -> vtree :=
  fun d => TNode match d with O => NCut | S d' => NTree kind id attrs (children d') end.

Definition children_in (t : vtree) : list ntree := match t with TNode (NTree _ _ _ children) => children | _ => [] end.
Definition node_in (t : vtree) : ntree := match t with TNode n => n | _ => NInvalid end.
Definition operand (docs : list vtree) (i : nat) : vtree := default TInvalid (docs !! i).

Definition string_value (v : AivmNodeAttrValue) : str_ptr := match v with NAIdentifier p | NAString p => p | _ => SExt [] end.
Definition int_value (v : AivmNodeAttrValue) : Z := match v with NAInt i => i | _ => 0 end.
Definition bool_value (v : AivmNodeAttrValue) : bool := match v with NABool b => b | _ => false end.
Definition kind_text (v : AivmNodeAttrValue) : str_ptr := SExt (bytes_of_string (attr_kind_name v)).

(** The value of the attribute at an index, or what stands for it where there is none. *)
Definition of_attr {A} (f : AivmNodeAttr -> A) (a : A) (attrs : list AivmNodeAttr) (i : Z) : A := from_option f a (zget attrs i).

Definition read_result (op : AivmOpcode) (docs : nat -> list vtree) : option (nat -> vtree) :=
  match op, docs 1%nat with
  | AIVM_OP_NODE_KIND, [TNode (NTree kind _ _ _)] => Some (string_doc kind)
  | AIVM_OP_NODE_ID, [TNode (NTree _ id _ _)] => Some (string_doc id)
  | AIVM_OP_ATTR_COUNT, [TNode (NTree _ _ attrs _)] => Some (count_doc (zlen attrs))
  | AIVM_OP_CHILD_COUNT, [TNode (NTree _ _ _ children)] => Some (count_doc (zlen children))
  | AIVM_OP_ATTR_KEY, [TNode (NTree _ _ attrs _); TLeaf (VInt i)] => Some (string_doc (of_attr attr_key (SExt []) attrs i))
  | AIVM_OP_ATTR_VALUE_KIND, [TNode (NTree _ _ attrs _); TLeaf (VInt i)] =>
      Some (string_doc (of_attr (fun a => kind_text (attr_value a)) (SExt []) attrs i))
  | AIVM_OP_ATTR_VALUE_STRING, [TNode (NTree _ _ attrs _); TLeaf (VInt i)] =>
      Some (string_doc (of_attr (fun a => string_value (attr_value a)) (SExt []) attrs i))
  | AIVM_OP_ATTR_VALUE_INT, [TNode (NTree _ _ attrs _); TLeaf (VInt i)] =>
      Some (leaf_doc (VInt (of_attr (fun a => int_value (attr_value a)) 0 attrs i)))
  | AIVM_OP_ATTR_VALUE_BOOL, [TNode (NTree _ _ attrs _); TLeaf (VInt i)] =>
      Some (leaf_doc (VBool (of_attr (fun a => bool_value (attr_value a)) false attrs i)))
  | AIVM_OP_CHILD_AT, [TNode (NTree _ _ _ children); TLeaf (VInt i)] =>
      if (0 <=? i) && (i <? zlen children)
      then Some (fun d => TNode (default NInvalid (zget (children_in (operand (docs (S d)) 0)) i)))
      else None
  | AIVM_OP_PAIR_FIRST, [TPair _ _] => Some (fun d => match operand (docs (S d)) 0 with TPair l _ => l | _ => TInvalid end)
  | AIVM_OP_PAIR_SECOND, [TPair _ _] => Some (fun d => match operand (docs (S d)) 0 with TPair _ r => r | _ => TInvalid end)
  | _, _ => None
  end.

Definition literal (text : string) : str_ptr := SExt (bytes_of_string text).

Definition as_text (t : vtree) : option str_ptr := match t with TLeaf (VString p) => Some p | _ => None end.
Definition as_int (t : vtree) : option Z := match t with TLeaf (VInt i) => Some i | _ => None end.
Definition as_bool (t : vtree) : option bool := match t with TLeaf (VBool b) => Some b | _ => None end.

Definition lit_doc (id : str_ptr) (v : AivmNodeAttrValue) : nat -> vtree := node_doc (literal "Lit") id [mk_attr (literal "value") v] (fun _ => []).

Definition make_result (op : AivmOpcode) (docs : nat -> list vtree) : option (nat -> vtree) :=
  match op, docs 1%nat with
  | AIVM_OP_MAKE_BLOCK, [id] => id ← as_text id; Some (node_doc (literal "Block") id [] (fun _ => []))
  | AIVM_OP_MAKE_LIT_STRING, [id; text] => id ← as_text id; text ← as_text text; Some (lit_doc id (NAString text))
  | AIVM_OP_MAKE_LIT_INT, [id; i] => id ← as_text id; i ← as_int i; Some (lit_doc id (NAInt i))
  | AIVM_OP_MAKE_LIT_BOOL, [id; b] => id ← as_text id; b ← as_bool b; Some (lit_doc id (NABool b))
  | AIVM_OP_MAKE_ERR, [id; code; message; node] =>
      id ← as_text id; code ← as_text code; message ← as_text message; node ← as_text node;
      Some (node_doc (literal "Err") id
        [mk_attr (literal "code") (NAIdentifier code); mk_attr (literal "message") (NAString message);
         mk_attr (literal "nodeId") (NAIdentifier node)] (fun _ => []))
  | AIVM_OP_MAKE_NODE_EMPTY, [kind; id] => kind ← as_text kind; id ← as_text id; Some (node_doc kind id [] (fun _ => []))
  | AIVM_OP_APPEND_CHILD, [TNode (NTree kind id attrs _); TNode (NTree _ _ _ _)] =>
      Some (node_doc kind id attrs (fun d => children_in (operand (docs (S d)) 0) ++ [node_in (operand (docs d) 1)]))
  | AIVM_OP_APPEND_ATTR, [TNode (NTree kind id attrs _); TNode (NTree _ key [attr] _)] =>
      Some (node_doc kind id (attrs ++ [mk_attr key (attr_value attr)]) (fun d => children_in (operand (docs (S d)) 0)))
  | _, _ => None
  end.

Definition read_arity (op : AivmOpcode) : option nat :=
  match op with
  | AIVM_OP_NODE_KIND | AIVM_OP_NODE_ID | AIVM_OP_ATTR_COUNT | AIVM_OP_CHILD_COUNT | AIVM_OP_PAIR_FIRST | AIVM_OP_PAIR_SECOND => Some 1%nat
  | AIVM_OP_ATTR_KEY | AIVM_OP_ATTR_VALUE_KIND | AIVM_OP_ATTR_VALUE_STRING | AIVM_OP_ATTR_VALUE_INT | AIVM_OP_ATTR_VALUE_BOOL
  | AIVM_OP_CHILD_AT => Some 2%nat
  | _ => None
  end.

Definition make_arity (op : AivmOpcode) : option nat :=
  match op with
  | AIVM_OP_MAKE_BLOCK => Some 1%nat
  | AIVM_OP_MAKE_LIT_STRING | AIVM_OP_MAKE_LIT_INT | AIVM_OP_MAKE_LIT_BOOL | AIVM_OP_MAKE_NODE_EMPTY | AIVM_OP_APPEND_CHILD
  | AIVM_OP_APPEND_ATTR => Some 2%nat
  | AIVM_OP_MAKE_ERR => Some 4%nat
  | _ => None
  end.

(** A text the code can read, as every text of a node it has made. *)
Definition text_legible (s : AivmVm) (p : str_ptr) : Prop := p <> SNull /\ exists c, read_str s p = Some c /\ zlen c < SIZE_MAX.
Definition attr_legible (s : AivmVm) (a : AivmNodeAttr) : Prop :=
  text_legible s (attr_key a) /\ match attr_value a with NAIdentifier p | NAString p => text_legible s p | _ => True end.
Definition record_legible (s : AivmVm) (nd : AivmNodeRecord) : Prop :=
  text_legible s (node_kind nd) /\ text_legible s (node_id nd) /\ Forall (attr_legible s) (attrs_of (node_store s) nd).

Definition operand_legible (s : AivmVm) (v : AivmValue) : Prop :=
  match v with
  | VString p => text_legible s p
  | VNode h => forall nd, aivm_vm_lookup_node (node_store s) h = Some nd -> record_legible s nd
  | _ => True
  end.

(** The outcome agrees with the specification. *)
Definition shows (k : nat) (s : AivmVm) (r : res unit) (expected : option (nat -> vtree)) : Prop :=
  match expected with
  | Some doc => outcome_of k s r doc
  | None => exists s', r = Err s' /\ reported s'
  end.

Definition operand_docs (s : AivmVm) (ops : list AivmValue) (d : nat) : list vtree := rev (map (document d s) ops).

(** ** Nodes among the operands *)

Lemma zget_slice {A} (l : list A) start count i : 0 <= start -> 0 <= i < count -> zget (slice l start count) i = zget l (start + i).
Proof.
  intros Hs Hi. rewrite !zget_lookup by lia. unfold slice, ztake, zdrop. rewrite lookup_take_lt by lia. rewrite lookup_drop. f_equal. lia.
Qed.

Lemma zget_fmap {A B} (f : A -> B) (l : list A) i : zget (map f l) i = f <$> zget l i.
Proof.
  destruct (Z.ltb_spec i 0) as [Hi|Hi]; [|rewrite !zget_lookup by lia; apply list_lookup_fmap].
  by rewrite (proj2 (zget_None l i)), (proj2 (zget_None (map f l) i)) by lia.
Qed.

(** What is known of the record behind a usable handle. *)
Record seen (lens : list Z) (s : AivmVm) (h : Z) (nd : AivmNodeRecord) : Prop := {
  sn_lookup : aivm_vm_lookup_node (node_store s) h = Some nd;
  sn_kind : str_valid s (node_kind nd);
  sn_id : str_valid s (node_id nd);
  sn_attr_texts : Forall (attr_valid s) (attrs_of (node_store s) nd);
  sn_attr_count : attr_count nd = zlen (attrs_of (node_store s) nd);
  sn_child_count : child_count nd = zlen (children_of (node_store s) nd);
  sn_attr : forall i, 0 <= i < attr_count nd -> zget (node_attrs (node_store s)) (attr_start nd + i) = zget (attrs_of (node_store s) nd) i;
  sn_child : forall i, 0 <= i < child_count nd -> zget (node_children (node_store s)) (child_start nd + i) = zget (children_of (node_store s) nd) i;
  sn_attrs_fit : 0 <= attr_start nd /\ attr_start nd + attr_count nd <= zlen (node_attrs (node_store s)) /\
    zlen (node_attrs (node_store s)) <= node_attr_capacity (node_store s) <= SIZE_MAX;
  sn_children_fit : 0 <= child_start nd /\ child_start nd + child_count nd <= zlen (node_children (node_store s)) /\
    zlen (node_children (node_store s)) <= node_child_capacity (node_store s) <= SIZE_MAX;
  sn_children : Forall (fun c => usable lens s (VNode c)) (children_of (node_store s) nd);
  sn_document : forall d, document (S d) s (VNode h) =
    TNode (NTree (resolve_str s (node_kind nd)) (resolve_str s (node_id nd)) (map (resolve_attr s) (attrs_of (node_store s) nd))
      (map (node_document d s) (children_of (node_store s) nd))) }.

Lemma node_seen lens s h : heap_with lens s -> usable lens s (VNode h) -> exists nd, seen lens s h nd.
Proof.
  intros [Hh _] [Hv Ht]%usable_node_inv. pose proof (hp_nodes _ Hh) as Hn. destruct (lookup_valid _ h Hv) as (nd & Hl & Hz). exists nd.
  destruct (record_ranges _ Hn _ _ Hz) as ([] & ? & ? & ? & ?). destruct (node_tree_texts s h nd Ht Hl) as (Tk & Ti & Ta).
  pose proof (no_attr_fit _ Hn). pose proof (no_child_fit _ Hn). unfold node_attr_count, node_child_count in *. split; try done.
  - symmetry. by apply slice_length.
  - symmetry. by apply slice_length.
  - intros i Hi. symmetry. by apply zget_slice.
  - intros i Hi. symmetry. by apply zget_slice.
  - apply Forall_forall. intros c Hc. apply usable_node; [by eapply child_valid|by eapply node_tree_child].
  - intros d. unfold document. cbn [unfold_value unfold_node]. rewrite Hl. cbn [resolve_vtree resolve_ntree]. by rewrite map_map.
Qed.

(** What the document of an operand says of the operand. *)
Lemma document_tag s d v : match document (S d) s v, v with
  | TNode _, VNode _ | TPair _ _, VPair _ | TInvalid, VPair _ => True
  | TLeaf (VString p), VString q => p = resolve_str s q
  | TLeaf (VInt i), VInt j => i = j
  | TLeaf (VBool b), VBool c => b = c
  | TLeaf w, _ => value_type w = value_type v
  | _, _ => False
  end.
Proof. destruct v; try done. unfold document. cbn. by destruct (pair_at _ _). Qed.

Section Host.

Context `{Host}.

Section Operation.

Context (lens : list Z) (s : AivmVm) (ops rest : list AivmValue).
Context (Hready : ready lens s) (Hstack : stack s = ops ++ rest) (Hops : (0 < length ops)%nat).
Local Abbreviation s1 := (set_stack rest s).

Lemma push_legible p : str_valid s1 p -> text_legible s p ->
  outcome_of (length ops) s ((do! push_string_copy p in Control.advance) s1) (string_doc (resolve_str s p)).
Proof.
  intros Hv (Hn & c & Hc & Hz). unfold resolve_str. rewrite Hc. apply (push_copied lens s ops rest Hready Hstack Hops p (text_doc c)).
  apply (copy_ptr_yields lens); try done. apply (dropped lens s ops rest Hready Hstack).
Qed.

Lemma push_usable v doc : usable lens s1 v -> (forall d, document d s v = doc d) -> outcome_of (length ops) s (op_push v s1) doc.
Proof.
  intros Hu Hd. pose proof (proj1 (dropped lens s ops rest Hready Hstack)) as Hh.
  apply (produce (fun _ : unit => v) (ret tt) doc lens s ops rest Hready Hstack Hops). split_and!; [by exists lens|by eapply preserved_same|done|].
  intros d. rewrite <- Hd. apply document_drop.
Qed.

Lemma throw_shown e d : exists s', @throw unit e d s1 = Err s' /\ reported s'.
Proof. eexists. split; [reflexivity|]. apply (throw_reported lens). apply (dropped lens s ops rest Hready Hstack). Qed.

(** A new node whose texts are those of the operands and whose children are still held. *)
Lemma push_created kind id attrs children : str_valid s1 kind -> str_valid s1 id -> kind <> SNull -> id <> SNull ->
  Forall (attr_valid s1) attrs -> Forall (reachable_node s1 []) children ->
  outcome_of (length ops) s (push_node kind id attrs children s1)
    (node_doc (resolve_str s kind) (resolve_str s id) (map (fun a => resolve_attr s (normal_attr a)) attrs) (fun d => map (node_document d s) children)).
Proof.
  intros Vk Vi Nk Ni Va Hr. pose proof (proj1 (dropped lens s ops rest Hready Hstack)) as Hh.
  unfold push_node. apply (produce VNode _ _ lens s ops rest Hready Hstack Hops).
  pose proof (create_node_run s1 kind id attrs children (proj1 Hh) Nk Ni Vk Vi Va Hr) as Hc.
  destruct (aivm_vm_create_node_record kind id attrs (OwnArray children) s1) as [h s2|s2|]; [| |done].
  - destruct Hc as ((N1 & N2 & N3) & C & St). destruct (carried_with lens _ _ _ _ Hh C) as [Hh2 P]. split_and!; [|done|done|].
    + exists lens. split; [done|by apply usable_node].
    + intros [|d]; [done|]. unfold node_doc. change (document (S d) s2 (VNode h)) with (TNode (node_document (S d) s2 h)). rewrite N3.
      unfold new_document. rewrite map_map. f_equal. f_equal. apply map_ext. intros c. by apply node_document_parts.
  - destruct Hc as [C E]. split; [|done]. eapply heap_with_full. by eapply carried_with.
Qed.

End Operation.

(** ** Operands of the stack *)

Lemma operands_usable lens s ops rest : ready lens s -> stack s = ops ++ rest -> Forall (usable lens s) ops.
Proof.
  intros Hr Hs. destruct (ready_drop lens s ops rest Hr Hs) as [_ Hu]. eapply Forall_impl; [exact Hu|]. intros v Hv.
  by apply (usable_parts lens (set_stack rest s)).
Qed.

Lemma operand_seen lens s ops rest h : ready lens s -> stack s = ops ++ rest -> VNode h ∈ ops -> operand_legible s (VNode h) ->
  exists nd, seen lens s h nd /\ record_legible s nd.
Proof.
  intros Hr Hs Hin Hl. pose proof (operands_usable _ _ _ _ Hr Hs) as Hu. rewrite Forall_forall in Hu.
  destruct (node_seen lens s h (rd_heap _ _ Hr) (Hu _ Hin)) as [nd Hnd]. exists nd. split; [done|]. apply Hl, Hnd.
Qed.

Definition as_node (v : AivmValue) : option Z := match v with VNode h => Some h | _ => None end.

Lemma as_node_Some v h : as_node v = Some h -> v = VNode h.
Proof. destruct v; try done. by intros [= ->]. Qed.

Lemma no_node_document s d v t : as_node v = None -> document d s v <> TNode t.
Proof. destruct v; try done; intros _; destruct d; try done. unfold document. cbn. by destruct (pair_at _ _). Qed.

Lemma lookup_no_node s v : as_node v = None -> lookup_value s v = None.
Proof. by destruct v. Qed.

Lemma pop_node_shown lens s a rest message : ready lens s -> stack s = a :: rest -> operand_legible s a ->
  match as_node a with
  | Some h => exists nd, pop_node message s = Ok nd (set_stack rest s) /\ seen lens s h nd /\ record_legible s nd /\ document 1 s a = document 1 s (VNode h)
  | None => (exists s', pop_node message s = Err s' /\ reported s') /\ forall t, document 1 s a <> TNode t
  end.
Proof.
  intros Hr Hs Hl. unfold pop_node, bind, get. rewrite (pop_run _ _ _ Hs).
  destruct (as_node a) as [h|] eqn:Ea.
  - apply as_node_Some in Ea as ->. destruct (operand_seen lens s [VNode h] rest h Hr Hs ltac:(by left) Hl) as (nd & Hnd & Hrl). exists nd. split; [|done].
    cbn [lookup_value]. change (node_store (set_stack rest s)) with (node_store s). by rewrite (sn_lookup _ _ _ _ Hnd).
  - split; [|intros t; by apply no_node_document]. cbv beta iota. rewrite lookup_no_node by done. apply (mismatch_reported lens s [a] rest Hr Hs).
Qed.

(** ** Reading *)

(** One operand: the record when it is a node, else the error. *)
Ltac one_node Hr Hs Hl :=
  match goal with |- context [bind (pop_node ?m) _ ?s] =>
    pose proof (pop_node_shown _ _ _ _ m Hr Hs Hl) as Hpop; unfold bind at 1, shows, operand_docs; cbn [map rev app read_result];
    destruct (as_node _) as [h|];
    [destruct Hpop as (nd & -> & Hnd & (Lk & Li & La) & ->); rewrite (sn_document _ _ _ _ Hnd)
    |destruct Hpop as [(s' & -> & Hrep) Hno]; destruct (document 1 s _) as [[]|[]| | |]; try (by exists s'); by destruct (Hno _ eq_refl)]
  end.

Lemma node_kind_shows lens s a rest : ready lens s -> stack s = a :: rest -> operand_legible s a ->
  shows 1 s (op_node_kind s) (read_result AIVM_OP_NODE_KIND (operand_docs s [a])).
Proof. intros Hr Hs Hl. unfold op_node_kind. one_node Hr Hs Hl. apply (push_legible lens s [a] rest Hr Hs); [cbn; lia|apply Hnd|done]. Qed.

Lemma node_id_shows lens s a rest : ready lens s -> stack s = a :: rest -> operand_legible s a ->
  shows 1 s (op_node_id s) (read_result AIVM_OP_NODE_ID (operand_docs s [a])).
Proof. intros Hr Hs Hl. unfold op_node_id. one_node Hr Hs Hl. apply (push_legible lens s [a] rest Hr Hs); [cbn; lia|apply Hnd|done]. Qed.

Lemma attr_count_shows lens s a rest : ready lens s -> stack s = a :: rest -> operand_legible s a ->
  shows 1 s (op_attr_count s) (read_result AIVM_OP_ATTR_COUNT (operand_docs s [a])).
Proof.
  intros Hr Hs Hl. unfold op_attr_count. one_node Hr Hs Hl. rewrite (sn_attr_count _ _ _ _ Hnd), zlen_map.
  by apply (push_plain lens s [a] rest Hr Hs); [cbn; lia|].
Qed.

Lemma child_count_shows lens s a rest : ready lens s -> stack s = a :: rest -> operand_legible s a ->
  shows 1 s (op_child_count s) (read_result AIVM_OP_CHILD_COUNT (operand_docs s [a])).
Proof.
  intros Hr Hs Hl. unfold op_child_count, bind, get. rewrite (pop_run _ _ _ Hs). unfold shows, operand_docs. cbn [map rev app read_result].
  destruct (as_node a) as [h|] eqn:Ea.
  - apply as_node_Some in Ea as ->. destruct (operand_seen lens s [VNode h] rest h Hr Hs ltac:(by left) Hl) as (nd & Hnd & _).
    cbn [lookup_value]. change (node_store (set_stack rest s)) with (node_store s). rewrite (sn_lookup _ _ _ _ Hnd), (sn_document _ _ _ _ Hnd).
    rewrite (sn_child_count _ _ _ _ Hnd), zlen_map. by apply (push_plain lens s [VNode h] rest Hr Hs); [cbn; lia|].
  - rewrite lookup_no_node by done. pose proof (no_node_document s 1 a) as Hno.
    destruct (document 1 s a) as [[]|[]| | |]; try apply (throw_shown lens s [a] rest Hr Hs); by destruct (Hno _ Ea eq_refl).
Qed.

(** (node, int) operands. *)
Lemma pop_node_index_shown lens s a b rest message : ready lens s -> stack s = b :: a :: rest -> operand_legible s a ->
  match as_node a, b with
  | Some h, VInt i => exists nd, pop_node_index message s = Ok (nd, i) (set_stack rest s) /\ seen lens s h nd /\ record_legible s nd /\ a = VNode h
  | _, _ => (exists s', pop_node_index message s = Err s' /\ reported s') /\
      ((forall t, document 1 s a <> TNode t) \/ forall i, document 1 s b <> TLeaf (VInt i))
  end.
Proof.
  intros Hr Hs Hl. unfold pop_node_index, bind, get. rewrite (pop_operands_run _ _ _ _ Hs).
  pose proof (mismatch_reported lens s [b; a] rest Hr Hs (A := AivmNodeRecord * Z) message) as Hm.
  destruct (as_node a) as [h|] eqn:Ea.
  - apply as_node_Some in Ea as ->. destruct (operand_seen lens s [b; VNode h] rest h Hr Hs ltac:(right; by left) Hl) as (nd & Hnd & Hrl).
    cbn [lookup_value]. change (node_store (set_stack rest s)) with (node_store s). rewrite (sn_lookup _ _ _ _ Hnd).
    destruct b; try (split; [exact Hm|right; intros i; unfold document; cbn; by repeat case_match]). by exists nd.
  - rewrite lookup_no_node by done. split; [destruct b; exact Hm|]. left. intros t. by apply no_node_document.
Qed.

Ltac node_and_index Hr Hs Hl :=
  match type of Hs with stack ?s = ?b :: ?a :: _ => match goal with |- context [pop_node_index ?m] =>
    pose proof (pop_node_index_shown _ _ _ _ _ m Hr Hs Hl) as Hpop; unfold bind at 1, shows, operand_docs; cbn [map rev app read_result];
    destruct (as_node a) as [h|]; [destruct b as [|i| | | | | | | | | | | | | | ]|];
    lazymatch type of Hpop with
    | _ /\ (_ \/ _) =>
        destruct Hpop as [(s' & -> & Hrep) [Hno|Hno]];
        destruct (document 1 s a) as [[]|[]| | |]; try (by exists s'); try (by destruct (Hno _ eq_refl));
        match goal with |- context [document 1 s ?c] => destruct (document 1 s c) as [[]|[]| | |] end; try (by exists s'); by destruct (Hno _ eq_refl)
    | _ =>
        destruct Hpop as (nd & -> & Hnd & (Lk & Li & La) & ->); rewrite (sn_document _ _ _ _ Hnd);
        match goal with |- context [document 1 ?t (VInt ?i)] => change (document 1 t (VInt i)) with (TLeaf (VInt i)) end; cbv beta match
    end
  end end.

Lemma attr_at_run lens s rest h nd i : seen lens s h nd ->
  attr_at nd i (set_stack rest s) = Ok (zget (attrs_of (node_store s) nd) i) (set_stack rest s).
Proof.
  intros Hnd. unfold attr_at. destruct ((0 <=? i) && (i <? attr_count nd)) eqn:E.
  - unfold bind, get. change (node_store (set_stack rest s)) with (node_store s). rewrite (sn_attr _ _ _ _ Hnd) by lia.
    destruct (zget_is_Some (attrs_of (node_store s) nd) i) as [x ->]; [rewrite <- (sn_attr_count _ _ _ _ Hnd); lia|]. done.
  - rewrite (proj2 (zget_None _ i)); [done|]. rewrite <- (sn_attr_count _ _ _ _ Hnd). lia.
Qed.

Lemma of_attr_resolved {A} (f : AivmNodeAttr -> A) a s attrs i :
  of_attr f a (map (resolve_attr s) attrs) i = from_option (fun x => f (resolve_attr s x)) a (zget attrs i).
Proof. unfold of_attr. rewrite zget_fmap. by destruct (zget attrs i). Qed.

(** The attribute at an index is one of the node's. *)
Lemma attr_facts lens s h nd i x : seen lens s h nd -> record_legible s nd -> zget (attrs_of (node_store s) nd) i = Some x -> attr_valid s x /\ attr_legible s x.
Proof.
  intros Hnd (_ & _ & La) Hx. pose proof (zget_Some_bounds _ _ _ Hx) as Hb. rewrite zget_lookup in Hx by lia. apply list_elem_of_lookup_2 in Hx.
  pose proof (sn_attr_texts _ _ _ _ Hnd) as Ha. rewrite Forall_forall in La, Ha. split; [by apply Ha|by apply La].
Qed.

(** The instructions that push a text of an attribute. *)
Lemma attr_text_shows lens s h i rest nd (f : AivmNodeAttr -> str_ptr) : ready lens s -> stack s = VInt i :: VNode h :: rest -> seen lens s h nd -> record_legible s nd ->
  (forall x, attr_valid s x -> attr_legible s x -> str_valid s (f x) /\ text_legible s (f x) /\ f (resolve_attr s x) = resolve_str s (f x)) ->
  outcome_of 2 s (bind (attr_at nd i) (fun attr => do! push_string_copy (from_option f (SExt []) attr) in Control.advance) (set_stack rest s))
    (string_doc (of_attr f (SExt []) (map (resolve_attr s) (attrs_of (node_store s) nd)) i)).
Proof.
  intros Hr Hs Hnd Hl Hf. unfold bind at 1. rewrite (attr_at_run lens s rest h nd i Hnd), of_attr_resolved.
  destruct (zget _ i) as [x|] eqn:Ex; cbn [from_option].
  - destruct (attr_facts lens s h nd i x Hnd Hl Ex) as [Hv Hx]. destruct (Hf x Hv Hx) as (V & L & ->).
    by apply (push_legible lens s [VInt i; VNode h] rest Hr Hs); [cbn; lia|..].
  - refine (push_text lens s [VInt i; VNode h] rest Hr Hs _ [] _ _); [cbn; lia|constructor|done].
Qed.

Lemma attr_key_shows lens s a b rest : ready lens s -> stack s = b :: a :: rest -> operand_legible s a ->
  shows 2 s (op_attr_key s) (read_result AIVM_OP_ATTR_KEY (operand_docs s [b; a])).
Proof.
  intros Hr Hs Hl. unfold op_attr_key, op_attr. node_and_index Hr Hs Hl. apply (attr_text_shows lens s h i rest nd attr_key Hr Hs Hnd); [done|].
  intros x [Vx _] [Lx _]. done.
Qed.

Lemma attr_value_kind_shows lens s a b rest : ready lens s -> stack s = b :: a :: rest -> operand_legible s a ->
  shows 2 s (op_attr_value_kind s) (read_result AIVM_OP_ATTR_VALUE_KIND (operand_docs s [b; a])).
Proof.
  intros Hr Hs Hl. unfold op_attr_value_kind, op_attr. node_and_index Hr Hs Hl.
  match goal with |- outcome_of _ _ (bind _ ?f _) _ => rewrite (bind_ext (attr_at nd i) f (fun attr => do! push_string_copy (from_option (fun x => kind_text (attr_value x)) (SExt []) attr) in Control.advance)) end;
    [|by intros [?|]].
  apply (attr_text_shows lens s h i rest nd (fun x => kind_text (attr_value x)) Hr Hs Hnd); [done|].
  intros [k v] _ _. unfold resolve_attr, kind_text.
  destruct v; (split; [|split; [split; [done|by eexists]|done]]); cbn; repeat constructor; done.
Qed.

Lemma attr_value_string_shows lens s a b rest : ready lens s -> stack s = b :: a :: rest -> operand_legible s a ->
  shows 2 s (op_attr_value_string s) (read_result AIVM_OP_ATTR_VALUE_STRING (operand_docs s [b; a])).
Proof.
  intros Hr Hs Hl. unfold op_attr_value_string, op_attr. node_and_index Hr Hs Hl.
  unfold bind at 1. rewrite (attr_at_run lens s rest h nd i Hnd), of_attr_resolved. destruct (zget _ i) as [x|] eqn:Ex; cbn [from_option].
  2: { refine (push_text lens s [VInt i; VNode h] rest Hr Hs _ [] _ _); [cbn; lia|constructor|done]. }
  destruct (attr_facts lens s h nd i x Hnd ltac:(done) Ex) as [[_ Vx] [_ Lx]].
  assert (Hnone : outcome_of 2 s ((do! push_string_copy (SExt []) in Control.advance) (set_stack rest s)) (string_doc (SExt [])))
    by (refine (push_text lens s [VInt i; VNode h] rest Hr Hs _ [] _ _); [cbn; lia|constructor|done]).
  assert (Htext : forall p, str_valid s p -> text_legible s p ->
    outcome_of 2 s ((do! push_string_copy (or_empty p) in Control.advance) (set_stack rest s)) (string_doc (resolve_str s p))).
  { intros p V L. replace (or_empty p) with p by (destruct L as [N _]; by destruct p). by apply (push_legible lens s [VInt i; VNode h] rest Hr Hs); [cbn; lia|..]. }
  destruct x as [k v]. destruct v; try exact Hnone; by apply Htext.
Qed.

Lemma attr_value_int_shows lens s a b rest : ready lens s -> stack s = b :: a :: rest -> operand_legible s a ->
  shows 2 s (op_attr_value_int s) (read_result AIVM_OP_ATTR_VALUE_INT (operand_docs s [b; a])).
Proof.
  intros Hr Hs Hl. unfold op_attr_value_int, op_attr. node_and_index Hr Hs Hl. unfold bind at 1. rewrite (attr_at_run lens s rest h nd i Hnd), of_attr_resolved.
  destruct (zget _ i) as [[k v]|]; cbn [from_option];
    [replace (int_value (attr_value (resolve_attr s (mk_attr k v)))) with (int_value v) by (by destruct v)|];
    (refine (push_plain lens s [VInt i; VNode h] rest Hr Hs _ (VInt _) _); [cbn; lia|done]).
Qed.

Lemma attr_value_bool_shows lens s a b rest : ready lens s -> stack s = b :: a :: rest -> operand_legible s a ->
  shows 2 s (op_attr_value_bool s) (read_result AIVM_OP_ATTR_VALUE_BOOL (operand_docs s [b; a])).
Proof.
  intros Hr Hs Hl. unfold op_attr_value_bool, op_attr. node_and_index Hr Hs Hl. unfold bind at 1. rewrite (attr_at_run lens s rest h nd i Hnd), of_attr_resolved.
  destruct (zget _ i) as [[k v]|]; cbn [from_option];
    [replace (bool_value (attr_value (resolve_attr s (mk_attr k v)))) with (bool_value v) by (by destruct v)|];
    (refine (push_plain lens s [VInt i; VNode h] rest Hr Hs _ (VBool _) _); [cbn; lia|done]).
Qed.

Lemma child_at_shows lens s a b rest : ready lens s -> stack s = b :: a :: rest -> operand_legible s a ->
  shows 2 s (op_child_at s) (read_result AIVM_OP_CHILD_AT (operand_docs s [b; a])).
Proof.
  intros Hr Hs Hl. unfold op_child_at. node_and_index Hr Hs Hl. rewrite zlen_map, <- (sn_child_count _ _ _ _ Hnd).
  destruct ((0 <=? i) && (i <? child_count nd)) eqn:E.
  2: { replace ((i <? 0) || (child_count nd <=? i)) with true by lia. apply (throw_shown lens s [VInt i; VNode h] rest Hr Hs). }
  replace ((i <? 0) || (child_count nd <=? i)) with false by lia. unfold bind, get. change (node_store (set_stack rest s)) with (node_store s).
  rewrite (sn_child _ _ _ _ Hnd) by lia. destruct (zget_is_Some (children_of (node_store s) nd) i) as [c Hc]; [rewrite <- (sn_child_count _ _ _ _ Hnd); lia|].
  rewrite Hc. cbn [check]. unfold ret. apply (push_usable lens s [VInt i; VNode h] rest Hr Hs); [cbn; lia| |].
  - pose proof (sn_children _ _ _ _ Hnd) as Hall. rewrite Forall_forall in Hall. apply (usable_parts lens s); [done|]. apply Hall.
    pose proof (zget_Some_bounds _ _ _ Hc). rewrite zget_lookup in Hc by lia. by eapply list_elem_of_lookup_2.
  - intros d. unfold operand. cbn [map rev app]. change ([document (S d) s (VNode h); document (S d) s (VInt i)] !! 0%nat) with (Some (document (S d) s (VNode h))).
    cbn [default from_option id]. rewrite (sn_document _ _ _ _ Hnd). cbn [children_in]. rewrite zget_fmap, Hc. by destruct d.
Qed.

Lemma pair_operand lens s h rest : ready lens s -> stack s = VPair h :: rest ->
  exists p, aivm_vm_lookup_scratch_pair s h = Some p /\ usable lens s (first p) /\ usable lens s (second p) /\
    forall d, document (S d) s (VPair h) = TPair (document d s (first p)) (document d s (second p)).
Proof.
  intros Hr Hs. pose proof (operands_usable lens s [VPair h] rest Hr Hs) as Hu. apply Forall_cons in Hu as [Hu _].
  destruct (usable_pair lens s h Hu) as (p & Hp & H1 & H2). exists p. split_and!; try done.
  - unfold pair_at in Hp. unfold aivm_vm_lookup_scratch_pair, scratch_pair_count. destruct (h <=? 0); [done|]. cbn [orb].
    pose proof (zget_Some_bounds _ _ _ Hp). by destruct (Z.ltb_spec (zlen (scratch_pairs s)) h); [lia|].
  - intros d. unfold document. cbn [unfold_value]. by rewrite Hp.
Qed.

Lemma pair_part_shows lens s a rest op name part : ready lens s -> stack s = a :: rest ->
  (op = AIVM_OP_PAIR_FIRST /\ part = first \/ op = AIVM_OP_PAIR_SECOND /\ part = second) ->
  shows 1 s (op_pair_part name part s) (read_result op (operand_docs s [a])).
Proof.
  intros Hr Hs Hop. unfold op_pair_part, bind, get. rewrite (pop_run _ _ _ Hs). cbv beta match.
  assert (Herr : forall v, exists s', pair_error name v (set_stack rest s) = Err s' /\ reported s')
    by (intros v; apply (throw_shown lens s [a] rest Hr Hs)).
  unfold shows, operand_docs. cbn [map rev app].
  destruct a as [| | | | | | | |h| | | | | | |];
    try (destruct Hop as [[-> ->]|[-> ->]]; unfold document; cbn [unfold_value unfold_node resolve_vtree read_result]; apply Herr).
  destruct (pair_operand lens s h rest Hr Hs) as (p & Hp & H1 & H2 & D).
  change (aivm_vm_lookup_scratch_pair (set_stack rest s) h) with (aivm_vm_lookup_scratch_pair s h). rewrite Hp.
  destruct Hop as [[-> ->]|[-> ->]]; unfold read_result; cbn [map rev app]; rewrite (D 0%nat);
    (apply (push_usable lens s [VPair h] rest Hr Hs); [cbn; lia|by apply (usable_parts lens s)|]; intros d; unfold operand;
     change ([document (S d) s (VPair h)] !! 0%nat) with (Some (document (S d) s (VPair h))); cbn [default from_option id]; by rewrite D).
Qed.

(** ** Making *)

(** The side conditions of a new node whose texts are literals and operands. *)
Ltac auto_literal := repeat first [done|apply Forall_nil|apply Forall_cons; split|split|cbn; repeat constructor; done].

(** A string operand. *)
Lemma string_operand lens s v : usable lens s v -> operand_legible s v ->
  match non_null v with
  | Some p => as_text (document 1 s v) = Some (resolve_str s p) /\ str_valid s p /\ p <> SNull
  | None => as_text (document 1 s v) = None
  end.
Proof.
  intros Hu Hl. pose proof (usable_valid _ _ _ Hu) as Hv. destruct v; try done.
  - cbn [non_null]. destruct Hl as [Hn _]. by rewrite bool_decide_eq_false_2.
  - unfold document. cbn. by destruct (pair_at _ _).
Qed.

Lemma make_block_shows lens s a rest : ready lens s -> stack s = a :: rest -> operand_legible s a ->
  shows 1 s (op_make_block s) (make_result AIVM_OP_MAKE_BLOCK (operand_docs s [a])).
Proof.
  intros Hr Hs Hl. pose proof (operands_usable lens s [a] rest Hr Hs) as Hu. apply Forall_cons in Hu as [Ua _].
  pose proof (string_operand lens s a Ua Hl) as Ha. unfold op_make_block, pop_string, bind. rewrite (pop_run _ _ _ Hs).
  unfold shows, operand_docs. cbn [map rev app make_result].
  destruct (non_null a) as [p|] eqn:Ea; [destruct Ha as (-> & Vp & Np)|rewrite Ha]; cbn [mbind option_bind].
  - destruct a; try done. cbn in Ea. case_bool_decide; [done|]. injection Ea as ->. unfold ret.
    apply (push_created lens s [VString p] rest Hr Hs ltac:(cbn; lia) (lit "Block") p [] []); by auto_literal.
  - destruct a; try apply (mismatch_reported lens s [_] rest Hr Hs). cbn in Ea. case_bool_decide; [|done]. apply (mismatch_reported lens s [_] rest Hr Hs).
Qed.

(** Two operands of which the first is a string. *)
Lemma make_lit_shows lens s a b rest attr_of message {A} (read : vtree -> option A) (value : A -> AivmNodeAttrValue) :
  ready lens s -> stack s = b :: a :: rest -> operand_legible s a ->
  match attr_of b with
  | Some v => exists x, read (document 1 s b) = Some x /\ attr_valid s (mk_attr (lit "value") v) /\
      resolve_attr s (normal_attr (mk_attr (lit "value") v)) = mk_attr (lit "value") (value x)
  | None => read (document 1 s b) = None
  end ->
  shows 2 s (op_make_lit attr_of message s) (id ← as_text (document 1 s a); x ← read (document 1 s b); Some (lit_doc id (value x))).
Proof.
  intros Hr Hs La Hb. pose proof (operands_usable lens s [b; a] rest Hr Hs) as Hu. apply Forall_cons in Hu as [_ Hu]. apply Forall_cons in Hu as [Ua _].
  pose proof (string_operand lens s a Ua La) as Ha. unfold op_make_lit, bind. rewrite (pop_operands_run _ _ _ _ Hs).
  destruct (non_null a) as [p|]; [destruct Ha as (-> & Vp & Np)|rewrite Ha; apply (mismatch_reported lens s [_; _] rest Hr Hs)].
  destruct (attr_of b) as [v|]; [destruct Hb as (x & -> & Vv & Rv)|rewrite Hb; apply (mismatch_reported lens s [_; _] rest Hr Hs)].
  cbn [mbind option_bind shows]. unfold lit_doc. change (literal "value") with (lit "value"). rewrite <- Rv.
  apply (push_created lens s [b; a] rest Hr Hs ltac:(cbn; lia) (lit "Lit") p [mk_attr (lit "value") v] []); auto_literal.
Qed.

Lemma make_lit_string_shows lens s a b rest : ready lens s -> stack s = b :: a :: rest -> operand_legible s a -> operand_legible s b ->
  shows 2 s (op_make_lit_string s) (make_result AIVM_OP_MAKE_LIT_STRING (operand_docs s [b; a])).
Proof.
  intros Hr Hs La Lb. apply (make_lit_shows lens s a b rest _ _ as_text NAString Hr Hs La).
  pose proof (operands_usable lens s [b; a] rest Hr Hs) as Hu. apply Forall_cons in Hu as [Ub _].
  pose proof (string_operand lens s b Ub Lb) as Hb. destruct (non_null b) as [q|]; cbn [fmap option_fmap option_map]; [|done].
  destruct Hb as (E & Vq & Nq). exists (resolve_str s q). split; [done|]. split; [auto_literal|]. by destruct q.
Qed.

Lemma make_lit_int_shows lens s a b rest : ready lens s -> stack s = b :: a :: rest -> operand_legible s a ->
  shows 2 s (op_make_lit_int s) (make_result AIVM_OP_MAKE_LIT_INT (operand_docs s [b; a])).
Proof.
  intros Hr Hs La. apply (make_lit_shows lens s a b rest _ _ as_int NAInt Hr Hs La).
  destruct b; try done; [|unfold document; cbn; by destruct (pair_at _ _)]. exists i. split; [done|]. split; [auto_literal|done].
Qed.

Lemma make_lit_bool_shows lens s a b rest : ready lens s -> stack s = b :: a :: rest -> operand_legible s a ->
  shows 2 s (op_make_lit_bool s) (make_result AIVM_OP_MAKE_LIT_BOOL (operand_docs s [b; a])).
Proof.
  intros Hr Hs La. apply (make_lit_shows lens s a b rest _ _ as_bool NABool Hr Hs La).
  destruct b; try done; [|unfold document; cbn; by destruct (pair_at _ _)]. exists b. split; [done|]. split; [auto_literal|done].
Qed.

Lemma make_node_empty_shows lens s a b rest : ready lens s -> stack s = b :: a :: rest -> operand_legible s a -> operand_legible s b ->
  shows 2 s (op_make_node_empty s) (make_result AIVM_OP_MAKE_NODE_EMPTY (operand_docs s [b; a])).
Proof.
  intros Hr Hs La Lb. pose proof (operands_usable lens s [b; a] rest Hr Hs) as Hu. apply Forall_cons in Hu as [Ub Hu]. apply Forall_cons in Hu as [Ua _].
  pose proof (string_operand lens s a Ua La) as Ha. pose proof (string_operand lens s b Ub Lb) as Hb.
  unfold op_make_node_empty, bind, operand_docs. rewrite (pop_operands_run _ _ _ _ Hs). cbn [map rev app make_result].
  destruct (non_null a) as [p|]; [destruct Ha as (-> & Vp & Np)|rewrite Ha; apply (mismatch_reported lens s [_; _] rest Hr Hs)].
  destruct (non_null b) as [q|]; [destruct Hb as (-> & Vq & Nq)|rewrite Hb; apply (mismatch_reported lens s [_; _] rest Hr Hs)].
  apply (push_created lens s [b; a] rest Hr Hs ltac:(cbn; lia) p q [] []); auto_literal.
Qed.

Lemma make_err_shows lens s a b c d rest : ready lens s -> stack s = d :: c :: b :: a :: rest ->
  operand_legible s a -> operand_legible s b -> operand_legible s c -> operand_legible s d ->
  shows 4 s (op_make_err s) (make_result AIVM_OP_MAKE_ERR (operand_docs s [d; c; b; a])).
Proof.
  intros Hr Hs La Lb Lc Ld. pose proof (operands_usable lens s [d; c; b; a] rest Hr Hs) as Hu. decompose_Forall.
  pose proof (string_operand lens s a ltac:(done) La) as Ha. pose proof (string_operand lens s b ltac:(done) Lb) as Hb.
  pose proof (string_operand lens s c ltac:(done) Lc) as Hc. pose proof (string_operand lens s d ltac:(done) Ld) as Hd.
  assert (Hm : exists s', @mismatch unit "MAKE_ERR requires (string,string,string,string)." (set_stack rest s) = Err s' /\ reported s')
    by apply (mismatch_reported lens s [d; c; b; a] rest Hr Hs).
  unfold op_make_err, bind, operand_docs. rewrite (pop_run _ _ _ Hs).
  rewrite (pop_run (set_stack _ s) c (b :: a :: rest)), (pop_run (set_stack _ _) b (a :: rest)), (pop_run (set_stack _ _) a rest) by done.
  change (set_stack rest _) with (set_stack rest s). cbn [map rev app make_result].
  destruct (non_null a) as [p|]; [destruct Ha as (-> & Vp & Np)|rewrite Ha; by destruct (non_null d), (non_null c), (non_null b)].
  destruct (non_null b) as [q|]; [destruct Hb as (-> & Vq & Nq)|rewrite Hb; by destruct (non_null d), (non_null c)].
  destruct (non_null c) as [r|]; [destruct Hc as (-> & Vr & Nr)|rewrite Hc; by destruct (non_null d)].
  destruct (non_null d) as [t|]; [destruct Hd as (-> & Vt & Nt)|by rewrite Hd]. cbn [mbind option_bind shows].
  pose proof (push_created lens s [d; c; b; a] rest Hr Hs ltac:(cbn; lia) (lit "Err") p
    [mk_attr (lit "code") (NAIdentifier q); mk_attr (lit "message") (NAString r); mk_attr (lit "nodeId") (NAIdentifier t)] []) as Hp.
  cbn [map] in Hp. unfold normal_attr in Hp. cbn [attr_text attr_value attr_key set_attr_text] in Hp.
  replace (or_empty q) with q in Hp by (by destruct q). replace (or_empty r) with r in Hp by (by destruct r). replace (or_empty t) with t in Hp by (by destruct t).
  apply Hp; auto_literal.
Qed.

(** The copies of the ranges of a record. *)
Lemma copy_slots_run {A} (slots : list A) start capacity message s : 0 <= start -> zlen slots <= capacity <= SIZE_MAX ->
  forall count i, 0 <= i -> start + i + Z.of_nat count <= zlen slots ->
  copy_slots count slots start i capacity message s = Ok (slice slots (start + i) (Z.of_nat count)) s.
Proof.
  intros H1 H2. induction count as [|count IH]; intros i Hi Hb; cbn [copy_slots]; [done|].
  rewrite (proj2 (size_add_checked_Some start i (start + i))) by (split; [lia|done]). destruct (Z.leb_spec capacity (start + i)); [lia|].
  destruct (zget_is_Some slots (start + i)) as [x Hx]; [lia|]. rewrite Hx. unfold bind, check, ret. rewrite IH by lia.
  rewrite (slice_cons slots (start + i) (Z.of_nat (S count)) x) by (try done; lia). do 3 f_equal; lia.
Qed.

Lemma base_attrs_run lens s s2 h nd message : seen lens s h nd -> node_store s2 = node_store s ->
  base_attrs nd message s2 = Ok (attrs_of (node_store s) nd) s2.
Proof.
  intros Hnd E. destruct (sn_attrs_fit _ _ _ _ Hnd) as (? & ? & ?). pose proof (zlen_nonneg (attrs_of (node_store s) nd)) as Hz.
  rewrite <- (sn_attr_count _ _ _ _ Hnd) in Hz. unfold base_attrs, bind, get. rewrite E.
  rewrite copy_slots_run by lia. unfold attrs_of. by rewrite Z.add_0_r, Z2Nat.id.
Qed.

Lemma base_children_run lens s s2 h nd message : seen lens s h nd -> node_store s2 = node_store s ->
  base_children nd message s2 = Ok (children_of (node_store s) nd) s2.
Proof.
  intros Hnd E. destruct (sn_children_fit _ _ _ _ Hnd) as (? & ? & ?). pose proof (zlen_nonneg (children_of (node_store s) nd)) as Hz.
  rewrite <- (sn_child_count _ _ _ _ Hnd) in Hz. unfold base_children, bind, get. rewrite E.
  rewrite copy_slots_run by lia. unfold children_of. by rewrite Z.add_0_r, Z2Nat.id.
Qed.

(** The scratch arrays of APPEND_CHILD and APPEND_ATTR are no part of the VM. *)
Lemma ready_tick lens s t : ready lens s -> ready lens (set_tick t s).
Proof.
  intros [Hh Hs]. split; [|by apply (stack_inv_view s)]. apply (reroot lens s); [done|done|]. apply (usable_roots lens s Hh).
Qed.

Lemma outcome_tick k s t r doc : outcome_of k (set_tick t s) r doc -> outcome_of k s r doc.
Proof.
  destruct r as [u s'|s'|]; [|done|done]. intros [P1 (v & rest & E & D & F) P3 P4 P5 P6 P7].
  assert (Tr : forall a b, same_document (set_tick t s) s' a b -> same_document s s' a b)
    by (intros a b Hab d; rewrite Hab; by apply document_parts).
  assert (Tn : forall a b, same_node_document (set_tick t s) s' a b -> same_node_document s s' a b)
    by (intros a b Hab d; rewrite Hab; by apply node_document_parts).
  split; try done.
  - exists v, rest. split; [done|]. split; [done|]. by eapply Forall2_impl.
  - by eapply Forall2_impl.
  - by eapply Forall2_impl.
  - eapply Forall2_impl; [exact P5|]. intros h h' Hh Hp. destruct (Hh Hp). split; [done|by apply Tn].
Qed.

Lemma append_scratch_run size1 size2 message s : exists t,
  append_scratch size1 size2 message s = Ok tt (set_tick t s) \/
  append_scratch size1 size2 message s = throw AIVM_VM_ERR_MEMORY_PRESSURE (DText message) (set_tick t s).
Proof. unfold append_scratch, bind, alloc. exists (S (S (tick s))). destruct (_ && _); [by left|by right]. Qed.

Section Append.

Context (lens : list Z) (s : AivmVm) (a b : Z) (rest : list AivmValue).
Context (Hr : ready lens s) (Hs : stack s = [VNode b; VNode a] ++ rest).
Context (La : operand_legible s (VNode a)).
Local Abbreviation ops := [VNode b; VNode a].

(** A copy of the first node with other attributes and children. *)
Lemma push_changed nd attrs children doc size1 size2 message k :
  seen lens s a nd -> record_legible s nd -> Forall (attr_valid s) attrs -> Forall (reachable_node (set_stack rest s) []) children ->
  (forall d, doc d = node_doc (resolve_str s (node_kind nd)) (resolve_str s (node_id nd)) (map (fun x => resolve_attr s (normal_attr x)) attrs)
     (fun d => map (node_document d s) children) d) ->
  (forall t, k tt (set_tick t (set_stack rest s)) = push_node (node_kind nd) (node_id nd) attrs children (set_tick t (set_stack rest s))) ->
  outcome_of 2 s (bind (append_scratch size1 size2 message) k (set_stack rest s)) doc.
Proof.
  intros Hnd (Lk & Li & _) Va Hc Hdoc Hk. destruct (append_scratch_run size1 size2 message (set_stack rest s)) as [t [E|E]]; unfold bind; rewrite E.
  - rewrite Hk. apply (outcome_tick 2 s t). pose proof (ready_tick lens s t Hr) as Hr'. destruct Lk as [Nk _], Li as [Ni _].
    pose proof (push_created lens (set_tick t s) ops rest Hr' Hs ltac:(cbn; lia) (node_kind nd) (node_id nd) attrs children
      (sn_kind _ _ _ _ Hnd) (sn_id _ _ _ _ Hnd) Nk Ni Va Hc) as Hp.
    change (set_tick t (set_stack rest s)) with (set_stack rest (set_tick t s)).
    destruct (push_node _ _ _ _ _) as [u s'|s'|]; [|done|done]. destruct Hp as [P1 (v & rest' & E1 & D & F) P3 P4 P5 P6 P7]. split; try done.
    exists v, rest'. split; [done|]. split; [|done]. intros d. rewrite D, Hdoc. unfold node_doc. destruct d as [|d]; [done|].
    do 2 f_equal. apply map_ext. intros c. by apply node_document_parts.
  - apply (throw_reported lens). apply (ready_tick lens (set_stack rest s) t). by apply (ready_drop lens s ops rest).
Qed.

End Append.

(** The children of the new node are still held once the operands are off the stack. *)
Definition still_held (s : AivmVm) (rest : list AivmValue) (op : AivmOpcode) (ops : list AivmValue) : Prop :=
  match op, ops with
  | AIVM_OP_APPEND_CHILD, [VNode b; VNode a] => forall nd, aivm_vm_lookup_node (node_store s) a = Some nd ->
      Forall (reachable_node (set_stack rest s) []) (children_of (node_store s) nd ++ [b])
  | AIVM_OP_APPEND_ATTR, [VNode _; VNode a] => forall nd, aivm_vm_lookup_node (node_store s) a = Some nd ->
      Forall (reachable_node (set_stack rest s) []) (children_of (node_store s) nd)
  | _, _ => True
  end.

Lemma normal_legible s x : attr_legible s x -> resolve_attr s (normal_attr x) = resolve_attr s x.
Proof.
  intros [[Nk _] Lv]. destruct x as [k v]. unfold normal_attr. cbn [attr_key attr_value] in *. replace (or_empty k) with k by (by destruct k).
  destruct v; cbn; try done; destruct Lv as [Np _]; by destruct p.
Qed.

Lemma normal_legible_all s xs : Forall (attr_legible s) xs -> map (fun x => resolve_attr s (normal_attr x)) xs = map (resolve_attr s) xs.
Proof. intros Hx. apply map_ext_in. intros x Hin. rewrite Forall_forall in Hx. apply normal_legible, Hx. by apply list_elem_of_In. Qed.

(** Two operands of which one is not a node. *)
Lemma not_two_nodes s a b : as_node a = None \/ as_node b = None ->
  make_result AIVM_OP_APPEND_CHILD (operand_docs s [b; a]) = None /\ make_result AIVM_OP_APPEND_ATTR (operand_docs s [b; a]) = None.
Proof.
  unfold operand_docs. cbn [map rev app make_result]. intros [E|E]; pose proof (fun t => no_node_document s 1 _ t E) as Hno.
  - destruct (document 1 s a) as [[]|[]| | |]; try done; by destruct (Hno _ eq_refl).
  - destruct (document 1 s a) as [[]|[]| | |]; try done; destruct (document 1 s b) as [[]|[]| | |]; try done; by destruct (Hno _ eq_refl).
Qed.

Lemma append_child_shows lens s a b rest : ready lens s -> stack s = b :: a :: rest -> operand_legible s a -> operand_legible s b ->
  still_held s rest AIVM_OP_APPEND_CHILD [b; a] ->
  shows 2 s (op_append_child s) (make_result AIVM_OP_APPEND_CHILD (operand_docs s [b; a])).
Proof.
  intros Hr Hs La Lb Hheld. unfold op_append_child. unfold bind at 1 2, get. rewrite (pop_operands_run _ _ _ _ Hs). cbv beta match.
  pose proof (mismatch_reported lens s [b; a] rest Hr Hs (A := unit) "APPEND_CHILD requires (node,node).") as Hm.
  destruct (as_node a) as [g|] eqn:Ea.
  2: { rewrite (proj1 (not_two_nodes s a b (or_introl Ea))), lookup_no_node by done. exact Hm. }
  apply as_node_Some in Ea as ->. destruct (operand_seen lens s [b; VNode g] rest g Hr Hs ltac:(right; by left) La) as (nd & Hnd & Lnd).
  cbn [lookup_value]. change (node_store (set_stack rest s)) with (node_store s). rewrite (sn_lookup _ _ _ _ Hnd).
  destruct (as_node b) as [h|] eqn:Eb.
  2: { rewrite (proj1 (not_two_nodes s (VNode g) b (or_intror Eb))). destruct b; try done; exact Hm. }
  apply as_node_Some in Eb as ->. destruct (operand_seen lens s [VNode h; VNode g] rest h Hr Hs ltac:(by left) Lb) as (nc & Hnc & _).
  rewrite (sn_lookup _ _ _ _ Hnc). unfold operand_docs. cbn [map rev app make_result]. rewrite (sn_document _ _ _ _ Hnd), (sn_document _ _ _ _ Hnc).
  cbn [shows]. assert (Hh1 : heap_with lens (set_stack rest s)) by apply (dropped lens s [VNode h; VNode g] rest Hr Hs).
  destruct (_ <? attr_count nd); [by apply (throw_reported lens)|]. destruct (aivm_size_add_checked _ 1); [|by apply (throw_reported lens)].
  destruct (_ <? _); [by apply (throw_reported lens)|].
  eapply (push_changed lens s g h rest Hr Hs nd (attrs_of (node_store s) nd) (children_of (node_store s) nd ++ [h])); try done.
  - apply Hnd.
  - exact (Hheld nd (sn_lookup _ _ _ _ Hnd)).
  - intros [|d]; [done|]. unfold node_doc, operand. rewrite (normal_legible_all s); [|apply Lnd]. do 2 f_equal. rewrite map_app. f_equal.
    + cbn [map rev app lookup list_lookup default from_option id]. by rewrite (sn_document _ _ _ _ Hnd).
    + by destruct d.
  - intros t. unfold bind. by rewrite (base_attrs_run lens s _ g nd), (base_children_run lens s _ g nd).
Qed.

Lemma append_attr_shows lens s a b rest : ready lens s -> stack s = b :: a :: rest -> operand_legible s a -> operand_legible s b ->
  still_held s rest AIVM_OP_APPEND_ATTR [b; a] ->
  shows 2 s (op_append_attr s) (make_result AIVM_OP_APPEND_ATTR (operand_docs s [b; a])).
Proof.
  intros Hr Hs La Lb Hheld. unfold op_append_attr. unfold bind at 1 2, get. rewrite (pop_operands_run _ _ _ _ Hs). cbv beta match.
  pose proof (mismatch_reported lens s [b; a] rest Hr Hs (A := unit) "APPEND_ATTR requires (node,node).") as Hm.
  destruct (as_node a) as [g|] eqn:Ea.
  2: { rewrite (proj2 (not_two_nodes s a b (or_introl Ea))), lookup_no_node by done. exact Hm. }
  apply as_node_Some in Ea as ->. destruct (operand_seen lens s [b; VNode g] rest g Hr Hs ltac:(right; by left) La) as (nd & Hnd & Lnd).
  destruct (as_node b) as [h|] eqn:Eb.
  2: { rewrite (proj2 (not_two_nodes s (VNode g) b (or_intror Eb))), (lookup_no_node _ b) by done. cbn [lookup_value].
       change (node_store (set_stack rest s)) with (node_store s). rewrite (sn_lookup _ _ _ _ Hnd). exact Hm. }
  apply as_node_Some in Eb as ->. destruct (operand_seen lens s [VNode h; VNode g] rest h Hr Hs ltac:(by left) Lb) as (nc & Hnc & Lnc).
  cbn [lookup_value]. change (node_store (set_stack rest s)) with (node_store s). rewrite (sn_lookup _ _ _ _ Hnd), (sn_lookup _ _ _ _ Hnc).
  unfold operand_docs. cbn [map rev app make_result]. rewrite (sn_document _ _ _ _ Hnd), (sn_document _ _ _ _ Hnc).
  assert (Hh1 : heap_with lens (set_stack rest s)) by apply (dropped lens s [VNode h; VNode g] rest Hr Hs).
  assert (Hx : forall i, 0 <= i < attr_count nc -> zget (node_attrs (node_store s)) (attr_start nc + i) = zget (attrs_of (node_store s) nc) i) by apply Hnc.
  assert (Vx : Forall (attr_valid s) (attrs_of (node_store s) nc)) by apply Hnc. assert (Lx : Forall (attr_legible s) (attrs_of (node_store s) nc)) by apply Lnc.
  rewrite (sn_attr_count _ _ _ _ Hnc) in *. destruct (attrs_of (node_store s) nc) as [|x [|y xs]]; cbn [map shows].
  - eexists. split; [reflexivity|by apply (throw_reported lens)].
  - change (negb (zlen [x] =? 1)) with false. cbv match. destruct (aivm_size_add_checked _ 1); [|by apply (throw_reported lens)].
    destruct (_ || _); [by apply (throw_reported lens)|]. apply Forall_cons in Vx as [[Vk Vv] _], Lx as [[_ Lv] _]. destruct Lnc as (_ & [Ni Li] & _).
    eapply (push_changed lens s g h rest Hr Hs nd (attrs_of (node_store s) nd ++ [mk_attr (node_id nc) (attr_value x)]) (children_of (node_store s) nd)); try done.
    + apply Forall_app. split; [apply Hnd|]. apply Forall_singleton. split; [apply Hnc|done].
    + exact (Hheld nd (sn_lookup _ _ _ _ Hnd)).
    + intros [|d]; [done|]. unfold node_doc, operand. rewrite (normal_legible_all s).
      2: { apply Forall_app. split; [apply Lnd|]. apply Forall_singleton. by split. }
      do 2 f_equal; [by rewrite map_app|]. cbn [map rev app lookup list_lookup default from_option id]. by rewrite (sn_document _ _ _ _ Hnd).
    + intros t. specialize (Hx 0 ltac:(change (zlen [x]) with 1; lia)). rewrite Z.add_0_r in Hx. unfold bind. rewrite (base_attrs_run lens s _ g nd) by done.
      rewrite Hx. cbn [check zget]. change (zget [x] 0) with (Some x). unfold check, ret. by rewrite (base_children_run lens s _ g nd).
  - assert (zlen (x :: y :: xs) <> 1) by (rewrite !zlen_cons; pose proof (zlen_nonneg xs); lia).
    rewrite (proj2 (Z.eqb_neq _ _)) by done. cbn [negb]. eexists. split; [reflexivity|by apply (throw_reported lens)].
Qed.

(** ** All of them *)

Definition node_arity (op : AivmOpcode) : option nat := match read_arity op with Some k => Some k | None => make_arity op end.
Definition node_result (op : AivmOpcode) (docs : nat -> list vtree) : option (nat -> vtree) :=
  match read_arity op with Some _ => read_result op docs | None => make_result op docs end.

(** C8: every instruction that takes a node, a pair or a tuple apart or
    makes a block, a literal, an error, an empty node or a changed copy of a node, run
    from a well-formed heap on operands whose texts can be read, replaces its operands by
    a value whose document the
    specification computes from theirs, at every depth and however the arenas are grown
    or compacted on the way, or reports an error with the heap still well-formed; it
    reports one whenever the specification has no result.  For APPEND_CHILD and
    APPEND_ATTR this needs the children of the new node to be held by something other than
    the two operands ([still_held]): the operands are off the stack while the node is
    made, and a collection then frees what only they hold. *)
Theorem node_op_refines lens s i m k ops rest :
  ready lens s -> node_op i = Some m -> node_arity (opcode i) = Some k ->
  stack s = ops ++ rest -> length ops = k -> Forall (operand_legible s) ops -> still_held s rest (opcode i) ops ->
  shows k s (m s) (node_result (opcode i) (operand_docs s ops)).
Proof.
  intros Hr Hm Hk Hs Hlen Hleg Hheld. unfold node_op in Hm.
  destruct (opcode i); try discriminate Hk; injection Hm as <-; injection Hk as <-;
    destruct ops as [|a [|b [|c [|d [|]]]]]; try discriminate Hlen; decompose_Forall.
  all: first [by eapply pair_part_shows; eauto|by eapply node_kind_shows|by eapply node_id_shows|by eapply attr_count_shows|by eapply child_count_shows
    |by eapply attr_key_shows|by eapply attr_value_kind_shows|by eapply attr_value_string_shows|by eapply attr_value_int_shows
    |by eapply attr_value_bool_shows|by eapply child_at_shows|by eapply make_block_shows|by eapply make_lit_string_shows
    |by eapply make_lit_int_shows|by eapply make_lit_bool_shows|by eapply make_node_empty_shows|by eapply make_err_shows
    |by eapply append_child_shows|by eapply append_attr_shows].
Qed.

End Host.

(** Node 1 three times: appended to a copy of itself, and held below. *)
Definition append_start : AivmVm := set_stack [VNode 1; VNode 1; VNode 1] example_strings.

Lemma append_start_ready : ready [] append_start.
Proof.
  assert (Hf : heap_with [] example_strings).
  { split; [apply example_heap_ok|]. split; [by split; [constructor|]|by vm_compute| |].
    - change (root_values example_strings) with [VNode 1; VString (SArena 0 7)]. by repeat constructor.
    - intros i p _ Hp. pose proof (zget_Some_bounds _ _ _ Hp) as Hb. change (zlen _) with 0 in Hb. lia. }
  split; [|split; try done; by vm_compute]. apply (reroot [] example_strings); [exact Hf|done|]. pose proof (usable_roots _ _ Hf) as Hu.
  change (root_values example_strings) with [VNode 1; VString (SArena 0 7)] in Hu. apply Forall_cons in Hu as [Hn _].
  change (root_values append_start) with [VNode 1; VNode 1; VNode 1]. by do 3 (apply Forall_cons; split; [exact Hn|]).
Qed.

Lemma append_start_held : still_held append_start [VNode 1] AIVM_OP_APPEND_CHILD [VNode 1; VNode 1].
Proof.
  intros nd [= <-]. change (children_of _ _) with (@nil Z). cbn [app]. apply Forall_singleton. exists 1. split; [left; by left|].
  split; [done|constructor].
Qed.

(** MAKE_LIT_STRING on the id "n" and the text "hi", and APPEND_CHILD. *)
Lemma node_op_refines_witness :
  shows 2 text_start (op_make_lit_string (H := example_host) text_start)
    (Some (lit_doc (literal "n") (NAString (literal "hi")))) /\
  match op_make_lit_string (H := example_host) text_start with
  | Ok _ s' => option_map (document 1 s') (hd_error (stack s')) = Some (lit_doc (literal "n") (NAString (literal "hi")) 1)
  | _ => False
  end /\
  shows 2 append_start (op_append_child (H := example_host) append_start)
    (node_result AIVM_OP_APPEND_CHILD (operand_docs append_start [VNode 1; VNode 1])) /\
  match op_append_child (H := example_host) append_start with
  | Ok _ s' => match hd_error (stack s') with Some (VNode h) => h = 2 /\ option_map child_count (aivm_vm_lookup_node (node_store s') h) = Some 1 | _ => False end
  | _ => False
  end.
Proof.
  split; [|split; [by vm_compute|split; [|by vm_compute]]].
  - refine (node_op_refines (H := example_host) [] text_start (mk_instruction AIVM_OP_MAKE_LIT_STRING 0) op_make_lit_string 2
      [VString (SArena 0 7); VString (SArena 0 5)] [VNode 1] text_start_ready eq_refl eq_refl eq_refl eq_refl _ I).
    constructor; [|constructor; [|constructor]]; (split; [done|eexists; split; [vm_compute; reflexivity|by vm_compute]]).
  - refine (node_op_refines (H := example_host) [] append_start (mk_instruction AIVM_OP_APPEND_CHILD 0) op_append_child 2
      [VNode 1; VNode 1] [VNode 1] append_start_ready eq_refl eq_refl eq_refl eq_refl _ append_start_held).
    constructor; [|constructor; [|constructor]]; (intros nd [= <-]; split; [|split; [|constructor]]);
      (split; [done|eexists; split; [vm_compute; reflexivity|by vm_compute]]).
Defined.
