(* ===== verification/Tasks.v ===== *)
(** * Tasks and parallel contexts (src/src/aivm_vm.c)

    The table of tasks: a task is pending until its worker has finished, then it has a
    result; AWAIT and PAR_JOIN consume results, and a slot is reclaimed when no value
    names its handle any more.  The threads of ASYNC_CALL and the worker runtime are in
    AsyncCalls.v and WorkerTasks.v: here they are an interface. *)

From S2P Require Import Prelude Types Program Vm Memory Lifecycle Stack Control NumberText Roots Pairs NodeGc NodeCreate Collector.

Definition put_table (f : TaskTable AivmVm -> TaskTable AivmVm) : M unit := modify (fun s => set_task_table (f (task_table s)) s).
Definition get_table : M (TaskTable AivmVm) := gets task_table.

Definition is_terminal_task_state (state : AivmTaskState) : bool :=
  match state with AIVM_TASK_STATE_PENDING => false | _ => true end.

Definition set_task_state (state : AivmTaskState) (t : AivmCompletedTask) : AivmCompletedTask :=
  mk_task state (task_handle t) (task_result t) (worker_context t) (worker_catalog_index t) (is_worker_task t).

Definition transition_task_state (t : AivmCompletedTask) (next_state : AivmTaskState) : M AivmCompletedTask :=
  match task_state t, next_state with
  | AIVM_TASK_STATE_PENDING, (AIVM_TASK_STATE_COMPLETED | AIVM_TASK_STATE_FAILED | AIVM_TASK_STATE_CANCELED) =>
      ret (set_task_state next_state t)
  | _, _ => throw AIVM_VM_ERR_INVALID_PROGRAM (DText "Task state transition was invalid.")
  end.

Definition value_matches_task_handle (value : AivmValue) (handle : Z) : bool :=
  match value with VTask h => h =? handle | _ => false end.

Definition is_task_handle_pinned (s : AivmVm) (handle : Z) : bool :=
  existsb (fun v => value_matches_task_handle v handle) (stack_part s) ||
  existsb (fun v => value_matches_task_handle v handle) (locals_part s) ||
  existsb (fun v => value_matches_task_handle v handle) (par_values s) ||
  existsb (fun t => negb (task_handle t =? handle) && value_matches_task_handle (task_result t) handle) (completed_tasks s).

Definition is_consumed_task_handle (s : AivmVm) (handle : Z) : bool :=
  existsb (Z.eqb handle) (consumed_task_handles (task_table s)).

Definition retain_consumed_task_tombstone (handle : Z) : M unit :=
  let! s := get in
  if is_consumed_task_handle s handle then ret tt
  else if AIVM_VM_TASK_CAPACITY <=? zlen (consumed_task_handles (task_table s))
  then throw AIVM_VM_ERR_INVALID_PROGRAM (DText "Task consumed tombstone capacity exceeded.")
  else put_table (fun t => set_consumed_task_handles (consumed_task_handles t ++ [handle]) t).

Definition count_reclaimed : M unit :=
  put_table (fun t => set_task_reclaim_count (aivm_counter_increment_saturating (task_reclaim_count t)) t).
Definition count_skipped : M unit :=
  put_table (fun t => set_task_reclaim_skip_pinned_count (aivm_counter_increment_saturating (task_reclaim_skip_pinned_count t)) t).
Definition count_exhausted : M unit :=
  put_table (fun t => set_task_reclaim_exhausted_count (aivm_counter_increment_saturating (task_reclaim_exhausted_count t)) t).

(** What the other components do for tasks: free the context of a thread (waiting for
    it), complete a pending task, and fill the task table from the batches. *)
Class TaskWork := {
  free_context : Z -> M unit;
  complete_pending_task : Z -> M unit;
  refill_worker_task_groups : M unit }.

Section Tasks.

Context `{Host} `{TaskWork}.

(** The first terminal slot no value names; the others are counted as skipped. *)
Fixpoint reclaim_scan (tasks : list AivmCompletedTask) (index : Z) : M (option Z) :=
  match tasks with
  | [] => ret None
  | t :: rest =>
      let! s := get in
      if is_terminal_task_state (task_state t) && negb (is_task_handle_pinned s (task_handle t)) then ret (Some index)
      else do! count_skipped in reclaim_scan rest (index + 1)
  end.

(** Free the context of the slot, close the gap and count. *)
Definition drop_task_slot (index : Z) : M unit :=
  let! s := get in
  let! t := check (zget (completed_tasks s) index) in
  do! (match worker_context t with Some c => free_context c | None => ret tt end) in
  do! modify (fun s => set_completed_tasks (ztake index (completed_tasks s) ++ zdrop (index + 1) (completed_tasks s)) s) in
  count_reclaimed.

Definition reclaim_oldest_completed_task_slot : M unit :=
  let! s := get in
  if zlen (completed_tasks s) =? 0 then ret tt
  else
    let! found := reclaim_scan (completed_tasks s) 0 in
    match found with
    | None => do! count_exhausted in fail
    | Some index => drop_task_slot index
    end.

(** The first slot with the handle. *)
Fixpoint task_index (tasks : list AivmCompletedTask) (handle index : Z) : option Z :=
  match tasks with
  | [] => None
  | t :: rest => if task_handle t =? handle then Some index else task_index rest handle (index + 1)
  end.

Definition remove_completed_task_slot (handle : Z) : M unit :=
  let! s := get in
  match task_index (completed_tasks s) handle 0 with
  | None => fail
  | Some index => drop_task_slot index
  end.

(** The result of the removal is ignored. *)
Definition remove_task_if_present (handle : Z) : M unit := or_else (remove_completed_task_slot handle) (ret tt).

Definition release_consumed_task_result (handle : Z) : M unit :=
  let! s := get in
  do! (if is_task_handle_pinned s handle then
         do! retain_consumed_task_tombstone handle in count_skipped
       else ret tt) in
  do! remove_task_if_present handle in
  do! refill_worker_task_groups in
  aivm_collect_safe_point.

(** Room in the task table, and the number of the next task. *)
Definition table_full {A} : M A := throw AIVM_VM_ERR_INVALID_PROGRAM (DText "Task table capacity exceeded.").

Definition make_task_room : M unit :=
  let! s := get in
  if AIVM_VM_TASK_CAPACITY <=? zlen (completed_tasks s) then or_else reclaim_oldest_completed_task_slot table_full else ret tt.

Definition check_next_handle : M unit :=
  let! t := get_table in
  if next_task_handle t =? INT64_MAX then throw AIVM_VM_ERR_INVALID_PROGRAM (DText "Task handle overflow.") else ret tt.

Definition take_task_handle : M Z :=
  let! t := get_table in
  do! put_table (fun t => set_next_task_handle (next_task_handle t + 1) t) in
  ret (next_task_handle t).

Definition check_task_count : M unit :=
  let! s := get in
  match aivm_size_add_checked (zlen (completed_tasks s)) 1 with
  | Some needed => if AIVM_VM_TASK_CAPACITY <? needed then table_full else ret tt
  | None => table_full
  end.

Definition add_task (t : AivmCompletedTask) : M unit := modify (fun s => set_completed_tasks (completed_tasks s ++ [t]) s).

(** The handle is taken before the capacity is checked again. *)
Definition push_completed_task (result : AivmValue) : M unit :=
  do! make_task_room in
  do! check_next_handle in
  let! handle := take_task_handle in
  do! check_task_count in
  let! t := transition_task_state (mk_task AIVM_TASK_STATE_PENDING handle result None 0 false) AIVM_TASK_STATE_COMPLETED in
  do! add_task t in
  aivm_stack_push (VTask handle).

Definition aivm_vm_allocate_worker_task (catalog_index : Z) : M Z :=
  do! make_task_room in
  do! check_next_handle in
  do! check_task_count in
  let! handle := take_task_handle in
  do! add_task (mk_task AIVM_TASK_STATE_PENDING handle VVoid None catalog_index true) in
  ret handle.

Definition aivm_vm_discard_worker_task (handle : Z) : M unit := remove_task_if_present handle.

(** A failed or canceled task must have an Err node. *)
Definition task_terminal_payload_is_valid (s : AivmVm) (t : AivmCompletedTask) : option bool :=
  match task_state t with
  | AIVM_TASK_STATE_FAILED | AIVM_TASK_STATE_CANCELED =>
      match task_result t with
      | VNode h =>
          match aivm_vm_lookup_node (node_store s) h with
          | Some node => (fun kind => bool_decide (kind = bytes_of_string "Err")) <$> read_str s (node_kind node)
          | None => Some false
          end
      | _ => Some false
      end
  | _ => Some true
  end.

(** The slots from [index] on; a pending slot with the handle is completed first.
    [None] when no slot has the handle. *)
Fixpoint find_task_loop (fuel : nat) (handle index : Z) : M (option AivmValue) :=
  let! s := get in
  match zget (completed_tasks s) index with
  | None => ret None
  | Some t =>
      match fuel with
      | O => undef
      | S fuel' =>
          do! (if (task_handle t =? handle) && negb (is_terminal_task_state (task_state t)) then complete_pending_task index else ret tt) in
          let! s := get in
          let! t := check (zget (completed_tasks s) index) in
          if is_terminal_task_state (task_state t) && (task_handle t =? handle) then
            let! valid := check (task_terminal_payload_is_valid s t) in
            if valid then ret (Some (task_result t))
            else throw AIVM_VM_ERR_INVALID_PROGRAM (DText "Terminal failed/canceled task requires Err node result.")
          else find_task_loop fuel' handle (index + 1)
      end
  end.

Definition find_terminal_task_result (handle : Z) : M AivmValue :=
  let! s := get in
  let! found := find_task_loop (length (completed_tasks s)) handle 0 in
  match found with
  | Some result => ret result
  | None =>
      let! s := get in
      if is_consumed_task_handle s handle then throw AIVM_VM_ERR_INVALID_PROGRAM (DText "TASK_CONSUMED") else fail
  end.

(** ** AWAIT *)

Definition await_error {A} : M A := throw AIVM_VM_ERR_INVALID_PROGRAM (DText "AWAIT requires valid task handle.").

Definition op_await : M unit :=
  let! handle_value := aivm_stack_pop in
  match handle_value with
  | VTask handle =>
      let! completed := or_else (find_terminal_task_result handle)
        (throw_unless_error AIVM_VM_ERR_INVALID_PROGRAM (DText "AWAIT requires valid task handle.")) in
      do! aivm_stack_push completed in
      do! release_consumed_task_result handle in
      advance
  | _ => await_error
  end.

(** ** Parallel contexts *)

Definition op_par_begin (operand : Z) : M unit :=
  let! expected := operand_to_index operand in
  let! s := get in
  let t := task_table s in
  let exceeded := throw AIVM_VM_ERR_INVALID_PROGRAM (DText "PAR_BEGIN exceeded context capacity.") in
  match aivm_size_add_checked (zlen (par_contexts t)) 1 with
  | None => exceeded
  | Some needed =>
      if AIVM_VM_PAR_CONTEXT_CAPACITY <? needed then exceeded
      else
        do! put_table (set_par_contexts (mk_par expected (zlen (par_values s)) :: par_contexts t)) in
        advance
  end.

Definition op_par_fork : M unit :=
  let! s := get in
  let exceeded := throw AIVM_VM_ERR_INVALID_PROGRAM (DText "PAR_FORK exceeded value capacity.") in
  match par_contexts (task_table s) with
  | [] => throw AIVM_VM_ERR_INVALID_PROGRAM (DText "PAR_FORK requires active Par context.")
  | _ =>
      match aivm_size_add_checked (zlen (par_values s)) 1 with
      | None => exceeded
      | Some needed =>
          if AIVM_VM_PAR_VALUE_CAPACITY <? needed then exceeded
          else
            let! value := aivm_stack_pop in
            do! modify (fun s => set_par_values (par_values s ++ [value]) s) in
            advance
      end
  end.

(** One branch: the result of a task that can be found, else the value itself; a task
    that cannot be found leaves its error, if it set one. *)
Definition join_branch (value : AivmValue) (consumed : list Z) : M (AivmValue * list Z) :=
  match value with
  | VTask handle =>
      or_else (let! result := find_terminal_task_result handle in ret (result, consumed ++ [handle])) (ret (value, consumed))
  | _ => ret (value, consumed)
  end.

(** The branches from [i] on: the nodes made for them and the tasks consumed. *)
Fixpoint join_branches (count : nat) (start i : Z) (children consumed : list Z) : M (list Z * list Z) :=
  match count with
  | O => ret (children, consumed)
  | S count' =>
      let! s := get in
      let invalid := throw AIVM_VM_ERR_INVALID_PROGRAM (DText "PAR_JOIN value index was invalid.") in
      match aivm_size_add_checked start i with
      | None => invalid
      | Some par_index =>
          match zget (par_values s) par_index with
          | None => invalid
          | Some value =>
              let! (value, consumed) := join_branch value consumed in
              let! child := create_runtime_node_from_value value in
              join_branches count' start (i + 1) (children ++ [child]) consumed
          end
      end
  end.

(** The loop ends early when a node could not be made; that only goes on to use the
    handles when no error was set. *)
Definition joined_branches (count start : Z) : M (list Z * list Z) := fun s =>
  match join_branches (Z.to_nat count) start 0 [] [] s with
  | Ok r s' => if bool_decide (status s' = AIVM_VM_STATUS_ERROR) then Err s' else Ok r s'
  | Err s' => if bool_decide (status s' = AIVM_VM_STATUS_ERROR) then Err s' else Undef
  | Undef => Undef
  end.

Fixpoint release_all (handles : list Z) : M unit :=
  match handles with
  | [] => ret tt
  | handle :: rest => do! release_consumed_task_result handle in release_all rest
  end.

(** A release that fails moves the instruction pointer to the end; without an error it
    is still advanced past it. *)
Definition released (handles : list Z) : M unit := fun s =>
  let stop s' := if bool_decide (status s' = AIVM_VM_STATUS_ERROR) then Err s' else Ok tt s' in
  match release_all handles s with
  | Ok _ s' => stop s'
  | Err s' => stop (set_instruction_pointer (from_option instruction_count 0 (program s')) s')
  | Undef => Undef
  end.

(** "par_" and the number of the block. *)
Definition par_block_id (n : Z) : list Z := bytes_of_string "par_" ++ u64_text (u64 n).

Definition op_par_join (operand : Z) : M unit :=
  let! join_count := operand_to_index operand in
  let! s := get in
  match par_contexts (task_table s) with
  | [] => throw AIVM_VM_ERR_INVALID_PROGRAM (DText "PAR_JOIN requires active Par context.")
  | context :: outer =>
      if negb (expected_count context =? join_count) || (zlen (par_values s) <? par_start context) ||
         negb (zlen (par_values s) - par_start context =? join_count)
      then throw AIVM_VM_ERR_INVALID_PROGRAM (DText "PAR_JOIN branch count mismatch.")
      else if AIVM_VM_NODE_CHILD_CAPACITY <? join_count
      then throw AIVM_VM_ERR_INVALID_PROGRAM (DText "PAR_JOIN exceeded child capacity.")
      else
        let! (children, consumed) := joined_branches join_count (par_start context) in
        let! t := get_table in
        let id := par_block_id (next_par_node_id t) in
        do! put_table (fun t => set_next_par_node_id (next_par_node_id t + 1) t) in
        let! block := aivm_vm_create_node_record (lit "Block") (SExt id) [] (OwnArray children) in
        do! put_table (fun t => set_par_contexts (tail (par_contexts t)) t) in
        do! modify (fun s => set_par_values (ztake (par_start context) (par_values s)) s) in
        do! aivm_stack_push (VNode block) in
        do! released consumed in
        advance
  end.

Definition op_par_cancel : M unit := advance.

(** ** The debug statistics *)

Definition stats_id (n : Z) : list Z := bytes_of_string "debug_task_reclaim_stats_" ++ u64_text (u64 n).

Definition call_debug_task_reclaim_stats : M AivmValue :=
  let! s := get in
  let t := task_table s in
  let overflow := throw AIVM_VM_ERR_INVALID_PROGRAM (DText "debug task stats node id overflow.") in
  match aivm_size_add_checked (node_count (node_store s)) 1 with
  | None => overflow
  | Some n =>
      (* the number must fit the 15 bytes left of the buffer with its NUL *)
      if 15 <? zlen (u64_text (u64 n)) + 1 then overflow
      else
        let! handle := aivm_vm_create_node_record (lit "DebugTaskReclaimStats") (SExt (stats_id n))
          [mk_attr (lit "reclaimed") (NAInt (i64_of_u64 (task_reclaim_count t)));
           mk_attr (lit "skipPinned") (NAInt (i64_of_u64 (task_reclaim_skip_pinned_count t)));
           mk_attr (lit "exhausted") (NAInt (i64_of_u64 (task_reclaim_exhausted_count t)))] (OwnArray []) in
        ret (VNode handle)
  end.

End Tasks.
