(* ===== verification/AsyncCalls.v ===== *)
(** * ASYNC_CALL: worker VMs on threads of their own (src/src/aivm_vm.c)

    ASYNC_CALL copies its arguments into a new VM, starts a thread that runs the
    function there, and pushes a task; the task is completed by joining the thread and
    copying the result back.  A worker VM shares nothing with its owner but the
    program, so its thread can be run in turns of one instruction.  Joining waits: the
    owner only goes on once the thread has returned. *)

From S2P Require Import Prelude Types Program Syscalls Vm Memory Lifecycle Stack Control Step Strings Bytes NumberText Roots Pairs NodeGc NodeCreate Collector.
From S2P Require Import NodeOps Tasks.

(** ** Initialising a VM *)

(** [write_u64_decimal]: the digits, when they fit with their NUL. *)
Definition write_u64_decimal (capacity value : Z) : option (list Z) :=
  let text := u64_text value in
  if capacity <? zlen text + 1 then None else Some text.

Section Init.

Context `{Host}.

(** The children of the argv block are named before they exist. *)
Fixpoint argv_handles (count : nat) (i : Z) : list Z :=
  match count with O => [] | S count' => i + 2 :: argv_handles count' (i + 1) end.

Fixpoint argv_items (args : list (option (list Z))) (i : Z) : M unit :=
  match args with
  | [] => ret tt
  | arg :: rest =>
      match write_u64_decimal 30 i with
      | None => throw AIVM_VM_ERR_INVALID_PROGRAM (DText "process argv node id overflow.")
      | Some suffix =>
          let! handle := aivm_vm_create_node_record (lit "Lit") (SExt (bytes_of_string "argv_item_" ++ suffix))
            [mk_attr (lit "value") (NAString (SExt (default [] arg)))] (OwnArray []) in
          if handle =? i + 2 then argv_items rest (i + 1)
          else throw AIVM_VM_ERR_INVALID_PROGRAM (DText "process argv child handle invariant violated.")
      end
  end.

Definition set_argv_handle (handle : Z) : M unit :=
  modify (fun s => set_node_store (set_process_argv_node_handle handle (node_store s)) s).

Definition aivm_vm_initialize_process_argv_node (args : list (option (list Z))) : M unit :=
  do! set_argv_handle 0 in
  if AIVM_VM_NODE_CAPACITY <? zlen args
  then throw AIVM_VM_ERR_INVALID_PROGRAM (DText "process argv exceeds node capacity.")
  else
    let! root := aivm_vm_create_node_record (lit "Block") (lit "argv0") [] (OwnArray (argv_handles (length args) 0)) in
    do! set_argv_handle root in
    if root =? 1 then argv_items args 0
    else throw AIVM_VM_ERR_INVALID_PROGRAM (DText "process argv root handle invariant violated.").

(** A VM whose storage was allocated, after [aivm_init_with_syscalls_and_argv_profile];
    the result of making the argv node is ignored. *)
Definition initialised_vm (program : AivmProgram) (bindings : option (list (AivmSyscallBinding (list host_call))))
    (args : list (option (list Z))) (profile : AivmRuntimeProfile) : option AivmVm :=
  let s0 := set_task_table (reset_tasks profile bindings) (reset_vm (Some program) profile [] 0) in
  match aivm_vm_initialize_process_argv_node args s0 with
  | Ok _ s | Err s => Some (set_node_store (set_node_allocations_since_gc 0 (node_store s)) s)
  | Undef => None
  end.

(** The settings of a profile in a VM that is otherwise zero, and the error of the failed
    allocation of its storage. *)
Definition unready_vm (program : AivmProgram) (bindings : option (list (AivmSyscallBinding (list host_call))))
    (profile : AivmRuntimeProfile) : AivmVm :=
  let l := aivm_runtime_profile_limits profile in
  let t := reset_tasks profile bindings in
  mk_vm (Some program) profile 0 AIVM_VM_STATUS_ERROR AIVM_VM_ERR_MEMORY_PRESSURE (DText "AIVMM001: VM storage allocation failed.")
    [] 0 [] 0 [] [] [] [] 0 0 (mk_strings [] 0 0 (lim_string_arena l) 0 0 [] 0 false) None
    (mk_bytes_arena [] 0 0 (lim_bytes_arena l) 0 0 0) [] [] []
    (mk_nodes [] (lim_node l) [] (lim_node_attr l) [] (lim_node_child l) 0 0 0 0 0 0 (0, 0, 0) (0, 0, 0) 0)
    (replicate (Z.to_nat AIVM_VM_NODE_BUILDER_CAPACITY) None) (replicate (Z.to_nat AIVM_VM_MAP_CAPACITY) empty_map)
    (mk_blobs (replicate (Z.to_nat AIVM_VM_BLOB_CAPACITY) empty_blob) 0 0 0 0 0) false 0
    (mk_tasks 0 [] 0 0 0 [] None [] 0 0 (worker_logical_task_limit t) (worker_logical_input_limit t) 0 [] 0 (syscalls t)).

(** [aivm_set_runtime_profile] after the initialisation: the capacities and settings
    change, what is allocated does not. *)
Definition aivm_set_runtime_profile (profile : AivmRuntimeProfile) (s : AivmVm) : AivmVm :=
  let l := aivm_runtime_profile_limits profile in
  let n := node_store s in
  let t := task_table s in
  let y := syscalls t in
  let y' := mk_syscalls (syscall_bindings y) (syscall_policy (syscalls (reset_tasks profile None))) AIVM_VM_SYSCALL_ELAPSED_MS (host_history y) in
  set_runtime_profile profile
    (set_strings (set_sa_capacity (lim_string_arena l) (strings s))
      (set_bytes_arena (set_ba_capacity (lim_bytes_arena l) (bytes_arena s))
        (set_node_store (set_node_capacity (lim_node l) (set_node_attr_capacity (lim_node_attr l) (set_node_child_capacity (lim_node_child l) n)))
          (set_task_table (set_syscalls y' (set_worker_logical_task_limit 4096 (set_worker_logical_input_limit (lim_bytes_arena l) t))) s)))).

Definition allow_no_syscalls (s : AivmVm) : AivmVm :=
  let t := task_table s in
  let y := syscalls t in
  set_task_table (set_syscalls (mk_syscalls (syscall_bindings y) aivm_syscall_policy_allow_none (syscall_elapsed_limit_ms y) (host_history y)) t) s.

(** ** Copies across the boundary

    The source VM is only read; its texts are foreign memory to the destination. *)

Definition export_str (src : AivmVm) (p : str_ptr) : option str_ptr :=
  match p with SNull => Some SNull | _ => SExt <$> read_str src p end.

Definition export_attr (src : AivmVm) (a : AivmNodeAttr) : option AivmNodeAttr :=
  key ← export_str src (attr_key a);
  match attr_value a with
  | NAIdentifier p => (fun q => mk_attr key (NAIdentifier q)) <$> export_str src p
  | NAString p => (fun q => mk_attr key (NAString q)) <$> export_str src p
  | v => Some (mk_attr key v)
  end.

(** The [count] slots from [start + i] on of an array with [bound] elements in use. *)
Fixpoint source_slots {A} (count : nat) (slots : list A) (start i : Z) (message : string) : M (list A) :=
  match count with
  | O => ret []
  | S count' =>
      let invalid := throw AIVM_VM_ERR_INVALID_PROGRAM (DText message) in
      match aivm_size_add_checked start i with
      | None => invalid
      | Some index =>
          match zget slots index with
          | None => invalid
          | Some x => let! rest := source_slots count' slots start (i + 1) message in ret (x :: rest)
          end
      end
  end.

Definition invalid_node {A} : M A := throw AIVM_VM_ERR_INVALID_PROGRAM (DText "ASYNC_CALL worker node handle was invalid.").

(** The children of a node from [i] on, each copied with [copy]. *)
Fixpoint copy_boundary_children (copy : list Z -> Z -> M (list Z * Z)) (src : AivmVm) (node : AivmNodeRecord) (count : nat) (i : Z)
    (node_map : list Z) : M (list Z * list Z) :=
  match count with
  | O => ret (node_map, [])
  | S count' =>
      let invalid := throw AIVM_VM_ERR_INVALID_PROGRAM (DText "ASYNC_CALL worker node child slot was invalid.") in
      match aivm_size_add_checked (child_start node) i with
      | None => invalid
      | Some index =>
          match zget (node_children (node_store src)) index with
          | None => invalid
          | Some child =>
              let! (node_map, copied) := copy node_map child in
              let! (node_map, rest) := copy_boundary_children copy src node count' (i + 1) node_map in
              ret (node_map, copied :: rest)
          end
      end
  end.

(** The node map holds the copies: 0 for none yet, -1 for one being copied.  The fuel
    bounds the depth; [exhausted] is what would happen at its end (see
    BoundaryCopy.v: it is never reached). *)
Fixpoint copy_worker_boundary_node (exhausted : forall A, M A) (fuel : nat) (src : AivmVm) (node_map : list Z) (handle : Z) : M (list Z * Z) :=
  match fuel with
  | O => exhausted _
  | S fuel' =>
      if handle <=? 0 then invalid_node
      else
        match zget node_map handle with
        | None => invalid_node
        | Some known =>
            if 0 <? known then ret (node_map, known)
            else if known <? 0
            then throw AIVM_VM_ERR_INVALID_PROGRAM (DText "ASYNC_CALL worker node graph cycle was invalid.")
            else
              match aivm_vm_lookup_node (node_store src) handle with
              | None => invalid_node
              | Some node =>
                  do! append_scratch (one_or (attr_count node) * SIZEOF_ATTR) (one_or (child_count node) * 8)
                        "AIVMM005: worker node copy scratch allocation failed." in
                  let! attrs := source_slots (Z.to_nat (attr_count node)) (node_attrs (node_store src)) (attr_start node) 0
                                  "ASYNC_CALL worker node attr slot was invalid." in
                  let! (node_map, children) := copy_boundary_children (copy_worker_boundary_node exhausted fuel' src) src node
                    (Z.to_nat (child_count node)) 0 (zset node_map handle (-1)) in
                  let! kind := check (export_str src (node_kind node)) in
                  let! id := check (export_str src (node_id node)) in
                  let! attrs := check (mapM (export_attr src) attrs) in
                  let! copied := aivm_vm_create_node_record kind id attrs (OwnArray children) in
                  ret (zset node_map handle copied, copied)
              end
        end
  end.

(** Both maps of a copy. *)
Record copy_maps := mk_maps { node_map : list Z; pair_map : list Z }.

Definition invalid_pair {A} : M A := throw AIVM_VM_ERR_INVALID_PROGRAM (DText "ASYNC_CALL worker pair handle was invalid.").

(** A value; [fuel] bounds the nesting of pairs. *)
Fixpoint copy_worker_boundary_value_with_context (exhausted : forall A, M A) (fuel : nat) (src : AivmVm) (maps : copy_maps)
    (source : AivmValue) (direction : string)
    : M (copy_maps * AivmValue) :=
  match source with
  | VVoid | VInt _ | VNumber _ | VBool _ | VNull => ret (maps, source)
  | VString p =>
      if bool_decide (p = SNull) then throw AIVM_VM_ERR_TYPE_MISMATCH (DText "Worker boundary string value must be non-null.")
      else
        let! q := check (export_str src p) in
        let! copied := or_else (aivm_vm_copy_string_to_arena q)
          (throw AIVM_VM_ERR_MEMORY_PRESSURE (DText "AIVMM001: worker string copy exceeded arena capacity.")) in
        ret (maps, VString copied)
  | VBytes p length =>
      if (0 <? length) && bool_decide (p = BNull)
      then throw AIVM_VM_ERR_TYPE_MISMATCH (DText "Worker boundary bytes value must provide data.")
      else
        let! data := check (if 0 <? length then read_bytes src p length else Some []) in
        let! copied := or_else (copy_bytes_to_arena (BExt data) length)
          (if 0 <? length then throw AIVM_VM_ERR_MEMORY_PRESSURE (DText "AIVMM002: worker bytes copy exceeded arena capacity.") else ret BNull) in
        ret (maps, VBytes copied length)
  | VNode handle =>
      let! (nm, copied) := copy_worker_boundary_node exhausted (S (length (nodes (node_store src)))) src (node_map maps) handle in
      ret (mk_maps nm (pair_map maps), VNode copied)
  | VPair handle =>
      match fuel with
      | O => exhausted _
      | S fuel' =>
          if handle <=? 0 then invalid_pair
          else
            match zget (pair_map maps) handle with
            | None => invalid_pair
            | Some known =>
                if 0 <? known then ret (maps, VPair known)
                else if known <? 0
                then throw AIVM_VM_ERR_INVALID_PROGRAM (DText "ASYNC_CALL worker pair graph cycle was invalid.")
                else
                  match aivm_vm_lookup_scratch_pair src handle with
                  | None => invalid_pair
                  | Some pair_ =>
                      let maps := mk_maps (node_map maps) (zset (pair_map maps) handle (-1)) in
                      let! (maps, v1) := copy_worker_boundary_value_with_context exhausted fuel' src maps (first pair_) "pair value" in
                      let! (maps, v2) := copy_worker_boundary_value_with_context exhausted fuel' src maps (second pair_) "pair value" in
                      let! copied := aivm_vm_create_scratch_pair v1 v2 in
                      ret (mk_maps (node_map maps) (zset (pair_map maps) handle copied), VPair copied)
                  end
            end
      end
  | _ =>
      throw AIVM_VM_ERR_INVALID_PROGRAM (DFormat "ASYNC_CALL worker %s must be immutable scalar, string, or bytes. type=%s"
        [op_text direction; op_text (aivm_vm_value_type_name (value_type source))])
  end.

Definition copy_boundary_value (exhausted : forall A, M A) (src : AivmVm) (source : AivmValue) (direction : string) : M AivmValue :=
  let node_map_count := zlen (nodes (node_store src)) + 1 in
  let pair_map_count := zlen (scratch_pairs src) + 1 in
  do! append_scratch (node_map_count * 8) (pair_map_count * 8) "AIVMM005: worker boundary copy map allocation failed." in
  let! (_, copied) := copy_worker_boundary_value_with_context exhausted (S (length (scratch_pairs src))) src
    (mk_maps (replicate (Z.to_nat node_map_count) 0) (replicate (Z.to_nat pair_map_count) 0)) source direction in
  ret copied.

Definition copy_worker_boundary_value : AivmVm -> AivmValue -> string -> M AivmValue := copy_boundary_value (fun _ => undef).

End Init.

(** ** Threads *)

(** Whether the host can start the next thread. *)
Class Threads := { host_thread_starts : nat -> bool }.

(** A thread that has returned, or was never started. *)
Definition returned {VM} (c : AivmBytecodeWorkerContext VM) : bool := negb (ctx_started c) || ctx_done c.

(** No thread of the VM, nor of the workers it has started, is running. *)
Fixpoint quiescent (s : AivmVm) : bool :=
  forallb (fun o => match o with Some c => returned c && quiescent (ctx_worker c) | None => true end) (contexts (task_table s)).

Definition context_at (s : AivmVm) (i : Z) : option (AivmBytecodeWorkerContext AivmVm) := mjoin (zget (contexts (task_table s)) i).

Definition set_context (i : Z) (c : option (AivmBytecodeWorkerContext AivmVm)) (s : AivmVm) : AivmVm :=
  set_task_table (set_contexts (zset (contexts (task_table s)) i c) (task_table s)) s.

Definition set_joined (c : AivmBytecodeWorkerContext AivmVm) : AivmBytecodeWorkerContext AivmVm :=
  mk_context (ctx_worker c) (ctx_target c) (ctx_result c) true (ctx_started c) (ctx_done c).

(** Joining waits for the thread: the instruction is not run before it has returned
    (see [blocked] in Machine.v). *)
Definition join_bytecode_worker_thread (i : Z) : M (AivmBytecodeWorkerContext AivmVm) :=
  let! s := get in
  let! c := check (context_at s i) in
  if ctx_joined c then ret c
  else if returned c then do! modify (set_context i (Some (set_joined c))) in ret (set_joined c)
  else undef.

(** Disposing of the worker VM waits for the threads it has started in turn. *)
Definition free_bytecode_worker_context (i : Z) : M unit :=
  let! c := join_bytecode_worker_thread i in
  if quiescent (ctx_worker c) then modify (set_context i None) else undef.

(** [aivm_vm_cleanup_bytecode_worker_tasks] *)
Fixpoint cleanup_contexts (tasks : list AivmCompletedTask) : M (list AivmCompletedTask) :=
  match tasks with
  | [] => ret []
  | t :: rest =>
      do! (match worker_context t with Some c => free_bytecode_worker_context c | None => ret tt end) in
      let! rest := cleanup_contexts rest in
      ret (mk_task (task_state t) (task_handle t) (task_result t) None (worker_catalog_index t) (is_worker_task t) :: rest)
  end.

Definition aivm_vm_cleanup_bytecode_worker_tasks : M unit :=
  let! s := get in
  let! tasks := cleanup_contexts (completed_tasks s) in
  modify (set_completed_tasks tasks).

(** The text of the error of a worker, after a prefix. *)
Definition propagate_worker_error {A} (worker : AivmVm) : M A :=
  throw (error worker) (DFormat "ASYNC_CALL worker failed: %s" [ADetail (error_detail worker)]).

(** ** The thread of a worker *)

Definition finish_context (c : AivmBytecodeWorkerContext AivmVm) (worker : AivmVm) (result : AivmValue) : AivmBytecodeWorkerContext AivmVm :=
  mk_context worker (ctx_target c) result (ctx_joined c) (ctx_started c) true.

Definition set_worker (worker : AivmVm) (c : AivmBytecodeWorkerContext AivmVm) : AivmBytecodeWorkerContext AivmVm :=
  mk_context worker (ctx_target c) (ctx_result c) (ctx_joined c) (ctx_started c) (ctx_done c).

(** After the loop of [run_prepared_worker_vm]. *)
Definition finish_run (c : AivmBytecodeWorkerContext AivmVm) (w : AivmVm) : AivmBytecodeWorkerContext AivmVm :=
  if bool_decide (status w = AIVM_VM_STATUS_ERROR) then finish_context c w (ctx_result c)
  else
    match stack w with
    | [] => finish_context c w VVoid
    | [v] => finish_context c w v
    | _ => finish_context c (aivm_set_vm_error AIVM_VM_ERR_INVALID_PROGRAM (DText "Return restore invalid.") w) (ctx_result c)
    end.

(** The function has returned to the end of the program. *)
Definition at_end (p : AivmProgram) (w : AivmVm) : bool :=
  (call_frame_count w =? 0) && (instruction_pointer w =? instruction_count p).

(** One turn of the loop; [None] when its instruction is undefined. *)
Definition thread_turn (exec : AivmProgram -> AivmInstruction -> option (M unit)) (c : AivmBytecodeWorkerContext AivmVm)
    : option (AivmBytecodeWorkerContext AivmVm) :=
  let w := ctx_worker c in
  let p := default aivm_program_clear (program w) in
  if bool_decide (status w = AIVM_VM_STATUS_ERROR) || at_end p w then Some (finish_run c w)
  else if instruction_count p <=? instruction_pointer w
  then Some (finish_context c (aivm_set_vm_error AIVM_VM_ERR_INVALID_PROGRAM (DText "Subroutine terminated without RET.") w) (ctx_result c))
  else
    match aivm_step exec w with
    | Next w' =>
        if bool_decide (status w' = AIVM_VM_STATUS_HALTED) then
          if at_end p w' then Some (finish_run c w')
          else Some (finish_context c (aivm_set_vm_error AIVM_VM_ERR_INVALID_PROGRAM (DText "HALT is invalid inside ASYNC_CALL.") w') (ctx_result c))
        else Some (set_worker w' c)
    | _ => None
    end.

Section Async.

Context `{Host} `{Threads}.

(** Without AIVM_DEBUG_RUNTIME. *)
Definition aivm_runtime_default_profile : AivmRuntimeProfile := AIVM_RUNTIME_PROFILE_PRODUCTION.

(** The storage the host grants to the worker, and whether it is complete. *)
Definition worker_storage (t : nat) : Storage * bool :=
  init_storage (fun k => host_alloc (t + k) 0) aivm_runtime_default_profile zeroed_storage.

(** [aivm_init], [aivm_set_runtime_profile] and [aivm_syscall_policy_allow_none]; the VM is
    left with an error where its storage is not complete. *)
Definition new_worker (p : AivmProgram) (profile : AivmRuntimeProfile) (t : nat) : option AivmVm :=
  (fun w => allow_no_syscalls (aivm_set_runtime_profile profile w)) <$>
    (if (worker_storage t).2 then initialised_vm p None [] aivm_runtime_default_profile
     else Some (unready_vm p None aivm_runtime_default_profile)).

(** The blocks the copy of a value is written to.  A copy into a block that was refused
    writes through a NULL pointer. *)
Definition has (b : option Z) : bool := bool_decide (is_Some b).

Definition copy_has_blocks (st : Storage) (v : AivmValue) : bool :=
  match v with
  | VString _ => has (blk_strings st)
  | VBytes _ length => (length =? 0) || has (blk_bytes st)
  | VNode _ => has (blk_nodes st) && has (blk_attrs st) && has (blk_children st) && has (blk_strings st)
  | VPair _ => has (blk_nodes st) && has (blk_attrs st) && has (blk_children st) && has (blk_strings st) && has (blk_bytes st) && has (blk_pairs st)
  | _ => true
  end.

Definition written (b : bool) : M unit := if b then ret tt else undef.

(** The arguments, copied in order onto the stack of the worker. *)
Fixpoint push_arguments (st : Storage) (src : AivmVm) (args : list AivmValue) : M unit :=
  match args with
  | [] => ret tt
  | v :: rest =>
      do! written (copy_has_blocks st v) in
      let! copied := copy_worker_boundary_value src v "argument" in
      do! written (has (blk_stack st)) in
      do! aivm_stack_push copied in
      push_arguments st src rest
  end.

Definition SIZEOF_CONTEXT : Z := 1048576.

Definition start_call_subroutine_worker `{TaskWork} (p : AivmProgram) (target : Z) : M Z :=
  if instruction_count p <=? target then throw AIVM_VM_ERR_INVALID_PROGRAM (DText "Invalid function index.")
  else
    let arg_count := infer_call_arg_count p target in
    let! s := get in
    if stack_count s <? arg_count then do! call_arg_depth_error target arg_count in fail
    else
      do! validate_call_target_layout p target arg_count in
      do! make_task_room in
      do! check_next_handle in
      do! check_task_count in
      let! ok := alloc SIZEOF_CONTEXT in
      if negb ok then throw AIVM_VM_ERR_MEMORY_PRESSURE (DText "AIVMM001: bytecode worker context allocation failed.")
      else
        let! s := get in
        let! w := check (new_worker p (runtime_profile s) (tick s)) in
        match (do! push_arguments (worker_storage (tick s)).1 s (rev (ztake arg_count (stack s))) in aivm_frame_push (instruction_count p) 0) w with
        | Undef => undef
        | Err w' => propagate_worker_error w'
        | Ok _ w' =>
            if host_thread_starts (tick s) then
              let c := mk_context (set_instruction_pointer target w') target VVoid false true false in
              let index := zlen (contexts (task_table s)) in
              do! put_table (fun t => set_contexts (contexts t ++ [Some c]) t) in
              let! handle := take_task_handle in
              do! add_task (mk_task AIVM_TASK_STATE_PENDING handle VVoid (Some index) 0 false) in
              do! modify (fun s => set_stack (zdrop arg_count (stack s)) s) in
              ret handle
            else throw AIVM_VM_ERR_INVALID_PROGRAM (DText "ASYNC_CALL worker thread start failed.")
        end.

Definition op_async_call `{TaskWork} (p : AivmProgram) (operand : Z) : M unit :=
  let! target := operand_to_index operand in
  let! handle := start_call_subroutine_worker p target in
  op_push (VTask handle).

(** [complete_pending_bytecode_task] for a task that is not one of the worker runtime. *)
Definition put_task (index : Z) (t : AivmCompletedTask) : M unit := modify (fun s => set_completed_tasks (zset (completed_tasks s) index t) s).

Definition complete_bytecode_task (index : Z) (t : AivmCompletedTask) : M unit :=
  match task_state t, worker_context t with
  | AIVM_TASK_STATE_PENDING, Some i =>
      let! c := join_bytecode_worker_thread i in
      if bool_decide (status (ctx_worker c) = AIVM_VM_STATUS_ERROR) then propagate_worker_error (ctx_worker c)
      else
        let! copied := copy_worker_boundary_value (ctx_worker c) (ctx_result c) "result" in
        do! put_task index (mk_task AIVM_TASK_STATE_COMPLETED (task_handle t) copied None (worker_catalog_index t) (is_worker_task t)) in
        free_bytecode_worker_context i
  | _, _ => ret tt
  end.

End Async.
