(* ===== verification/WorkerTasks.v ===== *)
(** * Worker tasks and batches (src/src/aivm_vm_worker_tasks.c, aivm_vm_worker_batches.c)

    The instructions WORKER_REF, WORKER_RUN, WORKER_RUN_ALL, WORKER_TASK_AT and
    TASK_CANCEL: a worker of the program's catalog is run on a payload of bytes by the
    worker runtime, and its result is the result of a task.  The runtime with its
    threads is a service that answers requests; what it answers may depend on all
    requests made before. *)

From S2P Require Import Prelude Types Program Syscalls Vm Memory Lifecycle Stack Control Strings Bytes NumberText Roots Pairs NodeGc NodeCreate Collector.
From S2P Require Import Tasks AsyncCalls.

Inductive AivmWorkerRuntimeStatus :=
  | AIVM_WORKER_RUNTIME_OK | AIVM_WORKER_RUNTIME_ERR_ARGUMENT | AIVM_WORKER_RUNTIME_ERR_LIMIT
  | AIVM_WORKER_RUNTIME_ERR_CATALOG | AIVM_WORKER_RUNTIME_ERR_CAPABILITY | AIVM_WORKER_RUNTIME_ERR_PROGRAM
  | AIVM_WORKER_RUNTIME_ERR_EXECUTION | AIVM_WORKER_RUNTIME_ERR_TRANSPORT | AIVM_WORKER_RUNTIME_ERR_MEMORY
  | AIVM_WORKER_RUNTIME_ERR_SYSTEM | AIVM_WORKER_RUNTIME_CANCELED.

Global Instance runtime_status_eq_dec : EqDecision AivmWorkerRuntimeStatus.
Proof. solve_decision. Defined.

(** What an await writes: the bytes of the result and the text of the error. *)
Record AivmWorkerRuntimeResult := mk_result { result_data : list Z; result_error_detail : list Z }.

(** The answers of the runtime to a request after a history of requests; an await
    that is refused as such writes no result. *)
Class WorkerRuntime := {
  runtime_create : AivmProgram -> SyscallSettings -> AivmRuntimeProfile -> Z -> AivmWorkerRuntimeStatus;
  runtime_submit : list runtime_request -> Z -> Z -> list Z -> AivmWorkerRuntimeStatus;
  runtime_await : list runtime_request -> Z -> AivmWorkerRuntimeStatus * option AivmWorkerRuntimeResult;
  runtime_cancel : list runtime_request -> Z -> AivmWorkerRuntimeStatus * bool;
  runtime_release : list runtime_request -> Z -> AivmWorkerRuntimeStatus }.

Section Workers.

Context `{Host} `{Threads} `{WorkerRuntime}.

(** Put a request to the runtime, which must exist. *)
Definition request {A} (r : runtime_request) (answer : list runtime_request -> A) : M A :=
  let! t := get_table in
  match worker_runtime t with
  | None => undef
  | Some history => do! put_table (set_worker_runtime (Some (history ++ [r]))) in ret (answer history)
  end.

Definition submit (catalog_index handle : Z) (payload : list Z) : M AivmWorkerRuntimeStatus :=
  request (RSubmit catalog_index (u64 handle) payload) (fun h => runtime_submit h catalog_index (u64 handle) payload).
Definition await (handle : Z) : M (AivmWorkerRuntimeStatus * option AivmWorkerRuntimeResult) :=
  request (RAwait (u64 handle)) (fun h => runtime_await h (u64 handle)).
Definition cancel (handle : Z) : M (AivmWorkerRuntimeStatus * bool) := request (RCancel (u64 handle)) (fun h => runtime_cancel h (u64 handle)).
Definition release (handle : Z) : M AivmWorkerRuntimeStatus := request (RRelease (u64 handle)) (fun h => runtime_release h (u64 handle)).

Definition aivm_vm_ensure_worker_runtime (p : AivmProgram) : M unit :=
  let! s := get in
  match worker_runtime (task_table s) with
  | Some _ => ret tt
  | None =>
      match runtime_create p (syscalls (task_table s)) (runtime_profile s) AIVM_VM_TASK_CAPACITY with
      | AIVM_WORKER_RUNTIME_OK => put_table (set_worker_runtime (Some []))
      | _ => throw AIVM_VM_ERR_INVALID_PROGRAM (DText "Worker runtime initialization failed.")
      end
  end.

Definition aivm_vm_cleanup_worker_runtime : M unit := put_table (set_worker_runtime None).

Definition create_canceled_result : M AivmValue :=
  let! handle := aivm_vm_create_node_record (lit "Err") (lit "worker_task_canceled")
    [mk_attr (lit "code") (NAIdentifier (lit "TASK_CANCELED")); mk_attr (lit "message") (NAString (lit "Worker task canceled."))] (OwnArray []) in
  ret (VNode handle).

Definition aivm_vm_push_worker_ref (p : AivmProgram) (catalog_index : Z) : M unit :=
  if (zlen (worker_catalog p) <=? catalog_index) || (INT64_MAX <=? catalog_index)
  then throw AIVM_VM_ERR_INVALID_PROGRAM (DText "WORKER_REF requires a valid WorkerCatalog index.")
  else aivm_stack_push (VWorkerRef (catalog_index + 1)).

(** [aivm_vm_complete_worker_task].  The text of a failure is in memory of the runtime
    that the release empties. *)
Definition complete_worker_task (index : Z) (t : AivmCompletedTask) : M unit :=
  let handle := task_handle t in
  let set_outcome state v := put_task index (mk_task state handle v (worker_context t) (worker_catalog_index t) (is_worker_task t)) in
  let! s := get in
  match worker_runtime (task_table s) with
  | None => fail
  | Some _ =>
      let! (status, result) := await handle in
      match status with
      | AIVM_WORKER_RUNTIME_CANCELED =>
          let! v := create_canceled_result in
          do! set_outcome AIVM_TASK_STATE_CANCELED v in
          do! release handle in ret tt
      | AIVM_WORKER_RUNTIME_OK =>
          let! r := check result in
          let data := result_data r in
          let! destination := or_else (aivm_bytes_arena_alloc (zlen data)) (do! release handle in fail) in
          match destination with
          | BArena _ offset =>
              do! write_bytes offset data in
              do! set_outcome AIVM_TASK_STATE_COMPLETED (VBytes destination (zlen data)) in
              do! release handle in ret tt
          | _ => undef
          end
      | _ =>
          let code := if bool_decide (status = AIVM_WORKER_RUNTIME_ERR_TRANSPORT) then AIVM_VM_ERR_TYPE_MISMATCH else AIVM_VM_ERR_INVALID_PROGRAM in
          let! r := check result in
          let! released := release handle in
          throw code (if bool_decide (released = AIVM_WORKER_RUNTIME_OK) then DText "" else DFormat "%s" [AText (result_error_detail r)])
      end
  end.

(** [complete_pending_bytecode_task] *)
Definition complete_pending_bytecode_task (index : Z) : M unit :=
  let! s := get in
  let! t := check (zget (completed_tasks s) index) in
  if negb (is_terminal_task_state (task_state t)) && is_worker_task t then complete_worker_task index t
  else complete_bytecode_task index t.

(** ** Batches *)

(** The length before a payload. *)
Definition read_batch_u32 (bytes : list Z) : option Z :=
  match bytes with
  | b0 :: b1 :: b2 :: b3 :: _ => Some (Z.lor (Z.lor (Z.lor (u32 b0) (u32 (Z.shiftl b1 8))) (u32 (Z.shiftl b2 16))) (u32 (Z.shiftl b3 24)))
  | _ => None
  end.

(** [validate_batch] on the bytes from [offset] on: how many payloads; an iteration
    takes at least four bytes. *)
Fixpoint validate_loop (fuel : nat) (rest : list Z) (payload_count : Z) : M Z :=
  match rest with
  | [] => ret payload_count
  | _ =>
      match fuel with
      | O => undef
      | S fuel' =>
          if zlen rest <? 4 then throw AIVM_VM_ERR_INVALID_PROGRAM (DText "WORKER_RUN_ALL batch framing is truncated.")
          else
            let! payload_length := check (read_batch_u32 rest) in
            if zlen rest - 4 <? payload_length
            then throw AIVM_VM_ERR_INVALID_PROGRAM (DText "WORKER_RUN_ALL batch payload is truncated.")
            else if payload_count =? SIZE_MAX
            then throw AIVM_VM_ERR_MEMORY_PRESSURE (DText "WORKER_RUN_ALL logical task count overflow.")
            else validate_loop fuel' (zdrop (4 + payload_length) rest) (payload_count + 1)
      end
  end.

Definition validate_batch (batch : list Z) : M Z :=
  let! payload_count := validate_loop (length batch) batch 0 in
  if payload_count =? 0 then throw AIVM_VM_ERR_INVALID_PROGRAM (DText "WORKER_RUN_ALL requires at least one payload.")
  else ret payload_count.

(** The offsets and lengths of the payloads of a validated batch. *)
Fixpoint batch_layout (fuel : nat) (rest : list Z) (offset : Z) : option (list (Z * Z)) :=
  match rest with
  | [] => Some []
  | _ =>
      match fuel with
      | O => None
      | S fuel' =>
          payload_length ← read_batch_u32 rest;
          layout ← batch_layout fuel' (zdrop (4 + payload_length) rest) (offset + 4 + payload_length);
          Some ((offset + 4, payload_length) :: layout)
      end
  end.

Definition group_at (s : AivmVm) (index : Z) : option AivmWorkerTaskGroup := zget (worker_task_groups (task_table s)) index.
Definition put_group (index : Z) (g : AivmWorkerTaskGroup) : M unit :=
  put_table (fun t => set_worker_task_groups (zset (worker_task_groups t) index g) t).
Definition task_count (g : AivmWorkerTaskGroup) : Z := zlen (payload_offsets g).

(** The payload of a task of the group. *)
Definition group_payload (g : AivmWorkerTaskGroup) (logical_index : Z) : option (list Z) :=
  offset ← zget (payload_offsets g) logical_index;
  length ← zget (payload_lengths g) logical_index;
  read_block (batch_bytes g) offset length.

Definition set_task_handle (logical_index handle : Z) (g : AivmWorkerTaskGroup) : AivmWorkerTaskGroup :=
  mk_group (group_handle g) (group_catalog_index g) (batch_bytes g) (payload_offsets g) (payload_lengths g)
    (zset (group_task_handles g) logical_index handle) (next_materialize_index g).
Definition advance_group (g : AivmWorkerTaskGroup) : AivmWorkerTaskGroup :=
  mk_group (group_handle g) (group_catalog_index g) (batch_bytes g) (payload_offsets g) (payload_lengths g)
    (group_task_handles g) (next_materialize_index g + 1).

Section Refill.

Context `{TaskWork}.

Definition refused (status : AivmWorkerRuntimeStatus) : AivmVmError :=
  if bool_decide (status = AIVM_WORKER_RUNTIME_ERR_MEMORY) then AIVM_VM_ERR_MEMORY_PRESSURE else AIVM_VM_ERR_INVALID_PROGRAM.

Definition materialize_worker_task (group_index logical_index : Z) : M unit :=
  let! s := get in
  let! g := check (group_at s group_index) in
  if (task_count g <=? logical_index) || negb (bool_decide (zget (group_task_handles g) logical_index = Some 0)) then fail
  else
    let! handle := aivm_vm_allocate_worker_task (group_catalog_index g) in
    let! payload := check (group_payload g logical_index) in
    let! status := submit (group_catalog_index g) handle payload in
    if bool_decide (status = AIVM_WORKER_RUNTIME_OK) then put_group group_index (set_task_handle logical_index handle g)
    else
      do! aivm_vm_discard_worker_task handle in
      throw (refused status) (DText "Worker batch materialization failed.").

(** The tasks of a group that fit. *)
Fixpoint refill_group (fuel : nat) (group_index : Z) : M unit :=
  let! s := get in
  let! g := check (group_at s group_index) in
  if (next_materialize_index g <? task_count g) && (zlen (completed_tasks s) <? AIVM_VM_TASK_CAPACITY) then
    match fuel with
    | O => undef
    | S fuel' =>
        do! materialize_worker_task group_index (next_materialize_index g) in
        let! s := get in
        let! g := check (group_at s group_index) in
        do! put_group group_index (advance_group g) in
        refill_group fuel' group_index
    end
  else ret tt.

Fixpoint refill_groups (count : nat) (group_index : Z) : M unit :=
  match count with
  | O => ret tt
  | S count' =>
      let! s := get in
      if zlen (completed_tasks s) <? AIVM_VM_TASK_CAPACITY then
        let! g := check (group_at s group_index) in
        do! refill_group (Z.to_nat (task_count g)) group_index in
        refill_groups count' (group_index + 1)
      else ret tt
  end.

Definition aivm_vm_refill_worker_task_groups : M unit :=
  let! t := get_table in
  refill_groups (length (worker_task_groups t)) 0.

(** ** The instructions *)

Definition aivm_vm_submit_worker_task (p : AivmProgram) : M unit :=
  let! payload := aivm_stack_pop in
  let! worker_ref := aivm_stack_pop in
  let mismatch := throw AIVM_VM_ERR_TYPE_MISMATCH (DText "WORKER_RUN requires WorkerRef and bytes.") in
  match worker_ref, payload with
  | VWorkerRef ref, VBytes data length =>
      if ref <=? 0 then mismatch
      else
        let catalog_index := ref - 1 in
        if zlen (worker_catalog p) <=? catalog_index then fail
        else
          do! aivm_vm_ensure_worker_runtime p in
          let! handle := aivm_vm_allocate_worker_task catalog_index in
          let! status := (if (0 <? length) && bool_decide (data = BNull) then ret AIVM_WORKER_RUNTIME_ERR_ARGUMENT
                          else let! payload := deref_bytes data length in submit catalog_index handle payload) in
          if bool_decide (status = AIVM_WORKER_RUNTIME_OK) then aivm_stack_push (VTask handle)
          else
            do! aivm_vm_discard_worker_task handle in
            throw (refused status)
              (DText (if bool_decide (status = AIVM_WORKER_RUNTIME_ERR_CAPABILITY) then "Worker capability denied." else "Worker task admission failed."))
  | _, _ => mismatch
  end.

(** The arrays of a group; they are all asked for. *)
Definition group_arrays (length payload_count : Z) : M unit :=
  let! ok1 := alloc length in
  let! ok2 := alloc (payload_count * 8) in
  let! ok3 := alloc (payload_count * 8) in
  let! ok4 := alloc (payload_count * 8) in
  if ((length =? 0) || ok1) && ok2 && ok3 && ok4 then ret tt
  else throw AIVM_VM_ERR_MEMORY_PRESSURE (DText "WORKER_RUN_ALL could not retain bounded workload metadata.").

Definition aivm_vm_submit_worker_tasks (p : AivmProgram) (transport_version : Z) : M unit :=
  let version_error {A} : M A := throw AIVM_VM_ERR_INVALID_PROGRAM (DText "WORKER_RUN_ALL requires transport version 1.") in
  if negb (transport_version =? 1) then version_error
  else
    let! batch := or_else aivm_stack_pop version_error in
    let! worker_ref := or_else aivm_stack_pop version_error in
    let mismatch := throw AIVM_VM_ERR_TYPE_MISMATCH (DText "WORKER_RUN_ALL requires WorkerRef and canonical batch bytes.") in
    match worker_ref, batch with
    | VWorkerRef ref, VBytes data length =>
        if ref <=? 0 then mismatch
        else
          let! bytes := deref_bytes data length in
          let! payload_count := validate_batch bytes in
          let! s := get in
          let t := task_table s in
          let bound := throw AIVM_VM_ERR_MEMORY_PRESSURE (DText "WORKER_RUN_ALL exceeds the runtime-profile logical workload bound.") in
          match aivm_size_add_checked (worker_logical_task_count t) payload_count, aivm_size_add_checked (worker_logical_input_bytes t) length with
          | Some tasks, Some input =>
              if (worker_logical_task_limit t <? tasks) || (worker_logical_input_limit t <? input) then bound
              else if (AIVM_VM_TASK_CAPACITY <=? zlen (worker_task_groups t)) || (next_worker_task_group_handle t =? INT64_MAX)
              then throw AIVM_VM_ERR_INVALID_PROGRAM (DText "WORKER_RUN_ALL exceeds the deterministic workload-group bound.")
              else
                let catalog_index := ref - 1 in
                if zlen (worker_catalog p) <=? catalog_index then fail
                else
                  do! aivm_vm_ensure_worker_runtime p in
                  do! group_arrays length payload_count in
                  let! layout := check (batch_layout (List.length bytes) bytes 0) in
                  let handle := next_worker_task_group_handle t in
                  let g := mk_group handle catalog_index bytes (map fst layout) (map snd layout) (replicate (Z.to_nat payload_count) 0) 0 in
                  do! put_table (fun t =>
                    set_next_worker_task_group_handle (handle + 1)
                      (set_worker_task_groups (worker_task_groups t ++ [g])
                        (set_worker_logical_task_count tasks (set_worker_logical_input_bytes input t)))) in
                  do! aivm_vm_refill_worker_task_groups in
                  aivm_stack_push (VWorkerTasks handle)
          | _, _ => bound
          end
    | _, _ => mismatch
    end.

Definition aivm_vm_worker_task_at : M unit :=
  let! index_value := aivm_stack_pop in
  let! tasks_value := aivm_stack_pop in
  let mismatch := throw AIVM_VM_ERR_TYPE_MISMATCH (DText "WORKER_TASK_AT requires WorkerTasks and a non-negative index.") in
  match tasks_value, index_value with
  | VWorkerTasks handle, VInt index =>
      if index <? 0 then mismatch
      else
        let! t := get_table in
        let outside := throw AIVM_VM_ERR_INVALID_PROGRAM (DText "WORKER_TASK_AT index is outside the ordered workload.") in
        match find (fun g => group_handle g =? handle) (worker_task_groups t) with
        | None => outside
        | Some g =>
            if task_count g <=? index then outside
            else
              let! task := check (zget (group_task_handles g) index) in
              if task =? 0
              then throw AIVM_VM_ERR_INVALID_PROGRAM (DText "WORKER_TASK_AT index is outside the materialized canonical window.")
              else aivm_stack_push (VTask task)
        end
  | _, _ => mismatch
  end.

Definition aivm_vm_cancel_task : M unit :=
  let! task_value := aivm_stack_pop in
  match task_value with
  | VTask handle =>
      let! s := get in
      match find (fun t => task_handle t =? handle) (completed_tasks s) with
      | None => throw AIVM_VM_ERR_INVALID_PROGRAM (DText "TASK_CANCEL requires a valid Task.")
      | Some t =>
          let! canceled :=
            (if is_worker_task t && negb (is_terminal_task_state (task_state t)) && bool_decide (is_Some (worker_runtime (task_table s))) then
               let! (status, canceled) := cancel (task_handle t) in
               if bool_decide (status = AIVM_WORKER_RUNTIME_OK) then ret canceled else fail
             else ret false) in
          aivm_stack_push (VBool canceled)
      end
  | _ => throw AIVM_VM_ERR_TYPE_MISMATCH (DText "TASK_CANCEL requires Task.")
  end.

(** The five instructions of [aivm_step]. *)
Definition op_worker_ref (p : AivmProgram) (operand : Z) : M unit :=
  let! catalog_index := operand_to_index operand in
  do! aivm_vm_push_worker_ref p catalog_index in
  advance.
Definition op_worker_run (p : AivmProgram) : M unit := do! aivm_vm_submit_worker_task p in advance.
Definition op_worker_run_all (p : AivmProgram) (operand : Z) : M unit :=
  let! payload_count := operand_to_index operand in
  do! aivm_vm_submit_worker_tasks p payload_count in
  advance.
Definition op_worker_task_at : M unit := do! aivm_vm_worker_task_at in advance.
Definition op_task_cancel : M unit := do! aivm_vm_cancel_task in advance.

End Refill.

(** [aivm_vm_cleanup_worker_task_groups] *)
Definition aivm_vm_cleanup_worker_task_groups : M unit :=
  put_table (fun t => set_worker_task_groups [] (set_worker_logical_task_count 0 (set_worker_logical_input_bytes 0 t))).

(** ** The interface of the task table

    Refilling allocates tasks, which may reclaim a slot and free its context, but never
    refills in turn: the refill is built on a table whose own refill is undefined. *)
Definition without_work : TaskWork := {|
  free_context := free_bytecode_worker_context;
  complete_pending_task := complete_pending_bytecode_task;
  refill_worker_task_groups := undef |}.

#[export] Instance task_work : TaskWork := {|
  free_context := free_bytecode_worker_context;
  complete_pending_task := complete_pending_bytecode_task;
  refill_worker_task_groups := aivm_vm_refill_worker_task_groups (H2 := without_work) |}.

End Workers.
