(* ===== verification/CallSys.v ===== *)
(** * CALL_SYS and ASYNC_CALL_SYS (src/src/aivm_vm.c)

    A system call takes its target and arguments from the stack, goes through the
    checked dispatch of Syscalls.v, and copies a text or bytes result into the arenas.
    The host sees the contents of the texts and bytes it is given, and its state is
    the history of the calls that reached it. *)

From S2P Require Import Prelude Types Program Syscalls Numeric Vm Memory Lifecycle Stack Control Strings Bytes Roots Pairs NodeGc NodeCreate Collector.
From S2P Require Import TextOps Tasks AsyncCalls.

(** The [n]-th question to the clock ([clock()], in units of a microsecond). *)
Class Clock := { host_clock : nat -> Z }.

Definition CLOCKS_PER_SEC : Z := 1000000.

Definition is_syscall_target_string (text : list Z) : bool := bool_decide (ztake 4 text = bytes_of_string "sys.").

Definition target_char (ch : Z) : bool :=
  ((97 <=? ch) && (ch <=? 122)) || ((65 <=? ch) && (ch <=? 90)) || ((48 <=? ch) && (ch <=? 57)) || (ch =? 46) || (ch =? 95).

(** A target of at least one more character from [i] to the end. *)
Definition target_from (text : list Z) (i : Z) : bool :=
  is_syscall_target_string (zdrop i text) && (i + 4 <? zlen text) && forallb target_char (zdrop (i + 4) text).

(** The offset of the last target that is a suffix. *)
Fixpoint suffix_search (text : list Z) (i : nat) : option Z :=
  if target_from text (Z.of_nat i) then Some (Z.of_nat i)
  else match i with O => None | S i' => suffix_search text i' end.

Definition find_syscall_suffix_target (text : list Z) : option Z :=
  if zlen text <? 4 then None else suffix_search text (Z.to_nat (zlen text - 4)).

Definition syscall_elapsed_limit_applies (target : list Z) : bool :=
  negb (bool_decide (target = bytes_of_string "sys.ui.waitFrame")).

(** ** Error texts *)

Definition syscall_contract_failure_detail (status : AivmContractStatus) : string :=
  match status with
  | AIVM_CONTRACT_ERR_UNKNOWN_TARGET => "AIVMS004/AIVMC001: Syscall target was not found."
  | AIVM_CONTRACT_ERR_ARG_COUNT => "AIVMS004/AIVMC002: Syscall argument count was invalid."
  | AIVM_CONTRACT_ERR_ARG_TYPE => "AIVMS004/AIVMC003: Syscall argument type was invalid."
  | AIVM_CONTRACT_ERR_UNKNOWN_ID => "AIVMS004/AIVMC004: Syscall contract ID was not found."
  | AIVM_CONTRACT_OK => "AIVMS004/AIVMC000: Syscall contract validation passed."
  end.

Definition syscall_failure_detail (status : Z) (contract_status : AivmContractStatus) : string :=
  if status =? AIVM_SYSCALL_ERR_INVALID then "AIVMS001: Syscall dispatch input was invalid."
  else if status =? AIVM_SYSCALL_ERR_NULL_RESULT then "AIVMS002: Syscall dispatch result pointer was null."
  else if status =? AIVM_SYSCALL_ERR_NOT_FOUND then "AIVMS003: Syscall target was not found."
  else if status =? AIVM_SYSCALL_ERR_CONTRACT then syscall_contract_failure_detail contract_status
  else if status =? AIVM_SYSCALL_ERR_RETURN_TYPE then "AIVMS005: Syscall return type violated contract."
  else if status =? AIVM_SYSCALL_ERR_UNBOUND then "AIVMS006: Syscall target is known but has no host binding."
  else if status =? AIVM_SYSCALL_ERR_RESOURCE_LIMIT then "AIVMS007: Syscall resource limit exceeded."
  else if status =? AIVM_SYSCALL_ERR_CAPABILITY_DENIED then "AIVMS008: Syscall capability is denied by runtime policy."
  else if status =? AIVM_SYSCALL_OK then "AIVMS000: Syscall dispatch succeeded."
  else "AIVMS999: Unknown syscall dispatch status.".

Definition type_text (v : AivmValue) : detail_arg := op_text (aivm_vm_value_type_name (value_type v)).

Definition arg_type_text (args : list AivmValue) (i : Z) : detail_arg :=
  match zget args i with Some v => type_text v | None => op_text "void" end.

Definition syscall_not_found_detail_with_recovery (raw_target recovered_target : list Z) (args : list AivmValue) : detail :=
  DFormat "AIVMS003: Syscall target was not found. rawTargetType=%s rawTarget=%s recoveredTarget=%s argCount=%llu arg0=%s arg1=%s arg2=%s"
    [op_text (aivm_vm_value_type_name AIVM_VAL_STRING); AText raw_target; AText recovered_target; ANum (zlen args);
     arg_type_text args 0; arg_type_text args 1; arg_type_text args 2].

(** The pieces appended to a text; the storage cuts the whole at its size.  Quotation
    marks in a format are written [%c] with their code 34. *)
Definition append_vm_value_preview (s : AivmVm) (v : AivmValue) : list detail :=
  match v with
  | VInt i => [DFormat "(%lld)" [ANum i]]
  | VNumber d => [DFormat "(%.15g)" [ADouble d]]
  | VBool b => [DText (if b then "(true)" else "(false)")]
  | VString p => match read_str s p with Some text => [DFormat "(%c%.24s%c)" [ANum 34; AText text; ANum 34]] | None => [] end
  | _ => []
  end.

(** The first three locals of a frame, up to the counter. *)
Definition append_frame_local_previews (s : AivmVm) (f : AivmCallFrame) (prefix : string) : list detail :=
  flat_map (fun i =>
    if locals_base f + i <? locals_count s then
      match zget (locals s) (locals_base f + i) with
      | Some v => DFormat " %s%llu=%s" [op_text prefix; ANum i; type_text v] :: append_vm_value_preview s v
      | None => []
      end
    else []) [0; 1; 2].

(** The return addresses of the three innermost frames. *)
Definition append_frame_return_previews (s : AivmVm) : list detail :=
  imap (fun i f => DFormat " ret%llu=%llu" [ANum (Z.of_nat i); ANum (return_instruction_pointer f)]) (take 3 (call_frames s)).

(** The arguments the contract asks for against those there are. *)
Definition argument_previews (s : AivmVm) (c : AivmSyscallContract) (args : list AivmValue) : list detail :=
  flat_map (fun i =>
    let expected := op_text (aivm_vm_value_type_name (default AIVM_VAL_VOID (zget (arg_types c) i))) in
    match zget args i with
    | Some v => DFormat " arg%llu=%s->%s" [ANum i; type_text v; expected] :: append_vm_value_preview s v
    | None => [DFormat " arg%llu=%s->%s" [ANum i; op_text "missing"; expected]]
    end) (map Z.of_nat (seq 0 (Z.to_nat (contract_arg_count c)))).

Definition frame_previews (s : AivmVm) : list detail :=
  flat_map (fun fp => append_frame_local_previews s fp.1 fp.2) (zip (call_frames s) ["local"; "callerLocal"; "caller2Local"]%string).

Definition syscall_contract_failure_detail_with_args (s : AivmVm) (target : list Z) (args : list AivmValue) (contract_status : AivmContractStatus) : detail :=
  match contract_status with
  | AIVM_CONTRACT_ERR_UNKNOWN_TARGET => DFormat "AIVMS004/AIVMC001: Syscall target was not found. target=%s" [AText target]
  | AIVM_CONTRACT_ERR_ARG_TYPE =>
      match aivm_syscall_contract_find_by_target (Some (string_of_bytes target)) with
      | None => DText (syscall_contract_failure_detail contract_status)
      | Some c =>
          DFormat "AIVMS004/AIVMC003: Syscall argument type was invalid. target=%s"
            (AText target :: map ADetail (argument_previews s c args ++ append_frame_return_previews s ++ frame_previews s))
      end
  | _ => DText (syscall_contract_failure_detail contract_status)
  end.

(** ** The call *)

(** What the host reads of an argument. *)
Definition export_value (s : AivmVm) (v : AivmValue) : option AivmValue :=
  match v with
  | VString p => VString <$> export_str s p
  | VBytes p n => if (n =? 0) || bool_decide (p = BNull) then Some (VBytes BNull n) else (fun b => VBytes (BExt b) n) <$> read_bytes s p n
  | _ => Some v
  end.

Definition syscall_error {A} (d : detail) : M A := throw AIVM_VM_ERR_SYSCALL d.

Section CallSys.

Context `{Host} `{Clock}.

Definition clock : M Z := fun s => Ok (host_clock (tick s)) (set_tick (S (tick s)) s).

(** The arguments, the last one on top. *)
Fixpoint pop_arguments (count : nat) (popped : list AivmValue) : M (list AivmValue) :=
  match count with
  | O => ret popped
  | S count' => let! v := aivm_stack_pop in pop_arguments count' (v :: popped)
  end.

Definition materialize_syscall_result (result : AivmValue) : M AivmValue :=
  match result with
  | VString p =>
      if bool_decide (p = SNull) then throw AIVM_VM_ERR_TYPE_MISMATCH (DText "Syscall string result must be non-null.")
      else let! q := aivm_vm_copy_string_to_arena p in ret (VString q)
  | VBytes p length =>
      if (0 <? length) && bool_decide (p = BNull)
      then throw AIVM_VM_ERR_TYPE_MISMATCH (DText "Syscall bytes result must provide data.")
      else
        let! q := or_else (copy_bytes_to_arena p length) (if 0 <? length then fail else ret BNull) in
        ret (VBytes q length)
  | _ => ret result
  end.

(** The split of an argument that ends in a target: the rest is joined to what was
    taken for the target.  The arena's copy of the argument ends with the prefix, so
    the target read after it is empty. *)
Definition recover_suffix_target (raw_target : str_ptr) (raw : list Z) (arg : str_ptr) (prefix_len : Z) : M (str_ptr * str_ptr) :=
  let raw_len := zlen raw in
  let! raw_source := aivm_vm_snapshot_arena_backed_string raw_target raw_len in
  let! s := get in
  let suffix_source := if aivm_pointer_in_string_arena (strings s) arg then SExt [] else str_add arg prefix_len in
  let! arg_source := aivm_vm_snapshot_arena_backed_string arg prefix_len in
  match aivm_size_add_checked raw_len prefix_len with
  | None => fail
  | Some out_len =>
      match aivm_size_add_checked out_len 1 with
      | None => fail
      | Some bytes_needed =>
          let! merged := aivm_string_arena_alloc bytes_needed in
          match merged with
          | SArena _ offset =>
              do! write_text offset (raw_source ++ arg_source ++ [0]) in
              let! suffix_target := aivm_vm_copy_string_to_arena suffix_source in
              ret (suffix_target, merged)
          | _ => undef
          end
      end
  end.

(** The target and the arguments: a text that is no target may be the start of the
    only argument, which ends in the target.  (The search among the other arguments
    and on the stack needs a target that is no text, which was refused before.) *)
Definition recover_target (raw_target : str_ptr) (raw : list Z) (args : list AivmValue) : M (str_ptr * list AivmValue) :=
  let not_found := syscall_error (DFormat "AIVMS003: Syscall target was not found. rawTargetType=%s rawTarget=%s argCount=%llu"
    [op_text (aivm_vm_value_type_name AIVM_VAL_STRING); AText raw; ANum (zlen args)]) in
  if is_syscall_target_string raw then ret (raw_target, args)
  else
    match args with
    | [VString arg] =>
        if bool_decide (ztake 3 raw = bytes_of_string "sys") && negb (bool_decide (arg = SNull)) then
          let! text := deref_str arg in
          match find_syscall_suffix_target text with
          | Some prefix_len =>
              let! (target, merged) := recover_suffix_target raw_target raw arg prefix_len in
              ret (target, [VString merged])
          | None => not_found
          end
        else not_found
    | _ => not_found
    end.

(** The answer the VM gives itself. *)
Definition call_debug_target (target : list Z) (args : list AivmValue) : M AivmValue :=
  let! s := get in
  let! (contract_status, _) := check (aivm_syscall_contract_validate (Some (string_of_bytes target)) (ArgValues args)) in
  match contract_status with
  | AIVM_CONTRACT_OK =>
      if aivm_syscall_policy_allows (Some (syscall_policy (syscalls (task_table s)))) AIVM_SYSCALL_CAPABILITY_DEBUG
      then call_debug_task_reclaim_stats
      else syscall_error (DFormat "AIVMS008: Syscall capability is denied by runtime policy. target=%.72s capability=debug" [AText target])
  | _ => syscall_error (DText (syscall_contract_failure_detail contract_status))
  end.

(** The milliseconds of processor time, as the code computes them. *)
Definition elapsed_ms (syscall_start syscall_end : Z) : SpecFloat.spec_float :=
  dmul (ddiv (double_of_int (syscall_end - syscall_start)) (double_of_int CLOCKS_PER_SEC)) (double_of_int 1000).

Definition elapsed_exceeded (s : AivmVm) (target : list Z) (ms : SpecFloat.spec_float) : bool :=
  let limit := syscall_elapsed_limit_ms (syscalls (task_table s)) in
  (0 <? limit) && syscall_elapsed_limit_applies target && dlt (double_of_int limit) ms.

(** The error of a failed dispatch. *)
Definition dispatch_error (s : AivmVm) (raw target : list Z) (args : list AivmValue) (st : Z) (contract_status : AivmContractStatus) : detail :=
  let bindings := syscall_bindings (syscalls (task_table s)) in
  if st =? AIVM_SYSCALL_ERR_INVALID then
    DFormat "AIVMS001: Syscall dispatch input was invalid. target=%c%.72s%c bindingCount=%llu argCount=%llu hasBindings=%s"
      [ANum 34; AText target; ANum 34; ANum (zlen (default [] bindings)); ANum (zlen args);
       op_text (if bool_decide (is_Some bindings) then "true" else "false")]
  else if st =? AIVM_SYSCALL_ERR_CONTRACT then syscall_contract_failure_detail_with_args s target args contract_status
  else if st =? AIVM_SYSCALL_ERR_NOT_FOUND then syscall_not_found_detail_with_recovery raw target args
  else if st =? AIVM_SYSCALL_ERR_UNBOUND
  then DFormat "AIVMS006: Syscall target is known but has no host binding. target=%.72s" [AText target]
  else if st =? AIVM_SYSCALL_ERR_CAPABILITY_DENIED then
    DFormat "AIVMS008: Syscall capability is denied by runtime policy. target=%.72s capability=%s"
      [AText target; op_text (aivm_syscall_capability_name (aivm_syscall_contract_capability (Some (string_of_bytes target))))]
  else DText (syscall_failure_detail st contract_status).

Definition set_host_history (w : list host_call) (s : AivmVm) : AivmVm :=
  let t := task_table s in
  let y := syscalls t in
  set_task_table (set_syscalls (mk_syscalls (syscall_bindings y) (syscall_policy y) (syscall_elapsed_limit_ms y) w) t) s.

(** The dispatch between two looks at the clock. *)
Definition dispatch_to_host (target : list Z) (args : list AivmValue) : M (Z * AivmValue * AivmContractStatus * SpecFloat.spec_float) :=
  let! syscall_start := clock in
  let! s := get in
  let y := syscalls (task_table s) in
  let! (answer, contract_status) := check (aivm_syscall_dispatch_checked_with_policy (syscall_bindings y) (Some (syscall_policy y))
    (Some (string_of_bytes target)) args (Some VVoid) (host_history y)) in
  let '(w, st, result) := answer in
  do! modify (set_host_history w) in
  let! syscall_end := clock in
  let! result := check result in
  ret (st, result, contract_status, elapsed_ms syscall_start syscall_end).

Definition call_sys_with_arity (arg_count : Z) : M AivmValue :=
  if AIVM_VM_MAX_SYSCALL_ARGS <? arg_count then throw AIVM_VM_ERR_INVALID_PROGRAM (DText "Invalid call argument count.")
  else
    let! args := pop_arguments (Z.to_nat arg_count) [] in
    let! target_value := aivm_stack_pop in
    let! s := get in
    let not_text {A} : M A := throw AIVM_VM_ERR_TYPE_MISMATCH
      (DFormat "CALL_SYS target must be string. got=%s ip=%llu" [type_text target_value; ANum (instruction_pointer s)]) in
    match target_value with
    | VString raw_target =>
        if bool_decide (raw_target = SNull) then not_text
        else
          let! raw := deref_str raw_target in
          let! (target, args) := recover_target raw_target raw args in
          let! target := deref_str target in
          let! s := get in
          let! args := check (mapM (export_value s) args) in
          if bool_decide (target = bytes_of_string "sys.debug.taskReclaimStats") then call_debug_target target args
          else
            let! (st, result, contract_status, ms) := dispatch_to_host target args in
            let! s := get in
            if elapsed_exceeded s target ms then
              syscall_error (DFormat "AIVMS007: Syscall resource limit exceeded. target=%.72s elapsed_ms=%.3f limit_ms=%llu"
                [AText target; ADouble ms; ANum (syscall_elapsed_limit_ms (syscalls (task_table s)))])
            else if st =? AIVM_SYSCALL_OK then materialize_syscall_result result
            else syscall_error (dispatch_error s raw target args st contract_status)
    | _ => not_text
    end.

(** A failed call leaves the instruction pointer where it is. *)
Definition call_sys_then (arg_count : Z) (k : AivmValue -> M unit) : M unit := fun s =>
  match call_sys_with_arity arg_count s with
  | Ok result s' => k result s'
  | Err s' => Ok tt s'
  | Undef => Undef
  end.

Definition op_call_sys (operand : Z) : M unit :=
  let! arg_count := operand_to_index operand in
  call_sys_then arg_count op_push.

Definition op_async_call_sys `{TaskWork} (operand : Z) : M unit :=
  let! arg_count := operand_to_index operand in
  call_sys_then arg_count (fun result => do! push_completed_task result in advance).

End CallSys.
