(* ===== verification/Machine.v ===== *)
(** * The whole machine

    The complete instruction set of [aivm_step] (src/src/aivm_vm.c), and the system of
    a VM with the threads it has started: the threads of ASYNC_CALL take turns with
    their owner in any order.  An instruction that joins a thread is only run when the
    thread has returned: before, it has no step here, as the owner waits. *)

From S2P Require Import Prelude Types Program Syscalls Vm Memory Lifecycle Stack Control Step CollectorSafety.
From S2P Require Import TextOps NodeOps Tasks AsyncCalls WorkerTasks CallSys.

Section Machine.

Context `{Host} `{Addresses} `{Threads} `{WorkerRuntime} `{Clock}.

(** System calls, tasks, parallel contexts and workers. *)
Definition task_op (p : AivmProgram) (i : AivmInstruction) : option (M unit) :=
  match opcode i with
  | AIVM_OP_CALL_SYS => Some (op_call_sys (operand_int i))
  | AIVM_OP_ASYNC_CALL => Some (op_async_call p (operand_int i))
  | AIVM_OP_ASYNC_CALL_SYS => Some (op_async_call_sys (operand_int i))
  | AIVM_OP_AWAIT => Some op_await
  | AIVM_OP_PAR_BEGIN => Some (op_par_begin (operand_int i))
  | AIVM_OP_PAR_FORK => Some op_par_fork
  | AIVM_OP_PAR_JOIN => Some (op_par_join (operand_int i))
  | AIVM_OP_PAR_CANCEL => Some op_par_cancel
  | AIVM_OP_WORKER_REF => Some (op_worker_ref p (operand_int i))
  | AIVM_OP_WORKER_RUN => Some (op_worker_run p)
  | AIVM_OP_TASK_CANCEL => Some op_task_cancel
  | AIVM_OP_WORKER_RUN_ALL => Some (op_worker_run_all p (operand_int i))
  | AIVM_OP_WORKER_TASK_AT => Some op_worker_task_at
  | _ => None
  end.

(** The switch over the opcodes. *)
Definition execute (p : AivmProgram) (i : AivmInstruction) : option (M unit) :=
  match control_op p i with
  | Some m => Some m
  | None =>
      match text_op i with
      | Some m => Some m
      | None => match node_op i with Some m => Some m | None => task_op p i end
      end
  end.

(** ** Threads *)

Definition running_thread (c : AivmBytecodeWorkerContext AivmVm) : bool := ctx_started c && negb (ctx_done c).

(** A turn of one of the threads of the VM, or of a thread of one of its workers. *)
Inductive thread_step : AivmVm -> AivmVm -> Prop :=
  | thread_turns s i c c' :
      context_at s i = Some c -> running_thread c = true -> thread_turn execute c = Some c' ->
      thread_step s (set_context i (Some c') s)
  | thread_nested s i c w' :
      context_at s i = Some c -> thread_step (ctx_worker c) w' ->
      thread_step s (set_context i (Some (set_worker w' c)) s).

Inductive system_step : AivmVm -> AivmVm -> Prop :=
  | system_owner s s' : aivm_step execute s = Next s' -> system_step s s'
  | system_thread s s' : thread_step s s' -> system_step s s'.

Inductive system_steps : AivmVm -> AivmVm -> Prop :=
  | system_done s : system_steps s s
  | system_more s s1 s2 : system_step s s1 -> system_steps s1 s2 -> system_steps s s2.

(** ** Schedules

    A schedule says whose turn it is: the owner's ([[]]) or that of the thread at a
    path of context indices. *)
Fixpoint take_turn (path : list Z) (s : AivmVm) : option AivmVm :=
  match path with
  | [] => match aivm_step execute s with Next s' => Some s' | _ => None end
  | i :: inner =>
      match context_at s i with
      | None => None
      | Some c =>
          match inner with
          | [] => if running_thread c then (fun c' => set_context i (Some c') s) <$> thread_turn execute c else None
          | _ => (fun w' => set_context i (Some (set_worker w' c)) s) <$> take_turn inner (ctx_worker c)
          end
      end
  end.

Fixpoint run_schedule (schedule : list (list Z)) (s : AivmVm) : option AivmVm :=
  match schedule with
  | [] => Some s
  | path :: rest => s' ← take_turn path s; run_schedule rest s'
  end.

Lemma turn_thread_step path : path <> [] -> forall s s', take_turn path s = Some s' -> thread_step s s'.
Proof.
  induction path as [|i inner IH]; [done|]. intros _ s s'. cbn [take_turn]. destruct (context_at s i) as [c|] eqn:Ec; [|done].
  destruct inner as [|j inner].
  - destruct (running_thread c) eqn:Er; [|done]. destruct (thread_turn execute c) as [c'|] eqn:Et; [|done]. intros [= <-]. by eapply thread_turns.
  - destruct (take_turn (j :: inner) (ctx_worker c)) as [w'|] eqn:Et; [|done]. intros [= <-]. eapply thread_nested; [done|]. by apply IH.
Qed.

Lemma schedule_steps schedule : forall s s', run_schedule schedule s = Some s' -> system_steps s s'.
Proof.
  induction schedule as [|path rest IH]; intros s s'; cbn [run_schedule]; [intros [= <-]; constructor|].
  destruct (take_turn path s) as [s1|] eqn:E; [|done]. cbn. intros Hr. apply (system_more _ s1); [|by apply IH]. destruct path as [|i inner].
  - apply system_owner. cbn in E. destruct (aivm_step execute s); [by injection E as <-|done|done].
  - apply system_thread. by apply (turn_thread_step (i :: inner)).
Qed.

(** The instruction set is complete. *)
Lemma execute_total p i : is_Some (execute p i).
Proof. unfold execute, control_op, text_op, node_op, task_op. destruct (opcode i); by eexists. Qed.

Lemma execute_cases p i m : execute p i = Some m ->
  control_op p i = Some m \/ text_op i = Some m \/ node_op i = Some m \/ task_op p i = Some m.
Proof.
  unfold execute. destruct (control_op p i); [by left|]. destruct (text_op i); [by right; left|].
  destruct (node_op i); [by do 2 right; left|by do 3 right].
Qed.

End Machine.
