(* ===== verification/TaskFrame.v ===== *)
(** * What does not touch the tasks

    The collectors, the arenas and all instructions but those of Tasks.v,
    AsyncCalls.v, WorkerTasks.v and CallSys.v leave the tables of tasks, contexts and
    system calls alone: a collection only moves the results of the tasks. *)

From S2P Require Import Prelude Types Program Syscalls Numeric Vm Memory Lifecycle Stack Map Control ControlSafety Step Strings Bytes NumberText Roots Pairs NodeGc NodeCreate NodeRoom Collector CollectorSafety.
From S2P Require Import TextOps NodeOps Tasks.

(** A task without its result. *)
Definition task_core (t : AivmCompletedTask) : AivmCompletedTask := set_result t VVoid.

Definition tasks_view (s : AivmVm) :=
  (program s, runtime_profile s, task_table s, map task_core (completed_tasks s), zlen (par_values s)).

Definition apart {A} (m : M A) : Prop := stays tasks_view m.

Lemma apart_ret {A} (a : A) : apart (ret a).
Proof. by intros s. Qed.

Lemma apart_get : apart get.
Proof. by intros s. Qed.

Lemma apart_gets {A} (f : AivmVm -> A) : apart (gets f).
Proof. by intros s. Qed.

Lemma apart_fail {A} : apart (@fail A).
Proof. by intros s. Qed.

Lemma apart_undef {A} : apart (@undef A).
Proof. by intros s. Qed.

Lemma apart_check {A} (o : option A) : apart (check o).
Proof. intros s. by destruct o. Qed.

Lemma apart_throw {A} e d : apart (@throw A e d).
Proof. by intros s. Qed.

Lemma apart_throw_unless {A} e d : apart (@throw_unless_error A e d).
Proof. intros s. unfold throw_unless_error. by case_bool_decide. Qed.

Lemma apart_alloc `{Host} size : apart (alloc size).
Proof. by intros s. Qed.

Lemma apart_snapshot `{Host} : apart snapshot.
Proof. by intros s. Qed.

Lemma apart_modify g : (forall s, tasks_view (g s) = tasks_view s) -> apart (modify g).
Proof. apply stays_modify. Qed.

Lemma apart_bind {A B} (m : M A) (f : A -> M B) : apart m -> (forall a, apart (f a)) -> apart (bind m f).
Proof. apply stays_bind. Qed.

Lemma apart_or_else {A} (m h : M A) : apart m -> apart h -> apart (or_else m h).
Proof.
  intros Hm Hh s. unfold or_else. specialize (Hm s). destruct (m s) as [a s1|s1|]; [done| |done].
  specialize (Hh s1). destruct (h s1); congruence.
Qed.

Lemma apart_of_visit {A} (r : visit A) : apart (of_visit r).
Proof. by apply stays_of_visit. Qed.

Lemma apart_or_fail {A} (o : option (option A)) : apart (or_fail o).
Proof. intros s. unfold or_fail. by destruct o as [[]|]. Qed.

Lemma apart_walk {A B} part update (F : visitor B A) acc :
  (forall l s, length l = length (part s) -> tasks_view (update l s) = tasks_view s) -> apart (walk part update F acc).
Proof.
  intros Hu s. unfold walk. pose proof (visit_list_length F (part s) acc) as Hl.
  destruct (visit_list F acc (part s)) as [l [a|e d|]]; [by apply Hu| |done]. cbn in Hl. by rewrite <- (Hu l s Hl).
Qed.

Create HintDb apart.
#[export] Hint Resolve apart_ret apart_get apart_gets apart_fail apart_undef apart_check apart_throw apart_throw_unless
  apart_alloc apart_snapshot apart_of_visit apart_or_fail : apart.
#[export] Hint Extern 1 (apart (modify _)) => (apply apart_modify; intros ?; first [reflexivity | by repeat case_match]) : apart.

(** Through the structure of a computation; [apart_unfold] opens definitions as well. *)
Ltac apart_step :=
  first
    [ solve [eauto 3 with apart]
    | apply apart_bind; [|intros ?]
    | apply apart_or_else
    | progress cbv beta zeta
    | match goal with |- apart (if ?b then _ else _) => destruct b end
    | match goal with |- apart (match ?x with _ => _ end) => destruct x end
    | match goal with |- apart (let '_ := ?x in _) => destruct x end
    | solve [intros s; cbv beta; case_bool_decide; done] ].

Ltac head_of t := lazymatch t with ?f _ => head_of f | _ => t end.

Ltac apart_unfold := match goal with |- apart ?m => let h := head_of m in unfold h end.

Ltac apart_all := repeat first [apart_step | apart_unfold].

(** ** Collections *)

Lemma set_tasks_part_core l s : length l = length (tasks_part s) -> tasks_view (set_tasks_part l s) = tasks_view s.
Proof.
  intros Hl. unfold tasks_view, set_tasks_part. cbn. f_equal. f_equal. unfold tasks_part in Hl. rewrite length_map in Hl.
  revert l Hl. induction (completed_tasks s) as [|t ts IH]; intros [|v l] Hl; try done. cbn. f_equal. apply IH. by injection Hl.
Qed.

Lemma set_par_core l s : length l = length (par_values s) -> tasks_view (set_par_values l s) = tasks_view s.
Proof. intros Hl. unfold tasks_view, zlen. cbn. by rewrite Hl. Qed.

#[export] Hint Extern 1 (apart (walk _ _ _ _)) =>
  (apply apart_walk; first [by intros | apply set_tasks_part_core | apply set_par_core]) : apart.

Lemma apart_walk_nodes a live t : apart (walk_nodes a live t).
Proof. intros s. unfold walk_nodes. by destruct (relocate_nodes _ _ _ _ _ _) as [[nds attrs] [t'|e d|]]. Qed.

#[export] Hint Resolve apart_walk_nodes : apart.

Section Host.

Context `{Host}.

Lemma apart_compact_pairs : apart aivm_vm_compact_scratch_pairs.
Proof. apart_all. Qed.

Lemma apart_compact_nodes extra : apart (aivm_vm_compact_node_arenas_with_map extra).
Proof. apart_all. Qed.

Lemma apart_rebuild_index : apart aivm_vm_rebuild_string_intern_index.
Proof. apart_all. Qed.

Lemma apart_compact_strings : apart aivm_compact_string_arena.
Proof. pose proof apart_rebuild_index. apart_all. Qed.

Lemma apart_compact_bytes : apart aivm_compact_bytes_arena.
Proof. apart_all. Qed.

#[local] Hint Resolve apart_compact_pairs apart_compact_nodes apart_compact_strings apart_compact_bytes : apart.

Lemma apart_collect nodes bytes : apart (collect_safe_point_internal nodes bytes).
Proof. apart_all. Qed.

Lemma apart_try_grow_nodes n a c : apart (aivm_vm_try_grow_node_arenas n a c).
Proof. apart_all. Qed.

#[local] Hint Resolve apart_collect apart_try_grow_nodes : apart.

Lemma apart_return_safe_point : apart vm_return_safe_point.
Proof. apart_all. Qed.

(** ** The arenas *)

Lemma apart_grow_strings fuel : forall needed, apart (grow_string_limit fuel needed).
Proof. induction fuel as [|fuel IH]; intros needed; cbn [grow_string_limit]; apart_all. Qed.

Lemma apart_grow_bytes fuel : forall needed, apart (grow_bytes_limit fuel needed).
Proof. induction fuel as [|fuel IH]; intros needed; cbn [grow_bytes_limit]; apart_all. Qed.

#[local] Hint Resolve apart_grow_strings apart_grow_bytes : apart.

Lemma apart_string_alloc size : apart (aivm_string_arena_alloc size).
Proof. apart_all. Qed.

Lemma apart_remember offset input : apart (remember_string_in_index offset input).
Proof. apart_all. Qed.

Lemma apart_store_text content n : apart (store_text content n).
Proof. pose proof apart_string_alloc. pose proof apart_remember. apart_all. Qed.

#[local] Hint Resolve apart_string_alloc apart_store_text : apart.

Lemma apart_copy_string p : apart (aivm_vm_copy_string_to_arena p).
Proof. apart_all. Qed.

Lemma apart_copy_range p n : apart (aivm_vm_copy_string_range_to_arena p n).
Proof. apart_all. Qed.

Lemma apart_copy_splice p n q k : apart (aivm_vm_copy_string_splice_to_arena p n q k).
Proof. apart_all. Qed.

Lemma apart_bytes_alloc size : apart (aivm_bytes_arena_alloc size).
Proof. apart_all. Qed.

#[local] Hint Resolve apart_copy_string apart_copy_range apart_copy_splice apart_bytes_alloc : apart.

(** ** Nodes *)

Lemma apart_snapshot_attrs xs : apart (snapshot_attrs xs).
Proof. induction xs as [|x xs IH]; cbn [snapshot_attrs]; apart_all. Qed.

Lemma apart_attr_texts xs : apart (attr_texts xs).
Proof. induction xs as [|x xs IH]; cbn [attr_texts]; apart_all. Qed.

Lemma apart_store_attrs xs : forall slot, apart (store_attrs slot xs).
Proof. induction xs as [|x xs IH]; intros slot; cbn [store_attrs]; apart_all. Qed.

Lemma apart_child_slots hs : forall slot, apart (check_child_slots slot hs).
Proof. induction hs as [|x hs IH]; intros slot; cbn [check_child_slots]; apart_all. Qed.

#[local] Hint Resolve apart_snapshot_attrs apart_attr_texts apart_store_attrs apart_child_slots : apart.

Lemma apart_node_room n k src : apart (node_room n k src).
Proof. apart_all. Qed.

Lemma apart_write_node kind id attrs src : apart (write_node kind id attrs src).
Proof. apart_all. Qed.

#[local] Hint Resolve apart_node_room apart_write_node : apart.

Lemma apart_create_node kind id attrs src : apart (aivm_vm_create_node_record kind id attrs src).
Proof. apart_all. Qed.

#[local] Hint Resolve apart_create_node : apart.

Lemma apart_create_pair v1 v2 : apart (aivm_vm_create_scratch_pair v1 v2).
Proof. apart_all. Qed.

Lemma apart_push v : apart (aivm_stack_push v).
Proof. apart_all. Qed.

Lemma apart_pop : apart aivm_stack_pop.
Proof. apart_all. Qed.

#[local] Hint Resolve apart_create_pair apart_push apart_pop : apart.

Lemma apart_value_node v : apart (create_runtime_node_from_value v).
Proof. apart_all. Qed.

#[local] Hint Resolve apart_value_node apart_return_safe_point : apart.

(** ** Instructions *)

Lemma apart_layout n p target args : forall i seen, apart (layout_loop n p target args i seen).
Proof. induction n as [|n IH]; intros i seen; cbn [layout_loop]; apart_all. Qed.

Lemma apart_slots {A} count (slots : list A) start capacity message : forall i, apart (copy_slots count slots start i capacity message).
Proof. induction count as [|n IH]; intros i; cbn [copy_slots]; apart_all. Qed.

Lemma apart_pop_children argc : forall children, apart (pop_children argc children).
Proof. induction argc as [|n IH]; intros children; cbn [pop_children]; apart_all. Qed.

#[local] Hint Resolve apart_layout apart_slots apart_pop_children : apart.

(** The instructions of the other components. *)
Lemma apart_control p i m : control_op p i = Some m -> apart m.
Proof. unfold control_op. destruct (opcode i); intros [= <-]; apart_all. Qed.

Lemma apart_text `{Addresses} i m : text_op i = Some m -> apart m.
Proof. unfold text_op. destruct (opcode i); intros [= <-]; apart_all. Qed.

Lemma apart_node i m : node_op i = Some m -> apart m.
Proof. unfold node_op. destruct (opcode i); intros [= <-]; apart_all. Qed.

End Host.

#[export] Hint Resolve apart_collect apart_string_alloc apart_copy_string apart_bytes_alloc apart_create_node apart_create_pair
  apart_push apart_pop apart_value_node apart_layout : apart.
