(* ===== verification/BatchFrames.v ===== *)
(** * The frames of a batch (src/src/aivm_vm_worker_batches.c)

    A batch is a sequence of payloads, each after its length in four bytes.  The
    validation of WORKER_RUN_ALL accepts exactly the non-empty sequences, and the
    layout that is kept gives the payloads back. *)

From S2P Require Import Prelude Types Program LoaderSafety LoaderFormat Syscalls Vm Memory Lifecycle Stack Control Tasks AsyncCalls WorkerTasks.

Definition frame_batch (payloads : list (list Z)) : list Z := flat_map (fun p => le32_bytes (zlen p) ++ p) payloads.

(** Lengths that fit their four bytes. *)
Definition payloads_fit (payloads : list (list Z)) : Prop := Forall (fun p => zlen p < 2 ^ 32) payloads.

Lemma u32_byte b : is_byte b -> u32 b = b.
Proof. unfold is_byte, u32. intros. apply Z.mod_small. lia. Qed.

Lemma read_batch_frame n rest : 0 <= n < 2 ^ 32 -> read_batch_u32 (le32_bytes n ++ rest) = Some n.
Proof.
  intros Hn. rewrite le32_bytes_arith by done. cbn [app read_batch_u32].
  rewrite u32_byte, le32_word by (unfold is_byte; mlia). f_equal. mlia.
Qed.

Lemma read_batch_inv bytes n : bytes_ok bytes -> read_batch_u32 bytes = Some n ->
  0 <= n < 2 ^ 32 /\ bytes = le32_bytes n ++ zdrop 4 bytes.
Proof.
  destruct bytes as [|b0 [|b1 [|b2 [|b3 rest]]]]; try done. cbn [read_batch_u32]. intros Hb [= E].
  do 4 (apply Forall_cons in Hb as [? Hb]). rewrite u32_byte, le32_word in E by done. unfold is_byte in *. subst n. split; [lia|].
  rewrite le32_bytes_arith by lia. change (zdrop 4 (b0 :: b1 :: b2 :: b3 :: rest)) with rest. cbn [app].
  f_equal; [mlia|]. f_equal; [mlia|]. f_equal; [mlia|]. f_equal. mlia.
Qed.

Lemma frame_cons p ps : frame_batch (p :: ps) = le32_bytes (zlen p) ++ p ++ frame_batch ps.
Proof. unfold frame_batch. cbn [flat_map]. by rewrite <- app_assoc. Qed.

Lemma zdrop_frame p ps : zdrop (4 + zlen p) (frame_batch (p :: ps)) = frame_batch ps.
Proof.
  rewrite frame_cons, app_assoc. replace (4 + zlen p) with (zlen (le32_bytes (zlen p) ++ p)) by (by rewrite zlen_app, zlen_le32).
  apply zdrop_app.
Qed.

(** A framed batch is accepted. *)
Lemma validate_framed s : forall ps fuel count, payloads_fit ps -> (length (frame_batch ps) <= fuel)%nat ->
  0 <= count -> count + zlen (frame_batch ps) <= SIZE_MAX -> validate_loop fuel (frame_batch ps) count s = Ok (count + zlen ps) s.
Proof.
  induction ps as [|p ps IH]; intros fuel count Hp Hf Hc Hm.
  - destruct fuel; cbn [validate_loop frame_batch flat_map]; unfold ret; by rewrite zlen_nil, Z.add_0_r.
  - apply Forall_cons in Hp as [Hl Hp]. pose proof (zlen_nonneg p) as Hp0. pose proof (zlen_nonneg (frame_batch ps)) as Hr0.
    assert (Hz : zlen (frame_batch (p :: ps)) = 4 + zlen p + zlen (frame_batch ps)) by (rewrite frame_cons, !zlen_app, zlen_le32; lia).
    destruct fuel as [|fuel]; [unfold zlen in Hz; lia|]. pose proof (zdrop_frame p ps) as Hd.
    assert (Hu : read_batch_u32 (frame_batch (p :: ps)) = Some (zlen p)) by (rewrite frame_cons; by apply read_batch_frame).
    destruct (frame_batch (p :: ps)) as [|b rest] eqn:E; [unfold zlen in Hz; cbn in Hz; lia|]. cbn [validate_loop].
    rewrite (proj2 (Z.ltb_ge _ _)) by lia. rewrite Hu. cbn [check]. unfold bind, ret. rewrite (proj2 (Z.ltb_ge _ _)) by lia.
    rewrite (proj2 (Z.eqb_neq _ _)) by lia. rewrite Hd, IH; [by rewrite zlen_cons, <- Z.add_assoc, (Z.add_comm 1)|done| |lia|lia].
    unfold zlen in *. lia.
Qed.

(** What is accepted is a framed batch. *)
Lemma validate_accepts s : forall fuel rest count, bytes_ok rest -> (length rest <= fuel)%nat ->
  match validate_loop fuel rest count s with
  | Ok n s' => s' = s /\ exists ps, rest = frame_batch ps /\ payloads_fit ps /\ n = count + zlen ps
  | Err s' => status s' = AIVM_VM_STATUS_ERROR
  | Undef => False
  end.
Proof.
  induction fuel as [|fuel IH]; intros rest count Hb Hf.
  - destruct rest; [|cbn in Hf; lia]. split; [done|]. exists []. split_and!; [done|constructor|rewrite zlen_nil; lia].
  - destruct rest as [|b rest0] eqn:E; [split; [done|]; exists []; split_and!; [done|constructor|rewrite zlen_nil; lia]|].
    rewrite <- E in *. assert (Hn : validate_loop (S fuel) rest count = validate_loop (S fuel) (b :: rest0) count) by (by rewrite E).
    rewrite Hn. cbn [validate_loop]. rewrite <- E. destruct (Z.ltb_spec (zlen rest) 4); [done|].
    destruct (read_batch_u32 rest) as [n|] eqn:Eu.
    2: { destruct rest as [|? [|? [|? [|? ?]]]]; try done; unfold zlen in *; cbn in *; lia. }
    destruct (read_batch_inv rest n Hb Eu) as [Hr Es]. cbn [check]. unfold bind at 1, ret. destruct (Z.ltb_spec (zlen rest - 4) n); [done|].
    destruct (count =? SIZE_MAX); [done|].
    assert (Hz : zlen (zdrop (4 + n) rest) = zlen rest - (4 + n)) by (apply zlen_zdrop; lia).
    specialize (IH (zdrop (4 + n) rest) (count + 1)). destruct (validate_loop fuel _ _ s) as [m s'|s'|]; [|apply IH..].
    2: { by apply Forall_drop. } 2: { unfold zlen in *. lia. } 2: { by apply Forall_drop. } 2: { unfold zlen in *. lia. }
    destruct IH as [-> (ps & Ep & Hp & ->)]; [by apply Forall_drop|unfold zlen in *; lia|]. split; [done|].
    set (p := ztake n (zdrop 4 rest)).
    assert (Hlp : zlen p = n) by (apply zlen_ztake; rewrite zlen_zdrop; lia).
    exists (p :: ps). split_and!; [|by constructor; [lia|]|rewrite zlen_cons; lia].
    rewrite frame_cons, <- Ep, Hlp. rewrite Es at 1. f_equal. unfold p, ztake.
    rewrite <- (take_drop (Z.to_nat n) (zdrop 4 rest)) at 1. f_equal. rewrite <- (zdrop_zdrop rest n 4) by lia. done.
Qed.

(** The layout of a framed batch that follows [before]. *)
Lemma layout_framed : forall ps fuel before, payloads_fit ps -> (length (frame_batch ps) <= fuel)%nat ->
  exists layout, batch_layout fuel (frame_batch ps) (zlen before) = Some layout /\
    Forall2 (fun on p => read_block (before ++ frame_batch ps) on.1 on.2 = Some p) layout ps.
Proof.
  induction ps as [|p ps IH]; intros fuel before Hp Hf; [exists []; by destruct fuel|].
  apply Forall_cons in Hp as [Hl Hp]. pose proof (zlen_nonneg p) as Hp0. pose proof (zdrop_frame p ps) as Hd.
  assert (Hz : length (frame_batch (p :: ps)) = (4 + length p + length (frame_batch ps))%nat).
  { rewrite frame_cons, !length_app. pose proof (zlen_le32 (zlen p)). unfold zlen in *. lia. }
  destruct fuel as [|fuel]; [lia|].
  assert (Hu : read_batch_u32 (frame_batch (p :: ps)) = Some (zlen p)) by (rewrite frame_cons; by apply read_batch_frame).
  destruct (IH fuel (before ++ le32_bytes (zlen p) ++ p) Hp ltac:(lia)) as (layout & El & Hall).
  exists ((zlen before + 4, zlen p) :: layout). split.
  - destruct (frame_batch (p :: ps)) as [|b rest] eqn:E; [cbn in Hz; lia|]. cbn [batch_layout]. rewrite Hu. cbn [mbind option_bind].
    rewrite Hd. rewrite !zlen_app, zlen_le32 in El. replace (zlen before + 4 + zlen p) with (zlen before + (4 + zlen p)) by lia. by rewrite El.
  - constructor.
    + cbn [fst snd]. rewrite frame_cons, app_assoc. replace (zlen before + 4) with (zlen (before ++ le32_bytes (zlen p))) by (by rewrite zlen_app, zlen_le32).
      apply read_block_encoded.
    + rewrite frame_cons. by rewrite <- !app_assoc in Hall.
Qed.

Lemma read_batch_nonneg bytes n : read_batch_u32 bytes = Some n -> 0 <= n.
Proof.
  destruct bytes as [|b0 [|b1 [|b2 [|b3 rest]]]]; try done. intros [= <-]. rewrite !Z.lor_nonneg. unfold u32.
  split_and!; apply Z.mod_pos_bound; lia.
Qed.

(** The layout of whatever was accepted: as many entries as payloads, inside the batch. *)
Lemma layout_accepted s : forall fuel rest count offset n s', validate_loop fuel rest count s = Ok n s' ->
  exists layout, batch_layout fuel rest offset = Some layout /\ n = count + zlen layout /\
    Forall (fun on => offset <= on.1 /\ 0 <= on.2 /\ on.1 + on.2 <= offset + zlen rest) layout.
Proof.
  induction fuel as [|fuel IH]; intros rest count offset n s'.
  - destruct rest; [|done]. intros [= <- _]. exists []. split_and!; [done|rewrite zlen_nil; lia|constructor].
  - destruct rest as [|b rest0] eqn:E; [intros [= <- _]; exists []; split_and!; [done|rewrite zlen_nil; lia|constructor]|]. cbn [validate_loop batch_layout].
    rewrite <- E. destruct (Z.ltb_spec (zlen rest) 4); [done|]. destruct (read_batch_u32 rest) as [len|] eqn:Eu; [|done]. cbn [check]. unfold bind, ret.
    destruct (Z.ltb_spec (zlen rest - 4) len); [done|]. destruct (count =? SIZE_MAX); [done|]. apply read_batch_nonneg in Eu.
    intros Hv. destruct (IH _ _ (offset + 4 + len) _ _ Hv) as (layout & El & -> & Hall). cbn [mbind option_bind]. rewrite El.
    eexists. split; [done|]. rewrite zlen_cons. split; [lia|]. rewrite zlen_zdrop in Hall by lia. constructor; [cbn; lia|].
    eapply Forall_impl; [exact Hall|]. cbn. intros; lia.
Qed.

(** C15: the validation of a batch reads inside it and accepts exactly the
    non-empty sequences of framed payloads (of lengths below 2^32), with their number
    and without changing the VM; the offsets and lengths kept for an accepted batch
    give back each payload, in order.  Everything else is an error. *)
Theorem batch_frames_exact s batch : bytes_ok batch -> zlen batch <= SIZE_MAX ->
  match validate_batch batch s with
  | Ok n s' => s' = s /\ exists ps, batch = frame_batch ps /\ payloads_fit ps /\ ps <> [] /\ n = zlen ps /\
      exists layout, batch_layout (length batch) batch 0 = Some layout /\
        Forall2 (fun on p => read_block batch on.1 on.2 = Some p) layout ps
  | Err s' => status s' = AIVM_VM_STATUS_ERROR /\ forall ps, payloads_fit ps -> batch = frame_batch ps -> ps = []
  | Undef => False
  end.
Proof.
  intros Hb Hm. pose proof (validate_accepts s (length batch) batch 0 Hb ltac:(lia)) as Ha. unfold validate_batch, bind.
  destruct (validate_loop (length batch) batch 0 s) as [n s1|s1|] eqn:Ev; [| |done].
  - destruct Ha as [-> (ps & -> & Hp & ->)]. rewrite Z.add_0_l. destruct (Z.eqb_spec (zlen ps) 0) as [E0|E0].
    + split; [done|]. intros ps' Hp' Ef. rewrite Ef in Ev. destruct ps'; [done|]. rewrite validate_framed in Ev by (done || lia || rewrite <- Ef; lia).
      injection Ev as Ev. rewrite zlen_cons in Ev. pose proof (zlen_nonneg ps'). lia.
    + split; [done|]. exists ps. split_and!; try done; [by intros ->|]. exact (layout_framed ps _ [] Hp (Nat.le_refl _)).
  - split; [done|]. intros ps Hp ->. by rewrite validate_framed in Ev by (done || lia).
Qed.

Definition example_batch : list Z := frame_batch [[1; 2; 3]; []; [255]].

Lemma batch_frames_exact_witness : validate_batch example_batch example_vm = Ok 3 example_vm /\
  exists ps layout, example_batch = frame_batch ps /\ zlen ps = 3 /\ batch_layout 16 example_batch 0 = Some layout /\
    Forall2 (fun on p => read_block example_batch on.1 on.2 = Some p) layout ps.
Proof.
  assert (Hb : bytes_ok example_batch) by (unfold example_batch; repeat constructor; done).
  pose proof (batch_frames_exact example_vm example_batch Hb ltac:(done)) as Hx.
  assert (Hv : validate_batch example_batch example_vm = Ok 3 example_vm) by (unfold validate_batch, bind; by vm_compute (validate_loop _ _ _ _)).
  rewrite Hv in Hx. destruct Hx as [_ (ps & E & _ & _ & Hn & layout & El & Hall)]. split; [done|]. exists ps, layout. by split_and!.
Defined.
