(* ===== verification/BoundaryCopy.v ===== *)
(** * Copies across the boundary of a worker (src/src/aivm_vm.c)

    The recursive copies of ASYNC_CALL end on every source, cyclic ones included: each
    level marks a node or a pair that was unmarked. *)

From S2P Require Import Prelude Types Program Syscalls Vm Memory Lifecycle Stack Control Strings Bytes NumberText Roots Pairs NodeGc NodeCreate Collector.
From S2P Require Import NodeOps Tasks AsyncCalls.

(** The handles a map has no entry for yet; index 0 is no handle. *)
Definition unmarked (map_ : list Z) : Z := total (fun x => if x =? 0 then 1 else 0) (tail map_).

Lemma unmarked_nonneg m : 0 <= unmarked m.
Proof. apply total_nonneg, Forall_true. intros x. destruct (x =? 0); lia. Qed.

Lemma unmarked_bound m : m <> [] -> unmarked m <= zlen m - 1.
Proof.
  intros Hm. unfold unmarked. pose proof (total_le_length (fun x => if x =? 0 then 1 else 0) (tail m)) as Ht.
  destruct m as [|x m]; [done|]. rewrite zlen_cons. cbn [tail] in *. etransitivity; [apply Ht; intros y; destruct (y =? 0); lia|lia].
Qed.

Lemma tail_zset (m : list Z) h x : 0 < h -> tail (zset m h x) = zset (tail m) (h - 1) x.
Proof.
  intros Hh. unfold zset. rewrite !(proj2 (Z.ltb_ge _ _)) by lia. destruct m as [|y m]; [done|].
  replace (Z.to_nat h) with (S (Z.to_nat (h - 1))) by lia. done.
Qed.

Lemma zget_tail (m : list Z) h : 0 < h -> zget (tail m) (h - 1) = zget m h.
Proof.
  intros Hh. rewrite !zget_lookup by lia. replace (Z.to_nat h) with (S (Z.to_nat (h - 1))) by lia. by destruct m.
Qed.

(** An entry that is changed is no longer counted, and counted again when it is 0. *)
Lemma unmarked_zset m h x y : 0 < h -> zget m h = Some x ->
  unmarked (zset m h y) = unmarked m - (if x =? 0 then 1 else 0) + (if y =? 0 then 1 else 0).
Proof.
  intros Hh Hx. unfold unmarked. rewrite tail_zset by done. rewrite <- zget_tail in Hx by done.
  destruct (zget_split _ _ _ Hx) as [E _]. rewrite (zset_split _ _ _ y Hx). rewrite E at 3. rewrite !total_app. cbn [total]. lia.
Qed.

(** ** Computations that agree

    and whose results have a property. *)
Definition agrees {A} (Q : A -> Prop) (m1 m2 : M A) : Prop := forall s,
  m1 s = m2 s /\ match m1 s with Ok a _ => Q a | _ => True end.

Lemma agrees_same {A} (m : M A) : agrees (fun _ => True) m m.
Proof. intros s. split; [done|]. by destruct (m s). Qed.

Lemma agrees_ret {A} (Q : A -> Prop) a : Q a -> agrees Q (ret a) (ret a).
Proof. by intros Ha s. Qed.

Lemma agrees_throw {A} (Q : A -> Prop) e d : agrees Q (throw e d) (throw e d).
Proof. by intros s. Qed.

Lemma agrees_bind {A B} (P : A -> Prop) (Q : B -> Prop) m1 m2 f1 f2 :
  agrees P m1 m2 -> (forall a, P a -> agrees Q (f1 a) (f2 a)) -> agrees Q (bind m1 f1) (bind m2 f2).
Proof.
  intros Hm Hf s. unfold bind. destruct (Hm s) as [<- Hp]. destruct (m1 s) as [a s1|s1|]; [|done|done]. by apply Hf.
Qed.

(** The same first step. *)
Lemma agrees_then {A B} (Q : B -> Prop) (m : M A) f1 f2 : (forall a, agrees Q (f1 a) (f2 a)) -> agrees Q (bind m f1) (bind m f2).
Proof. intros Hf. eapply agrees_bind; [apply agrees_same|]. intros a _. apply Hf. Qed.

Section Copies.

Context `{Host} (src : AivmVm) (e1 e2 : forall A, M A).

(** ** Nodes *)

(** The map keeps its size, and no entry is lost. *)
Definition marks_kept (m m' : list Z) : Prop := zlen m' = zlen m /\ unmarked m' <= unmarked m.

Lemma children_agree node c1 c2 k : (forall m h, unmarked m < k -> agrees (fun r => marks_kept m r.1) (c1 m h) (c2 m h)) ->
  forall count i m, unmarked m < k ->
  agrees (fun r => marks_kept m r.1) (copy_boundary_children c1 src node count i m) (copy_boundary_children c2 src node count i m).
Proof.
  intros Hc. induction count as [|count IH]; intros i m Hm; cbn [copy_boundary_children]; [by apply agrees_ret|].
  destruct (aivm_size_add_checked _ _); [|apply agrees_throw]. destruct (zget _ _) as [child|]; [|apply agrees_throw].
  eapply agrees_bind; [by apply Hc|]. intros [m1 copied] [L1 U1]. cbn [fst] in *.
  eapply agrees_bind; [apply IH; lia|]. intros [m2 rest] [L2 U2]. cbn [fst] in *. apply agrees_ret. split; cbn [fst]; lia.
Qed.

Lemma nodes_agree : forall fuel m h, unmarked m < Z.of_nat fuel ->
  agrees (fun r => marks_kept m r.1) (copy_worker_boundary_node e1 fuel src m h) (copy_worker_boundary_node e2 fuel src m h).
Proof.
  induction fuel as [|fuel IH]; intros m h Hm; [pose proof (unmarked_nonneg m); lia|]. cbn [copy_worker_boundary_node].
  destruct (Z.leb_spec h 0); [apply agrees_throw|]. destruct (zget m h) as [known|] eqn:Ek; [|apply agrees_throw].
  destruct (Z.ltb_spec 0 known); [by apply agrees_ret|]. destruct (Z.ltb_spec known 0); [apply agrees_throw|].
  assert (known = 0) as -> by lia. destruct (aivm_vm_lookup_node _ h) as [node|]; [|apply agrees_throw].
  do 2 (apply agrees_then; intros ?).
  pose proof (unmarked_zset m h 0 (-1) ltac:(lia) Ek) as U0. cbn in U0.
  eapply agrees_bind; [apply (children_agree node _ _ (Z.of_nat fuel)); [exact IH|lia]|]. intros [m1 children] [L1 U1]. cbn [fst] in *.
  rewrite zlen_zset in L1. do 4 (apply agrees_then; intros ?). apply agrees_ret. split; cbn [fst]; [by rewrite zlen_zset|].
  pose proof (zget_Some_bounds _ _ _ Ek). destruct (zget_is_Some m1 h ltac:(lia)) as [x Hx].
  rewrite (unmarked_zset m1 h x) by (lia || done). destruct (x =? 0); destruct (_ =? 0); lia.
Qed.

(** ** Values *)

Definition maps_kept (c c' : copy_maps) : Prop := zlen (node_map c') = zlen (node_map c) /\ marks_kept (pair_map c) (pair_map c').

Lemma values_agree direction : forall fuel c v, zlen (node_map c) = zlen (nodes (node_store src)) + 1 -> unmarked (pair_map c) < Z.of_nat fuel ->
  agrees (fun r => maps_kept c r.1) (copy_worker_boundary_value_with_context e1 fuel src c v direction)
    (copy_worker_boundary_value_with_context e2 fuel src c v direction).
Proof.
  intros fuel. revert direction. induction fuel as [|fuel IH]; intros direction c v Hn Hp; [pose proof (unmarked_nonneg (pair_map c)); lia|].
  destruct v; cbn [copy_worker_boundary_value_with_context]; try (by apply agrees_ret); try apply agrees_throw.
  - case_bool_decide; [apply agrees_throw|]. do 2 (apply agrees_then; intros ?). by apply agrees_ret.
  - destruct (_ && _); [apply agrees_throw|]. do 2 (apply agrees_then; intros ?). by apply agrees_ret.
  - eapply agrees_bind.
    { apply nodes_agree. pose proof (unmarked_bound (node_map c)) as Hu. destruct (node_map c); [pose proof (zlen_nonneg (nodes (node_store src)));
        rewrite zlen_nil in Hn; lia|]. specialize (Hu ltac:(done)). unfold zlen in *. lia. }
    intros [m copied] [Lm _]. by apply agrees_ret.
  - destruct (Z.leb_spec handle 0); [apply agrees_throw|]. destruct (zget (pair_map c) handle) as [known|] eqn:Ek; [|apply agrees_throw].
    destruct (Z.ltb_spec 0 known); [by apply agrees_ret|]. destruct (Z.ltb_spec known 0); [apply agrees_throw|].
    assert (known = 0) as -> by lia. destruct (aivm_vm_lookup_scratch_pair src handle) as [q|]; [|apply agrees_throw].
    pose proof (unmarked_zset (pair_map c) handle 0 (-1) ltac:(lia) Ek) as U0. cbn in U0.
    eapply agrees_bind; [apply IH; cbn [pair_map node_map]; lia|]. intros [c1 v1] [N1 [L1 U1]]. cbn [fst pair_map node_map] in *.
    eapply agrees_bind; [apply IH; lia|]. intros [c2 v2] [N2 [L2 U2]]. cbn [fst] in *. rewrite zlen_zset in L1.
    apply agrees_then. intros copied. apply agrees_ret. split; cbn [fst pair_map node_map]; [lia|]. split; [rewrite zlen_zset; lia|].
    pose proof (zget_Some_bounds _ _ _ Ek). destruct (zget_is_Some (pair_map c2) handle ltac:(lia)) as [x Hx].
    rewrite (unmarked_zset (pair_map c2) handle x) by (lia || done). destruct (x =? 0); destruct (copied =? 0); lia.
Qed.

(** C16: copying a value into or out of a worker VM ends on every source VM
    and value, ill-formed, shared and cyclic graphs of nodes and pairs included: the
    recursion never gets to the end of its fuel (one more than the nodes and one more
    than the pairs of the source), whatever would happen there. *)
Theorem boundary_copy_terminates source direction s :
  copy_boundary_value e1 src source direction s = copy_boundary_value e2 src source direction s.
Proof.
  revert s. enough (Ha : agrees (fun _ => True) (copy_boundary_value e1 src source direction) (copy_boundary_value e2 src source direction)) by apply Ha.
  unfold copy_boundary_value. cbv zeta. apply agrees_then. intros _. pose proof (zlen_nonneg (nodes (node_store src))). pose proof (zlen_nonneg (scratch_pairs src)).
  eapply agrees_bind; [|intros [c v] _; by apply agrees_ret].
  assert (Hz : forall n, 0 <= n -> zlen (replicate (Z.to_nat n) 0) = n) by (intros n Hn; unfold zlen; rewrite length_replicate; lia).
  apply values_agree; cbn [node_map pair_map]; [apply Hz; lia|].
  pose proof (unmarked_bound (replicate (Z.to_nat (zlen (scratch_pairs src) + 1)) 0)) as Hu. rewrite Hz in Hu by lia.
  assert (unmarked (replicate (Z.to_nat (zlen (scratch_pairs src) + 1)) 0) <= zlen (scratch_pairs src) + 1 - 1).
  { apply Hu. intros E. pose proof (Hz (zlen (scratch_pairs src) + 1) ltac:(lia)) as E2. rewrite E, zlen_nil in E2. lia. }
  rewrite Nat2Z.inj_succ. fold (zlen (scratch_pairs src)). lia.
Qed.

End Copies.
