(* ===== verification/TaskSafety.v ===== *)
(** * The invariant of the task table

    Whatever a program does, and in whatever order its threads run: task handles are
    given out once and in order, a task slot owns at most one thread context and every
    context is owned by a pending task, the nesting of the parallel contexts matches
    the values they hold, and the workload accounts of the batches are exact. *)

From S2P Require Import Prelude Types Program Syscalls Numeric Vm Memory Lifecycle Stack Control Step Strings Bytes NumberText Roots Pairs NodeGc NodeCreate NodeRoom Collector CollectorSafety.
From S2P Require Import TextOps NodeOps Tasks TaskFrame AsyncCalls WorkerTasks BatchFrames CallSys Machine.

(** ** The invariant *)

(** What the invariant speaks of: tasks without results, and for each context whether
    it has not been freed. *)
Record task_view := mk_view {
  tv_tasks : list AivmCompletedTask; tv_next : Z; tv_consumed : list Z; tv_live : list bool;
  tv_par : list AivmParContext; tv_values : Z;
  tv_groups : list AivmWorkerTaskGroup; tv_task_total : Z; tv_input_total : Z; tv_task_limit : Z; tv_input_limit : Z; tv_next_group : Z }.

Definition view_of (s : AivmVm) : task_view :=
  let t := task_table s in
  mk_view (map task_core (completed_tasks s)) (next_task_handle t) (consumed_task_handles t) (map (fun o => bool_decide (is_Some o)) (contexts t))
    (par_contexts t) (zlen (par_values s))
    (worker_task_groups t) (worker_logical_task_count t) (worker_logical_input_bytes t) (worker_logical_task_limit t)
    (worker_logical_input_limit t) (next_worker_task_group_handle t).

(** Handles in order, each given out before the next one. *)
Record slots_ok (ts : list AivmCompletedTask) (next : Z) : Prop := {
  so_order : StronglySorted Z.lt (map task_handle ts);
  so_range : Forall (fun t => 0 < task_handle t < next) ts;
  so_next : 0 < next <= INT64_MAX;
  so_room : zlen ts <= AIVM_VM_TASK_CAPACITY }.

(** Tasks and contexts that have not been freed correspond one to one. *)
Record links_ok (ts : list AivmCompletedTask) (live : list bool) : Prop := {
  lo_pending : Forall (fun t => is_Some (worker_context t) -> task_state t = AIVM_TASK_STATE_PENDING /\ is_worker_task t = false) ts;
  lo_once : NoDup (omap worker_context ts);
  lo_live : forall i, i ∈ omap worker_context ts <-> zget live i = Some true }.

(** The parallel contexts, the innermost first, with [bound] values so far. *)
Fixpoint nested (bound : Z) (l : list AivmParContext) : Prop :=
  match l with
  | [] => True
  | c :: outer => 0 <= expected_count c /\ 0 <= par_start c <= bound /\ nested (par_start c) outer
  end.

Record group_ok (g : AivmWorkerTaskGroup) : Prop := {
  go_lengths : zlen (payload_lengths g) = task_count g;
  go_handles : zlen (group_task_handles g) = task_count g;
  go_index : 0 <= next_materialize_index g <= task_count g;
  go_payloads : forall i, 0 <= i < task_count g -> is_Some (group_payload g i) }.

Record groups_ok (v : task_view) : Prop := {
  gs_each : Forall group_ok (tv_groups v);
  gs_tasks : tv_task_total v = total task_count (tv_groups v) /\ tv_task_total v <= tv_task_limit v;
  gs_input : tv_input_total v = total (fun g => zlen (batch_bytes g)) (tv_groups v) /\ tv_input_total v <= tv_input_limit v;
  gs_order : StronglySorted Z.lt (map group_handle (tv_groups v));
  gs_range : Forall (fun g => group_handle g < tv_next_group v) (tv_groups v);
  gs_next : tv_next_group v <= INT64_MAX;
  gs_room : zlen (tv_groups v) <= AIVM_VM_TASK_CAPACITY }.

Record view_ok (v : task_view) : Prop := {
  vo_slots : slots_ok (tv_tasks v) (tv_next v);
  vo_links : links_ok (tv_tasks v) (tv_live v);
  vo_consumed : NoDup (tv_consumed v) /\ zlen (tv_consumed v) <= AIVM_VM_TASK_CAPACITY;
  vo_par : nested (tv_values v) (tv_par v) /\ zlen (tv_par v) <= AIVM_VM_PAR_CONTEXT_CAPACITY /\ tv_values v <= AIVM_VM_PAR_VALUE_CAPACITY;
  vo_groups : groups_ok v }.

Definition tasks_ok (s : AivmVm) : Prop := view_ok (view_of s).

(** ** Computations that keep it *)

(** ... and a part of the view as it is. *)
Definition tame {A B} (f : task_view -> B) (m : M A) : Prop := forall s, tasks_ok s ->
  match m s with Ok _ s' | Err s' => tasks_ok s' /\ f (view_of s') = f (view_of s) | Undef => True end.

Definition par_part (v : task_view) := (tv_par v, tv_values v).
(** Everything but the tasks. *)
Definition rest_part (v : task_view) :=
  (par_part v, (tv_groups v, tv_task_total v, tv_input_total v, tv_task_limit v, tv_input_limit v, tv_next_group v)).
Definition no_part (v : task_view) := tt.

Lemma view_apart s s' : tasks_view s' = tasks_view s -> view_of s' = view_of s.
Proof. unfold tasks_view, view_of. intros [= _ _ -> -> ->]. done. Qed.

Section Tame.

Context {B : Type} (f : task_view -> B).

Lemma tame_apart {A} (m : M A) : apart m -> tame f m.
Proof.
  intros Hm s Hs. specialize (Hm s). destruct (m s) as [a s1|s1|]; [| |done]; apply view_apart in Hm; unfold tasks_ok; by rewrite Hm.
Qed.

Lemma tame_bind {A C} (m : M A) (k : A -> M C) : tame f m -> (forall a, tame f (k a)) -> tame f (bind m k).
Proof.
  intros Hm Hk s Hs. unfold bind. specialize (Hm s Hs). destruct (m s) as [a s1|s1|]; [|done|done]. destruct Hm as [H1 E1].
  specialize (Hk a s1 H1). destruct (k a s1) as [c s2|s2|]; [| |done]; destruct Hk as [H2 E2]; (split; [done|congruence]).
Qed.

Lemma tame_or_else {A} (m h : M A) : tame f m -> tame f h -> tame f (or_else m h).
Proof.
  intros Hm Hh s Hs. unfold or_else. specialize (Hm s Hs). destruct (m s) as [a s1|s1|]; [done| |done]. destruct Hm as [H1 E1].
  specialize (Hh s1 H1). destruct (h s1) as [c s2|s2|]; [| |done]; destruct Hh as [H2 E2]; (split; [done|congruence]).
Qed.

(** A change the view does not show. *)
Lemma tame_modify g : (forall s, view_of (g s) = view_of s) -> tame f (modify g).
Proof. intros Hg s Hs. cbn. unfold tasks_ok. by rewrite Hg. Qed.

End Tame.

Lemma tame_weaken {A B C} (f : task_view -> B) (g : task_view -> C) (m : M A) :
  (forall v v', f v' = f v -> g v' = g v) -> tame f m -> tame g m.
Proof. intros Hfg Hm s Hs. specialize (Hm s Hs). destruct (m s); [| |done]; destruct Hm as [H1 H2]; auto. Qed.

Create HintDb tame.
#[export] Hint Extern 2 (tame _ (modify _)) => (apply tame_modify; intros ?; reflexivity) : tame.
#[export] Hint Extern 2 (tame _ (put_table _)) => (apply tame_modify; intros ?; reflexivity) : tame.
#[export] Hint Extern 3 (tame _ _) => (apply tame_apart; solve [eauto 3 with apart]) : tame.

Ltac tame_step :=
  first
    [ solve [eauto 3 with tame]
    | apply tame_bind; [|intros ?]
    | apply tame_or_else
    | progress cbv beta zeta
    | match goal with |- tame _ (if ?b then _ else _) => destruct b end
    | match goal with |- tame _ (match ?x with _ => _ end) => destruct x end ].

Ltac tame_steps := repeat tame_step.

(** ** Slots and links *)

Lemma sorted_app_lt l k : StronglySorted Z.lt (l ++ k) <-> StronglySorted Z.lt l /\ StronglySorted Z.lt k /\ Forall (fun x => Forall (Z.lt x) k) l.
Proof.
  induction l as [|x l IH]; cbn [app]; [split; [intros; split_and!; [constructor|done|constructor]|by intros (_ & ? & _)]|]. rewrite Forall_cons. split.
  - intros H%StronglySorted_inv. destruct H as [H1 H2]. apply IH in H1 as (? & ? & ?). apply Forall_app in H2 as [? ?].
    split_and!; try done. by constructor.
  - intros (H1 & H2 & H3 & H4). apply StronglySorted_inv in H1 as [H1 H5]. constructor; [by apply IH|]. by apply Forall_app.
Qed.

(** Tasks with the same handles, and those of a part of the list. *)
Lemma slots_remove ts1 t ts2 next : slots_ok (ts1 ++ t :: ts2) next -> slots_ok (ts1 ++ ts2) next.
Proof.
  intros [H1 H2 H3 H4]. rewrite map_app in H1. apply sorted_app_lt in H1 as (S1 & S2 & S3). apply Forall_app in H2 as [R1 R2].
  apply Forall_cons in R2 as [_ R2]. cbn in S2. apply StronglySorted_inv in S2 as [S2 _]. split; [| |done|].
  - rewrite map_app. apply sorted_app_lt. split_and!; try done. eapply Forall_impl; [exact S3|]. intros x Hx. cbn in Hx. by apply Forall_cons in Hx as [_ ?].
  - by apply Forall_app.
  - rewrite !zlen_app, zlen_cons in *. lia.
Qed.

Lemma slots_replace ts1 t t' ts2 next : task_handle t' = task_handle t -> slots_ok (ts1 ++ t :: ts2) next -> slots_ok (ts1 ++ t' :: ts2) next.
Proof.
  intros E [H1 H2 H3 H4]. split; [|by apply Forall_app in H2 as [R1 R2]; apply Forall_cons in R2 as [R2 R3]; apply Forall_app; split; [|constructor; [rewrite E|]]|done|].
  - rewrite map_app in *. cbn [map] in *. by rewrite E.
  - rewrite !zlen_app, !zlen_cons in *. done.
Qed.

Lemma slots_append ts t next : slots_ok ts next -> task_handle t = next -> next < INT64_MAX -> zlen ts < AIVM_VM_TASK_CAPACITY ->
  slots_ok (ts ++ [t]) (next + 1).
Proof.
  intros [H1 H2 H3 H4] E Hn Hr. split; [| |lia|rewrite zlen_app, zlen_cons, zlen_nil; lia].
  - rewrite map_app. apply sorted_app_lt. split_and!; [done|by constructor; constructor|]. apply Forall_map. eapply Forall_impl; [exact H2|].
    intros x Hx. cbv beta in Hx. cbn [map]. constructor; [lia|constructor].
  - apply Forall_app. split; [eapply Forall_impl; [exact H2|]; cbv beta; intros; lia|]. constructor; [lia|constructor].
Qed.

Lemma slots_next ts next : slots_ok ts next -> next < INT64_MAX -> slots_ok ts (next + 1).
Proof. intros [H1 H2 H3 H4] Hn. split; try done; [|lia]. eapply Forall_impl; [exact H2|]. cbv beta. intros; lia. Qed.

Lemma links_insert ts1 t ts2 live : worker_context t = None -> links_ok (ts1 ++ ts2) live -> links_ok (ts1 ++ t :: ts2) live.
Proof.
  intros E [H1 H2 H3]. assert (Eo : omap worker_context (ts1 ++ t :: ts2) = omap worker_context (ts1 ++ ts2)).
  { rewrite !omap_app. cbn. by rewrite E. }
  split; [|by rewrite Eo|by rewrite Eo]. apply Forall_app in H1 as [? ?]. apply Forall_app. split; [done|]. constructor; [|done]. rewrite E. by intros [? ?].
Qed.

(** The context of a slot is freed with the link. *)
Definition unlink (live : list bool) (c : option Z) : list bool := match c with Some i => zset live i false | None => live end.

Lemma links_remove ts1 t ts2 live : links_ok (ts1 ++ t :: ts2) live -> links_ok (ts1 ++ ts2) (unlink live (worker_context t)).
Proof.
  intros [H1 H2 H3]. rewrite omap_app in H2, H3. cbn in H2, H3. apply Forall_app in H1 as [P1 P2]. apply Forall_cons in P2 as [_ P2].
  assert (Hp : Forall (fun t => is_Some (worker_context t) -> task_state t = AIVM_TASK_STATE_PENDING /\ is_worker_task t = false) (ts1 ++ ts2)) by (by apply Forall_app).
  destruct (worker_context t) as [i|]; cbn [unlink]; split; try done; rewrite omap_app; try done.
  - apply NoDup_app in H2 as (N1 & N2 & N3). apply NoDup_cons in N3 as [_ N3]. apply NoDup_app. split_and!; try done. intros x Hx Hy. by apply (N2 x Hx); right.
  - intros j. specialize (H3 j). rewrite !elem_of_app, elem_of_cons in *.
    assert (Hi : (i ∉ omap worker_context ts1) /\ (i ∉ omap worker_context ts2)).
    { apply NoDup_app in H2 as (N1 & N2 & N3). apply NoDup_cons in N3 as [N3 _]. split; [|done]. intros Hx. apply (N2 i Hx). by left. }
    destruct (decide (i = j)) as [<-|Hne].
    + assert (Hl : zget live i = Some true) by (apply H3; tauto). apply zget_Some_bounds in Hl. rewrite zget_zset_eq by lia. split; [tauto|done].
    + rewrite zget_zset_ne by done. rewrite <- H3. intuition congruence.
Qed.

Lemma links_append ts t live : worker_context t = Some (zlen live) -> task_state t = AIVM_TASK_STATE_PENDING -> is_worker_task t = false ->
  links_ok ts live -> links_ok (ts ++ [t]) (live ++ [true]).
Proof.
  intros E Ep Ew [H1 H2 H3].
  assert (Hout : zlen live ∉ omap worker_context ts) by (intros Hx%H3%zget_Some_bounds; lia).
  split.
  - apply Forall_app. split; [done|]. constructor; [done|constructor].
  - rewrite omap_app. cbn. rewrite E. apply NoDup_app. split_and!; [done|by intros x Hx ->%list_elem_of_singleton|apply NoDup_singleton].
  - intros j. rewrite omap_app, elem_of_app, H3. cbn. rewrite E, list_elem_of_singleton. unfold zget. pose proof (zlen_nonneg live).
    destruct (Z.ltb_spec j 0); [split; [by intros [?| ->]; [|lia]|done]|]. rewrite lookup_app. unfold zlen in *.
    destruct (live !! Z.to_nat j) as [b|] eqn:Eb.
    + apply lookup_lt_Some in Eb. split; [intros [?| ->]; [done|lia]|by left].
    + apply lookup_ge_None in Eb. split; [intros [?|Ej]; [done|]|].
      * replace (Z.to_nat j - length live)%nat with 0%nat by lia. done.
      * intros Hj. apply lookup_lt_Some in Hj. cbn in Hj. right. lia.
Qed.

(** ** Tasks *)

Lemma map_core_split s index t : zget (completed_tasks s) index = Some t ->
  map task_core (completed_tasks s) = map task_core (ztake index (completed_tasks s)) ++ task_core t :: map task_core (zdrop (index + 1) (completed_tasks s)).
Proof. intros Ht. destruct (zget_split _ _ _ Ht) as [E _]. by rewrite E at 1; rewrite map_app. Qed.

Lemma live_set_context s i c : map (fun o => bool_decide (is_Some o)) (contexts (task_table (set_context i c s))) =
  zset (map (fun o => bool_decide (is_Some o)) (contexts (task_table s))) i (bool_decide (is_Some c)).
Proof. cbn. unfold zset. destruct (i <? 0); [done|]. exact (list_fmap_insert (fun o => bool_decide (is_Some o)) _ _ _). Qed.

(** A context that stays. *)
Lemma view_set_context s i c c' : context_at s i = Some c -> view_of (set_context i (Some c') s) = view_of s.
Proof.
  intros Hc. unfold view_of. rewrite live_set_context. cbn. f_equal. unfold context_at in Hc.
  destruct (zget (contexts (task_table s)) i) as [o|] eqn:Ez; [|done]. cbn in Hc. subst o. pose proof (zget_Some_bounds _ _ _ Ez) as Hb.
  unfold zset. destruct (Z.ltb_spec i 0); [lia|]. apply list_insert_id. rewrite list_lookup_fmap. rewrite zget_lookup in Ez by lia. by rewrite Ez.
Qed.

(** Other tasks and contexts, the rest as it is. *)
Definition retask (ts : list AivmCompletedTask) (next : Z) (live : list bool) (v : task_view) : task_view :=
  mk_view ts next (tv_consumed v) live (tv_par v) (tv_values v) (tv_groups v) (tv_task_total v) (tv_input_total v) (tv_task_limit v)
    (tv_input_limit v) (tv_next_group v).

Lemma retask_ok ts next live v : view_ok v -> slots_ok ts next -> links_ok ts live -> view_ok (retask ts next live v).
Proof. intros [_ _ H1 H2 [G1 G2 G3 G4 G5 G6 G7]] Hs Hl. by split; [..|split]. Qed.

Lemma tame_join i : tame rest_part (join_bytecode_worker_thread i).
Proof.
  intros s Hs. unfold join_bytecode_worker_thread, bind, get. destruct (context_at s i) as [c|] eqn:Ec; [|done]. cbn [check ret].
  destruct (ctx_joined c); [done|]. destruct (returned c); [|done]. cbn. unfold tasks_ok. by rewrite (view_set_context s i c).
Qed.

(** Freeing a context only changes whether it is live. *)
Lemma free_view i s :
  match free_bytecode_worker_context i s with
  | Ok _ s' => completed_tasks s' = completed_tasks s /\
      view_of s' = retask (tv_tasks (view_of s)) (tv_next (view_of s)) (unlink (tv_live (view_of s)) (Some i)) (view_of s)
  | Err _ => False
  | Undef => True
  end.
Proof.
  unfold free_bytecode_worker_context, join_bytecode_worker_thread, bind, get. destruct (context_at s i) as [c|] eqn:Ec; [|done]. cbn [check ret].
  assert (Hf : forall s1, completed_tasks s1 = completed_tasks s -> view_of s1 = view_of s ->
    completed_tasks (set_context i None s1) = completed_tasks s /\
    view_of (set_context i None s1) = retask (tv_tasks (view_of s)) (tv_next (view_of s)) (unlink (tv_live (view_of s)) (Some i)) (view_of s)).
  { intros s1 E1 <-. split; [done|]. unfold view_of at 1. rewrite live_set_context. done. }
  unfold modify, ret. destruct (ctx_joined c); [destruct (quiescent (ctx_worker c)); [by apply Hf|done]|]. destruct (returned c); [|done].
  destruct (quiescent (ctx_worker (set_joined c))); [|done]. apply (Hf (set_context i (Some (set_joined c)) s)); [done|by apply (view_set_context s i c)].
Qed.

Lemma tame_next_handle : tame rest_part check_next_handle.
Proof. unfold check_next_handle, get_table. tame_steps. Qed.

Section Work.

Context `{Host} (W : TaskWork) (Hfree : forall i, free_context i = free_bytecode_worker_context i)
  (Hcomplete : forall i, tame rest_part (complete_pending_task i)) (Hrefill : tame par_part refill_worker_task_groups).

Lemma drop_ok s s1 index t : tasks_ok s -> zget (completed_tasks s) index = Some t -> completed_tasks s1 = completed_tasks s ->
  view_of s1 = retask (tv_tasks (view_of s)) (tv_next (view_of s)) (unlink (tv_live (view_of s)) (worker_context t)) (view_of s) ->
  let s' := set_completed_tasks (ztake index (completed_tasks s1) ++ zdrop (index + 1) (completed_tasks s1)) s1 in
  tasks_ok s' /\ rest_part (view_of s') = rest_part (view_of s).
Proof.
  intros Hs Ht E1 Ev. cbv zeta. rewrite E1.
  set (ts := map task_core (ztake index (completed_tasks s)) ++ map task_core (zdrop (index + 1) (completed_tasks s))).
  assert (Hv : view_of (set_completed_tasks (ztake index (completed_tasks s) ++ zdrop (index + 1) (completed_tasks s)) s1) =
    retask ts (tv_next (view_of s1)) (tv_live (view_of s1)) (view_of s1)).
  { unfold view_of at 1. cbn. by rewrite map_app. }
  unfold tasks_ok. rewrite Hv, Ev. split; [|done]. pose proof (vo_slots _ Hs) as Ss. pose proof (vo_links _ Hs) as Sl.
  change (tv_tasks (view_of s)) with (map task_core (completed_tasks s)) in Ss, Sl. rewrite (map_core_split s index t Ht) in Ss, Sl.
  apply slots_remove in Ss. apply links_remove in Sl. exact (retask_ok ts _ _ (view_of s) Hs Ss Sl).
Qed.

Lemma tame_drop index : tame rest_part (drop_task_slot index).
Proof.
  intros s Hs. unfold drop_task_slot, bind, get. destruct (zget (completed_tasks s) index) as [t|] eqn:Et; [|done]. cbn [check ret].
  assert (Hd : forall s1, completed_tasks s1 = completed_tasks s ->
    view_of s1 = retask (tv_tasks (view_of s)) (tv_next (view_of s)) (unlink (tv_live (view_of s)) (worker_context t)) (view_of s) ->
    match (do! modify (fun s => set_completed_tasks (ztake index (completed_tasks s) ++ zdrop (index + 1) (completed_tasks s)) s) in count_reclaimed) s1
    with Ok _ s' | Err s' => tasks_ok s' /\ rest_part (view_of s') = rest_part (view_of s) | Undef => True end).
  { intros s1 E1 Ev. exact (drop_ok s s1 index t Hs Et E1 Ev). }
  destruct (worker_context t) as [i|] eqn:Ew.
  - rewrite Hfree. pose proof (free_view i s) as Hf. destruct (free_bytecode_worker_context i s) as [u s1|s1|]; [|done|done].
    destruct Hf as [E1 Ev]. by apply Hd.
  - by apply Hd.
Qed.

#[local] Hint Resolve tame_drop : tame.

Lemma tame_scan ts : forall index, tame rest_part (reclaim_scan ts index).
Proof. induction ts as [|t ts IH]; intros index; cbn [reclaim_scan]; unfold count_skipped; tame_steps. Qed.

#[local] Hint Resolve tame_scan : tame.

Lemma tame_room : tame rest_part make_task_room.
Proof. unfold make_task_room, table_full, reclaim_oldest_completed_task_slot, count_exhausted. tame_steps. Qed.

Lemma tame_remove handle : tame rest_part (remove_task_if_present handle).
Proof. unfold remove_task_if_present, remove_completed_task_slot. tame_steps. Qed.

Lemma tame_tombstone handle : tame rest_part (retain_consumed_task_tombstone handle).
Proof.
  unfold retain_consumed_task_tombstone. intros s Hs. unfold bind, get. destruct (is_consumed_task_handle s handle) eqn:Ec; [done|].
  destruct (Z.leb_spec AIVM_VM_TASK_CAPACITY (zlen (consumed_task_handles (task_table s)))); [done|]. cbn. split; [|done].
  destruct Hs as [Ss Sl [Sc1 Sc2] Sp [G1 G2 G3 G4 G5 G6 G7]]. split; try done. cbn. split.
  - apply NoDup_app. split_and!; [done| |apply NoDup_singleton]. intros x Hx ->%list_elem_of_singleton. unfold is_consumed_task_handle in Ec.
    apply not_true_iff_false in Ec. apply Ec, existsb_exists. exists handle. split; [by apply list_elem_of_In|apply Z.eqb_refl].
  - rewrite zlen_app, zlen_cons, zlen_nil. lia.
Qed.

#[local] Hint Resolve tame_room tame_remove tame_tombstone tame_next_handle : tame.

(** A new task. *)
Lemma append_ok s t : tasks_ok s -> task_handle t = next_task_handle (task_table s) -> next_task_handle (task_table s) <> INT64_MAX ->
  zlen (completed_tasks s) < AIVM_VM_TASK_CAPACITY ->
  slots_ok (map task_core (completed_tasks s) ++ [task_core t]) (next_task_handle (task_table s) + 1).
Proof.
  intros Hs Eh En Hr. pose proof (vo_slots _ Hs) as Ss. pose proof (so_next _ _ Ss). cbn in *. apply slots_append; [done|done|lia|].
  by rewrite zlen_map.
Qed.

(** The next handle is taken, with a task or without. *)
Definition bump (s : AivmVm) : AivmVm := set_task_table (set_next_task_handle (next_task_handle (task_table s) + 1) (task_table s)) s.

Lemma bump_ok s : tasks_ok s -> next_task_handle (task_table s) <> INT64_MAX -> tasks_ok (bump s) /\ rest_part (view_of (bump s)) = rest_part (view_of s).
Proof.
  intros Hs En. split; [|done]. pose proof (vo_slots _ Hs) as Ss. pose proof (so_next _ _ Ss). cbn in *.
  apply (retask_ok _ _ _ (view_of s) Hs (slots_next _ _ Ss ltac:(lia)) (vo_links _ Hs)).
Qed.

Definition with_task (t : AivmCompletedTask) (s : AivmVm) : AivmVm := set_completed_tasks (completed_tasks s ++ [t]) s.

Lemma with_task_ok s t : tasks_ok s -> next_task_handle (task_table s) <> INT64_MAX -> zlen (completed_tasks s) < AIVM_VM_TASK_CAPACITY ->
  task_handle t = next_task_handle (task_table s) -> worker_context t = None ->
  tasks_ok (with_task t (bump s)) /\ rest_part (view_of (with_task t (bump s))) = rest_part (view_of s).
Proof.
  intros Hs En Hr Eh Ew. split; [|done]. pose proof (append_ok s t Hs Eh En Hr) as Ss.
  assert (Hv : view_of (with_task t (bump s)) = retask (map task_core (completed_tasks s) ++ [task_core t]) (next_task_handle (task_table s) + 1)
    (tv_live (view_of s)) (view_of s)) by (unfold view_of at 1; cbn; by rewrite map_app).
  unfold tasks_ok. rewrite Hv. apply retask_ok; [done|done|]. apply links_insert; [done|]. rewrite app_nil_r. apply (vo_links _ Hs).
Qed.

(** The capacity check. *)
Lemma check_count_run s : check_task_count s =
  if zlen (completed_tasks s) <? AIVM_VM_TASK_CAPACITY then Ok tt s
  else Err (aivm_set_vm_error AIVM_VM_ERR_INVALID_PROGRAM (DText "Task table capacity exceeded.") s).
Proof.
  unfold check_task_count, bind, get. pose proof (zlen_nonneg (completed_tasks s)). unfold AIVM_VM_TASK_CAPACITY, table_full, throw, ret.
  destruct (aivm_size_add_checked (zlen (completed_tasks s)) 1) as [n|] eqn:E.
  - apply size_add_checked_Some in E as [_ ->]. destruct (Z.ltb_spec 256 (zlen (completed_tasks s) + 1)), (Z.ltb_spec (zlen (completed_tasks s)) 256); (done || lia).
  - apply size_add_checked_None in E. unfold SIZE_MAX in E. destruct (Z.ltb_spec (zlen (completed_tasks s)) 256); [lia|done].
Qed.

Lemma check_handle_run s : check_next_handle s =
  if next_task_handle (task_table s) =? INT64_MAX then Err (aivm_set_vm_error AIVM_VM_ERR_INVALID_PROGRAM (DText "Task handle overflow.") s) else Ok tt s.
Proof. unfold check_next_handle, get_table, gets, bind. by destruct (_ =? _). Qed.

Lemma tame_push_task result : tame rest_part (push_completed_task result).
Proof.
  unfold push_completed_task. apply tame_bind; [apply tame_room|intros _]. intros s Hs. unfold bind at 1. rewrite check_handle_run.
  destruct (Z.eqb_spec (next_task_handle (task_table s)) INT64_MAX) as [_|En]; [done|]. destruct (bump_ok s Hs En) as [Hb Eb].
  unfold bind at 1. change (take_task_handle s) with (Ok (next_task_handle (task_table s)) (bump s)). unfold bind at 1. rewrite check_count_run.
  change (completed_tasks (bump s)) with (completed_tasks s). destruct (Z.ltb_spec (zlen (completed_tasks s)) AIVM_VM_TASK_CAPACITY) as [Hr|_]; [|done].
  unfold bind at 1. cbn [transition_task_state task_state ret]. unfold bind, add_task, modify.
  set (t := set_task_state _ _). destruct (with_task_ok s t Hs En Hr eq_refl eq_refl) as [H2 E2].
  pose proof (tame_apart rest_part (aivm_stack_push (VTask (next_task_handle (task_table s)))) (apart_push _) _ H2) as Hp.
  fold (with_task t (bump s)). destruct (aivm_stack_push _ _) as [u s3|s3|]; [| |done]; destruct Hp as [H3 E3]; (split; [done|congruence]).
Qed.

Lemma tame_allocate catalog_index : tame rest_part (aivm_vm_allocate_worker_task catalog_index).
Proof.
  unfold aivm_vm_allocate_worker_task. apply tame_bind; [apply tame_room|intros _]. intros s Hs. unfold bind at 1. rewrite check_handle_run.
  destruct (Z.eqb_spec (next_task_handle (task_table s)) INT64_MAX) as [_|En]; [done|]. unfold bind at 1. rewrite check_count_run.
  destruct (Z.ltb_spec (zlen (completed_tasks s)) AIVM_VM_TASK_CAPACITY) as [Hr|_]; [|done].
  unfold bind at 1. change (take_task_handle s) with (Ok (next_task_handle (task_table s)) (bump s)). unfold bind, add_task, modify, ret.
  exact (with_task_ok s (mk_task _ _ _ _ _ _) Hs En Hr eq_refl eq_refl).
Qed.

(** Completing tasks and consuming results. *)
Lemma tame_find_loop handle : forall fuel index, tame rest_part (find_task_loop fuel handle index).
Proof. induction fuel as [|fuel IH]; intros index; cbn [find_task_loop]; tame_steps. Qed.

#[local] Hint Resolve tame_push_task tame_allocate tame_find_loop : tame.

Lemma tame_find handle : tame rest_part (find_terminal_task_result handle).
Proof. unfold find_terminal_task_result. tame_steps. Qed.

Lemma part_weaken {A} (m : M A) : tame rest_part m -> tame par_part m.
Proof. apply tame_weaken. intros v v' E. exact (f_equal fst E). Qed.

#[local] Hint Resolve tame_find part_weaken : tame.

Lemma tame_release handle : tame par_part (release_consumed_task_result handle).
Proof. unfold release_consumed_task_result, count_skipped, aivm_collect_safe_point. tame_steps. Qed.

#[local] Hint Resolve tame_release : tame.

Lemma tame_await : tame par_part op_await.
Proof. unfold op_await, await_error. tame_steps. Qed.

(** ** Parallel contexts *)

Lemma nested_mono l b b' : b <= b' -> nested b l -> nested b' l.
Proof. destruct l as [|c l]; [done|]. cbn. intros ? (? & ? & ?). split_and!; (done || lia). Qed.

(** Other parallel contexts, the rest as it is. *)
Lemma par_ok s cs n : tasks_ok s -> nested n cs -> zlen cs <= AIVM_VM_PAR_CONTEXT_CAPACITY -> n <= AIVM_VM_PAR_VALUE_CAPACITY ->
  view_ok (mk_view (tv_tasks (view_of s)) (tv_next (view_of s)) (tv_consumed (view_of s)) (tv_live (view_of s)) cs n
    (tv_groups (view_of s)) (tv_task_total (view_of s)) (tv_input_total (view_of s)) (tv_task_limit (view_of s)) (tv_input_limit (view_of s))
    (tv_next_group (view_of s))).
Proof. intros [Ss Sl Sc Sp [G1 G2 G3 G4 G5 G6 G7]] Hn Hc Hv. by split; [..|split]. Qed.

Lemma part_none {A} (m : M A) : tame par_part m -> tame no_part m.
Proof. by apply tame_weaken. Qed.

#[local] Hint Resolve part_none : tame.

Lemma tame_operand operand : tame par_part (operand_to_index operand).
Proof. unfold operand_to_index. tame_steps. Qed.

Lemma tame_par_begin operand : tame no_part (op_par_begin operand).
Proof.
  intros s Hs. unfold op_par_begin, operand_to_index, bind at 1. destruct (Z.ltb_spec operand 0); [done|]. cbn [ret]. unfold bind, get.
  destruct (aivm_size_add_checked _ 1) as [needed|] eqn:En; [|done]. apply size_add_checked_Some in En as [_ ->].
  destruct (Z.ltb_spec AIVM_VM_PAR_CONTEXT_CAPACITY (zlen (par_contexts (task_table s)) + 1)); [done|]. cbn. split; [|done].
  pose proof (vo_par _ Hs) as (Hn & _ & Hv). cbn in Hn, Hv. unfold tasks_ok, view_of. cbn. apply (par_ok s); [done| |rewrite zlen_cons; lia|done].
  cbn. pose proof (zlen_nonneg (par_values s)). split_and!; (done || lia).
Qed.

Lemma tame_par_fork : tame no_part op_par_fork.
Proof.
  intros s Hs. unfold op_par_fork, bind at 1, get. destruct (par_contexts (task_table s)) as [|c cs] eqn:Ep; [done|].
  destruct (aivm_size_add_checked _ 1) as [needed|] eqn:En; [|done]. apply size_add_checked_Some in En as [_ ->].
  destruct (Z.ltb_spec AIVM_VM_PAR_VALUE_CAPACITY (zlen (par_values s) + 1)); [done|].
  pose proof (tame_apart par_part aivm_stack_pop apart_pop s Hs) as Hp. pose proof (apart_pop s) as Ha. unfold bind.
  destruct (aivm_stack_pop s) as [v s1|s1|]; [| |done]; [|by destruct Hp]. destruct Hp as [H1 _]. apply view_apart in Ha. cbn. split; [|done].
  assert (Ev : zlen (par_values s1) = zlen (par_values s)) by exact (f_equal tv_values Ha).
  pose proof (vo_par _ H1) as (Hn & Hc & Hv). cbn in Hn, Hc, Hv.
  assert (Hz : zlen (par_values s1 ++ [v]) = zlen (par_values s1) + 1) by (rewrite zlen_app, zlen_cons, zlen_nil; lia).
  unfold tasks_ok, view_of. cbn. rewrite Hz. apply (par_ok s1); [done|by eapply nested_mono; [|exact Hn]; lia|done|lia].
Qed.

Lemma tame_join_branches start : forall count i children consumed, tame par_part (join_branches count start i children consumed).
Proof. induction count as [|count IH]; intros i children consumed; cbn [join_branches]; unfold join_branch; tame_steps. Qed.

Lemma tame_joined count start : tame par_part (joined_branches count start).
Proof.
  intros s Hs. unfold joined_branches. pose proof (tame_join_branches start (Z.to_nat count) 0 [] [] s Hs) as Hj.
  destruct (join_branches _ _ _ _ _ s); [| |done]; by case_bool_decide.
Qed.

Lemma tame_release_all handles : tame par_part (release_all handles).
Proof. induction handles as [|h hs IH]; cbn [release_all]; tame_steps. Qed.

Lemma tame_released handles : tame par_part (released handles).
Proof.
  intros s Hs. unfold released. pose proof (tame_release_all handles s Hs) as Hj. destruct (release_all handles s); [| |done]; by case_bool_decide.
Qed.

#[local] Hint Resolve tame_joined tame_released tame_operand : tame.

(** The innermost context is closed, with the values it holds. *)
Lemma close_ok s c cs : tasks_ok s -> par_contexts (task_table s) = c :: cs ->
  tasks_ok (set_par_values (ztake (par_start c) (par_values s)) (set_task_table (set_par_contexts (tail (par_contexts (task_table s))) (task_table s)) s)).
Proof.
  intros Hs Ec. pose proof (vo_par _ Hs) as (Hn & Hc & Hv). cbn in Hn, Hc, Hv. rewrite Ec in *. cbn in Hn. destruct Hn as (_ & Hb & Hn).
  unfold tasks_ok, view_of. cbn. rewrite zlen_ztake by lia. rewrite zlen_cons in Hc. apply (par_ok s); [done|done|lia|lia].
Qed.

Lemma tame_par_join operand : tame no_part (op_par_join operand).
Proof.
  unfold op_par_join. apply tame_bind; [eauto with tame|intros join_count]. intros s Hs. unfold bind at 1, get.
  destruct (par_contexts (task_table s)) as [|c cs] eqn:Ep; [done|]. destruct (_ || _ || _); [done|]. destruct (_ <? join_count); [done|].
  pose proof (tame_joined join_count (par_start c) s Hs) as Hj. unfold bind at 1. destruct (joined_branches _ _ s) as [[children consumed] s1|s1|]; [| |done].
  2: { by destruct Hj. }
  destruct Hj as [H1 E1]. assert (Ec : par_contexts (task_table s1) = c :: cs) by (rewrite <- Ep; exact (f_equal fst E1)). clear E1 Hs.
  unfold bind at 1, get_table at 1, gets. unfold bind at 1, put_table at 1, modify at 1. cbv zeta.
  match goal with |- context [bind (aivm_vm_create_node_record ?k ?i ?a ?ch) _ ?s2] => set (s2' := s2);
    pose proof (apart_create_node k i a ch s2') as Hc; unfold bind at 1; destruct (aivm_vm_create_node_record k i a ch s2') as [block s3|s3|] end; [| |done].
  2: { apply view_apart in Hc. unfold tasks_ok. by rewrite Hc. }
  apply view_apart in Hc. assert (H3 : tasks_ok s3) by (unfold tasks_ok; by rewrite Hc).
  assert (E3 : par_contexts (task_table s3) = c :: cs) by (rewrite <- Ec; exact (f_equal tv_par Hc)).
  unfold bind at 1, put_table at 1, modify at 1. unfold bind at 1, modify at 1. pose proof (close_ok s3 c cs H3 E3) as H4.
  assert (Hr : tame no_part (do! aivm_stack_push (VNode block) in do! released consumed in advance)) by (unfold advance; tame_steps).
  specialize (Hr _ H4). exact Hr.
Qed.

End Work.

(** ** Computations the view does not show *)

Definition still {A} (m : M A) : Prop := stays view_of m.

Lemma still_apart {A} (m : M A) : apart m -> still m.
Proof. intros Hm s. specialize (Hm s). destruct (m s); [| |done]; by apply view_apart. Qed.

Lemma still_bind {A C} (m : M A) (k : A -> M C) : still m -> (forall a, still (k a)) -> still (bind m k).
Proof. apply stays_bind. Qed.

Lemma still_or_else {A} (m h : M A) : still m -> still h -> still (or_else m h).
Proof.
  intros Hm Hh s. unfold or_else. specialize (Hm s). destruct (m s) as [a s1|s1|]; [done| |done].
  specialize (Hh s1). destruct (h s1); congruence.
Qed.

Lemma tame_still {A B} (f : task_view -> B) (m : M A) : still m -> tame f m.
Proof. intros Hm s Hs. specialize (Hm s). destruct (m s); [| |done]; unfold tasks_ok; by rewrite Hm. Qed.

Create HintDb still.
#[export] Hint Extern 2 (still (modify _)) => (apply stays_modify; intros ?; reflexivity) : still.
#[export] Hint Extern 2 (still (put_table _)) => (apply stays_modify; intros ?; reflexivity) : still.
#[export] Hint Extern 3 (still _) => (apply still_apart; solve [eauto 3 with apart]) : still.
#[export] Hint Extern 4 (tame _ _) => (apply tame_still; solve [eauto 3 with still]) : tame.

Ltac still_step :=
  first
    [ solve [eauto 3 with still]
    | apply still_bind; [|intros ?]
    | apply still_or_else
    | progress cbv beta zeta
    | match goal with |- still (if ?b then _ else _) => destruct b end
    | match goal with |- still (match ?x with _ => _ end) => destruct x end ].

Ltac still_unfold := match goal with |- still ?m => let h := head_of m in unfold h end.
Ltac still_all := repeat first [still_step | still_unfold].

(** What a computation after a still one has to show. *)
Definition kept {A B} (f : task_view -> B) (v : task_view) (r : res A) : Prop :=
  match r with Ok _ s' | Err s' => tasks_ok s' /\ f (view_of s') = f v | Undef => True end.

Lemma kept_bind {A B C} (f : task_view -> B) (m : M A) (k : A -> M C) s v : still m -> tasks_ok s -> view_of s = v ->
  (forall a s1, tasks_ok s1 -> view_of s1 = v -> kept f v (k a s1)) -> kept f v (bind m k s).
Proof.
  intros Hm Hs <- Hk. unfold bind. specialize (Hm s). destruct (m s) as [a s1|s1|]; [| |done].
  - apply Hk; [|done]. unfold tasks_ok. by rewrite Hm.
  - unfold kept, tasks_ok. by rewrite Hm.
Qed.

Lemma kept_still {A B} (f : task_view -> B) (m : M A) s v : still m -> tasks_ok s -> view_of s = v -> kept f v (m s).
Proof. intros Hm Hs <-. exact (tame_still f m Hm s Hs). Qed.

Section Async.

Context `{Host} `{Threads}.

Lemma apart_source_slots {A} count (slots : list A) start message : forall i, apart (source_slots count slots start i message).
Proof. induction count as [|n IH]; intros i; cbn [source_slots]; apart_all. Qed.

#[local] Hint Resolve apart_source_slots : apart.

Lemma apart_boundary_children copy src node : (forall m h, apart (copy m h)) ->
  forall count i m, apart (copy_boundary_children copy src node count i m).
Proof. intros Hc. induction count as [|n IH]; intros i m; cbn [copy_boundary_children]; apart_all. Qed.

Lemma apart_boundary_node src : forall fuel m h, apart (copy_worker_boundary_node (fun _ => undef) fuel src m h).
Proof.
  induction fuel as [|fuel IH]; intros m h; cbn [copy_worker_boundary_node]; [apart_all|].
  pose proof (fun node => apart_boundary_children (copy_worker_boundary_node (fun _ => undef) fuel src) src node IH). apart_all.
Qed.

#[local] Hint Resolve apart_boundary_node : apart.

Lemma apart_boundary_value src : forall fuel maps v direction,
  apart (copy_worker_boundary_value_with_context (fun _ => undef) fuel src maps v direction).
Proof.
  induction fuel as [|fuel IH]; intros maps v direction; destruct v; cbn [copy_worker_boundary_value_with_context]; apart_all.
Qed.

#[local] Hint Resolve apart_boundary_value : apart.

Lemma apart_boundary_copy src v direction : apart (copy_worker_boundary_value src v direction).
Proof. unfold copy_worker_boundary_value. apart_all. Qed.

Lemma still_join i : still (join_bytecode_worker_thread i).
Proof.
  intros s. unfold join_bytecode_worker_thread, bind, get. destruct (context_at s i) as [c|] eqn:Ec; [|done]. cbn [check ret].
  destruct (ctx_joined c); [done|]. destruct (returned c); [|done]. by apply (view_set_context s i c).
Qed.

(** ** Replacing a task *)

Lemma core_at s index t : zget (completed_tasks s) index = Some t ->
  exists ts1 ts2, zlen ts1 = index /\ tv_tasks (view_of s) = ts1 ++ task_core t :: ts2 /\
    forall t', map task_core (zset (completed_tasks s) index t') = ts1 ++ task_core t' :: ts2.
Proof.
  intros Ht. destruct (zget_split _ _ _ Ht) as [E L]. exists (map task_core (ztake index (completed_tasks s))), (map task_core (zdrop (index + 1) (completed_tasks s))).
  split; [by rewrite zlen_map|]. split; [exact (map_core_split s index t Ht)|]. intros t'. rewrite (zset_split _ _ _ t' Ht). by rewrite map_app.
Qed.

Lemma core_same s s1 index t : view_of s1 = view_of s -> zget (completed_tasks s) index = Some t ->
  exists t1, zget (completed_tasks s1) index = Some t1 /\ task_core t1 = task_core t.
Proof.
  intros E Ht. pose proof (f_equal tv_tasks E) as Em. cbn in Em. pose proof (zget_Some_bounds _ _ _ Ht) as Hb.
  assert (Hl : zget (map task_core (completed_tasks s1)) index = Some (task_core t)).
  { rewrite Em. rewrite zget_lookup in Ht |- * by lia. change (map task_core) with (fmap (M := list) task_core). by rewrite list_lookup_fmap, Ht. }
  rewrite zget_lookup in Hl by lia. change (map task_core) with (fmap (M := list) task_core) in Hl. rewrite list_lookup_fmap in Hl.
  rewrite zget_lookup by lia. destruct (completed_tasks s1 !! Z.to_nat index) as [t1|]; [|done]. exists t1. split; [done|]. exact (f_equal (default (task_core t)) Hl).
Qed.

(** A task that loses its context, or had none. *)
Lemma replace_ok s index t t' live : tasks_ok s -> zget (completed_tasks s) index = Some t -> task_handle t' = task_handle t ->
  worker_context t' = None -> live = unlink (tv_live (view_of s)) (worker_context t) ->
  view_ok (retask (map task_core (zset (completed_tasks s) index t')) (tv_next (view_of s)) live (view_of s)).
Proof.
  intros Hs Ht Eh Ew ->. destruct (core_at s index t Ht) as (ts1 & ts2 & _ & E & Ez). rewrite Ez. apply retask_ok; [done| |].
  - pose proof (vo_slots _ Hs) as Ss. rewrite E in Ss. by apply (slots_replace ts1 (task_core t)).
  - pose proof (vo_links _ Hs) as Sl. rewrite E in Sl. apply links_insert; [done|]. exact (links_remove ts1 (task_core t) ts2 _ Sl).
Qed.

Lemma kept_put s v index t t' : tasks_ok s -> view_of s = v -> zget (completed_tasks s) index = Some t -> task_handle t' = task_handle t ->
  worker_context t' = None -> worker_context t = None -> tasks_ok (set_completed_tasks (zset (completed_tasks s) index t') s) /\
  rest_part (view_of (set_completed_tasks (zset (completed_tasks s) index t') s)) = rest_part v.
Proof.
  intros Hs <- Ht Eh Ew Et. split; [|done]. apply (replace_ok s index t t' (tv_live (view_of s)) Hs Ht Eh Ew). by rewrite Et.
Qed.

Lemma kept_complete_bytecode s index t : tasks_ok s -> zget (completed_tasks s) index = Some t ->
  kept rest_part (view_of s) (complete_bytecode_task index t s).
Proof.
  intros Hs Ht. unfold complete_bytecode_task. destruct (task_state t) eqn:Es; try (by split). destruct (worker_context t) as [i|] eqn:Ew; [|by split].
  apply kept_bind; [apply still_join|done|done|]. intros c s1 H1 E1. case_bool_decide as Hst; [apply kept_still; [unfold propagate_worker_error; still_all|done|done]|].
  apply kept_bind; [apply still_apart, apart_boundary_copy|done|done|]. intros copied s2 H2 E2.
  destruct (core_same s s2 index t E2 Ht) as (t2 & Ht2 & Ec). set (t' := mk_task _ _ _ _ _ _).
  unfold bind, put_task, modify. pose proof (free_view i (set_completed_tasks (zset (completed_tasks s2) index t') s2)) as Hf.
  destruct (free_bytecode_worker_context i _) as [u s3|s3|]; [|done|done]. destruct Hf as [_ Ev]. unfold kept, tasks_ok. rewrite Ev. split.
  - assert (Eh : task_handle t' = task_handle t2) by exact (eq_sym (f_equal task_handle Ec)).
    assert (Ewc : worker_context t2 = Some i) by (rewrite <- Ew; exact (f_equal worker_context Ec)).
    exact (replace_ok s2 index t2 t' _ H2 Ht2 Eh eq_refl (f_equal (unlink _) (eq_sym Ewc))).
  - by rewrite <- E2.
Qed.

End Async.
