(* ===== verification/TaskSteps.v ===== *)
(** * The task table under every instruction and schedule

    The workers and batches of WorkerTasks.v, the calls of AsyncCalls.v and CallSys.v,
    and with them every step of the machine keep the invariant of TaskSafety.v. *)

From S2P Require Import Prelude Types Program LoaderSafety LoaderFormat Syscalls Numeric Vm Memory Lifecycle Stack Control Step Strings Bytes NumberText Roots Pairs NodeGc NodeCreate NodeRoom Collector CollectorSafety.
From S2P Require Import TextOps NodeOps Tasks TaskFrame AsyncCalls WorkerTasks BatchFrames CallSys Machine TaskSafety.

Section Steps.

Context `{Hh : Host} `{Ht : Threads} `{Hw : WorkerRuntime} `{Hc : Clock} `{Ha : Addresses}.

(** ** Completing worker tasks *)

Lemma still_request {A} r (answer : list runtime_request -> A) : still (request r answer).
Proof. unfold request, get_table. still_all. Qed.

#[local] Hint Resolve still_request : still.
#[local] Hint Extern 2 (still (submit _ _ _)) => (apply still_request) : still.
#[local] Hint Extern 2 (still (await _)) => (apply still_request) : still.
#[local] Hint Extern 2 (still (cancel _)) => (apply still_request) : still.
#[local] Hint Extern 2 (still (release _)) => (apply still_request) : still.

(** The outcome of a task that has no context. *)
Lemma kept_outcome {A} s v index t state value (k : unit -> M A) : tasks_ok s -> view_of s = v -> zget (tv_tasks v) index = Some (task_core t) ->
  worker_context t = None -> (forall a, still (k a)) ->
  kept rest_part v (bind (put_task index (mk_task state (task_handle t) value (worker_context t) (worker_catalog_index t) (is_worker_task t))) k s).
Proof.
  intros Hs <- Hz Ew Hk. assert (exists t1, zget (completed_tasks s) index = Some t1 /\ task_core t1 = task_core t) as (t1 & H1 & E1).
  { pose proof (zget_Some_bounds _ _ _ Hz) as Hb. rewrite zget_lookup in Hz by lia. cbn [tv_tasks view_of] in Hz.
    change (map task_core) with (fmap (M := list) task_core) in Hz. rewrite list_lookup_fmap in Hz. rewrite zget_lookup by lia.
    destruct (completed_tasks s !! Z.to_nat index) as [t1|]; [|done]. exists t1. split; [done|]. exact (f_equal (default (task_core t)) Hz). }
  unfold bind, put_task, modify. set (t' := mk_task _ _ _ _ _ _).
  destruct (kept_put s (view_of s) index t1 t' Hs eq_refl H1 (eq_sym (f_equal task_handle E1)) Ew) as [H2 E2].
  { rewrite <- Ew. exact (f_equal worker_context E1). }
  pose proof (kept_still rest_part (k tt) _ _ (Hk tt) H2 eq_refl) as Hr. unfold kept in *. destruct (k tt _); [| |done]; destruct Hr; (split; [done|congruence]).
Qed.

Lemma still_canceled : still create_canceled_result.
Proof. unfold create_canceled_result. still_all. Qed.

Lemma still_write_bytes o data : still (write_bytes o data).
Proof. still_all. Qed.

#[local] Hint Resolve still_canceled still_write_bytes : still.

Lemma core_get s index t : zget (completed_tasks s) index = Some t -> zget (tv_tasks (view_of s)) index = Some (task_core t).
Proof.
  intros H1. pose proof (zget_Some_bounds _ _ _ H1). rewrite zget_lookup in H1 |- * by lia. cbn [tv_tasks view_of].
  change (map task_core) with (fmap (M := list) task_core). by rewrite list_lookup_fmap, H1.
Qed.

Lemma kept_complete_worker s index t : tasks_ok s -> zget (completed_tasks s) index = Some t -> worker_context t = None ->
  kept rest_part (view_of s) (complete_worker_task index t s).
Proof.
  intros Hs H1 Ew. apply core_get in H1. unfold complete_worker_task. unfold bind at 1, get. destruct (worker_runtime (task_table s)); [|by split].
  apply kept_bind; [eauto with still|done|done|]. intros [status result] s1 Hs1 E1. destruct status.
  all: try solve [apply kept_still; [still_all|done|done]].
  - apply kept_bind; [still_all|done|done|]. intros r s2 Hs2 E2. apply kept_bind; [still_all|done|done|]. intros destination s3 Hs3 E3.
    destruct destination; try solve [apply kept_still; [still_all|done|done]]. apply kept_bind; [still_all|done|done|]. intros u s4 Hs4 E4.
    apply kept_outcome; [done|done|done|done|]. intros _. still_all.
  - apply kept_bind; [still_all|done|done|]. intros value s2 Hs2 E2. apply kept_outcome; [done|done|done|done|]. intros _. still_all.
Qed.

Lemma tame_complete index : tame rest_part (complete_pending_bytecode_task index).
Proof.
  intros s Hs. unfold complete_pending_bytecode_task, bind, get. destruct (zget (completed_tasks s) index) as [t|] eqn:Et; [|done]. cbn [check ret].
  destruct (negb (is_terminal_task_state (task_state t)) && is_worker_task t) eqn:Eb; [|by apply kept_complete_bytecode].
  apply kept_complete_worker; [done|done|]. apply andb_true_iff in Eb as [_ Eb]. destruct (worker_context t) as [i|] eqn:Ew; [|done].
  pose proof (lo_pending _ _ (vo_links _ Hs)) as Hp. rewrite Forall_forall in Hp.
  assert (Hin : task_core t ∈ tv_tasks (view_of s)).
  { apply core_get in Et. pose proof (zget_Some_bounds _ _ _ Et). rewrite zget_lookup in Et by lia. by eapply list_elem_of_lookup_2. }
  destruct (Hp (task_core t) Hin) as [_ Hf]; [cbn; by rewrite Ew|]. cbn in Hf. by rewrite Eb in Hf.
Qed.

(** ** Batches *)

(** Other batches, the rest as it is. *)
Definition regroup (gs : list AivmWorkerTaskGroup) (tasks input next : Z) (v : task_view) : task_view :=
  mk_view (tv_tasks v) (tv_next v) (tv_consumed v) (tv_live v) (tv_par v) (tv_values v) gs tasks input (tv_task_limit v) (tv_input_limit v) next.

Lemma regroup_ok gs tasks input next v : view_ok v -> groups_ok (regroup gs tasks input next v) -> view_ok (regroup gs tasks input next v).
Proof. intros [H1 H2 H3 H4 _] Hg. by split. Qed.

Definition put_group_state (index : Z) (g : AivmWorkerTaskGroup) (s : AivmVm) : AivmVm :=
  set_task_table (set_worker_task_groups (zset (worker_task_groups (task_table s)) index g) (task_table s)) s.

Lemma put_group_ok s index g g' : tasks_ok s -> group_at s index = Some g -> group_handle g' = group_handle g -> task_count g' = task_count g ->
  batch_bytes g' = batch_bytes g -> group_ok g' -> tasks_ok (put_group_state index g' s).
Proof.
  intros Hs Hg Eh Ec Eb Hok. unfold group_at in Hg. destruct (zget_split _ _ _ Hg) as [E _].
  assert (Hv : view_of (put_group_state index g' s) = regroup (zset (worker_task_groups (task_table s)) index g') (tv_task_total (view_of s))
    (tv_input_total (view_of s)) (tv_next_group (view_of s)) (view_of s)) by done.
  unfold tasks_ok. rewrite Hv. apply regroup_ok; [done|]. destruct (vo_groups _ Hs) as [G1 G2 G3 G4 G5 G6 G7]. cbn in *.
  rewrite (zset_split _ _ _ g' Hg). revert G1 G2 G3 G4 G5 G7. rewrite E at 1 2 3 4 5 6. intros G1 G2 G3 G4 G5 G7.
  rewrite !total_app in *. cbn [total] in *. rewrite map_app in G4. cbn [map] in G4. rewrite zlen_app, zlen_cons in G7.
  apply Forall_app in G1 as [G1 G1']. apply Forall_cons in G1' as [_ G1']. apply Forall_app in G5 as [G5 G5']. apply Forall_cons in G5' as [G5'' G5'].
  split; cbn [tv_groups tv_task_total tv_input_total tv_task_limit tv_input_limit tv_next_group regroup]; rewrite ?total_app, ?map_app, ?zlen_app, ?zlen_cons; cbn [total map];
    rewrite ?Ec, ?Eb, ?Eh; try done.
  - apply Forall_app. by split; [|constructor].
  - apply Forall_app. split; [done|]. constructor; [by rewrite Eh|done].
Qed.

Lemma kept_put_group s index g g' : tasks_ok s -> group_at s index = Some g -> group_handle g' = group_handle g -> task_count g' = task_count g ->
  batch_bytes g' = batch_bytes g -> group_ok g' -> kept par_part (view_of s) (put_group index g' s).
Proof. intros. split; [by eapply put_group_ok|done]. Qed.

Lemma group_at_ok s index g : tasks_ok s -> group_at s index = Some g -> group_ok g.
Proof.
  intros Hs Hg. pose proof (gs_each _ (vo_groups _ Hs)) as He. rewrite Forall_forall in He. apply He. unfold group_at in Hg.
  pose proof (zget_Some_bounds _ _ _ Hg). rewrite zget_lookup in Hg by lia. by eapply list_elem_of_lookup_2.
Qed.

Lemma set_handle_ok i h g : group_ok g -> group_ok (set_task_handle i h g).
Proof. intros [H1 H2 H3 H4]. split; try done. cbn. by rewrite zlen_zset. Qed.

Lemma advance_ok g : group_ok g -> next_materialize_index g < task_count g -> group_ok (advance_group g).
Proof. intros [H1 H2 H3 H4] Hn. split; try done. cbn. change (task_count (advance_group g)) with (task_count g). lia. Qed.

(** The table under the refill itself. *)
#[local] Instance plain_work : TaskWork := without_work.

Lemma plain_allocate catalog_index : tame rest_part (aivm_vm_allocate_worker_task catalog_index).
Proof. by apply tame_allocate. Qed.

Lemma plain_discard handle : tame rest_part (aivm_vm_discard_worker_task handle).
Proof. unfold aivm_vm_discard_worker_task. by apply tame_remove. Qed.

Lemma groups_kept s s' index : rest_part (view_of s') = rest_part (view_of s) -> group_at s' index = group_at s index.
Proof. unfold rest_part. intros E. unfold group_at. f_equal. exact (f_equal (fun r => r.2.1.1.1.1.1) E). Qed.

(** A task of the batch is made: its handle is recorded, nothing else of the batches changes. *)
Lemma materialize_run index i g s : tasks_ok s -> group_at s index = Some g ->
  match materialize_worker_task index i s with
  | Ok _ s' => tasks_ok s' /\ par_part (view_of s') = par_part (view_of s) /\ exists h, group_at s' index = Some (set_task_handle i h g)
  | Err s' => tasks_ok s' /\ par_part (view_of s') = par_part (view_of s)
  | Undef => True
  end.
Proof.
  intros Hs Hg. unfold materialize_worker_task. unfold bind at 1, get. unfold bind at 1. rewrite Hg. cbn [check ret].
  destruct (_ || _); [done|]. pose proof (plain_allocate (group_catalog_index g) s Hs) as Hal. unfold bind at 1.
  destruct (aivm_vm_allocate_worker_task _ s) as [h s1|s1|]; [| |done]; destruct Hal as [H1 E1]; [|split; [done|exact (f_equal fst E1)]].
  unfold bind at 1. destruct (group_payload g i) as [payload|]; [|done]. cbn [check ret]. unfold bind at 1.
  pose proof (still_request (RSubmit (group_catalog_index g) (u64 h) payload) (fun hs => runtime_submit hs (group_catalog_index g) (u64 h) payload) s1) as Hst.
  unfold submit. destruct (request _ _ s1) as [st s2|s2|]; [| |done].
  2: { unfold tasks_ok. rewrite Hst. split; [done|exact (f_equal fst E1)]. }
  assert (H2 : tasks_ok s2) by (unfold tasks_ok; by rewrite Hst).
  assert (E2 : rest_part (view_of s2) = rest_part (view_of s)) by (by rewrite Hst).
  case_bool_decide.
  - assert (Hg2 : group_at s2 index = Some g) by (by rewrite (groups_kept s s2 index E2)).
    pose proof (put_group_ok s2 index g (set_task_handle i h g) H2 Hg2 eq_refl eq_refl eq_refl (set_handle_ok i h g (group_at_ok _ _ _ H2 Hg2))) as H3.
    cbn. split; [exact H3|]. split; [exact (f_equal fst E2)|]. exists h. apply zget_zset_eq. by apply zget_Some_bounds in Hg2.
  - pose proof (plain_discard h s2 H2) as Hd. unfold bind. destruct (aivm_vm_discard_worker_task h s2) as [u s3|s3|]; [| |done]; destruct Hd as [H3 E3];
      (split; [exact H3|]); cbn; (transitivity (par_part (view_of s2)); [exact (f_equal fst E3)|exact (f_equal fst E2)]).
Qed.

Lemma tame_refill_group index : forall fuel, tame par_part (refill_group fuel index).
Proof.
  induction fuel as [|fuel IH]; intros s Hs; cbn [refill_group]; unfold bind at 1, get; unfold bind at 1; (destruct (group_at s index) as [g|] eqn:Eg; [|done]); cbn [check ret].
  - destruct (_ && _); [done|by split].
  - destruct (Z.ltb_spec (next_materialize_index g) (task_count g)) as [Hn|]; cbn [andb]; [|by split]. destruct (_ <? AIVM_VM_TASK_CAPACITY); [|by split].
    pose proof (materialize_run index (next_materialize_index g) g s Hs Eg) as Hm. unfold bind at 1.
    destruct (materialize_worker_task _ _ s) as [u s1|s1|]; [| |done]; [|done]. destruct Hm as (H1 & E1 & h & Eg1).
    unfold bind at 1, get. unfold bind at 1. rewrite Eg1. cbn [check ret].
    pose proof (advance_ok _ (set_handle_ok (next_materialize_index g) h g (group_at_ok _ _ _ Hs Eg)) Hn) as Hok.
    pose proof (put_group_ok s1 index _ (advance_group (set_task_handle (next_materialize_index g) h g)) H1 Eg1 eq_refl eq_refl eq_refl Hok) as H2.
    unfold bind. specialize (IH _ H2). cbn. fold (put_group_state index (advance_group (set_task_handle (next_materialize_index g) h g)) s1).
    destruct (refill_group fuel index _) as [u' s2|s2|]; [| |done]; destruct IH as [H3 E3]; (split; [done|]); rewrite E3; exact E1.
Qed.

Lemma tame_refill_groups : forall count index, tame par_part (refill_groups count index).
Proof.
  pose proof tame_refill_group as Hr. induction count as [|count IH]; intros index; cbn [refill_groups]; tame_steps.
Qed.

Lemma tame_refill : tame par_part aivm_vm_refill_worker_task_groups.
Proof. pose proof tame_refill_groups. unfold aivm_vm_refill_worker_task_groups, get_table. tame_steps. Qed.

End Steps.

(** ** Instructions *)

Section Instructions.

Context `{Hh : Host} `{Ht : Threads} `{Hw : WorkerRuntime} `{Hc : Clock} `{Ha : Addresses}.

Lemma work_release handle : tame par_part (release_consumed_task_result handle).
Proof. apply (tame_release task_work (fun _ => eq_refl)); apply tame_refill. Qed.

Lemma work_find handle : tame rest_part (find_terminal_task_result handle).
Proof. apply (tame_find task_work). apply tame_complete. Qed.

Lemma work_push_task result : tame rest_part (push_completed_task result).
Proof. by apply (tame_push_task task_work). Qed.

Lemma work_allocate catalog_index : tame rest_part (aivm_vm_allocate_worker_task catalog_index).
Proof. by apply (tame_allocate task_work). Qed.

Lemma work_discard handle : tame rest_part (aivm_vm_discard_worker_task handle).
Proof. by apply (tame_remove task_work). Qed.

#[local] Hint Resolve part_weaken part_none : tame.
#[local] Hint Resolve work_release work_find work_push_task work_allocate work_discard tame_refill : tame.

(** *** ASYNC_CALL *)

Lemma async_ok s c t : tasks_ok s -> next_task_handle (task_table s) <> INT64_MAX -> zlen (completed_tasks s) < AIVM_VM_TASK_CAPACITY ->
  task_handle t = next_task_handle (task_table s) -> worker_context t = Some (zlen (contexts (task_table s))) ->
  task_state t = AIVM_TASK_STATE_PENDING -> is_worker_task t = false ->
  let s1 := set_task_table (set_contexts (contexts (task_table s) ++ [Some c]) (task_table s)) s in
  tasks_ok (with_task t (bump s1)) /\ rest_part (view_of (with_task t (bump s1))) = rest_part (view_of s).
Proof.
  intros Hs En Hr Eh Ew Ep Ei. cbv zeta. split; [|done]. pose proof (append_ok s t Hs Eh En Hr) as Ss.
  match goal with |- tasks_ok ?s2 => assert (Hv : view_of s2 = retask (map task_core (completed_tasks s) ++ [task_core t])
    (next_task_handle (task_table s) + 1) (tv_live (view_of s) ++ [true]) (view_of s)) by (unfold view_of at 1; cbn; by rewrite !map_app) end.
  unfold tasks_ok. rewrite Hv. apply retask_ok; [done|done|]. apply links_append; [cbn; by rewrite Ew, zlen_map|done|done|]. apply (vo_links _ Hs).
Qed.

Lemma apart_depth target n : apart (call_arg_depth_error target n).
Proof. apart_all. Qed.

Lemma tame_start p target : tame rest_part (start_call_subroutine_worker p target).
Proof.
  pose proof apart_depth. pose proof (tame_room task_work (fun _ => eq_refl)) as Hroom.
  unfold start_call_subroutine_worker. destruct (_ <=? target); [tame_steps|]. cbv zeta. apply tame_bind; [tame_steps|intros s0].
  destruct (_ <? _); [tame_steps|]. apply tame_bind; [unfold validate_call_target_layout; tame_steps|intros _]. apply tame_bind; [exact Hroom|intros _].
  intros s Hs. unfold bind at 1. rewrite check_handle_run. destruct (Z.eqb_spec (next_task_handle (task_table s)) INT64_MAX) as [_|En]; [done|].
  unfold bind at 1. rewrite check_count_run. destruct (Z.ltb_spec (zlen (completed_tasks s)) AIVM_VM_TASK_CAPACITY) as [Hr|_]; [|done].
  unfold bind at 1, alloc. destruct (negb _); [done|]. unfold bind at 1, get. unfold bind at 1.
  set (s1 := set_tick _ s). destruct (new_worker _ _ _) as [w|]; [|done]. cbn [check ret]. destruct (bind _ _ w) as [u w'|w'|]; [|done|done].
  destruct (host_thread_starts _); [|done].
  exact (async_ok s1 _ (mk_task AIVM_TASK_STATE_PENDING (next_task_handle (task_table s1)) VVoid (Some (zlen (contexts (task_table s1)))) 0 false)
    Hs En Hr eq_refl eq_refl eq_refl eq_refl).
Qed.

(** *** Worker batches *)

Lemma group_of_layout handle ci bytes layout : Forall (fun on : Z * Z => 0 <= on.1 /\ 0 <= on.2 /\ on.1 + on.2 <= zlen bytes) layout ->
  group_ok (mk_group handle ci bytes (map fst layout) (map snd layout) (replicate (Z.to_nat (zlen layout)) 0) 0).
Proof.
  intros Hall. pose proof (zlen_nonneg layout) as Hn.
  split; unfold task_count; cbn [payload_lengths payload_offsets group_task_handles next_materialize_index]; rewrite ?zlen_map; [done|unfold zlen; rewrite length_replicate; lia|lia|].
  intros i Hi. destruct (zget_is_Some layout i Hi) as [on Eon]. unfold group_payload. cbn.
  assert (Hf : forall (f : Z * Z -> Z), zget (map f layout) i = Some (f on)).
  { intros f. rewrite zget_lookup by lia. rewrite zget_lookup in Eon by lia. change (map f) with (fmap (M := list) f). by rewrite list_lookup_fmap, Eon. }
  rewrite !Hf. cbn. rewrite Forall_forall in Hall. destruct (Hall on) as (H1 & H2 & H3); [by rewrite zget_lookup in Eon by lia; eapply list_elem_of_lookup_2|].
  unfold read_block. destruct (Z.leb_spec 0 on.1), (Z.leb_spec 0 on.2), (Z.leb_spec (on.1 + on.2) (zlen bytes)); (by eexists) || lia.
Qed.

(** The state with the new batch. *)
Definition with_group (g : AivmWorkerTaskGroup) (tasks input : Z) (s : AivmVm) : AivmVm :=
  let t := task_table s in
  set_task_table (set_next_worker_task_group_handle (group_handle g + 1)
    (set_worker_task_groups (worker_task_groups t ++ [g]) (set_worker_logical_task_count tasks (set_worker_logical_input_bytes input t)))) s.

Lemma with_group_ok s g tasks input : tasks_ok s -> group_ok g -> group_handle g = next_worker_task_group_handle (task_table s) ->
  next_worker_task_group_handle (task_table s) <> INT64_MAX -> zlen (worker_task_groups (task_table s)) < AIVM_VM_TASK_CAPACITY ->
  tasks = worker_logical_task_count (task_table s) + task_count g -> tasks <= worker_logical_task_limit (task_table s) ->
  input = worker_logical_input_bytes (task_table s) + zlen (batch_bytes g) -> input <= worker_logical_input_limit (task_table s) ->
  tasks_ok (with_group g tasks input s).
Proof.
  intros Hs Hg Eh En Hr Et Lt Ei Li.
  assert (Hv : view_of (with_group g tasks input s) = regroup (worker_task_groups (task_table s) ++ [g]) tasks input (group_handle g + 1) (view_of s)) by done.
  unfold tasks_ok. rewrite Hv. apply regroup_ok; [done|]. destruct (vo_groups _ Hs) as [G1 [G2 G2'] [G3 G3'] G4 G5 G6 G7]. cbn in *.
  split; cbn; rewrite ?total_app, ?zlen_app, ?zlen_cons, ?zlen_nil; cbn [total]; try lia.
  - apply Forall_app. by split; [|constructor].
  - rewrite map_app. apply sorted_app_lt. split_and!; [done|by constructor; constructor|]. apply Forall_map. eapply Forall_impl; [exact G5|].
    intros x Hx. cbn in Hx. cbn [map]. constructor; [lia|constructor].
  - apply Forall_app. split; [|constructor; [lia|constructor]]. eapply Forall_impl; [exact G5|]. cbn. intros; lia.
Qed.

Lemma still_ensure p : still (aivm_vm_ensure_worker_runtime p).
Proof. unfold aivm_vm_ensure_worker_runtime. still_all. Qed.

Lemma apart_validate batch : apart (validate_batch batch).
Proof.
  unfold validate_batch. apply apart_bind; [|intros n; apart_all]. generalize 0. generalize (length batch) as fuel. intros fuel. revert batch.
  induction fuel as [|fuel IH]; intros batch count; destruct batch as [|b batch]; cbn [validate_loop]; apart_all.
Qed.

#[local] Hint Resolve still_ensure : still.
#[local] Hint Resolve apart_validate : apart.

Lemma deref_length p n s bytes s' : deref_bytes p n s = Ok bytes s' -> s' = s /\ zlen bytes = n.
Proof.
  unfold deref_bytes, bind, get. destruct (Z.eqb_spec n 0) as [->|Hn]; [by intros [= <- <-]|].
  destruct (read_bytes s p n) as [b|] eqn:Er; [|done]. intros [= <- <-]. split; [done|].
  assert (Hb : forall l o, read_block l o n = Some b -> zlen b = n).
  { intros l o. unfold read_block. destruct (_ && _) eqn:Eb; [|done]. intros [= <-]. rewrite !andb_true_iff, !Z.leb_le in Eb. unfold slice.
    apply zlen_ztake. rewrite zlen_zdrop; lia. }
  destruct p; cbn in Er; [done| | |by eapply Hb]; repeat case_match; try done; by eapply Hb.
Qed.

(** The end of WORKER_RUN_ALL, from the accounts of the table on. *)
Lemma kept_group s v ci bytes layout n : tasks_ok s -> view_of s = v -> n = zlen layout ->
  Forall (fun on : Z * Z => 0 <= on.1 /\ 0 <= on.2 /\ on.1 + on.2 <= zlen bytes) layout ->
  tv_task_total v + n <= tv_task_limit v -> tv_input_total v + zlen bytes <= tv_input_limit v ->
  zlen (tv_groups v) < AIVM_VM_TASK_CAPACITY -> tv_next_group v <> INT64_MAX ->
  let g := mk_group (tv_next_group v) ci bytes (map fst layout) (map snd layout) (replicate (Z.to_nat n) 0) 0 in
  kept par_part v ((do! put_table (fun t =>
      set_next_worker_task_group_handle (tv_next_group v + 1)
        (set_worker_task_groups (worker_task_groups t ++ [g])
          (set_worker_logical_task_count (tv_task_total v + n) (set_worker_logical_input_bytes (tv_input_total v + zlen bytes) t)))) in
    do! aivm_vm_refill_worker_task_groups (H2 := without_work) in
    aivm_stack_push (VWorkerTasks (tv_next_group v))) s).
Proof.
  intros Hs <- -> Hall Lt Li Hr En. cbv zeta. set (g := mk_group _ _ _ _ _ _ _).
  pose proof (group_of_layout (tv_next_group (view_of s)) ci bytes layout Hall) as Hg.
  assert (Hc' : task_count g = zlen layout) by (unfold task_count; cbn [payload_offsets g]; apply zlen_map).
  pose proof (with_group_ok s g (tv_task_total (view_of s) + zlen layout) (tv_input_total (view_of s) + zlen bytes) Hs Hg eq_refl En Hr
    ltac:(by rewrite Hc') Lt eq_refl Li) as H1.
  assert (Htame : tame par_part (do! aivm_vm_refill_worker_task_groups (H2 := without_work) in aivm_stack_push (VWorkerTasks (tv_next_group (view_of s))))) by tame_steps.
  specialize (Htame _ H1). exact Htame.
Qed.

Lemma tame_submit_tasks p version : tame par_part (aivm_vm_submit_worker_tasks p version).
Proof.
  unfold aivm_vm_submit_worker_tasks. cbv zeta. destruct (negb _); [tame_steps|]. apply tame_bind; [tame_steps|intros batch]. apply tame_bind; [tame_steps|intros ref].
  destruct ref; try solve [tame_steps]. destruct batch as [| | | | | |data len| | | | | | | | |]; try solve [tame_steps]. destruct (_ <=? 0); [tame_steps|].
  intros s Hs. unfold bind at 1. destruct (deref_bytes data len s) as [bytes s0|s0|] eqn:Ed; [| |done].
  2: { unfold deref_bytes, bind, get in Ed. destruct (len =? 0); [done|]. by destruct (read_bytes s data len). }
  apply deref_length in Ed as [-> Hlen]. unfold bind at 1. pose proof (apart_validate bytes s) as Hav.
  destruct (validate_batch bytes s) as [n s1|s1|] eqn:Ev; [| |done]; apply view_apart in Hav; [|unfold tasks_ok; by rewrite Hav].
  assert (H1 : tasks_ok s1) by (unfold tasks_ok; by rewrite Hav). rewrite <- Hav. clear Hs Hav.
  assert (exists layout, batch_layout (List.length bytes) bytes 0 = Some layout /\ n = zlen layout /\
    Forall (fun on => 0 <= on.1 /\ 0 <= on.2 /\ on.1 + on.2 <= zlen bytes) layout) as (layout & El & En & Hall).
  { unfold validate_batch, bind in Ev. destruct (validate_loop _ bytes 0 s) as [m s2|s2|] eqn:El; [|done|done].
    apply (layout_accepted s _ _ _ 0) in El as (layout & El & Em & Hall). destruct (m =? 0); [done|]. injection Ev as <- _. by exists layout. }
  clear Ev s. unfold bind at 1, get.
  destruct (aivm_size_add_checked (worker_logical_task_count _) n) as [tasks|] eqn:Et; [|done]. apply size_add_checked_Some in Et as [_ ->].
  destruct (aivm_size_add_checked _ len) as [input|] eqn:Ei; [|done]. apply size_add_checked_Some in Ei as [_ ->].
  destruct (_ || _) eqn:Eb; [done|]. apply orb_false_iff in Eb as [Lt%Z.ltb_ge Li%Z.ltb_ge].
  destruct (_ || _) eqn:Eb; [done|]. apply orb_false_iff in Eb as [Hr%Z.leb_gt Hn%Z.eqb_neq].
  destruct (_ <=? handle - 1); [done|]. apply (kept_bind par_part); [eauto with still|done|done|]. intros _ s2 H2 E2.
  apply (kept_bind par_part); [unfold group_arrays; still_all|done|done|]. intros _ s3 H3 E3. rewrite El. unfold bind at 1. cbn [check ret].
  subst len. exact (kept_group s3 (view_of s1) (handle - 1) bytes layout n H3 E3 En Hall Lt Li Hr Hn).
Qed.

#[local] Hint Resolve tame_submit_tasks : tame.
#[local] Hint Extern 2 (still (submit _ _ _)) => (apply still_request) : still.
#[local] Hint Extern 2 (still (cancel _)) => (apply still_request) : still.

Lemma tame_submit_task p : tame par_part (aivm_vm_submit_worker_task p).
Proof. unfold aivm_vm_submit_worker_task, deref_bytes. tame_steps. Qed.

Lemma still_task_at : still aivm_vm_worker_task_at.
Proof. unfold aivm_vm_worker_task_at, get_table. still_all. Qed.

Lemma still_cancel : still aivm_vm_cancel_task.
Proof. unfold aivm_vm_cancel_task. still_all. Qed.

Lemma still_worker_ref p i : still (aivm_vm_push_worker_ref p i).
Proof. unfold aivm_vm_push_worker_ref. still_all. Qed.

#[local] Hint Resolve tame_submit_task : tame.
#[local] Hint Resolve still_task_at still_cancel still_worker_ref : still.

(** *** System calls *)

Lemma still_pop_arguments count : forall popped, still (pop_arguments count popped).
Proof. induction count as [|n IH]; intros popped; cbn [pop_arguments]; still_all. Qed.

Lemma still_clock : still clock.
Proof. by intros s. Qed.

#[local] Hint Resolve still_pop_arguments still_clock : still.

Lemma still_dispatch target args : still (dispatch_to_host target args).
Proof. unfold dispatch_to_host, set_host_history. still_all. Qed.

#[local] Hint Resolve still_dispatch : still.

Lemma still_call_sys n : still (call_sys_with_arity n).
Proof. unfold call_sys_with_arity. still_all. Qed.

Lemma tame_call_sys n (k : AivmValue -> M unit) : (forall v, tame par_part (k v)) -> tame par_part (call_sys_then n k).
Proof.
  intros Hk s Hs. unfold call_sys_then. pose proof (still_call_sys n s) as Hst. destruct (call_sys_with_arity n s) as [v s1|s1|]; [| |done].
  - assert (H1 : tasks_ok s1) by (unfold tasks_ok; by rewrite Hst). specialize (Hk v s1 H1). by rewrite <- Hst.
  - unfold tasks_ok. by rewrite Hst.
Qed.

(** *** The instruction set *)

Lemma tame_start_weak p target : tame par_part (start_call_subroutine_worker p target).
Proof. apply part_weaken, tame_start. Qed.

#[local] Hint Resolve tame_call_sys tame_start_weak tame_operand : tame.

Lemma tame_op_push v : tame par_part (op_push v).
Proof. apply tame_apart. apart_all. Qed.

Lemma tame_advance : tame par_part advance.
Proof. apply tame_apart. apart_all. Qed.

#[local] Hint Resolve tame_op_push tame_advance : tame.

Lemma tame_task_op p i m : task_op p i = Some m -> tame no_part m.
Proof.
  unfold task_op. destruct (opcode i); intros [= <-].
  - apply part_none. unfold op_call_sys. tame_steps.
  - apply part_none. unfold op_async_call. tame_steps.
  - apply part_none. unfold op_async_call_sys. apply tame_bind; [eauto with tame|intros n]. apply tame_call_sys. intros v. tame_steps.
  - apply part_none. apply (tame_await task_work (fun _ => eq_refl)); [apply tame_complete|apply tame_refill].
  - apply tame_par_begin.
  - apply tame_par_fork.
  - apply (tame_par_join task_work (fun _ => eq_refl)); [apply tame_complete|apply tame_refill].
  - apply part_none. unfold op_par_cancel. tame_steps.
  - apply part_none. unfold op_worker_ref. tame_steps.
  - apply part_none. unfold op_worker_run. tame_steps.
  - apply part_none. unfold op_task_cancel. tame_steps.
  - apply part_none. unfold op_worker_run_all. tame_steps.
  - apply part_none. unfold op_worker_task_at. tame_steps.
Qed.

Lemma tame_execute p i m : execute p i = Some m -> tame no_part m.
Proof.
  intros [E|[E|[E|E]]]%execute_cases; [| | |by eapply tame_task_op]; apply tame_apart; [by eapply apart_control|by eapply apart_text|by eapply apart_node].
Qed.

(** ** Steps *)

Lemma tasks_ok_view s s' : view_of s' = view_of s -> tasks_ok s -> tasks_ok s'.
Proof. unfold tasks_ok. by intros ->. Qed.

Lemma step_tasks s s' : tasks_ok s -> aivm_step execute s = Next s' -> tasks_ok s'.
Proof.
  intros Hs. unfold aivm_step. destruct (program s) as [p|]; [|by intros [= <-]].
  case_bool_decide; [destruct (_ =? 0); by intros [= <-]|]. destruct (stopped s); [by intros [= <-]|]. destruct (_ <=? _); [by intros [= <-]|].
  destruct (zget _ _) as [i|]; [|done]. destruct (execute p i) as [m|] eqn:Em; [|done].
  assert (Hb : tasks_ok (begin_instruction i s)) by exact Hs. pose proof (tame_execute p i m Em _ Hb) as Ht'. unfold finish_instruction.
  destruct (m (begin_instruction i s)) as [[] s1|s1|]; [| |done]; destruct Ht' as [H1 _]; intros [= <-]; unfold settle; destruct (_ && _); exact H1.
Qed.

End Instructions.
