(* ===== verification/ErrorSticks.v ===== *)
(** * An error stays

    The arenas, the collectors and the copies between VMs never clear the error status of
    a VM: a worker that could not be set up (src/src/aivm_vm.c,
    start_call_subroutine_worker) still has its error when its thread starts. *)

From S2P Require Import Prelude Types Program Syscalls Numeric Vm Memory Lifecycle Stack Map Control ControlSafety Step Strings Bytes NumberText Roots Pairs NodeGc NodeCreate NodeRoom Collector CollectorSafety.
From S2P Require Import TextOps NodeOps Tasks TaskFrame AsyncCalls.

Definition sticky {A} (m : M A) : Prop := forall s, status s = AIVM_VM_STATUS_ERROR ->
  match m s with Ok _ s' | Err s' => status s' = AIVM_VM_STATUS_ERROR | Undef => True end.

Lemma sticky_bind {A B} (m : M A) (f : A -> M B) : sticky m -> (forall a, sticky (f a)) -> sticky (bind m f).
Proof. intros Hm Hf s Hs. unfold bind. specialize (Hm s Hs). destruct (m s) as [a s1|s1|]; [by apply Hf|done|done]. Qed.

Lemma sticky_or_else {A} (m h : M A) : sticky m -> sticky h -> sticky (or_else m h).
Proof. intros Hm Hh s Hs. unfold or_else. specialize (Hm s Hs). destruct (m s) as [a s1|s1|]; [done|by apply Hh|done]. Qed.

Lemma sticky_modify g : (forall s, status (g s) = status s) -> sticky (modify g).
Proof. intros Hg s Hs. cbn. by rewrite Hg. Qed.

Lemma sticky_basic : (forall A (a : A), sticky (ret a)) /\ sticky get /\ (forall A (f : AivmVm -> A), sticky (gets f)) /\
  (forall A, sticky (@fail A)) /\ (forall A, sticky (@undef A)).
Proof. split_and!; intros; by intros s. Qed.

Lemma sticky_check {A} (o : option A) : sticky (check o).
Proof. intros s. by destruct o. Qed.

Lemma sticky_throw {A} e d : sticky (@throw A e d).
Proof. by intros s. Qed.

Lemma sticky_throw_unless {A} e d : sticky (@throw_unless_error A e d).
Proof. intros s Hs. unfold throw_unless_error. by case_bool_decide. Qed.

Lemma sticky_alloc `{Host} size : sticky (alloc size).
Proof. by intros s. Qed.

Lemma sticky_snapshot `{Host} : sticky snapshot.
Proof. by intros s. Qed.

Lemma sticky_of_visit {A} (r : visit A) : sticky (of_visit r).
Proof. intros s. by destruct r. Qed.

Lemma sticky_walk {A B} part update (F : visitor B A) acc : (forall l s, status (update l s) = status s) -> sticky (walk part update F acc).
Proof. intros Hu s Hs. unfold walk. destruct (visit_list F acc (part s)) as [l [a|e d|]]; [by rewrite Hu|done|done]. Qed.

Create HintDb sticky.
#[export] Hint Extern 1 (sticky (ret _)) => apply sticky_basic : sticky.
#[export] Hint Extern 1 (sticky get) => apply sticky_basic : sticky.
#[export] Hint Extern 1 (sticky (gets _)) => apply sticky_basic : sticky.
#[export] Hint Extern 1 (sticky fail) => apply sticky_basic : sticky.
#[export] Hint Extern 1 (sticky undef) => apply sticky_basic : sticky.
#[export] Hint Resolve sticky_check sticky_throw sticky_throw_unless sticky_alloc sticky_snapshot sticky_of_visit : sticky.
#[export] Hint Extern 1 (sticky (modify _)) => (apply sticky_modify; intros ?; first [reflexivity | by repeat case_match]) : sticky.
#[export] Hint Extern 1 (sticky (walk _ _ _ _)) => (apply sticky_walk; by intros) : sticky.

Ltac sticky_step :=
  first
    [ solve [eauto 3 with sticky]
    | apply sticky_bind; [|intros ?]
    | apply sticky_or_else
    | progress cbv beta zeta
    | match goal with |- sticky (if ?b then _ else _) => destruct b end
    | match goal with |- sticky (match ?x with _ => _ end) => destruct x end
    | match goal with |- sticky (let '_ := ?x in _) => destruct x end
    | solve [intros s ?; cbv beta; case_bool_decide; done] ].

Ltac sticky_unfold := match goal with |- sticky ?m => let h := head_of m in unfold h end.
Ltac sticky_all := repeat first [sticky_step | sticky_unfold].

Lemma sticky_walk_nodes a live t : sticky (walk_nodes a live t).
Proof. intros s Hs. unfold walk_nodes. by destruct (relocate_nodes _ _ _ _ _ _) as [[nds attrs] [t'|e d|]]. Qed.

#[local] Hint Resolve sticky_walk_nodes : sticky.

Section Host.

Context `{Host}.

(** ** The arenas *)

Lemma sticky_rebuild_index : sticky aivm_vm_rebuild_string_intern_index.
Proof. sticky_all. Qed.

#[local] Hint Resolve sticky_rebuild_index : sticky.

Lemma sticky_compactions : sticky aivm_vm_compact_scratch_pairs /\ (forall extra, sticky (aivm_vm_compact_node_arenas_with_map extra)) /\
  sticky aivm_compact_string_arena /\ sticky aivm_compact_bytes_arena.
Proof. split_and!; intros; sticky_all. Qed.

#[local] Hint Extern 1 (sticky aivm_vm_compact_scratch_pairs) => apply sticky_compactions : sticky.
#[local] Hint Extern 1 (sticky (aivm_vm_compact_node_arenas_with_map _)) => apply sticky_compactions : sticky.
#[local] Hint Extern 1 (sticky aivm_compact_string_arena) => apply sticky_compactions : sticky.
#[local] Hint Extern 1 (sticky aivm_compact_bytes_arena) => apply sticky_compactions : sticky.

Lemma sticky_grow_strings fuel : forall needed, sticky (grow_string_limit fuel needed).
Proof. induction fuel as [|fuel IH]; intros needed; cbn [grow_string_limit]; sticky_all. Qed.

Lemma sticky_grow_bytes fuel : forall needed, sticky (grow_bytes_limit fuel needed).
Proof. induction fuel as [|fuel IH]; intros needed; cbn [grow_bytes_limit]; sticky_all. Qed.

#[local] Hint Resolve sticky_grow_strings sticky_grow_bytes : sticky.

Lemma sticky_string_alloc size : sticky (aivm_string_arena_alloc size).
Proof. sticky_all. Qed.

Lemma sticky_remember offset input : sticky (remember_string_in_index offset input).
Proof. sticky_all. Qed.

#[local] Hint Resolve sticky_string_alloc sticky_remember : sticky.

Lemma sticky_copy_string p : sticky (aivm_vm_copy_string_to_arena p).
Proof. sticky_all. Qed.

Lemma sticky_bytes_alloc size : sticky (aivm_bytes_arena_alloc size).
Proof. sticky_all. Qed.

#[local] Hint Resolve sticky_copy_string sticky_bytes_alloc : sticky.

(** ** Nodes *)

Lemma sticky_snapshot_attrs xs : sticky (snapshot_attrs xs).
Proof. induction xs as [|x xs IH]; cbn [snapshot_attrs]; sticky_all. Qed.

Lemma sticky_attr_texts xs : sticky (attr_texts xs).
Proof. induction xs as [|x xs IH]; cbn [attr_texts]; sticky_all. Qed.

Lemma sticky_store_attrs xs : forall slot, sticky (store_attrs slot xs).
Proof. induction xs as [|x xs IH]; intros slot; cbn [store_attrs]; sticky_all. Qed.

Lemma sticky_child_slots hs : forall slot, sticky (check_child_slots slot hs).
Proof. induction hs as [|x hs IH]; intros slot; cbn [check_child_slots]; sticky_all. Qed.

#[local] Hint Resolve sticky_snapshot_attrs sticky_attr_texts sticky_store_attrs sticky_child_slots : sticky.

Lemma sticky_node_room n k src : sticky (node_room n k src).
Proof. sticky_all. Qed.

Lemma sticky_write_node kind id attrs src : sticky (write_node kind id attrs src).
Proof. sticky_all. Qed.

#[local] Hint Resolve sticky_node_room sticky_write_node : sticky.

Lemma sticky_create_node kind id attrs src : sticky (aivm_vm_create_node_record kind id attrs src).
Proof. sticky_all. Qed.

#[local] Hint Resolve sticky_create_node : sticky.

(** ** Copies between VMs *)

Lemma sticky_source_slots {A} count (slots : list A) start message : forall i, sticky (source_slots count slots start i message).
Proof. induction count as [|n IH]; intros i; cbn [source_slots]; sticky_all. Qed.

#[local] Hint Resolve sticky_source_slots : sticky.

Lemma sticky_boundary_children copy src node : (forall m h, sticky (copy m h)) ->
  forall count i m, sticky (copy_boundary_children copy src node count i m).
Proof. intros Hc. induction count as [|n IH]; intros i m; cbn [copy_boundary_children]; sticky_all. Qed.

Lemma sticky_boundary_node src : forall fuel m h, sticky (copy_worker_boundary_node (fun _ => undef) fuel src m h).
Proof.
  induction fuel as [|fuel IH]; intros m h; cbn [copy_worker_boundary_node]; [sticky_all|].
  pose proof (fun node => sticky_boundary_children (copy_worker_boundary_node (fun _ => undef) fuel src) src node IH). sticky_all.
Qed.

#[local] Hint Resolve sticky_boundary_node : sticky.

Lemma sticky_boundary_value src : forall fuel maps v direction,
  sticky (copy_worker_boundary_value_with_context (fun _ => undef) fuel src maps v direction).
Proof.
  induction fuel as [|fuel IH]; intros maps v direction; destruct v; cbn [copy_worker_boundary_value_with_context]; sticky_all.
Qed.

#[local] Hint Resolve sticky_boundary_value : sticky.

Lemma sticky_boundary_copy src v direction : sticky (copy_worker_boundary_value src v direction).
Proof. sticky_all. Qed.

#[local] Hint Resolve sticky_boundary_copy : sticky.

Lemma sticky_push_arguments st src args : sticky (push_arguments st src args).
Proof. induction args as [|v args IH]; cbn [push_arguments]; sticky_all. Qed.

Lemma sticky_frame_push ip base : sticky (aivm_frame_push ip base).
Proof. sticky_all. Qed.

End Host.

#[export] Hint Resolve sticky_push_arguments sticky_frame_push : sticky.
