(* ===== verification/SystemSafety.v ===== *)
(** * Invariants of a VM with its threads

    Every VM of the system, the owner and the workers at any depth, keeps its task
    table in order, whatever instructions are run and in whatever order the threads
    take their turns. *)

From S2P Require Import Prelude Types Program Syscalls Numeric Vm Memory Lifecycle Stack Control Step Strings Bytes NumberText Roots Pairs NodeGc NodeCreate NodeRoom Collector CollectorSafety.
From S2P Require Import TextOps NodeOps Tasks TaskFrame AsyncCalls WorkerTasks BatchFrames CallSys Machine TaskSafety TaskSteps ErrorSticks.

(** ** The workers of a VM *)

(** The VMs of the contexts that have not been freed. *)
Definition workers (s : AivmVm) : list AivmVm := omap (fun o => ctx_worker <$> o) (contexts (task_table s)).

(** A VM without its storage: it has an error, which ends its thread, and no tasks. *)
Definition unready (w : AivmVm) : Prop := status w = AIVM_VM_STATUS_ERROR /\ completed_tasks w = [] /\ contexts (task_table w) = [].

(** A worker before its first instruction. *)
Definition fresh (w : AivmVm) : Prop := tasks_ok w /\ workers w = [] \/ unready w.

(** Every worker was there before or is fresh. *)
Definition heir {A} (m : M A) : Prop := forall s,
  match m s with Ok _ s' | Err s' => forall w, w ∈ workers s' -> w ∈ workers s \/ fresh w | Undef => True end.

Lemma heir_same {A} (m : M A) : stays workers m -> heir m.
Proof. intros Hm s. specialize (Hm s). destruct (m s); [| |done]; rewrite Hm; by left. Qed.

Lemma heir_apart {A} (m : M A) : apart m -> heir m.
Proof.
  intros Hm. apply heir_same. intros s. specialize (Hm s). destruct (m s); [| |done]; unfold tasks_view in Hm; injection Hm as _ _ E _ _; unfold workers; by rewrite E.
Qed.

Lemma heir_modify g : (forall s, workers (g s) = workers s) -> heir (modify g).
Proof. intros Hg. apply heir_same. intros s. apply Hg. Qed.

Lemma heir_bind {A B} (m : M A) (k : A -> M B) : heir m -> (forall a, heir (k a)) -> heir (bind m k).
Proof.
  intros Hm Hk s. unfold bind. specialize (Hm s). destruct (m s) as [a s1|s1|]; [|done|done]. specialize (Hk a s1).
  destruct (k a s1) as [b s2|s2|]; [| |done]; intros w Hw; (destruct (Hk w Hw) as [Hi|Hf]; [by apply Hm|by right]).
Qed.

Lemma heir_or_else {A} (m h : M A) : heir m -> heir h -> heir (or_else m h).
Proof.
  intros Hm Hk s. unfold or_else. specialize (Hm s). destruct (m s) as [a s1|s1|]; [done| |done]. specialize (Hk s1).
  destruct (h s1) as [b s2|s2|]; [| |done]; intros w Hw; (destruct (Hk w Hw) as [Hi|Hf]; [by apply Hm|by right]).
Qed.

Create HintDb heir.
#[export] Hint Extern 2 (heir (modify _)) => (apply heir_modify; intros ?; reflexivity) : heir.
#[export] Hint Extern 2 (heir (put_table _)) => (apply heir_modify; intros ?; reflexivity) : heir.
#[export] Hint Extern 3 (heir _) => (apply heir_apart; solve [eauto 3 with apart]) : heir.

Ltac heir_step :=
  first
    [ solve [eauto 3 with heir]
    | apply heir_bind; [|intros ?]
    | apply heir_or_else
    | progress cbv beta zeta
    | match goal with |- heir (if ?b then _ else _) => destruct b end
    | match goal with |- heir (match ?x with _ => _ end) => destruct x end ].

Ltac heir_unfold := match goal with |- heir ?m => let h := head_of m in unfold h end.
Ltac heir_all := repeat first [heir_step | heir_unfold].

(** A context that changes, or is freed. *)
Lemma workers_set_context s i c : forall w, w ∈ workers (set_context i c s) -> w ∈ workers s \/ option_map ctx_worker c = Some w.
Proof.
  intros w. unfold workers. rewrite !list_elem_of_omap. cbn. intros (o & Ho & Ew). unfold zset in Ho. destruct (i <? 0); [left; by exists o|].
  apply list_elem_of_lookup_1 in Ho as [j Hj]. apply list_lookup_insert_Some in Hj as [(_ & <- & _)|[_ Hj]]; [right|left; exists o; split; [|done]].
  - by destruct c.
  - by eapply list_elem_of_lookup_2.
Qed.

Lemma context_worker s i c : context_at s i = Some c -> ctx_worker c ∈ workers s.
Proof.
  unfold context_at, zget. destruct (i <? 0); [done|]. intros Hc. unfold workers. apply list_elem_of_omap. exists (Some c). split; [|done].
  destruct (contexts (task_table s) !! Z.to_nat i) as [o|] eqn:E; [|done]. cbn in Hc. subst o. by eapply list_elem_of_lookup_2.
Qed.

Section Heirs.

Context `{Hh : Host} `{Ht : Threads} `{Hw : WorkerRuntime} `{Hc : Clock} `{Ha : Addresses}.

Lemma heir_join i : heir (join_bytecode_worker_thread i).
Proof.
  intros s. unfold join_bytecode_worker_thread, bind, get. destruct (context_at s i) as [c|] eqn:Ec; [|done]. cbn [check ret].
  destruct (ctx_joined c); [by left|]. destruct (returned c); [|done]. cbn. intros w [Hi|[= <-]]%workers_set_context; left; [done|by eapply context_worker].
Qed.

Lemma heir_free i : heir (free_bytecode_worker_context i).
Proof.
  unfold free_bytecode_worker_context. apply heir_bind; [apply heir_join|intros c]. destruct (quiescent _); [|heir_all].
  intros s w [Hi|?]%workers_set_context; [by left|done].
Qed.

#[local] Hint Resolve heir_join heir_free : heir.

Lemma heir_boundary src v direction : heir (copy_worker_boundary_value src v direction).
Proof. apply heir_apart, apart_boundary_copy. Qed.

Lemma heir_request {A} r (answer : list runtime_request -> A) : heir (request r answer).
Proof. unfold request, get_table. heir_all. Qed.

#[local] Hint Resolve heir_boundary heir_request : heir.

Lemma heir_complete index : heir (complete_pending_bytecode_task index).
Proof. unfold complete_pending_bytecode_task, complete_worker_task, complete_bytecode_task, put_task. heir_all. Qed.

#[local] Hint Resolve heir_complete : heir.

Lemma heir_drop (W : TaskWork) index : (forall i, free_context i = free_bytecode_worker_context i) -> heir (drop_task_slot index).
Proof. intros Hf. unfold drop_task_slot, count_reclaimed. heir_all. all: rewrite Hf; apply heir_free. Qed.

Lemma heir_scan ts : forall index, heir (reclaim_scan ts index).
Proof. induction ts as [|t ts IH]; intros index; cbn [reclaim_scan]; heir_all. Qed.

#[local] Hint Resolve heir_scan : heir.

Lemma heir_room (W : TaskWork) : (forall i, free_context i = free_bytecode_worker_context i) -> heir make_task_room.
Proof. intros Hf. pose proof (fun i => heir_drop W i Hf). unfold make_task_room. heir_all. Qed.

Lemma heir_allocate (W : TaskWork) i : (forall i, free_context i = free_bytecode_worker_context i) -> heir (aivm_vm_allocate_worker_task i).
Proof. intros Hf. pose proof (heir_room W Hf). unfold aivm_vm_allocate_worker_task. heir_all. Qed.

Lemma heir_discard (W : TaskWork) i : (forall i, free_context i = free_bytecode_worker_context i) -> heir (remove_task_if_present i).
Proof. intros Hf. pose proof (fun i => heir_drop W i Hf). heir_all. Qed.

(** The batches, on the table of the refill. *)
Lemma heir_materialize index i : heir (materialize_worker_task (H2 := without_work) index i).
Proof.
  pose proof (fun i => heir_allocate without_work i (fun _ => eq_refl)) as H1. pose proof (fun i => heir_discard without_work i (fun _ => eq_refl)) as H2.
  unfold materialize_worker_task, submit, aivm_vm_discard_worker_task, put_group. heir_all.
Qed.

#[local] Hint Resolve heir_materialize : heir.

Lemma heir_refill_group index : forall fuel, heir (refill_group (H2 := without_work) fuel index).
Proof. induction fuel as [|fuel IH]; cbn [refill_group]; unfold put_group; heir_all. Qed.

#[local] Hint Resolve heir_refill_group : heir.

Lemma heir_refill_groups : forall count index, heir (refill_groups (H2 := without_work) count index).
Proof. induction count as [|count IH]; intros index; cbn [refill_groups]; heir_all. Qed.

Lemma heir_refill : heir (aivm_vm_refill_worker_task_groups (H2 := without_work)).
Proof. pose proof heir_refill_groups. unfold aivm_vm_refill_worker_task_groups, get_table. heir_all. Qed.

#[local] Hint Resolve heir_refill : heir.

(** ** Instructions *)

Lemma work_heirs : heir make_task_room /\ (forall i, heir (aivm_vm_allocate_worker_task i)) /\ (forall i, heir (remove_task_if_present i)).
Proof.
  split; [|split; intros i]; [apply (heir_room task_work)|apply (heir_allocate task_work)|apply (heir_discard task_work)]; done.
Qed.

Lemma heir_work_room : heir make_task_room.
Proof. apply work_heirs. Qed.

Lemma heir_work_allocate i : heir (aivm_vm_allocate_worker_task i).
Proof. apply work_heirs. Qed.

Lemma heir_work_discard i : heir (remove_task_if_present i).
Proof. apply work_heirs. Qed.

#[local] Hint Resolve heir_work_room heir_work_allocate heir_work_discard : heir.

Lemma heir_find_loop handle : forall fuel index, heir (find_task_loop fuel handle index).
Proof. induction fuel as [|fuel IH]; intros index; cbn [find_task_loop]; heir_all. Qed.

#[local] Hint Resolve heir_find_loop : heir.

Lemma heir_find handle : heir (find_terminal_task_result handle).
Proof. unfold find_terminal_task_result. heir_all. Qed.

Lemma heir_release handle : heir (release_consumed_task_result handle).
Proof. unfold release_consumed_task_result. heir_all. Qed.

#[local] Hint Resolve heir_find heir_release : heir.

Lemma heir_join_branches start : forall count i children consumed, heir (join_branches count start i children consumed).
Proof. induction count as [|count IH]; intros i children consumed; cbn [join_branches]; heir_all. Qed.

Lemma heir_joined count start : heir (joined_branches count start).
Proof.
  intros s. unfold joined_branches. pose proof (heir_join_branches start (Z.to_nat count) 0 [] [] s) as Hj.
  destruct (join_branches _ _ _ _ _ s); [| |done]; by case_bool_decide.
Qed.

Lemma heir_release_all handles : heir (release_all handles).
Proof. induction handles as [|h hs IH]; cbn [release_all]; heir_all. Qed.

Lemma heir_released handles : heir (released handles).
Proof.
  intros s. unfold released. pose proof (heir_release_all handles s) as Hj. destruct (release_all handles s); [| |done]; by case_bool_decide.
Qed.

#[local] Hint Resolve heir_joined heir_released : heir.

Lemma heir_pop_arguments count : forall popped, heir (pop_arguments count popped).
Proof. induction count as [|n IH]; intros popped; cbn [pop_arguments]; heir_all. Qed.

Lemma heir_clock : heir clock.
Proof. by apply heir_same. Qed.

Lemma heir_validate batch : heir (validate_batch batch).
Proof. apply heir_apart, apart_validate. Qed.

#[local] Hint Resolve heir_pop_arguments heir_clock heir_validate : heir.

Lemma heir_call_sys n : heir (call_sys_with_arity n).
Proof. unfold call_sys_with_arity, dispatch_to_host, set_host_history. heir_all. Qed.

Lemma heir_call_then n (k : AivmValue -> M unit) : (forall v, heir (k v)) -> heir (call_sys_then n k).
Proof.
  intros Hk s. unfold call_sys_then. pose proof (heir_call_sys n s) as Hs. destruct (call_sys_with_arity n s) as [v s1|s1|]; [|done|done].
  specialize (Hk v s1). destruct (k v s1) as [u s2|s2|]; [| |done]; intros w Hi; (destruct (Hk w Hi); [by apply Hs|by right]).
Qed.

(** *** New workers *)

(** The task table of a VM that was just initialised. *)
Definition first_view (input_limit : Z) : task_view := mk_view [] 1 [] [] [] 0 [] 0 0 4096 input_limit 1.

Lemma first_view_ok limit : 0 <= limit -> view_ok (first_view limit).
Proof.
  intros Hl. split; cbn.
  - by split; [constructor|constructor|..].
  - split; [constructor|constructor|]. intros i. split; [by intros Hi%elem_of_nil|]. unfold zget. by destruct (i <? 0).
  - split; [constructor|done].
  - by split_and!.
  - split; cbn; try done; constructor.
Qed.

Lemma apart_argv_items args : forall i, apart (argv_items args i).
Proof. induction args as [|a args IH]; intros i; cbn [argv_items]; apart_all. Qed.

Lemma apart_argv args : apart (aivm_vm_initialize_process_argv_node args).
Proof. pose proof apart_argv_items. unfold aivm_vm_initialize_process_argv_node, set_argv_handle. apart_all. Qed.

Lemma initialised_view p bindings args profile w : initialised_vm p bindings args profile = Some w ->
  view_of w = first_view (lim_bytes_arena (aivm_runtime_profile_limits profile)) /\ workers w = [].
Proof.
  unfold initialised_vm. set (s0 := set_task_table _ _). pose proof (apart_argv args s0) as Hv.
  destruct (aivm_vm_initialize_process_argv_node args s0) as [u s1|s1|]; [| |done]; intros [= <-]; (split; [exact (view_apart s0 s1 Hv)|]);
    unfold tasks_view in Hv; injection Hv as _ _ E _ _; unfold workers; cbn; by rewrite E.
Qed.

Lemma new_worker_fresh p profile t w : new_worker p profile t = Some w -> fresh w.
Proof.
  unfold new_worker. destruct (worker_storage t).2; [|by intros [= <-]; right].
  destruct (initialised_vm _ _ _ _) as [w0|] eqn:Ei; [|done]. intros [= <-]. left. destruct (initialised_view _ _ _ _ _ Ei) as [Ev Ew]. split; [|done].
  assert (Ev' : view_of (allow_no_syscalls (aivm_set_runtime_profile profile w0)) = first_view (lim_bytes_arena (aivm_runtime_profile_limits profile))).
  { unfold view_of, first_view in *. injection Ev as E1 E2 E3 E4 E5 E6 E7 E8 E9 E10 E11 E12. cbn -[aivm_runtime_profile_limits].
    by rewrite E1, E2, E3, E4, E5, E6, E7, E8, E9, E12. }
  unfold tasks_ok. rewrite Ev'. apply first_view_ok. by destruct profile.
Qed.

Lemma apart_push_arguments st src args : apart (push_arguments st src args).
Proof. pose proof apart_boundary_copy. induction args as [|v args IH]; cbn [push_arguments]; apart_all. Qed.

Lemma fresh_apart {A} (m : M A) w : apart m -> sticky m -> fresh w -> match m w with Ok _ w' => fresh w' | _ => True end.
Proof.
  intros Hm Hk Hf. specialize (Hm w). specialize (Hk w). destruct (m w) as [a w'|w'|]; [|done|done].
  pose proof (view_apart w w' Hm) as Ev. unfold tasks_view in Hm. injection Hm as _ _ E Et _. destruct Hf as [[H1 H2]|(H1 & H2 & H3)].
  - left. split; [by apply (tasks_ok_view w)|]. unfold workers. by rewrite E.
  - right. unfold unready. rewrite E. split; [by apply Hk|]. split; [|done]. rewrite H2 in Et. by destruct (completed_tasks w').
Qed.

Lemma heir_start p target : heir (start_call_subroutine_worker p target).
Proof.
  pose proof apart_depth. unfold start_call_subroutine_worker. destruct (_ <=? target); [heir_all|]. cbv zeta. apply heir_bind; [heir_all|intros s0].
  destruct (_ <? _); [heir_all|]. apply heir_bind; [heir_all|intros _]. apply heir_bind; [heir_all|intros _]. apply heir_bind; [heir_all|intros _].
  apply heir_bind; [heir_all|intros _]. apply heir_bind; [heir_all|intros ok]. destruct (negb ok); [heir_all|]. apply heir_bind; [heir_all|intros s1].
  intros s. unfold bind at 1. destruct (new_worker _ _ _) as [w|] eqn:En; [|done]. cbn [check ret]. apply new_worker_fresh in En.
  match goal with |- context [match ?m w with _ => _ end] => pose proof (fresh_apart m w) as Hw' end.
  match type of Hw' with apart ?m -> _ => assert (Hp : apart m) by (pose proof apart_push_arguments; apart_all); specialize (Hw' Hp);
    assert (Hk : sticky m) by sticky_all; specialize (Hw' Hk En) end.
  destruct (bind _ _ w) as [u w'|w'|]; [|by left|done]. destruct (host_thread_starts _); [|by left].
  cbn. intros x. unfold workers at 1. cbn. rewrite omap_app, elem_of_app. intros [Hx|Hx]; [by left|right].
  cbn in Hx. apply list_elem_of_singleton in Hx as ->. exact Hw'.
Qed.

#[local] Hint Resolve heir_start : heir.
#[local] Hint Extern 2 (heir (call_sys_then _ _)) => (apply heir_call_then; intros ?; heir_all) : heir.

Lemma heir_execute p i m : execute p i = Some m -> heir m.
Proof.
  intros [E|[E|[E|E]]]%execute_cases; [by eapply heir_apart, apart_control|by eapply heir_apart, apart_text|by eapply heir_apart, apart_node|].
  unfold task_op in E. revert E. destruct (opcode i); intros [= <-]; heir_all.
Qed.

(** ** The system *)

(** A VM whose table is in order, with workers that are too, or are without storage. *)
Inductive sound : AivmVm -> Prop :=
  | sound_vm s : tasks_ok s -> (forall w, w ∈ workers s -> sound w \/ unready w) -> sound s.

Lemma alone_sound w : tasks_ok w -> workers w = [] -> sound w.
Proof. intros H1 H2. constructor; [done|]. rewrite H2. by intros w' ?%elem_of_nil. Qed.

Lemma fresh_sound w : fresh w -> sound w \/ unready w.
Proof. intros [[H1 H2]|H1]; [left; by apply alone_sound|by right]. Qed.

Lemma unready_alone w : unready w -> workers w = [].
Proof. intros (_ & _ & E). unfold workers. by rewrite E. Qed.

Lemma sound_heirs s s' : sound s -> tasks_ok s' -> (forall w, w ∈ workers s' -> w ∈ workers s \/ fresh w) -> sound s'.
Proof. intros [s0 H1 H2] Hs' Hh'. constructor; [done|]. intros w [Hi|Hf]%Hh'; [by apply H2|by apply fresh_sound]. Qed.

Lemma step_sound s s' : sound s -> aivm_step execute s = Next s' -> sound s'.
Proof.
  intros [s0 H1 H2] Hstep. pose proof (step_tasks s0 s' H1 Hstep) as Ht'. apply (sound_heirs s0); [by constructor|done|].
  unfold aivm_step in Hstep. destruct (program s0) as [p|]; [|by injection Hstep as <-; left].
  case_bool_decide; [destruct (_ =? 0); injection Hstep as <-; by left|]. destruct (stopped s0); [injection Hstep as <-; by left|].
  destruct (_ <=? _); [injection Hstep as <-; by left|]. destruct (zget _ _) as [i|]; [|done]. destruct (execute p i) as [m|] eqn:Em; [|done].
  pose proof (heir_execute p i m Em (begin_instruction i s0)) as He. unfold finish_instruction in Hstep.
  destruct (m (begin_instruction i s0)) as [[] s1|s1|]; [| |done]; injection Hstep as <-; unfold settle; destruct (_ && _); exact He.
Qed.

Lemma sound_same s s' : sound s -> view_of s' = view_of s -> workers s' = workers s -> sound s'.
Proof. intros [s0 H1 H2] Ev Ew. constructor; [by apply (tasks_ok_view s0)|by rewrite Ew]. Qed.

Lemma turn_sound c c' : sound (ctx_worker c) -> thread_turn execute c = Some c' -> sound (ctx_worker c').
Proof.
  intros Hs. unfold thread_turn. cbv zeta.
  assert (Hf : forall w r, sound w -> sound (ctx_worker (finish_context c w r))) by done.
  assert (He : forall w e d, sound w -> sound (aivm_set_vm_error e d w)) by (intros w e d Hw'; by apply (sound_same w)).
  assert (Hr : forall w, sound w -> sound (ctx_worker (finish_run c w))).
  { intros w Hw'. unfold finish_run. case_bool_decide; [by apply Hf|]. destruct (stack w) as [|v [|v' l]]; [by apply Hf|by apply Hf|by apply Hf, He]. }
  destruct (_ || _); [intros [= <-]; by apply Hr|]. destruct (_ <=? _); [intros [= <-]; by apply Hf, He|].
  destruct (aivm_step execute (ctx_worker c)) as [w'| |] eqn:Est; [|done|done]. pose proof (step_sound _ _ Hs Est) as Hs'.
  case_bool_decide; [|by intros [= <-]]. destruct (at_end _ w'); intros [= <-]; [by apply Hr|by apply Hf, He].
Qed.

(** A worker without storage ends its thread at its first turn. *)
Lemma turn_unready c c' : unready (ctx_worker c) -> thread_turn execute c = Some c' -> ctx_worker c' = ctx_worker c /\ ctx_done c' = true.
Proof.
  intros (Hs & _ & _). unfold thread_turn, finish_run. rewrite Hs. cbn. intros [= <-]. done.
Qed.

Lemma context_sound s i c c' : sound s -> context_at s i = Some c ->
  (sound (ctx_worker c) \/ unready (ctx_worker c) -> sound (ctx_worker c') \/ unready (ctx_worker c')) -> sound (set_context i (Some c') s).
Proof.
  intros [s0 H1 H2] Hc' Hk. constructor; [by apply (tasks_ok_view s0); [eapply view_set_context|]|].
  intros w [Hi|[= <-]]%workers_set_context; [by apply H2|]. by apply Hk, H2, (context_worker s0 i).
Qed.

Lemma thread_step_unready s s' : thread_step s s' -> ~ unready s.
Proof.
  intros Hst Hu%unready_alone. destruct Hst as [s i c c' Hc' _ _|s i c w' Hc' _]; apply context_worker in Hc'; rewrite Hu in Hc'; by apply elem_of_nil in Hc'.
Qed.

Lemma thread_step_sound s s' : thread_step s s' -> sound s -> sound s'.
Proof.
  induction 1 as [s i c c' Hc' Hr Ht'|s i c w' Hc' Hn IH]; intros Hs; (eapply context_sound; [done|done|]); intros [Hw'|Hw'].
  - left. by eapply turn_sound.
  - right. by destruct (turn_unready _ _ Hw' Ht') as [-> _].
  - left. by apply IH.
  - by destruct (thread_step_unready _ _ Hn).
Qed.

Lemma system_step_sound s s' : system_step s s' -> sound s -> sound s'.
Proof. intros [s0 s1 E|s0 s1 E] Hs; [by eapply step_sound|by eapply thread_step_sound]. Qed.

Lemma system_steps_sound s s' : system_steps s s' -> sound s -> sound s'.
Proof. induction 1 as [s|s s1 s2 Hst _ IH]; [done|]. intros Hs. by eapply IH, system_step_sound. Qed.

(** C2: from an initialised VM, whatever the program, the host, the worker runtime
    and the schedule of the threads: in every state reached, the owner and every
    worker VM at any depth have their task table in order, but for the workers whose
    storage the host refused: these have an error and no tasks, and their thread ends
    without running an instruction.  In order means: handles are positive,
    ascending, given out once and never beyond INT64_MAX; at most 256 tasks; every
    thread context that has not been freed belongs to exactly one task, which is
    pending; the nested parallel contexts (at most 64) partition the values (at most
    1024); and the accounts of the worker batches are exact and within their limits. *)
Theorem system_tasks_invariant p bindings args profile s s' :
  initialised_vm p bindings args profile = Some s -> system_steps s s' ->
  sound s' /\ forall c c', unready (ctx_worker c) -> thread_turn execute c = Some c' -> ctx_worker c' = ctx_worker c /\ ctx_done c' = true.
Proof.
  intros Hi Hst. split; [|apply turn_unready]. apply (system_steps_sound s s' Hst). destruct (initialised_view _ _ _ _ _ Hi) as [Ev Ew].
  apply alone_sound; [|done]. unfold tasks_ok. rewrite Ev. apply first_view_ok. by destruct profile.
Qed.

End Heirs.

(** ** An example: a function on a thread *)

#[local] Instance granting : Host := example_host.
#[local] Instance threads : Threads := {| host_thread_starts := fun _ => true |}.
#[local] Instance no_workers : WorkerRuntime := {|
  runtime_create := fun _ _ _ _ => AIVM_WORKER_RUNTIME_ERR_SYSTEM;
  runtime_submit := fun _ _ _ _ => AIVM_WORKER_RUNTIME_ERR_SYSTEM;
  runtime_await := fun _ _ => (AIVM_WORKER_RUNTIME_ERR_SYSTEM, None);
  runtime_cancel := fun _ _ => (AIVM_WORKER_RUNTIME_ERR_SYSTEM, false);
  runtime_release := fun _ _ => AIVM_WORKER_RUNTIME_OK |}.
#[local] Instance stopped_clock : Clock := {| host_clock := fun _ => 0 |}.
#[local] Instance spread : Addresses := {| arena_address := fun gen => gen * 4294967296 |}.

(** PUSH_INT 20; ASYNC_CALL 4; AWAIT; HALT; then the function: STORE_LOCAL 0;
    LOAD_LOCAL 0; PUSH_INT 1; ADD; RETURN. *)
Definition async_program : AivmProgram :=
  set_instructions [mk_instruction AIVM_OP_PUSH_INT 20; mk_instruction AIVM_OP_ASYNC_CALL 4; mk_instruction AIVM_OP_AWAIT 0; mk_instruction AIVM_OP_HALT 0;
    mk_instruction AIVM_OP_STORE_LOCAL 0; mk_instruction AIVM_OP_LOAD_LOCAL 0; mk_instruction AIVM_OP_PUSH_INT 1; mk_instruction AIVM_OP_ADD_INT 0;
    mk_instruction AIVM_OP_RETURN 0] 9 9 aivm_program_clear.

(** The owner starts the thread, the thread runs to its end, the owner awaits it. *)
Definition async_schedule : list (list Z) := [[]; []; [0]; [0]; [0]; [0]; [0]; []; []].

Example async_result : option_map (fun s => (status s, stack s, completed_tasks s))
    (s ← initialised_vm async_program None [] AIVM_RUNTIME_PROFILE_PRODUCTION; run_schedule async_schedule s) = Some (AIVM_VM_STATUS_HALTED, [VInt 21], []).
Proof. vm_compute. reflexivity. Qed.

Lemma run_parts {A} (o : option AivmVm) (f : AivmVm -> option AivmVm) (g : AivmVm -> A) a :
  option_map g (s ← o; f s) = Some a -> exists s s', o = Some s /\ f s = Some s' /\ g s' = a.
Proof. destruct o as [s|]; [|done]. cbn. destruct (f s) as [s'|] eqn:E; [|done]. intros [= <-]. by exists s, s'. Qed.

Lemma system_tasks_invariant_witness : exists s', sound s' /\ stack s' = [VInt 21].
Proof.
  destruct (run_parts _ _ _ _ async_result) as (s & s' & Ei & Er & Est). exists s'. split; [|exact (f_equal (fun r => r.1.2) Est)].
  exact (proj1 (system_tasks_invariant _ _ _ _ s s' Ei (schedule_steps _ s s' Er))).
Defined.

(** The same machine where the host refuses the storage of workers: ASYNC_CALL 3 starts the
    thread of a function without arguments, which ends at once; AWAIT reports its error. *)
Definition refusing : Host := {| host_alloc := fun _ size => negb (size =? 0); host_memory_snapshot := fun _ => None |}.

Definition lone_program : AivmProgram :=
  set_instructions [mk_instruction AIVM_OP_ASYNC_CALL 3; mk_instruction AIVM_OP_AWAIT 0; mk_instruction AIVM_OP_HALT 0;
    mk_instruction AIVM_OP_PUSH_INT 1; mk_instruction AIVM_OP_RETURN 0] 5 5 aivm_program_clear.

Example unready_awaited : option_map (fun s => (status s, error s, error_detail s))
    (s ← initialised_vm (H := refusing) lone_program None [] AIVM_RUNTIME_PROFILE_PRODUCTION; run_schedule (H := refusing) [[]; [0]; []] s) =
  Some (AIVM_VM_STATUS_ERROR, AIVM_VM_ERR_MEMORY_PRESSURE,
    DFormat "ASYNC_CALL worker failed: %s" [ADetail (DText "AIVMM001: VM storage allocation failed.")]).
Proof. vm_compute. reflexivity. Qed.
