(* ===== verification/Debugger.v ===== *)
(** * The debugger (src/src/aivm_debugger.c, src/src/include/aivm_debugger.h)

    A debugger drives a VM step by step and answers with snapshots.  The pointer to the
    debugger itself is not NULL here: every function refuses a NULL debugger at once.  The
    names registered for functions and nodes are C strings, [None] is NULL. *)

From S2P Require Import Prelude Types Program Syscalls Vm Lifecycle Stack Memory Control Step Calls Roots Pairs NodeGc.

(** ** Data *)

Definition AIVM_DEBUGGER_MAX_BREAKPOINTS : Z := 128.
Definition AIVM_DEBUGGER_MAX_SOURCE_MAPPINGS : Z := 128.
Definition AIVM_DEBUGGER_SOURCE_NAME_LENGTH : Z := 128.

Inductive AivmDebuggerStatus :=
  | AIVM_DEBUGGER_OK
  | AIVM_DEBUGGER_ERR_INVALID
  | AIVM_DEBUGGER_ERR_BREAKPOINT_LIMIT
  | AIVM_DEBUGGER_ERR_STEP_LIMIT
  | AIVM_DEBUGGER_ERR_HALTED
  | AIVM_DEBUGGER_ERR_VM.

Inductive AivmDebuggerState :=
  | AIVM_DEBUGGER_STATE_READY
  | AIVM_DEBUGGER_STATE_PAUSED
  | AIVM_DEBUGGER_STATE_RUNNING
  | AIVM_DEBUGGER_STATE_HALTED
  | AIVM_DEBUGGER_STATE_ERROR.

Global Instance debugger_status_eq_dec : EqDecision AivmDebuggerStatus.
Proof. solve_decision. Defined.
Global Instance debugger_state_eq_dec : EqDecision AivmDebuggerState.
Proof. solve_decision. Defined.

Record AivmDebuggerSourceMapping := mk_mapping { mapping_name : list Z; mapping_pc : Z }.

Record AivmDebuggerSnapshot := mk_snapshot {
  snap_pc : Z; snap_opcode : Z; snap_stack_count : Z; snap_locals_count : Z; snap_call_frame_count : Z;
  snap_completed_task_count : Z; snap_node_count : Z; snap_node_attr_count : Z; snap_node_child_count : Z;
  snap_blob_count : Z; snap_syscall_binding_count : Z; snap_process_argv_count : Z;
  snap_active_host_operation_count : Z; snap_vm_status : AivmVmStatus; snap_vm_error : AivmVmError;
  snap_debugger_state : AivmDebuggerState }.

(** The arrays with their counters are the lists of their live elements. *)
Record AivmDebugger := mk_debugger {
  dbg_vm : option AivmVm;
  dbg_state : AivmDebuggerState;
  breakpoints : list Z;
  function_mappings : list AivmDebuggerSourceMapping;
  node_mappings : list AivmDebuggerSourceMapping;
  dbg_active_host_operation_count : Z;
  executed_step_count : Z }.

Definition set_dbg_vm (x : option AivmVm) (d : AivmDebugger) : AivmDebugger :=
  mk_debugger x (dbg_state d) (breakpoints d) (function_mappings d) (node_mappings d) (dbg_active_host_operation_count d) (executed_step_count d).
Definition set_dbg_state (x : AivmDebuggerState) (d : AivmDebugger) : AivmDebugger :=
  mk_debugger (dbg_vm d) x (breakpoints d) (function_mappings d) (node_mappings d) (dbg_active_host_operation_count d) (executed_step_count d).
Definition set_breakpoints (x : list Z) (d : AivmDebugger) : AivmDebugger :=
  mk_debugger (dbg_vm d) (dbg_state d) x (function_mappings d) (node_mappings d) (dbg_active_host_operation_count d) (executed_step_count d).
Definition set_function_mappings (x : list AivmDebuggerSourceMapping) (d : AivmDebugger) : AivmDebugger :=
  mk_debugger (dbg_vm d) (dbg_state d) (breakpoints d) x (node_mappings d) (dbg_active_host_operation_count d) (executed_step_count d).
Definition set_node_mappings (x : list AivmDebuggerSourceMapping) (d : AivmDebugger) : AivmDebugger :=
  mk_debugger (dbg_vm d) (dbg_state d) (breakpoints d) (function_mappings d) x (dbg_active_host_operation_count d) (executed_step_count d).
Definition set_executed_step_count (x : Z) (d : AivmDebugger) : AivmDebugger :=
  mk_debugger (dbg_vm d) (dbg_state d) (breakpoints d) (function_mappings d) (node_mappings d) (dbg_active_host_operation_count d) x.

Definition aivm_debugger_set_active_host_operation_count (count : Z) (d : AivmDebugger) : AivmDebugger :=
  mk_debugger (dbg_vm d) (dbg_state d) (breakpoints d) (function_mappings d) (node_mappings d) count (executed_step_count d).

(** ** Breakpoints and mappings *)

Definition has_breakpoint (d : AivmDebugger) (pc : Z) : bool := existsb (Z.eqb pc) (breakpoints d).

Definition dbg_program (d : AivmDebugger) : option AivmProgram := dbg_vm d ≫= program.

(** The loop over the mappings: the first one of the name is given the new pc. *)
Fixpoint update_mapping (mappings : list AivmDebuggerSourceMapping) (name : list Z) (pc : Z)
    : option (list AivmDebuggerSourceMapping) :=
  match mappings with
  | [] => None
  | m :: rest =>
      if bool_decide (mapping_name m = name) then Some (mk_mapping (mapping_name m) pc :: rest)
      else cons m <$> update_mapping rest name pc
  end.

(** [snprintf] keeps what fits in the name with its NUL. *)
Definition register_mapping (mappings : list AivmDebuggerSourceMapping) (d : AivmDebugger) (name : option (list Z)) (pc : Z)
    : AivmDebuggerStatus * list AivmDebuggerSourceMapping :=
  match dbg_program d, name with
  | Some p, Some name =>
      if bool_decide (name = []) || (instruction_count p <=? pc) then (AIVM_DEBUGGER_ERR_INVALID, mappings)
      else
        match update_mapping mappings name pc with
        | Some mappings' => (AIVM_DEBUGGER_OK, mappings')
        | None =>
            if AIVM_DEBUGGER_MAX_SOURCE_MAPPINGS <=? zlen mappings then (AIVM_DEBUGGER_ERR_BREAKPOINT_LIMIT, mappings)
            else (AIVM_DEBUGGER_OK, mappings ++ [mk_mapping (ztake (AIVM_DEBUGGER_SOURCE_NAME_LENGTH - 1) name) pc])
        end
  | _, _ => (AIVM_DEBUGGER_ERR_INVALID, mappings)
  end.

Definition find_mapping (mappings : list AivmDebuggerSourceMapping) (name : option (list Z)) : option Z :=
  match name with
  | None => None
  | Some name => mapping_pc <$> (snd <$> list_find (fun m => mapping_name m = name) mappings)
  end.

Definition aivm_debugger_break_pc (pc : Z) (d : AivmDebugger) : AivmDebuggerStatus * AivmDebugger :=
  match dbg_program d with
  | None => (AIVM_DEBUGGER_ERR_INVALID, d)
  | Some p =>
      if instruction_count p <=? pc then (AIVM_DEBUGGER_ERR_INVALID, d)
      else if has_breakpoint d pc then (AIVM_DEBUGGER_OK, d)
      else if AIVM_DEBUGGER_MAX_BREAKPOINTS <=? zlen (breakpoints d) then (AIVM_DEBUGGER_ERR_BREAKPOINT_LIMIT, d)
      else (AIVM_DEBUGGER_OK, set_breakpoints (breakpoints d ++ [pc]) d)
  end.

Definition aivm_debugger_register_function (name : option (list Z)) (pc : Z) (d : AivmDebugger) : AivmDebuggerStatus * AivmDebugger :=
  let '(st, m) := register_mapping (function_mappings d) d name pc in (st, set_function_mappings m d).

Definition aivm_debugger_register_node (node_id : option (list Z)) (pc : Z) (d : AivmDebugger) : AivmDebuggerStatus * AivmDebugger :=
  let '(st, m) := register_mapping (node_mappings d) d node_id pc in (st, set_node_mappings m d).

Definition aivm_debugger_break_function (name : option (list Z)) (d : AivmDebugger) : AivmDebuggerStatus * AivmDebugger :=
  match find_mapping (function_mappings d) name with
  | None => (AIVM_DEBUGGER_ERR_INVALID, d)
  | Some pc => aivm_debugger_break_pc pc d
  end.

Definition aivm_debugger_break_node (node_id : option (list Z)) (d : AivmDebugger) : AivmDebuggerStatus * AivmDebugger :=
  match find_mapping (node_mappings d) node_id with
  | None => (AIVM_DEBUGGER_ERR_INVALID, d)
  | Some pc => aivm_debugger_break_pc pc d
  end.

Definition aivm_debugger_clear_breakpoints (d : AivmDebugger) : AivmDebuggerStatus * AivmDebugger :=
  (AIVM_DEBUGGER_OK, set_breakpoints [] d).

(** ** Stepping *)

Definition sync_state (d : AivmDebugger) : AivmDebugger :=
  match dbg_vm d with
  | None => d
  | Some s =>
      match status s with
      | AIVM_VM_STATUS_HALTED => set_dbg_state AIVM_DEBUGGER_STATE_HALTED d
      | AIVM_VM_STATUS_ERROR => set_dbg_state AIVM_DEBUGGER_STATE_ERROR d
      | _ => d
      end
  end.

(** What an operation answers: its status, the debugger and the snapshot behind
    [out_snapshot] ([None] when the pointer is NULL). *)
Inductive answer :=
  | Answer (st : AivmDebuggerStatus) (d : AivmDebugger) (out : option AivmDebuggerSnapshot)
  | StepUndefined
  | StepNotModelled.

Section Debugger.

Context (exec : AivmProgram -> AivmInstruction -> option (M unit)).

(** The argument count of the VM, which no instruction changes. *)
Context (process_argv_count : Z).

(** [None] is a read outside the instructions. *)
Definition current_opcode (s : AivmVm) : option Z :=
  match program s with
  | None => Some (-1)
  | Some p =>
      if negb (bool_decide (instruction_store p = [])) && (instruction_pointer s <? instruction_count p)
      then (fun i => Z_of_opcode (opcode i)) <$> zget (instruction_store p) (instruction_pointer s)
      else Some (-1)
  end.

Definition syscall_binding_count (s : AivmVm) : Z :=
  match syscall_bindings (syscalls (task_table s)) with Some bs => zlen bs | None => 0 end.

Definition snapshot_of (d : AivmDebugger) : option AivmDebuggerSnapshot :=
  match dbg_vm d with
  | None => Some (mk_snapshot 0 0 0 0 0 0 0 0 0 0 0 0 0 AIVM_VM_STATUS_ERROR AIVM_VM_ERR_INVALID_PROGRAM (dbg_state d))
  | Some s =>
      (fun op => mk_snapshot (instruction_pointer s) op (stack_count s) (locals_count s) (call_frame_count s)
        (zlen (completed_tasks s)) (node_count (node_store s)) (node_attr_count (node_store s)) (node_child_count (node_store s))
        (blob_count (blob_store s)) (syscall_binding_count s) process_argv_count (dbg_active_host_operation_count d)
        (status s) (error s) (dbg_state d)) <$> current_opcode s
  end.

(** [capture_snapshot] and the return of a status. *)
Definition capture_snapshot (st : AivmDebuggerStatus) (d : AivmDebugger) (out : option AivmDebuggerSnapshot) : answer :=
  match out with
  | None => Answer st d None
  | Some _ => match snapshot_of d with Some snap => Answer st d (Some snap) | None => StepUndefined end
  end.

Definition aivm_debugger_init (vm : option AivmVm) : AivmDebugger :=
  sync_state (mk_debugger vm AIVM_DEBUGGER_STATE_READY [] [] [] 0 0).

(** The status that goes with a stopped debugger. *)
Definition stop_status (d : AivmDebugger) : AivmDebuggerStatus :=
  match dbg_state d with
  | AIVM_DEBUGGER_STATE_HALTED => AIVM_DEBUGGER_ERR_HALTED
  | AIVM_DEBUGGER_STATE_ERROR => AIVM_DEBUGGER_ERR_VM
  | _ => AIVM_DEBUGGER_OK
  end.

Definition at_rest (d : AivmDebugger) : bool :=
  bool_decide (dbg_state d = AIVM_DEBUGGER_STATE_HALTED) || bool_decide (dbg_state d = AIVM_DEBUGGER_STATE_ERROR).

Definition aivm_debugger_pause (out : option AivmDebuggerSnapshot) (d : AivmDebugger) : answer :=
  match dbg_vm d with
  | None => Answer AIVM_DEBUGGER_ERR_INVALID d out
  | Some _ =>
      let d1 := sync_state d in
      let d2 := if at_rest d1 then d1 else set_dbg_state AIVM_DEBUGGER_STATE_PAUSED d1 in
      capture_snapshot (stop_status d2) d2 out
  end.

(** [aivm_step(debugger->vm)] and the step counter. *)
Definition step_vm (d : AivmDebugger) (k : AivmDebugger -> answer) : answer :=
  match dbg_vm d with
  | None => StepUndefined
  | Some s =>
      match aivm_step exec s with
      | Next s' => k (set_executed_step_count (u64 (executed_step_count d + 1)) (set_dbg_vm (Some s') d))
      | Undefined => StepUndefined
      | NotModelled => StepNotModelled
      end
  end.

Definition aivm_debugger_step (out : option AivmDebuggerSnapshot) (d : AivmDebugger) : answer :=
  match dbg_vm d with
  | None => Answer AIVM_DEBUGGER_ERR_INVALID d out
  | Some _ =>
      let d1 := sync_state d in
      if at_rest d1 then capture_snapshot (stop_status d1) d1 out
      else step_vm (set_dbg_state AIVM_DEBUGGER_STATE_RUNNING d1) (fun d2 =>
             let d3 := sync_state (set_dbg_state AIVM_DEBUGGER_STATE_PAUSED d2) in
             capture_snapshot (stop_status d3) d3 out)
  end.

Definition frames_of (d : AivmDebugger) : Z :=
  match dbg_vm d with Some s => call_frame_count s | None => 0 end.

Definition at_breakpoint (d : AivmDebugger) : bool :=
  match dbg_vm d with Some s => has_breakpoint d (instruction_pointer s) | None => false end.

(** The loop of step over and step out: steps while the frames are [deep]; [budget] is
    [max_steps - steps]. *)
Fixpoint step_while (budget : nat) (deep : AivmDebugger -> bool) (out : option AivmDebuggerSnapshot) (d : AivmDebugger) : answer :=
  if deep d then
    match budget with
    | O => capture_snapshot AIVM_DEBUGGER_ERR_STEP_LIMIT d out
    | S budget' =>
        match aivm_debugger_step out d with
        | Answer AIVM_DEBUGGER_OK d' out' =>
            if at_breakpoint d' then
              let d'' := set_dbg_state AIVM_DEBUGGER_STATE_PAUSED d' in capture_snapshot AIVM_DEBUGGER_OK d'' out'
            else step_while budget' deep out' d'
        | a => a
        end
    end
  else capture_snapshot AIVM_DEBUGGER_OK d out.

Definition aivm_debugger_step_over (max_steps : Z) (out : option AivmDebuggerSnapshot) (d : AivmDebugger) : answer :=
  if bool_decide (dbg_vm d = None) || (max_steps =? 0) then Answer AIVM_DEBUGGER_ERR_INVALID d out
  else
    let initial_frame_count := frames_of d in
    match aivm_debugger_step out d with
    | Answer AIVM_DEBUGGER_OK d' out' =>
        if frames_of d' <=? initial_frame_count then Answer AIVM_DEBUGGER_OK d' out'
        else step_while (Z.to_nat max_steps) (fun x => initial_frame_count <? frames_of x) out' d'
    | a => a
    end.

Definition aivm_debugger_step_out (max_steps : Z) (out : option AivmDebuggerSnapshot) (d : AivmDebugger) : answer :=
  if bool_decide (dbg_vm d = None) || (max_steps =? 0) then Answer AIVM_DEBUGGER_ERR_INVALID d out
  else
    let initial_frame_count := frames_of d in
    if initial_frame_count =? 0 then aivm_debugger_step_over max_steps out d
    else step_while (Z.to_nat max_steps) (fun x => initial_frame_count <=? frames_of x) out d.

(** The loop of [aivm_debugger_continue]; [budget] is [max_steps - steps]. *)
Fixpoint continue_loop (budget : nat) (out : option AivmDebuggerSnapshot) (d : AivmDebugger) : answer :=
  match budget with
  | O => let d' := set_dbg_state AIVM_DEBUGGER_STATE_PAUSED d in capture_snapshot AIVM_DEBUGGER_ERR_STEP_LIMIT d' out
  | S budget' =>
      step_vm d (fun d1 =>
        let d2 := sync_state d1 in
        if at_rest d2 then capture_snapshot (stop_status d2) d2 out
        else if at_breakpoint d2 then
          let d3 := set_dbg_state AIVM_DEBUGGER_STATE_PAUSED d2 in capture_snapshot AIVM_DEBUGGER_OK d3 out
        else continue_loop budget' out d2)
  end.

Definition aivm_debugger_continue (max_steps : Z) (out : option AivmDebuggerSnapshot) (d : AivmDebugger) : answer :=
  if bool_decide (dbg_vm d = None) || (max_steps =? 0) then Answer AIVM_DEBUGGER_ERR_INVALID d out
  else
    let d1 := sync_state d in
    if at_rest d1 then capture_snapshot (stop_status d1) d1 out
    else if at_breakpoint d1 then
      let d2 := set_dbg_state AIVM_DEBUGGER_STATE_PAUSED d1 in capture_snapshot AIVM_DEBUGGER_OK d2 out
    else continue_loop (Z.to_nat max_steps) out (set_dbg_state AIVM_DEBUGGER_STATE_RUNNING d1).

(** The kinds are numbered from 0 (stack) to 6 (host operations). *)
Definition aivm_debugger_inspect (kind : Z) (out : option AivmDebuggerSnapshot) (d : AivmDebugger) : answer :=
  match dbg_vm d with
  | None => Answer AIVM_DEBUGGER_ERR_INVALID d out
  | Some _ =>
      if (kind <? 0) || (6 <? kind) then Answer AIVM_DEBUGGER_ERR_INVALID d out
      else
        let d1 := sync_state d in
        capture_snapshot (if bool_decide (dbg_state d1 = AIVM_DEBUGGER_STATE_ERROR) then AIVM_DEBUGGER_ERR_VM else AIVM_DEBUGGER_OK) d1 out
  end.

End Debugger.

Definition aivm_debugger_status_name (st : AivmDebuggerStatus) : string :=
  match st with
  | AIVM_DEBUGGER_OK => "ok"
  | AIVM_DEBUGGER_ERR_INVALID => "invalid"
  | AIVM_DEBUGGER_ERR_BREAKPOINT_LIMIT => "breakpoint-limit"
  | AIVM_DEBUGGER_ERR_STEP_LIMIT => "step-limit"
  | AIVM_DEBUGGER_ERR_HALTED => "halted"
  | AIVM_DEBUGGER_ERR_VM => "vm-error"
  end.

Definition aivm_debugger_state_name (st : AivmDebuggerState) : string :=
  match st with
  | AIVM_DEBUGGER_STATE_READY => "ready"
  | AIVM_DEBUGGER_STATE_PAUSED => "paused"
  | AIVM_DEBUGGER_STATE_RUNNING => "running"
  | AIVM_DEBUGGER_STATE_HALTED => "halted"
  | AIVM_DEBUGGER_STATE_ERROR => "error"
  end.

(** ** Sessions *)

Inductive command :=
  | BreakPc (pc : Z)
  | RegisterFunction (name : option (list Z)) (pc : Z)
  | RegisterNode (node_id : option (list Z)) (pc : Z)
  | BreakFunction (name : option (list Z))
  | BreakNode (node_id : option (list Z))
  | ClearBreakpoints
  | HostOperations (count : Z)
  | Pause
  | Step
  | StepOver (max_steps : Z)
  | StepOut (max_steps : Z)
  | Continue (max_steps : Z)
  | Inspect (kind : Z).

Section Sessions.

Context (exec : AivmProgram -> AivmInstruction -> option (M unit)) (argc : Z).

Definition run_command (c : command) (out : option AivmDebuggerSnapshot) (d : AivmDebugger) : answer :=
  let plain (r : AivmDebuggerStatus * AivmDebugger) := Answer r.1 r.2 out in
  match c with
  | BreakPc pc => plain (aivm_debugger_break_pc pc d)
  | RegisterFunction name pc => plain (aivm_debugger_register_function name pc d)
  | RegisterNode node_id pc => plain (aivm_debugger_register_node node_id pc d)
  | BreakFunction name => plain (aivm_debugger_break_function name d)
  | BreakNode node_id => plain (aivm_debugger_break_node node_id d)
  | ClearBreakpoints => plain (aivm_debugger_clear_breakpoints d)
  | HostOperations count => Answer AIVM_DEBUGGER_OK (aivm_debugger_set_active_host_operation_count count d) out
  | Pause => aivm_debugger_pause argc out d
  | Step => aivm_debugger_step exec argc out d
  | StepOver max_steps => aivm_debugger_step_over exec argc max_steps out d
  | StepOut max_steps => aivm_debugger_step_out exec argc max_steps out d
  | Continue max_steps => aivm_debugger_continue exec argc max_steps out d
  | Inspect kind => aivm_debugger_inspect argc kind out d
  end.

(** The status of the last command. *)
Fixpoint run_session (cs : list command) (st : AivmDebuggerStatus) (out : option AivmDebuggerSnapshot) (d : AivmDebugger) : answer :=
  match cs with
  | [] => Answer st d out
  | c :: rest => match run_command c out d with Answer st' d' out' => run_session rest st' out' d' | a => a end
  end.

(** The VM on its own. *)
Fixpoint take_steps (n : nat) (s : AivmVm) : outcome :=
  match n with
  | O => Next s
  | S n' => match aivm_step exec s with Next s' => take_steps n' s' | o => o end
  end.

Lemma take_steps_app n m s s' : take_steps n s = Next s' -> take_steps (n + m) s = take_steps m s'.
Proof.
  revert s. induction n as [|n IH]; intros s; cbn [take_steps Nat.add]; [by intros [= ->]|].
  destruct (aivm_step exec s); [apply IH|done|done].
Qed.

(** ** Invariant *)

Definition mappings_ok (ms : list AivmDebuggerSourceMapping) : Prop :=
  zlen ms <= AIVM_DEBUGGER_MAX_SOURCE_MAPPINGS /\
  Forall (fun m => mapping_name m <> [] /\ zlen (mapping_name m) < AIVM_DEBUGGER_SOURCE_NAME_LENGTH) ms.

Record debugger_ok (d : AivmDebugger) : Prop := {
  do_breakpoints : zlen (breakpoints d) <= AIVM_DEBUGGER_MAX_BREAKPOINTS;
  do_once : NoDup (breakpoints d);
  do_functions : mappings_ok (function_mappings d);
  do_nodes : mappings_ok (node_mappings d);
  do_count : is_size (executed_step_count d) }.

Lemma has_breakpoint_elem d pc : has_breakpoint d pc = true <-> pc ∈ breakpoints d.
Proof.
  unfold has_breakpoint. rewrite existsb_exists. split.
  - intros (x & Hx & ->%Z.eqb_eq). by apply list_elem_of_In.
  - intros Hx. exists pc. rewrite Z.eqb_refl. by rewrite <- list_elem_of_In.
Qed.

Lemma update_mapping_ok ms name pc ms' : mappings_ok ms -> update_mapping ms name pc = Some ms' -> mappings_ok ms'.
Proof.
  intros [Hl Hf] Hu.
  assert (zlen ms' = zlen ms /\ Forall (fun m => mapping_name m <> [] /\ zlen (mapping_name m) < AIVM_DEBUGGER_SOURCE_NAME_LENGTH) ms')
    as [? ?]; [|split; [lia|done]].
  clear Hl. revert ms' Hu. induction Hf as [|m ms [H1 H2] Hf IH]; intros ms' Hu; cbn [update_mapping] in Hu; [done|].
  case_bool_decide as Hn.
  - injection Hu as <-. split; [by rewrite !zlen_cons|]. by constructor.
  - destruct (update_mapping ms name pc) as [r|] eqn:E; cbn in Hu; [|done]. injection Hu as <-.
    destruct (IH r eq_refl) as [E1 E2]. split; [rewrite !zlen_cons; lia|by constructor].
Qed.

Lemma register_ok ms d name pc : mappings_ok ms -> mappings_ok (register_mapping ms d name pc).2.
Proof.
  intros Hok. unfold register_mapping. destruct (dbg_program d) as [p|]; [|done]. destruct name as [name|]; [|done].
  destruct (bool_decide (name = []) || _) eqn:E; [done|]. apply orb_false_iff in E as [Hne%bool_decide_eq_false _].
  destruct (update_mapping ms name pc) as [ms'|] eqn:Eu; [by eapply update_mapping_ok|].
  destruct (Z.leb_spec AIVM_DEBUGGER_MAX_SOURCE_MAPPINGS (zlen ms)); [done|]. destruct Hok as [Hl Hf]. split.
  - cbn [snd]. rewrite zlen_app. change (zlen [_]) with 1. lia.
  - cbn [snd]. apply Forall_app. split; [done|]. constructor; [|done]. cbn [mapping_name].
    unfold AIVM_DEBUGGER_SOURCE_NAME_LENGTH, ztake, zlen. split; [by destruct name|]. rewrite length_take. lia.
Qed.

Lemma break_pc_ok pc d : debugger_ok d -> debugger_ok (aivm_debugger_break_pc pc d).2.
Proof.
  intros [H1 H2 H3 H4 H5]. unfold aivm_debugger_break_pc. destruct (dbg_program d) as [p|]; [|by split].
  destruct (_ <=? pc); [by split|]. destruct (has_breakpoint d pc) eqn:Eb; [by split|].
  destruct (Z.leb_spec AIVM_DEBUGGER_MAX_BREAKPOINTS (zlen (breakpoints d))); [by split|]. cbn [snd]. split; try done; cbn.
  - rewrite zlen_app. change (zlen [pc]) with 1. lia.
  - apply NoDup_app. split_and!; [done| |apply NoDup_singleton]. intros x Hx ->%list_elem_of_singleton.
    apply has_breakpoint_elem in Hx. congruence.
Qed.

(** A name longer than the table's fields is accepted by a registration, every time with a
    new entry, but never found again: the entry holds its first 127 bytes. *)
Lemma long_name_lost ms d name pc : mappings_ok ms -> AIVM_DEBUGGER_SOURCE_NAME_LENGTH <= zlen name ->
  find_mapping (register_mapping ms d (Some name) pc).2 (Some name) = None.
Proof.
  intros Hok Hl. destruct (register_ok ms d (Some name) pc Hok) as [_ Hf]. unfold find_mapping.
  destruct (list_find _ _) as [[i m]|] eqn:E; [|done]. apply list_find_Some in E as (Hm & Hn & _). exfalso.
  rewrite Forall_forall in Hf. destruct (Hf m) as [_ Hlt]; [by eapply list_elem_of_lookup_2|]. rewrite Hn in Hlt. lia.
Qed.

(** ** The debugger only steps *)

(** Everything but the VM, its counter and the state of the debugger is as before, and
    the VM has taken [k] steps. *)
Definition stepped (k : nat) (d d' : AivmDebugger) : Prop := exists s s',
  dbg_vm d = Some s /\ dbg_vm d' = Some s' /\ take_steps k s = Next s' /\
  d' = set_dbg_state (dbg_state d') (set_executed_step_count (u64 (executed_step_count d + Z.of_nat k)) (set_dbg_vm (Some s') d)).

Lemma u64_is_size z : is_size (u64 z).
Proof. unfold is_size, u64, SIZE_MAX. pose proof (Z.mod_pos_bound z (2 ^ 64)). lia. Qed.

Lemma u64_same z : is_size z -> u64 z = z.
Proof. intros [H1 H2]. unfold u64, SIZE_MAX in *. apply Z.mod_small. lia. Qed.

Lemma stepped_refl d s : is_size (executed_step_count d) -> dbg_vm d = Some s -> stepped 0 d d.
Proof.
  intros Hc Hv. exists s, s. split_and!; try done. rewrite Z.add_0_r, u64_same by done. destruct d; cbn in *. by subst.
Qed.

Lemma stepped_trans k1 k2 d1 d2 d3 : stepped k1 d1 d2 -> stepped k2 d2 d3 -> stepped (k1 + k2) d1 d3.
Proof.
  intros (s1 & s2 & H1 & H2 & H3 & E1) (s2' & s3 & H2' & H4 & H5 & E2). rewrite H2 in H2'. injection H2' as <-.
  exists s1, s3. split_and!; [done|done|by rewrite (take_steps_app _ _ _ s2)|]. rewrite E2 at 1. rewrite E1 at 1 2.
  unfold set_dbg_state, set_executed_step_count, set_dbg_vm. cbn. f_equal. unfold u64. rewrite Zplus_mod_idemp_l. f_equal. lia.
Qed.

Lemma stepped_state k d d' x : stepped k d d' -> stepped k d (set_dbg_state x d').
Proof. intros (s & s' & H1 & H2 & H3 & E). exists s, s'. split_and!; try done. rewrite E at 1. by rewrite E. Qed.

Lemma sync_is d : exists x, sync_state d = set_dbg_state x d.
Proof.
  unfold sync_state. destruct (dbg_vm d) as [s|] eqn:E; [destruct (status s)|]; try (by eexists);
    exists (dbg_state d); by destruct d.
Qed.

Lemma stepped_sync k d d' : stepped k d d' -> stepped k d (sync_state d').
Proof. intros Hs. destruct (sync_is d') as [x ->]. by apply stepped_state. Qed.

Lemma stepped_size k d d' : stepped k d d' -> is_size (executed_step_count d').
Proof. intros (s & s' & _ & _ & _ & ->). apply u64_is_size. Qed.

Lemma stepped_ok k d d' : stepped k d d' -> debugger_ok d -> debugger_ok d'.
Proof. intros Hs []. pose proof (stepped_size _ _ _ Hs). destruct Hs as (s & s' & _ & _ & _ & E). rewrite E in *. by split. Qed.

Lemma stepped_vm k d d' : stepped k d d' -> exists s', dbg_vm d' = Some s'.
Proof. intros (s & s' & _ & H & _). by exists s'. Qed.

(** One step of the VM, then the rest of the operation. *)
Lemma step_vm_inv d k st d' out' : step_vm exec d k = Answer st d' out' ->
  exists d1, stepped 1 d d1 /\ k d1 = Answer st d' out' /\ dbg_state d1 = dbg_state d.
Proof.
  unfold step_vm. destruct (dbg_vm d) as [s|] eqn:Ev; [|done]. destruct (aivm_step exec s) as [s'| |] eqn:Es; [|done|done].
  intros Hk. eexists. split; [|split; [exact Hk|done]]. exists s, s'. cbn [take_steps]. rewrite Es. by split_and!.
Qed.

Lemma capture_inv st d out st' d' out' : capture_snapshot argc st d out = Answer st' d' out' ->
  st' = st /\ d' = d /\ match out' with None => out = None | Some snap => snapshot_of argc d = Some snap end.
Proof. unfold capture_snapshot. destruct out; [destruct (snapshot_of argc d) eqn:E; [|done]|]; intros [= <- <- <-]; done. Qed.

Lemma step_inv d out s st d' out' : is_size (executed_step_count d) -> dbg_vm d = Some s ->
  aivm_debugger_step exec argc out d = Answer st d' out' -> exists k, (k <= 1)%nat /\ stepped k d d'.
Proof.
  intros Hc Hv. unfold aivm_debugger_step. rewrite Hv. destruct (at_rest (sync_state d)).
  - intros (-> & -> & _)%capture_inv. exists 0%nat. split; [lia|]. by eapply stepped_sync, stepped_refl.
  - intros (d1 & Hs & (-> & -> & _)%capture_inv & _)%step_vm_inv. exists 1%nat. split; [done|].
    apply stepped_sync, stepped_state. change 1%nat with (0 + 1)%nat. eapply stepped_trans; [|exact Hs].
    by eapply stepped_state, stepped_sync, stepped_refl.
Qed.

Lemma step_while_inv deep budget : forall out d s st d' out', is_size (executed_step_count d) -> dbg_vm d = Some s ->
  step_while exec argc budget deep out d = Answer st d' out' -> exists k, (k <= budget)%nat /\ stepped k d d'.
Proof.
  induction budget as [|budget IH]; intros out d s st d' out' Hc Hv; cbn [step_while]; destruct (deep d).
  - intros (-> & -> & _)%capture_inv. exists 0%nat. split; [lia|by eapply stepped_refl].
  - intros (-> & -> & _)%capture_inv. exists 0%nat. split; [lia|by eapply stepped_refl].
  - destruct (aivm_debugger_step exec argc out d) as [st1 d1 out1| |] eqn:E; [|done|done].
    destruct (step_inv d out s st1 d1 out1 Hc Hv E) as (k & Hk & Hs). destruct (stepped_vm _ _ _ Hs) as [s1 Hv1].
    destruct st1; try (intros [= <- <- <-]; exists k; split; [lia|done]). destruct (at_breakpoint d1).
    + intros (-> & -> & _)%capture_inv. exists k. split; [lia|by apply stepped_state].
    + intros Hw. destruct (IH _ _ _ _ _ _ (stepped_size _ _ _ Hs) Hv1 Hw) as (k2 & Hk2 & Hs2). exists (k + k2)%nat. split; [lia|].
      by eapply stepped_trans.
  - intros (-> & -> & _)%capture_inv. exists 0%nat. split; [lia|by eapply stepped_refl].
Qed.

Lemma step_over_inv d n out s st d' out' : is_size (executed_step_count d) -> dbg_vm d = Some s ->
  aivm_debugger_step_over exec argc n out d = Answer st d' out' -> exists k, stepped k d d'.
Proof.
  intros Hc Hv. unfold aivm_debugger_step_over. destruct (bool_decide _ || _).
  { intros [= <- <- <-]. exists 0%nat. by eapply stepped_refl. }
  destruct (aivm_debugger_step exec argc out d) as [st1 d1 out1| |] eqn:E; [|done|done].
  destruct (step_inv d out s st1 d1 out1 Hc Hv E) as (k & _ & Hs). destruct (stepped_vm _ _ _ Hs) as [s1 Hv1].
  destruct st1; try (intros [= <- <- <-]; by exists k). destruct (_ <=? _); [intros [= <- <- <-]; by exists k|].
  intros Hw. destruct (step_while_inv _ _ _ _ _ _ _ _ (stepped_size _ _ _ Hs) Hv1 Hw) as (k2 & _ & Hs2). exists (k + k2)%nat.
  by eapply stepped_trans.
Qed.

(** ** Where [aivm_debugger_continue] stops *)

Lemma sync_running d s : dbg_vm d = Some s -> at_rest d = false ->
  at_rest (sync_state d) = stopped s /\ (stopped s = false -> sync_state d = d) /\
  (stopped s = true -> stop_status (sync_state d) = AIVM_DEBUGGER_ERR_HALTED /\ status s = AIVM_VM_STATUS_HALTED \/
                       stop_status (sync_state d) = AIVM_DEBUGGER_ERR_VM /\ status s = AIVM_VM_STATUS_ERROR).
Proof.
  intros Hv Hr. unfold sync_state, stopped. rewrite Hv. destruct (status s); cbn; try done; split_and!; try done; intros _; [by left|by right].
Qed.

(** The breakpoint the VM is at, if any. *)
Definition breaks (d : AivmDebugger) (s : AivmVm) : bool := has_breakpoint d (instruction_pointer s).

(** Why a continued VM stopped in [s']: [k] steps of at most [budget] were taken. *)
Definition stop_reason (st : AivmDebuggerStatus) (budget k : nat) (d : AivmDebugger) (s' : AivmVm) : Prop :=
  match st with
  | AIVM_DEBUGGER_ERR_HALTED => status s' = AIVM_VM_STATUS_HALTED
  | AIVM_DEBUGGER_ERR_VM => status s' = AIVM_VM_STATUS_ERROR
  | AIVM_DEBUGGER_OK => stopped s' = false /\ breaks d s' = true
  | AIVM_DEBUGGER_ERR_STEP_LIMIT => stopped s' = false /\ breaks d s' = false /\ k = budget
  | _ => False
  end.

(** The states passed on the way. *)
Definition passed (k : nat) (d : AivmDebugger) (s : AivmVm) : Prop := forall j sj,
  (j < k)%nat -> take_steps j s = Next sj -> stopped sj = false /\ breaks d sj = false.

Lemma passed_more k d s s1 d1 : stopped s = false -> breaks d s = false -> aivm_step exec s = Next s1 -> breakpoints d1 = breakpoints d ->
  passed k d1 s1 -> passed (S k) d s.
Proof.
  intros Hs Hb Hst E Hp [|j] sj Hj; cbn [take_steps]; [intros [= <-]; done|]. rewrite Hst. intros Ht.
  destruct (Hp j sj ltac:(lia) Ht) as [H1 H2]. split; [done|]. unfold breaks, has_breakpoint in *. by rewrite <- E.
Qed.

Lemma at_breakpoint_breaks d s : dbg_vm d = Some s -> at_breakpoint d = breaks d s.
Proof. unfold at_breakpoint. by intros ->. Qed.

Lemma stepped_breaks k d d' s : stepped k d d' -> breaks d' s = breaks d s.
Proof. intros (a & b & _ & _ & _ & E). rewrite E. done. Qed.

Lemma stop_reason_same st budget budget' k k' d d' s : stop_reason st budget k d s -> breaks d' s = breaks d s ->
  (k = budget -> k' = budget') -> stop_reason st budget' k' d' s.
Proof. unfold stop_reason. intros H -> Hk. destruct st; try done. destruct H as (? & ? & ?). auto. Qed.

Lemma continue_loop_spec budget : forall out d s st d' out', is_size (executed_step_count d) -> dbg_vm d = Some s ->
  at_rest d = false -> stopped s = false -> breaks d s = false ->
  continue_loop exec argc budget out d = Answer st d' out' ->
  exists k s', stepped k d d' /\ dbg_vm d' = Some s' /\ (k <= budget)%nat /\ passed k d s /\ stop_reason st budget k d s' /\
    match out' with None => out = None | Some snap => snapshot_of argc d' = Some snap end.
Proof.
  induction budget as [|budget IH]; intros out d s st d' out' Hc Hv Hr Hs Hb; cbn [continue_loop].
  { intros (-> & -> & Ho)%capture_inv. exists 0%nat, s. split_and!; try done; [by eapply stepped_state, stepped_refl|]. intros j sj Hj. lia. }
  intros (d1 & Hst & Hk & Hd1)%step_vm_inv. destruct (stepped_vm _ _ _ Hst) as [s1 Hv1].
  assert (Hs1 : aivm_step exec s = Next s1).
  { destruct Hst as (a & b & Ha & Hb' & Ht & _). rewrite Hv in Ha. rewrite Hv1 in Hb'. injection Ha as <-. injection Hb' as <-.
    cbn [take_steps] in Ht. by destruct (aivm_step exec s). }
  assert (Hr1 : at_rest d1 = false) by (unfold at_rest in *; by rewrite Hd1).
  destruct (sync_running d1 s1 Hv1 Hr1) as (Er & En & Et). rewrite Er in Hk.
  assert (Hp1 : passed 1 d s). { intros [|j] sj Hj; [|lia]. cbn [take_steps]. by intros [= <-]. }
  destruct (stopped s1) eqn:Es1.
  { apply capture_inv in Hk as (-> & -> & Ho). exists 1%nat, s1. split_and!; try done; [by apply stepped_sync| |lia|].
    - destruct (sync_is d1) as [x ->]. done.
    - destruct (Et eq_refl) as [[-> E]|[-> E]]; done. }
  rewrite En in Hk by done. rewrite (at_breakpoint_breaks d1 s1) in Hk by done. rewrite (stepped_breaks _ _ _ _ Hst) in Hk.
  destruct (breaks d s1) eqn:Eb.
  { apply capture_inv in Hk as (-> & -> & Ho). exists 1%nat, s1. split_and!; try done; [by apply stepped_state|lia]. }
  destruct (IH _ _ _ _ _ _ (stepped_size _ _ _ Hst) Hv1 Hr1 Es1 ltac:(by rewrite (stepped_breaks _ _ _ _ Hst)) Hk)
    as (k & s' & H1 & H2 & H3 & H4 & H5 & H6).
  exists (S k), s'. split_and!; try done; [by change (S k) with (1 + k)%nat; eapply stepped_trans|lia| |].
  - apply (passed_more k d s s1 d1); try done. destruct Hst as (? & ? & _ & _ & _ & E). by rewrite E.
  - eapply stop_reason_same; [exact H5|by rewrite (stepped_breaks _ _ _ _ Hst)|lia].
Qed.

Lemma continue_inv d n out s st d' out' : is_size (executed_step_count d) -> dbg_vm d = Some s ->
  aivm_debugger_continue exec argc n out d = Answer st d' out' -> exists k, stepped k d d'.
Proof.
  intros Hc Hv. unfold aivm_debugger_continue. assert (H0 : stepped 0 d d) by by eapply stepped_refl.
  destruct (bool_decide _ || _); [intros [= <- <- <-]; by exists 0%nat|].
  destruct (at_rest (sync_state d)) eqn:Er; [intros (-> & -> & _)%capture_inv; exists 0%nat; by apply stepped_sync|].
  destruct (at_breakpoint (sync_state d)) eqn:Eb; [intros (-> & -> & _)%capture_inv; exists 0%nat; by apply stepped_state, stepped_sync|].
  set (d1 := set_dbg_state _ _). assert (Hd1 : stepped 0 d d1) by by apply stepped_state, stepped_sync.
  assert (Hv1 : dbg_vm d1 = Some s) by (unfold d1; destruct (sync_is d) as [x ->]; done).
  assert (Hs1 : stopped s = false).
  { unfold sync_state in Er. rewrite Hv in Er. unfold stopped. by destruct (status s). }
  assert (Hb1 : breaks d1 s = false).
  { rewrite (at_breakpoint_breaks _ s) in Eb; [done|]. by destruct (sync_is d) as [x ->]. }
  intros Hk. destruct (continue_loop_spec _ _ _ s _ _ _ (stepped_size _ _ _ Hd1) Hv1 eq_refl Hs1 Hb1 Hk) as (k & s' & Hst & _).
  exists (0 + k)%nat. by eapply stepped_trans.
Qed.

(** A command that only changes the breakpoints, the mappings or a counter of the debugger. *)
Lemma kept_vm d d' s : debugger_ok d -> dbg_vm d = Some s -> dbg_vm d' = dbg_vm d -> executed_step_count d' = executed_step_count d ->
  exists k s', take_steps k s = Next s' /\ dbg_vm d' = Some s' /\ executed_step_count d' = u64 (executed_step_count d + Z.of_nat k).
Proof. intros Hok Hv E1 E2. exists 0%nat, s. rewrite E1, E2, Z.add_0_r, u64_same by apply Hok. done. Qed.

Lemma stepped_out k d d' s : dbg_vm d = Some s -> stepped k d d' ->
  exists k s', take_steps k s = Next s' /\ dbg_vm d' = Some s' /\ executed_step_count d' = u64 (executed_step_count d + Z.of_nat k).
Proof. intros Hv (a & b & Ha & Hb & Ht & E). rewrite Hv in Ha. injection Ha as <-. exists k, b. split_and!; try done. by rewrite E. Qed.

Lemma break_pc_vm pc d : dbg_vm (aivm_debugger_break_pc pc d).2 = dbg_vm d /\
  executed_step_count (aivm_debugger_break_pc pc d).2 = executed_step_count d.
Proof. unfold aivm_debugger_break_pc. repeat case_match; done. Qed.

Lemma plain_inv c out d st d' out' : debugger_ok d -> match c with Pause | Step | StepOver _ | StepOut _ | Continue _ | Inspect _ => False | _ => True end ->
  run_command c out d = Answer st d' out' -> debugger_ok d' /\ dbg_vm d' = dbg_vm d /\ executed_step_count d' = executed_step_count d.
Proof.
  intros Hok Hc. pose proof Hok as [H1 H2 H3 H4 H5]. destruct c; try done; cbn [run_command].
  - intros [= _ <- _]. destruct (break_pc_vm pc d). by split; [apply break_pc_ok|].
  - unfold aivm_debugger_register_function. pose proof (register_ok _ d name pc H3) as Hr.
    destruct (register_mapping _ _ _ _) as [st1 m]. intros [= _ <- _]. split; [by split|done].
  - unfold aivm_debugger_register_node. pose proof (register_ok _ d node_id pc H4) as Hr.
    destruct (register_mapping _ _ _ _) as [st1 m]. intros [= _ <- _]. split; [by split|done].
  - unfold aivm_debugger_break_function. destruct (find_mapping _ _) as [pc|]; intros [= _ <- _]; [|done].
    destruct (break_pc_vm pc d). by split; [apply break_pc_ok|].
  - unfold aivm_debugger_break_node. destruct (find_mapping _ _) as [pc|]; intros [= _ <- _]; [|done].
    destruct (break_pc_vm pc d). by split; [apply break_pc_ok|].
  - intros [= _ <- _]. split; [|done]. split; try done. constructor.
  - intros [= _ <- _]. split; [by split|done].
Qed.

Lemma driving_inv c out d s st d' out' : is_size (executed_step_count d) -> dbg_vm d = Some s ->
  match c with Pause | Step | StepOver _ | StepOut _ | Continue _ | Inspect _ => True | _ => False end ->
  run_command c out d = Answer st d' out' -> exists k, stepped k d d'.
Proof.
  intros Hsz Hv Hc. assert (H0 : stepped 0 d d) by by eapply stepped_refl. destruct c; try done; cbn [run_command].
  - unfold aivm_debugger_pause. rewrite Hv. intros (_ & -> & _)%capture_inv. exists 0%nat.
    destruct (at_rest _); [by apply stepped_sync|by apply stepped_state, stepped_sync].
  - intros Hs. destruct (step_inv _ _ _ _ _ _ Hsz Hv Hs) as (k & _ & ?). by exists k.
  - by apply (step_over_inv _ _ _ s).
  - unfold aivm_debugger_step_out. destruct (bool_decide _ || _); [intros [= <- <- <-]; by exists 0%nat|].
    destruct (_ =? 0); [by apply (step_over_inv _ _ _ s)|].
    intros Hw. destruct (step_while_inv _ _ _ _ _ _ _ _ Hsz Hv Hw) as (k & _ & ?). by exists k.
  - by apply (continue_inv _ _ _ s).
  - unfold aivm_debugger_inspect. rewrite Hv. destruct (_ || _); [intros [= <- <- <-]; by exists 0%nat|].
    intros (_ & -> & _)%capture_inv. exists 0%nat. by apply stepped_sync.
Qed.

Lemma command_inv c out d s st d' out' : debugger_ok d -> dbg_vm d = Some s -> run_command c out d = Answer st d' out' ->
  debugger_ok d' /\ exists k s', take_steps k s = Next s' /\ dbg_vm d' = Some s' /\
    executed_step_count d' = u64 (executed_step_count d + Z.of_nat k).
Proof.
  intros Hok Hv Hc.
  assert (match c with Pause | Step | StepOver _ | StepOut _ | Continue _ | Inspect _ => False | _ => True end \/
          match c with Pause | Step | StepOver _ | StepOut _ | Continue _ | Inspect _ => True | _ => False end) as [Hk|Hk]
    by (destruct c; tauto).
  - destruct (plain_inv _ _ _ _ _ _ Hok Hk Hc) as (H1 & H2 & H3). split; [done|]. by apply kept_vm.
  - destruct (driving_inv _ _ _ _ _ _ _ (do_count _ Hok) Hv Hk Hc) as [k Hs]. split; [by eapply stepped_ok|by eapply stepped_out].
Qed.

(** C34: Debugging does not disturb the program: whatever commands a session issues (breakpoints,
    registrations, pauses, inspections, steps, steps over and out, continues with any budget),
    the VM afterwards is the one that a number of ordinary steps of the interpreter produce, the
    step counter is that number, and the debugger's tables keep their bounds: at most 128
    different breakpoints, at most 128 mappings of each kind with names of at most 127 bytes. *)
Theorem debugger_session_transparent cs s st0 out st d' out' :
  run_session cs st0 out (aivm_debugger_init (Some s)) = Answer st d' out' ->
  debugger_ok d' /\ exists k s', take_steps k s = Next s' /\ dbg_vm d' = Some s' /\ executed_step_count d' = u64 (Z.of_nat k).
Proof.
  assert (G : forall cs d s st0 out, debugger_ok d -> dbg_vm d = Some s -> run_session cs st0 out d = Answer st d' out' ->
    debugger_ok d' /\ exists k s', take_steps k s = Next s' /\ dbg_vm d' = Some s' /\
      executed_step_count d' = u64 (executed_step_count d + Z.of_nat k)).
  { clear. induction cs as [|c cs IH]; intros d s st0 out Hok Hv; cbn [run_session].
    { intros [= _ <- _]. split; [done|]. by apply kept_vm. }
    destruct (run_command c out d) as [st1 d1 out1| |] eqn:E; [|done|done]. intros Hr.
    destruct (command_inv _ _ _ _ _ _ _ Hok Hv E) as (Hok1 & k & s1 & Ht & Hv1 & Hc1).
    destruct (IH _ _ _ _ Hok1 Hv1 Hr) as (Hok2 & k2 & s2 & Ht2 & Hv2 & Hc2). split; [done|]. exists (k + k2)%nat, s2.
    split_and!; [by rewrite (take_steps_app _ _ _ s1)|done|]. rewrite Hc2, Hc1. unfold u64. rewrite Zplus_mod_idemp_l. f_equal. lia. }
  intros Hr. destruct (sync_is (mk_debugger (Some s) AIVM_DEBUGGER_STATE_READY [] [] [] 0 0)) as [x Hx].
  destruct (G cs (aivm_debugger_init (Some s)) s st0 out) as (H1 & k & s' & H2 & H3 & H4); unfold aivm_debugger_init in *; rewrite Hx in *; try done.
  - split; cbn; try done; constructor.
  - split; [done|]. by exists k, s'.
Qed.

(** C35: [aivm_debugger_continue] from a VM that runs and is at no breakpoint stops at the first
    state, after at least one step and within the budget, in which the VM has halted, has failed
    or is at a breakpoint, and says which; none of the states passed before is such a state.
    It reports the step limit exactly when the budget is used up without one, and the snapshot
    describes the state it stopped in. *)
Theorem continue_stops_first d s n out st d' out' :
  is_size (executed_step_count d) -> dbg_vm d = Some s -> at_rest d = false -> stopped s = false -> breaks d s = false -> 0 < n ->
  aivm_debugger_continue exec argc n out d = Answer st d' out' ->
  exists k s', (1 <= k <= Z.to_nat n)%nat /\ take_steps k s = Next s' /\ dbg_vm d' = Some s' /\ passed k d s /\
    stop_reason st (Z.to_nat n) k d s' /\
    match out' with None => out = None | Some snap => snapshot_of argc d' = Some snap end.
Proof.
  intros Hc Hv Hr Hs Hb Hn. unfold aivm_debugger_continue. rewrite Hv. case_bool_decide; [done|]. cbn [orb].
  rewrite (proj2 (Z.eqb_neq n 0)) by lia. destruct (sync_running d s Hv Hr) as (Er & En & _). rewrite Er, Hs, En by done.
  rewrite (at_breakpoint_breaks d s Hv), Hb. set (d1 := set_dbg_state _ d). intros Hk.
  destruct (continue_loop_spec _ _ d1 s _ _ _ Hc Hv eq_refl Hs Hb Hk) as (k & s' & H1 & H2 & H3 & H4 & H5 & H6).
  destruct H1 as (a & b & Ha & Hb' & Ht & _). change (dbg_vm d1) with (dbg_vm d) in Ha. rewrite Hv in Ha. injection Ha as <-.
  rewrite H2 in Hb'. injection Hb' as <-.
  exists k, s'. split_and!; try done. destruct k; [|lia]. injection Ht as <-. destruct st; cbn in H5; try done.
  - destruct H5 as [_ H5]. unfold breaks, has_breakpoint in *. cbn in H5. congruence.
  - destruct H5 as (_ & _ & H5). lia.
  - unfold stopped in Hs. rewrite H5 in Hs. done.
  - unfold stopped in Hs. rewrite H5 in Hs. done.
Qed.

End Sessions.

(** ** Examples *)

(** What an answer says. *)
Definition reads (a : answer) : option (AivmDebuggerStatus * option Z * Z) :=
  match a with
  | Answer st d out => Some (st, snap_pc <$> out, executed_step_count d)
  | _ => None
  end.

Definition blank_snapshot : AivmDebuggerSnapshot :=
  mk_snapshot 0 0 0 0 0 0 0 0 0 0 0 0 0 AIVM_VM_STATUS_READY AIVM_VM_ERR_NONE AIVM_DEBUGGER_STATE_READY.

(** A breakpoint at the function of the example program, then the rest of it. *)
Definition example_session : list command :=
  [RegisterFunction (Some (bytes_of_string "worker")) 3; BreakFunction (Some (bytes_of_string "worker")); Continue 16; StepOut 16].

Example session_runs :
  reads (run_session example_exec 0 example_session AIVM_DEBUGGER_OK (Some blank_snapshot) (aivm_debugger_init (Some example_start)))
  = Some (AIVM_DEBUGGER_OK, Some 3, 7).
Proof. vm_compute. reflexivity. Qed.

Lemma debugger_session_transparent_witness : exists d' k s', debugger_ok d' /\ take_steps example_exec k example_start = Next s' /\
  dbg_vm d' = Some s' /\ u64 (Z.of_nat k) = 7.
Proof.
  pose proof session_runs as Hr.
  destruct (run_session example_exec 0 example_session AIVM_DEBUGGER_OK (Some blank_snapshot) (aivm_debugger_init (Some example_start)))
    as [st d' out'| |] eqn:E; [|done|done]. injection Hr as _ _ Hc.
  destruct (debugger_session_transparent _ _ _ _ _ _ _ _ _ E) as (Hok & k & s' & Ht & Hv & Hk).
  exists d', k, s'. split; [exact Hok|]. split; [exact Ht|]. split; [exact Hv|]. congruence.
Defined.

Definition broken_debugger : AivmDebugger := (aivm_debugger_break_pc 3 (aivm_debugger_init (Some example_start))).2.

Lemma continue_stops_first_witness : exists k s', take_steps example_exec k example_start = Next s' /\
  stopped s' = false /\ instruction_pointer s' = 3.
Proof.
  assert (Hr : reads (aivm_debugger_continue example_exec 0 16 (Some blank_snapshot) broken_debugger) = Some (AIVM_DEBUGGER_OK, Some 3, 2))
    by (vm_compute; reflexivity).
  destruct (aivm_debugger_continue example_exec 0 16 (Some blank_snapshot) broken_debugger) as [st d' out'| |] eqn:E; [|done|done].
  injection Hr as Hst Hpc _. destruct out' as [snap|]; [|done]. subst st.
  destruct (continue_stops_first example_exec 0 broken_debugger example_start 16 (Some blank_snapshot) AIVM_DEBUGGER_OK d' (Some snap))
    as (k & s' & _ & Ht & _ & _ & [Hs Hb] & _); [done..|vm_compute; reflexivity|vm_compute; reflexivity|done|exact E|].
  exists k, s'. split; [exact Ht|]. split; [exact Hs|].
  apply has_breakpoint_elem in Hb. change (breakpoints broken_debugger) with [3] in Hb. by apply list_elem_of_singleton in Hb.
Defined.
