(* ===== verification/Compiler.v ===== *)
(** * The compiler from source text to bytecode (src/src/ailang_cli/ailang.c)

    The functions simple_*: expressions, statements and functions of AiLang are compiled
    straight from the ranges of the source text into an [AivmProgram].  A compilation
    threads the context and stops at the first failure, whose message is the last one
    that was set on the way out. *)

From S2P Require Import Prelude Types NumberText Program ProgramWriter AosText Vm.
From Stdlib Require Import SpecFloat.

Local Open Scope aivm_scope.

(** ** The context *)

Definition SIMPLE_MAX_SOURCES : Z := 256.
Definition SIMPLE_MAX_FUNCS : Z := 1024.
Definition SIMPLE_MAX_FIXUPS : Z := 2048.
Definition SIMPLE_MAX_LOCALS : Z := 1024.
Definition SIMPLE_MAX_LOOP_DEPTH : Z := 128.
Definition SIMPLE_MAX_LOOP_FIXUPS : Z := 1024.
Definition AIVM_PROGRAM_MAX_INSTRUCTIONS : Z := AIVM_PROGRAM_INLINE_INSTRUCTIONS.

Record SimpleSource := mk_source { source_path : list Z; source_text : list Z }.

Record SimpleFnDef := mk_fn {
  fn_name : list Z; params_raw : list Z; fn_body : list Z; source_index : Z;
  compiled : bool; compiling : bool; entry_ip : Z }.

Record SimpleCallFixup := mk_fixup { fixup_instruction : Z; fixup_target : list Z }.

Record SimpleLoopFrame := mk_loop { start_ip : Z; break_sites : list Z; continue_sites : list Z }.

(** [SimpleCompileContext] with the [SimpleLocals] of the function that is compiled;
    a local is a name and a slot.  The loop that is innermost comes first. *)
Record SimpleCompileContext := mk_context {
  ctx_program : AivmProgram; sources : list SimpleSource; funcs : list SimpleFnDef;
  fixups : list SimpleCallFixup; loop_frames : list SimpleLoopFrame; entry_export : list Z;
  ctx_locals : list (list Z * Z) }.

Definition set_program (p : AivmProgram) (c : SimpleCompileContext) : SimpleCompileContext :=
  mk_context p (sources c) (funcs c) (fixups c) (loop_frames c) (entry_export c) (ctx_locals c).
Definition set_sources (x : list SimpleSource) (c : SimpleCompileContext) : SimpleCompileContext :=
  mk_context (ctx_program c) x (funcs c) (fixups c) (loop_frames c) (entry_export c) (ctx_locals c).
Definition set_funcs (x : list SimpleFnDef) (c : SimpleCompileContext) : SimpleCompileContext :=
  mk_context (ctx_program c) (sources c) x (fixups c) (loop_frames c) (entry_export c) (ctx_locals c).
Definition set_fixups (x : list SimpleCallFixup) (c : SimpleCompileContext) : SimpleCompileContext :=
  mk_context (ctx_program c) (sources c) (funcs c) x (loop_frames c) (entry_export c) (ctx_locals c).
Definition set_loop_frames (x : list SimpleLoopFrame) (c : SimpleCompileContext) : SimpleCompileContext :=
  mk_context (ctx_program c) (sources c) (funcs c) (fixups c) x (entry_export c) (ctx_locals c).
Definition set_entry_export (x : list Z) (c : SimpleCompileContext) : SimpleCompileContext :=
  mk_context (ctx_program c) (sources c) (funcs c) (fixups c) (loop_frames c) x (ctx_locals c).
Definition set_locals (x : list (list Z * Z)) (c : SimpleCompileContext) : SimpleCompileContext :=
  mk_context (ctx_program c) (sources c) (funcs c) (fixups c) (loop_frames c) (entry_export c) x.

(** ** Compilations *)

(** [g_simple_last_error]: a format and its arguments. *)
Inductive message_arg := MText (text : list Z) | MNum (z : Z).
Definition message : Type := string * list message_arg.

(** [Done] is a return of 1, [Failed] one of 0 with the message that was set, [Wrong] an
    access outside an array. *)
Inductive compilation (A : Type) :=
  | Done (a : A) (c : SimpleCompileContext)
  | Failed (last_error : option message)
  | Wrong.
Arguments Done {A} a c.
Arguments Failed {A} last_error.
Arguments Wrong {A}.

Definition C (A : Type) : Type := SimpleCompileContext -> compilation A.

Definition ret {A} (a : A) : C A := Done a.
Definition bindC {A B} (x : C A) (f : A -> C B) : C B := fun c =>
  match x c with Done a c' => f a c' | Failed m => Failed m | Wrong => Wrong end.
Notation "'get!' x := e 'in' f" := (bindC e (fun x => f)) (at level 10, x pattern, f at level 200) : aivm_scope.
Notation "'run!' e 'in' f" := (bindC e (fun _ => f)) (at level 10, f at level 200) : aivm_scope.

Definition getC : C SimpleCompileContext := fun c => Done c c.
Definition modifyC (f : SimpleCompileContext -> SimpleCompileContext) : C unit := fun c => Done tt (f c).
Definition wrong {A} : C A := fun _ => Wrong.

(** A return of 0 that sets no message. *)
Definition quiet {A} : C A := fun _ => Failed None.

Definition simple_failf {A} (fmt : string) (args : list message_arg) : C A := fun _ => Failed (Some (fmt, args)).
Definition simple_fail {A} (text : string) : C A := simple_failf text [].

(** [if (!x) return simple_fail(m);] *)
Definition or_fail {A} (x : C A) (fmt : string) (args : list message_arg) : C A := fun c =>
  match x c with Failed _ => Failed (Some (fmt, args)) | r => r end.

(** The value of a search, or a failure. *)
Definition some_or {A} (x : option A) (e : C A) : C A := match x with Some a => ret a | None => e end.

(** [a[count]] is an element of an array of [capacity] elements, of which [used] are in
    use: what is stored there does not leave the array. *)
Definition in_array {A} (capacity : Z) (used : list A) : C unit := if zlen used <? capacity then ret tt else wrong.

(** ** Emitting instructions and constants *)

Definition simple_emit_instruction (op : AivmOpcode) (operand : Z) : C unit := fun c =>
  let p := ctx_program c in
  if AIVM_PROGRAM_MAX_INSTRUCTIONS <=? instruction_count p
  then simple_fail "emit instruction: instruction capacity exceeded" c
  else match write_instruction p (instruction_count p) (mk_instruction op operand) with
       | Some p' => Done tt (set_program (set_instructions (instruction_store p') (instruction_count p + 1) (instruction_capacity p') p') c)
       | None => Wrong
       end.

(** [program->instruction_storage[ip].operand_int = operand] *)
Definition patch_operand (ip operand : Z) : C unit := fun c =>
  let p := ctx_program c in
  match zget (instruction_store p) ip with
  | Some i => Done tt (set_program (set_instructions (zset (instruction_store p) ip (mk_instruction (opcode i) operand))
                                      (instruction_count p) (instruction_capacity p) p) c)
  | None => Wrong
  end.

Definition current_ip : C Z := get! c := getC in ret (instruction_count (ctx_program c)).

(** [constant_storage[constant_count] = v; constant_count += 1] *)
Definition push_constant (v : AivmValue) : C unit := fun c =>
  let p := ctx_program c in
  match write_constant p (constant_count p) v with
  | Some p' => Done tt (set_program (set_constants (constant_store p') (constant_count p + 1) (constant_capacity p') p') c)
  | None => Wrong
  end.

(** The index of the first constant with a property. *)
Definition find_constant (f : AivmValue -> bool) (p : AivmProgram) : option Z :=
  match list_find (fun v => f v = true) (take (Z.to_nat (constant_count p)) (constant_store p)) with
  | Some (i, _) => Some (Z.of_nat i)
  | None => None
  end.

Definition is_text_constant (p : AivmProgram) (value : list Z) (v : AivmValue) : bool :=
  match v with
  | VString s => negb (bool_decide (s = SNull)) && bool_decide (constant_text p s = Some value)
  | _ => false
  end.

Definition simple_add_string_const (value : list Z) : C Z :=
  get! c := getC in
  let p := ctx_program c in
  match find_constant (is_text_constant p value) p with
  | Some i => ret i
  | None =>
      if AIVM_PROGRAM_INLINE_CONSTANTS <=? constant_count p then simple_fail "add string const: constant capacity exceeded"
      else if AIVM_PROGRAM_MAX_STRING_BYTES <? zlen (string_storage p) + zlen value + 1
      then simple_fail "add string const: string storage exceeded"
      else
        run! modifyC (set_program (set_storage (string_storage p ++ value ++ [0]) (bytes_storage p) p)) in
        run! push_constant (VString (SProgram (zlen (string_storage p)))) in
        ret (constant_count p)
  end.

Definition is_number_constant (value : spec_float) (v : AivmValue) : bool :=
  match v with VNumber d => SFeqb d value | _ => false end.

Definition simple_add_number_const (value : spec_float) : C Z :=
  get! c := getC in
  let p := ctx_program c in
  match find_constant (is_number_constant value) p with
  | Some i => ret i
  | None =>
      if AIVM_PROGRAM_INLINE_CONSTANTS <=? constant_count p then simple_fail "add number const: constant capacity exceeded"
      else run! push_constant (VNumber value) in ret (constant_count p)
  end.

Definition simple_add_void_const : C Z :=
  get! c := getC in
  let p := ctx_program c in
  match find_constant (fun v => bool_decide (v = VVoid)) p with
  | Some i => ret i
  | None =>
      if AIVM_PROGRAM_INLINE_CONSTANTS <=? constant_count p then simple_fail "add void const: constant capacity exceeded"
      else run! push_constant VVoid in ret (constant_count p)
  end.

Definition simple_emit_empty_string_const : C unit :=
  get! idx := or_fail (simple_add_string_const []) "failed adding empty string const" [] in
  simple_emit_instruction AIVM_OP_CONST idx.

Definition simple_emit_void_const : C unit :=
  get! idx := or_fail simple_add_void_const "failed adding void const" [] in
  simple_emit_instruction AIVM_OP_CONST idx.

(** ** Names *)

(** The position of a name among the locals ([simple_lookup_local]). *)
Definition local_position (name : list Z) (locals : list (list Z * Z)) : option Z :=
  match list_find (fun l => l.1 = name) locals with Some (i, _) => Some (Z.of_nat i) | None => None end.

(** [simple_lookup_local] with [create_if_missing]: at most 256 locals. *)
Definition simple_lookup_local (name : list Z) (create_if_missing : bool) : C Z :=
  get! c := getC in
  match local_position name (ctx_locals c) with
  | Some i => ret i
  | None =>
      if negb create_if_missing || (256 <=? zlen (ctx_locals c)) then quiet
      else if 64 <=? zlen name then quiet
      else
        run! in_array 256 (ctx_locals c) in
        run! modifyC (set_locals (ctx_locals c ++ [(name, zlen (ctx_locals c))])) in ret (zlen (ctx_locals c))
  end.

Definition simple_locals_lookup (name : list Z) (create_if_missing : bool) : C Z :=
  get! c := getC in
  match list_find (fun l => l.1 = name) (ctx_locals c) with
  | Some (_, l) => ret l.2
  | None =>
      let count := zlen (ctx_locals c) in
      if negb create_if_missing then quiet
      else if SIMPLE_MAX_LOCALS <=? count
      then simple_failf "local table capacity exceeded (name=%s max=%d)" [MText name; MNum SIMPLE_MAX_LOCALS]
      else if AIVM_VM_LOCALS_CAPACITY <=? count
      then simple_failf "vm local slot capacity exceeded (name=%s max=%d)" [MText name; MNum AIVM_VM_LOCALS_CAPACITY]
      else if 64 <=? zlen name then simple_failf "local name too long: %s" [MText name]
      else
        run! in_array SIMPLE_MAX_LOCALS (ctx_locals c) in
        run! modifyC (set_locals (ctx_locals c ++ [(name, count)])) in ret count
  end.

Definition simple_find_func (name : list Z) (c : SimpleCompileContext) : option Z :=
  match list_find (fun f => fn_name f = name) (funcs c) with Some (i, _) => Some (Z.of_nat i) | None => None end.

Definition simple_add_func (name params body : list Z) (index : Z) : C unit :=
  get! c := getC in
  if SIMPLE_MAX_FUNCS <=? zlen (funcs c) then quiet
  else if bool_decide (is_Some (simple_find_func name c)) then ret tt
  else if (64 <=? zlen name) || (256 <=? zlen params) then quiet
  else
    run! in_array SIMPLE_MAX_FUNCS (funcs c) in
    modifyC (set_funcs (funcs c ++ [mk_fn name params body index false false 0])).

(** One parameter: up to a comma, without the spaces around it. *)
Definition trim_right (f : Z -> bool) (text : list Z) : list Z := rev (drop_while f (rev text)).

Definition tab_space (c : Z) : bool := (c =? 32) || (c =? 9).

Fixpoint split_params_loop (fuel : nat) (p : list Z) (out_params : list (list Z)) : option (list (list Z)) :=
  match fuel with
  | O => Some out_params
  | S fuel' =>
      let start := drop_while (fun c => tab_space c || (c =? 44)) p in
      match start with
      | [] => Some out_params
      | _ =>
          let param := trim_right tab_space (take_while (fun c => negb (c =? 44)) start) in
          let rest := zdrop 1 (drop_while (fun c => negb (c =? 44)) start) in
          match param with
          | [] => split_params_loop fuel' rest out_params
          | _ =>
              if (SIMPLE_MAX_LOCALS <=? zlen out_params) || (64 <? zlen param + 1) then None
              else split_params_loop fuel' rest (out_params ++ [param])
          end
      end
  end.

(** Every round reads a character. *)
Definition simple_split_params (raw : list Z) : option (list (list Z)) := split_params_loop (S (length raw)) raw [].

Definition simple_param_count (raw : list Z) : option Z := zlen <$> simple_split_params raw.

Definition simple_add_fixup (instruction : Z) (target : list Z) : C unit :=
  get! c := getC in
  if SIMPLE_MAX_FIXUPS <=? zlen (fixups c) then quiet
  else if 64 <=? zlen target then quiet
  else
    run! in_array SIMPLE_MAX_FIXUPS (fixups c) in
    modifyC (set_fixups (fixups c ++ [mk_fixup instruction target])).

(** Nodes one after the other: [parse(body_start, &a) && parse(a.next, &b) && ...]. *)
Fixpoint parse_nodes (n : nat) (range : list Z) : option (list SimpleNodeView) :=
  match n with
  | O => Some []
  | S n' => v ← simple_parse_next_node range; rest ← parse_nodes n' (next v); Some (v :: rest)
  end.

Definition kind_is (node : SimpleNodeView) (name : string) : bool := bool_decide (kind node = byte_str name).
Definition kind_in (node : SimpleNodeView) (names : list string) : bool := existsb (kind_is node) names.
Definition kind_starts (node : SimpleNodeView) (name : string) : bool := starts_with (kind node) (byte_str name).

(** ** Expressions without a context ([simple_compile_expr_node]) *)

Definition compile_literal (node : SimpleNodeView) : C unit :=
  let key := byte_str "value" in
  let quoted := parse_attr_value_is_quoted (attrs node) key in
  get! value := some_or (parse_attr_span (attrs node) key 4096) (simple_fail "lit missing value") in
  let text_literal :=
    get! text := some_or (unescape_string value 4096)
      (simple_failf "string literal decode failed: raw=%s attrs=%s" [MText value; MText (attrs node)]) in
    get! idx := simple_add_string_const text in
    simple_emit_instruction AIVM_OP_CONST idx in
  if negb quoted && bool_decide (value = byte_str "true" \/ value = byte_str "false")
  then simple_emit_instruction AIVM_OP_PUSH_BOOL (if bool_decide (value = byte_str "true") then 1 else 0)
  else if negb quoted && bool_decide (value = byte_str "null") then
    get! c := getC in
    if AIVM_PROGRAM_INLINE_CONSTANTS <=? constant_count (ctx_program c)
    then simple_fail "lit null constant capacity exceeded"
    else run! simple_emit_instruction AIVM_OP_CONST (constant_count (ctx_program c)) in push_constant VNull
  else if negb quoted then
    match strtoll value with
    | Some parsed => simple_emit_instruction AIVM_OP_PUSH_INT parsed
    | None =>
        match strchr value 46, strtod value with
        | Some _, Some number =>
            get! idx := simple_add_number_const number in
            simple_emit_instruction AIVM_OP_CONST idx
        | _, _ => text_literal
        end
    end
  else text_literal.

Definition arithmetic_opcode (node : SimpleNodeView) : AivmOpcode :=
  if kind_is node "Add" then AIVM_OP_ADD_INT
  else if kind_is node "Sub" then AIVM_OP_SUB_NUM
  else if kind_is node "Mul" then AIVM_OP_MUL_NUM
  else if kind_is node "Div" then AIVM_OP_DIV_NUM
  else if kind_is node "Mod" then AIVM_OP_MOD_NUM
  else if kind_is node "Pow" then AIVM_OP_POW_NUM
  else if kind_is node "Lt" then AIVM_OP_LT_NUM
  else AIVM_OP_EQ.

(** Expressions one after the other. *)
Fixpoint compile_all (expr : SimpleNodeView -> C unit) (nodes : list SimpleNodeView) : C unit :=
  match nodes with [] => ret tt | v :: rest => run! expr v in compile_all expr rest end.

(** The loop of StrConcat: joined from the second operand on. *)
Fixpoint compile_concat (expr : SimpleNodeView -> C unit) (emit : C unit) (first : bool) (nodes : list SimpleNodeView) : C unit :=
  match nodes with
  | [] => if first then quiet else ret tt
  | v :: rest => run! expr v in run! (if first then ret tt else emit) in compile_concat expr emit false rest
  end.

Definition arithmetic_kinds : list string := ["Add"; "Sub"; "Mul"; "Div"; "Mod"; "Pow"; "Lt"; "Eq"; "ToString"]%string.

Fixpoint simple_compile_expr_node (fuel : nat) (node : SimpleNodeView) : C unit :=
  match fuel with
  | O => wrong
  | S fuel' =>
      let expr := simple_compile_expr_node fuel' in
      if kind_is node "Lit" then compile_literal node
      else if kind_is node "Var" then
        get! name := some_or (parse_attr_span (attrs node) (byte_str "name") 64) (simple_fail "var missing name") in
        get! idx := or_fail (simple_lookup_local name false) "unknown local variable: %s" [MText name] in
        simple_emit_instruction AIVM_OP_LOAD_LOCAL idx
      else if kind_is node "StrConcat" then
        compile_concat expr (simple_emit_instruction AIVM_OP_STR_CONCAT 0) true (views (body node))
      else if kind_is node "StrEscape" then
        get! child := some_or (simple_parse_next_node (body node)) (simple_fail "StrEscape missing arg") in
        run! expr child in simple_emit_instruction AIVM_OP_STR_ESCAPE 0
      else if kind_in node arithmetic_kinds then
        if kind_is node "ToString" then
          run! or_fail (get! child := some_or (simple_parse_next_node (body node)) quiet in expr child)
                 "ToString missing arg" [] in
          simple_emit_instruction AIVM_OP_TO_STRING 0
        else
          run! or_fail (get! args := some_or (parse_nodes 2 (body node)) quiet in compile_all expr args)
                 "%s missing args" [MText (kind node)] in
          simple_emit_instruction (arithmetic_opcode node) 0
      else simple_failf "unsupported expr kind: %s" [MText (kind node)]
  end.

(** ** Expressions, statements and blocks of functions

    The functions call each other on the nodes of a body: [compilers] are the functions
    on nodes that are nested less deep.  A statement and a block tell whether they
    always return. *)
Record compilers := mk_compilers {
  expr : SimpleNodeView -> C unit; stmt : SimpleNodeView -> C bool; block : SimpleNodeView -> C bool }.

Definition simple_compile_var_expr (node : SimpleNodeView) : C unit :=
  get! name := some_or (parse_attr_span (attrs node) (byte_str "name") 64) (simple_fail "var missing name") in
  get! idx := or_fail (simple_locals_lookup name false) "unknown local variable: %s" [MText name] in
  simple_emit_instruction AIVM_OP_LOAD_LOCAL idx.

(** The names of system calls under other names. *)
Definition mapped_target (target : list Z) : list Z :=
  if bool_decide (target = byte_str "io.print" \/ target = byte_str "io.write") then byte_str "sys.stdout.writeLine"
  else if bool_decide (target = byte_str "io.readLine") then byte_str "sys.console.readLine"
  else if bool_decide (target = byte_str "io.readAllStdin") then byte_str "sys.console.readAllStdin"
  else if bool_decide (target = byte_str "io.fileExists") then byte_str "sys.fs.file.exists"
  else if bool_decide (target = byte_str "io.readFile") then byte_str "sys.fs.file.read"
  else if bool_decide (target = byte_str "io.writeFile") then byte_str "sys.fs.file.write"
  else if bool_decide (target = byte_str "io.makeDir") then byte_str "sys.fs.dir.create"
  else target.

Definition is_syscall_target (target : list Z) : bool :=
  starts_with target (byte_str "sys.") ||
  bool_decide (target ∈ [byte_str "io.print"; byte_str "io.write"; byte_str "io.readLine"; byte_str "io.readAllStdin";
    byte_str "io.fileExists"; byte_str "io.readFile"; byte_str "io.writeFile"; byte_str "io.makeDir";
    byte_str "sys.stdout.writeLine"]).

(** At most 32 arguments; their number. *)
Fixpoint compile_call_args (k : compilers) (limit_error : string) (nodes : list SimpleNodeView) (arg_count : Z) : C Z :=
  match nodes with
  | [] => ret arg_count
  | arg :: rest =>
      if 32 <=? arg_count then simple_fail limit_error
      else run! expr k arg in compile_call_args k limit_error rest (arg_count + 1)
  end.

(** CALL with the entry of a compiled function, or to be fixed up later. *)
Definition emit_call (emit_error fixup_error : string) (fn_index : Z) (target : list Z) : C unit :=
  get! call_ip := current_ip in
  run! or_fail (simple_emit_instruction AIVM_OP_CALL 0) emit_error [] in
  get! c := getC in
  match zget (funcs c) fn_index with
  | None => wrong
  | Some f =>
      if compiled f then patch_operand call_ip (entry_ip f)
      else or_fail (simple_add_fixup call_ip target) fixup_error []
  end.

Definition simple_compile_call_ext (k : compilers) (node : SimpleNodeView) (pop_result : bool) : C unit :=
  let limit_error := "call arg count exceeds native compiler limit"%string in
  get! target := some_or (parse_attr_span (attrs node) (byte_str "target") 128) (simple_fail "call missing target") in
  run! (if is_syscall_target target then
    get! idx := or_fail (simple_add_string_const (mapped_target target)) "failed adding syscall target const" [] in
    run! or_fail (simple_emit_instruction AIVM_OP_CONST idx) "failed emitting syscall target const" [] in
    get! arg_count := compile_call_args k limit_error (views (body node)) 0 in
    or_fail (simple_emit_instruction AIVM_OP_CALL_SYS arg_count) "failed emitting CALL_SYS" []
  else
    get! arg_count := compile_call_args k limit_error (views (body node)) 0 in
    get! c := getC in
    get! fn_index := some_or (simple_find_func target c) (simple_failf "unknown function target: %s" [MText target]) in
    get! f := some_or (zget (funcs c) fn_index) wrong in
    get! param_count := some_or (simple_param_count (params_raw f))
      (simple_failf "failed parsing params for target: %s" [MText target]) in
    if negb (arg_count =? param_count)
    then simple_failf "call target %s expects %llu args, got %llu" [MText target; MNum param_count; MNum arg_count]
    else emit_call "failed emitting CALL" "failed storing call fixup" fn_index target) in
  if pop_result then or_fail (simple_emit_instruction AIVM_OP_POP 0) "failed emitting POP" [] else ret tt.

(** [simple_dynamic_candidate_allowed] *)
Fixpoint candidate_loop (fuel : nat) (p name : list Z) : bool :=
  match fuel with
  | O => false
  | S fuel' =>
      match p with
      | [] => false
      | _ =>
          let start := drop_while attr_separator p in
          let candidate := trim_right line_space (take_while (fun c => negb (c =? 44)) start) in
          if bool_decide (candidate = name) then true
          else candidate_loop fuel' (zdrop 1 (drop_while (fun c => negb (c =? 44)) start)) name
      end
  end.

Definition simple_dynamic_candidate_allowed (candidates name : list Z) : bool :=
  match candidates, name with
  | [], _ => true
  | _, [] => false
  | _, _ => candidate_loop (S (length candidates)) candidates name
  end.

(** The branches of a dynamic call: one per function with the right number of
    parameters; the positions of the jumps to the end. *)
Fixpoint dynamic_branches (k : compilers) (candidates : option (list Z)) (args : list SimpleNodeView) (target_slot : Z)
    (indices : list Z) (end_jumps : list Z) : C (list Z) :=
  match indices with
  | [] => ret end_jumps
  | i :: rest =>
      get! c := getC in
      get! f := some_or (zget (funcs c) i) wrong in
      get! param_count := some_or (simple_param_count (params_raw f))
        (simple_failf "failed parsing params for dynamic target: %s" [MText (fn_name f)]) in
      if negb (param_count =? zlen args) then dynamic_branches k candidates args target_slot rest end_jumps
      else if (match candidates with Some list => negb (simple_dynamic_candidate_allowed list (fn_name f)) | None => false end)
      then dynamic_branches k candidates args target_slot rest end_jumps
      else
        run! or_fail
          (get! idx := simple_add_string_const (fn_name f) in
           run! simple_emit_instruction AIVM_OP_LOAD_LOCAL target_slot in
           run! simple_emit_instruction AIVM_OP_CONST idx in
           simple_emit_instruction AIVM_OP_EQ 0)
          "dynamic call target compare emit failed" [] in
        get! jump_false_ip := current_ip in
        run! or_fail (simple_emit_instruction AIVM_OP_JUMP_IF_FALSE 0) "dynamic call branch emit failed" [] in
        run! or_fail (compile_all (expr k) args) "dynamic call argument compile failed" [] in
        run! emit_call "dynamic call CALL emit failed" "dynamic call fixup failed" i (fn_name f) in
        if 128 <=? zlen end_jumps then simple_fail "dynamic call branch capacity exceeded"
        else
          get! jump_ip := current_ip in
          run! in_array 128 end_jumps in
          run! or_fail (simple_emit_instruction AIVM_OP_JUMP 0) "dynamic call end jump emit failed" [] in
          get! here := current_ip in
          run! patch_operand jump_false_ip here in
          dynamic_branches k candidates args target_slot rest (end_jumps ++ [jump_ip])
  end.

Fixpoint patch_all (sites : list Z) (operand : Z) : C unit :=
  match sites with [] => ret tt | ip :: rest => run! patch_operand ip operand in patch_all rest operand end.

Definition simple_compile_dynamic_call_ext (k : compilers) (node : SimpleNodeView) : C unit :=
  let candidates := parse_attr_span (attrs node) (byte_str "candidates") 512 in
  get! target_expr := some_or (simple_parse_next_node (body node)) (simple_fail "dynamic call missing target expression") in
  let args := views (next target_expr) in
  if 32 <? zlen args then simple_fail "dynamic call arg count exceeds native compiler limit"
  else
    get! c := getC in
    let name := byte_str "__dynamic_target_" ++ u64_text (zlen (ctx_locals c)) in
    get! target_slot := or_fail
      (run! expr k target_expr in
       get! slot := simple_locals_lookup name true in
       run! simple_emit_instruction AIVM_OP_STORE_LOCAL slot in ret slot)
      "dynamic call target compile failed" [] in
    get! c' := getC in
    get! end_jumps := dynamic_branches k candidates args target_slot (map Z.of_nat (seq 0 (length (funcs c')))) [] in
    run! or_fail
      (get! idx := simple_add_string_const (byte_str "sys.dynamic.missingFunction") in
       run! simple_emit_instruction AIVM_OP_CONST idx in
       run! simple_emit_instruction AIVM_OP_LOAD_LOCAL target_slot in
       simple_emit_instruction AIVM_OP_CALL_SYS 1)
      "dynamic call fallback emit failed" [] in
    get! here := current_ip in
    patch_all end_jumps here.

Definition simple_compile_if_expr_ext (k : compilers) (node : SimpleNodeView) : C unit :=
  get! nodes := some_or (parse_nodes 3 (body node)) (simple_fail "if expr shape invalid") in
  match nodes with
  | [cond_node; then_node; else_node] =>
      run! expr k cond_node in
      get! jump_false_ip := current_ip in
      run! or_fail (simple_emit_instruction AIVM_OP_JUMP_IF_FALSE 0) "failed emitting JUMP_IF_FALSE" [] in
      run! expr k then_node in
      get! jump_end_ip := current_ip in
      run! or_fail (simple_emit_instruction AIVM_OP_JUMP 0) "failed emitting JUMP" [] in
      get! else_ip := current_ip in
      run! patch_operand jump_false_ip else_ip in
      run! expr k else_node in
      get! end_ip := current_ip in
      patch_operand jump_end_ip end_ip
  | _ => wrong
  end.

(** [n] operands and an instruction.  Where the operands are missing the message is
    [missing]; in [operands_or] also where one of them does not compile. *)
Definition operands (k : compilers) (n : nat) (node : SimpleNodeView) (op : AivmOpcode) (missing : C (list SimpleNodeView)) : C unit :=
  get! nodes := some_or (parse_nodes n (body node)) missing in
  run! compile_all (expr k) nodes in
  simple_emit_instruction op 0.

Definition operands_or (k : compilers) (n : nat) (node : SimpleNodeView) (op : AivmOpcode) (fmt : string) (args : list message_arg) : C unit :=
  run! or_fail (get! nodes := some_or (parse_nodes n (body node)) quiet in compile_all (expr k) nodes) fmt args in
  simple_emit_instruction op 0.

Definition compile_field (k : compilers) (node : SimpleNodeView) : C unit :=
  get! key := some_or (parse_attr_span (attrs node) (byte_str "key") 256) (simple_fail "field missing key") in
  get! value_node := some_or (simple_parse_next_node (body node)) (simple_fail "field missing value") in
  get! key_idx := simple_add_string_const key in
  run! simple_emit_instruction AIVM_OP_CONST key_idx in
  run! expr k value_node in
  simple_emit_instruction AIVM_OP_MAKE_FIELD_STRING 0.

Fixpoint compile_fields (k : compilers) (nodes : list SimpleNodeView) : C unit :=
  match nodes with
  | [] => ret tt
  | v :: rest =>
      if negb (kind_is v "Field") then simple_failf "map child must be Field, got %s" [MText (kind v)]
      else run! expr k v in compile_fields k rest
  end.

Definition compile_map (k : compilers) (node : SimpleNodeView) : C unit :=
  run! compile_fields k (views (body node)) in
  run! simple_emit_instruction AIVM_OP_PUSH_INT (i64_of_u64 (u64 (zlen (views (body node))))) in
  simple_emit_instruction AIVM_OP_MAKE_MAP 0.

(** A block as an expression: the value of its last node, or an empty text. *)
Fixpoint compile_block_expr (k : compilers) (nodes : list SimpleNodeView) (emitted_value : bool) : C unit :=
  match nodes with
  | [] => if emitted_value then ret tt else simple_emit_empty_string_const
  | [child] =>
      if kind_in child ["Let"; "Return"; "Break"; "Continue"; "Loop"]%string then
        get! did_return := stmt k child in
        if (did_return : bool) then ret tt else simple_emit_empty_string_const
      else expr k child
  | child :: rest =>
      get! did_return := stmt k child in
      if (did_return : bool) then ret tt else compile_block_expr k rest emitted_value
  end.

Definition missing {A} (fmt : string) (node : SimpleNodeView) : C A := simple_failf fmt [MText (kind node)].

(** The unary operations of text and bytes. *)
Definition string_opcode (node : SimpleNodeView) : AivmOpcode :=
  if kind_is node "StringUtf8ByteCount" then AIVM_OP_STR_UTF8_BYTE_COUNT
  else if kind_is node "StringScalarLength" then AIVM_OP_STR_SCALAR_LENGTH
  else if kind_is node "StringFromCodePoint" then AIVM_OP_STR_FROM_CODEPOINT
  else AIVM_OP_STR_DECODE_UNICODE_HEX4.

Definition bytes_opcode (node : SimpleNodeView) : AivmOpcode :=
  if kind_is node "BytesFromUtf8String" then AIVM_OP_BYTES_FROM_UTF8_STRING
  else if kind_is node "BytesToUtf8String" then AIVM_OP_BYTES_TO_UTF8_STRING
  else if kind_is node "BytesFromBase64" then AIVM_OP_BYTES_FROM_BASE64
  else if kind_is node "BytesToBase64" then AIVM_OP_BYTES_TO_BASE64
  else if kind_is node "BytesFromByte" then AIVM_OP_BYTES_FROM_BYTE
  else if kind_is node "BytesU32LE" then AIVM_OP_BYTES_U32_LE
  else AIVM_OP_BYTES_I64_LE.

Definition unary_kinds : list string := ["ToString"; "AttrCount"; "ChildCount"; "ValueKind"; "NodeKind"; "NodeId"]%string.
Definition binary_kinds : list string :=
  ["Add"; "Sub"; "Mul"; "Div"; "Mod"; "Pow"; "Lt"; "Eq"; "AttrKey"; "AttrValueString"; "AttrValueInt"; "AttrValueBool";
   "AttrValueKind"; "ChildAt"]%string.

Definition unary_opcode (node : SimpleNodeView) : AivmOpcode :=
  if kind_is node "ToString" then AIVM_OP_TO_STRING
  else if kind_is node "AttrCount" then AIVM_OP_ATTR_COUNT
  else if kind_is node "ChildCount" then AIVM_OP_CHILD_COUNT
  else if kind_is node "ValueKind" then AIVM_OP_VALUE_KIND
  else if kind_is node "NodeKind" then AIVM_OP_NODE_KIND
  else AIVM_OP_NODE_ID.

Definition binary_opcode (node : SimpleNodeView) : AivmOpcode :=
  if kind_in node ["Add"; "Sub"; "Mul"; "Div"; "Mod"; "Pow"; "Lt"; "Eq"]%string then arithmetic_opcode node
  else if kind_is node "AttrKey" then AIVM_OP_ATTR_KEY
  else if kind_is node "AttrValueString" then AIVM_OP_ATTR_VALUE_STRING
  else if kind_is node "AttrValueInt" then AIVM_OP_ATTR_VALUE_INT
  else if kind_is node "AttrValueBool" then AIVM_OP_ATTR_VALUE_BOOL
  else if kind_is node "AttrValueKind" then AIVM_OP_ATTR_VALUE_KIND
  else AIVM_OP_CHILD_AT.

Definition make_opcode (node : SimpleNodeView) : AivmOpcode :=
  if kind_starts node "MakeLitString" then AIVM_OP_MAKE_LIT_STRING
  else if kind_starts node "MakeLitBool" then AIVM_OP_MAKE_LIT_BOOL
  else if kind_starts node "MakeFieldString" then AIVM_OP_MAKE_FIELD_STRING
  else AIVM_OP_MAKE_LIT_INT.

(** Arithmetic, inspection, conditionals and blocks. *)
Definition compile_inspection (k : compilers) (node : SimpleNodeView) : C unit :=
  if kind_in node unary_kinds then operands k 1 node (unary_opcode node) (missing "%s missing arg" node)
  else if kind_in node binary_kinds then operands k 2 node (binary_opcode node) (missing "%s missing args" node)
  else if kind_is node "If" then simple_compile_if_expr_ext k node
  else if kind_is node "Block" then compile_block_expr k (views (body node)) false
  else simple_compile_expr_node (S (length (body node))) node.

(** Texts and bytes. *)
Definition compile_operation (k : compilers) (node : SimpleNodeView) : C unit :=
  if kind_in node ["StringUtf8ByteCount"; "StringScalarLength"; "StringFromCodePoint"; "StringDecodeUnicodeHex4"]%string
  then operands k 1 node (string_opcode node) (missing "%s missing arg" node)
  else if kind_is node "StringDecodeUnicodeSurrogatePairHex4"
  then operands k 2 node AIVM_OP_STR_DECODE_UNICODE_SURROGATE_PAIR_HEX4
         (simple_fail "StringDecodeUnicodeSurrogatePairHex4 missing args")
  else if kind_is node "BytesLength" then operands k 1 node AIVM_OP_BYTES_LENGTH (simple_fail "BytesLength missing arg")
  else if kind_in node ["BytesFromUtf8String"; "BytesToUtf8String"; "BytesFromBase64"; "BytesToBase64"; "BytesFromByte";
                        "BytesU32LE"; "BytesI64LE"]%string
  then operands k 1 node (bytes_opcode node) (missing "%s missing arg" node)
  else if kind_in node ["BytesAt"; "BytesConcat"]%string
  then operands k 2 node (if kind_is node "BytesAt" then AIVM_OP_BYTES_AT else AIVM_OP_BYTES_CONCAT) (missing "%s missing args" node)
  else if kind_is node "BytesSlice" then operands k 3 node AIVM_OP_BYTES_SLICE (simple_fail "BytesSlice missing args")
  else if kind_in node ["StringSlice"; "StringRemove"; "StringFind"]%string
  then operands k 3 node
         (if kind_is node "StringSlice" then AIVM_OP_STR_SUBSTRING
          else if kind_is node "StringFind" then AIVM_OP_STR_FIND else AIVM_OP_STR_REMOVE) (missing "%s missing args" node)
  else compile_inspection k node.

(** Nodes, builders, pairs and literals. *)
Definition compile_construction (k : compilers) (node : SimpleNodeView) : C unit :=
  if kind_starts node "MakeBlock" then operands k 1 node AIVM_OP_MAKE_BLOCK (simple_fail "MakeBlock missing id expression")
  else if kind_starts node "MakeNodeBuilder"
  then operands_or k 2 node AIVM_OP_NODE_BUILDER_NEW "MakeNodeBuilder requires (kind,id)" []
  else if kind_starts node "BuilderAppendChild"
  then operands_or k 2 node AIVM_OP_NODE_BUILDER_APPEND_CHILD "BuilderAppendChild requires (builder,child)" []
  else if kind_starts node "BuilderAppendAttr"
  then operands_or k 2 node AIVM_OP_NODE_BUILDER_APPEND_ATTR "BuilderAppendAttr requires (builder,attr)" []
  else if kind_starts node "FinishNodeBuilder"
  then operands_or k 1 node AIVM_OP_NODE_BUILDER_FINISH "FinishNodeBuilder requires builder" []
  else if kind_starts node "MakeNode" then operands k 2 node AIVM_OP_MAKE_NODE_EMPTY (simple_fail "MakeNode requires (kind,id)")
  else if kind_starts node "AppendChild" then operands k 2 node AIVM_OP_APPEND_CHILD (simple_fail "AppendChild requires (node,child)")
  else if kind_starts node "AppendAttr" then operands k 2 node AIVM_OP_APPEND_ATTR (simple_fail "AppendAttr requires (node,attr)")
  else if kind_starts node "MakePair" then operands k 2 node AIVM_OP_MAKE_PAIR (simple_fail "MakePair requires (first,second)")
  else if kind_starts node "PairFirst" || kind_starts node "PairSecond"
  then operands k 1 node (if kind_starts node "PairFirst" then AIVM_OP_PAIR_FIRST else AIVM_OP_PAIR_SECOND)
         (missing "%s requires pair operand" node)
  else if kind_starts node "MakeLitString" || kind_starts node "MakeLitInt" || kind_starts node "MakeLitBool"
          || kind_starts node "MakeFieldString"
  then operands k 2 node (make_opcode node) (missing "%s requires (id,value)" node)
  else if kind_starts node "MakeErr"
  then operands k 4 node AIVM_OP_MAKE_ERR (simple_fail "MakeErr requires (id,code,message,nodeId)")
  else compile_operation k node.

Definition simple_compile_expr_ext (k : compilers) (node : SimpleNodeView) : C unit :=
  if kind_is node "Call" then simple_compile_call_ext k node false
  else if kind_is node "CallDynamic" then simple_compile_dynamic_call_ext k node
  else if kind_is node "Var" then simple_compile_var_expr node
  else if kind_is node "StrConcat" then
    compile_concat (expr k) (or_fail (simple_emit_instruction AIVM_OP_STR_CONCAT 0) "failed emitting STR_CONCAT" []) true
      (views (body node))
  else if kind_is node "StrEscape" then operands k 1 node AIVM_OP_STR_ESCAPE (simple_fail "StrEscape missing arg")
  else if kind_starts node "Field" then compile_field k node
  else if kind_is node "MapBuilderNew" then simple_emit_instruction AIVM_OP_MAP_BUILDER_NEW 0
  else if kind_in node ["MapBuilderFinish"; "MapCount"]%string
  then operands_or k 1 node (if kind_is node "MapBuilderFinish" then AIVM_OP_MAP_BUILDER_FINISH else AIVM_OP_MAP_COUNT)
         "%s requires one argument" [MText (kind node)]
  else if kind_is node "MapHasString" then operands_or k 2 node AIVM_OP_MAP_HAS_STRING "MapHasString requires (map,key)" []
  else if kind_in node ["MapBuilderPutStringInt"; "MapGetStringIntOr"]%string
  then operands_or k 3 node
         (if kind_is node "MapBuilderPutStringInt" then AIVM_OP_MAP_BUILDER_PUT_STRING_INT else AIVM_OP_MAP_GET_STRING_INT_OR)
         "%s requires three arguments" [MText (kind node)]
  else if kind_starts node "Map" then compile_map k node
  else compile_construction k node.

(** ** Statements *)

(** A branch or a loop body: a block, or an expression whose value is dropped. *)
Definition compile_branch (k : compilers) (node : SimpleNodeView) : C bool :=
  if kind_is node "Block" then block k node
  else run! expr k node in run! simple_emit_instruction AIVM_OP_POP 0 in ret false.

Definition simple_compile_if_stmt_ext (k : compilers) (node : SimpleNodeView) : C bool :=
  get! nodes := some_or (parse_nodes 3 (body node)) (simple_fail "if stmt shape invalid") in
  match nodes with
  | [cond_node; then_node; else_node] =>
      run! expr k cond_node in
      get! jump_false_ip := current_ip in
      run! simple_emit_instruction AIVM_OP_JUMP_IF_FALSE 0 in
      get! then_return := compile_branch k then_node in
      get! jump_end_ip := current_ip in
      run! simple_emit_instruction AIVM_OP_JUMP 0 in
      get! else_ip := current_ip in
      run! patch_operand jump_false_ip else_ip in
      get! else_return := compile_branch k else_node in
      get! end_ip := current_ip in
      run! patch_operand jump_end_ip end_ip in
      ret ((then_return : bool) && (else_return : bool))
  | _ => wrong
  end.

Definition simple_compile_loop_stmt_ext (k : compilers) (node : SimpleNodeView) : C bool :=
  get! body_node := some_or (simple_parse_next_node (body node)) (simple_fail "loop stmt shape invalid") in
  get! c := getC in
  if SIMPLE_MAX_LOOP_DEPTH <=? zlen (loop_frames c) then simple_fail "loop nesting depth exceeded"
  else
    get! loop_start_ip := current_ip in
    run! in_array SIMPLE_MAX_LOOP_DEPTH (loop_frames c) in
    run! modifyC (set_loop_frames (mk_loop loop_start_ip [] [] :: loop_frames c)) in
    get! _ := compile_branch k body_node in
    run! simple_emit_instruction AIVM_OP_JUMP loop_start_ip in
    get! c' := getC in
    match loop_frames c' with
    | [] => wrong
    | frame :: outer =>
        get! end_ip := current_ip in
        run! patch_all (break_sites frame) end_ip in
        run! patch_all (continue_sites frame) loop_start_ip in
        run! modifyC (set_loop_frames outer) in
        ret false
    end.

(** A jump out of or back in the innermost loop, whose target is filled in at its end. *)
Definition loop_jump (sites : SimpleLoopFrame -> list Z) (add : Z -> SimpleLoopFrame -> SimpleLoopFrame)
    (outside too_many : string) : C bool :=
  get! c := getC in
  match loop_frames c with
  | [] => simple_fail outside
  | frame :: outer =>
      if SIMPLE_MAX_LOOP_FIXUPS <=? zlen (sites frame) then simple_fail too_many
      else
        get! jump_ip := current_ip in
        run! simple_emit_instruction AIVM_OP_JUMP 0 in
        run! in_array SIMPLE_MAX_LOOP_FIXUPS (sites frame) in
        run! modifyC (set_loop_frames (add jump_ip frame :: outer)) in
        ret false
  end.

Definition add_break (ip : Z) (f : SimpleLoopFrame) : SimpleLoopFrame :=
  mk_loop (start_ip f) (break_sites f ++ [ip]) (continue_sites f).
Definition add_continue (ip : Z) (f : SimpleLoopFrame) : SimpleLoopFrame :=
  mk_loop (start_ip f) (break_sites f) (continue_sites f ++ [ip]).

Definition compile_let (k : compilers) (node : SimpleNodeView) : C bool :=
  get! name := some_or (parse_attr_span (attrs node) (byte_str "name") 64) (simple_fail "let stmt missing name") in
  get! slot := or_fail (simple_locals_lookup name true) "local allocation failed for %s" [MText name] in
  get! value := some_or (simple_parse_next_node (body node)) (simple_fail "let stmt missing expression") in
  run! expr k value in
  run! or_fail (simple_emit_instruction AIVM_OP_STORE_LOCAL slot) "let stmt STORE_LOCAL failed" [] in
  ret false.

Definition compile_return (k : compilers) (node : SimpleNodeView) : C bool :=
  run! (match simple_parse_next_node (body node) with
        | None => or_fail simple_emit_void_const "empty return emit failed" []
        | Some value => expr k value
        end) in
  run! or_fail (simple_emit_instruction AIVM_OP_RETURN 0) "return emit failed" [] in
  ret true.

Definition simple_compile_stmt_ext (k : compilers) (node : SimpleNodeView) : C bool :=
  if kind_is node "Let" then compile_let k node
  else if kind_is node "Call" then run! simple_compile_call_ext k node true in ret false
  else if kind_is node "Break"
  then loop_jump break_sites add_break "break used outside loop" "too many break statements in loop"
  else if kind_is node "Continue"
  then loop_jump continue_sites add_continue "continue used outside loop" "too many continue statements in loop"
  else if kind_is node "Return" then compile_return k node
  else if kind_is node "If" then simple_compile_if_stmt_ext k node
  else if kind_is node "Loop" then simple_compile_loop_stmt_ext k node
  else if kind_is node "Block" then block k node
  else run! expr k node in run! simple_emit_instruction AIVM_OP_POP 0 in ret false.

Fixpoint compile_stmts (k : compilers) (nodes : list SimpleNodeView) : C bool :=
  match nodes with
  | [] => ret false
  | child :: rest =>
      get! did_return := stmt k child in
      if (did_return : bool) then ret true else compile_stmts k rest
  end.

(** The locals of a block end with it. *)
Definition simple_compile_block_ext (k : compilers) (node : SimpleNodeView) : C bool :=
  get! c := getC in
  let scope_local_count := zlen (ctx_locals c) in
  get! did_return := compile_stmts k (views (body node)) in
  get! c' := getC in
  run! modifyC (set_locals (ztake scope_local_count (ctx_locals c'))) in
  ret did_return.

(** The functions that call each other, up to a depth of calls. *)
Fixpoint compilers_at (fuel : nat) : compilers :=
  match fuel with
  | O => mk_compilers (fun _ => wrong) (fun _ => wrong) (fun _ => wrong)
  | S fuel' =>
      let k := compilers_at fuel' in
      mk_compilers (simple_compile_expr_ext k) (simple_compile_stmt_ext k) (simple_compile_block_ext k)
  end.

(** A node is nested at most as deep as its body is long, and from one level to the next
    there are at most three calls. *)
Definition compilers_for (node : SimpleNodeView) : compilers := compilers_at (S (S (S (3 * length (body node))))).

(** ** Functions *)

Fixpoint add_params (params : list (list Z)) : C unit :=
  match params with
  | [] => ret tt
  | p :: rest =>
      run! or_fail (simple_locals_lookup p true) "failed to allocate param %s" [MText p] in add_params rest
  end.

(** STORE_LOCAL for the parameters, the last one first. *)
Fixpoint emit_prologue (name : list Z) (params : list (list Z)) : C unit :=
  match params with
  | [] => ret tt
  | p :: rest =>
      run! or_fail (get! slot := simple_locals_lookup p false in simple_emit_instruction AIVM_OP_STORE_LOCAL slot)
             "failed param prologue for %s" [MText name] in
      emit_prologue name rest
  end.

Definition update_fn (index : Z) (f : SimpleFnDef -> SimpleFnDef) : C unit :=
  get! c := getC in
  match zget (funcs c) index with
  | Some fn => modifyC (set_funcs (zset (funcs c) index (f fn)))
  | None => wrong
  end.

Definition start_compiling (ip : Z) (f : SimpleFnDef) : SimpleFnDef :=
  mk_fn (fn_name f) (params_raw f) (fn_body f) (source_index f) (compiled f) true ip.
Definition finish_compiling (f : SimpleFnDef) : SimpleFnDef :=
  mk_fn (fn_name f) (params_raw f) (fn_body f) (source_index f) true false (entry_ip f).

Definition simple_compile_fn_by_index (fn_index : Z) : C unit :=
  get! c := getC in
  match zget (funcs c) fn_index with
  | None => quiet
  | Some fn =>
      if compiled fn || compiling fn then ret tt
      else
        get! ip := current_ip in
        run! update_fn fn_index (start_compiling ip) in
        run! modifyC (set_locals []) in
        get! params := some_or (simple_split_params (params_raw fn))
          (simple_failf "invalid params for function %s" [MText (fn_name fn)]) in
        run! add_params params in
        run! emit_prologue (fn_name fn) (rev params) in
        get! block_node := some_or (simple_parse_next_node (fn_body fn))
          (simple_failf "function %s missing Block body" [MText (fn_name fn)]) in
        if negb (kind_is block_node "Block") then simple_failf "function %s missing Block body" [MText (fn_name fn)]
        else
          get! did_return := block (compilers_for block_node) block_node in
          run! (if (did_return : bool) then ret tt
                else
                  run! or_fail simple_emit_void_const "failed implicit void for %s" [MText (fn_name fn)] in
                  or_fail (simple_emit_instruction AIVM_OP_RETURN 0) "failed implicit return for %s" [MText (fn_name fn)]) in
          update_fn fn_index finish_compiling
  end.

(** The loop over the fixups, which grows while functions are compiled. *)
Fixpoint resolve_fixups (fuel : nat) (i : Z) : C unit :=
  match fuel with
  | O => wrong
  | S fuel' =>
      get! c := getC in
      match zget (fixups c) i with
      | None => ret tt
      | Some fx =>
          get! target := some_or (simple_find_func (fixup_target fx) c)
            (simple_failf "unresolved call target %s" [MText (fixup_target fx)]) in
          get! f := some_or (zget (funcs c) target) wrong in
          run! (if compiled f then ret tt else simple_compile_fn_by_index target) in
          get! c' := getC in
          get! f' := some_or (zget (funcs c') target) wrong in
          if instruction_count (ctx_program c') <=? fixup_instruction fx then simple_fail "call fixup index out of range"
          else
            run! patch_operand (fixup_instruction fx) (entry_ip f') in
            resolve_fixups fuel' (i + 1)
      end
  end.

(** The program of [parse_simple_program_graph_to_program_file] once the sources have
    been collected. *)
Definition empty_program : AivmProgram := set_header 2 0 0 aivm_program_clear.

Definition compile_graph : C unit :=
  run! modifyC (fun c => match entry_export c with [] => set_entry_export (byte_str "start") c | _ => c end) in
  get! c := getC in
  get! entry_index := some_or (simple_find_func (entry_export c) c)
    (simple_failf "entry export '%s' not found" [MText (entry_export c)]) in
  get! entry := some_or (zget (funcs c) entry_index) wrong in
  run! modifyC (set_program empty_program) in
  get! params := some_or (simple_split_params (params_raw entry))
    (simple_failf "graph compile: invalid entry params for %s" [MText (fn_name entry)]) in
  run! (match params with
        | [] => ret tt
        | _ =>
            or_fail
              (get! idx := simple_add_string_const (byte_str "sys.process.args") in
               run! simple_emit_instruction AIVM_OP_CONST idx in
               simple_emit_instruction AIVM_OP_CALL_SYS 0)
              "graph compile: failed emitting argv bootstrap" []
        end) in
  get! bootstrap_call_ip := current_ip in
  run! or_fail (run! simple_emit_instruction AIVM_OP_CALL 0 in simple_emit_instruction AIVM_OP_HALT 0)
         "graph compile: failed emitting bootstrap call/halt" [] in
  run! simple_compile_fn_by_index entry_index in
  get! c' := getC in
  get! entry' := some_or (zget (funcs c') entry_index) wrong in
  run! patch_operand bootstrap_call_ip (entry_ip entry') in
  run! resolve_fixups (S (Z.to_nat SIMPLE_MAX_FIXUPS)) 0 in
  get! c'' := getC in
  if instruction_count (ctx_program c'') =? 0 then simple_fail "graph compile: produced empty program" else ret tt.
