(* ===== verification/SourceFiles.v ===== *)
(** * Collecting the sources of a program (src/src/ailang_cli/ailang.c)

    Imports are resolved to paths, the files are read, and their functions are entered
    into the context of the compiler.  The file system is an interface: what it answers
    does not change while a program is compiled. *)

From S2P Require Import Prelude Types Program AosText Compiler.

Local Open Scope aivm_scope.

(** The file system and the environment: the contents of a file ([read_binary_file],
    memory for it included), [file_exists], [realpath], the variable AILANG_SDK_ROOT, the
    globals [g_airun_runtime_exe_path] and [g_native_build_project_dir], and whether there
    is memory for the copy of a source. *)
Class Files := {
  file_bytes : list Z -> option (list Z);
  file_exists : list Z -> bool;
  realpath : list Z -> option (list Z);
  sdk_root_env : option (list Z);
  runtime_exe_path : list Z;
  build_project_dir : list Z;
  source_memory : list Z -> bool }.

Definition PATH_MAX : Z := 4096.

(** A text that fits a buffer with its terminator. *)
Definition fit (out_len : Z) (text : list Z) : option (list Z) := if zlen text <? out_len then Some text else None.

Section Files.
Context `{!Files}.

Definition read_text_file_alloc (path : list Z) : option (list Z) := cstr <$> file_bytes path.

(** ** Paths *)

Definition join_path (left right : list Z) : option (list Z) := fit PATH_MAX (left ++ 47 :: right).

Definition canonical_existing_path (path : list Z) : option (list Z) :=
  match realpath path with Some resolved => fit PATH_MAX resolved | None => fit PATH_MAX path end.

(** The text before the last slash or backslash. *)
Definition last_separator (path : list Z) : option Z :=
  match list_find (fun c => c = 47 \/ c = 92) (rev path) with
  | Some (i, _) => Some (zlen path - 1 - Z.of_nat i)
  | None => None
  end.

Definition dirname_of (path : list Z) : option (list Z) :=
  match last_separator path with
  | None => Some (byte_str ".")
  | Some slash => if slash =? 0 then Some (byte_str ".") else fit PATH_MAX (ztake slash path)
  end.

Definition simple_is_absolute_path (path : list Z) : bool := head_is 47 path || head_is 92 path.

Definition simple_resolve_path (base_file import_path : list Z) : option (list Z) :=
  if head_is 47 import_path then canonical_existing_path import_path
  else
    base_dir ← dirname_of base_file;
    joined ← join_path base_dir import_path;
    canonical_existing_path joined.

(** ** Configuration files *)

(** [simple_toml_get_from_section]: from the key on to the next quote. *)
Definition simple_toml_get_from_section (section key : list Z) (out_len : Z) : option (list Z) :=
  let spaced := key ++ byte_str " = " ++ [34] in
  let plain := key ++ byte_str "=" ++ [34] in
  if 96 <=? zlen spaced then None
  else
    start ← match strstr section spaced with
            | Some pos => Some (zdrop (zlen spaced) pos)
            | None => zdrop (zlen plain) <$> strstr section plain
            end;
    _ ← strchr start 34;
    fit out_len (take_while (fun c => negb (c =? 34)) start).

(** Both files are read; the local one overrides. *)
Definition config_value (project_dir key : list Z) (file : string) : option (list Z) :=
  path ← join_path project_dir (byte_str file);
  if file_exists path then
    text ← read_text_file_alloc path;
    simple_toml_get_from_section text key PATH_MAX
  else None.

Definition simple_project_config_get_string (project_dir key : list Z) : option (list Z) :=
  match config_value project_dir key "config.local.toml" with
  | Some value => Some value
  | None => config_value project_dir key "config.toml"
  end.

(** The walk up to a directory with a lock file or a manifest. *)
Fixpoint lock_dir_loop (fuel : nat) (current : list Z) : option (list Z) :=
  match fuel with
  | O => None
  | S fuel' =>
      let there (file : string) := match join_path current (byte_str file) with Some path => file_exists path | None => false end in
      if there "ailang.lock.toml"%string then Some current
      else if there "project.aiproj"%string && bool_decide (build_project_dir = [] \/ current = build_project_dir)
      then Some current
      else
        match dirname_of current with
        | Some parent_dir =>
            if bool_decide (parent_dir = current) then fit PATH_MAX build_project_dir ≫= fun d => if bool_decide (d = []) then None else Some d
            else lock_dir_loop fuel' parent_dir
        | None => fit PATH_MAX build_project_dir ≫= fun d => if bool_decide (d = []) then None else Some d
        end
  end.

(** Each step shortens the path or ends at ".". *)
Definition simple_find_lock_dir_for_source (source_file : list Z) : option (list Z) :=
  source_dir ← dirname_of source_file;
  lock_dir_loop (S (S (length source_dir))) source_dir.

Definition simple_resolve_project_local_path (project_dir configured_path : list Z) : option (list Z) :=
  if simple_is_absolute_path configured_path then canonical_existing_path configured_path
  else joined ← join_path project_dir configured_path; canonical_existing_path joined.

(** The packages of the lock file, in order. *)
Fixpoint lock_package_loop (fuel : nat) (project_dir package_name p : list Z) : option (list Z) :=
  match fuel with
  | O => None
  | S fuel' =>
      section ← strstr p (byte_str "[[package]]");
      match (name ← simple_toml_get_from_section section (byte_str "name") 128;
             if bool_decide (name = package_name) then
               package_path ← simple_toml_get_from_section section (byte_str "path") PATH_MAX;
               package_root ← simple_toml_get_from_section section (byte_str "packageRoot") PATH_MAX;
               local_path ← simple_resolve_project_local_path project_dir package_path;
               package_root_dir ← join_path local_path package_root;
               canonical_existing_path package_root_dir
             else None) with
      | Some dir => Some dir
      | None => lock_package_loop fuel' project_dir package_name (zdrop 11 section)
      end
  end.

Definition simple_lock_resolve_package (project_dir package_name : list Z) : option (list Z) :=
  lock_path ← join_path project_dir (byte_str "ailang.lock.toml");
  text ← read_text_file_alloc lock_path;
  lock_package_loop (S (length text)) project_dir package_name text.

(** ** Imports *)

Definition simple_resolve_sdk_root (base_file : list Z) : option (list Z) :=
  match sdk_root_env with
  | Some (c :: env) => fit PATH_MAX (c :: env)
  | _ =>
      match (project_dir ← simple_find_lock_dir_for_source base_file;
             simple_project_config_get_string project_dir (byte_str "sdkRoot")) with
      | Some root => Some root
      | None =>
          match runtime_exe_path with
          | [] => None
          | exe => exe_dir ← dirname_of exe; parent_dir ← dirname_of exe_dir; fit PATH_MAX parent_dir
          end
      end
  end.

Definition simple_resolve_sdk_import_path (base_file sdk_name import_path : list Z) : option (list Z) :=
  if negb (bool_decide (sdk_name = byte_str "ailang")) || head_is 47 import_path
     || bool_decide (is_Some (strstr import_path (byte_str ".."))) then None
  else
    sdk_root ← simple_resolve_sdk_root base_file;
    candidate ← join_path sdk_root import_path;
    if file_exists candidate then canonical_existing_path candidate
    else if starts_with import_path (byte_str "std/") || starts_with import_path (byte_str "compiler/") then
      src_path ← join_path (byte_str "src") import_path;
      src_candidate ← join_path sdk_root src_path;
      if file_exists src_candidate then canonical_existing_path src_candidate else None
    else None.

Definition simple_resolve_import_path (base_file attrs : list Z) : option (list Z) :=
  import_path ← parse_attr_span attrs (byte_str "path") PATH_MAX;
  match parse_attr_span attrs (byte_str "sdk") 128 with
  | Some sdk_name => simple_resolve_sdk_import_path base_file sdk_name import_path
  | None =>
      match parse_attr_span attrs (byte_str "package") 128 with
      | None => simple_resolve_path base_file import_path
      | Some package_name =>
          project_dir ← simple_find_lock_dir_for_source base_file;
          package_root ← simple_lock_resolve_package project_dir package_name;
          joined ← join_path package_root import_path;
          canonical_existing_path joined
      end
  end.

(** ** Collecting *)

(** [simple_add_source]: the index and the text that is kept under a path. *)
Definition simple_add_source (path text : list Z) : C (Z * list Z) :=
  get! c := getC in
  match list_find (fun s => source_path s = path) (sources c) with
  | Some (i, s) => ret (Z.of_nat i, source_text s)
  | None =>
      if SIMPLE_MAX_SOURCES <=? zlen (sources c) then quiet
      else if negb (source_memory text) then quiet
      else if PATH_MAX <=? zlen path then quiet
      else
        run! in_array SIMPLE_MAX_SOURCES (sources c) in
        run! modifyC (set_sources (sources c ++ [mk_source path text])) in ret (zlen (sources c), text)
  end.

(** What may follow the word Program. *)
Definition after_program (rest : list Z) : bool :=
  match rest with [] => true | c :: _ => (c =? 35) || (c =? 40) || (c =? 123) || line_space c end.

(** A function at the top level of a source. *)
Definition collect_let (path : list Z) (index : Z) (node : SimpleNodeView) : C unit :=
  get! let_name := some_or (parse_attr_span (attrs node) (byte_str "name") 64)
    (simple_failf "collect: let missing name in %s" [MText path]) in
  match simple_parse_next_node (body node) with
  | Some value =>
      if kind_is value "Fn" then
        let params := default [] (parse_attr_span (attrs value) (byte_str "params") 256) in
        or_fail (simple_add_func let_name params (body value) index)
          "collect: failed adding function %s from %s" [MText let_name; MText path]
      else ret tt
  | None => ret tt
  end.

Definition collect_export (allow_entry_export : bool) (node : SimpleNodeView) : C unit :=
  get! c := getC in
  match entry_export c, parse_attr_span (attrs node) (byte_str "name") 64 with
  | [], Some name => if allow_entry_export then modifyC (set_entry_export name) else ret tt
  | _, _ => ret tt
  end.

(** The nodes of a source; [from] is the offset of the range in the text.  [import] is
    the collection of an imported file. *)
Fixpoint collect_program (fuel : nat) (import : list Z -> C unit) (path : list Z) (index : Z) (allow_entry_export : bool)
    (end_offset : Z) (range : list Z) : C unit :=
  match fuel with
  | O => wrong
  | S fuel' =>
      match range with
      | [] => ret tt
      | _ =>
          match simple_parse_next_node range with
          | None =>
              match drop_while line_space range with
              | [] => ret tt
              | rest => simple_failf "collect: parse failed in %s near offset %llu" [MText path; MNum (end_offset - zlen rest)]
              end
          | Some node =>
              run! (if kind_is node "Import" then
                get! resolved := some_or (simple_resolve_import_path path (attrs node))
                  (simple_failf "collect: import missing path in %s attrs=%s" [MText path; MText (attrs node)]) in
                import resolved
              else if kind_is node "Export" then collect_export allow_entry_export node
              else if kind_is node "Let" then collect_let path index node
              else ret tt) in
              collect_program fuel' import path index allow_entry_export end_offset (next node)
          end
      end
  end.

(** [depth] bounds the nesting of imports: the source calls itself without a bound. *)
Fixpoint simple_collect_from_file (depth : nat) (path : list Z) (allow_entry_export : bool) : C unit :=
  match depth with
  | O => wrong
  | S depth' =>
      get! read := some_or (read_text_file_alloc path) (simple_failf "collect: failed reading %s" [MText path]) in
      get! added := or_fail (simple_add_source path read) "collect: failed adding source %s" [MText path] in
      let '(index, text) := added in
      let program_pos := drop_while line_space text in
      if negb (starts_with program_pos (byte_str "Program") && after_program (zdrop 7 program_pos))
      then simple_failf "collect: missing Program in %s" [MText path]
      else
        get! open_brace := some_or (strchr program_pos 123) (simple_failf "collect: malformed Program braces in %s" [MText path]) in
        get! close_brace := some_or (simple_find_matching_brace open_brace)
          (simple_failf "collect: malformed Program braces in %s" [MText path]) in
        let range := ztake (close_brace - 1) (zdrop 1 open_brace) in
        let end_offset := zlen text - zlen open_brace + close_brace in
        collect_program (S (length range)) (fun p => simple_collect_from_file depth' p false) path index
          allow_entry_export end_offset range
  end.

Definition empty_context : SimpleCompileContext := mk_context empty_program [] [] [] [] [] [].

(** [parse_simple_program_graph_to_program_file]: the program, or the message. *)
Definition parse_simple_program_graph_to_program_file (depth : nat) (aos_path : list Z) : compilation unit :=
  (run! simple_collect_from_file depth aos_path true in compile_graph) empty_context.

End Files.
