(* ===== verification/CompilerSafety.v ===== *)
(** * The compiler stays within its program

    Whatever the sources, a compilation ends without an access outside the storage of the
    program, the tables of the context or its depth of calls, and the code it leaves is
    well-formed: jumps and calls lead into the program, constants and locals exist. *)

From S2P Require Import Prelude Types NumberText Program LoaderSafety LoaderFormat AosText ProgramWriter Vm Compiler.

(** ** The invariant *)

(** The operand of an instruction in a program of [n] instructions and [m] constants. *)
Definition operand_ok (n m : Z) (i : AivmInstruction) : Prop :=
  is_int64 (operand_int i) /\
  match opcode i with
  | AIVM_OP_JUMP | AIVM_OP_JUMP_IF_FALSE | AIVM_OP_CALL => 0 <= operand_int i <= n
  | AIVM_OP_CONST => 0 <= operand_int i < m
  | AIVM_OP_LOAD_LOCAL | AIVM_OP_STORE_LOCAL => 0 <= operand_int i < SIMPLE_MAX_LOCALS
  | _ => True
  end.

Record code_ok (p : AivmProgram) : Prop := {
  code_count : instruction_count p = zlen (instruction_store p);
  code_capacity : instruction_capacity p = AIVM_PROGRAM_INLINE_INSTRUCTIONS;
  code_room : instruction_count p <= AIVM_PROGRAM_INLINE_INSTRUCTIONS;
  code_operands : Forall (operand_ok (instruction_count p) (constant_count p)) (instruction_store p);
  const_count : constant_count p = zlen (constant_store p);
  const_capacity : constant_capacity p = AIVM_PROGRAM_INLINE_CONSTANTS;
  const_room : constant_count p <= AIVM_PROGRAM_INLINE_CONSTANTS;
  const_valid : Forall (constant_ok p) (constant_store p);
  text_bytes : bytes_ok (string_storage p);
  text_room : zlen (string_storage p) <= AIVM_PROGRAM_MAX_STRING_BYTES;
  text_total : total string_need (map (spec_of p) (constant_store p)) <= zlen (string_storage p);
  no_bytes : bytes_storage p = [] /\ total bytes_need (map (spec_of p) (constant_store p)) = 0 }.

(** What the sources give the compiler consists of bytes. *)
Definition view_ok (v : SimpleNodeView) : Prop := bytes_ok (kind v) /\ bytes_ok (attrs v) /\ bytes_ok (body v).

Definition fn_ok (n : Z) (f : SimpleFnDef) : Prop :=
  bytes_ok (fn_name f) /\ bytes_ok (fn_body f) /\ bytes_ok (params_raw f) /\ 0 <= entry_ip f <= n.

Definition op_at (p : AivmProgram) (ip : Z) : option AivmOpcode := opcode <$> zget (instruction_store p) ip.

(** The targets that are filled in later are those of jumps and calls. *)
Definition frame_ok (p : AivmProgram) (f : SimpleLoopFrame) : Prop :=
  0 <= start_ip f <= instruction_count p /\
  Forall (fun ip => op_at p ip = Some AIVM_OP_JUMP) (break_sites f) /\
  Forall (fun ip => op_at p ip = Some AIVM_OP_JUMP) (continue_sites f).

Definition slots_ok (locals : list (list Z * Z)) : Prop :=
  zlen locals <= SIMPLE_MAX_LOCALS /\ forall i l, locals !! i = Some l -> l.2 = Z.of_nat i.

Record context_ok (c : SimpleCompileContext) : Prop := {
  ctx_code : code_ok (ctx_program c);
  ctx_funcs : Forall (fn_ok (instruction_count (ctx_program c))) (funcs c);
  ctx_frames : Forall (frame_ok (ctx_program c)) (loop_frames c);
  ctx_fixups : Forall (fun f => op_at (ctx_program c) (fixup_instruction f) = Some AIVM_OP_CALL) (fixups c);
  ctx_fixups_room : zlen (fixups c) <= SIMPLE_MAX_FIXUPS;
  ctx_slots : slots_ok (ctx_locals c) }.

(** What a compilation leaves as it was: code is only added, and functions, sources and
    enclosing loops stay. *)
Definition fn_key (f : SimpleFnDef) := (fn_name f, params_raw f, fn_body f, source_index f).

Definition extends (p p' : AivmProgram) : Prop :=
  map opcode (instruction_store p) `prefix_of` map opcode (instruction_store p').

Global Instance extends_preorder : PreOrder extends.
Proof. split; unfold extends; [by intros p|]. intros p q r H1 H2. by etrans. Qed.

Record grows (c c' : SimpleCompileContext) : Prop := {
  grows_code : instruction_count (ctx_program c) <= instruction_count (ctx_program c');
  grows_ops : extends (ctx_program c) (ctx_program c');
  grows_const : constant_count (ctx_program c) <= constant_count (ctx_program c');
  grows_funcs : map fn_key (funcs c') = map fn_key (funcs c);
  grows_loops : map start_ip (loop_frames c') = map start_ip (loop_frames c);
  grows_fixups : zlen (fixups c) <= zlen (fixups c') }.

Global Instance grows_preorder : PreOrder grows.
Proof.
  split; [intros c; constructor; reflexivity|]. intros a b c [H1 H0 H2 H3 H4 H5] [K1 K0 K2 K3 K4 K5].
  constructor; first [by etrans|lia|congruence].
Qed.

Definition keeps {A} (x : C A) (Q : A -> SimpleCompileContext -> Prop) (c : SimpleCompileContext) : Prop :=
  match x c with Done a c' => context_ok c' /\ grows c c' /\ Q a c' | Failed _ => True | Wrong => False end.

(** A computation that keeps the invariant wherever it is started. *)
Definition safe {A} (x : C A) (Q : SimpleCompileContext -> A -> SimpleCompileContext -> Prop) : Prop :=
  forall c, context_ok c -> keeps x (Q c) c.

Definition any {A} : SimpleCompileContext -> A -> SimpleCompileContext -> Prop := fun _ _ _ => True.

Lemma and3 (A B D : Prop) : A /\ B -> D -> A /\ B /\ D.
Proof. tauto. Qed.

Lemma keepsC_bind {A B} (x : C A) (f : A -> C B) R Q c :
  keeps x R c -> (forall a c', context_ok c' -> grows c c' -> R a c' -> keeps (f a) Q c') -> keeps (bindC x f) Q c.
Proof.
  unfold keeps, bindC. destruct (x c) as [a c'| |]; [|done..]. intros (H1 & H2 & H3) Hf.
  specialize (Hf a c' H1 H2 H3). destruct (f a c') as [b c''| |]; [|done..]. destruct Hf as (K1 & K2 & K3).
  split_and!; [done|by etrans|done].
Qed.

Lemma keeps_weaken {A} (x : C A) (R Q : A -> SimpleCompileContext -> Prop) c :
  keeps x R c -> (forall a c', context_ok c' -> grows c c' -> R a c' -> Q a c') -> keeps x Q c.
Proof. unfold keeps. destruct (x c) as [a c'| |]; [|done..]. intros (H1 & H2 & H3) H. by auto. Qed.

Lemma keepsC_ret {A} (a : A) (Q : A -> SimpleCompileContext -> Prop) c : context_ok c -> Q a c -> keeps (ret a) Q c.
Proof. intros Hc Hq. split; [done|]. by split. Qed.

Lemma keepsC_fail {A} fmt args (Q : A -> SimpleCompileContext -> Prop) c : keeps (simple_failf fmt args) Q c.
Proof. done. Qed.

Lemma keeps_quiet {A} (Q : A -> SimpleCompileContext -> Prop) c : keeps quiet Q c.
Proof. done. Qed.

(** An element that is in its array. *)
Lemma in_array_room {A B} capacity (used : list A) (f : unit -> C B) c : zlen used < capacity ->
  bindC (in_array capacity used) f c = f tt c.
Proof. intros H. unfold bindC, in_array. by replace (zlen used <? capacity) with true by lia. Qed.

Lemma keeps_array {A B} capacity (used : list A) (f : unit -> C B) Q c : zlen used < capacity -> keeps (f tt) Q c ->
  keeps (bindC (in_array capacity used) f) Q c.
Proof. intros H Hf. unfold keeps. by rewrite in_array_room. Qed.

Lemma keeps_or_fail {A} (x : C A) fmt args Q c : keeps x Q c -> keeps (or_fail x fmt args) Q c.
Proof. unfold keeps, or_fail. by destruct (x c). Qed.

Lemma keeps_some_or {A} (x : option A) (e : C A) (Q : A -> SimpleCompileContext -> Prop) c :
  context_ok c -> (forall a, x = Some a -> Q a c) -> (x = None -> keeps e Q c) -> keeps (some_or x e) Q c.
Proof. intros Hc H1 H2. destruct x as [a|]; [|by apply H2]. apply keepsC_ret; [done|by apply H1]. Qed.

Lemma keepsC_get c : context_ok c -> keeps getC (fun a c' => a = c /\ c' = c) c.
Proof. intros Hc. split; [done|]. by split. Qed.

Lemma keeps_ip c : context_ok c -> keeps current_ip (fun a c' => a = instruction_count (ctx_program c) /\ c' = c) c.
Proof. intros Hc. split; [done|]. by split. Qed.

(** ** Emitting *)

Lemma operand_mono n m n' m' i : n <= n' -> m <= m' -> operand_ok n m i -> operand_ok n' m' i.
Proof. intros Hn Hm [H1 H2]. split; [done|]. destruct (opcode i); lia. Qed.

Lemma fn_mono n n' f : n <= n' -> fn_ok n f -> fn_ok n' f.
Proof. unfold fn_ok. intros Hn (H1 & H2 & H3 & H4). split_and!; done || lia. Qed.

Lemma op_at_extends p p' ip op : extends p p' -> op_at p ip = Some op -> op_at p' ip = Some op.
Proof.
  unfold extends, op_at, zget. intros Hx. destruct (ip <? 0); [done|]. rewrite <- !list_lookup_fmap.
  intros H. by eapply prefix_lookup_Some.
Qed.

Lemma sites_mono p p' op l : extends p p' ->
  Forall (fun ip => op_at p ip = Some op) l -> Forall (fun ip => op_at p' ip = Some op) l.
Proof. intros Hx Hl. eapply Forall_impl; [exact Hl|]. intros ip. by apply op_at_extends. Qed.

Lemma frame_mono p p' f : instruction_count p <= instruction_count p' -> extends p p' -> frame_ok p f -> frame_ok p' f.
Proof. unfold frame_ok. intros Hn Hx (H1 & H2 & H3). split_and!; [lia..|by eapply sites_mono|by eapply sites_mono]. Qed.

(** A context whose program has grown. *)
Lemma context_grown c p : context_ok c -> code_ok p -> instruction_count (ctx_program c) <= instruction_count p ->
  constant_count (ctx_program c) <= constant_count p -> extends (ctx_program c) p ->
  context_ok (set_program p c) /\ grows c (set_program p c).
Proof.
  intros [H1 H2 H3 H4 H5 H6] Hp Hi Hm Hx. split; [|by constructor]. constructor; try done.
  - eapply Forall_impl; [exact H2|]. intros f. by apply fn_mono.
  - eapply Forall_impl; [exact H3|]. intros f. by apply frame_mono.
  - eapply Forall_impl; [exact H4|]. intros f. by apply op_at_extends.
Qed.

Lemma emit_keeps op operand c : context_ok c ->
  operand_ok (instruction_count (ctx_program c) + 1) (constant_count (ctx_program c)) (mk_instruction op operand) ->
  keeps (simple_emit_instruction op operand)
    (fun _ c' => op_at (ctx_program c') (instruction_count (ctx_program c)) = Some op) c.
Proof.
  intros Hc Ho. pose proof (ctx_code c Hc) as Hp. unfold keeps, simple_emit_instruction.
  destruct (Z.leb_spec AIVM_PROGRAM_MAX_INSTRUCTIONS (instruction_count (ctx_program c))) as [|Hroom]; [done|].
  unfold write_instruction. rewrite (code_capacity _ Hp), (code_count _ Hp), Z.eqb_refl.
  change AIVM_PROGRAM_MAX_INSTRUCTIONS with AIVM_PROGRAM_INLINE_INSTRUCTIONS in Hroom.
  rewrite (code_count _ Hp) in Hroom. destruct (Z.ltb_spec (zlen (instruction_store (ctx_program c))) AIVM_PROGRAM_INLINE_INSTRUCTIONS); [|lia].
  cbn [andb]. apply and3.
  2: { unfold op_at. cbn. rewrite zget_lookup by apply zlen_nonneg. unfold zlen. rewrite Nat2Z.id. by rewrite list_lookup_middle. }
  apply context_grown; [done| |rewrite (code_count _ Hp); cbn; lia|done|].
  2: { unfold extends. cbn. rewrite map_app. by apply prefix_app_r. }
  destruct Hp as [P1 P2 P3 P4 P5 P6 P7 P8 P9 P10 P11 P12]. rewrite P1 in *. constructor; cbn; try done.
  - rewrite zlen_app. done.
  - lia.
  - apply Forall_app. split; [|by constructor]. eapply Forall_impl; [exact P4|]. intros i. apply operand_mono; lia.
Qed.

Lemma emit_plain op operand c : context_ok c -> is_int64 operand ->
  op ∉ [AIVM_OP_JUMP; AIVM_OP_JUMP_IF_FALSE; AIVM_OP_CALL; AIVM_OP_CONST; AIVM_OP_LOAD_LOCAL; AIVM_OP_STORE_LOCAL] ->
  keeps (simple_emit_instruction op operand)
    (fun _ c' => op_at (ctx_program c') (instruction_count (ctx_program c)) = Some op) c.
Proof.
  intros Hc Hi Hop. apply emit_keeps; [done|]. split; [done|]. cbn [opcode].
  destruct op; try done; exfalso; apply Hop; repeat (first [left | right]); fail.
Qed.

Lemma count_nonneg c : context_ok c -> 0 <= instruction_count (ctx_program c) <= 32768.
Proof.
  intros Hc. pose proof (code_room _ (ctx_code c Hc)). rewrite (code_count _ (ctx_code c Hc)) in *.
  pose proof (zlen_nonneg (instruction_store (ctx_program c))). unfold AIVM_PROGRAM_INLINE_INSTRUCTIONS in *. lia.
Qed.

Lemma const_nonneg c : context_ok c -> 0 <= constant_count (ctx_program c) <= 1024.
Proof.
  intros Hc. pose proof (const_room _ (ctx_code c Hc)). rewrite (const_count _ (ctx_code c Hc)) in *.
  pose proof (zlen_nonneg (constant_store (ctx_program c))). unfold AIVM_PROGRAM_INLINE_CONSTANTS in *. lia.
Qed.

Lemma small_int64 z : 0 <= z <= 2 ^ 32 -> is_int64 z.
Proof. unfold is_int64, INT64_MIN, INT64_MAX. lia. Qed.

Lemma emit_jump op operand c : context_ok c -> op ∈ [AIVM_OP_JUMP; AIVM_OP_JUMP_IF_FALSE; AIVM_OP_CALL] ->
  0 <= operand <= instruction_count (ctx_program c) ->
  keeps (simple_emit_instruction op operand)
    (fun _ c' => op_at (ctx_program c') (instruction_count (ctx_program c)) = Some op) c.
Proof.
  intros Hc Hop Ho. pose proof (count_nonneg c Hc). apply emit_keeps; [done|]. split; [apply small_int64; cbn; lia|].
  cbn [opcode operand_int]. set_unfold in Hop. destruct Hop as [->|[->|[->|[]]]]; lia.
Qed.

Lemma emit_const operand c : context_ok c -> 0 <= operand < constant_count (ctx_program c) ->
  keeps (simple_emit_instruction AIVM_OP_CONST operand)
    (fun _ c' => op_at (ctx_program c') (instruction_count (ctx_program c)) = Some AIVM_OP_CONST) c.
Proof.
  intros Hc Ho. pose proof (const_nonneg c Hc). apply emit_keeps; [done|]. split; [apply small_int64; cbn; lia|done].
Qed.

Lemma emit_local op operand c : context_ok c -> op ∈ [AIVM_OP_LOAD_LOCAL; AIVM_OP_STORE_LOCAL] -> 0 <= operand < SIMPLE_MAX_LOCALS ->
  keeps (simple_emit_instruction op operand)
    (fun _ c' => op_at (ctx_program c') (instruction_count (ctx_program c)) = Some op) c.
Proof.
  intros Hc Hop Ho. unfold SIMPLE_MAX_LOCALS in *. apply emit_keeps; [done|]. split; [apply small_int64; cbn; lia|].
  cbn [opcode operand_int]. set_unfold in Hop. destruct Hop as [->|[->|[]]]; unfold SIMPLE_MAX_LOCALS; lia.
Qed.

Lemma zset_Forall {A} (P : A -> Prop) l i x : Forall P l -> P x -> Forall P (zset l i x).
Proof. intros Hl Hx. unfold zset. destruct (i <? 0); [done|]. by apply Forall_insert. Qed.


Lemma patch_keeps op ip operand c : context_ok c -> op_at (ctx_program c) ip = Some op ->
  op ∈ [AIVM_OP_JUMP; AIVM_OP_JUMP_IF_FALSE; AIVM_OP_CALL] -> 0 <= operand <= instruction_count (ctx_program c) ->
  keeps (patch_operand ip operand) (fun _ c' => instruction_count (ctx_program c') = instruction_count (ctx_program c)) c.
Proof.
  intros Hc Hop Hin Ho. pose proof (count_nonneg c Hc). unfold keeps, patch_operand, op_at in *.
  destruct (zget (instruction_store (ctx_program c)) ip) as [i|] eqn:Ei; [|done]. injection Hop as Hi.
  apply and3; [|done].
  apply context_grown; [done| |cbn; lia|cbn; lia|].
  - destruct (ctx_code c Hc) as [P1 P2 P3 P4 P5 P6 P7 P8 P9 P10 P11 P12]. constructor; cbn; try done.
    + by rewrite zlen_zset.
    + apply zset_Forall; [done|]. split; [apply small_int64; cbn; lia|]. cbn. rewrite Hi. set_unfold in Hin.
      destruct Hin as [->|[->|[->|[]]]]; lia.
  - unfold extends. cbn. pose proof (zget_split _ _ _ Ei) as [Es _]. erewrite zset_split by exact Ei.
    rewrite Es at 1. rewrite !map_app. cbn. done.
Qed.

(** ** Constants *)

Lemma cstr_app_stops l rest : 0 ∈ l -> cstr (l ++ rest) = cstr l.
Proof.
  induction l as [|c l IH]; intros Hin; [by apply not_elem_of_nil in Hin|]. cbn [app cstr].
  destruct (Z.eqb_spec c 0); [done|]. apply elem_of_cons in Hin as [|Hin]; [done|]. by rewrite IH.
Qed.

Lemma zdrop_app_inside {A} off (l rest : list A) : off <= zlen l -> zdrop off (l ++ rest) = zdrop off l ++ rest.
Proof. intros H. unfold zdrop, zlen in *. apply drop_app_le. lia. Qed.

Lemma cstr_length l : zlen (cstr l) <= zlen l.
Proof. induction l as [|c l IH]; [done|]. cbn [cstr]. rewrite zlen_cons. destruct (c =? 0); rewrite ?zlen_cons; [change (zlen []) with 0; pose proof (zlen_nonneg l); lia|lia]. Qed.

Section Storage.
Context (p p' : AivmProgram) (value : list Z)
  (Hs : string_storage p' = string_storage p ++ value) (Hb : bytes_storage p' = bytes_storage p).

(** More text after the texts of a program does not change them. *)
Lemma constant_ok_more v : constant_ok p v -> constant_ok p' v /\ spec_of p' v = spec_of p v.
Proof.
  intros Hv. destruct v as [|i|d|b| |s|b len|h|h| |h|h|h|h|h|h]; try done.
  - destruct s as [| |off|]; try done. cbn [constant_ok spec_of constant_text from_option] in *. rewrite Hs. destruct Hv as [H0 Hin].
    assert (off <= zlen (string_storage p)).
    { destruct (Z.le_gt_cases off (zlen (string_storage p))); [done|]. exfalso. unfold zdrop, zlen in *.
      rewrite drop_ge in Hin by lia. by apply not_elem_of_nil in Hin. }
    rewrite zdrop_app_inside by done. split; [split; [done|]; apply elem_of_app; by left|]. f_equal. by apply cstr_app_stops.
  - destruct b as [| |off|]; try done. cbn [constant_ok spec_of] in *. unfold constant_bytes. by rewrite Hb.
Qed.

Lemma constants_ok_grow vs : Forall (constant_ok p) vs ->
  Forall (constant_ok p') vs /\ map (spec_of p') vs = map (spec_of p) vs.
Proof.
  induction 1 as [|v vs Hv _ [IH1 IH2]]; [done|]. destruct (constant_ok_more v Hv) as [H1 H2].
  split; [by constructor|]. cbn. by rewrite H2, IH2.
Qed.
End Storage.

Lemma total_snoc {A} (f : A -> Z) l x : total f (l ++ [x]) = total f l + f x.
Proof. induction l as [|y l IH]; cbn [app total]; [lia|]. rewrite IH. lia. Qed.

(** A constant is added, with [value] as new text. *)
Definition with_constant (value : list Z) (v : AivmValue) (p : AivmProgram) : AivmProgram :=
  set_constants (constant_store p ++ [v]) (constant_count p + 1) (constant_capacity p)
    (set_storage (string_storage p ++ value) (bytes_storage p) p).

Lemma with_constant_ok value v p : code_ok p -> constant_count p < AIVM_PROGRAM_INLINE_CONSTANTS -> bytes_ok value ->
  zlen (string_storage p) + zlen value <= AIVM_PROGRAM_MAX_STRING_BYTES ->
  constant_ok (with_constant value v p) v ->
  string_need (spec_of (with_constant value v p) v) <= zlen value -> bytes_need (spec_of (with_constant value v p) v) = 0 ->
  code_ok (with_constant value v p).
Proof.
  intros [P1 P2 P3 P4 P5 P6 P7 P8 P9 P10 P11 P12] Hroom Hv Hlen Hok Hneed Hbytes.
  destruct (constants_ok_grow p (with_constant value v p) value eq_refl eq_refl _ P8) as [K1 K2].
  constructor; try done.
  - eapply Forall_impl; [exact P4|]. intros i. apply operand_mono; [done|cbn; lia].
  - cbn. rewrite zlen_app. change (zlen [v]) with 1. lia.
  - cbn. lia.
  - cbn [with_constant constant_store set_constants]. apply Forall_app. split; [done|]. by constructor.
  - apply Forall_app. by split.
  - cbn. rewrite zlen_app. lia.
  - cbn [with_constant constant_store set_constants]. rewrite map_app. cbn [map]. rewrite total_snoc. fold (with_constant value v p).
    rewrite K2. cbn [string_storage with_constant set_constants set_storage]. rewrite zlen_app. lia.
  - split; [by apply P12|]. cbn [with_constant constant_store set_constants]. rewrite map_app. cbn [map]. rewrite total_snoc.
    fold (with_constant value v p). rewrite K2, Hbytes. destruct P12 as [_ ->]. done.
Qed.

(** Constants are looked up by position. *)
Definition indexes : SimpleCompileContext -> Z -> SimpleCompileContext -> Prop :=
  fun _ i c' => 0 <= i < constant_count (ctx_program c').

Lemma find_constant_index f p i : code_ok p -> find_constant f p = Some i -> 0 <= i < constant_count p.
Proof.
  intros Hp. unfold find_constant. destruct (list_find _ _) as [[n v]|] eqn:E; [|done]. intros [= <-].
  apply list_find_Some in E as (E & _). apply lookup_take_Some in E as [E Hn].
  apply lookup_lt_Some in E. rewrite (const_count p Hp) in *. unfold zlen in *. lia.
Qed.

Lemma push_new value v c : context_ok c -> code_ok (with_constant value v (ctx_program c)) ->
  match write_constant (set_storage (string_storage (ctx_program c) ++ value) (bytes_storage (ctx_program c)) (ctx_program c))
          (constant_count (ctx_program c)) v with
  | Some p' => set_constants (constant_store p') (constant_count (ctx_program c) + 1) (constant_capacity p') p' =
      with_constant value v (ctx_program c)
  | None => False
  end.
Proof.
  intros Hc Hok. pose proof (ctx_code c Hc) as Hp. pose proof (const_room _ Hok) as Hr. cbn in Hr. unfold write_constant.
  cbn [constant_store set_storage constant_capacity]. rewrite (const_capacity _ Hp), (const_count _ Hp), Z.eqb_refl.
  rewrite (const_count _ Hp) in Hr. destruct (Z.ltb_spec (zlen (constant_store (ctx_program c))) AIVM_PROGRAM_INLINE_CONSTANTS); [|lia].
  cbn. unfold with_constant. by rewrite (const_count _ Hp), (const_capacity _ Hp).
Qed.

Lemma constant_added value v c : context_ok c -> code_ok (with_constant value v (ctx_program c)) ->
  context_ok (set_program (with_constant value v (ctx_program c)) c) /\ grows c (set_program (with_constant value v (ctx_program c)) c).
Proof. intros Hc Hok. apply context_grown; [done|done|cbn; lia|cbn; lia|by unfold extends]. Qed.

Lemma push_keeps v c : context_ok c -> constant_count (ctx_program c) < AIVM_PROGRAM_INLINE_CONSTANTS ->
  constant_ok (ctx_program c) v -> string_need (spec_of (ctx_program c) v) = 0 -> bytes_need (spec_of (ctx_program c) v) = 0 ->
  keeps (push_constant v) (fun _ c' => constant_count (ctx_program c') = constant_count (ctx_program c) + 1) c.
Proof.
  intros Hc Hroom Hv Hs Hb. pose proof (ctx_code c Hc) as Hp.
  destruct (constant_ok_more (ctx_program c) (with_constant [] v (ctx_program c)) [] eq_refl eq_refl v Hv) as [H1 H2].
  assert (Hok : code_ok (with_constant [] v (ctx_program c))).
  { apply with_constant_ok; try done; [by constructor| |by rewrite H2, Hs|by rewrite H2].
    change (zlen (@nil Z)) with 0. pose proof (text_room _ Hp). lia. }
  pose proof (push_new [] v c Hc Hok) as Hn. rewrite app_nil_r in Hn.
  replace (set_storage (string_storage (ctx_program c)) (bytes_storage (ctx_program c)) (ctx_program c)) with (ctx_program c) in Hn
    by (by destruct (ctx_program c)).
  unfold keeps, push_constant. destruct (write_constant _ _ _) as [p'|]; [|done]. rewrite Hn.
  apply and3; [by apply constant_added|done].
Qed.

(** A new text constant. *)
Lemma with_text_ok value p : code_ok p -> bytes_ok value -> constant_count p < AIVM_PROGRAM_INLINE_CONSTANTS ->
  zlen (string_storage p) + zlen value + 1 <= AIVM_PROGRAM_MAX_STRING_BYTES ->
  code_ok (with_constant (value ++ [0]) (VString (SProgram (zlen (string_storage p)))) p).
Proof.
  intros Hp Hv Hroom Hlen. set (v := VString (SProgram (zlen (string_storage p)))).
  assert (Hsp : spec_of (with_constant (value ++ [0]) v p) v = CStr (cstr (value ++ [0]))).
  { unfold v. cbn [spec_of constant_text from_option with_constant string_storage set_constants set_storage id]. by rewrite zdrop_app. }
  apply with_constant_ok; try done.
  - apply Forall_app. split; [done|]. by repeat constructor.
  - rewrite zlen_app. change (zlen [0]) with 1. lia.
  - cbn [v constant_ok with_constant string_storage set_constants set_storage]. rewrite zdrop_app. split; [apply zlen_nonneg|].
    apply elem_of_app. right. by left.
  - rewrite Hsp. cbn [string_need]. rewrite zlen_app. change (zlen [0]) with 1.
    assert (zlen (cstr (value ++ [0])) <= zlen value); [|lia].
    clear. induction value as [|d value IH]; [done|]. cbn [app cstr]. rewrite zlen_cons. destruct (d =? 0); rewrite ?zlen_cons.
    + change (zlen (@nil Z)) with 0. pose proof (zlen_nonneg value). lia.
    + lia.
Qed.

Lemma add_string_safe value : bytes_ok value -> safe (simple_add_string_const value) indexes.
Proof.
  intros Hv c Hc. pose proof (ctx_code c Hc) as Hp. unfold simple_add_string_const.
  eapply keepsC_bind; [by apply keepsC_get|]. intros ? ? _ _ [-> ->].
  destruct (find_constant _ _) as [i|] eqn:Ef; [apply keepsC_ret; [done|]; by eapply find_constant_index|].
  destruct (Z.leb_spec AIVM_PROGRAM_INLINE_CONSTANTS (constant_count (ctx_program c))) as [|Hroom]; [apply keepsC_fail|].
  destruct (Z.ltb_spec AIVM_PROGRAM_MAX_STRING_BYTES (zlen (string_storage (ctx_program c)) + zlen value + 1)) as [|Hlen]; [apply keepsC_fail|].
  pose proof (with_text_ok value (ctx_program c) Hp Hv Hroom Hlen) as Hok. set (v := VString _) in *.
  pose proof (push_new (value ++ [0]) v c Hc Hok) as Hn. destruct (constant_added (value ++ [0]) v c Hc Hok) as [Hc' Hg].
  unfold keeps, bindC, modifyC, push_constant. cbn [ctx_program Compiler.set_program constant_count set_storage].
  destruct (write_constant _ _ _) as [p'|]; [|done]. rewrite Hn. cbn [ret].
  split_and!; [exact Hc'|exact Hg|]. unfold indexes. cbn. pose proof (const_nonneg c Hc). lia.
Qed.

Lemma find_or_push_safe (f : AivmValue -> bool) v fail_text : (forall p, constant_ok p v /\ string_need (spec_of p v) = 0 /\ bytes_need (spec_of p v) = 0) ->
  safe (get! c := getC in
        match find_constant f (ctx_program c) with
        | Some i => ret i
        | None =>
            if AIVM_PROGRAM_INLINE_CONSTANTS <=? constant_count (ctx_program c) then simple_fail fail_text
            else run! push_constant v in ret (constant_count (ctx_program c))
        end)%aivm indexes.
Proof.
  intros Hv c Hc. eapply keepsC_bind; [by apply keepsC_get|]. intros ? ? _ _ [-> ->].
  destruct (find_constant _ _) as [i|] eqn:Ef; [apply keepsC_ret; [done|]; eapply find_constant_index; [apply Hc|done]|].
  destruct (Z.leb_spec AIVM_PROGRAM_INLINE_CONSTANTS (constant_count (ctx_program c))) as [|Hroom]; [apply keepsC_fail|].
  destruct (Hv (ctx_program c)) as (H1 & H2 & H3).
  eapply keepsC_bind; [by apply push_keeps|cbn beta]. intros ? c' Hc' _ Hcount. apply keepsC_ret; [done|]. unfold indexes.
  pose proof (const_nonneg c Hc). lia.
Qed.

(** ** Texts *)

Lemma bytes_of_string_ok s : bytes_ok (bytes_of_string s).
Proof.
  induction s as [|a s IH]; [constructor|]. constructor; [|done].
  pose proof (Ascii.N_ascii_bounded a). unfold is_byte. lia.
Qed.

Section Texts.
Context (P : Z -> Prop).

Lemma drop_while_forall f l : Forall P l -> Forall P (drop_while f l).
Proof. induction 1 as [|c l Hc Hl IH]; [constructor|]. cbn. destruct (f c); [done|by constructor]. Qed.
Lemma take_while_forall f l : Forall P l -> Forall P (take_while f l).
Proof. induction 1 as [|c l Hc Hl IH]; [constructor|]. cbn. destruct (f c); by constructor. Qed.
Lemma zdrop_forall n (l : list Z) : Forall P l -> Forall P (zdrop n l).
Proof. apply Forall_drop. Qed.
Lemma ztake_forall n (l : list Z) : Forall P l -> Forall P (ztake n l).
Proof. apply Forall_take. Qed.
Lemma skip_token_forall l : Forall P l -> forall q e, Forall P (skip_token q e l).
Proof.
  induction 1 as [|c l Hc Hl IH]; intros q e; [constructor|]. cbn [skip_token].
  destruct q; [destruct (_ && _); apply IH|]. destruct (attr_separator c); [by constructor|apply IH].
Qed.
Lemma quoted_value_forall l : Forall P l -> forall e, Forall P (quoted_value e l).
Proof. induction 1 as [|c l Hc Hl IH]; intros e; [constructor|]. cbn. destruct (_ && _); [constructor|]. by constructor. Qed.

Lemma attr_value_at_forall p key q : Forall P p -> attr_value_at p key = Some q -> Forall P q.
Proof.
  intros Hp. unfold attr_value_at. destruct (starts_with p key); [|done].
  pose proof (zdrop_forall (zlen key) p Hp) as Hd. destruct (zdrop (zlen key) p) as [|c l] eqn:E; [done|].
  destruct (_ || _); [|done]. pose proof (drop_while_forall line_space _ Hd) as Hw. rewrite <- E in *.
  destruct (drop_while line_space (zdrop (zlen key) p)) as [|e q']; [done|]. destruct (e =? 61); [|done].
  intros [= <-]. apply drop_while_forall. by inversion Hw.
Qed.

Lemma attr_start_forall fuel : forall p key q, Forall P p -> attr_start_loop fuel p key = Some q -> Forall P q.
Proof.
  induction fuel as [|fuel IH]; intros p key q Hp; [done|]. cbn [attr_start_loop]. destruct p as [|c p]; [done|].
  pose proof (drop_while_forall attr_separator _ Hp) as Hd. set (p1 := drop_while attr_separator (c :: p)) in *.
  destruct (attr_value_at p1 key) as [r|] eqn:E; [intros [= <-]; by eapply attr_value_at_forall|].
  intros H. eapply IH; [|exact H]. by apply skip_token_forall.
Qed.

Lemma span_forall attrs key n value : Forall P attrs -> parse_attr_span attrs key n = Some value -> Forall P value.
Proof.
  intros Ha. unfold parse_attr_span, parse_attr_value_start. destruct (zlen key =? 0); [done|].
  destruct (attr_start_loop _ attrs key) as [q|] eqn:E; [|done]. apply attr_start_forall in E; [|done].
  cbn [mbind option_bind]. set (v := if head_is 34 q then _ else _).
  assert (Forall P v) by (unfold v; destruct (head_is 34 q); [by apply quoted_value_forall, zdrop_forall|by apply take_while_forall]).
  destruct (_ <? _); [done|]. by intros [= <-].
Qed.

Lemma view_forall range v : Forall P range -> simple_parse_next_node range = Some v ->
  Forall P (kind v) /\ Forall P (attrs v) /\ Forall P (body v) /\ Forall P (next v).
Proof.
  intros Hr. unfold simple_parse_next_node. set (ks := drop_while blank range).
  assert (Hks : Forall P ks) by by apply drop_while_forall.
  destruct (_ || _); [done|]. destruct (_ || _); [done|]. destruct (_ <? _); [done|].
  set (kid := if head_is 35 _ then _ else _).
  assert (Hkid : Forall P kid).
  { unfold kid. destruct (head_is 35 _); [apply drop_while_forall, zdrop_forall|]; by apply drop_while_forall. }
  assert (Ha : forall a, parse_attrs kid = Some a -> Forall P a.1 /\ Forall P a.2).
  { unfold parse_attrs. intros a. destruct (head_is 40 kid); [|intros [= <-]; by split].
    destruct (simple_find_matching_paren kid); [|done]. cbn [mbind option_bind]. destruct (_ <? _); [done|].
    intros [= <-]. split; [by apply ztake_forall, zdrop_forall|by apply zdrop_forall]. }
  destruct (parse_attrs kid) as [a|]; [|done]. destruct (Ha a eq_refl) as [Ha1 Ha2]. cbn [mbind option_bind].
  assert (Hw : Forall P (drop_while blank a.2)) by by apply drop_while_forall.
  unfold parse_body. destruct (head_is 123 _).
  - destruct (simple_find_matching_brace _); [|done]. cbn [mbind option_bind]. intros [= <-].
    split_and!; [by apply take_while_forall|done|by apply ztake_forall, zdrop_forall|by apply zdrop_forall].
  - cbn [mbind option_bind]. intros [= <-]. split_and!; [by apply take_while_forall|done|constructor|done].
Qed.
End Texts.

Lemma unescape_ok input w n text : bytes_ok input -> unescape_loop input w n = Some text -> bytes_ok text.
Proof.
  intros Hi. remember (length input) as m eqn:Em. assert (Hm : (length input <= m)%nat) by lia. clear Em.
  revert input w text Hi Hm. induction m as [|m IH]; intros input w text Hi Hm.
  { destruct input; [|cbn in Hm; lia]. by intros [= <-]. }
  destruct input as [|c input]; [by intros [= <-]|]. apply Forall_cons in Hi as [Hc Hi]. cbn in Hm. cbn [unescape_loop].
  destruct (c =? 92).
  - destruct input as [|e input]; [done|]. apply Forall_cons in Hi as [He Hi]. cbn in Hm. destruct (n <=? w + 1); [done|].
    set (ch := if e =? 110 then _ else _). assert (Hch : forall x, ch = Some x -> is_byte x).
    { unfold ch. intros x. repeat (destruct (_ =? _); [intros [= <-]; done|]). destruct (_ || _); [|done]. by intros [= <-]. }
    destruct ch as [x|]; [|done]. cbn [mbind option_bind]. destruct (unescape_loop input _ n) as [rest|] eqn:E; [|done].
    cbn [mbind option_bind]. intros [= <-]. constructor; [by apply Hch|]. eapply IH; [| |exact E]; [done|lia].
  - destruct (n <=? w + 1); [done|]. destruct (unescape_loop input _ n) as [rest|] eqn:E; [|done].
    cbn [mbind option_bind]. intros [= <-]. constructor; [done|]. eapply IH; [| |exact E]; [done|lia].
Qed.

Lemma views_ok n : forall range, (length range <= n)%nat -> bytes_ok range -> Forall view_ok (views range).
Proof.
  induction n as [|n IH]; intros range Hn Hr; rewrite views_step.
  { destruct range; [constructor|cbn in Hn; lia]. }
  destruct (simple_parse_next_node range) as [v|] eqn:E; [|constructor].
  destruct (view_forall _ _ _ Hr E) as (H1 & H2 & H3 & H4). apply parse_node_shorter in E as [E _].
  constructor; [done|]. apply IH; [lia|done].
Qed.

(** The nodes a compilation goes on with are children. *)
Definition child_of (node v : SimpleNodeView) : Prop := view_ok v /\ (length (body v) < length (body node))%nat.

Lemma children_ok node : view_ok node -> Forall (child_of node) (views (body node)).
Proof.
  intros (_ & _ & Hb). apply Forall_forall. intros v Hv. split; [|by apply view_body_shorter].
  by eapply Forall_forall; [eapply views_ok; [done|exact Hb]|].
Qed.

Lemma parse_nodes_views n : forall range vs, parse_nodes n range = Some vs -> vs = take n (views range) /\ length vs = n.
Proof.
  induction n as [|n IH]; intros range vs; cbn [parse_nodes]; [by intros [= <-]|].
  rewrite views_step. destruct (simple_parse_next_node range) as [v|]; [|done]. cbn [mbind option_bind].
  destruct (parse_nodes n (next v)) as [rest|] eqn:E; [|done]. cbn [mbind option_bind]. intros [= <-].
  apply IH in E as [-> E]. cbn [take length]. by rewrite E.
Qed.

Lemma parse_nodes_ok n node vs : view_ok node -> parse_nodes n (body node) = Some vs -> Forall (child_of node) vs /\ length vs = n.
Proof.
  intros Hn H. apply parse_nodes_views in H as [-> H]. split; [|done]. by apply Forall_take, children_ok.
Qed.

Lemma parse_child_ok node v : view_ok node -> simple_parse_next_node (body node) = Some v -> child_of node v.
Proof.
  intros Hn H. pose proof (children_ok node Hn) as Hc. rewrite views_step, H in Hc. by inversion Hc.
Qed.

(** ** Locals, functions and fixups *)

(** A concrete element of a concrete list. *)
Ltac listed := apply (bool_decide_unpack _); exact I.

Tactic Notation "kb" tactic(t) := eapply keepsC_bind; [solve [t] | cbn beta].

Lemma safe_any {A} (x : C A) Q : safe x Q -> safe x any.
Proof. intros H c Hc. eapply keeps_weaken; [by apply H|done]. Qed.

Lemma keeps_any {A} (x : C A) Q c : keeps x Q c -> keeps x (fun _ _ => True) c.
Proof. intros H. by eapply keeps_weaken. Qed.

Lemma with_locals c l : context_ok c -> slots_ok l ->
  context_ok (Compiler.set_locals l c) /\ grows c (Compiler.set_locals l c).
Proof. intros [H1 H2 H3 H4 H5 H6] Hl. split; [by constructor|]. constructor; done. Qed.

Lemma keeps_locals l Q c : context_ok c -> slots_ok l -> Q tt (Compiler.set_locals l c) -> keeps (modifyC (Compiler.set_locals l)) Q c.
Proof. intros Hc Hl Hq. apply and3; [by apply with_locals|done]. Qed.

Lemma slots_snoc l name : slots_ok l -> zlen l < SIMPLE_MAX_LOCALS -> slots_ok (l ++ [(name, zlen l)]).
Proof.
  intros [H1 H2] Hl. split; [rewrite zlen_app; change (zlen [(name, zlen l)]) with 1; lia|].
  intros i x Hx. apply lookup_app_Some in Hx as [Hx|[Hi Hx]]; [by apply H2|].
  apply list_lookup_singleton_Some in Hx as [Hx <-]. cbn. unfold zlen. lia.
Qed.

Lemma slots_take n l : slots_ok l -> slots_ok (ztake n l).
Proof.
  intros [H1 H2]. split.
  - unfold ztake, zlen in *. rewrite length_take. lia.
  - intros i x Hx. unfold ztake in Hx. apply lookup_take_Some in Hx as [Hx _]. by apply H2.
Qed.

Definition is_slot : SimpleCompileContext -> Z -> SimpleCompileContext -> Prop := fun _ slot _ => 0 <= slot < SIMPLE_MAX_LOCALS.

Lemma found_slot l (f : list Z * Z -> Prop) `{forall x, Decision (f x)} i x : slots_ok l -> list_find f l = Some (i, x) -> 0 <= Z.of_nat i < SIMPLE_MAX_LOCALS /\ x.2 = Z.of_nat i.
Proof.
  intros [H1 H2] Hf. apply list_find_Some in Hf as (Hf & _). pose proof (lookup_lt_Some _ _ _ Hf).
  split; [unfold zlen in H1; lia|by apply H2].
Qed.

Lemma locals_lookup_safe name create : safe (simple_locals_lookup name create) is_slot.
Proof.
  intros c Hc. unfold simple_locals_lookup. kb (by apply keepsC_get). intros ? ? _ _ [-> ->].
  pose proof (ctx_slots c Hc) as Hs. destruct (list_find _ _) as [[i x]|] eqn:E.
  { destruct (found_slot _ _ _ _ Hs E) as [H1 H2]. apply keepsC_ret; [done|]. red. lia. }
  destruct create; [|apply keeps_quiet]. cbn [negb].
  destruct (Z.leb_spec SIMPLE_MAX_LOCALS (zlen (ctx_locals c))); [apply keepsC_fail|].
  do 2 (destruct (_ <=? _); [apply keepsC_fail|]). apply keeps_array; [done|].
  eapply keepsC_bind; [apply (keeps_locals _ (fun _ _ => True)); [done| |done]; by apply slots_snoc|].
  intros ? c' Hc' _ _. apply keepsC_ret; [done|]. red. pose proof (zlen_nonneg (ctx_locals c)). lia.
Qed.

Lemma lookup_local_safe name : safe (simple_lookup_local name false) is_slot.
Proof.
  intros c Hc. unfold simple_lookup_local. kb (by apply keepsC_get). intros ? ? _ _ [-> ->].
  unfold local_position. destruct (list_find _ _) as [[i x]|] eqn:E; [|apply keeps_quiet].
  destruct (found_slot _ _ _ _ (ctx_slots c Hc) E) as [H1 H2]. apply keepsC_ret; [done|]. red. lia.
Qed.

Lemma add_fixup_keeps ip target c : context_ok c -> op_at (ctx_program c) ip = Some AIVM_OP_CALL ->
  keeps (simple_add_fixup ip target) (fun _ _ => True) c.
Proof.
  intros Hc Hop. unfold simple_add_fixup. kb (by apply keepsC_get). intros ? ? _ _ [-> ->].
  destruct (Z.leb_spec SIMPLE_MAX_FIXUPS (zlen (fixups c))); [apply keeps_quiet|].
  destruct (64 <=? zlen target); [apply keeps_quiet|]. apply keeps_array; [done|]. destruct Hc as [H1 H2 H3 H4 H5 H6].
  apply and3; [|done]. split.
  - constructor; try done; cbn.
    + apply Forall_app. split; [done|]. by constructor.
    + rewrite zlen_app. change (zlen [mk_fixup ip target]) with 1. lia.
  - constructor; try done. cbn. rewrite zlen_app. change (zlen [mk_fixup ip target]) with 1. lia.
Qed.

Lemma funcs_length c c' : grows c c' -> zlen (funcs c') = zlen (funcs c).
Proof. intros H. rewrite <- (zlen_map fn_key), (grows_funcs _ _ H). apply zlen_map. Qed.

Lemma fn_at c i : context_ok c -> 0 <= i < zlen (funcs c) ->
  exists f, zget (funcs c) i = Some f /\ fn_ok (instruction_count (ctx_program c)) f.
Proof.
  intros Hc Hi. destruct (zget_is_Some _ _ Hi) as [f Hf]. exists f. split; [done|].
  rewrite zget_lookup in Hf by lia. eapply Forall_lookup_1; [apply (ctx_funcs c Hc)|done].
Qed.

Lemma find_func_index name c i : simple_find_func name c = Some i -> 0 <= i < zlen (funcs c).
Proof.
  unfold simple_find_func. destruct (list_find _ _) as [[n f]|] eqn:E; [|done]. intros [= <-].
  apply list_find_Some in E as (E & _). apply lookup_lt_Some in E. unfold zlen. lia.
Qed.

Lemma zero_target c : context_ok c -> 0 <= 0 <= instruction_count (ctx_program c).
Proof. intros Hc. pose proof (count_nonneg c Hc). lia. Qed.

Lemma emit_call_keeps e1 e2 i target c : context_ok c -> 0 <= i < zlen (funcs c) ->
  keeps (emit_call e1 e2 i target) (fun _ _ => True) c.
Proof.
  intros Hc Hi. unfold emit_call. kb (by apply keeps_ip). intros ? ? _ _ [-> ->].
  kb (apply keeps_or_fail, emit_jump; [done|listed|by apply zero_target]). intros _ c1 Hc1 Hg Hop.
  kb (by apply keepsC_get). intros ? ? _ _ [-> ->].
  destruct (fn_at c1 i Hc1) as (f & -> & _ & _ & _ & He); [by rewrite (funcs_length c c1)|].
  destruct (compiled f).
  - eapply keeps_any, patch_keeps; [done|exact Hop|listed|done].
  - by apply keeps_or_fail, add_fixup_keeps.
Qed.

Lemma patch_all_keeps op sites operand c : context_ok c -> op ∈ [AIVM_OP_JUMP; AIVM_OP_JUMP_IF_FALSE; AIVM_OP_CALL] ->
  Forall (fun ip => op_at (ctx_program c) ip = Some op) sites -> 0 <= operand <= instruction_count (ctx_program c) ->
  keeps (patch_all sites operand) (fun _ c' => instruction_count (ctx_program c') = instruction_count (ctx_program c)) c.
Proof.
  intros Hc Hop Hs. revert c Hc Hs. induction sites as [|ip sites IH]; intros c Hc Hs Ho; cbn [patch_all].
  { by apply keepsC_ret. }
  apply Forall_cons in Hs as [H1 H2]. kb (by eapply patch_keeps). intros _ c1 Hc1 Hg Hn.
  eapply keeps_weaken; [apply IH; [done| |lia]|].
  - eapply sites_mono; [apply (grows_ops _ _ Hg)|done].
  - intros _ c2 _ _ ->. done.
Qed.
