(* ===== verification/CompilerSound.v ===== *)
(** * Every compilation ends, and within its program

    The functions of the compiler keep the invariant of [CompilerSafety] on every node:
    expressions, statements and blocks by their depth of calls, then functions, the
    resolution of calls and the program as a whole. *)

From S2P Require Import Prelude Types NumberText Program LoaderSafety LoaderFormat AosText ProgramWriter Vm Compiler CompilerSafety.
From Stdlib Require Import SpecFloat.

Local Open Scope aivm_scope.

(** ** Sequencing *)

Lemma safe_bind {A B} (x : C A) (f : A -> C B) R : safe x R ->
  (forall a c c', context_ok c -> context_ok c' -> grows c c' -> R c a c' -> keeps (f a) (fun _ _ => True) c') -> safe (bindC x f) any.
Proof. intros Hx Hf c Hc. eapply keepsC_bind; [by apply Hx|]. intros a c' Hc' Hg Hr. exact (Hf a c c' Hc Hc' Hg Hr). Qed.

Lemma safe_then {A B} (x : C A) (f : A -> C B) : safe x any -> (forall a, safe (f a) any) -> safe (bindC x f) any.
Proof. intros Hx Hf. eapply safe_bind; [exact Hx|]. intros a c c' _ Hc' _ _. by apply Hf. Qed.

Lemma safe_or_fail {A} (x : C A) fmt args Q : safe x Q -> safe (or_fail x fmt args) Q.
Proof. intros Hx c Hc. by apply keeps_or_fail, Hx. Qed.

Lemma safe_ret {A} (a : A) : safe (ret a) any.
Proof. intros c Hc. by apply keepsC_ret. Qed.

Lemma safe_fail {A} fmt args Q : safe (simple_failf (A := A) fmt args) Q.
Proof. done. Qed.

Lemma safe_quiet {A} Q : safe (quiet (A := A)) Q.
Proof. done. Qed.

(** A value that is there, or the end of the compilation. *)
Lemma keeps_some {A B} (x : option A) (e : C A) (f : A -> C B) Q c : (forall R, keeps e R c) ->
  (forall a, x = Some a -> keeps (f a) Q c) -> keeps (bindC (some_or x e) f) Q c.
Proof.
  intros He Hf. unfold bindC, keeps, some_or. destruct x as [a|]; [by apply Hf|].
  specialize (He (fun _ _ => False)). unfold keeps in He. destruct (e c); [|done..]. by destruct He as (_ & _ & []).
Qed.

Lemma safe_some {A B} (x : option A) (e : C A) (f : A -> C B) : (forall R, safe e R) ->
  (forall a, x = Some a -> safe (f a) any) -> safe (bindC (some_or x e) f) any.
Proof.
  intros He Hf c Hc. apply keeps_some; [intros R; by apply (He (fun _ => R))|]. intros a Ha. by apply Hf.
Qed.

(** What holds at the end of a compilation, where it is not what [keeps] says. *)
Definition ends {A} (x : C A) (P : A -> SimpleCompileContext -> Prop) (c : SimpleCompileContext) : Prop :=
  match x c with Done a c' => P a c' | Failed _ => True | Wrong => False end.

Lemma ends_bind {A B} (x : C A) (f : A -> C B) R P c : keeps x R c ->
  (forall a c', context_ok c' -> grows c c' -> R a c' -> ends (f a) P c') -> ends (bindC x f) P c.
Proof.
  unfold keeps, ends, bindC. destruct (x c) as [a c'| |]; [|done..]. intros (H1 & H2 & H3) Hf. by apply Hf.
Qed.

Definition plain (op : AivmOpcode) : bool :=
  match op with
  | AIVM_OP_JUMP | AIVM_OP_JUMP_IF_FALSE | AIVM_OP_CALL | AIVM_OP_CONST | AIVM_OP_LOAD_LOCAL | AIVM_OP_STORE_LOCAL => false
  | _ => true
  end.

Lemma emit_safe op operand : plain op = true -> is_int64 operand -> safe (simple_emit_instruction op operand) any.
Proof.
  intros Hop Hi c Hc. eapply keeps_any, emit_plain; [done|done|]. set_unfold. intros Hin.
  repeat destruct Hin as [->|Hin]; done.
Qed.

Lemma emit_index {A} (x : C Z) fmt args (f : unit -> C A) : safe x indexes -> (forall a, safe (f a) any) ->
  safe (get! idx := x in run! or_fail (simple_emit_instruction AIVM_OP_CONST idx) fmt args in f tt) any.
Proof.
  intros Hx Hf. eapply safe_bind; [exact Hx|]. intros i c c' _ Hc' _ Hi.
  eapply keepsC_bind; [by apply keeps_or_fail, emit_const|]. intros ? c2 Hc2 _ _. by apply Hf.
Qed.

Lemma emit_constant (x : C Z) : safe x indexes -> safe (get! idx := x in simple_emit_instruction AIVM_OP_CONST idx) any.
Proof. intros Hx. eapply safe_bind; [exact Hx|]. intros i c c' _ Hc' _ Hi. by eapply keeps_any, emit_const. Qed.

Lemma emit_slot op fmt args (x : C Z) : op ∈ [AIVM_OP_LOAD_LOCAL; AIVM_OP_STORE_LOCAL] -> safe x is_slot ->
  safe (get! slot := or_fail x fmt args in simple_emit_instruction op slot) any.
Proof.
  intros Hop Hx. eapply safe_bind; [by apply safe_or_fail|]. intros i c c' _ Hc' _ Hi. by eapply keeps_any, emit_local.
Qed.

Lemma void_const_safe : safe simple_add_void_const indexes.
Proof. unfold simple_add_void_const. by apply find_or_push_safe. Qed.

Lemma emit_void_safe : safe simple_emit_void_const any.
Proof. apply emit_constant, safe_or_fail, void_const_safe. Qed.

Lemma emit_empty_safe : safe simple_emit_empty_string_const any.
Proof. apply emit_constant, safe_or_fail, add_string_safe. constructor. Qed.

Create HintDb compiler discriminated.
#[export] Hint Resolve safe_ret safe_fail safe_quiet emit_void_safe emit_empty_safe emit_safe safe_or_fail emit_constant
  add_string_safe locals_lookup_safe lookup_local_safe : compiler.

(** ** Literals *)

Lemma strtoll_range text z : strtoll text = Some z -> is_int64 z.
Proof.
  unfold strtoll. destruct (scan_sign _) as [neg t]. destruct (take_while isdigit t) as [|d ds]; [done|].
  destruct (drop_while isdigit t); [|done]. intros [= <-]. unfold is_int64, INT64_MIN, INT64_MAX. lia.
Qed.

Lemma decimal_double_valid neg m e : valid_binary 53 1024 (decimal_double neg m e) = true.
Proof.
  unfold decimal_double. destruct m; [done| |done]. destruct (0 <=? e); [apply double_of_bits_valid|].
  destruct (SFdiv_core_binary _ _ _ _ _ _) as [[q x] l]. apply double_of_bits_valid.
Qed.

Lemma strtod_valid text d : strtod text = Some d -> valid_binary 53 1024 d = true.
Proof.
  unfold strtod. destruct (scan_sign _) as [neg t]. case_bool_decide; [by intros [= <-]|].
  destruct (is_nan _); [by intros [= <-]|].
  assert (Hplain : forall d, match scan_digits isdigit t with
    | (digits, frac, []) => match digits with _ :: _ => Some (decimal_double neg (digits_value digits) (- frac)) | [] => None end
    | _ => None end = Some d -> valid_binary 53 1024 d = true).
  { intros d'. destruct (scan_digits isdigit t) as [[[|x ds] fr] [|r rest]]; try done. intros [= <-]. apply decimal_double_valid. }
  destruct t as [|a [|x hex]]; [apply Hplain..|]. clear Hplain.
  repeat case_match; try done; intros [= <-]; first [apply double_of_bits_valid|apply decimal_double_valid|done].
Qed.

Lemma number_const_safe d : valid_binary 53 1024 d = true -> safe (simple_add_number_const d) indexes.
Proof. intros Hd. unfold simple_add_number_const. by apply find_or_push_safe. Qed.

(** The constant of a null literal is written after the instruction that loads it. *)
Lemma null_literal_safe c : context_ok c -> constant_count (ctx_program c) < AIVM_PROGRAM_INLINE_CONSTANTS ->
  keeps (run! simple_emit_instruction AIVM_OP_CONST (constant_count (ctx_program c)) in push_constant VNull) (fun _ _ => True) c.
Proof.
  intros Hc Hroom.
  assert (H : keeps (run! push_constant VNull in simple_emit_instruction AIVM_OP_CONST (constant_count (ctx_program c)))
    (fun _ _ => True) c).
  { eapply keepsC_bind; [by apply push_keeps|]. cbn beta. intros _ c1 Hc1 _ Hn. eapply keeps_any, emit_const; [done|].
    pose proof (const_nonneg c Hc). lia. }
  revert H. pose proof (ctx_code c Hc) as Hp. unfold keeps, bindC, simple_emit_instruction, push_constant, write_constant, write_instruction.
  rewrite (const_capacity _ Hp), (code_capacity _ Hp), (const_count _ Hp), (code_count _ Hp), !Z.eqb_refl.
  rewrite (const_count _ Hp) in Hroom.
  destruct (Z.ltb_spec (zlen (constant_store (ctx_program c))) AIVM_PROGRAM_INLINE_CONSTANTS); [|lia]. cbn [andb].
  cbn [instruction_count ctx_program Compiler.set_program set_constants instruction_store instruction_capacity].
  rewrite (code_capacity _ Hp), (code_count _ Hp), !Z.eqb_refl.
  destruct (_ <=? _); [exact (fun _ => I)|]. destruct (_ && _); [|exact id].
  cbn [constant_capacity constant_count constant_store ctx_program Compiler.set_program set_instructions].
  rewrite (const_capacity _ Hp), (const_count _ Hp), Z.eqb_refl.
  destruct (Z.ltb_spec (zlen (constant_store (ctx_program c))) AIVM_PROGRAM_INLINE_CONSTANTS); [|lia]. exact id.
Qed.

Lemma literal_safe node : view_ok node -> safe (compile_literal node) any.
Proof.
  intros (_ & Ha & _). unfold compile_literal. apply safe_some; [done|]. intros value Hv.
  apply span_forall with (P := is_byte) in Hv; [|done].
  assert (Ht : safe (get! text := some_or (unescape_string value 4096)
      (simple_failf "string literal decode failed: raw=%s attrs=%s" [MText value; MText (attrs node)]) in
    get! idx := simple_add_string_const text in simple_emit_instruction AIVM_OP_CONST idx) any).
  { apply safe_some; [done|]. intros text Et. apply emit_constant, add_string_safe. eapply unescape_ok; [exact Hv|exact Et]. }
  destruct (negb _); cbn [andb]; [|done].
  destruct (bool_decide _); [apply emit_safe; [done|]; by destruct (bool_decide _)|].
  destruct (bool_decide (value = _)).
  { intros c Hc. eapply keepsC_bind; [by apply keepsC_get|]. intros ? ? _ _ [-> ->].
    destruct (Z.leb_spec AIVM_PROGRAM_INLINE_CONSTANTS (constant_count (ctx_program c))); [done|]. by apply null_literal_safe. }
  destruct (strtoll value) as [z|] eqn:Ez; [apply emit_safe; [done|]; by eapply strtoll_range|].
  destruct (strchr value 46), (strtod value) as [d|] eqn:Ed; try done.
  apply emit_constant, number_const_safe. by eapply strtod_valid.
Qed.

(** ** Expressions *)

Lemma compile_all_safe (e : SimpleNodeView -> C unit) vs : Forall (fun v => safe (e v) any) vs -> safe (compile_all e vs) any.
Proof. induction 1 as [|v vs Hv _ IH]; cbn [compile_all]; [apply safe_ret|]. by apply safe_then. Qed.

Lemma concat_safe (e : SimpleNodeView -> C unit) emit vs : safe emit any -> Forall (fun v => safe (e v) any) vs ->
  forall first, safe (compile_concat e emit first vs) any.
Proof.
  intros He. induction 1 as [|v vs Hv _ IH]; intros first; cbn [compile_concat]; [by destruct first; [apply safe_quiet|apply safe_ret]|].
  apply safe_then; [done|]. intros _. apply safe_then; [by destruct first; [apply safe_ret|]|done].
Qed.

(** The message of a compilation that fails for lack of operands. *)
Lemma missing_safe {A} fmt node (R : SimpleCompileContext -> A -> SimpleCompileContext -> Prop) : safe (missing fmt node) R.
Proof. apply safe_fail. Qed.

Lemma zero_int64 : is_int64 0.
Proof. done. Qed.
#[export] Hint Resolve zero_int64 missing_safe : compiler.

Lemma arithmetic_plain node : plain (arithmetic_opcode node) = true.
Proof. unfold arithmetic_opcode. by repeat case_match. Qed.

Lemma expr_node_safe fuel : forall node, view_ok node -> (length (body node) < fuel)%nat ->
  safe (simple_compile_expr_node fuel node) any.
Proof.
  induction fuel as [|fuel IH]; intros node Hn Hf; [lia|]. cbn [simple_compile_expr_node].
  assert (Hchild : forall v, child_of node v -> safe (simple_compile_expr_node fuel v) any).
  { intros v [Hv Hl]. apply IH; [done|lia]. }
  assert (Hchildren : forall vs, Forall (child_of node) vs -> Forall (fun v => safe (simple_compile_expr_node fuel v) any) vs).
  { intros vs Hvs. eapply Forall_impl; [exact Hvs|done]. }
  clear IH Hf.
  destruct (kind_is node "Lit"); [by apply literal_safe|].
  destruct (kind_is node "Var").
  { apply safe_some; [done|]. intros name _. apply emit_slot; [listed|apply lookup_local_safe]. }
  destruct (kind_is node "StrConcat"); [by apply concat_safe; [apply emit_safe|apply Hchildren, children_ok]|].
  destruct (kind_is node "StrEscape").
  { apply safe_some; [done|]. intros v Hv. apply parse_child_ok in Hv; [|done]. apply safe_then; [by apply Hchild|].
    intros _. by apply emit_safe. }
  destruct (kind_in node arithmetic_kinds); [|done].
  destruct (kind_is node "ToString").
  - apply safe_then; [|intros _; by apply emit_safe]. apply safe_or_fail, safe_some; [done|].
    intros v Hv. by apply Hchild, parse_child_ok.
  - apply safe_then; [|intros _; by apply emit_safe; [apply arithmetic_plain|]]. apply safe_or_fail, safe_some; [done|].
    intros vs Hvs. by apply compile_all_safe, Hchildren, (parse_nodes_ok 2).
Qed.

Section Calls.
Context (k : compilers) (node : SimpleNodeView) (Hn : view_ok node).

(** The compilers are safe on the children of the node. *)
Definition inner : Prop := forall v, child_of node v -> safe (expr k v) any /\ safe (stmt k v) any /\ safe (block k v) any.
Context (Hk : inner).

Lemma inner_exprs vs : Forall (child_of node) vs -> Forall (fun v => safe (expr k v) any) vs.
Proof. intros Hvs. eapply Forall_impl; [exact Hvs|]. intros v Hv. by apply Hk. Qed.

Lemma operands_safe n op missing : plain op = true -> (forall R, safe missing R) -> safe (operands k n node op missing) any.
Proof.
  intros Hop Hm. apply safe_some; [done|]. intros vs Hvs. apply safe_then; [|intros _; by apply emit_safe].
  by apply compile_all_safe, inner_exprs, (parse_nodes_ok n).
Qed.

Lemma operands_or_safe n op fmt args : plain op = true -> safe (operands_or k n node op fmt args) any.
Proof.
  intros Hop. apply safe_then; [|intros _; by apply emit_safe]. apply safe_or_fail, safe_some; [done|].
  intros vs Hvs. by apply compile_all_safe, inner_exprs, (parse_nodes_ok n).
Qed.

Lemma call_args_safe limit_error vs : Forall (child_of node) vs -> forall n, 0 <= n <= 32 ->
  safe (compile_call_args k limit_error vs n) (fun _ m _ => 0 <= m <= 32).
Proof.
  induction 1 as [|v vs Hv _ IH]; intros n Hle; cbn [compile_call_args]; [intros c Hc; by apply keepsC_ret|].
  destruct (Z.leb_spec 32 n); [done|]. intros c Hc. eapply keepsC_bind; [by apply Hk|]. intros _ c' Hc' _ _.
  apply IH; [lia|done].
Qed.

Lemma mapped_ok target : bytes_ok target -> bytes_ok (mapped_target target).
Proof. intros Ht. unfold mapped_target. repeat case_match; first [done|apply bytes_of_string_ok]. Qed.

Lemma call_target_safe target c : context_ok c ->
  forall arg_count, keeps (get! fn_index := some_or (simple_find_func target c) (simple_failf "unknown function target: %s" [MText target]) in
    get! f := some_or (zget (funcs c) fn_index) wrong in
    get! param_count := some_or (simple_param_count (params_raw f))
      (simple_failf "failed parsing params for target: %s" [MText target]) in
    if negb (arg_count =? param_count)
    then simple_failf "call target %s expects %llu args, got %llu" [MText target; MNum param_count; MNum arg_count]
    else emit_call "failed emitting CALL" "failed storing call fixup" fn_index target) (fun _ _ => True) c.
Proof.
  intros Hc arg_count. apply keeps_some; [done|]. intros i Hi. apply find_func_index in Hi.
  destruct (fn_at c i Hc Hi) as (f & -> & _). eapply keepsC_bind; [by apply (keepsC_ret f (fun g c' => g = f /\ c' = c))|]. intros ? ? _ _ [-> ->].
  apply keeps_some; [done|]. intros m _. destruct (negb _); [done|]. by apply emit_call_keeps.
Qed.

Lemma call_safe pop : safe (simple_compile_call_ext k node pop) any.
Proof.
  destruct Hn as (_ & Ha & _). apply safe_some; [done|]. intros target Ht. apply span_forall with (P := is_byte) in Ht; [|done].
  apply safe_then; [|intros _; destruct pop; [by apply safe_or_fail, emit_safe|apply safe_ret]].
  destruct (is_syscall_target target).
  - apply (emit_index _ _ _ (fun _ => _)); [by apply safe_or_fail, add_string_safe, mapped_ok|]. intros _.
    eapply safe_bind; [by apply call_args_safe; [apply children_ok|]|]. intros m c c' _ Hc' _ Hm.
    apply keeps_or_fail, emit_safe; [done| |done]. apply small_int64. cbn beta in Hm. lia.
  - eapply safe_bind; [by apply call_args_safe; [apply children_ok|]|]. intros m c c' _ Hc' _ _.
    eapply keepsC_bind; [by apply keepsC_get|]. intros ? ? _ _ [-> ->]. by apply call_target_safe.
Qed.
(** The comparison that guards a branch of a dynamic call. *)
Lemma compare_safe name slot : bytes_ok name -> 0 <= slot < SIMPLE_MAX_LOCALS ->
  safe (get! idx := simple_add_string_const name in
        run! simple_emit_instruction AIVM_OP_LOAD_LOCAL slot in
        run! simple_emit_instruction AIVM_OP_CONST idx in
        simple_emit_instruction AIVM_OP_EQ 0) any.
Proof.
  intros Hname Hslot. eapply safe_bind; [by apply add_string_safe|]. intros i c c' _ Hc' _ Hi.
  eapply keepsC_bind; [by apply emit_local; [|listed|]|]. intros _ c1 Hc1 Hg1 _.
  eapply keepsC_bind; [apply emit_const; [done|]|].
  - unfold indexes in Hi. pose proof (grows_const _ _ Hg1). lia.
  - intros _ c2 Hc2 _ _. by apply emit_safe.
Qed.

Definition jumps_at (ips : list Z) (c : SimpleCompileContext) : Prop :=
  Forall (fun ip => op_at (ctx_program c) ip = Some AIVM_OP_JUMP) ips.

Lemma jumps_grow ips c c' : grows c c' -> jumps_at ips c -> jumps_at ips c'.
Proof. intros Hg. apply sites_mono, (grows_ops _ _ Hg). Qed.

(** One branch: compare, arguments, call, and the jump to the end. *)
Lemma branch_keeps args name slot i e1 e2 (used : list Z) (f : Z -> C (list Z)) Q c : context_ok c -> bytes_ok name ->
  0 <= slot < SIMPLE_MAX_LOCALS -> 0 <= i < zlen (funcs c) -> Forall (child_of node) args ->
  (forall ip c', context_ok c' -> grows c c' -> op_at (ctx_program c') ip = Some AIVM_OP_JUMP -> keeps (f ip) Q c') ->
  keeps (run! or_fail
          (get! idx := simple_add_string_const name in
           run! simple_emit_instruction AIVM_OP_LOAD_LOCAL slot in
           run! simple_emit_instruction AIVM_OP_CONST idx in
           simple_emit_instruction AIVM_OP_EQ 0)
          "dynamic call target compare emit failed" [] in
        get! jump_false_ip := current_ip in
        run! or_fail (simple_emit_instruction AIVM_OP_JUMP_IF_FALSE 0) "dynamic call branch emit failed" [] in
        run! or_fail (compile_all (expr k) args) "dynamic call argument compile failed" [] in
        run! emit_call e1 e2 i name in
        if 128 <=? zlen used then simple_fail "dynamic call branch capacity exceeded"
        else
          get! jump_ip := current_ip in
          run! in_array 128 used in
          run! or_fail (simple_emit_instruction AIVM_OP_JUMP 0) "dynamic call end jump emit failed" [] in
          get! here := current_ip in
          run! patch_operand jump_false_ip here in
          f jump_ip) Q c.
Proof.
  intros Hc Hname Hslot Hi Hargs Hf. eapply keepsC_bind; [by apply keeps_or_fail, compare_safe|]. intros _ c1 Hc1 G1 _.
  eapply keepsC_bind; [by apply keeps_ip|]. intros ? ? _ _ [-> ->].
  eapply keepsC_bind; [by apply keeps_or_fail, emit_jump; [|listed|apply zero_target]|]. cbn beta. intros _ c2 Hc2 G2 O2.
  eapply keepsC_bind; [by apply keeps_or_fail, compile_all_safe; [apply inner_exprs|]|]. intros _ c3 Hc3 G3 _.
  eapply keepsC_bind; [apply emit_call_keeps; [done|]|].
  { rewrite (funcs_length c c3); [done|]. by do 2 etrans. }
  intros _ c4 Hc4 G4 _. destruct (Z.leb_spec 128 (zlen used)); [done|]. eapply keepsC_bind; [by apply keeps_ip|]. intros ? ? _ _ [-> ->].
  apply keeps_array; [done|].
  eapply keepsC_bind; [by apply keeps_or_fail, emit_jump; [|listed|apply zero_target]|]. cbn beta. intros _ c5 Hc5 G5 O5.
  eapply keepsC_bind; [by apply keeps_ip|]. intros ? ? _ _ [-> ->].
  eapply keepsC_bind; [eapply (patch_keeps AIVM_OP_JUMP_IF_FALSE); [done| |listed|]|].
  - eapply op_at_extends; [|exact O2]. apply grows_ops. by do 2 etrans.
  - pose proof (count_nonneg c5 Hc5). lia.
  - intros _ c6 Hc6 G6 _. apply Hf; [done|by do 6 (etrans; [|eassumption])|]. eapply op_at_extends; [apply grows_ops, G6|done].
Qed.

Lemma dynamic_branches_keeps candidates args slot indices : 0 <= slot < SIMPLE_MAX_LOCALS -> Forall (child_of node) args ->
  forall ends c, context_ok c -> Forall (fun i => 0 <= i < zlen (funcs c)) indices -> jumps_at ends c ->
  keeps (dynamic_branches k candidates args slot indices ends) jumps_at c.
Proof.
  intros Hslot Hargs. induction indices as [|i indices IH]; intros ends c Hc Hi He; cbn [dynamic_branches]; [by apply keepsC_ret|].
  apply Forall_cons in Hi as [Hi His]. eapply keepsC_bind; [by apply keepsC_get|]. intros ? ? _ _ [-> ->].
  destruct (fn_at c i Hc Hi) as (f & Ef & Hname & _). rewrite Ef. cbn [some_or].
  eapply keepsC_bind; [by apply (keepsC_ret f (fun g c' => g = f /\ c' = c))|]. intros ? ? _ _ [-> ->].
  apply keeps_some; [done|]. intros m _. destruct (negb _); [by apply IH|].
  destruct (match candidates with Some _ => _ | None => _ end); [by apply IH|].
  apply branch_keeps; [done..|]. intros ip c1 Hc1 Hg Hop. apply IH; [done| |].
  - eapply Forall_impl; [exact His|]. intros j. by rewrite (funcs_length c c1).
  - apply Forall_app. split; [by eapply jumps_grow|]. by constructor.
Qed.

Lemma dynamic_call_safe : safe (simple_compile_dynamic_call_ext k node) any.
Proof.
  apply safe_some; [done|]. intros v Hv. pose proof (children_ok node Hn) as Hch. rewrite views_step, Hv in Hch.
  apply Forall_cons in Hch as [Hchild Hargs]. cbv zeta. destruct (32 <? _); [done|].
  intros c Hc. eapply keepsC_bind; [by apply keepsC_get|]. intros ? ? _ _ [-> ->].
  eapply keepsC_bind with (R := fun slot _ => 0 <= slot < SIMPLE_MAX_LOCALS).
  { apply keeps_or_fail. eapply keepsC_bind; [by apply Hk|]. intros _ c1 Hc1 _ _.
    eapply keepsC_bind; [by apply locals_lookup_safe|]. intros slot c2 Hc2 _ Hslot.
    eapply keepsC_bind; [by apply emit_local; [|listed|]|]. intros _ c3 Hc3 _ _. by apply keepsC_ret. }
  cbn beta. intros slot c1 Hc1 _ Hslot. eapply keepsC_bind; [by apply keepsC_get|]. intros ? ? _ _ [-> ->].
  eapply keepsC_bind; [apply dynamic_branches_keeps; try done|].
  { apply Forall_forall. intros i Hi. apply list_elem_of_fmap in Hi as (j & -> & Hj). apply elem_of_seq in Hj. unfold zlen. lia. }
  { constructor. }
  intros ends c2 Hc2 G2 He. eapply keepsC_bind with (R := fun _ _ => True).
  { apply keeps_or_fail. eapply keepsC_bind; [by apply add_string_safe; [apply bytes_of_string_ok|]|]. intros i c3 Hc3 _ Hi.
    eapply keepsC_bind; [by apply emit_const|]. intros _ c4 Hc4 _ _. eapply keepsC_bind; [by apply emit_local; [|listed|]|].
    intros _ c5 Hc5 _ _. by apply emit_safe. }
  intros _ c3 Hc3 G3 _. eapply keepsC_bind; [by apply keeps_ip|]. intros ? ? _ _ [-> ->].
  eapply keeps_any, (patch_all_keeps AIVM_OP_JUMP); [done|listed|by eapply jumps_grow|].
  pose proof (count_nonneg c3 Hc3). lia.
Qed.
(** Two branches: the jumps between them lead into the program. *)
Definition emits (op : AivmOpcode) (j : C unit) : Prop := forall c, context_ok c ->
  keeps j (fun _ c' => op_at (ctx_program c') (instruction_count (ctx_program c)) = Some op) c.

Lemma emits_zero op : op ∈ [AIVM_OP_JUMP; AIVM_OP_JUMP_IF_FALSE; AIVM_OP_CALL] -> emits op (simple_emit_instruction op 0).
Proof. intros Hop c Hc. by apply emit_jump; [| |apply zero_target]. Qed.

Lemma emits_or_fail op j fmt args : emits op j -> emits op (or_fail j fmt args).
Proof. intros Hj c Hc. by apply keeps_or_fail, Hj. Qed.

Lemma patch_here op ip c : context_ok c -> op_at (ctx_program c) ip = Some op -> op ∈ [AIVM_OP_JUMP; AIVM_OP_JUMP_IF_FALSE; AIVM_OP_CALL] ->
  keeps (get! here := current_ip in patch_operand ip here) (fun _ _ => True) c.
Proof.
  intros Hc Hop Hin. eapply keepsC_bind; [by apply keeps_ip|]. intros ? ? _ _ [-> ->].
  eapply keeps_any, patch_keeps; [done|done|done|]. pose proof (count_nonneg c Hc). lia.
Qed.

Lemma if_safe {A B} (j1 j2 : C unit) (x : C unit) (y z : C A) (tail : A -> A -> Z -> C B) :
  emits AIVM_OP_JUMP_IF_FALSE j1 -> emits AIVM_OP_JUMP j2 -> safe x any -> safe y any -> safe z any ->
  (forall a b ip c, context_ok c -> op_at (ctx_program c) ip = Some AIVM_OP_JUMP -> keeps (tail a b ip) (fun _ _ => True) c) ->
  safe (run! x in
    get! jump_false_ip := current_ip in
    run! j1 in
    get! a := y in
    get! jump_end_ip := current_ip in
    run! j2 in
    get! else_ip := current_ip in
    run! patch_operand jump_false_ip else_ip in
    get! b := z in tail a b jump_end_ip) any.
Proof.
  intros H1 H2 Hx Hy Hz Ht c Hc. eapply keepsC_bind; [by apply Hx|]. intros _ c1 Hc1 _ _.
  eapply keepsC_bind; [by apply keeps_ip|]. intros ? ? _ _ [-> ->]. eapply keepsC_bind; [by apply H1|]. cbn beta. intros _ c2 Hc2 _ O2.
  eapply keepsC_bind; [by apply Hy|]. intros a c3 Hc3 G3 _. eapply keepsC_bind; [by apply keeps_ip|]. intros ? ? _ _ [-> ->].
  eapply keepsC_bind; [by apply H2|]. cbn beta. intros _ c4 Hc4 G4 O4. eapply keepsC_bind; [by apply keeps_ip|]. intros ? ? _ _ [-> ->].
  eapply keepsC_bind; [eapply (patch_keeps AIVM_OP_JUMP_IF_FALSE); [done| |listed|]|].
  - eapply op_at_extends; [|exact O2]. apply grows_ops. by etrans.
  - pose proof (count_nonneg c4 Hc4). lia.
  - intros _ c5 Hc5 G5 _. eapply keepsC_bind; [by apply Hz|]. intros b c6 Hc6 G6 _. apply Ht; [done|].
    eapply op_at_extends; [|exact O4]. apply grows_ops. by etrans.
Qed.

Lemma three_nodes vs : Forall (child_of node) vs /\ length vs = 3%nat ->
  exists a b c, vs = [a; b; c] /\ child_of node a /\ child_of node b /\ child_of node c.
Proof.
  intros [H Hl]. destruct vs as [|a [|b [|c [|]]]]; try done. exists a, b, c. rewrite !Forall_cons in H. tauto.
Qed.

Lemma if_expr_safe : safe (simple_compile_if_expr_ext k node) any.
Proof.
  apply safe_some; [done|]. intros vs Hvs. apply (parse_nodes_ok 3) in Hvs; [|done].
  apply three_nodes in Hvs as (x & y & z & -> & Hx & Hy & Hz).
  apply (if_safe _ _ _ _ _ (fun _ _ ip => get! end_ip := current_ip in patch_operand ip end_ip));
    [apply emits_or_fail, emits_zero; listed..|by apply Hk|by apply Hk|by apply Hk|].
  intros _ _ ip c Hc Hop. eapply patch_here; [done|exact Hop|listed].
Qed.

Lemma field_safe : safe (compile_field k node) any.
Proof.
  destruct Hn as (_ & Ha & _). apply safe_some; [done|]. intros key Hkey. apply span_forall with (P := is_byte) in Hkey; [|done].
  apply safe_some; [done|]. intros v Hv. apply parse_child_ok in Hv; [|done].
  eapply safe_bind; [by apply add_string_safe|]. intros i c c' _ Hc' _ Hi. eapply keepsC_bind; [by apply emit_const|].
  intros _ c1 Hc1 _ _. eapply keepsC_bind; [by apply Hk|]. intros _ c2 Hc2 _ _. by apply emit_safe.
Qed.

Lemma fields_safe vs : Forall (child_of node) vs -> safe (compile_fields k vs) any.
Proof.
  induction 1 as [|v vs Hv _ IH]; cbn [compile_fields]; [apply safe_ret|]. destruct (negb _); [done|].
  apply safe_then; [by apply Hk|done].
Qed.

Lemma map_safe : safe (compile_map k node) any.
Proof.
  apply safe_then; [by apply fields_safe, children_ok|]. intros _. apply safe_then; [|intros _; by apply emit_safe].
  apply emit_safe; [done|]. set (n := zlen (views (body node))). pose proof (Z.mod_pos_bound n (2 ^ 64)).
  unfold i64_of_u64, u64, is_int64, INT64_MIN, INT64_MAX. destruct (Z.ltb_spec (n mod 2 ^ 64) (2 ^ 63)); lia.
Qed.

Lemma block_expr_safe vs : Forall (child_of node) vs -> forall emitted, safe (compile_block_expr k vs emitted) any.
Proof.
  induction 1 as [|v vs Hv Hvs IH]; intros emitted; cbn [compile_block_expr].
  { destruct emitted; [apply safe_ret|apply emit_empty_safe]. }
  assert (Hcase : forall y, safe y any -> safe (get! did_return := stmt k v in if (did_return : bool) then ret tt else y) any).
  { intros y Hy. apply safe_then; [by apply Hk|]. intros [|]; [apply safe_ret|done]. }
  destruct vs; [|by apply Hcase]. destruct (kind_in _ _); [apply Hcase, emit_empty_safe|by apply Hk].
Qed.
End Calls.

Section Nodes.
Context (k : compilers) (node : SimpleNodeView) (Hn : view_ok node) (Hk : inner k node).

Ltac opcodes := unfold string_opcode, bytes_opcode, unary_opcode, binary_opcode, make_opcode;
  repeat case_match; first [done|apply arithmetic_plain].

(** The cases by kind, as long as they are operands, fields, maps or single instructions. *)
Ltac cases := repeat match goal with
  | |- safe (if ?b then compile_field _ _ else _) _ => destruct b; [by apply field_safe|]
  | |- safe (if ?b then compile_map _ _ else _) _ => destruct b; [by apply map_safe|]
  | |- safe (if ?b then operands _ _ _ _ _ else _) _ => destruct b; [apply operands_safe; [done|done|opcodes|done]|]
  | |- safe (if ?b then operands_or _ _ _ _ _ _ else _) _ => destruct b; [apply operands_or_safe; [done|done|opcodes]|]
  | |- safe (if ?b then simple_emit_instruction _ _ else _) _ => destruct b; [by apply emit_safe|]
  end.

Lemma inspection_safe : safe (compile_inspection k node) any.
Proof.
  unfold compile_inspection. cases.
  destruct (kind_is node "If"); [by apply if_expr_safe|].
  destruct (kind_is node "Block"); [by eapply block_expr_safe; [|apply children_ok]|].
  apply expr_node_safe; [done|lia].
Qed.

Lemma construction_safe : safe (compile_construction k node) any.
Proof.
  unfold compile_construction. cases. unfold compile_operation. cases. apply inspection_safe.
Qed.

Lemma expr_ext_safe : safe (simple_compile_expr_ext k node) any.
Proof.
  unfold simple_compile_expr_ext.
  destruct (kind_is node "Call"); [by apply call_safe|].
  destruct (kind_is node "CallDynamic"); [by apply dynamic_call_safe|].
  destruct (kind_is node "Var").
  { apply safe_some; [done|]. intros name _. apply emit_slot; [listed|apply locals_lookup_safe]. }
  destruct (kind_is node "StrConcat").
  { apply concat_safe; [by apply safe_or_fail, emit_safe|]. by eapply inner_exprs, children_ok. }
  cases. apply construction_safe.
Qed.
(** ** Statements *)

Lemma branch_safe v : child_of node v -> safe (compile_branch k v) any.
Proof.
  intros Hv. unfold compile_branch. destruct (kind_is v "Block"); [by apply Hk|]. apply safe_then; [by apply Hk|].
  intros _. apply safe_then; [by apply emit_safe|]. intros _. apply safe_ret.
Qed.

Lemma if_stmt_safe : safe (simple_compile_if_stmt_ext k node) any.
Proof.
  apply safe_some; [done|]. intros vs Hvs. apply (parse_nodes_ok 3) in Hvs; [|done].
  apply (three_nodes node) in Hvs as (x & y & z & -> & Hx & Hy & Hz).
  apply (if_safe _ _ _ _ _ (fun a b ip => get! end_ip := current_ip in run! patch_operand ip end_ip in ret (a && b)));
    [apply emits_zero; listed..|by apply Hk|by apply branch_safe|by apply branch_safe|].
  intros a b ip c Hc Hop. eapply keepsC_bind; [by apply keeps_ip|]. intros ? ? _ _ [-> ->].
  eapply keepsC_bind; [eapply patch_keeps; [done|exact Hop|listed|]|].
  - pose proof (count_nonneg c Hc). lia.
  - intros _ c' Hc' _ _. by apply keepsC_ret.
Qed.

Lemma pushed_loop c : context_ok c ->
  context_ok (set_loop_frames (mk_loop (instruction_count (ctx_program c)) [] [] :: loop_frames c) c).
Proof.
  intros Hc. pose proof (count_nonneg c Hc). destruct Hc as [H1 H2 H3 H4 H5 H6]. constructor; try done.
  constructor; [|done]. split_and!; [cbn; lia..|constructor|constructor].
Qed.

Lemma popped_loop c fs c' outer : grows (set_loop_frames fs c) c' -> Forall (frame_ok (ctx_program c')) outer ->
  map start_ip outer = map start_ip (loop_frames c) -> context_ok c' ->
  context_ok (set_loop_frames outer c') /\ grows c (set_loop_frames outer c').
Proof.
  intros [G1 G2 G3 G4 G5 G6] Hf Ho [H1 H2 H3 H4 H5 H6]. by split; constructor.
Qed.

Lemma loop_stmt_safe : safe (simple_compile_loop_stmt_ext k node) any.
Proof.
  apply safe_some; [done|]. intros v Hv. apply parse_child_ok in Hv; [|done]. intros c Hc.
  eapply keepsC_bind; [by apply keepsC_get|]. intros ? ? _ _ [-> ->]. destruct (Z.leb_spec SIMPLE_MAX_LOOP_DEPTH (zlen (loop_frames c))) as [|Hroom]; [done|].
  eapply keepsC_bind; [by apply keeps_ip|]. intros ? ? _ _ [-> ->]. apply keeps_array; [done|].
  set (c0 := set_loop_frames (mk_loop (instruction_count (ctx_program c)) [] [] :: loop_frames c) c).
  pose proof (pushed_loop c Hc) as Hc0. fold c0 in Hc0. pose proof (count_nonneg c Hc) as Hcount.
  match goal with |- keeps (run! modifyC _ in ?rest) _ _ => set (r := rest) end.
  enough (H : ends r (fun _ c' => context_ok c' /\ grows c c') c0).
  { clear -H. unfold keeps, bindC, modifyC. fold c0. unfold ends in H. destruct (r c0) as [b c'| |]; [|done..]. unfold any. tauto. }
  unfold r. eapply ends_bind; [by apply branch_safe|]. intros _ c1 Hc1 G1 _.
  eapply ends_bind; [apply emit_jump; [done|listed|]|].
  { pose proof (grows_code _ _ G1) as Hle. cbn in Hle. lia. }
  intros _ c2 Hc2 G2 _. eapply ends_bind; [by apply keepsC_get|]. intros ? ? _ _ [-> ->].
  assert (G : grows c0 c2) by by etrans. pose proof (grows_loops _ _ G) as Hf. cbn [c0 loop_frames set_loop_frames map] in Hf.
  destruct (loop_frames c2) as [|frame outer] eqn:Ef; [done|]. injection Hf as Hstart Houter.
  pose proof (ctx_frames c2 Hc2) as Hfr. rewrite Ef in Hfr. apply Forall_cons in Hfr as [(Hs & Hb & Hcn) Hout].
  eapply ends_bind; [by apply keeps_ip|]. intros ? ? _ _ [-> ->].
  eapply ends_bind; [apply (patch_all_keeps AIVM_OP_JUMP); [done|listed|done|]|].
  { pose proof (count_nonneg c2 Hc2). lia. }
  cbn beta. intros _ c3 Hc3 G3 Hn3. eapply ends_bind; [apply (patch_all_keeps AIVM_OP_JUMP); [done|listed|by eapply jumps_grow|]|].
  { rewrite Hn3. cbn in Hstart. lia. }
  cbn beta. intros _ c4 Hc4 G4 _.
  assert (G24 : grows c2 c4) by by etrans.
  eapply (popped_loop c); [by etrans; [exact G|]| |done|done]. eapply Forall_impl; [exact Hout|].
  intros f. apply frame_mono; [apply (grows_code _ _ G24)|apply (grows_ops _ _ G24)].
Qed.

Lemma loop_jump_safe sites add e1 e2 :
  (forall p ip f, frame_ok p f -> op_at p ip = Some AIVM_OP_JUMP -> frame_ok p (add ip f) /\ start_ip (add ip f) = start_ip f) ->
  safe (loop_jump sites add e1 e2) any.
Proof.
  intros Hadd c Hc. eapply keepsC_bind; [by apply keepsC_get|]. intros ? ? _ _ [-> ->].
  destruct (loop_frames c) as [|frame outer] eqn:Ef; [done|]. destruct (Z.leb_spec SIMPLE_MAX_LOOP_FIXUPS (zlen (sites frame))); [done|].
  eapply keepsC_bind; [by apply keeps_ip|]. intros ? ? _ _ [-> ->].
  eapply keepsC_bind; [by apply emits_zero; [listed|]|]. cbn beta. intros _ c1 Hc1 G1 O1. apply keeps_array; [done|].
  assert (Hfr : Forall (frame_ok (ctx_program c1)) (frame :: outer)).
  { rewrite <- Ef. eapply Forall_impl; [apply (ctx_frames c Hc)|]. intros f. apply frame_mono; apply G1. }
  apply Forall_cons in Hfr as [Hfr Hout]. destruct (Hadd _ _ _ Hfr O1) as [Hf Hs].
  pose proof (grows_loops _ _ G1) as Hl. rewrite Ef in Hl. destruct Hc1 as [H1 H2 H3 H4 H5 H6].
  split_and!; [| |done].
  - constructor; try done. by constructor.
  - constructor; try done. cbn. by rewrite Hs, Hl.
Qed.

Lemma let_safe : safe (compile_let k node) any.
Proof.
  apply safe_some; [done|]. intros name _. eapply safe_bind; [apply safe_or_fail, locals_lookup_safe|].
  intros slot c c' _ Hc' _ Hslot. apply keeps_some; [done|]. intros v Hv. apply parse_child_ok in Hv; [|done].
  eapply keepsC_bind; [by apply Hk|]. intros _ c1 Hc1 _ _. eapply keepsC_bind; [by apply keeps_or_fail, emit_local; [|listed|]|].
  intros _ c2 Hc2 _ _. by apply keepsC_ret.
Qed.

Lemma return_safe : safe (compile_return k node) any.
Proof.
  apply safe_then.
  - destruct (simple_parse_next_node (body node)) as [v|] eqn:Ev; [by apply Hk, parse_child_ok|].
    apply safe_or_fail, emit_void_safe.
  - intros _. apply safe_then; [by apply safe_or_fail, emit_safe|]. intros _. apply safe_ret.
Qed.

Lemma stmt_ext_safe : safe (expr k node) any -> safe (block k node) any -> safe (simple_compile_stmt_ext k node) any.
Proof.
  intros He Hb. unfold simple_compile_stmt_ext.
  destruct (kind_is node "Let"); [apply let_safe|].
  destruct (kind_is node "Call"); [apply safe_then; [by apply call_safe|intros _; apply safe_ret]|].
  destruct (kind_is node "Break").
  { apply loop_jump_safe. intros p ip f (H1 & H2 & H3) Hop. split; [|done]. split; [exact H1|]. split; [|done].
    apply Forall_app. by split; [|constructor]. }
  destruct (kind_is node "Continue").
  { apply loop_jump_safe. intros p ip f (H1 & H2 & H3) Hop. split; [|done]. split; [exact H1|]. split; [done|].
    apply Forall_app. by split; [|constructor]. }
  destruct (kind_is node "Return"); [apply return_safe|]. destruct (kind_is node "If"); [apply if_stmt_safe|].
  destruct (kind_is node "Loop"); [apply loop_stmt_safe|]. destruct (kind_is node "Block"); [done|].
  apply safe_then; [done|]. intros _. apply safe_then; [by apply emit_safe|]. intros _. apply safe_ret.
Qed.

Lemma stmts_safe vs : Forall (child_of node) vs -> safe (compile_stmts k vs) any.
Proof.
  induction 1 as [|v vs Hv _ IH]; cbn [compile_stmts]; [apply safe_ret|].
  apply safe_then; [by apply Hk|]. intros [|]; [apply safe_ret|done].
Qed.

Lemma block_ext_safe : safe (simple_compile_block_ext k node) any.
Proof.
  intros c Hc. eapply keepsC_bind; [by apply keepsC_get|]. intros ? ? _ _ [-> ->]. cbv zeta.
  eapply keepsC_bind; [by apply stmts_safe; [apply children_ok|]|]. intros b c1 Hc1 _ _.
  eapply keepsC_bind; [by apply keepsC_get|]. intros ? ? _ _ [-> ->].
  eapply keepsC_bind; [apply (keeps_locals _ (fun _ _ => True)); [done|apply slots_take, Hc1|done]|].
  intros _ c2 Hc2 _ _. by apply keepsC_ret.
Qed.
End Nodes.

(** ** The depth of calls *)

(** From a node to its children at most two calls pass: a statement to a block or an
    expression on the same node, and that to the children. *)
Lemma compilers_at_safe fuel : forall v, view_ok v ->
  ((2 * length (body v) + 1 <= fuel)%nat -> safe (expr (compilers_at fuel) v) any /\ safe (block (compilers_at fuel) v) any) /\
  ((2 * length (body v) + 2 <= fuel)%nat -> safe (stmt (compilers_at fuel) v) any).
Proof.
  induction fuel as [|fuel IH]; intros v Hv; [split; lia|].
  assert (Hin : (2 * length (body v) + 1 <= S fuel)%nat -> inner (compilers_at fuel) v).
  { intros Hle u [Hu Hlen]. destruct (IH u Hu) as [H1 H2]. split_and!; [apply H1; lia|apply H2; lia|apply H1; lia]. }
  split; intros Hle; cbn [compilers_at expr stmt block].
  - split; [apply expr_ext_safe|apply block_ext_safe]; try done; by apply Hin.
  - destruct (IH v Hv) as [H1 _]. apply stmt_ext_safe; [done|apply Hin; lia|apply H1; lia..].
Qed.

Lemma block_safe node : view_ok node -> safe (block (compilers_for node) node) any.
Proof. intros Hn. apply compilers_at_safe; [done|]. lia. Qed.

(** ** Functions *)

Lemma add_params_safe params : safe (add_params params) any.
Proof.
  induction params as [|p params IH]; cbn [add_params]; [apply safe_ret|].
  apply safe_then; [|done]. eapply safe_or_fail, safe_any, locals_lookup_safe.
Qed.

Lemma prologue_safe name params : safe (emit_prologue name params) any.
Proof.
  induction params as [|p params IH]; cbn [emit_prologue]; [apply safe_ret|].
  apply safe_then; [|done]. apply safe_or_fail. eapply safe_bind; [apply locals_lookup_safe|].
  intros slot c c' _ Hc' _ Hslot. by eapply keeps_any, emit_local; [|listed|].
Qed.

(** The table of functions changes in their states only. *)
Lemma update_fn_keeps index f c : context_ok c -> 0 <= index < zlen (funcs c) ->
  (forall fn, fn_key (f fn) = fn_key fn) ->
  (forall fn, fn_ok (instruction_count (ctx_program c)) fn -> fn_ok (instruction_count (ctx_program c)) (f fn)) ->
  keeps (update_fn index f) (fun _ _ => True) c.
Proof.
  intros Hc Hi Hkey Hok. eapply keepsC_bind; [by apply keepsC_get|]. intros ? ? _ _ [-> ->].
  destruct (fn_at c index Hc Hi) as (fn & Ef & Hfn). rewrite Ef. destruct Hc as [H1 H2 H3 H4 H5 H6].
  split_and!; [| |done]; constructor; try done; cbn.
  - apply zset_Forall; [done|by apply Hok].
  - erewrite zset_split by exact Ef. pose proof (zget_split _ _ _ Ef) as [Es _]. rewrite Es at 3. rewrite !map_app. cbn. by rewrite Hkey.
Qed.

Lemma compile_fn_keeps index c : context_ok c -> 0 <= index < zlen (funcs c) ->
  keeps (simple_compile_fn_by_index index) (fun _ _ => True) c.
Proof.
  intros Hc Hi. eapply keepsC_bind; [by apply keepsC_get|]. intros ? ? _ _ [-> ->].
  destruct (fn_at c index Hc Hi) as (fn & Ef & Hfn). rewrite Ef. destruct (compiled fn || compiling fn); [by apply keepsC_ret|].
  eapply keepsC_bind; [by apply keeps_ip|]. intros ? ? _ _ [-> ->].
  eapply keepsC_bind; [apply update_fn_keeps; [done..|]|].
  { intros g (H1 & H2 & H3 & H4). pose proof (count_nonneg c Hc). split_and!; cbn; done || lia. }
  intros _ c1 Hc1 G1 _. eapply keepsC_bind; [apply (keeps_locals [] (fun _ _ => True)); [done|by split|done]|].
  intros _ c2 Hc2 G2 _. apply keeps_some; [done|]. intros params _.
  eapply keepsC_bind; [by apply add_params_safe|]. intros _ c3 Hc3 G3 _.
  eapply keepsC_bind; [by apply prologue_safe|]. intros _ c4 Hc4 G4 _.
  apply keeps_some; [done|]. intros v Hv. destruct (negb _); [done|].
  destruct Hfn as (_ & Hbody & _). apply view_forall with (P := is_byte) in Hv as (V1 & V2 & V3 & _); [|done].
  eapply keepsC_bind; [by apply block_safe|]. intros b c5 Hc5 G5 _. eapply keepsC_bind with (R := fun _ _ => True).
  { destruct b; [by apply keepsC_ret|]. eapply keepsC_bind; [by apply keeps_or_fail, emit_void_safe|].
    intros _ c6 Hc6 _ _. by apply keeps_or_fail, emit_safe. }
  intros _ c6 Hc6 G6 _. apply update_fn_keeps; [done| |done|done].
  rewrite (funcs_length c c6); [done|]. by do 5 (etrans; [|eassumption]).
Qed.

(** Every fixup is resolved once, and there are at most SIMPLE_MAX_FIXUPS. *)
Lemma resolve_keeps fuel : forall i c, context_ok c -> 0 <= i <= SIMPLE_MAX_FIXUPS -> SIMPLE_MAX_FIXUPS < Z.of_nat fuel + i ->
  keeps (resolve_fixups fuel i) (fun _ _ => True) c.
Proof.
  induction fuel as [|fuel IH]; intros i c Hc Hi Hf; [lia|]. cbn [resolve_fixups].
  eapply keepsC_bind; [by apply keepsC_get|]. intros ? ? _ _ [-> ->].
  destruct (zget (fixups c) i) as [fx|] eqn:Ex; [|by apply keepsC_ret].
  pose proof (ctx_fixups_room c Hc) as Hroom. assert (i < zlen (fixups c)) by (apply zget_Some_bounds in Ex; lia).
  assert (Hop : op_at (ctx_program c) (fixup_instruction fx) = Some AIVM_OP_CALL).
  { rewrite zget_lookup in Ex by lia. eapply (Forall_lookup_1 _ _ _ _ (ctx_fixups c Hc)), Ex. }
  apply keeps_some; [done|]. intros t Ht. apply find_func_index in Ht.
  destruct (fn_at c t Hc Ht) as (f & Ef & _). rewrite Ef. cbn [some_or].
  eapply keepsC_bind; [by apply (keepsC_ret f (fun g c' => g = f /\ c' = c))|]. intros ? ? _ _ [-> ->].
  eapply keepsC_bind with (R := fun _ _ => True); [destruct (compiled f); [by apply keepsC_ret|by apply compile_fn_keeps]|].
  intros _ c1 Hc1 G1 _. eapply keepsC_bind; [by apply keepsC_get|]. intros ? ? _ _ [-> ->].
  destruct (fn_at c1 t Hc1) as (f' & Ef' & _ & _ & _ & He); [by rewrite (funcs_length c c1)|]. rewrite Ef'. cbn [some_or].
  eapply keepsC_bind; [by apply (keepsC_ret f' (fun g c' => g = f' /\ c' = c1))|]. intros ? ? _ _ [-> ->].
  destruct (_ <=? _); [done|]. eapply keepsC_bind; [eapply (patch_keeps AIVM_OP_CALL); [done| |listed|done]|].
  - eapply op_at_extends; [apply G1|done].
  - intros _ c2 Hc2 _ _. apply IH; [done|lia|lia].
Qed.

(** ** The program *)

(** The context once the sources have been collected. *)
Record ready (c : SimpleCompileContext) : Prop := {
  ready_funcs : Forall (fn_ok 0) (funcs c);
  ready_loops : loop_frames c = [];
  ready_fixups : fixups c = [];
  ready_locals : ctx_locals c = [] }.

Lemma empty_code_ok : code_ok empty_program.
Proof. constructor; try done; constructor. Qed.

Lemma ready_context c : ready c -> context_ok (Compiler.set_program empty_program c).
Proof.
  intros [H1 H2 H3 H4]. constructor; cbn; rewrite ?H2, ?H3, ?H4; try done. apply empty_code_ok.
Qed.

Lemma argv_safe : safe (get! idx := simple_add_string_const (byte_str "sys.process.args") in
  run! simple_emit_instruction AIVM_OP_CONST idx in simple_emit_instruction AIVM_OP_CALL_SYS 0) any.
Proof.
  eapply safe_bind; [apply add_string_safe, bytes_of_string_ok|]. intros i c c' _ Hc' _ Hi.
  eapply keepsC_bind; [by apply emit_const|]. intros _ c1 Hc1 _ _. by apply emit_safe.
Qed.

(** From the bootstrap call on. *)
Lemma bootstrap_keeps entry_index c : context_ok c -> 0 <= entry_index < zlen (funcs c) ->
  keeps (get! bootstrap_call_ip := current_ip in
    run! or_fail (run! simple_emit_instruction AIVM_OP_CALL 0 in simple_emit_instruction AIVM_OP_HALT 0)
           "graph compile: failed emitting bootstrap call/halt" [] in
    run! simple_compile_fn_by_index entry_index in
    get! c' := getC in
    get! entry' := some_or (zget (funcs c') entry_index) wrong in
    run! patch_operand bootstrap_call_ip (entry_ip entry') in
    run! resolve_fixups (S (Z.to_nat SIMPLE_MAX_FIXUPS)) 0 in
    get! c'' := getC in
    if instruction_count (ctx_program c'') =? 0 then simple_fail "graph compile: produced empty program" else ret tt)
  (fun _ c' => 0 < instruction_count (ctx_program c')) c.
Proof.
  intros Hc Hi. eapply keepsC_bind; [by apply keeps_ip|]. intros ? ? _ _ [-> ->].
  eapply keepsC_bind with (R := fun _ c' => op_at (ctx_program c') (instruction_count (ctx_program c)) = Some AIVM_OP_CALL).
  { apply keeps_or_fail. eapply keepsC_bind; [by apply emits_zero; [listed|]|]. cbn beta. intros _ c1 Hc1 _ O1.
    eapply keeps_weaken; [by apply emit_safe|]. intros _ c2 _ G2 _. by eapply op_at_extends; [apply G2|]. }
  cbn beta. intros _ c1 Hc1 G1 O1. eapply keepsC_bind; [apply compile_fn_keeps; [done|by rewrite (funcs_length c c1)]|].
  intros _ c2 Hc2 G2 _. eapply keepsC_bind; [by apply keepsC_get|]. intros ? ? _ _ [-> ->].
  destruct (fn_at c2 entry_index Hc2) as (f & -> & _ & _ & _ & He); [by rewrite (funcs_length c c2) by by etrans|]. cbn [some_or].
  eapply keepsC_bind; [by apply (keepsC_ret f (fun g c' => g = f /\ c' = c2))|]. intros ? ? _ _ [-> ->].
  eapply keepsC_bind; [eapply (patch_keeps AIVM_OP_CALL); [done| |listed|done]|].
  { eapply op_at_extends; [apply G2|done]. }
  intros _ c3 Hc3 G3 _. eapply keepsC_bind; [by apply resolve_keeps|]. intros _ c4 Hc4 G4 _.
  eapply keepsC_bind; [by apply keepsC_get|]. intros ? ? _ _ [-> ->].
  destruct (Z.eqb_spec (instruction_count (ctx_program c4)) 0); [done|]. apply keepsC_ret; [done|].
  pose proof (count_nonneg c4 Hc4). lia.
Qed.

Lemma compile_graph_ends c : ready c -> ends compile_graph (fun _ c' => context_ok c' /\ 0 < instruction_count (ctx_program c')) c.
Proof.
  intros Hr. unfold compile_graph.
  set (c0 := match entry_export c with [] => set_entry_export (byte_str "start") c | _ => c end).
  assert (H0 : ready c0) by (unfold c0; destruct (entry_export c); [|done]; by destruct Hr).
  unfold ends. cbn [bindC modifyC getC]. fold c0.
  destruct (simple_find_func (entry_export c0) c0) as [i|] eqn:Ei; [|done]. cbn [some_or bindC ret].
  apply find_func_index in Ei. destruct (zget_is_Some _ _ Ei) as [entry ->]. cbn [some_or bindC ret modifyC].
  pose proof (ready_context c0 H0) as Hc. set (c1 := Compiler.set_program empty_program c0) in *.
  match goal with |- match ?x c1 with _ => _ end => enough (H : keeps x (fun _ c' => 0 < instruction_count (ctx_program c')) c1) end.
  { unfold keeps in H. destruct (bindC _ _ c1) as [u c'| |]; [|done..]. tauto. }
  apply keeps_some; [done|]. intros params _. eapply keepsC_bind with (R := fun _ _ => True).
  { destruct params; [by apply keepsC_ret|]. by apply keeps_or_fail, argv_safe. }
  intros _ c2 Hc2 G2 _. apply bootstrap_keeps; [done|]. by rewrite (funcs_length c1 c2).
Qed.

(** The code of a compilation can be written and loaded. *)
Lemma code_storable p : code_ok p -> 0 < instruction_count p -> storable p.
Proof.
  intros [P1 P2 P3 P4 P5 P6 P7 P8 P9 P10 P11 [P12 P13]] Hpos. constructor; try done.
  - eapply Forall_impl; [exact P4|]. intros i Hi. apply Hi.
  - split; [done|]. rewrite P12. constructor.
  - lia.
  - rewrite P13. done.
Qed.
