(* ===== verification/Build.v ===== *)
(** * From source files to a program that loads

    The collection of the sources prepares the context the compiler needs, whatever the
    files contain; together with the compiler, the writer and the loader this gives the
    path from source files to a loaded program. *)

From S2P Require Import Prelude Types Program LoaderFormat AosText ProgramWriter Compiler SourceFiles CompilerSafety CompilerSound.

Local Open Scope aivm_scope.

Section Build.
Context `{!Files} (Hfiles : forall path content, file_bytes path = Some content -> bytes_ok content).

(** ** Collecting *)

(** The text kept under a path is what the file holds. *)
Record collecting (c : SimpleCompileContext) : Prop := {
  col_ready : ready c;
  col_sources : Forall (fun s => read_text_file_alloc (source_path s) = Some (source_text s)) (sources c) }.

(** [x] keeps the context ready; an end outside the model ([Wrong]) only where [W] allows
    it. *)
Definition runs (W : Prop) {A} (x : C A) (Q : A -> Prop) : Prop := forall c, collecting c ->
  match x c with Done a c' => collecting c' /\ Q a | Failed _ => True | Wrong => W end.

Lemma runs_bind W {A B} (x : C A) (f : A -> C B) P Q : runs W x P -> (forall a, P a -> runs W (f a) Q) -> runs W (bindC x f) Q.
Proof.
  intros Hx Hf c Hc. specialize (Hx c Hc). unfold bindC. destruct (x c) as [a c'| |]; [|done..]. destruct Hx as [Hc' Ha].
  by apply (Hf a Ha c').
Qed.

Lemma runs_ret W {A} (a : A) (Q : A -> Prop) : Q a -> runs W (ret a) Q.
Proof. intros Ha c Hc. by split. Qed.

Lemma runs_or_fail W {A} (x : C A) fmt args Q : runs W x Q -> runs W (or_fail x fmt args) Q.
Proof. intros Hx c Hc. specialize (Hx c Hc). unfold or_fail. by destruct (x c). Qed.

Lemma runs_some W {A B} (x : option A) fmt args (f : A -> C B) Q : (forall a, x = Some a -> runs W (f a) Q) ->
  runs W (bindC (some_or x (simple_failf fmt args)) f) Q.
Proof. intros Hf c Hc. destruct x as [a|]; [|done]. by apply (Hf a eq_refl). Qed.

Lemma read_bytes path text : read_text_file_alloc path = Some text -> bytes_ok text.
Proof.
  unfold read_text_file_alloc. destruct (file_bytes path) as [content|] eqn:E; [|done]. intros [= <-].
  apply cstr_forall. by eapply Hfiles.
Qed.

Lemma view_bytes range v : bytes_ok range -> simple_parse_next_node range = Some v -> view_ok v /\ bytes_ok (next v).
Proof. intros Hr Hv. destruct (view_forall _ _ _ Hr Hv) as (H1 & H2 & H3 & H4). by split. Qed.

Lemma add_func_runs W name params body index : bytes_ok name -> bytes_ok params -> bytes_ok body ->
  runs W (simple_add_func name params body index) (fun _ => True).
Proof.
  intros Hname Hparams Hbody c Hc. unfold simple_add_func. unfold bindC at 1. cbn [getC].
  destruct (Z.leb_spec SIMPLE_MAX_FUNCS (zlen (funcs c))) as [|Hroom]; [done|].
  case_bool_decide as Hnew; [done|]. destruct (_ || _); [done|]. rewrite in_array_room by done. destruct Hc as [[H1 H2 H3 H4] H5]. split; [|done].
  constructor; [|done]. constructor; try done. apply Forall_app. split; [done|]. constructor; [|constructor].
  by split_and!.
Qed.

Lemma collect_let_runs W path index node : view_ok node -> runs W (collect_let path index node) (fun _ => True).
Proof.
  intros (_ & Ha & Hb). apply runs_some. intros name Hname. apply span_forall with (P := is_byte) in Hname; [|done].
  destruct (simple_parse_next_node (body node)) as [v|] eqn:Ev; [|by apply runs_ret].
  destruct (view_bytes _ _ Hb Ev) as [(_ & Va & Vb) _]. destruct (kind_is v "Fn"); [|by apply runs_ret].
  apply runs_or_fail, add_func_runs; [done| |done].
  destruct (parse_attr_span (attrs v) _ 256) as [params|] eqn:Ep; [|constructor]. by apply span_forall with (P := is_byte) in Ep.
Qed.

Lemma collect_export_runs W allow node : runs W (collect_export allow node) (fun _ => True).
Proof.
  intros c Hc. unfold collect_export, bindC, getC. destruct (entry_export c); [|done].
  destruct (parse_attr_span _ _ _); [|done]. destruct allow; [|done]. by destruct Hc as [[H1 H2 H3 H4] H5].
Qed.

Lemma add_source_runs W path text : read_text_file_alloc path = Some text ->
  runs W (simple_add_source path text) (fun r => r.2 = text).
Proof.
  intros Hread c Hc. unfold simple_add_source. unfold bindC at 1. cbn [getC]. destruct (list_find _ _) as [[i s]|] eqn:E.
  - split; [done|]. apply list_find_Some in E as (E & Hpath & _). cbn.
    pose proof (Forall_lookup_1 _ _ _ _ (col_sources c Hc) E) as Hs. cbn in Hs. congruence.
  - destruct (Z.leb_spec SIMPLE_MAX_SOURCES (zlen (sources c))) as [|Hroom]; [done|]. do 2 (destruct (_ : bool); [done|]).
    rewrite in_array_room by done. split; [|done]. destruct Hc as [[H1 H2 H3 H4] H5]. constructor; [done|].
    apply Forall_app. split; [done|]. by constructor.
Qed.

Lemma collect_program_runs W import path index allow end_offset : forall fuel range, bytes_ok range -> (length range < fuel)%nat ->
  (forall node q, node ∈ views range -> kind_is node "Import" = true ->
     simple_resolve_import_path path (attrs node) = Some q -> runs W (import q) (fun _ => True)) ->
  runs W (collect_program fuel import path index allow end_offset range) (fun _ => True).
Proof.
  induction fuel as [|fuel IH]; intros range Hr Hf Himport; [lia|]. cbn [collect_program].
  destruct range as [|ch range']; [by apply runs_ret|]. set (range := ch :: range') in *.
  destruct (simple_parse_next_node range) as [v|] eqn:Ev; [|destruct (drop_while _ _); done].
  destruct (view_bytes _ _ Hr Ev) as [Hv Hnext]. rewrite views_step, Ev in Himport.
  apply (runs_bind W _ _ (fun _ => True)).
  - destruct (kind_is v "Import") eqn:Ek; [|destruct (kind_is v "Export"); [apply collect_export_runs|]].
    + apply runs_some. intros q Hq. eapply Himport; [by left|done|done].
    + destruct (kind_is v "Let"); [by apply collect_let_runs|by apply runs_ret].
  - intros _ _. apply IH; [done|apply parse_node_shorter in Ev as [Ev _]; lia|].
    intros node q Hin. apply Himport. by right.
Qed.

(** The nodes at the top level of a source, and the files it imports. *)
Definition top_range (text : list Z) : option (list Z) :=
  open_brace ← strchr (drop_while line_space text) 123;
  close_brace ← simple_find_matching_brace open_brace;
  Some (ztake (close_brace - 1) (zdrop 1 open_brace)).

Definition imports (path q : list Z) : Prop := exists text range node,
  read_text_file_alloc path = Some text /\ top_range text = Some range /\ node ∈ views range /\
  kind_is node "Import" = true /\ simple_resolve_import_path path (attrs node) = Some q.

Lemma strchr_forall P text c q : Forall P text -> strchr text c = Some q -> Forall P q.
Proof.
  induction 1 as [|d text Hd Ht IH]; [done|]. cbn [strchr]. destruct (d =? c); [intros [= <-]; by constructor|done].
Qed.

(** Imports are followed to any depth ([W]), or they end within [depth]. *)
Lemma collect_runs (W : Prop) (rank : list Z -> nat) : (W \/ forall p q, imports p q -> (rank q < rank p)%nat) ->
  forall depth path allow, W \/ (rank path < depth)%nat -> runs W (simple_collect_from_file depth path allow) (fun _ => True).
Proof.
  intros Hrank. induction depth as [|depth IH]; intros path allow Hd; cbn [simple_collect_from_file].
  { intros c Hc. destruct Hd; [done|lia]. }
  apply runs_some. intros text Hread. pose proof (read_bytes _ _ Hread) as Hbytes.
  eapply runs_bind; [by apply runs_or_fail, add_source_runs|]. intros [index kept] Hkept. cbn in Hkept. subst kept.
  destruct (negb _); [done|]. apply runs_some. intros open_brace Ho. apply runs_some. intros close_brace Hcl.
  assert (Hrange : bytes_ok (ztake (close_brace - 1) (zdrop 1 open_brace))).
  { apply ztake_forall, zdrop_forall. eapply strchr_forall; [|exact Ho]. by apply drop_while_forall. }
  apply collect_program_runs; [done|lia|]. intros node q Hin Hk Hq. apply IH. destruct Hd as [Hd|Hd]; [by left|].
  destruct Hrank as [Hrank|Hrank]; [by left|]. right. enough (rank q < rank path)%nat by lia. apply Hrank.
  exists text, (ztake (close_brace - 1) (zdrop 1 open_brace)), node. split_and!; try done. unfold top_range. rewrite Ho. cbn. by rewrite Hcl.
Qed.

Lemma empty_collecting : collecting empty_context.
Proof. constructor; [|constructor]. constructor; done || constructor. Qed.

Lemma build_runs (W : Prop) (rank : list Z -> nat) depth path : (W \/ forall p q, imports p q -> (rank q < rank p)%nat) ->
  W \/ (rank path < depth)%nat ->
  match parse_simple_program_graph_to_program_file depth path with
  | Done _ c => context_ok c /\ 0 < instruction_count (ctx_program c) | Failed _ => True | Wrong => W
  end.
Proof.
  intros Hrank Hd. pose proof (collect_runs W rank Hrank depth path true Hd empty_context empty_collecting) as Hcol.
  unfold parse_simple_program_graph_to_program_file, bindC.
  destruct (simple_collect_from_file depth path true empty_context) as [u c| |]; [|done..]. destruct Hcol as [Hcol _].
  pose proof (compile_graph_ends c (col_ready c Hcol)) as Hg. unfold ends in Hg. by destruct (compile_graph c).
Qed.

(** What is compiled can be written, loaded and has operands in range. *)
Lemma built_loads depth path u c host_alloc tick :
  (forall t n, host_alloc t n = true) -> parse_simple_program_graph_to_program_file depth path = Done u c ->
  exists bytes p' tick', write_program_as_aibc1 (ctx_program c) = Some (Some bytes) /\
    aivm_program_load_aibc1 host_alloc (Some bytes) tick = Some (p', AIVM_PROGRAM_OK, 0, tick') /\
    same_program (ctx_program c) p' /\
    Forall (operand_ok (instruction_count p') (constant_count p')) (instruction_store p').
Proof.
  intros Halloc Hb. pose proof (build_runs True (fun _ => 0%nat) depth path (or_introl I) (or_introl I)) as Hr. rewrite Hb in Hr.
  destruct Hr as [Hc Hpos]. pose proof (ctx_code c Hc) as Hp.
  destruct (written_loads host_alloc tick (ctx_program c) Halloc (code_storable _ Hp Hpos)) as (bytes & p' & t & H1 & H2 & H3).
  exists bytes, p', t. split_and!; try done. destruct H3 as (-> & -> & -> & _). apply (code_operands _ Hp).
Qed.

(** C33: a program that has been compiled from source files can be written and loaded, and
    its code is well-formed: every jump and call leads to an instruction of the program or
    to its end, every constant and every local an instruction names exists.  The sources
    may hold any bytes; the operands are those the loader finds in the written file. *)
Theorem compiled_program_loads depth path u c host_alloc tick :
  (forall t n, host_alloc t n = true) -> parse_simple_program_graph_to_program_file depth path = Done u c ->
  exists bytes p' tick', write_program_as_aibc1 (ctx_program c) = Some (Some bytes) /\
    aivm_program_load_aibc1 host_alloc (Some bytes) tick = Some (p', AIVM_PROGRAM_OK, 0, tick') /\
    same_program (ctx_program c) p' /\
    Forall (operand_ok (instruction_count p') (constant_count p')) (instruction_store p').
Proof. apply built_loads. Qed.

(** C39: where imports do not go round in circles (each file ranks above the files it
    imports), the build of a program from any bytes ends: it gives a program or a message.
    It stores nothing outside the instruction and constant storage, the arrays of 256
    sources, 1024 functions, 2048 fixups and 1024 locals, the 128 loop frames with their
    1024 break and continue sites, and the 128 end jumps of a dynamic call; it reads and
    patches only functions, instructions and frames that are there; and no depth of calls
    and no number of rounds that the model bounds is reached. *)
Theorem build_ends (rank : list Z -> nat) depth path :
  (forall p q, imports p q -> (rank q < rank p)%nat) -> (rank path < depth)%nat ->
  match parse_simple_program_graph_to_program_file depth path with Done _ _ | Failed _ => True | Wrong => False end.
Proof.
  intros Hrank Hd. pose proof (build_runs False rank depth path (or_intror Hrank) (or_intror Hd)) as Hr.
  by destruct (parse_simple_program_graph_to_program_file depth path).
Qed.

End Build.

(** ** Imports that go round in circles *)

Section Cycle.
Context `{!Files} (path text range : list Z) (node : SimpleNodeView).
Context (Hread : read_text_file_alloc path = Some text)
  (Hfit : zlen path < PATH_MAX) (Hmem : source_memory text = true)
  (Hprogram : starts_with (drop_while line_space text) (byte_str "Program") = true)
  (Hafter : after_program (zdrop 7 (drop_while line_space text)) = true)
  (Hrange : top_range text = Some range) (Hfirst : simple_parse_next_node range = Some node)
  (Hkind : kind_is node "Import" = true) (Himport : simple_resolve_import_path path (attrs node) = Some path).

Lemma self_source c : sources c = [] \/ sources c = [mk_source path text] -> exists i c',
  simple_add_source path text c = Done (i, text) c' /\ sources c' = [mk_source path text].
Proof.
  intros Hs. unfold simple_add_source, bindC, getC. destruct Hs as [Hs|Hs]; rewrite Hs.
  - cbn [list_find]. change (SIMPLE_MAX_SOURCES <=? zlen []) with false. rewrite Hmem. cbn [negb].
    destruct (Z.leb_spec PATH_MAX (zlen path)); [lia|]. do 2 eexists. split; [reflexivity|]. cbn. by rewrite ?Hs.
  - cbn [list_find source_path]. rewrite decide_True by done. do 2 eexists. split; [reflexivity|done].
Qed.

Lemma self_import_wrong depth : forall allow c, sources c = [] \/ sources c = [mk_source path text] ->
  simple_collect_from_file depth path allow c = Wrong.
Proof.
  induction depth as [|depth IH]; intros allow c Hs; [done|]. cbn [simple_collect_from_file].
  rewrite Hread. cbn [some_or]. unfold bindC at 1. cbn [ret].
  destruct (self_source c Hs) as (i & c' & Ha & Hs'). unfold bindC at 1, or_fail at 1. rewrite Ha.
  rewrite Hprogram, Hafter. cbn [andb negb]. unfold top_range in Hrange.
  destruct (strchr (drop_while line_space text) 123) as [ob|]; [|done]. cbn [mbind option_bind] in Hrange. cbn [some_or].
  unfold bindC at 1. cbn [ret]. destruct (simple_find_matching_brace ob) as [cb|]; [|done]. injection Hrange as Hr.
  cbn [some_or]. unfold bindC at 1. cbn [ret]. rewrite Hr. destruct range as [|ch range']; [done|]. cbn [length collect_program].
  rewrite Hfirst, Hkind, Himport. cbn [some_or]. unfold bindC at 1 2. cbn [ret]. rewrite IH by by right. done.
Qed.

(** A source whose first import resolves to itself is collected again and again: no
    depth of calls is enough, although the file is entered into the sources once only. *)
Theorem self_import_never_ends depth : parse_simple_program_graph_to_program_file depth path = Wrong.
Proof.
  unfold parse_simple_program_graph_to_program_file, bindC. by rewrite self_import_wrong by by left.
Qed.
End Cycle.

(** ** Sample sources *)

(** A file system of a few files. *)
Definition small_files (files : list (string * string)) : Files := {|
  file_bytes path := match list_find (fun f => byte_str f.1 = path) files with Some (_, f) => Some (byte_str f.2) | None => None end;
  file_exists _ := false; realpath path := Some path; sdk_root_env := None; runtime_exe_path := [];
  build_project_dir := []; source_memory _ := true |}.

Definition two_files : Files := small_files
  [("app/m.aos", "Program#p { Import(path=lib.aos) Export(name=start) Let(name=start) { Fn { Block { Let(name=i) { Lit(value=0) } Loop { Block { If { Lt { Var(name=i) Lit(value=10) } Block { Let(name=i) { Add { Var(name=i) Lit(value=1) } } } Block { Break } } } } Call(target=io.print) { ToString { Call(target=square) { Var(name=i) } } } Return { Var(name=i) } } } } }");
   ("app/lib.aos", "Program#q { Let(name=square) { Fn(params=a) { Block { Return { Mul { Var(name=a) Var(name=a) } } } } } }")]%string.

Definition loop_files : Files := small_files [("dir/m.aos", "Program { Import(path=m.aos) }")]%string.

Lemma small_files_bytes files path content : @file_bytes (small_files files) path = Some content -> bytes_ok content.
Proof. cbn. destruct (list_find _ _) as [[i f]|]; [|done]. intros [= <-]. apply bytes_of_string_ok. Qed.

Definition two_files_build : compilation unit := @parse_simple_program_graph_to_program_file two_files 2 (byte_str "app/m.aos").

Lemma compiled_program_loads_witness : exists c bytes p' tick', two_files_build = Done tt c /\
  write_program_as_aibc1 (ctx_program c) = Some (Some bytes) /\
  aivm_program_load_aibc1 (fun _ _ => true) (Some bytes) 0 = Some (p', AIVM_PROGRAM_OK, 0, tick') /\
  same_program (ctx_program c) p' /\ Forall (operand_ok (instruction_count p') (constant_count p')) (instruction_store p').
Proof.
  unfold two_files_build.
  destruct (@parse_simple_program_graph_to_program_file two_files 2 (byte_str "app/m.aos")) as [[] c| |] eqn:E;
    [|vm_compute in E; discriminate..]. exists c.
  destruct (@compiled_program_loads two_files (small_files_bytes _) 2 (byte_str "app/m.aos") tt c (fun _ _ => true) 0%nat)
    as (bytes & p' & t & H); [reflexivity|exact E|]. exists bytes, p', t.
  split; [reflexivity|exact H].
Defined.

(** The rank of the files: the program above its library. *)
Definition two_rank (path : list Z) : nat := if bool_decide (path = byte_str "app/m.aos") then 1 else 0.

Lemma two_files_ranked p q : @imports two_files p q -> (two_rank q < two_rank p)%nat.
Proof.
  intros (text & range & node & Hread & Hrange & Hin & Hk & Hq). revert Hread. unfold read_text_file_alloc. cbn [file_bytes two_files small_files].
  cbn [list_find]. destruct (decide (byte_str (_, _).1 = p)) as [<-|]; cbn [fmap option_fmap option_map].
  - intros [= <-]. vm_compute in Hrange. injection Hrange as <-. vm_compute in Hin.
    repeat (apply elem_of_cons in Hin as [->|Hin]; [first [discriminate Hk|vm_compute in Hq; injection Hq as <-; apply Nat.ltb_lt; vm_compute; reflexivity]|]).
    by apply not_elem_of_nil in Hin.
  - destruct (decide (byte_str (_, _).1 = p)) as [<-|]; cbn [fmap option_fmap option_map]; [|done].
    intros [= <-]. vm_compute in Hrange. injection Hrange as <-. vm_compute in Hin.
    repeat (apply elem_of_cons in Hin as [->|Hin]; [discriminate Hk|]). by apply not_elem_of_nil in Hin.
Qed.

Lemma build_ends_witness : (two_rank (byte_str "app/m.aos") < 2)%nat /\
  match two_files_build with Done _ _ | Failed _ => True | Wrong => False end.
Proof.
  split; [apply Nat.ltb_lt; vm_compute; reflexivity|]. unfold two_files_build.
  apply (@build_ends two_files (small_files_bytes _) two_rank 2 (byte_str "app/m.aos")); [exact two_files_ranked|].
  apply Nat.ltb_lt. vm_compute. reflexivity.
Defined.

Lemma self_import_never_ends_witness : forall depth, @parse_simple_program_graph_to_program_file loop_files depth (byte_str "dir/m.aos") = Wrong.
Proof.
  intros depth.
  eapply (@self_import_never_ends loop_files (byte_str "dir/m.aos") (byte_str "Program { Import(path=m.aos) }")); vm_compute; reflexivity.
Defined.
