(* ===== verification/BytecodeText.v ===== *)
(** * Bytecode as text (src/src/ailang_cli/ailang.c)

    The reader of "Bytecode#" files: constants and instructions are found by searching the
    text for "Const#" and "Inst#", and their attributes are read with the functions of
    AosText.v. *)

From S2P Require Import Prelude Types NumberText Program LoaderSafety LoaderFormat ProgramWriter AosText Compiler SourceFiles CompilerSafety CompilerSound.
From Stdlib Require Import SpecFloat.

Local Open Scope aivm_scope.

(** ** Names of opcodes *)

Definition aivm_opcode_name (op : AivmOpcode) : string :=
  match op with
  | AIVM_OP_NOP => "NOP" | AIVM_OP_HALT => "HALT"
  | AIVM_OP_STUB => "STUB" | AIVM_OP_PUSH_INT => "PUSH_INT"
  | AIVM_OP_POP => "POP" | AIVM_OP_STORE_LOCAL => "STORE_LOCAL"
  | AIVM_OP_LOAD_LOCAL => "LOAD_LOCAL" | AIVM_OP_ADD_INT => "ADD_INT"
  | AIVM_OP_JUMP => "JUMP" | AIVM_OP_JUMP_IF_FALSE => "JUMP_IF_FALSE"
  | AIVM_OP_PUSH_BOOL => "PUSH_BOOL" | AIVM_OP_CALL => "CALL"
  | AIVM_OP_RET => "RET" | AIVM_OP_EQ_INT => "EQ_INT"
  | AIVM_OP_EQ => "EQ" | AIVM_OP_CONST => "CONST"
  | AIVM_OP_STR_CONCAT => "STR_CONCAT" | AIVM_OP_TO_STRING => "TO_STRING"
  | AIVM_OP_STR_ESCAPE => "STR_ESCAPE" | AIVM_OP_RETURN => "RETURN"
  | AIVM_OP_STR_SUBSTRING => "STR_SUBSTRING" | AIVM_OP_STR_REMOVE => "STR_REMOVE"
  | AIVM_OP_CALL_SYS => "CALL_SYS" | AIVM_OP_ASYNC_CALL => "ASYNC_CALL"
  | AIVM_OP_ASYNC_CALL_SYS => "ASYNC_CALL_SYS" | AIVM_OP_AWAIT => "AWAIT"
  | AIVM_OP_WORKER_REF => "WORKER_REF" | AIVM_OP_WORKER_RUN => "WORKER_RUN"
  | AIVM_OP_TASK_CANCEL => "TASK_CANCEL" | AIVM_OP_WORKER_RUN_ALL => "WORKER_RUN_ALL"
  | AIVM_OP_WORKER_TASK_AT => "WORKER_TASK_AT" | AIVM_OP_PAR_BEGIN => "PAR_BEGIN"
  | AIVM_OP_PAR_FORK => "PAR_FORK" | AIVM_OP_PAR_JOIN => "PAR_JOIN"
  | AIVM_OP_PAR_CANCEL => "PAR_CANCEL" | AIVM_OP_STR_UTF8_BYTE_COUNT => "STR_UTF8_BYTE_COUNT"
  | AIVM_OP_STR_SCALAR_LENGTH => "STR_SCALAR_LENGTH" | AIVM_OP_VALUE_KIND => "VALUE_KIND"
  | AIVM_OP_NODE_BUILDER_NEW => "NODE_BUILDER_NEW" | AIVM_OP_NODE_BUILDER_APPEND_CHILD => "NODE_BUILDER_APPEND_CHILD"
  | AIVM_OP_NODE_BUILDER_APPEND_ATTR => "NODE_BUILDER_APPEND_ATTR" | AIVM_OP_NODE_BUILDER_FINISH => "NODE_BUILDER_FINISH"
  | AIVM_OP_NODE_KIND => "NODE_KIND" | AIVM_OP_NODE_ID => "NODE_ID"
  | AIVM_OP_ATTR_COUNT => "ATTR_COUNT" | AIVM_OP_ATTR_KEY => "ATTR_KEY"
  | AIVM_OP_ATTR_VALUE_KIND => "ATTR_VALUE_KIND" | AIVM_OP_ATTR_VALUE_STRING => "ATTR_VALUE_STRING"
  | AIVM_OP_ATTR_VALUE_INT => "ATTR_VALUE_INT" | AIVM_OP_ATTR_VALUE_BOOL => "ATTR_VALUE_BOOL"
  | AIVM_OP_CHILD_COUNT => "CHILD_COUNT" | AIVM_OP_CHILD_AT => "CHILD_AT"
  | AIVM_OP_MAKE_BLOCK => "MAKE_BLOCK" | AIVM_OP_APPEND_CHILD => "APPEND_CHILD"
  | AIVM_OP_MAKE_ERR => "MAKE_ERR" | AIVM_OP_MAKE_LIT_STRING => "MAKE_LIT_STRING"
  | AIVM_OP_MAKE_LIT_INT => "MAKE_LIT_INT" | AIVM_OP_MAKE_LIT_BOOL => "MAKE_LIT_BOOL"
  | AIVM_OP_MAKE_NODE => "MAKE_NODE" | AIVM_OP_MAKE_FIELD_STRING => "MAKE_FIELD_STRING"
  | AIVM_OP_MAKE_MAP => "MAKE_MAP" | AIVM_OP_MAKE_NODE_EMPTY => "MAKE_NODE_EMPTY"
  | AIVM_OP_APPEND_ATTR => "APPEND_ATTR" | AIVM_OP_STR_FIND => "STR_FIND"
  | AIVM_OP_STR_FROM_CODEPOINT => "STR_FROM_CODEPOINT" | AIVM_OP_STR_DECODE_UNICODE_HEX4 => "STR_DECODE_UNICODE_HEX4"
  | AIVM_OP_STR_DECODE_UNICODE_SURROGATE_PAIR_HEX4 => "STR_DECODE_UNICODE_SURROGATE_PAIR_HEX4" | AIVM_OP_BYTES_LENGTH => "BYTES_LENGTH"
  | AIVM_OP_BYTES_AT => "BYTES_AT" | AIVM_OP_BYTES_SLICE => "BYTES_SLICE"
  | AIVM_OP_BYTES_CONCAT => "BYTES_CONCAT" | AIVM_OP_BYTES_FROM_UTF8_STRING => "BYTES_FROM_UTF8_STRING"
  | AIVM_OP_BYTES_TO_UTF8_STRING => "BYTES_TO_UTF8_STRING" | AIVM_OP_BYTES_FROM_BASE64 => "BYTES_FROM_BASE64"
  | AIVM_OP_BYTES_TO_BASE64 => "BYTES_TO_BASE64" | AIVM_OP_BYTES_FROM_BYTE => "BYTES_FROM_BYTE"
  | AIVM_OP_BYTES_U32_LE => "BYTES_U32_LE" | AIVM_OP_BYTES_I64_LE => "BYTES_I64_LE"
  | AIVM_OP_MAP_BUILDER_NEW => "MAP_BUILDER_NEW" | AIVM_OP_MAP_BUILDER_PUT_STRING_INT => "MAP_BUILDER_PUT_STRING_INT"
  | AIVM_OP_MAP_BUILDER_FINISH => "MAP_BUILDER_FINISH" | AIVM_OP_MAP_COUNT => "MAP_COUNT"
  | AIVM_OP_MAP_HAS_STRING => "MAP_HAS_STRING" | AIVM_OP_MAP_GET_STRING_INT_OR => "MAP_GET_STRING_INT_OR"
  | AIVM_OP_MAKE_PAIR => "MAKE_PAIR" | AIVM_OP_PAIR_FIRST => "PAIR_FIRST"
  | AIVM_OP_PAIR_SECOND => "PAIR_SECOND" | AIVM_OP_SUB_NUM => "SUB_NUM"
  | AIVM_OP_MUL_NUM => "MUL_NUM" | AIVM_OP_DIV_NUM => "DIV_NUM"
  | AIVM_OP_MOD_NUM => "MOD_NUM" | AIVM_OP_POW_NUM => "POW_NUM"
  | AIVM_OP_LT_NUM => "LT_NUM"
  end.

(** The comparisons of [opcode_from_text], in order. *)
Definition op_names : list (string * AivmOpcode) :=
  [("NOP", AIVM_OP_NOP); ("HALT", AIVM_OP_HALT); ("STUB", AIVM_OP_STUB);
   ("PUSH_INT", AIVM_OP_PUSH_INT); ("POP", AIVM_OP_POP); ("STORE_LOCAL", AIVM_OP_STORE_LOCAL);
   ("LOAD_LOCAL", AIVM_OP_LOAD_LOCAL); ("ADD_INT", AIVM_OP_ADD_INT); ("JUMP", AIVM_OP_JUMP);
   ("JUMP_IF_FALSE", AIVM_OP_JUMP_IF_FALSE); ("PUSH_BOOL", AIVM_OP_PUSH_BOOL); ("CALL", AIVM_OP_CALL);
   ("RET", AIVM_OP_RET); ("EQ_INT", AIVM_OP_EQ_INT); ("EQ", AIVM_OP_EQ);
   ("CONST", AIVM_OP_CONST); ("STR_CONCAT", AIVM_OP_STR_CONCAT); ("TO_STRING", AIVM_OP_TO_STRING);
   ("STR_ESCAPE", AIVM_OP_STR_ESCAPE); ("RETURN", AIVM_OP_RETURN); ("STR_SUBSTRING", AIVM_OP_STR_SUBSTRING);
   ("STR_REMOVE", AIVM_OP_STR_REMOVE); ("CALL_SYS", AIVM_OP_CALL_SYS); ("ASYNC_CALL", AIVM_OP_ASYNC_CALL);
   ("ASYNC_CALL_SYS", AIVM_OP_ASYNC_CALL_SYS); ("AWAIT", AIVM_OP_AWAIT); ("WORKER_REF", AIVM_OP_WORKER_REF);
   ("WORKER_RUN", AIVM_OP_WORKER_RUN); ("TASK_CANCEL", AIVM_OP_TASK_CANCEL); ("WORKER_RUN_ALL", AIVM_OP_WORKER_RUN_ALL);
   ("WORKER_TASK_AT", AIVM_OP_WORKER_TASK_AT); ("PAR_BEGIN", AIVM_OP_PAR_BEGIN); ("PAR_FORK", AIVM_OP_PAR_FORK);
   ("PAR_JOIN", AIVM_OP_PAR_JOIN); ("PAR_CANCEL", AIVM_OP_PAR_CANCEL); ("STR_UTF8_BYTE_COUNT", AIVM_OP_STR_UTF8_BYTE_COUNT);
   ("STR_SCALAR_LENGTH", AIVM_OP_STR_SCALAR_LENGTH); ("VALUE_KIND", AIVM_OP_VALUE_KIND); ("NODE_BUILDER_NEW", AIVM_OP_NODE_BUILDER_NEW);
   ("NODE_BUILDER_APPEND_CHILD", AIVM_OP_NODE_BUILDER_APPEND_CHILD); ("NODE_BUILDER_APPEND_ATTR", AIVM_OP_NODE_BUILDER_APPEND_ATTR); ("NODE_BUILDER_FINISH", AIVM_OP_NODE_BUILDER_FINISH);
   ("NODE_KIND", AIVM_OP_NODE_KIND); ("NODE_ID", AIVM_OP_NODE_ID); ("ATTR_COUNT", AIVM_OP_ATTR_COUNT);
   ("ATTR_KEY", AIVM_OP_ATTR_KEY); ("ATTR_VALUE_KIND", AIVM_OP_ATTR_VALUE_KIND); ("ATTR_VALUE_STRING", AIVM_OP_ATTR_VALUE_STRING);
   ("ATTR_VALUE_INT", AIVM_OP_ATTR_VALUE_INT); ("ATTR_VALUE_BOOL", AIVM_OP_ATTR_VALUE_BOOL); ("CHILD_COUNT", AIVM_OP_CHILD_COUNT);
   ("CHILD_AT", AIVM_OP_CHILD_AT); ("MAKE_BLOCK", AIVM_OP_MAKE_BLOCK); ("APPEND_CHILD", AIVM_OP_APPEND_CHILD);
   ("MAKE_ERR", AIVM_OP_MAKE_ERR); ("MAKE_LIT_STRING", AIVM_OP_MAKE_LIT_STRING); ("MAKE_LIT_INT", AIVM_OP_MAKE_LIT_INT);
   ("MAKE_NODE", AIVM_OP_MAKE_NODE); ("MAKE_FIELD_STRING", AIVM_OP_MAKE_FIELD_STRING); ("MAKE_MAP", AIVM_OP_MAKE_MAP);
   ("MAKE_NODE_EMPTY", AIVM_OP_MAKE_NODE_EMPTY); ("APPEND_ATTR", AIVM_OP_APPEND_ATTR); ("BYTES_FROM_UTF8_STRING", AIVM_OP_BYTES_FROM_UTF8_STRING);
   ("BYTES_TO_UTF8_STRING", AIVM_OP_BYTES_TO_UTF8_STRING); ("BYTES_FROM_BASE64", AIVM_OP_BYTES_FROM_BASE64); ("BYTES_TO_BASE64", AIVM_OP_BYTES_TO_BASE64);
   ("BYTES_FROM_BYTE", AIVM_OP_BYTES_FROM_BYTE); ("BYTES_U32_LE", AIVM_OP_BYTES_U32_LE); ("BYTES_I64_LE", AIVM_OP_BYTES_I64_LE);
   ("MAP_BUILDER_NEW", AIVM_OP_MAP_BUILDER_NEW); ("MAP_BUILDER_PUT_STRING_INT", AIVM_OP_MAP_BUILDER_PUT_STRING_INT); ("MAP_BUILDER_FINISH", AIVM_OP_MAP_BUILDER_FINISH);
   ("MAP_COUNT", AIVM_OP_MAP_COUNT); ("MAP_HAS_STRING", AIVM_OP_MAP_HAS_STRING); ("MAP_GET_STRING_INT_OR", AIVM_OP_MAP_GET_STRING_INT_OR);
   ("MAKE_PAIR", AIVM_OP_MAKE_PAIR); ("PAIR_FIRST", AIVM_OP_PAIR_FIRST); ("PAIR_SECOND", AIVM_OP_PAIR_SECOND);
   ("SUB_NUM", AIVM_OP_SUB_NUM); ("MUL_NUM", AIVM_OP_MUL_NUM); ("DIV_NUM", AIVM_OP_DIV_NUM);
   ("MOD_NUM", AIVM_OP_MOD_NUM); ("POW_NUM", AIVM_OP_POW_NUM); ("LT_NUM", AIVM_OP_LT_NUM)].

Definition opcode_from_text (op_text : list Z) : option AivmOpcode :=
  snd <$> (snd <$> list_find (fun e => byte_str e.1 = op_text) op_names).

(** ** Programs that are read *)

(** [Parsed] is a return of 1, [Rejected] one of 0, [Outside] a write outside the program. *)
Inductive parsed (A : Type) :=
  | Parsed (a : A)
  | Rejected
  | Outside.
Arguments Parsed {A} a.
Arguments Rejected {A}.
Arguments Outside {A}.

Definition then_ {A B} (x : parsed A) (f : A -> parsed B) : parsed B :=
  match x with Parsed a => f a | Rejected => Rejected | Outside => Outside end.
Notation "'try!' x := e 'in' f" := (then_ e (fun x => f)) (at level 10, x pattern, f at level 200) : aivm_scope.

Definition or_reject {A} (x : option A) : parsed A := match x with Some a => Parsed a | None => Rejected end.
Definition inside {A} (x : option A) : parsed A := match x with Some a => Parsed a | None => Outside end.

(** [constant_storage[constant_count] = v; constant_count += 1] *)
Definition store_constant (v : AivmValue) (p : AivmProgram) : parsed AivmProgram :=
  try! p' := inside (write_constant p (constant_count p) v) in
  Parsed (set_constants (constant_store p') (constant_count p + 1) (constant_capacity p') p').

(** [instruction_storage[instruction_count] = ...; instruction_count += 1] *)
Definition store_instruction (op : AivmOpcode) (operand : Z) (p : AivmProgram) : parsed AivmProgram :=
  try! p' := inside (write_instruction p (instruction_count p) (mk_instruction op operand)) in
  Parsed (set_instructions (instruction_store p') (instruction_count p + 1) (instruction_capacity p') p').

(** A text with its NUL at the end of the string storage. *)
Definition store_text_constant (text : list Z) (p : AivmProgram) : parsed AivmProgram :=
  if AIVM_PROGRAM_MAX_STRING_BYTES <? zlen (string_storage p) + zlen text + 1 then Rejected
  else store_constant (VString (SProgram (zlen (string_storage p)))) (set_storage (string_storage p ++ text ++ [0]) (bytes_storage p) p).

Definition bytecode_add_string_const (value : list Z) (p : AivmProgram) : parsed (AivmProgram * Z) :=
  match find_constant (is_text_constant p value) p with
  | Some i => Parsed (p, i)
  | None =>
      if AIVM_PROGRAM_INLINE_CONSTANTS <=? constant_count p then Rejected
      else try! p' := store_text_constant value p in Parsed (p', constant_count p)
  end.

(** The attributes between parentheses, and the text behind them. *)
Definition attrs_at (p : list Z) : option (list Z * list Z) :=
  lparen ← strchr p 40;
  rparen ← strchr lparen 41;
  let n := zlen lparen - zlen rparen - 1 in
  if 512 <? n + 1 then None else Some (ztake n (zdrop 1 lparen), zdrop 1 rparen).

Definition number_value (kind attrs : list Z) : option AivmValue :=
  match parse_attr_int64 attrs (byte_str "value") with
  | Some v => Some (VInt v)
  | None => if bool_decide (kind = byte_str "number") then VNumber <$> parse_attr_double attrs (byte_str "value") else None
  end.

(** The constant with these attributes. *)
Definition read_constant (attrs : list Z) (p : AivmProgram) : parsed AivmProgram :=
  try! kind := or_reject (parse_attr_span attrs (byte_str "kind") 32) in
  if bool_decide (kind = byte_str "int") || bool_decide (kind = byte_str "number") then
    try! v := or_reject (number_value kind attrs) in store_constant v p
  else if bool_decide (kind = byte_str "bool") then
    try! b := or_reject (parse_attr_bool attrs (byte_str "value")) in store_constant (VBool b) p
  else if bool_decide (kind = byte_str "string") then
    try! raw := or_reject (parse_attr_span attrs (byte_str "value") 1024) in
    try! text := or_reject (unescape_string raw 1024) in
    store_text_constant text p
  else if bool_decide (kind = byte_str "node") then store_constant (VNode (constant_count p + 1)) p
  else if bool_decide (kind = byte_str "null") then store_constant VNull p
  else if bool_decide (kind = byte_str "void") then store_constant VVoid p
  else Rejected.

(** The loop over the constants: every round leaves a shorter text. *)
Fixpoint read_constants (fuel : nat) (text : list Z) (p : AivmProgram) : parsed AivmProgram :=
  match strstr text (byte_str "Const#") with
  | None => Parsed p
  | Some at_const =>
      match fuel with
      | O => Outside
      | S fuel' =>
          if AIVM_PROGRAM_INLINE_CONSTANTS <=? constant_count p then Rejected
          else
            try! (attrs, rest) := or_reject (attrs_at at_const) in
            try! p' := read_constant attrs p in
            read_constants fuel' rest p'
      end
  end.

(** The target of a system call in the attribute "s" is loaded first. *)
Definition read_target (legacy : bool) (op : AivmOpcode) (attrs : list Z) (p : AivmProgram) : parsed AivmProgram :=
  match parse_attr_span attrs (byte_str "s") 512 with
  | None => Parsed p
  | Some target =>
      if negb legacy || (negb (bool_decide (op = AIVM_OP_CALL_SYS)) && negb (bool_decide (op = AIVM_OP_ASYNC_CALL_SYS))) then Rejected
      else
        try! (p', i) := bytecode_add_string_const target p in
        if AIVM_PROGRAM_MAX_INSTRUCTIONS <=? instruction_count p' then Rejected
        else store_instruction AIVM_OP_CONST i p'
  end.

Definition read_instruction (legacy : bool) (attrs : list Z) (p : AivmProgram) : parsed AivmProgram :=
  try! op_text := or_reject (parse_attr_span attrs (byte_str "op") 64) in
  try! op := or_reject (opcode_from_text op_text) in
  try! p' := read_target legacy op attrs p in
  if has_attr_key attrs (byte_str "b")
     && (negb legacy || negb (bool_decide (parse_attr_int64 attrs (byte_str "b") = Some 0))) then Rejected
  else store_instruction op (default 0 (parse_attr_int64 attrs (byte_str "a"))) p'.

Fixpoint read_instructions (fuel : nat) (legacy : bool) (text : list Z) (p : AivmProgram) : parsed AivmProgram :=
  match strstr text (byte_str "Inst#") with
  | None => Parsed p
  | Some at_inst =>
      match fuel with
      | O => Outside
      | S fuel' =>
          if AIVM_PROGRAM_MAX_INSTRUCTIONS <=? instruction_count p then Rejected
          else
            try! (attrs, rest) := or_reject (attrs_at at_inst) in
            try! p' := read_instruction legacy attrs p in
            read_instructions fuel' legacy rest p'
      end
  end.

Definition parse_bytecode_aos_to_program_text (source : list Z) (allow_legacy_zero_b : bool) : parsed AivmProgram :=
  if bool_decide (strstr source (byte_str "Bytecode#") = None) then Rejected
  else
    try! p := read_constants (length source) source (set_header 2 0 0 aivm_program_clear) in
    try! p' := read_instructions (length source) allow_legacy_zero_b source p in
    if 0 <? instruction_count p' then Parsed p' else Rejected.

Section Files.
Context `{!Files}.

Definition parse_bytecode_aos_to_program_file (path : list Z) (allow_legacy_zero_b : bool) : parsed AivmProgram :=
  match read_text_file_alloc path with
  | None => Rejected
  | Some source => parse_bytecode_aos_to_program_text source allow_legacy_zero_b
  end.
End Files.

(** ** Opcodes that can be written as text *)

(** The opcodes [opcode_from_text] does not know. *)
Definition unnamed_opcodes : list AivmOpcode :=
  [AIVM_OP_MAKE_LIT_BOOL; AIVM_OP_STR_FIND; AIVM_OP_STR_FROM_CODEPOINT; AIVM_OP_STR_DECODE_UNICODE_HEX4;
   AIVM_OP_STR_DECODE_UNICODE_SURROGATE_PAIR_HEX4; AIVM_OP_BYTES_LENGTH; AIVM_OP_BYTES_AT; AIVM_OP_BYTES_SLICE; AIVM_OP_BYTES_CONCAT].

Lemma opcode_name_read op :
  opcode_from_text (byte_str (aivm_opcode_name op)) = if decide (op ∈ unnamed_opcodes) then None else Some op.
Proof. destruct op; vm_compute; reflexivity. Qed.

(** ** Safety *)

(** A node constant has no place in a program file: it is written as void. *)
Definition plain (v : AivmValue) : AivmValue := match v with VNode _ => VVoid | _ => v end.

Definition plain_program (p : AivmProgram) : AivmProgram :=
  set_constants (map plain (constant_store p)) (constant_count p) (constant_capacity p) p.

(** The constants of a program. *)
Definition bare (p : AivmProgram) : AivmProgram := set_instructions [] 0 (instruction_capacity p) (plain_program p).

Record reading (p : AivmProgram) : Prop := {
  rd_bare : code_ok (bare p);
  rd_count : instruction_count p = zlen (instruction_store p);
  rd_room : instruction_count p <= AIVM_PROGRAM_INLINE_INSTRUCTIONS;
  rd_operands : Forall (fun i => is_int64 (operand_int i)) (instruction_store p) }.

(** The program afterwards is in order, and the instructions are the same. *)
Definition adds (x : parsed AivmProgram) (p : AivmProgram) : Prop :=
  match x with
  | Parsed p' => reading p' /\ instruction_store p' = instruction_store p /\ instruction_count p' = instruction_count p
  | Rejected => True
  | Outside => False
  end.

Lemma store_adds value v p : reading p -> constant_count p < AIVM_PROGRAM_INLINE_CONSTANTS ->
  code_ok (with_constant value (plain v) (bare p)) ->
  adds (store_constant v (set_storage (string_storage p ++ value) (bytes_storage p) p)) p.
Proof.
  intros [R1 R2 R3 R4] Hroom Hok. unfold store_constant, write_constant. cbn [constant_count constant_capacity constant_store set_storage].
  pose proof (const_count _ R1) as Hc. cbn in Hc. rewrite zlen_map in Hc. rewrite Hc, Z.eqb_refl.
  pose proof (const_capacity _ R1) as Hk. cbn in Hk. rewrite Hk. rewrite (proj2 (Z.ltb_lt _ _)) by lia. cbn.
  split; [|done]. split; try done. revert Hok. unfold with_constant, bare, plain_program. cbn. rewrite map_app. cbn [map]. rewrite Hk, Hc. done.
Qed.

Lemma same_storage p : set_storage (string_storage p ++ []) (bytes_storage p) p = p.
Proof. rewrite app_nil_r. by destruct p. Qed.

(** A constant that needs no storage. *)
Lemma store_plain_adds v p : reading p -> constant_count p < AIVM_PROGRAM_INLINE_CONSTANTS ->
  (forall q, constant_ok q (plain v) /\ string_need (spec_of q (plain v)) = 0 /\ bytes_need (spec_of q (plain v)) = 0) ->
  adds (store_constant v p) p.
Proof.
  intros Hr Hroom Hv. rewrite <- (same_storage p) at 1. apply store_adds; [done|done|].
  destruct (Hv (with_constant [] (plain v) (bare p))) as (H1 & H2 & H3). apply with_constant_ok; try done; [apply Hr|constructor| |by rewrite H2].
  change (zlen (@nil Z)) with 0. pose proof (text_room _ (rd_bare p Hr)). lia.
Qed.

Lemma store_text_adds text p : reading p -> constant_count p < AIVM_PROGRAM_INLINE_CONSTANTS -> bytes_ok text ->
  adds (store_text_constant text p) p.
Proof.
  intros Hr Hroom Ht. unfold store_text_constant. destruct (Z.ltb_spec AIVM_PROGRAM_MAX_STRING_BYTES (zlen (string_storage p) + zlen text + 1)); [done|].
  apply store_adds; [done|done|]. apply (with_text_ok text (bare p)); [apply Hr|done|done|done].
Qed.

Lemma span_bytes attrs key n value : bytes_ok attrs -> parse_attr_span attrs key n = Some value -> bytes_ok value.
Proof. apply span_forall. Qed.

Lemma read_constant_adds attrs p : bytes_ok attrs -> reading p -> constant_count p < AIVM_PROGRAM_INLINE_CONSTANTS -> adds (read_constant attrs p) p.
Proof.
  intros Ha Hr Hroom. unfold read_constant. destruct (parse_attr_span attrs (byte_str "kind") 32) as [kind|]; [|done]. cbn [or_reject then_].
  destruct (_ || _).
  { unfold number_value, parse_attr_int64, parse_attr_double. destruct (_ ≫= strtoll) as [z|] eqn:Ez; cbn [or_reject then_].
    - apply store_plain_adds; [done|done|]. intros q. split_and!; try done. destruct (parse_attr_span _ _ 64) as [t|]; [|done].
      by apply (strtoll_range t).
    - destruct (bool_decide _); [|done]. destruct (_ ≫= strtod) as [d|] eqn:Ed; [|done]. cbn [fmap option_fmap option_map or_reject then_].
      apply store_plain_adds; [done|done|]. intros q. split_and!; try done. destruct (parse_attr_span _ _ 128) as [t|]; [|done].
      by apply (strtod_valid t). }
  destruct (bool_decide _).
  { destruct (parse_attr_bool _ _) as [b|]; [|done]. by apply store_plain_adds. }
  destruct (bool_decide _).
  { destruct (parse_attr_span attrs (byte_str "value") 1024) as [raw|] eqn:Er; [|done]. cbn [or_reject then_].
    destruct (unescape_string raw 1024) as [text|] eqn:Eu; [|done]. cbn [or_reject then_]. apply store_text_adds; [done|done|].
    eapply unescape_ok; [|exact Eu]. by eapply span_bytes. }
  destruct (bool_decide _); [by apply store_plain_adds|]. destruct (bool_decide _); [by apply store_plain_adds|].
  destruct (bool_decide _); [by apply store_plain_adds|done].
Qed.

(** *** Searching *)

Lemma strstr_suffix text needle rest : strstr text needle = Some rest -> exists pre, text = pre ++ rest.
Proof.
  induction text as [|c text IH]; cbn [strstr]; (destruct (starts_with _ _); [intros [= <-]; by exists []|]); [done|].
  intros H. destruct (IH H) as [pre ->]. by exists (c :: pre).
Qed.

Lemma strchr_suffix text c rest : strchr text c = Some rest -> (exists pre, text = pre ++ rest) /\ exists rest', rest = c :: rest'.
Proof.
  induction text as [|d text IH]; cbn [strchr]; [done|]. destruct (Z.eqb_spec d c) as [->|].
  - intros [= <-]. split; [by exists []|by exists text].
  - intros H. destruct (IH H) as [[pre ->] ?]. split; [by exists (d :: pre)|done].
Qed.

Lemma attrs_at_spec text attrs rest : attrs_at text = Some (attrs, rest) -> bytes_ok text ->
  bytes_ok attrs /\ bytes_ok rest /\ (length rest < length text)%nat.
Proof.
  unfold attrs_at. destruct (strchr text 40) as [l|] eqn:E1; [|done]. cbn [mbind option_bind].
  destruct (strchr l 41) as [r|] eqn:E2; [|done]. cbn [mbind option_bind]. destruct (512 <? _); [done|]. intros [= <- <-] Hb.
  apply strchr_suffix in E1 as [[p1 ->] _]. apply strchr_suffix in E2 as [[p2 ->] [r' ->]].
  apply Forall_app in Hb as [_ Hb]. split; [apply Forall_take, Forall_drop, Hb|]. apply Forall_app in Hb as [_ Hb].
  split; [by apply Forall_drop|]. change (zdrop 1 (41 :: r')) with r'. rewrite !length_app. cbn [length]. lia.
Qed.

Lemma strstr_attrs text needle at_ attrs rest : strstr text needle = Some at_ -> attrs_at at_ = Some (attrs, rest) -> bytes_ok text ->
  bytes_ok attrs /\ bytes_ok rest /\ (length rest < length text)%nat.
Proof.
  intros Hs Ha Hb. apply strstr_suffix in Hs as [pre ->]. apply Forall_app in Hb as [_ Hb]. destruct (attrs_at_spec _ _ _ Ha Hb) as (H1 & H2 & H3).
  split_and!; [done|done|]. rewrite length_app. lia.
Qed.

(** *** The loops *)

Lemma read_constants_adds fuel : forall text p, bytes_ok text -> (length text <= fuel)%nat -> reading p -> adds (read_constants fuel text p) p.
Proof.
  induction fuel as [|fuel IH]; intros text p Hb Hl Hr.
  { destruct text; [|cbn in Hl; lia]. by split. }
  cbn [read_constants]. destruct (strstr text (byte_str "Const#")) as [at_|] eqn:Es; [|by split].
  destruct (Z.leb_spec AIVM_PROGRAM_INLINE_CONSTANTS (constant_count p)); [done|].
  destruct (attrs_at at_) as [[attrs rest]|] eqn:Ea; [|done]. cbn [or_reject then_].
  destruct (strstr_attrs _ _ _ _ _ Es Ea Hb) as (H1 & H2 & H3).
  pose proof (read_constant_adds attrs p H1 Hr ltac:(lia)) as Hc. destruct (read_constant attrs p) as [p'| |]; [|done|done]. cbn [then_].
  destruct Hc as (Hr' & E1 & E2). pose proof (IH rest p' H2 ltac:(lia) Hr') as Hn. unfold adds in *.
  destruct (read_constants fuel rest p'); [|done|done]. destruct Hn as (? & ? & ?). split_and!; [done|congruence|congruence].
Qed.

(** The instructions keep the constants in order. *)
Definition writes (x : parsed AivmProgram) : Prop :=
  match x with Parsed p' => reading p' | Rejected => True | Outside => False end.

Lemma store_instruction_writes op operand p : reading p -> is_int64 operand -> instruction_count p < AIVM_PROGRAM_INLINE_INSTRUCTIONS ->
  match store_instruction op operand p with Parsed p' => reading p' /\ instruction_count p' = instruction_count p + 1 | _ => False end.
Proof.
  intros [R1 R2 R3 R4] Ho Hroom. unfold store_instruction, write_instruction. pose proof (code_capacity _ R1) as Hk. cbn in Hk.
  rewrite Hk, R2, Z.eqb_refl. rewrite (proj2 (Z.ltb_lt _ _)) by lia. cbn. split; [|done]. split; cbn.
  - unfold bare, plain_program in *. cbn in *. by rewrite Hk in R1.
  - rewrite zlen_app. change (zlen [_]) with 1. lia.
  - lia.
  - apply Forall_app. split; [done|]. by constructor.
Qed.

Lemma read_instruction_writes attrs p : reading p -> instruction_count p < AIVM_PROGRAM_INLINE_INSTRUCTIONS -> writes (read_instruction false attrs p).
Proof.
  intros Hr Hroom. unfold read_instruction. destruct (parse_attr_span attrs (byte_str "op") 64) as [op_text|]; [|done]. cbn [or_reject then_].
  destruct (opcode_from_text op_text) as [op|]; [|done]. cbn [or_reject then_]. unfold read_target.
  destruct (parse_attr_span attrs (byte_str "s") 512); [done|]. cbn [then_]. destruct (_ && _); [done|].
  set (a := default 0 _). assert (Ha : is_int64 a).
  { unfold a, parse_attr_int64. destruct (parse_attr_span attrs (byte_str "a") 64) as [t|]; [|done]. cbn [mbind option_bind].
    destruct (strtoll t) eqn:E; [|done]. by apply (strtoll_range t). }
  pose proof (store_instruction_writes op a p Hr Ha Hroom). destruct (store_instruction op a p); [|done|done]. by destruct H.
Qed.

Lemma read_instructions_writes fuel : forall text p, bytes_ok text -> (length text <= fuel)%nat -> reading p -> writes (read_instructions fuel false text p).
Proof.
  induction fuel as [|fuel IH]; intros text p Hb Hl Hr.
  { destruct text; [|cbn in Hl; lia]. done. }
  cbn [read_instructions]. destruct (strstr text (byte_str "Inst#")) as [at_|] eqn:Es; [|done].
  destruct (Z.leb_spec AIVM_PROGRAM_MAX_INSTRUCTIONS (instruction_count p)) as [|Hroom]; [done|].
  destruct (attrs_at at_) as [[attrs rest]|] eqn:Ea; [|done]. cbn [or_reject then_].
  destruct (strstr_attrs _ _ _ _ _ Es Ea Hb) as (H1 & H2 & H3).
  pose proof (read_instruction_writes attrs p Hr Hroom) as Hi. destruct (read_instruction false attrs p) as [p'| |]; [|done|done]. cbn [then_].
  apply IH; [done|lia|done].
Qed.

(** In the older form of the files a system call names its target: the last two instructions
    of a full program are checked for together, and the second is written past the end of
    the instructions. *)
Lemma legacy_target_overruns op attrs target operand p : reading p -> instruction_count p = AIVM_PROGRAM_MAX_INSTRUCTIONS - 1 ->
  op = AIVM_OP_CALL_SYS \/ op = AIVM_OP_ASYNC_CALL_SYS -> parse_attr_span attrs (byte_str "s") 512 = Some target ->
  find_constant (is_text_constant p target) p <> None ->
  match read_target true op attrs p with Parsed p' => store_instruction op operand p' = Outside | _ => False end.
Proof.
  intros Hr Hn Hop Ht Hc. unfold read_target. rewrite Ht. cbn [negb orb].
  destruct (negb _ && negb _) eqn:Eo; [exfalso; destruct Hop as [-> | ->]; done|]. unfold bytecode_add_string_const.
  destruct (find_constant _ p) as [i|] eqn:Ef; [|done]. cbn [then_]. rewrite Hn.
  change (AIVM_PROGRAM_MAX_INSTRUCTIONS <=? AIVM_PROGRAM_MAX_INSTRUCTIONS - 1) with false. cbn iota.
  assert (Hi : is_int64 i).
  { unfold find_constant in Ef. destruct (list_find _ _) as [[n v]|] eqn:El; [|done]. injection Ef as <-. apply list_find_Some in El as (El & _).
    apply lookup_take_Some in El as [_ El]. pose proof (const_room _ (rd_bare p Hr)) as Hk. cbn in Hk. unfold AIVM_PROGRAM_INLINE_CONSTANTS in Hk.
    unfold is_int64, INT64_MIN, INT64_MAX. lia. }
  pose proof (store_instruction_writes AIVM_OP_CONST i p Hr Hi ltac:(unfold AIVM_PROGRAM_MAX_INSTRUCTIONS in *; lia)) as Hs.
  destruct (store_instruction AIVM_OP_CONST i p) as [p'| |]; [|done|done]. destruct Hs as [Hr' Hn'].
  unfold store_instruction, write_instruction. pose proof (code_capacity _ (rd_bare p' Hr')) as Hk. cbn in Hk. rewrite Hk, Hn', Hn. done.
Qed.

(** ** What is read can be written and loaded *)

Lemma mapM_plain {A} (f g : A -> option AivmValue) l : (forall x, g x = plain <$> f x) -> mapM g l = map plain <$> mapM f l.
Proof.
  intros Hg. induction l as [|x l IH]; [done|]. cbn [mapM]. rewrite Hg, IH. destruct (f x); [|done]. cbn. by destruct (mapM f l).
Qed.

Lemma stored_plain p i : stored_constant (plain_program p) i = plain <$> stored_constant p i.
Proof.
  unfold stored_constant. destruct (_ <? _); [|done]. cbn. unfold zget. destruct (i <? 0); [done|]. rewrite list_lookup_fmap.
  by destruct (constant_store p !! Z.to_nat i).
Qed.

Lemma size_plain p vs : forall n, constants_size (plain_program p) (map plain vs) n = constants_size p vs n.
Proof.
  induction vs as [|v vs IH]; intros n; [done|]. cbn [map constants_size].
  replace (constant_size (plain_program p) (plain v)) with (constant_size p v) by by destruct v.
  destruct (constant_size p v) as [[k|]|]; [|done|done]. cbn. apply IH.
Qed.

Lemma values_plain p vs : mapM (write_constant_value (plain_program p)) (map plain vs) = mapM (write_constant_value p) vs.
Proof.
  induction vs as [|v vs IH]; [done|]. cbn [map mapM].
  replace (write_constant_value (plain_program p) (plain v)) with (write_constant_value p v) by by destruct v.
  by rewrite IH.
Qed.

Lemma write_plain p : write_program_as_aibc1 (plain_program p) = write_program_as_aibc1 p.
Proof.
  unfold write_program_as_aibc1. change (instruction_count (plain_program p)) with (instruction_count p).
  change (constant_count (plain_program p)) with (constant_count p). destruct (_ =? 0); [done|].
  rewrite (mapM_plain (stored_constant p) (stored_constant (plain_program p))) by apply stored_plain.
  destruct (mapM (stored_constant p) _) as [vs|]; [|done]. cbn [fmap option_fmap option_map mbind option_bind]. rewrite size_plain, values_plain.
  done.
Qed.

Lemma reading_storable p : reading p -> 0 < instruction_count p -> storable (plain_program p).
Proof.
  intros [R1 R2 R3 R4] Hpos. destruct R1 as [P1 P2 P3 P4 P5 P6 P7 P8 P9 P10 P11 [P12 P13]]. constructor; try done.
  - split; [exact P9|]. change (bytes_ok (bytes_storage (bare p))). rewrite P12. constructor.
  - etrans; [exact P11|exact P10].
  - etrans; [apply Z.eq_le_incl; exact P13|done].
Qed.

Lemma reading_start : reading (set_header 2 0 0 aivm_program_clear).
Proof. split; [|done|done|constructor]. by split; try constructor. Qed.

(** Reading a bytecode text of any contents (in the current form, without legacy
    operands) ends without a write outside the program; what is accepted has at most 32768
    instructions and 1024 constants, can be written as a program file, and the file is loaded
    as the same program, its node constants as void. *)
Theorem bytecode_text_loads source load_alloc tick : bytes_ok source -> (forall t n, load_alloc t n = true) ->
  match parse_bytecode_aos_to_program_text source false with
  | Outside => False
  | Rejected => True
  | Parsed p => exists bytes p' tick', write_program_as_aibc1 p = Some (Some bytes) /\
      aivm_program_load_aibc1 load_alloc (Some bytes) tick = Some (p', AIVM_PROGRAM_OK, 0, tick') /\ same_program (plain_program p) p'
  end.
Proof.
  intros Hb Halloc. unfold parse_bytecode_aos_to_program_text. case_bool_decide; [done|].
  pose proof (read_constants_adds (length source) source _ Hb (le_n _) reading_start) as Hc.
  destruct (read_constants _ _ _) as [p| |]; [|done|done]. destruct Hc as [Hr _]. cbn [then_].
  pose proof (read_instructions_writes (length source) source p Hb (le_n _) Hr) as Hi.
  destruct (read_instructions _ _ _ _) as [q| |]; [|done|done]. cbn [then_]. destruct (Z.ltb_spec 0 (instruction_count q)) as [Hpos|]; [|done].
  rewrite <- write_plain. apply written_loads; [done|]. by apply reading_storable.
Qed.

(** ** Example *)

Definition sample_text : list Z := byte_str
  "Bytecode#b { Const#c0(kind=int value=42) Const#c1(kind=node value=Node) Inst#i0(op=CONST a=0) Inst#i1(op=PUSH_INT a=-3) Inst#i2(op=HALT) }".

Example sample_parsed : match parse_bytecode_aos_to_program_text sample_text false with
  | Parsed p => instruction_store p = [mk_instruction AIVM_OP_CONST 0; mk_instruction AIVM_OP_PUSH_INT (-3); mk_instruction AIVM_OP_HALT 0] /\
      constant_store p = [VInt 42; VNode 2]
  | _ => False
  end.
Proof. vm_compute. done. Qed.

Lemma bytecode_text_loads_witness : match parse_bytecode_aos_to_program_text sample_text false with
  | Parsed p => exists p' tick', same_program (plain_program p) p' /\ exists bytes, write_program_as_aibc1 p = Some (Some bytes) /\
      aivm_program_load_aibc1 (fun _ _ => true) (Some bytes) 0 = Some (p', AIVM_PROGRAM_OK, 0, tick')
  | _ => False
  end.
Proof.
  pose proof (bytecode_text_loads sample_text (fun _ _ => true) 0 (bytes_of_string_ok _) (fun _ _ => eq_refl)) as H.
  pose proof sample_parsed as Hs. destruct (parse_bytecode_aos_to_program_text sample_text false) as [p| |]; [|exact Hs|exact Hs].
  destruct H as (bytes & p' & t & H1 & H2 & H3). exists p', t. split; [exact H3|]. exists bytes. split; [exact H1|exact H2].
Defined.
