(* ===== verification/Embedding.v ===== *)
(** * Running programs from a host (src/src/aivm_runtime.c, src/src/aivm_c_api.c)

    The functions a host calls: they make a VM, load or take a program, run it to its end
    and report the result.  The VM they allocate is disposed of before they return, which
    the result does not depend on. *)

From S2P Require Import Prelude LoaderFormat Types Program LoaderSafety ProgramWriter Numeric Syscalls Vm Lifecycle Stack Memory Control Step Roots TextOps Collector Tasks AsyncCalls WorkerTasks CallSys Machine.
From S2P Require Import AosText Compiler SourceFiles Build.

(** ** Host events *)

Inductive AivmRuntimeHostEventStatus :=
  | AIVM_RUNTIME_HOST_EVENT_OK | AIVM_RUNTIME_HOST_EVENT_INVALID | AIVM_RUNTIME_HOST_EVENT_REJECTED.

(** The callbacks work on a host state [St]; [None] is a NULL function pointer.  [drain]
    gets the limit and the count so far and gives its return value and the new count. *)
Record AivmRuntimeHostAdapter (St : Type) := mk_adapter {
  adapter_enqueue : option (St -> list Z -> AivmValue -> Z * St);
  adapter_drain : option (St -> Z -> Z -> Z * Z * St) }.
Arguments adapter_enqueue {St}.
Arguments adapter_drain {St}.

Definition aivm_runtime_host_enqueue_event {St} (adapter : option (AivmRuntimeHostAdapter St)) (event_name : option (list Z))
    (payload : AivmValue) (h : St) : AivmRuntimeHostEventStatus * St :=
  match adapter ≫= adapter_enqueue, event_name with
  | Some enqueue, Some name =>
      if bool_decide (name = []) then (AIVM_RUNTIME_HOST_EVENT_INVALID, h)
      else if negb (aivm_value_is_immutable_message_payload payload) then (AIVM_RUNTIME_HOST_EVENT_INVALID, h)
      else
        let '(r, h') := enqueue h name payload in
        (if negb (r =? 0) then AIVM_RUNTIME_HOST_EVENT_REJECTED else AIVM_RUNTIME_HOST_EVENT_OK, h')
  | _, _ => (AIVM_RUNTIME_HOST_EVENT_INVALID, h)
  end.

(** [out_drained_count] is not NULL; the second component is what it holds afterwards. *)
Definition aivm_runtime_host_drain_events {St} (adapter : option (AivmRuntimeHostAdapter St)) (max_events : Z) (h : St)
    : AivmRuntimeHostEventStatus * Z * St :=
  match adapter ≫= adapter_drain with
  | Some drain =>
      if max_events =? 0 then (AIVM_RUNTIME_HOST_EVENT_INVALID, 0, h)
      else
        let '(r, count, h') := drain h max_events 0 in
        if negb (r =? 0) then (AIVM_RUNTIME_HOST_EVENT_REJECTED, 0, h')
        else if max_events <? count then (AIVM_RUNTIME_HOST_EVENT_INVALID, 0, h')
        else (AIVM_RUNTIME_HOST_EVENT_OK, count, h')
  | None => (AIVM_RUNTIME_HOST_EVENT_INVALID, 0, h)
  end.

(** ** Execution *)

(** [(int)] of an [int64_t]. *)
Definition int_of_i64 (z : Z) : Z := let m := z mod 2 ^ 32 in if m <? 2 ^ 31 then m else m - 2 ^ 32.

Record AivmCResult := mk_result {
  res_ok : bool; res_loaded : bool; res_exit_code : option Z; res_status : AivmVmStatus; res_error : AivmVmError;
  res_load_status : AivmProgramStatus; res_load_error_offset : Z; res_error_detail : detail }.

Definition result_defaults : AivmCResult :=
  mk_result false false None AIVM_VM_STATUS_READY AIVM_VM_ERR_NONE AIVM_PROGRAM_ERR_NULL 0 (DText "").

(** The result when the VM is not run: an error and what is known of the program. *)
Definition refused_result (e : AivmVmError) (load_status : AivmProgramStatus) (offset : Z) : AivmCResult :=
  let r := result_defaults in
  mk_result (res_ok r) (res_loaded r) (res_exit_code r) AIVM_VM_STATUS_ERROR e load_status offset (res_error_detail r).

(** [snprintf] into the 256 bytes of the result. *)
Definition capture_error_detail (s : AivmVm) : detail := DFormat "%s" [ADetail (error_detail s)].

(** [has_exit_code] and [exit_code]. *)
Definition capture_exit_code (s : AivmVm) : option Z :=
  if negb (bool_decide (status s = AIVM_VM_STATUS_HALTED)) then None
  else match stack s with VInt i :: _ => Some (int_of_i64 i) | _ => None end.

Inductive execution :=
  | Refused
  | Executed (ok : bool) (s : AivmVm)
  | ExecUndefined
  | ExecNotModelled.

Inductive c_answer :=
  | CResult (r : AivmCResult)
  | CUndefined
  | CNotModelled.

Section Execution.

Context {host : Host} (exec : AivmProgram -> AivmInstruction -> option (M unit)).

(** The host's answers to the allocation of the VM, of its storage and of the loader. *)
Context (vm_granted : bool) (grant : nat -> bool) (load_alloc : nat -> Z -> bool).

(** [aivm_init_with_syscalls_and_argv_profile] of a zeroed VM; [None] is undefined. *)
Definition aivm_init_with_syscalls_and_argv_profile (program : AivmProgram)
    (bindings : option (list (AivmSyscallBinding (list host_call)))) (args : list (option (list Z)))
    (profile : AivmRuntimeProfile) : option AivmVm :=
  if (init_storage grant profile zeroed_storage).2 then initialised_vm program bindings args profile
  else Some (unready_vm program bindings profile).

(** [None] when the program has not ended within the fuel. *)
Definition aivm_execute_program_with_syscalls_and_argv_profile (fuel : nat) (program : option AivmProgram)
    (bindings : option (list (AivmSyscallBinding (list host_call)))) (args : list (option (list Z)))
    (profile : AivmRuntimeProfile) : option execution :=
  match program with
  | None => Some Refused
  | Some p =>
      match aivm_init_with_syscalls_and_argv_profile p bindings args profile with
      | None => Some ExecUndefined
      | Some s =>
          match aivm_run exec fuel s with
          | None => None
          | Some Undefined => Some ExecUndefined
          | Some NotModelled => Some ExecNotModelled
          | Some (Next s') =>
              if bool_decide (status s' = AIVM_VM_STATUS_ERROR) then Some (Executed false s')
              else
                match aivm_collect_safe_point s' with
                | Ok _ s'' => Some (Executed true s'')
                | Err s'' => Some (Executed false s'')
                | Undef => Some ExecUndefined
                end
          end
      end
  end.

Definition aivm_execute_program_with_syscalls_and_argv (fuel : nat) (program : option AivmProgram)
    (bindings : option (list (AivmSyscallBinding (list host_call)))) (args : list (option (list Z))) : option execution :=
  aivm_execute_program_with_syscalls_and_argv_profile fuel program bindings args aivm_runtime_default_profile.

Definition aivm_execute_program_with_syscalls (fuel : nat) (program : option AivmProgram)
    (bindings : option (list (AivmSyscallBinding (list host_call)))) : option execution :=
  aivm_execute_program_with_syscalls_and_argv fuel program bindings [].

Definition aivm_execute_program (fuel : nat) (program : option AivmProgram) : option execution :=
  aivm_execute_program_with_syscalls fuel program None.

(** ** The C interface *)

(** What is reported of a VM that has run. *)
Definition executed_result (offset : Z) (x : option execution) : option c_answer :=
  match x with
  | None => None
  | Some (Executed ok s) =>
      Some (CResult (mk_result ok true (capture_exit_code s) (status s) (error s) AIVM_PROGRAM_OK offset (capture_error_detail s)))
  | Some Refused | Some ExecUndefined => Some CUndefined
  | Some ExecNotModelled => Some CNotModelled
  end.

Definition aivm_program_init (instructions : list AivmInstruction) (instruction_count : Z) : AivmProgram :=
  set_instructions instructions instruction_count AIVM_PROGRAM_INLINE_INSTRUCTIONS aivm_program_clear.

Definition aivm_c_execute_instructions_with_syscalls (fuel : nat) (instructions : list AivmInstruction) (instruction_count : Z)
    (constants : option (list AivmValue)) (constant_count : Z)
    (bindings : option (list (AivmSyscallBinding (list host_call)))) : option c_answer :=
  if negb vm_granted
  then Some (CResult (refused_result AIVM_VM_ERR_MEMORY_PRESSURE AIVM_PROGRAM_ERR_NULL 0))
  else
    let p := aivm_program_init instructions instruction_count in
    let p' := match constants with
              | Some cs => if 0 <? constant_count then set_constants cs constant_count (constant_capacity p) p else p
              | None => p
              end in
    executed_result 0 (aivm_execute_program_with_syscalls fuel (Some p') bindings).

Definition aivm_c_execute_instructions_with_constants (fuel : nat) (instructions : list AivmInstruction) (instruction_count : Z)
    (constants : option (list AivmValue)) (constant_count : Z) : option c_answer :=
  aivm_c_execute_instructions_with_syscalls fuel instructions instruction_count constants constant_count None.

Definition aivm_c_execute_instructions (fuel : nat) (instructions : list AivmInstruction) (instruction_count : Z) : option c_answer :=
  aivm_c_execute_instructions_with_constants fuel instructions instruction_count None 0.

Definition aivm_c_execute_program_with_syscalls_and_argv (fuel : nat) (program : option AivmProgram)
    (bindings : option (list (AivmSyscallBinding (list host_call)))) (args : list (option (list Z))) : option c_answer :=
  if negb vm_granted
  then Some (CResult (refused_result AIVM_VM_ERR_MEMORY_PRESSURE AIVM_PROGRAM_ERR_NULL 0))
  else
    match program with
    | None => Some (CResult (refused_result AIVM_VM_ERR_INVALID_PROGRAM AIVM_PROGRAM_ERR_NULL 0))
    | Some p => executed_result 0 (aivm_execute_program_with_syscalls_and_argv fuel (Some p) bindings args)
    end.

Definition aivm_c_execute_program_with_syscalls (fuel : nat) (program : option AivmProgram)
    (bindings : option (list (AivmSyscallBinding (list host_call)))) : option c_answer :=
  aivm_c_execute_program_with_syscalls_and_argv fuel program bindings [].

(** The program is loaded into memory that the function does not release. *)
Definition aivm_c_execute_aibc1_with_syscalls_and_argv (fuel : nat) (bytes : option (list Z))
    (bindings : option (list (AivmSyscallBinding (list host_call)))) (args : list (option (list Z))) : option c_answer :=
  if negb vm_granted
  then Some (CResult (refused_result AIVM_VM_ERR_MEMORY_PRESSURE AIVM_PROGRAM_ERR_NULL 0))
  else
    match aivm_program_load_aibc1 load_alloc bytes 0 with
    | None => Some CUndefined
    | Some (p, st, offset, _) =>
        if bool_decide (st = AIVM_PROGRAM_OK)
        then executed_result offset (aivm_execute_program_with_syscalls_and_argv fuel (Some p) bindings args)
        else Some (CResult (refused_result AIVM_VM_ERR_INVALID_PROGRAM st offset))
    end.

Definition aivm_c_execute_aibc1_with_argv (fuel : nat) (bytes : option (list Z)) (args : list (option (list Z))) : option c_answer :=
  aivm_c_execute_aibc1_with_syscalls_and_argv fuel bytes None args.

Definition aivm_c_execute_aibc1 (fuel : nat) (bytes : option (list Z)) : option c_answer :=
  aivm_c_execute_aibc1_with_argv fuel bytes [].

End Execution.

Definition aivm_c_vm_task_reclaim_count (s : option AivmVm) : Z :=
  match s with Some s => task_reclaim_count (task_table s) | None => 0 end.
Definition aivm_c_vm_task_reclaim_skip_pinned_count (s : option AivmVm) : Z :=
  match s with Some s => task_reclaim_skip_pinned_count (task_table s) | None => 0 end.
Definition aivm_c_vm_task_reclaim_exhausted_count (s : option AivmVm) : Z :=
  match s with Some s => task_reclaim_exhausted_count (task_table s) | None => 0 end.
Definition aivm_c_abi_version : Z := 1.

(** ** What is reported *)

Section Reports.

Context {host : Host} (exec : AivmProgram -> AivmInstruction -> option (M unit)).
Context (vm_granted : bool) (grant : nat -> bool) (load_alloc : nat -> Z -> bool).

Lemma int_of_i64_range z : - 2 ^ 31 <= int_of_i64 z < 2 ^ 31.
Proof. unfold int_of_i64. pose proof (Z.mod_pos_bound z (2 ^ 32)). destruct (Z.ltb_spec (z mod 2 ^ 32) (2 ^ 31)); lia. Qed.

Lemma exit_code_iff s e : capture_exit_code s = Some e <->
  status s = AIVM_VM_STATUS_HALTED /\ exists i rest, stack s = VInt i :: rest /\ e = int_of_i64 i.
Proof.
  unfold capture_exit_code. case_bool_decide as Hs; cbn [negb]; [|by split; [|intros [? _]]].
  split; [|intros (_ & i & rest & -> & ->); done]. intros He. split; [done|]. destruct (stack s) as [|[] rest]; try done. injection He as <-. by eexists _, _.
Qed.

(** A run that is not refused ends in a collected VM without an error, or in a failure. *)
Lemma execute_ok fuel p bindings args profile s :
  aivm_execute_program_with_syscalls_and_argv_profile exec grant fuel (Some p) bindings args profile = Some (Executed true s) ->
  exists s1 s0, aivm_init_with_syscalls_and_argv_profile grant p bindings args profile = Some s0 /\
    aivm_run exec fuel s0 = Some (Next s1) /\ status s1 <> AIVM_VM_STATUS_ERROR /\ aivm_collect_safe_point s1 = Ok tt s.
Proof.
  unfold aivm_execute_program_with_syscalls_and_argv_profile. destruct (aivm_init_with_syscalls_and_argv_profile _ _ _ _ _) as [s0|] eqn:E0; [|done].
  destruct (aivm_run exec fuel s0) as [[s1| |]|] eqn:E1; try done. case_bool_decide as Hs; [done|].
  destruct (aivm_collect_safe_point s1) as [[] s2|s2|] eqn:E2; try done. intros [= <-]. by exists s1, s0.
Qed.

(** C32: What [aivm_c_execute_aibc1_with_syscalls_and_argv] reports, for any bytes, arguments,
    bindings and answers of the allocator.  The status and offset of the loader are reported
    as the loader gave them; the program counts as loaded exactly when there is memory for
    the VM and the loader accepts the bytes, and otherwise the result is an error without an
    exit code, MEMORY_PRESSURE or INVALID_PROGRAM.  A loaded program is reported with the
    status, the error and the detail of the VM it was run on, and with an exit code exactly
    when that VM has halted with an integer on its stack, cut to an [int].  Success means
    that the run ended without the error status and the collection after it succeeded.  The
    call is undefined only where the run of the accepted program is. *)
Theorem c_execute_reports fuel bytes bindings args : bytes_ok bytes ->
  exists p st offset tick', aivm_program_load_aibc1 load_alloc (Some bytes) 0 = Some (p, st, offset, tick') /\
  let run := aivm_execute_program_with_syscalls_and_argv exec grant fuel (Some p) bindings args in
  match aivm_c_execute_aibc1_with_syscalls_and_argv exec vm_granted grant load_alloc fuel (Some bytes) bindings args with
  | Some (CResult r) =>
      res_load_status r = (if vm_granted then st else AIVM_PROGRAM_ERR_NULL) /\ res_load_error_offset r = (if vm_granted then offset else 0) /\
      (res_loaded r = true <-> vm_granted = true /\ st = AIVM_PROGRAM_OK) /\
      (res_loaded r = false -> res_ok r = false /\ res_status r = AIVM_VM_STATUS_ERROR /\ res_exit_code r = None /\
         res_error r = (if vm_granted then AIVM_VM_ERR_INVALID_PROGRAM else AIVM_VM_ERR_MEMORY_PRESSURE)) /\
      (res_loaded r = true -> exists s, run = Some (Executed (res_ok r) s) /\ res_status r = status s /\ res_error r = error s /\
         res_error_detail r = capture_error_detail s /\
         forall e, res_exit_code r = Some e <->
           status s = AIVM_VM_STATUS_HALTED /\ exists i rest, stack s = VInt i :: rest /\ e = int_of_i64 i) /\
      (res_ok r = true -> exists s0 s1 s,
         aivm_init_with_syscalls_and_argv_profile grant p bindings args aivm_runtime_default_profile = Some s0 /\
         aivm_run exec fuel s0 = Some (Next s1) /\ status s1 <> AIVM_VM_STATUS_ERROR /\ aivm_collect_safe_point s1 = Ok tt s /\
         run = Some (Executed true s))
  | Some CUndefined => st = AIVM_PROGRAM_OK /\ run = Some ExecUndefined
  | Some CNotModelled => st = AIVM_PROGRAM_OK /\ run = Some ExecNotModelled
  | None => st = AIVM_PROGRAM_OK /\ run = None
  end.
Proof.
  intros Hb. pose proof (load_total_ok load_alloc bytes 0%nat Hb) as Hl. unfold load_total at 2 in Hl.
  destruct (aivm_program_load_aibc1 load_alloc (Some bytes) 0) as [[[[p st] offset] t]|] eqn:El; [|done]. exists p, st, offset, t. split; [done|].
  cbn zeta. unfold aivm_c_execute_aibc1_with_syscalls_and_argv. rewrite El. destruct vm_granted; cbn [negb].
  2: { by split_and!; [| |split; [|intros []]| | |]. }
  case_bool_decide as Hst; [|by split_and!; [| |split; [|intros [_ ?]]| | |]].
  destruct (aivm_execute_program_with_syscalls_and_argv exec grant fuel (Some p) bindings args) as [x|] eqn:Ex; cbn [executed_result]; [|done].
  destruct x as [|ok s| |]; try done.
  { unfold aivm_execute_program_with_syscalls_and_argv, aivm_execute_program_with_syscalls_and_argv_profile in Ex; repeat case_match; done. }
  split_and!; try done.
  - intros _. exists s. split_and!; try done. intros e. apply exit_code_iff.
  - cbn. intros ->. destruct (execute_ok _ _ _ _ _ _ Ex) as (s1 & s0 & H1 & H2 & H3 & H4). by exists s0, s1, s.
Qed.

(** An empty program without memory for the VM's storage counts as a success: the run sets
    the status over the error. *)
Lemma no_storage_reported_ok fuel : (forall k, grant k = false) ->
  exists r, aivm_c_execute_instructions exec true grant fuel [] 0 = Some (CResult r) /\
    res_ok r = true /\ res_status r = AIVM_VM_STATUS_HALTED /\ res_error r = AIVM_VM_ERR_MEMORY_PRESSURE.
Proof.
  intros Hg. eexists. unfold aivm_c_execute_instructions, aivm_c_execute_instructions_with_constants, aivm_c_execute_instructions_with_syscalls,
    aivm_execute_program_with_syscalls, aivm_execute_program_with_syscalls_and_argv, aivm_execute_program_with_syscalls_and_argv_profile,
    aivm_init_with_syscalls_and_argv_profile, init_storage, aivm_vm_ensure_storage. cbn [negb set_profile_capacities blk_stack zeroed_storage ensure_block].
  rewrite !Hg. vm_compute. done.
Qed.

End Reports.

(** ** An example *)

#[local] Instance granting_host : Host := example_host.
#[local] Instance starting_threads : Threads := {| host_thread_starts := fun _ => true |}.
#[local] Instance absent_workers : WorkerRuntime := {|
  runtime_create := fun _ _ _ _ => AIVM_WORKER_RUNTIME_ERR_SYSTEM;
  runtime_submit := fun _ _ _ _ => AIVM_WORKER_RUNTIME_ERR_SYSTEM;
  runtime_await := fun _ _ => (AIVM_WORKER_RUNTIME_ERR_SYSTEM, None);
  runtime_cancel := fun _ _ => (AIVM_WORKER_RUNTIME_ERR_SYSTEM, false);
  runtime_release := fun _ _ => AIVM_WORKER_RUNTIME_OK |}.
#[local] Instance still_clock : Clock := {| host_clock := fun _ => 0 |}.
#[local] Instance spread_arenas : Addresses := {| arena_address := fun gen => gen * 4294967296 |}.

Definition square_files : Files := small_files
  [("m.aos", "Program#p { Export(name=start) Let(name=square) { Fn(params=a) { Block { Return { Mul { Var(name=a) Var(name=a) } } } } } Let(name=start) { Fn { Block { Return { Call(target=square) { Lit(value=7) } } } } } }")]%string.

Definition square_build : compilation unit := @parse_simple_program_graph_to_program_file square_files 1 (bytes_of_string "m.aos").

Definition run_built (b : compilation unit) : option (bool * option Z) :=
  match b with
  | Done _ c =>
      match write_program_as_aibc1 (ctx_program c) with
      | Some (Some bytes) =>
          match aivm_c_execute_aibc1 execute true (fun _ => true) (fun _ _ => true) 100 (Some bytes) with
          | Some (CResult r) => Some (res_ok r, res_exit_code r)
          | _ => None
          end
      | _ => None
      end
  | _ => None
  end.

(** Compiled, written, loaded and run: the square of 7. *)
Example square_runs : run_built square_build = Some (true, Some 49).
Proof. vm_compute. reflexivity. Qed.

(** PUSH_INT 49; HALT, and bytes that are no program. *)
Definition small_file : list Z := encode_program 0 [mk_instruction AIVM_OP_PUSH_INT 49; mk_instruction AIVM_OP_HALT 0] [].

Definition reported_fields (a : option c_answer) : option (bool * bool * option Z * AivmProgramStatus) :=
  match a with Some (CResult r) => Some (res_ok r, res_loaded r, res_exit_code r, res_load_status r) | _ => None end.

Lemma c_execute_reports_witness : exists s, status s = AIVM_VM_STATUS_HALTED /\
  reported_fields (aivm_c_execute_aibc1_with_syscalls_and_argv execute true (fun _ => true) (fun _ _ => true) 100 (Some small_file) None []) =
    Some (true, true, Some 49, AIVM_PROGRAM_OK) /\
  (exists i rest, stack s = VInt i :: rest /\ int_of_i64 i = 49) /\
  reported_fields (aivm_c_execute_aibc1_with_syscalls_and_argv execute true (fun _ => true) (fun _ _ => true) 100 (Some [1; 2; 3]) None []) =
    Some (false, false, None, AIVM_PROGRAM_ERR_TRUNCATED).
Proof.
  assert (Hb : bytes_ok small_file) by (apply (bool_decide_unpack _); vm_compute; exact I).
  assert (Hv : reported_fields (aivm_c_execute_aibc1_with_syscalls_and_argv execute true (fun _ => true) (fun _ _ => true) 100 (Some small_file) None []) =
    Some (true, true, Some 49, AIVM_PROGRAM_OK)) by (vm_compute; reflexivity).
  assert (Hn : reported_fields (aivm_c_execute_aibc1_with_syscalls_and_argv execute true (fun _ => true) (fun _ _ => true) 100 (Some [1; 2; 3]) None []) =
    Some (false, false, None, AIVM_PROGRAM_ERR_TRUNCATED)) by (vm_compute; reflexivity).
  destruct (c_execute_reports execute true (fun _ => true) (fun _ _ => true) 100 small_file None [] Hb) as (p & st & offset & t & _ & Hr).
  destruct (aivm_c_execute_aibc1_with_syscalls_and_argv execute true (fun _ => true) (fun _ _ => true) 100 (Some small_file) None []) as [[r| |]|]; try discriminate Hv.
  destruct Hr as (_ & _ & _ & _ & Hr & _). pose proof Hv as Hv'. injection Hv' as _ Hl He _. destruct (Hr Hl) as (s & _ & _ & _ & _ & Hx).
  destruct (proj1 (Hx 49) He) as (Hs & i & rest & Est & Ei). exists s. split; [exact Hs|]. split; [exact Hv|].
  split; [|exact Hn]. exists i, rest. split; [exact Est|by symmetry].
Defined.
