(* ===== verification/Meaning.v ===== *)
(** * What compiled expressions compute

    Expressions of literals, variables, arithmetic, comparisons and conditionals have a
    meaning of their own ([evaluates]).  The code the compiler (src/src/ailang_cli/ailang.c,
    simple_compile_expr_ext) emits for them, run by the interpreter in any program that
    contains it, pushes exactly that value. *)

From S2P Require Import Prelude Types Program Numeric NumberText Syscalls AosText Vm Lifecycle Stack Memory Control ControlSafety Step.
From S2P Require Import Collector CollectorSafety TextOps Tasks AsyncCalls WorkerTasks CallSys Machine Compiler.

Local Open Scope aivm_scope.

(** ** Meaning *)

(** The arithmetic of a kind of node. *)
Definition arithmetic_of (name : list Z) : option numeric_op :=
  if bool_decide (name = byte_str "Add") then Some NAdd
  else if bool_decide (name = byte_str "Sub") then Some NSub
  else if bool_decide (name = byte_str "Mul") then Some NMul
  else if bool_decide (name = byte_str "Div") then Some NDiv
  else if bool_decide (name = byte_str "Mod") then Some NMod
  else if bool_decide (name = byte_str "Pow") then Some NPow
  else None.

Definition is_scalar (v : AivmValue) : bool :=
  match v with VInt _ | VNumber _ | VBool _ => true | _ => false end.

(** The value of an operation on two values; [None] where the VM would stop. *)
Definition binary_value (name : list Z) (a b : AivmValue) : option AivmValue :=
  match arithmetic_of name with
  | Some op =>
      if both_numeric a b then match numeric_value op a b with Some (inl v) => Some v | _ => None end else None
  | None =>
      if bool_decide (name = byte_str "Lt")
      then if both_numeric a b then Some (VBool (dlt (aivm_vm_value_as_number a) (aivm_vm_value_as_number b))) else None
      else if bool_decide (name = byte_str "Eq")
      then if is_scalar a && is_scalar b then Some (VBool (aivm_value_equals (fun _ => None) (fun _ _ => None) a b)) else None
      else None
  end.

(** [evaluates env n node v]: the expression [node] has the value [v] where the variables
    have the values [env]; [n] places of the stack are enough to compute it. *)
Inductive evaluates (env : list Z -> option AivmValue) : Z -> SimpleNodeView -> AivmValue -> Prop :=
  | ev_int node text i :
      kind node = byte_str "Lit" -> parse_attr_value_is_quoted (attrs node) (byte_str "value") = false ->
      parse_attr_span (attrs node) (byte_str "value") 4096 = Some text -> strtoll text = Some i ->
      evaluates env 1 node (VInt i)
  | ev_bool node b :
      kind node = byte_str "Lit" -> parse_attr_value_is_quoted (attrs node) (byte_str "value") = false ->
      parse_attr_span (attrs node) (byte_str "value") 4096 = Some (if b : bool then byte_str "true" else byte_str "false") ->
      evaluates env 1 node (VBool b)
  | ev_var node name v :
      kind node = byte_str "Var" -> parse_attr_span (attrs node) (byte_str "name") 64 = Some name -> env name = Some v ->
      evaluates env 1 node v
  | ev_binary node a b n m x y v :
      parse_nodes 2 (body node) = Some [a; b] -> evaluates env n a x -> evaluates env m b y -> binary_value (kind node) x y = Some v ->
      evaluates env (Z.max n (m + 1)) node v
  | ev_if node a b c n m b' v :
      kind node = byte_str "If" -> parse_nodes 3 (body node) = Some [a; b; c] -> evaluates env n a (VBool b') ->
      evaluates env m (if b' then b else c) v -> evaluates env (Z.max n m) node v.

(** The same as a function, for nodes that are nested less than [fuel] deep. *)
Fixpoint value_of (fuel : nat) (env : list Z -> option AivmValue) (node : SimpleNodeView) : option (Z * AivmValue) :=
  match fuel with
  | O => None
  | S fuel' =>
      if kind_is node "Lit" then
        if parse_attr_value_is_quoted (attrs node) (byte_str "value") then None
        else
          text ← parse_attr_span (attrs node) (byte_str "value") 4096;
          if bool_decide (text = byte_str "true") then Some (1, VBool true)
          else if bool_decide (text = byte_str "false") then Some (1, VBool false)
          else i ← strtoll text; Some (1, VInt i)
      else if kind_is node "Var" then
        name ← parse_attr_span (attrs node) (byte_str "name") 64; v ← env name; Some (1, v)
      else if kind_is node "If" then
        match parse_nodes 3 (body node) with
        | Some [a; b; c] =>
            match value_of fuel' env a with
            | Some (n, VBool b') => '(m, v) ← value_of fuel' env (if b' then b else c); Some (Z.max n m, v)
            | _ => None
            end
        | _ => None
        end
      else
        match parse_nodes 2 (body node) with
        | Some [a; b] =>
            '(n, x) ← value_of fuel' env a; '(m, y) ← value_of fuel' env b;
            v ← binary_value (kind node) x y; Some (Z.max n (m + 1), v)
        | _ => None
        end
  end.

Lemma value_of_sound fuel env node n v : value_of fuel env node = Some (n, v) -> evaluates env n node v.
Proof.
  revert node n v. induction fuel as [|fuel IH]; intros node n v; [done|]. cbn [value_of]. unfold kind_is.
  destruct (bool_decide_reflect (kind node = byte_str "Lit")) as [Hk|_].
  { destruct (parse_attr_value_is_quoted _ _) eqn:Eq; [done|]. destruct (parse_attr_span _ _ _) as [text|] eqn:Et; cbn [mbind option_bind]; [|done].
    destruct (bool_decide_reflect (text = byte_str "true")) as [->|_]; [intros [= <- <-]; by apply (ev_bool _ _ true)|].
    destruct (bool_decide_reflect (text = byte_str "false")) as [->|_]; [intros [= <- <-]; by apply (ev_bool _ _ false)|].
    destruct (strtoll text) as [i|] eqn:Ei; cbn [mbind option_bind]; [|done]. intros [= <- <-]. by eapply ev_int. }
  destruct (bool_decide_reflect (kind node = byte_str "Var")) as [Hk|_].
  { destruct (parse_attr_span _ _ _) as [name|] eqn:En; cbn [mbind option_bind]; [|done]. destruct (env name) as [w|] eqn:Ev; cbn [mbind option_bind]; [|done].
    intros [= <- <-]. by eapply ev_var. }
  destruct (bool_decide_reflect (kind node = byte_str "If")) as [Hk|_].
  - destruct (parse_nodes 3 (body node)) as [[|a [|b [|c [|]]]]|] eqn:Ep; try done.
    destruct (value_of fuel env a) as [[na [| | |b'| | | | | | | | | | | |]]|] eqn:Ea; try done.
    destruct (value_of fuel env (if b' then b else c)) as [[m w]|] eqn:Eb; cbn [mbind option_bind]; [|done]. intros [= <- <-].
    eapply ev_if; [done|done|by apply IH|by apply IH].
  - destruct (parse_nodes 2 (body node)) as [[|a [|b [|]]]|] eqn:Ep; try done.
    destruct (value_of fuel env a) as [[na x]|] eqn:Ea; cbn [mbind option_bind]; [|done]. destruct (value_of fuel env b) as [[m y]|] eqn:Eb; cbn [mbind option_bind]; [|done].
    destruct (binary_value (kind node) x y) as [w|] eqn:Ew; cbn [mbind option_bind]; [|done]. intros [= <- <-].
    eapply ev_binary; [done|by apply IH|by apply IH|done].
Qed.

(** ** Running code *)

(** Apart from the stack, the position and the record of the last instructions. *)
Definition rest_same (s0 s : AivmVm) : Prop :=
  s = set_recent_opcodes (recent_opcodes s) (set_error_detail (error_detail s) (set_status (status s)
        (set_stack_limit (stack_limit s) (set_stack (stack s) (set_instruction_pointer (instruction_pointer s) s0))))).

Record at_point (s0 : AivmVm) (ip : Z) (st : list AivmValue) (s : AivmVm) : Prop := {
  pt_rest : rest_same s0 s;
  pt_ip : instruction_pointer s = ip;
  pt_stack : stack s = st;
  pt_runs : stopped s = false;
  pt_inv : stack_inv s }.

Lemma stack_inv_with s st limit : stack_inv s -> zlen st <= limit <= AIVM_VM_STACK_CAPACITY -> stack_inv (set_stack st (set_stack_limit limit s)).
Proof. intros [] Hl. by split. Qed.

Section Running.

Context (exec : AivmProgram -> AivmInstruction -> option (M unit)) `{SP : SafePoint} (p : AivmProgram) (s0 : AivmVm).
Context (Hexec : forall i m, control_op p i = Some m -> exec p i = Some m) (Hprog : program s0 = Some p).

(** From every state at [ip] with the stack [st] the machine gets to [ip'] with [st']. *)
Definition runs_to (ip : Z) (st : list AivmValue) (ip' : Z) (st' : list AivmValue) : Prop :=
  forall s, at_point s0 ip st s -> exists s', steps exec s s' /\ at_point s0 ip' st' s'.

Lemma runs_refl ip st : runs_to ip st ip st.
Proof. intros s Hs. exists s. split; [constructor|done]. Qed.

Lemma steps_trans s1 s2 s3 : steps exec s1 s2 -> steps exec s2 s3 -> steps exec s1 s3.
Proof. induction 1 as [|s s' s'' H _ IH]; [done|]. intros H3. econstructor; [exact H|by apply IH]. Qed.

Lemma runs_trans ip1 st1 ip2 st2 ip3 st3 : runs_to ip1 st1 ip2 st2 -> runs_to ip2 st2 ip3 st3 -> runs_to ip1 st1 ip3 st3.
Proof.
  intros H1 H2 s Hs. destruct (H1 s Hs) as (s1 & S1 & P1). destruct (H2 s1 P1) as (s2 & S2 & P2). exists s2.
  split; [by eapply steps_trans|done].
Qed.

(** One instruction. *)
Lemma runs_op i m ip st ip' st' : 0 <= ip < instruction_count p -> ip' < instruction_count p -> zget (instruction_store p) ip = Some i ->
  control_op p i = Some m ->
  (forall s, at_point s0 ip st s -> exists s', m s = Ok tt s' /\ at_point s0 ip' st' s') -> runs_to ip st ip' st'.
Proof.
  intros Hip Hip' Hi Hc Hm s Hs. pose proof Hs as [R1 R2 R3 R4 R5].
  assert (Hb : at_point s0 ip st (begin_instruction i s)).
  { split; try done; [|by eapply stack_inv_view; [|exact R5]]. unfold rest_same in *. unfold begin_instruction. rewrite R1. by destruct s0. }
  destruct (Hm _ Hb) as (s' & E & P'). exists s'. split; [|done]. eapply steps_next; [|constructor].
  unfold aivm_step. assert (Hp : program s = Some p) by (rewrite R1; by destruct s0). rewrite Hp.
  rewrite bool_decide_eq_false_2 by (intros E0; rewrite E0 in Hi; unfold zget in Hi; by destruct (ip <? 0)).
  rewrite R4, R2. rewrite (proj2 (Z.leb_gt _ _)) by lia. rewrite Hi, (Hexec _ _ Hc), E. cbn [finish_instruction]. f_equal.
  unfold settle. rewrite (pt_ip _ _ _ _ P'). rewrite (proj2 (Z.leb_gt _ _)) by lia. by rewrite andb_false_r.
Qed.

(** *** Handlers *)

Lemma push_point v ip st s : at_point s0 ip st s -> zlen st < AIVM_VM_STACK_CAPACITY ->
  exists s', op_push v s = Ok tt s' /\ at_point s0 (ip + 1) (v :: st) s'.
Proof.
  intros [R1 R2 R3 R4 R5] Hroom. destruct (push_run v s R5) as (limit & Hl & Hlt & Hpush). unfold stack_count in *. rewrite R3 in *.
  rewrite (proj2 (Z.ltb_lt _ _)) in Hpush by done. unfold op_push, bind. rewrite Hpush. eexists. split; [reflexivity|].
  split; cbn; [|lia|done|done|].
  - unfold rest_same in *. rewrite R1. by destruct s0.
  - eapply stack_inv_view; [|apply (stack_inv_with s (v :: st) limit R5)]; [done|]. rewrite zlen_cons. lia.
Qed.

Lemma pop_point v st ip s : at_point s0 ip (v :: st) s -> exists s', aivm_stack_pop s = Ok v s' /\ at_point s0 ip st s'.
Proof.
  intros [R1 R2 R3 R4 R5]. unfold aivm_stack_pop, bind, get, modify, ret. rewrite R3. eexists. split; [reflexivity|].
  split; try done.
  - unfold rest_same in *. rewrite R1. by destruct s0.
  - pose proof (si_stack _ R5) as Hs. unfold stack_count in Hs. rewrite R3, zlen_cons in Hs.
    assert (E : set_stack st s = set_stack st (set_stack_limit (stack_limit s) s)) by by destruct s.
    rewrite E. apply stack_inv_with; [done|lia].
Qed.

Lemma operands_point a b st ip s : at_point s0 ip (b :: a :: st) s -> exists s', pop_operands s = Ok (a, b) s' /\ at_point s0 ip st s'.
Proof.
  intros Hs. destruct (pop_point _ _ _ _ Hs) as (s1 & E1 & P1). destruct (pop_point _ _ _ _ P1) as (s2 & E2 & P2).
  exists s2. unfold pop_operands, bind. rewrite E1, E2. done.
Qed.

Lemma goto_point target ip st s : at_point s0 ip st s -> exists s', goto target s = Ok tt s' /\ at_point s0 target st s'.
Proof.
  intros [R1 R2 R3 R4 R5]. eexists. split; [reflexivity|]. split; try done; [|by eapply stack_inv_view; [|exact R5]].
  unfold rest_same in *. rewrite R1. by destruct s0.
Qed.

Lemma advance_point ip st s : at_point s0 ip st s -> exists s', advance s = Ok tt s' /\ at_point s0 (ip + 1) st s'.
Proof. intros Hs. destruct (goto_point (ip + 1) _ _ _ Hs) as (s' & E & P'). exists s'. split; [|done]. rewrite <- E. unfold advance, goto, modify. by rewrite (pt_ip _ _ _ _ Hs). Qed.

(** The instruction of a binary operation. *)
Definition binary_instruction (name : list Z) : AivmInstruction :=
  mk_instruction (arithmetic_opcode (mk_view name [] [] [])) 0.

Lemma binary_handler name op : arithmetic_of name = Some op -> control_op p (binary_instruction name) = Some (op_numeric op).
Proof.
  unfold arithmetic_of. intros H.
  repeat match type of H with context [bool_decide (name = ?x)] =>
    destruct (bool_decide_reflect (name = x)) as [->|_]; [injection H as <-; reflexivity|] end. done.
Qed.

Lemma binary_point name a b v st ip s : binary_value name a b = Some v -> at_point s0 ip (b :: a :: st) s ->
  zlen st < AIVM_VM_STACK_CAPACITY ->
  exists m s', control_op p (binary_instruction name) = Some m /\ m s = Ok tt s' /\ at_point s0 (ip + 1) (v :: st) s'.
Proof.
  intros Hv Hs Hroom. destruct (operands_point _ _ _ _ _ Hs) as (s1 & E1 & P1). destruct (push_point v _ _ _ P1 Hroom) as (s2 & E2 & P2).
  assert (Hnum : forall op, (if both_numeric a b then match numeric_value op a b with Some (inl v) => Some v | _ => None end else None) = Some v ->
    op_numeric op s = Ok tt s2).
  { intros op. unfold op_numeric, bind at 1. rewrite E1. destruct (both_numeric a b); [|done]. cbn [negb].
    destruct (numeric_value op a b) as [[w|e]|]; try done. intros [= ->]. exact E2. }
  assert (Hop : exists m, control_op p (binary_instruction name) = Some m /\ m s = Ok tt s2).
  { unfold binary_value in Hv. destruct (arithmetic_of name) as [op|] eqn:Ea.
    { exists (op_numeric op). split; [by apply binary_handler|by apply Hnum]. }
    destruct (bool_decide_reflect (name = byte_str "Lt")) as [->|_].
    - exists op_lt. split; [reflexivity|]. unfold op_lt, bind. rewrite E1. destruct (both_numeric a b); [|done]. injection Hv as <-. exact E2.
    - destruct (bool_decide_reflect (name = byte_str "Eq")) as [->|_]; [|done]. exists op_eq. split; [reflexivity|].
      unfold op_eq, bind, get. rewrite E1. destruct (is_scalar a && is_scalar b) eqn:Es; [|done]. injection Hv as <-.
      apply andb_true_iff in Es as [Ha Hb]. rewrite <- E2. destruct a; try done; destruct b; done. }
  destruct Hop as (m & Hm & Hr). by exists m, s2.
Qed.

(** A local of the frame: the position counts from the base of its locals. *)
Definition local_is (slot : Z) (v : AivmValue) : Prop :=
  0 <= slot /\ active_locals_base s0 + slot < locals_count s0 /\ local_read (locals s0) (active_locals_base s0 + slot) = v.

Lemma load_point slot v st ip s : frame_on_stack s0 = true -> zlen (stack s0) <= zlen st -> local_is slot v -> at_point s0 ip st s ->
  zlen st < AIVM_VM_STACK_CAPACITY -> exists s', op_load_local slot s = Ok tt s' /\ at_point s0 (ip + 1) (v :: st) s'.
Proof.
  intros Hf Hst (H0 & H1 & H2) Hs Hroom. destruct (push_point v _ _ _ Hs Hroom) as (s2 & E2 & P2). exists s2. split; [|done].
  pose proof Hs as [R1 R2 R3 R4 R5]. unfold op_load_local, operand_to_index. rewrite (proj2 (Z.ltb_ge _ _)) by lia. unfold bind at 1, Vm.ret at 1.
  unfold bind at 1, or_else.
  assert (El : call_frames s = call_frames s0 /\ locals s = locals s0 /\ locals_count s = locals_count s0) by (rewrite R1; by destruct s0).
  destruct El as (L1 & L2 & L3). rewrite local_get_run; [|done| |done].
  - unfold active_locals_base in *. rewrite L1, L2, L3. rewrite (proj2 (Z.ltb_lt _ _)) by lia. by rewrite H2.
  - unfold frame_on_stack, stack_count in *. rewrite L1, R3. destruct (call_frames s0); [done|]. lia.
Qed.

(** ** Code in a program *)

(** The instructions from [off] on are [seg], and the program goes on behind them. *)
Definition contains (off : Z) (seg : list AivmInstruction) : Prop :=
  0 <= off /\ off + zlen seg < instruction_count p /\
  forall i x, seg !! i = Some x -> zget (instruction_store p) (off + Z.of_nat i) = Some x.

Lemma contains_app off seg1 seg2 : contains off (seg1 ++ seg2) <-> contains off seg1 /\ contains (off + zlen seg1) seg2.
Proof.
  unfold contains. rewrite zlen_app. pose proof (zlen_nonneg seg1). pose proof (zlen_nonneg seg2). split.
  - intros (H1 & H2 & H3). split_and!; try lia.
    + intros i x Hi. apply H3. by apply lookup_app_l_Some.
    + intros i x Hi. replace (off + zlen seg1 + Z.of_nat i) with (off + Z.of_nat (length seg1 + i)) by (unfold zlen; lia).
      apply H3. rewrite lookup_app_r by lia. by replace (_ - _)%nat with i by lia.
  - intros [(H1 & H2 & H3) (H4 & H5 & H6)]. split_and!; try lia. intros i x [Hi|[Hi Hx]]%lookup_app_Some; [by apply H3|].
    replace (off + Z.of_nat i) with (off + zlen seg1 + Z.of_nat (i - length seg1)) by (unfold zlen; lia). by apply H6.
Qed.

Lemma contains_one off x : contains off [x] -> zget (instruction_store p) off = Some x /\ 0 <= off < instruction_count p /\ off + 1 < instruction_count p.
Proof. intros (H1 & H2 & H3). change (zlen [x]) with 1 in H2. split_and!; try lia. rewrite <- (Z.add_0_r off). by apply (H3 0%nat). Qed.

(** An instruction that goes on to the next one. *)
Lemma runs_one off i st st' : contains off [i] ->
  (forall s, at_point s0 off st s -> exists m s', control_op p i = Some m /\ m s = Ok tt s' /\ at_point s0 (off + 1) st' s') ->
  runs_to off st (off + 1) st'.
Proof.
  intros Hc Hm s Hs. destruct (contains_one _ _ Hc) as (H1 & H2 & H3). destruct (Hm s Hs) as (m & _ & Hcm & _).
  apply (runs_op i m off st (off + 1) st'); try done. intros s1 Hs1. destruct (Hm s1 Hs1) as (m' & s' & Hcm' & E & P'). exists s'.
  rewrite Hcm in Hcm'. injection Hcm' as <-. done.
Qed.

(** The jumps of conditionals. *)
Lemma runs_jump off target st : contains off [mk_instruction AIVM_OP_JUMP target] -> 0 <= target < instruction_count p ->
  runs_to off st target st.
Proof.
  intros (H1 & H2 & H3)%contains_one Ht. apply (runs_op (mk_instruction AIVM_OP_JUMP target) (op_jump p target) off); try done; [lia|].
  intros s Hs. destruct (goto_point target _ _ _ Hs) as (s' & E & P'). exists s'. split; [|done].
  unfold op_jump, operand_to_index. rewrite (proj2 (Z.ltb_ge _ _)) by lia. unfold bind, Vm.ret, jump_to.
  by rewrite (proj2 (Z.ltb_ge _ _)) by lia.
Qed.

Lemma runs_branch off target (b : bool) st : contains off [mk_instruction AIVM_OP_JUMP_IF_FALSE target] -> 0 <= target < instruction_count p ->
  runs_to off (VBool b :: st) (if b then off + 1 else target) st.
Proof.
  intros (H1 & H2 & H3)%contains_one Ht.
  apply (runs_op (mk_instruction AIVM_OP_JUMP_IF_FALSE target) (op_jump_if_false p target) off); try done; [destruct b; lia|].
  intros s Hs. destruct (pop_point _ _ _ _ Hs) as (s1 & E1 & P1). unfold op_jump_if_false, operand_to_index.
  rewrite (proj2 (Z.ltb_ge _ _)) by lia. unfold bind, Vm.ret. rewrite E1. destruct b; [by apply advance_point|].
  unfold jump_to. rewrite (proj2 (Z.ltb_ge _ _)) by lia. by eapply goto_point.
Qed.

End Running.

(** ** The code of expressions *)

Definition code (c : SimpleCompileContext) : list AivmInstruction := instruction_store (ctx_program c).

(** Code is added at the end; the locals stay. *)
Record adds_code (seg : list AivmInstruction) (c c' : SimpleCompileContext) : Prop := {
  ac_code : code c' = code c ++ seg;
  ac_count : instruction_count (ctx_program c) = zlen (code c) /\ instruction_count (ctx_program c') = zlen (code c');
  ac_locals : ctx_locals c' = ctx_locals c }.

Lemma adds_trans seg1 seg2 c1 c2 c3 : adds_code seg1 c1 c2 -> adds_code seg2 c2 c3 -> adds_code (seg1 ++ seg2) c1 c3.
Proof. intros [A1 [A2 A3] A4] [B1 [B2 B3] B4]. split; [|done|congruence]. rewrite B1, A1. by rewrite app_assoc. Qed.

Lemma adds_length seg c c' : adds_code seg c c' -> zlen (code c') = zlen (code c) + zlen seg.
Proof. intros [A1 _ _]. by rewrite A1, zlen_app. Qed.

Lemma emit_adds op operand c c' : simple_emit_instruction op operand c = Done tt c' -> adds_code [mk_instruction op operand] c c'.
Proof.
  unfold simple_emit_instruction. destruct (_ <=? _); [done|]. unfold write_instruction. destruct (_ && _) eqn:E; [|done].
  apply andb_true_iff in E as [_ E%Z.eqb_eq]. intros [= <-]. split; [done| |done]. split; [done|]. cbn. rewrite zlen_app.
  change (zlen [_]) with 1. lia.
Qed.

Lemma or_fail_done {A} (x : C A) fmt args c a c' : or_fail x fmt args c = Done a c' -> x c = Done a c'.
Proof. unfold or_fail. by destruct (x c). Qed.

Lemma bind_done {A B} (x : C A) (f : A -> C B) c b c' : bindC x f c = Done b c' -> exists a c1, x c = Done a c1 /\ f a c1 = Done b c'.
Proof. unfold bindC. destruct (x c) as [a c1| |]; [|done|done]. intros H. by exists a, c1. Qed.

Lemma some_done {A B} (x : option A) (e : C A) (f : A -> C B) c b c' a : x = Some a -> bindC (some_or x e) f c = Done b c' -> f a c = Done b c'.
Proof. by intros ->. Qed.

(** The operand of an instruction is filled in. *)
Lemma patch_done pre x seg operand c c' : code c = pre ++ x :: seg -> patch_operand (zlen pre) operand c = Done tt c' ->
  code c' = pre ++ mk_instruction (opcode x) operand :: seg /\ instruction_count (ctx_program c') = instruction_count (ctx_program c) /\
  ctx_locals c' = ctx_locals c.
Proof.
  intros E. unfold patch_operand. fold (code c). rewrite E.
  assert (Hz : zget (pre ++ x :: seg) (zlen pre) = Some x).
  { rewrite zget_lookup by apply zlen_nonneg. unfold zlen. rewrite Nat2Z.id. by apply list_lookup_middle. }
  rewrite Hz. intros [= <-]. split; [|done]. cbn. rewrite (zset_split _ _ _ _ Hz). unfold ztake, zdrop, zlen.
  rewrite Nat2Z.id. rewrite take_app_length.
  f_equal. f_equal. replace (Z.to_nat (Z.of_nat (length pre) + 1)) with (length pre + 1)%nat by lia. by rewrite drop_app_add'.
Qed.

(** *** Which function compiles which node *)

Lemma expr_lit k node : kind node = byte_str "Lit" -> simple_compile_expr_ext k node = compile_literal node.
Proof. destruct node as [kd a b n]. cbn [kind]. intros ->. reflexivity. Qed.

Lemma expr_var k node : kind node = byte_str "Var" -> simple_compile_expr_ext k node = simple_compile_var_expr node.
Proof. destruct node as [kd a b n]. cbn [kind]. intros ->. reflexivity. Qed.

Lemma expr_if k node : kind node = byte_str "If" -> simple_compile_expr_ext k node = simple_compile_if_expr_ext k node.
Proof. destruct node as [kd a b n]. cbn [kind]. intros ->. reflexivity. Qed.

Lemma binary_kind name a b v : binary_value name a b = Some v ->
  name ∈ map bytes_of_string ["Add"; "Sub"; "Mul"; "Div"; "Mod"; "Pow"; "Lt"; "Eq"]%string.
Proof.
  unfold binary_value, arithmetic_of. intros H.
  repeat match type of H with context [bool_decide (name = ?x)] =>
    destruct (bool_decide_reflect (name = x)) as [->|_]; [apply (bool_decide_unpack _); vm_compute; exact I|] end. done.
Qed.

Lemma expr_binary k node a b v : binary_value (kind node) a b = Some v ->
  simple_compile_expr_ext k node = operands k 2 node (arithmetic_opcode node) (missing "%s missing args" node).
Proof.
  intros H%binary_kind. destruct node as [kd at_ bd n]. cbn [kind] in H.
  cbn [map] in H. repeat (apply elem_of_cons in H as [->|H]; [reflexivity|]). by apply not_elem_of_nil in H.
Qed.

(** ** Expressions of the fragment *)

Definition binary_names : list (list Z) := map bytes_of_string ["Add"; "Sub"; "Mul"; "Div"; "Mod"; "Pow"; "Lt"; "Eq"]%string.

(** Integer and boolean literals, variables, operations and conditionals. *)
Inductive plain_expr : SimpleNodeView -> Prop :=
  | pe_int node text i :
      kind node = byte_str "Lit" -> parse_attr_value_is_quoted (attrs node) (byte_str "value") = false ->
      parse_attr_span (attrs node) (byte_str "value") 4096 = Some text -> strtoll text = Some i -> plain_expr node
  | pe_bool node (b : bool) :
      kind node = byte_str "Lit" -> parse_attr_value_is_quoted (attrs node) (byte_str "value") = false ->
      parse_attr_span (attrs node) (byte_str "value") 4096 = Some (if b then byte_str "true" else byte_str "false") -> plain_expr node
  | pe_var node : kind node = byte_str "Var" -> plain_expr node
  | pe_binary node a b : kind node ∈ binary_names -> parse_nodes 2 (body node) = Some [a; b] -> plain_expr a -> plain_expr b -> plain_expr node
  | pe_if node a b c : kind node = byte_str "If" -> parse_nodes 3 (body node) = Some [a; b; c] ->
      plain_expr a -> plain_expr b -> plain_expr c -> plain_expr node.

(** The same as a function, for nodes that are nested less than [fuel] deep. *)
Fixpoint is_plain (fuel : nat) (node : SimpleNodeView) : bool :=
  match fuel with
  | O => false
  | S fuel' =>
      if kind_is node "Lit" then
        negb (parse_attr_value_is_quoted (attrs node) (byte_str "value")) &&
        match parse_attr_span (attrs node) (byte_str "value") 4096 with
        | Some text => bool_decide (text = byte_str "true") || bool_decide (text = byte_str "false") || bool_decide (is_Some (strtoll text))
        | None => false
        end
      else if kind_is node "Var" then true
      else if kind_is node "If" then
        match parse_nodes 3 (body node) with Some [a; b; c] => is_plain fuel' a && is_plain fuel' b && is_plain fuel' c | _ => false end
      else
        bool_decide (kind node ∈ binary_names) &&
        match parse_nodes 2 (body node) with Some [a; b] => is_plain fuel' a && is_plain fuel' b | _ => false end
  end.

Lemma is_plain_sound fuel node : is_plain fuel node = true -> plain_expr node.
Proof.
  revert node. induction fuel as [|fuel IH]; intros node; [done|]. cbn [is_plain]. unfold kind_is.
  destruct (bool_decide_reflect (kind node = byte_str "Lit")) as [Hk|_].
  { intros [Hq Ht]%andb_true_iff. apply negb_true_iff in Hq. destruct (parse_attr_span _ _ _) as [text|] eqn:Et; [|done].
    apply orb_true_iff in Ht as [[->%bool_decide_eq_true| ->%bool_decide_eq_true]%orb_true_iff|[i Hi]%bool_decide_eq_true].
    - by apply (pe_bool _ true).
    - by apply (pe_bool _ false).
    - by eapply pe_int. }
  destruct (bool_decide_reflect (kind node = byte_str "Var")) as [Hk|_]; [intros _; by apply pe_var|].
  destruct (bool_decide_reflect (kind node = byte_str "If")) as [Hk|_].
  - destruct (parse_nodes 3 (body node)) as [[|a [|b [|c [|]]]]|] eqn:Ep; try done.
    intros [[Ha Hb]%andb_true_iff Hc]%andb_true_iff. eapply pe_if; [done|done|by apply IH..].
  - intros [Hk Hp]%andb_true_iff. apply bool_decide_eq_true in Hk.
    destruct (parse_nodes 2 (body node)) as [[|a [|b [|]]]|] eqn:Ep; try done.
    apply andb_true_iff in Hp as [Ha Hb]. eapply pe_binary; [done|done|by apply IH..].
Qed.

(** The variables of the source are in the locals of the running function. *)
Definition names_ok (env : list Z -> option AivmValue) (locals : list (list Z * Z)) (s0 : AivmVm) : Prop := forall name v i l,
  env name = Some v -> list_find (fun l => l.1 = name) locals = Some (i, l) -> local_is s0 l.2 v.

(** The code [seg] at [off] pushes what the node evaluates to. *)
Definition code_means (node : SimpleNodeView) (locals : list (list Z * Z)) (off : Z) (seg : list AivmInstruction) : Prop :=
  forall env n v, evaluates env n node v ->
  forall exec (SP : SafePoint) p s0 st, (forall i m, control_op p i = Some m -> exec p i = Some m) -> program s0 = Some p ->
    frame_on_stack s0 = true -> zlen (stack s0) <= zlen st -> zlen st + n <= AIVM_VM_STACK_CAPACITY ->
    names_ok env locals s0 -> contains p off seg -> runs_to exec s0 off st (off + zlen seg) (v :: st).

Lemma evaluates_positive env n node v : evaluates env n node v -> 1 <= n.
Proof. induction 1; lia. Qed.

Lemma literal_int node text i c c' : parse_attr_value_is_quoted (attrs node) (byte_str "value") = false ->
  parse_attr_span (attrs node) (byte_str "value") 4096 = Some text -> strtoll text = Some i ->
  compile_literal node c = Done tt c' -> adds_code [mk_instruction AIVM_OP_PUSH_INT i] c c'.
Proof.
  intros Hq Hs Hi. unfold compile_literal. rewrite Hq. intros H. apply (some_done _ _ _ _ _ _ text Hs) in H. cbn [negb andb] in H.
  rewrite bool_decide_eq_false_2 in H by (intros [-> | ->]; by vm_compute in Hi).
  rewrite bool_decide_eq_false_2 in H by (intros ->; by vm_compute in Hi). rewrite Hi in H. by apply emit_adds.
Qed.

Lemma literal_bool node (b : bool) c c' : parse_attr_value_is_quoted (attrs node) (byte_str "value") = false ->
  parse_attr_span (attrs node) (byte_str "value") 4096 = Some (if b then byte_str "true" else byte_str "false") ->
  compile_literal node c = Done tt c' -> adds_code [mk_instruction AIVM_OP_PUSH_BOOL (if b then 1 else 0)] c c'.
Proof.
  intros Hq Hs. unfold compile_literal. rewrite Hq. intros H. apply (some_done _ _ _ _ _ _ _ Hs) in H. cbn [negb andb] in H.
  rewrite bool_decide_eq_true_2 in H by (destruct b; [by left|by right]). destruct b; by apply emit_adds in H.
Qed.

(** Nothing else evaluates to a value at a node of this kind. *)
Lemma evaluates_lit env n node v : kind node = byte_str "Lit" -> evaluates env n node v ->
  n = 1 /\ ((exists text i, parse_attr_span (attrs node) (byte_str "value") 4096 = Some text /\ strtoll text = Some i /\ v = VInt i) \/
   (exists b : bool, parse_attr_span (attrs node) (byte_str "value") 4096 = Some (if b then byte_str "true" else byte_str "false") /\ v = VBool b)).
Proof.
  intros Hk. destruct 1 as [node text i|node b|node name v Hk'|node a b n m x y v _ _ _ Hb|node a b c n m b' v Hk'].
  - split; [done|]. left. by exists text, i.
  - split; [done|]. right. by exists b.
  - rewrite Hk in Hk'. done.
  - apply binary_kind in Hb. rewrite Hk in Hb. apply (bool_decide_pack _) in Hb. done.
  - rewrite Hk in Hk'. done.
Qed.

Lemma evaluates_var env n node v : kind node = byte_str "Var" -> evaluates env n node v ->
  n = 1 /\ exists name, parse_attr_span (attrs node) (byte_str "name") 64 = Some name /\ env name = Some v.
Proof.
  intros Hk. destruct 1 as [node text i Hk'|node b Hk'|node name v _ Hn He|node a b n m x y v _ _ _ Hb|node a b c n m b' v Hk'];
    try (rewrite Hk in Hk'; done).
  - split; [done|]. by exists name.
  - apply binary_kind in Hb. rewrite Hk in Hb. apply (bool_decide_pack _) in Hb. done.
Qed.

Lemma evaluates_binary env k node v a b : kind node ∈ binary_names -> parse_nodes 2 (body node) = Some [a; b] -> evaluates env k node v ->
  exists n m x y, k = Z.max n (m + 1) /\ evaluates env n a x /\ evaluates env m b y /\ binary_value (kind node) x y = Some v.
Proof.
  intros Hk Hp He. assert (Hno : forall name, kind node = name -> bool_decide (name ∈ binary_names) = false -> False).
  { intros name <- Hd. by apply bool_decide_eq_false in Hd. }
  destruct He as [node text i Hk'|node b0 Hk'|node name v Hk'|node a0 b0 n m x y v Hp' H1 H2 H3|node a0 b0 c n m b' v Hk'];
    try (destruct (Hno _ Hk'); done).
  rewrite Hp in Hp'. injection Hp' as <- <-. by exists n, m, x, y.
Qed.

Lemma evaluates_if env k node v a b c : kind node = byte_str "If" -> parse_nodes 3 (body node) = Some [a; b; c] -> evaluates env k node v ->
  exists n m (b' : bool), k = Z.max n m /\ evaluates env n a (VBool b') /\ evaluates env m (if b' then b else c) v.
Proof.
  intros Hk Hp. destruct 1 as [node text i Hk'|node b0 Hk'|node name v Hk'|node a0 b0 n m x y v _ _ _ Hb|node a0 b0 c0 n m b' v _ Hp' H1 H2];
    try (rewrite Hk in Hk'; done).
  - apply binary_kind in Hb. rewrite Hk in Hb. apply (bool_decide_pack _) in Hb. done.
  - rewrite Hp in Hp'. injection Hp' as <- <- <-. by exists n, m, b'.
Qed.

(** ** The code of an expression means its value *)

Lemma push_int_means node i locals off : kind node = byte_str "Lit" -> (forall env n v, evaluates env n node v -> n = 1 /\ v = VInt i) ->
  code_means node locals off [mk_instruction AIVM_OP_PUSH_INT i].
Proof.
  intros Hk Hv env n v He exec SP p s0 st Hexec Hp Hf Hst Hroom Hn Hc. destruct (Hv _ _ _ He) as [-> ->].
  eapply (runs_one exec p s0 Hexec Hp); [done|]. intros s Hs. destruct (push_point p s0 Hp (VInt i) _ _ _ Hs ltac:(lia)) as (s' & E & P').
  by exists (op_push (VInt i)), s'.
Qed.

Lemma push_bool_means node (b : bool) locals off : kind node = byte_str "Lit" -> (forall env n v, evaluates env n node v -> n = 1 /\ v = VBool b) ->
  code_means node locals off [mk_instruction AIVM_OP_PUSH_BOOL (if b then 1 else 0)].
Proof.
  intros Hk Hv env n v He exec SP p s0 st Hexec Hp Hf Hst Hroom Hn Hc. destruct (Hv _ _ _ He) as [-> ->].
  eapply (runs_one exec p s0 Hexec Hp); [done|]. intros s Hs. destruct (push_point p s0 Hp (VBool b) _ _ _ Hs ltac:(lia)) as (s' & E & P').
  exists (op_push (VBool b)), s'. split; [by destruct b|done].
Qed.

Lemma var_code node c c' : kind node = byte_str "Var" -> simple_compile_var_expr node c = Done tt c' ->
  exists seg, adds_code seg c c' /\ code_means node (ctx_locals c) (zlen (code c)) seg.
Proof.
  intros Hk. unfold simple_compile_var_expr. intros (name & c1 & H1 & H2)%bind_done.
  destruct (parse_attr_span (attrs node) (byte_str "name") 64) as [name'|] eqn:En; [|done]. injection H1 as <- <-.
  apply bind_done in H2 as (slot & c1 & H1%or_fail_done & H2). unfold simple_locals_lookup in H1. apply bind_done in H1 as (c0 & c2 & [= <- <-] & H1).
  destruct (list_find _ (ctx_locals c)) as [[i l]|] eqn:El; [|done]. injection H1 as <- <-.
  exists [mk_instruction AIVM_OP_LOAD_LOCAL l.2]. split; [by apply emit_adds|].
  intros env n v He exec SP p s0 st Hexec Hp Hf Hst Hroom Hn Hc. destruct (evaluates_var _ _ _ _ Hk He) as (-> & name'' & En' & Hv).
  rewrite En in En'. injection En' as <-. eapply (runs_one exec p s0 Hexec Hp); [done|]. intros s Hs.
  destruct (load_point p s0 Hp l.2 v st _ s Hf Hst (Hn _ _ _ _ Hv El) Hs ltac:(lia)) as (s' & E & P'). by exists (op_load_local l.2), s'.
Qed.

(** What is proved of an expression by induction. *)
Definition compiled_means (k : compilers) (node : SimpleNodeView) : Prop := forall c c', expr k node c = Done tt c' ->
  exists seg, adds_code seg c c' /\ code_means node (ctx_locals c) (zlen (code c)) seg.

Lemma binary_code k node a b c c' : kind node ∈ binary_names -> parse_nodes 2 (body node) = Some [a; b] ->
  compiled_means k a -> compiled_means k b -> operands k 2 node (arithmetic_opcode node) (missing "%s missing args" node) c = Done tt c' ->
  exists seg, adds_code seg c c' /\ code_means node (ctx_locals c) (zlen (code c)) seg.
Proof.
  intros Hk Hp IHa IHb H. unfold operands in H. apply (some_done _ _ _ _ _ _ _ Hp) in H. cbn [compile_all] in H.
  apply bind_done in H as ([] & c3 & H & H3). apply bind_done in H as ([] & c1 & H1 & H). apply bind_done in H as ([] & c2 & H2 & [= ->]).
  destruct (IHa _ _ H1) as (sa & Aa & Ma). destruct (IHb _ _ H2) as (sb & Ab & Mb). apply emit_adds in H3.
  exists ((sa ++ sb) ++ [binary_instruction (kind node)]). split; [by eapply adds_trans; [eapply adds_trans|]|].
  intros env n v He exec SP p s0 st Hexec Hpr Hf Hst Hroom Hn Hc.
  destruct (evaluates_binary _ _ _ _ _ _ Hk Hp He) as (na & nb & x & y & -> & Ea & Eb & Hv).
  apply contains_app in Hc as [Hc Hc3]. apply contains_app in Hc as [Hca Hcb]. rewrite zlen_app, zlen_app in *.
  rewrite (ac_locals _ _ _ Aa) in Mb. rewrite (adds_length _ _ _ Aa) in Mb.
  eapply runs_trans; [apply (Ma _ _ _ Ea exec SP p s0 st); try done; lia|].
  eapply runs_trans; [apply (Mb _ _ _ Eb exec SP p s0 (x :: st)); try done; rewrite zlen_cons; lia|].
  change (zlen [binary_instruction (kind node)]) with 1. rewrite !Z.add_assoc in *.
  eapply (runs_one exec p s0 Hexec Hpr); [exact Hc3|]. intros s Hs.
  assert (zlen st < AIVM_VM_STACK_CAPACITY) by (pose proof (evaluates_positive _ _ _ _ Ea); lia).
  destruct (binary_point p s0 Hpr _ _ _ _ _ _ _ Hv Hs) as (m & s' & H5 & H6 & H7); [done|]. by exists m, s'.
Qed.

Lemma patch_adds seg1 x seg2 operand c0 c c' : adds_code (seg1 ++ x :: seg2) c0 c ->
  patch_operand (zlen (code c0) + zlen seg1) operand c = Done tt c' -> adds_code (seg1 ++ mk_instruction (opcode x) operand :: seg2) c0 c'.
Proof.
  intros [A1 [A2 A3] A4] H. rewrite <- zlen_app in H.
  destruct (patch_done (code c0 ++ seg1) x seg2 operand c c') as (P1 & P2 & P3); [by rewrite A1, app_assoc|done|].
  split; [by rewrite P1, app_assoc| |congruence]. split; [done|]. rewrite P2, A3, A1, P1. rewrite !zlen_app, !zlen_cons. lia.
Qed.

Lemma ip_done c a c' seg c0 : adds_code seg c0 c -> current_ip c = Done a c' -> a = zlen (code c0) + zlen seg /\ c' = c.
Proof. intros A. unfold current_ip. intros [= <- <-]. rewrite <- (adds_length _ _ _ A). by destruct A as [_ [_ ?] _]. Qed.

(** The shape of a conditional in the code. *)
Lemma if_shape k node a b e c c' : parse_nodes 3 (body node) = Some [a; b; e] ->
  compiled_means k a -> compiled_means k b -> compiled_means k e -> simple_compile_if_expr_ext k node c = Done tt c' ->
  exists sa sb se, let off := zlen (code c) in
    let else_ip := off + zlen sa + 1 + zlen sb + 1 in
    adds_code (sa ++ mk_instruction AIVM_OP_JUMP_IF_FALSE else_ip :: sb ++ mk_instruction AIVM_OP_JUMP (else_ip + zlen se) :: se) c c' /\
    code_means a (ctx_locals c) off sa /\ code_means b (ctx_locals c) (off + zlen sa + 1) sb /\ code_means e (ctx_locals c) else_ip se.
Proof.
  intros Hp IHa IHb IHe H. unfold simple_compile_if_expr_ext in H. apply (some_done _ _ _ _ _ _ _ Hp) in H.
  apply bind_done in H as ([] & c1 & H1 & H). destruct (IHa _ _ H1) as (sa & A1 & Ma).
  apply bind_done in H as (i1 & c1' & E & H). destruct (ip_done _ _ _ _ _ A1 E) as [-> ->].
  apply bind_done in H as ([] & c2 & H2%or_fail_done%emit_adds & H). pose proof (adds_trans _ _ _ _ _ A1 H2) as A2.
  apply bind_done in H as ([] & c3 & H3 & H). destruct (IHb _ _ H3) as (sb & B3 & Mb). pose proof (adds_trans _ _ _ _ _ A2 B3) as A3.
  apply bind_done in H as (i3 & c3' & E3 & H). destruct (ip_done _ _ _ _ _ A3 E3) as [-> ->].
  apply bind_done in H as ([] & c4 & H4%or_fail_done%emit_adds & H). pose proof (adds_trans _ _ _ _ _ A3 H4) as A4.
  apply bind_done in H as (i4 & c4' & E4 & H). destruct (ip_done _ _ _ _ _ A4 E4) as [-> ->].
  apply bind_done in H as ([] & c5 & H5 & H). rewrite <- !app_assoc in A4. cbn [app] in A4.
  pose proof (patch_adds _ _ _ _ _ _ _ A4 H5) as A5. cbn [opcode] in A5. rewrite !zlen_app in A5. change (zlen [_]) with 1 in A5 at 1 2.
  apply bind_done in H as ([] & c6 & H6 & H). destruct (IHe _ _ H6) as (se & B6 & Me). pose proof (adds_trans _ _ _ _ _ A5 B6) as A6.
  apply bind_done in H as (i6 & c6' & E6 & H). destruct (ip_done _ _ _ _ _ A6 E6) as [-> ->].
  rewrite (ac_locals _ _ _ A2) in Mb. rewrite (ac_locals _ _ _ A5) in Me. rewrite (adds_length _ _ _ A2) in Mb. rewrite (adds_length _ _ _ A5) in Me.
  rewrite zlen_app in Mb. rewrite zlen_app, zlen_cons, zlen_app in Me. rewrite ?zlen_app, ?zlen_cons, ?zlen_app in H.
  change (zlen [_]) with 1 in Mb, Me, H. change (zlen []) with 0 in H.
  exists sa, sb, se. cbn zeta.
  replace (zlen (code c) + zlen sa + 1 + zlen sb + 1) with (zlen (code c) + (zlen sa + 1 + zlen sb + 1)) by lia.
  split_and!; [|done|by rewrite Z.add_assoc in Mb|].
  2: { match type of Me with code_means _ _ ?x _ => match goal with |- code_means _ _ ?y _ => by replace y with x by lia end end. }
  rewrite app_comm_cons, app_assoc. apply (patch_adds _ (mk_instruction AIVM_OP_JUMP 0) _ _ c c6 c').
  - rewrite <- !app_assoc in *. cbn [app] in *. rewrite <- app_assoc in A6. exact A6.
  - rewrite zlen_app, zlen_cons. rewrite <- H. f_equal; lia.
Qed.

Lemma if_code k node a b e c c' : kind node = byte_str "If" -> parse_nodes 3 (body node) = Some [a; b; e] ->
  compiled_means k a -> compiled_means k b -> compiled_means k e -> simple_compile_if_expr_ext k node c = Done tt c' ->
  exists seg, adds_code seg c c' /\ code_means node (ctx_locals c) (zlen (code c)) seg.
Proof.
  intros Hk Hp IHa IHb IHe H. destruct (if_shape _ _ _ _ _ _ _ Hp IHa IHb IHe H) as (sa & sb & se & A & Ma & Mb & Me). cbn zeta in *.
  eexists. split; [exact A|]. clear A H. intros env n v He exec SP p s0 st Hexec Hpr Hf Hst Hroom Hn Hc.
  destruct (evaluates_if _ _ _ _ _ _ _ Hk Hp He) as (na & nb & b' & -> & Ea & Eb).
  rewrite (cons_middle _ sa), (cons_middle _ sb) in Hc. apply contains_app in Hc as [Hca Hc].
  apply contains_app in Hc as [Hcj Hc]. apply contains_app in Hc as [Hcb Hc]. apply contains_app in Hc as [Hcg Hce].
  change (zlen [_]) with 1 in *. rewrite zlen_app, zlen_cons, zlen_app, zlen_cons.
  pose proof (zlen_nonneg sa). pose proof (zlen_nonneg sb). pose proof (zlen_nonneg se). pose proof Hce as (Hend & Hlast & _).
  eapply runs_trans; [apply (Ma _ _ _ Ea exec SP p s0 st); try done; lia|].
  eapply runs_trans; [apply (runs_branch exec p s0 Hexec Hpr _ _ _ _ Hcj); lia|]. destruct b'.
  - eapply runs_trans; [apply (Mb _ _ _ Eb exec SP p s0 st); try done; lia|].
    match goal with |- runs_to _ _ _ _ ?x _ => replace x with (zlen (code c) + zlen sa + 1 + zlen sb + 1 + zlen se) by lia end.
    apply (runs_jump exec p s0 Hexec Hpr _ _ _ Hcg). lia.
  - match goal with |- runs_to _ _ _ _ ?x _ => replace x with (zlen (code c) + zlen sa + 1 + zlen sb + 1 + zlen se) by lia end.
    apply (Me _ _ _ Eb exec SP p s0 st); try done; lia.
Qed.

(** By induction on the expression. *)
Lemma plain_code node : plain_expr node -> forall fuel, compiled_means (compilers_at fuel) node.
Proof.
  induction 1 as [node text i Hk Hq Hs Hi|node b Hk Hq Hs|node Hk|node a b Hk Hp _ IHa _ IHb|node a b e Hk Hp _ IHa _ IHb _ IHe];
    intros [|fuel] c c' H; try done; cbn [compilers_at expr] in H.
  - rewrite expr_lit in H by done. eexists. split; [by eapply literal_int|]. apply push_int_means; [done|].
    intros env n v He. destruct (evaluates_lit _ _ _ _ Hk He) as (-> & [(text' & i' & H1 & H2 & ->)|(b & H1 & ->)]);
      rewrite H1 in Hs; injection Hs as <-; [by rewrite H2 in Hi; injection Hi as ->|by destruct b].
  - rewrite expr_lit in H by done. eexists. split; [by eapply literal_bool|]. apply push_bool_means; [done|].
    intros env n v He. destruct (evaluates_lit _ _ _ _ Hk He) as (-> & [(text' & i' & H1 & H2 & ->)|(b' & H1 & ->)]); rewrite H1 in Hs; injection Hs as E.
    + subst text'. by destruct b.
    + by destruct b, b'.
  - rewrite expr_var in H by done. by apply var_code.
  - assert (Hx : exists x y v, binary_value (kind node) x y = Some v).
    { revert Hk. generalize (kind node). intros name Hk. cbn [binary_names map] in Hk.
      repeat (apply elem_of_cons in Hk as [->|Hk]; [exists (VInt 1), (VInt 1); eexists; reflexivity|]). by apply not_elem_of_nil in Hk. }
    destruct Hx as (x & y & v & Hv). rewrite (expr_binary _ _ _ _ _ Hv) in H. by eapply binary_code.
  - rewrite expr_if in H by done. by eapply if_code.
Qed.

(** ** In the machine *)

Section Machine.

Context `{Host} `{Addresses} `{Threads} `{WorkerRuntime} `{Clock}.

(** C1: Where an expression of integer and boolean literals, variables, arithmetic,
    comparisons and conditionals compiles, the compiler only adds code [seg] at the end and
    keeps the locals.  Run by the complete interpreter from its first instruction, in any
    program that has [seg] at that place, with the variables in their locals and room on
    the stack, the code ends at its end with the value of the expression pushed on the
    stack; apart from the stack, the position, the status and the record of recent
    opcodes the VM is as before. *)
Theorem expression_computes node fuel c c' : plain_expr node -> expr (compilers_at fuel) node c = Done tt c' ->
  exists seg, code c' = code c ++ seg /\ ctx_locals c' = ctx_locals c /\
  forall env n v p s, evaluates env n node v ->
    program s = Some p -> contains p (zlen (code c)) seg -> instruction_pointer s = zlen (code c) ->
    stopped s = false -> stack_inv s -> frame_on_stack s = true -> names_ok env (ctx_locals c) s ->
    stack_count s + n <= AIVM_VM_STACK_CAPACITY ->
    exists s', steps execute s s' /\ instruction_pointer s' = zlen (code c') /\ stack s' = v :: stack s /\
      stopped s' = false /\ rest_same s s'.
Proof.
  intros Hn Hc. destruct (plain_code _ Hn _ _ _ Hc) as (seg & A & M). exists seg. split; [by apply A|]. split; [by apply A|].
  intros env n v p s He Hp Hcon Hip Hrun Hinv Hf Hnames Hroom.
  destruct (M env n v He execute _ p s (stack s)) with (s := s) as (s' & Hs & [R1 R2 R3 R4 R5]); try done.
  - intros i m Hi. unfold execute. by rewrite Hi.
  - split; try done. unfold rest_same. by destruct s.
  - exists s'. rewrite R2, (adds_length _ _ _ A). done.
Qed.

End Machine.

(** ** An example *)

Definition choice_text : string :=
  "If { Lt { Var(name=x) Lit(value=10) } Add { Var(name=x) Mul { Lit(value=2) Var(name=x) } } Lit(value=0) }".

Definition choice : SimpleNodeView :=
  match parse_nodes 1 (bytes_of_string choice_text) with Some [v] => v | _ => mk_view [] [] [] [] end.

(** [x] is the first local. *)
Definition choice_context : SimpleCompileContext := mk_context aivm_program_clear [] [] [] [] [] [(bytes_of_string "x", 0)].
Definition choice_env (name : list Z) : option AivmValue := if bool_decide (name = bytes_of_string "x") then Some (VInt 4) else None.
Definition choice_result : compilation unit := expr (compilers_at 9) choice choice_context.

Example choice_value : value_of 5 choice_env choice = Some (3, VInt 12).
Proof. vm_compute. reflexivity. Qed.

(** The code, with a HALT behind it, in a frame whose only local is 4. *)
Definition choice_program (c : SimpleCompileContext) : AivmProgram :=
  set_instructions (code c ++ [mk_instruction AIVM_OP_HALT 0]) (zlen (code c) + 1) AIVM_PROGRAM_INLINE_INSTRUCTIONS (ctx_program c).

Definition choice_vm (p : AivmProgram) : AivmVm :=
  Vm.set_program (Some p) (set_locals_count 1 (set_locals_limit 1 (Vm.set_locals [VInt 4] (set_call_frames [mk_frame 0 0 0]
    (set_call_frame_limit 1 example_vm))))).

#[local] Instance some_host : Host := example_host.
#[local] Instance some_threads : Threads := {| host_thread_starts := fun _ => true |}.
#[local] Instance some_workers : WorkerRuntime := {|
  runtime_create := fun _ _ _ _ => AIVM_WORKER_RUNTIME_ERR_SYSTEM;
  runtime_submit := fun _ _ _ _ => AIVM_WORKER_RUNTIME_ERR_SYSTEM;
  runtime_await := fun _ _ => (AIVM_WORKER_RUNTIME_ERR_SYSTEM, None);
  runtime_cancel := fun _ _ => (AIVM_WORKER_RUNTIME_ERR_SYSTEM, false);
  runtime_release := fun _ _ => AIVM_WORKER_RUNTIME_OK |}.
#[local] Instance some_clock : Clock := {| host_clock := fun _ => 0 |}.
#[local] Instance some_arenas : Addresses := {| arena_address := fun gen => gen * 4294967296 |}.

Lemma choice_contains c seg : code c = seg -> contains (choice_program c) 0 seg.
Proof.
  intros <-. unfold contains, choice_program. cbn. split_and!; try lia. intros i x Hi. rewrite zget_lookup by lia.
  replace (Z.to_nat (0 + Z.of_nat i)) with i by lia. by apply lookup_app_l_Some.
Qed.

(** [x < 10], so the value is [x + 2 * x]. *)
Lemma expression_computes_witness : exists c s', choice_result = Done tt c /\
  steps execute (choice_vm (choice_program c)) s' /\ stack s' = [VInt 12].
Proof.
  unfold choice_result. destruct (expr (compilers_at 9) choice choice_context) as [[] c| |] eqn:E; [|vm_compute in E; discriminate..]. exists c.
  assert (Hplain : plain_expr choice) by (apply (is_plain_sound 5); vm_compute; reflexivity).
  destruct (expression_computes choice 9 choice_context c Hplain E) as (seg & Hseg & _ & Hrun).
  destruct (Hrun choice_env 3 (VInt 12) (choice_program c) (choice_vm (choice_program c))) as (s' & Hs & _ & Hst & _).
  - apply (value_of_sound 5). vm_compute. reflexivity.
  - reflexivity.
  - by apply choice_contains.
  - reflexivity.
  - reflexivity.
  - split; cbn; unfold stack_count; cbn; vm_compute; repeat split; discriminate.
  - reflexivity.
  - intros name v i l. unfold choice_env. destruct (bool_decide_reflect (name = bytes_of_string "x")) as [->|_]; [|done].
    intros [= <-] Hl. vm_compute in Hl. injection Hl as <- <-. repeat split; try lia; reflexivity.
  - vm_compute. discriminate.
  - exists s'. split; [reflexivity|]. split; [exact Hs|exact Hst].
Defined.
