(* ===== verification/Scheduler.v ===== *)
(** * The worker scheduler

    src/src/aivm_worker_scheduler.c.  Worker threads and the owner share the task
    table under one mutex and one condition variable.  A locked region is one step;
    waiting releases the mutex, so a thread that waits is asleep until a broadcast
    (or a spurious wake-up) and then checks again.  What a task runs is a parameter. *)

From S2P Require Import Prelude.

Inductive AivmWorkerSchedulerStatus :=
  | AIVM_WORKER_SCHEDULER_OK
  | AIVM_WORKER_SCHEDULER_ERR_ARGUMENT
  | AIVM_WORKER_SCHEDULER_ERR_LIMIT
  | AIVM_WORKER_SCHEDULER_ERR_MEMORY
  | AIVM_WORKER_SCHEDULER_ERR_SYSTEM.

Inductive AivmWorkerTaskStatus :=
  | AIVM_WORKER_TASK_QUEUED
  | AIVM_WORKER_TASK_RUNNING
  | AIVM_WORKER_TASK_COMPLETED
  | AIVM_WORKER_TASK_CANCELED.

Global Instance task_status_eq_dec : EqDecision AivmWorkerTaskStatus.
Proof. solve_decision. Defined.

Section Scheduler.

(** A [run] function with its [context]. *)
Context {job : Type}.

Record AivmWorkerSchedulerTask := mk_task {
  submission_id : Z; task_run : option job; task_status : AivmWorkerTaskStatus; occupied : bool }.

Record AivmWorkerScheduler := mk_scheduler {
  active_limit : Z; outstanding_limit : Z; outstanding_count : Z; stopping : bool;
  tasks : list AivmWorkerSchedulerTask }.

(** A worker thread: at the lock, waiting, inside [run], or returned. *)
Inductive worker :=
  | WAwake
  | WAsleep
  | WRunning (id : Z) (j : option job)
  | WExited.

(** A thread inside [aivm_worker_scheduler_await]. *)
Inductive waiter :=
  | AAwake (id : Z)
  | AAsleep (id : Z)
  | AReturned (r : AivmWorkerSchedulerStatus) (status : option AivmWorkerTaskStatus).

Record system := mk_system {
  sched : AivmWorkerScheduler; workers : list worker; waiters : list waiter }.

(** ** Searching the table *)

Definition named (id : Z) (t : AivmWorkerSchedulerTask) : bool := occupied t && (submission_id t =? id).
Definition is_queued (t : AivmWorkerSchedulerTask) : bool :=
  occupied t && bool_decide (task_status t = AIVM_WORKER_TASK_QUEUED).
Definition is_running (t : AivmWorkerSchedulerTask) : bool :=
  occupied t && bool_decide (task_status t = AIVM_WORKER_TASK_RUNNING).
Definition is_finished (t : AivmWorkerSchedulerTask) : bool :=
  bool_decide (task_status t = AIVM_WORKER_TASK_COMPLETED) || bool_decide (task_status t = AIVM_WORKER_TASK_CANCELED).

Definition find_task (ts : list AivmWorkerSchedulerTask) (id : Z) : option (nat * AivmWorkerSchedulerTask) :=
  list_find (fun t => named id t = true) ts.

(** The loop of [find_queued_task] from index [i] with the candidate so far. *)
Fixpoint queued_loop (ts : list AivmWorkerSchedulerTask) (i : nat)
    (selected : option (nat * AivmWorkerSchedulerTask)) : option (nat * AivmWorkerSchedulerTask) :=
  match ts with
  | [] => selected
  | t :: rest =>
      if negb (is_queued t) then queued_loop rest (S i) selected
      else
        let better := match selected with None => true | Some (_, u) => submission_id t <? submission_id u end in
        queued_loop rest (S i) (if better then Some (i, t) else selected)
  end.

Definition find_queued_task (ts : list AivmWorkerSchedulerTask) : option (nat * AivmWorkerSchedulerTask) :=
  queued_loop ts 0 None.

(** ** Updates *)

Definition set_tasks (ts : list AivmWorkerSchedulerTask) (s : AivmWorkerScheduler) : AivmWorkerScheduler :=
  mk_scheduler (active_limit s) (outstanding_limit s) (outstanding_count s) (stopping s) ts.
Definition set_count (n : Z) (s : AivmWorkerScheduler) : AivmWorkerScheduler :=
  mk_scheduler (active_limit s) (outstanding_limit s) n (stopping s) (tasks s).
Definition set_status (st : AivmWorkerTaskStatus) (t : AivmWorkerSchedulerTask) : AivmWorkerSchedulerTask :=
  mk_task (submission_id t) (task_run t) st (occupied t).
Definition put_task (i : nat) (t : AivmWorkerSchedulerTask) (s : AivmWorkerScheduler) : AivmWorkerScheduler :=
  set_tasks (<[i := t]> (tasks s)) s.

Definition wake_worker (w : worker) : worker := match w with WAsleep => WAwake | _ => w end.
Definition wake_waiter (a : waiter) : waiter := match a with AAsleep id => AAwake id | _ => a end.

(** [scheduler_wake_all] *)
Definition wake_all (c : system) : system :=
  mk_system (sched c) (map wake_worker (workers c)) (map wake_waiter (waiters c)).

Definition with_sched (s : AivmWorkerScheduler) (c : system) : system := mk_system s (workers c) (waiters c).
Definition with_worker (w : nat) (x : worker) (c : system) : system :=
  mk_system (sched c) (<[w := x]> (workers c)) (waiters c).
Definition with_waiter (a : nat) (x : waiter) (c : system) : system :=
  mk_system (sched c) (workers c) (<[a := x]> (waiters c)).

(** ** The owner's operations *)

(** What the host answers while a scheduler is created. *)
Record CreateEnv := mk_create_env {
  scheduler_block : bool; tasks_block : bool; workers_block : bool;
  mutex_ready : bool; condition_ready : bool; thread_starts : nat -> bool }.

(** The loop that starts [n] workers, from number [i] on. *)
Fixpoint start_workers (env : CreateEnv) (n i : nat) : bool :=
  match n with
  | O => true
  | S n' => if thread_starts env i then start_workers env n' (S i) else false
  end.

(** When a worker does not start the others are stopped and joined, and nothing is
    returned. *)
Definition aivm_worker_scheduler_create (env : CreateEnv) (active outstanding : Z)
    : AivmWorkerSchedulerStatus * option system :=
  if (active =? 0) || (outstanding =? 0) || (outstanding <? active)
  then (AIVM_WORKER_SCHEDULER_ERR_ARGUMENT, None)
  else if negb (scheduler_block env) then (AIVM_WORKER_SCHEDULER_ERR_MEMORY, None)
  else if negb (tasks_block env) || negb (workers_block env) then (AIVM_WORKER_SCHEDULER_ERR_MEMORY, None)
  else if negb (mutex_ready env) then (AIVM_WORKER_SCHEDULER_ERR_SYSTEM, None)
  else if negb (condition_ready env) then (AIVM_WORKER_SCHEDULER_ERR_SYSTEM, None)
  else if negb (start_workers env (Z.to_nat active) 0) then (AIVM_WORKER_SCHEDULER_ERR_SYSTEM, None)
  else
    let free_task := mk_task 0 None AIVM_WORKER_TASK_QUEUED false in
    (AIVM_WORKER_SCHEDULER_OK,
     Some (mk_system (mk_scheduler active outstanding 0 false (replicate (Z.to_nat outstanding) free_task))
             (replicate (Z.to_nat active) WAwake) [])).

Definition aivm_worker_scheduler_submit (id : Z) (j : job) (c : system) : AivmWorkerSchedulerStatus * system :=
  let s := sched c in
  if outstanding_limit s <=? outstanding_count s then (AIVM_WORKER_SCHEDULER_ERR_LIMIT, c)
  else
    match find_task (tasks s) id with
    | Some _ => (AIVM_WORKER_SCHEDULER_ERR_LIMIT, c)
    | None =>
        match list_find (fun t => occupied t = false) (tasks s) with
        | None => (AIVM_WORKER_SCHEDULER_ERR_LIMIT, c)
        | Some (i, _) =>
            let t := mk_task id (Some j) AIVM_WORKER_TASK_QUEUED true in
            (AIVM_WORKER_SCHEDULER_OK,
             wake_all (with_sched (set_count (outstanding_count s + 1) (put_task i t s)) c))
        end
    end.

Definition aivm_worker_scheduler_cancel (id : Z) (c : system) : AivmWorkerSchedulerStatus * bool * system :=
  match find_task (tasks (sched c)) id with
  | None => (AIVM_WORKER_SCHEDULER_ERR_ARGUMENT, false, c)
  | Some (i, t) =>
      if bool_decide (task_status t = AIVM_WORKER_TASK_QUEUED)
      then (AIVM_WORKER_SCHEDULER_OK, true,
            wake_all (with_sched (put_task i (set_status AIVM_WORKER_TASK_CANCELED t) (sched c)) c))
      else (AIVM_WORKER_SCHEDULER_OK, false, c)
  end.

Definition aivm_worker_scheduler_release (id : Z) (c : system) : AivmWorkerSchedulerStatus * system :=
  match find_task (tasks (sched c)) id with
  | None => (AIVM_WORKER_SCHEDULER_ERR_ARGUMENT, c)
  | Some (i, t) =>
      if negb (is_finished t) then (AIVM_WORKER_SCHEDULER_ERR_ARGUMENT, c)
      else
        let t' := mk_task (submission_id t) None (task_status t) false in
        (AIVM_WORKER_SCHEDULER_OK,
         with_sched (set_count (outstanding_count (sched c) - 1) (put_task i t' (sched c))) c)
  end.

(** The first half of [aivm_worker_scheduler_destroy]; the joins follow. *)
Definition stop_workers (c : system) : system :=
  let s := sched c in
  wake_all (with_sched (mk_scheduler (active_limit s) (outstanding_limit s) (outstanding_count s) true (tasks s)) c).

Definition aivm_worker_scheduler_outstanding_count (c : system) : Z := outstanding_count (sched c).

(** ** Threads *)

(** One locked region of [scheduler_worker_main]; [None] when the thread is not at
    one.  For a thread inside [run] it is the region after [run] has returned. *)
Definition worker_step (w : nat) (c : system) : option system :=
  let s := sched c in
  match workers c !! w with
  | Some WAwake =>
      if stopping s then Some (with_worker w WExited c)
      else
        match find_queued_task (tasks s) with
        | None => Some (with_worker w WAsleep c)
        | Some (i, t) =>
            Some (with_worker w (WRunning (submission_id t) (task_run t))
              (with_sched (put_task i (set_status AIVM_WORKER_TASK_RUNNING t) s) c))
        end
  | Some (WRunning id _) =>
      let s' :=
        match find_task (tasks s) id with
        | Some (i, t) =>
            if bool_decide (task_status t = AIVM_WORKER_TASK_RUNNING)
            then put_task i (set_status AIVM_WORKER_TASK_COMPLETED t) s else s
        | None => s
        end in
      Some (with_worker w WAwake (wake_all (with_sched s' c)))
  | _ => None
  end.

(** One locked region of [aivm_worker_scheduler_await]. *)
Definition await_step (a : nat) (c : system) : option system :=
  match waiters c !! a with
  | Some (AAwake id) =>
      match find_task (tasks (sched c)) id with
      | None => Some (with_waiter a (AReturned AIVM_WORKER_SCHEDULER_ERR_ARGUMENT None) c)
      | Some (_, t) =>
          if is_finished t then Some (with_waiter a (AReturned AIVM_WORKER_SCHEDULER_OK (Some (task_status t))) c)
          else Some (with_waiter a (AAsleep id) c)
      end
  | _ => None
  end.

(** Every interleaving of the threads and of the owner's calls. *)
Inductive step : system -> system -> Prop :=
  | step_worker w c c' : worker_step w c = Some c' -> step c c'
  | step_await a c c' : await_step a c = Some c' -> step c c'
  | step_await_call id c : step c (mk_system (sched c) (workers c) (waiters c ++ [AAwake id]))
  | step_submit id j c : step c (aivm_worker_scheduler_submit id j c).2
  | step_cancel id c : step c (aivm_worker_scheduler_cancel id c).2
  | step_release id c : step c (aivm_worker_scheduler_release id c).2
  | step_stop c : step c (stop_workers c)
  | step_spurious_worker w c : workers c !! w = Some WAsleep -> step c (with_worker w WAwake c)
  | step_spurious_waiter a id c : waiters c !! a = Some (AAsleep id) -> step c (with_waiter a (AAwake id) c).

End Scheduler.
Arguments AivmWorkerSchedulerTask : clear implicits.
Arguments AivmWorkerScheduler : clear implicits.
Arguments worker : clear implicits.
Arguments system : clear implicits.

(** ** The invariant *)

Section Invariant.

Context {job : Type}.
Implicit Types (t : AivmWorkerSchedulerTask job) (ts : list (AivmWorkerSchedulerTask job)) (c : system job).

(** The outstanding submissions, the tasks marked running, and what the worker
    threads are running. *)
Definition ids ts : list Z := omap (fun t => if occupied t then Some (submission_id t) else None) ts.
Definition running_tasks ts : list (Z * option job) :=
  omap (fun t => if is_running t then Some (submission_id t, task_run t) else None) ts.
Definition running_workers (ws : list (worker job)) : list (Z * option job) :=
  omap (fun w => match w with WRunning id j => Some (id, j) | _ => None end) ws.

(** A submission that is not finished yet. *)
Definition unfinished ts (id : Z) : Prop := exists t, t ∈ ts /\ named id t = true /\ is_finished t = false.

(** The table, the counters and the threads agree. *)
Record core_ok c : Prop := {
  co_limits : 0 < active_limit (sched c) <= outstanding_limit (sched c);
  co_table : zlen (tasks (sched c)) = outstanding_limit (sched c);
  co_count : outstanding_count (sched c) = zlen (ids (tasks (sched c)));
  co_distinct : NoDup (ids (tasks (sched c)));
  co_workers : zlen (workers c) = active_limit (sched c);
  co_running : running_tasks (tasks (sched c)) ≡ₚ running_workers (workers c);
  co_exited : WExited ∈ workers c -> stopping (sched c) = true }.

(** Nobody sleeps through what it waits for. *)
Record system_ok c : Prop := {
  so_core : core_ok c;
  so_asleep : WAsleep ∈ workers c -> stopping (sched c) = false /\ Forall (fun t => is_queued t = false) (tasks (sched c));
  so_waiting : forall id, AAsleep id ∈ waiters c -> unfinished (tasks (sched c)) id }.

(** ** Updating one slot *)

(** Everything the invariant says of the table is up to permutation. *)
Lemma slot_update {A} (l : list A) i x x' : l !! i = Some x -> exists rest, l ≡ₚ x :: rest /\ <[i := x']> l ≡ₚ x' :: rest.
Proof.
  intros Hi. exists (take i l ++ drop (S i) l). split.
  - rewrite <- (take_drop_middle l i x Hi) at 1. by rewrite Permutation_middle.
  - rewrite insert_take_drop by (by eapply lookup_lt_Some). by rewrite Permutation_middle.
Qed.

Global Instance ids_proper : Proper ((≡ₚ) ==> (≡ₚ)) ids.
Proof. intros l l' Hl. unfold ids. by rewrite Hl. Qed.
Global Instance running_tasks_proper : Proper ((≡ₚ) ==> (≡ₚ)) running_tasks.
Proof. intros l l' Hl. unfold running_tasks. by rewrite Hl. Qed.
Global Instance running_workers_proper : Proper ((≡ₚ) ==> (≡ₚ)) running_workers.
Proof. intros l l' Hl. unfold running_workers. by rewrite Hl. Qed.

Lemma unfinished_perm ts ts' id : ts ≡ₚ ts' -> unfinished ts id -> unfinished ts' id.
Proof. intros Hp (t & Ht & H). exists t. by rewrite <- Hp. Qed.

Lemma named_ids ts id t : t ∈ ts -> named id t = true -> id ∈ ids ts.
Proof.
  intros Ht Hn. unfold named in Hn. apply andb_true_iff in Hn as [Ho Hid]. apply Z.eqb_eq in Hid as <-.
  unfold ids. apply list_elem_of_omap. exists t. by rewrite Ho.
Qed.

Lemma ids_named ts id : id ∈ ids ts -> exists t, t ∈ ts /\ named id t = true.
Proof.
  unfold ids. rewrite list_elem_of_omap. intros (t & Ht & E). exists t. split; [done|].
  destruct (occupied t) eqn:Ho; [|done]. injection E as <-. unfold named. by rewrite Ho, Z.eqb_refl.
Qed.

Lemma find_task_Some ts id i t : find_task ts id = Some (i, t) -> ts !! i = Some t /\ named id t = true.
Proof. unfold find_task. rewrite list_find_Some. tauto. Qed.

Lemma find_task_None ts id : find_task ts id = None <-> id ∉ ids ts.
Proof.
  unfold find_task. rewrite list_find_None, Forall_forall. split.
  - intros H Hin. destruct (ids_named ts id Hin) as (t & Ht & Hn). by apply (H t).
  - intros H t Ht Hn. apply H. by eapply named_ids.
Qed.

(** With distinct submissions a name stands for one task. *)
Lemma named_unique ts id t u : NoDup (ids ts) -> t ∈ ts -> u ∈ ts -> named id t = true -> named id u = true -> t = u.
Proof.
  intros Hnd Ht Hu Hnt Hnu. apply list_elem_of_lookup in Ht as [i Hi].
  destruct (slot_update ts i t t Hi) as (rest & Hp & _). rewrite Hp in Hnd, Hu.
  apply elem_of_cons in Hu as [->|Hu]; [done|]. exfalso. pose proof (named_ids rest id u Hu Hnu) as Hin.
  unfold named in Hnt. apply andb_true_iff in Hnt as [Ho Hid]. apply Z.eqb_eq in Hid.
  unfold ids in Hnd. cbn in Hnd. rewrite Ho in Hnd. apply NoDup_cons in Hnd as [Hn _]. rewrite Hid in Hn. done.
Qed.

(** ** The queue *)

Definition oldest ts (i : nat) t : Prop := ts !! i = Some t /\ is_queued t = true /\
  forall u, u ∈ ts -> is_queued u = true -> submission_id t <= submission_id u.

Lemma queued_loop_spec ts : forall pre sel,
  match sel with Some (i, t) => oldest pre i t | None => Forall (fun t => is_queued t = false) pre end ->
  match queued_loop ts (length pre) sel with
  | Some (i, t) => oldest (pre ++ ts) i t
  | None => Forall (fun t => is_queued t = false) (pre ++ ts)
  end.
Proof.
  induction ts as [|t ts IH]; intros pre sel Hsel; cbn [queued_loop]; [by rewrite app_nil_r|].
  replace (pre ++ t :: ts) with ((pre ++ [t]) ++ ts) by (by rewrite <- app_assoc).
  replace (S (length pre)) with (length (pre ++ [t])) by (rewrite length_app; cbn; lia).
  destruct (is_queued t) eqn:Hq; cbn [negb]; apply IH.
  - destruct sel as [[i u]|].
    + destruct Hsel as (Hi & Hu & Hmin). destruct (Z.ltb_spec (submission_id t) (submission_id u)) as [Hlt|Hge].
      * split; [rewrite lookup_app_r, Nat.sub_diag by lia; done|]. split; [done|]. intros v Hv Hqv.
        apply elem_of_app in Hv as [Hv|Hv]; [pose proof (Hmin v Hv Hqv); lia|]. apply list_elem_of_singleton in Hv as ->. lia.
      * split; [by apply lookup_app_l_Some|]. split; [done|]. intros v Hv Hqv.
        apply elem_of_app in Hv as [Hv|Hv]; [by apply Hmin|]. apply list_elem_of_singleton in Hv as ->. lia.
    + split; [rewrite lookup_app_r, Nat.sub_diag by lia; done|]. split; [done|]. intros v Hv Hqv.
      apply elem_of_app in Hv as [Hv|Hv]; [rewrite Forall_forall in Hsel; by rewrite (Hsel v Hv) in Hqv|].
      apply list_elem_of_singleton in Hv as ->. lia.
  - destruct sel as [[i u]|].
    + destruct Hsel as (Hi & Hu & Hmin). split; [by apply lookup_app_l_Some|]. split; [done|]. intros v Hv Hqv.
      apply elem_of_app in Hv as [Hv|Hv]; [by apply Hmin|]. apply list_elem_of_singleton in Hv as ->. congruence.
    + apply Forall_app. split; [done|]. by apply Forall_singleton.
Qed.

(** The queued task with the smallest submission number, if there is one. *)
Lemma find_queued_spec ts :
  match find_queued_task ts with
  | Some (i, t) => oldest ts i t
  | None => Forall (fun t => is_queued t = false) ts
  end.
Proof. exact (queued_loop_spec ts [] None (Forall_nil_2 _)). Qed.

(** ** Waking *)

Lemma running_workers_wake ws : running_workers (map wake_worker ws) = running_workers ws.
Proof.
  induction ws as [|w ws IH]; [done|]. unfold running_workers in *. cbn. destruct w; cbn; by rewrite ?IH.
Qed.

Lemma wake_ok c : core_ok c -> system_ok (wake_all c).
Proof.
  intros [H1 H2 H3 H4 H5 H6 H7]. split; [split|..]; try done; cbn [wake_all sched workers waiters].
  - by rewrite zlen_map.
  - by rewrite running_workers_wake.
  - intros (w & E & Hw)%list_elem_of_fmap. apply H7. by destruct w.
  - intros (w & E & Hw)%list_elem_of_fmap. by destruct w.
  - intros id (a & E & Ha)%list_elem_of_fmap. by destruct a.
Qed.

Lemma with_worker_wake w c : with_worker w WAwake (wake_all c) = wake_all (with_worker w WAwake c).
Proof. unfold with_worker, wake_all. cbn. f_equal. by rewrite list_fmap_insert. Qed.

(** ** One slot of the table changes *)

Lemma ids_cons t ts : ids (t :: ts) = (if occupied t then [submission_id t] else []) ++ ids ts.
Proof. unfold ids. cbn. by destruct (occupied t). Qed.

Lemma running_cons t ts : running_tasks (t :: ts) = (if is_running t then [(submission_id t, task_run t)] else []) ++ running_tasks ts.
Proof. unfold running_tasks. cbn. by destruct (is_running t). Qed.

Lemma running_workers_cons w ws : running_workers (w :: ws) =
  (match w with WRunning id j => [(id, j)] | _ => [] end) ++ running_workers ws.
Proof. by destruct w. Qed.

(** A slot whose submission stays. *)
Lemma put_status_core c i t st ws :
  core_ok c -> tasks (sched c) !! i = Some t -> occupied t = true -> zlen ws = zlen (workers c) ->
  (WExited ∈ ws -> WExited ∈ workers c) ->
  running_tasks (<[i := set_status st t]> (tasks (sched c))) ≡ₚ running_workers ws ->
  core_ok (mk_system (put_task i (set_status st t) (sched c)) ws (waiters c)).
Proof.
  intros [H1 H2 H3 H4 H5 H6 H7] Hi Ho Hl Hex Hr.
  destruct (slot_update _ i t (set_status st t) Hi) as (rest & E1 & E2).
  assert (Hids : ids (<[i := set_status st t]> (tasks (sched c))) ≡ₚ ids (tasks (sched c))).
  { rewrite E2, E1, !ids_cons. cbn [set_status occupied submission_id]. done. }
  split; cbn [sched workers put_task set_tasks active_limit outstanding_limit outstanding_count stopping tasks]; try done.
  - rewrite <- H2. unfold zlen. by rewrite length_insert.
  - rewrite H3. unfold zlen. by rewrite Hids.
  - by rewrite Hids.
  - congruence.
  - intros Hin. by apply H7, Hex.
Qed.

Lemma unfinished_put c i t t' id :
  NoDup (ids (tasks (sched c))) -> tasks (sched c) !! i = Some t ->
  (named id t = true -> named id t' = true /\ is_finished t' = false \/ is_finished t = true) ->
  unfinished (tasks (sched c)) id -> unfinished (<[i := t']> (tasks (sched c))) id.
Proof.
  intros Hnd Hi Hkeep (u & Hu & Hn & Hf). destruct (slot_update _ i t t' Hi) as (rest & E1 & E2).
  rewrite E1 in Hu. apply elem_of_cons in Hu as [->|Hu].
  - destruct (Hkeep Hn) as [[? ?]|?]; [|congruence]. exists t'. rewrite E2. split; [by left|done].
  - exists u. rewrite E2. split; [by right|done].
Qed.

(** ** Every step keeps the invariant *)

Lemma named_split id t : named id t = true <-> occupied t = true /\ submission_id t = id.
Proof. unfold named. rewrite andb_true_iff, Z.eqb_eq. done. Qed.

Lemma submit_ok id j c : system_ok c -> system_ok (aivm_worker_scheduler_submit id j c).2.
Proof.
  intros Hok. pose proof (so_core c Hok) as [H1 H2 H3 H4 H5 H6 H7]. unfold aivm_worker_scheduler_submit.
  destruct (_ <=? _); [done|]. destruct (find_task (tasks (sched c)) id) as [[]|] eqn:Ef; [done|].
  apply find_task_None in Ef. destruct (list_find _ _) as [[i t]|] eqn:El; [|done].
  apply list_find_Some in El as (Hi & Ho & _). set (t' := mk_task id (Some j) AIVM_WORKER_TASK_QUEUED true).
  destruct (slot_update _ i t t' Hi) as (rest & E1 & E2). cbn [snd]. apply wake_ok.
  assert (Hids : ids (<[i := t']> (tasks (sched c))) ≡ₚ id :: ids (tasks (sched c))).
  { rewrite E2, E1, !ids_cons, Ho. done. }
  split; cbn [sched workers with_sched set_count put_task set_tasks active_limit outstanding_limit outstanding_count stopping tasks]; try done.
  - rewrite <- H2. unfold zlen. by rewrite length_insert.
  - rewrite H3. unfold zlen. rewrite Hids. cbn [length]. lia.
  - rewrite Hids. by apply NoDup_cons.
  - rewrite <- H6, E2, E1, !running_cons. unfold is_running. by rewrite Ho.
Qed.

Lemma cancel_ok id c : system_ok c -> system_ok (aivm_worker_scheduler_cancel id c).2.
Proof.
  intros Hok. pose proof (so_core c Hok) as Hcore. unfold aivm_worker_scheduler_cancel.
  destruct (find_task (tasks (sched c)) id) as [[i t]|] eqn:Ef; [|done].
  apply find_task_Some in Ef as [Hi [Ho Hid]%named_split].
  case_bool_decide as Hq; [|done]. cbn [snd]. apply wake_ok. apply (put_status_core c i t AIVM_WORKER_TASK_CANCELED); try done.
  destruct (slot_update _ i t (set_status AIVM_WORKER_TASK_CANCELED t) Hi) as (rest & E1 & E2).
  rewrite <- (co_running c Hcore), E2, E1, !running_cons. unfold is_running. cbn [set_status task_status occupied].
  rewrite Hq, Ho. done.
Qed.

Lemma release_ok id c : system_ok c -> system_ok (aivm_worker_scheduler_release id c).2.
Proof.
  intros Hok. pose proof Hok as [[H1 H2 H3 H4 H5 H6 H7] Hsl Hwait]. unfold aivm_worker_scheduler_release.
  destruct (find_task (tasks (sched c)) id) as [[i t]|] eqn:Ef; [|done].
  apply find_task_Some in Ef as [Hi [Ho Hid]%named_split]. destruct (is_finished t) eqn:Hf; cbn [negb]; [|done].
  cbn [snd]. set (t' := mk_task (submission_id t) None (task_status t) false).
  destruct (slot_update _ i t t' Hi) as (rest & E1 & E2).
  assert (Hids : ids (tasks (sched c)) ≡ₚ id :: ids (<[i := t']> (tasks (sched c)))).
  { rewrite E2, E1, !ids_cons, Ho, Hid. done. }
  assert (Hnr : is_running t = false).
  { unfold is_running, is_finished in *. destruct (task_status t); try done; by rewrite andb_false_r. }
  split; [split|..]; cbn [sched workers waiters with_sched set_count put_task set_tasks active_limit outstanding_limit outstanding_count stopping tasks]; try done.
  - rewrite <- H2. unfold zlen. by rewrite length_insert.
  - rewrite H3. unfold zlen. rewrite Hids. cbn [length]. lia.
  - rewrite Hids in H4. by apply NoDup_cons in H4 as [_ ?].
  - rewrite <- H6, E2, E1, !running_cons, Hnr. done.
  - intros Hs. destruct (Hsl Hs) as [Hst Hq]. split; [done|]. by apply Forall_insert.
  - intros k Hk. apply (unfinished_put c i t t' k); [done|done| |by apply Hwait]. intros _. by right.
Qed.

Lemma stop_ok c : system_ok c -> system_ok (stop_workers c).
Proof. intros Hok. pose proof (so_core c Hok) as []. apply wake_ok. by split. Qed.

Lemma worker_insert c w x : workers c !! w = Some x -> forall y, exists rest,
  workers c ≡ₚ x :: rest /\ <[w := y]> (workers c) ≡ₚ y :: rest.
Proof. intros Hw y. by apply slot_update. Qed.

Lemma worker_set_ok c w x y : system_ok c -> workers c !! w = Some x ->
  (match x with WRunning _ _ => False | _ => True end) -> (match y with WRunning _ _ => False | _ => True end) ->
  (y = WAsleep -> stopping (sched c) = false /\ Forall (fun t => is_queued t = false) (tasks (sched c))) ->
  (y = WExited -> stopping (sched c) = true) -> system_ok (with_worker w y c).
Proof.
  intros [[H1 H2 H3 H4 H5 H6 H7] Hsl Hwait] Hw Hx Hy Hya Hye. destruct (worker_insert c w x Hw y) as (rest & E1 & E2).
  split; [split|..]; cbn [with_worker sched workers waiters]; try done.
  - rewrite <- H5. unfold zlen. by rewrite length_insert.
  - rewrite H6, E2, E1, !running_workers_cons. by destruct x, y.
  - rewrite E2, elem_of_cons. intros [<-|Hin]; [by apply Hye|]. apply H7. rewrite E1. by right.
  - rewrite E2, elem_of_cons. intros [<-|Hin]; [by apply Hya|]. apply Hsl. rewrite E1. by right.
Qed.

(** A worker takes the oldest queued task. *)
Lemma take_ok c w i t : system_ok c -> workers c !! w = Some WAwake -> oldest (tasks (sched c)) i t ->
  system_ok (with_worker w (WRunning (submission_id t) (task_run t))
    (with_sched (put_task i (set_status AIVM_WORKER_TASK_RUNNING t) (sched c)) c)).
Proof.
  intros [Hcore Hsl Hwait] Hw (Hi & Hq & _). unfold is_queued in Hq. apply andb_true_iff in Hq as [Ho Hq].
  apply bool_decide_eq_true in Hq.
  destruct (worker_insert c w _ Hw (WRunning (submission_id t) (task_run t))) as (wrest & W1 & W2).
  destruct (slot_update _ i t (set_status AIVM_WORKER_TASK_RUNNING t) Hi) as (rest & E1 & E2).
  assert (Hnosleep : WAsleep ∉ workers c).
  { intros Hs. destruct (Hsl Hs) as [_ Hf]. rewrite Forall_forall in Hf.
    assert (Hin : t ∈ tasks (sched c)) by (by eapply list_elem_of_lookup_2). specialize (Hf t Hin).
    unfold is_queued in Hf. rewrite Ho, Hq in Hf. done. }
  split.
  - apply (put_status_core c i t AIVM_WORKER_TASK_RUNNING); try done.
    + unfold zlen. by rewrite length_insert.
    + rewrite W2, elem_of_cons. intros [?|Hin]; [done|]. rewrite W1. by right.
    + rewrite E2, running_cons, W2, running_workers_cons. unfold is_running. cbn [set_status task_status occupied submission_id task_run].
      rewrite Ho. cbn [andb bool_decide]. pose proof (co_running c Hcore) as Hr. rewrite E1, W1, running_cons, running_workers_cons in Hr.
      unfold is_running in Hr. rewrite Hq, Ho in Hr. cbn in Hr. rewrite Hr. done.
  - cbn [with_worker with_sched workers sched]. rewrite W2, elem_of_cons. intros [?|Hin]; [done|].
    exfalso. apply Hnosleep. rewrite W1. by right.
  - cbn [with_worker with_sched waiters sched put_task set_tasks tasks]. intros k Hk.
    apply (unfinished_put c i t); [apply Hcore|done| |by apply Hwait]. intros Hn. left. split; [exact Hn|done].
Qed.

(** A worker reports the end of its task, which is marked running under its number. *)
Lemma running_found c w id j : core_ok c -> workers c !! w = Some (WRunning id j) ->
  exists i t, find_task (tasks (sched c)) id = Some (i, t) /\ tasks (sched c) !! i = Some t /\ occupied t = true /\
    submission_id t = id /\ task_run t = j /\ task_status t = AIVM_WORKER_TASK_RUNNING.
Proof.
  intros Hcore Hw.
  assert (Hin : (id, j) ∈ running_tasks (tasks (sched c))).
  { rewrite (co_running c Hcore). unfold running_workers. apply list_elem_of_omap. exists (WRunning id j).
    split; [by eapply list_elem_of_lookup_2|done]. }
  unfold running_tasks in Hin. apply list_elem_of_omap in Hin as (t & Ht & E). destruct (is_running t) eqn:Hr; [|done].
  injection E as <- <-. unfold is_running in Hr. apply andb_true_iff in Hr as [Ho Hr]. apply bool_decide_eq_true in Hr.
  assert (Hn : named (submission_id t) t = true) by (by apply named_split).
  destruct (find_task (tasks (sched c)) (submission_id t)) as [[i u]|] eqn:Ef.
  - exists i, u. split; [done|]. apply find_task_Some in Ef as [Hi Hu]. split; [done|].
    assert (t = u) as <- by (eapply (named_unique (tasks (sched c)) (submission_id t)); try done;
      [apply Hcore|by eapply list_elem_of_lookup_2]). done.
  - apply find_task_None in Ef. destruct Ef. by eapply named_ids.
Qed.

Lemma worker_step_ok w c c' : system_ok c -> worker_step w c = Some c' -> system_ok c'.
Proof.
  intros Hok. unfold worker_step. destruct (workers c !! w) as [x|] eqn:Hw; [|done]. destruct x as [| |id j|]; [|done| |done].
  - destruct (stopping (sched c)) eqn:Hs.
    { intros [= <-]. by eapply worker_set_ok. }
    pose proof (find_queued_spec (tasks (sched c))) as Hq.
    destruct (find_queued_task (tasks (sched c))) as [[i t]|]; intros [= <-]; [by apply take_ok|].
    by eapply worker_set_ok.
  - intros [= <-]. pose proof (so_core c Hok) as Hcore.
    destruct (running_found c w id j Hcore Hw) as (i & t & -> & Hi & Ho & Hid & Hj & Hst).
    rewrite bool_decide_eq_true_2 by done. rewrite with_worker_wake. apply wake_ok.
    destruct (worker_insert c w _ Hw WAwake) as (wrest & W1 & W2).
    destruct (slot_update _ i t (set_status AIVM_WORKER_TASK_COMPLETED t) Hi) as (rest & E1 & E2).
    apply (put_status_core c i t AIVM_WORKER_TASK_COMPLETED); try done.
    + unfold zlen. by rewrite length_insert.
    + rewrite W2, elem_of_cons. intros [?|Hin]; [done|]. rewrite W1. by right.
    + pose proof (co_running c Hcore) as Hr. rewrite E1, W1, running_cons, running_workers_cons in Hr.
      rewrite E2, W2, running_cons, running_workers_cons. unfold is_running in *. cbn [set_status task_status occupied] in *.
      rewrite Ho, Hst, Hid, Hj in Hr. rewrite Ho. cbn in Hr |- *. by apply Permutation_cons_inv in Hr.
Qed.

Lemma waiter_set_ok c a y : system_ok c -> (forall id, y = AAsleep id -> unfinished (tasks (sched c)) id) ->
  system_ok (with_waiter a y c).
Proof.
  intros [Hcore Hsl Hwait] Hy. split; [by destruct Hcore|done|]. cbn [with_waiter waiters sched]. intros id Hin.
  apply list_elem_of_lookup in Hin as [k Hk]. apply list_lookup_insert_Some in Hk as [(_ & E & _)|(_ & Hk)].
  - by apply Hy.
  - apply Hwait. by eapply list_elem_of_lookup_2.
Qed.

Lemma await_step_ok a c c' : system_ok c -> await_step a c = Some c' -> system_ok c'.
Proof.
  intros Hok. unfold await_step. destruct (waiters c !! a) as [[id|id|]|]; [|done..].
  destruct (find_task (tasks (sched c)) id) as [[i t]|] eqn:Ef.
  - apply find_task_Some in Ef as [Hi Hn]. destruct (is_finished t) eqn:Hf; intros [= <-]; apply waiter_set_ok; try done.
    intros k [= <-]. exists t. split; [by eapply list_elem_of_lookup_2|done].
  - intros [= <-]. by apply waiter_set_ok.
Qed.

Lemma step_ok c c' : system_ok c -> step c c' -> system_ok c'.
Proof.
  intros Hok Hs. destruct Hs as [w c c' Hs|a c c' Hs|id c|id j c|id c|id c|c|w c Hw|a id c Ha].
  - by eapply worker_step_ok.
  - by eapply await_step_ok.
  - destruct Hok as [Hcore Hsl Hwait]. split; [by destruct Hcore|done|]. cbn [waiters]. intros k Hk.
    apply elem_of_app in Hk as [Hk|Hk]; [by apply Hwait|]. by apply list_elem_of_singleton in Hk.
  - by apply submit_ok.
  - by apply cancel_ok.
  - by apply release_ok.
  - by apply stop_ok.
  - by eapply worker_set_ok.
  - by apply waiter_set_ok.
Qed.

Lemma omap_replicate_None {A B} (f : A -> option B) n x : f x = None -> omap f (replicate n x) = [].
Proof. intros Hx. induction n as [|n IH]; [done|]. cbn. by rewrite Hx. Qed.

Lemma create_ok env active outstanding c : 0 <= active -> 0 <= outstanding ->
  aivm_worker_scheduler_create env active outstanding = (AIVM_WORKER_SCHEDULER_OK, Some c) -> system_ok c.
Proof.
  intros Ha Ho. unfold aivm_worker_scheduler_create. destruct ((active =? 0) || _ || _) eqn:E; [done|].
  destruct (negb _); [done|]. destruct (negb _ || _); [done|]. do 3 (destruct (negb _); [done|]).
  intros [= <-].
  assert (Hr : forall x : worker job, x ∈ replicate (Z.to_nat active) WAwake -> x = WAwake).
  { intros x Hx. by apply elem_of_replicate in Hx as [-> _]. }
  split; [split|..]; cbn [sched workers waiters active_limit outstanding_limit outstanding_count stopping tasks].
  - lia.
  - unfold zlen. rewrite length_replicate. lia.
  - unfold ids. by rewrite omap_replicate_None.
  - unfold ids. rewrite omap_replicate_None by done. constructor.
  - unfold zlen. rewrite length_replicate. lia.
  - unfold running_tasks, running_workers. by rewrite !omap_replicate_None.
  - intros Hin. by apply Hr in Hin.
  - intros Hin. by apply Hr in Hin.
  - intros id Hin. by apply elem_of_nil in Hin.
Qed.

(** ** Work ends *)

Definition queued_weight t : Z := if is_queued t then 1 else 0.
Definition running_weight (w : worker job) : Z := match w with WRunning _ _ => 1 | _ => 0 end.
Definition awake_weight (w : worker job) : Z := match w with WAwake => 1 | _ => 0 end.

(** A queued task costs two regions, a running one another, and each of them may
    wake every worker once. *)
Definition work_left c : Z :=
  (zlen (workers c) + 2) * (2 * total queued_weight (tasks (sched c)) + total running_weight (workers c)) +
  total awake_weight (workers c).

Lemma work_left_nonneg c : 0 <= work_left c.
Proof.
  assert (Hq : 0 <= total queued_weight (tasks (sched c))).
  { apply total_nonneg, Forall_forall. intros t _. unfold queued_weight. by destruct (is_queued t). }
  assert (Hr : 0 <= total running_weight (workers c) /\ 0 <= total awake_weight (workers c)).
  { split; apply total_nonneg, Forall_forall; intros w _; by destruct w. }
  unfold work_left. pose proof (zlen_nonneg (workers c)). nia.
Qed.

Lemma wake_weights ws : total running_weight (map wake_worker ws) = total running_weight ws.
Proof. induction ws as [|w ws IH]; [done|]. cbn [map total]. rewrite IH. by destruct w. Qed.

Lemma awake_bound ws : total awake_weight ws <= zlen ws.
Proof. apply total_le_length. intros []; cbn; lia. Qed.

(** Every region of a worker leaves less work. *)
Lemma worker_step_decreases w c c' : system_ok c -> worker_step w c = Some c' -> work_left c' < work_left c.
Proof.
  intros Hok. unfold worker_step. destruct (workers c !! w) as [x|] eqn:Hw; [|done]. destruct x as [| |id j|]; [|done| |done].
  - assert (Hidle : forall y, running_weight y = 0 -> awake_weight y = 0 -> work_left (with_worker w y c) < work_left c).
    { intros y Hr Ha. destruct (worker_insert c w _ Hw y) as (rest & W1 & W2). unfold work_left.
      cbn [with_worker workers sched]. rewrite (total_perm _ _ _ W1), (total_perm awake_weight _ _ W1), (total_perm _ _ _ W2), (total_perm awake_weight _ _ W2).
      unfold zlen. rewrite length_insert. cbn [total running_weight awake_weight]. lia. }
    destruct (stopping (sched c)); [intros [= <-]; by apply Hidle|].
    pose proof (find_queued_spec (tasks (sched c))) as Hq.
    destruct (find_queued_task (tasks (sched c))) as [[i t]|]; intros [= <-]; [|by apply Hidle].
    destruct Hq as (Hi & Hq & _).
    destruct (worker_insert c w _ Hw (WRunning (submission_id t) (task_run t))) as (wrest & W1 & W2).
    destruct (slot_update _ i t (set_status AIVM_WORKER_TASK_RUNNING t) Hi) as (rest & E1 & E2).
    unfold work_left. cbn [with_worker with_sched put_task set_tasks workers sched tasks].
    rewrite (total_perm _ _ _ W1), (total_perm awake_weight _ _ W1), (total_perm _ _ _ W2), (total_perm awake_weight _ _ W2).
    rewrite (total_perm _ _ _ E1), (total_perm _ _ _ E2). unfold zlen. rewrite length_insert.
    cbn [total running_weight awake_weight]. unfold queued_weight at 1 3. rewrite Hq.
    unfold is_queued. cbn [set_status task_status occupied]. rewrite bool_decide_eq_false_2 by done. rewrite andb_false_r. nia.
  - intros [= <-]. destruct (running_found c w id j (so_core c Hok) Hw) as (i & t & -> & Hi & Ho & Hid & Hj & Hst).
    rewrite bool_decide_eq_true_2 by done. rewrite with_worker_wake.
    destruct (worker_insert c w _ Hw WAwake) as (wrest & W1 & W2).
    destruct (slot_update _ i t (set_status AIVM_WORKER_TASK_COMPLETED t) Hi) as (rest & E1 & E2).
    unfold work_left. cbn [wake_all with_worker with_sched put_task set_tasks workers sched tasks].
    rewrite wake_weights. pose proof (awake_bound (map wake_worker (<[w := WAwake]> (workers c)))) as Ha.
    rewrite zlen_map in *. rewrite (total_perm running_weight _ _ W1), (total_perm running_weight _ _ W2).
    rewrite (total_perm _ _ _ E1), (total_perm _ _ _ E2). unfold zlen in *. rewrite length_insert in *.
    cbn [total running_weight]. unfold queued_weight at 1 3. unfold is_queued.
    cbn [set_status task_status occupied]. rewrite Hst. rewrite !bool_decide_eq_false_2 by done. rewrite !andb_false_r.
    assert (0 <= total awake_weight (workers c)) by (apply total_nonneg, Forall_forall; intros []; done).
    nia.
Qed.

(** One region of some worker. *)
Definition work c c' : Prop := exists w, worker_step w c = Some c'.

Lemma work_bounded n : forall c c', system_ok c -> nsteps work n c c' -> Z.of_nat n + work_left c' <= work_left c.
Proof.
  induction n as [|n IH]; intros c c' Hok Hn; inversion Hn as [|? ? c1 ? [w Hw] Hrest]; subst; [lia|].
  pose proof (worker_step_decreases w c c1 Hok Hw). pose proof (IH c1 c' (worker_step_ok w c c1 Hok Hw) Hrest). lia.
Qed.

Lemma work_ok c c' : rtc work c c' -> system_ok c -> system_ok c'.
Proof. induction 1 as [|c c1 c' [w Hw] _ IH]; [done|]. intros Hok. apply IH. by eapply worker_step_ok. Qed.

(** When no worker has anything to do, every task that was accepted is finished. *)
Lemma idle_finished c : system_ok c -> (forall w, worker_step w c = None) ->
  (stopping (sched c) = true -> Forall (fun w => w = WExited) (workers c)) /\
  (stopping (sched c) = false -> (forall t, t ∈ tasks (sched c) -> occupied t = true -> is_finished t = true) /\
     forall id, AAsleep id ∉ waiters c).
Proof.
  intros [Hcore Hsl Hwait] Hidle.
  assert (Hw : forall w x, workers c !! w = Some x -> x = WAsleep \/ x = WExited).
  { intros w x Hx. specialize (Hidle w). unfold worker_step in Hidle. rewrite Hx in Hidle.
    destruct x; [|by left|done|by right]. destruct (stopping _); [done|]. by destruct (find_queued_task _) as [[]|]. }
  split; intros Hst.
  - apply Forall_forall. intros x Hx. pose proof Hx as Hin. apply list_elem_of_lookup in Hx as [w Hx].
    destruct (Hw w x Hx) as [->|]; [|done]. destruct (Hsl Hin). congruence.
  - assert (Hasleep : WAsleep ∈ workers c).
    { destruct (lookup_lt_is_Some_2 (workers c) 0) as [x Hx].
      { pose proof (co_limits c Hcore). pose proof (co_workers c Hcore). unfold zlen in *. lia. }
      destruct (Hw 0%nat x Hx) as [->| ->]; [by eapply list_elem_of_lookup_2|].
      assert (Hin : WExited ∈ workers c) by (by eapply list_elem_of_lookup_2). apply (co_exited c Hcore) in Hin. congruence. }
    destruct (Hsl Hasleep) as [_ Hnq]. rewrite Forall_forall in Hnq.
    assert (Hr : running_tasks (tasks (sched c)) = []).
    { apply Permutation_nil_r. rewrite (co_running c Hcore). unfold running_workers.
      assert (Hall : Forall (fun x => x = WAsleep \/ x = WExited) (workers c)).
      { apply Forall_forall. intros x Hx. apply list_elem_of_lookup in Hx as [w Hx]. by eapply Hw. }
      clear -Hall. induction Hall as [|x l Hx _ IH]; [done|]. cbn. destruct Hx as [->| ->]; exact IH. }
    assert (Hfin : forall t, t ∈ tasks (sched c) -> occupied t = true -> is_finished t = true).
    { intros t Ht Ho. specialize (Hnq t Ht). unfold is_queued in Hnq. unfold is_finished. rewrite Ho in Hnq.
      destruct (task_status t) eqn:Hs; try done.
      assert (Hin : (submission_id t, task_run t) ∈ running_tasks (tasks (sched c))).
      { unfold running_tasks. apply list_elem_of_omap. exists t. split; [done|]. unfold is_running. by rewrite Ho, Hs. }
      rewrite Hr in Hin. by apply elem_of_nil in Hin. }
    split; [done|]. intros id Hin. destruct (Hwait id Hin) as (t & Ht & [Ho _]%named_split & Hf).
    rewrite (Hfin t Ht Ho) in Hf. done.
Qed.

(** ** Theorems *)

(** A system that was created and has run in some interleaving. *)
Definition reached (env : CreateEnv) (active outstanding : Z) c : Prop :=
  exists c0, aivm_worker_scheduler_create env active outstanding = (AIVM_WORKER_SCHEDULER_OK, Some c0) /\ rtc step c0 c.

Lemma step_limits c c' : step c c' ->
  active_limit (sched c') = active_limit (sched c) /\ outstanding_limit (sched c') = outstanding_limit (sched c).
Proof.
  destruct 1 as [w c c' Hs|a c c' Hs| |id j c|id c|id c| | |]; try done.
  - unfold worker_step in Hs. repeat case_match; simplify_eq; done.
  - unfold await_step in Hs. repeat case_match; simplify_eq; done.
  - unfold aivm_worker_scheduler_submit. by repeat case_match.
  - unfold aivm_worker_scheduler_cancel. by repeat case_match.
  - unfold aivm_worker_scheduler_release. by repeat case_match.
Qed.

Lemma steps_ok c c' : rtc step c c' -> system_ok c -> system_ok c' /\
  active_limit (sched c') = active_limit (sched c) /\ outstanding_limit (sched c') = outstanding_limit (sched c).
Proof.
  induction 1 as [|c c1 c' Hs _ IH]; [done|]. intros Hok. destruct (step_limits c c1 Hs) as [<- <-].
  apply IH. by eapply step_ok.
Qed.

Lemma reached_ok env active outstanding c : 0 <= active -> 0 <= outstanding -> reached env active outstanding c ->
  system_ok c /\ active_limit (sched c) = active /\ outstanding_limit (sched c) = outstanding.
Proof.
  intros Ha Ho (c0 & Hc & Hs). destruct (steps_ok c0 c Hs (create_ok _ _ _ _ Ha Ho Hc)) as (Hok & -> & ->).
  split; [done|]. unfold aivm_worker_scheduler_create in Hc. repeat case_match; simplify_eq; done.
Qed.

Lemma ids_length ts : zlen (ids ts) <= zlen ts /\ (zlen ts <= zlen (ids ts) -> Forall (fun t => occupied t = true) ts).
Proof.
  induction ts as [|t ts [H1 H2]]; [done|]. rewrite ids_cons, zlen_app, zlen_cons. destruct (occupied t) eqn:Ho.
  - change (zlen [submission_id t]) with 1. split; [lia|]. intros Hle. constructor; [done|]. apply H2. lia.
  - rewrite zlen_nil. split; lia.
Qed.

Lemma running_workers_length ws : zlen (running_workers ws) <= zlen ws.
Proof.
  induction ws as [|w ws IH]; [done|]. rewrite running_workers_cons, zlen_app, zlen_cons.
  destruct w; unfold zlen in *; cbn [length]; lia.
Qed.

(** C25: in every interleaving of the worker threads, the waiting threads and
    the owner's calls, spurious wake-ups included: the outstanding counter is the
    number of occupied slots and never passes the limit; submissions are distinct;
    the tasks marked running are exactly those the worker threads are executing,
    each by one thread, and at most [active] of them; and no wake-up is lost: while a
    worker sleeps nothing is queued and the scheduler is not stopping, and while a
    thread sleeps in await its task exists and is not finished. *)
Theorem scheduler_reachable_ok env active outstanding c :
  0 <= active -> 0 <= outstanding -> reached env active outstanding c ->
  (outstanding_count (sched c) = zlen (ids (tasks (sched c))) /\ outstanding_count (sched c) <= outstanding) /\
  NoDup (ids (tasks (sched c))) /\
  (running_tasks (tasks (sched c)) ≡ₚ running_workers (workers c) /\ zlen (running_tasks (tasks (sched c))) <= active) /\
  (WAsleep ∈ workers c -> stopping (sched c) = false /\ Forall (fun t => is_queued t = false) (tasks (sched c))) /\
  (forall id, AAsleep id ∈ waiters c -> unfinished (tasks (sched c)) id).
Proof.
  intros Ha Ho Hr. destruct (reached_ok _ _ _ _ Ha Ho Hr) as ([[H1 H2 H3 H4 H5 H6 H7] Hsl Hwait] & El & Eo).
  split_and!; try done.
  - rewrite H3, <- Eo, <- H2. apply ids_length.
  - rewrite <- El, <- H5. etransitivity; [|apply running_workers_length]. unfold zlen. by rewrite H6.
Qed.

(** The slot a submission takes. *)
Lemma submit_run id j c : system_ok c ->
  (outstanding_count (sched c) < outstanding_limit (sched c) /\ (id ∉ ids (tasks (sched c))) /\
   exists i t, tasks (sched c) !! i = Some t /\ occupied t = false /\
     aivm_worker_scheduler_submit id j c = (AIVM_WORKER_SCHEDULER_OK,
       wake_all (with_sched (set_count (outstanding_count (sched c) + 1)
         (put_task i (mk_task id (Some j) AIVM_WORKER_TASK_QUEUED true) (sched c))) c))) \/
  ((outstanding_limit (sched c) <= outstanding_count (sched c) \/ (id ∈ ids (tasks (sched c)))) /\
   aivm_worker_scheduler_submit id j c = (AIVM_WORKER_SCHEDULER_ERR_LIMIT, c)).
Proof.
  intros [[H1 H2 H3 H4 H5 H6 H7] _ _]. unfold aivm_worker_scheduler_submit.
  destruct (Z.leb_spec (outstanding_limit (sched c)) (outstanding_count (sched c))) as [Hle|Hlt]; [right; by split; [left|]|].
  destruct (find_task (tasks (sched c)) id) as [[i t]|] eqn:Ef.
  { right. split; [|done]. right. apply find_task_Some in Ef as [Hi Hn].
    eapply named_ids; [by eapply list_elem_of_lookup_2|exact Hn]. }
  apply find_task_None in Ef. left. split; [done|]. split; [done|].
  destruct (list_find _ _) as [[i t]|] eqn:El.
  - apply list_find_Some in El as (Hi & Ho & _). by exists i, t.
  - exfalso. apply list_find_None in El.
    assert (Hall : Forall (fun t => occupied t = true) (tasks (sched c))).
    { eapply Forall_impl; [exact El|]. intros t Ht. by apply Bool.not_false_iff_true. }
    assert (Hfull : zlen (ids (tasks (sched c))) = zlen (tasks (sched c))); [|lia].
    clear -Hall. induction Hall as [|t ts Ht _ IH]; [done|]. rewrite ids_cons, Ht, zlen_app, IH, zlen_cons.
    unfold zlen. cbn [length]. lia.
Qed.

Lemma worker_step_ids w c c' : system_ok c -> worker_step w c = Some c' -> ids (tasks (sched c')) ≡ₚ ids (tasks (sched c)).
Proof.
  intros Hok. assert (Hput : forall i t st, tasks (sched c) !! i = Some t ->
    ids (<[i := set_status st t]> (tasks (sched c))) ≡ₚ ids (tasks (sched c))).
  { intros i t st Hi. destruct (slot_update _ i t (set_status st t) Hi) as (rest & E1 & E2). by rewrite E2, E1, !ids_cons. }
  unfold worker_step. destruct (workers c !! w) as [x|] eqn:Hw; [|done]. destruct x as [| |id j|]; [|done| |done].
  - destruct (stopping _); [by intros [= <-]|]. pose proof (find_queued_spec (tasks (sched c))) as Hq.
    destruct (find_queued_task _) as [[i t]|]; intros [= <-]; [|done]. apply Hput, Hq.
  - intros [= <-]. destruct (running_found c w id j (so_core c Hok) Hw) as (i & t & -> & Hi & _ & _ & _ & Hst).
    rewrite bool_decide_eq_true_2 by done. by apply Hput.
Qed.

(** Admission.  A submission is accepted exactly when fewer than
    [outstanding_limit] submissions are outstanding and its number is not one of
    them; an accepted one adds its number and is queued with its job; a refused one
    changes nothing.  What the worker threads do in between makes no difference:
    completions return no credit, so acceptance does not depend on their timing. *)
Theorem submit_admission env active outstanding c id j :
  0 <= active -> 0 <= outstanding -> reached env active outstanding c ->
  ((aivm_worker_scheduler_submit id j c).1 = AIVM_WORKER_SCHEDULER_OK <->
     outstanding_count (sched c) < outstanding /\ id ∉ ids (tasks (sched c))) /\
  match aivm_worker_scheduler_submit id j c with
  | (AIVM_WORKER_SCHEDULER_OK, c') =>
      ids (tasks (sched c')) ≡ₚ id :: ids (tasks (sched c)) /\
      mk_task id (Some j) AIVM_WORKER_TASK_QUEUED true ∈ tasks (sched c')
  | (r, c') => r = AIVM_WORKER_SCHEDULER_ERR_LIMIT /\ c' = c
  end /\
  forall c', rtc work c c' -> (aivm_worker_scheduler_submit id j c').1 = (aivm_worker_scheduler_submit id j c).1.
Proof.
  intros Ha Ho Hr. destruct (reached_ok _ _ _ _ Ha Ho Hr) as (Hok & El & Eo).
  assert (Hiff : forall d, system_ok d -> ((aivm_worker_scheduler_submit id j d).1 = AIVM_WORKER_SCHEDULER_OK <->
     outstanding_count (sched d) < outstanding_limit (sched d) /\ id ∉ ids (tasks (sched d))) /\
     ((aivm_worker_scheduler_submit id j d).1 = AIVM_WORKER_SCHEDULER_OK \/ (aivm_worker_scheduler_submit id j d).1 = AIVM_WORKER_SCHEDULER_ERR_LIMIT)).
  { intros d Hd. destruct (submit_run id j d Hd) as [(H1 & H2 & i & t & _ & _ & ->)|([H1|H1] & ->)]; cbn [fst].
    - by split; [|left].
    - split; [|by right]. split; [done|]. intros [H2 _]. lia.
    - split; [|by right]. split; [done|]. by intros [_ H2]. }
  split; [rewrite <- Eo; by apply Hiff|]. split.
  - destruct (submit_run id j c Hok) as [(H1 & H2 & i & t & Hi & Hocc & ->)|(_ & ->)]; [|done].
    set (t' := mk_task id (Some j) AIVM_WORKER_TASK_QUEUED true). destruct (slot_update _ i t t' Hi) as (rest & E1 & E2).
    cbn [wake_all with_sched set_count put_task set_tasks sched tasks]. split.
    + by rewrite E2, E1, !ids_cons, Hocc.
    + rewrite E2. by left.
  - intros c' Hw. assert (Hsame : ids (tasks (sched c')) ≡ₚ ids (tasks (sched c)) /\ system_ok c' /\
      outstanding_limit (sched c') = outstanding_limit (sched c)).
    { clear -Hw Hok. induction Hw as [|c c1 c' [w Hs] _ IH]; [done|].
      destruct (IH (worker_step_ok _ _ _ Hok Hs)) as (E1 & Hok' & E2). split; [rewrite E1; by eapply worker_step_ids|].
      split; [done|]. rewrite E2. by apply (step_limits c c1 (step_worker w c c1 Hs)). }
    destruct Hsame as (E & Hok' & El'). destruct (Hiff c Hok) as [I1 D1], (Hiff c' Hok') as [I2 D2].
    rewrite (co_count c (so_core c Hok)) in I1. rewrite (co_count c' (so_core c' Hok')), El' in I2.
    rewrite E in I2. destruct D1 as [D1|D1], D2 as [D2|D2]; rewrite D1, D2; try done.
    + rewrite D1 in I1. rewrite D2 in I2. destruct I1 as [I1 _], I2 as [_ I2]. by specialize (I2 (I1 eq_refl)).
    + rewrite D1 in I1. rewrite D2 in I2. destruct I2 as [I2 _], I1 as [_ I1]. by specialize (I1 (I2 eq_refl)).
Qed.

(** C26: the worker threads finish.  From every reachable system, however the
    worker threads are interleaved, they execute at most [work_left] locked regions
    before all of them wait or have returned.  Then, unless the scheduler is
    stopping, every accepted task is completed or canceled and nobody sleeps in
    await; when it is stopping, all workers have returned, so the joins of destroy
    end. *)
Theorem scheduler_drains env active outstanding c :
  0 <= active -> 0 <= outstanding -> reached env active outstanding c ->
  (forall n c', nsteps work n c c' -> Z.of_nat n <= work_left c) /\
  forall c', rtc work c c' -> (forall w, worker_step w c' = None) ->
    (stopping (sched c') = true -> Forall (fun w => w = WExited) (workers c')) /\
    (stopping (sched c') = false ->
       (forall t, t ∈ tasks (sched c') -> occupied t = true -> is_finished t = true) /\
       forall id, AAsleep id ∉ waiters c').
Proof.
  intros Ha Ho Hr. destruct (reached_ok _ _ _ _ Ha Ho Hr) as (Hok & _ & _). split.
  - intros n c' Hn. pose proof (work_bounded n c c' Hok Hn). pose proof (work_left_nonneg c'). lia.
  - intros c' Hw Hidle. apply idle_finished; [by eapply work_ok|done].
Qed.

End Invariant.

(** ** Example *)

Definition example_env : CreateEnv := mk_create_env true true true true true (fun _ => true).

(** Two workers, three slots; two submissions, of which one worker has taken the
    older, and one waiting thread. *)
Definition example_system : option (system nat) :=
  match aivm_worker_scheduler_create example_env 2 3 with
  | (_, Some c) =>
      let c := (aivm_worker_scheduler_submit 8 1%nat c).2 in
      let c := (aivm_worker_scheduler_submit 7 2%nat c).2 in
      c ← worker_step 1 c;
      await_step 0 (mk_system (sched c) (workers c) (waiters c ++ [AAwake 8]))
  | _ => None
  end.

Definition example_busy : system nat := default (mk_system (mk_scheduler 0 0 0 true []) [] []) example_system.

Lemma example_reached : reached example_env 2 3 example_busy.
Proof.
  eexists. split; [vm_compute; reflexivity|].
  eapply rtc_l; [apply (step_submit 8 1%nat)|]. eapply rtc_l; [apply (step_submit 7 2%nat)|].
  eapply rtc_l; [apply (step_worker 1%nat); vm_compute; reflexivity|].
  eapply rtc_l; [apply (step_await_call 8)|]. eapply rtc_l; [apply (step_await 0%nat); vm_compute; reflexivity|].
  apply rtc_refl.
Qed.

Lemma scheduler_reachable_ok_witness :
  outstanding_count (sched example_busy) = 2 /\ AAsleep 8 ∈ waiters example_busy /\ unfinished (tasks (sched example_busy)) 8.
Proof.
  destruct (scheduler_reachable_ok example_env 2 3 example_busy ltac:(lia) ltac:(lia) example_reached)
    as ([H1 _] & _ & _ & _ & Hw).
  assert (Hin : AAsleep 8 ∈ waiters example_busy) by (apply list_elem_of_In; left; reflexivity).
  split; [exact H1|]. split; [exact Hin|]. exact (Hw 8 Hin).
Defined.

Lemma submit_admission_witness :
  (aivm_worker_scheduler_submit 9 3%nat example_busy).1 = AIVM_WORKER_SCHEDULER_OK /\
  outstanding_count (sched example_busy) < 3.
Proof.
  destruct (submit_admission example_env 2 3 example_busy 9 3%nat ltac:(lia) ltac:(lia) example_reached) as ([H1 _] & _).
  assert (Hs : (aivm_worker_scheduler_submit 9 3%nat example_busy).1 = AIVM_WORKER_SCHEDULER_OK) by (vm_compute; reflexivity).
  split; [exact Hs|]. apply H1, Hs.
Defined.

Lemma scheduler_drains_witness :
  work_left example_busy = 13 /\ (forall n c', nsteps work n example_busy c' -> Z.of_nat n <= 13).
Proof.
  split; [done|]. intros n c' Hn. destruct (scheduler_drains example_env 2 3 example_busy ltac:(lia) ltac:(lia) example_reached) as [H _].
  specialize (H n c' Hn). change (work_left example_busy) with 13 in H. exact H.
Defined.
