(* ===== verification/RemoteChannel.v ===== *)
(** * The remote channel codec

    src/src/remote/aivm_remote_channel.c.  A frame is a nine-byte header (type,
    request id, payload length) and a payload.  The encoders write into the caller's
    buffer; a write outside it is [COob].  A text field is the content of a char
    array up to its terminator. *)

From S2P Require Import Prelude.

Definition AIVM_REMOTE_MAX_CAPS : Z := 16.
Definition AIVM_REMOTE_MAX_TEXT : Z := 64.
Definition AIVM_REMOTE_MAX_ERROR_TEXT : Z := 128.
Definition AIVM_REMOTE_HEADER_SIZE : Z := 9.

Inductive AivmRemoteMessageType :=
  | AIVM_REMOTE_MSG_HELLO | AIVM_REMOTE_MSG_WELCOME | AIVM_REMOTE_MSG_DENY
  | AIVM_REMOTE_MSG_CALL | AIVM_REMOTE_MSG_RESULT | AIVM_REMOTE_MSG_ERROR.

Definition message_type_code (t : AivmRemoteMessageType) : Z :=
  match t with
  | AIVM_REMOTE_MSG_HELLO => 1 | AIVM_REMOTE_MSG_WELCOME => 2 | AIVM_REMOTE_MSG_DENY => 3
  | AIVM_REMOTE_MSG_CALL => 16 | AIVM_REMOTE_MSG_RESULT => 17 | AIVM_REMOTE_MSG_ERROR => 18
  end.

Inductive AivmRemoteCodecStatus :=
  | AIVM_REMOTE_CODEC_OK | AIVM_REMOTE_CODEC_ERR_NULL | AIVM_REMOTE_CODEC_ERR_SHORT
  | AIVM_REMOTE_CODEC_ERR_OVERFLOW | AIVM_REMOTE_CODEC_ERR_TYPE | AIVM_REMOTE_CODEC_ERR_FORMAT.

(** The result of a codec function: its outputs, a status other than OK, or an
    access outside a buffer. *)
Inductive codec (A : Type) :=
  | COk (a : A)
  | CErr (s : AivmRemoteCodecStatus)
  | COob.
Arguments COk {A} a.
Arguments CErr {A} s.
Arguments COob {A}.

Definition cbind {A B} (m : codec A) (f : A -> codec B) : codec B :=
  match m with COk a => f a | CErr s => CErr s | COob => COob end.

Notation "'let?' x := m 'in' k" := (cbind m (fun x => k))
  (at level 10, x pattern, m at level 100, k at level 200, only parsing) : aivm_scope.
Open Scope aivm_scope.

(** ** Messages *)

Record AivmRemoteHello := mk_hello {
  hello_version : Z; client_name : list Z; requested_caps : list (list Z) }.
Record AivmRemoteWelcome := mk_welcome { welcome_version : Z; granted : list (list Z) }.
Record AivmRemoteDeny := mk_deny { deny_code : Z; deny_message : list Z }.
Record AivmRemoteCall := mk_call { call_cap : list Z; call_op : list Z; call_value : Z }.
Record AivmRemoteResult := mk_result { result_value : Z }.
Record AivmRemoteError := mk_error { error_code : Z; error_message : list Z }.

(** ** Bytes *)

Definition le_bytes (n : nat) (v : Z) : list Z :=
  map (fun i => Z.land (Z.shiftr v (8 * Z.of_nat i)) 255) (seq 0 n).

(** Bytes stored from [index] on. *)
Definition write_at (out : list Z) (index : Z) (bs : list Z) : codec (list Z) :=
  if (0 <=? index) && (index + zlen bs <=? zlen out)
  then COk (ztake index out ++ bs ++ zdrop (index + zlen bs) out)
  else COob.

Definition write_u16_le (out : list Z) (index v : Z) : codec (list Z) := write_at out index (le_bytes 2 v).
Definition write_u32_le (out : list Z) (index v : Z) : codec (list Z) := write_at out index (le_bytes 4 v).
Definition write_i64_le (out : list Z) (index v : Z) : codec (list Z) := write_at out index (le_bytes 8 (u64 v)).

(** The value of [n] bytes from [index] on, lowest first. *)
Fixpoint read_le (n : nat) (bytes : list Z) (index : Z) : codec Z :=
  match n with
  | O => COk 0
  | S n' =>
      match zget bytes index with
      | None => COob
      | Some b => let? rest := read_le n' bytes (index + 1) in COk (Z.lor b (Z.shiftl rest 8))
      end
  end.

Definition read_u16_le (bytes : list Z) (index : Z) : codec Z := read_le 2 bytes index.
Definition read_u32_le (bytes : list Z) (index : Z) : codec Z := read_le 4 bytes index.
Definition read_i64_le (bytes : list Z) (index : Z) : codec Z :=
  let? u := read_le 8 bytes index in COk (i64_of_u64 u).

(** [strlen] of the array is the length of its content. *)
Definition write_string (out : list Z) (index : Z) (text : list Z) (max_text : Z) : codec (list Z * Z) :=
  let len := zlen text in
  if (max_text <? len) || (65535 <? len) then CErr AIVM_REMOTE_CODEC_ERR_OVERFLOW
  else if zlen out <? index + 2 + len then CErr AIVM_REMOTE_CODEC_ERR_SHORT
  else
    let? out := write_u16_le out index len in
    let index := index + 2 in
    if 0 <? len then let? out := write_at out index text in COk (out, index + len)
    else COk (out, index).

(** The bytes copied to the array; what a C string function sees of them is [cstr]. *)
Definition read_string (bytes : list Z) (index out_capacity max_text : Z) : codec (list Z * Z) :=
  if out_capacity =? 0 then CErr AIVM_REMOTE_CODEC_ERR_OVERFLOW
  else if zlen bytes <? index + 2 then CErr AIVM_REMOTE_CODEC_ERR_SHORT
  else
    let? len := read_u16_le bytes index in
    let index := index + 2 in
    if (max_text <? len) || (out_capacity <? len + 1) then CErr AIVM_REMOTE_CODEC_ERR_OVERFLOW
    else if zlen bytes <? index + len then CErr AIVM_REMOTE_CODEC_ERR_SHORT
    else COk (cstr (ztake len (zdrop index bytes)), index + len).

Definition write_header (type id payload_length : Z) (out : list Z) : codec (list Z) :=
  if zlen out <? AIVM_REMOTE_HEADER_SIZE then CErr AIVM_REMOTE_CODEC_ERR_SHORT
  else
    let? out := write_at out 0 [type] in
    let? out := write_u32_le out 1 id in
    write_u32_le out 5 payload_length.

Record AivmRemoteFrameHeader := mk_header { header_type : Z; header_id : Z; header_payload_length : Z }.

Definition read_header (bytes : list Z) : codec AivmRemoteFrameHeader :=
  if zlen bytes <? AIVM_REMOTE_HEADER_SIZE then CErr AIVM_REMOTE_CODEC_ERR_SHORT
  else
    match zget bytes 0 with
    | None => COob
    | Some type =>
        let? id := read_u32_le bytes 1 in
        let? payload_length := read_u32_le bytes 5 in
        if negb (payload_length + AIVM_REMOTE_HEADER_SIZE =? zlen bytes) then CErr AIVM_REMOTE_CODEC_ERR_FORMAT
        else COk (mk_header type id payload_length)
    end.

Definition check_type (h : AivmRemoteFrameHeader) (expected : AivmRemoteMessageType) : codec unit :=
  if header_type h =? message_type_code expected then COk tt else CErr AIVM_REMOTE_CODEC_ERR_TYPE.

(** The header in front of a payload that ends at [index]; the frame's length. *)
Definition finish_frame (t : AivmRemoteMessageType) (id index : Z) (out : list Z) : codec (list Z * Z) :=
  let? out := write_header (message_type_code t) id (u32 (index - AIVM_REMOTE_HEADER_SIZE)) out in
  COk (out, index).

Fixpoint write_strings (out : list Z) (index : Z) (texts : list (list Z)) : codec (list Z * Z) :=
  match texts with
  | [] => COk (out, index)
  | text :: rest =>
      let? (out, index) := write_string out index text AIVM_REMOTE_MAX_TEXT in write_strings out index rest
  end.

Fixpoint read_strings (n : nat) (bytes : list Z) (index : Z) : codec (list (list Z) * Z) :=
  match n with
  | O => COk ([], index)
  | S n' =>
      let? (text, index) := read_string bytes index (AIVM_REMOTE_MAX_TEXT + 1) AIVM_REMOTE_MAX_TEXT in
      let? (rest, index) := read_strings n' bytes index in
      COk (text :: rest, index)
  end.

(** ** HELLO *)

Definition aivm_remote_encode_hello (id : Z) (m : AivmRemoteHello) (out : list Z) : codec (list Z * Z) :=
  let count := zlen (requested_caps m) in
  if AIVM_REMOTE_MAX_CAPS <? count then CErr AIVM_REMOTE_CODEC_ERR_OVERFLOW
  else
    let? (out, index) := write_string out AIVM_REMOTE_HEADER_SIZE (client_name m) AIVM_REMOTE_MAX_TEXT in
    if zlen out <? index + 2 + 4 then CErr AIVM_REMOTE_CODEC_ERR_SHORT
    else
      let? out := write_u16_le out index (hello_version m) in
      let? out := write_u32_le out (index + 2) count in
      let? (out, index) := write_strings out (index + 2 + 4) (requested_caps m) in
      finish_frame AIVM_REMOTE_MSG_HELLO id index out.

Definition aivm_remote_decode_hello (bytes : list Z) : codec (Z * AivmRemoteHello) :=
  let? header := read_header bytes in
  let? _ := check_type header AIVM_REMOTE_MSG_HELLO in
  let? (name, index) := read_string bytes AIVM_REMOTE_HEADER_SIZE (AIVM_REMOTE_MAX_TEXT + 1) AIVM_REMOTE_MAX_TEXT in
  if zlen bytes <? index + 2 + 4 then CErr AIVM_REMOTE_CODEC_ERR_SHORT
  else
    let? version := read_u16_le bytes index in
    let? count := read_u32_le bytes (index + 2) in
    if AIVM_REMOTE_MAX_CAPS <? count then CErr AIVM_REMOTE_CODEC_ERR_OVERFLOW
    else
      let? (caps, index) := read_strings (Z.to_nat count) bytes (index + 2 + 4) in
      if negb (index =? zlen bytes) then CErr AIVM_REMOTE_CODEC_ERR_FORMAT
      else COk (header_id header, mk_hello version name caps).

(** ** WELCOME *)

Definition aivm_remote_encode_welcome (id : Z) (m : AivmRemoteWelcome) (out : list Z) : codec (list Z * Z) :=
  let count := zlen (granted m) in
  let index := AIVM_REMOTE_HEADER_SIZE in
  if AIVM_REMOTE_MAX_CAPS <? count then CErr AIVM_REMOTE_CODEC_ERR_OVERFLOW
  else if zlen out <? index + 2 + 4 then CErr AIVM_REMOTE_CODEC_ERR_SHORT
  else
    let? out := write_u16_le out index (welcome_version m) in
    let? out := write_u32_le out (index + 2) count in
    let? (out, index) := write_strings out (index + 2 + 4) (granted m) in
    finish_frame AIVM_REMOTE_MSG_WELCOME id index out.

Definition aivm_remote_decode_welcome (bytes : list Z) : codec (Z * AivmRemoteWelcome) :=
  let? header := read_header bytes in
  let? _ := check_type header AIVM_REMOTE_MSG_WELCOME in
  let index := AIVM_REMOTE_HEADER_SIZE in
  if zlen bytes <? index + 2 + 4 then CErr AIVM_REMOTE_CODEC_ERR_SHORT
  else
    let? version := read_u16_le bytes index in
    let? count := read_u32_le bytes (index + 2) in
    if AIVM_REMOTE_MAX_CAPS <? count then CErr AIVM_REMOTE_CODEC_ERR_OVERFLOW
    else
      let? (caps, index) := read_strings (Z.to_nat count) bytes (index + 2 + 4) in
      if negb (index =? zlen bytes) then CErr AIVM_REMOTE_CODEC_ERR_FORMAT
      else COk (header_id header, mk_welcome version caps).

(** ** DENY and ERROR, which have the same layout *)

Definition encode_code_message (t : AivmRemoteMessageType) (id code : Z) (text out : list Z) : codec (list Z * Z) :=
  let index := AIVM_REMOTE_HEADER_SIZE in
  if zlen out <? index + 4 then CErr AIVM_REMOTE_CODEC_ERR_SHORT
  else
    let? out := write_u32_le out index code in
    let? (out, index) := write_string out (index + 4) text AIVM_REMOTE_MAX_ERROR_TEXT in
    finish_frame t id index out.

Definition decode_code_message (t : AivmRemoteMessageType) (bytes : list Z) : codec (Z * Z * list Z) :=
  let? header := read_header bytes in
  let? _ := check_type header t in
  let index := AIVM_REMOTE_HEADER_SIZE in
  if zlen bytes <? index + 4 then CErr AIVM_REMOTE_CODEC_ERR_SHORT
  else
    let? code := read_u32_le bytes index in
    let? (text, index) := read_string bytes (index + 4) (AIVM_REMOTE_MAX_ERROR_TEXT + 1) AIVM_REMOTE_MAX_ERROR_TEXT in
    if negb (index =? zlen bytes) then CErr AIVM_REMOTE_CODEC_ERR_FORMAT
    else COk (header_id header, code, text).

Definition aivm_remote_encode_deny (id : Z) (m : AivmRemoteDeny) (out : list Z) : codec (list Z * Z) :=
  encode_code_message AIVM_REMOTE_MSG_DENY id (deny_code m) (deny_message m) out.
Definition aivm_remote_decode_deny (bytes : list Z) : codec (Z * AivmRemoteDeny) :=
  let? (id, code, text) := decode_code_message AIVM_REMOTE_MSG_DENY bytes in COk (id, mk_deny code text).
Definition aivm_remote_encode_error (id : Z) (m : AivmRemoteError) (out : list Z) : codec (list Z * Z) :=
  encode_code_message AIVM_REMOTE_MSG_ERROR id (error_code m) (error_message m) out.
Definition aivm_remote_decode_error (bytes : list Z) : codec (Z * AivmRemoteError) :=
  let? (id, code, text) := decode_code_message AIVM_REMOTE_MSG_ERROR bytes in COk (id, mk_error code text).

(** ** CALL and RESULT *)

Definition aivm_remote_encode_call (id : Z) (m : AivmRemoteCall) (out : list Z) : codec (list Z * Z) :=
  let? (out, index) := write_string out AIVM_REMOTE_HEADER_SIZE (call_cap m) AIVM_REMOTE_MAX_TEXT in
  let? (out, index) := write_string out index (call_op m) AIVM_REMOTE_MAX_TEXT in
  if zlen out <? index + 8 then CErr AIVM_REMOTE_CODEC_ERR_SHORT
  else
    let? out := write_i64_le out index (call_value m) in
    finish_frame AIVM_REMOTE_MSG_CALL id (index + 8) out.

Definition aivm_remote_decode_call (bytes : list Z) : codec (Z * AivmRemoteCall) :=
  let? header := read_header bytes in
  let? _ := check_type header AIVM_REMOTE_MSG_CALL in
  let? (cap, index) := read_string bytes AIVM_REMOTE_HEADER_SIZE (AIVM_REMOTE_MAX_TEXT + 1) AIVM_REMOTE_MAX_TEXT in
  let? (op, index) := read_string bytes index (AIVM_REMOTE_MAX_TEXT + 1) AIVM_REMOTE_MAX_TEXT in
  if negb (index + 8 =? zlen bytes) then CErr AIVM_REMOTE_CODEC_ERR_FORMAT
  else
    let? value := read_i64_le bytes index in
    COk (header_id header, mk_call cap op value).

Definition aivm_remote_encode_result (id : Z) (m : AivmRemoteResult) (out : list Z) : codec (list Z * Z) :=
  if zlen out <? AIVM_REMOTE_HEADER_SIZE + 8 then CErr AIVM_REMOTE_CODEC_ERR_SHORT
  else
    let? out := write_i64_le out AIVM_REMOTE_HEADER_SIZE (result_value m) in
    let? out := write_header (message_type_code AIVM_REMOTE_MSG_RESULT) id 8 out in
    COk (out, AIVM_REMOTE_HEADER_SIZE + 8).

Definition aivm_remote_decode_result (bytes : list Z) : codec (Z * AivmRemoteResult) :=
  let? header := read_header bytes in
  let? _ := check_type header AIVM_REMOTE_MSG_RESULT in
  if negb (zlen bytes =? AIVM_REMOTE_HEADER_SIZE + 8) then CErr AIVM_REMOTE_CODEC_ERR_FORMAT
  else
    let? value := read_i64_le bytes AIVM_REMOTE_HEADER_SIZE in
    COk (header_id header, mk_result value).

(** ** Little-endian numbers *)

Lemma le_bytes_S n v : le_bytes (S n) v = Z.land v 255 :: le_bytes n (Z.shiftr v 8).
Proof.
  unfold le_bytes. cbn [seq map]. rewrite Z.shiftr_0_r. f_equal. rewrite <- seq_shift, map_map. apply map_ext. intros i.
  rewrite Z.shiftr_shiftr by lia. do 2 f_equal. lia.
Qed.

Lemma le_bytes_length n v : zlen (le_bytes n v) = Z.of_nat n.
Proof. unfold le_bytes, zlen. rewrite length_map, length_seq. done. Qed.

Lemma le_bytes_ok n v : bytes_ok (le_bytes n v).
Proof.
  unfold le_bytes. apply Forall_map, Forall_forall. intros i _. change 255 with (2 ^ 8 - 1).
  rewrite land_ones_mod by lia. unfold is_byte. apply Z.mod_pos_bound. lia.
Qed.

Lemma read_le_written n : forall pre post v, 0 <= v < 2 ^ (8 * Z.of_nat n) ->
  read_le n (pre ++ le_bytes n v ++ post) (zlen pre) = COk v.
Proof.
  induction n as [|n IH]; intros pre post v Hv; cbn [read_le]; [cbn in Hv; f_equal; lia|].
  rewrite le_bytes_S. rewrite zget_lookup by apply zlen_nonneg.
  rewrite lookup_app_r by (unfold zlen; lia). replace (_ - _)%nat with 0%nat by (unfold zlen; lia). cbn [lookup app list_lookup].
  assert (Hn : 0 <= Z.shiftr v 8 < 2 ^ (8 * Z.of_nat n)).
  { rewrite Z.shiftr_div_pow2 by lia. split; [apply Z.div_pos; lia|]. apply Z.div_lt_upper_bound; [lia|].
    rewrite <- Z.pow_add_r by lia. replace (8 + 8 * Z.of_nat n) with (8 * Z.of_nat (S n)) by lia. lia. }
  specialize (IH (pre ++ [Z.land v 255]) post _ Hn). rewrite <- app_assoc, zlen_app in IH.
  change (zlen [Z.land v 255]) with 1 in IH. cbn [app] in IH. rewrite IH. cbn [cbind]. f_equal.
  rewrite Z.lor_comm. change 255 with (2 ^ 8 - 1). rewrite land_ones_mod by lia.
  rewrite lor_shiftl_add by (try apply Z.mod_pos_bound; lia). rewrite Z.shiftr_div_pow2 by lia.
  pose proof (Z.div_mod v (2 ^ 8)). lia.
Qed.

Lemma read_le_total n : forall bytes index, bytes_ok bytes -> 0 <= index -> index + Z.of_nat n <= zlen bytes ->
  exists v, read_le n bytes index = COk v /\ 0 <= v < 2 ^ (8 * Z.of_nat n).
Proof.
  induction n as [|n IH]; intros bytes index Hb H0 Hl; cbn [read_le]; [by exists 0|].
  destruct (zget_is_Some bytes index) as [b Hx]; [lia|]. rewrite Hx.
  destruct (IH bytes (index + 1) Hb ltac:(lia) ltac:(lia)) as (v & -> & Hv). cbn [cbind].
  assert (Hbyte : 0 <= b < 2 ^ 8).
  { rewrite zget_lookup in Hx by lia. unfold bytes_ok in Hb. rewrite Forall_lookup in Hb. by apply (Hb _ _ Hx). }
  exists (Z.lor b (Z.shiftl v 8)). split; [done|]. rewrite Z.lor_comm, lor_shiftl_add by lia.
  replace (8 * Z.of_nat (S n)) with (8 * Z.of_nat n + 8) by lia. rewrite Z.pow_add_r by lia. nia.
Qed.

(** ** Writing in order *)

Lemma write_at_append pre rest bs : zlen bs <= zlen rest ->
  write_at (pre ++ rest) (zlen pre) bs = COk (pre ++ bs ++ zdrop (zlen bs) rest).
Proof.
  intros Hl. unfold write_at. pose proof (zlen_nonneg pre). rewrite zlen_app.
  destruct (_ && _) eqn:E; [|lia]. f_equal. unfold ztake, zdrop, zlen. rewrite Nat2Z.id, take_app_length.
  do 2 f_equal. replace (Z.to_nat (Z.of_nat (length pre) + Z.of_nat (length bs))) with (length pre + length bs)%nat by lia.
  rewrite Nat2Z.id, drop_app. rewrite drop_ge by lia. cbn. f_equal. lia.
Qed.

Definition encoded_string (text : list Z) : list Z := le_bytes 2 (zlen text) ++ text.

Lemma encoded_string_length text : zlen (encoded_string text) = 2 + zlen text.
Proof. unfold encoded_string. rewrite zlen_app, le_bytes_length. lia. Qed.

(** A string is appended, or is too long for its field or for the buffer. *)
Lemma write_string_run pre rest text max : max <= 65535 ->
  write_string (pre ++ rest) (zlen pre) text max =
    if max <? zlen text then CErr AIVM_REMOTE_CODEC_ERR_OVERFLOW
    else if zlen rest <? zlen (encoded_string text) then CErr AIVM_REMOTE_CODEC_ERR_SHORT
    else COk ((pre ++ encoded_string text) ++ zdrop (zlen (encoded_string text)) rest, zlen (pre ++ encoded_string text)).
Proof.
  intros Hmax. unfold write_string. rewrite zlen_app, encoded_string_length. pose proof (zlen_nonneg text).
  destruct (Z.ltb_spec max (zlen text)); [done|]. destruct (Z.ltb_spec 65535 (zlen text)); [lia|]. cbn [orb].
  destruct (Z.ltb_spec (zlen rest) (2 + zlen text)).
  { destruct (Z.ltb_spec (zlen pre + zlen rest) (zlen pre + 2 + zlen text)); [done|lia]. }
  destruct (Z.ltb_spec (zlen pre + zlen rest) (zlen pre + 2 + zlen text)); [lia|].
  unfold write_u16_le. rewrite write_at_append by (rewrite le_bytes_length; lia). cbn [cbind].
  unfold encoded_string. rewrite (zlen_app pre), zlen_app, le_bytes_length. change (Z.of_nat 2) with 2.
  assert (Hidx : zlen pre + 2 = zlen (pre ++ le_bytes 2 (zlen text))) by (rewrite zlen_app, le_bytes_length; done).
  destruct (Z.ltb_spec 0 (zlen text)) as [Hp|Hz].
  - rewrite app_assoc, Hidx, write_at_append by (rewrite zlen_zdrop; lia). cbn [cbind].
    rewrite zdrop_zdrop by lia. rewrite <- !app_assoc. do 2 f_equal. rewrite zlen_app, le_bytes_length. lia.
  - assert (text = []) as -> by (destruct text; [done|unfold zlen in Hz; cbn in Hz; lia]).
    cbn [app]. rewrite app_nil_r. rewrite zlen_nil, Z.add_0_r. rewrite <- app_assoc. done.
Qed.

(** A number is appended. *)
Lemma write_le_run n pre rest v : Z.of_nat n <= zlen rest ->
  write_at (pre ++ rest) (zlen pre) (le_bytes n v) = COk ((pre ++ le_bytes n v) ++ zdrop (Z.of_nat n) rest).
Proof. intros Hl. rewrite write_at_append by (by rewrite le_bytes_length). by rewrite le_bytes_length, <- app_assoc. Qed.

(** ** No access outside the buffers *)

(** [m] stays inside, and its outputs satisfy [P]. *)
Definition inside {A} (m : codec A) (P : A -> Prop) : Prop :=
  match m with COk a => P a | CErr _ => True | COob => False end.

Lemma inside_bind {A B} (m : codec A) (f : A -> codec B) P Q :
  inside m P -> (forall a, P a -> inside (f a) Q) -> inside (cbind m f) Q.
Proof. destruct m; cbn; auto. Qed.

Lemma inside_weaken {A} (m : codec A) (P Q : A -> Prop) : inside m P -> (forall a, P a -> Q a) -> inside m Q.
Proof. destruct m; cbn; auto. Qed.

(** A buffer of [n] bytes filled up to an index. *)
Definition filled (n : Z) (r : list Z * Z) : Prop := zlen r.1 = n /\ 0 <= r.2 <= n.

Lemma write_at_inside out index bs : 0 <= index -> index + zlen bs <= zlen out ->
  inside (write_at out index bs) (fun out' => zlen out' = zlen out).
Proof.
  intros H0 Hl. unfold write_at. destruct (_ && _) eqn:E; [|lia]. cbn. pose proof (zlen_nonneg bs).
  rewrite !zlen_app, zlen_ztake, zlen_zdrop by lia. lia.
Qed.

Lemma write_string_inside out index text max : 0 <= index ->
  inside (write_string out index text max) (filled (zlen out)).
Proof.
  intros Hi. unfold write_string. pose proof (zlen_nonneg text). destruct (_ || _); [done|].
  destruct (Z.ltb_spec (zlen out) (index + 2 + zlen text)); [done|].
  eapply inside_bind; [apply write_at_inside; [lia|rewrite le_bytes_length; lia]|]. intros out1 H1. cbn beta in H1 |- *.
  destruct (0 <? zlen text).
  - eapply inside_bind; [apply write_at_inside; lia|]. intros out2 H2. cbn beta in H2. unfold filled. cbn. lia.
  - unfold filled. cbn. lia.
Qed.

Lemma write_strings_inside texts : forall out index, 0 <= index <= zlen out ->
  inside (write_strings out index texts) (filled (zlen out)).
Proof.
  induction texts as [|text texts IH]; intros out index Hi; cbn [write_strings]; [by split|].
  eapply inside_bind; [apply write_string_inside; lia|]. intros [out1 i1] [H1 H2]. cbn in H1, H2. rewrite <- H1. apply IH. lia.
Qed.

Lemma finish_inside t id index out : 0 <= index <= zlen out -> inside (finish_frame t id index out) (filled (zlen out)).
Proof.
  intros Hi. unfold finish_frame, write_header, AIVM_REMOTE_HEADER_SIZE.
  eapply (inside_bind _ _ (fun o => zlen o = zlen out)).
  - destruct (Z.ltb_spec (zlen out) 9); [done|].
    eapply inside_bind; [apply write_at_inside; [lia|unfold zlen at 1; cbn [length]; lia]|]. intros o1 E1. cbn beta in E1.
    eapply inside_bind; [apply write_at_inside; rewrite ?le_bytes_length; lia|]. intros o2 E2. cbn beta in E2.
    eapply inside_weaken; [apply write_at_inside; rewrite ?le_bytes_length; lia|]. intros o3 E3. cbn beta in *. lia.
  - intros o E. cbn beta in E. unfold filled. cbn. lia.
Qed.

Lemma read_string_inside bytes index cap max : bytes_ok bytes -> 0 <= index <= zlen bytes ->
  inside (read_string bytes index cap max) (fun r => cstr_ok r.1 /\ zlen r.1 <= max /\ index + 2 <= r.2 <= zlen bytes).
Proof.
  intros Hb Hi. unfold read_string. destruct (cap =? 0); [done|]. destruct (Z.ltb_spec (zlen bytes) (index + 2)); [done|].
  destruct (read_le_total 2 bytes index Hb) as (len & E & Hlen); [lia|lia|]. unfold read_u16_le. rewrite E. cbn [cbind].
  destruct (_ || _) eqn:Eo; [done|]. destruct (Z.ltb_spec (zlen bytes) (index + 2 + len)); [done|]. cbn.
  assert (Hs : bytes_ok (ztake len (zdrop (index + 2) bytes))) by (by apply Forall_take, Forall_drop).
  split; [by apply cstr_cstr_ok|]. split; [|lia].
  assert (Hc : forall l, zlen (cstr l) <= zlen l).
  { clear. induction l as [|x l IH]; [done|]. cbn [cstr]. destruct (x =? 0); rewrite ?zlen_nil, ?zlen_cons; pose proof (zlen_nonneg l); lia. }
  etransitivity; [apply Hc|]. etransitivity; [apply zlen_ztake_le; lia|]. lia.
Qed.

Lemma read_strings_inside n : forall bytes index, bytes_ok bytes -> 0 <= index <= zlen bytes ->
  inside (read_strings n bytes index) (fun r => length r.1 = n /\ Forall (fun x => cstr_ok x /\ zlen x <= AIVM_REMOTE_MAX_TEXT) r.1 /\
    0 <= r.2 <= zlen bytes).
Proof.
  induction n as [|n IH]; intros bytes index Hb Hi; cbn [read_strings]; [by split|].
  eapply inside_bind; [by apply read_string_inside|]. intros [text i1] (Hc & Hl & H1). cbn in Hc, Hl, H1.
  eapply inside_bind; [apply IH; [done|lia]|]. intros [rest i2] (Hn & Hr & H2). cbn in Hn, Hr, H2 |- *.
  split; [lia|]. split; [|done]. by constructor.
Qed.

Definition id_ok (id : Z) : Prop := 0 <= id < 2 ^ 32.

Lemma read_header_inside bytes : bytes_ok bytes ->
  inside (read_header bytes) (fun h => id_ok (header_id h) /\ AIVM_REMOTE_HEADER_SIZE <= zlen bytes).
Proof.
  intros Hb. unfold read_header, AIVM_REMOTE_HEADER_SIZE. destruct (Z.ltb_spec (zlen bytes) 9); [done|].
  destruct (zget_is_Some bytes 0) as [t ->]; [lia|].
  destruct (read_le_total 4 bytes 1 Hb) as (id & E & Hid); [lia|lia|]. unfold read_u32_le. rewrite E. cbn [cbind].
  destruct (read_le_total 4 bytes 5 Hb) as (n & E2 & Hn); [lia|lia|]. rewrite E2. cbn [cbind].
  by destruct (negb _).
Qed.

Lemma check_type_inside h t : inside (check_type h t) (fun _ => True).
Proof. unfold check_type. by destruct (_ =? _). Qed.

(** ** Messages of every kind *)

Inductive remote_message :=
  | MHello (m : AivmRemoteHello) | MWelcome (m : AivmRemoteWelcome) | MDeny (m : AivmRemoteDeny)
  | MCall (m : AivmRemoteCall) | MResult (m : AivmRemoteResult) | MError (m : AivmRemoteError).

Definition kind_of (m : remote_message) : AivmRemoteMessageType :=
  match m with
  | MHello _ => AIVM_REMOTE_MSG_HELLO | MWelcome _ => AIVM_REMOTE_MSG_WELCOME | MDeny _ => AIVM_REMOTE_MSG_DENY
  | MCall _ => AIVM_REMOTE_MSG_CALL | MResult _ => AIVM_REMOTE_MSG_RESULT | MError _ => AIVM_REMOTE_MSG_ERROR
  end.

Definition encode_message (id : Z) (m : remote_message) (out : list Z) : codec (list Z * Z) :=
  match m with
  | MHello m => aivm_remote_encode_hello id m out
  | MWelcome m => aivm_remote_encode_welcome id m out
  | MDeny m => aivm_remote_encode_deny id m out
  | MCall m => aivm_remote_encode_call id m out
  | MResult m => aivm_remote_encode_result id m out
  | MError m => aivm_remote_encode_error id m out
  end.

Definition tag {A} (f : A -> remote_message) (r : codec (Z * A)) : codec (Z * remote_message) :=
  let? (id, m) := r in COk (id, f m).

Definition decode_message (t : AivmRemoteMessageType) (bytes : list Z) : codec (Z * remote_message) :=
  match t with
  | AIVM_REMOTE_MSG_HELLO => tag MHello (aivm_remote_decode_hello bytes)
  | AIVM_REMOTE_MSG_WELCOME => tag MWelcome (aivm_remote_decode_welcome bytes)
  | AIVM_REMOTE_MSG_DENY => tag MDeny (aivm_remote_decode_deny bytes)
  | AIVM_REMOTE_MSG_CALL => tag MCall (aivm_remote_decode_call bytes)
  | AIVM_REMOTE_MSG_RESULT => tag MResult (aivm_remote_decode_result bytes)
  | AIVM_REMOTE_MSG_ERROR => tag MError (aivm_remote_decode_error bytes)
  end.

(** Fields within the width of their types and the length of their arrays. *)
Definition text_ok (max : Z) (text : list Z) : Prop := cstr_ok text /\ zlen text <= max.
Definition caps_ok (caps : list (list Z)) : Prop :=
  zlen caps <= AIVM_REMOTE_MAX_CAPS /\ Forall (text_ok AIVM_REMOTE_MAX_TEXT) caps.

Definition message_ok (m : remote_message) : Prop :=
  match m with
  | MHello m => 0 <= hello_version m < 2 ^ 16 /\ text_ok AIVM_REMOTE_MAX_TEXT (client_name m) /\ caps_ok (requested_caps m)
  | MWelcome m => 0 <= welcome_version m < 2 ^ 16 /\ caps_ok (granted m)
  | MDeny m => id_ok (deny_code m) /\ text_ok AIVM_REMOTE_MAX_ERROR_TEXT (deny_message m)
  | MCall m => text_ok AIVM_REMOTE_MAX_TEXT (call_cap m) /\ text_ok AIVM_REMOTE_MAX_TEXT (call_op m) /\ is_int64 (call_value m)
  | MResult m => is_int64 (result_value m)
  | MError m => id_ok (error_code m) /\ text_ok AIVM_REMOTE_MAX_ERROR_TEXT (error_message m)
  end.

(** ** Layout *)

Definition payload_of (m : remote_message) : list Z :=
  match m with
  | MHello m => encoded_string (client_name m) ++ le_bytes 2 (hello_version m) ++ le_bytes 4 (zlen (requested_caps m)) ++
                flat_map encoded_string (requested_caps m)
  | MWelcome m => le_bytes 2 (welcome_version m) ++ le_bytes 4 (zlen (granted m)) ++ flat_map encoded_string (granted m)
  | MDeny m => le_bytes 4 (deny_code m) ++ encoded_string (deny_message m)
  | MCall m => encoded_string (call_cap m) ++ encoded_string (call_op m) ++ le_bytes 8 (u64 (call_value m))
  | MResult m => le_bytes 8 (u64 (result_value m))
  | MError m => le_bytes 4 (error_code m) ++ encoded_string (error_message m)
  end.

Definition head_of (t : AivmRemoteMessageType) (id payload_length : Z) : list Z :=
  [message_type_code t] ++ le_bytes 4 id ++ le_bytes 4 payload_length.

Definition frame_of (id : Z) (m : remote_message) : list Z :=
  head_of (kind_of m) id (zlen (payload_of m)) ++ payload_of m.

Lemma head_length t id n : zlen (head_of t id n) = 9.
Proof. unfold head_of. rewrite !zlen_app, !le_bytes_length. done. Qed.

Lemma write_header_run t id n hdr rest : zlen hdr = 9 ->
  write_header (message_type_code t) id n (hdr ++ rest) = COk (head_of t id n ++ rest).
Proof.
  intros Hh. unfold write_header, AIVM_REMOTE_HEADER_SIZE. pose proof (zlen_nonneg rest).
  destruct (Z.ltb_spec (zlen (hdr ++ rest)) 9) as [Hlt|_]; [rewrite zlen_app in Hlt; lia|].
  assert (Hlen : 9 <= zlen (hdr ++ rest)) by (rewrite zlen_app; lia).
  pose proof (write_at_append [] (hdr ++ rest) [message_type_code t]) as W1. cbn [app] in W1.
  change (zlen (@nil Z)) with 0 in W1. change (zlen [message_type_code t]) with 1 in W1.
  rewrite W1 by lia. cbn [cbind]. unfold write_u32_le.
  pose proof (write_le_run 4 [message_type_code t] (zdrop 1 (hdr ++ rest)) id) as W2.
  change (zlen [message_type_code t]) with 1 in W2. cbn [app] in W2 |- *. rewrite W2 by (rewrite zlen_zdrop by lia; lia).
  cbn [cbind]. pose proof (write_le_run 4 (message_type_code t :: le_bytes 4 id) (zdrop 4 (zdrop 1 (hdr ++ rest))) n) as W3.
  rewrite zlen_cons, le_bytes_length in W3. change (Z.of_nat 4 + 1) with 5 in W3. change (Z.of_nat 4) with 4 in *.
  cbn [app] in W3 |- *. rewrite W3 by (rewrite zlen_zdrop by (rewrite zlen_zdrop by lia; lia); rewrite zlen_zdrop by lia; lia).
  rewrite !zdrop_zdrop by lia. change (1 + (4 + 4)) with 9. replace (zdrop 9 (hdr ++ rest)) with rest by (rewrite <- Hh; by rewrite zdrop_app).
  unfold head_of. cbn [app]. by rewrite <- !app_assoc.
Qed.

Lemma finish_run t id hdr payload rest : zlen hdr = 9 -> zlen payload < 2 ^ 32 ->
  finish_frame t id (zlen (hdr ++ payload)) ((hdr ++ payload) ++ rest) =
    COk ((head_of t id (zlen payload) ++ payload) ++ rest, zlen (head_of t id (zlen payload) ++ payload)).
Proof.
  intros Hh Hp. unfold finish_frame. rewrite <- !app_assoc, write_header_run by done. cbn [cbind].
  rewrite !zlen_app, head_length, Hh. unfold AIVM_REMOTE_HEADER_SIZE, u32.
  replace (9 + zlen payload - 9) with (zlen payload) by lia. rewrite Z.mod_small; [done|].
  pose proof (zlen_nonneg payload). lia.
Qed.

(** ** Reading what was written *)

Lemma read_head t id n payload : id_ok id -> n = zlen payload -> n < 2 ^ 32 ->
  read_header (head_of t id n ++ payload) = COk (mk_header (message_type_code t) id n).
Proof.
  intros Hid -> Hn. unfold read_header, AIVM_REMOTE_HEADER_SIZE. rewrite zlen_app, head_length. pose proof (zlen_nonneg payload).
  destruct (Z.ltb_spec (9 + zlen payload) 9); [lia|].
  assert (E : head_of t id (zlen payload) ++ payload =
    [message_type_code t] ++ le_bytes 4 id ++ le_bytes 4 (zlen payload) ++ payload).
  { unfold head_of. by rewrite <- !app_assoc. }
  rewrite E. change (zget ([message_type_code t] ++ _) 0) with (Some (message_type_code t)). unfold read_u32_le.
  pose proof (read_le_written 4 [message_type_code t] (le_bytes 4 (zlen payload) ++ payload) id Hid) as R1.
  change (zlen [message_type_code t]) with 1 in R1. rewrite R1. cbn [cbind].
  pose proof (read_le_written 4 ([message_type_code t] ++ le_bytes 4 id) payload (zlen payload)) as R2.
  rewrite zlen_app, le_bytes_length, <- !app_assoc in R2. change (zlen [message_type_code t] + Z.of_nat 4) with 5 in R2.
  rewrite R2 by (change (8 * Z.of_nat 4) with 32; lia). cbn [cbind].
  destruct (Z.eqb_spec (zlen payload + 9) (9 + zlen payload)); [done|lia].
Qed.

Lemma read_string_run pre text post max : text_ok max text -> max <= 65535 ->
  read_string (pre ++ encoded_string text ++ post) (zlen pre) (max + 1) max = COk (text, zlen (pre ++ encoded_string text)).
Proof.
  intros [Hc Hl] Hmax. unfold read_string. pose proof (zlen_nonneg text). pose proof (zlen_nonneg post).
  destruct (Z.eqb_spec (max + 1) 0); [lia|]. rewrite !zlen_app, encoded_string_length.
  destruct (Z.ltb_spec (zlen pre + (2 + zlen text + zlen post)) (zlen pre + 2)); [lia|].
  unfold read_u16_le, encoded_string. rewrite <- app_assoc. rewrite read_le_written by (change (8 * Z.of_nat 2) with 16; lia).
  cbn [cbind]. destruct ((max <? zlen text) || (max + 1 <? zlen text + 1)) eqn:E; [lia|].
  destruct (Z.ltb_spec (zlen pre + (2 + zlen text + zlen post)) (zlen pre + 2 + zlen text)); [lia|].
  assert (Ed : zdrop (zlen pre + 2) (pre ++ le_bytes 2 (zlen text) ++ text ++ post) = text ++ post).
  { rewrite app_assoc. replace (zlen pre + 2) with (zlen (pre ++ le_bytes 2 (zlen text))) by (by rewrite zlen_app, le_bytes_length).
    apply zdrop_app. }
  rewrite Ed. unfold ztake, zlen at 1. rewrite Nat2Z.id, take_app_length.
  rewrite cstr_idem by (by apply cstr_ok_nonzero). do 2 f_equal. lia.
Qed.

Lemma read_strings_run texts : forall pre post, Forall (text_ok AIVM_REMOTE_MAX_TEXT) texts ->
  read_strings (length texts) (pre ++ flat_map encoded_string texts ++ post) (zlen pre) =
    COk (texts, zlen (pre ++ flat_map encoded_string texts)).
Proof.
  induction texts as [|text texts IH]; intros pre post Ht; cbn [read_strings flat_map length]; [by rewrite app_nil_r|].
  apply Forall_cons in Ht as [Ht Hts]. rewrite <- (app_assoc (encoded_string text)).
  rewrite read_string_run by (done || unfold AIVM_REMOTE_MAX_TEXT; lia). cbn [cbind].
  rewrite (app_assoc pre). rewrite IH by done. cbn [cbind]. by rewrite <- app_assoc.
Qed.

Lemma write_strings_run texts : forall pre rest, Forall (text_ok AIVM_REMOTE_MAX_TEXT) texts ->
  zlen (flat_map encoded_string texts) <= zlen rest ->
  write_strings (pre ++ rest) (zlen pre) texts =
    COk ((pre ++ flat_map encoded_string texts) ++ zdrop (zlen (flat_map encoded_string texts)) rest,
         zlen (pre ++ flat_map encoded_string texts)).
Proof.
  induction texts as [|text texts IH]; intros pre rest Ht Hl; cbn [write_strings flat_map] in *.
  { by rewrite app_nil_r. }
  apply Forall_cons in Ht as [[_ Ht] Hts]. rewrite zlen_app in Hl. pose proof (zlen_nonneg (flat_map encoded_string texts)).
  pose proof (zlen_nonneg (encoded_string text)).
  rewrite write_string_run by (unfold AIVM_REMOTE_MAX_TEXT; lia).
  destruct (Z.ltb_spec AIVM_REMOTE_MAX_TEXT (zlen text)); [lia|].
  destruct (Z.ltb_spec (zlen rest) (zlen (encoded_string text))); [lia|]. cbn [cbind].
  rewrite IH by (done || rewrite zlen_zdrop; lia). rewrite zdrop_zdrop by lia.
  rewrite <- (zlen_app (encoded_string text)). by rewrite <- !app_assoc.
Qed.

Lemma write_string_fits pre rest text max : max <= 65535 -> text_ok max text -> zlen (encoded_string text) <= zlen rest ->
  write_string (pre ++ rest) (zlen pre) text max =
    COk ((pre ++ encoded_string text) ++ zdrop (zlen (encoded_string text)) rest, zlen (pre ++ encoded_string text)).
Proof.
  intros Hm [_ Ht] Hl. rewrite write_string_run by done. destruct (Z.ltb_spec max (zlen text)); [lia|].
  by destruct (Z.ltb_spec (zlen rest) (zlen (encoded_string text))); [lia|].
Qed.

(** ** Encoding *)

Lemma caps_length caps : caps_ok caps -> 0 <= zlen (flat_map encoded_string caps) <= 66 * 16.
Proof.
  intros [Hn Ht]. unfold AIVM_REMOTE_MAX_CAPS in Hn. pose proof (zlen_nonneg (flat_map encoded_string caps)).
  assert (zlen (flat_map encoded_string caps) <= 66 * zlen caps); [|lia]. clear -Ht.
  induction Ht as [|text texts [_ Ht] _ IH]; [done|]. cbn [flat_map]. rewrite zlen_app, encoded_string_length, zlen_cons.
  unfold AIVM_REMOTE_MAX_TEXT in Ht. lia.
Qed.

Lemma payload_bound m : message_ok m -> 0 <= zlen (payload_of m) < 2 ^ 32.
Proof.
  intros Hm. split; [apply zlen_nonneg|].
  destruct m as [m|m|m|m|m|m]; cbn [message_ok payload_of] in *; unfold text_ok, AIVM_REMOTE_MAX_TEXT, AIVM_REMOTE_MAX_ERROR_TEXT in Hm;
    rewrite ?zlen_app, ?encoded_string_length, ?le_bytes_length;
    try (pose proof (caps_length (requested_caps m) ltac:(tauto)));
    try (pose proof (caps_length (granted m) ltac:(tauto))); lia.
Qed.

(** The steps of an encoder on a buffer whose first bytes are in place. *)
Lemma put_le n pre rest v i : i = zlen pre -> Z.of_nat n <= zlen rest ->
  write_at (pre ++ rest) i (le_bytes n v) = COk ((pre ++ le_bytes n v) ++ zdrop (Z.of_nat n) rest).
Proof. intros ->. apply write_le_run. Qed.

Lemma put_string pre rest text max i : i = zlen pre -> max <= 65535 -> text_ok max text -> zlen (encoded_string text) <= zlen rest ->
  write_string (pre ++ rest) i text max =
    COk ((pre ++ encoded_string text) ++ zdrop (zlen (encoded_string text)) rest, zlen (pre ++ encoded_string text)).
Proof. intros ->. apply write_string_fits. Qed.

Lemma put_strings texts pre rest i : i = zlen pre -> Forall (text_ok AIVM_REMOTE_MAX_TEXT) texts ->
  zlen (flat_map encoded_string texts) <= zlen rest ->
  write_strings (pre ++ rest) i texts =
    COk ((pre ++ flat_map encoded_string texts) ++ zdrop (zlen (flat_map encoded_string texts)) rest,
         zlen (pre ++ flat_map encoded_string texts)).
Proof. intros ->. apply write_strings_run. Qed.

Lemma finish_at t id hdr payload rest out i : zlen hdr = 9 -> 0 <= zlen payload < 2 ^ 32 ->
  out = hdr ++ payload ++ rest -> i = 9 + zlen payload ->
  finish_frame t id i out =
    COk ((head_of t id (zlen payload) ++ payload) ++ rest, zlen (head_of t id (zlen payload) ++ payload)).
Proof.
  intros Hh Hp -> ->. rewrite app_assoc. replace (9 + zlen payload) with (zlen (hdr ++ payload)) by (rewrite zlen_app; lia).
  apply finish_run; [done|lia].
Qed.

Ltac lens := rewrite ?zlen_zdrop; rewrite ?zlen_app, ?encoded_string_length, ?le_bytes_length; try lia.

Section EncodeRun.

Context (id : Z) (hdr rest : list Z) (Hh : zlen hdr = 9).

Definition written (m : remote_message) : codec (list Z * Z) :=
  COk (frame_of id m ++ zdrop (zlen (payload_of m)) rest, zlen (frame_of id m)).

(** The last step of an encoder, with the payload in place. *)
Lemma finish_written m o i : message_ok m -> o = hdr ++ payload_of m ++ zdrop (zlen (payload_of m)) rest ->
  i = 9 + zlen (payload_of m) -> finish_frame (kind_of m) id i o = written m.
Proof. intros Hm. apply finish_at; [done|by apply payload_bound]. Qed.

Lemma encode_hello_run m : message_ok (MHello m) -> zlen (payload_of (MHello m)) <= zlen rest ->
  encode_message id (MHello m) (hdr ++ rest) = written (MHello m).
Proof.
  intros Hm Hr. pose proof Hm as (Hv & Hname & Hcaps). pose proof (caps_length _ Hcaps) as Hcl. pose proof Hcaps as [Hn Hts].
  pose proof (zlen_nonneg (client_name m)). cbn [payload_of] in Hr. rewrite !zlen_app, !le_bytes_length, encoded_string_length in Hr.
  cbn [encode_message]. unfold aivm_remote_encode_hello, AIVM_REMOTE_HEADER_SIZE.
  destruct (Z.ltb_spec AIVM_REMOTE_MAX_CAPS (zlen (requested_caps m))); [lia|].
  rewrite put_string by (rewrite ?encoded_string_length; done || unfold AIVM_REMOTE_MAX_TEXT; lia). cbn [cbind].
  destruct (Z.ltb_spec (zlen ((hdr ++ encoded_string (client_name m)) ++ zdrop (zlen (encoded_string (client_name m))) rest))
    (zlen (hdr ++ encoded_string (client_name m)) + 2 + 4)) as [Hlt|_].
  { rewrite !zlen_app, encoded_string_length, zlen_zdrop in Hlt by lia. lia. }
  unfold write_u16_le, write_u32_le.
  rewrite put_le by (done || rewrite encoded_string_length, zlen_zdrop; lia). cbn [cbind].
  rewrite put_le by (rewrite ?encoded_string_length, ?zdrop_zdrop, ?zlen_zdrop, ?zlen_app, ?le_bytes_length by lia; lia). cbn [cbind].
  rewrite put_strings by (done || rewrite ?encoded_string_length, ?zdrop_zdrop, ?zlen_zdrop, ?zlen_app, ?le_bytes_length by lia; lia). cbn [cbind].
  apply (finish_written (MHello m)); [done| |].
  - cbn [payload_of]. rewrite !zlen_app, !le_bytes_length, encoded_string_length, !zdrop_zdrop by lia. rewrite <- !app_assoc.
    do 6 f_equal; lia.
  - cbn [payload_of]. rewrite !zlen_app, !le_bytes_length, encoded_string_length. lia.
Qed.

Lemma encode_welcome_run m : message_ok (MWelcome m) -> zlen (payload_of (MWelcome m)) <= zlen rest ->
  encode_message id (MWelcome m) (hdr ++ rest) = written (MWelcome m).
Proof.
  intros Hm Hr. pose proof Hm as (Hv & Hcaps). pose proof (caps_length _ Hcaps) as Hcl. pose proof Hcaps as [Hn Hts].
  cbn [payload_of] in Hr. rewrite !zlen_app, !le_bytes_length in Hr.
  cbn [encode_message]. unfold aivm_remote_encode_welcome, AIVM_REMOTE_HEADER_SIZE.
  destruct (Z.ltb_spec AIVM_REMOTE_MAX_CAPS (zlen (granted m))); [lia|].
  destruct (Z.ltb_spec (zlen (hdr ++ rest)) (9 + 2 + 4)) as [Hlt|_]; [rewrite zlen_app in Hlt; lia|].
  unfold write_u16_le, write_u32_le. rewrite put_le by lia. cbn [cbind].
  rewrite put_le by (rewrite ?zlen_zdrop, ?zlen_app, ?le_bytes_length by lia; lia). cbn [cbind].
  rewrite put_strings by (done || rewrite ?zdrop_zdrop, ?zlen_zdrop, ?zlen_app, ?le_bytes_length by lia; lia). cbn [cbind].
  apply (finish_written (MWelcome m)); [done| |].
  - cbn [payload_of]. rewrite !zlen_app, !le_bytes_length, !zdrop_zdrop by lia. rewrite <- !app_assoc. do 5 f_equal; lia.
  - cbn [payload_of]. rewrite !zlen_app, !le_bytes_length. lia.
Qed.

Lemma encode_code_run m t code text : (m = MDeny (mk_deny code text) /\ t = AIVM_REMOTE_MSG_DENY \/
    m = MError (mk_error code text) /\ t = AIVM_REMOTE_MSG_ERROR) ->
  message_ok m -> zlen (payload_of m) <= zlen rest -> encode_code_message t id code text (hdr ++ rest) = written m.
Proof.
  intros Hcase Hm Hr.
  assert (payload_of m = le_bytes 4 code ++ encoded_string text /\ kind_of m = t /\ text_ok AIVM_REMOTE_MAX_ERROR_TEXT text)
    as (Ep & Ek & Ht) by (destruct Hcase as [[-> ->]|[-> ->]]; split; [done|split; [done|apply Hm]| |split; [done|apply Hm]]; done).
  rewrite Ep, zlen_app, le_bytes_length, encoded_string_length in Hr. pose proof (zlen_nonneg text).
  unfold encode_code_message, AIVM_REMOTE_HEADER_SIZE.
  destruct (Z.ltb_spec (zlen (hdr ++ rest)) (9 + 4)) as [Hlt|_]; [rewrite zlen_app in Hlt; lia|].
  unfold write_u32_le. rewrite put_le by lia. cbn [cbind].
  rewrite put_string by (done || rewrite ?encoded_string_length, ?zlen_zdrop, ?zlen_app, ?le_bytes_length by lia;
    unfold AIVM_REMOTE_MAX_ERROR_TEXT; lia). cbn [cbind].
  rewrite <- Ek. apply finish_written; [done| |]; rewrite Ep.
  - rewrite !zlen_app, !le_bytes_length, !zdrop_zdrop by (rewrite ?encoded_string_length; lia). rewrite <- !app_assoc. do 4 f_equal; lia.
  - rewrite !zlen_app, !le_bytes_length. lia.
Qed.

Lemma encode_call_run m : message_ok (MCall m) -> zlen (payload_of (MCall m)) <= zlen rest ->
  encode_message id (MCall m) (hdr ++ rest) = written (MCall m).
Proof.
  intros Hm Hr. pose proof Hm as (Hc & Ho & Hv). cbn [payload_of] in Hr.
  rewrite !zlen_app, !le_bytes_length, !encoded_string_length in Hr.
  pose proof (zlen_nonneg (call_cap m)). pose proof (zlen_nonneg (call_op m)).
  cbn [encode_message]. unfold aivm_remote_encode_call, AIVM_REMOTE_HEADER_SIZE.
  rewrite put_string by (rewrite ?encoded_string_length; done || unfold AIVM_REMOTE_MAX_TEXT; lia). cbn [cbind].
  rewrite put_string by (done || rewrite ?encoded_string_length, ?zlen_zdrop by lia; unfold AIVM_REMOTE_MAX_TEXT; lia). cbn [cbind].
  rewrite zdrop_zdrop by (rewrite encoded_string_length; lia).
  match goal with |- context [?a <? ?b] => destruct (Z.ltb_spec a b) as [Hlt|_] end.
  { rewrite !zlen_app, !encoded_string_length, zlen_zdrop in Hlt by lia. lia. }
  unfold write_i64_le. rewrite put_le by (done || rewrite !encoded_string_length, zlen_zdrop by lia; lia). cbn [cbind].
  apply (finish_written (MCall m)); [done| |]; cbn [payload_of].
  - rewrite !zlen_app, !le_bytes_length, !zdrop_zdrop by (rewrite ?encoded_string_length; lia). rewrite <- !app_assoc. do 5 f_equal; lia.
  - rewrite !zlen_app, !le_bytes_length. lia.
Qed.

Lemma encode_result_run m : message_ok (MResult m) -> zlen (payload_of (MResult m)) <= zlen rest ->
  encode_message id (MResult m) (hdr ++ rest) = written (MResult m).
Proof.
  intros Hm Hr. cbn [payload_of] in Hr. rewrite le_bytes_length in Hr.
  cbn [encode_message]. unfold aivm_remote_encode_result, AIVM_REMOTE_HEADER_SIZE.
  destruct (Z.ltb_spec (zlen (hdr ++ rest)) (9 + 8)) as [Hlt|_]; [rewrite zlen_app in Hlt; lia|].
  unfold write_i64_le. rewrite put_le by lia. cbn [cbind]. rewrite <- app_assoc, write_header_run by done. cbn [cbind].
  unfold written, frame_of. cbn [payload_of kind_of]. rewrite zlen_app, head_length, le_bytes_length.
  change (Z.of_nat 8) with 8. by rewrite <- app_assoc.
Qed.

Lemma encode_fits m : message_ok m -> zlen (payload_of m) <= zlen rest -> encode_message id m (hdr ++ rest) = written m.
Proof.
  destruct m as [m|m|[code text]|m|m|[code text]].
  - apply encode_hello_run.
  - apply encode_welcome_run.
  - apply encode_code_run. by left.
  - apply encode_call_run.
  - apply encode_result_run.
  - apply encode_code_run. by right.
Qed.

End EncodeRun.

(** A valid message is written as its frame; the rest of the buffer stays. *)
Lemma encode_run id m out : message_ok m -> zlen (frame_of id m) <= zlen out ->
  encode_message id m out = COk (frame_of id m ++ zdrop (zlen (frame_of id m)) out, zlen (frame_of id m)).
Proof.
  intros Hm Hl. pose proof (payload_bound m Hm) as Hp. unfold frame_of in Hl. rewrite zlen_app, head_length in Hl.
  rewrite <- (take_drop (Z.to_nat 9) out) at 1. fold (ztake 9 out) (zdrop 9 out).
  rewrite (encode_fits id (ztake 9 out) (zdrop 9 out)); [|apply zlen_ztake; lia|done|rewrite zlen_zdrop; lia].
  unfold written. do 3 f_equal. rewrite zdrop_zdrop by lia. unfold frame_of. by rewrite zlen_app, head_length.
Qed.

(** ** Decoding *)

(** Reading a field whose place in the frame is given. *)
Lemma get_le n F pre v post i : F = pre ++ le_bytes n v ++ post -> i = zlen pre -> 0 <= v < 2 ^ (8 * Z.of_nat n) ->
  read_le n F i = COk v.
Proof. intros -> ->. apply read_le_written. Qed.

Lemma get_string F pre text post max i : F = pre ++ encoded_string text ++ post -> i = zlen pre ->
  text_ok max text -> max <= 65535 ->
  read_string F i (max + 1) max = COk (text, zlen pre + zlen (encoded_string text)).
Proof. intros -> -> Ht Hm. rewrite <- zlen_app. by apply read_string_run. Qed.

Lemma get_strings F pre texts i : F = pre ++ flat_map encoded_string texts -> i = zlen pre ->
  Forall (text_ok AIVM_REMOTE_MAX_TEXT) texts ->
  read_strings (Z.to_nat (zlen texts)) F i = COk (texts, zlen F).
Proof.
  intros -> -> Ht. unfold zlen at 1. rewrite Nat2Z.id. pose proof (read_strings_run texts pre [] Ht) as R.
  by rewrite app_nil_r in R.
Qed.

Lemma i64_u64_roundtrip v : is_int64 v -> i64_of_u64 (u64 v) = v.
Proof.
  unfold is_int64, INT64_MIN, INT64_MAX, i64_of_u64, u64. intros Hv. destruct (Z.le_gt_cases 0 v).
  - rewrite Z.mod_small by lia. destruct (Z.ltb_spec v (2 ^ 63)); lia.
  - replace (v mod 2 ^ 64) with (v + 2 ^ 64).
    + destruct (Z.ltb_spec (v + 2 ^ 64) (2 ^ 63)); lia.
    + symmetry. rewrite <- (Z.mod_small (v + 2 ^ 64) (2 ^ 64)) by lia.
      replace (v + 2 ^ 64) with (v + 1 * 2 ^ 64) by lia. by rewrite Z.mod_add by lia.
Qed.

Lemma u64_bound v : 0 <= u64 v < 2 ^ 64.
Proof. unfold u64. apply Z.mod_pos_bound. lia. Qed.

Lemma check_type_same id n t : check_type (mk_header (message_type_code t) id n) t = COk tt.
Proof. unfold check_type. cbn. by rewrite Z.eqb_refl. Qed.

Section DecodeRun.

Context (id : Z) (Hid : id_ok id).

(** The steps every decoder starts with. *)
Lemma decode_head {A} m (f : AivmRemoteFrameHeader -> codec A) : message_ok m ->
  (let? header := read_header (frame_of id m) in let? _ := check_type header (kind_of m) in f header) =
    f (mk_header (message_type_code (kind_of m)) id (zlen (payload_of m))).
Proof.
  intros Hm. pose proof (payload_bound m Hm). unfold frame_of. rewrite read_head by (done || lia). cbn [cbind].
  by rewrite check_type_same.
Qed.

Lemma frame_length m : zlen (frame_of id m) = 9 + zlen (payload_of m).
Proof. unfold frame_of. by rewrite zlen_app, head_length. Qed.

Ltac place := unfold frame_of; cbn [payload_of]; rewrite <- ?app_assoc, ?app_nil_r; reflexivity.
Ltac at_index := unfold AIVM_REMOTE_HEADER_SIZE; rewrite ?zlen_app, ?head_length, ?le_bytes_length, ?encoded_string_length;
  try change (Z.of_nat 2) with 2; try change (Z.of_nat 4) with 4; lia.
Ltac no_branch := match goal with |- context [if ?b then _ else _] => destruct b eqn:?; [lia|] end.

Lemma decode_hello_run m : message_ok (MHello m) -> decode_message AIVM_REMOTE_MSG_HELLO (frame_of id (MHello m)) = COk (id, MHello m).
Proof.
  intros Hm. pose proof Hm as (Hv & Hname & Hn & Hts). pose proof (zlen_nonneg (flat_map encoded_string (requested_caps m))).
  pose proof (zlen_nonneg (requested_caps m)). pose proof (zlen_nonneg (client_name m)). unfold AIVM_REMOTE_MAX_CAPS in Hn.
  cbn [decode_message]. unfold aivm_remote_decode_hello. rewrite (decode_head (MHello m)) by done.
  pose proof (frame_length (MHello m)) as HF. cbn [payload_of] in HF. rewrite !zlen_app, !le_bytes_length, encoded_string_length in HF.
  set (Hd := head_of AIVM_REMOTE_MSG_HELLO id (zlen (payload_of (MHello m)))).
  rewrite (get_string _ Hd (client_name m) (le_bytes 2 (hello_version m) ++ le_bytes 4 (zlen (requested_caps m)) ++
    flat_map encoded_string (requested_caps m))); [|place|unfold Hd; at_index|done|done]. cbn [cbind].
  unfold Hd at 1. rewrite head_length, encoded_string_length. no_branch.
  unfold read_u16_le. rewrite (get_le 2 _ (Hd ++ encoded_string (client_name m)) (hello_version m) (le_bytes 4 (zlen (requested_caps m)) ++
    flat_map encoded_string (requested_caps m))); [|place|unfold Hd; at_index|done]. cbn [cbind].
  unfold read_u32_le. rewrite (get_le 4 _ (Hd ++ encoded_string (client_name m) ++ le_bytes 2 (hello_version m)) (zlen (requested_caps m))
    (flat_map encoded_string (requested_caps m))); [|place|unfold Hd; at_index|lia]. cbn [cbind].
  unfold AIVM_REMOTE_MAX_CAPS. no_branch.
  rewrite (get_strings _ (Hd ++ encoded_string (client_name m) ++ le_bytes 2 (hello_version m) ++ le_bytes 4 (zlen (requested_caps m))) _ _);
    [|place|unfold Hd; at_index|done]. cbn [cbind]. rewrite Z.eqb_refl. cbn. by destruct m.
Qed.

Lemma decode_welcome_run m : message_ok (MWelcome m) ->
  decode_message AIVM_REMOTE_MSG_WELCOME (frame_of id (MWelcome m)) = COk (id, MWelcome m).
Proof.
  intros Hm. pose proof Hm as (Hv & Hn & Hts). pose proof (zlen_nonneg (flat_map encoded_string (granted m))).
  pose proof (zlen_nonneg (granted m)). unfold AIVM_REMOTE_MAX_CAPS in Hn.
  cbn [decode_message]. unfold aivm_remote_decode_welcome. rewrite (decode_head (MWelcome m)) by done.
  pose proof (frame_length (MWelcome m)) as HF. cbn [payload_of] in HF. rewrite !zlen_app, !le_bytes_length in HF.
  set (Hd := head_of AIVM_REMOTE_MSG_WELCOME id (zlen (payload_of (MWelcome m)))). unfold AIVM_REMOTE_HEADER_SIZE. no_branch.
  unfold read_u16_le. rewrite (get_le 2 _ Hd (welcome_version m) (le_bytes 4 (zlen (granted m)) ++
    flat_map encoded_string (granted m))); [|place|unfold Hd; at_index|done]. cbn [cbind].
  unfold read_u32_le. rewrite (get_le 4 _ (Hd ++ le_bytes 2 (welcome_version m)) (zlen (granted m))
    (flat_map encoded_string (granted m))); [|place|unfold Hd; at_index|lia]. cbn [cbind].
  unfold AIVM_REMOTE_MAX_CAPS. no_branch.
  rewrite (get_strings _ (Hd ++ le_bytes 2 (welcome_version m) ++ le_bytes 4 (zlen (granted m))) _ _);
    [|place|unfold Hd; at_index|done]. cbn [cbind]. rewrite Z.eqb_refl. cbn. by destruct m.
Qed.

Lemma decode_code_run m code text : message_ok m -> payload_of m = le_bytes 4 code ++ encoded_string text ->
  id_ok code -> text_ok AIVM_REMOTE_MAX_ERROR_TEXT text ->
  decode_code_message (kind_of m) (frame_of id m) = COk (id, code, text).
Proof.
  intros Hm Ep Hc Ht. pose proof (zlen_nonneg text). unfold decode_code_message. rewrite (decode_head m) by done.
  pose proof (frame_length m) as HF. rewrite Ep, !zlen_app, le_bytes_length, encoded_string_length in HF.
  set (Hd := head_of (kind_of m) id (zlen (payload_of m))). unfold AIVM_REMOTE_HEADER_SIZE. no_branch.
  unfold read_u32_le. rewrite (get_le 4 _ Hd code (encoded_string text)); [|unfold frame_of, Hd; by rewrite Ep|unfold Hd; at_index|done]. cbn [cbind].
  rewrite (get_string _ (Hd ++ le_bytes 4 code) text []);
    [|unfold frame_of, Hd; by rewrite Ep, app_nil_r, <- app_assoc|unfold Hd; at_index|done|done]. cbn [cbind].
  rewrite HF, zlen_app, encoded_string_length, le_bytes_length. unfold Hd. rewrite head_length.
  match goal with |- context [negb ?b] => destruct b eqn:?; [|lia] end. done.
Qed.

Lemma decode_call_run m : message_ok (MCall m) -> decode_message AIVM_REMOTE_MSG_CALL (frame_of id (MCall m)) = COk (id, MCall m).
Proof.
  intros Hm. pose proof Hm as (Hc & Ho & Hv). cbn [decode_message]. unfold aivm_remote_decode_call. rewrite (decode_head (MCall m)) by done.
  pose proof (frame_length (MCall m)) as HF. cbn [payload_of] in HF. rewrite !zlen_app, !le_bytes_length, !encoded_string_length in HF.
  set (Hd := head_of AIVM_REMOTE_MSG_CALL id (zlen (payload_of (MCall m)))).
  rewrite (get_string _ Hd (call_cap m) (encoded_string (call_op m) ++ le_bytes 8 (u64 (call_value m))));
    [|place|unfold Hd; at_index|done|done]. cbn [cbind].
  rewrite (get_string _ (Hd ++ encoded_string (call_cap m)) (call_op m) (le_bytes 8 (u64 (call_value m))));
    [|place|unfold Hd; at_index|done|done]. cbn [cbind].
  rewrite zlen_app, !encoded_string_length. unfold Hd at 1. rewrite head_length.
  match goal with |- context [negb ?b] => destruct b eqn:?; [|lia] end. cbn [negb]. unfold read_i64_le.
  rewrite (get_le 8 _ (Hd ++ encoded_string (call_cap m) ++ encoded_string (call_op m)) (u64 (call_value m)) []);
    [|place|unfold Hd; at_index|apply u64_bound]. cbn [cbind]. rewrite i64_u64_roundtrip by done. cbn. by destruct m.
Qed.

Lemma decode_result_run m : message_ok (MResult m) ->
  decode_message AIVM_REMOTE_MSG_RESULT (frame_of id (MResult m)) = COk (id, MResult m).
Proof.
  intros Hm. cbn [decode_message]. unfold aivm_remote_decode_result. rewrite (decode_head (MResult m)) by done.
  pose proof (frame_length (MResult m)) as HF. cbn [payload_of] in HF. rewrite !le_bytes_length in HF.
  unfold AIVM_REMOTE_HEADER_SIZE. match goal with |- context [negb ?b] => destruct b eqn:?; [|lia] end. cbn [negb]. unfold read_i64_le.
  rewrite (get_le 8 _ (head_of AIVM_REMOTE_MSG_RESULT id (zlen (payload_of (MResult m)))) (u64 (result_value m)) []);
    [|place|at_index|apply u64_bound]. cbn [cbind]. rewrite i64_u64_roundtrip by done. cbn. by destruct m.
Qed.

Lemma decode_run m : message_ok m -> decode_message (kind_of m) (frame_of id m) = COk (id, m).
Proof.
  intros Hm. destruct m as [m|m|[code text]|m|m|[code text]]; cbn [kind_of].
  - by apply decode_hello_run.
  - by apply decode_welcome_run.
  - destruct Hm as [Hc Ht]. cbn [decode_message]. unfold aivm_remote_decode_deny.
    pose proof (decode_code_run (MDeny (mk_deny code text)) code text) as R. cbn [kind_of] in R. by rewrite R.
  - by apply decode_call_run.
  - by apply decode_result_run.
  - destruct Hm as [Hc Ht]. cbn [decode_message]. unfold aivm_remote_decode_error.
    pose proof (decode_code_run (MError (mk_error code text)) code text) as R. cbn [kind_of] in R. by rewrite R.
Qed.

End DecodeRun.

(** ** The codec stays inside its buffers *)

Section DecodeInside.

Context (bytes : list Z) (Hb : bytes_ok bytes).

(** The steps every decoder starts with. *)
Lemma head_inside {A} t (f : AivmRemoteFrameHeader -> codec A) P :
  (forall h, id_ok (header_id h) -> 9 <= zlen bytes -> inside (f h) P) ->
  inside (let? header := read_header bytes in let? _ := check_type header t in f header) P.
Proof.
  intros Hf. eapply inside_bind; [by apply read_header_inside|]. intros h [Hi Hl]. cbn beta in Hl.
  eapply inside_bind; [apply check_type_inside|]. intros _ _. by apply Hf.
Qed.

Lemma le_inside n i : 0 <= i -> i + Z.of_nat n <= zlen bytes -> inside (read_le n bytes i) (fun v => 0 <= v < 2 ^ (8 * Z.of_nat n)).
Proof. intros H0 Hl. destruct (read_le_total n bytes i Hb) as (v & -> & Hv); [lia|lia|]. exact Hv. Qed.

Lemma i64_inside i : 0 <= i -> i + 8 <= zlen bytes -> inside (read_i64_le bytes i) is_int64.
Proof.
  intros H0 Hl. unfold read_i64_le. eapply inside_bind; [apply le_inside; lia|]. intros u Hu. cbn beta in Hu.
  change (8 * Z.of_nat 8) with 64 in Hu. cbn. unfold i64_of_u64, is_int64, INT64_MIN, INT64_MAX.
  destruct (Z.ltb_spec u (2 ^ 63)); lia.
Qed.

(** A counted list of capabilities that ends the frame. *)
Lemma caps_inside {A} i (f : Z -> list (list Z) -> A) P : 0 <= i ->
  (forall v caps, 0 <= v < 2 ^ 16 -> caps_ok caps -> P (f v caps)) ->
  inside (if zlen bytes <? i + 2 + 4 then CErr AIVM_REMOTE_CODEC_ERR_SHORT
    else
      let? version := read_u16_le bytes i in
      let? count := read_u32_le bytes (i + 2) in
      if AIVM_REMOTE_MAX_CAPS <? count then CErr AIVM_REMOTE_CODEC_ERR_OVERFLOW
      else
        let? (caps, index) := read_strings (Z.to_nat count) bytes (i + 2 + 4) in
        if negb (index =? zlen bytes) then CErr AIVM_REMOTE_CODEC_ERR_FORMAT
        else COk (f version caps)) P.
Proof.
  intros Hi HP. destruct (Z.ltb_spec (zlen bytes) (i + 2 + 4)); [done|].
  eapply inside_bind; [apply le_inside; lia|]. intros v Hv. cbn beta in Hv.
  eapply inside_bind; [apply le_inside; lia|]. intros count Hc. cbn beta in Hc.
  destruct (Z.ltb_spec AIVM_REMOTE_MAX_CAPS count) as [|Hmax]; [done|].
  eapply inside_bind; [apply read_strings_inside; [done|lia]|]. intros [caps index] (Hn & Hts & _). cbn in Hn, Hts.
  destruct (negb _); [done|]. apply HP; [done|]. split; [unfold zlen; lia|exact Hts].
Qed.

Lemma decode_code_inside t : inside (decode_code_message t bytes)
  (fun r => id_ok r.1.1 /\ id_ok r.1.2 /\ text_ok AIVM_REMOTE_MAX_ERROR_TEXT r.2).
Proof.
  unfold decode_code_message. apply head_inside. intros h Hi Hl. unfold AIVM_REMOTE_HEADER_SIZE.
  destruct (Z.ltb_spec (zlen bytes) (9 + 4)); [done|].
  eapply inside_bind; [apply le_inside; lia|]. intros code Hc. cbn beta in Hc.
  eapply inside_bind; [apply read_string_inside; [done|lia]|]. intros [text index] (H1 & H2 & H3). cbn in H1, H2, H3.
  by destruct (negb _).
Qed.

Lemma decode_call_inside : inside (aivm_remote_decode_call bytes) (fun r => id_ok r.1 /\ message_ok (MCall r.2)).
Proof.
  unfold aivm_remote_decode_call. apply head_inside. intros h Hi Hl. unfold AIVM_REMOTE_HEADER_SIZE.
  eapply inside_bind; [apply read_string_inside; [done|lia]|]. intros [cap i1] (H1 & H2 & H3). cbn in H1, H2, H3.
  eapply inside_bind; [apply read_string_inside; [done|lia]|]. intros [op i2] (H4 & H5 & H6). cbn in H4, H5, H6.
  destruct (Z.eqb_spec (i2 + 8) (zlen bytes)); [|done]. cbn [negb].
  eapply inside_bind; [apply i64_inside; lia|]. intros v Hv. cbn. done.
Qed.

Lemma decode_inside t : inside (decode_message t bytes) (fun r => id_ok r.1 /\ message_ok r.2 /\ kind_of r.2 = t).
Proof.
  destruct t; cbn [decode_message]; unfold tag.
  - eapply (inside_bind _ _ (fun r => id_ok r.1 /\ message_ok (MHello r.2))); [|by intros [i m] [? ?]].
    unfold aivm_remote_decode_hello. apply head_inside. intros h Hi Hl. unfold AIVM_REMOTE_HEADER_SIZE.
    eapply inside_bind; [apply read_string_inside; [done|lia]|]. intros [name i1] (H1 & H2 & H3). cbn in H1, H2, H3.
    apply (caps_inside i1 (fun v caps => (header_id h, mk_hello v name caps))); [lia|]. intros v caps Hv Hcaps. done.
  - eapply (inside_bind _ _ (fun r => id_ok r.1 /\ message_ok (MWelcome r.2))); [|by intros [i m] [? ?]].
    unfold aivm_remote_decode_welcome. apply head_inside. intros h Hi Hl.
    apply (caps_inside AIVM_REMOTE_HEADER_SIZE (fun v caps => (header_id h, mk_welcome v caps))); [done|]. intros v caps Hv Hcaps. done.
  - unfold aivm_remote_decode_deny. eapply (inside_bind _ _ (fun r => id_ok r.1 /\ message_ok (MDeny r.2))); [|by intros [i m] [? ?]].
    eapply inside_bind; [apply decode_code_inside|]. intros [[i c] x] (H1 & H2 & H3). done.
  - eapply inside_bind; [apply decode_call_inside|]. by intros [i m] [? ?].
  - eapply (inside_bind _ _ (fun r => id_ok r.1 /\ message_ok (MResult r.2))); [|by intros [i m] [? ?]].
    unfold aivm_remote_decode_result. apply head_inside. intros h Hi Hl. unfold AIVM_REMOTE_HEADER_SIZE.
    destruct (Z.eqb_spec (zlen bytes) (9 + 8)); [|done]. cbn [negb]. eapply inside_bind; [apply i64_inside; lia|]. by intros v Hv.
  - unfold aivm_remote_decode_error. eapply (inside_bind _ _ (fun r => id_ok r.1 /\ message_ok (MError r.2))); [|by intros [i m] [? ?]].
    eapply inside_bind; [apply decode_code_inside|]. intros [[i c] x] (H1 & H2 & H3). done.
Qed.

End DecodeInside.

Lemma le_write_inside n out i v : 0 <= i -> i + Z.of_nat n <= zlen out ->
  inside (write_at out i (le_bytes n v)) (fun out' => zlen out' = zlen out).
Proof. intros H0 Hl. apply write_at_inside; [done|]. by rewrite le_bytes_length. Qed.

(** The fields after the caps count, and the header. *)
Lemma caps_write_inside t id out i v caps : 0 <= i ->
  inside (if zlen out <? i + 2 + 4 then CErr AIVM_REMOTE_CODEC_ERR_SHORT
    else
      let? out := write_u16_le out i v in
      let? out := write_u32_le out (i + 2) (zlen caps) in
      let? (out, index) := write_strings out (i + 2 + 4) caps in
      finish_frame t id index out) (filled (zlen out)).
Proof.
  intros Hi. destruct (Z.ltb_spec (zlen out) (i + 2 + 4)); [done|].
  eapply inside_bind; [apply le_write_inside; lia|]. intros o1 E1. cbn beta in E1.
  eapply inside_bind; [apply le_write_inside; lia|]. intros o2 E2. cbn beta in E2.
  eapply inside_bind; [apply write_strings_inside; lia|]. intros [o3 i3] [E3 H3]. cbn in E3, H3.
  replace (zlen out) with (zlen o3) by lia. apply finish_inside. lia.
Qed.

Lemma encode_code_inside t id code text out : inside (encode_code_message t id code text out) (filled (zlen out)).
Proof.
  unfold encode_code_message, AIVM_REMOTE_HEADER_SIZE. destruct (Z.ltb_spec (zlen out) (9 + 4)); [done|].
  eapply inside_bind; [apply le_write_inside; lia|]. intros o1 E1. cbn beta in E1.
  eapply inside_bind; [apply write_string_inside; lia|]. intros [o2 i2] [E2 H2]. cbn in E2, H2.
  replace (zlen out) with (zlen o2) by lia. apply finish_inside. lia.
Qed.

Lemma encode_inside id m out : inside (encode_message id m out) (filled (zlen out)).
Proof.
  destruct m as [m|m|m|m|m|m]; cbn [encode_message]; try apply encode_code_inside.
  - unfold aivm_remote_encode_hello. destruct (_ <? _); [done|].
    eapply inside_bind; [apply write_string_inside; done|]. intros [o1 i1] [E1 H1]. cbn in E1, H1.
    rewrite <- E1. apply caps_write_inside. lia.
  - unfold aivm_remote_encode_welcome. destruct (_ <? _); [done|]. by apply caps_write_inside.
  - unfold aivm_remote_encode_call.
    eapply inside_bind; [apply write_string_inside; done|]. intros [o1 i1] [E1 H1]. cbn in E1, H1.
    eapply inside_bind; [apply write_string_inside; lia|]. intros [o2 i2] [E2 H2]. cbn in E2, H2.
    destruct (Z.ltb_spec (zlen o2) (i2 + 8)); [done|].
    eapply inside_bind; [apply le_write_inside; lia|]. intros o3 E3. cbn beta in E3.
    replace (zlen out) with (zlen o3) by lia. apply finish_inside. lia.
  - unfold aivm_remote_encode_result, AIVM_REMOTE_HEADER_SIZE. destruct (Z.ltb_spec (zlen out) (9 + 8)); [done|].
    eapply inside_bind; [apply le_write_inside; lia|]. intros o1 E1. cbn beta in E1.
    pose proof (finish_inside AIVM_REMOTE_MSG_RESULT id 17 o1) as F. unfold finish_frame in F.
    rewrite <- E1. apply F. lia.
Qed.

(** ** The theorems *)

(** C27: a message of any of the six kinds whose fields fit their C
    types, written by its encoder into a buffer with room for its frame, is read back
    by its decoder from the bytes the encoder reported, with the same request id; the
    rest of the buffer keeps its bytes. *)
Theorem remote_roundtrip id m out : id_ok id -> message_ok m -> zlen (frame_of id m) <= zlen out ->
  exists out' n, encode_message id m out = COk (out', n) /\ n = zlen (frame_of id m) /\
    decode_message (kind_of m) (ztake n out') = COk (id, m) /\ zdrop n out' = zdrop n out.
Proof.
  intros Hid Hm Hl. eexists _, _. split; [by apply encode_run|]. split; [done|]. split.
  - rewrite ztake_app. by apply decode_run.
  - apply zdrop_app.
Qed.

(** C28: no encoder writes outside the caller's buffer, whatever the
    message, and the length it reports lies inside it; no decoder reads outside the
    bytes it is given, whatever they are, and what it accepts is a message of the kind
    it was asked for with every field within its type and its array. *)
Theorem remote_codec_inside t bytes id m out : bytes_ok bytes ->
  inside (decode_message t bytes) (fun r => id_ok r.1 /\ message_ok r.2 /\ kind_of r.2 = t) /\
  inside (encode_message id m out) (fun r => zlen r.1 = zlen out /\ 0 <= r.2 <= zlen out).
Proof. intros Hb. split; [by apply decode_inside|apply encode_inside]. Qed.

Definition sample_hello : remote_message := MHello (mk_hello 1 [99; 108; 105] [[102; 115]; []]).

Lemma remote_roundtrip_witness : exists out' n,
  encode_message 7 sample_hello (repeat 0 64) = COk (out', n) /\ n = zlen (frame_of 7 sample_hello) /\
  decode_message AIVM_REMOTE_MSG_HELLO (ztake n out') = COk (7, sample_hello) /\ zdrop n out' = zdrop n (repeat 0 64).
Proof.
  apply (remote_roundtrip 7 sample_hello (repeat 0 64)); [done| |by vm_compute].
  cbn. split; [done|]. split; [split; [repeat constructor|done]|]. split; [done|]. repeat constructor; done.
Defined.

Lemma remote_codec_inside_witness :
  inside (decode_message AIVM_REMOTE_MSG_HELLO (frame_of 7 sample_hello))
    (fun r => id_ok r.1 /\ message_ok r.2 /\ kind_of r.2 = AIVM_REMOTE_MSG_HELLO) /\
  inside (encode_message 7 sample_hello (repeat 0 20)) (fun r => zlen r.1 = zlen (repeat 0 20) /\ 0 <= r.2 <= zlen (repeat 0 20)).
Proof. apply (remote_codec_inside AIVM_REMOTE_MSG_HELLO (frame_of 7 sample_hello) 7 sample_hello). repeat (constructor; [by vm_compute|]). constructor. Defined.
