(* ===== verification/RemoteSession.v ===== *)
(** * Remote sessions and their transport

    src/src/remote/aivm_remote_session.c and aivm_remote_transport.c: the server side
    of a remote session, and the bridge that reads a frame from a transport, answers
    it and sends the response.  The transport is an interface ([Transport]); the
    length-prefixed standard streams are its instance.  Pointers are not NULL. *)

From S2P Require Import Prelude RemoteChannel.

Inductive AivmRemoteSessionStatus :=
  | AIVM_REMOTE_SESSION_OK | AIVM_REMOTE_SESSION_ERR_NULL | AIVM_REMOTE_SESSION_ERR_CODEC
  | AIVM_REMOTE_SESSION_ERR_STATE | AIVM_REMOTE_SESSION_ERR_OVERFLOW.

(** The capability arrays up to their counts. *)
Record AivmRemoteServerConfig := mk_config { proto_version : Z; allowed_caps : list (list Z) }.
Record AivmRemoteServerSession := mk_session {
  handshake_complete : bool; negotiated_proto_version : Z; granted_caps : list (list Z) }.

(** How a frame was answered: the output buffer and the response's length, a status
    other than OK, or an access outside a buffer. *)
Inductive answer :=
  | AnsSent (out : list Z) (out_length : Z)
  | AnsStatus (s : AivmRemoteSessionStatus)
  | AnsOob.

Definition session_status (r : codec (list Z * Z)) : answer :=
  match r with
  | COk (out, n) => AnsSent out n
  | CErr _ => AnsStatus AIVM_REMOTE_SESSION_ERR_CODEC
  | COob => AnsOob
  end.

(** [snprintf] of a string into an array of [size] chars. *)
Definition snprintf_s (size : Z) (text : list Z) : list Z := ztake (size - 1) text.

Definition cap_allowed (config : AivmRemoteServerConfig) (cap : list Z) : bool :=
  existsb (fun c => bool_decide (c = cap)) (allowed_caps config).
Definition cap_granted (session : AivmRemoteServerSession) (cap : list Z) : bool :=
  existsb (fun c => bool_decide (c = cap)) (granted_caps session).

Definition encode_error_frame (id error_code : Z) (message : string) (out : list Z) : answer :=
  session_status (aivm_remote_encode_error id
    (mk_error error_code (snprintf_s (AIVM_REMOTE_MAX_ERROR_TEXT + 1) (bytes_of_string message))) out).

Definition aivm_remote_server_session_init : AivmRemoteServerSession := mk_session false 0 [].

(** The loop over the requested capabilities. *)
Fixpoint grant_loop (config : AivmRemoteServerConfig) (requested granted : list (list Z)) : list (list Z) :=
  match requested with
  | [] => granted
  | cap :: rest =>
      if cap_allowed config cap && (zlen granted <? AIVM_REMOTE_MAX_CAPS)
      then grant_loop config rest (granted ++ [snprintf_s (AIVM_REMOTE_MAX_TEXT + 1) cap])
      else grant_loop config rest granted
  end.

Definition aivm_remote_server_process_frame (config : AivmRemoteServerConfig) (session : AivmRemoteServerSession)
    (input out : list Z) : AivmRemoteServerSession * answer :=
  if zlen input <? 1 then (session, AnsStatus AIVM_REMOTE_SESSION_ERR_CODEC)
  else if AIVM_REMOTE_MAX_CAPS <? zlen (allowed_caps config) then (session, AnsStatus AIVM_REMOTE_SESSION_ERR_OVERFLOW)
  else
    match zget input 0 with
    | None => (session, AnsOob)
    | Some type =>
        if type =? message_type_code AIVM_REMOTE_MSG_HELLO then
          match aivm_remote_decode_hello input with
          | COob => (session, AnsOob)
          | CErr _ => (session, AnsStatus AIVM_REMOTE_SESSION_ERR_CODEC)
          | COk (id, hello) =>
              let welcome := mk_welcome (proto_version config) (grant_loop config (requested_caps hello) []) in
              (mk_session true (welcome_version welcome) (map (snprintf_s (AIVM_REMOTE_MAX_TEXT + 1)) (granted welcome)),
               session_status (aivm_remote_encode_welcome id welcome out))
          end
        else if type =? message_type_code AIVM_REMOTE_MSG_CALL then
          match aivm_remote_decode_call input with
          | COob => (session, AnsOob)
          | CErr _ => (session, AnsStatus AIVM_REMOTE_SESSION_ERR_CODEC)
          | COk (id, call) =>
              (session,
               if negb (handshake_complete session)
               then encode_error_frame id 401 "remote session handshake is required before CALL." out
               else if negb (cap_granted session (call_cap call))
               then encode_error_frame id 403 "remote capability is not granted for this session." out
               else if bool_decide (call_cap call = bytes_of_string "cap.remote") &&
                       bool_decide (call_op call = bytes_of_string "echoInt")
               then session_status (aivm_remote_encode_result id (mk_result (call_value call)) out)
               else encode_error_frame id 404 "remote operation is not available." out)
          end
        else (session, encode_error_frame 0 400 "remote frame type is not supported." out)
    end.

(** ** The transport *)

Definition AIVM_REMOTE_TRANSPORT_MAX_FRAME : Z := 65536.

(** What the bridge relies on: a received frame fits the capacity it gave. *)
Class Transport (T : Type) := {
  recv_frame : T -> Z -> T * option (list Z);
  send_frame : T -> list Z -> T * bool;
  recv_fits : forall t cap t' bytes, 0 <= cap -> recv_frame t cap = (t', Some bytes) -> zlen bytes <= cap }.

Record AivmRemoteBridge (T : Type) := mk_bridge { session : AivmRemoteServerSession; transport : T }.
Arguments mk_bridge {T} _ _.
Arguments session {T} _.
Arguments transport {T} _.

(** [None] is an access outside a buffer, also when more was received than the local
    input buffer holds; [out_frame] is the local output buffer. *)
Definition aivm_remote_bridge_process_once `{Transport T} (config : AivmRemoteServerConfig) (out_frame : list Z)
    (b : AivmRemoteBridge T) : option (AivmRemoteBridge T * bool) :=
  match recv_frame (transport b) AIVM_REMOTE_TRANSPORT_MAX_FRAME with
  | (t, None) => Some (mk_bridge (session b) t, false)
  | (t, Some input) =>
      if AIVM_REMOTE_TRANSPORT_MAX_FRAME <? zlen input then None
      else
      match aivm_remote_server_process_frame config (session b) input out_frame with
      | (s, AnsOob) => None
      | (s, AnsStatus _) => Some (mk_bridge s t, false)
      | (s, AnsSent out n) =>
          let (t', ok) := send_frame t (ztake n out) in Some (mk_bridge s t', ok)
      end
  end.

(** ** Standard streams

    An input stream is the bytes still to come; an output stream holds what was
    written, how many more bytes it takes, and whether a flush succeeds. *)

Record out_stream := mk_out { written_bytes : list Z; room : Z; flush_ok : bool }.
Record stdio := mk_stdio { in_stream : list Z; out_file : out_stream }.

Definition fread (n : Z) (s : list Z) : list Z * list Z := (ztake n s, zdrop n s).

Definition fwrite (bytes : list Z) (o : out_stream) : Z * out_stream :=
  let n := Z.max 0 (Z.min (zlen bytes) (room o)) in
  (n, mk_out (written_bytes o ++ ztake n bytes) (room o - n) (flush_ok o)).

Definition aivm_remote_stdio_recv_frame (f : stdio) (out_capacity : Z) : stdio * option (list Z) :=
  let '(header, rest) := fread 4 (in_stream f) in
  let f := mk_stdio rest (out_file f) in
  if negb (zlen header =? 4) then (f, None)
  else
    match read_u32_le header 0 with
    | COk length =>
        if out_capacity <? length then (f, None)
        else if 0 <? length then
          let '(bytes, rest) := fread length (in_stream f) in
          let f := mk_stdio rest (out_file f) in
          if negb (zlen bytes =? length) then (f, None) else (f, Some bytes)
        else (f, Some [])
    | _ => (f, None)
    end.

Definition aivm_remote_stdio_send_frame (f : stdio) (bytes : list Z) : stdio * bool :=
  if 2 ^ 32 - 1 <? zlen bytes then (f, false)
  else
    let '(n, o) := fwrite (le_bytes 4 (zlen bytes)) (out_file f) in
    let f := mk_stdio (in_stream f) o in
    if negb (n =? 4) then (f, false)
    else if 0 <? zlen bytes then
      let '(n, o) := fwrite bytes o in
      let f := mk_stdio (in_stream f) o in
      if negb (n =? zlen bytes) then (f, false) else (f, flush_ok o)
    else (f, flush_ok o).

Global Program Instance stdio_transport : Transport stdio := {|
  recv_frame := aivm_remote_stdio_recv_frame; send_frame := aivm_remote_stdio_send_frame |}.
Next Obligation.
  intros f cap f' bytes Hcap. unfold aivm_remote_stdio_recv_frame, fread. destruct (negb _); [done|].
  destruct (read_u32_le _ 0) as [n| |]; [|done|done]. destruct (Z.ltb_spec cap n); [done|].
  destruct (Z.ltb_spec 0 n); cbn [in_stream out_file].
  - destruct (Z.eqb_spec (zlen (ztake n (zdrop 4 (in_stream f)))) n) as [E|]; cbn [negb]; [|done]. intros Heq. inversion Heq; subst. lia.
  - intros Heq. inversion Heq; subst. rewrite zlen_nil. lia.
Qed.

(** ** What a server promises *)

Definition config_ok (config : AivmRemoteServerConfig) : Prop :=
  0 <= proto_version config < 2 ^ 16 /\ caps_ok (allowed_caps config).

Definition error_reply (code : Z) (message : string) : remote_message := MError (mk_error code (bytes_of_string message)).

(** The session after a message, and the response with its id. *)
Definition serve (config : AivmRemoteServerConfig) (s : AivmRemoteServerSession) (id : Z) (m : remote_message) :
    AivmRemoteServerSession * (Z * remote_message) :=
  match m with
  | MHello h =>
      let caps := filter (fun cap => cap ∈ allowed_caps config) (requested_caps h) in
      (mk_session true (proto_version config) caps, (id, MWelcome (mk_welcome (proto_version config) caps)))
  | MCall c =>
      (s, (id, if negb (handshake_complete s) then error_reply 401 "remote session handshake is required before CALL."
               else if negb (bool_decide (call_cap c ∈ granted_caps s)) then error_reply 403 "remote capability is not granted for this session."
               else if bool_decide (call_cap c = bytes_of_string "cap.remote" /\ call_op c = bytes_of_string "echoInt")
               then MResult (mk_result (call_value c))
               else error_reply 404 "remote operation is not available."))
  | _ => (s, (0, error_reply 400 "remote frame type is not supported."))
  end.

Fixpoint serve_all (config : AivmRemoteServerConfig) (s : AivmRemoteServerSession) (ms : list (Z * remote_message)) :
    AivmRemoteServerSession * list (Z * remote_message) :=
  match ms with
  | [] => (s, [])
  | (id, m) :: rest =>
      let (s1, r) := serve config s id m in
      let (s2, rs) := serve_all config s1 rest in (s2, r :: rs)
  end.

(** ** Granting *)

Lemma cap_in (caps : list (list Z)) cap : existsb (fun c => bool_decide (c = cap)) caps = bool_decide (cap ∈ caps).
Proof.
  destruct (existsb _ _) eqn:E; symmetry; [apply bool_decide_eq_true|apply bool_decide_eq_false].
  - apply existsb_exists in E as (c & Hc & E). apply bool_decide_eq_true in E as ->. by apply list_elem_of_In.
  - intros Hin. apply not_true_iff_false in E. apply E, existsb_exists. exists cap. split; [by apply list_elem_of_In|].
    by apply bool_decide_eq_true.
Qed.

Lemma snprintf_fits size text : zlen text < size -> snprintf_s size text = text.
Proof. intros Hl. unfold snprintf_s, ztake. apply take_ge. unfold zlen in Hl. lia. Qed.

Lemma snprintf_text text : text_ok AIVM_REMOTE_MAX_TEXT text -> snprintf_s (AIVM_REMOTE_MAX_TEXT + 1) text = text.
Proof. intros [_ Hl]. apply snprintf_fits. lia. Qed.

Lemma snprintf_caps caps : Forall (text_ok AIVM_REMOTE_MAX_TEXT) caps -> map (snprintf_s (AIVM_REMOTE_MAX_TEXT + 1)) caps = caps.
Proof. induction 1 as [|cap caps Hc _ IH]; [done|]. cbn [map]. by rewrite snprintf_text, IH. Qed.

(** The loop keeps, in order, the requested capabilities that are allowed; its own
    limit is never met because no more are requested. *)
Lemma grant_loop_filter config requested : forall granted,
  Forall (text_ok AIVM_REMOTE_MAX_TEXT) requested -> zlen granted + zlen requested <= AIVM_REMOTE_MAX_CAPS ->
  grant_loop config requested granted = granted ++ filter (fun cap => cap ∈ allowed_caps config) requested.
Proof.
  induction requested as [|cap rest IH]; intros granted Ht Hn; cbn [grant_loop]; [by rewrite app_nil_r|].
  apply Forall_cons in Ht as [Hc Ht]. rewrite zlen_cons in Hn. pose proof (zlen_nonneg rest).
  unfold cap_allowed. rewrite cap_in, filter_cons. destruct (Z.ltb_spec (zlen granted) AIVM_REMOTE_MAX_CAPS); [|lia].
  rewrite andb_true_r. case_bool_decide; [rewrite decide_True by done|rewrite decide_False by done].
  - rewrite IH, snprintf_text, <- app_assoc by (done || rewrite zlen_app; change (zlen [_]) with 1; lia). done.
  - apply IH; [done|lia].
Qed.

Lemma zlen_filter_le {A} (P : A -> Prop) `{forall x, Decision (P x)} (l : list A) : zlen (filter P l) <= zlen l.
Proof. unfold zlen. pose proof (length_filter P l). lia. Qed.

Lemma caps_filter P `{forall x : list Z, Decision (P x)} caps : caps_ok caps -> caps_ok (filter P caps).
Proof.
  intros [Hn Ht]. split; [pose proof (zlen_filter_le P caps); lia|]. apply Forall_forall. intros x Hx.
  apply list_elem_of_filter in Hx as [_ Hx]. rewrite Forall_forall in Ht. by apply Ht.
Qed.

Lemma grant_hello config hello : caps_ok (requested_caps hello) ->
  grant_loop config (requested_caps hello) [] = filter (fun cap => cap ∈ allowed_caps config) (requested_caps hello).
Proof. intros [Hn Ht]. rewrite grant_loop_filter by (done || rewrite zlen_nil; lia). done. Qed.

(** ** Serving *)

Lemma session_status_written r out n : r = COk (out, n) -> session_status r = AnsSent out n.
Proof. by intros ->. Qed.

Lemma literal_ok m : forallb (fun b => (0 <? b) && (b <? 256)) (bytes_of_string m) = true -> cstr_ok (bytes_of_string m).
Proof. intros H. apply Forall_forall. intros x Hx. rewrite forallb_forall in H. specialize (H x). rewrite list_elem_of_In in Hx. apply H in Hx. lia. Qed.

(** The frames the server sends. *)
Definition reply (id : Z) (m : remote_message) (out : list Z) : answer :=
  AnsSent (frame_of id m ++ zdrop (zlen (frame_of id m)) out) (zlen (frame_of id m)).

Definition frame_max : Z := 9 + 6 + 66 * 16.

Lemma frame_fits id m : message_ok m -> kind_of m <> AIVM_REMOTE_MSG_HELLO -> zlen (frame_of id m) <= frame_max.
Proof.
  intros Hm Hk. rewrite frame_length. unfold frame_max.
  destruct m as [m|m|m|m|m|m]; cbn [payload_of message_ok] in *; [done| | | | |];
    unfold text_ok, AIVM_REMOTE_MAX_TEXT, AIVM_REMOTE_MAX_ERROR_TEXT in Hm; rewrite ?zlen_app, ?encoded_string_length, ?le_bytes_length;
    try (pose proof (caps_length (granted m) ltac:(tauto))); lia.
Qed.

Definition error_literal (message : string) : bool :=
  (zlen (bytes_of_string message) <=? AIVM_REMOTE_MAX_ERROR_TEXT) &&
  forallb (fun b => (0 <? b) && (b <? 256)) (bytes_of_string message).

Lemma error_reply_ok code message : id_ok code -> error_literal message = true -> message_ok (error_reply code message).
Proof. intros Hc Hl. unfold error_literal in Hl. apply andb_prop in Hl as [Hl H]. cbn. split; [done|]. split; [by apply literal_ok|lia]. Qed.

Section Replies.

Context (out : list Z) (Hout : frame_max <= zlen out).

Lemma reply_written id m : message_ok m -> kind_of m <> AIVM_REMOTE_MSG_HELLO ->
  session_status (encode_message id m out) = reply id m out.
Proof. intros Hm Hk. apply session_status_written, encode_run; [done|]. pose proof (frame_fits id m Hm Hk). lia. Qed.

Lemma error_written id code message : id_ok code -> error_literal message = true ->
  encode_error_frame id code message out = reply id (error_reply code message) out.
Proof.
  intros Hc Hl. rewrite <- (reply_written id (error_reply code message)); [|by apply error_reply_ok|done].
  unfold encode_error_frame. cbn [encode_message error_reply]. rewrite snprintf_fits; [done|].
  unfold error_literal in Hl. lia.
Qed.

Ltac refuses := split; [by rewrite error_written|]; split; [done|]; split; [by apply error_reply_ok|done].

(** A well-formed message is answered as the specification says. *)
Lemma process_frame_serves config s id m : config_ok config -> id_ok id -> message_ok m ->
  let '(s', (id', m')) := serve config s id m in
  aivm_remote_server_process_frame config s (frame_of id m) out = (s', reply id' m' out) /\
  id_ok id' /\ message_ok m' /\ kind_of m' <> AIVM_REMOTE_MSG_HELLO.
Proof.
  intros Hcfg Hid Hm. unfold aivm_remote_server_process_frame. rewrite frame_length. pose proof (zlen_nonneg (payload_of m)).
  destruct (Z.ltb_spec (9 + zlen (payload_of m)) 1); [lia|]. pose proof Hcfg as [Hv [Hn _]].
  destruct (Z.ltb_spec AIVM_REMOTE_MAX_CAPS (zlen (allowed_caps config))); [lia|].
  change (zget (frame_of id m) 0) with (Some (message_type_code (kind_of m))). pose proof (decode_run id Hid m Hm) as D.
  destruct m as [m|m|m|m|m|m]; cbn [kind_of message_type_code serve Z.eqb Pos.eqb] in *;
    try refuses.
  - cbn [decode_message] in D. unfold tag in D. destruct (aivm_remote_decode_hello _) as [[id1 h]| |]; cbn in D; [|done|done].
    injection D as -> ->. destruct Hm as (_ & _ & Hcaps). cbn [welcome_version granted]. rewrite grant_hello by done.
    set (P := fun cap => cap ∈ allowed_caps config). pose proof (caps_filter P _ Hcaps) as Hf. rewrite snprintf_caps by apply Hf.
    split; [|done]. f_equal. by apply (reply_written id (MWelcome (mk_welcome (proto_version config) (filter P (requested_caps m))))).
  - cbn [decode_message] in D. unfold tag in D. destruct (aivm_remote_decode_call _) as [[id1 c]| |]; cbn in D; [|done|done].
    injection D as -> ->. destruct Hm as (_ & _ & Hval). destruct (handshake_complete s); cbn [negb];
      [|refuses].
    unfold cap_granted. rewrite cap_in. case_bool_decide as Hg; cbn [negb];
      [|refuses].
    rewrite bool_decide_and. destruct (_ && _);
      [|refuses].
    split; [|done]. f_equal. by apply (reply_written id (MResult (mk_result (call_value m)))).
Qed.

End Replies.

(** ** The standard streams carry frames *)

Definition framed (bytes : list Z) : list Z := le_bytes 4 (zlen bytes) ++ bytes.
Definition framed_message (p : Z * remote_message) : list Z := framed (frame_of p.1 p.2).

Lemma framed_length bytes : zlen (framed bytes) = 4 + zlen bytes.
Proof. unfold framed. by rewrite zlen_app, le_bytes_length. Qed.

Lemma stdio_recv_framed bytes rest o cap : zlen bytes <= cap -> zlen bytes < 2 ^ 32 ->
  recv_frame (mk_stdio (framed bytes ++ rest) o) cap = (mk_stdio rest o, Some bytes).
Proof.
  intros Hc Hl. cbn [recv_frame stdio_transport]. unfold aivm_remote_stdio_recv_frame, fread, framed. cbn [in_stream out_file].
  pose proof (zlen_nonneg bytes). rewrite <- app_assoc.
  pose proof (ztake_app (le_bytes 4 (zlen bytes)) (bytes ++ rest)) as T.
  pose proof (zdrop_app (le_bytes 4 (zlen bytes)) (bytes ++ rest)) as D.
  rewrite le_bytes_length in T, D. change (Z.of_nat 4) with 4 in T, D. rewrite T, D. rewrite le_bytes_length.
  cbn [negb Z.eqb Pos.eqb Z.of_nat Pos.of_succ_nat Pos.succ].
  unfold read_u32_le. rewrite (get_le 4 _ [] (zlen bytes) []); [|by rewrite app_nil_r|done|lia].
  destruct (Z.ltb_spec cap (zlen bytes)); [lia|]. destruct (Z.ltb_spec 0 (zlen bytes)).
  - cbn [in_stream out_file]. rewrite ztake_app, zdrop_app, !Z.eqb_refl. done.
  - assert (bytes = []) as -> by (destruct bytes; [done|unfold zlen in *; cbn in *; lia]). done.
Qed.

Definition emit (o : out_stream) (bytes : list Z) : out_stream :=
  mk_out (written_bytes o ++ bytes) (room o - zlen bytes) (flush_ok o).

Lemma fwrite_fits bytes o : zlen bytes <= room o -> fwrite bytes o = (zlen bytes, emit o bytes).
Proof.
  intros Hr. unfold fwrite, emit. pose proof (zlen_nonneg bytes).
  replace (Z.max 0 (Z.min (zlen bytes) (room o))) with (zlen bytes) by lia.
  pose proof (ztake_app bytes []) as T. rewrite app_nil_r in T. by rewrite T.
Qed.

Lemma emit_emit o a b : emit (emit o a) b = emit o (a ++ b).
Proof. unfold emit. cbn. rewrite zlen_app, <- app_assoc. f_equal. lia. Qed.

Lemma stdio_send_framed bytes i o : zlen bytes < 2 ^ 32 -> zlen (framed bytes) <= room o ->
  send_frame (mk_stdio i o) bytes = (mk_stdio i (emit o (framed bytes)), flush_ok o).
Proof.
  intros Hl Hr. rewrite framed_length in Hr. pose proof (zlen_nonneg bytes). cbn [send_frame stdio_transport].
  unfold aivm_remote_stdio_send_frame. cbn [in_stream out_file].
  destruct (Z.ltb_spec (2 ^ 32 - 1) (zlen bytes)); [lia|]. rewrite fwrite_fits by (rewrite le_bytes_length; lia).
  rewrite le_bytes_length. cbn [negb Z.eqb Pos.eqb Z.of_nat Pos.of_succ_nat Pos.succ].
  destruct (Z.ltb_spec 0 (zlen bytes)).
  - rewrite fwrite_fits by (cbn [room emit]; rewrite le_bytes_length; lia). rewrite Z.eqb_refl. cbn [negb]. by rewrite emit_emit, Z.eqb_refl.
  - assert (bytes = []) as -> by (destruct bytes; [done|unfold zlen in *; cbn in *; lia]). done.
Qed.

(** ** Rounds of the bridge *)

Fixpoint bridge_rounds `{Transport T} (config : AivmRemoteServerConfig) (out_frame : list Z) (n : nat) (b : AivmRemoteBridge T) :
    option (AivmRemoteBridge T * list bool) :=
  match n with
  | O => Some (b, [])
  | S n' =>
      match aivm_remote_bridge_process_once config out_frame b with
      | None => None
      | Some (b1, ok) =>
          match bridge_rounds config out_frame n' b1 with
          | None => None
          | Some (b2, oks) => Some (b2, ok :: oks)
          end
      end
  end.

Definition request_ok (p : Z * remote_message) : Prop := id_ok p.1 /\ message_ok p.2.

Lemma request_fits p : request_ok p -> zlen (frame_of p.1 p.2) <= AIVM_REMOTE_TRANSPORT_MAX_FRAME.
Proof.
  intros [_ Hm]. destruct p as [id m]. cbn [fst snd] in *. unfold AIVM_REMOTE_TRANSPORT_MAX_FRAME.
  destruct m as [m|m|m|m|m|m]; try (pose proof (frame_fits id _ Hm ltac:(done)); unfold frame_max in *; lia).
  rewrite frame_length. cbn [payload_of]. rewrite !zlen_app, !le_bytes_length, encoded_string_length.
  destruct Hm as (_ & [_ Hn] & Hc). pose proof (caps_length _ Hc). unfold AIVM_REMOTE_MAX_TEXT in Hn. lia.
Qed.

Section Serving.

Context (config : AivmRemoteServerConfig) (Hconfig : config_ok config).
Context (scratch : list Z) (Hscratch : zlen scratch = AIVM_REMOTE_TRANSPORT_MAX_FRAME).

Lemma serve_round s p rest o : request_ok p -> flush_ok o = true -> 
  let '(s', r) := serve config s p.1 p.2 in
  zlen (framed_message r) <= room o ->
  aivm_remote_bridge_process_once config scratch (mk_bridge s (mk_stdio (framed_message p ++ rest) o)) =
    Some (mk_bridge s' (mk_stdio rest (emit o (framed_message r))), true).
Proof.
  intros Hp Hf. pose proof (request_fits p Hp) as Hfit. destruct Hp as [Hid Hm]. destruct p as [id m]. cbn [fst snd] in *.
  pose proof (process_frame_serves scratch ltac:(rewrite Hscratch; done) config s id m Hconfig Hid Hm) as H.
  destruct (serve config s id m) as [s' [id' m']] eqn:E. destruct H as (H & Hid' & Hm' & Hk). intros Hroom.
  unfold framed_message in *. cbn [fst snd] in *. unfold aivm_remote_bridge_process_once. cbn [transport session].
  rewrite stdio_recv_framed by (unfold AIVM_REMOTE_TRANSPORT_MAX_FRAME in *; lia).
  destruct (Z.ltb_spec AIVM_REMOTE_TRANSPORT_MAX_FRAME (zlen (frame_of id m))); [lia|].
  rewrite H. unfold reply. rewrite ztake_app. pose proof (frame_fits id' m' Hm' Hk) as Hfr. unfold frame_max in Hfr.
  rewrite stdio_send_framed by (done || lia). by rewrite Hf.
Qed.

Lemma serve_rounds ms : forall s rest o, Forall request_ok ms -> flush_ok o = true ->
  let '(s', rs) := serve_all config s ms in
  zlen (flat_map framed_message rs) <= room o ->
  bridge_rounds config scratch (length ms) (mk_bridge s (mk_stdio (flat_map framed_message ms ++ rest) o)) =
    Some (mk_bridge s' (mk_stdio rest (emit o (flat_map framed_message rs))), repeat true (length ms)).
Proof.
  induction ms as [|p ms IH]; intros s rest o Hms Hf; cbn [serve_all].
  - intros _. cbn. unfold emit. cbn. rewrite app_nil_r, Z.sub_0_r. by destruct o.
  - apply Forall_cons in Hms as [Hp Hms]. destruct p as [id m]. cbn [fst snd].
    pose proof (serve_round s (id, m) (flat_map framed_message ms ++ rest) o Hp Hf) as R. cbn [fst snd] in R.
    destruct (serve config s id m) as [s1 r]. specialize (IH s1 rest (emit o (framed_message r)) Hms Hf).
    destruct (serve_all config s1 ms) as [s2 rs]. intros Hroom. cbn [flat_map] in Hroom |- *. rewrite zlen_app in Hroom.
    pose proof (zlen_nonneg (flat_map framed_message rs)). cbn [bridge_rounds length]. rewrite <- app_assoc, R by lia.
    cbn [room emit] in IH. rewrite IH by lia. by rewrite emit_emit.
Qed.

End Serving.

(** ** Any bytes *)

(** Sessions that frames of any content lead to. *)
Inductive session_reachable (config : AivmRemoteServerConfig) : AivmRemoteServerSession -> Prop :=
  | SessionInit : session_reachable config aivm_remote_server_session_init
  | SessionFrame s input out :
      session_reachable config s -> bytes_ok input ->
      session_reachable config (aivm_remote_server_process_frame config s input out).1.

Definition session_ok (config : AivmRemoteServerConfig) (s : AivmRemoteServerSession) : Prop :=
  (handshake_complete s = false -> granted_caps s = []) /\ zlen (granted_caps s) <= AIVM_REMOTE_MAX_CAPS /\
  Forall (fun cap => cap ∈ allowed_caps config) (granted_caps s).

Lemma session_status_inside r (out : list Z) : inside r (filled (zlen out)) -> session_status r <> AnsOob.
Proof. destruct r as [[o n]| |]; cbn; done. Qed.

Lemma encode_answer id m out : session_status (encode_message id m out) <> AnsOob.
Proof. apply (session_status_inside _ out), encode_inside. Qed.

Lemma decode_hello_inside input id h : bytes_ok input -> aivm_remote_decode_hello input = COk (id, h) -> caps_ok (requested_caps h).
Proof.
  intros Hb E. pose proof (decode_inside input Hb AIVM_REMOTE_MSG_HELLO) as D. cbn [decode_message] in D. rewrite E in D. cbn in D.
  destruct D as (_ & (_ & _ & Hc) & _). done.
Qed.

Lemma process_frame_session config s input out : bytes_ok input -> session_ok config s ->
  session_ok config (aivm_remote_server_process_frame config s input out).1.
Proof.
  intros Hb Hs. unfold aivm_remote_server_process_frame. destruct (_ <? 1); [done|]. destruct (_ <? _); [done|].
  destruct (zget input 0) as [type|]; [|done]. destruct (_ =? _).
  - destruct (aivm_remote_decode_hello input) as [[id h]| |] eqn:E; [|done|done]. cbn [fst].
    pose proof (decode_hello_inside input id h Hb E) as Hc. cbn [welcome_version granted]. rewrite grant_hello by done.
    set (P := fun cap => cap ∈ allowed_caps config). pose proof (caps_filter P _ Hc) as [Hn Ht]. rewrite snprintf_caps by done.
    split; [done|]. split; [done|]. apply Forall_forall. intros cap Hin. by apply list_elem_of_filter in Hin as [? _].
  - destruct (_ =? _); [|done]. by destruct (aivm_remote_decode_call input) as [[id c]| |].
Qed.

Lemma process_frame_inside config s input out : bytes_ok input ->
  (aivm_remote_server_process_frame config s input out).2 <> AnsOob.
Proof.
  intros Hb. unfold aivm_remote_server_process_frame. destruct (Z.ltb_spec (zlen input) 1); [done|]. destruct (_ <? _); [done|].
  destruct (zget_is_Some input 0) as [type ->]; [lia|]. destruct (_ =? _).
  - pose proof (decode_inside input Hb AIVM_REMOTE_MSG_HELLO) as D. cbn [decode_message] in D.
    destruct (aivm_remote_decode_hello input) as [[id h]| |]; [|done|done].
    apply (encode_answer id (MWelcome (mk_welcome (proto_version config) (grant_loop config (requested_caps h) [])))).
  - destruct (_ =? _); [|apply (encode_answer 0 (MError _))].
    pose proof (decode_inside input Hb AIVM_REMOTE_MSG_CALL) as D. cbn [decode_message] in D.
    destruct (aivm_remote_decode_call input) as [[id c]| |]; [|done|done]. cbn [snd].
    repeat (case_match; [apply (encode_answer id (MError _)) || apply (encode_answer id (MResult _))|]).
    apply (encode_answer id (MError _)).
Qed.

Lemma session_reachable_ok config s : session_reachable config s -> session_ok config s.
Proof.
  induction 1 as [|s input out _ IH Hb].
  - split; [done|]. split; [done|]. constructor.
  - by apply process_frame_session.
Qed.

(** Over any transport that delivers bytes, a round stays inside its buffers. *)
Lemma bridge_inside `{Transport T} config out_frame (b : AivmRemoteBridge T) :
  (forall t cap t' bytes, recv_frame t cap = (t', Some bytes) -> bytes_ok bytes) ->
  aivm_remote_bridge_process_once config out_frame b <> None.
Proof.
  intros Hbytes. unfold aivm_remote_bridge_process_once.
  destruct (recv_frame (transport b) AIVM_REMOTE_TRANSPORT_MAX_FRAME) as [t [input|]] eqn:E; [|done].
  pose proof (recv_fits (transport b) AIVM_REMOTE_TRANSPORT_MAX_FRAME t input ltac:(done) E) as Hf. destruct (Z.ltb_spec AIVM_REMOTE_TRANSPORT_MAX_FRAME (zlen input)); [lia|].
  pose proof (process_frame_inside config (session b) input out_frame (Hbytes _ _ _ _ E)) as Hin.
  destruct (aivm_remote_server_process_frame _ _ _ _) as [s [o n|st|]]; [|done|done]. by destruct (send_frame _ _).
Qed.

(** ** The kind of a frame is its first byte *)

Lemma cbind_ok {A B} (m : codec A) (f : A -> codec B) b : cbind m f = COk b -> exists a, m = COk a /\ f a = COk b.
Proof. destruct m; cbn; [eauto|done|done]. Qed.

Lemma finish_kind t id i out o n : finish_frame t id i out = COk (o, n) -> zget o 0 = Some (message_type_code t).
Proof.
  unfold finish_frame. intros E. apply cbind_ok in E as (o1 & E & [= <- _]).
  assert (Hl : 9 <= zlen out) by (unfold write_header, AIVM_REMOTE_HEADER_SIZE in E; destruct (Z.ltb_spec (zlen out) 9); [done|lia]).
  rewrite <- (take_drop (Z.to_nat 9) out) in E. fold (ztake 9 out) (zdrop 9 out) in E.
  rewrite write_header_run in E by (apply zlen_ztake; lia). by injection E as <-.
Qed.

Lemma encode_kind id m out o n : encode_message id m out = COk (o, n) -> zget o 0 = Some (message_type_code (kind_of m)).
Proof.
  destruct m as [m|m|m|m|m|m]; cbn [encode_message kind_of]; intros E.
  - unfold aivm_remote_encode_hello in E. destruct (_ <? _); [done|]. apply cbind_ok in E as ([o1 i1] & _ & E).
    destruct (_ <? _); [done|]. apply cbind_ok in E as (o2 & _ & E). apply cbind_ok in E as (o3 & _ & E).
    apply cbind_ok in E as ([o4 i4] & _ & E). by eapply finish_kind.
  - unfold aivm_remote_encode_welcome in E. destruct (_ <? _); [done|].
    destruct (_ <? _); [done|]. apply cbind_ok in E as (o2 & _ & E). apply cbind_ok in E as (o3 & _ & E).
    apply cbind_ok in E as ([o4 i4] & _ & E). by eapply finish_kind.
  - unfold aivm_remote_encode_deny, encode_code_message in E. destruct (_ <? _); [done|]. apply cbind_ok in E as (o2 & _ & E).
    apply cbind_ok in E as ([o4 i4] & _ & E). by eapply finish_kind.
  - unfold aivm_remote_encode_call in E. apply cbind_ok in E as ([o1 i1] & _ & E). apply cbind_ok in E as ([o2 i2] & _ & E).
    destruct (_ <? _); [done|]. apply cbind_ok in E as (o3 & _ & E). by eapply finish_kind.
  - unfold aivm_remote_encode_result in E. destruct (_ <? _); [done|]. apply cbind_ok in E as (o1 & _ & E).
    by eapply (finish_kind AIVM_REMOTE_MSG_RESULT id (AIVM_REMOTE_HEADER_SIZE + 8) o1).
  - unfold aivm_remote_encode_error, encode_code_message in E. destruct (_ <? _); [done|]. apply cbind_ok in E as (o2 & _ & E).
    apply cbind_ok in E as ([o4 i4] & _ & E). by eapply finish_kind.
Qed.

Lemma decode_result_kind bytes p : aivm_remote_decode_result bytes = COk p ->
  zget bytes 0 = Some (message_type_code AIVM_REMOTE_MSG_RESULT).
Proof.
  unfold aivm_remote_decode_result. intros E. apply cbind_ok in E as (h & Eh & E). apply cbind_ok in E as (u & Ec & _).
  unfold read_header in Eh. destruct (_ <? _); [done|]. destruct (zget bytes 0) as [type|]; [|done].
  apply cbind_ok in Eh as (id & _ & Eh). apply cbind_ok in Eh as (len & _ & Eh). destruct (negb _); [done|].
  injection Eh as <-. unfold check_type in Ec. cbn [header_type] in Ec. destruct (Z.eqb_spec type 17) as [->|]; [done|].
  cbn [message_type_code] in Ec. destruct (Z.eqb_spec type 17); done.
Qed.

Lemma sent_inj a i b j : AnsSent a i = AnsSent b j -> a = b /\ i = j.
Proof. by intros [= -> ->]. Qed.

(** A response of another kind does not decode as RESULT. *)
Lemma not_a_result id m out o n p : session_status (encode_message id m out) = AnsSent o n ->
  aivm_remote_decode_result (ztake n o) = COk p -> kind_of m = AIVM_REMOTE_MSG_RESULT.
Proof.
  intros E D. destruct (encode_message id m out) as [[o1 n1]| |] eqn:Em; cbn in E; [|done|done]. injection E as -> ->.
  apply encode_kind in Em. apply decode_result_kind in D. rewrite zget_lookup in D by lia. unfold ztake in D.
  apply lookup_take_Some in D as [D _]. rewrite zget_lookup in Em by lia. rewrite D in Em. by destruct (kind_of m).
Qed.

Lemma result_answer id call out o n p : id_ok id -> is_int64 (call_value call) ->
  session_status (aivm_remote_encode_result id (mk_result (call_value call)) out) = AnsSent o n ->
  aivm_remote_decode_result (ztake n o) = COk p -> p = (id, mk_result (call_value call)).
Proof.
  intros Hid Hv E D. set (m := MResult (mk_result (call_value call))). assert (Hm : message_ok m) by done.
  assert (Hl : zlen (frame_of id m) <= zlen out).
  { rewrite frame_length. cbn [payload_of m]. rewrite le_bytes_length. unfold aivm_remote_encode_result, AIVM_REMOTE_HEADER_SIZE in E.
    destruct (Z.ltb_spec (zlen out) (9 + 8)); [done|lia]. }
  pose proof (encode_run id m out Hm Hl) as R. cbn [encode_message m] in R. rewrite R in E. cbn [session_status] in E. apply sent_inj in E as [<- <-].
  rewrite ztake_app in D. pose proof (decode_run id Hid m Hm) as Dr. cbn [decode_message kind_of m] in Dr. rewrite D in Dr.
  destruct p as [i r]. cbn in Dr. by injection Dr as -> ->.
Qed.

(** ** The theorems *)

(** C29: whatever frames a client sends, in whatever order and however
    malformed, the server never leaves its buffers, and a response that reads as a
    RESULT answers a CALL of the same request id and value, made after the handshake
    for a capability the session was granted and the configuration allows. *)
Theorem remote_result_needs_grant config s input out : session_reachable config s -> bytes_ok input ->
  let (s', a) := aivm_remote_server_process_frame config s input out in
  a <> AnsOob /\
  forall o n id r, a = AnsSent o n -> aivm_remote_decode_result (ztake n o) = COk (id, r) ->
  exists call, aivm_remote_decode_call input = COk (id, call) /\ result_value r = call_value call /\
    handshake_complete s = true /\ call_cap call ∈ granted_caps s /\ call_cap call ∈ allowed_caps config.
Proof.
  intros Hs Hb. apply session_reachable_ok in Hs as (_ & _ & Hall). pose proof (process_frame_inside config s input out Hb) as Hin.
  destruct (aivm_remote_server_process_frame config s input out) as [s' a] eqn:Ep. split; [done|].
  intros o n id r -> D. clear Hin. unfold aivm_remote_server_process_frame in Ep. destruct (_ <? 1); [done|]. destruct (_ <? _); [done|].
  destruct (zget input 0) as [type|]; [|done]. destruct (_ =? _).
  { destruct (aivm_remote_decode_hello input) as [[id1 h]| |]; [|done|done]. injection Ep as _ E.
    by apply (not_a_result id1 (MWelcome (mk_welcome _ _)) out o n (id, r)) in E. }
  destruct (_ =? _); [|injection Ep as _ E; by apply (not_a_result 0 (MError _) out o n (id, r)) in E].
  pose proof (decode_call_inside input Hb) as C. destruct (aivm_remote_decode_call input) as [[id1 call]| |]; [|done|done].
  destruct C as (Hid & _ & _ & Hv). injection Ep as _ E.
  destruct (handshake_complete s); cbn [negb] in E; [|by apply (not_a_result id1 (MError _) out o n (id, r)) in E].
  unfold cap_granted in E. rewrite cap_in in E. case_bool_decide as Hg; cbn [negb] in E; [|by apply (not_a_result id1 (MError _) out o n (id, r)) in E].
  destruct (_ && _); [|by apply (not_a_result id1 (MError _) out o n (id, r)) in E].
  apply (result_answer id1 call out o n (id, r) Hid Hv) in E; [|done]. injection E as <- ->.
  exists call. rewrite Forall_forall in Hall. eauto 10.
Qed.

(** C30: over the standard streams, round by round, the bridge reads the
    length-prefixed requests in order and writes the responses the specification
    gives, in order and length-prefixed, and nothing else: it consumes exactly the
    requests, and the session ends as the specification's.  The 65536-byte buffers
    are always large enough. *)
Theorem remote_bridge_serves config scratch s ms rest o :
  config_ok config -> zlen scratch = AIVM_REMOTE_TRANSPORT_MAX_FRAME -> Forall request_ok ms -> flush_ok o = true ->
  let (s', rs) := serve_all config s ms in
  zlen (flat_map framed_message rs) <= room o ->
  bridge_rounds config scratch (length ms) (mk_bridge s (mk_stdio (flat_map framed_message ms ++ rest) o)) =
    Some (mk_bridge s' (mk_stdio rest (mk_out (written_bytes o ++ flat_map framed_message rs)
      (room o - zlen (flat_map framed_message rs)) true)), repeat true (length ms)).
Proof.
  intros Hc Hs Hms Hf. pose proof (serve_rounds config Hc scratch Hs ms s rest o Hms Hf) as R.
  destruct (serve_all config s ms) as [s' rs]. intros Hr. rewrite R by done. unfold emit. by rewrite Hf.
Qed.

Definition sample_config : AivmRemoteServerConfig := mk_config 1 [bytes_of_string "cap.remote"; bytes_of_string "cap.log"].
Definition sample_requests : list (Z * remote_message) :=
  [(1, MHello (mk_hello 1 (bytes_of_string "cli") [bytes_of_string "cap.remote"; bytes_of_string "cap.fs"]));
   (2, MCall (mk_call (bytes_of_string "cap.remote") (bytes_of_string "echoInt") (-5)));
   (3, MCall (mk_call (bytes_of_string "cap.fs") (bytes_of_string "read") 0))].

(** After the first request the session holds one capability; the second request
    is answered with a RESULT. *)
Definition sample_session : AivmRemoteServerSession :=
  (aivm_remote_server_process_frame sample_config aivm_remote_server_session_init (frame_of 1 (MHello (mk_hello 1 (bytes_of_string "cli")
    [bytes_of_string "cap.remote"; bytes_of_string "cap.fs"]))) (repeat 0 40)).1.
Definition sample_call : list Z := frame_of 2 (MCall (mk_call (bytes_of_string "cap.remote") (bytes_of_string "echoInt") (-5))).

Lemma remote_result_needs_grant_witness :
  aivm_remote_decode_result (frame_of 2 (MResult (mk_result (-5)))) = COk (2, mk_result (-5)) /\
  exists call, aivm_remote_decode_call sample_call = COk (2, call) /\ result_value (mk_result (-5)) = call_value call /\
    handshake_complete sample_session = true /\ call_cap call ∈ granted_caps sample_session /\ call_cap call ∈ allowed_caps sample_config.
Proof.
  split; [by vm_compute|].
  assert (Hr : session_reachable sample_config sample_session).
  { apply SessionFrame; [apply SessionInit|]. repeat (constructor; [by vm_compute|]). constructor. }
  assert (Hb : bytes_ok sample_call) by (repeat (constructor; [by vm_compute|]); constructor).
  pose proof (remote_result_needs_grant sample_config sample_session sample_call (repeat 0 17) Hr Hb) as T.
  destruct (aivm_remote_server_process_frame sample_config sample_session sample_call (repeat 0 17)) as [s' a] eqn:E.
  vm_compute in E. injection E as <- <-. destruct T as [_ T]. eapply T; [reflexivity|by vm_compute].
Defined.

Ltac prove_text := split; [repeat (constructor; [by vm_compute|]); constructor|by vm_compute].

Lemma remote_bridge_serves_witness :
  let (s', rs) := serve_all sample_config aivm_remote_server_session_init sample_requests in
  rs = [(1, MWelcome (mk_welcome 1 [bytes_of_string "cap.remote"])); (2, MResult (mk_result (-5)));
        (3, error_reply 403 "remote capability is not granted for this session.")] /\
  bridge_rounds sample_config (repeat 0 (Z.to_nat 65536)) 3
    (mk_bridge aivm_remote_server_session_init (mk_stdio (flat_map framed_message sample_requests ++ []) (mk_out [] 200 true))) =
    Some (mk_bridge s' (mk_stdio [] (mk_out ([] ++ flat_map framed_message rs) (200 - zlen (flat_map framed_message rs)) true)), [true; true; true]).
Proof.
  pose proof (remote_bridge_serves sample_config (repeat 0 (Z.to_nat 65536)) aivm_remote_server_session_init sample_requests [] (mk_out [] 200 true)) as T.
  destruct (serve_all sample_config aivm_remote_server_session_init sample_requests) as [s' rs] eqn:E.
  vm_compute in E. injection E as <- <-. split; [by vm_compute|]. apply T; clear T.
  - split; [done|]. split; [done|]. repeat (constructor; [prove_text|]). constructor.
  - unfold zlen. by rewrite repeat_length, Z2Nat.id.
  - constructor; [|constructor; [|constructor; [|constructor]]]; (split; [done|]).
    + split; [done|]. split; [prove_text|]. split; [done|]. repeat (constructor; [prove_text|]). constructor.
    + split; [prove_text|]. split; [prove_text|]. done.
    + split; [prove_text|]. split; [prove_text|]. done.
  - done.
  - by vm_compute.
Defined.
