(* ===== verification/WsFrame.v ===== *)
(** * WebSocket frames

    src/src/remote/aivm_remote_ws_frame.c: decoding of masked client frames and
    encoding of server frames, against the layout of RFC 6455, section 5.2. *)

From S2P Require Import Prelude.

Definition AIVM_WS_MAX_PAYLOAD : Z := 65536.

Record AivmWsFrame := mk_ws_frame { fin : bool; ws_opcode : Z; ws_payload : list Z }.

(** A function's outputs, a refusal (0), or an access outside a buffer. *)
Inductive ws (A : Type) :=
  | WsOk (a : A)
  | WsNo
  | WsOob.
Arguments WsOk {A} a.
Arguments WsNo {A}.
Arguments WsOob {A}.

Definition ws_bind {A B} (m : ws A) (f : A -> ws B) : ws B :=
  match m with WsOk a => f a | WsNo => WsNo | WsOob => WsOob end.

Notation "'let!' x := m 'in' k" := (ws_bind m (fun x => k))
  (at level 10, x pattern, m at level 100, k at level 200, only parsing) : aivm_scope.
Open Scope aivm_scope.

Definition byte_at (bytes : list Z) (i : Z) : ws Z :=
  match zget bytes i with Some b => WsOk b | None => WsOob end.

Definition read_u16_be (bytes : list Z) (index : Z) : ws Z :=
  let! b0 := byte_at bytes index in
  let! b1 := byte_at bytes (index + 1) in
  WsOk (Z.lor (Z.shiftl b0 8) b1).

(** The loop over [n] more bytes. *)
Fixpoint read_be_loop (n : nat) (bytes : list Z) (index value : Z) : ws Z :=
  match n with
  | O => WsOk value
  | S n' => let! b := byte_at bytes index in read_be_loop n' bytes (index + 1) (Z.lor (u64 (Z.shiftl value 8)) b)
  end.

Definition read_u64_be (bytes : list Z) (index : Z) : ws Z := read_be_loop 8 bytes index 0.

(** The unmasking loop from payload position [i]. *)
Fixpoint unmask_loop (n : nat) (bytes mask : list Z) (index i : Z) : ws (list Z) :=
  match n with
  | O => WsOk []
  | S n' =>
      let! b := byte_at bytes (index + i) in
      let! m := byte_at mask (i mod 4) in
      let! rest := unmask_loop n' bytes mask index (i + 1) in
      WsOk (Z.lxor b m :: rest)
  end.

Definition aivm_ws_decode_client_frame (bytes : list Z) : ws (Z * AivmWsFrame) :=
  let length := zlen bytes in
  if length <? 2 then WsNo
  else
    let! b0 := byte_at bytes 0 in
    let! b1 := byte_at bytes 1 in
    let masked := negb (Z.land b1 128 =? 0) in
    let payload_length := Z.land b1 127 in
    if negb masked then WsNo
    else
      let! (payload_length, index) :=
        if payload_length =? 126 then
          if length <? 2 + 2 then WsNo
          else let! n := read_u16_be bytes 2 in WsOk (n, 4)
        else if payload_length =? 127 then
          if length <? 2 + 8 then WsNo
          else let! n := read_u64_be bytes 2 in WsOk (n, 10)
        else WsOk (payload_length, 2) in
      if AIVM_WS_MAX_PAYLOAD <? payload_length then WsNo
      else if length <? index + 4 then WsNo
      else
        let mask := ztake 4 (zdrop index bytes) in
        let index := index + 4 in
        if length <? index + payload_length then WsNo
        else
          let! payload := unmask_loop (Z.to_nat payload_length) bytes mask index 0 in
          WsOk (index + payload_length, mk_ws_frame (negb (Z.land b0 128 =? 0)) (Z.land b0 15) payload).

(** Bytes stored from [index] on. *)
Definition store (out : list Z) (index : Z) (bs : list Z) : ws (list Z) :=
  if (0 <=? index) && (index + zlen bs <=? zlen out)
  then WsOk (ztake index out ++ bs ++ zdrop (index + zlen bs) out)
  else WsOob.

Definition u16 (z : Z) : Z := z mod 2 ^ 16.

Definition write_u16_be (out : list Z) (index value : Z) : ws (list Z) :=
  store out index [Z.land (Z.shiftr value 8) 255; Z.land value 255].

Definition aivm_ws_encode_server_control (opcode : Z) (payload out : list Z) : ws (list Z * Z) :=
  let payload_length := zlen payload in
  if AIVM_WS_MAX_PAYLOAD <? payload_length then WsNo
  else if zlen out <? 2 then WsNo
  else
    let! out := store out 0 [Z.lor 128 (Z.land opcode 15)] in
    let! (out, index) :=
      if payload_length <=? 125 then
        let! out := store out 1 [payload_length] in WsOk (out, 2)
      else if zlen out <? 1 + 3 then WsNo
      else
        let! out := store out 1 [126] in
        let! out := write_u16_be out 2 (u16 payload_length) in
        WsOk (out, 4) in
    if zlen out <? index + payload_length then WsNo
    else if 0 <? payload_length then
      let! out := store out index payload in WsOk (out, index + payload_length)
    else WsOk (out, index).

Definition aivm_ws_encode_server_binary (payload out : list Z) : ws (list Z * Z) :=
  aivm_ws_encode_server_control 2 payload out.

(** ** The layout of RFC 6455 *)

Definition be_bytes (n : nat) (v : Z) : list Z := map (fun i => (v / 256 ^ Z.of_nat (n - 1 - i)) mod 256) (seq 0 n).

(** The length field, shortest form; [flag] is the mask bit. *)
Definition length_field (flag len : Z) : list Z :=
  if len <=? 125 then [flag + len]
  else if len <=? 65535 then (flag + 126) :: be_bytes 2 len
  else (flag + 127) :: be_bytes 8 len.

Fixpoint xor_mask (mask payload : list Z) (i : nat) : list Z :=
  match payload with
  | [] => []
  | b :: rest => Z.lxor b (nth (i mod 4) mask 0) :: xor_mask mask rest (S i)
  end.

Definition client_frame (fin : bool) (opcode : Z) (mask payload : list Z) : list Z :=
  [(if fin then 128 else 0) + opcode] ++ length_field 128 (zlen payload) ++ mask ++ xor_mask mask payload 0.

Definition server_frame (opcode : Z) (payload : list Z) : list Z :=
  [128 + opcode] ++ length_field 0 (zlen payload) ++ payload.

(** ** Reading *)

Lemma byte_at_mid pre b post i : i = zlen pre -> byte_at (pre ++ b :: post) i = WsOk b.
Proof.
  intros ->. unfold byte_at. rewrite zget_lookup by apply zlen_nonneg. unfold zlen. by rewrite Nat2Z.id, list_lookup_middle.
Qed.

Lemma byte_at_total bytes i : 0 <= i < zlen bytes -> exists b, byte_at bytes i = WsOk b /\ zget bytes i = Some b.
Proof. intros Hi. unfold byte_at. destruct (zget_is_Some bytes i Hi) as [b ->]. eauto. Qed.

Lemma xor_twice a b : Z.lxor (Z.lxor a b) b = a.
Proof. by rewrite Z.lxor_assoc, Z.lxor_nilpotent, Z.lxor_0_r. Qed.

Lemma unmask_run mask index : zlen mask = 4 -> forall payload pre post i, zlen pre = index + Z.of_nat i ->
  unmask_loop (length payload) (pre ++ xor_mask mask payload i ++ post) mask index (Z.of_nat i) = WsOk payload.
Proof.
  intros Hm. induction payload as [|b payload IH]; intros pre post i Hp; cbn [unmask_loop length xor_mask]; [done|].
  cbn [app]. rewrite byte_at_mid by lia. cbn [ws_bind].
  assert (Hi : (i mod 4 < length mask)%nat) by (unfold zlen in Hm; pose proof (Nat.mod_upper_bound i 4); lia).
  assert (E : byte_at mask (Z.of_nat i mod 4) = WsOk (nth (i mod 4) mask 0)).
  { unfold byte_at. change 4 with (Z.of_nat 4). rewrite <- Nat2Z.inj_mod, zget_lookup by lia. rewrite Nat2Z.id.
    rewrite nth_lookup. by destruct (lookup_lt_is_Some_2 mask (i mod 4) Hi) as [x ->]. }
  rewrite E. cbn [ws_bind]. replace (Z.of_nat i + 1) with (Z.of_nat (S i)) by lia.
  pose proof (IH (pre ++ [Z.lxor b (nth (i mod 4) mask 0)]) post (S i)) as R. rewrite <- app_assoc in R. cbn [app] in R.
  rewrite R by (rewrite zlen_app; change (zlen [_]) with 1; lia). cbn [ws_bind]. by rewrite xor_twice.
Qed.

Lemma xor_mask_length mask payload : forall i, zlen (xor_mask mask payload i) = zlen payload.
Proof. induction payload as [|b payload IH]; intros i; [done|]. cbn [xor_mask]. by rewrite !zlen_cons, IH. Qed.

Lemma u16_be_run len a b rest : 0 <= len < 65536 -> read_u16_be (a :: b :: be_bytes 2 len ++ rest) 2 = WsOk len.
Proof.
  intros Hl. unfold be_bytes. cbn [seq map app Nat.sub].
  set (x := (len / 256 ^ Z.of_nat 1) mod 256). set (y := (len / 256 ^ Z.of_nat 0) mod 256).
  change (read_u16_be (a :: b :: x :: y :: rest) 2) with (WsOk (Z.lor (Z.shiftl x 8) y)). subst x y.
  change (256 ^ Z.of_nat 0) with 1. change (256 ^ Z.of_nat 1) with 256. rewrite lor_shiftl_add, Z.div_1_r by mlia.
  change (2 ^ 8) with 256. f_equal. mlia.
Qed.

Lemma u64_be_run a b rest : read_u64_be (a :: b :: be_bytes 8 65536 ++ rest) 2 = WsOk 65536.
Proof. reflexivity. Qed.

(** The length field in its three forms. *)
Definition read_length (b1 : Z) (bytes : list Z) : ws (Z * Z) :=
  if Z.land b1 127 =? 126 then
    if zlen bytes <? 2 + 2 then WsNo
    else let! n := read_u16_be bytes 2 in WsOk (n, 4)
  else if Z.land b1 127 =? 127 then
    if zlen bytes <? 2 + 8 then WsNo
    else let! n := read_u64_be bytes 2 in WsOk (n, 10)
  else WsOk (Z.land b1 127, 2).

Lemma be_bytes_length n v : zlen (be_bytes n v) = Z.of_nat n.
Proof. unfold be_bytes, zlen. by rewrite length_map, length_seq. Qed.

Lemma length_field_run a len rest : 0 <= len <= AIVM_WS_MAX_PAYLOAD ->
  exists b1 more, length_field 128 len = b1 :: more /\ Z.land b1 128 = 128 /\
    read_length b1 (a :: length_field 128 len ++ rest) = WsOk (len, 1 + zlen (length_field 128 len)).
Proof.
  intros Hl. unfold AIVM_WS_MAX_PAYLOAD in Hl. pose proof (zlen_nonneg rest). unfold length_field.
  destruct (Z.leb_spec len 125) as [Hs|Hs]; [|destruct (Z.leb_spec len 65535)].
  - eexists _, _. split; [done|].
    assert (E : Z.lor 128 len = 128 + len) by (apply (lor_shiftl_add 1 len 7); lia).
    split.
    + rewrite <- E, Z.land_lor_distr_l. change (Z.land 128 128) with 128.
      pose proof (land_shiftl_disjoint 1 len 7 ltac:(lia) ltac:(lia)) as D. change (Z.shiftl 1 7) with 128 in D.
      rewrite Z.land_comm in D. rewrite D. done.
    + unfold read_length. change 127 with (2 ^ 7 - 1). rewrite land_ones_mod by lia.
      replace ((128 + len) mod 2 ^ 7) with len by (change (2 ^ 7) with 128; mlia). change (2 ^ 7 - 1) with 127.
      destruct (Z.eqb_spec len 126); [lia|]. destruct (Z.eqb_spec len 127); [lia|]. done.
  - eexists _, _. split; [done|]. split; [done|]. unfold read_length. cbn [Z.add Pos.add Z.land Pos.land Z.eqb Pos.eqb].
    cbn [app]. rewrite !zlen_cons, zlen_app, be_bytes_length. destruct (Z.ltb_spec (Z.of_nat 2 + zlen rest + 1 + 1) (2 + 2)); [lia|].
    change (Z.land (128 + 126) 127 =? 126) with true. cbn iota. rewrite u16_be_run by lia. cbn [ws_bind]. done.
  - assert (len = 65536) as -> by lia. eexists _, _. split; [done|]. split; [done|]. unfold read_length.
    cbn [app]. rewrite !zlen_cons, zlen_app, be_bytes_length. destruct (Z.ltb_spec (Z.of_nat 8 + zlen rest + 1 + 1) (2 + 8)); [lia|].
    change (Z.land (128 + 127) 127 =? 126) with false. change (Z.land (128 + 127) 127 =? 127) with true. cbn iota.
    rewrite u64_be_run. cbn [ws_bind]. done.
Qed.

(** What follows the length field. *)
Definition read_body (b0 : Z) (bytes : list Z) (payload_length index : Z) : ws (Z * AivmWsFrame) :=
  if AIVM_WS_MAX_PAYLOAD <? payload_length then WsNo
  else if zlen bytes <? index + 4 then WsNo
  else
    let mask := ztake 4 (zdrop index bytes) in
    let index := index + 4 in
    if zlen bytes <? index + payload_length then WsNo
    else
      let! payload := unmask_loop (Z.to_nat payload_length) bytes mask index 0 in
      WsOk (index + payload_length, mk_ws_frame (negb (Z.land b0 128 =? 0)) (Z.land b0 15) payload).

Lemma decode_cons b0 b1 rest : Z.land b1 128 = 128 ->
  aivm_ws_decode_client_frame (b0 :: b1 :: rest) =
    let! (n, index) := read_length b1 (b0 :: b1 :: rest) in read_body b0 (b0 :: b1 :: rest) n index.
Proof.
  intros Hm. unfold aivm_ws_decode_client_frame. destruct (Z.ltb_spec (zlen (b0 :: b1 :: rest)) 2) as [Hl|_].
  { rewrite !zlen_cons in Hl. pose proof (zlen_nonneg rest). lia. }
  change (byte_at (b0 :: b1 :: rest) 0) with (WsOk b0). change (byte_at (b0 :: b1 :: rest) 1) with (WsOk b1).
  cbn [ws_bind]. rewrite Hm. reflexivity.
Qed.

Lemma read_body_run b0 pre mask payload rest : zlen mask = 4 -> zlen payload <= AIVM_WS_MAX_PAYLOAD ->
  read_body b0 (pre ++ mask ++ xor_mask mask payload 0 ++ rest) (zlen payload) (zlen pre) =
    WsOk (zlen (pre ++ mask ++ xor_mask mask payload 0), mk_ws_frame (negb (Z.land b0 128 =? 0)) (Z.land b0 15) payload).
Proof.
  intros Hm Hp. unfold read_body. destruct (Z.ltb_spec AIVM_WS_MAX_PAYLOAD (zlen payload)); [lia|].
  pose proof (zlen_nonneg rest). pose proof (zlen_nonneg payload). rewrite !zlen_app, xor_mask_length.
  destruct (Z.ltb_spec (zlen pre + (zlen mask + (zlen payload + zlen rest))) (zlen pre + 4)); [lia|].
  destruct (Z.ltb_spec (zlen pre + (zlen mask + (zlen payload + zlen rest))) (zlen pre + 4 + zlen payload)); [lia|].
  rewrite zdrop_app. pose proof (ztake_app mask (xor_mask mask payload 0 ++ rest)) as T. rewrite Hm in T. rewrite T.
  pose proof (unmask_run mask (zlen pre + 4) Hm payload (pre ++ mask) rest 0) as U. rewrite <- app_assoc in U.
  change (Z.of_nat 0) with 0 in U. unfold zlen at 1. rewrite Nat2Z.id, U by (rewrite zlen_app; lia).
  cbn [ws_bind]. do 2 f_equal. lia.
Qed.

Lemma first_byte (b : bool) op : 0 <= op < 16 ->
  Z.land ((if b then 128 else 0) + op) 15 = op /\ negb (Z.land ((if b then 128 else 0) + op) 128 =? 0) = b.
Proof.
  intros Ho. assert (Hc : op = 0 \/ op = 1 \/ op = 2 \/ op = 3 \/ op = 4 \/ op = 5 \/ op = 6 \/ op = 7 \/ op = 8 \/ op = 9 \/
    op = 10 \/ op = 11 \/ op = 12 \/ op = 13 \/ op = 14 \/ op = 15) by lia.
  destruct b; decompose [or] Hc; subst op; done.
Qed.

(** C31: a client frame of RFC 6455, with any FIN bit, opcode, mask and
    payload of at most 65536 bytes, followed by any other bytes, is decoded to its
    unmasked payload, and exactly the frame's bytes are consumed. *)
Theorem ws_decode_client fin op mask payload rest : 0 <= op < 16 -> zlen mask = 4 -> zlen payload <= AIVM_WS_MAX_PAYLOAD ->
  aivm_ws_decode_client_frame (client_frame fin op mask payload ++ rest) =
    WsOk (zlen (client_frame fin op mask payload), mk_ws_frame fin op payload).
Proof.
  intros Ho Hm Hp. pose proof (zlen_nonneg payload). unfold client_frame. set (b0 := _ + op).
  rewrite <- !app_assoc. cbn [app].
  destruct (length_field_run b0 (zlen payload) (mask ++ xor_mask mask payload 0 ++ rest)) as (b1 & more & E & Hb1 & R); [lia|].
  rewrite E in R |- *. cbn [app] in R |- *. rewrite decode_cons, R by done. cbn [ws_bind].
  pose proof (read_body_run b0 (b0 :: b1 :: more) mask payload rest Hm Hp) as B. cbn [app] in B.
  rewrite (zlen_cons b0 (b1 :: more)) in B. rewrite (Z.add_comm _ 1) in B. rewrite B. do 2 f_equal.
  unfold b0. destruct (first_byte fin op Ho) as [-> ->]. done.
Qed.

(** ** Writing *)

Lemma store_append pre rest bs i : i = zlen pre -> zlen bs <= zlen rest ->
  store (pre ++ rest) i bs = WsOk ((pre ++ bs) ++ zdrop (zlen bs) rest).
Proof.
  intros -> Hl. unfold store. pose proof (zlen_nonneg pre). rewrite zlen_app. destruct (_ && _) eqn:E; [|lia].
  rewrite ztake_app, <- zdrop_zdrop, zdrop_app, <- app_assoc by apply zlen_nonneg. done.
Qed.

Section Encode.

Context (op : Z) (payload out : list Z) (Hop : 0 <= op < 16) (Hmax : zlen payload <= AIVM_WS_MAX_PAYLOAD).

Lemma lor_op : Z.lor 128 (Z.land op 15) = 128 + op.
Proof.
  change 15 with (2 ^ 4 - 1). rewrite land_ones_mod, Z.mod_small by (change (2 ^ 4) with 16; lia).
  apply (lor_shiftl_add 1 op 7); lia.
Qed.

(** The head the encoder writes: with two length bytes, it holds the low 16 bits. *)
Definition written_head : list Z :=
  if zlen payload <=? 125 then [128 + op; zlen payload]
  else [128 + op; 126; Z.land (Z.shiftr (u16 (zlen payload)) 8) 255; Z.land (u16 (zlen payload)) 255].

Lemma head_bounds : 2 <= zlen written_head <= 4.
Proof. unfold written_head. by destruct (_ <=? _). Qed.

Lemma store_head k o pre bs rest : o = pre ++ rest -> zlen pre = k -> zlen bs <= zlen rest ->
  store o k bs = WsOk ((pre ++ bs) ++ zdrop (zlen bs) rest).
Proof. intros -> <-. by apply store_append. Qed.

(** The last steps, after the head. *)
Lemma encode_tail head rest :
  (if zlen (head ++ rest) <? zlen head + zlen payload then WsNo
   else if 0 <? zlen payload then
     let! o := store (head ++ rest) (zlen head) payload in WsOk (o, zlen head + zlen payload)
   else WsOk (head ++ rest, zlen head)) =
  if zlen rest <? zlen payload then WsNo
  else WsOk (head ++ payload ++ zdrop (zlen payload) rest, zlen head + zlen payload).
Proof.
  rewrite zlen_app. pose proof (zlen_nonneg payload). destruct (Z.ltb_spec (zlen rest) (zlen payload)).
  { destruct (Z.ltb_spec (zlen head + zlen rest) (zlen head + zlen payload)); [done|lia]. }
  destruct (Z.ltb_spec (zlen head + zlen rest) (zlen head + zlen payload)); [lia|].
  destruct (Z.ltb_spec 0 (zlen payload)).
  - rewrite store_append by lia. cbn [ws_bind]. by rewrite <- app_assoc.
  - assert (E : payload = []) by (destruct payload; [done|unfold zlen in *; cbn in *; lia]). rewrite E, zlen_nil, Z.add_0_r. done.
Qed.

Lemma encode_control :
  aivm_ws_encode_server_control op payload out =
    if zlen out <? zlen written_head + zlen payload then WsNo
    else WsOk (written_head ++ payload ++ zdrop (zlen written_head + zlen payload) out, zlen written_head + zlen payload).
Proof.
  unfold aivm_ws_encode_server_control. pose proof (zlen_nonneg payload) as Hp. pose proof head_bounds as Hh.
  destruct (Z.ltb_spec AIVM_WS_MAX_PAYLOAD (zlen payload)); [lia|].
  destruct (Z.ltb_spec (zlen out) 2).
  { destruct (Z.ltb_spec (zlen out) (zlen written_head + zlen payload)); [done|lia]. }
  rewrite (store_head 0 _ [] _ out) by (change (zlen [_]) with 1; done || lia). cbn [ws_bind app]. change (zlen [_]) with 1. rewrite lor_op.
  unfold written_head in *. destruct (Z.leb_spec (zlen payload) 125).
  - rewrite (store_head 1 _ [128 + op] _ (zdrop 1 out)) by (rewrite ?zlen_zdrop; change (zlen [_]) with 1; done || lia). cbn [ws_bind app].
    change (zlen [_]) with 1. rewrite zdrop_zdrop by lia. change (1 + 1) with 2.
    pose proof (encode_tail [128 + op; zlen payload] (zdrop 2 out)) as T. rewrite zlen_zdrop in T by lia.
    change (zlen [128 + op; zlen payload]) with 2 in *. cbn [app] in T. rewrite T. rewrite zdrop_zdrop by lia.
    destruct (Z.ltb_spec (zlen out - 2) (zlen payload)), (Z.ltb_spec (zlen out) (2 + zlen payload)); (done || lia).
  - rewrite zlen_cons, zlen_zdrop by lia. set (h0 := Z.land (Z.shiftr _ 8) 255) in *. set (h1 := Z.land (u16 _) 255) in *.
    change (zlen [128 + op; 126; h0; h1]) with 4 in *.
    destruct (Z.ltb_spec (zlen out - 1 + 1) (1 + 3)).
    { destruct (Z.ltb_spec (zlen out) (4 + zlen payload)); [done|lia]. }
    rewrite (store_head 1 _ [128 + op] _ (zdrop 1 out)) by (rewrite ?zlen_zdrop; change (zlen [_]) with 1; done || lia). cbn [ws_bind app].
    change (zlen [_]) with 1. rewrite zdrop_zdrop by lia. change (1 + 1) with 2. unfold write_u16_be. fold h0 h1.
    rewrite (store_head 2 _ [128 + op; 126] _ (zdrop 2 out)) by (rewrite ?zlen_zdrop; change (zlen [h0; h1]) with 2; done || lia). cbn [ws_bind app].
    change (zlen [h0; h1]) with 2. rewrite zdrop_zdrop by lia. change (2 + 2) with 4.
    pose proof (encode_tail [128 + op; 126; h0; h1] (zdrop 4 out)) as T. rewrite zlen_zdrop in T by lia.
    change (zlen [128 + op; 126; h0; h1]) with 4 in *. cbn [app] in T. rewrite T. rewrite zdrop_zdrop by lia.
    destruct (Z.ltb_spec (zlen out - 4) (zlen payload)), (Z.ltb_spec (zlen out) (4 + zlen payload)); (done || lia).
Qed.

End Encode.

(** For a payload of at most 65535 bytes the server encoder writes the
    frame of RFC 6455 (FIN set, unmasked, shortest length form) at the start of the
    buffer and leaves the rest of it alone, or refuses when the frame does not fit. *)
Theorem ws_encode_server op payload out : 0 <= op < 16 -> zlen payload <= 65535 ->
  aivm_ws_encode_server_control op payload out =
    let frame := server_frame op payload in
    if zlen out <? zlen frame then WsNo else WsOk (frame ++ zdrop (zlen frame) out, zlen frame).
Proof.
  intros Ho Hp. pose proof (zlen_nonneg payload). rewrite encode_control by (unfold AIVM_WS_MAX_PAYLOAD; lia).
  assert (E : server_frame op payload = written_head op payload ++ payload).
  { unfold server_frame, written_head, length_field. destruct (Z.leb_spec (zlen payload) 125); [done|].
    destruct (Z.leb_spec (zlen payload) 65535); [|lia]. unfold be_bytes. cbn [seq map Nat.sub app].
    do 2 f_equal. unfold u16. rewrite (Z.mod_small (zlen payload) (2 ^ 16)) by (change (2 ^ 16) with 65536; lia). change 255 with (2 ^ 8 - 1).
    rewrite !land_ones_mod, Z.shiftr_div_pow2 by lia. change (256 ^ Z.of_nat 1) with (2 ^ 8). change (256 ^ Z.of_nat 0) with 1.
    by rewrite Z.div_1_r. }
  cbv zeta. rewrite E, zlen_app. destruct (_ <? _); [done|]. by rewrite <- app_assoc.
Qed.

(** A payload of 65536 bytes passes the size check, but its length is cut to 16 bits:
    the frame that is sent declares no payload, and 65536 stray bytes follow it. *)
Theorem ws_encode_full_payload op payload out : 0 <= op < 16 -> zlen payload = AIVM_WS_MAX_PAYLOAD -> 65540 <= zlen out ->
  aivm_ws_encode_server_control op payload out = WsOk ([128 + op; 126; 0; 0] ++ payload ++ zdrop 65540 out, 65540).
Proof.
  intros Ho Hp Hl. rewrite encode_control by lia. unfold written_head. rewrite Hp.
  change (AIVM_WS_MAX_PAYLOAD <=? 125) with false. cbn iota. change (Z.land _ 255) with 0 at 1. change (Z.land (u16 _) 255) with 0.
  change (zlen [128 + op; 126; 0; 0]) with 4. unfold AIVM_WS_MAX_PAYLOAD. destruct (Z.ltb_spec (zlen out) (4 + 65536)); [lia|]. done.
Qed.

(** ** Any bytes *)

(** [m] stays inside its buffers, and its outputs satisfy [P]. *)
Definition ws_inside {A} (m : ws A) (P : A -> Prop) : Prop :=
  match m with WsOk a => P a | WsNo => True | WsOob => False end.

Lemma ws_inside_bind {A B} (m : ws A) (f : A -> ws B) P Q :
  ws_inside m P -> (forall a, P a -> ws_inside (f a) Q) -> ws_inside (ws_bind m f) Q.
Proof. destruct m; cbn; auto. Qed.

Lemma lxor_byte a b : is_byte a -> is_byte b -> is_byte (Z.lxor a b).
Proof.
  intros [Ha0 Ha] [Hb0 Hb]. split; [by apply Z.lxor_nonneg|]. destruct (Z.eq_dec (Z.lxor a b) 0) as [->|Hne]; [done|].
  assert (H0 : 0 <= Z.lxor a b) by (by apply Z.lxor_nonneg). change 256 with (2 ^ 8). apply Z.log2_lt_pow2; [lia|].
  pose proof (Z.log2_lxor a b Ha0 Hb0). pose proof (Z.log2_le_mono a 255 ltac:(lia)). pose proof (Z.log2_le_mono b 255 ltac:(lia)).
  change (Z.log2 255) with 7 in *. lia.
Qed.

Section DecodeSafe.

Context (bytes : list Z) (Hb : bytes_ok bytes).

Lemma byte_inside i : 0 <= i < zlen bytes -> ws_inside (byte_at bytes i) is_byte.
Proof.
  intros Hi. destruct (byte_at_total bytes i Hi) as (b & -> & E). cbn. rewrite zget_lookup in E by lia.
  eapply Forall_lookup_1 in Hb; [|done]. done.
Qed.

Lemma lor_byte a b : 0 <= a -> is_byte b -> 0 <= Z.lor a b.
Proof. intros Ha [Hb0 _]. by apply Z.lor_nonneg. Qed.

Lemma u16_inside i : 0 <= i -> i + 2 <= zlen bytes -> ws_inside (read_u16_be bytes i) (fun v => 0 <= v).
Proof.
  intros H0 Hl. unfold read_u16_be. eapply ws_inside_bind; [apply byte_inside; lia|]. intros b0 Hb0.
  eapply ws_inside_bind; [apply byte_inside; lia|]. intros b1 Hb1. cbn. apply lor_byte; [|done].
  apply Z.shiftl_nonneg. destruct Hb0. lia.
Qed.

Lemma be_loop_inside n : forall i v, 0 <= v -> 0 <= i -> i + Z.of_nat n <= zlen bytes ->
  ws_inside (read_be_loop n bytes i v) (fun v => 0 <= v).
Proof.
  induction n as [|n IH]; intros i v Hv H0 Hl; cbn [read_be_loop]; [done|].
  eapply ws_inside_bind; [apply byte_inside; lia|]. intros b Hb1. apply IH; [|lia|lia].
  apply lor_byte; [|done]. unfold u64. apply Z.mod_pos_bound. lia.
Qed.

Lemma unmask_inside mask index n : zlen mask = 4 -> bytes_ok mask -> forall i, 0 <= index -> 0 <= i ->
  index + i + Z.of_nat n <= zlen bytes -> ws_inside (unmask_loop n bytes mask index i) (fun p => length p = n /\ bytes_ok p).
Proof.
  intros Hm Hmb. induction n as [|n IH]; intros i Hx Hi Hl; cbn [unmask_loop]; [by split; [|constructor]|].
  eapply ws_inside_bind; [apply byte_inside; lia|]. intros b Hb1.
  assert (Hmi : 0 <= i mod 4 < zlen mask) by (rewrite Hm; apply Z.mod_pos_bound; lia).
  destruct (byte_at_total mask (i mod 4) Hmi) as (m & -> & E). cbn [ws_bind].
  assert (Hmby : is_byte m) by (rewrite zget_lookup in E by lia; eapply Forall_lookup_1 in Hmb; [|done]; done).
  eapply ws_inside_bind; [apply IH; lia|]. intros rest [Hn Hr]. cbn. split; [by rewrite Hn|]. constructor; [by apply lxor_byte|done].
Qed.

Lemma length_inside b1 : is_byte b1 -> 2 <= zlen bytes ->
  ws_inside (read_length b1 bytes) (fun r => 0 <= r.1 /\ 2 <= r.2 <= zlen bytes).
Proof.
  intros Hb1 Hl. unfold read_length. destruct (_ =? 126); [|destruct (_ =? 127)].
  - destruct (Z.ltb_spec (zlen bytes) (2 + 2)); [done|]. eapply ws_inside_bind; [apply u16_inside; lia|].
    intros n Hn. cbn. cbn beta in Hn. lia.
  - destruct (Z.ltb_spec (zlen bytes) (2 + 8)); [done|]. eapply ws_inside_bind; [apply be_loop_inside; lia|].
    intros n Hn. cbn. cbn beta in Hn. lia.
  - cbn. split; [apply Z.land_nonneg; right; lia|lia].
Qed.

Lemma body_inside b0 n index : 0 <= n -> 2 <= index ->
  ws_inside (read_body b0 bytes n index) (fun r => 0 <= r.1 <= zlen bytes /\ bytes_ok (ws_payload r.2) /\
    zlen (ws_payload r.2) <= AIVM_WS_MAX_PAYLOAD).
Proof.
  intros Hn Hi. unfold read_body. destruct (Z.ltb_spec AIVM_WS_MAX_PAYLOAD n); [done|].
  destruct (Z.ltb_spec (zlen bytes) (index + 4)); [done|]. destruct (Z.ltb_spec (zlen bytes) (index + 4 + n)); [done|].
  eapply ws_inside_bind; [apply unmask_inside; [apply zlen_ztake; rewrite zlen_zdrop; lia|by apply Forall_take, Forall_drop|lia..]|].
  intros p [Hp Hpb]. cbn. split; [lia|]. split; [done|]. unfold zlen. lia.
Qed.

(** Whatever the bytes, the decoder reads inside them and consumes at most all of
    them, and the payload fits the frame's array. *)
Lemma ws_decode_inside : ws_inside (aivm_ws_decode_client_frame bytes)
  (fun r => 0 <= r.1 <= zlen bytes /\ bytes_ok (ws_payload r.2) /\ zlen (ws_payload r.2) <= AIVM_WS_MAX_PAYLOAD).
Proof.
  unfold aivm_ws_decode_client_frame. destruct (Z.ltb_spec (zlen bytes) 2); [done|].
  eapply ws_inside_bind; [apply byte_inside; lia|]. intros b0 Hb0. eapply ws_inside_bind; [apply byte_inside; lia|]. intros b1 Hb1.
  destruct (negb _); [done|]. eapply (ws_inside_bind (read_length b1 bytes)); [by apply length_inside|].
  intros [n index] [H1 H2]. cbn in H1, H2. apply body_inside; lia.
Qed.

End DecodeSafe.

Lemma ws_decode_client_witness :
  aivm_ws_decode_client_frame (client_frame true 2 [1; 2; 3; 4] [104; 105; 33; 33; 33] ++ [7; 7]) =
    WsOk (11, mk_ws_frame true 2 [104; 105; 33; 33; 33]).
Proof. apply (ws_decode_client true 2 [1; 2; 3; 4] [104; 105; 33; 33; 33] [7; 7]); done. Defined.

Lemma ws_encode_server_witness : aivm_ws_encode_server_control 2 [104; 105] [0; 0; 0; 0; 9] = WsOk ([130; 2; 104; 105] ++ [9], 4).
Proof. apply (ws_encode_server 2 [104; 105] [0; 0; 0; 0; 9]); done. Defined.

Lemma ws_encode_full_payload_witness :
  aivm_ws_encode_server_control 2 (repeat 7 (Z.to_nat 65536)) (repeat 0 (Z.to_nat 65540)) =
    WsOk ([128 + 2; 126; 0; 0] ++ repeat 7 (Z.to_nat 65536) ++ zdrop 65540 (repeat 0 (Z.to_nat 65540)), 65540).
Proof.
  apply (ws_encode_full_payload 2 (repeat 7 (Z.to_nat 65536)) (repeat 0 (Z.to_nat 65540)));
    [lia|unfold zlen; by rewrite repeat_length, Z2Nat.id|unfold zlen; by rewrite repeat_length, Z2Nat.id].
Defined.
