(* ===== verification/Workers.v ===== *)
(** * Worker programs and their capabilities

    src/src/aivm_worker_capabilities.c, aivm_worker_capacity.c, aivm_worker_program.c
    and aivm_host_abi.c: what a worker may do, how many run at once, how a catalog
    entry becomes a program that can be run, and whether a host fits the core.
    Composes the loader with the capability policies of the system calls. *)

From S2P Require Import Prelude Types Program LoaderSafety LoaderFormat Vm Stack Control Syscalls.

(** ** Capabilities *)

Definition AIVM_WORKER_CAPABILITY_FILESYSTEM : Z := 1.
Definition AIVM_WORKER_CAPABILITY_PROCESS : Z := 2.
Definition AIVM_WORKER_CAPABILITY_NETWORK : Z := 4.
Definition AIVM_WORKER_CAPABILITY_ENVIRONMENT : Z := 8.
Definition AIVM_WORKER_CAPABILITY_CLOCK : Z := 16.
Definition AIVM_WORKER_CAPABILITY_RANDOM : Z := 32.
Definition AIVM_WORKER_CAPABILITY_UI : Z := 64.
Definition AIVM_WORKER_CAPABILITY_DEBUG : Z := 128.
Definition AIVM_WORKER_CAPABILITY_REMOTE : Z := 256.
Definition AIVM_WORKER_CAPABILITY_STANDARD_STREAMS : Z := 512.

Definition include_capability (worker_mask worker_bit : Z) (g : AivmSyscallCapabilityGroup) : Z :=
  if negb (Z.land worker_mask worker_bit =? 0) then aivm_syscall_capability_mask g else 0.

(** The pairs, in the order of the code. *)
Definition worker_groups : list (Z * AivmSyscallCapabilityGroup) :=
  [(AIVM_WORKER_CAPABILITY_PROCESS, AIVM_SYSCALL_CAPABILITY_PROCESS);
   (AIVM_WORKER_CAPABILITY_NETWORK, AIVM_SYSCALL_CAPABILITY_NETWORK);
   (AIVM_WORKER_CAPABILITY_ENVIRONMENT, AIVM_SYSCALL_CAPABILITY_PROCESS);
   (AIVM_WORKER_CAPABILITY_CLOCK, AIVM_SYSCALL_CAPABILITY_TIME);
   (AIVM_WORKER_CAPABILITY_RANDOM, AIVM_SYSCALL_CAPABILITY_CRYPTO);
   (AIVM_WORKER_CAPABILITY_UI, AIVM_SYSCALL_CAPABILITY_UI);
   (AIVM_WORKER_CAPABILITY_DEBUG, AIVM_SYSCALL_CAPABILITY_DEBUG);
   (AIVM_WORKER_CAPABILITY_REMOTE, AIVM_SYSCALL_CAPABILITY_REMOTE);
   (AIVM_WORKER_CAPABILITY_STANDARD_STREAMS, AIVM_SYSCALL_CAPABILITY_CONSOLE)].

Definition aivm_worker_capability_syscall_mask (worker_mask : Z) : Z :=
  fold_left (fun result p => Z.lor result (include_capability worker_mask p.1 p.2)) worker_groups 0.

Definition supported_capabilities : Z := fold_left (fun s p => Z.lor s p.1) worker_groups 0.

Definition aivm_worker_capabilities_supported (worker_mask : Z) : bool :=
  Z.land worker_mask (u32 (Z.lnot supported_capabilities)) =? 0.

(** ** Capacity *)

(** [count] is what the system reports. *)
Definition aivm_worker_available_logical_cpu (count : Z) : Z := if 0 <? count then count else 1.

Definition aivm_worker_active_capacity (count profile_ceiling memory_safe_capacity : Z) : Z :=
  let available := aivm_worker_available_logical_cpu count in
  let cpu_target := u64 (available * 96) / 100 in
  let cpu_target := if cpu_target =? 0 then 1 else cpu_target in
  let result := cpu_target in
  let result := if (0 <? profile_ceiling) && (profile_ceiling <? result) then profile_ceiling else result in
  let result := if (0 <? memory_safe_capacity) && (memory_safe_capacity <? result) then memory_safe_capacity else result in
  if 0 <? result then result else 1.

(** ** Programs *)

Inductive AivmWorkerProgramStatus :=
  | AIVM_WORKER_PROGRAM_OK | AIVM_WORKER_PROGRAM_ERR_ARGUMENT | AIVM_WORKER_PROGRAM_ERR_CAPABILITY
  | AIVM_WORKER_PROGRAM_ERR_MEMORY | AIVM_WORKER_PROGRAM_ERR_ARTIFACT | AIVM_WORKER_PROGRAM_ERR_SIGNATURE.

Record AivmWorkerProgram := mk_worker_program {
  loaded : option AivmProgram; worker_function_target : Z; worker_required_capabilities : Z }.

Definition aivm_worker_program_clear : AivmWorkerProgram := mk_worker_program None 0 0.

(** The heap blocks that the fields of a program point to: the instructions and the
    constants above their inline capacities, the entries of the catalog, and an artifact
    for each entry.  The loader leaves no other block behind: a catalog that is refused
    frees its own. *)
Definition program_blocks (p : AivmProgram) : Z :=
  (if AIVM_PROGRAM_INLINE_INSTRUCTIONS <? instruction_capacity p then 1 else 0) +
  (if AIVM_PROGRAM_INLINE_CONSTANTS <? constant_capacity p then 1 else 0) +
  (if zlen (worker_catalog p) =? 0 then 0 else 1 + zlen (worker_catalog p)).

(** The record, and the number of blocks that were freed: those that releasing the
    program takes off its fields, and the structure itself. *)
Definition aivm_worker_program_release (wp : AivmWorkerProgram) : AivmWorkerProgram * Z :=
  match loaded wp with
  | Some p => (aivm_worker_program_clear, (program_blocks p - program_blocks (aivm_program_release p)) + 1)
  | None => (aivm_worker_program_clear, 0)
  end.

Section Prepare.

Context (host_alloc : nat -> Z -> bool) (SIZEOF_PROGRAM : Z).

(** Pointers are not NULL.  [None] is a read outside the instructions, or a loader
    that does not return.  The last component counts the blocks that the call allocated
    and did not free: the structure, what the loader put in it, less what is freed. *)
Definition aivm_worker_program_prepare (entry : AivmWorkerCatalogEntry) (parent_policy : AivmSyscallCapabilityPolicy)
    (tick : nat) : option (AivmWorkerProgram * AivmWorkerProgramStatus * nat * Z) :=
  if negb (aivm_worker_capabilities_supported (required_capabilities entry))
  then Some (aivm_worker_program_clear, AIVM_WORKER_PROGRAM_ERR_CAPABILITY, tick, 0)
  else
    let required := aivm_worker_capability_syscall_mask (required_capabilities entry) in
    if negb (Z.land required (u64 (Z.lnot (allowed_capability_mask parent_policy))) =? 0)
    then Some (aivm_worker_program_clear, AIVM_WORKER_PROGRAM_ERR_CAPABILITY, tick, 0)
    else if negb (host_alloc tick SIZEOF_PROGRAM) then Some (aivm_worker_program_clear, AIVM_WORKER_PROGRAM_ERR_MEMORY, S tick, 0)
    else
      match aivm_program_load_aibc1 host_alloc (Some (artifact entry)) (S tick) with
      | None => None
      | Some (p, AIVM_PROGRAM_OK, _, tick') =>
          let live := 1 + program_blocks p in
          let refuse :=
            let '(cleared, freed) := aivm_worker_program_release (mk_worker_program (Some p) 0 0) in
            Some (cleared, AIVM_WORKER_PROGRAM_ERR_SIGNATURE, tick', live - freed) in
          let target := function_target entry in
          if instruction_count p <=? target then refuse
          else
            match zget (instruction_store p) target with
            | None => None
            | Some i =>
                if negb (is_store_local i) then refuse
                else if instruction_count p <=? target + 1 then refuse
                else
                  match zget (instruction_store p) (target + 1) with
                  | None => None
                  | Some j =>
                      if is_store_local j then refuse
                      else Some (mk_worker_program (Some p) target required, AIVM_WORKER_PROGRAM_OK, tick', live)
                  end
            end
      | Some (p, _, _, tick') =>
          (* only the structure is freed *)
          let live := 1 + program_blocks p - 1 in
          Some (aivm_worker_program_clear, AIVM_WORKER_PROGRAM_ERR_ARTIFACT, tick', live)
      end.

End Prepare.

(** ** The host ABI *)

Inductive AivmHostAbiCompatibility :=
  | AIVM_HOST_ABI_COMPAT_OK | AIVM_HOST_ABI_COMPAT_INVALID | AIVM_HOST_ABI_COMPAT_CORE_TOO_OLD | AIVM_HOST_ABI_COMPAT_CORE_TOO_NEW.

(** The fields the check reads. *)
Record AivmHostAbiDescriptor := mk_host_abi {
  abi_version : Z; min_core_abi_version : Z; target_id : option string; host_name : option string }.

Definition aivm_host_abi_check_compatible (core_abi_version : Z) (host : option AivmHostAbiDescriptor) : AivmHostAbiCompatibility :=
  match host with
  | None => AIVM_HOST_ABI_COMPAT_INVALID
  | Some h =>
      if (abi_version h =? 0) || (min_core_abi_version h =? 0) || bool_decide (target_id h = None) || bool_decide (host_name h = None)
      then AIVM_HOST_ABI_COMPAT_INVALID
      else if core_abi_version <? min_core_abi_version h then AIVM_HOST_ABI_COMPAT_CORE_TOO_OLD
      else if abi_version h <? core_abi_version then AIVM_HOST_ABI_COMPAT_CORE_TOO_NEW
      else AIVM_HOST_ABI_COMPAT_OK
  end.

(** ** What the masks mean *)

(** The groups a worker mask stands for. *)
Definition granted_group (worker_mask : Z) (g : AivmSyscallCapabilityGroup) : Prop :=
  exists bit, (bit, g) ∈ worker_groups /\ Z.land worker_mask bit <> 0.

Lemma fold_include_bit worker_mask g : grantable g -> forall ps acc, Forall (fun p => grantable p.2) ps ->
  Z.testbit (fold_left (fun result p => Z.lor result (include_capability worker_mask p.1 p.2)) ps acc) (capability_code g) = true <->
  Z.testbit acc (capability_code g) = true \/ exists bit, (bit, g) ∈ ps /\ Z.land worker_mask bit <> 0.
Proof.
  intros Hg. induction ps as [|[bit h] ps IH]; intros acc Hps; cbn [fold_left].
  - split; [by left|]. intros [H|(b & Hb & _)]; [done|by apply elem_of_nil in Hb].
  - apply Forall_cons in Hps as [Hh Hps]. cbn [fst snd] in *. rewrite IH by done. rewrite Z.lor_spec, orb_true_iff.
    assert (E : Z.testbit (include_capability worker_mask bit h) (capability_code g) = true <-> h = g /\ Z.land worker_mask bit <> 0).
    { unfold include_capability. pose proof (code_range g Hg). destruct (Z.eqb_spec (Z.land worker_mask bit) 0); cbn [negb].
      - rewrite Z.bits_0. intuition congruence.
      - pose proof (code_range h Hh). rewrite mask_pow, Z.pow2_bits_eqb, Z.eqb_eq by (done || lia). split.
        + intros Ec. split; [by apply code_inj|done].
        + by intros [-> _]. }
    rewrite E. split.
    + intros [[H|[-> H]]|(b & Hb & H)]; [by left|right; exists bit; split; [by left|done]|right; exists b; split; [by right|done]].
    + intros [H|(b & Hb & H)]; [by left; left|]. apply elem_of_cons in Hb as [[= -> ->]|Hb]; [by left; right|right; by exists b].
Qed.

Lemma syscall_mask_allows worker_mask g :
  aivm_syscall_policy_allows (Some (mk_policy (aivm_worker_capability_syscall_mask worker_mask))) g = true <->
  granted_group worker_mask g.
Proof.
  rewrite allows_bit. cbn [allowed_capability_mask]. unfold aivm_worker_capability_syscall_mask, granted_group.
  assert (Hall : Forall (fun p => grantable p.2) worker_groups) by (repeat constructor; done).
  split.
  - intros [Hg H]. apply fold_include_bit in H as [H|H]; [by rewrite Z.bits_0 in H|done|done|done].
  - intros H. assert (Hg : grantable g).
    { destruct H as (bit & Hin & _). rewrite Forall_forall in Hall. by apply (Hall (bit, g)). }
    split; [done|]. apply fold_include_bit; [done|done|by right].
Qed.

(** No pair grants the file system. *)
Lemma filesystem_never worker_mask : ~ granted_group worker_mask AIVM_SYSCALL_CAPABILITY_FILESYSTEM.
Proof.
  intros (bit & Hin & _). unfold worker_groups in Hin.
  repeat (apply elem_of_cons in Hin as [Hin|Hin]; [by injection Hin|]). by apply elem_of_nil in Hin.
Qed.

(** A mask without bits outside another's. *)
Lemma ldiff_empty a b k : 0 <= k < 64 -> Z.land a (u64 (Z.lnot b)) = 0 -> Z.testbit a k = true -> Z.testbit b k = true.
Proof.
  intros Hk E Ha. apply (f_equal (fun x => Z.testbit x k)) in E. rewrite Z.land_spec, Z.bits_0, Ha in E. cbn [andb] in E.
  unfold u64 in E. rewrite Z.mod_pow2_bits_low, Z.lnot_spec in E by lia. by destruct (Z.testbit b k).
Qed.

Lemma required_within required parent g : Z.land required (u64 (Z.lnot (allowed_capability_mask parent))) = 0 ->
  aivm_syscall_policy_allows (Some (mk_policy required)) g = true -> aivm_syscall_policy_allows (Some parent) g = true.
Proof.
  intros E H. apply allows_bit in H as [Hg H]. apply allows_bit. split; [done|]. pose proof (code_range g Hg).
  cbn [allowed_capability_mask] in H. apply (ldiff_empty required); [lia|done|done].
Qed.

(** One STORE_LOCAL followed by another instruction is a function of one argument. *)
Lemma one_parameter p target i j : instruction_count p = zlen (instruction_store p) -> 0 <= target -> target + 1 < instruction_count p ->
  zget (instruction_store p) target = Some i -> is_store_local i = true ->
  zget (instruction_store p) (target + 1) = Some j -> is_store_local j = false -> infer_call_arg_count p target = 1.
Proof.
  intros Hn H0 Hl Hi Si Hj Sj. unfold infer_call_arg_count. destruct (Z.leb_spec (instruction_count p) target); [lia|].
  rewrite Hn. pose proof (ztake_app (instruction_store p) []) as T. rewrite app_nil_r in T. rewrite T.
  assert (D : forall k x, zget (instruction_store p) k = Some x -> zdrop k (instruction_store p) = x :: zdrop (k + 1) (instruction_store p)).
  { intros k x Hx. pose proof (zget_split _ _ _ Hx) as [Es El]. rewrite Es at 1. rewrite <- El at 1. by rewrite zdrop_app. }
  rewrite (D target i Hi), (D (target + 1) j Hj). cbn [count_store_locals]. by rewrite Si, Sj.
Qed.

(** Releasing gives back everything that a prepared worker holds. *)
Lemma release_frees p target required :
  aivm_worker_program_release (mk_worker_program (Some p) target required) = (aivm_worker_program_clear, 1 + program_blocks p).
Proof. unfold aivm_worker_program_release. cbn [loaded]. f_equal. change (program_blocks (aivm_program_release p)) with 0. lia. Qed.

(** What a prepared worker is. *)
Record confined (entry : AivmWorkerCatalogEntry) (parent : AivmSyscallCapabilityPolicy) (wp : AivmWorkerProgram) (p : AivmProgram) : Prop := {
  cf_loaded : loaded wp = Some p;
  cf_program : program_inv p /\ instruction_count p = zlen (instruction_store p);
  cf_target : worker_function_target wp = function_target entry;
  cf_parameters : infer_call_arg_count p (worker_function_target wp) = 1;
  cf_policy : forall g, aivm_syscall_policy_allows (Some (mk_policy (worker_required_capabilities wp))) g = true ->
    aivm_syscall_policy_allows (Some parent) g = true /\ granted_group (required_capabilities entry) g /\
    g <> AIVM_SYSCALL_CAPABILITY_FILESYSTEM }.

(** What is still allocated after the call, per status: nothing when the worker is
    refused for its capabilities, its memory or its signature; when its artifact does not
    load, what the loader had put into the program; otherwise what releasing the worker
    frees. *)
Definition left_allocated (host_alloc : nat -> Z -> bool) (entry : AivmWorkerCatalogEntry) (tick : nat)
    (wp : AivmWorkerProgram) (st : AivmWorkerProgramStatus) (blocks : Z) : Prop :=
  match st with
  | AIVM_WORKER_PROGRAM_OK => aivm_worker_program_release wp = (aivm_worker_program_clear, blocks)
  | AIVM_WORKER_PROGRAM_ERR_ARTIFACT => wp = aivm_worker_program_clear /\ exists p status offset tick',
      aivm_program_load_aibc1 host_alloc (Some (artifact entry)) (S tick) = Some (p, status, offset, tick') /\
      status <> AIVM_PROGRAM_OK /\ blocks = program_blocks p
  | AIVM_WORKER_PROGRAM_ERR_ARGUMENT => False
  | _ => wp = aivm_worker_program_clear /\ blocks = 0
  end.

(** C37: preparing a worker always returns, without reading outside the program.
    A refused worker leaves the record clear, and no block allocated when it is refused
    for its capabilities, for memory or for the signature of its function; when its
    artifact does not load, exactly the blocks the loader had allocated for the partial
    program stay allocated, with nothing that points to them.  An accepted worker has a
    well-formed program whose entry point takes exactly one argument, its release frees
    exactly the blocks the call allocated, and its policy allows only groups that the
    parent's policy allows and the catalog entry asks for, never the file system,
    whatever the entry and the parent say. *)
Theorem worker_confined host_alloc SIZEOF_PROGRAM entry parent tick :
  bytes_ok (artifact entry) -> 0 <= function_target entry ->
  exists wp st tick' blocks,
    aivm_worker_program_prepare host_alloc SIZEOF_PROGRAM entry parent tick = Some (wp, st, tick', blocks) /\
    left_allocated host_alloc entry tick wp st blocks /\
    (st = AIVM_WORKER_PROGRAM_OK -> exists p, confined entry parent wp p).
Proof.
  intros Hb Ht. unfold aivm_worker_program_prepare.
  destruct (negb (aivm_worker_capabilities_supported _)); [eexists _, _, _, _; split; [done|by split]|].
  destruct (Z.eqb_spec (Z.land (aivm_worker_capability_syscall_mask (required_capabilities entry))
    (u64 (Z.lnot (allowed_capability_mask parent)))) 0) as [Em|_]; cbn [negb]; [|eexists _, _, _, _; split; [done|by split]].
  destruct (negb (host_alloc _ _)); [eexists _, _, _, _; split; [done|by split]|].
  pose proof (load_total_ok host_alloc (artifact entry) (S tick) Hb) as L. unfold load_total in L at 2.
  destruct (aivm_program_load_aibc1 host_alloc (Some (artifact entry)) (S tick)) as [[[[p st] off] t]|] eqn:El; [|done].
  destruct L as [Hinv Hok]. rewrite release_frees, Z.sub_diag.
  destruct st; try (eexists _, _, _, _; split; [done|]; split; [|done]; split; [done|]; eexists _, _, _, _; split; [exact El|]; split; [done|lia]).
  destruct (Hok eq_refl) as [_ Hn _ _ _ _].
  destruct (Z.leb_spec (instruction_count p) (function_target entry)); [eexists _, _, _, _; split; [done|by split]|].
  destruct (zget_is_Some (instruction_store p) (function_target entry)) as [i Ei]; [lia|]. rewrite Ei.
  destruct (is_store_local i) eqn:Si; cbn [negb]; [|eexists _, _, _, _; split; [done|by split]].
  destruct (Z.leb_spec (instruction_count p) (function_target entry + 1)); [eexists _, _, _, _; split; [done|by split]|].
  destruct (zget_is_Some (instruction_store p) (function_target entry + 1)) as [j Ej]; [lia|]. rewrite Ej.
  destruct (is_store_local j) eqn:Sj; [eexists _, _, _, _; split; [done|by split]|].
  eexists _, _, _, _. split; [done|]. split; [by apply release_frees|]. intros _. exists p.
  constructor; cbn [loaded worker_function_target worker_required_capabilities]; [done|done|done|by eapply one_parameter|].
  intros g Hg. split; [by eapply required_within|].
  apply syscall_mask_allows in Hg. split; [done|]. intros ->. by apply filesystem_never in Hg.
Qed.

(** At least one worker runs, never more than the processors that are
    reported (or one), nor than the ceilings that are set; 96% of the processors when
    neither ceiling is set. *)
Theorem worker_capacity_bounds count profile memory : count < 2 ^ 57 -> 0 <= profile -> 0 <= memory ->
  let n := aivm_worker_active_capacity count profile memory in
  1 <= n <= Z.max 1 count /\ (0 < profile -> n <= profile) /\ (0 < memory -> n <= memory) /\
  (profile = 0 -> memory = 0 -> n = Z.max 1 (Z.max 1 count * 96 / 100)).
Proof.
  intros Hc Hp Hm. unfold aivm_worker_active_capacity, aivm_worker_available_logical_cpu.
  replace (if 0 <? count then count else 1) with (Z.max 1 count) by (destruct (Z.ltb_spec 0 count); lia).
  set (a := Z.max 1 count). assert (Ha : 1 <= a < 2 ^ 57) by lia. unfold u64. rewrite Z.mod_small by lia.
  assert (Hd : 0 <= a * 96 / 100 <= a) by (split; [apply Z.div_pos; lia|apply Z.div_le_upper_bound; lia]).
  set (d := a * 96 / 100) in *. cbv zeta. bdestruct_all; lia.
Qed.

(** An entry that asks for the clock and the network; its function returns its
    argument. *)
Definition sample_artifact : list Z :=
  encode_program 0 [mk_instruction AIVM_OP_STORE_LOCAL 0; mk_instruction AIVM_OP_LOAD_LOCAL 0; mk_instruction AIVM_OP_RETURN 0] [].
Definition sample_entry : AivmWorkerCatalogEntry := mk_entry 0 20 1 2 [] sample_artifact.

Lemma worker_confined_witness :
  exists wp tick' blocks p, aivm_worker_program_prepare (fun _ _ => true) 1000 sample_entry aivm_syscall_policy_allow_production_default 0 =
    Some (wp, AIVM_WORKER_PROGRAM_OK, tick', blocks) /\
    infer_call_arg_count p 0 = 1 /\ aivm_worker_program_release wp = (aivm_worker_program_clear, 1) /\
    aivm_syscall_policy_allows (Some (mk_policy (worker_required_capabilities wp))) AIVM_SYSCALL_CAPABILITY_TIME = true.
Proof.
  destruct (worker_confined (fun _ _ => true) 1000 sample_entry aivm_syscall_policy_allow_production_default 0)
    as (wp & st & tick' & blocks & E & Hleft & H).
  - repeat (constructor; [by vm_compute|]). constructor.
  - done.
  - assert (Eok : st = AIVM_WORKER_PROGRAM_OK /\ worker_function_target wp = 0 /\ blocks = 1 /\
      aivm_syscall_policy_allows (Some (mk_policy (worker_required_capabilities wp))) AIVM_SYSCALL_CAPABILITY_TIME = true)
      by (vm_compute in E; injection E as <- <- _ <-; by vm_compute).
    destruct Eok as (-> & Et & -> & Ea). destruct (H eq_refl) as (p & [_ _ _ Hi _]). rewrite Et in Hi. by exists wp, tick', 1, p.
Defined.

(** An artifact with a worker catalog of one entry, then a section that leaves the file:
    the worker is refused, and the two blocks of the catalog stay allocated. *)
Definition leaking_artifact : list Z :=
  let worker := sample_artifact in
  let entry := le32_bytes 0 ++ le32_bytes 0 ++ le32_bytes 1 ++ le32_bytes 2 ++ le32_bytes (zlen worker) ++
    aivm_worker_identity 0 0 1 2 worker ++ worker in
  let catalog := le32_bytes 1 ++ entry in
  [65; 73; 66; 67] ++ le32_bytes 2 ++ le32_bytes 0 ++ le32_bytes 2 ++ le32_bytes 3 ++ le32_bytes (zlen catalog) ++ catalog ++
    le32_bytes 1 ++ le32_bytes 1000.

Example artifact_leaks :
  exists tick', aivm_worker_program_prepare (fun _ _ => true) 1000 (mk_entry 0 0 1 2 [] leaking_artifact)
    aivm_syscall_policy_allow_production_default 0 =
    Some (aivm_worker_program_clear, AIVM_WORKER_PROGRAM_ERR_ARTIFACT, tick', 2).
Proof. eexists. vm_compute. reflexivity. Qed.

Lemma worker_capacity_bounds_witness : aivm_worker_active_capacity 8 4 0 = 4 /\ aivm_worker_active_capacity 8 4 0 <= 4.
Proof. split; [done|]. apply (worker_capacity_bounds 8 4 0); done. Defined.

(** A worker that declares only the environment is given the whole process group,
    starting processes included. *)
Lemma environment_allows_spawn :
  aivm_worker_capabilities_supported AIVM_WORKER_CAPABILITY_ENVIRONMENT = true /\
  aivm_syscall_policy_allows (Some (mk_policy (aivm_worker_capability_syscall_mask AIVM_WORKER_CAPABILITY_ENVIRONMENT)))
    (aivm_syscall_contract_capability (Some "sys.process.spawn"%string)) = true.
Proof. by vm_compute. Qed.
