(* ===== verification/ModuleCache.v ===== *)
(** * The module cache

    src/src/aivm_module_cache.c and [aivm_worker_catalog_copy]: a table of at most 64
    loaded programs under their names, each a deep copy.  Its contract is a finite map
    from names to programs that share no storage with anything else.

    A program is a structure at a [Place], and a string or byte constant points into the
    storage of a structure: [owners] says which, constant by constant.  Heap blocks are
    named by the request that allocated them. *)

From S2P Require Import Prelude Types Program LoaderSafety.

Inductive AivmModuleCacheStatus :=
  | AIVM_MODULE_CACHE_OK | AIVM_MODULE_CACHE_ERR_INVALID | AIVM_MODULE_CACHE_ERR_LIMIT
  | AIVM_MODULE_CACHE_ERR_DUPLICATE | AIVM_MODULE_CACHE_ERR_NOT_FOUND.

Definition AIVM_MODULE_CACHE_MAX_MODULES : Z := 64.
Definition AIVM_MODULE_CACHE_MAX_NAME_LENGTH : Z := 128.
Definition AIVM_MODULE_CACHE_MAX_BYTES : Z := 32 * 1024 * 1024.

(** ** Where programs are *)

(** A slot of the cache, or a structure of the caller. *)
Inductive Place := Slot (index : nat) | Outside (id : nat).
Global Instance place_eq_dec : EqDecision Place.
Proof. solve_decision. Defined.

(** A program structure: where it is, its fields, the structure into whose storage each
    constant points, and the heap blocks its fields point to.  The offsets of string and
    byte constants are relative to the storage of their owner. *)
Record Placed := mk_placed {
  place : Place; content : AivmProgram; owners : list (option Place); blocks : list nat }.

Record AivmModuleCacheEntry := mk_cache_entry {
  entry_name : list Z; program : Placed; estimated_bytes : Z; active : bool }.
Record AivmModuleCache := mk_cache {
  entries : list AivmModuleCacheEntry; count : Z; estimated_bytes_used : Z }.

(** Memory after [memset]. *)
Definition zero_program : AivmProgram := mk_program [] 0 0 [] 0 0 0 0 0 [] [] [] [].
Definition zero_placed (index : nat) : Placed := mk_placed (Slot index) zero_program [] [].
Definition zero_entry (index : nat) : AivmModuleCacheEntry := mk_cache_entry [] (zero_placed index) 0 false.

(** The requests made so far and the blocks that are allocated. *)
Record Heap := mk_heap { requests : nat; live : gset nat }.

Definition free_blocks (bs : list nat) (h : Heap) : Heap := mk_heap (requests h) (live h ∖ list_to_set bs).

(** [aivm_program_release]: what the fields point to is freed. *)
Definition release_placed (p : Placed) (h : Heap) : Placed * Heap :=
  (mk_placed (place p) (aivm_program_release (content p)) [] [], free_blocks (blocks p) h).

Definition set_content (q : AivmProgram) (p : Placed) : Placed := mk_placed (place p) q (owners p) (blocks p).
Definition add_blocks (bs : list nat) (p : Placed) : Placed := mk_placed (place p) (content p) (owners p) (blocks p ++ bs).

(** [constants[index] = value], with the owner of its pointer. *)
Definition write_owned (p : Placed) (index : Z) (o : option Place) (v : AivmValue) : option Placed :=
  q ← write_constant (content p) index v;
  if index =? zlen (owners p) then Some (mk_placed (place p) q (owners p ++ [o]) (blocks p)) else None.

Definition valid_name (name : option (list Z)) : bool :=
  match name with
  | None | Some [] => false
  | Some name => zlen name <? AIVM_MODULE_CACHE_MAX_NAME_LENGTH
  end.

Section Cache.

(** The allocator, and the size of an [AivmProgram] without its inline storage. *)
Context (host_alloc : nat -> Z -> bool) (program_base : Z).

(** [malloc] and [calloc]: the block is named by the request. *)
Definition heap_alloc (size : Z) (h : Heap) : option nat * Heap :=
  if host_alloc (requests h) size
  then (Some (requests h), mk_heap (S (requests h)) ({[requests h]} ∪ live h))
  else (None, mk_heap (S (requests h)) (live h)).

(** A step of the loader that may have allocated a block: the request it made, when it
    made one and it was granted. *)
Definition granted (r : option AivmProgram * nat) (p : Placed) (h : Heap) : option Placed * Heap :=
  let fresh := seq (requests h) (r.2 - requests h) in
  match r.1 with
  | Some q => (Some (add_blocks fresh (set_content q p)), mk_heap r.2 (live h ∪ list_to_set fresh))
  | None => (None, mk_heap r.2 (live h))
  end.

Definition add_part (total part : Z) : Z :=
  match aivm_size_add_checked total part with Some n => n | None => total end.

Definition estimate_program_bytes (p : AivmProgram) : Z :=
  let total := add_part program_base (u64 (instruction_count p * SIZEOF_INSTRUCTION)) in
  let total := add_part total (u64 (constant_count p * SIZEOF_VALUE)) in
  let total := add_part total (zlen (string_storage p)) in
  add_part total (zlen (bytes_storage p)).

(** ** Copying *)

(** The artifacts of a catalog, entry by entry, each into a block of its own; [held] are
    the blocks of the destination so far.  A refused block releases them all. *)
Fixpoint copy_entries (es : list AivmWorkerCatalogEntry) (held : list nat) (h : Heap)
    : option (list AivmWorkerCatalogEntry * list nat) * Heap :=
  match es with
  | [] => (Some ([], held), h)
  | e :: rest =>
      match heap_alloc (if zlen (artifact e) =? 0 then 1 else zlen (artifact e)) h with
      | (None, h) => (None, free_blocks held h)
      | (Some block, h) =>
          let copy := mk_entry (function_target e) (required_capabilities e) (transport_abi e) (bytecode_version e) (identity e)
            (ztake (zlen (artifact e)) (artifact e)) in
          match copy_entries rest (held ++ [block]) h with
          | (Some (copied, held), h) => (Some (copy :: copied, held), h)
          | (None, h) => (None, h)
          end
      end
  end.

(** The entries of the copy and the blocks they are in. *)
Definition aivm_worker_catalog_copy (source : list AivmWorkerCatalogEntry) (h : Heap)
    : option (list AivmWorkerCatalogEntry * list nat) * Heap :=
  if zlen source =? 0 then (Some ([], []), h)
  else
    match heap_alloc (zlen source * SIZEOF_CATALOG_ENTRY) h with
    | (None, h) => (None, h)
    | (Some block, h) => copy_entries source [block] h
    end.

(** The offset of a pointer in the storage of the structure at [start], of which [length]
    bytes are used; a pointer into another structure is outside it. *)
Definition pointer_in_range (pointer : option (Place * Z)) (start : Place) (length : Z) : option Z :=
  match pointer with
  | None => None
  | Some (owner, off) =>
      if bool_decide (owner = start) then (if off <? 0 then None else if length <? off then None else Some off) else None
  end.

(** A pointer that does not point into a program structure is in none of its storages. *)
Definition string_pointer (owner : option Place) (p : str_ptr) : option (Place * Z) :=
  match owner, p with Some o, SProgram off => Some (o, off) | _, _ => None end.
Definition bytes_pointer (owner : option Place) (p : bytes_ptr) : option (Place * Z) :=
  match owner, p with Some o, BProgram off => Some (o, off) | _, _ => None end.

(** The value for the constants of [destination], and the structure it points into. *)
Definition copy_constant (source : Placed) (destination : Place) (owner : option Place) (value : AivmValue)
    : option (option Place * AivmValue) :=
  match value with
  | VString p =>
      match pointer_in_range (string_pointer owner p) (place source) (zlen (string_storage (content source))) with
      | None => None
      | Some offset => Some (Some destination, VString (SProgram offset))
      end
  | VBytes p length =>
      if 0 <? length then
        match pointer_in_range (bytes_pointer owner p) (place source) (zlen (bytes_storage (content source))) with
        | None => None
        | Some offset => Some (Some destination, VBytes (BProgram offset) length)
        end
      else Some (None, VBytes BNull length)
  | _ => Some (owner, value)
  end.

(** The instructions from [index] on; [None] is an access outside an array. *)
Fixpoint copy_instructions (n : nat) (source destination : AivmProgram) (index : Z) : option AivmProgram :=
  match n with
  | O => Some destination
  | S n' =>
      i ← zget (instruction_store source) index;
      d ← write_instruction destination index i;
      copy_instructions n' source d (index + 1)
  end.

(** The constants from [index] on; the flag is false when a constant points outside the
    program. *)
Fixpoint copy_constants (n : nat) (source destination : Placed) (index : Z) : option (Placed * bool) :=
  match n with
  | O => Some (destination, true)
  | S n' =>
      v ← zget (constant_store (content source)) index;
      o ← zget (owners source) index;
      match copy_constant source (place destination) o v with
      | None => Some (destination, false)
      | Some (o', v') =>
          d ← write_owned destination index o' v';
          copy_constants n' source d (index + 1)
      end
  end.

(** The fields that are set before storage is reserved. *)
Definition copy_header (source d : AivmProgram) : AivmProgram :=
  let d := set_header (format_version source) (format_flags source) (section_count source) d in
  let d := set_instructions (instruction_store d) (instruction_count source) (instruction_capacity d) d in
  set_constants (constant_store d) (constant_count source) (constant_capacity d) d.

(** The destination, and what the function returns. *)
Definition copy_program (destination source : Placed) (h : Heap) : option (Placed * bool * Heap) :=
  let src := content source in
  if (AIVM_PROGRAM_MAX_SECTIONS <? section_count src) || (AIVM_PROGRAM_MAX_STRING_BYTES <? zlen (string_storage src)) ||
     (AIVM_PROGRAM_MAX_BYTES_STORAGE <? zlen (bytes_storage src))
  then Some (destination, false, h)
  else
    let d0 := mk_placed (place destination) (copy_header src aivm_program_clear) [] [] in
    match granted (aivm_program_instructions_reserve host_alloc (content d0) (instruction_count src) (requests h)) d0 h with
    | (None, h) => Some (d0, false, h)
    | (Some d1, h) =>
        match granted (aivm_program_constants_reserve host_alloc (content d1) (constant_count src) (requests h)) d1 h with
        | (None, h) => Some (d1, false, h)
        | (Some d2, h) =>
            match aivm_worker_catalog_copy (worker_catalog src) h with
            | (None, h) => let '(d, h) := release_placed d2 h in Some (d, false, h)
            | (Some (catalog, held), h) =>
                let q := set_sections (ztake (section_count src) (sections src)) (set_catalog catalog (content d2)) in
                q ← copy_instructions (Z.to_nat (instruction_count src)) src q 0;
                let q := set_storage (string_storage src) (bytes_storage src) q in
                r ← copy_constants (Z.to_nat (constant_count src)) source (add_blocks held (set_content q d2)) 0;
                Some (r.1, r.2, h)
            end
        end
    end.

(** ** Operations *)

Definition find_entry (c : AivmModuleCache) (name : list Z) : option (nat * AivmModuleCacheEntry) :=
  list_find (fun e => active e = true /\ entry_name e = name) (entries c).



Definition aivm_module_cache_put (c : AivmModuleCache) (name : option (list Z)) (source : Placed) (h : Heap) :
    option (AivmModuleCache * AivmModuleCacheStatus * Heap) :=
  match name with
  | None => Some (c, AIVM_MODULE_CACHE_ERR_INVALID, h)
  | Some name =>
      if negb (valid_name (Some name)) then Some (c, AIVM_MODULE_CACHE_ERR_INVALID, h)
      else if bool_decide (find_entry c name <> None) then Some (c, AIVM_MODULE_CACHE_ERR_DUPLICATE, h)
      else if AIVM_MODULE_CACHE_MAX_MODULES <=? count c then Some (c, AIVM_MODULE_CACHE_ERR_LIMIT, h)
      else
        let estimate := estimate_program_bytes (content source) in
        match aivm_size_add_checked (estimated_bytes_used c) estimate with
        | None => Some (c, AIVM_MODULE_CACHE_ERR_LIMIT, h)
        | Some needed =>
            if AIVM_MODULE_CACHE_MAX_BYTES <? needed then Some (c, AIVM_MODULE_CACHE_ERR_LIMIT, h)
            else
              match list_find (fun e => active e = false) (entries c) with
              | None => Some (c, AIVM_MODULE_CACHE_ERR_LIMIT, h)
              | Some (i, _) =>
                  r ← copy_program (zero_placed i) source h;
                  match r with
                  | (p, false, h) =>
                      let h := (release_placed p h).2 in
                      Some (mk_cache (<[i := zero_entry i]> (entries c)) (count c) (estimated_bytes_used c),
                            AIVM_MODULE_CACHE_ERR_INVALID, h)
                  | (p, true, h) =>
                      let slot := mk_cache_entry (ztake (AIVM_MODULE_CACHE_MAX_NAME_LENGTH - 1) name) p estimate true in
                      Some (mk_cache (<[i := slot]> (entries c)) (count c + 1) needed, AIVM_MODULE_CACHE_OK, h)
                  end
              end
        end
  end.


(** What the loader leaves in a local structure: its constants point into it.  Its own
    heap blocks, which it releases before it returns, are not followed. *)
Definition local_program (p : AivmProgram) : Placed :=
  mk_placed (Outside 0) p (replicate (length (constant_store p)) (Some (Outside 0))) [].

(** The cache, the status and the loader's result. *)
Definition aivm_module_cache_load_aibc1 (c : AivmModuleCache) (name : option (list Z)) (bytes : option (list Z)) (h : Heap) :
    option (AivmModuleCache * AivmModuleCacheStatus * (AivmProgramStatus * Z) * Heap) :=
  if negb (valid_name name) || bool_decide (bytes = None)
  then Some (c, AIVM_MODULE_CACHE_ERR_INVALID, (AIVM_PROGRAM_ERR_NULL, 0), h)
  else
    r ← aivm_program_load_aibc1 host_alloc bytes (requests h);
    let '(loaded, status, offset, tick) := r in
    let h := mk_heap tick (live h) in
    if negb (bool_decide (status = AIVM_PROGRAM_OK)) then Some (c, AIVM_MODULE_CACHE_ERR_INVALID, (status, offset), h)
    else
      r ← aivm_module_cache_put c name (local_program loaded) h;
      let '(c, st, h) := r in Some (c, st, (status, offset), (release_placed (local_program loaded) h).2).

Definition aivm_module_cache_estimated_bytes (c : AivmModuleCache) : Z := estimated_bytes_used c.

End Cache.

(** ** The heap *)

Definition heap_ok (h : Heap) : Prop := forall b, b ∈ live h -> (b < requests h)%nat.

(** From [h] to [h'] exactly the blocks [bs] were added, by requests made meanwhile. *)
Record allocates (h h' : Heap) (bs : list nat) : Prop := {
  al_requests : (requests h <= requests h')%nat;
  al_live : live h' = live h ∪ list_to_set bs;
  al_fresh : Forall (fun b => requests h <= b < requests h')%nat bs;
  al_distinct : NoDup bs }.

Lemma allocates_none h n : (requests h <= n)%nat -> allocates h (mk_heap n (live h)) [].
Proof. intros H. constructor; cbn; [done|set_solver|done|constructor]. Qed.

Lemma allocates_same h : allocates h h [].
Proof. constructor; cbn; [done|set_solver|done|constructor]. Qed.

Lemma allocates_app h h1 h2 a b : allocates h h1 a -> allocates h1 h2 b -> allocates h h2 (a ++ b).
Proof.
  intros [R1 L1 F1 D1] [R2 L2 F2 D2]. constructor.
  - lia.
  - rewrite L2, L1, list_to_set_app_L. set_solver.
  - apply Forall_app. split; eapply Forall_impl; [exact F1| |exact F2|]; cbn; lia.
  - apply NoDup_app. split; [done|]. split; [|done]. intros x Ha Hb. rewrite Forall_forall in F1, F2.
    specialize (F1 x Ha). specialize (F2 x Hb). lia.
Qed.

(** What was allocated can be given back. *)
Lemma allocates_free h h' bs : heap_ok h -> allocates h h' bs -> allocates h (free_blocks bs h') [].
Proof.
  intros Hh [R L F D]. constructor; cbn [free_blocks requests live]; [done| |done|constructor].
  rewrite L. apply set_eq. intros x. rewrite Forall_forall in F. specialize (Hh x). specialize (F x).
  rewrite elem_of_difference, !elem_of_union, !elem_of_list_to_set. split; [set_solver|].
  intros [Hx|Hx]; [|by apply not_elem_of_nil in Hx]. split; [by left|]. intros Hb. specialize (Hh Hx). specialize (F Hb). lia.
Qed.

Lemma allocates_ok h h' bs : heap_ok h -> allocates h h' bs -> heap_ok h'.
Proof.
  intros Hh [R L F D] b Hb. rewrite L, elem_of_union, elem_of_list_to_set in Hb. destruct Hb as [Hb|Hb].
  - specialize (Hh b Hb). lia.
  - rewrite Forall_forall in F. specialize (F b Hb). lia.
Qed.

(** ** A copy has the same content *)

(** A byte view without bytes points nowhere in the copy. *)
Definition normal (v : AivmValue) : AivmValue :=
  match v with VBytes _ 0 => VBytes BNull 0 | _ => v end.

(** The constants of a structure at [pl] point into that structure. *)
Definition points_into (pl : Place) (o : option Place) (v : AivmValue) : Prop :=
  match v with VString _ => o = Some pl | VBytes _ len => 0 < len -> o = Some pl | _ => True end.

(** Programs as the loader and the cache leave them. *)
Record source_ok (s : Placed) : Prop := {
  src_values : Forall (fun v => constant_ok (content s) v \/ v = VBytes BNull 0) (constant_store (content s));
  src_storage : zlen (string_storage (content s)) <= AIVM_PROGRAM_MAX_STRING_BYTES /\
                zlen (bytes_storage (content s)) <= AIVM_PROGRAM_MAX_BYTES_STORAGE;
  src_instructions : instruction_count (content s) = zlen (instruction_store (content s));
  src_constants : constant_count (content s) = zlen (constant_store (content s));
  src_sections : section_count (content s) = zlen (sections (content s)) /\ section_count (content s) <= AIVM_PROGRAM_MAX_SECTIONS;
  src_owners : Forall2 (points_into (place s)) (owners s) (constant_store (content s)) }.

Record copied (p q : AivmProgram) : Prop := {
  cp_instructions : instruction_store q = instruction_store p /\ instruction_count q = instruction_count p;
  cp_constants : constant_store q = map normal (constant_store p) /\ constant_count q = constant_count p;
  cp_format : format_version q = format_version p /\ format_flags q = format_flags p;
  cp_sections : sections q = sections p /\ section_count q = section_count p;
  cp_storage : string_storage q = string_storage p /\ bytes_storage q = bytes_storage p;
  cp_catalog : worker_catalog q = worker_catalog p;
  cp_capacity : zlen (instruction_store q) <= instruction_capacity q /\ zlen (constant_store q) <= constant_capacity q }.

(** The text or the bytes that a constant points to, read through the memory. *)
Definition constant_data (mem : Place -> AivmProgram) (o : option Place) (v : AivmValue) : option (list Z) :=
  match v with
  | VString (SProgram off) => pl ← o; Some (cstr (zdrop off (string_storage (mem pl))))
  | VBytes p len =>
      if len =? 0 then Some []
      else match p with BProgram off => pl ← o; Some (slice (bytes_storage (mem pl)) off len) | _ => None end
  | _ => None
  end.
Definition constants_data (mem : Place -> AivmProgram) (p : Placed) : list (option (list Z)) :=
  zip_with (constant_data mem) (owners p) (constant_store (content p)).

(** A copy with nothing in common: its constants point into the copy, and read the same
    there as the source's did, whatever the memory outside the copy has become. *)
Record deep_copy (s q : Placed) : Prop := {
  dc_copied : copied (content s) (content q);
  dc_owners : Forall2 (points_into (place q)) (owners q) (constant_store (content q));
  dc_data : forall mem mem', mem (place s) = content s -> mem' (place q) = content q ->
    constants_data mem' q = constants_data mem s }.

Lemma data_same a b mem mem' vs : forall os os', Forall2 (points_into a) os vs -> Forall2 (points_into b) os' (map normal vs) ->
  Forall (fun v => constant_ok (mem a) v \/ v = VBytes BNull 0) vs ->
  string_storage (mem' b) = string_storage (mem a) -> bytes_storage (mem' b) = bytes_storage (mem a) ->
  zip_with (constant_data mem') os' (map normal vs) = zip_with (constant_data mem) os vs.
Proof.
  induction vs as [|v vs IH]; intros os os' H1 H2 Hv Es Eb.
  - apply Forall2_nil_inv_r in H1 as ->. by destruct os'.
  - apply Forall2_cons_inv_r in H1 as (o & os1 & Ho & H1 & ->). cbn [map] in H2.
    apply Forall2_cons_inv_r in H2 as (o' & os1' & Ho' & H2 & ->). apply Forall_cons in Hv as [Hv Hvs].
    cbn [zip_with map]. f_equal; [|by apply IH]. destruct v as [| | | | |p|p len| | | | | | | | |]; try done.
    + cbn in Ho, Ho'. subst. destruct p; try done. cbn. by rewrite Es.
    + destruct Hv as [Hv|[= -> ->]]; [|done]. destruct p; try done. cbn in Hv, Ho, Ho' |- *. destruct len as [|len|len]; [done| |lia].
      cbn in Ho'. rewrite Ho, Ho' by lia. cbn. by rewrite Eb.
Qed.

(** A cached program can be a source again. *)
Lemma deep_source s q : source_ok s -> deep_copy s q -> source_ok q.
Proof.
  intros [Hv [Hs Hb] Hi Hc [Hse Hsm] Ho] [[[Ei Ein] [Ec Ecn] _ [Es Esn] [Est Eby] _ _] Hown _]. constructor; [| | | | |done].
  - rewrite Ec. apply Forall_fmap. eapply Forall_impl; [exact Hv|]. intros v [H| ->]; cbn; [|by right].
    destruct v as [| | | | |p|p len| | | | | | | | |]; try (by left).
    + left. destruct p; try done. cbn in *. by rewrite Est.
    + destruct p; try done. cbn in H. destruct len as [|len|len]; [by right| |lia]. left. cbn. by rewrite Eby.
  - by rewrite Est, Eby.
  - by rewrite Ein, Ei.
  - by rewrite Ecn, Ec, zlen_map.
  - by rewrite Esn, Es.
Qed.

Section Copying.

Context (host_alloc : nat -> Z -> bool).

(** A request between two heaps that was refused. *)
Definition refused (h h' : Heap) : Prop := exists t size, (requests h <= t < requests h')%nat /\ host_alloc t size = false.

Lemma refused_wider h h1 h2 h3 : (requests h <= requests h1)%nat -> (requests h2 <= requests h3)%nat -> refused h1 h2 -> refused h h3.
Proof. intros Ha Hb (t & size & Ht & E). exists t, size. split; [lia|done]. Qed.

Lemma heap_alloc_spec size h : match heap_alloc host_alloc size h with
  | (Some b, h') => allocates h h' [b]
  | (None, h') => allocates h h' [] /\ refused h h'
  end.
Proof.
  unfold heap_alloc. destruct (host_alloc _ _) eqn:E.
  - constructor; cbn; [lia|set_solver|constructor; [lia|done]|apply NoDup_singleton].
  - split; [apply allocates_none; lia|]. exists (requests h), size. cbn. split; [lia|done].
Qed.

Lemma copy_entries_spec h0 es : heap_ok h0 -> forall held h, allocates h0 h held ->
  match copy_entries host_alloc es held h with
  | (Some (es', held'), h') => es' = es /\ allocates h0 h' held'
  | (None, h') => allocates h0 h' [] /\ refused h0 h'
  end.
Proof.
  intros Hh. induction es as [|e es IH]; intros held h Ha; cbn [copy_entries]; [done|].
  pose proof (heap_alloc_spec (if zlen (artifact e) =? 0 then 1 else zlen (artifact e)) h) as S.
  destruct (heap_alloc _ _ _) as [[b|] h1].
  - specialize (IH (held ++ [b]) h1 (allocates_app _ _ _ _ _ Ha S)).
    destruct (copy_entries _ _ _ _) as [[[es' held']|] h2]; [|done]. destruct IH as [-> Hal]. split; [|done]. destruct e as [? ? ? ? ? a]. cbn [artifact].
    pose proof (ztake_app a []) as T. rewrite app_nil_r in T. cbn. by rewrite T.
  - destruct S as [S R]. pose proof (allocates_app _ _ _ _ _ Ha S) as A. rewrite app_nil_r in A. split; [by apply allocates_free|].
    eapply refused_wider; [apply Ha|done|exact R].
Qed.

Lemma catalog_copy_spec es h : heap_ok h -> match aivm_worker_catalog_copy host_alloc es h with
  | (Some (es', held), h') => es' = es /\ allocates h h' held
  | (None, h') => allocates h h' [] /\ refused h h'
  end.
Proof.
  intros Hh. unfold aivm_worker_catalog_copy. destruct (Z.eqb_spec (zlen es) 0) as [E|_].
  - assert (es = []) as -> by (destruct es; [done|unfold zlen in E; cbn in E; lia]). split; [done|apply allocates_same].
  - pose proof (heap_alloc_spec (zlen es * SIZEOF_CATALOG_ENTRY) h) as S. destruct (heap_alloc _ _ _) as [[b|] h1]; [|done].
    by apply copy_entries_spec.
Qed.

Lemma drop_cons {A} (l : list A) i x : zget l i = Some x -> zdrop i l = x :: zdrop (i + 1) l.
Proof. intros H. pose proof (zget_split _ _ _ H) as [Es El]. rewrite Es at 1. rewrite <- El at 1. by rewrite zdrop_app. Qed.

Lemma zdrop_all {A} (l : list A) i : zlen l <= i -> zdrop i l = [].
Proof. intros H. unfold zdrop. apply drop_ge. unfold zlen in H. lia. Qed.

Lemma copy_instructions_run src n : forall d index, zlen (instruction_store d) = index ->
  index + Z.of_nat n = zlen (instruction_store src) -> zlen (instruction_store src) <= instruction_capacity d ->
  copy_instructions n src d index =
    Some (set_instructions (instruction_store d ++ zdrop index (instruction_store src)) (instruction_count d) (instruction_capacity d) d).
Proof.
  induction n as [|n IH]; intros d index Hd Hn Hc; cbn [copy_instructions].
  - rewrite zdrop_all, app_nil_r by lia. by destruct d.
  - pose proof (zlen_nonneg (instruction_store d)). destruct (zget_is_Some (instruction_store src) index) as [i Ei]; [lia|].
    rewrite Ei. cbn [mbind option_bind]. unfold write_instruction. replace (_ && _) with true by lia. cbn [mbind option_bind].
    rewrite IH; cbn [set_instructions instruction_store instruction_capacity instruction_count];
      [|rewrite zlen_app; change (zlen [i]) with 1; lia|lia|lia].
    by rewrite (drop_cons _ _ _ Ei), <- app_assoc.
Qed.

Lemma in_range pl off len : 0 <= off <= len -> pointer_in_range (Some (pl, off)) pl len = Some off.
Proof.
  intros H. unfold pointer_in_range. rewrite bool_decide_eq_true_2 by done.
  destruct (Z.ltb_spec off 0); [lia|]. destruct (Z.ltb_spec len off); [lia|done].
Qed.

Lemma copy_constant_normal src dst o v : constant_ok (content src) v \/ v = VBytes BNull 0 -> points_into (place src) o v ->
  exists o', copy_constant src dst o v = Some (o', normal v) /\ points_into dst o' (normal v).
Proof.
  intros [Hv| ->] Ho; [|eexists; split; [reflexivity|done]]. destruct v as [| | | | |p|p len| | | | | | | | |]; try (eexists; split; [reflexivity|done]; fail); cbn [constant_ok copy_constant points_into] in *.
  - destruct p as [| |off|]; try done. destruct Hv as [H0 Hin]. subst o. cbn [string_pointer].
    assert (off < zlen (string_storage (content src))).
    { destruct (Z.lt_ge_cases off (zlen (string_storage (content src)))) as [|Hge]; [done|]. rewrite zdrop_all in Hin by done. by apply elem_of_nil in Hin. }
    rewrite in_range by lia. eexists; split; [reflexivity|done].
  - destruct p as [| |off|]; try done. destruct Hv as (H0 & Hl & Hs).
    destruct (Z.ltb_spec 0 len) as [Hp|]; [|replace len with 0 by lia; eexists; split; [reflexivity|done]]. rewrite (Ho Hp). cbn [bytes_pointer].
    rewrite in_range by lia. destruct len; [done|eexists; split; [reflexivity|done]|done].
Qed.

Lemma copy_constants_run src n : Forall (fun v => constant_ok (content src) v \/ v = VBytes BNull 0) (constant_store (content src)) ->
  Forall2 (points_into (place src)) (owners src) (constant_store (content src)) ->
  forall d index, zlen (constant_store (content d)) = index -> zlen (owners d) = index ->
  index + Z.of_nat n = zlen (constant_store (content src)) -> zlen (constant_store (content src)) <= constant_capacity (content d) ->
  exists os, copy_constants n src d index =
    Some (mk_placed (place d) (set_constants (constant_store (content d) ++ map normal (zdrop index (constant_store (content src))))
            (constant_count (content d)) (constant_capacity (content d)) (content d)) (owners d ++ os) (blocks d), true) /\
    Forall2 (points_into (place d)) os (map normal (zdrop index (constant_store (content src)))).
Proof.
  intros Hok Hown. induction n as [|n IH]; intros d index Hd Hod Hn Hc; cbn [copy_constants].
  - rewrite zdrop_all by lia. cbn [map]. exists []. rewrite !app_nil_r. split; [|constructor]. destruct d as [? [] ? ?]; done.
  - pose proof (zlen_nonneg (constant_store (content d))). destruct (zget_is_Some (constant_store (content src)) index) as [v Ev]; [lia|].
    rewrite Ev. cbn [mbind option_bind]. rewrite zget_lookup in Ev by lia.
    pose proof (Forall_lookup_1 _ _ _ _ Hok Ev) as Hv. destruct (Forall2_lookup_r _ _ _ _ _ Hown Ev) as (o & Eo & Ho).
    rewrite <- zget_lookup in Ev by lia. rewrite (zget_lookup (owners src)), Eo by lia. cbn [mbind option_bind].
    destruct (copy_constant_normal src (place d) o v Hv Ho) as (o' & -> & Ho').
    unfold write_owned, write_constant. replace (_ && _) with true by lia. cbn [mbind option_bind].
    replace (index =? zlen (owners d)) with true by lia. cbn [mbind option_bind].
    edestruct (IH (mk_placed (place d) (set_constants (constant_store (content d) ++ [normal v]) (constant_count (content d))
      (constant_capacity (content d)) (content d)) (owners d ++ [o']) (blocks d)) (index + 1)) as (os & -> & Hos);
      cbn [content owners set_constants constant_store constant_capacity];
      [rewrite zlen_app; change (zlen [_]) with 1; lia|rewrite zlen_app; change (zlen [_]) with 1; lia|lia|lia|].
    exists (o' :: os). rewrite (drop_cons _ _ _ Ev). cbn [map place content owners blocks set_constants constant_store constant_capacity constant_count] in *.
    rewrite <- !app_assoc. split; [done|by constructor].
Qed.

(** Counts that no array of the machine can have. *)
Definition too_many (p : AivmProgram) : Prop :=
  SIZE_MAX / SIZEOF_INSTRUCTION < instruction_count p \/ SIZE_MAX / SIZEOF_VALUE < constant_count p.

(** Reserving storage: the capacity is enough, at most one block is added. *)
Lemma instructions_granted d n h : instruction_store (content d) = [] ->
  match granted (aivm_program_instructions_reserve host_alloc (content d) n (requests h)) d h with
  | (Some d', h') => exists bs cap, allocates h h' bs /\ n <= cap /\
      d' = add_blocks bs (set_content (set_instructions [] (instruction_count (content d)) cap (content d)) d)
  | (None, h') => allocates h h' [] /\ (refused h h' \/ SIZE_MAX / SIZEOF_INSTRUCTION < n)
  end.
Proof.
  intros E. unfold aivm_program_instructions_reserve. rewrite E.
  destruct (Z.leb_spec n AIVM_PROGRAM_INLINE_INSTRUCTIONS).
  { unfold granted. cbn [fst snd]. rewrite Nat.sub_diag. cbn [seq list_to_set]. eexists [], _. split; [|split; [|done]]; [|done].
    rewrite union_empty_r_L. by apply allocates_none. }
  destruct (Z.ltb_spec (SIZE_MAX / SIZEOF_INSTRUCTION) n); [split; [by apply allocates_none|by right]|].
  unfold granted. destruct (host_alloc _ _) eqn:Eh; cbn [fst snd].
  - replace (S (requests h) - requests h)%nat with 1%nat by lia. cbn [seq]. exists [requests h], n. split; [|split; [lia|done]].
    constructor; cbn; [lia|done|constructor; [lia|done]|apply NoDup_singleton].
  - split; [apply allocates_none; lia|]. left. exists (requests h), (n * SIZEOF_INSTRUCTION). cbn. split; [lia|done].
Qed.

Lemma constants_granted d n h : constant_store (content d) = [] ->
  match granted (aivm_program_constants_reserve host_alloc (content d) n (requests h)) d h with
  | (Some d', h') => exists bs cap, allocates h h' bs /\ n <= cap /\
      d' = add_blocks bs (set_content (set_constants [] (constant_count (content d)) cap (content d)) d)
  | (None, h') => allocates h h' [] /\ (refused h h' \/ SIZE_MAX / SIZEOF_VALUE < n)
  end.
Proof.
  intros E. unfold aivm_program_constants_reserve. rewrite E.
  destruct (Z.leb_spec n AIVM_PROGRAM_INLINE_CONSTANTS).
  { unfold granted. cbn [fst snd]. rewrite Nat.sub_diag. cbn [seq list_to_set]. eexists [], _. split; [|split; [|done]]; [|done].
    rewrite union_empty_r_L. by apply allocates_none. }
  destruct (Z.ltb_spec (SIZE_MAX / SIZEOF_VALUE) n); [split; [by apply allocates_none|by right]|].
  unfold granted. destruct (host_alloc _ _) eqn:Eh; cbn [fst snd].
  - replace (S (requests h) - requests h)%nat with 1%nat by lia. cbn [seq]. exists [requests h], n. split; [|split; [lia|done]].
    constructor; cbn; [lia|done|constructor; [lia|done]|apply NoDup_singleton].
  - split; [apply allocates_none; lia|]. left. exists (requests h), (n * SIZEOF_VALUE). cbn. split; [lia|done].
Qed.

(** What copying a program into the structure [dst] does. *)
Definition copy_outcome (src dst : Placed) (h : Heap) (r : option (Placed * bool * Heap)) : Prop :=
  match r with
  | None => False
  | Some (d, ok, h') => allocates h h' (blocks d) /\ place d = place dst /\
      if ok then deep_copy src d else refused h h' \/ too_many (content src)
  end.

(** Copying a loaded program stays inside the arrays and fails only for memory. *)
Lemma copy_program_copied src dst h : source_ok src -> heap_ok h -> copy_outcome src dst h (copy_program host_alloc dst src h).
Proof.
  intros [Hv [Hstr Hby] Hi Hc [Hs Hsm] Ho] Hh. unfold copy_program. destruct (_ || _) eqn:E; [lia|]. clear E. cbv zeta.
  set (p := content src) in *. set (d0 := mk_placed _ _ _ _).
  pose proof (instructions_granted d0 (instruction_count p) h eq_refl) as G1.
  destruct (granted _ d0 h) as [[d1|] h1]; [|destruct G1 as [A R]; split; [done|]; split; [done|]; unfold too_many; tauto].
  destruct G1 as (b1 & cap1 & A1 & C1 & ->). set (d1 := add_blocks _ _).
  pose proof (constants_granted d1 (constant_count p) h1 eq_refl) as G2.
  destruct (granted _ d1 h1) as [[d2|] h2].
  2:{ destruct G2 as [A R]. split; [|split; [done|]].
      - pose proof (allocates_app _ _ _ _ _ A1 A) as A12. by rewrite app_nil_r in A12.
      - destruct R as [R|R]; [left|right; by right]. eapply refused_wider; [apply A1|done|exact R]. }
  destruct G2 as (b2 & cap2 & A2 & C2 & ->). pose proof (allocates_app _ _ _ _ _ A1 A2) as A12.
  pose proof (catalog_copy_spec (worker_catalog p) h2 (allocates_ok _ _ _ Hh A12)) as G3.
  destruct (aivm_worker_catalog_copy _ _ _) as [[[es held]|] h3].
  2:{ destruct G3 as [A3 R]. cbn [release_placed]. split; [|split; [done|]].
      - apply allocates_free; [done|]. pose proof (allocates_app _ _ _ _ _ A12 A3) as A. by rewrite app_nil_r in A.
      - left. eapply refused_wider; [apply A12|done|exact R]. }
  destruct G3 as [-> A3]. pose proof (allocates_app _ _ _ _ _ A12 A3) as A.
  pose proof (zlen_nonneg (instruction_store p)). pose proof (zlen_nonneg (constant_store p)).
  rewrite copy_instructions_run; [|done|lia|cbn; lia]. cbn [mbind option_bind].
  edestruct (copy_constants_run src (Z.to_nat (constant_count p)) Hv Ho) as (os & -> & Hos);
    [done|done|fold p; lia|cbn; fold p; lia|]. cbn [mbind option_bind fst snd]. fold p in Hos |- *.
  assert (Et : ztake (section_count p) (sections p) = sections p).
  { rewrite Hs. pose proof (ztake_app (sections p) []) as T. by rewrite app_nil_r in T. }
  change (zdrop 0 (constant_store p)) with (constant_store p) in *. change (zdrop 0 (instruction_store p)) with (instruction_store p).
  split; [exact A|]. split; [done|]. constructor; [|done|].
  - constructor; cbn -[zlen]; try done. rewrite zlen_map. lia.
  - intros mem mem' Em Em'. unfold constants_data. cbn -[zlen] in Em' |- *. apply (data_same (place src) (place dst)); try done.
    + by rewrite Em.
    + by rewrite Em, Em'.
    + by rewrite Em, Em'.
Qed.

End Copying.

(** ** The loader only makes requests *)

Definition flow_tick {A} (f : flow A) : nat := match f with Next _ t | Return _ t => t end.

(** The branches of a loader function whose request numbers are to be compared. *)
Ltac by_branches := repeat (progress simplify_option_eq || case_match); subst; cbn [flow_tick fst snd] in *; try lia.

Section Requests.

Context (host_alloc : nat -> Z -> bool).

Lemma instructions_reserve_tick p n t r : aivm_program_instructions_reserve host_alloc p n t = r -> (t <= r.2)%nat.
Proof. unfold aivm_program_instructions_reserve. intros <-. repeat case_match; cbn; lia. Qed.

Lemma constants_reserve_tick p n t r : aivm_program_constants_reserve host_alloc p n t = r -> (t <= r.2)%nat.
Proof. unfold aivm_program_constants_reserve. intros <-. repeat case_match; cbn; lia. Qed.

Lemma load_instructions_tick bytes n fuel : forall index cursor p t f,
  load_instructions fuel bytes n index cursor p t = Some f -> flow_tick f = t.
Proof.
  induction fuel as [|fuel IH]; intros index cursor p t f; cbn [load_instructions]; [done|]. intros H. by_branches; eauto.
Qed.

Lemma load_constants_tick bytes section_end n fuel : forall index cursor p t f,
  load_constants fuel bytes section_end n index cursor p t = Some f -> flow_tick f = t.
Proof.
  induction fuel as [|fuel IH]; intros index cursor p t f; cbn [load_constants]; [done|].
  destruct (n <=? index); [by intros [= <-]|]. destruct (load_constant _ _ _ _ _) as [[[q k]|[st off]]|]; cbn [mbind option_bind]; [apply IH|by intros [= <-]|done].
Qed.

Lemma instruction_section_tick bytes start size seen p t f : load_instruction_section host_alloc bytes start size seen p t = Some f -> (t <= flow_tick f)%nat.
Proof.
  unfold load_instruction_section. destruct seen; [by intros [= <-]|]. destruct (size <? 4); [by intros [= <-]|].
  destruct (read_u32_le bytes start) as [n|]; [|done]. cbn [mbind option_bind]. destruct (negb _); [by intros [= <-]|].
  destruct (aivm_program_instructions_reserve host_alloc p n t) as [q t1] eqn:E. apply instructions_reserve_tick in E. cbn in E.
  destruct q as [q|]; [|by intros [= <-]]. destruct (load_instructions _ _ _ _ _ _ _) as [g|] eqn:El; [|done]. cbn [mbind option_bind].
  apply load_instructions_tick in El. destruct g; intros [= <-]; cbn [flow_tick] in *; lia.
Qed.

Lemma constant_section_tick bytes start size section_end seen p t f :
  load_constant_section host_alloc bytes start size section_end seen p t = Some f -> (t <= flow_tick f)%nat.
Proof.
  unfold load_constant_section. destruct seen; [by intros [= <-]|]. destruct (size <? 4); [by intros [= <-]|].
  destruct (read_u32_le bytes start) as [n|]; [|done]. cbn [mbind option_bind].
  destruct (aivm_program_constants_reserve host_alloc p n t) as [q t1] eqn:E. apply constants_reserve_tick in E. cbn in E.
  destruct q as [q|]; [|by intros [= <-]]. destruct (load_constants _ _ _ _ _ _ _ _) as [g|] eqn:El; [|done]. cbn [mbind option_bind].
  apply load_constants_tick in El. destruct g as [[p2 k] ?|]; [destruct (negb _)|]; intros [= <-]; cbn [flow_tick] in *; lia.
Qed.

Context (nested : list Z -> nat -> option (load_result * nat)).
Context (nested_tick : forall bytes t r, nested bytes t = Some r -> (t <= r.2)%nat).

Lemma catalog_entry_tick bytes cursor t r : load_catalog_entry host_alloc nested bytes cursor t = Some r -> (t <= r.2)%nat.
Proof.
  unfold load_catalog_entry. intros H. by_branches; try (match goal with E : nested _ _ = Some _ |- _ => apply nested_tick in E; cbn in E end; lia).
Qed.

Lemma catalog_entries_tick bytes n : forall cursor t r, load_catalog_entries host_alloc nested n bytes cursor t = Some r -> (t <= r.2)%nat.
Proof.
  induction n as [|n IH]; intros cursor t r; cbn [load_catalog_entries]; [by intros [= <-]|].
  destruct (load_catalog_entry _ _ _ _ _) as [[[[e k]|st] t1]|] eqn:E; [|cbn; intros [= <-]; by apply catalog_entry_tick in E|done].
  apply catalog_entry_tick in E. cbn in E. cbn [mbind option_bind].
  destruct (load_catalog_entries _ _ _ _ _ _) as [[[[es k']|st] t2]|] eqn:E2; [| |done]; apply IH in E2; cbn in E2 |- *; intros [= <-]; cbn; lia.
Qed.

Lemma catalog_tick bytes t r : aivm_worker_catalog_load host_alloc nested bytes t = Some r -> (t <= r.2)%nat.
Proof.
  unfold aivm_worker_catalog_load. destruct (zlen bytes <? 4); [by intros [= <-]|]. destruct (read_u32_le bytes 0) as [n|]; [|done]. cbn [mbind option_bind].
  destruct (_ <? n); [by intros [= <-]|]. destruct (n =? 0); [by intros [= <-]|]. destruct (negb _); [intros [= <-]; cbn; lia|].
  destruct (load_catalog_entries _ _ _ _ _ _) as [[[[es k]|st] t1]|] eqn:E; [| |done]; apply catalog_entries_tick in E; cbn in E |- *.
  - destruct (negb _); intros [= <-]; cbn; lia.
  - intros [= <-]. cbn. lia.
Qed.

Lemma catalog_section_tick bytes start size seen p t f : load_catalog_section host_alloc nested bytes start size seen p t = Some f -> (t <= flow_tick f)%nat.
Proof.
  unfold load_catalog_section. destruct seen; [by intros [= <-]|]. destruct (read_block _ _ _) as [b|]; [|done]. cbn [mbind option_bind].
  destruct (aivm_worker_catalog_load _ _ _ _) as [[[es st] t1]|] eqn:E; [|done]. apply catalog_tick in E. cbn in E |- *.
  destruct (negb _); intros [= <-]; cbn; lia.
Qed.

Lemma sections_tick bytes n : forall cursor a b d p t r, load_sections host_alloc nested n bytes cursor a b d p t = Some r -> (t <= r.2)%nat.
Proof.
  induction n as [|n IH]; intros cursor a b d p t r; cbn [load_sections]; [by intros [= <-]|].
  destruct (negb _); [by intros [= <-]|]. destruct (read_u32_le bytes cursor) as [ty|]; [|done]. cbn [mbind option_bind].
  destruct (read_u32_le bytes _) as [size|]; [|done]. cbn [mbind option_bind]. destruct (negb _); [by intros [= <-]|].
  destruct (write_section _ _) as [l|]; [|done]. cbn [mbind option_bind]. intros H.
  match type of H with (mbind _ ?m = _) => destruct m as [f|] eqn:Ef; [|done] end. cbn [mbind option_bind] in H.
  assert (Hf : (t <= flow_tick f)%nat).
  { destruct (ty =? 1); [by eapply instruction_section_tick|]. destruct (ty =? 2); [by eapply constant_section_tick|].
    destruct (ty =? 3); [by eapply catalog_section_tick|]. by injection Ef as <-. }
  destruct f as [p2 t2|res t2]; cbn in Hf; [apply IH in H; lia|]. by injection H as <-.
Qed.

Lemma body_tick bytes t r : load_body host_alloc nested bytes t = Some r -> (t <= r.2)%nat.
Proof.
  unfold load_body. intros H. repeat (case_match; simplify_option_eq; try (by injection H as <-)); try lia; try (by eapply sections_tick).
Qed.

End Requests.

Lemma load_tick host_alloc bytes t r : aivm_program_load_aibc1 host_alloc (Some bytes) t = Some r -> (t <= r.2)%nat.
Proof.
  cbn [aivm_program_load_aibc1]. generalize (S (length bytes)). intros depth. revert bytes t r.
  induction depth as [|depth IH]; intros bytes t r; cbn [load_fuel]; [done|]. by apply body_tick.
Qed.

(** ** The cache as a finite map *)

Definition active_pairs (es : list AivmModuleCacheEntry) : list (list Z * Placed) :=
  omap (fun e => if active e then Some (entry_name e, program e) else None) es.
Definition cache_map (c : AivmModuleCache) : gmap (list Z) Placed := list_to_map (active_pairs (entries c)).

Definition entry_bytes (e : AivmModuleCacheEntry) : Z := if active e then estimated_bytes e else 0.
Definition entry_blocks (e : AivmModuleCacheEntry) : list nat := if active e then blocks (program e) else [].
Definition held_blocks (es : list AivmModuleCacheEntry) : list nat := concat (map entry_blocks es).

(** The table is a map; the program of an entry is in the entry and can be copied; of the
    allocated blocks, the programs of the table have some, each one program, and [rest] is
    everybody else's. *)
Record cache_ok (rest : gset nat) (h : Heap) (c : AivmModuleCache) : Prop := {
  ok_length : zlen (entries c) = AIVM_MODULE_CACHE_MAX_MODULES;
  ok_names : NoDup (active_pairs (entries c)).*1;
  ok_count : count c = zlen (active_pairs (entries c));
  ok_bytes : estimated_bytes_used c = total entry_bytes (entries c) /\ 0 <= estimated_bytes_used c <= AIVM_MODULE_CACHE_MAX_BYTES;
  ok_programs : forall i e, entries c !! i = Some e -> active e = true -> place (program e) = Slot i /\ source_ok (program e);
  ok_heap : heap_ok h;
  ok_blocks : NoDup (held_blocks (entries c));
  ok_live : live h = rest ∪ list_to_set (held_blocks (entries c)) /\ rest ## list_to_set (held_blocks (entries c)) }.

Lemma active_pairs_cons e es : active_pairs (e :: es) = (if active e then [(entry_name e, program e)] else []) ++ active_pairs es.
Proof. unfold active_pairs. cbn. by destruct (active e). Qed.

Lemma find_entry_map c name : (fun p => program p.2) <$> find_entry c name = cache_map c !! name.
Proof.
  unfold find_entry, cache_map. induction (entries c) as [|e es IH]; [symmetry; apply lookup_empty|].
  rewrite active_pairs_cons. cbn [list_find]. case_decide as Hd.
  - destruct Hd as [-> <-]. cbn. by rewrite lookup_insert_eq.
  - transitivity (list_to_map (M := gmap (list Z) Placed) (active_pairs es) !! name).
    + rewrite <- IH. by destruct (list_find _ es) as [[]|].
    + destruct (active e) eqn:Ea; [|done]. cbn. rewrite lookup_insert_ne by (intros E; apply Hd; by split). done.
Qed.

Lemma split_at {A} (l : list A) i x y : l !! i = Some x -> l = take i l ++ x :: drop (S i) l /\ <[i := y]> l = take i l ++ y :: drop (S i) l.
Proof.
  intros H. split; [by rewrite take_drop_middle|]. rewrite insert_take_drop; [done|]. by eapply lookup_lt_Some.
Qed.

(** A table around one of its entries. *)
Lemma around (es : list AivmModuleCacheEntry) i e slot : es !! i = Some e ->
  exists a b, es = a ++ e :: b /\ <[i := slot]> es = a ++ slot :: b.
Proof. intros H. exists (take i es), (drop (S i) es). by apply split_at. Qed.

Lemma active_pairs_insert es i e slot : es !! i = Some e -> active e = false -> active slot = true ->
  Permutation (active_pairs (<[i := slot]> es)) ((entry_name slot, program slot) :: active_pairs es).
Proof.
  intros Hi He Hs. destruct (around es i e slot Hi) as (a & b & -> & E2). rewrite E2. unfold active_pairs. rewrite !omap_app.
  cbn [omap list_omap]. rewrite He, Hs. by rewrite Permutation_middle.
Qed.

Lemma active_pairs_clear es i e slot : es !! i = Some e -> active e = false -> active slot = false ->
  active_pairs (<[i := slot]> es) = active_pairs es.
Proof.
  intros Hi He Hs. destruct (around es i e slot Hi) as (a & b & -> & E2). rewrite E2. unfold active_pairs. rewrite !omap_app.
  cbn [omap list_omap]. by rewrite He, Hs.
Qed.

Lemma total_insert es i e slot : es !! i = Some e -> active e = false ->
  total entry_bytes (<[i := slot]> es) = total entry_bytes es + entry_bytes slot.
Proof.
  intros Hi He. destruct (around es i e slot Hi) as (a & b & -> & E2). rewrite E2. rewrite !total_app. cbn [total].
  assert (entry_bytes e = 0) by (unfold entry_bytes; by rewrite He). lia.
Qed.

Lemma held_insert es i e slot : es !! i = Some e -> active e = false ->
  Permutation (held_blocks (<[i := slot]> es)) (entry_blocks slot ++ held_blocks es).
Proof.
  intros Hi He. destruct (around es i e slot Hi) as (a & b & -> & E2). rewrite E2. unfold held_blocks. rewrite !map_app, !concat_app.
  cbn [map concat]. replace (entry_blocks e) with (@nil nat) by (unfold entry_blocks; by rewrite He). cbn [app]. rewrite !app_assoc.
  by rewrite (Permutation_app_comm (entry_blocks slot)).
Qed.


Lemma active_pairs_full es : Forall (fun e => active e = true) es -> length (active_pairs es) = length es.
Proof. induction 1 as [|e es He _ IH]; [done|]. cbn. rewrite He. cbn. by rewrite <- IH. Qed.

Lemma add_part_bounds t n : 0 <= n -> t <= add_part t n <= t + n.
Proof. intros Hn. unfold add_part. destruct (aivm_size_add_checked t n) eqn:E; [apply size_add_checked_Some in E as [_ ->]|]; lia. Qed.

Lemma estimate_nonneg base p : 0 <= base -> 0 <= estimate_program_bytes base p.
Proof.
  intros Hb. unfold estimate_program_bytes. cbv zeta.
  assert (H64 : forall z, 0 <= u64 z) by (intros z; unfold u64; apply Z.mod_pos_bound; lia).
  pose proof (add_part_bounds base (u64 (instruction_count p * SIZEOF_INSTRUCTION)) (H64 _)) as B1. set (t1 := add_part base _) in *.
  pose proof (add_part_bounds t1 (u64 (constant_count p * SIZEOF_VALUE)) (H64 _)) as B2. set (t2 := add_part t1 _) in *.
  pose proof (add_part_bounds t2 (zlen (string_storage p)) (zlen_nonneg _)) as B3. set (t3 := add_part t2 _) in *.
  pose proof (add_part_bounds t3 (zlen (bytes_storage p)) (zlen_nonneg _)) as B4. lia.
Qed.





Lemma valid_name_length name : valid_name (Some name) = true -> 0 < zlen name < AIVM_MODULE_CACHE_MAX_NAME_LENGTH.
Proof. destruct name as [|b name]; [done|]. cbn [valid_name]. rewrite zlen_cons. pose proof (zlen_nonneg name). lia. Qed.

(** The table with a new active entry in place of an inactive one. *)
Lemma cache_insert rest h h' c i e slot : cache_ok rest h c -> entries c !! i = Some e -> active e = false -> active slot = true ->
  allocates h h' (blocks (program slot)) -> place (program slot) = Slot i -> source_ok (program slot) ->
  cache_map c !! entry_name slot = None ->
  0 <= estimated_bytes slot -> estimated_bytes_used c + estimated_bytes slot <= AIVM_MODULE_CACHE_MAX_BYTES ->
  let c' := mk_cache (<[i := slot]> (entries c)) (count c + 1) (estimated_bytes_used c + estimated_bytes slot) in
  cache_ok rest h' c' /\ cache_map c' = <[entry_name slot := program slot]> (cache_map c).
Proof.
  intros [Hl Hn Hc [Hb Hm] Hp Hh Hbl [Hlive Hrest]] Hi He Hs Hal Hpl Hsrc Hfresh H0 Hmax c'.
  pose proof (active_pairs_insert _ i e slot Hi He Hs) as P.
  assert (Hnd : NoDup (active_pairs (entries c')).*1).
  { unfold c'. cbn [entries]. rewrite P. cbn. apply NoDup_cons. split; [|done]. intros Hin.
    apply not_elem_of_list_to_map_2 in Hfresh. done. }
  pose proof (held_insert _ i e slot Hi He) as PB. unfold entry_blocks in PB. rewrite Hs in PB.
  assert (Hnew : forall b, b ∈ blocks (program slot) -> b ∉ live h).
  { intros b Hb1 Hb2. pose proof (al_fresh _ _ _ Hal) as F. rewrite Forall_forall in F. specialize (F b Hb1). specialize (Hh b Hb2). lia. }
  split.
  - constructor; unfold c'; cbn [entries count estimated_bytes_used]; [|done| | | |by eapply allocates_ok| |].
    + unfold zlen. by rewrite length_insert.
    + rewrite (zlen_perm _ _ P), zlen_cons. lia.
    + rewrite (total_insert _ i e slot Hi He). unfold entry_bytes at 2. rewrite Hs. lia.
    + intros k e' Hk Ha. destruct (decide (i = k)) as [<-|Hne].
      * rewrite list_lookup_insert_eq in Hk by (by eapply lookup_lt_Some). by injection Hk as <-.
      * rewrite list_lookup_insert_ne in Hk by done. by apply Hp.
    + rewrite PB. apply NoDup_app. split; [apply Hal|]. split; [|done]. intros b Hb1 Hb2. apply (Hnew b Hb1). rewrite Hlive. set_solver.
    + rewrite PB, list_to_set_app_L, (al_live _ _ _ Hal), Hlive. split; [set_solver|].
      rewrite Hlive in Hnew. set_solver.
  - unfold cache_map. cbn [entries c']. rewrite (list_to_map_proper _ _ Hnd P). done.
Qed.

Lemma cache_scrub rest h h' c i e : cache_ok rest h c -> allocates h h' [] -> entries c !! i = Some e -> active e = false ->
  let c' := mk_cache (<[i := zero_entry i]> (entries c)) (count c) (estimated_bytes_used c) in
  cache_ok rest h' c' /\ cache_map c' = cache_map c.
Proof.
  intros [Hl Hn Hc [Hb Hm] Hp Hh Hbl [Hlive Hrest]] Hal Hi He c'. pose proof (active_pairs_clear _ i e (zero_entry i) Hi He eq_refl) as P.
  pose proof (held_insert _ i e (zero_entry i) Hi He) as PB. cbn [entry_blocks zero_entry active app] in PB.
  split; [constructor|]; unfold c', cache_map; cbn [entries count estimated_bytes_used]; rewrite ?P; try done.
  - unfold zlen. by rewrite length_insert.
  - rewrite (total_insert _ i e _ Hi He). cbn. lia.
  - intros k e' Hk Ha. destruct (decide (i = k)) as [<-|Hne].
    + rewrite list_lookup_insert_eq in Hk by (by eapply lookup_lt_Some). injection Hk as <-. done.
    + rewrite list_lookup_insert_ne in Hk by done. by apply Hp.
  - by eapply allocates_ok.
  - by rewrite PB.
  - rewrite PB, (al_live _ _ _ Hal), Hlive. cbn. set_solver.
Qed.

(** The cache does not depend on blocks that come and go elsewhere. *)
Lemma cache_later rest h n c : cache_ok rest h c -> (requests h <= n)%nat -> cache_ok rest (mk_heap n (live h)) c.
Proof.
  intros [] Hn. constructor; try done. intros b Hb. specialize (ok_heap0 b Hb). cbn. lia.
Qed.

Lemma no_inactive rest h c : cache_ok rest h c -> list_find (fun e => active e = false) (entries c) = None -> AIVM_MODULE_CACHE_MAX_MODULES <= count c.
Proof.
  intros Hok Hf. rewrite (ok_count _ _ _ Hok), <- (ok_length _ _ _ Hok). unfold zlen. rewrite active_pairs_full; [done|].
  apply list_find_None in Hf. eapply Forall_impl; [exact Hf|]. intros e He. cbn in He. by destruct (active e).
Qed.

Lemma map_size rest h c : cache_ok rest h c -> Z.of_nat (size (cache_map c)) = count c.
Proof.
  intros Hok. rewrite (ok_count _ _ _ Hok). unfold cache_map, zlen. rewrite map_size_list_to_map by apply (ok_names _ _ _ Hok). done.
Qed.

(** ** Storing and finding *)

(** The table or the budget is full. *)
Definition over (base : Z) (c : AivmModuleCache) (src : Placed) : Prop :=
  64 <= Z.of_nat (size (cache_map c)) \/
  AIVM_MODULE_CACHE_MAX_BYTES < aivm_module_cache_estimated_bytes c + estimate_program_bytes base (content src).

(** When each status is answered, and what it says of the cache before and after. *)
Definition put_outcome (host_alloc : nat -> Z -> bool) (base : Z) (c c' : AivmModuleCache) (name : list Z) (src : Placed)
    (st : AivmModuleCacheStatus) (h h' : Heap) : Prop :=
  match st with
  | AIVM_MODULE_CACHE_OK =>
      valid_name (Some name) = true /\ cache_map c !! name = None /\ ~ over base c src /\
      exists q, deep_copy src q /\ place q <> place src /\ Forall (fun b => requests h <= b)%nat (blocks q) /\
        cache_map c' = <[name := q]> (cache_map c)
  | AIVM_MODULE_CACHE_ERR_DUPLICATE => valid_name (Some name) = true /\ is_Some (cache_map c !! name) /\ c' = c
  | AIVM_MODULE_CACHE_ERR_LIMIT => valid_name (Some name) = true /\ cache_map c !! name = None /\ over base c src /\ c' = c
  | AIVM_MODULE_CACHE_ERR_INVALID =>
      cache_map c' = cache_map c /\
      (valid_name (Some name) = false \/
       valid_name (Some name) = true /\ cache_map c !! name = None /\ ~ over base c src /\
       (refused host_alloc h h' \/ too_many (content src)))
  | AIVM_MODULE_CACHE_ERR_NOT_FOUND => False
  end.

(** The source is not in an entry that a store may overwrite. *)
Definition apart (c : AivmModuleCache) (src : Placed) : Prop :=
  forall i e, entries c !! i = Some e -> place src = Slot i -> active e = true.

Lemma cache_put_refines host_alloc base rest h c name src : 0 <= base -> cache_ok rest h c -> source_ok src -> apart c src ->
  exists c' st h', aivm_module_cache_put host_alloc base c (Some name) src h = Some (c', st, h') /\ cache_ok rest h' c' /\
    (requests h <= requests h')%nat /\ put_outcome host_alloc base c c' name src st h h'.
Proof.
  intros Hbase Hok Hsrc Hap. unfold aivm_module_cache_put.
  destruct (valid_name (Some name)) eqn:Ev; cbn [negb].
  2:{ eexists _, _, _. split; [done|]. split; [done|]. split; [done|]. split; [done|by left]. }
  pose proof (valid_name_length name Ev) as Hlen. pose proof (find_entry_map c name) as Hf.
  destruct (find_entry c name) as [[k e0]|]; cbn in Hf.
  { eexists _, _, _. split; [done|]. split; [done|]. split; [done|]. cbn. split; [done|]. split; [by eexists|done]. }
  rewrite bool_decide_eq_false_2 by (intros H; by apply H). symmetry in Hf. rename Hf into Hnone.
  pose proof (map_size _ _ c Hok) as Hsize. destruct (Z.leb_spec AIVM_MODULE_CACHE_MAX_MODULES (count c)) as [Hfull|Hfree].
  { eexists _, _, _. split; [done|]. split; [done|]. split; [done|]. cbn. split; [done|]. split; [done|]. split; [|done]. left.
    unfold AIVM_MODULE_CACHE_MAX_MODULES in Hfull. lia. }
  pose proof (estimate_nonneg base (content src) Hbase) as He. pose proof (ok_bytes _ _ _ Hok) as [_ Hu].
  destruct (aivm_size_add_checked (estimated_bytes_used c) (estimate_program_bytes base (content src))) as [needed|] eqn:Ea.
  2:{ apply size_add_checked_None in Ea. eexists _, _, _. split; [done|]. split; [done|]. split; [done|]. cbn.
      split; [done|]. split; [done|]. split; [|done]. right. unfold SIZE_MAX in Ea. unfold aivm_module_cache_estimated_bytes, AIVM_MODULE_CACHE_MAX_BYTES. lia. }
  apply size_add_checked_Some in Ea as [_ ->].
  destruct (Z.ltb_spec AIVM_MODULE_CACHE_MAX_BYTES (estimated_bytes_used c + estimate_program_bytes base (content src))) as [Hbig|Hfits].
  { eexists _, _, _. split; [done|]. split; [done|]. split; [done|]. cbn. split; [done|]. split; [done|]. split; [|done]. by right. }
  assert (Hroom : ~ over base c src).
  { intros [H|H]; [unfold AIVM_MODULE_CACHE_MAX_MODULES in Hfree; lia|unfold aivm_module_cache_estimated_bytes in H; lia]. }
  destruct (list_find (fun e => active e = false) (entries c)) as [[i e]|] eqn:El.
  2:{ pose proof (no_inactive _ _ c Hok El). lia. }
  apply list_find_Some in El as (Hi & Hact & _).
  pose proof (copy_program_copied host_alloc src (zero_placed i) h Hsrc (ok_heap _ _ _ Hok)) as Hcp.
  destruct (copy_program _ _ _ _) as [[[q ok] h1]|]; [|done]. cbn [mbind option_bind]. destruct Hcp as (Hal & Hpl & Hcp). destruct ok.
  - assert (En : ztake (AIVM_MODULE_CACHE_MAX_NAME_LENGTH - 1) name = name) by (unfold ztake; apply take_ge; unfold zlen in Hlen; lia).
    destruct (cache_insert rest h h1 c i e (mk_cache_entry (ztake (AIVM_MODULE_CACHE_MAX_NAME_LENGTH - 1) name) q (estimate_program_bytes base (content src)) true) Hok Hi Hact eq_refl)
      as [Hok' Hmap]; cbn [entry_name estimated_bytes program]; [done|done|by eapply deep_source|by rewrite En|done|lia|].
    eexists _, _, _. split; [done|]. split; [exact Hok'|]. split; [apply Hal|]. do 3 (split; [done|]). exists q. split; [done|]. split.
    { rewrite Hpl. cbn. intros E. symmetry in E. rewrite (Hap i e Hi E) in Hact. done. }
    split; [eapply Forall_impl; [apply (al_fresh _ _ _ Hal)|]; cbn; lia|].
    cbn [estimated_bytes entry_name program] in Hmap. rewrite Hmap, En. done.
  - pose proof (allocates_free _ _ _ (ok_heap _ _ _ Hok) Hal) as Hfr.
    destruct (cache_scrub rest h (free_blocks (blocks q) h1) c i e Hok Hfr Hi Hact) as [Hok' Hmap].
    eexists _, _, _. split; [done|]. split; [exact Hok'|]. split; [apply Hfr|]. split; [exact Hmap|]. right. do 3 (split; [done|]).
    destruct Hcp as [Hr|Hr]; [left|by right]. eapply refused_wider; [|done|exact Hr]. done.
Qed.


(** What the loader completes can be stored. *)
Lemma local_source_ok p : program_inv p -> instruction_count p = zlen (instruction_store p) -> constant_count p = zlen (constant_store p) ->
  section_count p = zlen (sections p) /\ section_count p <= AIVM_PROGRAM_MAX_SECTIONS -> source_ok (local_program p).
Proof.
  intros [_ _ _ Hc Hs Hb] Hi Hn Hse. constructor; cbn [local_program content owners place]; try done.
  - eapply Forall_impl; [exact Hc|]. by left.
  - clear. induction (constant_store p) as [|v vs IH]; cbn [length replicate]; constructor; [by destruct v|done].
Qed.

(** Loading into the cache, on any bytes: a refusal leaves the map, and what is stored
    is a copy of a complete program. *)
Lemma cache_load_refines host_alloc base rest h c name bytes : 0 <= base -> cache_ok rest h c -> bytes_ok bytes ->
  exists c' st r h', aivm_module_cache_load_aibc1 host_alloc base c (Some name) (Some bytes) h = Some (c', st, r, h') /\
    cache_ok rest h' c' /\ (st <> AIVM_MODULE_CACHE_OK -> cache_map c' = cache_map c) /\
    (st = AIVM_MODULE_CACHE_OK -> r.1 = AIVM_PROGRAM_OK /\
       exists src q, source_ok src /\ deep_copy src q /\ cache_map c' = <[name := q]> (cache_map c)).
Proof.
  intros Hb Hok Hbytes. unfold aivm_module_cache_load_aibc1. rewrite bool_decide_eq_false_2 by done.
  destruct (negb (valid_name (Some name)) || false); [eexists _, _, _, _; split; [done|by split]|].
  pose proof (load_total_ok host_alloc bytes (requests h) Hbytes) as L. unfold load_total in L at 2.
  destruct (aivm_program_load_aibc1 host_alloc (Some bytes) (requests h)) as [[[[p st] off] t]|] eqn:El; [|done]. cbn [mbind option_bind].
  apply load_tick in El as Htick. cbn in Htick. pose proof (cache_later _ _ t _ Hok Htick) as Hok1.
  destruct L as [Hinv Hcomplete]. case_bool_decide as Hst; cbn [negb]; [|eexists _, _, _, _; split; [done|by split]].
  destruct (Hcomplete Hst) as [_ Hi Hc Hs _ _]. pose proof (local_source_ok p Hinv Hi Hc Hs) as Hsrc.
  destruct (cache_put_refines host_alloc base rest _ c name (local_program p) Hb Hok1 Hsrc) as (c' & st' & h' & -> & Hok' & _ & Ho); [done|].
  cbn [mbind option_bind]. eexists _, _, _, _. split; [done|]. split.
  { replace (release_placed (local_program p) h').2 with h'; [done|]. destruct h' as [n l]. unfold release_placed, free_blocks. cbn. f_equal. set_solver. }
  split.
  - intros Hne. destruct st'; cbn in Ho; [done| | | |done]; naive_solver.
  - intros ->. cbn in Ho. destruct Ho as (_ & _ & _ & q & Hq & _ & _ & Hm). split; [done|]. by exists (local_program p), q.
Qed.

(** ** The theorem *)






