(* ===== verification/Invocations.v ===== *)
(** * Worker invocations and the worker runtime (src/src/aivm_worker_invocation.c, aivm_worker_runtime.c)

    A submission to the worker runtime occupies a slot of its table; the scheduler gets
    the slot's invocation as the context of the task, and a worker thread runs the
    worker's program on the payload in a VM of its own.  Here the slots, the scheduler
    and the threads move together, in any order, and what an await reads from a slot is
    tied to what was submitted. *)

From S2P Require Import Prelude Types Program LoaderSafety Syscalls Vm Memory Lifecycle Stack Step.
From S2P Require Import TextOps Tasks AsyncCalls WorkerTasks CallSys Machine Workers Scheduler.

Inductive AivmWorkerInvocationStatus :=
  | AIVM_WORKER_INVOCATION_PENDING | AIVM_WORKER_INVOCATION_COMPLETED
  | AIVM_WORKER_INVOCATION_FAILED | AIVM_WORKER_INVOCATION_TRANSPORT_ERROR.

Global Instance invocation_status_eq_dec : EqDecision AivmWorkerInvocationStatus.
Proof. solve_decision. Defined.

(** [AivmWorkerInvocation]; the program is that of a catalog index of the runtime, the
    bindings and the profile are those of the runtime. *)
Record AivmWorkerInvocation := mk_invocation {
  inv_program : Z; payload : option (list Z); inv_result : option (list Z);
  inv_status : AivmWorkerInvocationStatus; inv_vm_error : AivmVmError; inv_error_detail : detail }.

Definition aivm_worker_invocation_clear (i : AivmWorkerInvocation) : AivmWorkerInvocation :=
  mk_invocation (inv_program i) None None AIVM_WORKER_INVOCATION_PENDING AIVM_VM_ERR_NONE (DText "").

(** The payload and the result are freed. *)
Definition aivm_worker_invocation_release (i : AivmWorkerInvocation) : AivmWorkerInvocation := aivm_worker_invocation_clear i.

Definition set_inv_program (index : Z) (i : AivmWorkerInvocation) : AivmWorkerInvocation :=
  mk_invocation index (payload i) (inv_result i) (inv_status i) (inv_vm_error i) (inv_error_detail i).

(** [granted]: whether there is memory for the copy. *)
Definition aivm_worker_invocation_set_payload (granted : bool) (bytes : list Z) (i : AivmWorkerInvocation) : option AivmWorkerInvocation :=
  if granted then Some (mk_invocation (inv_program i) (Some bytes) (inv_result i) (inv_status i) (inv_vm_error i) (inv_error_detail i))
  else None.

(** How a run left the invocation. *)
Definition inv_failed (e : AivmVmError) (d : detail) (i : AivmWorkerInvocation) : AivmWorkerInvocation :=
  mk_invocation (inv_program i) (payload i) (inv_result i) AIVM_WORKER_INVOCATION_FAILED e d.
Definition inv_transport_error (i : AivmWorkerInvocation) : AivmWorkerInvocation :=
  mk_invocation (inv_program i) (payload i) (inv_result i) AIVM_WORKER_INVOCATION_TRANSPORT_ERROR AIVM_VM_ERR_TYPE_MISMATCH
    (DText "Worker result must be bytes.").
Definition inv_completed (bytes : list Z) (i : AivmWorkerInvocation) : AivmWorkerInvocation :=
  mk_invocation (inv_program i) (payload i) (Some bytes) AIVM_WORKER_INVOCATION_COMPLETED (inv_vm_error i) (inv_error_detail i).

Section Runs.

Context {host : Host} {addresses : Addresses} {threads : Threads} {service : WorkerRuntime} {clock : Clock}.

(** ** Running a worker function *)

(** The loop of [run_worker_function]: [inl] goes on with a new state, [inr] is the end,
    with the result of a return of 1. *)
Definition worker_turn (p : AivmProgram) (w : AivmVm) : option (AivmVm + AivmVm * option AivmValue) :=
  if bool_decide (status w = AIVM_VM_STATUS_ERROR) then Some (inr (w, None))
  else if at_end p w then Some (inr (w, match stack w with [v] => Some v | _ => None end))
  else if instruction_count p <=? instruction_pointer w then Some (inr (w, None))
  else
    match aivm_step execute w with
    | Next w' =>
        if bool_decide (status w' = AIVM_VM_STATUS_HALTED) && negb (instruction_pointer w' =? instruction_count p)
        then Some (inr (w', None)) else Some (inl w')
    | _ => None
    end.

(** The threads the worker has started take turns in between. *)
Inductive worker_loop (p : AivmProgram) : AivmVm -> AivmVm * option AivmValue -> Prop :=
  | loop_ends w r : worker_turn p w = Some (inr r) -> worker_loop p w r
  | loop_turns w w' r : worker_turn p w = Some (inl w') -> worker_loop p w' r -> worker_loop p w r
  | loop_thread w w' r : thread_step w w' -> worker_loop p w' r -> worker_loop p w r.

(** The VM of an invocation before its loop, with the payload on the stack and a frame
    that returns to the end of the program; the allocation of the VM may fail. *)
Definition set_syscall_mask (mask : Z) (s : AivmVm) : AivmVm :=
  let t := task_table s in
  let y := syscalls t in
  set_task_table (set_syscalls (mk_syscalls (syscall_bindings y) (mk_policy mask) (syscall_elapsed_limit_ms y) (host_history y)) t) s.

Definition worker_start (p : AivmProgram) (target : Z) (input : list Z) : M unit :=
  do! aivm_stack_push (VBytes (BExt input) (zlen input)) in
  do! aivm_frame_push (instruction_count p) 0 in
  modify (set_instruction_pointer target).

Definition failure_of (w : AivmVm) (i : AivmWorkerInvocation) : AivmWorkerInvocation :=
  inv_failed (if bool_decide (error w = AIVM_VM_ERR_NONE) then AIVM_VM_ERR_INVALID_PROGRAM else error w)
    (DFormat "%s" [ADetail (error_detail w)]) i.

(** What is read from the result before the VM is disposed of. *)
Definition deliver (granted : bool) (w : AivmVm) (v : AivmValue) (i : AivmWorkerInvocation) : option AivmWorkerInvocation :=
  match v with
  | VBytes b n =>
      if (0 <? n) && bool_decide (b = BNull) then Some (inv_transport_error i)
      else if negb granted then Some (inv_failed AIVM_VM_ERR_MEMORY_PRESSURE (DText "Worker result allocation failed.") i)
      else if n =? 0 then Some (inv_completed [] i)
      else match deref_bytes b n w with Ok bytes _ => Some (inv_completed bytes i) | _ => None end
  | _ => Some (inv_transport_error i)
  end.

(** [aivm_worker_invocation_run] on a loaded program. *)
Inductive invocation_run (wp : AivmWorkerProgram) (bindings : option (list (AivmSyscallBinding (list host_call))))
    (profile : AivmRuntimeProfile) : AivmWorkerInvocation -> AivmWorkerInvocation -> Prop :=
  | run_no_memory i :
      invocation_run wp bindings profile i (inv_failed AIVM_VM_ERR_MEMORY_PRESSURE (DText "Worker VM allocation failed.") i)
  | run_not_started i p w0 w :
      loaded wp = Some p -> initialised_vm p bindings [] profile = Some w0 ->
      worker_start p (worker_function_target wp) (default [] (payload i)) (set_syscall_mask (worker_required_capabilities wp) w0) = Err w ->
      invocation_run wp bindings profile i (failure_of w i)
  | run_failed i p w0 w w' :
      loaded wp = Some p -> initialised_vm p bindings [] profile = Some w0 ->
      worker_start p (worker_function_target wp) (default [] (payload i)) (set_syscall_mask (worker_required_capabilities wp) w0) = Ok tt w ->
      worker_loop p w (w', None) -> invocation_run wp bindings profile i (failure_of w' i)
  | run_returned i p w0 w w' v granted i' :
      loaded wp = Some p -> initialised_vm p bindings [] profile = Some w0 ->
      worker_start p (worker_function_target wp) (default [] (payload i)) (set_syscall_mask (worker_required_capabilities wp) w0) = Ok tt w ->
      worker_loop p w (w', Some v) -> deliver granted w' v i = Some i' -> invocation_run wp bindings profile i i'.

Lemma deliver_ends granted w v i i' : deliver granted w v i = Some i' ->
  inv_status i' <> AIVM_WORKER_INVOCATION_PENDING /\ inv_program i' = inv_program i /\ payload i' = payload i.
Proof.
  unfold deliver. destruct v; try (by intros [= <-]). destruct (_ && _); [by intros [= <-]|]. destruct (negb granted); [by intros [= <-]|].
  destruct (_ =? _); [by intros [= <-]|]. destruct (deref_bytes _ _ _); [|done..]. by intros [= <-].
Qed.

(** A run ends with a verdict and leaves the submission as it was. *)
Lemma run_ends wp bindings profile i i' : invocation_run wp bindings profile i i' ->
  inv_status i' <> AIVM_WORKER_INVOCATION_PENDING /\ inv_program i' = inv_program i /\ payload i' = payload i.
Proof. destruct 1; try done. by eapply deliver_ends. Qed.

(** The loop without threads of the worker, for so many turns. *)
Fixpoint run_worker_function (fuel : nat) (p : AivmProgram) (w : AivmVm) : option (AivmVm * option AivmValue) :=
  match fuel with
  | O => None
  | S fuel' =>
      match worker_turn p w with
      | Some (inl w') => run_worker_function fuel' p w'
      | Some (inr r) => Some r
      | None => None
      end
  end.

Definition aivm_worker_invocation_run (fuel : nat) (granted : bool) (wp : AivmWorkerProgram)
    (bindings : option (list (AivmSyscallBinding (list host_call)))) (profile : AivmRuntimeProfile) (i : AivmWorkerInvocation)
    : option AivmWorkerInvocation :=
  p ← loaded wp;
  w0 ← initialised_vm p bindings [] profile;
  match worker_start p (worker_function_target wp) (default [] (payload i)) (set_syscall_mask (worker_required_capabilities wp) w0) with
  | Err w => Some (failure_of w i)
  | Ok _ w =>
      match run_worker_function fuel p w with
      | Some (w', None) => Some (failure_of w' i)
      | Some (w', Some v) => deliver granted w' v i
      | None => None
      end
  | Undef => None
  end.

Lemma function_loops fuel p : forall w r, run_worker_function fuel p w = Some r -> worker_loop p w r.
Proof.
  induction fuel as [|fuel IH]; intros w r; [done|]. cbn [run_worker_function].
  destruct (worker_turn p w) as [[w'|r']|] eqn:E; [|intros [= ->]; by apply loop_ends|done].
  intros Hr. eapply loop_turns; [exact E|by apply IH].
Qed.

Lemma computed_run fuel granted wp bindings profile i i' :
  aivm_worker_invocation_run fuel granted wp bindings profile i = Some i' -> invocation_run wp bindings profile i i'.
Proof.
  unfold aivm_worker_invocation_run. destruct (loaded wp) as [p|] eqn:El; [|done]. cbn [mbind option_bind].
  destruct (initialised_vm p bindings [] profile) as [w0|] eqn:Ei; [|done]. cbn [mbind option_bind].
  destruct (worker_start _ _ _ _) as [[] w|w|] eqn:Es; [|intros [= <-]; by eapply run_not_started|done].
  destruct (run_worker_function fuel p w) as [[w' [v|]]|] eqn:Ef; [| |done]; apply function_loops in Ef.
  - intros Hd. by eapply run_returned.
  - intros [= <-]. by eapply run_failed.
Qed.

End Runs.

(** ** The runtime *)

Record AivmWorkerRuntimeTask := mk_rt_task { rt_submission : Z; rt_invocation : AivmWorkerInvocation; rt_occupied : bool }.

(** [AivmWorkerRuntime] without its scheduler; [rt_tick] counts the allocations. *)
Record AivmWorkerRuntime := mk_runtime {
  owner_catalog : list AivmWorkerCatalogEntry; parent_policy : AivmSyscallCapabilityPolicy;
  rt_bindings : option (list (AivmSyscallBinding (list host_call))); rt_profile : AivmRuntimeProfile;
  rt_limit : Z; rt_active : Z; programs : list AivmWorkerProgram; rt_tasks : list AivmWorkerRuntimeTask; rt_tick : nat }.

(** The runtime with its scheduler, whose tasks run the invocations of slots. *)
Record wstate := mk_wstate { runtime : AivmWorkerRuntime; pool : system nat }.

Definition set_programs (ps : list AivmWorkerProgram) (tick : nat) (r : AivmWorkerRuntime) : AivmWorkerRuntime :=
  mk_runtime (owner_catalog r) (parent_policy r) (rt_bindings r) (rt_profile r) (rt_limit r) (rt_active r) ps (rt_tasks r) tick.
Definition set_slot (k : nat) (t : AivmWorkerRuntimeTask) (r : AivmWorkerRuntime) : AivmWorkerRuntime :=
  mk_runtime (owner_catalog r) (parent_policy r) (rt_bindings r) (rt_profile r) (rt_limit r) (rt_active r) (programs r)
    (<[k := t]> (rt_tasks r)) (rt_tick r).
Definition tick_once (r : AivmWorkerRuntime) : AivmWorkerRuntime := set_programs (programs r) (S (rt_tick r)) r.

Definition rt_named (id : Z) (t : AivmWorkerRuntimeTask) : bool := rt_occupied t && (rt_submission t =? id).
Definition find_runtime_task (ts : list AivmWorkerRuntimeTask) (id : Z) : option (nat * AivmWorkerRuntimeTask) :=
  list_find (fun t => rt_named id t = true) ts.

Definition program_status (st : AivmWorkerProgramStatus) : AivmWorkerRuntimeStatus :=
  match st with
  | AIVM_WORKER_PROGRAM_OK => AIVM_WORKER_RUNTIME_OK
  | AIVM_WORKER_PROGRAM_ERR_CAPABILITY => AIVM_WORKER_RUNTIME_ERR_CAPABILITY
  | AIVM_WORKER_PROGRAM_ERR_MEMORY => AIVM_WORKER_RUNTIME_ERR_MEMORY
  | AIVM_WORKER_PROGRAM_ERR_ARTIFACT | AIVM_WORKER_PROGRAM_ERR_SIGNATURE => AIVM_WORKER_RUNTIME_ERR_PROGRAM
  | AIVM_WORKER_PROGRAM_ERR_ARGUMENT => AIVM_WORKER_RUNTIME_ERR_ARGUMENT
  end.

Section Runtime.

Context (rt_alloc : nat -> Z -> bool) (SIZEOF_PROGRAM : Z).

(** A program is prepared once; [None] is an access outside an array. *)
Definition prepare_program (index : Z) (r : AivmWorkerRuntime) : option (AivmWorkerRuntimeStatus * AivmWorkerRuntime) :=
  wp ← zget (programs r) index;
  match loaded wp with
  | Some _ => Some (AIVM_WORKER_RUNTIME_OK, r)
  | None =>
      entry ← zget (owner_catalog r) index;
      match aivm_worker_program_prepare rt_alloc SIZEOF_PROGRAM entry (parent_policy r) (rt_tick r) with
      | None => None
      | Some (wp', st, tick', _) => Some (program_status st, set_programs (zset (programs r) index wp') tick' r)
      end
  end.

(** What the host answers while a runtime is created; [cpus] is its processor count. *)
Record RuntimeEnv := mk_runtime_env {
  runtime_block : bool; programs_block : bool; slots_block : bool; cpus : Z; scheduler_env : CreateEnv }.

Definition AIVM_VM_WORKER_COUNT : Z := 64.

Definition aivm_worker_runtime_create (env : RuntimeEnv) (owner : AivmProgram) (policy : AivmSyscallCapabilityPolicy)
    (bindings : option (list (AivmSyscallBinding (list host_call)))) (profile : AivmRuntimeProfile) (limit : Z) (tick : nat)
    : AivmWorkerRuntimeStatus * option wstate :=
  if limit =? 0 then (AIVM_WORKER_RUNTIME_ERR_ARGUMENT, None)
  else if negb (runtime_block env) then (AIVM_WORKER_RUNTIME_ERR_MEMORY, None)
  else if negb (programs_block env) || negb (slots_block env) then (AIVM_WORKER_RUNTIME_ERR_MEMORY, None)
  else
    let active := aivm_worker_active_capacity (cpus env) AIVM_VM_WORKER_COUNT limit in
    match aivm_worker_scheduler_create (scheduler_env env) active limit with
    | (AIVM_WORKER_SCHEDULER_OK, Some scheduler) =>
        let free_slot := mk_rt_task 0 (mk_invocation 0 None None AIVM_WORKER_INVOCATION_PENDING AIVM_VM_ERR_NONE (DText "")) false in
        (AIVM_WORKER_RUNTIME_OK,
         Some (mk_wstate
           (mk_runtime (worker_catalog owner) policy bindings profile limit active
              (replicate (length (worker_catalog owner)) aivm_worker_program_clear) (replicate (Z.to_nat limit) free_slot) tick)
           scheduler))
    | (AIVM_WORKER_SCHEDULER_ERR_MEMORY, _) => (AIVM_WORKER_RUNTIME_ERR_MEMORY, None)
    | _ => (AIVM_WORKER_RUNTIME_ERR_SYSTEM, None)
    end.

Definition aivm_worker_runtime_submit (index id : Z) (bytes : list Z) (st : wstate)
    : option (AivmWorkerRuntimeStatus * wstate) :=
  let r := runtime st in
  if zlen (programs r) <=? index then Some (AIVM_WORKER_RUNTIME_ERR_ARGUMENT, st)
  else if lim_bytes_arena (aivm_runtime_profile_limits (rt_profile r)) <? zlen bytes then Some (AIVM_WORKER_RUNTIME_ERR_LIMIT, st)
  else
    match find_runtime_task (rt_tasks r) id with
    | Some _ => Some (AIVM_WORKER_RUNTIME_ERR_LIMIT, st)
    | None =>
        match prepare_program index r with
        | None => None
        | Some (AIVM_WORKER_RUNTIME_OK, r1) =>
            match list_find (fun t => rt_occupied t = false) (rt_tasks r1) with
            | None => Some (AIVM_WORKER_RUNTIME_ERR_LIMIT, mk_wstate r1 (pool st))
            | Some (k, t) =>
                let i := set_inv_program index (aivm_worker_invocation_clear (rt_invocation t)) in
                let granted := rt_alloc (rt_tick r1) (if zlen bytes =? 0 then 1 else zlen bytes) in
                match aivm_worker_invocation_set_payload granted bytes i with
                | None => Some (AIVM_WORKER_RUNTIME_ERR_MEMORY, mk_wstate (tick_once (set_slot k (mk_rt_task id i false) r1)) (pool st))
                | Some i' =>
                    match aivm_worker_scheduler_submit id k (pool st) with
                    | (AIVM_WORKER_SCHEDULER_OK, pool') =>
                        Some (AIVM_WORKER_RUNTIME_OK, mk_wstate (tick_once (set_slot k (mk_rt_task id i' true) r1)) pool')
                    | (failure, pool') =>
                        Some (match failure with AIVM_WORKER_SCHEDULER_ERR_LIMIT => AIVM_WORKER_RUNTIME_ERR_LIMIT | _ => AIVM_WORKER_RUNTIME_ERR_SYSTEM end,
                              mk_wstate (tick_once (set_slot k (mk_rt_task id (aivm_worker_invocation_release i') false) r1)) pool')
                    end
                end
            end
        | Some (failure, r1) => Some (failure, mk_wstate r1 (pool st))
        end
    end.

(** [AivmWorkerRuntimeResult] as [aivm_worker_runtime_await] writes it. *)
Record await_result := mk_await {
  await_data : option (list Z); await_status : AivmWorkerRuntimeStatus; await_vm_error : AivmVmError; await_detail : detail }.

Definition canceled_result : await_result :=
  mk_await None AIVM_WORKER_RUNTIME_CANCELED AIVM_VM_ERR_NONE (DText "Worker task canceled.").

Definition result_of (i : AivmWorkerInvocation) : await_result :=
  mk_await (inv_result i)
    (match inv_status i with
     | AIVM_WORKER_INVOCATION_COMPLETED => AIVM_WORKER_RUNTIME_OK
     | AIVM_WORKER_INVOCATION_TRANSPORT_ERROR => AIVM_WORKER_RUNTIME_ERR_TRANSPORT
     | _ => AIVM_WORKER_RUNTIME_ERR_EXECUTION
     end) (inv_vm_error i) (inv_error_detail i).

(** The return of an await: its status is that of the result; [None] while it waits. *)
Definition aivm_worker_runtime_await (id : Z) (st : wstate) : option (AivmWorkerRuntimeStatus + await_result) :=
  match find_runtime_task (rt_tasks (runtime st)) id with
  | None => Some (inl AIVM_WORKER_RUNTIME_ERR_ARGUMENT)
  | Some (_, t) =>
      match find_task (tasks (sched (pool st))) id with
      | None => Some (inl AIVM_WORKER_RUNTIME_ERR_ARGUMENT)
      | Some (_, u) =>
          if negb (is_finished u) then None
          else if bool_decide (task_status u = AIVM_WORKER_TASK_CANCELED) then Some (inr canceled_result)
          else Some (inr (result_of (rt_invocation t)))
      end
  end.

Definition aivm_worker_runtime_cancel (id : Z) (st : wstate) : AivmWorkerRuntimeStatus * bool * wstate :=
  match aivm_worker_scheduler_cancel id (pool st) with
  | (AIVM_WORKER_SCHEDULER_OK, canceled, pool') => (AIVM_WORKER_RUNTIME_OK, canceled, mk_wstate (runtime st) pool')
  | (_, canceled, pool') => (AIVM_WORKER_RUNTIME_ERR_ARGUMENT, canceled, mk_wstate (runtime st) pool')
  end.

Definition aivm_worker_runtime_release (id : Z) (st : wstate) : AivmWorkerRuntimeStatus * wstate :=
  match find_runtime_task (rt_tasks (runtime st)) id with
  | None => (AIVM_WORKER_RUNTIME_ERR_ARGUMENT, st)
  | Some (k, t) =>
      match aivm_worker_scheduler_release id (pool st) with
      | (AIVM_WORKER_SCHEDULER_OK, pool') =>
          (AIVM_WORKER_RUNTIME_OK,
           mk_wstate (set_slot k (mk_rt_task (rt_submission t) (aivm_worker_invocation_release (rt_invocation t)) false) (runtime st)) pool')
      | (_, pool') => (AIVM_WORKER_RUNTIME_ERR_ARGUMENT, mk_wstate (runtime st) pool')
      end
  end.

(** The scheduler is stopped and its threads are joined; then the slots and the programs
    are released. *)
Definition aivm_worker_runtime_destroy (st : wstate) : wstate :=
  let r := runtime st in
  let release_slot (t : AivmWorkerRuntimeTask) :=
    if rt_occupied t then mk_rt_task (rt_submission t) (aivm_worker_invocation_release (rt_invocation t)) true else t in
  mk_wstate (mk_runtime (owner_catalog r) (parent_policy r) (rt_bindings r) (rt_profile r) (rt_limit r) (rt_active r)
      (map (fun wp => (aivm_worker_program_release wp).1) (programs r)) (map release_slot (rt_tasks r)) (rt_tick r))
    (stop_workers (pool st)).

Definition aivm_worker_runtime_active_limit (st : wstate) : Z := rt_active (runtime st).

End Runtime.

(** ** Interleavings *)

Inductive action := ASubmit (index id : Z) (bytes : list Z) | ACancel (id : Z) | ARelease (id : Z) | AInside.

Section Steps.

Context {host : Host} {addresses : Addresses} {threads : Threads} {service : WorkerRuntime} {clock : Clock}.
Context (rt_alloc : nat -> Z -> bool) (SIZEOF_PROGRAM : Z).

Definition put_pool (c : system nat) (st : wstate) : wstate := mk_wstate (runtime st) c.

(** The owner's calls, and the threads: a worker thread takes a task, runs the
    invocation of its slot, and reports it finished; waiting threads come and go. *)
Inductive wstep : action -> wstate -> wstate -> Prop :=
  | w_submit index id bytes status st st' : 0 <= index ->
      aivm_worker_runtime_submit rt_alloc SIZEOF_PROGRAM index id bytes st = Some (status, st') -> wstep (ASubmit index id bytes) st st'
  | w_cancel id st : wstep (ACancel id) st (aivm_worker_runtime_cancel id st).2
  | w_release id st : wstep (ARelease id) st (aivm_worker_runtime_release id st).2
  | w_take w c' st :
      (forall id j, workers (pool st) !! w <> Some (WRunning id j)) -> worker_step w (pool st) = Some c' -> wstep AInside st (put_pool c' st)
  | w_run w id k t wp i' st :
      workers (pool st) !! w = Some (WRunning id (Some k)) -> rt_tasks (runtime st) !! k = Some t ->
      zget (programs (runtime st)) (inv_program (rt_invocation t)) = Some wp ->
      inv_status (rt_invocation t) = AIVM_WORKER_INVOCATION_PENDING ->
      invocation_run wp (rt_bindings (runtime st)) (rt_profile (runtime st)) (rt_invocation t) i' ->
      wstep AInside st (mk_wstate (set_slot k (mk_rt_task (rt_submission t) i' (rt_occupied t)) (runtime st)) (pool st))
  | w_finish w id k t c' st :
      workers (pool st) !! w = Some (WRunning id (Some k)) -> rt_tasks (runtime st) !! k = Some t ->
      inv_status (rt_invocation t) <> AIVM_WORKER_INVOCATION_PENDING -> worker_step w (pool st) = Some c' ->
      wstep AInside st (put_pool c' st)
  | w_await_call id st : wstep AInside st (put_pool (mk_system (sched (pool st)) (workers (pool st)) (waiters (pool st) ++ [AAwake id])) st)
  | w_await a c' st : await_step a (pool st) = Some c' -> wstep AInside st (put_pool c' st)
  | w_spurious_worker w st : workers (pool st) !! w = Some WAsleep -> wstep AInside st (put_pool (with_worker w WAwake (pool st)) st)
  | w_spurious_waiter a id st : waiters (pool st) !! a = Some (AAsleep id) -> wstep AInside st (put_pool (with_waiter a (AAwake id) (pool st)) st).

(** ** The slots and the scheduler agree *)

Definition fresh_invocation (index : Z) (bytes : list Z) : AivmWorkerInvocation :=
  mk_invocation index (Some bytes) None AIVM_WORKER_INVOCATION_PENDING AIVM_VM_ERR_NONE (DText "").

Definition has_run (r : AivmWorkerRuntime) (i : AivmWorkerInvocation) : Prop := exists index bytes wp,
  inv_program i = index /\ payload i = Some bytes /\ zget (programs r) index = Some wp /\ is_Some (loaded wp) /\
  invocation_run wp (rt_bindings r) (rt_profile r) (fresh_invocation index bytes) i.

Definition is_fresh (r : AivmWorkerRuntime) (i : AivmWorkerInvocation) : Prop := exists index bytes wp,
  i = fresh_invocation index bytes /\ zget (programs r) index = Some wp /\ is_Some (loaded wp).

(** What a slot holds by the status of its task. *)
Definition slot_holds (r : AivmWorkerRuntime) (status : AivmWorkerTaskStatus) (i : AivmWorkerInvocation) : Prop :=
  match status with
  | AIVM_WORKER_TASK_QUEUED | AIVM_WORKER_TASK_CANCELED => is_fresh r i
  | AIVM_WORKER_TASK_RUNNING => is_fresh r i \/ has_run r i
  | AIVM_WORKER_TASK_COMPLETED => has_run r i
  end.

Record agree (st : wstate) : Prop := {
  ag_pool : system_ok (pool st);
  ag_slots : forall k t, rt_tasks (runtime st) !! k = Some t -> rt_occupied t = true ->
    exists j u, tasks (sched (pool st)) !! j = Some u /\ named (rt_submission t) u = true /\ task_run u = Some k /\
      slot_holds (runtime st) (task_status u) (rt_invocation t);
  ag_tasks : forall j u, tasks (sched (pool st)) !! j = Some u -> occupied u = true ->
    exists k t, task_run u = Some k /\ rt_tasks (runtime st) !! k = Some t /\ rt_named (submission_id u) t = true }.

Lemma has_run_ended r i : has_run r i -> inv_status i <> AIVM_WORKER_INVOCATION_PENDING.
Proof. intros (index & bytes & wp & _ & _ & _ & _ & Hr). by apply run_ends in Hr as [Hr _]. Qed.

Lemma fresh_pending r i : is_fresh r i -> inv_status i = AIVM_WORKER_INVOCATION_PENDING.
Proof. by intros (index & bytes & wp & -> & _). Qed.

(** Programs that are loaded stay. *)
Definition keeps_programs (r r' : AivmWorkerRuntime) : Prop := rt_bindings r' = rt_bindings r /\ rt_profile r' = rt_profile r /\
  forall index wp, zget (programs r) index = Some wp -> is_Some (loaded wp) -> zget (programs r') index = Some wp.

Lemma slot_holds_programs r r' status i : keeps_programs r r' -> slot_holds r status i -> slot_holds r' status i.
Proof.
  intros (Hb & Hp & Hkeep).
  assert (is_fresh r i -> is_fresh r' i) by (intros (index & bytes & wp & E & Hz & Hl); exists index, bytes, wp; auto).
  assert (has_run r i -> has_run r' i).
  { intros (index & bytes & wp & E & Ep & Hz & Hl & Hr). exists index, bytes, wp. rewrite Hb, Hp. auto 6. }
  destruct status; cbn; tauto.
Qed.

Lemma agree_programs st r' : agree st -> keeps_programs (runtime st) r' -> rt_tasks r' = rt_tasks (runtime st) ->
  agree (mk_wstate r' (pool st)).
Proof.
  intros [H1 H2 H3] Hk Ht. constructor; [done| |]; cbn [runtime pool]; rewrite Ht; [|done].
  intros k t Hkt Ho. destruct (H2 k t Hkt Ho) as (j & u & Hj & Hn & Hr & Hs). exists j, u. split_and!; try done.
  by eapply slot_holds_programs.
Qed.

(** The status of one task changes. *)
Lemma agree_status st c' i t status : agree st -> system_ok c' -> tasks (sched (pool st)) !! i = Some t ->
  tasks (sched c') = <[i := set_status status t]> (tasks (sched (pool st))) ->
  (forall k s, task_run t = Some k -> rt_tasks (runtime st) !! k = Some s -> slot_holds (runtime st) (task_status t) (rt_invocation s) ->
     slot_holds (runtime st) status (rt_invocation s)) ->
  agree (put_pool c' st).
Proof.
  intros [H1 H2 H3] Hok Hi Ht Hhold. constructor; [done| |]; cbn [runtime pool put_pool]; rewrite Ht.
  - intros k s Hk Ho. destruct (H2 k s Hk Ho) as (j & u & Hj & Hn & Hr & Hs). destruct (decide (i = j)) as [->|Hne].
    + rewrite Hi in Hj. injection Hj as ->. exists j, (set_status status u).
      split_and!; [apply list_lookup_insert_eq; by eapply lookup_lt_Some|done|done|by eapply Hhold].
    + exists j, u. split_and!; try done. by rewrite list_lookup_insert_ne.
  - intros j u Hj Ho. apply list_lookup_insert_Some in Hj as [(-> & <- & _)|(_ & Hj)]; [by apply (H3 j t)|by apply (H3 j u)].
Qed.

Lemma agree_same st c' : agree st -> system_ok c' -> tasks (sched c') = tasks (sched (pool st)) -> agree (put_pool c' st).
Proof. intros [H1 H2 H3] Hok Ht. constructor; [done| |]; cbn [runtime pool put_pool]; by rewrite Ht. Qed.

(** ** Every step keeps them in agreement *)

Lemma prepare_loaded entry policy tick wp tick' blocks :
  aivm_worker_program_prepare rt_alloc SIZEOF_PROGRAM entry policy tick = Some (wp, AIVM_WORKER_PROGRAM_OK, tick', blocks) -> is_Some (loaded wp).
Proof.
  unfold aivm_worker_program_prepare, aivm_worker_program_release. cbn [loaded]. repeat (case_match; try done); intros [= <- <-]; by eexists.
Qed.

Lemma prepare_keeps index r status r' : 0 <= index -> prepare_program rt_alloc SIZEOF_PROGRAM index r = Some (status, r') ->
  keeps_programs r r' /\ rt_tasks r' = rt_tasks r /\
  (status = AIVM_WORKER_RUNTIME_OK -> exists wp, zget (programs r') index = Some wp /\ is_Some (loaded wp)).
Proof.
  intros Hi. unfold prepare_program. destruct (zget (programs r) index) as [wp|] eqn:Ew; [|done]. cbn [mbind option_bind].
  destruct (loaded wp) as [p|] eqn:El.
  { intros [= <- <-]. split; [done|]. split; [done|]. intros _. exists wp. by rewrite El. }
  destruct (zget (owner_catalog r) index) as [entry|]; [|done]. cbn [mbind option_bind].
  destruct (aivm_worker_program_prepare _ _ _ _ _) as [[[[wp' st] tick'] blocks]|] eqn:Ep; [|done]. intros [= <- <-].
  split; [|split; [done|]].
  - split_and!; try done. intros index' wp0 Hz Hl. cbn. destruct (decide (index = index')) as [<-|Hne].
    + rewrite Ew in Hz. injection Hz as <-. rewrite El in Hl. by destruct Hl.
    + by rewrite zget_zset_ne.
  - intros Hst. exists wp'. cbn. split; [apply zget_zset_eq; by eapply zget_Some_bounds|].
    destruct st; try done. by eapply prepare_loaded.
Qed.

(** A free slot is written and stays free. *)
Lemma agree_free st r' k t t' : agree st -> rt_tasks (runtime st) !! k = Some t -> rt_occupied t = false ->
  rt_tasks r' = <[k := t']> (rt_tasks (runtime st)) -> rt_occupied t' = false -> keeps_programs (runtime st) r' -> agree (mk_wstate r' (pool st)).
Proof.
  intros [A1 A2 A3] Hk Ho Ht Ho' Hkeep. constructor; [done| |]; cbn [runtime pool]; rewrite Ht.
  - intros k' s Hs Hocc. apply list_lookup_insert_Some in Hs as [(-> & -> & _)|(_ & Hs)]; [congruence|].
    destruct (A2 k' s Hs Hocc) as (j & u & Hj & Hn & Hr & Hh). exists j, u. split_and!; try done. by eapply slot_holds_programs.
  - intros j u Hj Hocc. destruct (A3 j u Hj Hocc) as (k' & s & Hr & Hs & Hn). exists k', s. split_and!; try done.
    rewrite list_lookup_insert_ne; [done|]. intros ->. rewrite Hk in Hs. injection Hs as ->. unfold rt_named in Hn. by rewrite Ho in Hn.
Qed.

(** A free slot and a free task of the scheduler are taken together. *)
Lemma agree_submitted st r' id k t index bytes pool' : agree st -> rt_tasks (runtime st) !! k = Some t -> rt_occupied t = false ->
  keeps_programs (runtime st) r' -> (exists wp, zget (programs r') index = Some wp /\ is_Some (loaded wp)) ->
  aivm_worker_scheduler_submit id k (pool st) = (AIVM_WORKER_SCHEDULER_OK, pool') ->
  rt_tasks r' = <[k := mk_rt_task id (fresh_invocation index bytes) true]> (rt_tasks (runtime st)) -> agree (mk_wstate r' pool').
Proof.
  intros [A1 A2 A3] Hk Ho Hkeep (wp & Hwp & Hl) Hsub Ht. pose proof (submit_ok id k (pool st) A1) as Hok. rewrite Hsub in Hok.
  unfold aivm_worker_scheduler_submit in Hsub. destruct (_ <=? _); [done|]. destruct (find_task _ id) as [|]; [done|].
  destruct (list_find _ _) as [[i u0]|] eqn:Ei; [|done]. injection Hsub as <-. apply list_find_Some in Ei as (Hi & Hfree & _).
  constructor; [done| |]; cbn [runtime pool]; cbn [sched wake_all with_sched set_count put_task set_tasks tasks]; rewrite Ht.
  - intros k' s Hs Hocc. apply list_lookup_insert_Some in Hs as [(-> & <- & _)|(Hne & Hs)].
    + exists i, (mk_task id (Some k') AIVM_WORKER_TASK_QUEUED true). split_and!; try done.
      * apply list_lookup_insert_eq. by eapply lookup_lt_Some.
      * by apply named_split.
      * exists index, bytes, wp. done.
    + destruct (A2 k' s Hs Hocc) as (j & u & Hj & Hn & Hr & Hh). exists j, u. split_and!; try done; [|by eapply slot_holds_programs].
      rewrite list_lookup_insert_ne; [done|]. intros ->. rewrite Hi in Hj. injection Hj as ->.
      apply named_split in Hn as [Hn _]. congruence.
  - intros j u Hj Hocc. apply list_lookup_insert_Some in Hj as [(-> & <- & _)|(_ & Hj)].
    + exists k, (mk_rt_task id (fresh_invocation index bytes) true). split_and!; try done.
      * apply list_lookup_insert_eq. by eapply lookup_lt_Some.
      * unfold rt_named. cbn. by rewrite Z.eqb_refl.
    + destruct (A3 j u Hj Hocc) as (k' & s & Hr & Hs & Hn). exists k', s. split_and!; try done.
      rewrite list_lookup_insert_ne; [done|]. intros ->. rewrite Hk in Hs. injection Hs as ->. unfold rt_named in Hn. by rewrite Ho in Hn.
Qed.

Lemma find_runtime_Some ts id k t : find_runtime_task ts id = Some (k, t) -> ts !! k = Some t /\ rt_named id t = true.
Proof. unfold find_runtime_task. rewrite list_find_Some. tauto. Qed.

Lemma rt_named_split id t : rt_named id t = true <-> rt_occupied t = true /\ rt_submission t = id.
Proof. unfold rt_named. rewrite andb_true_iff, Z.eqb_eq. done. Qed.

Lemma submit_agree index id bytes status st st' : 0 <= index -> agree st ->
  aivm_worker_runtime_submit rt_alloc SIZEOF_PROGRAM index id bytes st = Some (status, st') -> agree st'.
Proof.
  intros Hindex Hst. unfold aivm_worker_runtime_submit. destruct (_ <=? _); [by intros [= <- <-]|]. destruct (_ <? _); [by intros [= <- <-]|].
  destruct (find_runtime_task _ _) as [|]; [by intros [= <- <-]|].
  destruct (prepare_program _ _ _ _) as [[ps r1]|] eqn:Ep; [|done]. apply prepare_keeps in Ep as (Hkeep & Ht & Hload); [|done].
  pose proof (agree_programs st r1 Hst Hkeep Ht) as Hr1. destruct ps; try (by intros [= <- <-]).
  destruct (list_find _ _) as [[k t]|] eqn:Ek; [|by intros [= <- <-]]. apply list_find_Some in Ek as (Hk & Ho & _). rewrite Ht in Hk.
  unfold aivm_worker_invocation_set_payload. destruct (rt_alloc _ _).
  2: { intros [= <- <-]. eapply agree_free; [exact Hst|exact Hk|exact Ho|by cbn; rewrite Ht|reflexivity|exact Hkeep]. }
  pose proof (submit_ok id k (pool st) (ag_pool st Hst)) as Hok. destruct (aivm_worker_scheduler_submit id k (pool st)) as [ss pool'] eqn:Es.
  assert (Hfail : ss <> AIVM_WORKER_SCHEDULER_OK -> pool' = pool st).
  { unfold aivm_worker_scheduler_submit in Es. repeat case_match; by simplify_eq. }
  destruct ss; intros [= <- <-]; try (rewrite Hfail by done; eapply agree_free; [exact Hst|exact Hk|exact Ho|by cbn; rewrite Ht|reflexivity|exact Hkeep]).
  eapply agree_submitted; [exact Hst|exact Hk|done|exact Hkeep|by apply Hload|exact Es|]. cbn. by rewrite Ht.
Qed.

Lemma cancel_agree id st : agree st -> agree (aivm_worker_runtime_cancel id st).2.
Proof.
  intros Hst. unfold aivm_worker_runtime_cancel. pose proof (cancel_ok id (pool st) (ag_pool st Hst)) as Hok.
  destruct (aivm_worker_scheduler_cancel id (pool st)) as [[r b] c'] eqn:Ec.
  enough (agree (put_pool c' st)) by (by destruct r). unfold aivm_worker_scheduler_cancel in Ec.
  destruct (find_task _ id) as [[i t]|] eqn:Ef; [|simplify_eq; by apply agree_same].
  apply find_task_Some in Ef as [Hi _]. case_bool_decide as Hq; [|simplify_eq; by apply agree_same]. injection Ec as _ _ <-.
  eapply agree_status; [done|done|exact Hi|reflexivity|]. intros k s _ _. by rewrite Hq.
Qed.

(** With distinct submissions the task of a slot is the one found by name. *)
Lemma slot_task st k t i u : agree st -> rt_tasks (runtime st) !! k = Some t -> rt_occupied t = true ->
  tasks (sched (pool st)) !! i = Some u -> named (rt_submission t) u = true ->
  task_run u = Some k /\ slot_holds (runtime st) (task_status u) (rt_invocation t).
Proof.
  intros Hst Hk Ho Hi Hn. destruct (ag_slots st Hst k t Hk Ho) as (j & v & Hj & Hnv & Hr & Hh).
  assert (u = v) as ->; [|done]. eapply (named_unique (tasks (sched (pool st)))); [apply (so_core _ (ag_pool st Hst))|..];
    [by eapply list_elem_of_lookup_2|by eapply list_elem_of_lookup_2|done|done].
Qed.

Lemma ids_index {job} (ts : list (AivmWorkerSchedulerTask job)) : NoDup (ids ts) -> forall i j u v,
  ts !! i = Some u -> ts !! j = Some v -> occupied u = true -> occupied v = true -> submission_id u = submission_id v -> i = j.
Proof.
  assert (Hhead : forall (t : AivmWorkerSchedulerTask job) rest j v, NoDup (ids (t :: rest)) -> rest !! j = Some v -> occupied t = true -> occupied v = true ->
    submission_id t <> submission_id v).
  { intros t rest j v Hnd Hj Ht Hv E. rewrite ids_cons, Ht in Hnd. apply NoDup_cons in Hnd as [Hn _]. apply Hn. rewrite E.
    eapply named_ids; [by eapply list_elem_of_lookup_2|]. by apply named_split. }
  induction ts as [|t ts IH]; intros Hnd [|i] [|j] u v Hu Hv Hou Hov E; try done.
  - injection Hu as ->. by destruct (Hhead u ts j v Hnd Hv Hou Hov).
  - injection Hv as ->. by destruct (Hhead v ts i u Hnd Hu Hov Hou).
  - f_equal. eapply IH; [|exact Hu|exact Hv|done..]. rewrite ids_cons in Hnd. apply NoDup_app in Hnd. tauto.
Qed.

Lemma release_agree id st : agree st -> agree (aivm_worker_runtime_release id st).2.
Proof.
  intros Hst. unfold aivm_worker_runtime_release. destruct (find_runtime_task _ id) as [[k t]|] eqn:Ek; [|done].
  apply find_runtime_Some in Ek as [Hk [Ho <-]%rt_named_split].
  pose proof (release_ok (rt_submission t) (pool st) (ag_pool st Hst)) as Hok.
  unfold aivm_worker_scheduler_release in *. destruct (find_task _ (rt_submission t)) as [[i u]|] eqn:Ef; [|by destruct st].
  apply find_task_Some in Ef as [Hi Hn]. destruct (negb (is_finished u)); [by destruct st|]. cbn [snd fst] in *.
  destruct (slot_task st k t i u Hst Hk Ho Hi Hn) as [Hrun _]. destruct Hst as [A1 A2 A3].
  constructor; [done| |]; cbn [runtime pool set_slot rt_tasks sched with_sched set_count put_task set_tasks tasks].
  - intros k' s Hs Hocc. apply list_lookup_insert_Some in Hs as [(-> & <- & _)|(Hne & Hs)]; [done|].
    destruct (A2 k' s Hs Hocc) as (j & v & Hj & Hnv & Hr & Hh). exists j, v. split_and!; try done.
    rewrite list_lookup_insert_ne; [done|]. intros ->. rewrite Hi in Hj. injection Hj as ->. congruence.
  - intros j v Hj Hocc. apply list_lookup_insert_Some in Hj as [(-> & <- & _)|(Hne & Hj)]; [done|].
    destruct (A3 j v Hj Hocc) as (k' & s & Hr & Hs & Hns). exists k', s. split_and!; try done.
    rewrite list_lookup_insert_ne; [done|]. intros ->. rewrite Hk in Hs. injection Hs as ->. apply rt_named_split in Hns as [_ Hid].
    apply Hne. apply named_split in Hn as [Hu1 Hu2]. eapply ids_index; [apply (so_core _ A1)|exact Hi|exact Hj|done|done|congruence].
Qed.

Lemma take_agree w c' st : agree st -> (forall id j, workers (pool st) !! w <> Some (WRunning id j)) ->
  worker_step w (pool st) = Some c' -> agree (put_pool c' st).
Proof.
  intros Hst Hw Hs. pose proof (worker_step_ok w _ _ (ag_pool st Hst) Hs) as Hok. unfold worker_step in Hs.
  destruct (workers (pool st) !! w) as [[| |id j|]|] eqn:Ew; [|done|by destruct (Hw id j)|done|done].
  destruct (stopping _); [simplify_eq; by apply agree_same|]. pose proof (find_queued_spec (tasks (sched (pool st)))) as Hq.
  destruct (find_queued_task _) as [[i t]|]; [|simplify_eq; by apply agree_same]. injection Hs as <-.
  destruct Hq as (Hi & Hq & _). unfold is_queued in Hq. apply andb_true_iff in Hq as [_ Hq]. apply bool_decide_eq_true in Hq.
  eapply agree_status; [done|done|exact Hi|reflexivity|]. intros k s _ _. rewrite Hq. cbn. by left.
Qed.

(** The slot a thread is running. *)
Lemma running_slot w id k t st : agree st -> workers (pool st) !! w = Some (WRunning id (Some k)) -> rt_tasks (runtime st) !! k = Some t ->
  exists i u, find_task (tasks (sched (pool st))) id = Some (i, u) /\ tasks (sched (pool st)) !! i = Some u /\
    named (rt_submission t) u = true /\ rt_occupied t = true /\ task_run u = Some k /\ task_status u = AIVM_WORKER_TASK_RUNNING /\
    (is_fresh (runtime st) (rt_invocation t) \/ has_run (runtime st) (rt_invocation t)).
Proof.
  intros Hst Hw Hk. destruct (running_found _ w id (Some k) (so_core _ (ag_pool st Hst)) Hw) as (i & u & Hf & Hi & Ho & Hid & Hr & Hrun).
  destruct (ag_tasks st Hst i u Hi Ho) as (k' & s & Hr' & Hs & Hn). assert (k' = k) as -> by congruence. rewrite Hk in Hs. injection Hs as <-.
  apply rt_named_split in Hn as [Hocc Hsub]. assert (Hname : named (rt_submission t) u = true) by (by apply named_split).
  destruct (slot_task st k t i u Hst Hk Hocc Hi Hname) as [_ Hh]. rewrite Hrun in Hh. by exists i, u.
Qed.

Lemma run_agree w id k t wp i' st : agree st -> workers (pool st) !! w = Some (WRunning id (Some k)) ->
  rt_tasks (runtime st) !! k = Some t -> zget (programs (runtime st)) (inv_program (rt_invocation t)) = Some wp ->
  inv_status (rt_invocation t) = AIVM_WORKER_INVOCATION_PENDING ->
  invocation_run wp (rt_bindings (runtime st)) (rt_profile (runtime st)) (rt_invocation t) i' ->
  agree (mk_wstate (set_slot k (mk_rt_task (rt_submission t) i' (rt_occupied t)) (runtime st)) (pool st)).
Proof.
  intros Hst Hw Hk Hwp Hp Hrun. destruct (running_slot w id k t st Hst Hw Hk) as (i & u & _ & Hi & Hn & Ho & Hr & Hstat & Hcase).
  destruct Hcase as [Hfresh|Hran]; [|by apply has_run_ended in Hran]. destruct Hfresh as (index & bytes & wp' & E & Hz & Hl).
  rewrite E in *. cbn [inv_program fresh_invocation] in Hwp. assert (wp' = wp) as -> by congruence.
  destruct (run_ends _ _ _ _ _ Hrun) as (_ & Ep & Eb). cbn in Ep, Eb. destruct Hst as [A1 A2 A3].
  constructor; [done| |]; cbn [runtime pool set_slot rt_tasks].
  - intros k' s Hs Hocc. apply list_lookup_insert_Some in Hs as [(-> & <- & _)|(_ & Hs)]; [|by apply A2].
    exists i, u. split_and!; try done. rewrite Hstat. right. by exists index, bytes, wp.
  - intros j v Hj Hocc. destruct (A3 j v Hj Hocc) as (k' & s & Hr' & Hs & Hns). destruct (decide (k = k')) as [<-|Hne].
    + rewrite Hk in Hs. injection Hs as <-. eexists k, _. split_and!; [done|apply list_lookup_insert_eq; by eapply lookup_lt_Some|done].
    + exists k', s. split_and!; try done. by rewrite list_lookup_insert_ne.
Qed.

Lemma finish_agree w id k t c' st : agree st -> workers (pool st) !! w = Some (WRunning id (Some k)) ->
  rt_tasks (runtime st) !! k = Some t -> inv_status (rt_invocation t) <> AIVM_WORKER_INVOCATION_PENDING ->
  worker_step w (pool st) = Some c' -> agree (put_pool c' st).
Proof.
  intros Hst Hw Hk Hp Hs. pose proof (worker_step_ok w _ _ (ag_pool st Hst) Hs) as Hok.
  destruct (running_slot w id k t st Hst Hw Hk) as (i & u & Hf & Hi & Hn & Ho & Hr & Hstat & Hcase).
  unfold worker_step in Hs. rewrite Hw, Hf, bool_decide_eq_true_2 in Hs by done. injection Hs as <-.
  eapply agree_status; [done|done|exact Hi|reflexivity|]. intros k' s Hr' Hs _. assert (k' = k) as -> by congruence.
  rewrite Hk in Hs. injection Hs as <-. destruct Hcase as [Hfresh|Hran]; [by apply fresh_pending in Hfresh|done].
Qed.

Lemma wstep_agree a st st' : wstep a st st' -> agree st -> agree st'.
Proof.
  destruct 1 as [index id bytes status st st' Hi Hs|id st|id st|w c' st Hw Hs|w id k t wp i' st Hw Hk Hwp Hp Hr|w id k t c' st Hw Hk Hp Hs|id st|a c' st Hs|w st Hw|a id st Ha]; intros Hst.
  - by eapply submit_agree.
  - by apply cancel_agree.
  - by apply release_agree.
  - by eapply take_agree.
  - by eapply run_agree.
  - by eapply finish_agree.
  - apply agree_same; [done| |done]. eapply step_ok; [apply Hst|apply step_await_call].
  - apply agree_same; [done|by eapply await_step_ok; [apply Hst|]|]. unfold await_step in Hs. repeat case_match; by simplify_eq.
  - apply agree_same; [done| |done]. eapply step_ok; [apply Hst|by apply step_spurious_worker].
  - apply agree_same; [done| |done]. eapply step_ok; [apply Hst|by eapply step_spurious_waiter].
Qed.

(** ** Programs come from the catalog *)

Definition prepared (r : AivmWorkerRuntime) (index : Z) (wp : AivmWorkerProgram) : Prop := exists entry tick tick' blocks,
  zget (owner_catalog r) index = Some entry /\
  aivm_worker_program_prepare rt_alloc SIZEOF_PROGRAM entry (parent_policy r) tick = Some (wp, AIVM_WORKER_PROGRAM_OK, tick', blocks).

Definition all_prepared (r : AivmWorkerRuntime) : Prop :=
  forall index wp, zget (programs r) index = Some wp -> is_Some (loaded wp) -> prepared r index wp.

(** What a step leaves as it was, and what it adds to the programs. *)
Definition same_owner (r r' : AivmWorkerRuntime) : Prop :=
  owner_catalog r' = owner_catalog r /\ parent_policy r' = parent_policy r /\ rt_bindings r' = rt_bindings r /\ rt_profile r' = rt_profile r.

Lemma prepare_refused entry policy tick wp status tick' blocks :
  aivm_worker_program_prepare rt_alloc SIZEOF_PROGRAM entry policy tick = Some (wp, status, tick', blocks) ->
  status = AIVM_WORKER_PROGRAM_OK \/ loaded wp = None.
Proof.
  unfold aivm_worker_program_prepare, aivm_worker_program_release. cbn [loaded]. repeat (case_match; try done); intros [= <- <- <- <-];
    first [left; reflexivity|right; reflexivity].
Qed.

Lemma prepare_prepared index r status r' : prepare_program rt_alloc SIZEOF_PROGRAM index r = Some (status, r') ->
  same_owner r r' /\ (all_prepared r -> all_prepared r').
Proof.
  unfold prepare_program. destruct (zget (programs r) index) as [wp|] eqn:Ew; [|done]. cbn [mbind option_bind].
  destruct (loaded wp); [by intros [= <- <-]|]. destruct (zget (owner_catalog r) index) as [entry|] eqn:Ee; [|done]. cbn [mbind option_bind].
  destruct (aivm_worker_program_prepare _ _ _ _ _) as [[[[wp' st] tick'] blocks]|] eqn:Ep; [|done]. intros [= <- <-]. split; [done|].
  intros Hall index' wp0 Hz Hl. cbn in Hz. destruct (decide (index = index')) as [<-|Hne].
  - rewrite zget_zset_eq in Hz by (by eapply zget_Some_bounds). injection Hz as <-.
    destruct (prepare_refused _ _ _ _ _ _ _ Ep) as [->|Hnone]; [by exists entry, (rt_tick r), tick', blocks|]. rewrite Hnone in Hl. by destruct Hl.
  - rewrite zget_zset_ne in Hz by done. by apply (Hall index').
Qed.

Lemma submit_prepared index id bytes status st st' :
  aivm_worker_runtime_submit rt_alloc SIZEOF_PROGRAM index id bytes st = Some (status, st') ->
  same_owner (runtime st) (runtime st') /\ (all_prepared (runtime st) -> all_prepared (runtime st')).
Proof.
  unfold aivm_worker_runtime_submit. destruct (_ <=? _); [by intros [= <- <-]|]. destruct (_ <? _); [by intros [= <- <-]|].
  destruct (find_runtime_task _ _); [by intros [= <- <-]|].
  destruct (prepare_program _ _ _ _) as [[ps r1]|] eqn:Ep; [|done]. apply prepare_prepared in Ep.
  repeat case_match; intros [= <- <-]; exact Ep.
Qed.

Lemma wstep_prepared a st st' : wstep a st st' ->
  same_owner (runtime st) (runtime st') /\ (all_prepared (runtime st) -> all_prepared (runtime st')).
Proof.
  destruct 1 as [index id bytes status st st' Hi Hs|id st|id st| | | | | | |]; try done.
  - by eapply submit_prepared.
  - unfold aivm_worker_runtime_cancel. by repeat case_match.
  - unfold aivm_worker_runtime_release. by repeat case_match.
Qed.

(** ** A submission keeps its slot *)

Definition holds (id index : Z) (bytes : list Z) (st : wstate) : Prop := exists k t,
  rt_tasks (runtime st) !! k = Some t /\ rt_named id t = true /\ inv_program (rt_invocation t) = index /\ payload (rt_invocation t) = Some bytes.

Lemma holds_free id index bytes st st' k t t' : holds id index bytes st -> rt_tasks (runtime st) !! k = Some t -> rt_occupied t = false ->
  rt_tasks (runtime st') = <[k := t']> (rt_tasks (runtime st)) -> holds id index bytes st'.
Proof.
  intros (k0 & t0 & Hk0 & Hn & Hp & Hb) Hk Ho Ht. exists k0, t0. split_and!; try done. rewrite Ht.
  rewrite list_lookup_insert_ne; [done|]. intros <-. apply rt_named_split in Hn as [Hn _]. congruence.
Qed.

Lemma submit_holds index' id' bytes' status id index bytes st st' : 0 <= index' -> holds id index bytes st ->
  aivm_worker_runtime_submit rt_alloc SIZEOF_PROGRAM index' id' bytes' st = Some (status, st') -> holds id index bytes st'.
Proof.
  intros Hi Hh. unfold aivm_worker_runtime_submit. destruct (_ <=? _); [by intros [= <- <-]|]. destruct (_ <? _); [by intros [= <- <-]|].
  destruct (find_runtime_task _ _); [by intros [= <- <-]|].
  destruct (prepare_program _ _ _ _) as [[ps r1]|] eqn:Ep; [|done]. apply prepare_keeps in Ep as (_ & Ht & _); [|done].
  assert (Hr1 : forall c, holds id index bytes (mk_wstate r1 c)) by (intros c; unfold holds; cbn; by rewrite Ht).
  destruct ps; try (intros [= <- <-]; apply Hr1).
  destruct (list_find _ _) as [[k t]|] eqn:Ek; [|intros [= <- <-]; apply Hr1]. apply list_find_Some in Ek as (Hk & Ho & _). rewrite Ht in Hk.
  repeat case_match; intros [= <- <-]; (eapply holds_free; [exact Hh|exact Hk|exact Ho|cbn; by rewrite Ht]).
Qed.

Lemma wstep_holds a id index bytes st st' : wstep a st st' -> a <> ARelease id -> holds id index bytes st -> holds id index bytes st'.
Proof.
  destruct 1 as [index' id' bytes' status st st' Hi Hs|id' st|id' st| |w id' k t wp i' st Hw Hk Hwp Hp Hr| | | | |]; intros Ha Hh; try done.
  - by eapply submit_holds.
  - unfold aivm_worker_runtime_cancel. by repeat case_match.
  - unfold aivm_worker_runtime_release. destruct (find_runtime_task _ id') as [[k t]|] eqn:Ek; [|done].
    apply find_runtime_Some in Ek as [Hk Hn]. destruct (aivm_worker_scheduler_release id' (pool st)) as [[] c']; try done.
    destruct Hh as (k0 & t0 & Hk0 & Hn0 & Hp & Hb). exists k0, t0. split_and!; try done. cbn. rewrite list_lookup_insert_ne; [done|].
    intros <-. rewrite Hk in Hk0. injection Hk0 as ->. apply rt_named_split in Hn as [_ Hn]. apply rt_named_split in Hn0 as [_ Hn0]. congruence.
  - destruct Hh as (k0 & t0 & Hk0 & Hn & Hpr & Hb). destruct (run_ends _ _ _ _ _ Hr) as (_ & Ep & Eb). unfold holds. cbn.
    destruct (decide (k = k0)) as [<-|Hne].
    + rewrite Hk in Hk0. injection Hk0 as ->. eexists k, _. split; [apply list_lookup_insert_eq; by eapply lookup_lt_Some|].
      cbn. rewrite Ep, Eb. by split_and!.
    + exists k0, t0. by rewrite list_lookup_insert_ne.
Qed.

(** ** Results *)

Definition any_step (st st' : wstate) : Prop := exists a, wstep a st st'.
Definition step_but_release (id : Z) (st st' : wstate) : Prop := exists a, wstep a st st' /\ a <> ARelease id.

Definition runtime_reached (env : RuntimeEnv) (owner : AivmProgram) (policy : AivmSyscallCapabilityPolicy)
    (bindings : option (list (AivmSyscallBinding (list host_call)))) (profile : AivmRuntimeProfile) (limit : Z) (st : wstate) : Prop :=
  exists st0 tick, aivm_worker_runtime_create env owner policy bindings profile limit tick = (AIVM_WORKER_RUNTIME_OK, Some st0) /\
    rtc any_step st0 st.

Lemma replicate_lookup {A} n (x y : A) k : replicate n x !! k = Some y -> y = x.
Proof. intros Hk. by apply lookup_replicate in Hk as [-> _]. Qed.

Lemma create_agree env owner policy bindings profile limit tick st : 0 <= limit -> cpus env < 2 ^ 57 ->
  aivm_worker_runtime_create env owner policy bindings profile limit tick = (AIVM_WORKER_RUNTIME_OK, Some st) ->
  agree st /\ all_prepared (runtime st) /\ owner_catalog (runtime st) = worker_catalog owner /\ parent_policy (runtime st) = policy /\
    rt_bindings (runtime st) = bindings /\ rt_profile (runtime st) = profile.
Proof.
  intros Hl Hcpu. unfold aivm_worker_runtime_create. destruct (limit =? 0); [done|]. destruct (negb _); [done|]. destruct (_ || _); [done|].
  set (active := aivm_worker_active_capacity _ _ _).
  assert (Ha : 0 <= active) by (unfold active, aivm_worker_active_capacity; cbv zeta; repeat case_match; lia).
  destruct (aivm_worker_scheduler_create (scheduler_env env) active limit) as [[] [c|]] eqn:Ec; try done. intros [= <-].
  pose proof (create_ok _ _ _ _ Ha Hl Ec) as Hok.
  assert (Hfree : forall j u, tasks (sched c) !! j = Some u -> occupied u = false).
  { unfold aivm_worker_scheduler_create in Ec. repeat case_match; simplify_eq. cbn. intros j u Hj. by apply replicate_lookup in Hj as ->. }
  split_and!; try done.
  - constructor; [done| |]; cbn.
    + intros k t Hk Ho. by apply replicate_lookup in Hk as ->.
    + intros j u Hj Ho. rewrite (Hfree j u Hj) in Ho. done.
  - intros index wp Hz Hld. cbn in Hz. unfold zget in Hz. destruct (index <? 0); [done|]. apply replicate_lookup in Hz as ->. by destruct Hld.
Qed.

Lemma any_steps_kept st st' : rtc any_step st st' -> agree st -> all_prepared (runtime st) ->
  agree st' /\ all_prepared (runtime st') /\ same_owner (runtime st) (runtime st').
Proof.
  induction 1 as [|st st1 st' [a Ha] _ IH]; intros Hst Hp; [done|]. destruct (wstep_prepared a st st1 Ha) as [(S1 & S2 & S3 & S4) Hp1].
  destruct IH as (I1 & I2 & (T1 & T2 & T3 & T4)); [by eapply wstep_agree|by apply Hp1|]. split_and!; [done|done|].
  split_and!; congruence.
Qed.

Lemma kept_until_release id index bytes st st' : rtc (step_but_release id) st st' -> holds id index bytes st ->
  holds id index bytes st' /\ rtc any_step st st'.
Proof.
  induction 1 as [|st st1 st' (a & Ha & Hne) _ IH]; intros Hh; [by split; [|constructor]|].
  destruct IH as [I1 I2]; [by eapply wstep_holds|]. split; [done|]. eapply rtc_l; [by exists a|done].
Qed.

Lemma submit_ok_holds index id bytes st st' : 0 <= index ->
  aivm_worker_runtime_submit rt_alloc SIZEOF_PROGRAM index id bytes st = Some (AIVM_WORKER_RUNTIME_OK, st') -> holds id index bytes st'.
Proof.
  intros Hi. unfold aivm_worker_runtime_submit. destruct (_ <=? _); [done|]. destruct (_ <? _); [done|].
  destruct (find_runtime_task _ _); [done|].
  destruct (prepare_program _ _ _ _) as [[ps r1]|] eqn:Ep; [|done]. destruct ps; try done.
  destruct (list_find _ _) as [[k t]|] eqn:Ek; [|done]. apply list_find_Some in Ek as (Hk & Ho & _).
  unfold aivm_worker_invocation_set_payload. destruct (rt_alloc _ _); [|done].
  destruct (aivm_worker_scheduler_submit id k (pool st)) as [[] c']; try done. intros [= <-].
  eexists k, _. cbn. split; [apply list_lookup_insert_eq; by eapply lookup_lt_Some|]. split_and!; try done. by apply rt_named_split.
Qed.

(** What an await of a submission that has its slot gives. *)
Lemma await_of st id index bytes : agree st -> holds id index bytes st ->
  match aivm_worker_runtime_await id st with
  | None => True
  | Some (inl _) => False
  | Some (inr r) => r = canceled_result \/ exists wp i, zget (programs (runtime st)) index = Some wp /\ is_Some (loaded wp) /\
      invocation_run wp (rt_bindings (runtime st)) (rt_profile (runtime st)) (fresh_invocation index bytes) i /\ r = result_of i
  end.
Proof.
  intros Hst (k0 & t0 & Hk0 & Hn0 & Hp & Hb). unfold aivm_worker_runtime_await.
  assert (Hslot : forall k t, rt_tasks (runtime st) !! k = Some t -> rt_named id t = true -> t = t0).
  { intros k t Hk Hn. apply rt_named_split in Hn as [Ho <-]. destruct (ag_slots st Hst k t Hk Ho) as (j & u & Hj & Hnu & Hr & _).
    apply rt_named_split in Hn0 as [Ho0 Hid0]. rewrite <- Hid0 in Hnu.
    destruct (slot_task st k0 t0 j u Hst Hk0 Ho0 Hj Hnu) as [Hr0 _]. congruence. }
  destruct (find_runtime_task _ id) as [[k t]|] eqn:Ef.
  2: { unfold find_runtime_task in Ef. apply list_find_None in Ef. rewrite Forall_forall in Ef. by apply (Ef t0); [eapply list_elem_of_lookup_2|]. }
  apply find_runtime_Some in Ef as [Hk Hn]. pose proof (Hslot k t Hk Hn) as ->. apply rt_named_split in Hn as [Ho <-].
  destruct (find_task _ (rt_submission t0)) as [[i u]|] eqn:Eu.
  2: { apply find_task_None in Eu. destruct (ag_slots st Hst k t0 Hk Ho) as (j & u & Hj & Hnu & _). destruct Eu.
       eapply named_ids; [by eapply list_elem_of_lookup_2|done]. }
  apply find_task_Some in Eu as [Hi Hnu]. destruct (is_finished u) eqn:Efin; [|done]. cbn [negb].
  case_bool_decide as Hc; [by left|]. right. destruct (slot_task st k t0 i u Hst Hk Ho Hi Hnu) as [_ Hh].
  assert (Hrun : has_run (runtime st) (rt_invocation t0)) by (unfold is_finished in Efin; destruct (task_status u); done).
  destruct Hrun as (index' & bytes' & wp & E1 & E2 & Hz & Hl & Hr). assert (index' = index) as -> by congruence.
  assert (bytes' = bytes) as -> by congruence. by exists wp, (rt_invocation t0).
Qed.

(** C24: the result of a worker task is that of its own run.  However submissions,
    cancellations, releases, waits and worker threads interleave, an await of an accepted
    submission that has not been released is never refused; when it returns, the task was
    canceled before it ran, or the result is what one run of the worker gives on exactly
    the payload that was submitted, with the program the catalog entry of that worker was
    prepared to under the policy of the parent. *)
Theorem worker_result_is_its_run env owner policy bindings profile limit st0 st1 st index id bytes :
  0 <= limit -> cpus env < 2 ^ 57 -> 0 <= index ->
  runtime_reached env owner policy bindings profile limit st0 ->
  aivm_worker_runtime_submit rt_alloc SIZEOF_PROGRAM index id bytes st0 = Some (AIVM_WORKER_RUNTIME_OK, st1) ->
  rtc (step_but_release id) st1 st ->
  match aivm_worker_runtime_await id st with
  | None => True
  | Some (inl _) => False
  | Some (inr r) => r = canceled_result \/ exists entry wp i tick tick' blocks,
      zget (worker_catalog owner) index = Some entry /\
      aivm_worker_program_prepare rt_alloc SIZEOF_PROGRAM entry policy tick = Some (wp, AIVM_WORKER_PROGRAM_OK, tick', blocks) /\
      invocation_run wp bindings profile (fresh_invocation index bytes) i /\ r = result_of i
  end.
Proof.
  intros Hl Hcpu Hi (c0 & tick0 & Hc & H01) Hsub Hsteps.
  destruct (create_agree _ _ _ _ _ _ _ _ Hl Hcpu Hc) as (A0 & P0 & E1 & E2 & E3 & E4).
  destruct (any_steps_kept c0 st0 H01 A0 P0) as (A1 & P1 & S1).
  assert (Hw : any_step st0 st1) by (exists (ASubmit index id bytes); eapply w_submit; [exact Hi|exact Hsub]).
  destruct (kept_until_release id index bytes st1 st Hsteps) as [Hh Hany]; [by eapply submit_ok_holds|].
  destruct (any_steps_kept st0 st) as (A2 & P2 & S2); [by eapply rtc_l|done|done|].
  pose proof (await_of st id index bytes A2 Hh) as Hawait. destruct (aivm_worker_runtime_await id st) as [[s|r]|]; [done| |done].
  destruct Hawait as [->|(wp & i & Hz & Hld & Hr & ->)]; [by left|]. right.
  destruct (P2 index wp Hz Hld) as (entry & tick & tick' & blocks & He & Hprep).
  destruct S1 as (S11 & S12 & S13 & S14), S2 as (S21 & S22 & S23 & S24).
  exists entry, wp, i, tick, tick', blocks. rewrite S21, S11, E1 in He. rewrite S22, S12, E2 in Hprep. rewrite S23, S13, E3, S24, S14, E4 in Hr. done.
Qed.

(** ** A thread takes a task, runs it and reports it *)

Definition serve_task (w fuel : nat) (st : wstate) : option wstate :=
  match workers (pool st) !! w with
  | Some WAwake =>
      c1 ← worker_step w (pool st);
      match workers c1 !! w with
      | Some (WRunning _ (Some k)) =>
          t ← rt_tasks (runtime st) !! k;
          wp ← zget (programs (runtime st)) (inv_program (rt_invocation t));
          i' ← aivm_worker_invocation_run fuel true wp (rt_bindings (runtime st)) (rt_profile (runtime st)) (rt_invocation t);
          c2 ← worker_step w c1;
          if bool_decide (inv_status (rt_invocation t) = AIVM_WORKER_INVOCATION_PENDING)
          then Some (mk_wstate (set_slot k (mk_rt_task (rt_submission t) i' (rt_occupied t)) (runtime st)) c2) else None
      | _ => None
      end
  | _ => None
  end.

Lemma serve_steps w fuel id st st' : serve_task w fuel st = Some st' -> rtc (step_but_release id) st st'.
Proof.
  unfold serve_task. destruct (workers (pool st) !! w) as [[| | |]|] eqn:Ew; try done.
  destruct (worker_step w (pool st)) as [c1|] eqn:E1; [|done]. cbn [mbind option_bind].
  destruct (workers c1 !! w) as [[| |id' [k|]|]|] eqn:Ew1; try done.
  destruct (rt_tasks (runtime st) !! k) as [t|] eqn:Et; [|done]. cbn [mbind option_bind].
  destruct (zget _ _) as [wp|] eqn:Ep; [|done]. cbn [mbind option_bind].
  destruct (aivm_worker_invocation_run _ _ _ _ _ _) as [i'|] eqn:Er; [|done]. cbn [mbind option_bind]. apply computed_run in Er.
  destruct (worker_step w c1) as [c2|] eqn:E2; [|done]. cbn [mbind option_bind]. case_bool_decide as Hpend; [|done]. intros [= <-].
  eapply rtc_l; [exists AInside; split; [eapply (w_take w c1); [by rewrite Ew|exact E1]|done]|].
  eapply rtc_l; [exists AInside; split; [by eapply (w_run w id' k t wp i' (put_pool c1 st))|done]|].
  eapply rtc_l; [exists AInside; split; [|done]|constructor].
  eapply (w_finish w id' k (mk_rt_task (rt_submission t) i' (rt_occupied t)) c2
    (mk_wstate (set_slot k (mk_rt_task (rt_submission t) i' (rt_occupied t)) (runtime st)) c1)); [exact Ew1| | |exact E2].
  - cbn. apply list_lookup_insert_eq. by eapply lookup_lt_Some.
  - by apply run_ends in Er as [Er _].
Qed.

End Steps.

(** ** A worker that returns its payload *)

Section Echo.

#[local] Instance echo_host : Host := example_host.
#[local] Instance echo_threads : Threads := {| host_thread_starts := fun _ => true |}.
#[local] Instance echo_service : WorkerRuntime := {|
  runtime_create := fun _ _ _ _ => AIVM_WORKER_RUNTIME_ERR_SYSTEM;
  runtime_submit := fun _ _ _ _ => AIVM_WORKER_RUNTIME_ERR_SYSTEM;
  runtime_await := fun _ _ => (AIVM_WORKER_RUNTIME_ERR_SYSTEM, None);
  runtime_cancel := fun _ _ => (AIVM_WORKER_RUNTIME_ERR_SYSTEM, false);
  runtime_release := fun _ _ => AIVM_WORKER_RUNTIME_OK |}.
#[local] Instance echo_clock : Clock := {| host_clock := fun _ => 0 |}.
#[local] Instance echo_addresses : Addresses := {| arena_address := fun gen => gen * 4294967296 |}.

Definition echo_owner : AivmProgram :=
  mk_program [] 0 0 [] 0 0 2 0 0 [] [] [] [sample_entry].
Definition echo_env : RuntimeEnv := mk_runtime_env true true true 4 example_env.
Definition echo_policy : AivmSyscallCapabilityPolicy := aivm_syscall_policy_allow_production_default.

Definition echo_created : option wstate :=
  (aivm_worker_runtime_create echo_env echo_owner echo_policy None AIVM_RUNTIME_PROFILE_PRODUCTION 3 0).2.
Definition echo_submit : wstate -> option (AivmWorkerRuntimeStatus * wstate) :=
  aivm_worker_runtime_submit (fun _ _ => true) 1000 0 7 [104; 105].

Example echo_result :
  option_map (fun st => aivm_worker_runtime_await 7 st) (st0 ← echo_created; r ← echo_submit st0; serve_task 0 10 r.2) =
  Some (Some (inr (mk_await (Some [104; 105]) AIVM_WORKER_RUNTIME_OK AIVM_VM_ERR_NONE (DText "")))).
Proof. vm_compute. reflexivity. Qed.

Lemma echo_parts : exists st0 st1 st, echo_created = Some st0 /\ echo_submit st0 = Some (AIVM_WORKER_RUNTIME_OK, st1) /\
  serve_task 0 10 st1 = Some st /\
  aivm_worker_runtime_await 7 st = Some (inr (mk_await (Some [104; 105]) AIVM_WORKER_RUNTIME_OK AIVM_VM_ERR_NONE (DText ""))).
Proof.
  assert (Hok : option_map (fun r => r.1) (st0 ← echo_created; echo_submit st0) = Some AIVM_WORKER_RUNTIME_OK) by (vm_compute; reflexivity).
  pose proof echo_result as Hres. destruct echo_created as [st0|]; [|done]. cbn [mbind option_bind] in Hok, Hres.
  destruct (echo_submit st0) as [[status st1]|] eqn:E1; [|done]. cbn [mbind option_bind option_map fst snd] in Hok, Hres. injection Hok as ->.
  destruct (serve_task 0 10 st1) as [st|] eqn:E2; [|done]. injection Hres as Hres. by exists st0, st1, st.
Qed.

Lemma worker_result_is_its_run_witness : exists st r, aivm_worker_runtime_await 7 st = Some (inr r) /\ await_data r = Some [104; 105] /\
  (r = canceled_result \/ exists entry wp i tick tick' blocks, zget (worker_catalog echo_owner) 0 = Some entry /\
     aivm_worker_program_prepare (fun _ _ => true) 1000 entry echo_policy tick = Some (wp, AIVM_WORKER_PROGRAM_OK, tick', blocks) /\
     invocation_run wp None AIVM_RUNTIME_PROFILE_PRODUCTION (fresh_invocation 0 [104; 105]) i /\ r = result_of i).
Proof.
  destruct echo_parts as (st0 & st1 & st & E0 & E1 & E2 & E3). exists st. eexists. split; [exact E3|]. split; [reflexivity|].
  assert (Hc : aivm_worker_runtime_create echo_env echo_owner echo_policy None AIVM_RUNTIME_PROFILE_PRODUCTION 3 0 =
    (AIVM_WORKER_RUNTIME_OK, Some st0)).
  { unfold echo_created in E0. rewrite <- E0. vm_compute. reflexivity. }
  pose proof (worker_result_is_its_run (fun _ _ => true) 1000 echo_env echo_owner echo_policy None AIVM_RUNTIME_PROFILE_PRODUCTION 3
    st0 st1 st 0 7 [104; 105] ltac:(lia) ltac:(reflexivity) ltac:(lia) (ex_intro _ st0 (ex_intro _ 0%nat (conj Hc (rtc_refl _ st0))))
    E1 (serve_steps _ _ _ _ 7 st1 st E2)) as H.
  rewrite E3 in H. exact H.
Defined.

End Echo.
